(* ===== verification/_CoqProject ===== *)
-Q . S2P
Prelude.v
Actions.v
StreamDecoder.v
NetconfFraming.v
NodePath.v
JsText.v
JsMap.v
TftpSession.v
RpkiStore.v
RpkiWorker.v
RpkiSession.v
Utf8.v
IpAddr.v
BgpPacket.v
BgpSession.v
BgpUpdate.v
BgpRoutes.v
DhcpPacket.v
DhcpWorker.v
Ipv6Text.v
Dhcp6Packet.v
Dhcp6Worker.v
TcpAuthForward.v
RadiusPacket.v
RadiusWorker.v
WorkerRequests.v
Base64.v
ProcessSerialization.v
FtpSession.v
NetconfXml.v
NetconfClient.v
BmpFrames.v
BmpPacket.v
BmpPeer.v
BmpPeerProperties.v
BmpBatch.v
BmpPersistence.v
