(* ===== verification/Prelude.v ===== *)
(** * NetNexus: a verified model of its protocol engines

    NetNexus is an Electron application that plays the network side of many protocols:
    it serves an RPKI cache, speaks BGP, collects BMP, hands out addresses, transfers
    files, authenticates users over RADIUS, manages devices over NETCONF.  Each protocol
    is a worker process under src/electron/worker/ that the main process drives by request
    messages.  This development models workers and codecs function by function and proves
    what they promise to their peers.  Paths below are under src/electron/.

    ** Files

    Shared:

    - [Prelude] (this file): exceptions and [result], buffers as lists of bytes with
      Node's reads, writes, [slice] and [copy], decimal text, field update.
    - [Actions]: methods of objects as state-passing actions with effects; a method that
      can throw is an attempt and keeps what it did before the throw.
    - [StreamDecoder]: the interface [StreamLaws] of a receive loop over a byte stream,
      with termination, independence of fragmentation and resumption proved from it.
      [NetconfFraming], [RpkiSession] and [BgpSession] instantiate it.
    - [NodePath], [JsText], [JsMap], [Utf8], [Base64]: Node's [path], strings of UTF-16
      units, text of numbers, the ordered [Map], UTF-8 and base64 of buffers.
    - [IpAddr]: the laws of ipaddr.js that the code relies on.

    Components:

    - [NetconfFraming]: the two framers of utils/netconf/framing.js; [NetconfXml]:
      utils/netconf/xml.js and builders.js; [NetconfClient]: the session of
      utils/netconf/client.js over both.
    - [TftpSession]: one transfer, worker/transfer/tftpSession.js.
    - [FtpSession]: control and data connections, worker/transfer/ftpSession.js, with the
      table of sessions of ftpWorker.js.
    - [RpkiStore]: the tables of worker/rpki/rpkiSqliteStore.js with the staged imports;
      [RpkiWorker]: serial numbers and change history, worker/rpki/rpkiWorker.js, over that
      store; [RpkiSession]: one router's connection, worker/rpki/rpkiSession.js, which reads
      snapshots and changes from the worker.
    - [BgpPacket]: OPEN, KEEPALIVE and NOTIFICATION of worker/bgp/bgpSession.js and the
      message parser utils/bgp/bgpPacketParser.js; [BgpSession]: the state machine of
      worker/bgp/bgpSession.js and the peers it drives.
    - [BgpUpdate]: received UPDATE messages, utils/bgp/bgpPacketParser.js; [BgpRoutes]: sent
      ones, worker/bgp/bgpPeer.js with shared/bgpExtendedCommunities.js; the session is the
      context of both.
    - [BmpFrames]: the receive buffer of worker/bmp/bmpSession.js; [BmpPacket]: the readers
      of utils/bmp/bmpUtils.js and bmpSession.js; [BmpPeer]: one monitored peer,
      worker/bmp/bmpBgpSession.js and identityFallbackMap.js, with the handlers of Peer Up,
      Peer Down and End-of-RIB of bmpSession.js; [BmpPeerProperties]: its theorems.
    - [BmpBatch]: the encoding of batches, bmpPersistenceClient.js and decodeBatchMutations
      of bmpPersistenceStore.js; [BmpPersistence]: the queue, batches, retries, drains and
      fences of worker/bmp/bmpPersistenceClient.js.
    - [DhcpPacket], [DhcpWorker]: worker/dhcp/dhcpWorker.js and dhcpLease.js.
    - [Ipv6Text], [Dhcp6Packet], [Dhcp6Worker]: worker/dhcp/dhcp6Worker.js and dhcp6Lease.js.
    - [RadiusPacket]: the codec utils/radiusUtils.js; [RadiusWorker]: the server
      worker/services/radiusWorker.js.
    - [TcpAuthForward]: worker/core/tcpAuthForwardProtocol.js and the internal socket of
      worker/core/tcpAuthForwardingServer.js.
    - [WorkerRequests]: requests between the main process and its workers, the three clients
      (workerWithPromise.js, requestWorkerClient.js, requestProcessClient.js) and the message
      handler of worker/core; [ProcessSerialization]: the objects in these messages,
      worker/core/protocolProcessSerialization.js, over an explicit heap with sharing.

    Definitions keep the names of the code.  A JavaScript object is a record, a method an
    action on it, an asynchronous call an effect whose callback is a definition run as a
    later event.  Where events interleave ([tftp_step], [dhcp_step], [dhcp6_reachable],
    [ftp_runs], [reachable] of the NETCONF client, [runs] of the persistence client) the
    theorems hold for every order.

    ** What the theorems show

    - Byte streams: decoding depends on the bytes only and not on how they were cut
      ([chunked_fragmentation], [delimiter_fragmentation], [rpki_fragmentation],
      [bgp_fragmentation], [netconf_fragmentation], [bmp_stream_processed],
      [tcp_auth_forward]).  On a malformed stream what a failing push has decoded before
      the fault is lost in the program; there the comparison is of state and error.
    - Encoders and parsers agree: framing, OPEN messages, DHCP packets, IPv6 texts, RADIUS
      packets, messages between processes, batches of mutations; the TLVs of BMP are those
      of a grammar.
    - RPKI: the history answers every serial query with the change that turns the old data
      into the new ([rpki_delta_correct], a refinement of set difference), what a router is
      sent for a reset and for a serial query is the cache's data, the tables stay
      consistent and the history stays within its limits.
    - TFTP: files outside the root are never touched, a transfer ends once and reports
      once, downloads and uploads deliver the bytes, retries are bounded.
    - FTP: nothing is done with files or data connections before the login, and a passive
      download sends exactly its replies and its file.
    - BGP: the handshake, the agreement of both sides on ADD-PATH, the states of
      the peers, the hold timer, and totality of the parsers.  The messages a peer builds
      for a group of IPv4 routes are read by the other side as exactly these routes
      ([bgp_routes_delivered], [bgp_withdrawals_delivered]).
    - BMP: the key of a peer names it, a split Peer Up is one Peer Up, a Peer Down makes
      stale exactly what is tracked, a purge spares newer routes, the readers end.  The
      mutations that the persistence client accepts are committed in order and none is
      lost, one that waits is always under way ([bmp_commit_under_way]) and can be committed,
      and sources are paused within the watermarks.
    - DHCP: the two tables stay inverse to each other, no address has two clients in
      them, a client that asks while an address is left obtains a lease; DHCPv6 offers the
      lowest free address and its search ends.
    - RADIUS: who gets an Access-Accept, and that the client can verify the answer.
    - NETCONF client: each call settles once, the reply with its identifier settles it, and
      timers run exactly while something waits for them.
    - Requests: each call settles once in every order of events, a response reaches its call;
      a serialized message is a copy of the graph of objects and shows no other bytes.
    - Behaviour that is not what the code means to do is stated as theorems or lemmas where
      it concerns what is modelled: block number rollover in TFTP
      ([tftp_rollover_never_completes]), a BGP message of length zero
      ([bgp_zero_length_hangs]), a group of routes without room in a message, addresses given
      twice in both DHCP servers, authorization without a password in RADIUS, names that leave
      the root of FTP ([ftp_leaves_root]), waiting for a commit after a worker was lost
      while it closed ([drain_after_lost_close]).  Each holds of the code as it is.

    ** Bounds and fuel

    Numbers are exact integers: every one the modelled code computes is below 2^53, and
    reads and writes of a field keep its width.  Parse loops have the length of the buffer
    as fuel; each turn consumes at least a byte.  The receive loops are functions of fuel
    with theorems that enough fuel gives a result ([stream_loop_total]); the loops of the BMP
    readers are proved to end the same way ([bmp_peer_messages_end]).
    The pool search of DHCPv6 has one turn more than there are taken addresses, which
    [search_enough] shows to be enough.  Encoding a message has the number of objects of the
    heap as fuel.  The microtasks that an event of the persistence client leaves run before
    the next event; weights of the jobs give the fuel ([jobs_end]).

    ** Parameters

    Code that is not in the repository is a parameter with the laws used: ipaddr.js
    ([IpAddr]), MD5, HMAC-MD5 and SHA-256 in RADIUS, the parser and validator of
    fast-xml-parser in NETCONF, conversion of address text to bytes in BGP and RPKI, the
    size of a serialized change, JSON.stringify and the heap in the batches of BMP,
    whether a message can be posted. Random numbers, message identifiers from outside
    and the contents of memory from [allocUnsafe] are arguments. The UPDATE parser is
    given a decoder for the attributes it is not a model of (multiprotocol reachability,
    extended communities, PMSI, tunnels, prefix SID), and [BmpFrames] what a message
    does to the rest of its session; the theorems hold for every such function.

    ** Not modelled

    Node's sockets and files are effects; their failures are events.  Paths are POSIX paths.
    Listeners do not call back into the object that reports to them.  Logging and the text
    of messages to the user interface are left out.  The Vue interface (src/src), the
    windows and services of the main process, scripts and tests are not
    protocol logic.  SNMP, gRPC and the compilation of YANG are done by libraries and native
    code.  The BGP and BMP route stores are SQL executed by better-sqlite3.

    ** What could follow

    The multiprotocol attributes of UPDATE messages (bgpPacketParser.js, bgpUtils.js,
    bgpEncoding.js) with the builders of the peers; the routes of BMP Route Monitoring and
    the Loc-RIB; the NETCONF worker and its inventory; the process host of worker/core; the
    NTP server and the syslog parser. *)

From stdpp Require Import base list numbers strings option.
From Stdlib Require Import ZArith Lia.

Open Scope Z_scope.

(** * Exceptions and fallible computations

    JavaScript code that can throw is modelled by [result]: the value it
    returns or the exception it raises.  Exceptions carry what a caller can
    observe: the class of a built-in error or the [code] property of an error
    the program raises. *)

Inductive js_exn :=
| TypeError
| RangeError
| ErrorCode (code : string)
| ErrorMsg (message : string).

Inductive result (A : Type) :=
| Ok (a : A)
| Throw (e : js_exn).
Arguments Ok {A} a.
Arguments Throw {A} e.

Definition bind_result {A B} (m : result A) (k : A -> result B) : result B :=
  match m with
  | Ok a => k a
  | Throw e => Throw e
  end.

Declare Scope js_scope.
Delimit Scope js_scope with js.
Open Scope js_scope.

Notation "'let!' x ':=' m 'in' k" := (bind_result m (fun x => k))
  (at level 10, x pattern, m at level 100, k at level 200) : js_scope.
Notation "'guard!' c 'else' e 'in' k" := (if c then k else Throw e)
  (at level 10, c at level 100, e at level 100, k at level 200) : js_scope.

(** [l.map(f)] for a function that can throw. *)
Fixpoint map_ok {A B} (f : A -> result B) (l : list A) : result (list B) :=
  match l with
  | [] => Ok []
  | x :: tl => let! y := f x in let! ys := map_ok f tl in Ok (y :: ys)
  end.

(** A loop may not end: [None] is running out of fuel. *)
Definition run (A : Type) : Type := option (result A).

Definition bind_run {A B} (m : run A) (k : A -> run B) : run B :=
  match m with
  | None => None
  | Some (Ok a) => k a
  | Some (Throw e) => Some (Throw e)
  end.

Notation "'let?' x ':=' m 'in' k" := (bind_run m (fun x => k))
  (at level 10, x pattern, m at level 100, k at level 200) : js_scope.

#[global] Instance js_exn_eq_dec : EqDecision js_exn.
Proof. solve_decision. Defined.

(** [maximum `||` default] on numbers: an absent or zero option takes the
    default. *)
Definition js_or_number (v : option Z) (d : Z) : Z :=
  match v with
  | None => d
  | Some n => if n =? 0 then d else n
  end.

(** * Record update

    [r <| f := v |>] is [r] with its field [f] replaced.  A record type declares how
    it is rebuilt from its fields ([rebuild]); the setter of a field is computed from
    that by abstracting the projection. *)

Class Rebuild (R : Type) := rebuild : R -> R.

Class Field {R E : Type} (getter : R -> E) := modify : (E -> E) -> R -> R.

Ltac solve_field :=
  match goal with
  | |- @Field ?R ?E ?getter =>
    let inst := constr:(ltac:(typeclasses eauto) : Rebuild R) in
    let body := eval hnf in (inst : R -> R) in
    let abstracted := eval pattern getter in body in
    match abstracted with
    | ?g _ => exact (fun (f : E -> E) (r : R) => g (fun r' => f (getter r')) r)
    end
  end.

#[global] Hint Extern 0 (Field _) => solve_field : typeclass_instances.

Notation "r <| f := v |>" := (modify (getter := f) (fun _ => v) r)
  (at level 1, f at level 0, v at level 200, left associativity, format "r  <| f  :=  v |>") : js_scope.

(** * Numbers

    The bit operators of JavaScript work on 32-bit integers: operands are
    reduced modulo 2^32 and the result is read as a signed 32-bit integer
    ([>>>] gives the unsigned reading). *)

Definition to_uint32 (x : Z) : Z := x mod 2 ^ 32.

Definition to_int32 (x : Z) : Z :=
  let u := to_uint32 x in
  if 2 ^ 31 <=? u then u - 2 ^ 32 else u.

Definition js_and (a b : Z) : Z := to_int32 (Z.land (to_uint32 a) (to_uint32 b)).
Definition js_or (a b : Z) : Z := to_int32 (Z.lor (to_uint32 a) (to_uint32 b)).
Definition js_xor (a b : Z) : Z := to_int32 (Z.lxor (to_uint32 a) (to_uint32 b)).
Definition js_not (a : Z) : Z := to_int32 (Z.lnot (to_uint32 a)).
Definition js_shl (a n : Z) : Z := to_int32 (Z.shiftl (to_uint32 a) n).
Definition js_shr (a n : Z) : Z := Z.shiftr (to_int32 a) n.
Definition js_ushr (a n : Z) : Z := Z.shiftr (to_uint32 a) n.

Definition max_safe_integer : Z := 2 ^ 53 - 1.

Definition is_safe_integer (n : Z) : bool :=
  (- max_safe_integer <=? n) && (n <=? max_safe_integer).

(** * Buffers

    A Node.js [Buffer] is a list of numbers between 0 and 255.  [is_byte] and
    [bytes_ok] state that range; every operation that stores into a buffer
    reduces modulo 256 or checks the range, as Node does. *)

Abbreviation buffer := (list Z) (only parsing).

Definition is_byte (b : Z) : Prop := 0 <= b < 256.
Definition bytes_ok (b : buffer) : Prop := Forall is_byte b.

Definition blen {A} (b : list A) : Z := Z.of_nat (length b).

(** [buf[i]]: [None] is [undefined]. *)
Definition bget (b : buffer) (i : Z) : option Z :=
  if i <? 0 then None else b !! Z.to_nat i.

(** [buf[i]] at a position the code has checked to be inside, and in arithmetic, where
    [undefined] counts as 0. *)
Definition byte_at (b : buffer) (i : Z) : Z := default 0 (bget b i).

(** [buf.subarray(s, e)] for non-negative [s] and [e]. *)
Definition subarray {A} (b : list A) (s e : Z) : list A :=
  take (Z.to_nat (e - s)) (drop (Z.to_nat s) b).

(** [buf.subarray(s)]. *)
Definition subarray_from {A} (b : list A) (s : Z) : list A := drop (Z.to_nat s) b.

Definition alloc (n : Z) : buffer := replicate (Z.to_nat n) 0.

(** Big-endian value of a byte list, and the bytes of a value. *)
Definition be_value (bs : buffer) : Z := fold_left (fun acc b => acc * 256 + b) bs 0.

Fixpoint be_bytes (n : nat) (v : Z) : buffer :=
  match n with
  | O => []
  | S m => be_bytes m (v / 256) ++ [v mod 256]
  end.

(** [readUIntBE]-style reads throw a [RangeError] outside the buffer. *)
Definition readUIntBE (n : Z) (b : buffer) (off : Z) : result Z :=
  if (0 <=? off) && (off + n <=? blen b) then Ok (be_value (subarray b off (off + n)))
  else Throw RangeError.

Definition readUInt8 := readUIntBE 1.
Definition readUInt16BE := readUIntBE 2.
Definition readUInt32BE := readUIntBE 4.

(** Overwrite [length src] bytes from [off]; the caller has checked the room. *)
Definition splice (b : buffer) (off : Z) (src : buffer) : buffer :=
  take (Z.to_nat off) b ++ src ++ drop (Z.to_nat off + length src)%nat b.

(** [writeUInt8/16/32BE] throw a [RangeError] for a value out of range or an
    offset outside the buffer. *)
Definition writeUIntBE (n : nat) (b : buffer) (v off : Z) : result buffer :=
  if (0 <=? v) && (v <? 2 ^ (8 * Z.of_nat n)) && (0 <=? off) && (off + Z.of_nat n <=? blen b)
  then Ok (splice b off (be_bytes n v))
  else Throw RangeError.

Definition writeUInt8 := writeUIntBE 1.
Definition writeUInt16BE := writeUIntBE 2.
Definition writeUInt32BE := writeUIntBE 4.

(** [buf[i] = v] stores [v] modulo 256 and is ignored out of range. *)
Definition bset (b : buffer) (i v : Z) : buffer :=
  if i <? 0 then b else <[Z.to_nat i := v mod 256]> b.

(** [src.copy(buf, off)]: as much of [src] as fits. *)
Definition copy_into (src b : buffer) (off : Z) : buffer :=
  splice b off (take (Z.to_nat (blen b - off)) src).

(** [buf.indexOf(pattern, from)]: the first position at or after [from]; [None]
    stands for a negative result. *)
Fixpoint index_from (pat b : buffer) (pos : nat) : option nat :=
  match b with
  | [] => if decide (pat = []) then Some pos else None
  | _ :: tl => if decide (take (length pat) b = pat) then Some pos else index_from pat tl (S pos)
  end.

Definition indexOf (b pat : buffer) (from : Z) : option Z :=
  Z.of_nat <$> index_from pat (drop (Z.to_nat from) b) (Z.to_nat from).

(** * Strings

    A JavaScript string is its list of UTF-16 code units.  [js] builds one from
    an ASCII literal. *)

Abbreviation jsstring := (list Z) (only parsing).

Definition js (s : string) : jsstring :=
  map (fun c => Z.of_N (Ascii.N_of_ascii c)) (String.list_ascii_of_string s).

(** [Buffer.from(s, 'ascii')] keeps the low byte of each code unit;
    [buf.toString('ascii')] clears the high bit of each byte. *)
Definition ascii_encode (s : jsstring) : buffer := map (fun c => c mod 256) s.
Definition ascii_decode (b : buffer) : jsstring := map (fun c => c mod 128) b.

Definition toLowerCase (s : jsstring) : jsstring :=
  map (fun c => if (65 <=? c) && (c <=? 90) then c + 32 else c) s.

(** [Buffer.from(text, 'hex')]: pairs of digits up to the first that is not one. *)
Definition hex_value (c : Z) : option Z :=
  if (48 <=? c) && (c <=? 57) then Some (c - 48)
  else if (65 <=? c) && (c <=? 70) then Some (c - 55)
  else if (97 <=? c) && (c <=? 102) then Some (c - 87)
  else None.

Fixpoint hex_decode (s : jsstring) : buffer :=
  match s with
  | a :: b :: tl =>
    match hex_value a, hex_value b with
    | Some x, Some y => (x * 16 + y) :: hex_decode tl
    | _, _ => []
    end
  | _ => []
  end.

(** The white space of [trim] and of [\s] in a regular expression. *)
Definition is_space (c : Z) : bool :=
  ((9 <=? c) && (c <=? 13)) || (c =? 32) || (c =? 160) || (c =? 5760) || ((8192 <=? c) && (c <=? 8202)) ||
  (c =? 8232) || (c =? 8233) || (c =? 8239) || (c =? 8287) || (c =? 12288) || (c =? 65279).

(** Decimal text of a non-negative number ([String(n)]). *)
Fixpoint dec_digits_fuel (fuel : nat) (n : Z) : jsstring :=
  match fuel with
  | O => []
  | S f => if n <? 10 then [48 + n] else dec_digits_fuel f (n / 10) ++ [48 + n mod 10]
  end.

Definition dec_digits (n : Z) : jsstring := dec_digits_fuel (S (Z.to_nat (Z.log2 n))) n.

Definition js_number_to_string (n : Z) : jsstring :=
  if n <? 0 then 45 :: dec_digits (- n) else dec_digits n.

(** Value of a text of decimal digits ([Number(text)] for such a text). *)
Definition is_digit (c : Z) : bool := (48 <=? c) && (c <=? 57).

Definition dec_value (s : jsstring) : Z := fold_left (fun acc c => acc * 10 + (c - 48)) s 0.

(** The regular expression [/^[1-9][0-9]*$/]. *)
Definition is_positive_decimal (s : jsstring) : bool :=
  match s with
  | [] => false
  | c :: tl => (49 <=? c) && (c <=? 57) && forallb is_digit tl
  end.

(** * Lemmas on buffers *)

Create HintDb bytes.
Create Rewrite HintDb blen.

Ltac zdiv := Z.div_mod_to_equations; nia.

(** Split the [if]s and [match]es of the goal, keeping the equations. *)
Ltac case_if :=
  match goal with
  | |- context [if ?b then _ else _] => let E := fresh "E" in destruct b eqn:E
  | H : context [if ?b then _ else _] |- _ => let E := fresh "E" in destruct b eqn:E
  end.

(** Turn boolean tests on integers in the hypotheses into propositions. *)
Ltac bool_hyps :=
  repeat match goal with
  | H : (_ && _) = true |- _ => apply andb_true_iff in H; destruct H
  | H : (_ || _) = false |- _ => apply orb_false_iff in H; destruct H
  | H : (_ && _) = false |- _ => apply andb_false_iff in H
  | H : (_ || _) = true |- _ => apply orb_true_iff in H
  | H : negb _ = true |- _ => apply negb_true_iff in H
  | H : negb _ = false |- _ => apply negb_false_iff in H
  | H : (_ <? _) = true |- _ => apply Z.ltb_lt in H
  | H : (_ <? _) = false |- _ => apply Z.ltb_ge in H
  | H : (_ <=? _) = true |- _ => apply Z.leb_le in H
  | H : (_ <=? _) = false |- _ => apply Z.leb_gt in H
  | H : (_ =? _) = true |- _ => apply Z.eqb_eq in H
  | H : (_ =? _) = false |- _ => apply Z.eqb_neq in H
  end.

Lemma bind_ok {A B} (m : result A) (k : A -> result B) b :
  bind_result m k = Ok b <-> exists a, m = Ok a /\ k a = Ok b.
Proof.
  destruct m; cbn; [|split; [done | by intros (? & ? & _)]].
  split; [eauto | by intros (? & [= <-] & ?)].
Qed.

Lemma blen_nonneg {A} (b : list A) : 0 <= blen b.
Proof. unfold blen; lia. Qed.

Lemma blen_nil {A} : blen (@nil A) = 0.
Proof. reflexivity. Qed.

Lemma blen_cons {A} (x : A) b : blen (x :: b) = 1 + blen b.
Proof. unfold blen; cbn [length]; lia. Qed.

Lemma blen_app {A} (a b : list A) : blen (a ++ b) = blen a + blen b.
Proof. unfold blen; rewrite length_app; lia. Qed.

Lemma blen_0_inv {A} (b : list A) : blen b = 0 -> b = [].
Proof. destruct b; [done | rewrite blen_cons; pose proof (blen_nonneg b); lia]. Qed.

Lemma blen_take {A} (b : list A) n : blen (take n b) = Z.min (Z.of_nat n) (blen b).
Proof. unfold blen; rewrite length_take; lia. Qed.

Lemma blen_drop {A} (b : list A) n : blen (drop n b) = Z.max 0 (blen b - Z.of_nat n).
Proof. unfold blen; rewrite length_drop; lia. Qed.

Lemma blen_alloc n : 0 <= n -> blen (alloc n) = n.
Proof. intros; unfold blen, alloc; rewrite length_replicate; lia. Qed.

Lemma blen_map {A B} (f : A -> B) b : blen (map f b) = blen b.
Proof. unfold blen; now rewrite length_map. Qed.

#[export] Hint Rewrite @blen_nil @blen_cons @blen_app @blen_take @blen_drop @blen_map : blen.

Lemma subarray_app_l {A} (a b : list A) : subarray (a ++ b) 0 (blen a) = a.
Proof.
  unfold subarray, blen. rewrite Z.sub_0_r, Nat2Z.id. change (Z.to_nat 0) with 0%nat.
  now rewrite drop_0, take_app_length.
Qed.

Lemma subarray_from_app {A} (a b : list A) : subarray_from (a ++ b) (blen a) = b.
Proof. unfold subarray_from, blen. now rewrite Nat2Z.id, drop_app_length. Qed.

Lemma subarray_mid {A} (a m c : list A) :
  subarray (a ++ m ++ c) (blen a) (blen a + blen m) = m.
Proof.
  unfold subarray, blen. rewrite Nat2Z.id, drop_app_length.
  replace (Z.to_nat (_ + _ - _)) with (length m) by lia. now rewrite take_app_length.
Qed.

Lemma subarray_split {A} (b : list A) n :
  0 <= n -> b = subarray b 0 n ++ subarray_from b n.
Proof.
  intros. unfold subarray, subarray_from. rewrite Z.sub_0_r.
  change (Z.to_nat 0) with 0%nat. now rewrite drop_0, take_drop.
Qed.

Lemma blen_subarray {A} (b : list A) s e :
  0 <= s -> s <= e -> e <= blen b -> blen (subarray b s e) = e - s.
Proof. intros. unfold subarray. autorewrite with blen. lia. Qed.

Lemma blen_subarray_from {A} (b : list A) s :
  0 <= s -> s <= blen b -> blen (subarray_from b s) = blen b - s.
Proof. intros. unfold subarray_from. autorewrite with blen. lia. Qed.

Lemma bytes_ok_subarray b s e : bytes_ok b -> bytes_ok (subarray b s e).
Proof. intros. by apply Forall_take, Forall_drop. Qed.

Lemma bytes_ok_subarray_from b s : bytes_ok b -> bytes_ok (subarray_from b s).
Proof. intros. by apply Forall_drop. Qed.

Lemma bytes_ok_app a b : bytes_ok (a ++ b) <-> bytes_ok a /\ bytes_ok b.
Proof. apply Forall_app. Qed.

Lemma bytes_ok_cons b bs : bytes_ok (b :: bs) <-> is_byte b /\ bytes_ok bs.
Proof. apply Forall_cons_iff. Qed.

Lemma bytes_ok_alloc n : bytes_ok (alloc n).
Proof. apply Forall_replicate. unfold is_byte; lia. Qed.

#[export] Hint Resolve bytes_ok_subarray bytes_ok_subarray_from bytes_ok_alloc : bytes.

(** Whether a concrete buffer is one, by evaluation. *)
Lemma bytes_ok_check b : forallb (fun x => (0 <=? x) && (x <? 256)) b = true -> bytes_ok b.
Proof.
  intros Hb. apply list.Forall_forall. intros x Hx. rewrite forallb_forall in Hb. apply list_elem_of_In, Hb in Hx.
  bool_hyps. unfold is_byte. lia.
Qed.


Lemma subarray_app_left {A} (a b : list A) s e :
  0 <= s -> e <= blen a -> subarray (a ++ b) s e = subarray a s e.
Proof.
  intros. unfold subarray, blen in *.
  destruct (decide (s <= e)).
  - rewrite drop_app_le by lia. rewrite take_app_le; [done | rewrite length_drop; lia].
  - replace (Z.to_nat (e - s)) with 0%nat by lia. done.
Qed.

Lemma subarray_from_app_left {A} (a b : list A) s :
  0 <= s -> s <= blen a -> subarray_from (a ++ b) s = subarray_from a s ++ b.
Proof. intros. unfold subarray_from, blen in *. now rewrite drop_app_le by lia. Qed.

Lemma bget_app_l a b i : i < blen a -> bget (a ++ b) i = bget a i.
Proof.
  intros. unfold bget, blen in *. case_if; [done | bool_hyps].
  apply lookup_app_l. lia.
Qed.

Lemma bget_some b i : 0 <= i < blen b -> exists x, bget b i = Some x.
Proof.
  intros. unfold bget, blen in *. case_if; bool_hyps; [lia|].
  destruct (lookup_lt_is_Some_2 b (Z.to_nat i)) as [x Hx]; [lia | eauto].
Qed.

Lemma bget_byte b i x : bytes_ok b -> bget b i = Some x -> is_byte x.
Proof.
  unfold bget. case_if; [done|]. intros Hb Hx.
  eapply Forall_lookup_1 in Hb; eauto.
Qed.

(** Big-endian encoding *)

Lemma be_value_snoc bs b : be_value (bs ++ [b]) = be_value bs * 256 + b.
Proof. unfold be_value. now rewrite fold_left_app. Qed.

Lemma length_be_bytes n v : length (be_bytes n v) = n.
Proof. revert v; induction n; intros; cbn [be_bytes]; [done|]. rewrite length_app, IHn. cbn; lia. Qed.

Lemma blen_be_bytes n v : blen (be_bytes n v) = Z.of_nat n.
Proof. unfold blen. now rewrite length_be_bytes. Qed.

#[export] Hint Rewrite @blen_be_bytes : blen.

Lemma bytes_ok_be_bytes n v : bytes_ok (be_bytes n v).
Proof.
  revert v; induction n; intros; cbn [be_bytes]; [constructor|].
  apply bytes_ok_app; split; [done | repeat constructor]; zdiv.
Qed.

#[export] Hint Resolve bytes_ok_be_bytes : bytes.

Lemma be_value_be_bytes n v : 0 <= v < 2 ^ (8 * Z.of_nat n) -> be_value (be_bytes n v) = v.
Proof.
  revert v; induction n; intros v Hv; cbn [be_bytes].
  - cbn in Hv. unfold be_value; cbn. lia.
  - rewrite be_value_snoc, IHn; [zdiv|].
    replace (8 * Z.of_nat (S n)) with (8 * Z.of_nat n + 8) in Hv by lia.
    rewrite Z.pow_add_r in Hv by lia. change (2 ^ 8) with 256 in Hv.
    split; [apply Z.div_pos | apply Z.div_lt_upper_bound]; lia.
Qed.

Lemma be_value_bound bs : bytes_ok bs -> 0 <= be_value bs < 2 ^ (8 * blen bs).
Proof.
  induction bs as [|b bs IH] using rev_ind; intros Hb; [now vm_compute|].
  apply bytes_ok_app in Hb as [Hbs Hb]. apply bytes_ok_cons in Hb as [Hb _].
  specialize (IH Hbs). rewrite be_value_snoc, blen_app.
  replace (8 * (blen bs + blen [b])) with (8 * blen bs + 8) by (rewrite blen_cons, blen_nil; lia).
  rewrite Z.pow_add_r by (pose proof (blen_nonneg bs); lia).
  change (2 ^ 8) with 256. unfold is_byte in Hb.
  set (P := 2 ^ (8 * blen bs)) in *. clearbody P. lia.
Qed.

Lemma be_bytes_be_value bs : bytes_ok bs -> be_bytes (length bs) (be_value bs) = bs.
Proof.
  induction bs as [|b bs IH] using rev_ind; intros Hb; [done|].
  apply bytes_ok_app in Hb as [Hbs Hb]. apply bytes_ok_cons in Hb as [Hb _].
  rewrite length_app, Nat.add_comm. cbn [length Nat.add be_bytes].
  rewrite be_value_snoc. unfold is_byte in Hb.
  replace ((be_value bs * 256 + b) / 256) with (be_value bs) by zdiv.
  replace ((be_value bs * 256 + b) mod 256) with b by zdiv.
  now rewrite IH.
Qed.

(** Reads at a known place of a concatenation. *)
Lemma read_at n a m c :
  blen m = n -> readUIntBE n (a ++ m ++ c) (blen a) = Ok (be_value m).
Proof.
  intros <-. unfold readUIntBE. autorewrite with blen.
  pose proof (blen_nonneg a). pose proof (blen_nonneg c).
  replace ((0 <=? blen a) && _) with true by (symmetry; apply andb_true_iff; split; apply Z.leb_le; lia).
  now rewrite subarray_mid.
Qed.

Lemma read_ok n b off v :
  readUIntBE n b off = Ok v -> 0 <= off /\ off + n <= blen b /\ v = be_value (subarray b off (off + n)).
Proof. unfold readUIntBE. case_if; [|done]. intros [= <-]. bool_hyps. auto. Qed.

Lemma read_app_left n a b off :
  off + n <= blen a -> 0 <= off -> 0 <= n -> readUIntBE n (a ++ b) off = readUIntBE n a off.
Proof.
  intros. unfold readUIntBE. autorewrite with blen. pose proof (blen_nonneg b).
  rewrite subarray_app_left by lia.
  replace (off + n <=? blen a + blen b) with true by (symmetry; apply Z.leb_le; lia).
  replace (off + n <=? blen a) with true by (symmetry; apply Z.leb_le; lia). done.
Qed.

(** Writes *)

Lemma length_splice b off src :
  0 <= off -> off + blen src <= blen b -> length (splice b off src) = length b.
Proof.
  intros. unfold splice, blen in *. rewrite !length_app, length_take, length_drop. lia.
Qed.

Lemma splice_mid a m c src :
  length m = length src -> splice (a ++ m ++ c) (blen a) src = a ++ src ++ c.
Proof.
  intros Hm. unfold splice, blen. rewrite Nat2Z.id, take_app_length. do 2 f_equal.
  rewrite drop_app_add', <- Hm by done. now rewrite drop_app_length.
Qed.

Lemma alloc_add n m : 0 <= n -> 0 <= m -> alloc (n + m) = alloc n ++ alloc m.
Proof. intros. unfold alloc. rewrite Z2Nat.inj_add by lia. apply replicate_add. Qed.

(** * Searching a buffer *)

(** [pat] occurs in [b] at [k]. *)
Definition match_at (pat b : buffer) (k : nat) : Prop := take (length pat) (drop k b) = pat.

Lemma match_at_app pat b x k : match_at pat b k -> match_at pat (b ++ x) k.
Proof.
  unfold match_at. intros Hm. destruct (decide (k <= length b)%nat).
  - rewrite drop_app_le by done. rewrite take_app_le; [done|].
    rewrite <- Hm at 1. rewrite length_take. lia.
  - rewrite drop_ge in Hm by lia. rewrite take_nil in Hm. subst. by rewrite take_0.
Qed.

Lemma match_at_app_inv pat b x k :
  (k + length pat <= length b)%nat -> match_at pat (b ++ x) k -> match_at pat b k.
Proof.
  unfold match_at. intros Hk. rewrite drop_app_le by lia. rewrite take_app_le; [done|].
  rewrite length_drop. lia.
Qed.

Lemma match_at_bound pat b k : pat <> [] -> match_at pat b k -> (k + length pat <= length b)%nat.
Proof.
  unfold match_at. intros Hp Hm. apply (f_equal length) in Hm.
  rewrite length_take, length_drop in Hm. destruct pat; [done|]. cbn [length] in *. lia.
Qed.

Lemma index_from_Some pat b pos i :
  pat <> [] -> index_from pat b pos = Some i ->
  (pos <= i)%nat /\ match_at pat b (i - pos) /\ forall k, (k < i - pos)%nat -> ~ match_at pat b k.
Proof.
  intros Hp. revert pos; induction b as [|x b IH]; intros pos; cbn [index_from]; [by case_decide|].
  case_decide as Hd.
  - intros [= <-]. rewrite Nat.sub_diag. repeat split; [lia | done | intros; lia].
  - intros Hi. destruct (IH _ Hi) as (Hle & Hm & Hmin).
    replace (i - pos)%nat with (S (i - S pos)) by lia. repeat split; [lia | done |].
    intros [|k] Hk Hk'; [done|]. apply (Hmin k); [lia | done].
Qed.

Lemma index_from_None pat b pos k :
  pat <> [] -> index_from pat b pos = None -> ~ match_at pat b k.
Proof.
  intros Hp. revert pos k; induction b as [|x b IH]; intros pos k; cbn [index_from].
  - intros _ Hm. apply match_at_bound in Hm; [|done]. destruct pat; cbn in *; [done|lia].
  - case_decide as Hd; [done|]. intros Hn. destruct k as [|k]; [done|]. by apply (IH (S pos)).
Qed.

Lemma index_from_intro pat b pos k :
  pat <> [] -> match_at pat b k -> (forall j, (j < k)%nat -> ~ match_at pat b j) ->
  index_from pat b pos = Some (pos + k)%nat.
Proof.
  intros Hp Hm Hmin. destruct (index_from pat b pos) as [i|] eqn:Hi.
  - destruct (index_from_Some _ _ _ _ Hp Hi) as (Hle & Hm' & Hmin').
    f_equal. destruct (lt_eq_lt_dec (i - pos) k) as [[Hlt|He]|Hgt]; [|lia|].
    + by destruct (Hmin _ Hlt).
    + by destruct (Hmin' _ Hgt).
  - by destruct (index_from_None _ _ _ k Hp Hi).
Qed.

Lemma indexOf_Some b pat from i :
  pat <> [] -> 0 <= from -> indexOf b pat from = Some i ->
  from <= i /\ i + blen pat <= blen b /\ match_at pat b (Z.to_nat i) /\
  forall k, from <= k < i -> ~ match_at pat b (Z.to_nat k).
Proof.
  intros Hp Hf. unfold indexOf. destruct (index_from _ _ _) as [n|] eqn:Hn; [|done].
  intros [= <-]. destruct (index_from_Some _ _ _ _ Hp Hn) as (Hle & Hm & Hmin).
  pose proof (match_at_bound _ _ _ Hp Hm) as Hb. rewrite length_drop in Hb.
  unfold match_at in *. rewrite drop_drop in Hm.
  assert (0 < length pat)%nat by (destruct pat; cbn in *; [done | lia]).
  repeat split; [lia | unfold blen; lia | | ].
  - rewrite Nat2Z.id. by replace n with (Z.to_nat from + (n - Z.to_nat from))%nat by lia.
  - intros k Hk Hmk. apply (Hmin (Z.to_nat k - Z.to_nat from)%nat); [lia|].
    rewrite drop_drop. by replace (Z.to_nat from + _)%nat with (Z.to_nat k) by lia.
Qed.

Lemma indexOf_intro b pat from i :
  pat <> [] -> 0 <= from <= i -> match_at pat b (Z.to_nat i) ->
  (forall k, from <= k < i -> ~ match_at pat b (Z.to_nat k)) -> indexOf b pat from = Some i.
Proof.
  intros Hp Hf Hm Hmin. unfold indexOf.
  rewrite (index_from_intro _ _ _ (Z.to_nat i - Z.to_nat from)); [cbn; f_equal; lia | done | |].
  - unfold match_at in *. rewrite drop_drop.
    by replace (Z.to_nat from + _)%nat with (Z.to_nat i) by lia.
  - intros j Hj Hmj. unfold match_at in *. rewrite drop_drop in Hmj.
    apply (Hmin (from + Z.of_nat j)); [lia|].
    by replace (Z.to_nat (from + Z.of_nat j)) with (Z.to_nat from + j)%nat by lia.
Qed.

Lemma indexOf_None b pat from k :
  pat <> [] -> 0 <= from -> indexOf b pat from = None -> from <= k -> ~ match_at pat b (Z.to_nat k).
Proof.
  intros Hp Hf. unfold indexOf. destruct (index_from _ _ _) as [n|] eqn:Hn; [done|].
  intros _ Hk Hm. apply (index_from_None _ _ _ (Z.to_nat k - Z.to_nat from) Hp Hn).
  unfold match_at in *. rewrite drop_drop.
  by replace (Z.to_nat from + _)%nat with (Z.to_nat k) by lia.
Qed.

(** A match found in a prefix is the match of the whole. *)
Lemma indexOf_app b x pat from i :
  pat <> [] -> 0 <= from -> indexOf b pat from = Some i -> indexOf (b ++ x) pat from = Some i.
Proof.
  intros Hp Hf Hi. destruct (indexOf_Some _ _ _ _ Hp Hf Hi) as (? & Hb & Hm & Hmin).
  apply indexOf_intro; [done | lia | by apply match_at_app |].
  intros k Hk Hmk. apply (Hmin k Hk). unfold blen in *.
  apply match_at_app_inv in Hmk; [done | lia].
Qed.

(** A match that appears only with more bytes reaches into them. *)
Lemma indexOf_app_new b x pat from i :
  pat <> [] -> 0 <= from -> indexOf b pat from = None -> indexOf (b ++ x) pat from = Some i ->
  blen b < i + blen pat.
Proof.
  intros Hp Hf Hn Hi. destruct (indexOf_Some _ _ _ _ Hp Hf Hi) as (? & Hb & Hm & Hmin).
  destruct (decide (blen b < i + blen pat)); [done|]. exfalso.
  apply (indexOf_None b pat from i Hp Hf Hn); [lia|].
  apply match_at_app_inv in Hm; [done | unfold blen in *; lia].
Qed.

(** * Decimal text *)

Lemma dec_value_snoc s c : dec_value (s ++ [c]) = dec_value s * 10 + (c - 48).
Proof. unfold dec_value. now rewrite fold_left_app. Qed.

Lemma dec_digits_fuel_correct fuel n :
  0 <= n -> n < 2 ^ Z.of_nat fuel -> (0 < fuel)%nat ->
  dec_value (dec_digits_fuel fuel n) = n /\ forallb is_digit (dec_digits_fuel fuel n) = true /\
  (0 < n -> is_positive_decimal (dec_digits_fuel fuel n) = true).
Proof.
  revert n; induction fuel as [|f IH]; intros n Hn Hlt Hf; [lia|].
  cbn [dec_digits_fuel]. case_if; bool_hyps.
  - unfold dec_value, is_digit; cbn. repeat split; try intros ?; rewrite ?andb_true_iff, ?Z.leb_le; lia.
  - assert (0 < n / 10) as Hd by (apply Z.div_str_pos; lia).
    assert (n / 10 < 2 ^ Z.of_nat f) as Hb.
    { rewrite Nat2Z.inj_succ, Z.pow_succ_r in Hlt by lia. apply Z.div_lt_upper_bound; lia. }
    destruct f as [|f]; [cbn in Hb; lia|].
    destruct (IH (n / 10)) as (Hv & Hg & Hp); [lia | done | lia |].
    rewrite dec_value_snoc, Hv, forallb_app, Hg. cbn [forallb]. repeat split.
    + zdiv.
    + unfold is_digit. rewrite !andb_true_iff, !Z.leb_le. zdiv.
    + intros _. specialize (Hp Hd). destruct (dec_digits_fuel (S f) (n / 10)) as [|c s]; [done|].
      cbn [is_positive_decimal app forallb] in *. rewrite forallb_app.
      apply andb_true_iff in Hp as [-> ->]. cbn [forallb]. unfold is_digit.
      rewrite !andb_true_iff, !Z.leb_le. zdiv.
Qed.

Lemma dec_digits_correct n :
  0 <= n -> dec_value (dec_digits n) = n /\ forallb is_digit (dec_digits n) = true /\
  (0 < n -> is_positive_decimal (dec_digits n) = true).
Proof.
  intros Hn. apply dec_digits_fuel_correct; [done | | lia].
  rewrite Nat2Z.inj_succ, Z2Nat.id by apply Z.log2_nonneg.
  destruct (decide (n = 0)) as [->|]; [done|]. apply Z.log2_spec. lia.
Qed.

(** The length of a decimal text bounds its value from below. *)
Lemma dec_value_lower s :
  is_positive_decimal s = true -> 10 ^ (blen s - 1) <= dec_value s.
Proof.
  induction s as [|c s IH] using rev_ind; [done|]. intros Hp.
  rewrite dec_value_snoc, blen_app. destruct s as [|d s].
  - cbn in Hp. bool_hyps. change (blen (@nil Z) + blen [c] - 1) with 0.
    unfold dec_value; cbn. lia.
  - cbn [app is_positive_decimal] in Hp. rewrite forallb_app in Hp. bool_hyps.
    cbn [forallb] in *. bool_hyps. unfold is_digit in *. bool_hyps.
    assert (10 ^ (blen (d :: s) - 1) <= dec_value (d :: s)) as Hl.
    { apply IH. cbn. unfold is_digit in *. rewrite !andb_true_iff, !Z.leb_le. auto. }
    replace (blen (d :: s) + blen [c] - 1) with (Z.succ (blen (d :: s) - 1))
      by (autorewrite with blen; lia).
    rewrite Z.pow_succ_r by (autorewrite with blen; pose proof (blen_nonneg s); lia). lia.
Qed.

Lemma blen_ascii_decode b : blen (ascii_decode b) = blen b.
Proof. apply blen_map. Qed.

#[export] Hint Rewrite blen_ascii_decode : blen.

(** * Arithmetic on lengths *)

Ltac note_blen x :=
  lazymatch goal with
  | _ : 0 <= blen x |- _ => fail
  | _ => pose proof (blen_nonneg x)
  end.

(** [lia] knowing that lengths are non-negative and how they are computed. *)
Ltac blia :=
  autorewrite with blen in *;
  repeat match goal with
  | |- context [blen ?x] => note_blen x
  | H : context [blen ?x] |- _ => note_blen x
  end; lia.

(** Replace a comparison by its truth value. *)
Ltac decide_test e v :=
  replace e with v
    by (symmetry;
        first [apply Z.ltb_lt | apply Z.ltb_ge | apply Z.leb_le | apply Z.leb_gt
              | apply Z.eqb_eq | apply Z.eqb_neq]; blia).

(** * Fixed-width stores

    [put16 b v off] is [b.writeUInt16BE(v, off)] for a value and an offset that are in
    range, where the check of the range cannot fail; [put32] likewise. *)

Definition put8 (b : buffer) (v off : Z) : buffer := splice b off (be_bytes 1 v).
Definition put16 (b : buffer) (v off : Z) : buffer := splice b off (be_bytes 2 v).
Definition put32 (b : buffer) (v off : Z) : buffer := splice b off (be_bytes 4 v).

Lemma write16_put16 b v off :
  0 <= v < 65536 -> 0 <= off -> off + 2 <= blen b -> writeUInt16BE b v off = Ok (put16 b v off).
Proof.
  intros. unfold writeUInt16BE, writeUIntBE, put16. change (2 ^ (8 * Z.of_nat 2)) with 65536.
  change (Z.of_nat 2) with 2.
  decide_test (0 <=? v) true. decide_test (v <? 65536) true. decide_test (0 <=? off) true.
  by decide_test (off + 2 <=? blen b) true.
Qed.

Lemma write32_put32 b v off :
  0 <= v < 2 ^ 32 -> 0 <= off -> off + 4 <= blen b -> writeUInt32BE b v off = Ok (put32 b v off).
Proof.
  intros. unfold writeUInt32BE, writeUIntBE, put32. change (2 ^ (8 * Z.of_nat 4)) with (2 ^ 32).
  change (Z.of_nat 4) with 4.
  decide_test (0 <=? v) true. decide_test (v <? 2 ^ 32) true. decide_test (0 <=? off) true.
  by decide_test (off + 4 <=? blen b) true.
Qed.

(** Stores into the front part or the back part of a concatenation. *)
Lemma splice_app_l a b off src :
  0 <= off -> off + blen src <= blen a -> splice (a ++ b) off src = splice a off src ++ b.
Proof.
  intros. unfold splice, blen in *. rewrite take_app_le by lia. rewrite drop_app_le by lia.
  by rewrite <- !app_assoc.
Qed.

Lemma splice_app_r a b off src :
  blen a <= off -> splice (a ++ b) off src = a ++ splice b (off - blen a) src.
Proof.
  intros. unfold splice, blen in *. rewrite take_app_ge, drop_app_ge by lia.
  rewrite <- app_assoc. repeat f_equal; lia.
Qed.

Lemma splice_all b src : length src = length b -> splice b 0 src = src.
Proof.
  intros Hl. unfold splice. change (Z.to_nat 0) with 0%nat. rewrite take_0, Hl. cbn [Nat.add app].
  by rewrite drop_all, app_nil_r.
Qed.

(** A 16-bit mask is reduction modulo 2^16, an 8-bit mask modulo 2^8. *)
Lemma js_and_mask x k : 0 <= k < 31 -> js_and x (2 ^ k - 1) = x mod 2 ^ k.
Proof.
  intros Hk. unfold js_and, to_int32, to_uint32.
  assert (0 < 2 ^ k < 2 ^ 31) as Hp by (split; [apply Z.pow_pos_nonneg | apply Z.pow_lt_mono_r]; lia).
  rewrite (Z.mod_small (2 ^ k - 1)) by lia.
  replace (2 ^ k - 1) with (Z.ones k) by (rewrite Z.ones_equiv; lia).
  rewrite Z.land_ones by lia.
  assert ((x mod 2 ^ 32) mod 2 ^ k = x mod 2 ^ k) as ->.
  { replace (2 ^ 32) with (2 ^ k * 2 ^ (32 - k)) by (rewrite <- Z.pow_add_r; f_equal; lia).
    rewrite Z.rem_mul_r by (try apply Z.pow_pos_nonneg; lia).
    rewrite Z.mul_comm, Z.mod_add by lia. apply Z.mod_mod. lia. }
  pose proof (Z.mod_pos_bound x (2 ^ k)). rewrite Z.mod_small by lia.
  by decide_test (2 ^ 31 <=? x mod 2 ^ k) false.
Qed.

(** ** Reads that a length check has put in range *)

Definition read_field (n : Z) (b : buffer) (off : Z) : Z := be_value (subarray b off (off + n)).

Lemma read_field_mid n a m c off : blen a = off -> blen m = n -> read_field n (a ++ m ++ c) off = be_value m.
Proof. intros <- <-. unfold read_field. by rewrite subarray_mid. Qed.

Lemma be_value_1 x : be_value [x] = x.
Proof. unfold be_value. cbn [fold_left]. lia. Qed.

Lemma blen_of_length (l : buffer) n : length l = n -> blen l = Z.of_nat n.
Proof. by intros <-. Qed.

Lemma read_field_bound n b off : bytes_ok b -> 0 <= n -> 0 <= off -> 0 <= read_field n b off < 2 ^ (8 * n).
Proof.
  intros Hb Hn Ho. unfold read_field. pose proof (be_value_bound _ (bytes_ok_subarray b off (off + n) Hb)) as [H0 H1].
  split; [done|]. eapply Z.lt_le_trans; [exact H1|]. apply Z.pow_le_mono_r; [lia|].
  unfold subarray. autorewrite with blen. lia.
Qed.

Lemma length_slice (b : buffer) s n : 0 <= s -> 0 <= n -> s + n <= blen b -> length (subarray b s (s + n)) = Z.to_nat n.
Proof. intros. unfold subarray, blen in *. rewrite length_take, length_drop. lia. Qed.

(** ** Filling a zeroed buffer from the front

    Each store at the end of what is written so far appends to it. *)

Lemma alloc_take n k : 0 <= n <= k -> alloc k = alloc n ++ alloc (k - n).
Proof. intros. rewrite <- alloc_add by lia. f_equal. lia. Qed.

Lemma splice_filled pre room src :
  blen src <= room -> splice (pre ++ alloc room) (blen pre) src = (pre ++ src) ++ alloc (room - blen src).
Proof.
  intros Hr. rewrite (alloc_take (blen src)) by blia. rewrite splice_mid; [by rewrite <- app_assoc|].
  unfold alloc, blen. rewrite length_replicate. lia.
Qed.

Lemma write_filled n pre room v off :
  blen pre = off -> 0 <= v < 2 ^ (8 * Z.of_nat n) -> Z.of_nat n <= room ->
  writeUIntBE n (pre ++ alloc room) v off = Ok ((pre ++ be_bytes n v) ++ alloc (room - Z.of_nat n)).
Proof.
  intros <- Hv Hr. unfold writeUIntBE. rewrite blen_app, blen_alloc by lia.
  decide_test (0 <=? v) true. decide_test (v <? 2 ^ (8 * Z.of_nat n)) true.
  decide_test (0 <=? blen pre) true. decide_test (blen pre + Z.of_nat n <=? blen pre + room) true.
  cbn [andb]. rewrite splice_filled by blia. by rewrite blen_be_bytes.
Qed.

Lemma copy_filled src pre room off :
  blen pre = off -> blen src <= room ->
  copy_into src (pre ++ alloc room) off = (pre ++ src) ++ alloc (room - blen src).
Proof.
  intros <- Hr. unfold copy_into. rewrite take_ge, splice_filled; [done | done |].
  rewrite blen_app, blen_alloc by blia. unfold blen in *. lia.
Qed.

Lemma write8_filled pre room v off :
  blen pre = off -> is_byte v -> 1 <= room ->
  writeUInt8 (pre ++ alloc room) v off = Ok ((pre ++ [v]) ++ alloc (room - 1)).
Proof.
  intros Hoff Hv Hr. unfold writeUInt8. unfold is_byte in Hv. rewrite write_filled by (done || lia).
  cbn [be_bytes app]. by rewrite Z.mod_small by lia.
Qed.

(** ** Values of concatenated bytes *)

Lemma be_value_app a b : be_value (a ++ b) = be_value a * 2 ^ (8 * blen b) + be_value b.
Proof.
  induction b as [|x b IH] using rev_ind; [rewrite app_nil_r; change (be_value []) with 0; change (2 ^ (8 * blen (@nil Z))) with 1; lia|].
  rewrite app_assoc, !be_value_snoc, IH, blen_app. change (blen [x]) with 1.
  replace (8 * (blen b + 1)) with (8 * blen b + 8) by lia. rewrite Z.pow_add_r by (pose proof (blen_nonneg b); lia).
  change (2 ^ 8) with 256. lia.
Qed.

Lemma be_value_zeros n : be_value (replicate n 0) = 0.
Proof. induction n as [|n IH]; [done|]. cbn [replicate]. change (0 :: replicate n 0) with ([0] ++ replicate n 0). rewrite be_value_app, IH. done. Qed.

(** The byte, and the field, at a position given by what is before it. *)
Lemma bget_at (b pre : buffer) x post i : b = pre ++ x :: post -> i = blen pre -> bget b i = Some x.
Proof.
  intros -> ->. unfold bget. decide_test (blen pre <? 0) false. unfold blen. rewrite Nat2Z.id.
  by rewrite lookup_app_r, Nat.sub_diag by lia.
Qed.

Lemma read_field_at n k (b pre : buffer) v post i :
  b = pre ++ be_bytes n v ++ post -> i = blen pre -> k = Z.of_nat n -> 0 <= v < 2 ^ (8 * Z.of_nat n) -> read_field k b i = v.
Proof. intros -> -> -> Hv. rewrite (read_field_mid _ pre (be_bytes n v)) by (done || apply blen_be_bytes). by apply be_value_be_bytes. Qed.

Lemma byte_at_here pre x post : byte_at (pre ++ x :: post) (blen pre) = x.
Proof.
  unfold byte_at, bget. decide_test (blen pre <? 0) false. unfold blen. rewrite Nat2Z.id.
  by rewrite lookup_app_r, Nat.sub_diag by lia.
Qed.

(** [^] of two bytes is a byte, and undoes itself. *)
Lemma js_xor_bytes a b : is_byte a -> is_byte b -> js_xor a b = Z.lxor a b /\ is_byte (js_xor a b).
Proof.
  unfold is_byte. intros Ha Hb. unfold js_xor, to_uint32. rewrite !Z.mod_small by lia.
  assert (0 <= Z.lxor a b < 256) as Hx.
  { split; [by apply Z.lxor_nonneg; lia|]. destruct (decide (Z.lxor a b = 0)) as [->|Hne]; [lia|].
    apply (Z.log2_lt_pow2 _ 8); [pose proof (proj2 (Z.lxor_nonneg a b)); lia|].
    eapply Z.le_lt_trans; [apply Z.log2_lxor; lia|].
    assert (forall x, 0 <= x < 256 -> Z.log2 x <= 7) as H7.
    { intros x Hx. destruct (decide (x = 0)) as [->|]; [done|]. pose proof (Z.log2_lt_pow2 x 8). lia. }
    pose proof (H7 a Ha). pose proof (H7 b Hb). lia. }
  unfold to_int32, to_uint32. rewrite Z.mod_small by lia. by decide_test (2 ^ 31 <=? Z.lxor a b) false.
Qed.

Lemma js_xor_twice a b : is_byte a -> is_byte b -> js_xor (js_xor a b) b = a.
Proof.
  intros Ha Hb. destruct (js_xor_bytes a b Ha Hb) as [E H]. destruct (js_xor_bytes (js_xor a b) b H Hb) as [-> _].
  by rewrite E, Z.lxor_assoc, Z.lxor_nilpotent, Z.lxor_0_r.
Qed.

Lemma map_ok_app {A B} (f : A -> result B) l1 l2 :
  map_ok f (l1 ++ l2) = let! ys := map_ok f l1 in let! zs := map_ok f l2 in Ok (ys ++ zs).
Proof.
  induction l1 as [|x l1 IH]; cbn [app map_ok bind_result]; [by destruct (map_ok f l2)|].
  destruct (f x); [|done]. cbn [bind_result]. rewrite IH. destruct (map_ok f l1); [|done]. cbn [bind_result].
  by destruct (map_ok f l2).
Qed.

Lemma map_ok_all {A B} (f : A -> result B) (g : A -> B) l : Forall (fun x => f x = Ok (g x)) l -> map_ok f l = Ok (map g l).
Proof. induction 1 as [|x l Hx _ IH]; [done|]. cbn [map_ok map]. by rewrite Hx, IH. Qed.

Lemma byte_at_nonneg b i : bytes_ok b -> 0 <= byte_at b i < 256.
Proof.
  intros Hb. unfold byte_at. destruct (bget b i) as [x|] eqn:E; cbn; [|lia]. by apply (bget_byte b i).
Qed.

Lemma byte_at_pos (b pre : buffer) x post i : b = pre ++ x :: post -> i = blen pre -> byte_at b i = x.
Proof. intros Hb Hi. unfold byte_at. by rewrite (bget_at b pre x post). Qed.

Lemma subarray_from_byte b i : 0 <= i < blen b -> subarray_from b i = byte_at b i :: subarray_from b (i + 1).
Proof.
  intros Hi. unfold subarray_from, byte_at, bget. decide_test (i <? 0) false. unfold blen in Hi.
  destruct (lookup_lt_is_Some_2 b (Z.to_nat i)) as [x Hx]; [lia|]. rewrite Hx. cbn [default].
  rewrite (drop_S _ x) by done. do 2 f_equal. lia.
Qed.

Lemma subarray_from_split {A} (b : list A) i j : 0 <= i <= j -> subarray_from b i = subarray b i j ++ subarray_from b j.
Proof.
  intros Hi. unfold subarray_from, subarray. rewrite <- (take_drop (Z.to_nat (j - i)) (drop (Z.to_nat i) b)) at 1. f_equal.
  rewrite drop_drop. f_equal. lia.
Qed.
