(* ===== verification/Actions.v ===== *)
(** Methods of JavaScript objects as actions.

    A method updates its object and causes effects (datagrams, writes, reports,
    registered callbacks).  An action over a state [S] and effects [E] maps the
    object before the call to the object after it and the effects in order.  The
    notations follow the code: [a ;;; b] is sequencing, [this s => k] reads the
    object's fields. *)

From stdpp Require Import base list.
From S2P Require Import Prelude.

Local Open Scope js_scope.

Definition action_of (S E : Type) : Type := S -> S * list E.

Section Actions.
Context {S E : Type}.

Definition skip : action_of S E := fun s => (s, []).
Definition assign (f : S -> S) : action_of S E := fun s => (f s, []).
Definition emit (e : E) : action_of S E := fun s => (s, [e]).
Definition get_this (k : S -> action_of S E) : action_of S E := fun s => k s s.
Definition seq_action (a b : action_of S E) : action_of S E := fun s =>
  let '(s1, o1) := a s in
  let '(s2, o2) := b s1 in
  (s2, o1 ++ o2).

(** [for (const x of xs) k(x)] *)
Fixpoint each {A} (xs : list A) (k : A -> action_of S E) : action_of S E :=
  match xs with
  | [] => skip
  | x :: tl => seq_action (k x) (each tl k)
  end.

Lemma seq_action_eq (a b : action_of S E) s s1 o1 s2 o2 :
  a s = (s1, o1) -> b s1 = (s2, o2) -> seq_action a b s = (s2, o1 ++ o2).
Proof. intros Ha Hb. unfold seq_action. by rewrite Ha, Hb. Qed.

Lemma seq_action_assoc (a b c : action_of S E) s :
  seq_action (seq_action a b) c s = seq_action a (seq_action b c) s.
Proof.
  unfold seq_action. destruct (a s) as [s1 o1]. destruct (b s1) as [s2 o2]. destruct (c s2) as [s3 o3].
  by rewrite app_assoc.
Qed.

Lemma seq_action_cong (a a' b : action_of S E) s s' :
  a s = a' s' -> seq_action a b s = seq_action a' b s'.
Proof. intros Ha. unfold seq_action. by rewrite Ha. Qed.

(** An invariant of the state and a property of every effect, kept by an action. *)
Definition keeps (P : S -> Prop) (Q : E -> Prop) (a : action_of S E) : Prop :=
  forall s, P s -> P (fst (a s)) /\ Forall Q (snd (a s)).

Lemma keeps_seq P Q (a b : action_of S E) : keeps P Q a -> keeps P Q b -> keeps P Q (seq_action a b).
Proof.
  intros Ha Hb s Hs. unfold seq_action. destruct (Ha s Hs) as [H1 H2]. destruct (a s) as [s1 o1].
  cbn [fst snd] in *. destruct (Hb s1 H1) as [H3 H4]. destruct (b s1) as [s2 o2]. cbn [fst snd] in *.
  split; [done | by apply Forall_app].
Qed.

Lemma keeps_skip P Q : keeps P Q skip.
Proof. intros s Hs. by split; [|constructor]. Qed.

Lemma keeps_assign P Q f : (forall s, P s -> P (f s)) -> keeps P Q (assign f).
Proof. intros Hf s Hs. split; [by apply Hf | constructor]. Qed.

Lemma keeps_emit P (Q : E -> Prop) e : Q e -> keeps P Q (emit e).
Proof. intros He s Hs. split; [done | by repeat constructor]. Qed.

Lemma each_app {A} (xs ys : list A) k s : each (xs ++ ys) k s = seq_action (each xs k) (each ys k) s.
Proof.
  revert s. induction xs as [|x xs IH]; intros s; cbn [app each].
  - unfold seq_action, skip. by destruct (each ys k s).
  - rewrite seq_action_assoc. unfold seq_action at 1 2. destruct (k x s) as [s1 o1]. by rewrite IH.
Qed.

Lemma keeps_each {A} P Q (xs : list A) k : (forall x, keeps P Q (k x)) -> keeps P Q (each xs k).
Proof. intros Hk. induction xs; cbn; auto using keeps_skip, keeps_seq. Qed.
End Actions.

Notation "a ;;; b" := (seq_action a b) (at level 90, b at level 90, right associativity) : js_scope.
Notation "'this' s => k" := (get_this (fun s => k)) (at level 10, s name, k at level 200) : js_scope.

(** ** Methods that can throw

    An attempt is an action that may end with an exception; what it did before stays
    done.  [a ;;! b] runs [b] only if [a] returns. *)

Definition attempt_of (S E : Type) : Type := S -> S * list E * option js_exn.

Section Attempts.
Context {S E : Type}.

Definition returns (a : action_of S E) : attempt_of S E := fun s => (a s, None).
Definition raise (e : js_exn) : attempt_of S E := fun s => (s, [], Some e).
Definition attempt_this (k : S -> attempt_of S E) : attempt_of S E := fun s => k s s.
Definition seq_attempt (a b : attempt_of S E) : attempt_of S E := fun s =>
  match a s with
  | (s1, o1, None) => let '(s2, o2, x) := b s1 in (s2, o1 ++ o2, x)
  | (s1, o1, Some e) => (s1, o1, Some e)
  end.

Lemma seq_returns a (b : attempt_of S E) s s1 o1 s2 o2 x :
  a s = (s1, o1) -> b s1 = (s2, o2, x) -> seq_attempt (returns a) b s = (s2, o1 ++ o2, x).
Proof. intros Ha Hb. unfold seq_attempt, returns. by rewrite Ha, Hb. Qed.

Lemma seq_attempt_inv (a b : attempt_of S E) s s2 o :
  seq_attempt a b s = (s2, o, None) -> exists s1 o1 o2, a s = (s1, o1, None) /\ b s1 = (s2, o2, None).
Proof.
  unfold seq_attempt. destruct (a s) as [[s1 o1] [e|]]; [done|]. destruct (b s1) as [[s3 o3] x] eqn:Eb.
  intros [= -> _ ->]. eauto 6.
Qed.
End Attempts.

Notation "a ;;! b" := (seq_attempt a b) (at level 90, b at level 90, right associativity) : js_scope.
Notation "'this!' s => k" := (attempt_this (fun s => k)) (at level 10, s name, k at level 200) : js_scope.

(** ** Sockets

    A UDP socket of a worker: none, created and waiting for [bind], or bound. *)

Inductive socket_state := Closed | Binding | Listening.

#[export] Instance socket_state_eq_dec : EqDecision socket_state.
Proof. solve_decision. Defined.
