(* ===== verification/StreamDecoder.v ===== *)
(** Incremental decoding of a byte stream.

    Several components receive bytes in arbitrary fragments, append them to a
    buffer and run a loop that removes complete messages from its front.  This
    file states once what the body of such a loop promises ([StreamDecoder],
    [StreamLaws]) and proves what follows for every component that implements
    it: the loop terminates, its result does not depend on how the stream was
    cut into fragments, and a loop stopped by a message limit can be resumed. *)

From stdpp Require Import base list numbers option.
From Stdlib Require Import ZArith Lia.
From S2P Require Import Prelude.

Local Open Scope Z_scope.
Local Open Scope js_scope.

(** What one iteration of the loop does: [break], [throw], or remove a part of
    the buffer, possibly delivering a message. *)
Inductive step_outcome (S M : Type) :=
| Wait
| Fail (e : js_exn)
| Advance (s : S) (b : list Z) (out : option M).
Arguments Wait {S M}.
Arguments Fail {S M} e.
Arguments Advance {S M} s b out.

Class StreamDecoder (S M : Type) := {
  sd_step : S -> list Z -> step_outcome S M;
  sd_ok : S -> Prop
}.

(** The promises a loop body makes.  [sd_ok] is its state invariant. *)
Class StreamLaws (S M : Type) `{StreamDecoder S M} := {
  sd_preserves s b s' b' o : sd_ok s -> sd_step s b = Advance s' b' o -> sd_ok s';
  sd_shrinks s b s' b' o : sd_ok s -> sd_step s b = Advance s' b' o -> (length b' < length b)%nat;
  sd_advance_app s b s' b' o x :
    sd_ok s -> sd_step s b = Advance s' b' o -> sd_step s (b ++ x) = Advance s' (b' ++ x) o;
  sd_fail_app s b e x : sd_ok s -> sd_step s b = Fail e -> sd_step s (b ++ x) = Fail e
}.

(** The [maxMessages] argument of the framers. *)
Inductive max_messages :=
| Infinity
| Count (n : Z)
| NotANumber.

Definition below (n : Z) (m : max_messages) : bool :=
  match m with
  | Infinity => true
  | Count k => n <? k
  | NotANumber => false
  end.

Section Loop.
Context {S M : Type} `{StreamDecoder S M}.

(** [while (messages.length < limit) { ... }]; [None] is running out of fuel. *)
Fixpoint stream_loop (fuel : nat) (limit : max_messages) (s : S) (b : list Z) (messages : list M)
  : option (S * list Z * result (list M)) :=
  if below (blen messages) limit then
    match fuel with
    | O => None
    | Datatypes.S f =>
      match sd_step s b with
      | Wait => Some (s, b, Ok messages)
      | Fail e => Some (s, b, Throw e)
      | Advance s' b' out => stream_loop f limit s' b' (messages ++ option_list out)
      end
    end
  else Some (s, b, Ok messages).

Definition stream_run (limit : max_messages) (s : S) (b : list Z) (messages : list M) :=
  stream_loop (Datatypes.S (length b)) limit s b messages.

Context `{!StreamLaws S M}.

(** Enough fuel gives a result, and the same result for any larger amount. *)
Lemma stream_loop_total fuel limit s b acc :
  sd_ok s -> (length b < fuel)%nat -> exists r, stream_loop fuel limit s b acc = Some r.
Proof.
  revert s b acc; induction fuel as [|f IH]; intros s b acc Hok Hf; [lia|].
  cbn [stream_loop]. case_if; [|eauto].
  destruct (sd_step s b) as [|e|s' b' o] eqn:Hst; eauto.
  apply IH; [eapply sd_preserves; eauto|]. pose proof (sd_shrinks _ _ _ _ _ Hok Hst). lia.
Qed.

Lemma stream_loop_fuel f1 f2 limit s b acc r :
  stream_loop f1 limit s b acc = Some r -> (f1 <= f2)%nat -> stream_loop f2 limit s b acc = Some r.
Proof.
  revert f2 s b acc; induction f1 as [|f IH]; intros f2 s b acc Hr Hle.
  - cbn [stream_loop] in Hr. destruct f2; cbn [stream_loop]; case_if; done.
  - destruct f2 as [|f2]; [lia|]. cbn [stream_loop] in *. case_if; [|done].
    destruct (sd_step s b); try done. apply IH; [done | lia].
Qed.

Lemma stream_run_total limit s b acc : sd_ok s -> exists r, stream_run limit s b acc = Some r.
Proof. intros. apply stream_loop_total; [done | lia]. Qed.

(** [stream_run] is the loop run with any sufficient fuel. *)
Lemma stream_run_of_loop f limit s b acc r :
  sd_ok s -> stream_loop f limit s b acc = Some r -> stream_run limit s b acc = Some r.
Proof.
  intros Hok Hr. destruct (stream_run_total limit s b acc Hok) as [r' Hr'].
  rewrite Hr'. unfold stream_run in Hr'.
  apply (stream_loop_fuel _ (max f (Datatypes.S (length b)))) in Hr; [|lia].
  apply (stream_loop_fuel _ (max f (Datatypes.S (length b)))) in Hr'; [|lia].
  congruence.
Qed.

(** One iteration. *)
Lemma stream_run_advance limit s b acc s' b' o :
  sd_ok s -> below (blen acc) limit = true -> sd_step s b = Advance s' b' o ->
  stream_run limit s b acc = stream_run limit s' b' (acc ++ option_list o).
Proof.
  intros Hok Hlim Hst.
  destruct (stream_run_total limit s' b' (acc ++ option_list o)) as [r Hr];
    [eapply sd_preserves; eauto|].
  rewrite Hr. eapply (stream_run_of_loop (Datatypes.S (Datatypes.S (length b')))); [done|].
  cbn [stream_loop]. rewrite Hlim, Hst. exact Hr.
Qed.

Lemma stream_run_stop limit s b acc :
  below (blen acc) limit = false -> stream_run limit s b acc = Some (s, b, Ok acc).
Proof. intros Hl. unfold stream_run. cbn [stream_loop]. now rewrite Hl. Qed.

Lemma stream_run_wait limit s b acc :
  sd_step s b = Wait -> stream_run limit s b acc = Some (s, b, Ok acc).
Proof. intros Hl. unfold stream_run. cbn [stream_loop]. rewrite Hl. by case_if. Qed.

Lemma stream_run_fail limit s b acc e :
  below (blen acc) limit = true -> sd_step s b = Fail e ->
  stream_run limit s b acc = Some (s, b, Throw e).
Proof. intros Hl Hs. unfold stream_run. cbn [stream_loop]. now rewrite Hl, Hs. Qed.

(** Induction on the iterations of a run. *)
Lemma stream_run_ind (P : S -> list Z -> list M -> Prop) limit :
  (forall s b acc, sd_ok s -> below (blen acc) limit = false -> P s b acc) ->
  (forall s b acc, sd_ok s -> below (blen acc) limit = true -> sd_step s b = Wait -> P s b acc) ->
  (forall s b acc e, sd_ok s -> below (blen acc) limit = true -> sd_step s b = Fail e -> P s b acc) ->
  (forall s b acc s' b' o, sd_ok s -> below (blen acc) limit = true ->
     sd_step s b = Advance s' b' o -> P s' b' (acc ++ option_list o) -> P s b acc) ->
  forall s b acc, sd_ok s -> P s b acc.
Proof.
  intros Hstop Hwait Hfail Hadv s b.
  remember (length b) as n eqn:Hn. revert s b Hn.
  induction n as [n IH] using lt_wf_ind; intros s b -> acc Hok.
  destruct (below (blen acc) limit) eqn:Hl; [|eauto].
  destruct (sd_step s b) as [|e|s' b' o] eqn:Hst; eauto.
  eapply Hadv; eauto. eapply IH; [|done|]; [eapply sd_shrinks | eapply sd_preserves]; eauto.
Qed.

(** The messages already collected are only a prefix of the result. *)
Lemma stream_run_acc s b acc acc0 :
  sd_ok s ->
  stream_run Infinity s b (acc0 ++ acc) =
  (fun '(s', b', r) => (s', b', match r with Ok m => Ok (acc0 ++ m) | Throw e => Throw e end))
    <$> stream_run Infinity s b acc.
Proof.
  revert s b acc.
  refine (stream_run_ind (fun s b acc => stream_run Infinity s b (acc0 ++ acc) = _) Infinity _ _ _ _);
    intros s b acc **; try discriminate.
  - by rewrite !stream_run_wait.
  - erewrite !stream_run_fail by done. done.
  - erewrite !(stream_run_advance _ s b) by done. by rewrite <- app_assoc.
Qed.

(** Fragmentation: bytes that arrive later can as well have been there from the
    start. *)
Lemma stream_run_app_ok s b x acc s1 b1 m1 :
  sd_ok s -> stream_run Infinity s b acc = Some (s1, b1, Ok m1) ->
  stream_run Infinity s (b ++ x) acc = stream_run Infinity s1 (b1 ++ x) m1.
Proof.
  intros Hok. revert s b acc Hok.
  refine (stream_run_ind (fun s b acc => stream_run Infinity s b acc = _ -> _) Infinity _ _ _ _);
    intros s b acc **; try discriminate.
  - rewrite stream_run_wait in * by done. by simplify_eq.
  - erewrite stream_run_fail in * by done. done.
  - erewrite (stream_run_advance _ s (b ++ x)) by eauto using sd_advance_app.
    erewrite (stream_run_advance _ s b) in * by done. eauto.
Qed.

Lemma stream_run_app_throw s b x acc s1 b1 e :
  sd_ok s -> stream_run Infinity s b acc = Some (s1, b1, Throw e) ->
  exists b2, stream_run Infinity s (b ++ x) acc = Some (s1, b2, Throw e).
Proof.
  intros Hok. revert s b acc Hok.
  refine (stream_run_ind (fun s b acc => stream_run Infinity s b acc = _ -> _) Infinity _ _ _ _);
    intros s b acc **; try discriminate.
  - rewrite stream_run_wait in * by done. by simplify_eq.
  - erewrite stream_run_fail in * by done. simplify_eq.
    erewrite stream_run_fail by eauto using sd_fail_app. eauto.
  - erewrite (stream_run_advance _ s (b ++ x)) by eauto using sd_advance_app.
    erewrite (stream_run_advance _ s b) in * by done. eauto.
Qed.

(** A run stopped by the limit continues where an unlimited run would be. *)
Lemma stream_run_resume limit s b acc s1 b1 m1 :
  sd_ok s -> stream_run limit s b acc = Some (s1, b1, Ok m1) ->
  stream_run Infinity s b acc = stream_run Infinity s1 b1 m1.
Proof.
  intros Hok. revert s b acc Hok.
  refine (stream_run_ind (fun s b acc => stream_run limit s b acc = _ -> _) limit _ _ _ _).
  - intros s b acc ? Hl Hr. rewrite stream_run_stop in Hr by done. by simplify_eq.
  - intros s b acc ? Hl Hs Hr. rewrite (stream_run_wait limit) in Hr by done. by simplify_eq.
  - intros s b acc e ? Hl Hs Hr. erewrite stream_run_fail in Hr by done. done.
  - intros s b acc s' b' o ? Hl Hs IH Hr.
    erewrite (stream_run_advance Infinity s b) by done.
    erewrite (stream_run_advance limit s b) in Hr by done. eauto.
Qed.

(** The invariant holds after a run. *)
Lemma stream_run_ok limit s b acc s1 b1 r :
  sd_ok s -> stream_run limit s b acc = Some (s1, b1, r) -> sd_ok s1.
Proof.
  intros Hok. revert s b acc Hok.
  refine (stream_run_ind (fun s b acc => stream_run limit s b acc = _ -> _) limit _ _ _ _);
    intros s b acc **.
  - rewrite stream_run_stop in * by done. by simplify_eq.
  - rewrite stream_run_wait in * by done. by simplify_eq.
  - erewrite stream_run_fail in * by done. by simplify_eq.
  - erewrite (stream_run_advance limit s b) in * by done. eauto.
Qed.

(** The limit bounds the number of delivered messages. *)
Lemma stream_run_limit k s b acc s1 b1 m1 :
  sd_ok s -> blen acc <= k -> stream_run (Count k) s b acc = Some (s1, b1, Ok m1) -> blen m1 <= k.
Proof.
  intros Hok. revert s b acc Hok.
  refine (stream_run_ind (fun s b acc => blen acc <= k -> stream_run _ s b acc = _ -> _)
            (Count k) _ _ _ _); intros s b acc **.
  - rewrite stream_run_stop in * by done. by simplify_eq.
  - rewrite stream_run_wait in * by done. by simplify_eq.
  - erewrite stream_run_fail in * by done. done.
  - erewrite (stream_run_advance (Count k) s b) in * by done.
    match goal with IH : _ -> _ -> blen m1 <= k |- _ => apply IH end; [|done].
    cbn in *. bool_hyps. autorewrite with blen. destruct o; cbn; autorewrite with blen; lia.
Qed.

(** A stream that arrives in fragments: each is appended and the loop run, until
    one run throws. *)
Fixpoint stream_feed (s : S) (b : list Z) (frags : list (list Z)) (acc : list M)
  : option (S * list Z * result (list M)) :=
  match frags with
  | [] => Some (s, b, Ok acc)
  | x :: tl =>
    match stream_run Infinity s (b ++ x) [] with
    | Some (s', b', Ok m) => stream_feed s' b' tl (acc ++ m)
    | other => other
    end
  end.

(** The fragments are decoded as the whole is. *)
Lemma stream_feed_concat frags s b x acc :
  sd_ok s ->
  match stream_feed s b (x :: frags) acc with
  | Some (s', b', Ok m) => stream_run Infinity s (b ++ x ++ concat frags) acc = Some (s', b', Ok m)
  | Some (s', _, Throw e) =>
    exists b2, stream_run Infinity s (b ++ x ++ concat frags) acc = Some (s', b2, Throw e)
  | None => False
  end.
Proof.
  revert s b x acc; induction frags as [|y frags IH]; intros s b x acc Hok;
    destruct (stream_run_total Infinity s (b ++ x) [] Hok) as [[[s1 b1] r1] Hr];
    pose proof (stream_run_acc s (b ++ x) [] acc Hok) as Ha; rewrite app_nil_r in Ha;
    cbn [stream_feed concat] in *; rewrite Hr in *; cbn [fmap option_fmap option_map] in Ha.
  - rewrite app_nil_r. destruct r1; cbn in *; eauto.
  - rewrite (app_assoc b x). destruct r1 as [m1|e].
    + erewrite (stream_run_app_ok s (b ++ x)) by done.
      apply (IH s1 b1 y). eapply stream_run_ok; [exact Hok | done].
    + by eapply stream_run_app_throw.
Qed.
End Loop.

Arguments stream_run : simpl never.
