(* ===== verification/NetconfFraming.v ===== *)
(** NETCONF message framing ([electron/utils/netconf/framing.js]).

    The delimiter framer of NETCONF 1.0 ([]]>]]>]) and the chunked framer of
    NETCONF 1.1 (RFC 6242), with the two encoders.  A framer is its options and
    decoding state together with the bytes received and not yet consumed; [push]
    returns the new framer and the decoded messages or the exception thrown (the
    framer keeps what it had consumed before a throw).

    Text is abstract: [toString] decodes a buffer in a given encoding and [utf8]
    is [Buffer.from(string)], so the theorems hold for every text type. *)

From stdpp Require Import base list numbers strings option.
From Stdlib Require Import ZArith Lia.
From S2P Require Import Prelude StreamDecoder.

Local Open Scope Z_scope.
Local Open Scope js_scope.

Definition NETCONF_10_DELIMITER : buffer := [93; 93; 62; 93; 93; 62].
Definition DEFAULT_MAX_MESSAGE_SIZE : Z := 64 * 1024 * 1024.
Definition DEFAULT_MAX_CHUNK_SIZE : Z := 16 * 1024 * 1024.

(** Codes of [NetconfFramingError]. *)
Definition MESSAGE_TOO_LARGE : js_exn := ErrorCode "NETCONF_MESSAGE_TOO_LARGE".
Definition INVALID_CHUNK_HEADER : js_exn := ErrorCode "NETCONF_INVALID_CHUNK_HEADER".
Definition INVALID_END_MARKER : js_exn := ErrorCode "NETCONF_INVALID_END_MARKER".
Definition EMPTY_CHUNKED_MESSAGE : js_exn := ErrorCode "NETCONF_EMPTY_CHUNKED_MESSAGE".
Definition INVALID_CHUNK_SIZE : js_exn := ErrorCode "NETCONF_INVALID_CHUNK_SIZE".
Definition CHUNK_TOO_LARGE : js_exn := ErrorCode "NETCONF_CHUNK_TOO_LARGE".
Definition INCOMPLETE_MESSAGE : js_exn := ErrorCode "NETCONF_INCOMPLETE_MESSAGE".

(** What a caller may pass as a message or a chunk. *)
Inductive framing_input (text : Type) :=
| InBuffer (b : list Z)
| InUint8Array (b : list Z)
| InString (t : text)
| InOther.
Arguments InBuffer {text} b.
Arguments InUint8Array {text} b.
Arguments InString {text} t.
Arguments InOther {text}.

Record framer_options := {
  opt_maxMessageSize : option Z;
  opt_maxChunkSize : option Z;
  opt_encoding : option string
}.

Definition no_options : framer_options := {|
  opt_maxMessageSize := None; opt_maxChunkSize := None; opt_encoding := None |}.

Definition encoding_or_utf8 (e : option string) : string :=
  match e with
  | None => "utf8"
  | Some s => if bool_decide (s = EmptyString) then "utf8"%string else s
  end.

Definition appendBuffer (current chunk : buffer) : buffer :=
  if blen current =? 0 then chunk
  else if blen chunk =? 0 then current
  else current ++ chunk.

(** [Buffer.concat(list, totalLength)] cuts or zero-fills to [totalLength]. *)
Definition buffer_concat (chunks : list (list Z)) (total : Z) : buffer :=
  let c := concat chunks in
  if blen c <? total then c ++ alloc (total - blen c) else subarray c 0 total.

(** The checks of [maxMessages] at the start of both [push] methods. *)
Definition check_max_messages (m : max_messages) : option js_exn :=
  match m with
  | Infinity => None
  | Count n => if is_safe_integer n then if n <=? 0 then Some TypeError else None
               else Some TypeError
  | NotANumber => Some TypeError
  end.

Record DelimiterState := {
  df_maxMessageSize : Z;
  df_encoding : string
}.

Record DelimiterFramer := {
  df_state : DelimiterState;
  df_buffer : buffer
}.

Record ChunkedState := {
  cf_maxMessageSize : Z;
  cf_maxChunkSize : Z;
  cf_encoding : string;
  cf_messageChunks : list (list Z);
  cf_messageSize : Z;
  cf_expectedChunkSize : option Z
}.

Record ChunkedFramer := {
  cf_state : ChunkedState;
  cf_buffer : buffer
}.

Definition byte_is (b : buffer) (i v : Z) : bool :=
  match bget b i with
  | Some x => x =? v
  | None => false
  end.

Definition DelimiterFramer_new (o : framer_options) : DelimiterFramer := {|
  df_state := {|
    df_maxMessageSize := js_or_number (opt_maxMessageSize o) DEFAULT_MAX_MESSAGE_SIZE;
    df_encoding := encoding_or_utf8 (opt_encoding o) |};
  df_buffer := [] |}.

Definition ChunkedFramer_new (o : framer_options) : ChunkedFramer :=
  let maxMessageSize := js_or_number (opt_maxMessageSize o) DEFAULT_MAX_MESSAGE_SIZE in
  {| cf_state := {|
       cf_maxMessageSize := maxMessageSize;
       cf_maxChunkSize := js_or_number (opt_maxChunkSize o) (Z.min maxMessageSize DEFAULT_MAX_CHUNK_SIZE);
       cf_encoding := encoding_or_utf8 (opt_encoding o);
       cf_messageChunks := [];
       cf_messageSize := 0;
       cf_expectedChunkSize := None |};
     cf_buffer := [] |}.

Section Framing.
Context {text : Type} (toString : string -> list Z -> text) (utf8 : text -> list Z).

Definition toBuffer (v : framing_input text) : result buffer :=
  match v with
  | InBuffer b => Ok b
  | InUint8Array b => Ok b
  | InString t => Ok (utf8 t)
  | InOther => Throw TypeError
  end.

(** ** DelimiterFramer *)

Definition delimiter_step (s : DelimiterState) (b : buffer) : step_outcome DelimiterState text :=
  match indexOf b NETCONF_10_DELIMITER 0 with
  | None =>
    if df_maxMessageSize s + blen NETCONF_10_DELIMITER - 1 <? blen b then Fail MESSAGE_TOO_LARGE
    else Wait
  | Some delimiterIndex =>
    if df_maxMessageSize s <? delimiterIndex then Fail MESSAGE_TOO_LARGE
    else
      let message := subarray b 0 delimiterIndex in
      Advance s (subarray_from b (delimiterIndex + blen NETCONF_10_DELIMITER))
        (Some (toString (df_encoding s) message))
  end.

#[local] Instance delimiter_decoder : StreamDecoder DelimiterState text := {|
  sd_step := delimiter_step;
  sd_ok _ := True
|}.

Definition delimiter_push (f : DelimiterFramer) (chunk : framing_input text) (maxMessages : max_messages)
  : option (DelimiterFramer * result (list text)) :=
  match toBuffer chunk with
  | Throw e => Some (f, Throw e)
  | Ok input =>
    match check_max_messages maxMessages with
    | Some e => Some (f, Throw e)
    | None =>
      (fun '(s, b, r) => ({| df_state := s; df_buffer := b |}, r))
        <$> stream_run maxMessages (df_state f) (appendBuffer (df_buffer f) input) []
    end
  end.

Definition delimiter_takeBuffered (f : DelimiterFramer) : DelimiterFramer * buffer :=
  ({| df_state := df_state f; df_buffer := [] |}, df_buffer f).

Definition delimiter_reset (f : DelimiterFramer) : DelimiterFramer :=
  {| df_state := df_state f; df_buffer := [] |}.

(** ** ChunkedFramer *)

Definition chunked_set (s : ChunkedState) (chunks : list (list Z)) (size : Z) (expected : option Z)
  : ChunkedState := {|
  cf_maxMessageSize := cf_maxMessageSize s;
  cf_maxChunkSize := cf_maxChunkSize s;
  cf_encoding := cf_encoding s;
  cf_messageChunks := chunks;
  cf_messageSize := size;
  cf_expectedChunkSize := expected |}.

(** The size line of a chunk, from [\n#] to the next line feed. *)
Definition chunked_size_line (s : ChunkedState) (b : buffer) : step_outcome ChunkedState text :=
  match indexOf b [10] 2 with
  | None => if 14 <? blen b then Fail INVALID_CHUNK_SIZE else Wait
  | Some lineEnd =>
    let sizeText := ascii_decode (subarray b 2 lineEnd) in
    if negb (is_positive_decimal sizeText) then Fail INVALID_CHUNK_SIZE
    else
      let chunkSize := dec_value sizeText in
      if negb (is_safe_integer chunkSize) || (4294967295 <? chunkSize) then Fail INVALID_CHUNK_SIZE
      else if cf_maxChunkSize s <? chunkSize then Fail CHUNK_TOO_LARGE
      else if cf_maxMessageSize s <? cf_messageSize s + chunkSize then Fail MESSAGE_TOO_LARGE
      else
        Advance (chunked_set s (cf_messageChunks s) (cf_messageSize s) (Some chunkSize))
          (subarray_from b (lineEnd + 1)) None
  end.

Definition chunked_step (s : ChunkedState) (b : buffer) : step_outcome ChunkedState text :=
  match cf_expectedChunkSize s with
  | Some expected =>
    if blen b <? expected then Wait
    else
      let body := subarray b 0 expected in
      Advance (chunked_set s (cf_messageChunks s ++ [body]) (cf_messageSize s + blen body) None)
        (subarray_from b expected) None
  | None =>
    if blen b =? 0 then Wait
    else if negb (byte_is b 0 10) then Fail INVALID_CHUNK_HEADER
    else if blen b <? 3 then Wait
    else if negb (byte_is b 1 35) then Fail INVALID_CHUNK_HEADER
    else if byte_is b 2 35 then
      if blen b <? 4 then Wait
      else if negb (byte_is b 3 10) then Fail INVALID_END_MARKER
      else if blen (cf_messageChunks s) =? 0 then Fail EMPTY_CHUNKED_MESSAGE
      else
        Advance (chunked_set s [] 0 None) (subarray_from b 4)
          (Some (toString (cf_encoding s) (buffer_concat (cf_messageChunks s) (cf_messageSize s))))
    else chunked_size_line s b
  end.

(** The invariant of the chunked framer: an announced chunk is not empty and
    [messageSize] counts the bytes collected so far. *)
Definition chunked_ok (s : ChunkedState) : Prop :=
  (forall n, cf_expectedChunkSize s = Some n -> 1 <= n) /\
  cf_messageSize s = blen (concat (cf_messageChunks s)).

#[local] Instance chunked_decoder : StreamDecoder ChunkedState text := {|
  sd_step := chunked_step;
  sd_ok := chunked_ok
|}.

Definition chunked_push (f : ChunkedFramer) (chunk : framing_input text) (maxMessages : max_messages)
  : option (ChunkedFramer * result (list text)) :=
  match toBuffer chunk with
  | Throw e => Some (f, Throw e)
  | Ok input =>
    match check_max_messages maxMessages with
    | Some e => Some (f, Throw e)
    | None =>
      (fun '(s, b, r) => ({| cf_state := s; cf_buffer := b |}, r))
        <$> stream_run maxMessages (cf_state f) (appendBuffer (cf_buffer f) input) []
    end
  end.

Definition chunked_takeBuffered (f : ChunkedFramer) : ChunkedFramer * result buffer :=
  match cf_expectedChunkSize (cf_state f), cf_messageChunks (cf_state f) with
  | None, [] => ({| cf_state := cf_state f; cf_buffer := [] |}, Ok (cf_buffer f))
  | _, _ => (f, Throw INCOMPLETE_MESSAGE)
  end.

Definition chunked_reset (f : ChunkedFramer) : ChunkedFramer :=
  {| cf_state := chunked_set (cf_state f) [] 0 None; cf_buffer := [] |}.

(** ** Encoders *)

Definition encodeDelimiter (message : framing_input text) : result buffer :=
  let! body := toBuffer message in Ok (body ++ NETCONF_10_DELIMITER).

Definition END_OF_CHUNKS : buffer := [10; 35; 35; 10].

(** [for (offset = 0; offset < body.length; offset += requestedChunkSize)] *)
Fixpoint encode_chunks (fuel : nat) (body : buffer) (offset size : Z) : buffer :=
  match fuel with
  | O => []
  | S f =>
    if offset <? blen body then
      let chunk := subarray body offset (Z.min (offset + size) (blen body)) in
      [10; 35] ++ dec_digits (blen chunk) ++ [10] ++ chunk ++ encode_chunks f body (offset + size) size
    else []
  end.

Definition encodeChunked (message : framing_input text) (chunkSize : option Z) : result buffer :=
  let! body := toBuffer message in
  if blen body =? 0 then Throw EMPTY_CHUNKED_MESSAGE
  else
    let requestedChunkSize := js_or_number chunkSize (blen body) in
    if negb (is_safe_integer requestedChunkSize) || (requestedChunkSize <=? 0)
       || (4294967295 <? requestedChunkSize)
    then Throw TypeError
    else Ok (encode_chunks (length body) body 0 requestedChunkSize ++ END_OF_CHUNKS).

Inductive framer :=
| Netconf11Framer (f : ChunkedFramer)
| Netconf10Framer (f : DelimiterFramer).

Definition createFramer (baseVersion : string) (o : framer_options) : result framer :=
  if bool_decide (baseVersion = "1.1"%string) then Ok (Netconf11Framer (ChunkedFramer_new o))
  else if bool_decide (baseVersion = "1.0"%string) then Ok (Netconf10Framer (DelimiterFramer_new o))
  else Throw TypeError.

Definition encodeMessage (message : framing_input text) (baseVersion : string) (chunkSize : option Z)
  : result buffer :=
  if bool_decide (baseVersion = "1.1"%string) then encodeChunked message chunkSize
  else if bool_decide (baseVersion = "1.0"%string) then encodeDelimiter message
  else Throw TypeError.

(** ** Laws of the two loop bodies *)

Lemma appendBuffer_app a b : appendBuffer a b = a ++ b.
Proof.
  unfold appendBuffer. repeat case_if; bool_hyps; [| |done].
  - by rewrite (blen_0_inv a).
  - by rewrite (blen_0_inv b), app_nil_r.
Qed.

Lemma byte_is_app b x i v : i < blen b -> byte_is (b ++ x) i v = byte_is b i v.
Proof. intros. unfold byte_is. by rewrite bget_app_l. Qed.

Lemma byte_is_bound b i v : byte_is b i v = true -> 0 <= i < blen b.
Proof.
  unfold byte_is, bget. case_if; [done|]. destruct (b !! Z.to_nat i) eqn:Hl; [|done].
  apply lookup_lt_Some in Hl. unfold blen. bool_hyps. lia.
Qed.

Lemma byte_is_head b x v : byte_is (b :: x) 0 v = (b =? v).
Proof. done. Qed.

(** How the outcome of a step changes when more bytes follow the buffer. *)
Definition outcome_app {S M} (o : step_outcome S M) (x : buffer) (o' : step_outcome S M) : Prop :=
  match o with
  | Wait => True
  | Fail e => o' = Fail e
  | Advance s b out => o' = Advance s (b ++ x) out
  end.

Lemma delimiter_step_app s b x : outcome_app (delimiter_step s b) x (delimiter_step s (b ++ x)).
Proof.
  assert (NETCONF_10_DELIMITER <> []) as Hd by done. unfold delimiter_step.
  change (blen NETCONF_10_DELIMITER) with 6. destruct (indexOf b _ 0) as [i|] eqn:Hi.
  - destruct (indexOf_Some _ _ _ _ Hd (Z.le_refl 0) Hi) as (? & Hb & _).
    change (blen NETCONF_10_DELIMITER) with 6 in *. erewrite indexOf_app by done.
    destruct (_ <? i); [done|]. cbn.
    rewrite subarray_app_left by lia. by rewrite subarray_from_app_left by lia.
  - destruct (_ <? blen b) eqn:E; [|done]. bool_hyps. cbn. pose proof (blen_nonneg x).
    destruct (indexOf (b ++ x) _ 0) as [j|] eqn:Hj.
    + pose proof (indexOf_app_new _ _ _ _ _ Hd (Z.le_refl 0) Hi Hj).
      change (blen NETCONF_10_DELIMITER) with 6 in *.
      rewrite (proj2 (Z.ltb_lt _ _)); [done | lia].
    + rewrite (proj2 (Z.ltb_lt _ _)); [done|]. autorewrite with blen. lia.
Qed.

#[local] Instance delimiter_laws : StreamLaws DelimiterState text.
Proof.
  assert (NETCONF_10_DELIMITER <> []) as Hd by done.
  split; cbn [sd_ok sd_step delimiter_decoder]; [done| | |].
  - intros s b s' b' o _. unfold delimiter_step.
    destruct (indexOf b _ 0) as [i|] eqn:Hi; repeat case_if; try done. intros [= <- <- <-].
    destruct (indexOf_Some _ _ _ _ Hd (Z.le_refl 0) Hi) as (? & Hb & _).
    unfold subarray_from, blen in *. rewrite length_drop. cbn in *. lia.
  - intros s b s' b' o x _ Ha. pose proof (delimiter_step_app s b x) as Hx. by rewrite Ha in Hx.
  - intros s b e x _ Ha. pose proof (delimiter_step_app s b x) as Hx. by rewrite Ha in Hx.
Qed.

(** Thirteen digits or more are beyond the range of a chunk size. *)
Lemma long_size_text_invalid t :
  13 <= blen t -> is_positive_decimal t = true -> 4294967295 < dec_value t.
Proof.
  intros Hl Hp. pose proof (dec_value_lower t Hp).
  assert (10 ^ 12 <= 10 ^ (blen t - 1)) by (apply Z.pow_le_mono_r; lia).
  change (10 ^ 0) with 1 in *. lia.
Qed.

Lemma chunked_size_line_advance s b s' b' o :
  chunked_size_line s b = Advance s' b' o ->
  exists lineEnd n, indexOf b [10] 2 = Some lineEnd /\ b' = subarray_from b (lineEnd + 1) /\
    o = None /\ 1 <= n /\ n = dec_value (ascii_decode (subarray b 2 lineEnd)) /\
    n <= cf_maxChunkSize s /\ cf_messageSize s + n <= cf_maxMessageSize s /\
    s' = chunked_set s (cf_messageChunks s) (cf_messageSize s) (Some n).
Proof.
  unfold chunked_size_line. destruct (indexOf b [10] 2) as [le|]; [|by case_if].
  destruct (is_positive_decimal _) eqn:Hp; [|done]. cbn [negb].
  repeat case_if; try done. intros [= <- <- <-]. bool_hyps.
  exists le, (dec_value (ascii_decode (subarray b 2 le))). split_and!; try done.
  pose proof (dec_value_lower _ Hp).
  set (t := ascii_decode _) in *. clearbody t. assert (1 <= blen t).
  { destruct t; [done|]. autorewrite with blen. pose proof (blen_nonneg t). lia. }
  assert (10 ^ 0 <= 10 ^ (blen t - 1)) by (apply Z.pow_le_mono_r; lia).
  change (10 ^ 0) with 1 in *. lia.
Qed.

Lemma chunked_size_line_app s b x :
  outcome_app (chunked_size_line s b) x (chunked_size_line s (b ++ x)).
Proof.
  unfold chunked_size_line. destruct (indexOf b [10] 2) as [le|] eqn:Hi.
  - destruct (indexOf_Some _ [10] _ _ ltac:(done) (ltac:(lia) : 0 <= 2) Hi) as (? & Hb & _).
    change (blen [10]) with 1 in Hb. erewrite indexOf_app by done.
    rewrite subarray_app_left by lia. destruct (is_positive_decimal _); [cbn [negb]|done].
    repeat (case_if; try done). cbn. by rewrite subarray_from_app_left by lia.
  - destruct (14 <? blen b) eqn:Hlen; [|done]. bool_hyps. pose proof (blen_nonneg x). cbn.
    destruct (indexOf (b ++ x) [10] 2) as [le|] eqn:Hj.
    2:{ rewrite (proj2 (Z.ltb_lt _ _)); [done|]. autorewrite with blen. lia. }
    pose proof (indexOf_app_new _ _ [10] _ _ ltac:(done) (ltac:(lia) : 0 <= 2) Hi Hj) as Hge.
    destruct (indexOf_Some _ [10] _ _ ltac:(done) (ltac:(lia) : 0 <= 2) Hj) as (? & Hb & _).
    change (blen [10]) with 1 in *.
    destruct (is_positive_decimal _) eqn:Hp; [|done]. cbn [negb].
    apply long_size_text_invalid in Hp.
    + rewrite (proj2 (Z.ltb_lt _ _)) by done. by rewrite orb_true_r.
    + rewrite blen_ascii_decode, blen_subarray; lia.
Qed.

Lemma chunked_step_app s b x :
  chunked_ok s -> outcome_app (chunked_step s b) x (chunked_step s (b ++ x)).
Proof.
  intros [Hexp _]. pose proof (blen_nonneg x). pose proof (blen_nonneg b). unfold chunked_step.
  destruct (cf_expectedChunkSize s) as [n|].
  - specialize (Hexp n eq_refl). case_if; [done|]. bool_hyps. cbn.
    decide_test (blen (b ++ x) <? n) false.
    rewrite subarray_app_left by lia. by rewrite subarray_from_app_left by lia.
  - destruct (blen b =? 0) eqn:?; [done|]. bool_hyps.
    decide_test (blen (b ++ x) =? 0) false.
    rewrite byte_is_app by lia. destruct (byte_is b 0 10); [cbn [negb]|done].
    destruct (blen b <? 3) eqn:?; [done|]. bool_hyps.
    decide_test (blen (b ++ x) <? 3) false.
    rewrite !(byte_is_app b) by lia. destruct (byte_is b 1 35); [cbn [negb]|done].
    destruct (byte_is b 2 35); [|apply chunked_size_line_app].
    destruct (blen b <? 4) eqn:?; [done|]. bool_hyps.
    decide_test (blen (b ++ x) <? 4) false.
    rewrite byte_is_app by lia. repeat case_if; try done. cbn.
    by rewrite subarray_from_app_left by lia.
Qed.

Lemma chunked_step_advance s b s' b' o :
  chunked_ok s -> chunked_step s b = Advance s' b' o ->
  chunked_ok s' /\ (length b' < length b)%nat.
Proof.
  intros [Hexp Hsize]. unfold chunked_step. destruct (cf_expectedChunkSize s) as [n|].
  - specialize (Hexp n eq_refl). case_if; [done|]. intros [= <- <- <-]. bool_hyps. split; [split|].
    + done.
    + cbn. rewrite concat_app, blen_app, Hsize. cbn. by rewrite app_nil_r.
    + unfold subarray_from, blen in *. rewrite length_drop. lia.
  - repeat case_if; try done.
    + intros [= <- <- <-]. bool_hyps. split; [done|].
      unfold subarray_from, blen in *. rewrite length_drop. lia.
    + intros Ha. apply chunked_size_line_advance in Ha as (le & m & Hi & -> & _ & Hm & _ & _ & _ & ->).
      split; [split; cbn; [by intros ? [= <-] | done]|].
      destruct (indexOf_Some _ [10] _ _ ltac:(done) (ltac:(lia) : 0 <= 2) Hi) as (? & ? & _).
      unfold subarray_from, blen in *. cbn [length] in *. rewrite length_drop. lia.
Qed.

#[local] Instance chunked_laws : StreamLaws ChunkedState text.
Proof.
  split; cbn [sd_ok sd_step chunked_decoder].
  - intros s b s' b' o Hok Ha. by apply chunked_step_advance in Ha as [? _].
  - intros s b s' b' o Hok Ha. by apply chunked_step_advance in Ha as [_ ?].
  - intros s b s' b' o x Hok Ha. pose proof (chunked_step_app s b x Hok) as Hx. by rewrite Ha in Hx.
  - intros s b e x Hok Ha. pose proof (chunked_step_app s b x Hok) as Hx. by rewrite Ha in Hx.
Qed.

(** ** The loops of the two framers *)

Lemma delimiter_run_advance s b (acc : list text) s' b' o :
  delimiter_step s b = Advance s' b' o ->
  stream_run Infinity s b acc = stream_run Infinity s' b' (acc ++ option_list o).
Proof. intros Hst. by apply stream_run_advance. Qed.

Lemma chunked_run_ok limit s b acc s1 b1 (r : result (list text)) :
  chunked_ok s -> stream_run limit s b acc = Some (s1, b1, r) -> chunked_ok s1.
Proof. exact (stream_run_ok limit s b acc s1 b1 r). Qed.

Lemma delimiter_push_run f b :
  delimiter_push f (InBuffer b) Infinity =
  (fun '(s, b, r) => ({| df_state := s; df_buffer := b |}, r))
    <$> stream_run Infinity (df_state f) (df_buffer f ++ b) [].
Proof. unfold delimiter_push. cbn. by rewrite appendBuffer_app. Qed.

Lemma chunked_push_run f b :
  chunked_push f (InBuffer b) Infinity =
  (fun '(s, b, r) => ({| cf_state := s; cf_buffer := b |}, r))
    <$> stream_run Infinity (cf_state f) (cf_buffer f ++ b) [].
Proof. unfold chunked_push. cbn. by rewrite appendBuffer_app. Qed.

(** A connection delivers its bytes in fragments, one [push] each. *)
Fixpoint chunked_feed (f : ChunkedFramer) (frags : list (list Z)) (acc : list text)
  : option (ChunkedFramer * result (list text)) :=
  match frags with
  | [] => Some (f, Ok acc)
  | x :: tl =>
    match chunked_push f (InBuffer x) Infinity with
    | Some (f', Ok m) => chunked_feed f' tl (acc ++ m)
    | other => other
    end
  end.

Fixpoint delimiter_feed (f : DelimiterFramer) (frags : list (list Z)) (acc : list text)
  : option (DelimiterFramer * result (list text)) :=
  match frags with
  | [] => Some (f, Ok acc)
  | x :: tl =>
    match delimiter_push f (InBuffer x) Infinity with
    | Some (f', Ok m) => delimiter_feed f' tl (acc ++ m)
    | other => other
    end
  end.

Lemma chunked_feed_stream frags f acc :
  chunked_feed f frags acc =
  (fun '(s, b, r) => ({| cf_state := s; cf_buffer := b |}, r))
    <$> stream_feed (cf_state f) (cf_buffer f) frags acc.
Proof.
  revert f acc; induction frags as [|x tl IH]; intros f acc; cbn [chunked_feed stream_feed].
  - by destruct f.
  - rewrite chunked_push_run. destruct (stream_run _ _ _ _) as [[[s b] [m|e]]|]; cbn; [|done..].
    by rewrite IH.
Qed.

Lemma delimiter_feed_stream frags f acc :
  delimiter_feed f frags acc =
  (fun '(s, b, r) => ({| df_state := s; df_buffer := b |}, r))
    <$> stream_feed (df_state f) (df_buffer f) frags acc.
Proof.
  revert f acc; induction frags as [|x tl IH]; intros f acc; cbn [delimiter_feed stream_feed].
  - by destruct f.
  - rewrite delimiter_push_run. destruct (stream_run _ _ _ _) as [[[s b] [m|e]]|]; cbn; [|done..].
    by rewrite IH.
Qed.

(** Feeding fragments is pushing their concatenation. *)
Lemma chunked_feed_concat f x frags :
  chunked_ok (cf_state f) ->
  match chunked_feed f (x :: frags) [] with
  | Some (f', Ok m) => chunked_push f (InBuffer (concat (x :: frags))) Infinity = Some (f', Ok m)
  | Some (f', Throw e) =>
    exists b2, chunked_push f (InBuffer (concat (x :: frags))) Infinity =
               Some ({| cf_state := cf_state f'; cf_buffer := b2 |}, Throw e)
  | None => False
  end.
Proof.
  intros Hok. rewrite chunked_feed_stream, chunked_push_run. cbn [concat].
  pose proof (stream_feed_concat frags (cf_state f) (cf_buffer f) x [] Hok) as Hf.
  destruct (stream_feed _ _ _ _) as [[[s b] [m|e]]|]; cbn; [|destruct Hf as [b2 Hf]; exists b2|done];
    by rewrite Hf.
Qed.

Lemma delimiter_feed_concat f x frags :
  match delimiter_feed f (x :: frags) [] with
  | Some (f', Ok m) => delimiter_push f (InBuffer (concat (x :: frags))) Infinity = Some (f', Ok m)
  | Some (f', Throw e) =>
    exists b2, delimiter_push f (InBuffer (concat (x :: frags))) Infinity =
               Some ({| df_state := df_state f'; df_buffer := b2 |}, Throw e)
  | None => False
  end.
Proof.
  rewrite delimiter_feed_stream, delimiter_push_run. cbn [concat].
  pose proof (stream_feed_concat frags (df_state f) (df_buffer f) x [] I) as Hf.
  destruct (stream_feed _ _ _ _) as [[[s b] [m|e]]|]; cbn; [|destruct Hf as [b2 Hf]; exists b2|done];
    by rewrite Hf.
Qed.

(** ** Chunked encoding is decoded back *)


(** ** Chunked encoding is decoded back *)

Lemma indexOf_digits ds tl :
  forallb is_digit ds = true -> indexOf ([10; 35] ++ ds ++ 10 :: tl) [10] 2 = Some (2 + blen ds).
Proof.
  intros Hd. assert (forall k : nat, (k < length ds)%nat ->
    ~ match_at [10] ([10; 35] ++ ds ++ 10 :: tl) (2 + k)) as Hno.
  { intros k Hk. unfold match_at. cbn [app drop Nat.add]. rewrite drop_app_le by lia.
    destruct (drop k ds) as [|c l] eqn:Hdr.
    - apply (f_equal length) in Hdr. rewrite length_drop in Hdr. cbn in Hdr. lia.
    - cbn. intros [= ->]. rewrite forallb_forall in Hd.
      assert (In 10 ds) as Hin by (rewrite <- (take_drop k ds), Hdr; apply in_app_iff; right; by left).
      apply Hd in Hin. done. }
  apply indexOf_intro; [done | blia | |].
  - unfold match_at, blen. replace (Z.to_nat (2 + Z.of_nat (length ds))) with (2 + length ds)%nat by lia.
    cbn [app drop Nat.add length]. by rewrite drop_app_length.
  - intros k Hk. replace (Z.to_nat k) with (2 + (Z.to_nat k - 2))%nat by lia.
    apply Hno. unfold blen in *. lia.
Qed.

Lemma ascii_decode_digits ds : forallb is_digit ds = true -> ascii_decode ds = ds.
Proof.
  intros Hd. unfold ascii_decode. rewrite <- (map_id ds) at 2. apply map_ext_in. intros c Hc.
  rewrite forallb_forall in Hd. apply Hd in Hc. unfold is_digit in Hc. bool_hyps.
  apply Z.mod_small. lia.
Qed.

(** The size line of an encoded chunk is accepted. *)
Lemma chunked_step_size_line s (c rest : buffer) :
  cf_expectedChunkSize s = None -> 1 <= blen c <= cf_maxChunkSize s ->
  blen c <= 4294967295 -> cf_messageSize s + blen c <= cf_maxMessageSize s ->
  chunked_step s ([10; 35] ++ dec_digits (blen c) ++ 10 :: c ++ rest) =
  Advance (chunked_set s (cf_messageChunks s) (cf_messageSize s) (Some (blen c))) (c ++ rest) None.
Proof.
  intros Hexp Hc Hmax Hsize.
  destruct (dec_digits_correct (blen c)) as (Hv & Hd & Hp); [lia|]. specialize (Hp ltac:(lia)).
  pose proof (indexOf_digits (dec_digits (blen c)) (c ++ rest) Hd) as Hi.
  set (ds := dec_digits (blen c)) in *.
  assert (byte_is ([10; 35] ++ ds ++ 10 :: c ++ rest) 2 35 = false) as H35.
  { destruct ds as [|d ds']; [done|]. cbn in Hp. bool_hyps. unfold byte_is, bget. cbn.
    apply Z.eqb_neq. lia. }
  unfold chunked_step. rewrite Hexp, H35.
  decide_test (blen ([10; 35] ++ ds ++ 10 :: c ++ rest) =? 0) false.
  decide_test (blen ([10; 35] ++ ds ++ 10 :: c ++ rest) <? 3) false.
  replace (byte_is _ 0 10) with true by done. replace (byte_is _ 1 35) with true by done.
  cbn [negb]. unfold chunked_size_line. rewrite Hi.
  replace (subarray _ 2 (2 + blen ds)) with ds by (by rewrite (subarray_mid [10; 35])).
  rewrite ascii_decode_digits, Hp, Hv by done. cbn [negb]. unfold is_safe_integer, max_safe_integer.
  decide_test (- (2 ^ 53 - 1) <=? blen c) true. decide_test (blen c <=? 2 ^ 53 - 1) true.
  decide_test (4294967295 <? blen c) false. decide_test (cf_maxChunkSize s <? blen c) false.
  decide_test (cf_maxMessageSize s <? cf_messageSize s + blen c) false. cbn [andb orb negb].
  f_equal. replace (2 + blen ds + 1) with (blen ([10; 35] ++ ds ++ [10])) by blia.
  replace ([10; 35] ++ ds ++ 10 :: c ++ rest) with (([10; 35] ++ ds ++ [10]) ++ c ++ rest)
    by (cbn [app]; by rewrite <- app_assoc).
  apply subarray_from_app.
Qed.

(** One encoded chunk is collected. *)
Lemma chunked_run_chunk s (c rest : buffer) acc :
  chunked_ok s -> cf_expectedChunkSize s = None -> 1 <= blen c <= cf_maxChunkSize s ->
  blen c <= 4294967295 -> cf_messageSize s + blen c <= cf_maxMessageSize s ->
  stream_run Infinity s ([10; 35] ++ dec_digits (blen c) ++ 10 :: c ++ rest) acc =
  stream_run Infinity (chunked_set s (cf_messageChunks s ++ [c]) (cf_messageSize s + blen c) None) rest acc.
Proof.
  intros Hok Hexp Hc Hmax Hsize.
  pose proof (chunked_step_size_line s c rest Hexp Hc Hmax Hsize) as H1.
  destruct (chunked_step_advance _ _ _ _ _ Hok H1) as [Hok1 _].
  erewrite (stream_run_advance (S := ChunkedState) Infinity s) by done.
  rewrite (stream_run_advance (S := ChunkedState) (M := text) Infinity _ (c ++ rest) _
    (chunked_set s (cf_messageChunks s ++ [c]) (cf_messageSize s + blen c) None) rest None);
    [| exact Hok1 | done |].
  - cbn [option_list]. by rewrite !app_nil_r.
  - cbn [sd_step chunked_decoder]. unfold chunked_step. cbn [cf_expectedChunkSize chunked_set].
    decide_test (blen (c ++ rest) <? blen c) false.
    by rewrite subarray_app_l, subarray_from_app.
Qed.

(** A whole encoded body is collected. *)
Lemma chunked_run_chunks fuel s body offset size rest acc :
  chunked_ok s -> cf_expectedChunkSize s = None -> 0 <= offset -> 1 <= size ->
  Z.min size (blen body) <= cf_maxChunkSize s -> Z.min size (blen body) <= 4294967295 ->
  cf_messageSize s + (blen body - offset) <= cf_maxMessageSize s ->
  blen body - offset <= Z.of_nat fuel ->
  exists chunks, concat chunks = subarray_from body offset /\
    (offset < blen body -> chunks <> []) /\
    stream_run Infinity s (encode_chunks fuel body offset size ++ rest) acc =
    stream_run Infinity
      (chunked_set s (cf_messageChunks s ++ chunks) (cf_messageSize s + blen (concat chunks)) None) rest acc.
Proof.
  revert s offset; induction fuel as [|f IH]; intros s offset Hok Hexp Hoff Hsz Hc Hc' Hmax Hf;
    cbn [encode_chunks]; [|destruct (offset <? blen body) eqn:Hlt].
  1,3: exists []; split_and!; [unfold subarray_from; rewrite drop_ge; [done | unfold blen in *; bool_hyps; lia]
         | bool_hyps; lia | rewrite app_nil_r, Z.add_0_r; by destruct s; cbn in *; subst].
  bool_hyps. set (c := subarray body offset (Z.min (offset + size) (blen body))).
  assert (blen c = Z.min (offset + size) (blen body) - offset) as Hlc by (apply blen_subarray; lia).
  assert (forall t, ([10; 35] ++ dec_digits (blen c) ++ [10] ++ c ++ t) ++ rest =
                    [10; 35] ++ dec_digits (blen c) ++ 10 :: c ++ (t ++ rest)) as Hre.
  { intros t. repeat (rewrite <- !app_assoc; cbn [app]). done. }
  set (s1 := chunked_set s (cf_messageChunks s ++ [c]) (cf_messageSize s + blen c) None).
  assert (chunked_ok s1) as Hok1.
  { destruct Hok as [_ Hs]. split; [done|]. cbn. rewrite concat_app, blen_app, Hs. cbn.
    by rewrite app_nil_r. }
  destruct (IH s1 (offset + size)) as (chunks & Hcat & _ & Hrun);
    [exact Hok1 | done | lia | lia | done | done | cbn; lia | lia |].
  exists (c :: chunks). split_and!; [|done|].
  - cbn. rewrite Hcat. unfold c, subarray, subarray_from.
    rewrite <- (take_drop (Z.to_nat size) (drop (Z.to_nat offset) body)) at 2. rewrite drop_drop. f_equal.
    + destruct (decide (offset + size <= blen body)).
      { by replace (Z.to_nat (Z.min (offset + size) (blen body) - offset)) with (Z.to_nat size) by lia. }
      rewrite !take_ge; [done | rewrite length_drop; unfold blen in *; lia..].
    + by replace (Z.to_nat (offset + size)) with (Z.to_nat offset + Z.to_nat size)%nat by lia.
  - rewrite Hre, (chunked_run_chunk s c) by (done || lia). fold s1. rewrite Hrun. f_equal.
    unfold s1, chunked_set. cbn. f_equal; [by rewrite <- app_assoc | blia].
Qed.

Lemma buffer_concat_exact chunks : buffer_concat chunks (blen (concat chunks)) = concat chunks.
Proof.
  unfold buffer_concat. rewrite Z.ltb_irrefl. unfold subarray, blen.
  rewrite Z.sub_0_r, Nat2Z.id. apply firstn_all.
Qed.

(** The end marker delivers the collected message and clears the collection. *)
Lemma chunked_run_end s rest acc :
  chunked_ok s -> cf_expectedChunkSize s = None -> cf_messageChunks s <> [] ->
  stream_run Infinity s (END_OF_CHUNKS ++ rest) acc =
  stream_run Infinity (chunked_set s [] 0 None) rest
    (acc ++ [toString (cf_encoding s) (concat (cf_messageChunks s))]).
Proof.
  intros Hok Hexp Hne.
  rewrite (stream_run_advance (S := ChunkedState) (M := text) Infinity s _ _ (chunked_set s [] 0 None) rest
             (Some (toString (cf_encoding s) (concat (cf_messageChunks s))))); [done | done | done |].
  cbn [sd_step chunked_decoder]. unfold chunked_step. rewrite Hexp.
  assert (blen END_OF_CHUNKS = 4) as Hend by done.
  decide_test (blen (END_OF_CHUNKS ++ rest) =? 0) false.
  decide_test (blen (END_OF_CHUNKS ++ rest) <? 3) false.
  decide_test (blen (END_OF_CHUNKS ++ rest) <? 4) false.
  destruct Hok as [_ Hsz]. rewrite Hsz, buffer_concat_exact.
  replace (blen (cf_messageChunks s) =? 0) with false; [done|].
  symmetry. apply Z.eqb_neq. intros ?%blen_0_inv. done.
Qed.

(** The limits of a framer admit a message encoded with a given chunk size. *)
Definition chunked_admits (s : ChunkedState) (chunkSize : option Z) (m : buffer) : Prop :=
  blen m <= cf_maxMessageSize s /\
  Z.min (js_or_number chunkSize (blen m)) (blen m) <= cf_maxChunkSize s.

Lemma chunked_run_message s k m w rest acc :
  cf_expectedChunkSize s = None -> cf_messageChunks s = [] -> cf_messageSize s = 0 ->
  chunked_admits s k m -> encodeChunked (InBuffer m) k = Ok w ->
  stream_run Infinity s (w ++ rest) acc = stream_run Infinity s rest (acc ++ [toString (cf_encoding s) m]).
Proof.
  intros Hexp Hch Hsz [Hmsg Hck]. unfold encodeChunked. cbn [toBuffer bind_result].
  destruct (blen m =? 0) eqn:H0; [done|]. case_if; [done|]. intros [= <-]. bool_hyps.
  pose proof (blen_nonneg m).
  destruct (chunked_run_chunks (length m) s m 0 (js_or_number k (blen m)) (END_OF_CHUNKS ++ rest) acc)
    as (chunks & Hcat & Hne & Hrun); try done; try lia.
  - split; [by rewrite Hexp | by rewrite Hch].
  - unfold blen. lia.
  - rewrite <- app_assoc, Hrun, chunked_run_end.
    + cbn. rewrite Hch. cbn. rewrite Hcat. unfold subarray_from. change (Z.to_nat 0) with 0%nat.
      rewrite drop_0. destruct s; cbn in *; by subst.
    + split; [done|]. cbn. rewrite Hch. cbn. lia.
    + done.
    + cbn. rewrite Hch. apply Hne. lia.
Qed.

Lemma chunked_run_messages s k ms ws acc :
  cf_expectedChunkSize s = None -> cf_messageChunks s = [] -> cf_messageSize s = 0 ->
  Forall2 (fun m w => chunked_admits s k m /\ encodeChunked (InBuffer m) k = Ok w) ms ws ->
  stream_run Infinity s (concat ws) acc = Some (s, [], Ok (acc ++ map (toString (cf_encoding s)) ms)).
Proof.
  intros Hexp Hch Hsz Hall. revert acc; induction Hall as [|m w ms ws [Had Henc] _ IH]; intros acc.
  - rewrite app_nil_r. apply stream_run_wait. cbn [sd_step chunked_decoder]. unfold chunked_step.
    by rewrite Hexp.
  - cbn [concat]. erewrite chunked_run_message by done. rewrite IH. cbn. by rewrite <- app_assoc.
Qed.

(** ** Theorems on the chunked framer *)

(** C2: the result of a chunked NETCONF 1.1 stream does not depend on how the
    connection cuts it into fragments: pushing the fragments one by one gives the
    same messages, the same final framer and, if the stream is malformed, the same
    error code as pushing their concatenation at once, from any well-formed framer
    state; it never runs out of fuel. *)
Theorem chunked_fragmentation f x frags :
  chunked_ok (cf_state f) ->
  match chunked_feed f (x :: frags) [] with
  | Some (f', Ok m) => chunked_push f (InBuffer (concat (x :: frags))) Infinity = Some (f', Ok m)
  | Some (f', Throw e) =>
    exists b2, chunked_push f (InBuffer (concat (x :: frags))) Infinity =
               Some ({| cf_state := cf_state f'; cf_buffer := b2 |}, Throw e)
  | None => False
  end.
Proof. apply chunked_feed_concat. Qed.

(** C4: whatever the fragmentation of the wire, a fresh NETCONF 1.1 framer decodes
    the concatenation of encoded messages back to exactly these messages, in order,
    and ends in its initial state, provided its limits admit each message. *)
Theorem chunked_roundtrip o k ms ws x frags :
  let f := ChunkedFramer_new o in
  Forall2 (fun m w => chunked_admits (cf_state f) k m /\ encodeChunked (InBuffer m) k = Ok w) ms ws ->
  concat (x :: frags) = concat ws ->
  chunked_feed f (x :: frags) [] = Some (f, Ok (map (toString (cf_encoding (cf_state f))) ms)).
Proof.
  intros f Hall Hcat. assert (chunked_ok (cf_state f)) as Hok by by split.
  pose proof (chunked_feed_concat f x frags Hok) as Hf.
  rewrite Hcat, chunked_push_run in Hf. cbn [cf_buffer ChunkedFramer_new f app] in Hf.
  rewrite (chunked_run_messages _ k ms) in Hf by done.
  destruct (chunked_feed f (x :: frags) []) as [[f' [m|e]]|]; [|by destruct Hf as [b2 [=]]|done].
  by injection Hf as <- <-.
Qed.

(** [push] of the chunked framer always terminates with a result and keeps the
    invariant of the framer (an announced chunk is not empty, [messageSize] is the
    number of bytes collected), whatever it is given and also when it throws. *)
Theorem chunked_push_total f chunk maxMessages :
  chunked_ok (cf_state f) ->
  exists f' r, chunked_push f chunk maxMessages = Some (f', r) /\ chunked_ok (cf_state f').
Proof.
  intros Hok. unfold chunked_push. destruct (toBuffer chunk); [|eauto].
  destruct (check_max_messages maxMessages); [eauto|].
  destruct (stream_run_total (S := ChunkedState) (M := text) maxMessages (cf_state f)
              (appendBuffer (cf_buffer f) a) []) as [[[s b] r] Hr]; [exact Hok|].
  rewrite Hr. cbn. eexists _, _. split; [done|].
  by eapply chunked_run_ok.
Qed.

(** What the limits guarantee of the collection: it stays within [maxMessageSize],
    the announced chunk included, and holds no empty chunk. *)
Definition chunked_bounded (s : ChunkedState) : Prop :=
  cf_messageSize s + default 0 (cf_expectedChunkSize s) <= cf_maxMessageSize s /\
  Forall (fun c => 1 <= blen c) (cf_messageChunks s).

Definition bounded_text (maxSize : Z) (encoding : string) (t : text) : Prop :=
  exists b, t = toString encoding b /\ 1 <= blen b <= maxSize.

Lemma chunked_step_bounded s b s' b' o :
  chunked_ok s -> chunked_bounded s -> chunked_step s b = Advance s' b' o ->
  chunked_bounded s' /\ cf_maxMessageSize s' = cf_maxMessageSize s /\ cf_encoding s' = cf_encoding s /\
  forall t, o = Some t -> bounded_text (cf_maxMessageSize s) (cf_encoding s) t.
Proof.
  intros [Hexp Hsz] [Hb Hne]. unfold chunked_step. destruct (cf_expectedChunkSize s) as [n|].
  - specialize (Hexp n eq_refl). case_if; [done|]. bool_hyps. intros [= <- <- <-].
    assert (blen (subarray b 0 n) = n) as Hn by (rewrite blen_subarray; lia).
    cbn in *. repeat split; cbn; [rewrite Hn; lia | | done].
    apply Forall_app; split; [done|]. repeat constructor. lia.
  - repeat case_if; try done.
    + intros [= <- <- <-]. bool_hyps. cbn in *. repeat split; cbn; [blia | done |].
      intros t [= <-]. exists (concat (cf_messageChunks s)). rewrite Hsz, buffer_concat_exact.
      split; [done|]. split; [|lia]. destruct (cf_messageChunks s) as [|c l]; [done|].
      apply Forall_cons_iff in Hne as [? _]. cbn. blia.
    + intros Ha. apply chunked_size_line_advance in Ha as (le & m & _ & _ & -> & _ & _ & _ & Hm & ->).
      by repeat split.
Qed.

(** a chunked framer never collects more than [maxMessageSize] bytes, and every
    message it delivers is the decoding of at least one and at most
    [maxMessageSize] bytes. *)
Theorem chunked_messages_bounded f chunk maxMessages f' r :
  chunked_ok (cf_state f) -> chunked_bounded (cf_state f) ->
  chunked_push f chunk maxMessages = Some (f', r) ->
  chunked_bounded (cf_state f') /\
  forall ms, r = Ok ms ->
    Forall (bounded_text (cf_maxMessageSize (cf_state f)) (cf_encoding (cf_state f))) ms.
Proof.
  intros Hok Hb. unfold chunked_push. destruct (toBuffer chunk); [|by intros [= <- <-]].
  destruct (check_max_messages maxMessages); [by intros [= <- <-]|].
  set (w := appendBuffer _ _). set (mx := cf_maxMessageSize (cf_state f)).
  set (enc := cf_encoding (cf_state f)).
  enough (forall s b acc, chunked_ok s -> chunked_bounded s -> cf_maxMessageSize s = mx ->
    cf_encoding s = enc -> Forall (bounded_text mx enc) acc ->
    forall s' b' r', stream_run maxMessages s b acc = Some (s', b', r') ->
    chunked_bounded s' /\ forall ms, r' = Ok ms -> Forall (bounded_text mx enc) ms) as Hgen.
  { destruct (stream_run _ _ w []) as [[[s1 b1] r1]|] eqn:Hr; [|done]. cbn. intros [= <- <-].
    eapply Hgen; [exact Hok | done..|exact Hr]. }
  clear. refine (stream_run_ind (fun s b acc => chunked_bounded s -> _ -> _ -> _ -> forall s' b' r', _)
                   maxMessages _ _ _ _); intros s b acc.
  - intros _ Hl ???? s' b' r'. rewrite stream_run_stop by done. by intros [= <- <- <-]; split; [|intros ? [= <-]].
  - intros _ Hl Hw ???? s' b' r'. rewrite stream_run_wait by done. by intros [= <- <- <-]; split; [|intros ? [= <-]].
  - intros e _ Hl Hw ???? s' b' r'. erewrite stream_run_fail by done. by intros [= <- <- <-].
  - intros s1 b1 o Hok Hl Hs IH Hb Hmx Henc Hacc s' b' r'.
    erewrite stream_run_advance by done.
    destruct (chunked_step_bounded _ _ _ _ _ Hok Hb Hs) as (Hb1 & Hm1 & He1 & Ho).
    apply IH; [done | congruence | congruence |]. apply Forall_app; split; [done|].
    destruct o; constructor; [|done]. subst mx enc. rewrite <- Hmx, <- Henc. by apply Ho.
Qed.

(** A [push] limited to [maxMessages] messages delivers at most that many, and
    what it left undecoded is decoded by the next [push] as if there had been no
    limit. *)
Theorem chunked_push_resume f chunk k f1 m1 :
  chunked_ok (cf_state f) ->
  chunked_push f (InBuffer chunk) (Count k) = Some (f1, Ok m1) ->
  blen m1 <= k /\
  chunked_push f (InBuffer chunk) Infinity =
  (fun '(f2, r) => (f2, match r with Ok m2 => Ok (m1 ++ m2) | Throw e => Throw e end))
    <$> chunked_push f1 (InBuffer []) Infinity.
Proof.
  intros Hok. rewrite !chunked_push_run. unfold chunked_push. cbn [toBuffer].
  destruct (check_max_messages (Count k)) eqn:Hc; [done|]. cbn in Hc.
  assert (0 <= k) by (repeat case_if; try done; bool_hyps; lia).
  rewrite appendBuffer_app.
  destruct (stream_run (Count k) _ _ _) as [[[s1 b1] r1]|] eqn:Hr; [|done]. cbn. intros [= <- ->].
  split; [eapply (stream_run_limit (S := ChunkedState) (M := text)); [exact Hok | | exact Hr]; done|].
  erewrite (stream_run_resume (S := ChunkedState) (M := text)); [| exact Hok | exact Hr]. cbn.
  assert (chunked_ok s1) as Hok1 by (by eapply chunked_run_ok).
  pose proof (stream_run_acc (S := ChunkedState) (M := text) s1 b1 [] m1 Hok1) as Ha.
  rewrite app_nil_r in Ha. rewrite Ha, app_nil_r.
  by destruct (stream_run Infinity s1 b1 []) as [[[? ?] [?|?]]|].
Qed.

(** ** Theorems on the delimiter framer *)

(** the result of a NETCONF 1.0 stream does not depend on how the connection cuts
    it into fragments, including a delimiter split across fragments and the
    too-large check: same messages, same final framer, same error code. *)
Theorem delimiter_fragmentation f x frags :
  match delimiter_feed f (x :: frags) [] with
  | Some (f', Ok m) => delimiter_push f (InBuffer (concat (x :: frags))) Infinity = Some (f', Ok m)
  | Some (f', Throw e) =>
    exists b2, delimiter_push f (InBuffer (concat (x :: frags))) Infinity =
               Some ({| df_state := df_state f'; df_buffer := b2 |}, Throw e)
  | None => False
  end.
Proof. apply delimiter_feed_concat. Qed.

(** A message the NETCONF 1.0 framing can carry: it contains no delimiter and does
    not end with the first half of one. *)
Definition framing_safe (m : buffer) : Prop :=
  (forall k, ~ match_at NETCONF_10_DELIMITER m k) /\ ~ [93; 93; 62] `suffix_of` m.

(** An occurrence of the delimiter that straddles the end of the message. *)
Lemma delimiter_straddle m k :
  (k < length m)%nat -> (length m < k + 6)%nat ->
  match_at NETCONF_10_DELIMITER (m ++ NETCONF_10_DELIMITER) k <-> drop k m = [93; 93; 62].
Proof.
  intros Hk Hk6. unfold match_at, NETCONF_10_DELIMITER. rewrite drop_app_le by lia.
  assert (length (drop k m) = length m - k)%nat as Hl by apply length_drop.
  destruct (drop k m) as [|a1 [|a2 [|a3 [|a4 [|a5 [|a6 l]]]]]] eqn:Hd; cbn in *; try lia.
  all: split; intros; simplify_eq; done.
Qed.

Lemma framing_safe_first m :
  framing_safe m <-> forall k, (k < length m)%nat ->
    ~ match_at NETCONF_10_DELIMITER (m ++ NETCONF_10_DELIMITER) k.
Proof.
  split.
  - intros [Hno Hsuf] k Hk Hm. destruct (decide (k + 6 <= length m)%nat) as [Hle|Hgt].
    + apply (Hno k). by apply match_at_app_inv in Hm.
    + apply delimiter_straddle in Hm; [|done|lia]. apply Hsuf. exists (take k m).
      by rewrite <- Hm, take_drop.
  - intros Hno. split.
    + intros k Hm. assert (NETCONF_10_DELIMITER <> []) as Hd by done.
      pose proof (match_at_bound _ _ _ Hd Hm) as Hb. cbn in Hb.
      apply (Hno k); [lia | by apply match_at_app].
    + intros [p ->]. apply (Hno (length p)); [rewrite length_app; cbn; lia|].
      apply delimiter_straddle; rewrite ?length_app; cbn; [lia | lia |]. by rewrite drop_app_length.
Qed.

Lemma delimiter_step_message s m rest :
  blen m <= df_maxMessageSize s -> framing_safe m ->
  delimiter_step s (m ++ NETCONF_10_DELIMITER ++ rest) =
  Advance s rest (Some (toString (df_encoding s) m)).
Proof.
  intros Hmax Hsafe. unfold delimiter_step. rewrite app_assoc.
  rewrite (indexOf_app _ _ _ _ (blen m)); [| done | done |].
  - decide_test (df_maxMessageSize s <? blen m) false.
    rewrite <- blen_app, subarray_from_app, <- app_assoc. by rewrite subarray_app_l.
  - pose proof (blen_nonneg m). apply indexOf_intro; [done | lia | |].
    + unfold match_at, blen. rewrite Nat2Z.id, drop_app_length. done.
    + intros k Hk. apply (proj1 (framing_safe_first m) Hsafe). unfold blen in *. lia.
Qed.

Lemma delimiter_run_messages s ms acc :
  0 <= df_maxMessageSize s ->
  Forall (fun m => blen m <= df_maxMessageSize s /\ framing_safe m) ms ->
  stream_run Infinity s (concat (map (fun m => m ++ NETCONF_10_DELIMITER) ms)) acc =
  Some (s, [], Ok (acc ++ map (toString (df_encoding s)) ms)).
Proof.
  intros H0 Hall. revert acc; induction Hall as [|m ms [Hmax Hsafe] _ IH]; intros acc.
  - rewrite app_nil_r. apply stream_run_wait. cbn [sd_step delimiter_decoder]. unfold delimiter_step.
    cbn [concat map]. change (indexOf [] NETCONF_10_DELIMITER 0) with (@None Z).
    change (blen NETCONF_10_DELIMITER) with 6. change (blen (@nil Z)) with 0.
    by decide_test (df_maxMessageSize s + 6 - 1 <? 0) false.
  - cbn [map concat]. rewrite <- app_assoc.
    rewrite (delimiter_run_advance _ _ _ _ _ _ (delimiter_step_message s m _ Hmax Hsafe)).
    rewrite IH. cbn. by rewrite <- app_assoc.
Qed.

(** The encodings of several messages, one after the other. *)
Fixpoint encode_all_delimiter (ms : list (list Z)) : result buffer :=
  match ms with
  | [] => Ok []
  | m :: tl =>
    let! w := encodeDelimiter (InBuffer m) in
    let! ws := encode_all_delimiter tl in Ok (w ++ ws)
  end.

Lemma encode_all_delimiter_concat ms :
  encode_all_delimiter ms = Ok (concat (map (fun m => m ++ NETCONF_10_DELIMITER) ms)).
Proof. induction ms as [|m ms IH]; [done|]. cbn. by rewrite IH. Qed.

(** A run that consumes everything without delivering a message had nothing to
    consume. *)
Lemma delimiter_run_silent (s : DelimiterState) b acc s' b' (m : list text) :
  stream_run Infinity s b acc = Some (s', b', Ok m) -> blen m = blen acc -> b' = b.
Proof.
  intros Hr Hm. destruct (delimiter_step s b) as [|e|s1 b1 o] eqn:Hst.
  - rewrite stream_run_wait in Hr by done. by simplify_eq.
  - erewrite stream_run_fail in Hr by done. done.
  - exfalso. assert (exists t, o = Some t) as [t ->].
    { unfold delimiter_step in Hst. repeat case_match; simplify_eq; eauto. }
    rewrite (delimiter_run_advance _ _ _ _ _ _ Hst) in Hr.
    assert (@sd_ok DelimiterState text _ s1) as Hok by done.
    pose proof (stream_run_acc s1 b1 [] (acc ++ [t]) Hok) as Ha.
    rewrite app_nil_r in Ha. change (option_list (Some t)) with [t] in Hr. rewrite Hr in Ha.
    destruct (stream_run Infinity s1 b1 []) as [[[? ?] [?|?]]|]; [|done..]. injection Ha as -> -> ->.
    blia.
Qed.

(** NETCONF 1.0 messages that contain no delimiter and do not end with []]>] are
    decoded back, in order, from any fragmentation of their encodings. *)
Theorem delimiter_roundtrip o ms x frags :
  let f := DelimiterFramer_new o in
  0 <= df_maxMessageSize (df_state f) ->
  Forall (fun m => blen m <= df_maxMessageSize (df_state f) /\ framing_safe m) ms ->
  encode_all_delimiter ms = Ok (concat (x :: frags)) ->
  delimiter_feed f (x :: frags) [] = Some (f, Ok (map (toString (df_encoding (df_state f))) ms)).
Proof.
  intros f H0 Hall Hcat. rewrite encode_all_delimiter_concat in Hcat. injection Hcat as Hcat.
  change (x ++ concat frags) with (concat (x :: frags)) in Hcat. pose proof (delimiter_feed_concat f x frags) as Hf.
  rewrite <- Hcat, delimiter_push_run in Hf. cbn [df_buffer DelimiterFramer_new f app] in Hf.
  rewrite delimiter_run_messages in Hf by done.
  destruct (delimiter_feed f (x :: frags) []) as [[f' [m|e]]|]; [|by destruct Hf as [b2 [=]]|done].
  by injection Hf as <- <-.
Qed.

(** The condition is exact: a fresh framer gives back one message and an empty
    buffer for [encodeDelimiter m] if and only if [m] contains no delimiter and does
    not end with []]>]; the encoder itself does not check it. *)
Theorem delimiter_roundtrip_exact o m :
  let f := DelimiterFramer_new o in
  blen m <= df_maxMessageSize (df_state f) ->
  (exists w t, encodeDelimiter (InBuffer m) = Ok w /\
     delimiter_push f (InBuffer w) Infinity = Some (f, Ok [t])) <-> framing_safe m.
Proof.
  intros f Hmax. rewrite framing_safe_first. split.
  - intros (w & t & [= <-] & Hpush) k Hk Hm. rewrite delimiter_push_run in Hpush.
    cbn [df_buffer DelimiterFramer_new f app] in Hpush.
    destruct (delimiter_step (df_state f) (m ++ NETCONF_10_DELIMITER)) as [|e|s1 b1 ot] eqn:Hst.
    + rewrite stream_run_wait in Hpush by done. injection Hpush as Hb. by destruct m.
    + erewrite stream_run_fail in Hpush by done. done.
    + rewrite (delimiter_run_advance _ _ _ _ _ _ Hst) in Hpush.
      destruct (stream_run _ _ _ _) as [[[s2 b2] r2]|] eqn:Hr; [|done]. injection Hpush as -> -> ->.
      assert (exists i, indexOf (m ++ NETCONF_10_DELIMITER) NETCONF_10_DELIMITER 0 = Some i /\
        b1 = subarray_from (m ++ NETCONF_10_DELIMITER) (i + 6) /\ exists u, ot = Some u) as (i & Hi & -> & u & ->).
      { unfold delimiter_step in Hst. repeat case_match; simplify_eq. eauto. }
      apply delimiter_run_silent in Hr; [|done].
      destruct (indexOf_Some _ NETCONF_10_DELIMITER 0 i ltac:(done) ltac:(lia) Hi) as (H0 & Hb & _ & Hmin).
      apply (Hmin (Z.of_nat k)); [|by rewrite Nat2Z.id].
      assert (blen (subarray_from (m ++ NETCONF_10_DELIMITER) (i + 6)) = 0) as Hz by (by rewrite <- Hr).
      change (blen NETCONF_10_DELIMITER) with 6 in Hb.
      rewrite blen_subarray_from in Hz by lia. rewrite blen_app in Hz.
      change (blen NETCONF_10_DELIMITER) with 6 in Hz. unfold blen in Hz. lia.
  - intros Hsafe%framing_safe_first. exists (m ++ NETCONF_10_DELIMITER).
    eexists. split; [done|]. rewrite delimiter_push_run.
    cbn [df_buffer DelimiterFramer_new f app].
    pose proof (delimiter_run_messages (df_state f) [m] []) as Hrun. cbn [map concat app] in Hrun.
    rewrite app_nil_r in Hrun. rewrite Hrun; [done | blia | by apply Forall_singleton].
Qed.
End Framing.

(** ** Witnesses *)

(** Text as the raw bytes it decodes. *)
Definition raw_text (_ : string) (b : buffer) : buffer := b.

Definition hello_wire : buffer := [10; 35; 50; 10; 104; 105; 10; 35; 35; 10].

Lemma chunked_fragmentation_witness :
  chunked_ok (cf_state (ChunkedFramer_new no_options)) /\
  chunked_push raw_text id (ChunkedFramer_new no_options) (InBuffer (concat [[10; 35; 50]; [10; 104; 105; 10; 35]; [35; 10]]))
    Infinity = Some (ChunkedFramer_new no_options, Ok [[104; 105]]).
Proof.
  split; [by split|].
  refine (chunked_fragmentation raw_text id (ChunkedFramer_new no_options) [10; 35; 50]
            [[10; 104; 105; 10; 35]; [35; 10]] _). by split.
Defined.

Lemma chunked_roundtrip_witness :
  encodeChunked id (InBuffer [104; 105]) None = Ok hello_wire /\
  chunked_feed raw_text id (ChunkedFramer_new no_options) [[10; 35; 50; 10]; [104; 105; 10]; [35; 35; 10]] [] =
  Some (ChunkedFramer_new no_options, Ok [[104; 105]]).
Proof.
  split; [by vm_compute|].
  refine (chunked_roundtrip raw_text id no_options None [[104; 105]] [hello_wire] [10; 35; 50; 10]
            [[104; 105; 10]; [35; 35; 10]] _ _); [|by vm_compute].
  constructor; [|constructor]. split; [split; by vm_compute | by vm_compute].
Defined.

Lemma chunked_push_total_witness :
  exists f' r, chunked_push raw_text id (ChunkedFramer_new no_options) (InBuffer hello_wire) (Count 1) = Some (f', r)
    /\ chunked_ok (cf_state f').
Proof. apply (chunked_push_total raw_text id). by split. Defined.

Lemma chunked_messages_bounded_witness :
  chunked_bounded (cf_state (ChunkedFramer_new no_options)) /\
  Forall (bounded_text raw_text DEFAULT_MAX_MESSAGE_SIZE "utf8") [[104; 105]].
Proof.
  split; [split; [by vm_compute | constructor]|].
  refine (proj2 (chunked_messages_bounded raw_text id (ChunkedFramer_new no_options) (InBuffer hello_wire)
            Infinity (ChunkedFramer_new no_options) (Ok [[104; 105]]) _ _ _) _ eq_refl).
  - by split.
  - split; [by vm_compute | constructor].
  - by vm_compute.
Defined.

Lemma chunked_push_resume_witness :
  blen [[104; 105]] <= 1 /\
  chunked_push raw_text id (ChunkedFramer_new no_options) (InBuffer (hello_wire ++ hello_wire)) Infinity =
  Some (ChunkedFramer_new no_options, Ok [[104; 105]; [104; 105]]).
Proof.
  refine (chunked_push_resume raw_text id (ChunkedFramer_new no_options) (hello_wire ++ hello_wire) 1
            {| cf_state := cf_state (ChunkedFramer_new no_options); cf_buffer := hello_wire |}
            [[104; 105]] _ _); [by split | by vm_compute].
Defined.

Lemma delimiter_roundtrip_witness :
  delimiter_feed raw_text id (DelimiterFramer_new no_options) [[104; 105; 93; 93]; [62; 93; 93; 62]] [] =
  Some (DelimiterFramer_new no_options, Ok [[104; 105]]).
Proof.
  refine (delimiter_roundtrip raw_text id no_options [[104; 105]] [104; 105; 93; 93] [[62; 93; 93; 62]] _ _ _);
    [by vm_compute | | by vm_compute].
  constructor; [|constructor]. split; [by vm_compute|]. apply framing_safe_first.
  intros [|[|k]] Hk; cbn in Hk; [done | done | lia].
Defined.

Lemma delimiter_roundtrip_exact_witness :
  ~ (exists w t, encodeDelimiter id (InBuffer [97; 93; 93; 62]) = Ok w /\
     delimiter_push raw_text id (DelimiterFramer_new no_options) (InBuffer w) Infinity =
     Some (DelimiterFramer_new no_options, Ok [t])).
Proof.
  intros Hex. apply (delimiter_roundtrip_exact raw_text id no_options [97; 93; 93; 62]) in Hex as [_ Hsuf];
    [|by vm_compute].
  apply Hsuf. by exists [97].
Defined.
