(* ===== verification/NodePath.v ===== *)
(** The parts of the Node.js [path] module (POSIX) and of number parsing that the
    components use, on JavaScript strings (lists of code units). *)

From stdpp Require Import base list numbers strings option.
From Stdlib Require Import ZArith Lia.
From S2P Require Import Prelude.

Local Open Scope Z_scope.
Local Open Scope js_scope.

Definition SLASH : Z := 47.
Definition DOT : Z := 46.
Definition dot_segment : jsstring := [46].
Definition dotdot_segment : jsstring := [46; 46].

(** The segments between slashes. *)
Fixpoint split_slash (s : jsstring) : list (list Z) :=
  match s with
  | [] => [[]]
  | c :: tl =>
    if c =? SLASH then [] :: split_slash tl
    else match split_slash tl with
         | seg :: segs => (c :: seg) :: segs
         | [] => [[c]]
         end
  end.

(** Normalization of an absolute path: empty and [.] segments are dropped, [..]
    removes the previous segment (nothing at the root). *)
Fixpoint normalize_segments (segs acc : list (list Z)) : list (list Z) :=
  match segs with
  | [] => acc
  | seg :: tl =>
    if bool_decide (seg = []) || bool_decide (seg = dot_segment) then normalize_segments tl acc
    else if bool_decide (seg = dotdot_segment) then normalize_segments tl (removelast acc)
    else normalize_segments tl (acc ++ [seg])
  end.

Definition is_absolute (s : jsstring) : bool :=
  match s with
  | c :: _ => c =? SLASH
  | [] => false
  end.

(** [path.resolve(...paths)] as the segments of the absolute path it returns, with
    [cwd] the segments of the working directory. *)
Definition path_resolve (cwd : list (list Z)) (p : jsstring) : list (list Z) :=
  if is_absolute p then normalize_segments (split_slash p) []
  else normalize_segments (split_slash p) cwd.

(** [path.resolve(base, p)] for an absolute [base]. *)
Definition path_resolve_from (base : list (list Z)) (p : jsstring) : list (list Z) :=
  path_resolve base p.

Fixpoint join_slash (segs : list (list Z)) : jsstring :=
  match segs with
  | [] => []
  | [seg] => seg
  | seg :: tl => seg ++ SLASH :: join_slash tl
  end.

(** [path.relative(from, to)] for absolute paths. *)
Fixpoint relative_segments (from to : list (list Z)) : list (list Z) :=
  match from, to with
  | f :: fs, t :: ts =>
    if bool_decide (f = t) then relative_segments fs ts
    else map (fun _ => dotdot_segment) from ++ to
  | _, _ => map (fun _ => dotdot_segment) from ++ to
  end.

Definition path_relative (from to : list (list Z)) : jsstring := join_slash (relative_segments from to).

Fixpoint startsWith (s prefix : jsstring) {struct prefix} : bool :=
  match prefix, s with
  | [], _ => true
  | p :: ps, c :: cs => (p =? c) && startsWith cs ps
  | _ :: _, [] => false
  end.

(** ** [parseInt(text, 10)]: [None] is [NaN] *)

Definition is_js_space (c : Z) : bool :=
  ((9 <=? c) && (c <=? 13)) || (c =? 32) || (c =? 160) || (c =? 5760)
  || ((8192 <=? c) && (c <=? 8202)) || (c =? 8232) || (c =? 8233) || (c =? 8239)
  || (c =? 8287) || (c =? 12288) || (c =? 65279).

Fixpoint trim_start (s : jsstring) : jsstring :=
  match s with
  | c :: tl => if is_js_space c then trim_start tl else s
  | [] => []
  end.

Fixpoint digit_prefix (s : jsstring) : jsstring :=
  match s with
  | c :: tl => if is_digit c then c :: digit_prefix tl else []
  | [] => []
  end.

Definition parse_unsigned (s : jsstring) : option Z :=
  match digit_prefix s with
  | [] => None
  | ds => Some (dec_value ds)
  end.

Definition parseInt10 (s : jsstring) : option Z :=
  match trim_start s with
  | 45 :: tl => Z.opp <$> parse_unsigned tl
  | 43 :: tl => parse_unsigned tl
  | t => parse_unsigned t
  end.

(** ** Lemmas *)

(** A segment of a normalized path. *)
Definition plain_segment (seg : list Z) : Prop :=
  seg <> [] /\ seg <> dot_segment /\ seg <> dotdot_segment /\ SLASH ∉ seg.

Lemma split_slash_no_slash s : Forall (fun seg => SLASH ∉ seg) (split_slash s).
Proof.
  induction s as [|c s IH]; cbn; [repeat constructor; by intros ?%elem_of_nil|].
  destruct (Z.eqb_spec c SLASH) as [->|Hc].
  - constructor; [by intros ?%elem_of_nil | done].
  - destruct (split_slash s) as [|seg segs].
    + repeat constructor. intros [?|?%elem_of_nil]%elem_of_cons; congruence.
    + apply Forall_cons_iff in IH as [Hs Ht]. constructor; [|done].
      intros [?|?]%elem_of_cons; congruence.
Qed.

Lemma normalize_segments_plain segs acc :
  Forall (fun seg => SLASH ∉ seg) segs -> Forall plain_segment acc ->
  Forall plain_segment (normalize_segments segs acc).
Proof.
  intros Hs. revert acc; induction Hs as [|seg segs Hseg _ IH]; intros acc Hacc; cbn; [done|].
  repeat case_bool_decide; cbn; apply IH; try done.
  - destruct acc as [|a acc _] using rev_ind; [done|]. rewrite removelast_last.
    by apply Forall_app in Hacc as [? _].
  - apply Forall_app; split; [done|]. by repeat constructor.
Qed.

Lemma path_resolve_plain cwd p :
  Forall plain_segment cwd -> Forall plain_segment (path_resolve cwd p).
Proof.
  intros. unfold path_resolve. case_if; apply normalize_segments_plain; auto using split_slash_no_slash.
Qed.

Lemma relative_segments_prefix base rest : relative_segments base (base ++ rest) = rest.
Proof. induction base as [|b base IH]; [by destruct rest|]. cbn. by rewrite bool_decide_true. Qed.

(** A relative path that does not climb comes from an extension of the base. *)
Lemma relative_segments_inv from to :
  (exists rest, to = from ++ rest /\ relative_segments from to = rest) \/
  exists tl, relative_segments from to = dotdot_segment :: tl.
Proof.
  revert to; induction from as [|f fs IH]; intros to; [left; exists to; by destruct to|].
  destruct to as [|t ts]; [right; cbn; eauto|]. cbn. case_bool_decide as Heq; [|right; eauto].
  subst. destruct (IH ts) as [(rest & -> & Hr)|(tl & Hr)]; [left; exists rest; auto | right; eauto].
Qed.

Lemma startsWith_app s p : startsWith (p ++ s) p = true.
Proof. induction p as [|c p IH]; cbn; [done|]. by rewrite Z.eqb_refl. Qed.

Lemma join_slash_head seg tl : exists s, join_slash (seg :: tl) = seg ++ s.
Proof. destruct tl; cbn; [exists []; by rewrite app_nil_r | eauto]. Qed.

Lemma startsWith_dotdot_no_slash seg s :
  SLASH ∉ seg -> startsWith (seg ++ SLASH :: s) dotdot_segment = startsWith seg dotdot_segment.
Proof.
  intros Hs. unfold dotdot_segment. destruct seg as [|a [|b seg]]; cbn -[Z.eqb]; done.
Qed.
