(* ===== verification/JsText.v ===== *)
(** Text of numbers and addresses: [split] and [join] on one character, hexadecimal
    text, [parseInt(text, 16)], [Number(text)]; their round trips. *)

From stdpp Require Import base list numbers strings option.
From Stdlib Require Import ZArith Lia.
From S2P Require Import Prelude NodePath.

Local Open Scope Z_scope.
Local Open Scope js_scope.

(** ** [split] and [join] *)

(** [text.split(c)] for a one-character separator. *)
Fixpoint split_on (c : Z) (s : jsstring) : list jsstring :=
  match s with
  | [] => [[]]
  | x :: tl =>
    if x =? c then [] :: split_on c tl
    else match split_on c tl with
         | [] => [[x]]
         | p :: ps => (x :: p) :: ps
         end
  end.

(** [parts.join(c)] *)
Fixpoint join_with (c : Z) (parts : list jsstring) : jsstring :=
  match parts with
  | [] => []
  | [p] => p
  | p :: ps => p ++ c :: join_with c ps
  end.

Definition lacks (c : Z) (s : jsstring) : Prop := Forall (fun x => x <> c) s.

Lemma split_on_lacks c s : lacks c s -> split_on c s = [s].
Proof.
  induction s as [|x s IH]; [done|]. unfold lacks. rewrite Forall_cons_iff. intros [Hx Hs].
  cbn [split_on]. rewrite (proj2 (Z.eqb_neq x c)) by done. by rewrite IH.
Qed.

Lemma split_on_cons c p s : lacks c p -> split_on c (p ++ c :: s) = p :: split_on c s.
Proof.
  induction p as [|x p IH]; cbn [app split_on]; [by rewrite Z.eqb_refl|].
  unfold lacks. rewrite Forall_cons_iff. intros [Hx Hp].
  rewrite (proj2 (Z.eqb_neq x c)) by done. by rewrite IH.
Qed.

Lemma split_join c parts : parts <> [] -> Forall (lacks c) parts -> split_on c (join_with c parts) = parts.
Proof.
  induction parts as [|p ps IH]; [done|]. intros _. rewrite Forall_cons_iff. intros [Hp Hps].
  destruct ps as [|q ps]; [by apply split_on_lacks|].
  change (join_with c (p :: q :: ps)) with (p ++ c :: join_with c (q :: ps)).
  rewrite split_on_cons by done. by rewrite IH.
Qed.

(** ** Hexadecimal text *)

Definition hex_digit (n : Z) : Z := if n <? 10 then 48 + n else 87 + n.

Fixpoint hex_digits_fuel (fuel : nat) (n : Z) : jsstring :=
  match fuel with
  | O => []
  | S f => if n <? 16 then [hex_digit n] else hex_digits_fuel f (n / 16) ++ [hex_digit (n mod 16)]
  end.

(** [n.toString(16)] for a non-negative number. *)
Definition hex_digits (n : Z) : jsstring := hex_digits_fuel (S (Z.to_nat (Z.log2 n))) n.

(** [text.padStart(n, c)] *)
Definition padStart (s : jsstring) (n : nat) (c : Z) : jsstring := replicate (n - length s) c ++ s.

(** [buf.toString('hex')] *)
Definition hex_encode (b : buffer) : jsstring :=
  concat (map (fun x => [hex_digit (x / 16); hex_digit (x mod 16)]) b).

(** Value of a text of hexadecimal digits. *)
Definition hex_number (s : jsstring) : Z :=
  fold_left (fun acc c => acc * 16 + default 0 (hex_value c)) s 0.

Fixpoint hex_prefix (s : jsstring) : jsstring :=
  match s with
  | c :: tl => match hex_value c with Some _ => c :: hex_prefix tl | None => [] end
  | [] => []
  end.

Definition parse_unsigned16 (s : jsstring) : option Z :=
  let digits := match s with
                | 48 :: 120 :: tl => tl
                | 48 :: 88 :: tl => tl
                | _ => s
                end in
  match hex_prefix digits with
  | [] => None
  | ds => Some (hex_number ds)
  end.

(** [parseInt(text, 16)]: [None] is [NaN]. *)
Definition parseInt16 (s : jsstring) : option Z :=
  match trim_start s with
  | 45 :: tl => Z.opp <$> parse_unsigned16 tl
  | 43 :: tl => parse_unsigned16 tl
  | t => parse_unsigned16 t
  end.

(** [Number(text)] for a text that is blank or a whole number in decimal with an
    optional sign.  Any other text is taken for one that is not a number ([None]);
    fractions, exponents and the [0x], [0o], [0b] and [Infinity] literals are left
    out. *)
Definition trim_text (s : jsstring) : jsstring := reverse (trim_start (reverse (trim_start s))).

Definition all_digits (s : jsstring) : option Z :=
  match s with
  | [] => None
  | _ => if forallb is_digit s then Some (dec_value s) else None
  end.

Definition Number_text (s : jsstring) : option Z :=
  match trim_text s with
  | [] => Some 0
  | 45 :: tl => Z.opp <$> all_digits tl
  | 43 :: tl => all_digits tl
  | t => all_digits t
  end.

(** ** Decimal numbers read back *)

Lemma dec_digits_digits n : 0 <= n -> Forall (fun c => is_digit c = true) (dec_digits n).
Proof.
  intros Hn. destruct (dec_digits_correct n Hn) as (_ & Hd & _). apply Forall_forall. intros x Hx.
  rewrite forallb_forall in Hd. by apply Hd.
Qed.

Lemma dec_digits_nonempty n : dec_digits n <> [].
Proof. unfold dec_digits. cbn [dec_digits_fuel]. case_if; [done|]. intros H. by apply app_eq_nil in H as [_ ?]. Qed.

Lemma digit_not_space c : is_digit c = true -> is_js_space c = false.
Proof. unfold is_digit, is_js_space. intros. bool_hyps. rewrite !orb_false_iff, !andb_false_iff, !Z.eqb_neq, !Z.leb_gt. lia. Qed.

Lemma trim_start_head c s : is_js_space c = false -> trim_start (c :: s) = c :: s.
Proof. intros H. cbn [trim_start]. by rewrite H. Qed.

Lemma trim_start_digits s : Forall (fun c => is_digit c = true) s -> trim_start s = s.
Proof.
  destruct s; [done|]. rewrite Forall_cons_iff. intros [Hc _]. apply trim_start_head. by apply digit_not_space.
Qed.

Lemma digit_prefix_digits s : Forall (fun c => is_digit c = true) s -> digit_prefix s = s.
Proof. induction s; [done|]. rewrite Forall_cons_iff. intros [Hc Hs]. cbn [digit_prefix]. by rewrite Hc, IHs. Qed.

(** A digit is not a sign: the cases of [parseInt] and [Number] on signs do not apply. *)
Lemma sign_match {A} c (s : jsstring) (f g h : jsstring -> A) :
  is_digit c = true ->
  match c :: s with 45 :: tl => f tl | 43 :: tl => g tl | t => h t end = h (c :: s).
Proof.
  unfold is_digit. intros Hc. bool_hyps.
  destruct (decide (c = 45)) as [->|]; [lia|]. destruct (decide (c = 43)) as [->|]; [lia|].
  destruct c as [|p|p]; try done. do 6 (destruct p as [p|p|]; try done).
Qed.

Lemma parseInt10_dec n : 0 <= n -> parseInt10 (dec_digits n) = Some n.
Proof.
  intros Hn. pose proof (dec_digits_digits n Hn) as Hd. unfold parseInt10. rewrite trim_start_digits by done.
  destruct (dec_digits_correct n Hn) as (Hv & _). revert Hd Hv. pose proof (dec_digits_nonempty n).
  destruct (dec_digits n) as [|c s]; [done|]. intros Hd Hv.
  rewrite (sign_match c s (fun tl => Z.opp <$> parse_unsigned tl) parse_unsigned parse_unsigned)
    by (by apply Forall_cons_iff in Hd as [? _]).
  unfold parse_unsigned. rewrite digit_prefix_digits by done. by rewrite Hv.
Qed.

Lemma Number_dec n : 0 <= n -> Number_text (dec_digits n) = Some n.
Proof.
  intros Hn. pose proof (dec_digits_digits n Hn) as Hd. unfold Number_text, trim_text.
  rewrite (trim_start_digits (dec_digits n)) by done. rewrite (trim_start_digits (reverse _)) by (by apply Forall_reverse).
  rewrite reverse_involutive.
  destruct (dec_digits_correct n Hn) as (Hv & Hf & _). revert Hd Hv Hf. pose proof (dec_digits_nonempty n).
  destruct (dec_digits n) as [|c s]; [done|]. intros Hd Hv Hf.
  transitivity (all_digits (c :: s)); [|unfold all_digits; by rewrite Hf, Hv].
  refine (sign_match c s (fun tl => Z.opp <$> all_digits tl) all_digits all_digits _).
  by apply Forall_cons_iff in Hd as [? _].
Qed.

Lemma dec_digits_lacks c n : 0 <= n -> is_digit c = false -> lacks c (dec_digits n).
Proof.
  intros Hn Hc. eapply Forall_impl; [|exact (dec_digits_digits n Hn)]. intros x Hx ->. congruence.
Qed.

Lemma dec_digits_inj a b : 0 <= a -> 0 <= b -> dec_digits a = dec_digits b -> a = b.
Proof.
  intros Ha Hb He. destruct (dec_digits_correct a Ha) as [<- _]. destruct (dec_digits_correct b Hb) as [<- _].
  by rewrite He.
Qed.

(** ** Hexadecimal numbers read back *)

Lemma hex_value_digit n : 0 <= n < 16 -> hex_value (hex_digit n) = Some n.
Proof.
  intros Hn. unfold hex_digit. case_if; bool_hyps; unfold hex_value.
  - decide_test (48 <=? 48 + n) true. decide_test (48 + n <=? 57) true. cbn [andb]. f_equal. lia.
  - decide_test (87 + n <=? 57) false. rewrite andb_false_r. decide_test (87 + n <=? 70) false.
    rewrite andb_false_r. decide_test (97 <=? 87 + n) true. decide_test (87 + n <=? 102) true.
    cbn [andb]. f_equal. lia.
Qed.

Lemma hex_decode_encode b : bytes_ok b -> hex_decode (hex_encode b) = b.
Proof.
  induction b as [|x b IH]; [done|]. rewrite bytes_ok_cons. unfold is_byte. intros [Hx Hb].
  unfold hex_encode. cbn [map concat app hex_decode]. rewrite !hex_value_digit by zdiv.
  fold (hex_encode b). rewrite IH by done. f_equal. zdiv.
Qed.

Lemma hex_encode_inj a b : bytes_ok a -> bytes_ok b -> hex_encode a = hex_encode b -> a = b.
Proof. intros Ha Hb He. rewrite <- (hex_decode_encode a), <- (hex_decode_encode b) by done. by rewrite He. Qed.

Definition hex_char (c : Z) : Prop := 48 <= c <= 57 \/ 97 <= c <= 102.

Lemma hex_digit_char n : 0 <= n < 16 -> hex_char (hex_digit n).
Proof. intros. unfold hex_digit, hex_char. case_if; bool_hyps; lia. Qed.

Lemma hex_number_snoc s c : hex_number (s ++ [c]) = hex_number s * 16 + default 0 (hex_value c).
Proof. unfold hex_number. by rewrite fold_left_app. Qed.

Lemma hex_digits_fuel_correct fuel n :
  0 <= n -> n < 2 ^ Z.of_nat fuel -> (0 < fuel)%nat ->
  hex_number (hex_digits_fuel fuel n) = n /\ Forall hex_char (hex_digits_fuel fuel n) /\ hex_digits_fuel fuel n <> [].
Proof.
  revert n; induction fuel as [|f IH]; intros n Hn Hlt Hf; [lia|].
  cbn [hex_digits_fuel]. case_if; bool_hyps.
  - unfold hex_number. cbn [fold_left]. rewrite hex_value_digit by lia.
    split; [done|]. split; [constructor; [by apply hex_digit_char | constructor] | done].
  - assert (0 < n / 16) as Hd by (apply Z.div_str_pos; lia).
    assert (n / 16 < 2 ^ Z.of_nat f) as Hb.
    { rewrite Nat2Z.inj_succ, Z.pow_succ_r in Hlt by lia. apply Z.div_lt_upper_bound; lia. }
    destruct f as [|f]; [cbn in Hb; lia|].
    destruct (IH (n / 16)) as (Hv & Hc & Hne); [lia | done | lia |].
    rewrite hex_number_snoc, Hv, hex_value_digit by zdiv. split; [|split].
    + cbn. zdiv.
    + apply Forall_app. split; [done|]. constructor; [apply hex_digit_char; zdiv | constructor].
    + intros H. by apply app_eq_nil in H as [_ ?].
Qed.

Lemma hex_digits_correct n :
  0 <= n -> hex_number (hex_digits n) = n /\ Forall hex_char (hex_digits n) /\ hex_digits n <> [].
Proof.
  intros Hn. apply hex_digits_fuel_correct; [done | | lia].
  rewrite Nat2Z.inj_succ, Z2Nat.id by apply Z.log2_nonneg.
  destruct (decide (n = 0)) as [->|]; [done|]. apply Z.log2_spec. lia.
Qed.

Lemma length_hex_digits_fuel fuel n k :
  0 <= n < 16 ^ Z.of_nat k -> (0 < k)%nat -> (length (hex_digits_fuel fuel n) <= k)%nat.
Proof.
  revert n k; induction fuel as [|f IH]; intros n k Hn Hk; cbn [hex_digits_fuel]; [cbn [length]; lia|].
  case_if; bool_hyps; [cbn [length]; lia|]. rewrite length_app. cbn [length].
  destruct k as [|[|k]]; [lia | cbn in Hn; lia |].
  specialize (IH (n / 16) (S k)). rewrite Nat2Z.inj_succ, Z.pow_succ_r in Hn by lia.
  assert (length (hex_digits_fuel f (n / 16)) <= S k)%nat; [|lia].
  apply IH; [|lia]. split; [apply Z.div_pos; lia | apply Z.div_lt_upper_bound; lia].
Qed.

Lemma hex_char_value c : hex_char c -> exists v, hex_value c = Some v.
Proof.
  unfold hex_char, hex_value. intros [?|?].
  - decide_test (48 <=? c) true. decide_test (c <=? 57) true. cbn [andb]. eauto.
  - decide_test (c <=? 57) false. rewrite andb_false_r. decide_test (c <=? 70) false. rewrite andb_false_r.
    decide_test (97 <=? c) true. decide_test (c <=? 102) true. cbn [andb]. eauto.
Qed.

Lemma hex_char_not_space c : hex_char c -> is_js_space c = false.
Proof.
  unfold hex_char, is_js_space. intros. rewrite !orb_false_iff, !andb_false_iff, !Z.eqb_neq, !Z.leb_gt. lia.
Qed.

Lemma hex_prefix_all s : Forall hex_char s -> hex_prefix s = s.
Proof.
  induction 1 as [|c s Hc Hs IH]; [done|]. cbn [hex_prefix]. destruct (hex_char_value c Hc) as [v ->]. by rewrite IH.
Qed.

(** No hexadecimal number starts with [0x]. *)
Lemma prefix_match (a b : Z) (s : jsstring) :
  b <> 120 -> b <> 88 ->
  match a :: b :: s with
  | 48 :: 120 :: tl => tl
  | 48 :: 88 :: tl => tl
  | _ => a :: b :: s
  end = a :: b :: s.
Proof.
  intros H1 H2. destruct a as [|p|p]; try done. do 6 (destruct p as [p|p|]; try done).
  destruct b as [|q|q]; try done. do 7 (destruct q as [q|q|]; try done).
Qed.

Lemma parse_unsigned16_hex s : Forall hex_char s -> s <> [] -> parse_unsigned16 s = Some (hex_number s).
Proof.
  intros Hs Hne. unfold parse_unsigned16.
  assert (match s with 48 :: 120 :: tl => tl | 48 :: 88 :: tl => tl | _ => s end = s) as ->.
  { destruct s as [|a [|b s]]; [done | |].
    - destruct a as [|p|p]; try done. do 6 (destruct p as [p|p|]; try done).
    - apply Forall_cons_iff in Hs as [_ Hs]. apply Forall_cons_iff in Hs as [Hb _]. unfold hex_char in Hb.
      apply prefix_match; lia. }
  rewrite hex_prefix_all by done. by destruct s.
Qed.

Lemma parseInt16_hex n : 0 <= n -> parseInt16 (hex_digits n) = Some n.
Proof.
  intros Hn. destruct (hex_digits_correct n Hn) as (Hv & Hc & Hne). unfold parseInt16.
  destruct (hex_digits n) as [|c s] eqn:Es; [done|]. pose proof Hc as Hc0. apply Forall_cons_iff in Hc0 as [Hc0 _].
  rewrite trim_start_head by (by apply hex_char_not_space).
  transitivity (parse_unsigned16 (c :: s)); [|by rewrite parse_unsigned16_hex, Hv].
  unfold hex_char in Hc0. destruct (decide (c = 45)) as [->|]; [lia|]. destruct (decide (c = 43)) as [->|]; [lia|].
  destruct c as [|p|p]; try done. do 6 (destruct p as [p|p|]; try done).
Qed.

Lemma hex_digits_zero n : 0 <= n -> hex_digits n = [48] -> n = 0.
Proof. intros Hn He. destruct (hex_digits_correct n Hn) as [<- _]. by rewrite He. Qed.
