(* ===== verification/JsMap.v ===== *)
(** JavaScript's [Map]: a finite map that remembers the order of insertion.

    A map is the list of its entries, oldest first.  [set] of a present key keeps
    its place; [delete] and a later [set] move it to the end.  [jmap_ok] (no key
    twice) holds of every map built with these operations. *)

From stdpp Require Import base list.
From S2P Require Import Prelude.

Section JsMap.
Context {K V : Type} `{EqDecision K}.

Definition jmap : Type := list (K * V).

Fixpoint jmap_get (m : jmap) (k : K) : option V :=
  match m with
  | [] => None
  | (k', v) :: tl => if decide (k' = k) then Some v else jmap_get tl k
  end.

Definition jmap_has (m : jmap) (k : K) : bool := bool_decide (is_Some (jmap_get m k)).

Fixpoint jmap_set (m : jmap) (k : K) (v : V) : jmap :=
  match m with
  | [] => [(k, v)]
  | (k', v') :: tl => if decide (k' = k) then (k', v) :: tl else (k', v') :: jmap_set tl k v
  end.

Fixpoint jmap_delete (m : jmap) (k : K) : jmap :=
  match m with
  | [] => []
  | (k', v) :: tl => if decide (k' = k) then tl else (k', v) :: jmap_delete tl k
  end.

Definition jmap_keys (m : jmap) : list K := map fst m.
Definition jmap_values (m : jmap) : list V := map snd m.
Definition jmap_ok (m : jmap) : Prop := NoDup (jmap_keys m).

Lemma jmap_get_set_eq m k v : jmap_get (jmap_set m k v) k = Some v.
Proof.
  induction m as [|[k' v'] m IH]; cbn [jmap_set jmap_get]; [by rewrite decide_True|].
  case_decide; cbn [jmap_get]; [by rewrite decide_True | by rewrite decide_False].
Qed.

Lemma jmap_get_set_ne m k v k' : k <> k' -> jmap_get (jmap_set m k v) k' = jmap_get m k'.
Proof.
  intros Hne. induction m as [|[k0 v0] m IH]; cbn [jmap_set jmap_get]; [by rewrite decide_False|].
  case_decide; subst; cbn [jmap_get]; [by rewrite !(decide_False (P := k = k')) | by rewrite IH].
Qed.

Lemma jmap_get_set m k v k' :
  jmap_get (jmap_set m k v) k' = if decide (k = k') then Some v else jmap_get m k'.
Proof. case_decide; [subst; apply jmap_get_set_eq | by apply jmap_get_set_ne]. Qed.

Lemma jmap_get_None m k : jmap_get m k = None <-> k ∉ jmap_keys m.
Proof.
  induction m as [|[k' v] m IH]; cbn [jmap_get jmap_keys map fst]; [by split; [intros _; apply not_elem_of_nil|]|].
  rewrite list.not_elem_of_cons. case_decide; [split; [done | naive_solver] | naive_solver].
Qed.

Lemma jmap_get_delete_eq m k : jmap_ok m -> jmap_get (jmap_delete m k) k = None.
Proof.
  induction m as [|[k' v] m IH]; [done|]. unfold jmap_ok. cbn [jmap_delete jmap_keys map fst].
  rewrite list.NoDup_cons. intros [Hk Hm]. case_decide; [subst; by apply jmap_get_None|].
  cbn [jmap_get]. rewrite decide_False by done. by apply IH.
Qed.

Lemma jmap_get_delete_ne m k k' : k <> k' -> jmap_get (jmap_delete m k) k' = jmap_get m k'.
Proof.
  intros Hne. induction m as [|[k0 v0] m IH]; [done|]. cbn [jmap_delete jmap_get].
  case_decide; subst; [by rewrite decide_False|]. cbn [jmap_get]. by rewrite IH.
Qed.

Lemma jmap_get_delete m k k' :
  jmap_ok m -> jmap_get (jmap_delete m k) k' = if decide (k = k') then None else jmap_get m k'.
Proof. intros. case_decide; [subst; by apply jmap_get_delete_eq | by apply jmap_get_delete_ne]. Qed.

Lemma jmap_keys_set m k v x : x ∈ jmap_keys (jmap_set m k v) <-> x = k \/ x ∈ jmap_keys m.
Proof.
  induction m as [|[k' v'] m IH]; cbn [jmap_set jmap_keys map fst]; [by rewrite list_elem_of_singleton, elem_of_nil; naive_solver|].
  case_decide; subst; cbn [map fst]; rewrite ?elem_of_cons; [naive_solver|].
  unfold jmap_keys in IH. rewrite IH. naive_solver.
Qed.

Lemma jmap_keys_delete m k x : x ∈ jmap_keys (jmap_delete m k) -> x ∈ jmap_keys m.
Proof.
  induction m as [|[k' v'] m IH]; cbn [jmap_delete jmap_keys map fst]; [done|].
  case_decide; cbn [map fst]; rewrite ?elem_of_cons; naive_solver.
Qed.

Lemma jmap_ok_nil : jmap_ok [].
Proof. apply NoDup_nil_2. Qed.

Lemma jmap_ok_set m k v : jmap_ok m -> jmap_ok (jmap_set m k v).
Proof.
  unfold jmap_ok. induction m as [|[k' v'] m IH]; cbn [jmap_set jmap_keys map fst].
  - intros _. apply NoDup_singleton.
  - rewrite list.NoDup_cons. intros [Hk Hm]. case_decide; cbn [map fst]; rewrite list.NoDup_cons; [done|].
    split; [|by apply IH]. intros Hin. apply jmap_keys_set in Hin. naive_solver.
Qed.

Lemma jmap_ok_delete m k : jmap_ok m -> jmap_ok (jmap_delete m k).
Proof.
  unfold jmap_ok. induction m as [|[k' v'] m IH]; cbn [jmap_delete jmap_keys map fst]; [done|].
  rewrite list.NoDup_cons. intros [Hk Hm]. case_decide; [done|]. cbn [map fst]. rewrite list.NoDup_cons.
  split; [|by apply IH]. intros Hin. by apply jmap_keys_delete in Hin.
Qed.

Lemma jmap_has_true m k : jmap_has m k = true <-> exists v, jmap_get m k = Some v.
Proof. unfold jmap_has. by rewrite bool_decide_eq_true. Qed.

Lemma jmap_has_false m k : jmap_has m k = false <-> jmap_get m k = None.
Proof. unfold jmap_has. rewrite bool_decide_eq_false. symmetry. apply eq_None_not_Some. Qed.

(** The entries of a map are what [get] finds. *)
Lemma jmap_get_elem m k v : jmap_ok m -> (k, v) ∈ m <-> jmap_get m k = Some v.
Proof.
  unfold jmap_ok. induction m as [|[k' v'] m IH]; cbn [jmap_get jmap_keys map fst]; [intros _; split; [by intros ?%elem_of_nil | done]|].
  rewrite list.NoDup_cons, elem_of_cons. intros [Hk Hm]. case_decide; subst.
  - split; [|intros [= ->]; by left]. intros [[= ->]|Hin]; [done|].
    destruct Hk. apply list_elem_of_fmap. by exists (k, v).
  - rewrite <- IH by done. split; [intros [[= -> ->]|?]; done | by right].
Qed.

Lemma Forall_jmap_set (P : K * V -> Prop) m k v : Forall P m -> P (k, v) -> Forall P (jmap_set m k v).
Proof.
  intros Hm Hv. induction Hm as [|[k' v'] m Hp Hm IH]; cbn [jmap_set]; [by constructor|].
  case_decide; subst; by constructor.
Qed.

Lemma Forall_jmap_delete (P : K * V -> Prop) m k : Forall P m -> Forall P (jmap_delete m k).
Proof. induction 1 as [|[k' v'] m Hp Hm IH]; cbn [jmap_delete]; [constructor|]. case_decide; [done | by constructor]. Qed.

Lemma Forall_filter_list {A} (P : A -> Prop) (f : A -> bool) l : Forall P l -> Forall P (List.filter f l).
Proof. induction 1 as [|x l Hx _ IH]; [constructor|]. cbn [List.filter]. case_if; [by constructor | done]. Qed.

Lemma jmap_ok_filter (f : K * V -> bool) m : jmap_ok m -> jmap_ok (List.filter f m).
Proof.
  unfold jmap_ok, jmap_keys. induction m as [|e m IH]; [done|]. cbn [map List.filter]. rewrite list.NoDup_cons. intros [Hk Hm].
  destruct (f e); [|by apply IH]. cbn [map]. rewrite list.NoDup_cons. split; [|by apply IH].
  intros Hin. apply Hk. apply list_elem_of_fmap in Hin as (x & -> & Hx). apply list_elem_of_fmap. exists x. split; [done|].
  apply list_elem_of_In in Hx. apply filter_In in Hx as [Hx _]. by apply list_elem_of_In.
Qed.

Lemma jmap_get_filter (f : K * V -> bool) m k v :
  jmap_ok m -> jmap_get m k = Some v -> f (k, v) = true -> jmap_get (List.filter f m) k = Some v.
Proof.
  intros Hm Hg Hf. apply jmap_get_elem; [by apply jmap_ok_filter|]. apply list_elem_of_In, filter_In. split; [|done].
  by apply list_elem_of_In, jmap_get_elem.
Qed.

Lemma jmap_get_map (g : K * V -> V) m k :
  jmap_get (map (fun e => (fst e, g e)) m) k = match jmap_get m k with Some v => Some (g (k, v)) | None => None end.
Proof. induction m as [|[k' v] m IH]; [done|]. cbn [map fst jmap_get]. case_decide; [by subst | done]. Qed.

(** Deleting the entries that a test selects, one after the other, keeps the others in order. *)
Lemma jmap_delete_all (f : K * V -> bool) m : jmap_ok m ->
  fold_left (fun m e => jmap_delete m (fst e)) (List.filter f m) m = List.filter (fun e => negb (f e)) m.
Proof.
  assert (forall (found : list (K * V)) (e : K * V) m', Forall (fun x => fst x <> fst e) found ->
    fold_left (fun m x => jmap_delete m (fst x)) found (e :: m') = e :: fold_left (fun m x => jmap_delete m (fst x)) found m') as Hskip.
  { intros found [k v] m' Hf. revert m'. induction Hf as [|x found Hx _ IH]; intros m'; [done|]. cbn [fold_left jmap_delete].
    rewrite decide_False by (intros ->; by apply Hx). apply IH. }
  unfold jmap_ok, jmap_keys. induction m as [|[k v] m IH]; [done|]. cbn [map fst List.filter]. rewrite list.NoDup_cons. intros [Hk Hm].
  destruct (f (k, v)); cbn [negb fold_left fst].
  - cbn [jmap_delete]. rewrite decide_True by done. by apply IH.
  - rewrite Hskip; [by rewrite IH|]. apply list.Forall_forall. intros x Hx Heq. apply Hk. cbn [fst] in Heq. rewrite <- Heq.
    apply list_elem_of_fmap. exists x. split; [done|]. apply list_elem_of_In in Hx. apply filter_In in Hx as [Hx _]. by apply list_elem_of_In.
Qed.

Lemma jmap_delete_perm m k v : jmap_get m k = Some v -> m ≡ₚ (k, v) :: jmap_delete m k.
Proof.
  induction m as [|[k' v'] m IH]; [done|]. cbn [jmap_get jmap_delete]. case_decide; [intros [= ->]; by subst|].
  intros Hg. rewrite Permutation_swap. by rewrite <- IH.
Qed.

Lemma jmap_set_fresh m k v : jmap_get m k = None -> jmap_set m k v = m ++ [(k, v)].
Proof.
  induction m as [|[k' v'] m IH]; [done|]. cbn [jmap_get jmap_set]. case_decide; [done|]. intros Hg. by rewrite IH.
Qed.

Lemma jmap_delete_fresh m k v : jmap_get m k = None -> jmap_delete (m ++ [(k, v)]) k = m.
Proof.
  induction m as [|[k' v'] m IH]; cbn [jmap_get app jmap_delete]; [by rewrite decide_True|]. case_decide; [done|]. intros Hg. by rewrite IH.
Qed.

Lemma jmap_delete_elem m k k' v : jmap_ok m -> (k', v) ∈ jmap_delete m k <-> (k', v) ∈ m /\ k' <> k.
Proof.
  intros Hm. rewrite !jmap_get_elem by auto using jmap_ok_delete. rewrite jmap_get_delete by done. case_decide; naive_solver.
Qed.

End JsMap.

Arguments jmap : clear implicits.

Create HintDb jmap.
#[export] Hint Resolve jmap_ok_nil jmap_ok_set jmap_ok_delete jmap_ok_filter Forall_jmap_set Forall_jmap_delete : jmap.
