(* ===== verification/TftpSession.v ===== *)
(** One TFTP transfer ([electron/worker/transfer/tftpSession.js],
    [electron/const/tftpConst.js]).

    [TftpSession] is the object's state; a method is an action that updates it and
    lists its effects in order (datagrams, file requests, reports to the worker).
    An asynchronous call records the callback it registers in the effect, and each
    callback is a definition of its own ([run_callback]); the event loop
    ([tftp_step]) delivers datagrams, fires the armed timer and runs registered
    callbacks in any order. *)

From stdpp Require Import base list numbers strings option.
From Stdlib Require Import ZArith Lia.
From S2P Require Import Prelude Actions NodePath.

Local Open Scope Z_scope.
Local Open Scope js_scope.

(** ** Constants *)

Inductive TFTP_OPCODES := RRQ | WRQ | DATA | ACK | ERROR | OACK.

Definition opcode_value (o : TFTP_OPCODES) : Z :=
  match o with RRQ => 1 | WRQ => 2 | DATA => 3 | ACK => 4 | ERROR => 5 | OACK => 6 end.

Inductive TFTP_ERROR_CODES :=
| NOT_DEFINED | FILE_NOT_FOUND | ACCESS_VIOLATION | DISK_FULL | ILLEGAL_OPERATION
| UNKNOWN_TID | FILE_EXISTS | NO_SUCH_USER | OPTION_NEGOTIATION.

Definition error_code_value (e : TFTP_ERROR_CODES) : Z :=
  match e with
  | NOT_DEFINED => 0 | FILE_NOT_FOUND => 1 | ACCESS_VIOLATION => 2 | DISK_FULL => 3
  | ILLEGAL_OPERATION => 4 | UNKNOWN_TID => 5 | FILE_EXISTS => 6 | NO_SUCH_USER => 7
  | OPTION_NEGOTIATION => 8
  end.

Inductive TFTP_TRANSFER_STATUS := TRANSFERRING | COMPLETED | STATUS_ERROR.
Inductive TFTP_TRANSFER_TYPE := READ | WRITE.

Definition BLOCK_SIZE_MIN : Z := 8.
Definition BLOCK_SIZE_MAX : Z := 65464.
Definition BLOCK_SIZE_DEFAULT : Z := 512.

(** ** Data *)

Record tftp_config := {
  rootDir : jsstring;
  cfg_timeout : option Z;
  cfg_retries : option Z;
  allowRead : bool;
  allowWrite : bool
}.

(** An object used as a map from option names to values, in insertion order. *)
Abbreviation option_map_t := (list (list Z * list Z)).

Fixpoint obj_set (o : option_map_t) (k v : jsstring) : option_map_t :=
  match o with
  | [] => [(k, v)]
  | (k', v') :: tl => if bool_decide (k = k') then (k, v) :: tl else (k', v') :: obj_set tl k v
  end.

Fixpoint obj_get (o : option_map_t) (k : jsstring) : option jsstring :=
  match o with
  | [] => None
  | (k', v) :: tl => if bool_decide (k = k') then Some v else obj_get tl k
  end.

Record tftp_request := {
  req_filename : option jsstring;
  req_mode : jsstring;
  req_options : option_map_t
}.

Record rinfo := { ri_address : jsstring; ri_port : Z }.

(** The part of a report that depends on the call. *)
Record update_patch := {
  p_status : option TFTP_TRANSFER_STATUS;
  p_message : option jsstring;
  p_totalSize : option Z;
  p_bytes : option Z;
  p_blocks : option Z
}.

Definition empty_patch : update_patch := {|
  p_status := None; p_message := None; p_totalSize := None; p_bytes := None; p_blocks := None |}.

Record transfer_update := {
  u_type : option TFTP_TRANSFER_TYPE;
  u_filename : option jsstring;
  u_mode : jsstring;
  u_blockSize : Z;
  u_clientAddress : option jsstring;
  u_clientPort : option Z;
  u_patch : update_patch
}.

(** Results of the file system. *)
Inductive read_result := ReadOk (data : list Z) | ReadENOENT | ReadError.
Inductive write_result := WriteOk | WriteENOSPC | WriteError.

(** Callbacks registered by asynchronous calls. *)
Inductive tftp_callback :=
| CbBound (opcode : TFTP_OPCODES) (filename : option (list Z)) (options : list (list Z * list Z))
| CbReadDone (options : list (list Z * list Z))
| CbWriteDone (lastBlock : Z) (content : list Z)
| CbFail (message : list Z)
| CbComplete (message : list Z).

Inductive tftp_effect :=
| Send (packet : list Z) (port : Z) (address : list Z) (cb : option tftp_callback)
| Update (u : transfer_update)
| BindSocket (cb : tftp_callback)
| ReadFile (path : list (list Z)) (cb : tftp_callback)
| WriteFile (path : list (list Z)) (content : list Z) (cb : tftp_callback)
| CloseSocket
| OnClose
| Uncaught (e : js_exn).

Record TftpSession := {
  config : tftp_config;
  clientAddress : option jsstring;
  clientPort : option Z;
  socket : bool;
  transferType : option TFTP_TRANSFER_TYPE;
  filename : option jsstring;
  mode : jsstring;
  blockSize : Z;
  timeoutMs : Z;
  maxRetries : Z;
  fileBuffer : option buffer;
  writeChunks : list (list Z);
  writePath : option (list (list Z));
  totalSize : Z;
  bytes : Z;
  blockNumber : Z;
  finalBlock : Z;
  expectOackAck : bool;
  oackOptions : option option_map_t;
  lastSent : option buffer;
  retries : Z;
  timer : bool;
  closed : bool
}.

#[export] Instance TftpSession_rebuild : Rebuild TftpSession := fun s => {|
  config := config s; clientAddress := clientAddress s; clientPort := clientPort s;
  socket := socket s; transferType := transferType s; filename := filename s; mode := mode s;
  blockSize := blockSize s; timeoutMs := timeoutMs s; maxRetries := maxRetries s;
  fileBuffer := fileBuffer s; writeChunks := writeChunks s; writePath := writePath s;
  totalSize := totalSize s; bytes := bytes s; blockNumber := blockNumber s;
  finalBlock := finalBlock s; expectOackAck := expectOackAck s; oackOptions := oackOptions s;
  lastSent := lastSent s; retries := retries s; timer := timer s; closed := closed s |}.

Definition TftpSession_new (c : tftp_config) : TftpSession := {|
  config := c; clientAddress := None; clientPort := None; socket := false;
  transferType := None; filename := None; mode := js "octet";
  blockSize := BLOCK_SIZE_DEFAULT;
  timeoutMs := js_or_number (cfg_timeout c) 3 * 1000;
  maxRetries := default 5 (cfg_retries c);
  fileBuffer := None; writeChunks := []; writePath := None; totalSize := 0; bytes := 0;
  blockNumber := 0; finalBlock := 0; expectOackAck := false; oackOptions := None;
  lastSent := None; retries := 0; timer := false; closed := false |}.

(** ** Actions *)

Abbreviation action := (action_of TftpSession tftp_effect).

(** ** Packets *)

(** The strings ended by a zero byte; an unterminated rest is dropped. *)
Fixpoint nul_parts (b cur : buffer) : list (list Z) :=
  match b with
  | [] => []
  | x :: tl => if x =? 0 then ascii_decode cur :: nul_parts tl [] else nul_parts tl (cur ++ [x])
  end.

Fixpoint pair_options (rest : list (list Z)) (options : option_map_t) : option_map_t :=
  match rest with
  | k :: v :: tl => pair_options tl (obj_set options (toLowerCase k) v)
  | _ => options
  end.

Definition parseRequest (b : buffer) : tftp_request :=
  let parts := nul_parts (drop 2 b) [] in
  let mode := match parts !! 1%nat with
              | Some (c :: m) => c :: m
              | _ => js "octet"
              end in
  {| req_filename := head parts;
     req_mode := toLowerCase mode;
     req_options := pair_options (drop 2 parts) [] |}.

Definition buildData (blockNumber : Z) (data : buffer) : buffer :=
  let buf := alloc (4 + blen data) in
  let buf := put16 buf (opcode_value DATA) 0 in
  let buf := put16 buf (js_and blockNumber 65535) 2 in
  copy_into data buf 4.

Definition buildAck (blockNumber : Z) : buffer :=
  let buf := alloc 4 in
  let buf := put16 buf (opcode_value ACK) 0 in
  put16 buf (js_and blockNumber 65535) 2.

Definition buildError (code : TFTP_ERROR_CODES) (message : jsstring) : buffer :=
  let msgBuf := ascii_encode message in
  let buf := alloc (4 + blen msgBuf + 1) in
  let buf := put16 buf (opcode_value ERROR) 0 in
  let buf := put16 buf (error_code_value code) 2 in
  let buf := copy_into msgBuf buf 4 in
  put8 buf 0 (4 + blen msgBuf).

Definition buildOack (options : option_map_t) : buffer :=
  [0; opcode_value OACK] ++
  concat (map (fun '(k, v) => ascii_encode k ++ [0] ++ ascii_encode v ++ [0]) options).

(** ** Messages shown to the user *)

Definition MSG_READ_FORBIDDEN : jsstring := [26381; 21153; 22120; 31105; 27490; 35835; 21462].
Definition MSG_WRITE_FORBIDDEN : jsstring := [26381; 21153; 22120; 31105; 27490; 20889; 20837].
Definition MSG_BAD_PATH : jsstring := [38750; 27861; 30340; 25991; 20214; 36335; 24452].
Definition MSG_NO_FILE : jsstring := [25991; 20214; 19981; 23384; 22312].
Definition MSG_UNREADABLE : jsstring := [25991; 20214; 19981; 21487; 35835].
Definition MSG_WRITE_FAILED : jsstring := [20889; 20837; 25991; 20214; 22833; 36133].
Definition MSG_TIMEOUT : jsstring := [20256; 36755; 36229; 26102].
Definition MSG_START_DOWNLOAD : jsstring := [24320; 22987; 19979; 36733].
Definition MSG_START_UPLOAD : jsstring := [24320; 22987; 19978; 20256].
Definition MSG_UNKNOWN_TID : jsstring := js "Unknown transfer ID".
Definition msg_client_error (code : Z) : jsstring :=
  [23458; 25143; 31471; 38169; 35823; 32; 40] ++ js_number_to_string code ++ [41].
Definition msg_download_done (n : Z) : jsstring :=
  [19979; 36733; 23436; 25104; 32; 40] ++ js_number_to_string n ++ [32; 23383; 33410; 41].
Definition msg_upload_done (n : Z) : jsstring :=
  [19978; 20256; 23436; 25104; 32; 40] ++ js_number_to_string n ++ [32; 23383; 33410; 41].
Definition msg_socket_error (m : jsstring) : jsstring := js "socket " ++ [38169; 35823; 58; 32] ++ m.

(** ** Reporting, timer and closing *)

Definition emitUpdate (patch : update_patch) : action :=
  this s => emit (Update {|
    u_type := transferType s; u_filename := filename s; u_mode := mode s;
    u_blockSize := blockSize s; u_clientAddress := clientAddress s;
    u_clientPort := clientPort s; u_patch := patch |}).

Definition armTimer : action := assign (fun s => s <| timer := true |>).
Definition clearTimer : action := assign (fun s => s <| timer := false |>).

(** [this.socket.send(packet, this.clientPort, this.clientAddress, cb)] *)
Definition send_to_client (packet : buffer) (cb : option tftp_callback) : action :=
  this s => emit (Send packet (default 0 (clientPort s)) (default [] (clientAddress s)) cb).

Definition cleanup : action :=
  assign (fun s => s <| closed := true |>) ;;;
  clearTimer ;;;
  (this s => if socket s then emit CloseSocket ;;; assign (fun s => s <| socket := false |>) else skip) ;;;
  assign (fun s => s <| fileBuffer := None |> <| writeChunks := [] |>) ;;;
  emit OnClose.

Definition complete (message : jsstring) : action :=
  this s =>
    if closed s then skip
    else
      emitUpdate {| p_status := Some COMPLETED; p_message := Some message; p_totalSize := None;
                    p_bytes := Some (totalSize s); p_blocks := None |} ;;;
      cleanup.

Definition fail_transfer (message : jsstring) : action :=
  this s =>
    if closed s then skip
    else
      emitUpdate {| p_status := Some STATUS_ERROR; p_message := Some message; p_totalSize := None;
                    p_bytes := None; p_blocks := None |} ;;;
      cleanup.

Definition sendError (code : TFTP_ERROR_CODES) (message : jsstring) : action :=
  this s =>
    if socket s && negb (closed s) then send_to_client (buildError code message) (Some (CbFail message))
    else fail_transfer message.

Definition sendPacket (packet : buffer) (expectReply : bool) : action :=
  this s =>
    if closed s || negb (socket s) then skip
    else
      assign (fun s => s <| lastSent := Some packet |>) ;;;
      send_to_client packet None ;;;
      clearTimer ;;;
      (if expectReply then armTimer else skip).

Definition onTimeout : action :=
  this s =>
    if closed s then skip
    else if maxRetries s <=? retries s then fail_transfer MSG_TIMEOUT
    else
      assign (fun s => s <| retries := retries s + 1 |>) ;;;
      (match lastSent s with
       | Some packet => if socket s then send_to_client packet None else skip
       | None => skip
       end) ;;;
      armTimer.

(** ** Paths *)

(** [`./` + filename], where a missing name prints as [undefined]. *)
Definition relative_name (filename : option jsstring) : jsstring :=
  [DOT; SLASH] ++ default (js "undefined") filename.

Definition resolveSafePath (cwd : list (list Z)) (c : tftp_config) (filename : option jsstring)
  : option (list (list Z)) :=
  let root := path_resolve cwd (rootDir c) in
  let target := path_resolve_from root (relative_name filename) in
  let rel := path_relative root target in
  if bool_decide (rel = []) || startsWith rel dotdot_segment || is_absolute rel then None
  else Some target.

(** ** Option negotiation *)

(** [declaredSize]: a number, [null], or [NaN]. *)
Inductive declared_size := SizeNumber (n : Z) | SizeNull | SizeNaN.

Definition size_text (d : declared_size) (requested : jsstring) : jsstring :=
  match d with
  | SizeNumber n => js_number_to_string n
  | SizeNaN => js "NaN"
  | SizeNull => requested
  end.

(** The options answered and the new block size and timeout. *)
Definition negotiate (requested : option_map_t) (fileSize : declared_size) (bs tm : Z)
  : option_map_t * Z * Z :=
  let '(accepted, bs) :=
    match obj_get requested (js "blksize") with
    | Some v =>
      match parseInt10 v with
      | Some n =>
        let blksize := Z.max BLOCK_SIZE_MIN (Z.min BLOCK_SIZE_MAX n) in
        ([(js "blksize", js_number_to_string blksize)], blksize)
      | None => ([], bs)
      end
    | None => ([], bs)
    end in
  let '(accepted, tm) :=
    match obj_get requested (js "timeout") with
    | Some v =>
      match parseInt10 v with
      | Some t =>
        if (1 <=? t) && (t <=? 255)
        then (accepted ++ [(js "timeout", js_number_to_string t)], t * 1000)
        else (accepted, tm)
      | None => (accepted, tm)
      end
    | None => (accepted, tm)
    end in
  let accepted :=
    match obj_get requested (js "tsize") with
    | Some v => accepted ++ [(js "tsize", size_text fileSize v)]
    | None => accepted
    end in
  (accepted, bs, tm).

Definition negotiateOptions (requested : option_map_t) (fileSize : declared_size)
  (k : option_map_t -> action) : action :=
  this s =>
    let '(accepted, bs, tm) := negotiate requested fileSize (blockSize s) (timeoutMs s) in
    assign (fun s => s <| blockSize := bs |> <| timeoutMs := tm |>) ;;;
    k accepted.

(** ** Reading *)

Definition sendDataBlock (n : Z) : action :=
  this s =>
    let offset := (n - 1) * blockSize s in
    let last := Z.min (offset + blockSize s) (totalSize s) in
    let chunk := subarray (default [] (fileBuffer s)) offset last in
    assign (fun s => s <| blockNumber := n |>) ;;;
    sendPacket (buildData n chunk) true.

(** The callback of [fs.readFile]. *)
Definition read_done (options : option_map_t) (r : read_result) : action :=
  this s =>
    if closed s then skip
    else
      match r with
      | ReadENOENT => sendError FILE_NOT_FOUND MSG_NO_FILE
      | ReadError => sendError ACCESS_VIOLATION MSG_UNREADABLE
      | ReadOk data =>
        assign (fun s => s <| fileBuffer := Some data |> <| totalSize := blen data |>) ;;;
        emitUpdate {| p_status := None; p_message := None; p_totalSize := Some (blen data);
                      p_bytes := None; p_blocks := None |} ;;;
        negotiateOptions options (SizeNumber (blen data)) (fun accepted =>
          assign (fun s => s <| finalBlock := totalSize s / blockSize s + 1 |>) ;;;
          match accepted with
          | _ :: _ =>
            assign (fun s => s <| expectOackAck := true |> <| oackOptions := Some accepted |>) ;;;
            sendPacket (buildOack accepted) true
          | [] => sendDataBlock 1
          end)
      end.

Definition beginRead (cwd : list (list Z)) (filename : option jsstring) (options : option_map_t) : action :=
  this s =>
    if negb (allowRead (config s)) then sendError ACCESS_VIOLATION MSG_READ_FORBIDDEN
    else
      match resolveSafePath cwd (config s) filename with
      | None => sendError ACCESS_VIOLATION MSG_BAD_PATH
      | Some fullPath => emit (ReadFile fullPath (CbReadDone options))
      end.

Definition handleReadAck (msg : buffer) (opcode : Z) : action :=
  this s =>
    if negb (opcode =? opcode_value ACK) || (blen msg <? 4) then skip
    else
      let acked := be_value (subarray msg 2 4) in
      if expectOackAck s then
        if acked =? 0 then
          assign (fun s => s <| expectOackAck := false |>) ;;;
          clearTimer ;;;
          sendDataBlock 1
        else skip
      else if negb (acked =? blockNumber s) then skip
      else
        clearTimer ;;;
        assign (fun s => s <| retries := 0 |>
                           <| bytes := Z.min (acked * blockSize s) (totalSize s) |>) ;;;
        if finalBlock s <=? acked then complete (msg_download_done (totalSize s))
        else
          emitUpdate {| p_status := None; p_message := None; p_totalSize := None;
                        p_bytes := Some (Z.min (acked * blockSize s) (totalSize s));
                        p_blocks := Some acked |} ;;;
          sendDataBlock (acked + 1).

(** ** Writing *)

Definition declared_of (options : option_map_t) : declared_size :=
  match obj_get options (js "tsize") with
  | None => SizeNull
  | Some v => match parseInt10 v with
              | Some n => SizeNumber n
              | None => SizeNaN
              end
  end.

Definition beginWrite (cwd : list (list Z)) (filename : option jsstring) (options : option_map_t) : action :=
  this s =>
    if negb (allowWrite (config s)) then sendError ACCESS_VIOLATION MSG_WRITE_FORBIDDEN
    else
      match resolveSafePath cwd (config s) filename with
      | None => sendError ACCESS_VIOLATION MSG_BAD_PATH
      | Some fullPath =>
        assign (fun s => s <| writePath := Some fullPath |> <| writeChunks := [] |>
                           <| bytes := 0 |> <| blockNumber := 0 |>) ;;;
        (match declared_of options with
         | SizeNumber n =>
           assign (fun s => s <| totalSize := n |>) ;;;
           emitUpdate {| p_status := None; p_message := None; p_totalSize := Some n;
                         p_bytes := None; p_blocks := None |}
         | _ => skip
         end) ;;;
        negotiateOptions options (declared_of options) (fun accepted =>
          match accepted with
          | _ :: _ => sendPacket (buildOack accepted) true
          | [] => sendPacket (buildAck 0) true
          end)
      end.

Definition flushWriteFile (lastBlock : Z) : action :=
  this s =>
    let content := concat (writeChunks s) in
    match writePath s with
    | Some path => emit (WriteFile path content (CbWriteDone lastBlock content))
    | None => emit (Uncaught TypeError)
    end.

(** The callback of [fs.writeFile]. *)
Definition write_done (lastBlock : Z) (content : buffer) (r : write_result) : action :=
  this s =>
    if closed s then skip
    else
      match r with
      | WriteENOSPC => sendError DISK_FULL MSG_WRITE_FAILED
      | WriteError => sendError ACCESS_VIOLATION MSG_WRITE_FAILED
      | WriteOk =>
        assign (fun s => s <| totalSize := blen content |>) ;;;
        this s =>
          if socket s && negb (closed s)
          then send_to_client (buildAck lastBlock) (Some (CbComplete (msg_upload_done (blen content))))
          else complete (msg_upload_done (blen content))
      end.

Definition handleWriteData (msg : buffer) (opcode : Z) : action :=
  this s =>
    if negb (opcode =? opcode_value DATA) || (blen msg <? 4) then skip
    else
      let block := be_value (subarray msg 2 4) in
      let data := subarray_from msg 4 in
      let expected := js_and (blockNumber s + 1) 65535 in
      if block =? expected then
        assign (fun s => s <| writeChunks := writeChunks s ++ [data] |>
                           <| bytes := bytes s + blen data |>
                           <| blockNumber := block |>) ;;;
        clearTimer ;;;
        assign (fun s => s <| retries := 0 |>) ;;;
        if blen data <? blockSize s then flushWriteFile block
        else
          sendPacket (buildAck block) true ;;;
          emitUpdate {| p_status := None; p_message := None; p_totalSize := None;
                        p_bytes := Some (bytes s + blen data); p_blocks := Some block |}
      else if block =? blockNumber s then send_to_client (buildAck block) None
      else skip.

(** ** Entry points *)

Definition onSocketMessage (msg : buffer) (sender : rinfo) : action :=
  this s =>
    if closed s then skip
    else if negb (bool_decide (Some (ri_address sender) = clientAddress s))
         || negb (bool_decide (Some (ri_port sender) = clientPort s))
    then emit (Send (buildError UNKNOWN_TID MSG_UNKNOWN_TID) (ri_port sender) (ri_address sender) None)
    else if (blen msg <? 4) && (blen msg <? 2) then skip
    else
      let opcode := be_value (subarray msg 0 2) in
      if opcode =? opcode_value ERROR then
        let code := if 4 <=? blen msg then be_value (subarray msg 2 4) else 0 in
        fail_transfer (msg_client_error code)
      else
        match transferType s with
        | Some READ => handleReadAck msg opcode
        | Some WRITE => handleWriteData msg opcode
        | None => skip
        end.

Definition start (opcode : TFTP_OPCODES) (request : buffer) (sender : rinfo) : action :=
  assign (fun s => s <| clientAddress := Some (ri_address sender) |>
                     <| clientPort := Some (ri_port sender) |>) ;;;
  let r := parseRequest request in
  assign (fun s => s <| filename := req_filename r |> <| mode := req_mode r |> <| socket := true |>) ;;;
  emit (BindSocket (CbBound opcode (req_filename r) (req_options r))) ;;;
  emitUpdate {| p_status := Some TRANSFERRING;
                p_message := Some (match opcode with RRQ => MSG_START_DOWNLOAD | _ => MSG_START_UPLOAD end);
                p_totalSize := None; p_bytes := None; p_blocks := None |}.

(** The callback of [socket.bind]. *)
Definition bound (cwd : list (list Z)) (opcode : TFTP_OPCODES) (filename : option jsstring)
  (options : option_map_t) : action :=
  match opcode with
  | RRQ => assign (fun s => s <| transferType := Some READ |>) ;;; beginRead cwd filename options
  | _ => assign (fun s => s <| transferType := Some WRITE |>) ;;; beginWrite cwd filename options
  end.

(** What the environment supplies when a callback runs. *)
Inductive callback_value := NoValue | ReadValue (r : read_result) | WriteValue (r : write_result).

Definition run_callback (cwd : list (list Z)) (cb : tftp_callback) (v : callback_value) : option action :=
  match cb, v with
  | CbBound opcode name options, NoValue => Some (bound cwd opcode name options)
  | CbReadDone options, ReadValue r => Some (read_done options r)
  | CbWriteDone lastBlock content, WriteValue r => Some (write_done lastBlock content r)
  | CbFail message, NoValue => Some (fail_transfer message)
  | CbComplete message, NoValue => Some (complete message)
  | _, _ => None
  end.

(** ** The event loop *)

Definition callbacks_of (e : tftp_effect) : list tftp_callback :=
  match e with
  | Send _ _ _ (Some cb) => [cb]
  | BindSocket cb => [cb]
  | ReadFile _ cb => [cb]
  | WriteFile _ _ cb => [cb]
  | _ => []
  end.

(** A session, the callbacks waiting to run and the effects so far. *)
Record tftp_world := {
  w_session : TftpSession;
  w_pending : list tftp_callback;
  w_log : list tftp_effect
}.

Definition apply_action (a : action) (pending : list tftp_callback) (w : tftp_world) : tftp_world :=
  let '(s, out) := a (w_session w) in
  {| w_session := s; w_pending := pending ++ concat (map callbacks_of out); w_log := w_log w ++ out |}.

Inductive tftp_step (cwd : list (list Z)) : tftp_world -> tftp_world -> Prop :=
| step_message w msg sender :
    tftp_step cwd w (apply_action (onSocketMessage msg sender) (w_pending w) w)
| step_socket_error w m :
    tftp_step cwd w (apply_action (fail_transfer (msg_socket_error m)) (w_pending w) w)
| step_timeout w :
    timer (w_session w) = true -> tftp_step cwd w (apply_action onTimeout (w_pending w) w)
| step_callback w before cb after v a :
    w_pending w = before ++ cb :: after -> run_callback cwd cb v = Some a ->
    tftp_step cwd w (apply_action a (before ++ after) w)
| step_abort w :
    tftp_step cwd w (apply_action cleanup (w_pending w) w).

Definition tftp_init (c : tftp_config) (opcode : TFTP_OPCODES) (request : buffer) (sender : rinfo) : tftp_world :=
  apply_action (start opcode request sender) []
    {| w_session := TftpSession_new c; w_pending := []; w_log := [] |}.

Inductive tftp_reachable (cwd : list (list Z)) (c : tftp_config) : tftp_world -> Prop :=
| reach_init opcode request sender : tftp_reachable cwd c (tftp_init c opcode request sender)
| reach_step w w' : tftp_reachable cwd c w -> tftp_step cwd w w' -> tftp_reachable cwd c w'.

(** * Lemmas *)

(** Name the fields of a session, and run the straight-line part of an action on
    it. *)
Ltac open_state s :=
  destruct s;
  cbn [config clientAddress clientPort socket transferType filename mode blockSize timeoutMs
    maxRetries fileBuffer writeChunks writePath totalSize bytes blockNumber finalBlock
    expectOackAck oackOptions lastSent retries timer closed] in *;
  simplify_eq.

Ltac run_action :=
  cbv beta iota zeta delta [seq_action assign emit get_this skip emitUpdate armTimer clearTimer
    send_to_client negotiateOptions modify TftpSession_rebuild sendPacket sendDataBlock complete
    fail_transfer cleanup flushWriteFile
    config clientAddress clientPort socket transferType filename mode blockSize timeoutMs
    maxRetries fileBuffer writeChunks writePath totalSize bytes blockNumber finalBlock
    expectOackAck oackOptions lastSent retries timer closed app fst snd negb andb orb default
    from_option id].

(** The block number on the wire. *)
Definition wire_number (n : Z) : Z := n mod 65536.

Lemma js_and_wire n : js_and n 65535 = wire_number n.
Proof. apply (js_and_mask n 16). lia. Qed.

Lemma wire_number_range n : 0 <= wire_number n < 65536.
Proof. apply Z.mod_pos_bound. lia. Qed.

Lemma put16_front v data : put16 (0 :: 0 :: data) v 0 = be_bytes 2 v ++ data.
Proof. apply (splice_mid [] [0; 0] data). by rewrite length_be_bytes. Qed.

Lemma put16_second a b v data : put16 (a :: b :: 0 :: 0 :: data) v 2 = a :: b :: be_bytes 2 v ++ data.
Proof. apply (splice_mid [a; b] [0; 0] data). by rewrite length_be_bytes. Qed.

Lemma buildAck_eq n : buildAck n = [0; 4] ++ be_bytes 2 (wire_number n).
Proof.
  unfold buildAck. rewrite js_and_wire. change (alloc 4) with [0; 0; 0; 0].
  rewrite put16_front. cbn [opcode_value be_bytes app]. by rewrite put16_second.
Qed.

Lemma buildData_eq n data : buildData n data = [0; 3] ++ be_bytes 2 (wire_number n) ++ data.
Proof.
  unfold buildData. rewrite js_and_wire, alloc_add by blia.
  change (alloc 4 ++ ?x) with (0 :: 0 :: 0 :: 0 :: x).
  rewrite put16_front. cbn [opcode_value]. change (be_bytes 2 3) with [0; 3]. cbn [app].
  rewrite put16_second. change (0 :: 3 :: ?x) with ([0; 3] ++ x). rewrite app_assoc.
  set (h := [0; 3] ++ be_bytes 2 (wire_number n)).
  assert (blen h = 4) as Hh by (subst h; by autorewrite with blen).
  unfold copy_into. rewrite blen_app, Hh, blen_alloc by apply blen_nonneg.
  rewrite firstn_all2 by (unfold blen; lia).
  rewrite splice_app_r, Hh by lia. rewrite splice_all; [subst h; by rewrite <- app_assoc|].
  unfold alloc, blen. rewrite length_replicate. lia.
Qed.

Lemma ack_fields n :
  blen (buildAck n) = 4 /\ subarray (buildAck n) 0 2 = [0; 4] /\
  be_value (subarray (buildAck n) 2 4) = wire_number n.
Proof.
  rewrite buildAck_eq. split_and!; [by autorewrite with blen | done |].
  pose proof (subarray_mid [0; 4] (be_bytes 2 (wire_number n)) []) as Hm.
  rewrite app_nil_r, blen_be_bytes in Hm. change (blen [0; 4] + Z.of_nat 2) with 4 in Hm.
  change (blen [0; 4]) with 2 in Hm. rewrite Hm. apply be_value_be_bytes. apply wire_number_range.
Qed.

Lemma data_fields n data :
  blen (buildData n data) = 4 + blen data /\ subarray (buildData n data) 0 2 = [0; 3] /\
  be_value (subarray (buildData n data) 2 4) = wire_number n /\
  subarray_from (buildData n data) 4 = data.
Proof.
  rewrite buildData_eq. split_and!.
  - autorewrite with blen. lia.
  - done.
  - pose proof (subarray_mid [0; 3] (be_bytes 2 (wire_number n)) data) as Hm.
    rewrite blen_be_bytes in Hm. change (blen [0; 3] + Z.of_nat 2) with 4 in Hm.
    change (blen [0; 3]) with 2 in Hm. rewrite Hm. apply be_value_be_bytes. apply wire_number_range.
  - rewrite app_assoc. change 4 with (2 + Z.of_nat 2).
    rewrite <- (blen_be_bytes 2 (wire_number n)). change 2 with (blen [0; 3]) at 1.
    rewrite <- blen_app. apply subarray_from_app.
Qed.

(** ** A datagram from the client of an open session *)

Definition from_client (s : TftpSession) (sender : rinfo) : Prop :=
  clientAddress s = Some (ri_address sender) /\ clientPort s = Some (ri_port sender).

Definition open_session (s : TftpSession) : Prop := closed s = false /\ socket s = true.

(** What is done with an ordinary packet of the client. *)
Definition dispatch (msg : buffer) : action :=
  this s =>
    match transferType s with
    | Some READ => handleReadAck msg (be_value (subarray msg 0 2))
    | Some WRITE => handleWriteData msg (be_value (subarray msg 0 2))
    | None => skip
    end.

Lemma onSocketMessage_dispatch msg sender s :
  open_session s -> from_client s sender -> 2 <= blen msg ->
  be_value (subarray msg 0 2) <> opcode_value ERROR ->
  onSocketMessage msg sender s = dispatch msg s.
Proof.
  intros [Hc Hs] [Ha Hp] Hl Ho. unfold onSocketMessage, dispatch, get_this. rewrite Hc.
  rewrite !bool_decide_true by done. cbn [negb orb].
  decide_test (blen msg <? 2) false. rewrite andb_false_r.
  by rewrite (proj2 (Z.eqb_neq _ _) Ho).
Qed.

Lemma onSocketMessage_ack n sender s :
  open_session s -> from_client s sender -> transferType s = Some READ ->
  onSocketMessage (buildAck n) sender s = handleReadAck (buildAck n) 4 s.
Proof.
  intros Ho Hf Ht. destruct (ack_fields n) as (Hl & Hop & _).
  rewrite onSocketMessage_dispatch; [|done|done|lia|by rewrite Hop].
  unfold dispatch, get_this. by rewrite Ht, Hop.
Qed.

Lemma onSocketMessage_data n data sender s :
  open_session s -> from_client s sender -> transferType s = Some WRITE ->
  onSocketMessage (buildData n data) sender s = handleWriteData (buildData n data) 3 s.
Proof.
  intros Ho Hf Ht. destruct (data_fields n data) as (Hl & Hop & _).
  rewrite onSocketMessage_dispatch; [|done|done|blia|by rewrite Hop].
  unfold dispatch, get_this. by rewrite Ht, Hop.
Qed.

(** ** Downloads *)

Definition block_of (data : buffer) (bs n : Z) : buffer :=
  subarray data ((n - 1) * bs) (Z.min ((n - 1) * bs + bs) (blen data)).

(** A download whose file has been read and whose options are settled. *)
Record downloading (data : buffer) (bs : Z) (sender : rinfo) (s : TftpSession) : Prop := {
  dl_open : open_session s;
  dl_from : from_client s sender;
  dl_type : transferType s = Some READ;
  dl_buffer : fileBuffer s = Some data;
  dl_size : totalSize s = blen data;
  dl_bs : blockSize s = bs;
  dl_pos : 0 < bs;
  dl_final : finalBlock s = blen data / bs + 1
}.

(** The session is told to send DATA block [n]. *)
Lemma sendDataBlock_spec data bs sender s n :
  downloading data bs sender s ->
  exists s', sendDataBlock n s =
    (s', [Send (buildData n (block_of data bs n)) (ri_port sender) (ri_address sender) None]) /\
    downloading data bs sender s' /\ blockNumber s' = n /\ expectOackAck s' = expectOackAck s.
Proof.
  intros [[Hc Hs] [Ha Hp] Ht Hb Hz Hbs Hpos Hf]. open_state s. run_action.
  eexists. split; [done|]. by repeat split.
Qed.

(** What an observer sees: the payloads of the DATA packets, and the reports that
    end a transfer with the byte count they carry. *)
Definition data_payload (e : tftp_effect) : option buffer :=
  match e with
  | Send p _ _ _ => if bool_decide (take 2 p = [0; opcode_value DATA]) then Some (drop 4 p) else None
  | _ => None
  end.

Definition data_payloads (out : list tftp_effect) : list (list Z) := omap data_payload out.

Definition terminal_report (e : tftp_effect) : option (TFTP_TRANSFER_STATUS * option Z) :=
  match e with
  | Update u =>
    match p_status (u_patch u) with
    | Some COMPLETED => Some (COMPLETED, p_bytes (u_patch u))
    | Some STATUS_ERROR => Some (STATUS_ERROR, p_bytes (u_patch u))
    | _ => None
    end
  | _ => None
  end.

Definition terminal_reports (out : list tftp_effect) := omap terminal_report out.

Fixpoint run_messages (msgs : list (list Z)) (sender : rinfo) : action :=
  match msgs with
  | [] => skip
  | m :: tl => onSocketMessage m sender ;;; run_messages tl sender
  end.

Lemma data_payload_data n data port addr cb : data_payload (Send (buildData n data) port addr cb) = Some data.
Proof.
  unfold data_payload. rewrite buildData_eq. cbn [app take].
  rewrite bool_decide_true by done. done.
Qed.

Lemma blocks_prefix data bs (k : nat) :
  0 < bs ->
  concat (map (block_of data bs) (seqZ 1 (Z.of_nat k))) = subarray data 0 (Z.min (Z.of_nat k * bs) (blen data)).
Proof.
  intros Hbs. induction k as [|k IH]; [by rewrite (Z.min_l 0) by apply blen_nonneg|].
  rewrite seqZ_S, map_app, concat_app, IH. cbn [map concat]. rewrite app_nil_r.
  unfold block_of, subarray. rewrite !Z.sub_0_r. change (Z.to_nat 0) with 0%nat. rewrite !drop_0.
  replace (1 + Z.of_nat k - 1) with (Z.of_nat k) by lia.
  unfold blen. set (L := length data). set (K := Z.of_nat k * bs).
  replace (Z.of_nat (S k) * bs) with (K + bs) by lia.
  destruct (decide (K <= Z.of_nat L)).
  - rewrite (Z.min_l K) by lia. rewrite take_take_drop. f_equal. lia.
  - rewrite !Z.min_r by lia. rewrite (drop_ge data) by (subst L; lia).
    by rewrite take_nil, app_nil_r.
Qed.

Lemma blocks_all data bs :
  0 < bs -> concat (map (block_of data bs) (seqZ 1 (blen data / bs + 1))) = data.
Proof.
  intros Hbs. assert (0 <= blen data / bs) by (apply Z.div_pos; blia).
  replace (blen data / bs + 1) with (Z.of_nat (Z.to_nat (blen data / bs + 1))) by lia.
  rewrite blocks_prefix by done. rewrite Z.min_r.
  - pose proof (subarray_app_l data []) as Hs. by rewrite app_nil_r in Hs.
  - rewrite Z2Nat.id by lia. pose proof (Z.mul_succ_div_gt (blen data) bs Hbs). lia.
Qed.

(** An acknowledgement of the block just sent. *)
Lemma ack_next data bs sender s n :
  downloading data bs sender s -> expectOackAck s = false -> blockNumber s = n ->
  0 <= n < 65536 -> n < finalBlock s ->
  exists s' u, onSocketMessage (buildAck n) sender s =
    (s', [Update u; Send (buildData (n + 1) (block_of data bs (n + 1))) (ri_port sender) (ri_address sender) None]) /\
    p_status (u_patch u) = None /\
    downloading data bs sender s' /\ blockNumber s' = n + 1 /\ expectOackAck s' = false.
Proof.
  intros Hd He Hn Hr Hlt. rewrite onSocketMessage_ack by (destruct Hd; done).
  destruct (ack_fields n) as (Hl & _ & Hv).
  unfold handleReadAck, get_this at 1. rewrite Hv, Hl, He, Hn.
  unfold wire_number. rewrite Z.mod_small, !Z.eqb_refl by lia. cbn [opcode_value negb orb].
  change (4 <? 4) with false. cbn [negb orb].
  decide_test (finalBlock s <=? n) false.
  destruct Hd as [[Hc Hs] [Ha Hp] Ht Hb Hz Hbs Hpos Hf]. open_state s. run_action.
  eexists _, _. split; [reflexivity|]. repeat split; done.
Qed.

Lemma ack_last data bs sender s n :
  downloading data bs sender s -> expectOackAck s = false -> blockNumber s = n ->
  0 <= n < 65536 -> finalBlock s <= n ->
  exists s' u, onSocketMessage (buildAck n) sender s = (s', [Update u; CloseSocket; OnClose]) /\
    p_status (u_patch u) = Some COMPLETED /\ p_bytes (u_patch u) = Some (blen data) /\ closed s' = true.
Proof.
  intros Hd He Hn Hr Hlt. rewrite onSocketMessage_ack by (destruct Hd; done).
  destruct (ack_fields n) as (Hl & _ & Hv). destruct Hd as [[Hc Hs] [Ha Hp] Ht Hb Hz Hbs Hpos Hf].
  unfold handleReadAck, get_this at 1. rewrite Hv, Hl, He, Hn.
  unfold wire_number. rewrite Z.mod_small, !Z.eqb_refl by lia. cbn [opcode_value negb orb].
  change (4 <? 4) with false. cbn [negb orb].
  decide_test (finalBlock s <=? n) true. open_state s. run_action.
  eexists _, _. split; [reflexivity|]. repeat split; done.
Qed.

Lemma terminal_reports_app a b : terminal_reports (a ++ b) = terminal_reports a ++ terminal_reports b.
Proof. apply omap_app. Qed.

Lemma data_payloads_app a b : data_payloads (a ++ b) = data_payloads a ++ data_payloads b.
Proof. apply omap_app. Qed.

(** The client acknowledges the blocks [n], [n + 1], ... up to the last one. *)
Lemma download_acks (k : nat) data bs sender s n :
  downloading data bs sender s -> expectOackAck s = false -> blockNumber s = n ->
  1 <= n -> n + Z.of_nat k = finalBlock s -> finalBlock s <= 65535 ->
  exists s' out, run_messages (map buildAck (seqZ n (Z.of_nat (S k)))) sender s = (s', out) /\
    data_payloads out = map (block_of data bs) (seqZ (n + 1) (Z.of_nat k)) /\
    terminal_reports out = [(COMPLETED, Some (blen data))] /\ closed s' = true.
Proof.
  revert s n; induction k as [|k IH]; intros s n Hd He Hb Hn Hk Hf.
  - destruct (ack_last data bs sender s n) as (s' & u & Hm & Hst & Hby & Hc); [done..|lia|lia|].
    eexists s', _. split; [eapply seq_action_eq; [exact Hm | reflexivity]|].
    split; [done|]. split; [|done]. cbn. by rewrite Hst, Hby.
  - destruct (ack_next data bs sender s n) as (s1 & u & Hm & Hst & Hd1 & Hb1 & He1); [done..|lia|lia|].
    assert (finalBlock s1 = finalBlock s) as Hfs by (by rewrite (dl_final _ _ _ _ Hd), (dl_final _ _ _ _ Hd1)).
    destruct (IH s1 (n + 1)) as (s' & out & Hr & Hp & Ht & Hc); [done..|lia|lia|lia|].
    eexists s', _. rewrite seqZ_cons by lia. replace (Z.succ n) with (n + 1) by lia.
    replace (Z.pred (Z.of_nat (S (S k)))) with (Z.of_nat (S k)) by lia.
    split; [eapply seq_action_eq; [exact Hm | exact Hr]|].
    rewrite data_payloads_app, terminal_reports_app, Hp, Ht. split_and!; [|cbn; by rewrite Hst|done].
    rewrite (seqZ_cons (n + 1) (Z.of_nat (S k))) by lia.
    replace (Z.succ (n + 1)) with (n + 1 + 1) by lia.
    replace (Z.pred (Z.of_nat (S k))) with (Z.of_nat k) by lia.
    unfold data_payloads. cbn [omap list_omap map]. by rewrite data_payload_data.
Qed.

(** The same, from the moment the first block is sent. *)
Lemma download_from_first data bs sender s final :
  downloading data bs sender s -> expectOackAck s = false -> finalBlock s = final -> final <= 65535 ->
  exists s' out, (sendDataBlock 1 ;;; run_messages (map buildAck (seqZ 1 final)) sender) s = (s', out) /\
    data_payloads out = map (block_of data bs) (seqZ 1 final) /\
    terminal_reports out = [(COMPLETED, Some (blen data))] /\ closed s' = true.
Proof.
  intros Hd He <- Hf.
  destruct (sendDataBlock_spec data bs sender s 1 Hd) as (s1 & Hs & Hd1 & Hn1 & He1).
  assert (finalBlock s1 = finalBlock s) as Hfs by (by rewrite (dl_final _ _ _ _ Hd), (dl_final _ _ _ _ Hd1)).
  assert (1 <= finalBlock s) as Hge.
  { rewrite (dl_final _ _ _ _ Hd). pose proof (dl_pos _ _ _ _ Hd).
    assert (0 <= blen data / bs) by (apply Z.div_pos; blia). lia. }
  destruct (download_acks (Z.to_nat (finalBlock s - 1)) data bs sender s1 1)
    as (s' & out & Hr & Hp & Ht & Hc); [done|congruence|done|lia|lia|lia|].
  replace (Z.of_nat (S (Z.to_nat (finalBlock s - 1)))) with (finalBlock s) in Hr by lia.
  eexists s', _. split; [eapply seq_action_eq; [exact Hs | exact Hr]|].
  rewrite data_payloads_app, terminal_reports_app, Hp, Ht. split_and!; [|done|done].
  rewrite (seqZ_cons 1 (finalBlock s)) by lia. change (Z.succ 1) with (1 + 1).
  replace (Z.pred (finalBlock s)) with (Z.of_nat (Z.to_nat (finalBlock s - 1))) by lia.
  unfold data_payloads. cbn [omap list_omap map]. by rewrite data_payload_data.
Qed.

(** The acknowledgements of a client that receives everything: the OACK first, when
    options were accepted. *)
Definition client_acks (accepted : option_map_t) (final : Z) : list (list Z) :=
  (if decide (accepted = []) then [] else [buildAck 0]) ++ map buildAck (seqZ 1 final).

Lemma ack_oack data bs sender s :
  downloading data bs sender s -> expectOackAck s = true ->
  exists s1, onSocketMessage (buildAck 0) sender s = sendDataBlock 1 s1 /\
    downloading data bs sender s1 /\ expectOackAck s1 = false /\ finalBlock s1 = finalBlock s.
Proof.
  intros Hd He. rewrite onSocketMessage_ack by (destruct Hd; done).
  destruct Hd as [[Hc Hs] [Ha Hp] Ht Hb Hz Hbs Hpos Hf].
  exists (s <| expectOackAck := false |> <| timer := false |>).
  split; [|open_state s; by repeat split].
  unfold handleReadAck, get_this at 1. rewrite He. change (blen (buildAck 0)) with 4.
  change (be_value (subarray (buildAck 0) 2 4)) with 0. cbn [opcode_value negb orb].
  unfold seq_action, clearTimer, assign. cbn [fst snd app Z.eqb Pos.eqb Z.ltb Z.compare negb orb].
  change (4 <? 4) with false. cbv beta iota. by destruct (sendDataBlock 1 _).
Qed.

(** Reading a file puts the session in the [downloading] state. *)
Definition loaded (s : TftpSession) (data : buffer) (bs tm : Z) : TftpSession :=
  s <| fileBuffer := Some data |> <| totalSize := blen data |> <| blockSize := bs |>
    <| timeoutMs := tm |> <| finalBlock := blen data / bs + 1 |>.

Lemma loaded_downloading s sender data bs tm :
  open_session s -> from_client s sender -> transferType s = Some READ -> 0 < bs ->
  downloading data bs sender (loaded s data bs tm).
Proof. intros [] [] ? ?. open_state s. by repeat split. Qed.

Lemma read_done_plain s options data bs tm :
  open_session s -> negotiate options (SizeNumber (blen data)) (blockSize s) (timeoutMs s) = ([], bs, tm) ->
  exists u, p_status (u_patch u) = None /\
    read_done options (ReadOk data) s = (emit (Update u) ;;; sendDataBlock 1) (loaded s data bs tm).
Proof.
  intros [Hc Hs] Hn. open_state s. eexists. split; [|unfold read_done, loaded; run_action; rewrite Hn; reflexivity].
  done.
Qed.

Lemma read_done_oack s sender options data kv accepted bs tm :
  open_session s -> from_client s sender -> transferType s = Some READ -> 0 < bs ->
  negotiate options (SizeNumber (blen data)) (blockSize s) (timeoutMs s) = (kv :: accepted, bs, tm) ->
  exists u s1, p_status (u_patch u) = None /\ downloading data bs sender s1 /\ expectOackAck s1 = true /\
    read_done options (ReadOk data) s =
    (s1, [Update u; Send (buildOack (kv :: accepted)) (ri_port sender) (ri_address sender) None]).
Proof.
  intros [Hc Hs] [Ha Hp] Ht Hpos Hn. open_state s. eexists _, _.
  split; [|split; [|split; [|unfold read_done; run_action; rewrite Hn; reflexivity]]]; [done| |done].
  by repeat split.
Qed.

(** C16: a download delivers the file.  For every open session of a read request and
    every file, once the file has been read and its options negotiated, a client
    that acknowledges what it receives gets the file: the payloads of the DATA
    packets put together are the file, there are as many packets as
    [floor(size / blockSize) + 1], and the transfer ends with exactly one report,
    COMPLETED with the size of the file; provided the number of blocks fits the
    16-bit block number. *)
Theorem tftp_download_delivers s sender options data accepted bs tm :
  open_session s -> from_client s sender -> transferType s = Some READ -> expectOackAck s = false ->
  negotiate options (SizeNumber (blen data)) (blockSize s) (timeoutMs s) = (accepted, bs, tm) ->
  0 < bs -> blen data / bs + 1 <= 65535 ->
  exists s' out,
    (read_done options (ReadOk data) ;;;
     run_messages (client_acks accepted (blen data / bs + 1)) sender) s = (s', out) /\
    concat (data_payloads out) = data /\
    blen (data_payloads out) = blen data / bs + 1 /\
    terminal_reports out = [(COMPLETED, Some (blen data))] /\
    closed s' = true.
Proof.
  intros Ho Hf Ht He Hn Hpos Hfit. unfold client_acks.
  assert (0 <= blen data / bs) by (apply Z.div_pos; blia).
  assert (blen (map (block_of data bs) (seqZ 1 (blen data / bs + 1))) = blen data / bs + 1) as Hcount
    by (unfold blen; rewrite length_map, length_seqZ; unfold blen in *; lia).
  destruct accepted as [|kv accepted]; [rewrite decide_True by done|rewrite decide_False by done]; cbn [app].
  - destruct (read_done_plain s options data bs tm Ho Hn) as (u & Hu & Hr).
    destruct (download_from_first data bs sender (loaded s data bs tm) (blen data / bs + 1))
      as (s' & out & Hrun & Hp & Hterm & Hc); [by apply loaded_downloading | by destruct s | by destruct s | done |].
    exists s', ([Update u] ++ out). rewrite <- Hp in Hcount.
    rewrite data_payloads_app, terminal_reports_app, Hterm.
    change (data_payloads [Update u]) with (@nil (list Z)). rewrite app_nil_l.
    split_and!; [|by rewrite Hp, blocks_all|done|cbn; by rewrite Hu|done].
    rewrite (seq_action_cong _ _ _ _ _ Hr), seq_action_assoc.
    eapply seq_action_eq; [reflexivity | exact Hrun].
  - destruct (read_done_oack s sender options data kv accepted bs tm) as (u & s1 & Hu & Hd & He1 & Hr); [done..|].
    destruct (ack_oack data bs sender s1 Hd He1) as (s2 & Ha & Hd2 & He2 & Hf2).
    destruct (download_from_first data bs sender s2 (blen data / bs + 1))
      as (s' & out & Hrun & Hp & Hterm & Hc); [done | done | by destruct Hd2 | done |].
    set (oack := Send (buildOack (kv :: accepted)) (ri_port sender) (ri_address sender) None) in *.
    exists s', ([Update u; oack] ++ out). rewrite <- Hp in Hcount.
    rewrite data_payloads_app, terminal_reports_app, Hterm.
    change (data_payloads [Update u; oack]) with (@nil (list Z)). rewrite app_nil_l.
    split_and!; [|by rewrite Hp, blocks_all|done|cbn; by rewrite Hu|done].
    eapply seq_action_eq; [exact Hr|]. cbn [run_messages].
    rewrite (seq_action_cong _ _ _ _ _ Ha). exact Hrun.
Qed.

Definition witness_config : tftp_config := {|
  rootDir := js "/srv/tftp"; cfg_timeout := None; cfg_retries := Some 3; allowRead := true; allowWrite := true |}.

Definition witness_peer : rinfo := {| ri_address := js "192.0.2.7"; ri_port := 40001 |}.

(** A session that is transferring with the client [witness_peer]. *)
Definition witness_session (t : TFTP_TRANSFER_TYPE) : TftpSession :=
  (TftpSession_new witness_config) <| clientAddress := Some (ri_address witness_peer) |>
    <| clientPort := Some (ri_port witness_peer) |> <| socket := true |> <| transferType := Some t |>.

Lemma tftp_download_delivers_witness :
  exists s' out,
    (read_done [(js "blksize", js "8")] (ReadOk (js "twenty bytes of data")) ;;;
     run_messages (client_acks [(js "blksize", js "8")] 3) witness_peer) (witness_session READ) = (s', out) /\
    concat (data_payloads out) = js "twenty bytes of data" /\
    blen (data_payloads out) = 3 /\
    terminal_reports out = [(COMPLETED, Some 20)] /\ closed s' = true.
Proof.
  refine (tftp_download_delivers (witness_session READ) witness_peer [(js "blksize", js "8")]
    (js "twenty bytes of data") [(js "blksize", js "8")] 8 3000 _ _ _ _ _ _ _); by vm_compute.
Defined.

(** ** The end of a transfer *)

Definition sent_packet (e : tftp_effect) : option buffer :=
  match e with Send p _ _ _ => Some p | _ => None end.

Definition sent (out : list tftp_effect) : list (list Z) := omap sent_packet out.

Lemma sent_app a b : sent (a ++ b) = sent a ++ sent b.
Proof. apply omap_app. Qed.

(** What a closed session no longer holds. *)
Definition released (s : TftpSession) : Prop := closed s = true -> timer s = false /\ socket s = false.

(** A step that respects the end of the transfer: a closed session stays closed and
    says nothing more; an open one reports its end at most once, when it closes. *)
Definition orderly (a : action) (s : TftpSession) : Prop :=
  released s ->
  released (fst (a s)) /\
  (closed s = true -> closed (fst (a s)) = true /\ sent (snd (a s)) = [] /\
     terminal_reports (snd (a s)) = []) /\
  (closed s = false -> terminal_reports (snd (a s)) = [] \/
     closed (fst (a s)) = true /\ (length (terminal_reports (snd (a s))) <= 1)%nat).

Lemma orderly_seq a b s : orderly a s -> orderly b (fst (a s)) -> orderly (a ;;; b) s.
Proof.
  unfold orderly. intros Ha Hb Hr. destruct (Ha Hr) as (Hr1 & Hc1 & Ho1).
  destruct (Hb Hr1) as (Hr2 & Hc2 & Ho2). unfold seq_action.
  destruct (a s) as [s1 o1]. cbn [fst snd] in *. destruct (b s1) as [s2 o2]. cbn [fst snd] in *.
  rewrite sent_app, terminal_reports_app, length_app. split_and!; [done | |].
  - intros Hc. destruct (Hc1 Hc) as (Hc' & Hf & Ht). destruct (Hc2 Hc') as (? & Hf2 & Ht2).
    by rewrite Hf, Ht, Hf2, Ht2.
  - intros Hc. destruct (closed s1) eqn:Hc'.
    + destruct (Hc2 eq_refl) as (? & _ & Ht2). rewrite Ht2, app_nil_r. cbn.
      rewrite Nat.add_0_r. destruct (Ho1 Hc) as [->|[]]; auto.
    + destruct (Ho1 Hc) as [->|[]]; [|done]. cbn. by apply Ho2.
Qed.

Lemma orderly_this k s : orderly (k s) s -> orderly (get_this k) s.
Proof. done. Qed.

Ltac orderly_compute s :=
  unfold orderly, released; destruct s as [? ? ? [] ? ? ? ? ? ? ? ? ? ? ? ? ? ? ? ? ? ? []]; run_action;
  repeat match goal with
  | |- context [if ?b then _ else _] => destruct b
  | |- context [match ?o with Some _ => _ | None => _ end] => destruct o
  end; cbn; intuition (try first [congruence | lia]).

Lemma orderly_complete m s : orderly (complete m) s.
Proof. orderly_compute s. Qed.

Lemma orderly_fail m s : orderly (fail_transfer m) s.
Proof. orderly_compute s. Qed.

Lemma orderly_cleanup s : orderly cleanup s.
Proof. orderly_compute s. Qed.

Lemma orderly_skip s : orderly skip s.
Proof. orderly_compute s. Qed.

Lemma orderly_sendPacket p r s : orderly (sendPacket p r) s.
Proof. orderly_compute s. Qed.

Lemma orderly_sendError c m s : orderly (sendError c m) s.
Proof. unfold sendError. orderly_compute s. Qed.

Lemma orderly_onTimeout s : orderly onTimeout s.
Proof. unfold onTimeout. orderly_compute s. Qed.

Lemma orderly_report patch s :
  p_status patch = None \/ p_status patch = Some TRANSFERRING -> orderly (emitUpdate patch) s.
Proof. intros Hp. destruct patch as [[[]|] ? ? ? ?]; destruct Hp as [[=]|[=]]; orderly_compute s. Qed.

(** Assignments that do not touch the fields involved, and effects that are neither
    datagrams nor reports. *)
Lemma orderly_assign f s :
  closed (f s) = closed s -> socket (f s) = socket s -> timer (f s) = timer s -> orderly (assign f) s.
Proof. intros Hc Hs Ht. unfold orderly, released, assign. cbn. rewrite Hc, Hs, Ht. auto. Qed.

Lemma orderly_emit e s : sent_packet e = None -> terminal_report e = None -> orderly (emit e) s.
Proof.
  intros He Ht. unfold orderly, emit, terminal_reports, sent. cbn. rewrite Ht, He. auto.
Qed.

Lemma orderly_clearTimer s : orderly clearTimer s.
Proof. orderly_compute s. Qed.

Lemma orderly_send packet cb s : closed s = false -> orderly (send_to_client packet cb) s.
Proof. intros Hc. open_state s. unfold orderly, released. run_action. cbn. intuition congruence. Qed.

Lemma orderly_negotiate opts size k s :
  (forall accepted s', orderly (k accepted) s') -> orderly (negotiateOptions opts size k) s.
Proof.
  intros Hk. unfold negotiateOptions. apply orderly_this.
  destruct (negotiate _ _ _ _) as [[accepted bs] tm]. apply orderly_seq; [by apply orderly_assign | done].
Qed.

Create HintDb orderly.
#[local] Hint Resolve orderly_complete orderly_fail orderly_cleanup orderly_skip orderly_sendPacket
  orderly_sendError orderly_onTimeout orderly_clearTimer : orderly.

Ltac orderly_step :=
  lazymatch goal with
  | |- orderly (get_this _) _ => apply orderly_this
  | |- orderly (seq_action _ _) _ => apply orderly_seq
  | |- orderly (emitUpdate _) _ => apply orderly_report; by auto
  | |- orderly (assign _) _ => by apply orderly_assign
  | |- orderly (emit _) _ => by apply orderly_emit
  | |- orderly (send_to_client _ _) _ => by apply orderly_send
  | |- orderly (negotiateOptions _ _ _) _ => apply orderly_negotiate; intros
  | |- orderly (flushWriteFile _) _ => unfold flushWriteFile
  | |- orderly (sendDataBlock _) _ => unfold sendDataBlock
  | |- orderly (if ?b then _ else _) _ => destruct b eqn:?
  | |- orderly (match ?x with _ => _ end) _ => destruct x eqn:?
  | |- orderly _ _ => by auto with orderly
  end.

Ltac orderly_auto := cbv zeta; repeat (orderly_step; cbv zeta).

Lemma orderly_read_done opts r s : orderly (read_done opts r) s.
Proof. unfold read_done. orderly_auto. Qed.

Lemma orderly_write_done b content r s : orderly (write_done b content r) s.
Proof. unfold write_done. orderly_auto. Qed.

Lemma orderly_bound cwd opcode name opts s : orderly (bound cwd opcode name opts) s.
Proof. unfold bound, beginRead, beginWrite. orderly_auto. Qed.

Lemma orderly_handleReadAck msg op s : orderly (handleReadAck msg op) s.
Proof. unfold handleReadAck. orderly_auto. Qed.

Lemma orderly_handleWriteData msg op s : closed s = false -> orderly (handleWriteData msg op) s.
Proof. intros. unfold handleWriteData. orderly_auto. Qed.

Lemma orderly_onSocketMessage msg sender s : orderly (onSocketMessage msg sender) s.
Proof.
  unfold onSocketMessage. apply orderly_this. destruct (closed s) eqn:Hc; [auto with orderly|].
  case_if; [|case_if; [auto with orderly|]; cbv zeta; case_if; [auto with orderly|]].
  - unfold orderly, emit, released, terminal_reports. cbn. rewrite Hc. intuition congruence.
  - destruct (transferType s) as [[]|]; auto using orderly_handleReadAck, orderly_handleWriteData with orderly.
Qed.

Lemma orderly_callback cwd cb v a s : run_callback cwd cb v = Some a -> orderly a s.
Proof.
  destruct cb, v; cbn; intros [= <-];
    auto using orderly_bound, orderly_read_done, orderly_write_done with orderly.
Qed.

(** The invariant of a session in its event loop. *)
Definition world_ok (w : tftp_world) : Prop :=
  released (w_session w) /\
  (closed (w_session w) = false -> terminal_reports (w_log w) = []) /\
  (length (terminal_reports (w_log w)) <= 1)%nat.

Lemma apply_action_ok a pending w :
  orderly a (w_session w) -> world_ok w -> world_ok (apply_action a pending w).
Proof.
  unfold orderly, world_ok, apply_action. intros Ha (Hr & Ho & Hl).
  destruct (Ha Hr) as (Hr1 & Hc1 & Ho1). destruct (a (w_session w)) as [s1 o1]. cbn [fst snd w_session w_log] in *.
  rewrite terminal_reports_app, length_app. split; [done|].
  destruct (closed (w_session w)) eqn:Hc.
  - destruct (Hc1 eq_refl) as (-> & _ & ->). cbn. split; [done | lia].
  - rewrite (Ho eq_refl). cbn. destruct (Ho1 eq_refl) as [->|[-> ?]]; cbn; split; auto; lia || done.
Qed.

Lemma step_ok cwd w w' : world_ok w -> tftp_step cwd w w' -> world_ok w'.
Proof.
  intros Hw Hs. destruct Hs; apply apply_action_ok;
    eauto using orderly_onSocketMessage, orderly_callback with orderly.
Qed.

Lemma init_ok c opcode request sender : world_ok (tftp_init c opcode request sender).
Proof. unfold world_ok, released. cbn. split_and!; [done | done | lia]. Qed.

Lemma reachable_ok cwd c w : tftp_reachable cwd c w -> world_ok w.
Proof. induction 1; eauto using init_ok, step_ok. Qed.

(** C13: a transfer ends at most once and then stays silent.  Whatever datagrams,
    timeouts, socket errors, aborts and completions of file operations a session
    meets, in whatever order: it makes at most one report of its end; a session that
    has closed has released its timer and its socket; and no further step of it
    sends a datagram or makes a second report. *)
Theorem tftp_ends_once cwd c w :
  tftp_reachable cwd c w ->
  (length (terminal_reports (w_log w)) <= 1)%nat /\
  (closed (w_session w) = true ->
     timer (w_session w) = false /\ socket (w_session w) = false /\
     forall w', tftp_step cwd w w' ->
       closed (w_session w') = true /\ sent (w_log w') = sent (w_log w) /\
       terminal_reports (w_log w') = terminal_reports (w_log w)).
Proof.
  intros Hw. apply reachable_ok in Hw as (Hr & Ho & Hl). split; [done|]. intros Hc.
  destruct (Hr Hc) as [Ht Hs]. split; [done|]. split; [done|]. intros w' Hstep.
  assert (exists a pending, orderly a (w_session w) /\ w' = apply_action a pending w) as (a & pending & Ha & ->).
  { destruct Hstep; eauto 10 using orderly_onSocketMessage, orderly_callback with orderly. }
  destruct (Ha Hr) as (_ & Hc1 & _). destruct (Hc1 Hc) as (Hc2 & Hs2 & Ht2).
  unfold apply_action. destruct (a (w_session w)) as [s1 o1]. cbn [fst snd w_session w_log] in *.
  by rewrite sent_app, terminal_reports_app, Hs2, Ht2, !app_nil_r.
Qed.

(** A reachable world whose session has closed. *)
Definition witness_closed_world : tftp_world :=
  apply_action cleanup (w_pending (tftp_init witness_config RRQ (js "xx") witness_peer))
    (tftp_init witness_config RRQ (js "xx") witness_peer).

Lemma tftp_ends_once_witness :
  (length (terminal_reports (w_log witness_closed_world)) <= 1)%nat /\
  closed (w_session witness_closed_world) = true /\
  timer (w_session witness_closed_world) = false.
Proof.
  destruct (tftp_ends_once [] witness_config witness_closed_world) as (H1 & H2).
  - eapply reach_step; [apply reach_init | apply step_abort].
  - destruct (H2 eq_refl) as (? & ? & _). split_and!; [exact H1 | reflexivity | assumption].
Defined.

(** ** Retransmission *)

Fixpoint run_timeouts (n : nat) : action :=
  match n with
  | O => skip
  | S m => onTimeout ;;; run_timeouts m
  end.

Lemma onTimeout_retry s p :
  open_session s -> lastSent s = Some p -> retries s < maxRetries s ->
  exists s', onTimeout s = (s', [Send p (default 0 (clientPort s)) (default [] (clientAddress s)) None]) /\
    open_session s' /\ lastSent s' = Some p /\ retries s' = retries s + 1 /\ maxRetries s' = maxRetries s /\
    timer s' = true.
Proof.
  intros [Hc Hs] Hp Hlt. open_state s. unfold onTimeout. run_action.
  decide_test (maxRetries0 <=? retries0) false. run_action. eexists. split; [reflexivity|]. by repeat split.
Qed.

Lemma onTimeout_give_up s :
  open_session s -> maxRetries s <= retries s ->
  exists s' u, onTimeout s = (s', [Update u; CloseSocket; OnClose]) /\
    terminal_report (Update u) = Some (STATUS_ERROR, None) /\ closed s' = true.
Proof.
  intros [Hc Hs] Hle. open_state s. unfold onTimeout. run_action.
  decide_test (maxRetries0 <=? retries0) true. run_action. eexists _, _. split; [reflexivity|]. done.
Qed.

(** a peer that has gone silent costs a bounded number of packets.  An open
    session with a packet outstanding retransmits exactly that packet, once per
    timeout, [maxRetries - retries] times; the next timeout ends the transfer with
    one error report and closes the session. *)
Theorem tftp_retry_bound s p :
  open_session s -> lastSent s = Some p -> retries s <= maxRetries s ->
  exists s' out, run_timeouts (S (Z.to_nat (maxRetries s - retries s))) s = (s', out) /\
    sent out = replicate (Z.to_nat (maxRetries s - retries s)) p /\
    terminal_reports out = [(STATUS_ERROR, None)] /\ closed s' = true.
Proof.
  remember (Z.to_nat (maxRetries s - retries s)) as k eqn:Hk. revert s Hk.
  induction k as [|k IH]; intros s Hk Ho Hp Hle.
  - destruct (onTimeout_give_up s Ho) as (s' & u & Ht & Hu & Hc); [lia|].
    eexists _, _. split; [eapply seq_action_eq; [exact Ht | reflexivity]|].
    split; [done|]. split; [|done]. unfold terminal_reports. cbn [omap list_omap app]. by rewrite Hu.
  - destruct (onTimeout_retry s p Ho Hp) as (s1 & Ht & Ho1 & Hp1 & Hr1 & Hm1 & _); [lia|].
    destruct (IH s1) as (s' & out & Hrun & Hs & Hterm & Hc); [lia | done | done | lia |].
    eexists s', _. split; [eapply seq_action_eq; [exact Ht | exact Hrun]|].
    rewrite sent_app, terminal_reports_app, Hs, Hterm. done.
Qed.

Lemma tftp_retry_bound_witness :
  exists s' out,
    run_timeouts 4 ((witness_session READ) <| lastSent := Some (buildAck 0) |>) = (s', out) /\
    sent out = replicate 3 (buildAck 0) /\
    terminal_reports out = [(STATUS_ERROR, None)] /\ closed s' = true.
Proof.
  refine (tftp_retry_bound ((witness_session READ) <| lastSent := Some (buildAck 0) |>) (buildAck 0) _ _ _);
    by vm_compute.
Defined.

(** ** Uploads *)

(** An upload that has received the first [n] blocks. *)
Record uploading (path : list (list Z)) (bs : Z) (sender : rinfo) (n : Z) (chunks : list (list Z))
  (s : TftpSession) : Prop := {
  up_open : open_session s;
  up_from : from_client s sender;
  up_type : transferType s = Some WRITE;
  up_path : writePath s = Some path;
  up_bs : blockSize s = bs;
  up_number : blockNumber s = wire_number n;
  up_chunks : writeChunks s = chunks
}.

Definition file_write (e : tftp_effect) : option (list (list Z) * list Z) :=
  match e with WriteFile path content _ => Some (path, content) | _ => None end.

Definition file_writes (out : list tftp_effect) := omap file_write out.

Definition pending_of (out : list tftp_effect) : list tftp_callback := concat (map callbacks_of out).

Lemma file_writes_app a b : file_writes (a ++ b) = file_writes a ++ file_writes b.
Proof. apply omap_app. Qed.

Lemma pending_of_app a b : pending_of (a ++ b) = pending_of a ++ pending_of b.
Proof. unfold pending_of. by rewrite map_app, concat_app. Qed.

Lemma run_messages_app a b sender s :
  run_messages (a ++ b) sender s = (run_messages a sender ;;; run_messages b sender) s.
Proof.
  revert s; induction a as [|m a IH]; intros s; cbn [app run_messages].
  - unfold seq_action, skip. cbn. by destruct (run_messages b sender s).
  - rewrite seq_action_assoc. unfold seq_action at 1 2. destruct (onSocketMessage m sender s) as [s1 o1].
    by rewrite IH.
Qed.

Lemma wire_number_next n : js_and (wire_number n + 1) 65535 = wire_number (n + 1).
Proof. rewrite js_and_wire. unfold wire_number. by rewrite Zplus_mod_idemp_l. Qed.

Lemma wire_number_succ_neq n : wire_number n <> wire_number (n + 1).
Proof. unfold wire_number. intros H. Z.div_mod_to_equations. lia. Qed.

Lemma handleWriteData_fields n d s :
  blockNumber s = wire_number n -> forall m,
  handleWriteData (buildData m d) 3 s =
  (if wire_number m =? wire_number (n + 1) then
     (assign (fun s => s <| writeChunks := writeChunks s ++ [d] |>
                         <| bytes := bytes s + blen d |> <| blockNumber := wire_number m |>) ;;;
      clearTimer ;;;
      assign (fun s => s <| retries := 0 |>) ;;;
      if blen d <? blockSize s then flushWriteFile (wire_number m)
      else
        sendPacket (buildAck (wire_number m)) true ;;;
        emitUpdate {| p_status := None; p_message := None; p_totalSize := None;
                      p_bytes := Some (bytes s + blen d); p_blocks := Some (wire_number m) |})
   else if wire_number m =? wire_number n then send_to_client (buildAck (wire_number m)) None
   else skip) s.
Proof.
  intros Hn m. destruct (data_fields m d) as (Hl & _ & Hv & Hd).
  unfold handleWriteData, get_this at 1. rewrite Hv, Hd, Hn, Hl, wire_number_next.
  change (3 =? opcode_value DATA) with true. decide_test (4 + blen d <? 4) false. reflexivity.
Qed.

Lemma upload_block path bs sender n chunks s d :
  uploading path bs sender n chunks s -> blen d = bs ->
  exists s' u, onSocketMessage (buildData (n + 1) d) sender s =
    (s', [Send (buildAck (wire_number (n + 1))) (ri_port sender) (ri_address sender) None; Update u]) /\
    p_status (u_patch u) = None /\ uploading path bs sender (n + 1) (chunks ++ [d]) s'.
Proof.
  intros [Ho Hf Ht Hp Hb Hn Hc] Hd. rewrite onSocketMessage_data by done.
  rewrite (handleWriteData_fields n) by done. rewrite Z.eqb_refl, Hb. decide_test (blen d <? bs) false.
  destruct Ho, Hf. open_state s. run_action. eexists _, _. split; [reflexivity|]. by repeat split.
Qed.

Lemma upload_last path bs sender n chunks s d :
  uploading path bs sender n chunks s -> blen d < bs ->
  exists s', onSocketMessage (buildData (n + 1) d) sender s =
    (s', [WriteFile path (concat (chunks ++ [d]))
            (CbWriteDone (wire_number (n + 1)) (concat (chunks ++ [d])))]) /\
    uploading path bs sender (n + 1) (chunks ++ [d]) s'.
Proof.
  intros [Ho Hf Ht Hp Hb Hn Hc] Hd. rewrite onSocketMessage_data by done.
  rewrite (handleWriteData_fields n) by done. rewrite Z.eqb_refl, Hb. decide_test (blen d <? bs) true.
  destruct Ho, Hf. open_state s. run_action. eexists _. split; [reflexivity|]. by repeat split.
Qed.

(** A repeated block only repeats its acknowledgement. *)
Lemma upload_duplicate path bs sender n chunks s d :
  uploading path bs sender n chunks s ->
  onSocketMessage (buildData n d) sender s =
  (s, [Send (buildAck (wire_number n)) (ri_port sender) (ri_address sender) None]).
Proof.
  intros [Ho Hf Ht Hp Hb Hn Hc]. rewrite onSocketMessage_data by done.
  rewrite (handleWriteData_fields n) by done.
  rewrite (proj2 (Z.eqb_neq _ _) (wire_number_succ_neq n)), Z.eqb_refl.
  destruct Hf as [Ha Hpo]. unfold send_to_client, get_this, emit. by rewrite Ha, Hpo.
Qed.

Lemma upload_duplicates path bs sender n chunks s d k :
  uploading path bs sender n chunks s ->
  exists out, run_messages (replicate k (buildData n d)) sender s = (s, out) /\
    file_writes out = [] /\ terminal_reports out = [] /\ pending_of out = [].
Proof.
  intros Hu. induction k as [|k (out & Hr & Hw & Ht & Hp)]; [by exists []|].
  eexists. split; [eapply seq_action_eq; [by eapply upload_duplicate | exact Hr]|].
  rewrite file_writes_app, terminal_reports_app, pending_of_app, Hw, Ht, Hp. done.
Qed.

(** What a client sends: each block once and then any number of times again. *)
Fixpoint upload_script (n : Z) (blocks : list (list Z * nat)) : list (list Z) :=
  match blocks with
  | [] => []
  | (d, again) :: tl => replicate (S again) (buildData n d) ++ upload_script (n + 1) tl
  end.

Lemma upload_blocks path bs sender blocks n chunks s :
  uploading path bs sender n chunks s -> Forall (fun b => blen b.1 = bs) blocks ->
  exists s' out, run_messages (upload_script (n + 1) blocks) sender s = (s', out) /\
    uploading path bs sender (n + blen blocks) (chunks ++ map fst blocks) s' /\
    file_writes out = [] /\ terminal_reports out = [] /\ pending_of out = [].
Proof.
  intros Hu Hb. revert n chunks s Hu. induction Hb as [|[d k] blocks Hd _ IH]; intros n chunks s Hu.
  - exists s, []. rewrite Z.add_0_r, app_nil_r. done.
  - destruct (upload_block _ _ _ _ _ _ d Hu Hd) as (s1 & u & Hm & Hst & Hu1).
    destruct (upload_duplicates _ _ _ _ _ _ d k Hu1) as (o1 & Hr1 & Hw1 & Ht1 & Hp1).
    destruct (IH _ _ _ Hu1) as (s' & o2 & Hr2 & Hu2 & Hw2 & Ht2 & Hp2).
    eexists s', _. cbn [upload_script replicate]. split.
    { eapply seq_action_eq; [exact Hm|]. rewrite run_messages_app.
      eapply seq_action_eq; [exact Hr1 | exact Hr2]. }
    rewrite !file_writes_app, !terminal_reports_app, !pending_of_app, Hw1, Ht1, Hp1, Hw2, Ht2, Hp2.
    rewrite <- app_assoc in Hu2. replace (n + blen ((d, k) :: blocks)) with (n + 1 + blen blocks) by blia.
    split_and!; [done | done | cbn; by rewrite Hst | done].
Qed.

(** The callback of a successful [fs.writeFile], and of the send it makes. *)
Lemma write_done_ok path bs sender n chunks s m content :
  uploading path bs sender n chunks s ->
  exists s1 s2 u, 
    write_done m content WriteOk s =
      (s1, [Send (buildAck m) (ri_port sender) (ri_address sender)
              (Some (CbComplete (msg_upload_done (blen content))))]) /\
    complete (msg_upload_done (blen content)) s1 = (s2, [Update u; CloseSocket; OnClose]) /\
    terminal_report (Update u) = Some (COMPLETED, Some (blen content)) /\ closed s2 = true.
Proof.
  intros [[] [] Ht Hp Hb Hn Hc]. open_state s. unfold write_done. run_action.
  eexists _, _, _. split; [reflexivity|]. run_action. split; [reflexivity|]. done.
Qed.

(** an upload stores what was sent, once.  A client sends blocks of [blockSize]
    bytes and then a shorter one, each possibly repeated any number of times, over
    any number of blocks (the 16-bit block number wraps around).  Then exactly one
    file write is requested, to the path of the session, with the blocks put
    together in order; nothing is reported meanwhile; and when the write succeeds
    the last block is acknowledged and the transfer ends with one report, COMPLETED
    with the number of bytes. *)
Theorem tftp_upload_stores path bs sender full last again s :
  uploading path bs sender 0 [] s ->
  Forall (fun b => blen b.1 = bs) full -> blen last < bs ->
  let content := concat (map fst full ++ [last]) in
  let n := wire_number (blen full + 1) in
  exists s' out, run_messages (upload_script 1 (full ++ [(last, again)])) sender s = (s', out) /\
    file_writes out = [(path, content)] /\ terminal_reports out = [] /\
    pending_of out = [CbWriteDone n content] /\
    exists s1 s2 u, 
      write_done n content WriteOk s' =
        (s1, [Send (buildAck n) (ri_port sender) (ri_address sender)
                (Some (CbComplete (msg_upload_done (blen content))))]) /\
      complete (msg_upload_done (blen content)) s1 = (s2, [Update u; CloseSocket; OnClose]) /\
      terminal_report (Update u) = Some (COMPLETED, Some (blen content)) /\ closed s2 = true.
Proof.
  intros Hu Hfull Hlast content n.
  destruct (upload_blocks _ _ _ _ 0 [] _ Hu Hfull) as (s1 & o1 & Hr1 & Hu1 & Hw1 & Ht1 & Hp1).
  destruct (upload_last _ _ _ _ _ _ last Hu1 Hlast) as (s2 & Hm2 & Hu2).
  destruct (upload_duplicates _ _ _ _ _ _ last again Hu2) as (o3 & Hr3 & Hw3 & Ht3 & Hp3).
  assert (forall bl i, upload_script i (bl ++ [(last, again)]) =
    upload_script i bl ++ replicate (S again) (buildData (i + blen bl) last)) as Happ.
  { induction bl as [|[d k] bl IH]; intros i; cbn [app upload_script].
    - by rewrite Z.add_0_r, app_nil_r.
    - rewrite IH, <- app_assoc, blen_cons. do 3 f_equal. replace (i + 1 + blen bl) with (i + (1 + blen bl)) by lia. done. }
  eexists s2, _. rewrite Happ, run_messages_app. cbn [replicate run_messages].
  replace (1 + blen full) with (0 + blen full + 1) by lia. split.
  { eapply seq_action_eq; [exact Hr1|]. eapply seq_action_eq; [exact Hm2 | exact Hr3]. }
  rewrite !file_writes_app, !terminal_reports_app, !pending_of_app, Hw1, Ht1, Hp1, Hw3, Ht3, Hp3.
  subst n content. split_and!; [done | done | done |]. eapply write_done_ok. exact Hu2.
Qed.

Lemma tftp_upload_stores_witness :
  exists s' out,
    run_messages (upload_script 1 [(js "firstblk", 1%nat); (js "end", 0%nat)]) witness_peer
      ((witness_session WRITE) <| writePath := Some [js "srv"; js "f"] |> <| blockSize := 8 |>) = (s', out) /\
    file_writes out = [([js "srv"; js "f"], js "firstblkend")].
Proof.
  destruct (tftp_upload_stores [js "srv"; js "f"] 8 witness_peer [(js "firstblk", 1%nat)] (js "end") 0
    ((witness_session WRITE) <| writePath := Some [js "srv"; js "f"] |> <| blockSize := 8 |>))
    as (s' & out & Hr & Hw & _).
  - by repeat split.
  - repeat constructor.
  - by vm_compute.
  - exists s', out. split; [exact Hr | exact Hw].
Defined.

(** ** Block numbers of a download beyond 65535 *)

(** What can happen to a session from outside once its file has been read. *)
Inductive tftp_event := EvMessage (msg : list Z) (sender : rinfo) | EvTimeout.

Definition event_ok (e : tftp_event) : Prop :=
  match e with EvMessage msg _ => bytes_ok msg | EvTimeout => True end.

Fixpoint run_events (evs : list tftp_event) : action :=
  match evs with
  | [] => skip
  | EvMessage msg sender :: tl => onSocketMessage msg sender ;;; run_events tl
  | EvTimeout :: tl => onTimeout ;;; run_events tl
  end.

(** The session waits for a block number no datagram can carry. *)
Definition stuck (s : TftpSession) : Prop :=
  closed s = true \/ transferType s = Some READ /\ expectOackAck s = false /\ 65536 <= blockNumber s.

Definition not_completed (out : list tftp_effect) : Prop :=
  Forall (fun r : TFTP_TRANSFER_STATUS * option Z => r.1 <> COMPLETED) (terminal_reports out).

Lemma fail_not_completed m s : stuck s -> stuck (fst (fail_transfer m s)) /\ not_completed (snd (fail_transfer m s)).
Proof.
  intros Hs. destruct s as [? ? ? [] ? ? ? ? ? ? ? ? ? ? ? ? ? ? ? ? ? ? []]; run_action;
    (split; [first [done | by left] | repeat constructor; done]).
Qed.

Lemma ack_bound msg : bytes_ok msg -> 4 <= blen msg -> be_value (subarray msg 2 4) < 65536.
Proof.
  intros Hb Hl. pose proof (be_value_bound (subarray msg 2 4) (bytes_ok_subarray _ _ _ Hb)) as H.
  rewrite blen_subarray in H by lia. apply H.
Qed.

Lemma stuck_message msg sender s :
  bytes_ok msg -> stuck s ->
  stuck (fst (onSocketMessage msg sender s)) /\ not_completed (snd (onSocketMessage msg sender s)).
Proof.
  intros Hb Hs. unfold onSocketMessage, get_this. destruct (closed s) eqn:Hc; [by split; [|constructor]|].
  case_if; [by split; [|constructor]|]. case_if; [by split; [|constructor]|].
  cbv zeta. case_if; [by apply fail_not_completed|].
  destruct Hs as [?|(Ht & He & Hn)]; [congruence|]. rewrite Ht.
  unfold handleReadAck, get_this. case_if; [split; [by right|constructor]|]. bool_hyps. rewrite He.
  pose proof (ack_bound msg Hb). 
  decide_test (be_value (subarray msg 2 4) =? blockNumber s) false. split; [by right|constructor].
Qed.

Lemma stuck_timeout s : stuck s -> stuck (fst (onTimeout s)) /\ not_completed (snd (onTimeout s)).
Proof.
  intros Hs. unfold onTimeout, get_this. destruct (closed s) eqn:Hc; [by split; [|constructor]|].
  case_if; [by apply fail_not_completed|].
  destruct (lastSent s); [destruct (socket s)|]; open_state s; run_action;
    (split; [done | constructor]).
Qed.

Lemma stuck_events evs s :
  Forall event_ok evs -> stuck s -> not_completed (snd (run_events evs s)).
Proof.
  intros He. revert s; induction He as [|e evs He _ IH]; intros s Hs; [constructor|].
  assert (exists a, run_events (e :: evs) = (a ;;; run_events evs) /\ stuck (fst (a s)) /\ not_completed (snd (a s)))
    as (a & -> & Hst & Hnc).
  { destruct e as [msg sender|]; eexists; (split; [reflexivity|]); [by apply stuck_message | by apply stuck_timeout]. }
  specialize (IH _ Hst). unfold seq_action, not_completed in *.
  destruct (a s) as [s1 o1]. cbn [fst snd] in *. destruct (run_events evs s1) as [s2 o2]. cbn [snd] in *.
  rewrite terminal_reports_app. by apply Forall_app.
Qed.

(** a download of more than 65535 blocks never completes.  When the client
    acknowledges block 65535 of a longer file, the session sends block 65536 under
    the wire number 0 and then compares acknowledgements with 65536: whatever
    datagrams and timeouts follow, the transfer is never reported COMPLETED. *)
Theorem tftp_rollover_never_completes data bs sender s evs :
  downloading data bs sender s -> expectOackAck s = false -> blockNumber s = 65535 ->
  65535 < finalBlock s -> Forall event_ok evs ->
  exists s' out, onSocketMessage (buildAck 65535) sender s = (s', out) /\
    data_payloads out = [block_of data bs 65536] /\
    not_completed (snd (run_events evs s')).
Proof.
  intros Hd He Hn Hf Hev.
  destruct (ack_next data bs sender s 65535) as (s' & u & Hm & Hu & Hd' & Hn' & He'); [done..|].
  eexists s', _. split; [exact Hm|]. split.
  - unfold data_payloads. cbn [omap list_omap]. by rewrite data_payload_data.
  - apply stuck_events; [done|]. right. destruct Hd' as [_ _ Ht _ _ _ _ _]. split_and!; [done | done | lia].
Qed.

Lemma downloading_any data bs sender s n :
  downloading data bs sender s -> downloading data bs sender (s <| blockNumber := n |>).
Proof. intros [[] []]. open_state s. by repeat split. Qed.

Lemma finalBlock_loaded s data bs tm n :
  finalBlock ((loaded s data bs tm) <| blockNumber := n |>) = blen data / bs + 1.
Proof. reflexivity. Qed.

(** A file of 65536 blocks of eight bytes. *)
Definition witness_long_file : buffer := alloc (65536 * 8).

Lemma tftp_rollover_never_completes_witness :
  exists s' out, onSocketMessage (buildAck 65535) witness_peer
      ((loaded (witness_session READ) witness_long_file 8 3000) <| blockNumber := 65535 |>) = (s', out) /\
    data_payloads out = [block_of witness_long_file 8 65536] /\
    not_completed (snd (run_events [EvMessage (buildAck 65536) witness_peer; EvTimeout] s')).
Proof.
  refine (tftp_rollover_never_completes witness_long_file 8 witness_peer _ _ _ _ _ _ _).
  - apply downloading_any, loaded_downloading; by repeat split.
  - reflexivity.
  - reflexivity.
  - rewrite finalBlock_loaded. unfold witness_long_file. rewrite blen_alloc by lia. reflexivity.
  - repeat constructor; by vm_compute.
Defined.

(** ** Access to the file system *)

(** [p] is a file below the directory [root]. *)
Definition below_root (root p : list (list Z)) : Prop :=
  exists rest, p = root ++ rest /\ rest <> [] /\ Forall plain_segment rest.

Lemma resolveSafePath_below cwd c name p :
  Forall plain_segment cwd -> resolveSafePath cwd c name = Some p ->
  below_root (path_resolve cwd (rootDir c)) p.
Proof.
  intros Hcwd. unfold resolveSafePath, path_relative. set (root := path_resolve cwd (rootDir c)).
  set (target := path_resolve_from root (relative_name name)).
  assert (Forall plain_segment root) as Hroot by by apply path_resolve_plain.
  assert (Forall plain_segment target) as Htarget by by apply path_resolve_plain.
  destruct (relative_segments_inv root target) as [(rest & Heq & Hr)|(tl & Hr)]; rewrite Hr.
  - case_if; [done|]. intros [= <-]. exists rest. bool_hyps. split; [done|]. split.
    + intros ->. done.
    + rewrite Heq in Htarget. by apply Forall_app in Htarget as [_ ?].
  - destruct (join_slash_head dotdot_segment tl) as [t ->]. by rewrite startsWith_app, orb_true_r.
Qed.

Definition access_ok (root : list (list Z)) (c : tftp_config) (e : tftp_effect) : Prop :=
  match e with
  | ReadFile p _ => allowRead c = true /\ below_root root p
  | WriteFile p _ _ => allowWrite c = true /\ below_root root p
  | _ => True
  end.

Section Access.
Context (cwd : list (list Z)) (c : tftp_config) (Hcwd : Forall plain_segment cwd).

#[local] Abbreviation root := (path_resolve cwd (rootDir c)) (only parsing).

Definition path_ok (s : TftpSession) : Prop :=
  config s = c /\ forall p, writePath s = Some p -> allowWrite c = true /\ below_root root p.

Definition guarded (a : action) (s : TftpSession) : Prop :=
  path_ok s -> path_ok (fst (a s)) /\ Forall (access_ok root c) (snd (a s)).

Lemma guarded_seq a b s : guarded a s -> guarded b (fst (a s)) -> guarded (a ;;; b) s.
Proof.
  unfold guarded, seq_action. intros Ha Hb Hp. destruct (Ha Hp) as [Hp1 He1]. destruct (Hb Hp1) as [Hp2 He2].
  destruct (a s) as [s1 o1]. cbn [fst snd] in *. destruct (b s1) as [s2 o2]. cbn [fst snd] in *.
  split; [done | by apply Forall_app].
Qed.

Lemma guarded_this k s : guarded (k s) s -> guarded (get_this k) s.
Proof. done. Qed.

Lemma guarded_assign f s : config (f s) = config s -> writePath (f s) = writePath s -> guarded (assign f) s.
Proof. intros Hc Hw Hp. unfold path_ok, assign in *. cbn. rewrite Hc, Hw. by split; [|constructor]. Qed.

Lemma guarded_emit e s : access_ok root c e -> guarded (emit e) s.
Proof. intros He Hp. split; [done | by repeat constructor]. Qed.

Lemma guarded_skip s : guarded skip s.
Proof. intros Hp. by split; [|constructor]. Qed.

Lemma guarded_negotiate opts size k s :
  (forall accepted s', guarded (k accepted) s') -> guarded (negotiateOptions opts size k) s.
Proof.
  intros Hk. unfold negotiateOptions. apply guarded_this.
  destruct (negotiate _ _ _ _) as [[accepted bs] tm]. apply guarded_seq; [by apply guarded_assign | done].
Qed.

Lemma guarded_flush b s : guarded (flushWriteFile b) s.
Proof.
  unfold flushWriteFile. apply guarded_this. cbv zeta. destruct (writePath s) as [p|] eqn:Hw.
  - intros [Hc Hp]. split; [by split|]. apply Forall_singleton. by apply Hp.
  - by apply guarded_emit.
Qed.

#[local] Hint Resolve guarded_skip guarded_flush : orderly.

(** Every part is guarded in whatever state the parts before it leave. *)
Ltac guarded_step :=
  lazymatch goal with
  | |- guarded (get_this _) _ => apply guarded_this
  | |- guarded (seq_action ?a _) ?s =>
      apply guarded_seq; [|generalize (fst (a s)); let s' := fresh "s" in intros s']
  | |- guarded (assign _) _ => by apply guarded_assign
  | |- guarded (emit _) _ => by apply guarded_emit
  | |- guarded (negotiateOptions _ _ _) _ => apply guarded_negotiate; intros
  | |- guarded (if ?b then _ else _) _ => destruct b
  | |- guarded (match ?x with _ => _ end) _ => destruct x
  | |- guarded _ _ => by auto with orderly
  end.

Ltac guarded_auto := cbv zeta; repeat (guarded_step; cbv zeta).

Lemma guarded_report patch s : guarded (emitUpdate patch) s.
Proof. unfold emitUpdate. guarded_auto. Qed.

Lemma guarded_clearTimer s : guarded clearTimer s.
Proof. by apply guarded_assign. Qed.

Lemma guarded_armTimer s : guarded armTimer s.
Proof. by apply guarded_assign. Qed.

Lemma guarded_send p cb s : guarded (send_to_client p cb) s.
Proof. unfold send_to_client. guarded_auto. Qed.

#[local] Hint Resolve guarded_report guarded_clearTimer guarded_armTimer guarded_send : orderly.

Lemma guarded_cleanup s : guarded cleanup s.
Proof. unfold cleanup. guarded_auto. Qed.

#[local] Hint Resolve guarded_cleanup : orderly.

Lemma guarded_fail m s : guarded (fail_transfer m) s.
Proof. unfold fail_transfer. guarded_auto. Qed.

Lemma guarded_complete m s : guarded (complete m) s.
Proof. unfold complete. guarded_auto. Qed.

#[local] Hint Resolve guarded_fail guarded_complete : orderly.

Lemma guarded_sendError e m s : guarded (sendError e m) s.
Proof. unfold sendError. guarded_auto. Qed.

Lemma guarded_sendPacket p r s : guarded (sendPacket p r) s.
Proof. unfold sendPacket. guarded_auto. Qed.

#[local] Hint Resolve guarded_sendError guarded_sendPacket : orderly.

Lemma guarded_sendDataBlock n s : guarded (sendDataBlock n) s.
Proof. unfold sendDataBlock. guarded_auto. Qed.

#[local] Hint Resolve guarded_sendDataBlock : orderly.

Lemma guarded_onTimeout s : guarded onTimeout s.
Proof. unfold onTimeout. guarded_auto. Qed.

Lemma guarded_read_done opts r s : guarded (read_done opts r) s.
Proof. unfold read_done. guarded_auto. Qed.

Lemma guarded_write_done b content r s : guarded (write_done b content r) s.
Proof. unfold write_done. guarded_auto. Qed.

Lemma guarded_handleReadAck msg op s : guarded (handleReadAck msg op) s.
Proof. unfold handleReadAck. guarded_auto. Qed.

Lemma guarded_handleWriteData msg op s : guarded (handleWriteData msg op) s.
Proof. unfold handleWriteData. guarded_auto. Qed.

#[local] Hint Resolve guarded_handleReadAck guarded_handleWriteData : orderly.

Lemma guarded_onSocketMessage msg sender s : guarded (onSocketMessage msg sender) s.
Proof. unfold onSocketMessage. guarded_auto. Qed.

Lemma guarded_beginRead name opts s : guarded (beginRead cwd name opts) s.
Proof.
  unfold beginRead. apply guarded_this. case_if; [apply guarded_sendError|].
  destruct (resolveSafePath _ _ _) as [p|] eqn:Hr; [|apply guarded_sendError].
  bool_hyps. intros [Hc Hp]. split; [done|]. apply Forall_singleton. split; [congruence|].
  rewrite Hc in Hr. by eapply resolveSafePath_below.
Qed.

Lemma guarded_beginWrite name opts s : guarded (beginWrite cwd name opts) s.
Proof.
  unfold beginWrite. apply guarded_this. case_if; [apply guarded_sendError|].
  destruct (resolveSafePath _ _ _) as [p|] eqn:Hr; [|apply guarded_sendError]. bool_hyps.
  apply guarded_seq; [|guarded_auto].
  intros [Hc Hp]. split; [|constructor]. split; [done|]. intros p' [= <-]. split; [congruence|].
  rewrite Hc in Hr. by eapply resolveSafePath_below.
Qed.

Lemma guarded_bound opcode name opts s : guarded (bound cwd opcode name opts) s.
Proof.
  unfold bound. destruct opcode; (apply guarded_seq; [by apply guarded_assign|]);
    auto using guarded_beginRead, guarded_beginWrite.
Qed.

Lemma guarded_callback cb v a s : run_callback cwd cb v = Some a -> guarded a s.
Proof.
  destruct cb, v; cbn; intros [= <-];
    auto using guarded_bound, guarded_read_done, guarded_write_done, guarded_fail, guarded_complete.
Qed.

Lemma reachable_access w :
  tftp_reachable cwd c w -> path_ok (w_session w) /\ Forall (access_ok root c) (w_log w).
Proof.
  induction 1 as [opcode request sender|w w' _ [Hp Hl] Hs].
  - split; [by split | cbn; by repeat constructor].
  - assert (exists a pending, guarded a (w_session w) /\ w' = apply_action a pending w) as (a & pending & Ha & ->).
    { destruct Hs; eauto 10 using guarded_onSocketMessage, guarded_fail, guarded_onTimeout, guarded_callback,
        guarded_cleanup. }
    destruct (Ha Hp) as [Hp1 He1]. unfold apply_action. destruct (a (w_session w)) as [s1 o1].
    cbn [w_session w_log fst snd] in *. split; [done | by apply Forall_app].
Qed.
End Access.

(** C11: a transfer touches only files below the configured directory, and only as
    far as the configuration allows.  In every reachable state of a session, each
    file it has asked to read lies strictly below [rootDir] and reading is allowed;
    each file it has asked to write lies strictly below [rootDir] and writing is
    allowed; whatever name, options and datagrams the client sends. *)
Theorem tftp_access_confined cwd c w :
  Forall plain_segment cwd -> tftp_reachable cwd c w ->
  Forall (access_ok (path_resolve cwd (rootDir c)) c) (w_log w).
Proof. intros Hcwd Hw. by apply reachable_access. Qed.

(** A read request for [../etc/passwd] whose socket has been bound. *)
Definition witness_request : buffer := [0; 1] ++ js "../etc/passwd" ++ [0] ++ js "octet" ++ [0].

Definition witness_bound_world : tftp_world :=
  apply_action (bound [] RRQ (Some (js "../etc/passwd")) [])
    [] (tftp_init witness_config RRQ witness_request witness_peer).

Lemma tftp_access_confined_witness :
  Forall (access_ok (path_resolve [] (rootDir witness_config)) witness_config) (w_log witness_bound_world).
Proof.
  refine (tftp_access_confined [] witness_config witness_bound_world _ _); [constructor|].
  eapply reach_step; [apply (reach_init [] witness_config RRQ witness_request witness_peer)|].
  by apply (step_callback [] _ [] (CbBound RRQ (Some (js "../etc/passwd")) []) [] NoValue).
Defined.

(** The last block can be acknowledged before it is stored.  When the client
    repeats the last block while the file write it caused is still pending, the
    session acknowledges that block at once, although the write has not finished and
    may still fail. *)
Theorem tftp_last_block_acked_early path bs sender n chunks s last :
  uploading path bs sender n chunks s -> blen last < bs ->
  exists s' out,
    run_messages [buildData (n + 1) last; buildData (n + 1) last] sender s = (s', out) /\
    sent out = [buildAck (wire_number (n + 1))] /\
    pending_of out = [CbWriteDone (wire_number (n + 1)) (concat (chunks ++ [last]))] /\
    closed s' = false.
Proof.
  intros Hu Hlast. destruct (upload_last _ _ _ _ _ _ last Hu Hlast) as (s1 & Hm & Hu1).
  eexists s1, _. split.
  { eapply seq_action_eq; [exact Hm|]. eapply seq_action_eq; [by eapply upload_duplicate | reflexivity]. }
  split_and!; [done | done |]. by destruct Hu1 as [[? ?] _ _ _ _ _ _].
Qed.

Lemma tftp_last_block_acked_early_witness :
  exists s' out,
    run_messages [buildData 1 (js "end"); buildData 1 (js "end")] witness_peer
      ((witness_session WRITE) <| writePath := Some [js "srv"; js "f"] |>) = (s', out) /\
    sent out = [buildAck 1] /\ pending_of out = [CbWriteDone 1 (js "end")] /\ closed s' = false.
Proof.
  refine (tftp_last_block_acked_early [js "srv"; js "f"] 512 witness_peer 0 []
    ((witness_session WRITE) <| writePath := Some [js "srv"; js "f"] |>) (js "end") _ _).
  - by repeat split.
  - by vm_compute.
Defined.
