(* ===== verification/RpkiStore.v ===== *)
(** The RPKI data set: its records ([electron/worker/rpki/rpkiRoa.js], [rpkiAspa.js],
    [rpkiRouterKey.js]) and its SQLite store ([electron/worker/rpki/rpkiSqliteStore.js]).

    A table is the list of its rows in the order of the primary key; a prepared SQL
    statement is the list operation it performs.  A transaction is a function that
    returns the new tables or throws, in which case the tables are unchanged.  The
    inputs are values that have passed the normalizers of the import utilities
    ([None] is a value they reject). *)

From stdpp Require Import base list numbers strings option.
From Stdlib Require Import ZArith Lia.
From S2P Require Import Prelude.

Local Open Scope Z_scope.
Local Open Scope js_scope.

(** ** Records *)

Record rpki_roa := { ip : jsstring; mask : Z; asn : Z; maxLength : Z; ipType : Z }.
Record rpki_aspa := { customerAsn : Z; providerAsns : list Z; afiFlags : Z }.
Record rpki_router_key := { ski : jsstring; rk_asn : Z; spki : jsstring }.

#[global] Instance rpki_roa_eq_dec : EqDecision rpki_roa.
Proof. solve_decision. Defined.
#[global] Instance rpki_aspa_eq_dec : EqDecision rpki_aspa.
Proof. solve_decision. Defined.
#[global] Instance rpki_router_key_eq_dec : EqDecision rpki_router_key.
Proof. solve_decision. Defined.

(** [RpkiRouterKey.makeKey] *)
Definition router_key_makeKey (k : rpki_router_key) : jsstring :=
  ski k ++ js "|" ++ js_number_to_string (rk_asn k).

Definition UINT32_MAX : Z := 4294967295.

Definition UNIQUE_roa (a b : rpki_roa) : bool :=
  bool_decide (ip a = ip b) && (mask a =? mask b) && (asn a =? asn b) && (maxLength a =? maxLength b).

(** The [CHECK] constraints of [rpki_roas] and [rpki_aspas]. *)
Definition CHECK_roa (r : rpki_roa) : bool :=
  ((ipType r =? 1) || (ipType r =? 2)) && (0 <=? mask r) && (mask r <=? 128)
  && (0 <=? asn r) && (asn r <=? UINT32_MAX) && (mask r <=? maxLength r) && (maxLength r <=? 128).

Definition CHECK_aspa (a : rpki_aspa) : bool :=
  (0 <=? customerAsn a) && (customerAsn a <=? UINT32_MAX)
  && ((afiFlags a =? 1) || (afiFlags a =? 2) || (afiFlags a =? 3)).

(** ** Tables *)

Record rpki_db := {
  rpki_roas : list rpki_roa;
  rpki_aspas : list rpki_aspa;
  roa_count : Z;
  aspa_count : Z;
  cache_serial : Z
}.

#[export] Instance rpki_db_rebuild : Rebuild rpki_db := fun d => {|
  rpki_roas := rpki_roas d; rpki_aspas := rpki_aspas d; roa_count := roa_count d;
  aspa_count := aspa_count d; cache_serial := cache_serial d |}.

(** The state row and empty tables of a new database. *)
Definition initializeSchema : rpki_db := {|
  rpki_roas := []; rpki_aspas := []; roa_count := 0; aspa_count := 0; cache_serial := 1 |}.

Definition stmt_getRoa (r : rpki_roa) (d : rpki_db) : option rpki_roa :=
  snd <$> list_find (fun x => UNIQUE_roa r x = true) (rpki_roas d).

(** [INSERT OR IGNORE]: the number of rows changed. *)
Definition stmt_insertRoa (r : rpki_roa) (d : rpki_db) : rpki_db * Z :=
  if CHECK_roa r && negb (existsb (UNIQUE_roa r) (rpki_roas d))
  then (d <| rpki_roas := rpki_roas d ++ [r] |>, 1)
  else (d, 0).

Definition stmt_deleteRoa (r : rpki_roa) (d : rpki_db) : rpki_db :=
  d <| rpki_roas := List.filter (fun x => negb (UNIQUE_roa r x)) (rpki_roas d) |>.

Definition stmt_getAspa (asn : Z) (d : rpki_db) : option rpki_aspa :=
  snd <$> list_find (fun x => customerAsn x = asn) (rpki_aspas d).

(** [INSERT] fails on a violated constraint. *)
Definition stmt_insertAspa (a : rpki_aspa) (d : rpki_db) : result rpki_db :=
  if CHECK_aspa a then Ok (d <| rpki_aspas := rpki_aspas d ++ [a] |>)
  else Throw (ErrorCode "SQLITE_CONSTRAINT_CHECK").

Definition stmt_updateAspa (a : rpki_aspa) (d : rpki_db) : result rpki_db :=
  if CHECK_aspa a then
    Ok (d <| rpki_aspas := map (fun x => if customerAsn x =? customerAsn a then a else x) (rpki_aspas d) |>)
  else Throw (ErrorCode "SQLITE_CONSTRAINT_CHECK").

Definition stmt_deleteAspa (asn : Z) (d : rpki_db) : rpki_db :=
  d <| rpki_aspas := List.filter (fun x => negb (customerAsn x =? asn)) (rpki_aspas d) |>.

(** ** Store operations *)

Definition getCacheSerial (d : rpki_db) : Z := to_uint32 (cache_serial d).

Definition bumpCacheSerialInTransaction (d : rpki_db) : rpki_db * Z :=
  let current := getCacheSerial d in
  let next := if UINT32_MAX <=? current then 0 else current + 1 in
  (d <| cache_serial := next |>, to_uint32 next).

Definition normalizeRoaInput (v : option rpki_roa) : result rpki_roa :=
  match v with
  | Some r => Ok r
  | None => Throw (ErrorMsg "Invalid RPKI ROA prefix, mask, ASN, or max length")
  end.

Definition normalizeAspaInput (v : option rpki_aspa) : result rpki_aspa :=
  match v with
  | Some a => Ok a
  | None => Throw (ErrorMsg "Invalid RPKI ASPA Customer ASN, Provider ASN list, or AFI flags")
  end.

(** The result of an operation, as far as its callers use it. *)
Record store_result (A : Type) := {
  changes : Z;
  r_previous : option A;
  r_current : option A;
  r_total : Z;
  r_cacheSerial : Z
}.
Arguments changes {A}.
Arguments r_previous {A}.
Arguments r_current {A}.
Arguments r_total {A}.
Arguments r_cacheSerial {A}.

Definition addRoaInTransaction (value : option rpki_roa) (d : rpki_db)
  : result (rpki_db * store_result rpki_roa) :=
  let! roa := normalizeRoaInput value in
  let '(d, n) := stmt_insertRoa roa d in
  let cacheSerial := getCacheSerial d in
  let '(d, cacheSerial) :=
    if 0 <? n then bumpCacheSerialInTransaction (d <| roa_count := roa_count d + 1 |>)
    else (d, cacheSerial) in
  Ok (d, {| changes := n; r_previous := None; r_current := Some roa; r_total := roa_count d;
            r_cacheSerial := cacheSerial |}).

(** The loop of the batch insertion: how many rows were inserted. *)
Fixpoint insert_roas (values : list (option rpki_roa)) (maximumInserted inserted : Z) (d : rpki_db)
  : result (rpki_db * Z) :=
  match values with
  | [] => Ok (d, inserted)
  | value :: tl =>
    if maximumInserted <=? inserted then Ok (d, inserted)
    else
      let! roa := normalizeRoaInput value in
      let '(d, n) := stmt_insertRoa roa d in
      insert_roas tl maximumInserted (if 0 <? n then inserted + 1 else inserted) d
  end.

Definition addRoaBatchInTransaction (values : list (option rpki_roa)) (maxInserted : option Z) (d : rpki_db)
  : result (rpki_db * store_result rpki_roa) :=
  let maximumInserted :=
    match maxInserted with None => max_safe_integer | Some n => Z.max 0 n end in
  let! (d, inserted) := insert_roas values maximumInserted 0 d in
  let cacheSerial := getCacheSerial d in
  let '(d, cacheSerial) :=
    if 0 <? inserted then bumpCacheSerialInTransaction (d <| roa_count := roa_count d + inserted |>)
    else (d, cacheSerial) in
  Ok (d, {| changes := inserted; r_previous := None; r_current := None; r_total := roa_count d;
            r_cacheSerial := cacheSerial |}).

Definition deleteRoaInTransaction (value : option rpki_roa) (d : rpki_db)
  : result (rpki_db * store_result rpki_roa) :=
  let! roa := normalizeRoaInput value in
  match stmt_getRoa roa d with
  | None =>
    Ok (d, {| changes := 0; r_previous := None; r_current := None; r_total := roa_count d;
              r_cacheSerial := getCacheSerial d |})
  | Some row =>
    let d := stmt_deleteRoa roa d in
    let d := d <| roa_count := roa_count d - 1 |> in
    let '(d, cacheSerial) := bumpCacheSerialInTransaction d in
    Ok (d, {| changes := 1; r_previous := Some row; r_current := None; r_total := roa_count d;
              r_cacheSerial := cacheSerial |})
  end.

Definition clearRoasInTransaction (d : rpki_db) : rpki_db * store_result rpki_roa :=
  let deleted := roa_count d in
  let '(d, cacheSerial) :=
    if 0 <? deleted then
      bumpCacheSerialInTransaction (d <| rpki_roas := [] |> <| roa_count := 0 |>)
    else (d, getCacheSerial d) in
  (d, {| changes := deleted; r_previous := None; r_current := None; r_total := 0;
         r_cacheSerial := cacheSerial |}).

Definition upsertAspaInTransaction (value : option rpki_aspa) (bumpSerial : bool) (d : rpki_db)
  : result (rpki_db * store_result rpki_aspa) :=
  let! aspa := normalizeAspaInput value in
  let previous := stmt_getAspa (customerAsn aspa) d in
  let identical :=
    match previous with
    | Some p => bool_decide (providerAsns p = providerAsns aspa) && (afiFlags p =? afiFlags aspa)
    | None => false
    end in
  if identical then
    Ok (d, {| changes := 0; r_previous := previous; r_current := Some aspa; r_total := aspa_count d;
              r_cacheSerial := getCacheSerial d |})
  else
    let! d :=
      match previous with
      | Some _ => stmt_updateAspa aspa d
      | None =>
        let! d := stmt_insertAspa aspa d in
        Ok (d <| aspa_count := aspa_count d + 1 |>)
      end in
    let '(d, cacheSerial) :=
      if bumpSerial then bumpCacheSerialInTransaction d else (d, getCacheSerial d) in
    Ok (d, {| changes := 1; r_previous := previous; r_current := Some aspa; r_total := aspa_count d;
              r_cacheSerial := cacheSerial |}).

Fixpoint upsert_aspas (values : list (option rpki_aspa)) (changed : Z) (d : rpki_db) : result (rpki_db * Z) :=
  match values with
  | [] => Ok (d, changed)
  | value :: tl =>
    let! (d, r) := upsertAspaInTransaction value false d in
    upsert_aspas tl (changed + changes r) d
  end.

Definition upsertAspaBatchInTransaction (values : list (option rpki_aspa)) (d : rpki_db)
  : result (rpki_db * store_result rpki_aspa) :=
  let! (d, changed) := upsert_aspas values 0 d in
  let '(d, cacheSerial) :=
    if 0 <? changed then bumpCacheSerialInTransaction d else (d, getCacheSerial d) in
  Ok (d, {| changes := changed; r_previous := None; r_current := None; r_total := aspa_count d;
            r_cacheSerial := cacheSerial |}).

(** [normalizeCustomerAsn] on a number. *)
Definition normalizeCustomerAsn (n : Z) : result Z :=
  if (0 <=? n) && (n <=? UINT32_MAX) then Ok n
  else Throw (ErrorMsg "Invalid RPKI ASPA Customer ASN").

Definition deleteAspaInTransaction (value : Z) (d : rpki_db) : result (rpki_db * store_result rpki_aspa) :=
  let! asn := normalizeCustomerAsn value in
  match stmt_getAspa asn d with
  | None =>
    Ok (d, {| changes := 0; r_previous := None; r_current := None; r_total := aspa_count d;
              r_cacheSerial := getCacheSerial d |})
  | Some row =>
    let d := stmt_deleteAspa asn d in
    let d := d <| aspa_count := aspa_count d - 1 |> in
    let '(d, cacheSerial) := bumpCacheSerialInTransaction d in
    Ok (d, {| changes := 1; r_previous := Some row; r_current := None; r_total := aspa_count d;
              r_cacheSerial := cacheSerial |})
  end.

Definition clearAspasInTransaction (d : rpki_db) : rpki_db * store_result rpki_aspa :=
  let deleted := aspa_count d in
  let '(d, cacheSerial) :=
    if 0 <? deleted then
      bumpCacheSerialInTransaction (d <| rpki_aspas := [] |> <| aspa_count := 0 |>)
    else (d, getCacheSerial d) in
  (d, {| changes := deleted; r_previous := None; r_current := None; r_total := 0;
         r_cacheSerial := cacheSerial |}).

(** ** Imports *)

(** The temporary tables of an import, in the order of [stage_id].  They have no [CHECK] constraints. *)
Record import_stage := { roa_stage : list rpki_roa; aspa_stage : list rpki_aspa }.

#[export] Instance import_stage_rebuild : Rebuild import_stage := fun s => {|
  roa_stage := roa_stage s; aspa_stage := aspa_stage s |}.

Record rpki_store := { database : rpki_db; stage : import_stage }.

(** [INSERT OR IGNORE INTO temp.rpki_roa_import_stage] *)
Definition stmt_insertRoaStage (r : rpki_roa) (s : import_stage) : import_stage * Z :=
  if existsb (UNIQUE_roa r) (roa_stage s) then (s, 0) else (s <| roa_stage := roa_stage s ++ [r] |>, 1).

(** The staged rows that are not in the table. *)
Definition roa_candidates (st : rpki_store) : list rpki_roa :=
  List.filter (fun r => negb (existsb (UNIQUE_roa r) (rpki_roas (database st)))) (roa_stage (stage st)).

Record stage_result := { processed : Z; staged : Z; skipped : Z; candidates : option Z }.

Fixpoint stage_roas (values : list (option rpki_roa)) (processed staged skipped : Z) (s : import_stage)
  : result (import_stage * (Z * Z * Z)) :=
  match values with
  | [] => Ok (s, (processed, staged, skipped))
  | value :: tl =>
    let! roa := normalizeRoaInput value in
    let '(s, n) := stmt_insertRoaStage roa s in
    if 0 <? n then stage_roas tl (processed + 1) (staged + 1) skipped s
    else stage_roas tl (processed + 1) staged (skipped + 1) s
  end.

Definition stageRoaBatchInTransaction (values : list (option rpki_roa)) (countCandidates : bool) (st : rpki_store)
  : result (rpki_store * stage_result) :=
  let! (s, n) := stage_roas values 0 0 0 (stage st) in
  let st := {| database := database st; stage := s |} in
  let '(p, a, b) := n in
  Ok (st, {| processed := p; staged := a; skipped := b;
             candidates := if countCandidates then Some (blen (roa_candidates st)) else None |}).

(** [commitRoaStage] with its [LIMIT], which is none if negative. *)
Definition stmt_commitRoaStage (limit : Z) (st : rpki_store) : result (rpki_db * Z) :=
  let rows := if limit <? 0 then roa_candidates st else take (Z.to_nat limit) (roa_candidates st) in
  if forallb CHECK_roa rows then Ok ((database st) <| rpki_roas := rpki_roas (database st) ++ rows |>, blen rows)
  else Throw (ErrorCode "SQLITE_CONSTRAINT_CHECK").

Record roa_import_result := { i_staged : Z; i_candidates : Z; i_inserted : Z; i_ignoredByLimit : Z; i_total : Z; i_cacheSerial : Z }.

(** [maxInserted] is its floor. *)
Definition commitRoaImportInTransaction (maxInserted : option Z) (st : rpki_store) : result (rpki_store * roa_import_result) :=
  let maximumInserted := match maxInserted with None => -1 | Some n => Z.max 0 n end in
  let staged := blen (roa_stage (stage st)) in
  let candidates := blen (roa_candidates st) in
  let! (d, inserted) := if maximumInserted =? 0 then Ok (database st, 0) else stmt_commitRoaStage maximumInserted st in
  let cacheSerial := getCacheSerial d in
  let '(d, cacheSerial) :=
    if 0 <? inserted then bumpCacheSerialInTransaction (d <| roa_count := roa_count d + inserted |>)
    else (d, cacheSerial) in
  Ok ({| database := d; stage := (stage st) <| roa_stage := [] |> |},
      {| i_staged := staged; i_candidates := candidates; i_inserted := inserted; i_ignoredByLimit := Z.max 0 (candidates - inserted);
         i_total := roa_count d; i_cacheSerial := cacheSerial |}).

(** [INSERT ... ON CONFLICT(customer_asn) DO UPDATE] *)
Definition stmt_upsertAspaStage (a : rpki_aspa) (s : import_stage) : import_stage :=
  if existsb (fun x => customerAsn x =? customerAsn a) (aspa_stage s)
  then s <| aspa_stage := map (fun x => if customerAsn x =? customerAsn a then a else x) (aspa_stage s) |>
  else s <| aspa_stage := aspa_stage s ++ [a] |>.

Fixpoint stage_aspas (values : list (option rpki_aspa)) (processed : Z) (s : import_stage) : result (import_stage * Z) :=
  match values with
  | [] => Ok (s, processed)
  | value :: tl =>
    let! aspa := normalizeAspaInput value in
    stage_aspas tl (processed + 1) (stmt_upsertAspaStage aspa s)
  end.

Definition stageAspaBatchInTransaction (values : list (option rpki_aspa)) (st : rpki_store)
  : result (rpki_store * stage_result) :=
  let! (s, n) := stage_aspas values 0 (stage st) in
  Ok ({| database := database st; stage := s |}, {| processed := n; staged := blen (aspa_stage s); skipped := 0; candidates := None |}).

Definition new_aspa (d : rpki_db) (a : rpki_aspa) : bool := negb (bool_decide (is_Some (stmt_getAspa (customerAsn a) d))).

Definition changed_aspa (d : rpki_db) (a : rpki_aspa) : bool :=
  match stmt_getAspa (customerAsn a) d with
  | None => true
  | Some current => negb (bool_decide (providerAsns current = providerAsns a)) || negb (afiFlags current =? afiFlags a)
  end.

Fixpoint stmt_commitAspaStage (rows : list rpki_aspa) (d : rpki_db) : result rpki_db :=
  match rows with
  | [] => Ok d
  | a :: tl =>
    let! d := match stmt_getAspa (customerAsn a) d with Some _ => stmt_updateAspa a d | None => stmt_insertAspa a d end in
    stmt_commitAspaStage tl d
  end.

Record aspa_import_result := { a_staged : Z; a_inserted : Z; a_overwritten : Z; a_changed : Z; a_skipped : Z; a_total : Z; a_cacheSerial : Z }.

Definition commitAspaImportInTransaction (st : rpki_store) : result (rpki_store * aspa_import_result) :=
  let d := database st in
  let staged := blen (aspa_stage (stage st)) in
  let inserted := blen (List.filter (new_aspa d) (aspa_stage (stage st))) in
  let changed := blen (List.filter (changed_aspa d) (aspa_stage (stage st))) in
  let! d :=
    if 0 <? changed then
      let! d := stmt_commitAspaStage (List.filter (changed_aspa d) (aspa_stage (stage st))) d in
      Ok (if 0 <? inserted then d <| aspa_count := aspa_count d + inserted |> else d)
    else Ok d in
  let '(d, cacheSerial) := if 0 <? changed then bumpCacheSerialInTransaction d else (d, getCacheSerial d) in
  Ok ({| database := d; stage := (stage st) <| aspa_stage := [] |> |},
      {| a_staged := staged; a_inserted := inserted; a_overwritten := Z.max 0 (changed - inserted); a_changed := changed;
         a_skipped := Z.max 0 (staged - changed); a_total := aspa_count d; a_cacheSerial := cacheSerial |}).

(** [beginRoaImport], [abortRoaImport] and their counterparts; the table of a connection that did not import is empty. *)
Definition clearRoaStage (st : rpki_store) : rpki_store := {| database := database st; stage := (stage st) <| roa_stage := [] |> |}.
Definition clearAspaStage (st : rpki_store) : rpki_store := {| database := database st; stage := (stage st) <| aspa_stage := [] |> |}.

(** * Invariant *)

Definition roa_key (r : rpki_roa) : jsstring * Z * Z * Z := (ip r, mask r, asn r, maxLength r).

(** The counters of the state row are the sizes of the tables, the unique keys are
    unique, the serial number is a 32-bit number. *)
Record db_ok (d : rpki_db) : Prop := {
  ok_roa_count : roa_count d = blen (rpki_roas d);
  ok_aspa_count : aspa_count d = blen (rpki_aspas d);
  ok_roas : NoDup (map roa_key (rpki_roas d));
  ok_aspas : NoDup (map customerAsn (rpki_aspas d));
  ok_serial : 0 <= cache_serial d < 2 ^ 32
}.

Lemma UNIQUE_roa_spec a b : UNIQUE_roa a b = true <-> roa_key a = roa_key b.
Proof.
  unfold UNIQUE_roa, roa_key. rewrite !andb_true_iff, bool_decide_eq_true, !Z.eqb_eq.
  split; [by intros [[[-> ->] ->] ->] | intros [= -> -> -> ->]; auto].
Qed.

Lemma next_serial d :
  0 <= cache_serial d < 2 ^ 32 ->
  bumpCacheSerialInTransaction d =
  (d <| cache_serial := to_uint32 (cache_serial d + 1) |>, to_uint32 (cache_serial d + 1)).
Proof.
  intros Hs. unfold bumpCacheSerialInTransaction, getCacheSerial, to_uint32, UINT32_MAX.
  rewrite (Z.mod_small (cache_serial d)) by done.
  destruct (Z.leb_spec 4294967295 (cache_serial d)).
  - replace (cache_serial d) with 4294967295 by lia. reflexivity.
  - by rewrite Z.mod_small by lia.
Qed.

Lemma to_uint32_range x : 0 <= to_uint32 x < 2 ^ 32.
Proof. apply Z.mod_pos_bound. lia. Qed.

Lemma getCacheSerial_ok d : db_ok d -> getCacheSerial d = cache_serial d.
Proof. intros [_ _ _ _ Hs]. unfold getCacheSerial, to_uint32. by rewrite Z.mod_small. Qed.

(** [existsb], [list_find] and [filter] on the unique keys. *)
Lemma existsb_roa r rs : existsb (UNIQUE_roa r) rs = false <-> roa_key r ∉ map roa_key rs.
Proof.
  induction rs as [|x rs IH]; cbn; [split; [by intros _ ?%elem_of_nil | done]|].
  rewrite orb_false_iff, not_elem_of_cons, IH.
  rewrite <- not_true_iff_false, UNIQUE_roa_spec. done.
Qed.

Lemma find_roa r d row :
  stmt_getRoa r d = Some row -> row ∈ rpki_roas d /\ roa_key row = roa_key r.
Proof.
  unfold stmt_getRoa. destruct (list_find _ _) as [[i x]|] eqn:Hf; [|done]. intros [= <-].
  apply list_find_Some in Hf as (Hi & Hu & _). apply UNIQUE_roa_spec in Hu.
  split; [by eapply list_elem_of_lookup_2 | done].
Qed.

Lemma filter_absent {A K} (key : A -> K) (p : A -> bool) (xs : list A) k :
  (forall x, p x = false <-> key x = k) -> k ∉ map key xs -> List.filter p xs = xs.
Proof.
  intros Hp. induction xs as [|x xs IH]; cbn; [done|]. intros [Hx Hxs]%not_elem_of_cons.
  destruct (p x) eqn:Hpx; [by rewrite IH|]. apply Hp in Hpx. congruence.
Qed.

(** Removing by a unique key removes exactly one row. *)
Lemma filter_unique {A K} (key : A -> K) (p : A -> bool) (xs : list A) row :
  (forall x, p x = false <-> key x = key row) -> NoDup (map key xs) -> row ∈ xs ->
  exists l1 l2, xs = l1 ++ row :: l2 /\ List.filter p xs = l1 ++ l2.
Proof.
  intros Hp Hnd Hin. apply list_elem_of_split in Hin as (l1 & l2 & ->). exists l1, l2. split; [done|].
  rewrite map_app in Hnd. cbn in Hnd. apply list.NoDup_app in Hnd as (_ & Hd & Hnd).
  apply list.NoDup_cons in Hnd as [Hn _]. rewrite List.filter_app. cbn.
  replace (p row) with false by (symmetry; by apply Hp).
  rewrite !(filter_absent key p _ (key row)); try done.
  intros Hl1. apply (Hd _ Hl1). by left.
Qed.

Lemma NoDup_remove_mid {A} (l1 l2 : list A) x : NoDup (l1 ++ x :: l2) -> NoDup (l1 ++ l2).
Proof.
  rewrite !list.NoDup_app, list.NoDup_cons. intros (? & Hd & ? & ?). split_and!; [done | | done].
  intros y Hy Hy2. apply (Hd y Hy). by right.
Qed.

Lemma delete_roa_spec d r row :
  db_ok d -> stmt_getRoa r d = Some row ->
  exists l1 l2, rpki_roas d = l1 ++ row :: l2 /\ rpki_roas (stmt_deleteRoa r d) = l1 ++ l2.
Proof.
  intros Hd Hg. apply find_roa in Hg as [Hin Hk].
  apply (filter_unique roa_key (fun x => negb (UNIQUE_roa r x))); [|apply Hd|done].
  intros x. rewrite negb_false_iff, UNIQUE_roa_spec, Hk. split; congruence.
Qed.

Lemma find_aspa n d row :
  stmt_getAspa n d = Some row -> row ∈ rpki_aspas d /\ customerAsn row = n.
Proof.
  unfold stmt_getAspa. destruct (list_find _ _) as [[i x]|] eqn:Hf; [|done]. intros [= <-].
  apply list_find_Some in Hf as (Hi & Hu & _). split; [by eapply list_elem_of_lookup_2 | done].
Qed.

Lemma find_aspa_None n d : stmt_getAspa n d = None -> n ∉ map customerAsn (rpki_aspas d).
Proof.
  unfold stmt_getAspa. destruct (list_find _ _) as [[i x]|] eqn:Hf; [done|]. intros _.
  apply list_find_None in Hf. intros (a & -> & Ha)%list_elem_of_fmap.
  rewrite list.Forall_forall in Hf. by apply (Hf a Ha).
Qed.

Lemma delete_aspa_spec d n row :
  db_ok d -> stmt_getAspa n d = Some row ->
  exists l1 l2, rpki_aspas d = l1 ++ row :: l2 /\ rpki_aspas (stmt_deleteAspa n d) = l1 ++ l2.
Proof.
  intros Hd Hg. apply find_aspa in Hg as [Hin Hk].
  apply (filter_unique customerAsn (fun x => negb (customerAsn x =? n))); [|apply Hd|done].
  intros x. rewrite negb_false_iff, Z.eqb_eq, Hk. done.
Qed.

Lemma map_update_keys a xs :
  map customerAsn (map (fun x => if customerAsn x =? customerAsn a then a else x) xs) = map customerAsn xs.
Proof.
  induction xs as [|x xs IH]; cbn; [done|]. rewrite IH. f_equal. case_if; [by bool_hyps | done].
Qed.

(** ** Every operation keeps the invariant *)

Lemma bump_ok d : db_ok d -> db_ok (fst (bumpCacheSerialInTransaction d)).
Proof.
  intros Hd. rewrite next_serial by apply Hd. destruct Hd as [? ? ? ? ?].
  by constructor; try apply to_uint32_range.
Qed.

Lemma insert_roa_ok d r d' n :
  db_ok d -> stmt_insertRoa r d = (d', n) ->
  n = 0 /\ d' = d \/ n = 1 /\ db_ok (d' <| roa_count := roa_count d' + 1 |>) /\ roa_count d' = roa_count d.
Proof.
  intros Hd. unfold stmt_insertRoa. case_if; intros [= <- <-]; [|auto]. right. split; [done|].
  bool_hyps. apply existsb_roa in H0. destruct Hd as [Hc1 Hc2 Hr Ha Hs]. split; [|done].
  constructor; cbn; try done.
  - rewrite Hc1. blia.
  - rewrite map_app. apply list.NoDup_app. split_and!; [done | | apply NoDup_singleton].
    intros x Hx ->%list_elem_of_singleton. done.
Qed.

(** What an operation may do to the tables: nothing, or a change that keeps the
    invariant and moves the serial number on by one. *)
Definition moves (d d' : rpki_db) : Prop :=
  d' = d \/ db_ok d' /\ cache_serial d' = to_uint32 (cache_serial d + 1).

(** The serial number is bumped after the tables have changed. *)
Lemma moves_bump d d1 :
  db_ok d1 -> cache_serial d1 = cache_serial d -> moves d (fst (bumpCacheSerialInTransaction d1)).
Proof.
  intros Hd1 Hs. right. split; [by apply bump_ok|]. rewrite next_serial by apply Hd1. by rewrite <- Hs.
Qed.

Lemma addRoa_moves v d d' r : db_ok d -> addRoaInTransaction v d = Ok (d', r) -> moves d d'.
Proof.
  intros Hd. unfold addRoaInTransaction. destruct v as [roa|]; [|done]. cbn [normalizeRoaInput bind_result].
  destruct (stmt_insertRoa roa d) as [d1 n] eqn:Hi.
  assert (cache_serial d1 = cache_serial d) as Hs by (unfold stmt_insertRoa in Hi; case_if; by simplify_eq).
  destruct (insert_roa_ok d roa d1 n Hd Hi) as [[-> ->]|(-> & Hok & _)].
  - intros [= <- _]. by left.
  - cbn [Z.ltb Z.compare]. pose proof (moves_bump d _ Hok Hs) as Hm.
    destruct (bumpCacheSerialInTransaction _) as [d2 s2]. by intros [= <- _].
Qed.

(** During a batch the counter lags behind by the number of rows inserted. *)
Lemma insert_roas_ok values limit inserted d d' m :
  db_ok (d <| roa_count := roa_count d + inserted |>) -> 0 <= inserted ->
  insert_roas values limit inserted d = Ok (d', m) ->
  inserted <= m /\ db_ok (d' <| roa_count := roa_count d' + m |>) /\
  roa_count d' = roa_count d /\ cache_serial d' = cache_serial d /\ (m = inserted -> d' = d).
Proof.
  revert inserted d. induction values as [|v values IH]; intros inserted d Hd Hn; cbn [insert_roas].
  { intros [= <- <-]. auto with lia. }
  case_if; [intros [= <- <-]; auto with lia|]. destruct v as [roa|]; [|done]. cbn [normalizeRoaInput bind_result].
  destruct (stmt_insertRoa roa d) as [d1 n] eqn:Hi.
  assert (n = 0 /\ d1 = d \/ n = 1 /\ db_ok (d1 <| roa_count := roa_count d1 + (inserted + 1) |>) /\
    roa_count d1 = roa_count d /\ cache_serial d1 = cache_serial d) as [[-> ->]|(-> & Hok & Hc & Hs)].
  { destruct (insert_roa_ok (d <| roa_count := roa_count d + inserted |>) roa
      (d1 <| roa_count := roa_count d1 + inserted |>) n Hd) as [[-> He]|(-> & Hok & Hc)].
    - unfold stmt_insertRoa in *. cbn. case_if; by simplify_eq.
    - left. split; [done|]. unfold stmt_insertRoa in Hi. case_if; by simplify_eq.
    - right. split; [done|]. cbn in *. split; [|split; [lia|]].
      + destruct Hok as [H1 H2 H3 H4 H5]. constructor; cbn in *; try done. lia.
      + unfold stmt_insertRoa in Hi. case_if; by simplify_eq. }
  - cbn [Z.ltb Z.compare]. by apply IH.
  - cbn [Z.ltb Z.compare]. intros Hr. destruct (IH _ _ Hok ltac:(lia) Hr) as (H1 & H2 & H3 & H4 & H5).
    split_and!; [lia | done | congruence | congruence | lia].
Qed.

Lemma addRoaBatch_moves vs limit d d' r :
  db_ok d -> addRoaBatchInTransaction vs limit d = Ok (d', r) -> moves d d'.
Proof.
  intros Hd. unfold addRoaBatchInTransaction.
  destruct (insert_roas vs _ 0 d) as [[d1 m]|] eqn:Hi; [|done]. cbn [bind_result].
  apply insert_roas_ok in Hi as (Hm & Hok & Hc & Hs & He);
    [|destruct Hd as [H1 ? ? ? ?]; constructor; cbn; try done; lia|lia].
  destruct (Z.ltb_spec 0 m).
  - pose proof (moves_bump d _ Hok Hs) as Hmv. destruct (bumpCacheSerialInTransaction _) as [d2 s2].
    by intros [= <- _].
  - rewrite He by lia. intros [= <- _]. by left.
Qed.

Lemma deleteRoa_moves v d d' r : db_ok d -> deleteRoaInTransaction v d = Ok (d', r) -> moves d d'.
Proof.
  intros Hd. unfold deleteRoaInTransaction. destruct v as [roa|]; [|done]. cbn [normalizeRoaInput bind_result].
  destruct (stmt_getRoa roa d) as [row|] eqn:Hg; [|intros [= <- _]; by left].
  destruct (delete_roa_spec d roa row Hd Hg) as (l1 & l2 & Heq & Hdel).
  set (d1 := (stmt_deleteRoa roa d) <| roa_count := roa_count (stmt_deleteRoa roa d) - 1 |>).
  assert (moves d (fst (bumpCacheSerialInTransaction d1))) as Hm.
  { apply moves_bump; [|done]. destruct Hd as [H1 H2 H3 H4 H5]. constructor; try done.
    - subst d1. cbn in Hdel |- *. rewrite Hdel, H1, Heq. blia.
    - change (rpki_roas d1) with (rpki_roas (stmt_deleteRoa roa d)). rewrite Hdel.
      rewrite Heq, map_app in H3. rewrite map_app. by eapply NoDup_remove_mid. }
  destruct (bumpCacheSerialInTransaction d1) as [d2 s2]. by intros [= <- _].
Qed.

Lemma clearRoas_moves d : db_ok d -> moves d (fst (clearRoasInTransaction d)).
Proof.
  intros Hd. unfold clearRoasInTransaction. case_if; [|by left].
  assert (moves d (fst (bumpCacheSerialInTransaction (d <| rpki_roas := [] |> <| roa_count := 0 |>)))) as Hm.
  { apply moves_bump; [|done]. destruct Hd. constructor; try done. apply NoDup_nil_2. }
  by destruct (bumpCacheSerialInTransaction _) as [d2 s2].
Qed.

(** An upsert changes one row and, asked to, the serial number. *)
Lemma upsertAspa_moves v bump d d' r :
  db_ok d -> upsertAspaInTransaction v bump d = Ok (d', r) ->
  changes r = 0 /\ d' = d \/
  changes r = 1 /\ exists d1, db_ok d1 /\ cache_serial d1 = cache_serial d /\
    d' = if bump then fst (bumpCacheSerialInTransaction d1) else d1.
Proof.
  intros Hd. unfold upsertAspaInTransaction. destruct v as [aspa|]; [|done]. cbn [normalizeAspaInput bind_result].
  case_if; [intros [= <- <-]; by left|].
  set (m := match stmt_getAspa _ d with Some _ => _ | None => _ end).
  assert (forall d1, m = Ok d1 -> db_ok d1 /\ cache_serial d1 = cache_serial d) as Hm.
  { subst m. intros d1. destruct (stmt_getAspa _ d) as [row|] eqn:Hg.
    - unfold stmt_updateAspa. case_if; [|done]. intros [= <-]. split; [|done].
      destruct Hd. constructor; cbn; try done; [by rewrite blen_map | by rewrite map_update_keys].
    - unfold stmt_insertAspa. case_if; [|done]. intros [= <-]. split; [|done].
      apply find_aspa_None in Hg. destruct Hd as [H1 H2 H3 H4 H5]. constructor; cbn; try done.
      + rewrite H2. blia.
      + rewrite map_app. apply list.NoDup_app. split_and!; [done | | apply NoDup_singleton].
        intros x Hx ->%list_elem_of_singleton. done. }
  destruct m as [d1|]; [|done]. cbn [bind_result]. destruct (Hm d1 eq_refl) as [Hok Hs].
  intros He. right. destruct bump.
  - destruct (bumpCacheSerialInTransaction d1) as [d2 s2] eqn:Hb. simplify_eq. split; [done|].
    exists d1. rewrite Hb. done.
  - simplify_eq. split; [done|]. by exists d'.
Qed.

Lemma upsert_aspas_ok vs changed d d' m :
  db_ok d -> upsert_aspas vs changed d = Ok (d', m) ->
  changed <= m /\ db_ok d' /\ cache_serial d' = cache_serial d /\ (m = changed -> d' = d).
Proof.
  revert changed d. induction vs as [|v vs IH]; intros changed d Hd; cbn [upsert_aspas].
  { intros [= <- <-]. auto with lia. }
  destruct (upsertAspaInTransaction v false d) as [[d1 r]|] eqn:Hu; [|done]. cbn [bind_result].
  destruct (upsertAspa_moves v false d d1 r Hd Hu) as [[-> ->]|(-> & d2 & Hok & Hs & ->)].
  - rewrite Z.add_0_r. by apply IH.
  - intros Hr. destruct (IH _ _ Hok Hr) as (? & ? & ? & ?). split_and!; [lia | done | congruence | lia].
Qed.

Lemma upsertAspaBatch_moves vs d d' r :
  db_ok d -> upsertAspaBatchInTransaction vs d = Ok (d', r) -> moves d d'.
Proof.
  intros Hd. unfold upsertAspaBatchInTransaction.
  destruct (upsert_aspas vs 0 d) as [[d1 m]|] eqn:Hu; [|done]. cbn [bind_result].
  apply upsert_aspas_ok in Hu as (Hm & Hok & Hs & He); [|done].
  destruct (Z.ltb_spec 0 m).
  - pose proof (moves_bump d _ Hok Hs) as Hmv. destruct (bumpCacheSerialInTransaction _) as [d2 s2].
    by intros [= <- _].
  - rewrite He by lia. intros [= <- _]. by left.
Qed.

Lemma deleteAspa_moves n d d' r : db_ok d -> deleteAspaInTransaction n d = Ok (d', r) -> moves d d'.
Proof.
  intros Hd. unfold deleteAspaInTransaction, normalizeCustomerAsn. case_if; [|done]. cbn [bind_result].
  destruct (stmt_getAspa n d) as [row|] eqn:Hg; [|intros [= <- _]; by left].
  destruct (delete_aspa_spec d n row Hd Hg) as (l1 & l2 & Heq & Hdel).
  set (d1 := (stmt_deleteAspa n d) <| aspa_count := aspa_count (stmt_deleteAspa n d) - 1 |>).
  assert (moves d (fst (bumpCacheSerialInTransaction d1))) as Hm.
  { apply moves_bump; [|done]. destruct Hd as [H1 H2 H3 H4 H5]. constructor; try done.
    - subst d1. cbn in Hdel |- *. rewrite Hdel, H2, Heq. blia.
    - change (rpki_aspas d1) with (rpki_aspas (stmt_deleteAspa n d)). rewrite Hdel.
      rewrite Heq, map_app in H4. rewrite map_app. by eapply NoDup_remove_mid. }
  destruct (bumpCacheSerialInTransaction d1) as [d2 s2]. by intros [= <- _].
Qed.

Lemma clearAspas_moves d : db_ok d -> moves d (fst (clearAspasInTransaction d)).
Proof.
  intros Hd. unfold clearAspasInTransaction. case_if; [|by left].
  assert (moves d (fst (bumpCacheSerialInTransaction (d <| rpki_aspas := [] |> <| aspa_count := 0 |>)))) as Hm.
  { apply moves_bump; [|done]. destruct Hd. constructor; try done. apply NoDup_nil_2. }
  by destruct (bumpCacheSerialInTransaction _) as [d2 s2].
Qed.

(** ** Imports keep the invariant *)

(** The unique keys of the temporary tables. *)
Definition stage_ok (s : import_stage) : Prop := NoDup (map roa_key (roa_stage s)) /\ NoDup (map customerAsn (aspa_stage s)).

Lemma NoDup_snoc {A} (l : list A) x : NoDup l -> x ∉ l -> NoDup (l ++ [x]).
Proof. intros Hl Hx. apply list.NoDup_app. split; [exact Hl|]. split; [|apply NoDup_singleton]. by intros y Hy ->%list_elem_of_singleton. Qed.

Lemma NoDup_filter_keys {A K} (key : A -> K) f (l : list A) : NoDup (map key l) -> NoDup (map key (List.filter f l)).
Proof.
  induction l as [|x l IH]; cbn; [done|]. intros [Hx Hl]%list.NoDup_cons. case_if; [|by apply IH]. cbn. apply list.NoDup_cons. split; [|by apply IH].
  intros (y & Hk & Hy)%list_elem_of_fmap. apply Hx. apply list_elem_of_fmap. exists y. split; [exact Hk|]. apply list_elem_of_In in Hy. apply filter_In in Hy as [Hy _]. by apply list_elem_of_In.
Qed.

Lemma stage_roas_ok vs p a b s s' n : stage_ok s -> stage_roas vs p a b s = Ok (s', n) -> stage_ok s'.
Proof.
  revert p a b s. induction vs as [|v vs IH]; intros p a b s Hs; cbn [stage_roas]; [by intros [= <- _]|].
  destruct v as [roa|]; [|done]. cbn [normalizeRoaInput bind_result]. unfold stmt_insertRoaStage. destruct (existsb _ _) eqn:He; cbn [Z.ltb Z.compare]; apply IH; [done|].
  destruct Hs as [Hr Ha]. split; [|done]. cbn. rewrite map_app. apply NoDup_snoc; [done|]. by apply existsb_roa.
Qed.

Lemma existsb_aspa a l : existsb (fun x => customerAsn x =? customerAsn a) l = false -> customerAsn a ∉ map customerAsn l.
Proof.
  intros He (y & Hy & Hin)%list_elem_of_fmap. assert (existsb (fun x => customerAsn x =? customerAsn a) l = true) as Ht; [|congruence].
  apply existsb_exists. exists y. split; [by apply list_elem_of_In | by apply Z.eqb_eq].
Qed.

Lemma stage_aspas_ok vs p s s' n : stage_ok s -> stage_aspas vs p s = Ok (s', n) -> stage_ok s'.
Proof.
  revert p s. induction vs as [|v vs IH]; intros p s Hs; cbn [stage_aspas]; [by intros [= <- _]|].
  destruct v as [a|]; [|done]. cbn [normalizeAspaInput bind_result]. apply IH. unfold stmt_upsertAspaStage. destruct Hs as [Hr Ha].
  destruct (existsb _ _) eqn:He; (split; [exact Hr|]); cbn; [by rewrite map_update_keys|]. rewrite map_app. apply NoDup_snoc; [done | by apply existsb_aspa].
Qed.

Lemma commitRoaImport_moves limit st st' x : db_ok (database st) -> stage_ok (stage st) -> commitRoaImportInTransaction limit st = Ok (st', x) ->
  moves (database st) (database st') /\ stage_ok (stage st').
Proof.
  intros Hd [Hr Ha]. unfold commitRoaImportInTransaction. set (maximum := match limit with None => -1 | Some n => Z.max 0 n end).
  assert (forall d n, (if maximum =? 0 then Ok (database st, 0) else stmt_commitRoaStage maximum st) = Ok (d, n) ->
    (n = 0 /\ d = database st) \/ (0 < n /\ db_ok (d <| roa_count := roa_count d + n |>) /\ cache_serial d = cache_serial (database st))) as Hc.
  { intros d n. case_if; [intros [= <- <-]; by left|]. unfold stmt_commitRoaStage. set (rows := if maximum <? 0 then _ else _). case_if; [|done]. intros [= <- <-].
    assert (NoDup (map roa_key rows) /\ forall r, r ∈ rows -> roa_key r ∉ map roa_key (rpki_roas (database st))) as [Hn Hf].
    { assert (exists rest, rows ++ rest = roa_candidates st) as [rest Hrows].
      { subst rows. case_if; [exists []; apply app_nil_r | eexists; apply take_drop]. }
      assert (NoDup (map roa_key (roa_candidates st))) as Hk by (by apply NoDup_filter_keys). rewrite <- Hrows, map_app in Hk. split; [by apply list.NoDup_app in Hk as [? _]|].
      intros r Hin. assert (r ∈ roa_candidates st) as Hx by (rewrite <- Hrows; apply list.elem_of_app; by left).
      apply list_elem_of_In, filter_In in Hx as [_ Hx]. apply negb_true_iff in Hx. by apply existsb_roa in Hx. }
    clearbody rows. pose proof (blen_nonneg rows). destruct (decide (rows = [])) as [->|Hne]; [left; rewrite app_nil_r; by destruct (database st)|]. right.
    split; [destruct rows; [done | blia]|]. split; [|done]. destruct Hd as [H1 H2 H3 H4 H5]. constructor; cbn; try done; [rewrite H1; blia|].
    rewrite map_app. apply list.NoDup_app. split; [done|]. split; [|done]. intros k Hk (r & -> & Hin)%list_elem_of_fmap. by apply (Hf r). }
  destruct (if maximum =? 0 then _ else _) as [[d n]|]; [|done]. cbn [bind_result]. destruct (Hc d n eq_refl) as [[-> ->]|(Hn & Hok & Hs)].
  - cbn [Z.ltb Z.compare]. intros [= <- _]. split; [by left|]. split; [constructor | done].
  - apply Z.ltb_lt in Hn as ->. pose proof (moves_bump (database st) _ Hok Hs) as Hm. destruct (bumpCacheSerialInTransaction _) as [d2 s2].
    intros [= <- _]. split; [exact Hm|]. split; [constructor | done].
Qed.

Lemma getAspa_None n d : stmt_getAspa n d = None <-> n ∉ map customerAsn (rpki_aspas d).
Proof.
  split; [apply find_aspa_None|]. intros Hn. destruct (stmt_getAspa n d) as [a|] eqn:Hg; [|done]. apply find_aspa in Hg as [Hin <-].
  exfalso. apply Hn. apply list_elem_of_fmap. by exists a.
Qed.

Lemma new_aspa_spec d a : new_aspa d a = true <-> customerAsn a ∉ map customerAsn (rpki_aspas d).
Proof.
  rewrite <- getAspa_None. unfold new_aspa. rewrite negb_true_iff, bool_decide_eq_false. symmetry. apply eq_None_not_Some.
Qed.

(** Rows are changed in place, or added behind the others. *)
Lemma commit_aspas_ok rows d d' : NoDup (map customerAsn rows) -> NoDup (map customerAsn (rpki_aspas d)) -> stmt_commitAspaStage rows d = Ok d' ->
  NoDup (map customerAsn (rpki_aspas d')) /\ blen (rpki_aspas d') = blen (rpki_aspas d) + blen (List.filter (new_aspa d) rows) /\
  rpki_roas d' = rpki_roas d /\ roa_count d' = roa_count d /\ aspa_count d' = aspa_count d /\ cache_serial d' = cache_serial d.
Proof.
  revert d. induction rows as [|a rows IH]; intros d; cbn [stmt_commitAspaStage map]; [intros _ Hd [= <-]; split; [done|]; split; [change (List.filter (new_aspa d) []) with (@nil rpki_aspa); change (blen (@nil rpki_aspa)) with 0; lia | done]|].
  intros [Ha Hr]%list.NoDup_cons Hd.
  assert (forall d1, (match stmt_getAspa (customerAsn a) d with Some _ => stmt_updateAspa a d | None => stmt_insertAspa a d end) = Ok d1 ->
    NoDup (map customerAsn (rpki_aspas d1)) /\ blen (rpki_aspas d1) = blen (rpki_aspas d) + (if new_aspa d a then 1 else 0) /\
    List.filter (new_aspa d1) rows = List.filter (new_aspa d) rows /\
    rpki_roas d1 = rpki_roas d /\ roa_count d1 = roa_count d /\ aspa_count d1 = aspa_count d /\ cache_serial d1 = cache_serial d) as Hstep.
  { intros d1. destruct (stmt_getAspa (customerAsn a) d) as [row|] eqn:Hg.
    - assert (new_aspa d a = false) as -> by (unfold new_aspa; by rewrite Hg). unfold stmt_updateAspa. case_if; [|done]. intros [= <-]. cbn.
      split; [by rewrite map_update_keys|]. split; [rewrite blen_map; lia|]. split; [|done].
      apply filter_ext. intros x. apply Bool.eq_iff_eq_true. rewrite !new_aspa_spec. cbn. by rewrite map_update_keys.
    - assert (new_aspa d a = true) as -> by (unfold new_aspa; by rewrite Hg). unfold stmt_insertAspa. case_if; [|done]. intros [= <-]. cbn. apply find_aspa_None in Hg.
      split; [rewrite map_app; by apply NoDup_snoc|]. split; [blia|]. split; [|done].
      apply List.filter_ext_in. intros x Hx. apply Bool.eq_iff_eq_true. rewrite !new_aspa_spec. cbn. rewrite map_app, not_elem_of_app. cbn. rewrite list_elem_of_singleton.
      assert (customerAsn x <> customerAsn a); [|naive_solver]. intros He. apply Ha. apply list_elem_of_fmap. exists x. split; [done|]. by apply list_elem_of_In. }
  destruct (match stmt_getAspa (customerAsn a) d with Some _ => _ | None => _ end) as [d1|]; [|done]. cbn [bind_result].
  destruct (Hstep d1 eq_refl) as (H1 & H2 & H3 & H4 & H5 & H6 & H7). intros He. destruct (IH d1 Hr H1 He) as (J1 & J2 & J3 & J4 & J5 & J6).
  split; [exact J1|]. split; [|by rewrite J3, J4, J5, J6]. rewrite J2, H2, H3. cbn [List.filter]. destruct (new_aspa d a); blia.
Qed.

Lemma new_is_changed d a : new_aspa d a = true -> changed_aspa d a = true.
Proof. unfold new_aspa, changed_aspa. by destruct (stmt_getAspa _ _). Qed.

Lemma filter_new_changed d l : List.filter (new_aspa d) (List.filter (changed_aspa d) l) = List.filter (new_aspa d) l.
Proof.
  induction l as [|a l IH]; [done|]. cbn [List.filter]. pose proof (new_is_changed d a). destruct (changed_aspa d a), (new_aspa d a) eqn:Hn; cbn [List.filter]; rewrite ?Hn, ?IH; try done.
  by discriminate (H eq_refl).
Qed.

Lemma commitAspaImport_moves st st' x : db_ok (database st) -> stage_ok (stage st) -> commitAspaImportInTransaction st = Ok (st', x) ->
  moves (database st) (database st') /\ stage_ok (stage st').
Proof.
  intros Hd [Hr Ha]. unfold commitAspaImportInTransaction. set (d := database st) in *. set (l := aspa_stage (stage st)) in *. set (rows := List.filter (changed_aspa d) l).
  destruct (0 <? blen rows) eqn:Hch; cbn [bind_result].
  2:{ intros [= <- _]. split; [by left|]. split; [exact Hr | constructor]. }
  destruct (stmt_commitAspaStage rows d) as [d1|] eqn:Hc; [|done]. cbn [bind_result].
  apply commit_aspas_ok in Hc as (C1 & C2 & C3 & C4 & C5 & C6); [|by apply NoDup_filter_keys | apply Hd]. unfold rows in C2. rewrite filter_new_changed in C2.
  set (d2 := if 0 <? blen (List.filter (new_aspa d) l) then _ else _). assert (db_ok d2 /\ cache_serial d2 = cache_serial d) as [Hok Hs].
  { destruct Hd as [H1 H2 H3 H4 H5]. pose proof (blen_nonneg (List.filter (new_aspa d) l)). subst d2. destruct (Z.ltb_spec 0 (blen (List.filter (new_aspa d) l))); (split; [|exact C6]);
      constructor; cbn; rewrite ?C3, ?C4, ?C5, ?C6; try done; lia. }
  clearbody d2. pose proof (moves_bump d d2 Hok Hs) as Hm. destruct (bumpCacheSerialInTransaction d2) as [d3 s3].
  intros [= <- _]. split; [exact Hm|]. split; [exact Hr | constructor].
Qed.

(** ** Sequences of operations *)

Inductive store_op :=
| AddRoa (v : option rpki_roa)
| AddRoaBatch (vs : list (option rpki_roa)) (limit : option Z)
| DeleteRoa (v : option rpki_roa)
| ClearRoas
| UpsertAspa (v : option rpki_aspa)
| UpsertAspaBatch (vs : list (option rpki_aspa))
| DeleteAspa (n : Z)
| ClearAspas
| BumpSerial
| ClearRoaStage
| StageRoaBatch (vs : list (option rpki_roa)) (countCandidates : bool)
| CommitRoaImport (limit : option Z)
| ClearAspaStage
| StageAspaBatch (vs : list (option rpki_aspa))
| CommitAspaImport.

(** A transaction that throws is rolled back. *)
Definition commit {S A} (d : S) (r : result (S * A)) : S :=
  match r with Ok (d', _) => d' | Throw _ => d end.

(** An operation that does not touch the temporary tables. *)
Definition on_database (f : rpki_db -> rpki_db) (st : rpki_store) : rpki_store := {| database := f (database st); stage := stage st |}.

Definition run_store_op (op : store_op) : rpki_store -> rpki_store :=
  match op with
  | AddRoa v => on_database (fun d => commit d (addRoaInTransaction v d))
  | AddRoaBatch vs limit => on_database (fun d => commit d (addRoaBatchInTransaction vs limit d))
  | DeleteRoa v => on_database (fun d => commit d (deleteRoaInTransaction v d))
  | ClearRoas => on_database (fun d => fst (clearRoasInTransaction d))
  | UpsertAspa v => on_database (fun d => commit d (upsertAspaInTransaction v true d))
  | UpsertAspaBatch vs => on_database (fun d => commit d (upsertAspaBatchInTransaction vs d))
  | DeleteAspa n => on_database (fun d => commit d (deleteAspaInTransaction n d))
  | ClearAspas => on_database (fun d => fst (clearAspasInTransaction d))
  | BumpSerial => on_database (fun d => fst (bumpCacheSerialInTransaction d))
  | ClearRoaStage => clearRoaStage
  | StageRoaBatch vs countCandidates => fun st => commit st (stageRoaBatchInTransaction vs countCandidates st)
  | CommitRoaImport limit => fun st => commit st (commitRoaImportInTransaction limit st)
  | ClearAspaStage => clearAspaStage
  | StageAspaBatch vs => fun st => commit st (stageAspaBatchInTransaction vs st)
  | CommitAspaImport => fun st => commit st (commitAspaImportInTransaction st)
  end.

(** A new database, and a connection that has not imported anything. *)
Definition new_store : rpki_store := {| database := initializeSchema; stage := {| roa_stage := []; aspa_stage := [] |} |}.

Definition store_moves (st st' : rpki_store) : Prop := moves (database st) (database st') /\ stage_ok (stage st').

Lemma commit_moves {A} d (r : result (rpki_db * A)) :
  (forall d' x, r = Ok (d', x) -> moves d d') -> moves d (commit d r).
Proof. intros H. destruct r as [[d' x]|]; [by eapply H | by left]. Qed.

Lemma commit_store_moves {A} st (r : result (rpki_store * A)) : stage_ok (stage st) ->
  (forall st' x, r = Ok (st', x) -> store_moves st st') -> store_moves st (commit st r).
Proof. intros Hs H. destruct r as [[d' x]|]; [by eapply H | split; [by left | done]]. Qed.

Lemma on_database_moves f st : stage_ok (stage st) -> moves (database st) (f (database st)) -> store_moves st (on_database f st).
Proof. intros Hs Hm. by split. Qed.

Lemma run_store_op_moves op st : db_ok (database st) -> stage_ok (stage st) -> store_moves st (run_store_op op st).
Proof.
  intros Hd Hs. destruct op as [| | | | | | | | | |vs c|limit| |vs|]; cbn [run_store_op]; try (apply on_database_moves; [exact Hs|]; try apply commit_moves;
    eauto using addRoa_moves, addRoaBatch_moves, deleteRoa_moves, clearRoas_moves, upsertAspaBatch_moves,
      deleteAspa_moves, clearAspas_moves, moves_bump; fail).
  - apply on_database_moves; [exact Hs|]. apply commit_moves. intros d' x Hu. destruct (upsertAspa_moves _ _ _ _ _ Hd Hu) as [[_ ->]|(_ & d1 & Hok & Hx & ->)];
      [by left | by apply moves_bump].
  - split; [by left|]. split; [constructor | apply Hs].
  - apply commit_store_moves; [exact Hs|]. intros st' x. unfold stageRoaBatchInTransaction. destruct (stage_roas _ _ _ _ _) as [[s n]|] eqn:He; [|done]. cbn [bind_result].
    destruct n as [[p a] b]. intros [= <- _]. split; [by left | by eapply stage_roas_ok].
  - apply commit_store_moves; [exact Hs|]. intros st' x. by apply commitRoaImport_moves.
  - split; [by left|]. split; [apply Hs | constructor].
  - apply commit_store_moves; [exact Hs|]. intros st' x. unfold stageAspaBatchInTransaction. destruct (stage_aspas _ _ _) as [[s n]|] eqn:He; [|done]. cbn [bind_result].
    intros [= <- _]. split; [by left | by eapply stage_aspas_ok].
  - apply commit_store_moves; [exact Hs|]. intros st' x. by apply commitAspaImport_moves.
Qed.

Lemma moves_ok d d' : db_ok d -> moves d d' -> db_ok d'.
Proof. intros Hd [->|[]]; done. Qed.

Lemma initializeSchema_ok : db_ok initializeSchema.
Proof. constructor; try done; apply NoDup_nil_2. Qed.

Lemma new_store_ok : db_ok (database new_store) /\ stage_ok (stage new_store).
Proof. split; [apply initializeSchema_ok | split; constructor]. Qed.

Lemma run_store_ops_ok ops st : db_ok (database st) /\ stage_ok (stage st) ->
  let st' := fold_left (fun d o => run_store_op o d) ops st in db_ok (database st') /\ stage_ok (stage st').
Proof.
  revert st. induction ops as [|o ops IH]; intros st [Hd Hs]; cbn [fold_left]; [done|]. apply IH.
  destruct (run_store_op_moves o st Hd Hs) as [Hm Hs']. split; [by eapply moves_ok | exact Hs'].
Qed.

(** C28: the store stays consistent and its serial number tells every change.  After
    any sequence of operations on a new database, batches that fail halfway and staged
    imports included, the counters of the state row are the sizes of the tables and the
    unique keys are unique; and any further operation either leaves the database as
    it is or moves the serial number on by exactly one, modulo 2^32. *)
Theorem rpki_store_consistent ops op :
  let st := fold_left (fun d o => run_store_op o d) ops new_store in
  let d := database st in
  let d' := database (run_store_op op st) in
  db_ok d /\ (d' = d \/ cache_serial d' = to_uint32 (cache_serial d + 1)).
Proof.
  cbv zeta. destruct (run_store_ops_ok ops new_store new_store_ok) as [Hd Hs]. split; [done|].
  destruct (run_store_op_moves op _ Hd Hs) as [[?|[_ ?]] _]; auto.
Qed.

(** ** What each operation does to the rows *)

Lemma addRoa_spec v d d' r :
  db_ok d -> addRoaInTransaction v d = Ok (d', r) -> changes r <> 0 ->
  exists roa, r_current r = Some roa /\ db_ok d' /\ cache_serial d' = to_uint32 (cache_serial d + 1) /\
    r_cacheSerial r = cache_serial d' /\ rpki_roas d' = rpki_roas d ++ [roa] /\ rpki_aspas d' = rpki_aspas d.
Proof.
  intros Hd He Hc. pose proof (addRoa_moves v d d' r Hd He) as Hm.
  unfold addRoaInTransaction in He. destruct v as [roa|]; [|done]. cbn [normalizeRoaInput bind_result] in He.
  unfold stmt_insertRoa in He. destruct (CHECK_roa roa && _); [|cbn in He; simplify_eq/=; done]. cbn [Z.ltb Z.compare] in He.
  rewrite next_serial in He by apply Hd. simplify_eq. exists roa.
  destruct Hm as [Hm|[Hok Hs]]; [|done].
  apply (f_equal (fun d => length (rpki_roas d))) in Hm. cbn in Hm. rewrite length_app in Hm. cbn in Hm. lia.
Qed.

Lemma deleteRoa_spec v d d' r row :
  db_ok d -> deleteRoaInTransaction v d = Ok (d', r) -> r_previous r = Some row ->
  db_ok d' /\ cache_serial d' = to_uint32 (cache_serial d + 1) /\ r_cacheSerial r = cache_serial d' /\
  rpki_aspas d' = rpki_aspas d /\
  exists l1 l2, rpki_roas d = l1 ++ row :: l2 /\ rpki_roas d' = l1 ++ l2.
Proof.
  intros Hd He Hp. pose proof (deleteRoa_moves v d d' r Hd He) as Hm.
  unfold deleteRoaInTransaction in He. destruct v as [roa|]; [|done]. cbn [normalizeRoaInput bind_result] in He.
  destruct (stmt_getRoa roa d) as [row'|] eqn:Hg; [|by simplify_eq].
  destruct (delete_roa_spec d roa row' Hd Hg) as (l1 & l2 & Heq & Hdel).
  rewrite next_serial in He by apply Hd. simplify_eq. simplify_eq/=.
  destruct Hm as [Hm|[Hok Hs]].
  - apply (f_equal (fun d => length (rpki_roas d))) in Hm. cbn in Hm, Hdel. rewrite Hdel, Heq, !length_app in Hm.
    cbn in Hm. lia.
  - split_and!; try done. exists l1, l2. done.
Qed.

Lemma bumped_ok d : db_ok d -> db_ok (d <| cache_serial := to_uint32 (cache_serial d + 1) |>).
Proof. intros Hd. pose proof (bump_ok d Hd) as Hb. by rewrite next_serial in Hb by apply Hd. Qed.

Lemma upsertAspa_spec v d d' r :
  db_ok d -> upsertAspaInTransaction v true d = Ok (d', r) -> changes r <> 0 ->
  exists a, r_current r = Some a /\ db_ok d' /\ cache_serial d' = to_uint32 (cache_serial d + 1) /\
    r_cacheSerial r = cache_serial d' /\ rpki_roas d' = rpki_roas d /\
    rpki_aspas d' =
      match r_previous r with
      | Some _ => map (fun x => if customerAsn x =? customerAsn a then a else x) (rpki_aspas d)
      | None => rpki_aspas d ++ [a]
      end.
Proof.
  intros Hd He Hc. destruct (upsertAspa_moves v true d d' r Hd He) as [[? _]|(_ & d1 & Hok & Hs & ->)]; [done|].
  rewrite next_serial in * by apply Hok. cbn [fst] in *.
  unfold upsertAspaInTransaction in He. destruct v as [aspa|]; [|done]. cbn [normalizeAspaInput bind_result] in He.
  destruct (match stmt_getAspa _ d with Some _ => _ | None => _ end) eqn:Hid; [by simplify_eq|].
  exists aspa. destruct (stmt_getAspa (customerAsn aspa) d) as [row|] eqn:Hg;
    [unfold stmt_updateAspa in He | unfold stmt_insertAspa in He]; destruct (CHECK_aspa aspa); try done;
    cbn [bind_result] in He; rewrite next_serial in He by apply Hd; simplify_eq; cbn in *;
    (split_and!; try done; [by apply bumped_ok|by rewrite ?Hs..]).
Qed.

Lemma deleteAspa_spec n d d' r row :
  db_ok d -> deleteAspaInTransaction n d = Ok (d', r) -> r_previous r = Some row ->
  db_ok d' /\ cache_serial d' = to_uint32 (cache_serial d + 1) /\ r_cacheSerial r = cache_serial d' /\
  rpki_roas d' = rpki_roas d /\
  exists l1 l2, rpki_aspas d = l1 ++ row :: l2 /\ rpki_aspas d' = l1 ++ l2.
Proof.
  intros Hd He Hp. pose proof (deleteAspa_moves n d d' r Hd He) as Hm.
  unfold deleteAspaInTransaction, normalizeCustomerAsn in He. destruct (_ && _); [|done]. cbn [bind_result] in He.
  destruct (stmt_getAspa n d) as [row'|] eqn:Hg; [|by simplify_eq].
  destruct (delete_aspa_spec d n row' Hd Hg) as (l1 & l2 & Heq & Hdel).
  rewrite next_serial in He by apply Hd. simplify_eq. simplify_eq/=.
  destruct Hm as [Hm|[Hok Hs]].
  - apply (f_equal (fun d => length (rpki_aspas d))) in Hm. cbn in Hm, Hdel. rewrite Hdel, Heq, !length_app in Hm.
    cbn in Hm. lia.
  - split_and!; try done. exists l1, l2. done.
Qed.

(** A bulk operation that reports a change has bumped the serial it reports. *)
Lemma addRoaBatch_spec vs limit d d' r :
  db_ok d -> addRoaBatchInTransaction vs limit d = Ok (d', r) ->
  changes r = 0 /\ d' = d \/ changes r <> 0 /\ db_ok d' /\ cache_serial d' = to_uint32 (cache_serial d + 1) /\
    r_cacheSerial r = cache_serial d'.
Proof.
  intros Hd. unfold addRoaBatchInTransaction.
  destruct (insert_roas vs _ 0 d) as [[d1 m]|] eqn:Hi; [|done]. cbn [bind_result].
  apply insert_roas_ok in Hi as (Hm & Hok & Hc & Hs & He);
    [|destruct Hd as [H1 ? ? ? ?]; constructor; cbn; try done; lia|lia].
  destruct (Z.ltb_spec 0 m).
  - rewrite next_serial by apply Hok. intros [= <- <-]. cbn [changes]. right. split; [lia|].
    pose proof (bumped_ok _ Hok). cbn in *. by rewrite <- Hs.
  - rewrite He by lia. intros [= <- <-]. left. cbn. auto with lia.
Qed.

Lemma upsertAspaBatch_spec vs d d' r :
  db_ok d -> upsertAspaBatchInTransaction vs d = Ok (d', r) ->
  changes r = 0 /\ d' = d \/ 0 < changes r /\ db_ok d' /\ cache_serial d' = to_uint32 (cache_serial d + 1) /\
    r_cacheSerial r = cache_serial d'.
Proof.
  intros Hd. unfold upsertAspaBatchInTransaction.
  destruct (upsert_aspas vs 0 d) as [[d1 m]|] eqn:Hu; [|done]. cbn [bind_result].
  apply upsert_aspas_ok in Hu as (Hm & Hok & Hs & He); [|done].
  destruct (Z.ltb_spec 0 m).
  - rewrite next_serial by apply Hok. intros [= <- <-]. cbn [changes]. right. split; [lia|].
    pose proof (bumped_ok _ Hok). cbn in *. by rewrite <- Hs.
  - rewrite He by lia. intros [= <- <-]. left. cbn. auto with lia.
Qed.
