(* ===== verification/RpkiWorker.v ===== *)
(** The RPKI cache ([electron/worker/rpki/rpkiWorker.js]): the data set behind the
    sessions, its serial number and the history of changes from which serial
    queries are answered.

    The storage tasks run one at a time (the worker chains them), so each request is
    one action on the worker.  The size of a change is [JSON.stringify] of its
    operations; the proofs hold for any size, so it is a parameter ([None]: the call
    throws). *)

From stdpp Require Import base list numbers strings option.
From Stdlib Require Import ZArith Lia.
From S2P Require Import Prelude Actions RpkiStore.

Local Open Scope Z_scope.
Local Open Scope js_scope.

(** ** Operations and history *)

(** [{ type, action, data }] objects. *)
Inductive delta_operation :=
| RoaAnnounce (data : rpki_roa)
| RoaWithdraw (data : rpki_roa)
| RouterKeyAnnounce (data : rpki_router_key)
| RouterKeyWithdraw (data : rpki_router_key)
| AspaAnnounce (data : rpki_aspa)
| AspaWithdraw (data : rpki_aspa)
| AspaReplace (oldData newData : rpki_aspa).

Record serial_entry := {
  e_serial : Z;
  e_operations : list delta_operation;
  e_bytes : Z
}.

(** A [Map] in insertion order. *)
Abbreviation key_map := (list (list Z * rpki_router_key)).

Fixpoint map_get (m : key_map) (k : jsstring) : option rpki_router_key :=
  match m with
  | [] => None
  | (k', v) :: tl => if bool_decide (k = k') then Some v else map_get tl k
  end.

Fixpoint map_set (m : key_map) (k : jsstring) (v : rpki_router_key) : key_map :=
  match m with
  | [] => [(k, v)]
  | (k', v') :: tl => if bool_decide (k = k') then (k, v) :: tl else (k', v') :: map_set tl k v
  end.

Definition map_delete (m : key_map) (k : jsstring) : key_map :=
  List.filter (fun e => negb (bool_decide (k = e.1))) m.

Record RpkiWorker := {
  rpkiRouterKeyMap : key_map;
  rpkiStore : option rpki_db;
  cacheSerial : Z;
  serialHistory : list serial_entry;
  serialHistoryOperationCount : Z;
  serialHistoryBytes : Z;
  storageStopping : bool
}.

#[export] Instance RpkiWorker_rebuild : Rebuild RpkiWorker := fun w => {|
  rpkiRouterKeyMap := rpkiRouterKeyMap w; rpkiStore := rpkiStore w; cacheSerial := cacheSerial w;
  serialHistory := serialHistory w; serialHistoryOperationCount := serialHistoryOperationCount w;
  serialHistoryBytes := serialHistoryBytes w; storageStopping := storageStopping w |}.

Definition maxSerialHistoryEntries : Z := 1024.
Definition maxSerialHistoryOperations : Z := 10000.
Definition maxSerialHistoryBytes : Z := 16 * 1024 * 1024.

(** What a request causes: a Serial Notify to every session, and the answer. *)
Inductive worker_effect :=
| NotifySessions
| Success
| Failure (e : js_exn).

Definition normalizeCacheSerial (value fallback : Z) : Z :=
  if value <? 0 then to_uint32 fallback else to_uint32 value.

Definition getStoreCacheSerial (w : RpkiWorker) : Z :=
  match rpkiStore w with
  | None => to_uint32 (cacheSerial w)
  | Some d => normalizeCacheSerial (getCacheSerial d) (cacheSerial w)
  end.

Definition openRpkiStore (d : rpki_db) (w : RpkiWorker) : RpkiWorker :=
  let w := w <| rpkiStore := Some d |> in
  w <| cacheSerial := getStoreCacheSerial w |>.

Definition clearSerialHistory (w : RpkiWorker) : RpkiWorker :=
  w <| serialHistory := [] |> <| serialHistoryOperationCount := 0 |> <| serialHistoryBytes := 0 |>.

Definition restoreInitialRouterKeys (keys : list rpki_router_key) (w : RpkiWorker) : RpkiWorker :=
  w <| rpkiRouterKeyMap := fold_left (fun m k => map_set m (router_key_makeKey k) k) keys [] |>.

(** The state in which [startRpki] leaves the cache. *)
Definition startRpki (d : rpki_db) (keys : list rpki_router_key) (w : RpkiWorker) : RpkiWorker :=
  clearSerialHistory (restoreInitialRouterKeys keys (openRpkiStore d w)).

Definition RpkiWorker_new : RpkiWorker := {|
  rpkiRouterKeyMap := []; rpkiStore := None; cacheSerial := 1; serialHistory := [];
  serialHistoryOperationCount := 0; serialHistoryBytes := 0; storageStopping := false |}.

Definition bumpCacheSerial (w : RpkiWorker) : RpkiWorker * Z :=
  let w :=
    match rpkiStore w with
    | Some d =>
      let '(d, n) := bumpCacheSerialInTransaction d in
      w <| rpkiStore := Some d |> <| cacheSerial := normalizeCacheSerial n (cacheSerial w) |>
    | None => w <| cacheSerial := to_uint32 (cacheSerial w + 1) |>
    end in
  (w, cacheSerial w).

(** The condition of the trimming loop. *)
Definition history_over_limit (history : list serial_entry) (count bytes : Z) : bool :=
  (maxSerialHistoryEntries <? blen history) || (maxSerialHistoryOperations <? count)
  || (maxSerialHistoryBytes <? bytes).

(** [while (too much) shift()].  An empty history ends the recursion: the counters are
    then zero ([wk_count], [wk_bytes]), so the loop has ended as well. *)
Fixpoint trim_loop (history : list serial_entry) (count bytes : Z) : list serial_entry * Z * Z :=
  match history with
  | [] => ([], count, bytes)
  | removed :: tl =>
    if history_over_limit history count bytes
    then trim_loop tl (count - blen (e_operations removed)) (bytes - e_bytes removed)
    else (history, count, bytes)
  end.

Definition trimSerialHistory (w : RpkiWorker) : RpkiWorker :=
  let '(h, count, bytes) :=
    trim_loop (serialHistory w) (serialHistoryOperationCount w) (serialHistoryBytes w) in
  w <| serialHistory := h |> <| serialHistoryOperationCount := count |> <| serialHistoryBytes := bytes |>.

Definition isSerialNewer (candidate reference : Z) : bool :=
  let distance := to_uint32 (candidate - reference) in
  negb (distance =? 0) && (distance <? 2147483648).

Record resolved_serial := { rs_serial : Z; rs_forceInvalidate : bool }.

Definition resolveMutationSerial (provided : option Z) (w : RpkiWorker) : RpkiWorker * resolved_serial :=
  let previousSerial := to_uint32 (cacheSerial w) in
  let providedSerial := (fun n => normalizeCacheSerial n previousSerial) <$> provided in
  let storeSerial := getStoreCacheSerial w in
  let serial := previousSerial in
  let serial := if isSerialNewer storeSerial serial then storeSerial else serial in
  let serial :=
    match providedSerial with
    | Some p => if isSerialNewer p serial then p else serial
    | None => serial
    end in
  let providedIsNext :=
    match providedSerial with
    | None => true
    | Some p => p =? to_uint32 (previousSerial + 1)
    end in
  let '(w, serial) := if serial =? previousSerial then bumpCacheSerial w else (w, serial) in
  (w, {| rs_serial := serial;
         rs_forceInvalidate := negb providedIsNext || negb (serial =? to_uint32 (previousSerial + 1)) |}).

Section Worker.
Context (json_bytes : list delta_operation -> option Z).

Definition estimateSerialOperationsBytes (operations : list delta_operation) : Z :=
  default (maxSerialHistoryBytes + 1) (json_bytes operations).

Definition recordSerialDeltaAndNotify (operations : list delta_operation) (provided : option Z)
  (invalidate notifyOnSameSerial : bool) (w : RpkiWorker) : RpkiWorker * list worker_effect :=
  let previousSerial := to_uint32 (cacheSerial w) in
  let '(w, resolved) := resolveMutationSerial provided w in
  let serial := rs_serial resolved in
  let operationBytes := estimateSerialOperationsBytes operations in
  let invalidated :=
    invalidate || rs_forceInvalidate resolved || (maxSerialHistoryOperations <? blen operations)
    || (maxSerialHistoryBytes <? operationBytes) || negb (serial =? to_uint32 (previousSerial + 1)) in
  let w := w <| cacheSerial := serial |> in
  let w :=
    if invalidated then clearSerialHistory w
    else match operations with
         | [] => w
         | _ :: _ =>
           trimSerialHistory
             (w <| serialHistory := serialHistory w ++
                     [{| e_serial := serial; e_operations := operations; e_bytes := operationBytes |}] |>
                <| serialHistoryOperationCount := serialHistoryOperationCount w + blen operations |>
                <| serialHistoryBytes := serialHistoryBytes w + operationBytes |>)
         end in
  (w, if negb (serial =? previousSerial) || notifyOnSameSerial then [NotifySessions] else []).

(** ** Requests *)

Definition assertStorageAvailable (w : RpkiWorker) : result rpki_db :=
  if storageStopping w then Throw (ErrorMsg "storage is stopping")
  else match rpkiStore w with
       | None => Throw (ErrorMsg "not started")
       | Some d => Ok d
       end.

(** A storage task: what it does with the tables, or the exception that leaves the
    worker as it was. *)
Definition handleStorageRequest (task : rpki_db -> RpkiWorker -> result (RpkiWorker * list worker_effect))
  : action_of RpkiWorker worker_effect := fun w =>
  match (let! d := assertStorageAvailable w in task d w) with
  | Ok (w', out) => (w', out ++ [Success])
  | Throw e => (w, [Failure e])
  end.

Definition datasetChanged (operations : list delta_operation) (provided : option Z) (invalidate : bool) :=
  handleStorageRequest (fun _ w => Ok (recordSerialDeltaAndNotify operations provided invalidate false w)).

Definition addRoa (value : option rpki_roa) :=
  handleStorageRequest (fun d w =>
    let! (d, r) := addRoaInTransaction value d in
    let w' := w <| rpkiStore := Some d |> in
    if changes r =? 0 then Throw (ErrorMsg "RPKI ROA exists")
    else
      match r_current r with
      | Some roa =>
        Ok (recordSerialDeltaAndNotify [RoaAnnounce roa] (Some (r_cacheSerial r)) false false w')
      | None => Throw TypeError
      end).

Definition addRoaBatch (values : list (option rpki_roa)) (limit : option Z) :=
  handleStorageRequest (fun d w =>
    let! (d, r) := addRoaBatchInTransaction values limit d in
    let w' := w <| rpkiStore := Some d |> in
    if changes r =? 0 then Ok (w', [])
    else Ok (recordSerialDeltaAndNotify [] (Some (r_cacheSerial r)) true false w')).

Definition deleteRoa (value : option rpki_roa) :=
  handleStorageRequest (fun d w =>
    let! (d, r) := deleteRoaInTransaction value d in
    let w' := w <| rpkiStore := Some d |> in
    match r_previous r with
    | Some roa =>
      Ok (recordSerialDeltaAndNotify [RoaWithdraw roa] (Some (r_cacheSerial r)) false false w')
    | None => Throw (ErrorMsg "RPKI ROA does not exist")
    end).

Definition deleteRoaBatch :=
  handleStorageRequest (fun d w =>
    let '(d, r) := clearRoasInTransaction d in
    let w' := w <| rpkiStore := Some d |> in
    if 0 <? changes r
    then Ok (recordSerialDeltaAndNotify [] (Some (r_cacheSerial r)) true false w')
    else Ok (w', [])).

Definition addRouterKey (k : rpki_router_key) :=
  handleStorageRequest (fun _ w =>
    let key := router_key_makeKey k in
    match map_get (rpkiRouterKeyMap w) key with
    | Some _ => Throw (ErrorMsg "RouterKey exists")
    | None =>
      let w := w <| rpkiRouterKeyMap := map_set (rpkiRouterKeyMap w) key k |> in
      Ok (recordSerialDeltaAndNotify [RouterKeyAnnounce k] None false false w)
    end).

Definition deleteRouterKey (k : rpki_router_key) :=
  handleStorageRequest (fun _ w =>
    let key := router_key_makeKey k in
    match map_get (rpkiRouterKeyMap w) key with
    | None => Throw (ErrorMsg "RouterKey does not exist")
    | Some rk =>
      let w := w <| rpkiRouterKeyMap := map_delete (rpkiRouterKeyMap w) key |> in
      Ok (recordSerialDeltaAndNotify [RouterKeyWithdraw rk] None false false w)
    end).

Definition addAspa (value : option rpki_aspa) :=
  handleStorageRequest (fun d w =>
    let! (d, r) := upsertAspaInTransaction value true d in
    let w' := w <| rpkiStore := Some d |> in
    if changes r =? 0 then Ok (w', [])
    else
      match r_current r with
      | Some current =>
        let operation :=
          match r_previous r with
          | Some previous => AspaReplace previous current
          | None => AspaAnnounce current
          end in
        Ok (recordSerialDeltaAndNotify [operation] (Some (r_cacheSerial r)) false false w')
      | None => Throw TypeError
      end).

Definition addAspaBatch (values : list (option rpki_aspa)) :=
  handleStorageRequest (fun d w =>
    let! (d, r) := upsertAspaBatchInTransaction values d in
    let w' := w <| rpkiStore := Some d |> in
    if 0 <? changes r
    then Ok (recordSerialDeltaAndNotify [] (Some (r_cacheSerial r)) true false w')
    else Ok (w', [])).

Definition deleteAspa (n : Z) :=
  handleStorageRequest (fun d w =>
    let! (d, r) := deleteAspaInTransaction n d in
    let w' := w <| rpkiStore := Some d |> in
    match r_previous r with
    | Some aspa =>
      Ok (recordSerialDeltaAndNotify [AspaWithdraw aspa] (Some (r_cacheSerial r)) false false w')
    | None => Throw (ErrorMsg "ASPA does not exist")
    end).

Definition deleteAspaBatch :=
  handleStorageRequest (fun d w =>
    let '(d, r) := clearAspasInTransaction d in
    let w' := w <| rpkiStore := Some d |> in
    if 0 <? changes r
    then Ok (recordSerialDeltaAndNotify [] (Some (r_cacheSerial r)) true false w')
    else Ok (w', [])).

(** An import runs in another thread and answers whether it changed the database,
    [d'] being the database it leaves ([importRoaJson], [importAspaJson]). *)
Definition importJson (d' : rpki_db) (changed : bool) :=
  handleStorageRequest (fun d w =>
    if changed
    then Ok (recordSerialDeltaAndNotify [] (Some (getCacheSerial d')) true false (w <| rpkiStore := Some d' |>))
    else Ok (w, [])).
End Worker.

(** ** Answers to serial queries *)

(** The entries from the first one with the given serial number on. *)
Fixpoint entries_from (serial : Z) (history : list serial_entry) : list serial_entry :=
  match history with
  | [] => []
  | e :: tl => if e_serial e =? serial then history else entries_from serial tl
  end.

Fixpoint collect_operations (expected : Z) (entries : list serial_entry) (operations : list delta_operation)
  : option (list delta_operation) :=
  match entries with
  | [] => Some operations
  | e :: tl =>
    if e_serial e =? expected
    then collect_operations (to_uint32 (expected + 1)) tl (operations ++ e_operations e)
    else None
  end.

Definition getDeltaOperationsSince (serial : Z) (w : RpkiWorker) : option (list delta_operation) :=
  let requestedSerial := to_uint32 serial in
  let currentSerial := to_uint32 (cacheSerial w) in
  if requestedSerial =? currentSerial then Some []
  else
    let expectedFirstSerial := to_uint32 (requestedSerial + 1) in
    let entries := entries_from expectedFirstSerial (serialHistory w) in
    match list.last entries with
    | None => None
    | Some e =>
      if e_serial e =? currentSerial then collect_operations expectedFirstSerial entries []
      else None
    end.

(** * The data set a router should hold *)

Record dataset := {
  d_roas : list rpki_roa;
  d_aspas : list rpki_aspa;
  d_keys : list rpki_router_key
}.

Definition dataset_of (w : RpkiWorker) : dataset := {|
  d_roas := match rpkiStore w with Some d => rpki_roas d | None => [] end;
  d_aspas := match rpkiStore w with Some d => rpki_aspas d | None => [] end;
  d_keys := map snd (rpkiRouterKeyMap w) |}.

Definition remove_one {A} `{EqDecision A} (x : A) (xs : list A) : list A :=
  List.filter (fun y => negb (bool_decide (x = y))) xs.

Arguments remove_one : simpl never.

(** What an operation means to a router: an ASPA is identified by its customer. *)
Definition apply_operation (op : delta_operation) (d : dataset) : dataset :=
  match op with
  | RoaAnnounce r => {| d_roas := d_roas d ++ [r]; d_aspas := d_aspas d; d_keys := d_keys d |}
  | RoaWithdraw r => {| d_roas := remove_one r (d_roas d); d_aspas := d_aspas d; d_keys := d_keys d |}
  | RouterKeyAnnounce k => {| d_roas := d_roas d; d_aspas := d_aspas d; d_keys := d_keys d ++ [k] |}
  | RouterKeyWithdraw k => {| d_roas := d_roas d; d_aspas := d_aspas d; d_keys := remove_one k (d_keys d) |}
  | AspaAnnounce a => {| d_roas := d_roas d; d_aspas := d_aspas d ++ [a]; d_keys := d_keys d |}
  | AspaWithdraw a => {| d_roas := d_roas d; d_aspas := remove_one a (d_aspas d); d_keys := d_keys d |}
  | AspaReplace _ a => {| d_roas := d_roas d;
      d_aspas := map (fun x => if customerAsn x =? customerAsn a then a else x) (d_aspas d); d_keys := d_keys d |}
  end.

Definition apply_operations (ops : list delta_operation) (d : dataset) : dataset :=
  fold_left (fun d op => apply_operation op d) ops d.

(** ** Well-formed workers *)

Fixpoint sum_operations (h : list serial_entry) : Z :=
  match h with [] => 0 | e :: tl => blen (e_operations e) + sum_operations tl end.
Fixpoint sum_bytes (h : list serial_entry) : Z :=
  match h with [] => 0 | e :: tl => e_bytes e + sum_bytes tl end.

Record worker_ok (w : RpkiWorker) : Prop := {
  wk_db : exists d, rpkiStore w = Some d /\ db_ok d /\ cache_serial d = cacheSerial w;
  wk_keys : Forall (fun e => e.1 = router_key_makeKey e.2) (rpkiRouterKeyMap w);
  wk_nodup : NoDup (map fst (rpkiRouterKeyMap w));
  wk_count : serialHistoryOperationCount w = sum_operations (serialHistory w);
  wk_bytes : serialHistoryBytes w = sum_bytes (serialHistory w);
  wk_limit : history_over_limit (serialHistory w) (serialHistoryOperationCount w) (serialHistoryBytes w) = false
}.

Lemma sum_operations_app a b : sum_operations (a ++ b) = sum_operations a + sum_operations b.
Proof. induction a as [|e a IH]; cbn [app sum_operations sum_bytes]; [lia|]. rewrite IH. lia. Qed.

Lemma sum_bytes_app a b : sum_bytes (a ++ b) = sum_bytes a + sum_bytes b.
Proof. induction a as [|e a IH]; cbn [app sum_operations sum_bytes]; [lia|]. rewrite IH. lia. Qed.

(** An entry within the limits is not trimmed when it is added. *)
Lemma trim_keeps_last h e :
  history_over_limit [e] (blen (e_operations e)) (e_bytes e) = false ->
  exists removed kept, h = removed ++ kept /\
    trim_loop (h ++ [e]) (sum_operations (h ++ [e])) (sum_bytes (h ++ [e])) =
      (kept ++ [e], sum_operations (kept ++ [e]), sum_bytes (kept ++ [e])) /\
    history_over_limit (kept ++ [e]) (sum_operations (kept ++ [e])) (sum_bytes (kept ++ [e])) = false.
Proof.
  intros He. induction h as [|x h IH]; cbn [app trim_loop].
  - cbn [sum_operations sum_bytes]. rewrite !Z.add_0_r, He. exists [], []. cbn [app sum_operations sum_bytes].
    by rewrite !Z.add_0_r.
  - destruct (history_over_limit (x :: h ++ [e]) _ _) eqn:Hover; [|by exists [], (x :: h)].
    destruct IH as (removed & kept & -> & Ht & Hl). exists (x :: removed), kept. split; [done|].
    split; [|done]. cbn [sum_operations sum_bytes].
    replace (_ + _ - blen (e_operations x)) with (sum_operations ((removed ++ kept) ++ [e])) by lia.
    by replace (_ + _ - e_bytes x) with (sum_bytes ((removed ++ kept) ++ [e])) by lia.
Qed.

Lemma to_uint32_small x : 0 <= x < 2 ^ 32 -> to_uint32 x = x.
Proof. apply Z.mod_small. Qed.

Lemma newer_next n : isSerialNewer (to_uint32 (n + 1)) (to_uint32 n) = true.
Proof.
  unfold isSerialNewer, to_uint32. rewrite <- Zminus_mod. replace (n + 1 - n) with 1 by lia. reflexivity.
Qed.

Lemma newer_same n : isSerialNewer n n = false.
Proof. unfold isSerialNewer. by rewrite Z.sub_diag. Qed.

Lemma next_neq n : to_uint32 (n + 1) <> to_uint32 n.
Proof. unfold to_uint32. intros H. Z.div_mod_to_equations. lia. Qed.

(** A change of the store by one step: the serial it reports is accepted. *)
Lemma resolve_provided w n d :
  rpkiStore w = Some d -> db_ok d -> cacheSerial w = to_uint32 n -> cache_serial d = to_uint32 (n + 1) ->
  resolveMutationSerial (Some (to_uint32 (n + 1))) w =
  (w, {| rs_serial := to_uint32 (n + 1); rs_forceInvalidate := false |}).
Proof.
  intros Hs Hd Hc Hn. unfold resolveMutationSerial, getStoreCacheSerial. rewrite Hs, (getCacheSerial_ok d Hd), Hn, Hc.
  assert (forall f, normalizeCacheSerial (to_uint32 (n + 1)) f = to_uint32 (n + 1)) as Hnorm.
  { intros f. unfold normalizeCacheSerial. pose proof (to_uint32_range (n + 1)).
    decide_test (to_uint32 (n + 1) <? 0) false. by apply to_uint32_small. }
  cbn [fmap option_fmap option_map]. rewrite !Hnorm.
  rewrite (to_uint32_small (to_uint32 n)) by apply to_uint32_range.
  rewrite newer_next, newer_same. replace (to_uint32 (to_uint32 n + 1)) with (to_uint32 (n + 1))
    by (unfold to_uint32; by rewrite Zplus_mod_idemp_l).
  rewrite (proj2 (Z.eqb_neq _ _) (next_neq n)), !Z.eqb_refl. done.
Qed.

(** A change outside the store bumps the serial itself. *)
Lemma resolve_bump w n d :
  rpkiStore w = Some d -> db_ok d -> cacheSerial w = to_uint32 n -> cache_serial d = to_uint32 n ->
  resolveMutationSerial None w =
  (w <| rpkiStore := Some (d <| cache_serial := to_uint32 (n + 1) |>) |> <| cacheSerial := to_uint32 (n + 1) |>,
   {| rs_serial := to_uint32 (n + 1); rs_forceInvalidate := false |}).
Proof.
  intros Hs Hd Hc Hn. unfold resolveMutationSerial, getStoreCacheSerial. rewrite Hs, (getCacheSerial_ok d Hd), Hn, Hc.
  assert (forall m f, normalizeCacheSerial (to_uint32 m) f = to_uint32 m) as Hnorm.
  { intros m f. unfold normalizeCacheSerial. pose proof (to_uint32_range m).
    decide_test (to_uint32 m <? 0) false. by apply to_uint32_small. }
  cbn [fmap option_fmap option_map]. rewrite !Hnorm.
  rewrite (to_uint32_small (to_uint32 n)) by apply to_uint32_range.
  rewrite newer_same, Z.eqb_refl. unfold bumpCacheSerial. rewrite Hs, next_serial by apply Hd. rewrite Hn.
  replace (to_uint32 (to_uint32 n + 1)) with (to_uint32 (n + 1)) by (unfold to_uint32; by rewrite Zplus_mod_idemp_l).
  rewrite Hnorm. cbn. by rewrite Z.eqb_refl.
Qed.

(** ** One change of the data set *)

Section History.
Context (json_bytes : list delta_operation -> option Z).

(** A change small enough to be kept. *)
Definition fits (ops : list delta_operation) : bool :=
  (blen ops <=? maxSerialHistoryOperations)
  && (estimateSerialOperationsBytes json_bytes ops <=? maxSerialHistoryBytes).

(** The history ends with the change, after entries it had before. *)
Definition extends_history (n : Z) (ops : list delta_operation) (w w' : RpkiWorker) : Prop :=
  exists kept e, serialHistory w' = kept ++ [e] /\ kept ⊆ serialHistory w /\
    e_serial e = to_uint32 (n + 1) /\ e_operations e = ops.

Lemma record_spec ops provided inv w w1 n :
  cacheSerial w = to_uint32 n ->
  resolveMutationSerial provided w = (w1, {| rs_serial := to_uint32 (n + 1); rs_forceInvalidate := false |}) ->
  serialHistory w1 = serialHistory w ->
  serialHistoryOperationCount w1 = sum_operations (serialHistory w1) ->
  serialHistoryBytes w1 = sum_bytes (serialHistory w1) ->
  history_over_limit (serialHistory w1) (serialHistoryOperationCount w1) (serialHistoryBytes w1) = false ->
  inv = true \/ ops <> [] ->
  exists w2, recordSerialDeltaAndNotify json_bytes ops provided inv false w = (w2, [NotifySessions]) /\
    cacheSerial w2 = to_uint32 (n + 1) /\ rpkiStore w2 = rpkiStore w1 /\
    rpkiRouterKeyMap w2 = rpkiRouterKeyMap w1 /\ storageStopping w2 = storageStopping w1 /\
    serialHistoryOperationCount w2 = sum_operations (serialHistory w2) /\
    serialHistoryBytes w2 = sum_bytes (serialHistory w2) /\
    history_over_limit (serialHistory w2) (serialHistoryOperationCount w2) (serialHistoryBytes w2) = false /\
    (if inv || negb (fits ops) then serialHistory w2 = [] else extends_history n ops w w2).
Proof.
  intros Hc Hr Hh Hcount Hbytes Hlim Hops. unfold recordSerialDeltaAndNotify. rewrite Hr, Hc. cbn [rs_serial rs_forceInvalidate].
  rewrite (to_uint32_small (to_uint32 n)) by apply to_uint32_range.
  replace (to_uint32 (to_uint32 n + 1)) with (to_uint32 (n + 1)) by (unfold to_uint32; by rewrite Zplus_mod_idemp_l).
  rewrite Z.eqb_refl, (proj2 (Z.eqb_neq _ _) (next_neq n)). cbn [negb orb]. rewrite !orb_false_r.
  eexists. split; [reflexivity|].
  assert (inv || (maxSerialHistoryOperations <? blen ops)
            || (maxSerialHistoryBytes <? estimateSerialOperationsBytes json_bytes ops) = inv || negb (fits ops)) as ->.
  { unfold fits. rewrite negb_andb, !Z.leb_antisym, !negb_involutive. by destruct inv. }
  destruct (inv || negb (fits ops)) eqn:Hinv; [done|].
  apply orb_false_iff in Hinv as [-> Hfits]. apply negb_false_iff in Hfits.
  destruct ops as [|op ops]; [by destruct Hops|]. unfold trimSerialHistory.
  cbn [serialHistory serialHistoryOperationCount serialHistoryBytes modify RpkiWorker_rebuild].
  set (e := {| e_serial := _ |}). unfold fits in Hfits. bool_hyps.
  destruct (trim_keeps_last (serialHistory w1) e) as (removed & kept & Heq & Ht & Hl).
  { unfold history_over_limit. subst e. cbn [e_operations e_bytes].
    rewrite !orb_false_iff, !Z.ltb_ge. by split_and!. }
  rewrite sum_operations_app, sum_bytes_app in Ht. cbn [sum_operations sum_bytes] in Ht. rewrite !Z.add_0_r in Ht.
  rewrite <- Hcount, <- Hbytes in Ht. change (e_operations e) with (op :: ops) in Ht.
  change (e_bytes e) with (estimateSerialOperationsBytes json_bytes (op :: ops)) in Ht.
  cbn. rewrite Ht. cbn. split_and!; try done. exists kept, e. split; [done|]. split; [|done].
  rewrite <- Hh, Heq. intros x Hx. apply elem_of_app. by right.
Qed.

(** What one request does to the cache: nothing, or one step of the serial number
    with a matching change of the data set. *)
Definition advances (n : Z) (bulk : bool) (w w' : RpkiWorker) : Prop :=
  worker_ok w' /\ cacheSerial w' = to_uint32 (n + 1) /\
  if bulk then serialHistory w' = []
  else exists op, apply_operation op (dataset_of w) = dataset_of w' /\
    if fits [op] then extends_history n [op] w w' else serialHistory w' = [].

(** A change recorded after the store has moved on by one. *)
Lemma record_store w n d' op :
  worker_ok w -> cacheSerial w = to_uint32 n -> db_ok d' -> cache_serial d' = to_uint32 (n + 1) ->
  (forall o, op = Some o -> apply_operation o (dataset_of w) = dataset_of (w <| rpkiStore := Some d' |>)) ->
  exists w', recordSerialDeltaAndNotify json_bytes (option_list op) (Some (to_uint32 (n + 1)))
               (bool_decide (op = None)) false (w <| rpkiStore := Some d' |>) = (w', [NotifySessions]) /\
    advances n (bool_decide (op = None)) w w'.
Proof.
  intros Hw Hc Hd Hs Hops. destruct Hw as [_ Hk Hnd Hcount Hbytes Hlim].
  set (w1 := w <| rpkiStore := Some d' |>) in *.
  destruct (record_spec (option_list op) (Some (to_uint32 (n + 1))) (bool_decide (op = None)) w1 w1 n Hc) as (w2 & Hrec & Hc2 & Hst2 & Hm2 & Hstop & H1 & H2 & H3 & Hh); try done.
  { by apply resolve_provided with (d := d'). }
  { destruct op; [by right | by left]. }
  exists w2. split; [done|]. split; [|split; [done|]].
  - constructor; try done; [|by rewrite Hm2..]. exists d'. rewrite Hst2, Hc2. done.
  - destruct op as [op|]; [rewrite bool_decide_false in * by done|by rewrite bool_decide_true in * by done].
    exists op. split.
    + rewrite (Hops op) by done. unfold dataset_of. by rewrite Hst2, Hm2.
    + change (option_list (Some op)) with [op] in Hh. cbn [orb] in Hh. by destruct (fits [op]).
Qed.

Lemma record_change w n d' op :
  worker_ok w -> cacheSerial w = to_uint32 n -> db_ok d' -> cache_serial d' = to_uint32 (n + 1) ->
  apply_operation op (dataset_of w) = dataset_of (w <| rpkiStore := Some d' |>) ->
  exists w', recordSerialDeltaAndNotify json_bytes [op] (Some (to_uint32 (n + 1))) false false
               (w <| rpkiStore := Some d' |>) = (w', [NotifySessions]) /\ advances n false w w'.
Proof.
  intros Hw Hc Hd Hs Hop. destruct (record_store w n d' (Some op)) as (w' & Hr & Ha); try done.
  { by intros o [= <-]. }
  rewrite bool_decide_false in Hr, Ha by done. by exists w'.
Qed.

(** A bulk change of the store, after which routers must reset. *)
Lemma bulk_change w n d' :
  worker_ok w -> cacheSerial w = to_uint32 n -> db_ok d' -> cache_serial d' = to_uint32 (n + 1) ->
  exists w', recordSerialDeltaAndNotify json_bytes [] (Some (cache_serial d')) true false
    (w <| rpkiStore := Some d' |>) = (w', [NotifySessions]) /\ advances n true w w'.
Proof.
  intros Hw Hc Hok Hs. destruct (record_store w n d' None) as (w' & Hr & Ha); try done.
  rewrite bool_decide_true in Hr, Ha by done. rewrite Hs. by exists w'.
Qed.

(** A change of the router keys, which the store does not hold. *)
Lemma record_keys w n keys op :
  worker_ok w -> cacheSerial w = to_uint32 n ->
  Forall (fun e => e.1 = router_key_makeKey e.2) keys -> NoDup (map fst keys) ->
  apply_operation op (dataset_of w) = dataset_of (w <| rpkiRouterKeyMap := keys |>) ->
  exists w', recordSerialDeltaAndNotify json_bytes [op] None false false
               (w <| rpkiRouterKeyMap := keys |>) = (w', [NotifySessions]) /\ advances n false w w'.
Proof.
  intros Hw Hc Hkeys Hnodup Hops. destruct Hw as [(d & Hd & Hok & Hs) Hk Hnd Hcount Hbytes Hlim].
  set (w1 := w <| rpkiRouterKeyMap := keys |>) in *.
  set (w1' := w1 <| rpkiStore := Some (d <| cache_serial := to_uint32 (n + 1) |>) |>
                 <| cacheSerial := to_uint32 (n + 1) |>).
  destruct (record_spec [op] None false w1 w1' n Hc) as (w2 & Hrec & Hc2 & Hst2 & Hm2 & Hstop & H1 & H2 & H3 & Hh);
    try done.
  { apply resolve_bump; [done | done | done | congruence]. }
  { by right. }
  exists w2. split; [done|]. split; [|split; [done|]].
  - constructor; try done; [|by rewrite Hm2..]. eexists. rewrite Hst2, Hc2. split; [done|].
    split; [|done]. destruct Hok. constructor; try done. apply to_uint32_range.
  - exists op. split.
    + rewrite Hops. unfold dataset_of. rewrite Hst2, Hm2. cbn. by rewrite Hd.
    + cbn [orb] in Hh. by destruct (fits [op]).
Qed.
End History.

(** ** Requests *)

Inductive cache_request :=
| ReqAddRoa (v : option rpki_roa)
| ReqAddRoaBatch (vs : list (option rpki_roa)) (limit : option Z)
| ReqDeleteRoa (v : option rpki_roa)
| ReqDeleteRoaBatch
| ReqAddRouterKey (k : rpki_router_key)
| ReqDeleteRouterKey (k : rpki_router_key)
| ReqAddAspa (v : option rpki_aspa)
| ReqAddAspaBatch (vs : list (option rpki_aspa))
| ReqDeleteAspa (n : Z)
| ReqDeleteAspaBatch
| ReqImport (d' : rpki_db) (changed : bool).

Lemma remove_one_mid {A} `{EqDecision A} (x : A) l1 l2 :
  x ∉ l1 -> x ∉ l2 -> remove_one x (l1 ++ x :: l2) = l1 ++ l2.
Proof.
  intros H1 H2. unfold remove_one. rewrite List.filter_app. cbn. rewrite bool_decide_true by done. cbn.
  rewrite !(filter_absent (fun y => y) _ _ x); try done; try (by rewrite map_id);
    intros y; rewrite negb_false_iff, bool_decide_eq_true; split; congruence.
Qed.

Lemma remove_one_key {A K} `{EqDecision A} (key : A -> K) (x : A) l1 l2 :
  NoDup (map key (l1 ++ x :: l2)) -> remove_one x (l1 ++ x :: l2) = l1 ++ l2.
Proof.
  intros Hnd%NoDup_fmap_1. apply list.NoDup_app in Hnd as (_ & Hd & Hnd).
  apply list.NoDup_cons in Hnd as [Hn _]. apply remove_one_mid; [|done].
  intros Hx. apply (Hd x Hx). by left.
Qed.

Lemma map_get_Some m k v : map_get m k = Some v -> (k, v) ∈ m.
Proof.
  induction m as [|[k' v'] m IH]; cbn; [done|]. case_bool_decide as Hk; [intros [= <-]; subst; by left|].
  intros Hg. right. by apply IH.
Qed.

Lemma map_get_None m k : map_get m k = None -> (k ∉ map fst m) /\ (forall v, map_set m k v = m ++ [(k, v)]).
Proof.
  induction m as [|[k' v'] m IH]; cbn; [split; [by intros ?%elem_of_nil | done]|].
  case_bool_decide as Hk; [done|]. intros Hg. destruct (IH Hg) as [Hn Hs]. split.
  - by apply not_elem_of_cons.
  - intros v. by rewrite Hs.
Qed.

Section Requests.
Context (json_bytes : list delta_operation -> option Z).

Definition run_request (req : cache_request) : action_of RpkiWorker worker_effect :=
  match req with
  | ReqAddRoa v => addRoa json_bytes v
  | ReqAddRoaBatch vs limit => addRoaBatch json_bytes vs limit
  | ReqDeleteRoa v => deleteRoa json_bytes v
  | ReqDeleteRoaBatch => deleteRoaBatch json_bytes
  | ReqAddRouterKey k => addRouterKey json_bytes k
  | ReqDeleteRouterKey k => deleteRouterKey json_bytes k
  | ReqAddAspa v => addAspa json_bytes v
  | ReqAddAspaBatch vs => addAspaBatch json_bytes vs
  | ReqDeleteAspa n => deleteAspa json_bytes n
  | ReqDeleteAspaBatch => deleteAspaBatch json_bytes
  | ReqImport d' changed => importJson json_bytes d' changed
  end.

(** An import leaves a consistent database and bumps its serial number once. *)
Definition request_ok (req : cache_request) (w : RpkiWorker) : Prop :=
  match req with
  | ReqImport d' _ => db_ok d' /\ cache_serial d' = to_uint32 (cacheSerial w + 1)
  | _ => True
  end.

(** The requests that invalidate the history. *)
Definition is_bulk (req : cache_request) : bool :=
  match req with
  | ReqAddRoaBatch _ _ | ReqDeleteRoaBatch | ReqAddAspaBatch _ | ReqDeleteAspaBatch | ReqImport _ _ => true
  | _ => false
  end.

(** A request is answered with an error and changes nothing, succeeds without a
    change, or advances the cache by one. *)
Definition outcome (n : Z) (bulk : bool) (w : RpkiWorker) (r : RpkiWorker * list worker_effect) : Prop :=
  (exists e, r = (w, [Failure e])) \/ r = (w, [Success]) \/
  exists w', r = (w', [NotifySessions; Success]) /\ advances json_bytes n bulk w w'.

Lemma request_outcome n bulk w d task :
  rpkiStore w = Some d ->
  ((exists e, task d w = Throw e) \/ task d w = Ok (w, []) \/
   exists w', task d w = Ok (w', [NotifySessions]) /\ advances json_bytes n bulk w w') ->
  outcome n bulk w (handleStorageRequest task w).
Proof.
  intros Hd Ht. unfold handleStorageRequest, assertStorageAvailable.
  destruct (storageStopping w); [left; eexists; reflexivity|]. rewrite Hd. cbn [bind_result].
  destruct Ht as [(e & ->)|[->|(w' & -> & Ha)]].
  - left. by exists e.
  - right. by left.
  - right. right. by exists w'.
Qed.

Lemma same_store w d : rpkiStore w = Some d -> w <| rpkiStore := Some d |> = w.
Proof. intros Hd. destruct w. cbn in *. by subst. Qed.

Lemma u32_next n s : s = to_uint32 n -> to_uint32 (s + 1) = to_uint32 (n + 1).
Proof. intros ->. unfold to_uint32. by rewrite Zplus_mod_idemp_l. Qed.

Lemma store_of w n : worker_ok w -> cacheSerial w = to_uint32 n ->
  exists d, rpkiStore w = Some d /\ db_ok d /\ cache_serial d = to_uint32 n.
Proof. intros [(d & Hd & Hok & Hs) _ _ _ _ _] Hc. exists d. by rewrite Hs. Qed.

Lemma addRoa_outcome v n w : worker_ok w -> cacheSerial w = to_uint32 n -> outcome n false w (addRoa json_bytes v w).
Proof.
  intros Hw Hc. destruct (store_of w n Hw Hc) as (d & Hd & Hok & Hs). apply (request_outcome n false w d); [done|].
  destruct (addRoaInTransaction v d) as [[d' r]|e] eqn:Ha; cbn [bind_result]; [|eauto].
  destruct (Z.eqb_spec (changes r) 0) as [Hr|Hr]; [eauto|].
  destruct (addRoa_spec v d d' r Hok Ha Hr) as (roa & -> & Hok' & Hs' & -> & Hroas & Haspas).
  rewrite (u32_next n) in Hs' by done. right. right.
  rewrite Hs'. destruct (record_change json_bytes w n d' (RoaAnnounce roa)) as (w' & -> & Hadv); try done.
  { unfold dataset_of. cbn. by rewrite Hd, Hroas, Haspas. }
  by exists w'.
Qed.

Lemma deleteRoa_outcome v n w : worker_ok w -> cacheSerial w = to_uint32 n -> outcome n false w (deleteRoa json_bytes v w).
Proof.
  intros Hw Hc. destruct (store_of w n Hw Hc) as (d & Hd & Hok & Hs). apply (request_outcome n false w d); [done|].
  destruct (deleteRoaInTransaction v d) as [[d' r]|e] eqn:Ha; cbn [bind_result]; [|eauto].
  destruct (r_previous r) as [row|] eqn:Hr; [|eauto].
  destruct (deleteRoa_spec v d d' r row Hok Ha Hr) as (Hok' & Hs' & -> & Haspas & l1 & l2 & H1 & H2).
  rewrite (u32_next n) in Hs' by done. right. right.
  rewrite Hs'. destruct (record_change json_bytes w n d' (RoaWithdraw row)) as (w' & -> & Hadv); try done.
  { unfold dataset_of. cbn. rewrite Hd, Haspas, H2, H1.
    rewrite (remove_one_key roa_key); [done|]. rewrite <- H1. apply Hok. }
  by exists w'.
Qed.

Lemma addAspa_outcome v n w : worker_ok w -> cacheSerial w = to_uint32 n -> outcome n false w (addAspa json_bytes v w).
Proof.
  intros Hw Hc. destruct (store_of w n Hw Hc) as (d & Hd & Hok & Hs). apply (request_outcome n false w d); [done|].
  destruct (upsertAspaInTransaction v true d) as [[d' r]|e] eqn:Ha; cbn [bind_result]; [|eauto].
  destruct (Z.eqb_spec (changes r) 0) as [Hr|Hr].
  { destruct (upsertAspa_moves v true d d' r Hok Ha) as [[_ ->]|[? _]]; [|congruence].
    right. left. by rewrite same_store. }
  destruct (upsertAspa_spec v d d' r Hok Ha Hr) as (a & -> & Hok' & Hs' & -> & Hroas & Haspas).
  rewrite (u32_next n) in Hs' by done. right. right. rewrite Hs'.
  destruct (record_change json_bytes w n d'
    (match r_previous r with Some p => AspaReplace p a | None => AspaAnnounce a end)) as (w' & -> & Hadv);
    try done; [|by exists w'].
  unfold dataset_of. cbn. rewrite Hd, Hroas, Haspas. by destruct (r_previous r).
Qed.

Lemma deleteAspa_outcome m n w : worker_ok w -> cacheSerial w = to_uint32 n -> outcome n false w (deleteAspa json_bytes m w).
Proof.
  intros Hw Hc. destruct (store_of w n Hw Hc) as (d & Hd & Hok & Hs). apply (request_outcome n false w d); [done|].
  destruct (deleteAspaInTransaction m d) as [[d' r]|e] eqn:Ha; cbn [bind_result]; [|eauto].
  destruct (r_previous r) as [row|] eqn:Hr; [|eauto].
  destruct (deleteAspa_spec m d d' r row Hok Ha Hr) as (Hok' & Hs' & -> & Hroas & l1 & l2 & H1 & H2).
  rewrite (u32_next n) in Hs' by done. right. right.
  rewrite Hs'. destruct (record_change json_bytes w n d' (AspaWithdraw row)) as (w' & -> & Hadv); try done.
  { unfold dataset_of. cbn. rewrite Hd, Hroas, H2, H1.
    rewrite (remove_one_key customerAsn); [done|]. rewrite <- H1. apply Hok. }
  by exists w'.
Qed.

Lemma addRoaBatch_outcome vs limit n w :
  worker_ok w -> cacheSerial w = to_uint32 n -> outcome n true w (addRoaBatch json_bytes vs limit w).
Proof.
  intros Hw Hc. destruct (store_of w n Hw Hc) as (d & Hd & Hok & Hs). apply (request_outcome n true w d); [done|].
  destruct (addRoaBatchInTransaction vs limit d) as [[d' r]|e] eqn:Ha; cbn [bind_result]; [|eauto].
  destruct (addRoaBatch_spec vs limit d d' r Hok Ha) as [[Hr ->]|(Hr & Hok' & Hs' & ->)].
  - rewrite Hr. right. left. by rewrite same_store.
  - decide_test (changes r =? 0) false. rewrite (u32_next n) in Hs' by done.
    right. right. destruct (bulk_change json_bytes w n d') as (w' & -> & ?); eauto.
Qed.

Lemma addAspaBatch_outcome vs n w :
  worker_ok w -> cacheSerial w = to_uint32 n -> outcome n true w (addAspaBatch json_bytes vs w).
Proof.
  intros Hw Hc. destruct (store_of w n Hw Hc) as (d & Hd & Hok & Hs). apply (request_outcome n true w d); [done|].
  destruct (upsertAspaBatchInTransaction vs d) as [[d' r]|e] eqn:Ha; cbn [bind_result]; [|eauto].
  destruct (upsertAspaBatch_spec vs d d' r Hok Ha) as [[Hr ->]|(Hr & Hok' & Hs' & ->)].
  - rewrite Hr. right. left. by rewrite same_store.
  - decide_test (0 <? changes r) true. rewrite (u32_next n) in Hs' by done.
    right. right. destruct (bulk_change json_bytes w n d') as (w' & -> & ?); eauto.
Qed.

Lemma deleteRoaBatch_outcome n w :
  worker_ok w -> cacheSerial w = to_uint32 n -> outcome n true w (deleteRoaBatch json_bytes w).
Proof.
  intros Hw Hc. destruct (store_of w n Hw Hc) as (d & Hd & Hok & Hs). apply (request_outcome n true w d); [done|].
  unfold clearRoasInTransaction. destruct (0 <? roa_count d) eqn:Hr.
  - rewrite next_serial by apply Hok. cbn [changes r_cacheSerial]. rewrite Hr.
    set (d' := d <| rpki_roas := [] |> <| roa_count := 0 |> <| cache_serial := to_uint32 (cache_serial d + 1) |>).
    right. right. destruct (bulk_change json_bytes w n d') as (w' & Hrec & ?); [done | done | | |].
    + destruct Hok. constructor; try done; [apply NoDup_nil_2 | apply to_uint32_range].
    + cbn. by apply u32_next.
    + exists w'. split; [|done]. rewrite <- Hrec. reflexivity.
  - cbn [changes]. rewrite Hr, same_store by done. auto.
Qed.

Lemma deleteAspaBatch_outcome n w :
  worker_ok w -> cacheSerial w = to_uint32 n -> outcome n true w (deleteAspaBatch json_bytes w).
Proof.
  intros Hw Hc. destruct (store_of w n Hw Hc) as (d & Hd & Hok & Hs). apply (request_outcome n true w d); [done|].
  unfold clearAspasInTransaction. destruct (0 <? aspa_count d) eqn:Hr.
  - rewrite next_serial by apply Hok. cbn [changes r_cacheSerial]. rewrite Hr.
    set (d' := d <| rpki_aspas := [] |> <| aspa_count := 0 |> <| cache_serial := to_uint32 (cache_serial d + 1) |>).
    right. right. destruct (bulk_change json_bytes w n d') as (w' & Hrec & ?); [done | done | | |].
    + destruct Hok. constructor; try done; [apply NoDup_nil_2 | apply to_uint32_range].
    + cbn. by apply u32_next.
    + exists w'. split; [|done]. rewrite <- Hrec. reflexivity.
  - cbn [changes]. rewrite Hr, same_store by done. auto.
Qed.

Lemma importJson_outcome d' changed n w :
  worker_ok w -> cacheSerial w = to_uint32 n -> request_ok (ReqImport d' changed) w ->
  outcome n true w (importJson json_bytes d' changed w).
Proof.
  intros Hw Hc [Hok' Hs']. destruct (store_of w n Hw Hc) as (d & Hd & Hok & Hs).
  apply (request_outcome n true w d); [done|]. destruct changed; [|auto].
  rewrite getCacheSerial_ok by done. rewrite (u32_next n) in Hs' by done.
  right. right. destruct (bulk_change json_bytes w n d') as (w' & -> & ?); eauto.
Qed.

Lemma addRouterKey_outcome k n w :
  worker_ok w -> cacheSerial w = to_uint32 n -> outcome n false w (addRouterKey json_bytes k w).
Proof.
  intros Hw Hc. destruct (store_of w n Hw Hc) as (d & Hd & _). apply (request_outcome n false w d); [done|].
  cbv beta zeta. destruct (map_get (rpkiRouterKeyMap w) (router_key_makeKey k)) as [rk|] eqn:Hg; [eauto|]. apply map_get_None in Hg as [Hn Hset]. rewrite Hset.
  right. right. destruct (record_keys json_bytes w n (rpkiRouterKeyMap w ++ [(router_key_makeKey k, k)])
    (RouterKeyAnnounce k)) as (w' & -> & ?); eauto.
  - apply Forall_app. split; [apply Hw | by repeat constructor].
  - rewrite map_app. apply list.NoDup_app. split_and!; [apply Hw | | apply NoDup_singleton].
    intros x Hx ->%list_elem_of_singleton. done.
  - unfold dataset_of. cbn. by rewrite map_app.
Qed.

Lemma deleteRouterKey_outcome k n w :
  worker_ok w -> cacheSerial w = to_uint32 n -> outcome n false w (deleteRouterKey json_bytes k w).
Proof.
  intros Hw Hc. destruct (store_of w n Hw Hc) as (d & Hd & _). apply (request_outcome n false w d); [done|].
  cbv beta zeta. destruct (map_get (rpkiRouterKeyMap w) (router_key_makeKey k)) as [rk|] eqn:Hg; [|eauto]. apply map_get_Some in Hg.
  destruct (filter_unique fst (fun e => negb (bool_decide (router_key_makeKey k = e.1))) (rpkiRouterKeyMap w)
    (router_key_makeKey k, rk)) as (l1 & l2 & Heq & Hdel); [|apply Hw|done|].
  { intros e. rewrite negb_false_iff, bool_decide_eq_true. cbn. split; congruence. }
  pose proof (wk_keys w Hw) as Hkeys. pose proof (wk_nodup w Hw) as Hnd. rewrite Heq in Hkeys, Hnd.
  right. right. destruct (record_keys json_bytes w n (map_delete (rpkiRouterKeyMap w) (router_key_makeKey k))
    (RouterKeyWithdraw rk)) as (w' & -> & ?); eauto; unfold map_delete; rewrite Hdel.
  - apply Forall_app in Hkeys as [H1 H2]. apply Forall_cons_iff in H2 as [_ H2]. by apply Forall_app.
  - rewrite map_app in *. by eapply NoDup_remove_mid.
  - unfold dataset_of. cbn. rewrite Heq, !map_app. cbn. f_equal.
    apply (remove_one_key router_key_makeKey). apply Forall_app in Hkeys as [H1 H2].
    apply Forall_cons_iff in H2 as [H2 H3]. cbn in H2.
    assert (forall l : key_map, Forall (fun e => e.1 = router_key_makeKey e.2) l ->
      map router_key_makeKey (map snd l) = map fst l) as Hmap.
    { induction 1 as [|e l He _ IH]; cbn; [done|]. by rewrite IH, He. }
    rewrite map_app in Hnd |- *. cbn [map] in *. rewrite !Hmap by done. by rewrite <- H2.
Qed.

Lemma run_request_outcome req n w :
  worker_ok w -> cacheSerial w = to_uint32 n -> request_ok req w -> outcome n (is_bulk req) w (run_request req w).
Proof.
  intros Hw Hc Hr. destruct req; cbn [run_request is_bulk];
    auto using addRoa_outcome, addRoaBatch_outcome, deleteRoa_outcome, deleteRoaBatch_outcome, addRouterKey_outcome,
      deleteRouterKey_outcome, addAspa_outcome, addAspaBatch_outcome, deleteAspa_outcome, deleteAspaBatch_outcome,
      importJson_outcome.
Qed.
End Requests.

(** ** Runs of the cache *)

(** The data sets a run has gone through, oldest first: a new one for each new serial
    number. *)
Inductive cache_run (json_bytes : list delta_operation -> option Z) (w0 : RpkiWorker)
  : list dataset -> RpkiWorker -> Prop :=
| run_start : cache_run json_bytes w0 [dataset_of w0] w0
| run_step past w req w' out :
    cache_run json_bytes w0 past w -> request_ok req w -> run_request json_bytes req w = (w', out) ->
    cache_run json_bytes w0
      (if decide (cacheSerial w' = cacheSerial w) then past else past ++ [dataset_of w']) w'.

(** The history records steps of the run. *)
Definition entry_ok (n0 : Z) (past : list dataset) (e : serial_entry) : Prop :=
  exists j d0 d1, past !! j = Some d0 /\ past !! S j = Some d1 /\
    e_serial e = to_uint32 (n0 + Z.of_nat j + 1) /\ apply_operations (e_operations e) d0 = d1.

Record run_ok (n0 : Z) (past : list dataset) (w : RpkiWorker) : Prop := {
  run_worker : worker_ok w;
  run_nonempty : past <> [];
  run_serial : cacheSerial w = to_uint32 (n0 + blen past - 1);
  run_last : list.last past = Some (dataset_of w);
  run_history : Forall (entry_ok n0 past) (serialHistory w)
}.

Lemma entry_ok_app n0 past x e : entry_ok n0 past e -> entry_ok n0 (past ++ [x]) e.
Proof.
  intros (j & d0 & d1 & H0 & H1 & Hs & Ha). exists j, d0, d1.
  split_and!; [by apply lookup_app_l_Some | by apply lookup_app_l_Some | done | done].
Qed.

Lemma last_lookup_len {A} (l : list A) x : list.last l = Some x -> l !! (length l - 1)%nat = Some x.
Proof. rewrite last_lookup. by replace (Nat.pred (length l)) with (length l - 1)%nat by lia. Qed.

Lemma run_ok_advance json_bytes n0 past bulk w w' :
  run_ok n0 past w -> advances json_bytes (n0 + blen past - 1) bulk w w' -> run_ok n0 (past ++ [dataset_of w']) w'.
Proof.
  intros [Hw Hne Hs Hl Hh] (Hw' & Hs' & Hops). constructor; [done | by destruct past | | by rewrite last_snoc |].
  { rewrite Hs'. f_equal. blia. }
  destruct bulk; [rewrite Hops; constructor|]. destruct Hops as (op & Happ & Hext).
  destruct (fits json_bytes [op]); [|rewrite Hext; constructor].
  destruct Hext as (kept & e & -> & Hkept & Hser & Heops). apply Forall_app. split.
  - apply list.Forall_forall. intros x Hx. apply entry_ok_app. rewrite list.Forall_forall in Hh. by apply Hh, Hkept.
  - apply Forall_singleton. apply last_lookup_len in Hl.
    assert (0 < length past)%nat by (destruct past; [done | cbn; lia]).
    exists (length past - 1)%nat, (dataset_of w), (dataset_of w').
    replace (S (length past - 1)) with (length past) by lia. split_and!.
    + rewrite lookup_app_l by lia. done.
    + by apply list_lookup_middle.
    + rewrite Hser. f_equal. unfold blen. lia.
    + by rewrite Heops.
Qed.

Lemma cache_run_ok json_bytes w0 n0 past w :
  worker_ok w0 -> serialHistory w0 = [] -> cacheSerial w0 = to_uint32 n0 ->
  cache_run json_bytes w0 past w -> run_ok n0 past w.
Proof.
  intros Hw0 Hh0 Hs0. induction 1 as [|past w req w' out _ IH Hreq Hrun].
  - constructor; try done; [|by rewrite Hh0; constructor]. rewrite Hs0. f_equal. blia.
  - pose proof (run_request_outcome json_bytes req _ w (run_worker _ _ _ IH) (run_serial _ _ _ IH) Hreq) as Ho.
    rewrite Hrun in Ho. destruct Ho as [[e [= -> ->]]|[[= -> ->]|(w1 & [= <- ->] & Hadv)]].
    + by rewrite decide_True.
    + by rewrite decide_True.
    + rewrite decide_False; [by eapply run_ok_advance|].
      rewrite (run_serial _ _ _ IH). destruct Hadv as (_ & -> & _). apply next_neq.
Qed.

(** Serial numbers tell the steps of a run of fewer than 2^32 steps apart. *)
Lemma to_uint32_inj n0 i j :
  0 <= i < 2 ^ 32 -> 0 <= j < 2 ^ 32 -> to_uint32 (n0 + i) = to_uint32 (n0 + j) -> i = j.
Proof. unfold to_uint32. intros ? ? H. Z.div_mod_to_equations. lia. Qed.

Lemma collect_correct n0 past entries : forall t d acc ops,
  blen past <= 2 ^ 32 -> Forall (entry_ok n0 past) entries -> past !! t = Some d ->
  collect_operations (to_uint32 (n0 + Z.of_nat t + 1)) entries acc = Some ops ->
  (forall e, list.last entries = Some e -> e_serial e = to_uint32 (n0 + Z.of_nat (t + length entries))) /\
  exists d' ops', past !! (t + length entries)%nat = Some d' /\ ops = acc ++ ops' /\ apply_operations ops' d = d'.
Proof.
  intros t d acc ops Hlen Hok. revert t d acc. induction Hok as [|e entries He _ IH]; intros t d acc Hd; cbn [collect_operations].
  - intros [= <-]. split; [done|]. exists d, []. rewrite Nat.add_0_r, app_nil_r. done.
  - destruct He as (j & d0 & d1 & H0 & H1 & Hs & Ha).
    destruct (Z.eqb_spec (e_serial e) (to_uint32 (n0 + Z.of_nat t + 1))) as [Heq|]; [|done].
    assert (j = t) as ->.
    { rewrite Hs, <- !Z.add_assoc in Heq. apply lookup_lt_Some in H1. apply lookup_lt_Some in Hd. unfold blen in Hlen.
      rewrite !(Z.add_comm _ 1), !Z.add_assoc in Heq. apply to_uint32_inj in Heq; lia. }
    simplify_eq. intros Hc. rewrite (u32_next (n0 + Z.of_nat t + 1)) in Hc by done.
    replace (n0 + Z.of_nat t + 1 + 1) with (n0 + Z.of_nat (S t) + 1) in Hc by lia.
    destruct (IH (S t) _ _ H1 Hc) as (Hlast & d' & ops' & Hd' & -> & Happ). cbn [length].
    replace (t + S (length entries))%nat with (S t + length entries)%nat by lia. split.
    + intros e' He'. destruct entries as [|e2 entries]; [|by apply Hlast].
      cbn in He'. simplify_eq. rewrite Hs. f_equal. cbn. lia.
    + exists d', (e_operations e ++ ops'). split; [done|]. rewrite <- app_assoc. split; [done|].
      unfold apply_operations in *. by rewrite fold_left_app.
Qed.

Lemma entries_from_suffix s h : exists l, h = l ++ entries_from s h.
Proof.
  induction h as [|e h [l Hl]]; cbn; [by exists []|]. case_if; [by exists []|]. exists (e :: l). cbn. by rewrite <- Hl.
Qed.

Lemma delta_correct n0 past w i d ops :
  run_ok n0 past w -> blen past <= 2 ^ 32 -> past !! i = Some d ->
  getDeltaOperationsSince (to_uint32 (n0 + Z.of_nat i)) w = Some ops ->
  apply_operations ops d = dataset_of w.
Proof.
  intros [Hw Hne Hs Hl Hh] Hlen Hi. unfold getDeltaOperationsSince. rewrite Hs.
  rewrite !(to_uint32_small (to_uint32 _)) by apply to_uint32_range.
  apply last_lookup_len in Hl. pose proof (lookup_lt_Some _ _ _ Hi) as Hil.
  assert (0 < length past)%nat by (destruct past; [done | cbn; lia]).
  destruct (Z.eqb_spec (to_uint32 (n0 + Z.of_nat i)) (to_uint32 (n0 + blen past - 1))) as [Heq|Hneq].
  - intros [= <-]. rewrite <- Z.add_sub_assoc in Heq. unfold blen in *. apply to_uint32_inj in Heq; [|lia|lia].
    replace (length past - 1)%nat with i in Hl by lia. rewrite Hi in Hl. by simplify_eq.
  - rewrite (u32_next (n0 + Z.of_nat i)) by done.
    set (entries := entries_from _ _). destruct (list.last entries) as [e|] eqn:He; [|done].
    destruct (Z.eqb_spec (e_serial e) (to_uint32 (n0 + blen past - 1))) as [Hcur|]; [|done].
    destruct (entries_from_suffix (to_uint32 (n0 + Z.of_nat i + 1)) (serialHistory w)) as [l Hsuf].
    fold entries in Hsuf. rewrite Hsuf in Hh. apply Forall_app in Hh as [_ Hent]. intros Hc.
    destruct (collect_correct n0 past entries i d [] ops Hlen Hent Hi Hc) as (Hlast & d' & ops' & Hd' & -> & <-).
    rewrite (Hlast e He), <- Z.add_sub_assoc in Hcur. pose proof (lookup_lt_Some _ _ _ Hd'). unfold blen in *.
    apply to_uint32_inj in Hcur; [|lia|lia].
    replace (length past - 1)%nat with (i + length entries)%nat in Hl by lia. rewrite Hd' in Hl. by simplify_eq.
Qed.

(** A router one change behind gets that change. *)
Lemma delta_available n0 past w w' op :
  run_ok n0 past w -> blen past < 2 ^ 32 -> cacheSerial w' = to_uint32 (n0 + blen past) ->
  extends_history (n0 + blen past - 1) [op] w w' -> getDeltaOperationsSince (cacheSerial w) w' = Some [op].
Proof.
  intros [Hw Hne Hs Hl Hh] Hlen Hs' (kept & e & Hhist & Hkept & Hser & Heops).
  replace (n0 + blen past - 1 + 1) with (n0 + blen past) in Hser by lia.
  unfold getDeltaOperationsSince. rewrite Hs, Hs', Hhist.
  rewrite !(to_uint32_small (to_uint32 _)) by apply to_uint32_range.
  rewrite (u32_next (n0 + blen past - 1)) by done. replace (n0 + blen past - 1 + 1) with (n0 + blen past) by lia.
  pose proof (next_neq (n0 + blen past - 1)) as Hneq.
  replace (n0 + blen past - 1 + 1) with (n0 + blen past) in Hneq by lia.
  rewrite (proj2 (Z.eqb_neq _ _) (not_eq_sym Hneq)).
  assert (entries_from (to_uint32 (n0 + blen past)) (kept ++ [e]) = [e]) as ->.
  { assert (Forall (fun x => e_serial x <> to_uint32 (n0 + blen past)) kept) as Hnot.
    { apply list.Forall_forall. intros x Hx. rewrite list.Forall_forall in Hh.
      destruct (Hh x (Hkept _ Hx)) as (j & d0 & d1 & H0 & H1 & -> & _).
      apply lookup_lt_Some in H1. rewrite <- Z.add_assoc. unfold blen in *.
      intros Heq%to_uint32_inj; lia. }
    clear Hkept Hhist. induction Hnot as [|x kept Hx _ IH]; cbn; [by rewrite Hser, Z.eqb_refl|].
    by rewrite (proj2 (Z.eqb_neq _ _) Hx). }
  cbn. rewrite Hser, Z.eqb_refl, Heops. done.
Qed.

(** ** Starting the cache *)

Lemma map_set_ok m k :
  Forall (fun e => e.1 = router_key_makeKey e.2) m -> NoDup (map fst m) ->
  Forall (fun e => e.1 = router_key_makeKey e.2) (map_set m (router_key_makeKey k) k) /\
  NoDup (map fst (map_set m (router_key_makeKey k) k)) /\
  (forall x, x ∈ map fst (map_set m (router_key_makeKey k) k) -> x = router_key_makeKey k \/ x ∈ map fst m).
Proof.
  induction m as [|[k' v'] m IH]; intros Hk Hnd; cbn [map_set].
  - split; [by repeat constructor|]. split; [apply NoDup_singleton|]. intros x Hx. left.
    by apply list_elem_of_singleton in Hx.
  - apply Forall_cons_iff in Hk as [Hk' Hk]. cbn in Hnd. apply list.NoDup_cons in Hnd as [Hn Hnd].
    case_bool_decide as Heq; cbn [map fst].
    + subst k'. split; [by constructor|]. split; [by apply list.NoDup_cons|]. intros x Hx. by right.
    + destruct (IH Hk Hnd) as (H1 & H2 & H3). split; [by constructor|]. split.
      * apply list.NoDup_cons. split; [|done]. intros Hx. destruct (H3 _ Hx); [congruence | done].
      * intros x [->|Hx]%elem_of_cons; [right; by left|]. destruct (H3 _ Hx); [by left | right; by right].
Qed.

Lemma start_keys_ok keys : forall m,
  Forall (fun e => e.1 = router_key_makeKey e.2) m -> NoDup (map fst m) ->
  let m' := fold_left (fun m k => map_set m (router_key_makeKey k) k) keys m in
  Forall (fun e => e.1 = router_key_makeKey e.2) m' /\ NoDup (map fst m').
Proof.
  induction keys as [|k keys IH]; intros m Hk Hnd; cbn [fold_left]; [done|].
  destruct (map_set_ok m k Hk Hnd) as (H1 & H2 & _). by apply IH.
Qed.

Lemma start_ok d keys :
  db_ok d -> worker_ok (startRpki d keys RpkiWorker_new) /\
  cacheSerial (startRpki d keys RpkiWorker_new) = to_uint32 (cache_serial d) /\
  serialHistory (startRpki d keys RpkiWorker_new) = [].
Proof.
  intros Hd. destruct (start_keys_ok keys []) as [Hk Hnd]; [constructor | apply NoDup_nil_2 |].
  assert (cacheSerial (startRpki d keys RpkiWorker_new) = to_uint32 (cache_serial d)) as Hs.
  { cbn. rewrite getCacheSerial_ok by done. unfold normalizeCacheSerial. destruct Hd as [_ _ _ _ Hs].
    by decide_test (cache_serial d <? 0) false. }
  split; [|done]. constructor; try done. exists d. split_and!; [done | done |].
  rewrite Hs. symmetry. apply to_uint32_small, Hd.
Qed.

(** C1: serial queries are answered correctly.  Start the cache on any consistent
    database and let any sequence of requests run: single and batch changes of ROAs
    and ASPAs, router keys, imports, failing requests.  The cache advertises the
    initial serial number plus the number of changes, modulo 2^32.  If a router
    holds the data set that went with an earlier (or the current) serial number,
    fewer than 2^32 changes ago, and the cache answers its serial query with a list
    of operations, then applying them gives exactly the current data set. *)
Theorem rpki_delta_correct json_bytes d keys past w i ds ops :
  db_ok d -> cache_run json_bytes (startRpki d keys RpkiWorker_new) past w -> blen past <= 2 ^ 32 ->
  past !! i = Some ds ->
  getDeltaOperationsSince (to_uint32 (cache_serial d + Z.of_nat i)) w = Some ops ->
  cacheSerial w = to_uint32 (cache_serial d + blen past - 1) /\ apply_operations ops ds = dataset_of w.
Proof.
  intros Hd Hrun Hlen Hi Hops. destruct (start_ok d keys Hd) as (Hw & Hs & Hh).
  pose proof (cache_run_ok json_bytes _ _ _ _ Hw Hh Hs Hrun) as Hok.
  split; [apply Hok | by eapply delta_correct].
Qed.

(** a router that is one change behind gets that change.  In any run of the
    cache, a request that changes the data set moves the serial number on by one and
    notifies the sessions.  A serial query with the previous serial number is then
    answered with the one operation that turns the previous data set into the new
    one, if the change was a single one and small enough to be kept; after a bulk
    change it is not answered with operations (the router is told to reset). *)
Theorem rpki_delta_served json_bytes d keys past w req w' out :
  db_ok d -> cache_run json_bytes (startRpki d keys RpkiWorker_new) past w -> blen past < 2 ^ 32 ->
  (forall op, fits json_bytes [op] = true) ->
  request_ok req w -> run_request json_bytes req w = (w', out) -> NotifySessions ∈ out ->
  cacheSerial w' = to_uint32 (cacheSerial w + 1) /\
  if is_bulk req then getDeltaOperationsSince (cacheSerial w) w' = None
  else exists op, apply_operation op (dataset_of w) = dataset_of w' /\
    getDeltaOperationsSince (cacheSerial w) w' = Some [op].
Proof.
  intros Hd Hrun Hlen Hfits Hreq Hr Hnot. destruct (start_ok d keys Hd) as (Hw & Hs & Hh).
  pose proof (cache_run_ok json_bytes _ _ _ _ Hw Hh Hs Hrun) as Hok.
  pose proof (run_request_outcome json_bytes req _ w (run_worker _ _ _ Hok) (run_serial _ _ _ Hok) Hreq) as Ho.
  rewrite Hr in Ho. destruct Ho as [[e [= -> ->]]|[[= -> ->]|(w1 & [= <- ->] & Hadv)]].
  1,2: by apply list_elem_of_singleton in Hnot.
  destruct Hadv as (_ & Hs' & Hops). split; [rewrite Hs'; symmetry; apply u32_next, Hok|].
  destruct (is_bulk req).
  - unfold getDeltaOperationsSince. rewrite Hops, Hs', (run_serial _ _ _ Hok).
    rewrite !(to_uint32_small (to_uint32 _)) by apply to_uint32_range.
    by rewrite (proj2 (Z.eqb_neq _ _) (not_eq_sym (next_neq _))).
  - destruct Hops as (op & Happ & Hext). rewrite Hfits in Hext. exists op. split; [done|].
    eapply delta_available; [done | done | | done]. rewrite Hs'. f_equal. lia.
Qed.

(** the history stays within its limits and its counters are exact: in any run of
    the cache it holds at most 1024 changes, 10000 operations and 16 MiB, and the
    two running counters are the sums over the entries. *)
Theorem rpki_history_bounded json_bytes d keys past w :
  db_ok d -> cache_run json_bytes (startRpki d keys RpkiWorker_new) past w ->
  blen (serialHistory w) <= 1024 /\
  serialHistoryOperationCount w = sum_operations (serialHistory w) /\ sum_operations (serialHistory w) <= 10000 /\
  serialHistoryBytes w = sum_bytes (serialHistory w) /\ sum_bytes (serialHistory w) <= 16777216.
Proof.
  intros Hd Hrun. destruct (start_ok d keys Hd) as (Hw & Hs & Hh).
  destruct (run_worker _ _ _ (cache_run_ok json_bytes _ _ _ _ Hw Hh Hs Hrun)) as [_ _ _ Hc Hb Hl].
  unfold history_over_limit, maxSerialHistoryEntries, maxSerialHistoryOperations, maxSerialHistoryBytes in Hl.
  bool_hyps. rewrite Hc, Hb in *. split_and!; lia || done.
Qed.

(** ** A run with two changes *)

Definition witness_roa : rpki_roa := {|
  ip := js "192.0.2.0"; mask := 24; asn := 64500; maxLength := 24; ipType := 1 |}.
Definition witness_key : rpki_router_key := {| ski := js "ab"; rk_asn := 64500; spki := js "cd" |}.
Definition witness_bytes (ops : list delta_operation) : option Z := Some (100 * blen ops).

Definition witness_w0 : RpkiWorker := startRpki initializeSchema [] RpkiWorker_new.
Definition witness_w1 : RpkiWorker := fst (run_request witness_bytes (ReqAddRoa (Some witness_roa)) witness_w0).
Definition witness_w2 : RpkiWorker := fst (run_request witness_bytes (ReqAddRouterKey witness_key) witness_w1).

Lemma witness_run : cache_run witness_bytes witness_w0
  [dataset_of witness_w0; dataset_of witness_w1; dataset_of witness_w2] witness_w2.
Proof.
  pose proof (run_step witness_bytes witness_w0 _ witness_w0 (ReqAddRoa (Some witness_roa)) witness_w1
    [NotifySessions; Success] (run_start _ _) I) as H1.
  rewrite decide_False in H1 by (by vm_compute). specialize (H1 ltac:(by vm_compute)).
  pose proof (run_step witness_bytes witness_w0 _ witness_w1 (ReqAddRouterKey witness_key) witness_w2
    [NotifySessions; Success] H1 I) as H2.
  rewrite decide_False in H2 by (by vm_compute). exact (H2 ltac:(by vm_compute)).
Qed.

Lemma rpki_delta_correct_witness :
  getDeltaOperationsSince 1 witness_w2 = Some [RoaAnnounce witness_roa; RouterKeyAnnounce witness_key] /\
  cacheSerial witness_w2 = 3 /\
  apply_operations [RoaAnnounce witness_roa; RouterKeyAnnounce witness_key] (dataset_of witness_w0)
    = dataset_of witness_w2.
Proof.
  split; [by vm_compute|].
  refine (rpki_delta_correct witness_bytes initializeSchema []
    [dataset_of witness_w0; dataset_of witness_w1; dataset_of witness_w2] witness_w2 0 (dataset_of witness_w0)
    [RoaAnnounce witness_roa; RouterKeyAnnounce witness_key] _ _ _ _ _).
  - apply initializeSchema_ok.
  - apply witness_run.
  - by vm_compute.
  - reflexivity.
  - by vm_compute.
Defined.

Lemma rpki_delta_served_witness :
  cacheSerial witness_w1 = to_uint32 (cacheSerial witness_w0 + 1) /\
  exists op, apply_operation op (dataset_of witness_w0) = dataset_of witness_w1 /\
    getDeltaOperationsSince (cacheSerial witness_w0) witness_w1 = Some [op].
Proof.
  refine (rpki_delta_served witness_bytes initializeSchema [] [dataset_of witness_w0] witness_w0
    (ReqAddRoa (Some witness_roa)) witness_w1 [NotifySessions; Success] _ _ _ _ _ _ _).
  - apply initializeSchema_ok.
  - constructor.
  - by vm_compute.
  - intros op. reflexivity.
  - exact I.
  - by vm_compute.
  - by left.
Defined.

Lemma rpki_history_bounded_witness :
  blen (serialHistory witness_w2) <= 1024 /\
  serialHistoryOperationCount witness_w2 = sum_operations (serialHistory witness_w2) /\
  sum_operations (serialHistory witness_w2) <= 10000 /\
  serialHistoryBytes witness_w2 = sum_bytes (serialHistory witness_w2) /\
  sum_bytes (serialHistory witness_w2) <= 16777216.
Proof.
  refine (rpki_history_bounded witness_bytes initializeSchema [] _ witness_w2 _ witness_run).
  apply initializeSchema_ok.
Defined.
