(* ===== verification/RpkiSession.v ===== *)
(** One RPKI-RTR session of the cache ([electron/worker/rpki/rpkiSession.js],
    [electron/const/rpkiConst.js]).

    Input is framed and dispatched synchronously; long answers are tasks that the
    session chains one after the other.  A method is an action on the session; a
    task is run with a budget, the number of times [canWrite()] still succeeds
    before the session closes under it ([None]: it does not close). *)

From stdpp Require Import base list numbers strings option.
From Stdlib Require Import ZArith Lia.
From S2P Require Import Prelude Actions StreamDecoder RpkiStore RpkiWorker.

Local Open Scope Z_scope.
Local Open Scope js_scope.

(** ** Constants *)

Definition RPKI_HEADER_LENGTH : Z := 8.
Definition ROA_WRITE_CHUNK_SIZE : Z := 1024 * 1024.
Definition MAX_RPKI_PDU_BYTES : Z := 16 * 1024 * 1024.

Inductive RPKI_MSG_TYPE :=
| SERIAL_NOTIFY | SERIAL_QUERY | RESET_QUERY | CACHE_RESPONSE | IPV4_PREFIX | IPV6_PREFIX
| END_OF_DATA | CACHE_RESET | ROUTER_KEY | ERROR_REPORT | ASPA.

Definition msg_type_value (t : RPKI_MSG_TYPE) : Z :=
  match t with
  | SERIAL_NOTIFY => 0 | SERIAL_QUERY => 1 | RESET_QUERY => 2 | CACHE_RESPONSE => 3
  | IPV4_PREFIX => 4 | IPV6_PREFIX => 6 | END_OF_DATA => 7 | CACHE_RESET => 8
  | ROUTER_KEY => 9 | ERROR_REPORT => 10 | ASPA => 11
  end.

Definition V0 : Z := 0.
Definition V1 : Z := 1.
Definition V2 : Z := 2.
Definition RPKI_MAX_SUPPORTED_VERSION : Z := V2.

Inductive RPKI_ERROR_CODE :=
| CORRUPT_DATA | INTERNAL_ERROR | NO_DATA_AVAILABLE | INVALID_REQUEST | UNSUPPORTED_PROTOCOL_VERSION
| UNSUPPORTED_PDU_TYPE | WITHDRAWAL_UNKNOWN | DUPLICATE_ANNOUNCEMENT | UNEXPECTED_PROTOCOL_VERSION.

Definition rpki_error_value (e : RPKI_ERROR_CODE) : Z :=
  match e with
  | CORRUPT_DATA => 0 | INTERNAL_ERROR => 1 | NO_DATA_AVAILABLE => 2 | INVALID_REQUEST => 3
  | UNSUPPORTED_PROTOCOL_VERSION => 4 | UNSUPPORTED_PDU_TYPE => 5 | WITHDRAWAL_UNKNOWN => 6
  | DUPLICATE_ANNOUNCEMENT => 7 | UNEXPECTED_PROTOCOL_VERSION => 8
  end.

Definition WITHDRAWAL : Z := 0.
Definition UPDATE : Z := 1.

Inductive RPKI_ASPA_FORMAT := LATEST | LEGACY.

Definition IP_TYPE_IPV4 : Z := 1.

(** ** The session *)

(** The answers that are sent through the queue. *)
Inductive send_task :=
| TaskResetResponse
| TaskSerialResponse (operations : list delta_operation) (serial : Z)
| TaskSerialNotify
| TaskRoas (roas : list rpki_roa) (flags : Z)
| TaskAspas (aspas : list rpki_aspa).

Record RpkiSession := {
  socket : bool;
  messageBuffer : buffer;
  sessionId : option Z;
  protocolVersion : Z;
  aspaFormat : RPKI_ASPA_FORMAT;
  sendQueue : list send_task;
  closing : bool;
  closed : bool
}.

#[export] Instance RpkiSession_rebuild : Rebuild RpkiSession := fun s => {|
  socket := socket s; messageBuffer := messageBuffer s; sessionId := sessionId s;
  protocolVersion := protocolVersion s; aspaFormat := aspaFormat s; sendQueue := sendQueue s;
  closing := closing s; closed := closed s |}.

Definition RpkiSession_new (fmt : RPKI_ASPA_FORMAT) : RpkiSession := {|
  socket := true; messageBuffer := []; sessionId := None; protocolVersion := V0; aspaFormat := fmt;
  sendQueue := []; closing := false; closed := false |}.

Inductive session_effect :=
| SocketWrite (b : list Z)
| SocketEnd (b : list Z)
| SocketDestroy
| Unregister
| ClientUpdated
| ClientDeleted.

Abbreviation action := (action_of RpkiSession session_effect).

Definition canWrite (s : RpkiSession) : bool := negb (closing s) && negb (closed s) && socket s.

Definition sendMessage (b : buffer) : action :=
  this s => if canWrite s then emit (SocketWrite b) else skip.

Definition closeSession (destroySocket : bool) : action :=
  this s =>
    if closed s then skip
    else
      assign (fun s => s <| closed := true |> <| closing := true |> <| messageBuffer := [] |>) ;;;
      emit Unregister ;;;
      emit ClientDeleted ;;;
      (if destroySocket then
         this s => (if socket s then emit SocketDestroy else skip) ;;;
                   assign (fun s => s <| socket := false |>)
       else skip).

Definition enqueueSend (t : send_task) : action :=
  this s => if closing s || closed s then skip else assign (fun s => s <| sendQueue := sendQueue s ++ [t] |>).

(** ** Numbers and headers *)

Definition normalizeSerial (value fallback : Z) : Z :=
  if 0 <=? value then to_uint32 value else to_uint32 fallback.

Definition getCurrentSerial (w : RpkiWorker) : Z := to_uint32 (cacheSerial w).

(** The configured maximum, if it is a supported version. *)
Definition getMaxSupportedVersion (configured : option Z) : Z :=
  match configured with
  | Some v => if (v =? V0) || (v =? V1) || (v =? V2) then v else RPKI_MAX_SUPPORTED_VERSION
  | None => RPKI_MAX_SUPPORTED_VERSION
  end.

Record rpki_header := { h_version : Z; h_type : Z; h_reserved : Z; h_length : Z }.

Definition parseRpkiHeader (b : buffer) : result rpki_header :=
  let! reserved := readUInt16BE b 2 in
  let! length := readUInt32BE b 4 in
  Ok {| h_version := default 0 (bget b 0); h_type := default 0 (bget b 1);
        h_reserved := reserved; h_length := length |}.

(** ** PDUs *)

Definition buildCacheResponsePdu (s : RpkiSession) (random : Z) : RpkiSession * result buffer :=
  let buf := alloc RPKI_HEADER_LENGTH in
  let buf := bset buf 0 (protocolVersion s) in
  let buf := bset buf 1 (msg_type_value CACHE_RESPONSE) in
  let s := match sessionId s with
           | None => s <| sessionId := Some random |>
           | Some _ => s
           end in
  (s,
   let! buf := writeUInt16BE buf (default 0 (sessionId s)) 2 in
   writeUInt32BE buf RPKI_HEADER_LENGTH 4).

Definition buildSerialNotifyPdu (s : RpkiSession) (serial : Z) : result buffer :=
  let totalLen := RPKI_HEADER_LENGTH + 4 in
  let buf := alloc totalLen in
  let buf := bset buf 0 (protocolVersion s) in
  let buf := bset buf 1 (msg_type_value SERIAL_NOTIFY) in
  let! buf := writeUInt16BE buf (default 0 (sessionId s)) 2 in
  let! buf := writeUInt32BE buf totalLen 4 in
  writeUInt32BE buf serial RPKI_HEADER_LENGTH.

(** [for (i < n) buffer[position + i] = bytes[i]]: a missing byte is stored as 0. *)
Fixpoint store_bytes (bytes : buffer) (buf : buffer) (position : Z) (n : nat) : buffer :=
  match n with
  | O => buf
  | S m => store_bytes (tail bytes) (bset buf position (default 0 (head bytes))) (position + 1) m
  end.

Section Pdus.
Context (ipToBytes : list Z -> result (list Z)).

Definition buildPrefixPdu (s : RpkiSession) (roa : rpki_roa) (flags : Z) (isIpv6 : bool) : result buffer :=
  let prefixLen := if isIpv6 then 16 else 4 in
  let totalLen := RPKI_HEADER_LENGTH + 8 + prefixLen in
  let buf := alloc totalLen in
  let buf := bset buf 0 (protocolVersion s) in
  let buf := bset buf 1 (msg_type_value (if isIpv6 then IPV6_PREFIX else IPV4_PREFIX)) in
  let! buf := writeUInt16BE buf 0 2 in
  let! buf := writeUInt32BE buf totalLen 4 in
  let buf := bset buf 8 flags in
  let buf := bset buf 9 (mask roa) in
  let buf := bset buf 10 (maxLength roa) in
  let buf := bset buf 11 0 in
  let! bytes := ipToBytes (ip roa) in
  let buf := store_bytes bytes buf 12 (Z.to_nat prefixLen) in
  writeUInt32BE buf (asn roa) (12 + prefixLen).

(** [None] is [null]. *)
Definition buildRouterKeyPdu (s : RpkiSession) (k : rpki_router_key) (flags : Z) : result (option buffer) :=
  if protocolVersion s <? V1 then Ok None
  else
    let skiBuf := hex_decode (ski k) in
    let spkiBuf := hex_decode (spki k) in
    if negb (blen skiBuf =? 20) then Ok None
    else
      let totalLen := RPKI_HEADER_LENGTH + 20 + 4 + blen spkiBuf in
      let buf := alloc totalLen in
      let buf := bset buf 0 (protocolVersion s) in
      let buf := bset buf 1 (msg_type_value ROUTER_KEY) in
      let buf := bset buf 2 flags in
      let buf := bset buf 3 0 in
      let! buf := writeUInt32BE buf totalLen 4 in
      let buf := copy_into skiBuf buf 8 in
      let! buf := writeUInt32BE buf (rk_asn k) 28 in
      Ok (Some (copy_into spkiBuf buf 32)).

Definition getLegacyAspaAfiFlags (a : rpki_aspa) : list Z :=
  let flags := (if negb (js_and (afiFlags a) 1 =? 0) then [0] else []) ++
               (if negb (js_and (afiFlags a) 2 =? 0) then [1] else []) in
  match flags with [] => [0] | _ => flags end.

(** [for (...) { buffer.writeUInt32BE(...); position += 4; }] *)
Fixpoint write_asns (asns : list Z) (buf : buffer) (position : Z) : result buffer :=
  match asns with
  | [] => Ok buf
  | n :: tl =>
    let! buf := writeUInt32BE buf n position in
    write_asns tl buf (position + 4)
  end.

Definition buildAspaLegacyPdu (s : RpkiSession) (a : rpki_aspa) (flags legacyAfiFlags : Z) : result buffer :=
  let providers := if flags =? WITHDRAWAL then [] else providerAsns a in
  let totalLen := RPKI_HEADER_LENGTH + 8 + 4 * blen providers in
  let buf := alloc totalLen in
  let buf := bset buf 0 (protocolVersion s) in
  let buf := bset buf 1 (msg_type_value ASPA) in
  let! buf := writeUInt16BE buf 0 2 in
  let! buf := writeUInt32BE buf totalLen 4 in
  let buf := bset buf 8 flags in
  let buf := bset buf 9 legacyAfiFlags in
  let! buf := writeUInt16BE buf (blen providers) 10 in
  let! buf := writeUInt32BE buf (customerAsn a) 12 in
  write_asns providers buf 16.

Fixpoint map_result {A B} (f : A -> result B) (xs : list A) : result (list B) :=
  match xs with
  | [] => Ok []
  | x :: tl => let! y := f x in let! ys := map_result f tl in Ok (y :: ys)
  end.

Definition buildAspaPdus (s : RpkiSession) (a : rpki_aspa) (flags : Z) : result (list (list Z)) :=
  if protocolVersion s <? V2 then Ok []
  else
    match aspaFormat s with
    | LEGACY => map_result (buildAspaLegacyPdu s a flags) (getLegacyAspaAfiFlags a)
    | LATEST =>
      let providers := if flags =? WITHDRAWAL then [] else providerAsns a in
      let totalLen := RPKI_HEADER_LENGTH + 4 + 4 * blen providers in
      let buf := alloc totalLen in
      let buf := bset buf 0 (protocolVersion s) in
      let buf := bset buf 1 (msg_type_value ASPA) in
      let buf := bset buf 2 flags in
      let buf := bset buf 3 0 in
      let! buf := writeUInt32BE buf totalLen 4 in
      let! buf := writeUInt32BE buf (customerAsn a) 8 in
      let! buf := write_asns providers buf 12 in
      Ok [buf]
    end.

Definition buildAspaReplacementPdus (s : RpkiSession) (oldAspa newAspa : rpki_aspa) : result (list (list Z)) :=
  if protocolVersion s <? V2 then Ok []
  else
    match aspaFormat s with
    | LATEST => buildAspaPdus s newAspa UPDATE
    | LEGACY =>
      let oldAfiFlags := getLegacyAspaAfiFlags oldAspa in
      let newAfiFlags := getLegacyAspaAfiFlags newAspa in
      let! announced := map_result (buildAspaLegacyPdu s newAspa UPDATE) newAfiFlags in
      let! withdrawn := map_result (buildAspaLegacyPdu s oldAspa WITHDRAWAL)
        (List.filter (fun f => negb (existsb (Z.eqb f) newAfiFlags)) oldAfiFlags) in
      Ok (announced ++ withdrawn)
    end.

Definition buildDeltaOperationBuffers (s : RpkiSession) (op : delta_operation) : result (list (list Z)) :=
  match op with
  | RoaAnnounce roa =>
    let! b := buildPrefixPdu s roa UPDATE (negb (ipType roa =? IP_TYPE_IPV4)) in Ok [b]
  | RoaWithdraw roa =>
    let! b := buildPrefixPdu s roa WITHDRAWAL (negb (ipType roa =? IP_TYPE_IPV4)) in Ok [b]
  | RouterKeyAnnounce k => let! b := buildRouterKeyPdu s k UPDATE in Ok (option_list b)
  | RouterKeyWithdraw k => let! b := buildRouterKeyPdu s k WITHDRAWAL in Ok (option_list b)
  | AspaReplace oldData newData => buildAspaReplacementPdus s oldData newData
  | AspaAnnounce a => buildAspaPdus s a UPDATE
  | AspaWithdraw a => buildAspaPdus s a WITHDRAWAL
  end.

Definition buildEndOfDataPdu (s : RpkiSession) (serial current : Z) : result buffer :=
  let endOfDataSerial := normalizeSerial serial current in
  if V1 <=? protocolVersion s then
    let totalLen := RPKI_HEADER_LENGTH + 16 in
    let buf := alloc totalLen in
    let buf := bset buf 0 (protocolVersion s) in
    let buf := bset buf 1 (msg_type_value END_OF_DATA) in
    let! buf := writeUInt16BE buf (default 0 (sessionId s)) 2 in
    let! buf := writeUInt32BE buf totalLen 4 in
    let! buf := writeUInt32BE buf endOfDataSerial RPKI_HEADER_LENGTH in
    let! buf := writeUInt32BE buf 3600 (RPKI_HEADER_LENGTH + 4) in
    let! buf := writeUInt32BE buf 600 (RPKI_HEADER_LENGTH + 8) in
    writeUInt32BE buf 7200 (RPKI_HEADER_LENGTH + 12)
  else
    let totalLen := RPKI_HEADER_LENGTH + 4 in
    let buf := alloc totalLen in
    let buf := bset buf 0 (protocolVersion s) in
    let buf := bset buf 1 (msg_type_value END_OF_DATA) in
    let! buf := writeUInt16BE buf (default 0 (sessionId s)) 2 in
    let! buf := writeUInt32BE buf totalLen 4 in
    writeUInt32BE buf endOfDataSerial RPKI_HEADER_LENGTH.

End Pdus.

(** The buffer of [sendCacheReset]; its stores cannot fail. *)
Definition cacheResetPdu (s : RpkiSession) : buffer :=
  let buf := alloc RPKI_HEADER_LENGTH in
  let buf := bset buf 0 (protocolVersion s) in
  let buf := bset buf 1 (msg_type_value CACHE_RESET) in
  let buf := put16 buf 0 2 in
  put32 buf RPKI_HEADER_LENGTH 4.

Definition sendCacheReset : action := this s => sendMessage (cacheResetPdu s).

Definition buildErrorReportPdu (errorCode : RPKI_ERROR_CODE) (version : Z) : buffer :=
  let buf := alloc (RPKI_HEADER_LENGTH + 8) in
  let buf := bset buf 0 version in
  let buf := bset buf 1 (msg_type_value ERROR_REPORT) in
  let buf := put16 buf (rpki_error_value errorCode) 2 in
  let buf := put32 buf (RPKI_HEADER_LENGTH + 8) 4 in
  let buf := put32 buf 0 RPKI_HEADER_LENGTH in
  put32 buf 0 (RPKI_HEADER_LENGTH + 4).

Definition sendError (errorCode : RPKI_ERROR_CODE) (version : option Z) (closeAfterSend : bool) : action :=
  this s =>
    let b := buildErrorReportPdu errorCode (default (protocolVersion s) version) in
    if negb closeAfterSend then sendMessage b
    else if negb (socket s) then closeSession true
    else
      assign (fun s => s <| closing := true |>) ;;;
      emit (SocketEnd b) ;;;
      closeSession false.

(** ** Queries *)

Definition negotiateVersion (configured : option Z) (clientVersion : Z) : action :=
  let maxSupportedVersion := getMaxSupportedVersion configured in
  assign (fun s => s <| protocolVersion :=
    if maxSupportedVersion <? clientVersion then maxSupportedVersion else clientVersion |>).

Definition handleResetQuery (configured : option Z) (header : rpki_header) : action :=
  let maxSupportedVersion := getMaxSupportedVersion configured in
  if maxSupportedVersion <? h_version header
  then sendError UNSUPPORTED_PROTOCOL_VERSION (Some maxSupportedVersion) true
  else
    negotiateVersion configured (h_version header) ;;;
    emit ClientUpdated ;;;
    enqueueSend TaskResetResponse.

(** The part of a handler up to the last read that can throw, then the rest. *)
Definition handleSerialQuery (w : RpkiWorker) (header : rpki_header) (message : buffer)
  (s : RpkiSession) : result action :=
  if negb (h_version header =? protocolVersion s) then Ok (sendError UNEXPECTED_PROTOCOL_VERSION None false)
  else
    let! querySession := readUInt16BE message 2 in
    let! serial := readUInt32BE message RPKI_HEADER_LENGTH in
    let currentSerial := getCurrentSerial w in
    if negb (bool_decide (sessionId s = Some querySession)) then Ok (sendError CORRUPT_DATA None false)
    else
      let deltaOperations := getDeltaOperationsSince serial w in
      if negb (serial =? currentSerial) && bool_decide (deltaOperations = None) then Ok sendCacheReset
      else
        let responseSerial := normalizeSerial currentSerial (getCurrentSerial w) in
        Ok (enqueueSend (TaskSerialResponse (default [] deltaOperations) responseSerial)).

Definition handleErrorReport (message : buffer) : result action :=
  let! _ := readUInt16BE message 2 in
  let! _ := readUInt32BE message RPKI_HEADER_LENGTH in
  Ok skip.

Definition processMessage (w : RpkiWorker) (configured : option Z) (message : buffer) : action :=
  this s =>
    match
      (let! header := parseRpkiHeader message in
       if h_type header =? msg_type_value SERIAL_QUERY then handleSerialQuery w header message s
       else if h_type header =? msg_type_value RESET_QUERY then Ok (handleResetQuery configured header)
       else if h_type header =? msg_type_value ERROR_REPORT then handleErrorReport message
       else Ok (sendError UNSUPPORTED_PDU_TYPE None false))
    with
    | Ok a => a
    | Throw _ => sendError INTERNAL_ERROR None false
    end.

(** ** Input *)

(** [while (this.messageBuffer.length >= 8) { ... }]; [None] is running out of fuel. *)
Fixpoint processBufferedMessages (fuel : nat) (w : RpkiWorker) (configured : option Z) (s : RpkiSession)
  : option (RpkiSession * list session_effect) :=
  if blen (messageBuffer s) <? RPKI_HEADER_LENGTH then Some (s, [])
  else
    match fuel with
    | O => None
    | S f =>
      match parseRpkiHeader (messageBuffer s) with
      | Throw _ => Some (s, [])
      | Ok header =>
        if (h_length header <? RPKI_HEADER_LENGTH) || (MAX_RPKI_PDU_BYTES <? h_length header)
        then Some (closeSession true s)
        else if blen (messageBuffer s) <? h_length header then Some (s, [])
        else
          let completeMessage := subarray (messageBuffer s) 0 (h_length header) in
          let s := s <| messageBuffer := subarray_from (messageBuffer s) (h_length header) |> in
          let '(s, out) := processMessage w configured completeMessage s in
          (fun r => (fst r, out ++ snd r)) <$> processBufferedMessages f w configured s
      end
    end.

Definition recvMsg (w : RpkiWorker) (configured : option Z) (b : buffer) (s : RpkiSession)
  : option (RpkiSession * list session_effect) :=
  if closing s then Some (s, [])
  else if MAX_RPKI_PDU_BYTES <? blen (messageBuffer s) + blen b then Some (closeSession true s)
  else
    let s := s <| messageBuffer := messageBuffer s ++ b |> in
    processBufferedMessages (S (length (messageBuffer s))) w configured s.

(** ** Queued answers *)

(** A running task: how many more times [canWrite()] succeeds, and what was written. *)
Record task_state := { t_budget : option nat; t_out : list (list Z) }.

Definition task_canWrite (t : task_state) : bool * task_state :=
  match t_budget t with
  | None => (true, t)
  | Some O => (false, t)
  | Some (S k) => (true, {| t_budget := Some k; t_out := t_out t |})
  end.

Definition writeBuffer (b : buffer) (t : task_state) : bool * task_state :=
  match b with
  | [] => (false, t)
  | _ :: _ =>
    let '(ok, t) := task_canWrite t in
    if ok then (true, {| t_budget := t_budget t; t_out := t_out t ++ [b] |}) else (false, t)
  end.

(** The pending chunk of [writeChunkedPduList]: its buffers and their total length. *)
Record chunk := { chunkBuffers : list (list Z); chunkBytes : Z }.

Definition empty_chunk : chunk := {| chunkBuffers := []; chunkBytes := 0 |}.

Definition flush (c : chunk) (t : task_state) : bool * task_state * chunk :=
  if chunkBytes c =? 0 then (true, t, c)
  else
    let '(written, t) := writeBuffer (concat (chunkBuffers c)) t in
    (written, t, empty_chunk).

(** The loop over the PDUs of one item. *)
Fixpoint write_pdus (pdus : list (list Z)) (c : chunk) (t : task_state) : bool * task_state * chunk :=
  match pdus with
  | [] => (true, t, c)
  | pdu :: tl =>
    if blen pdu =? 0 then write_pdus tl c t
    else
      let '(ok, t, c) :=
        if (0 <? chunkBytes c) && (ROA_WRITE_CHUNK_SIZE <? chunkBytes c + blen pdu) then flush c t
        else (true, t, c) in
      if negb ok then (false, t, c)
      else if ROA_WRITE_CHUNK_SIZE <? blen pdu then
        let '(ok, t) := writeBuffer pdu t in
        if ok then write_pdus tl c t else (false, t, c)
      else
        write_pdus tl {| chunkBuffers := chunkBuffers c ++ [pdu]; chunkBytes := chunkBytes c + blen pdu |} t
  end.

(** [Ok false] is an early [return false]; [Throw] is an exception of a builder. *)
Fixpoint write_items {A} (items : list A) (buildPdus : A -> result (list (list Z))) (c : chunk) (t : task_state)
  : result bool * task_state * chunk :=
  match items with
  | [] => (Ok true, t, c)
  | item :: tl =>
    let '(alive, t) := task_canWrite t in
    if negb alive then (Ok false, t, c)
    else
      match buildPdus item with
      | Throw e => (Throw e, t, c)
      | Ok pdus =>
        let '(ok, t, c) := write_pdus pdus c t in
        if ok then write_items tl buildPdus c t else (Ok false, t, c)
      end
  end.

Definition writeChunkedPduList {A} (items : list A) (buildPdus : A -> result (list (list Z))) (t : task_state)
  : result bool * task_state :=
  let '(r, t, c) := write_items items buildPdus empty_chunk t in
  match r with
  | Ok true => let '(ok, t, _) := flush c t in (Ok ok, t)
  | other => (other, t)
  end.

(** [if (!(await step)) return;] *)
Definition and_then (a : task_state -> result bool * task_state) (b : task_state -> result bool * task_state)
  (t : task_state) : result bool * task_state :=
  let '(r, t) := a t in
  match r with
  | Ok true => b t
  | other => (other, t)
  end.

Definition write_built (b : result buffer) (t : task_state) : result bool * task_state :=
  match b with
  | Throw e => (Throw e, t)
  | Ok b => let '(ok, t) := writeBuffer b t in (Ok ok, t)
  end.

(** The data a reset answer is built from. *)
Record rpki_snapshot := {
  snap_serial : Z;
  snap_roas : list rpki_roa;
  snap_routerKeys : list rpki_router_key;
  snap_aspas : list rpki_aspa
}.

(** [createDataSnapshot]: the tables of one read transaction, its serial number and
    the router keys; it throws when too many snapshots are open. *)
Definition createDataSnapshot (activeDataSnapshots maxConcurrentDataSnapshots : Z) (w : RpkiWorker)
  : result rpki_snapshot :=
  match rpkiStore w with
  | None => Ok {| snap_serial := to_uint32 (cacheSerial w); snap_roas := [];
                  snap_routerKeys := map snd (rpkiRouterKeyMap w); snap_aspas := [] |}
  | Some d =>
    if maxConcurrentDataSnapshots <=? activeDataSnapshots then Throw (ErrorMsg "too many snapshots")
    else Ok {| snap_serial := normalizeCacheSerial (getCacheSerial d) (getStoreCacheSerial w);
               snap_roas := rpki_roas d; snap_routerKeys := map snd (rpkiRouterKeyMap w);
               snap_aspas := rpki_aspas d |}
  end.

Section Tasks.
Context (ipToBytes : list Z -> result (list Z)).

Definition writeRoaListData (s : RpkiSession) (roas : list rpki_roa) (flags : Z) :=
  writeChunkedPduList roas (fun roa =>
    let! b := buildPrefixPdu ipToBytes s roa flags (negb (ipType roa =? IP_TYPE_IPV4)) in Ok [b]).

Definition writeRouterKeyData (s : RpkiSession) (keys : list rpki_router_key) :=
  writeChunkedPduList keys (fun k => let! b := buildRouterKeyPdu s k UPDATE in Ok (option_list b)).

Definition writeAspaListData (s : RpkiSession) (aspas : list rpki_aspa) (flags : Z) :=
  writeChunkedPduList aspas (fun a => buildAspaPdus s a flags).

(** The part of the reset task inside [try]. *)
Definition reset_body (s : RpkiSession) (response : result buffer) (snap : rpki_snapshot) (current : Z) :=
  and_then (write_built response)
  (and_then (writeRoaListData s (snap_roas snap) UPDATE)
  (and_then (fun t => if V1 <=? protocolVersion s then writeRouterKeyData s (snap_routerKeys snap) t else (Ok true, t))
  (and_then (fun t => if V2 <=? protocolVersion s then writeAspaListData s (snap_aspas snap) UPDATE t else (Ok true, t))
  (write_built (buildEndOfDataPdu s (normalizeSerial (snap_serial snap) current) current))))).

(** The session after the task (it may have been given its identifier) and what the
    task wrote. *)
Definition sendResetQueryResponse (random : Z) (snapshot : result rpki_snapshot) (current : Z) (s : RpkiSession)
  (t : task_state) : RpkiSession * task_state :=
  let '(s', r, t) :=
    match snapshot with
    | Throw e => (s, Throw e, t)
    | Ok snap =>
      let '(s', response) := buildCacheResponsePdu s random in
      let '(r, t) := reset_body s' response snap current t in
      (s', r, t)
    end in
  match r with
  | Ok _ => (s', t)
  | Throw _ =>
    let '(alive, t) := task_canWrite t in
    (s', if alive then snd (writeBuffer (buildErrorReportPdu INTERNAL_ERROR (protocolVersion s')) t) else t)
  end.

Fixpoint write_buffers (bs : list (list Z)) (t : task_state) : bool * task_state :=
  match bs with
  | [] => (true, t)
  | b :: tl => let '(ok, t) := writeBuffer b t in if ok then write_buffers tl t else (false, t)
  end.

Fixpoint writeDeltaOperations (s : RpkiSession) (operations : list delta_operation) (t : task_state)
  : result bool * task_state :=
  match operations with
  | [] => (Ok true, t)
  | op :: tl =>
    match buildDeltaOperationBuffers ipToBytes s op with
    | Throw e => (Throw e, t)
    | Ok bs =>
      let '(ok, t) := write_buffers bs t in
      if ok then writeDeltaOperations s tl t else (Ok false, t)
    end
  end.

Definition sendSerialQueryResponse (random : Z) (operations : list delta_operation) (serial current : Z)
  (s : RpkiSession) (t : task_state) : RpkiSession * task_state :=
  let '(s', response) := buildCacheResponsePdu s random in
  (s', snd (and_then (write_built response)
             (and_then (writeDeltaOperations s' operations)
               (write_built (buildEndOfDataPdu s' serial current))) t)).

(** The next task of the queue; a session that closes drops the tasks not started. *)
Definition run_task (random : Z) (snapshot : result rpki_snapshot) (current : Z) (task : send_task)
  (s : RpkiSession) (t : task_state) : RpkiSession * task_state :=
  match task with
  | TaskResetResponse => sendResetQueryResponse random snapshot current s t
  | TaskSerialResponse operations serial => sendSerialQueryResponse random operations serial current s t
  | TaskSerialNotify => (s, snd (write_built (buildSerialNotifyPdu s current) t))
  | TaskRoas roas flags => (s, snd (writeRoaListData s roas flags t))
  | TaskAspas aspas => (s, snd (writeAspaListData s aspas UPDATE t))
  end.

Definition run_queue (random : Z) (snapshot : result rpki_snapshot) (current : Z) (s : RpkiSession) (t : task_state)
  : RpkiSession * task_state :=
  match sendQueue s with
  | [] => (s, t)
  | task :: tl =>
    let s := s <| sendQueue := tl |> in
    if closing s || closed s then (s, t) else run_task random snapshot current task s t
  end.
End Tasks.

(** [sendSerialNotify] and the batch senders. *)
Definition sendSerialNotify : action :=
  this s => match sessionId s with None => skip | Some _ => enqueueSend TaskSerialNotify end.
Definition sendRoaBatchData (roas : list rpki_roa) : action := enqueueSend (TaskRoas roas UPDATE).
Definition withdrawRoaBatchData (roas : list rpki_roa) : action := enqueueSend (TaskRoas roas WITHDRAWAL).
Definition sendAspaData (aspas : list rpki_aspa) : action := enqueueSend (TaskAspas aspas).

(** * PDU formats

    What a router reads, after RFC 6810, RFC 8210 and the ASPA draft: this decoder
    is the specification the builders are checked against. *)

Inductive rtr_pdu :=
| PduSerialNotify (version session serial : Z)
| PduCacheResponse (version session : Z)
| PduPrefix (version : Z) (v6 : bool) (flags mask maxLength : Z) (prefix : list Z) (asn : Z)
| PduEndOfData (version session serial : Z) (timers : option (Z * Z * Z))
| PduCacheReset (version : Z)
| PduRouterKey (version flags : Z) (ski : list Z) (asn : Z) (spki : list Z)
| PduErrorReport (version code : Z)
| PduAspa (version flags customer : Z) (providers : list Z).

Definition field (b : buffer) (off n : nat) : Z := be_value (take n (drop off b)).

Fixpoint asn_list (fuel : nat) (b : buffer) : list Z :=
  match fuel with
  | O => []
  | S f => match b with [] => [] | _ => field b 0 4 :: asn_list f (drop 4 b) end
  end.

Definition decode_pdu (b : buffer) : option rtr_pdu :=
  match b with
  | version :: type :: _ =>
    let session := field b 2 2 in
    if type =? 0 then Some (PduSerialNotify version session (field b 8 4))
    else if type =? 3 then Some (PduCacheResponse version session)
    else if type =? 4 then
      Some (PduPrefix version false (field b 8 1) (field b 9 1) (field b 10 1) (take 4 (drop 12 b)) (field b 16 4))
    else if type =? 6 then
      Some (PduPrefix version true (field b 8 1) (field b 9 1) (field b 10 1) (take 16 (drop 12 b)) (field b 28 4))
    else if type =? 7 then
      Some (PduEndOfData version session (field b 8 4)
        (if blen b =? 24 then Some (field b 12 4, field b 16 4, field b 20 4) else None))
    else if type =? 8 then Some (PduCacheReset version)
    else if type =? 9 then
      Some (PduRouterKey version (field b 2 1) (take 20 (drop 8 b)) (field b 28 4) (drop 32 b))
    else if type =? 10 then Some (PduErrorReport version session)
    else if type =? 11 then
      Some (PduAspa version (field b 2 1) (field b 8 4) (asn_list (length b) (drop 12 b)))
    else None
  | _ => None
  end.

(** A stream of PDUs, cut by the length field of their headers. *)
Fixpoint decode_stream (fuel : nat) (b : buffer) : option (list rtr_pdu) :=
  match b with
  | [] => Some []
  | _ =>
    match fuel with
    | O => None
    | S f =>
      let len := Z.to_nat (field b 4 4) in
      if bool_decide (8 <= len <= length b)%nat then
        match decode_pdu (take len b), decode_stream f (drop len b) with
        | Some p, Some ps => Some (p :: ps)
        | _, _ => None
        end
      else None
    end
  end.

(** The eight bytes every PDU starts with. *)
Definition pdu_header (version type a b len : Z) : buffer := [version; type; a; b] ++ be_bytes 4 len.

Definition version_ok (s : RpkiSession) : Prop := 0 <= protocolVersion s <= 2.

Lemma u8_mod x : is_byte x -> x mod 256 = x.
Proof. unfold is_byte. intros. by apply Z.mod_small. Qed.

Lemma be_bytes_2 x : be_bytes 2 x = [x / 256 mod 256; x mod 256].
Proof. reflexivity. Qed.

Lemma be_bytes_4 x : be_bytes 4 x = [x / 256 / 256 / 256 mod 256; x / 256 / 256 mod 256; x / 256 mod 256; x mod 256].
Proof. reflexivity. Qed.

Lemma store_bytes_spec (n : nat) (bytes rest : buffer) :
  length bytes = n -> bytes_ok bytes ->
  forall front mid, length mid = n ->
  store_bytes bytes (front ++ mid ++ rest) (blen front) n = front ++ bytes ++ rest.
Proof.
  revert bytes. induction n as [|n IH]; intros bytes Hl Hb front mid Hm.
  - apply length_zero_iff_nil in Hl, Hm. by subst.
  - destruct bytes as [|x bytes]; [done|]. destruct mid as [|y mid]; [done|].
    apply bytes_ok_cons in Hb as [Hx Hb]. cbn [store_bytes tail]. change (default 0 (head (x :: bytes))) with x.
    assert (bset (front ++ (y :: mid) ++ rest) (blen front) x = (front ++ [x]) ++ mid ++ rest) as ->.
    { unfold bset. decide_test (blen front <? 0) false. unfold blen. rewrite Nat2Z.id.
      replace (front ++ (y :: mid) ++ rest) with (front ++ y :: (mid ++ rest)) by done.
      rewrite <- (Nat.add_0_r (length front)), insert_app_r. cbn [insert list_insert].
      rewrite u8_mod by done. by rewrite <- app_assoc. }
    replace (blen front + 1) with (blen (front ++ [x])) by blia.
    rewrite IH by (cbn in *; done || lia). by rewrite <- app_assoc.
Qed.

Lemma put32_at front v mid rest :
  length mid = 4%nat -> put32 (front ++ mid ++ rest) v (blen front) = front ++ be_bytes 4 v ++ rest.
Proof. intros. unfold put32. apply splice_mid. by rewrite length_be_bytes. Qed.

Lemma put32_off front v mid rest off :
  off = blen front -> length mid = 4%nat -> put32 (front ++ mid ++ rest) v off = front ++ be_bytes 4 v ++ rest.
Proof. intros ->. apply put32_at. Qed.

Lemma write_asns_spec asns : forall front rest,
  Forall (fun n => 0 <= n < 2 ^ 32) asns -> blen rest = 4 * blen asns ->
  write_asns asns (front ++ rest) (blen front) = Ok (front ++ concat (map (be_bytes 4) asns)).
Proof.
  induction asns as [|n asns IH]; intros front rest Hn Hr; cbn [write_asns map concat].
  - change (blen (@nil Z)) with 0 in Hr. assert (rest = []) as -> by (apply blen_0_inv; lia). done.
  - apply Forall_cons_iff in Hn as [Hn Hns]. rewrite blen_cons in Hr.
    rewrite <- (take_drop 4 rest). set (mid := take 4 rest). set (tl := drop 4 rest).
    assert (length mid = 4%nat) as Hmid by (subst mid; rewrite length_take; unfold blen in *; lia).
    assert (blen tl = 4 * blen asns) as Htl by (subst tl; rewrite blen_drop; blia).
    rewrite write32_put32; [|done|blia|unfold blen in *; rewrite !length_app; lia].
    cbn [bind_result]. rewrite put32_at by done.
    replace (blen front + 4) with (blen (front ++ be_bytes 4 n)) by (autorewrite with blen; lia).
    rewrite app_assoc, IH by done. by rewrite <- app_assoc.
Qed.

(** Build a PDU of known size: run the stores of small constants, leaving the 32-bit
    fields. *)
Ltac fixed_store :=
  first
    [ rewrite write16_put16 by (vm_compute; repeat split; congruence)
    | rewrite write32_put32 by (vm_compute; repeat split; congruence) ]; cbn [bind_result].

Lemma version_byte s : version_ok s -> protocolVersion s mod 256 = protocolVersion s.
Proof. unfold version_ok. intros. apply Z.mod_small. lia. Qed.

Lemma buildPrefixPdu_spec ipToBytes s roa flags (v6 : bool) bytes :
  version_ok s -> is_byte flags -> is_byte (mask roa) -> is_byte (maxLength roa) -> 0 <= asn roa < 2 ^ 32 ->
  ipToBytes (ip roa) = Ok bytes -> bytes_ok bytes -> length bytes = (if v6 then 16%nat else 4%nat) ->
  buildPrefixPdu ipToBytes s roa flags v6 =
  Ok (pdu_header (protocolVersion s) (if v6 then 6 else 4) 0 0 (if v6 then 32 else 20)
      ++ [flags; mask roa; maxLength roa; 0] ++ bytes ++ be_bytes 4 (asn roa)).
Proof.
  intros Hv Hf Hm Hx Ha Hip Hb Hl. unfold buildPrefixPdu. rewrite Hip.
  assert (forall n : nat, (n = 16%nat \/ n = 4%nat) -> length bytes = n ->
    forall h : buffer, length h = 12%nat ->
    writeUInt32BE (store_bytes bytes (h ++ alloc (Z.of_nat n) ++ alloc 4) 12 n) (asn roa) (12 + Z.of_nat n) =
    Ok (h ++ bytes ++ be_bytes 4 (asn roa))) as Htail.
  { intros n Hn Hbl h Hh. change 12 with (Z.of_nat 12) at 1. rewrite <- Hh. change (Z.of_nat (length h)) with (blen h).
    rewrite store_bytes_spec; [|done|done|unfold alloc; rewrite length_replicate; lia].
    rewrite write32_put32; [|done|lia|unfold blen; rewrite !length_app, Hh, Hbl; change (length (alloc 4)) with 4%nat; lia].
    rewrite app_assoc. replace (12 + Z.of_nat n) with (blen (h ++ bytes))
      by (unfold blen; rewrite length_app, Hh, Hbl; lia).
    rewrite <- (app_nil_r (alloc 4)), put32_at by done. by rewrite app_nil_r, <- app_assoc. }
  destruct v6; cbn [bind_result].
  - etransitivity; [|apply (Htail 16%nat (or_introl eq_refl) Hl
      (pdu_header (protocolVersion s) 6 0 0 32 ++ [flags; mask roa; maxLength roa; 0]))]; [|done].
    do 2 fixed_store. f_equal. f_equal.
    change (alloc (RPKI_HEADER_LENGTH + 8 + 16)) with (alloc 12 ++ alloc 16 ++ alloc 4).
    cbn. by rewrite version_byte, (u8_mod flags), (u8_mod (mask roa)), (u8_mod (maxLength roa)).
  - etransitivity; [|apply (Htail 4%nat (or_intror eq_refl) Hl
      (pdu_header (protocolVersion s) 4 0 0 20 ++ [flags; mask roa; maxLength roa; 0]))]; [|done].
    do 2 fixed_store. f_equal. f_equal.
    change (alloc (RPKI_HEADER_LENGTH + 8 + 4)) with (alloc 12 ++ alloc 4 ++ alloc 4).
    cbn. by rewrite version_byte, (u8_mod flags), (u8_mod (mask roa)), (u8_mod (maxLength roa)).
Qed.

Lemma alloc_split a b : 0 <= a -> 0 <= b -> alloc (a + b) = alloc a ++ alloc b.
Proof. apply alloc_add. Qed.

Lemma copy_at (src front mid rest : buffer) :
  length mid = length src -> copy_into src (front ++ mid ++ rest) (blen front) = front ++ src ++ rest.
Proof.
  intros Hl. unfold copy_into. rewrite take_ge; [by apply splice_mid|].
  autorewrite with blen. unfold blen. lia.
Qed.

Lemma length_alloc n : length (alloc n) = Z.to_nat n.
Proof. apply length_replicate. Qed.

Lemma buildRouterKeyPdu_spec s k flags :
  version_ok s -> V1 <= protocolVersion s -> is_byte flags -> blen (hex_decode (ski k)) = 20 ->
  32 + blen (hex_decode (spki k)) < 2 ^ 32 -> 0 <= rk_asn k < 2 ^ 32 ->
  buildRouterKeyPdu s k flags =
  Ok (Some (pdu_header (protocolVersion s) 9 flags 0 (32 + blen (hex_decode (spki k)))
      ++ hex_decode (ski k) ++ be_bytes 4 (rk_asn k) ++ hex_decode (spki k))).
Proof.
  intros Hv H1 Hf Hski Hlen Ha. unfold buildRouterKeyPdu.
  decide_test (protocolVersion s <? V1) false. rewrite Hski. cbn [Z.eqb Pos.eqb negb].
  set (sk := hex_decode (ski k)) in *. set (sp := hex_decode (spki k)) in *.
  replace (RPKI_HEADER_LENGTH + 20 + 4 + blen sp) with (8 + (20 + (4 + blen sp))) by (unfold RPKI_HEADER_LENGTH; lia).
  replace (alloc (8 + (20 + (4 + blen sp)))) with (alloc 8 ++ alloc 20 ++ alloc 4 ++ alloc (blen sp))
    by (rewrite <- !alloc_add by blia; done).
  change (alloc 8) with [0; 0; 0; 0; 0; 0; 0; 0]. set (rest := alloc 20 ++ alloc 4 ++ alloc (blen sp)).
  assert (blen rest = 24 + blen sp) as Hrest
    by (subst rest; rewrite !blen_app, !blen_alloc by blia; lia).
  cbn -[writeUInt32BE copy_into alloc blen be_bytes rest Z.add Z.modulo].
  change (Z.to_nat 0) with 0%nat. change (Z.to_nat 1) with 1%nat. change (Z.to_nat 2) with 2%nat.
  change (Z.to_nat 3) with 3%nat. cbn -[writeUInt32BE copy_into alloc blen be_bytes rest Z.add Z.modulo].
  rewrite version_byte, (u8_mod flags) by done. change (9 mod 256) with 9. change (0 mod 256) with 0.
  change (protocolVersion s :: 9 :: flags :: 0 :: 0 :: 0 :: 0 :: 0 :: rest)
    with ([protocolVersion s; 9; flags; 0] ++ [0; 0; 0; 0] ++ rest).
  rewrite write32_put32 by (autorewrite with blen; blia). cbn [bind_result].
  rewrite (put32_off [protocolVersion s; 9; flags; 0]) by done.
  rewrite app_assoc. change ([protocolVersion s; 9; flags; 0] ++ be_bytes 4 ?n) with (pdu_header (protocolVersion s) 9 flags 0 n).
  replace (8 + (20 + (4 + blen sp))) with (32 + blen sp) by lia.
  set (h := pdu_header _ _ _ _ _). assert (blen h = 8) as Hh by (subst h; done). unfold rest.
  rewrite <- Hh at 1. rewrite copy_at by (rewrite length_alloc; unfold blen in Hski; lia).
  rewrite write32_put32 by (autorewrite with blen; rewrite ?blen_alloc by blia; blia). cbn [bind_result].
  rewrite app_assoc. replace 28 with (blen (h ++ sk)) by (rewrite blen_app; lia). rewrite put32_at by done.
  rewrite app_assoc. replace 32 with (blen ((h ++ sk) ++ be_bytes 4 (rk_asn k))) at 1 by (rewrite !blen_app; autorewrite with blen; lia).
  rewrite <- (app_nil_r (alloc (blen sp))), copy_at by (rewrite length_alloc; unfold blen; lia).
  rewrite app_nil_r, <- !app_assoc. reflexivity.
Qed.

Lemma buildAspaPdus_spec s a flags :
  version_ok s -> protocolVersion s = V2 -> aspaFormat s = LATEST -> is_byte flags ->
  0 <= customerAsn a < 2 ^ 32 -> Forall (fun n => 0 <= n < 2 ^ 32) (providerAsns a) ->
  12 + 4 * blen (providerAsns a) < 2 ^ 32 ->
  let providers := if flags =? WITHDRAWAL then [] else providerAsns a in
  buildAspaPdus s a flags =
  Ok [pdu_header (protocolVersion s) 11 flags 0 (12 + 4 * blen providers)
      ++ be_bytes 4 (customerAsn a) ++ concat (map (be_bytes 4) providers)].
Proof.
  intros Hv H2 Hfmt Hf Hc Hp Hlen providers. unfold buildAspaPdus. rewrite H2, Hfmt. cbn [Z.ltb Z.compare V2].
  fold providers. assert (Forall (fun n => 0 <= n < 2 ^ 32) providers) as Hps by (subst providers; case_if; [constructor|done]).
  assert (blen providers <= blen (providerAsns a)) as Hle by (subst providers; case_if; blia). clearbody providers.
  replace (RPKI_HEADER_LENGTH + 4 + 4 * blen providers) with (8 + (4 + 4 * blen providers)) by (unfold RPKI_HEADER_LENGTH; lia).
  replace (alloc (8 + (4 + 4 * blen providers))) with (alloc 8 ++ alloc 4 ++ alloc (4 * blen providers))
    by (rewrite <- !alloc_add by blia; done).
  change (alloc 8) with [0; 0; 0; 0; 0; 0; 0; 0]. set (rest := alloc 4 ++ alloc (4 * blen providers)).
  assert (blen rest = 4 + 4 * blen providers) as Hrest by (subst rest; rewrite !blen_app, !blen_alloc by blia; lia).
  cbn -[writeUInt32BE alloc blen be_bytes rest Z.add Z.modulo write_asns Z.mul].
  change (Z.to_nat 0) with 0%nat. change (Z.to_nat 1) with 1%nat. change (Z.to_nat 2) with 2%nat.
  change (Z.to_nat 3) with 3%nat. cbn -[writeUInt32BE alloc blen be_bytes rest Z.add Z.modulo write_asns Z.mul].
  rewrite (u8_mod flags) by done. change (11 mod 256) with 11. change (0 mod 256) with 0. change (V2 mod 256) with 2.
  change (2 :: 11 :: flags :: 0 :: 0 :: 0 :: 0 :: 0 :: rest) with ([2; 11; flags; 0] ++ [0; 0; 0; 0] ++ rest).
  rewrite write32_put32 by (autorewrite with blen; blia). cbn [bind_result].
  rewrite (put32_off [2; 11; flags; 0]) by done.
  rewrite app_assoc. replace (8 + (4 + 4 * blen providers)) with (12 + 4 * blen providers) by lia.
  set (h := [2; 11; flags; 0] ++ be_bytes 4 _). assert (blen h = 8) as Hh by (subst h; done). unfold rest.
  rewrite write32_put32 by (autorewrite with blen; rewrite ?blen_alloc by blia; blia). cbn [bind_result].
  rewrite (put32_off h) by done. rewrite app_assoc.
  replace 12 with (blen (h ++ be_bytes 4 (customerAsn a))) at 1 by (rewrite blen_app; autorewrite with blen; lia).
  rewrite write_asns_spec by (try rewrite blen_alloc by blia; done). rewrite <- app_assoc. reflexivity.
Qed.

Lemma buildCacheResponsePdu_spec s random :
  version_ok s -> 0 <= default random (sessionId s) < 65536 ->
  buildCacheResponsePdu s random =
  (s <| sessionId := Some (default random (sessionId s)) |>,
   Ok ([protocolVersion s; 3] ++ be_bytes 2 (default random (sessionId s)) ++ be_bytes 4 8)).
Proof.
  intros Hv Hsid. unfold buildCacheResponsePdu.
  assert (forall n, 0 <= n < 65536 ->
    (let! buf := writeUInt16BE (bset (bset (alloc RPKI_HEADER_LENGTH) 0 (protocolVersion s)) 1 (msg_type_value CACHE_RESPONSE)) n 2 in
     writeUInt32BE buf RPKI_HEADER_LENGTH 4) = Ok ([protocolVersion s; 3] ++ be_bytes 2 n ++ be_bytes 4 8)) as Hb.
  { intros n Hn. rewrite write16_put16 by (done || vm_compute; congruence). cbn [bind_result].
    rewrite write32_put32 by (vm_compute; repeat split; congruence).
    cbn. by rewrite version_byte. }
  destruct s as [? ? [sid|] ? ? ? ? ?]; cbn in *; by rewrite Hb.
Qed.

Definition end_of_data (s : RpkiSession) (sid serial : Z) : buffer :=
  [protocolVersion s; 7] ++ be_bytes 2 sid ++
  if V1 <=? protocolVersion s
  then be_bytes 4 24 ++ be_bytes 4 serial ++ be_bytes 4 3600 ++ be_bytes 4 600 ++ be_bytes 4 7200
  else be_bytes 4 12 ++ be_bytes 4 serial.

Lemma buildEndOfDataPdu_spec s sid serial current :
  version_ok s -> sessionId s = Some sid -> 0 <= sid < 65536 -> 0 <= serial < 2 ^ 32 ->
  buildEndOfDataPdu s serial current = Ok (end_of_data s sid serial).
Proof.
  intros Hv Hs Hsid Hser. unfold buildEndOfDataPdu, end_of_data, normalizeSerial. rewrite Hs.
  decide_test (0 <=? serial) true. rewrite to_uint32_small by done. cbn [default from_option id].
  case_if.
  - rewrite write16_put16 by (done || vm_compute; congruence). cbn [bind_result]. fixed_store.
    rewrite write32_put32 by (done || vm_compute; congruence). cbn [bind_result].
    do 3 fixed_store. cbn. by rewrite version_byte.
  - rewrite write16_put16 by (done || vm_compute; congruence). cbn [bind_result]. fixed_store.
    rewrite write32_put32 by (done || vm_compute; congruence). cbn [bind_result].
    cbn. by rewrite version_byte.
Qed.

(** ** The builders produce what a router reads *)

Definition pdu_bytes (b : buffer) (p : rtr_pdu) : Prop :=
  field b 4 4 = blen b /\ 8 <= blen b /\ decode_pdu b = Some p.

Lemma be_value_single x : be_value [x] = x.
Proof. unfold be_value. cbn. lia. Qed.

Lemma field_skip x l o n : field (x :: l) (S o) n = field l o n.
Proof. reflexivity. Qed.

Lemma field_one x l : field (x :: l) 0 1 = x.
Proof. unfold field. cbn [drop take]. rewrite take_0. apply be_value_single. Qed.

Lemma field_past (a b : buffer) o n : field (a ++ b) (length a + o) n = field b o n.
Proof. unfold field. by rewrite drop_app_add. Qed.

Lemma field_be (n : nat) v rest : 0 <= v < 2 ^ (8 * Z.of_nat n) -> field (be_bytes n v ++ rest) 0 n = v.
Proof.
  intros Hv. unfold field. rewrite drop_0, take_app_length' by (by rewrite length_be_bytes).
  by apply be_value_be_bytes.
Qed.

Lemma field_be_end (n : nat) v : 0 <= v < 2 ^ (8 * Z.of_nat n) -> field (be_bytes n v) 0 n = v.
Proof. intros Hv. rewrite <- (app_nil_r (be_bytes n v)). by apply field_be. Qed.

(** Skip the bytes in front of a field. *)
Ltac field_step := repeat (rewrite ?field_skip; cbn [app]).

Lemma header_length v t a b len rest :
  0 <= len < 2 ^ 32 -> field (pdu_header v t a b len ++ rest) 4 4 = len.
Proof. intros Hl. unfold pdu_header. cbn [app]. field_step. by apply field_be. Qed.

Lemma blen_header v t a b len : blen (pdu_header v t a b len) = 8.
Proof. reflexivity. Qed.

Lemma decode_prefix (v flags m ml n : Z) (v6 : bool) (bytes : buffer) :
  0 <= n < 2 ^ 32 -> length bytes = (if v6 then 16%nat else 4%nat) ->
  pdu_bytes (pdu_header v (if v6 then 6 else 4) 0 0 (if v6 then 32 else 20) ++ [flags; m; ml; 0] ++ bytes ++ be_bytes 4 n)
    (PduPrefix v v6 flags m ml bytes n).
Proof.
  intros Hn Hl. unfold pdu_bytes. split_and!.
  - rewrite header_length by (by destruct v6). destruct v6; unfold blen; rewrite !length_app, Hl; reflexivity.
  - destruct v6; unfold blen; rewrite !length_app, Hl; vm_compute; congruence.
  - destruct v6; unfold decode_pdu, pdu_header.
    + change (be_bytes 4 32) with [0; 0; 0; 32]. cbn [app Z.eqb Pos.eqb]. field_step. rewrite !field_one.
      change (drop 12 _) with (bytes ++ be_bytes 4 n). rewrite take_app_length' by done. change 16%nat with (16 + 0)%nat. rewrite <- Hl, field_past.
      by rewrite field_be_end.
    + change (be_bytes 4 20) with [0; 0; 0; 20]. cbn [app Z.eqb Pos.eqb]. field_step. rewrite !field_one.
      change (drop 12 _) with (bytes ++ be_bytes 4 n). rewrite take_app_length' by done. change 4%nat with (4 + 0)%nat at 2. rewrite <- Hl at 2.
      rewrite field_past. by rewrite field_be_end.
Qed.

Lemma decode_router_key v flags sk n (sp : buffer) :
  0 <= n < 2 ^ 32 -> length sk = 20%nat -> 32 + blen sp < 2 ^ 32 ->
  pdu_bytes (pdu_header v 9 flags 0 (32 + blen sp) ++ sk ++ be_bytes 4 n ++ sp) (PduRouterKey v flags sk n sp).
Proof.
  intros Hn Hl Hlen. unfold pdu_bytes. split_and!.
  - rewrite header_length by blia. rewrite !blen_app, blen_header, blen_be_bytes. unfold blen. lia.
  - rewrite !blen_app, blen_header. blia.
  - unfold decode_pdu, pdu_header. rewrite be_bytes_4. cbn [app Z.eqb Pos.eqb]. field_step. rewrite !field_one.
    change (drop 8 _) with (sk ++ be_bytes 4 n ++ sp). change (drop 32 _) with (drop 24 (sk ++ be_bytes 4 n ++ sp)).
    rewrite take_app_length' by done. replace 20%nat with (length sk + 0)%nat at 1 by lia.
    rewrite field_past, field_be by done.
    replace 24%nat with (length sk + 4)%nat by lia. rewrite drop_app_add. by rewrite drop_app_length' by (by rewrite length_be_bytes).
Qed.

Lemma asn_list_spec asns : forall fuel,
  Forall (fun n => 0 <= n < 2 ^ 32) asns -> (length asns <= fuel)%nat ->
  asn_list fuel (concat (map (be_bytes 4) asns)) = asns.
Proof.
  induction asns as [|n asns IH]; intros fuel Hn Hf; [by destruct fuel|].
  apply Forall_cons_iff in Hn as [Hn Hns]. destruct fuel as [|fuel]; [cbn in Hf; lia|].
  cbn [map concat]. cbn [asn_list]. destruct (be_bytes 4 n ++ _) eqn:He; [by rewrite be_bytes_4 in He|].
  rewrite <- He. rewrite field_be by done. rewrite drop_app_length' by (by rewrite length_be_bytes).
  rewrite IH; [done | done | cbn in Hf; lia].
Qed.

Lemma decode_aspa v flags c (ps : list Z) :
  0 <= c < 2 ^ 32 -> Forall (fun n => 0 <= n < 2 ^ 32) ps -> 12 + 4 * blen ps < 2 ^ 32 ->
  pdu_bytes (pdu_header v 11 flags 0 (12 + 4 * blen ps) ++ be_bytes 4 c ++ concat (map (be_bytes 4) ps))
    (PduAspa v flags c ps).
Proof.
  intros Hc Hps Hlen.
  assert (length (concat (map (be_bytes 4) ps)) = 4 * length ps)%nat as Hcl.
  { clear. induction ps as [|x ps IH]; [done|]. cbn [map concat]. rewrite length_app, length_be_bytes, IH. cbn [length]. lia. }
  unfold pdu_bytes. split_and!.
  - rewrite header_length by blia. rewrite !blen_app, blen_header, blen_be_bytes. unfold blen. lia.
  - rewrite !blen_app, blen_header. blia.
  - unfold decode_pdu, pdu_header. rewrite (be_bytes_4 (12 + _)). cbn [app Z.eqb Pos.eqb]. field_step. rewrite !field_one.
    rewrite field_be by done.
    change (drop 12 _) with (drop 4 (be_bytes 4 c ++ concat (map (be_bytes 4) ps))). rewrite drop_app_length' by (by rewrite length_be_bytes).
    rewrite asn_list_spec; [done | done |]. cbn [length]. rewrite length_app, Hcl. lia.
Qed.

Lemma decode_cache_response v sid :
  0 <= sid < 65536 -> pdu_bytes ([v; 3] ++ be_bytes 2 sid ++ be_bytes 4 8) (PduCacheResponse v sid).
Proof.
  intros Hs. unfold pdu_bytes. split_and!.
  - rewrite be_bytes_2. cbn [app]. field_step. by rewrite field_be_end.
  - done.
  - unfold decode_pdu. cbn [app Z.eqb Pos.eqb]. field_step. by rewrite field_be.
Qed.

Definition timers (v : Z) : option (Z * Z * Z) := if V1 <=? v then Some (3600, 600, 7200) else None.

Lemma decode_end_of_data s sid serial :
  0 <= sid < 65536 -> 0 <= serial < 2 ^ 32 ->
  pdu_bytes (end_of_data s sid serial)
    (PduEndOfData (protocolVersion s) sid serial (timers (protocolVersion s))).
Proof.
  intros Hs Hn. unfold pdu_bytes, end_of_data, timers. destruct (V1 <=? protocolVersion s); split_and!.
  1,4: rewrite be_bytes_2; cbn [app]; field_step; by rewrite field_be.
  1,3: done.
  - unfold decode_pdu. cbn [app Z.eqb Pos.eqb]. field_step. rewrite field_be by done.
    rewrite (be_bytes_2 sid). cbn [app]. field_step. rewrite (be_bytes_4 24). cbn [app]. field_step.
    rewrite field_be by done. rewrite (be_bytes_4 serial). cbn [app]. field_step. rewrite field_be by done. reflexivity.
  - unfold decode_pdu. cbn [app Z.eqb Pos.eqb]. field_step. rewrite field_be by done.
    rewrite (be_bytes_2 sid). cbn [app]. field_step. rewrite (be_bytes_4 12). cbn [app]. field_step.
    rewrite field_be_end by done. reflexivity.
Qed.

Definition decode_rtr (b : buffer) : option (list rtr_pdu) := decode_stream (length b) b.

Lemma decode_stream_cons fuel b p rest ps :
  pdu_bytes b p -> decode_stream fuel rest = Some ps -> decode_stream (S fuel) (b ++ rest) = Some (p :: ps).
Proof.
  intros (Hf & Hl & Hp) Hr. unfold blen in *. destruct b as [|x b]; [cbn in Hl; lia|].
  cbn [decode_stream app]. change (x :: b ++ rest) with ((x :: b) ++ rest). set (y := x :: b) in *.
  assert (field (y ++ rest) 4 4 = field y 4 4) as ->.
  { unfold field. rewrite drop_app_le by lia. rewrite take_app_le; [done|]. rewrite length_drop. lia. }
  rewrite Hf, Nat2Z.id. rewrite bool_decide_true by (rewrite length_app; lia).
  rewrite take_app_length, drop_app_length. by rewrite Hp, Hr.
Qed.

Lemma decode_stream_all bs ps :
  Forall2 pdu_bytes bs ps -> forall fuel, (length bs <= fuel)%nat -> decode_stream fuel (concat bs) = Some ps.
Proof.
  induction 1 as [|b p bs ps Hb _ IH]; intros fuel Hf; [by destruct fuel|].
  destruct fuel as [|fuel]; [cbn in Hf; lia|]. cbn [concat]. apply decode_stream_cons; [done|].
  apply IH. cbn in Hf. lia.
Qed.

Lemma decode_rtr_all bs ps : Forall2 pdu_bytes bs ps -> decode_rtr (concat bs) = Some ps.
Proof.
  intros H. apply decode_stream_all; [done|].
  induction H as [|b p bs ps (_ & Hl & _) _ IH]; [done|]. cbn [concat length]. rewrite length_app. unfold blen in Hl. lia.
Qed.

(** ** Writing in chunks *)

(** A write: some PDUs put together, no more than a chunk unless it is a single one. *)
Definition group_ok (g : list (list Z)) : Prop :=
  g <> [] /\ (blen (concat g) <= ROA_WRITE_CHUNK_SIZE \/ blen g = 1).

Definition nonempty (pdus : list (list Z)) : list (list Z) := List.filter (fun p => negb (blen p =? 0)) pdus.

(** The PDUs [done] have been written in groups, or wait in the pending chunk. *)
Record writing (out0 : list (list Z)) (done : list (list Z)) (c : chunk) (t : task_state) : Prop := {
  wr_groups : exists groups, t_out t = out0 ++ map (@concat Z) groups /\ Forall group_ok groups /\
    concat groups ++ chunkBuffers c = done;
  wr_bytes : chunkBytes c = blen (concat (chunkBuffers c));
  wr_size : chunkBytes c <= ROA_WRITE_CHUNK_SIZE;
  wr_nonempty : Forall (fun p => 0 < blen p) (chunkBuffers c)
}.

(** What has been written is whole PDUs, in order. *)
Definition wrote_prefix (out0 all : list (list Z)) (t : task_state) : Prop :=
  exists groups, t_out t = out0 ++ map (@concat Z) groups /\ Forall group_ok groups /\ concat groups `prefix_of` all.

Lemma writing_prefix out0 done c t all : writing out0 done c t -> done `prefix_of` all -> wrote_prefix out0 all t.
Proof.
  intros [(groups & Ho & Hg & <-) _ _ _] Hp. exists groups. split; [done|]. split; [done|].
  etrans; [|exact Hp]. by eexists.
Qed.

Lemma writing_same out0 done c t t' : writing out0 done c t -> t_out t' = t_out t -> writing out0 done c t'.
Proof. intros [(g & Ho & ?) ? ? ?] He. constructor; try done. exists g. by rewrite He. Qed.

Lemma task_canWrite_out t : t_out (snd (task_canWrite t)) = t_out t.
Proof. unfold task_canWrite. destruct (t_budget t) as [[|k]|]; done. Qed.

Lemma writeBuffer_out b t :
  b <> [] ->
  (fst (writeBuffer b t) = true /\ t_out (snd (writeBuffer b t)) = t_out t ++ [b]) \/
  (fst (writeBuffer b t) = false /\ t_out (snd (writeBuffer b t)) = t_out t /\ t_budget t <> None).
Proof.
  intros Hb. destruct b as [|x b]; [done|]. unfold writeBuffer, task_canWrite. destruct t as [[[|k]|] out]; cbn; auto.
Qed.

Lemma budget_kept b t : t_budget t = None -> t_budget (snd (writeBuffer b t)) = None.
Proof. intros Hb. destruct b; [done|]. unfold writeBuffer, task_canWrite. by rewrite Hb. Qed.

Lemma chunk_nonempty c : Forall (fun p : list Z => 0 < blen p) (chunkBuffers c) ->
  chunkBytes c = blen (concat (chunkBuffers c)) -> chunkBytes c = 0 <-> chunkBuffers c = [].
Proof.
  intros Hn ->. split; [|by intros ->]. destruct Hn as [|p ps Hp _]; [done|]. cbn [concat]. blia.
Qed.

Lemma flush_spec out0 done c t :
  writing out0 done c t ->
  let '(ok, t', c') := flush c t in
  (t_budget t = None -> ok = true /\ t_budget t' = None) /\
  if ok then writing out0 done c' t' /\ chunkBuffers c' = [] else wrote_prefix out0 done t'.
Proof.
  intros Hw. destruct Hw as [(groups & Ho & Hg & Hd) Hb Hs Hn]. unfold flush.
  pose proof (chunk_nonempty c Hn Hb) as Hz. destruct (Z.eqb_spec (chunkBytes c) 0) as [H0|H0].
  { split; [done|]. apply Hz in H0 as Hc. split; [|done]. constructor; try done. by exists groups. }
  assert (chunkBuffers c <> []) as Hc by (intros Hc; by apply H0, Hz).
  assert (concat (chunkBuffers c) <> []) as Hcc by (intros Hcc; rewrite Hb, Hcc in H0; by destruct H0).
  pose proof (budget_kept (concat (chunkBuffers c)) t) as Hbud.
  destruct (writeBuffer_out (concat (chunkBuffers c)) t Hcc) as [[Hok Hout]|(Hok & Hout & Hnb)];
    destruct (writeBuffer _ t) as [ok t']; cbn [fst snd] in *; subst ok.
  - split; [by auto|]. split; [|done]. constructor; try done.
    exists (groups ++ [chunkBuffers c]). rewrite Hout, Ho, map_app, <- app_assoc. split; [done|]. split.
    + apply Forall_app. split; [done|]. apply Forall_singleton. split; [done|]. left. lia.
    + rewrite concat_app. cbn. by rewrite !app_nil_r.
  - split; [done|]. exists groups. rewrite Hout. split; [done|]. split; [done|]. subst. by eexists.
Qed.

Lemma write_pdus_spec out0 pdus : forall done c t,
  writing out0 done c t ->
  let '(ok, t', c') := write_pdus pdus c t in
  (t_budget t = None -> ok = true /\ t_budget t' = None) /\
  if ok then writing out0 (done ++ nonempty pdus) c' t' else wrote_prefix out0 (done ++ nonempty pdus) t'.
Proof.
  induction pdus as [|pdu pdus IH]; intros done c t Hw; cbn [write_pdus nonempty List.filter].
  { rewrite app_nil_r. done. }
  destruct (Z.eqb_spec (blen pdu) 0) as [H0|H0]; cbn [negb]; [by apply IH|].
  fold (nonempty pdus).
  assert (let '(ok, t1, c1) := (if (0 <? chunkBytes c) && (ROA_WRITE_CHUNK_SIZE <? chunkBytes c + blen pdu)
            then flush c t else (true, t, c)) in
    (t_budget t = None -> ok = true /\ t_budget t1 = None) /\
    if ok then writing out0 done c1 t1 /\
      (blen pdu <= ROA_WRITE_CHUNK_SIZE -> chunkBytes c1 + blen pdu <= ROA_WRITE_CHUNK_SIZE) /\
      (ROA_WRITE_CHUNK_SIZE < blen pdu -> chunkBuffers c1 = [])
    else wrote_prefix out0 done t1) as Hflush.
  { destruct ((0 <? chunkBytes c) && _) eqn:Hbig.
    - pose proof (flush_spec out0 done c t Hw) as Hf. destruct (flush c t) as [[ok t1] c1].
      destruct Hf as [Hb Hf]. split; [done|]. destruct ok; [|done]. destruct Hf as [Hw1 Hc1]. split; [done|]. split; [|done].
      destruct Hw1 as [_ -> _ _]. rewrite Hc1. cbn [concat]. rewrite blen_nil. lia.
    - split; [done|]. split; [done|]. destruct Hw as [_ Hb Hs Hn]. pose proof (chunk_nonempty c Hn Hb) as Hz.
      pose proof (blen_nonneg (concat (chunkBuffers c))). bool_hyps.
      split; intros; [|apply Hz]; destruct Hbig as [Hbig|Hbig]; bool_hyps; lia. }
  destruct (if (0 <? chunkBytes c) && _ then flush c t else (true, t, c)) as [[ok t1] c1].
  destruct Hflush as [Hb Hf]. destruct ok; cbn [negb].
  2:{ split; [intros Ht; by apply Hb|]. destruct Hf as (g & ? & ? & Hp). exists g. split; [done|]. split; [done|].
      etrans; [exact Hp|]. by eexists. }
  destruct Hf as (Hw1 & Hsmall & Hlarge).
  destruct (Z.ltb_spec ROA_WRITE_CHUNK_SIZE (blen pdu)) as [Hbig|Hle].
  - assert (pdu <> []) as Hne by (intros ->; done). pose proof (budget_kept pdu t1) as Hbud.
    specialize (Hlarge Hbig). destruct Hw1 as [(groups & Ho & Hg & Hd) Hby Hsz Hn].
    destruct (writeBuffer_out pdu t1 Hne) as [[Hok Hout]|(Hok & Hout & Hnb)];
      destruct (writeBuffer pdu t1) as [ok2 t2]; cbn [fst snd] in *; subst ok2.
    + assert (writing out0 (done ++ [pdu]) c1 t2) as Hw2.
      { constructor; try done. exists (groups ++ [[pdu]]). rewrite Hout, Ho, map_app, <- app_assoc. split; [|split].
        - cbn. by rewrite app_nil_r.
        - apply Forall_app. split; [done|]. apply Forall_singleton. split; [done|]. by right.
        - rewrite concat_app, Hlarge. cbn. rewrite Hlarge, app_nil_r in Hd. by rewrite Hd, app_nil_r. }
      specialize (IH _ _ _ Hw2). destruct (write_pdus pdus c1 t2) as [[ok3 t3] c3]. rewrite <- app_assoc in IH.
      destruct IH as [Hb3 IH]. split; [|done]. intros Ht. destruct (Hb Ht). auto.
    + split; [intros Ht; by destruct (Hb Ht)|]. exists groups. rewrite Hout. split; [done|]. split; [done|].
      rewrite Hlarge, app_nil_r in Hd. subst. by eexists.
  - assert (writing out0 (done ++ [pdu])
      {| chunkBuffers := chunkBuffers c1 ++ [pdu]; chunkBytes := chunkBytes c1 + blen pdu |} t1) as Hw2.
    { destruct Hw1 as [(groups & Ho & Hg & Hd) Hby Hsz Hn]. constructor; cbn [chunkBuffers chunkBytes].
      - exists groups. rewrite app_assoc, Hd. done.
      - rewrite concat_app, blen_app, Hby. cbn. by rewrite app_nil_r.
      - by apply Hsmall.
      - apply Forall_app. split; [done|]. apply Forall_singleton. pose proof (blen_nonneg pdu). lia. }
    specialize (IH _ _ _ Hw2). destruct (write_pdus pdus _ t1) as [[ok3 t3] c3]. rewrite <- app_assoc in IH.
    destruct IH as [Hb3 IH]. split; [|done]. intros Ht. destruct (Hb Ht). auto.
Qed.

Lemma nonempty_app a b : nonempty (a ++ b) = nonempty a ++ nonempty b.
Proof. apply List.filter_app. Qed.

Lemma wrote_prefix_app out0 a b t : wrote_prefix out0 a t -> wrote_prefix out0 (a ++ b) t.
Proof.
  intros (g & ? & ? & Hp). exists g. split; [done|]. split; [done|]. etrans; [exact Hp|]. by eexists.
Qed.

Lemma write_items_spec {A} out0 (items : list A) f pss : Forall2 (fun i ps => f i = Ok ps) items pss ->
  forall done c t, writing out0 done c t ->
  let '(r, t', c') := write_items items f c t in
  (t_budget t = None -> r = Ok true /\ t_budget t' = None) /\
  match r with
  | Ok true => writing out0 (done ++ nonempty (concat pss)) c' t'
  | Ok false => wrote_prefix out0 (done ++ nonempty (concat pss)) t'
  | Throw _ => False
  end.
Proof.
  induction 1 as [|i ps items pss Hi _ IH]; intros done c t Hw; cbn [write_items concat].
  { cbn. by rewrite app_nil_r. }
  pose proof (task_canWrite_out t) as Hout.
  assert (t_budget t = None -> fst (task_canWrite t) = true /\ t_budget (snd (task_canWrite t)) = None) as Hbud.
  { intros Hb. unfold task_canWrite. by rewrite Hb. }
  destruct (task_canWrite t) as [alive t1]. cbn [fst snd] in *.
  assert (writing out0 done c t1) as Hw1 by (by eapply writing_same). rewrite nonempty_app, app_assoc.
  destruct alive; cbn [negb].
  2:{ split; [intros Hb; by destruct (Hbud Hb)|]. apply wrote_prefix_app. eapply writing_prefix; [done|]. by eexists. }
  rewrite Hi. pose proof (write_pdus_spec out0 ps done c t1 Hw1) as Hp.
  destruct (write_pdus ps c t1) as [[ok t2] c2]. destruct Hp as [Hb2 Hp]. destruct ok.
  - specialize (IH _ _ _ Hp). destruct (write_items items f c2 t2) as [[r t3] c3]. destruct IH as [Hb3 IH].
    split; [|done]. intros Hb. apply Hb3. apply Hb2. by apply Hbud.
  - split; [intros Hb; destruct (Hbud Hb) as [_ Hb']; by destruct (Hb2 Hb')|]. by apply wrote_prefix_app.
Qed.

Lemma writing_start out0 t : t_out t = out0 -> writing out0 [] empty_chunk t.
Proof. intros Ho. constructor; try done. exists []. by rewrite app_nil_r. Qed.

Lemma chunked_spec {A} (items : list A) f pss t : Forall2 (fun i ps => f i = Ok ps) items pss ->
  let '(r, t') := writeChunkedPduList items f t in
  exists groups, t_out t' = t_out t ++ map (@concat Z) groups /\ Forall group_ok groups /\
    concat groups `prefix_of` nonempty (concat pss) /\
    (r = Ok true /\ concat groups = nonempty (concat pss) \/ r = Ok false) /\
    (t_budget t = None -> r = Ok true /\ t_budget t' = None).
Proof.
  intros Hf. unfold writeChunkedPduList.
  pose proof (write_items_spec (t_out t) items f pss Hf [] empty_chunk t (writing_start _ t eq_refl)) as Hw.
  destruct (write_items items f empty_chunk t) as [[r t1] c1]. destruct Hw as [Hb Hw].
  destruct r as [[]|]; [| |done]; cbn [app] in Hw.
  - pose proof (flush_spec _ _ _ _ Hw) as Hfl. destruct (flush c1 t1) as [[ok t2] c2]. destruct Hfl as [Hb2 Hfl].
    assert (t_budget t = None -> ok = true /\ t_budget t2 = None) as Hbud by (intros Ht; apply Hb2; by apply Hb).
    destruct ok.
    + destruct Hfl as [[(g & Ho & Hg & Hd) _ _ _] Hc]. rewrite Hc, app_nil_r in Hd. exists g.
      split_and!; [done | done | by rewrite Hd | left; done | intros Ht; by destruct (Hbud Ht)].
    + destruct Hfl as (g & Ho & Hg & Hp). exists g.
      split_and!; [done | done | done | by right | intros Ht; by destruct (Hbud Ht)].
  - destruct Hw as (g & Ho & Hg & Hp). exists g. split_and!; [done | done | done | by right | intros Ht; by destruct (Hb Ht)].
Qed.

(** batched writing sends every PDU exactly once, in order, in bounded chunks.
    For any items and builder, and whenever the session closes: what
    [writeChunkedPduList] writes is a sequence of groups of whole PDUs, each at most
    1 MiB unless it is a single PDU; put together they are a prefix of all PDUs in
    order, all of them if it returns true; and it returns true if the session stays
    open. *)
Theorem rpki_chunked_write (items : list rpki_roa) f pss t :
  Forall2 (fun i ps => f i = Ok ps) items pss ->
  let '(r, t') := writeChunkedPduList items f t in
  exists groups, t_out t' = t_out t ++ map (@concat Z) groups /\ Forall group_ok groups /\
    concat groups `prefix_of` nonempty (concat pss) /\
    (r = Ok true /\ concat groups = nonempty (concat pss) \/ r = Ok false) /\
    (t_budget t = None -> r = Ok true /\ t_budget t' = None).
Proof. apply chunked_spec. Qed.

Lemma rpki_chunked_write_witness :
  exists groups, t_out (snd (writeChunkedPduList [witness_roa; witness_roa]
      (fun _ => Ok [[1; 2]; []; [3]]) {| t_budget := None; t_out := [] |})) = map (@concat Z) groups /\
    Forall group_ok groups /\ concat groups = [[1; 2]; [3]; [1; 2]; [3]].
Proof.
  destruct (rpki_chunked_write [witness_roa; witness_roa] (fun _ => Ok [[1; 2]; []; [3]])
    [[[1; 2]; []; [3]]; [[1; 2]; []; [3]]] {| t_budget := None; t_out := [] |}) as (g & H1 & H2 & _ & H4 & _).
  - repeat constructor.
  - exists g. split; [exact H1|]. split; [exact H2|]. destruct H4 as [[_ H4]|H4]; [exact H4 | discriminate H4].
Defined.

(** ** Complete answers *)

(** A step of a task that, on an open session, writes exactly the bytes [b]. *)
Definition sends (a : task_state -> result bool * task_state) (b : buffer) : Prop :=
  forall t, t_budget t = None ->
  exists t', a t = (Ok true, t') /\ t_budget t' = None /\ concat (t_out t') = concat (t_out t) ++ b.

Lemma sends_then a b x y : sends a x -> sends b y -> sends (and_then a b) (x ++ y).
Proof.
  intros Ha Hb t Ht. destruct (Ha t Ht) as (t1 & H1 & Hb1 & Ho1). destruct (Hb t1 Hb1) as (t2 & H2 & Hb2 & Ho2).
  exists t2. unfold and_then. rewrite H1, H2. split; [done|]. split; [done|]. by rewrite Ho2, Ho1, app_assoc.
Qed.

Lemma sends_nothing : sends (fun t => (Ok true, t)) [].
Proof. intros t Ht. exists t. by rewrite app_nil_r. Qed.

Lemma sends_built b : b <> [] -> sends (write_built (Ok b)) b.
Proof.
  intros Hb t Ht. unfold write_built. destruct (writeBuffer_out b t Hb) as [[Hok Ho]|(_ & _ & Hn)]; [|done].
  pose proof (budget_kept b t Ht) as Hbud. destruct (writeBuffer b t) as [ok t']. cbn [fst snd] in *. subst.
  exists t'. split; [done|]. split; [done|]. rewrite Ho, concat_app. cbn. by rewrite app_nil_r.
Qed.

Lemma concat_nonempty pdus : concat (nonempty pdus) = concat pdus.
Proof.
  induction pdus as [|p pdus IH]; [done|]. unfold nonempty in *. cbn [List.filter concat].
  destruct (Z.eqb_spec (blen p) 0) as [H0|]; cbn [negb concat]; [|by rewrite IH].
  apply blen_0_inv in H0. by subst.
Qed.

Lemma sends_chunked {A} (items : list A) f pss :
  Forall2 (fun i ps => f i = Ok ps) items pss -> sends (writeChunkedPduList items f) (concat (concat pss)).
Proof.
  intros Hf t Ht. pose proof (chunked_spec items f pss t Hf) as Hc.
  destruct (writeChunkedPduList items f t) as [r t']. destruct Hc as (g & Ho & _ & _ & Hr & Hb).
  destruct (Hb Ht) as [-> Hb']. exists t'. split; [done|]. split; [done|].
  destruct Hr as [[_ Hr]|?]; [|done]. rewrite Ho, concat_app. f_equal.
  rewrite <- (concat_nonempty (concat pss)), <- Hr. clear. induction g as [|x g IH]; [done|].
  cbn. by rewrite IH, concat_app.
Qed.

Section Answers.
Context (ipToBytes : list Z -> result (list Z)).

Definition ip_bytes (r : rpki_roa) : buffer := match ipToBytes (ip r) with Ok b => b | Throw _ => [] end.
Definition is_v6 (r : rpki_roa) : bool := negb (ipType r =? IP_TYPE_IPV4).

(** The records a session can send: as the store keeps them, with an address the
    address library can parse into the bytes of its kind, and keys of the right
    size. *)
Definition roa_ok (r : rpki_roa) : Prop :=
  is_byte (mask r) /\ is_byte (maxLength r) /\ 0 <= asn r < 2 ^ 32 /\
  exists b, ipToBytes (ip r) = Ok b /\ bytes_ok b /\ length b = (if is_v6 r then 16%nat else 4%nat).

Definition key_ok (k : rpki_router_key) : Prop :=
  blen (hex_decode (ski k)) = 20 /\ 32 + blen (hex_decode (spki k)) < 2 ^ 32 /\ 0 <= rk_asn k < 2 ^ 32.

Definition aspa_ok (a : rpki_aspa) : Prop :=
  0 <= customerAsn a < 2 ^ 32 /\ Forall (fun n => 0 <= n < 2 ^ 32) (providerAsns a) /\
  12 + 4 * blen (providerAsns a) < 2 ^ 32.

Definition roa_pdu (v flags : Z) (r : rpki_roa) : rtr_pdu :=
  PduPrefix v (is_v6 r) flags (mask r) (maxLength r) (ip_bytes r) (asn r).
Definition key_pdu (v flags : Z) (k : rpki_router_key) : rtr_pdu :=
  PduRouterKey v flags (hex_decode (ski k)) (rk_asn k) (hex_decode (spki k)).
Definition aspa_pdu (v flags : Z) (a : rpki_aspa) : rtr_pdu :=
  PduAspa v flags (customerAsn a) (if flags =? WITHDRAWAL then [] else providerAsns a).

(** A builder that produces the PDU [p]. *)
Definition builds (b : result (list (list Z))) (ps : list rtr_pdu) : Prop :=
  exists bs, b = Ok bs /\ Forall2 pdu_bytes bs ps.

Lemma builds_prefix s r flags :
  version_ok s -> is_byte flags -> roa_ok r ->
  builds (let! b := buildPrefixPdu ipToBytes s r flags (is_v6 r) in Ok [b]) [roa_pdu (protocolVersion s) flags r].
Proof.
  intros Hv Hf (Hm & Hx & Ha & b & Hip & Hb & Hl).
  rewrite (buildPrefixPdu_spec ipToBytes s r flags (is_v6 r) b) by done. cbn [bind_result]. eexists. split; [done|].
  repeat constructor; try (by apply decode_prefix); unfold roa_pdu, ip_bytes; rewrite Hip; by apply decode_prefix.
Qed.

Lemma builds_key s k flags :
  version_ok s -> V1 <= protocolVersion s -> is_byte flags -> key_ok k ->
  builds (let! b := buildRouterKeyPdu s k flags in Ok (option_list b)) [key_pdu (protocolVersion s) flags k].
Proof.
  intros Hv H1 Hf (Hs & Hl & Ha). rewrite buildRouterKeyPdu_spec by done. cbn [bind_result]. eexists. split; [done|].
  cbn. constructor; [|constructor]. apply decode_router_key; [done | unfold blen in Hs; lia | done].
Qed.

Lemma builds_aspa s a flags :
  version_ok s -> protocolVersion s = V2 -> aspaFormat s = LATEST -> is_byte flags -> aspa_ok a ->
  builds (buildAspaPdus s a flags) [aspa_pdu (protocolVersion s) flags a].
Proof.
  intros Hv H2 Hfmt Hf (Hc & Hp & Hl). rewrite buildAspaPdus_spec by done. eexists. split; [done|].
  constructor; [|constructor]. unfold aspa_pdu. apply decode_aspa; [done | case_if; [constructor | done] |].
  case_if; [by vm_compute | done].
Qed.

(** Building a list of items. *)
Lemma builds_all {A} (items : list A) f (g : A -> rtr_pdu) :
  (forall i, i ∈ items -> builds (f i) [g i]) ->
  exists pss, Forall2 (fun i ps => f i = Ok ps) items pss /\ Forall2 pdu_bytes (concat pss) (map g items).
Proof.
  induction items as [|i items IH]; intros Hf; [by exists []; repeat constructor|].
  destruct (Hf i) as (bs & Hb & Hp); [by left|]. destruct IH as (pss & H1 & H2); [intros j Hj; apply Hf; by right|].
  exists (bs :: pss). split; [by constructor|]. cbn [concat map]. change (g i :: map g items) with ([g i] ++ map g items).
  by apply Forall2_app.
Qed.

Lemma sends_items {A} (items : list A) f (g : A -> rtr_pdu) :
  (forall i, i ∈ items -> builds (f i) [g i]) ->
  exists bs, Forall2 pdu_bytes bs (map g items) /\ sends (writeChunkedPduList items f) (concat bs).
Proof. intros Hf. destruct (builds_all items f g Hf) as (pss & H1 & H2). exists (concat pss). auto using sends_chunked. Qed.

(** What a router must be told to hold a data set at a serial number. *)
Definition dataset_pdus (v sid serial : Z) (d : dataset) : list rtr_pdu :=
  [PduCacheResponse v sid] ++ map (roa_pdu v UPDATE) (d_roas d) ++
  (if V1 <=? v then map (key_pdu v UPDATE) (d_keys d) else []) ++
  (if V2 <=? v then map (aspa_pdu v UPDATE) (d_aspas d) else []) ++
  [PduEndOfData v sid serial (timers v)].

Definition dataset_ok (d : dataset) : Prop :=
  Forall roa_ok (d_roas d) /\ Forall key_ok (d_keys d) /\ Forall aspa_ok (d_aspas d).

Lemma reset_body_sends s sid serial current response d :
  version_ok s -> aspaFormat s = LATEST -> sessionId s = Some sid -> 0 <= sid < 65536 -> 0 <= serial < 2 ^ 32 ->
  dataset_ok d -> response = Ok ([protocolVersion s; 3] ++ be_bytes 2 sid ++ be_bytes 4 8) ->
  exists bs, Forall2 pdu_bytes bs (dataset_pdus (protocolVersion s) sid serial d) /\
    sends (reset_body ipToBytes s response
      {| snap_serial := serial; snap_roas := d_roas d; snap_routerKeys := d_keys d; snap_aspas := d_aspas d |} current)
      (concat bs).
Proof.
  intros Hv Hfmt Hs Hsid Hser (Hr & Hk & Ha) ->. unfold reset_body, dataset_pdus. cbn [snap_serial snap_roas snap_routerKeys snap_aspas].
  rewrite list.Forall_forall in Hr. rewrite list.Forall_forall in Hk. rewrite list.Forall_forall in Ha.
  destruct (sends_items (d_roas d) (fun roa => let! b := buildPrefixPdu ipToBytes s roa UPDATE (is_v6 roa) in Ok [b])
    (roa_pdu (protocolVersion s) UPDATE)) as (b1 & H1 & S1); [intros; by apply builds_prefix, Hr|].
  assert (exists b2, Forall2 pdu_bytes b2 (if V1 <=? protocolVersion s then map (key_pdu (protocolVersion s) UPDATE) (d_keys d) else []) /\
    sends (fun t => if V1 <=? protocolVersion s then writeRouterKeyData s (d_keys d) t else (Ok true, t)) (concat b2))
    as (b2 & H2 & S2).
  { destruct (Z.leb_spec V1 (protocolVersion s)).
    - apply sends_items. intros; by apply builds_key, Hk.
    - exists []. split; [constructor | apply sends_nothing]. }
  assert (exists b3, Forall2 pdu_bytes b3 (if V2 <=? protocolVersion s then map (aspa_pdu (protocolVersion s) UPDATE) (d_aspas d) else []) /\
    sends (fun t => if V2 <=? protocolVersion s then writeAspaListData s (d_aspas d) UPDATE t else (Ok true, t)) (concat b3))
    as (b3 & H3 & S3).
  { destruct (Z.leb_spec V2 (protocolVersion s)).
    - apply sends_items. intros; apply builds_aspa; try done; [unfold version_ok, V2 in *; lia | by apply Ha].
    - exists []. split; [constructor | apply sends_nothing]. }
  exists ([[protocolVersion s; 3] ++ be_bytes 2 sid ++ be_bytes 4 8] ++ b1 ++ b2 ++ b3 ++ [end_of_data s sid serial]). split.
  - repeat (apply Forall2_app; try done); (constructor; [|constructor]);
      [by apply decode_cache_response | by apply decode_end_of_data].
  - rewrite !concat_app. cbn [concat]. rewrite !app_nil_r.
    repeat (apply sends_then; try done); [by apply sends_built|].
    unfold normalizeSerial at 1. decide_test (0 <=? serial) true. rewrite to_uint32_small by done.
    rewrite (buildEndOfDataPdu_spec s sid) by done. by apply sends_built.
Qed.

(** What an operation says on the wire: router keys need version 1, ASPAs version 2,
    and an ASPA is replaced by announcing the new one. *)
Definition operation_pdus (v : Z) (op : delta_operation) : list rtr_pdu :=
  match op with
  | RoaAnnounce r => [roa_pdu v UPDATE r]
  | RoaWithdraw r => [roa_pdu v WITHDRAWAL r]
  | RouterKeyAnnounce k => if V1 <=? v then [key_pdu v UPDATE k] else []
  | RouterKeyWithdraw k => if V1 <=? v then [key_pdu v WITHDRAWAL k] else []
  | AspaAnnounce a => if V2 <=? v then [aspa_pdu v UPDATE a] else []
  | AspaWithdraw a => if V2 <=? v then [aspa_pdu v WITHDRAWAL a] else []
  | AspaReplace _ a => if V2 <=? v then [aspa_pdu v UPDATE a] else []
  end.

Definition operation_ok (op : delta_operation) : Prop :=
  match op with
  | RoaAnnounce r | RoaWithdraw r => roa_ok r
  | RouterKeyAnnounce k | RouterKeyWithdraw k => key_ok k
  | AspaAnnounce a | AspaWithdraw a | AspaReplace _ a => aspa_ok a
  end.

Lemma builds_key_any s k flags :
  version_ok s -> is_byte flags -> key_ok k ->
  builds (let! b := buildRouterKeyPdu s k flags in Ok (option_list b))
    (if V1 <=? protocolVersion s then [key_pdu (protocolVersion s) flags k] else []).
Proof.
  intros Hv Hf Hk. destruct (Z.leb_spec V1 (protocolVersion s)); [by apply builds_key|].
  unfold buildRouterKeyPdu. decide_test (protocolVersion s <? V1) true. by exists [].
Qed.

(** A session that sends ASPAs has their current format. *)
Definition format_ok (s : RpkiSession) : Prop := protocolVersion s = V2 -> aspaFormat s = LATEST.

Lemma builds_aspa_any s a flags :
  version_ok s -> format_ok s -> is_byte flags -> aspa_ok a ->
  builds (buildAspaPdus s a flags) (if V2 <=? protocolVersion s then [aspa_pdu (protocolVersion s) flags a] else []).
Proof.
  intros Hv Hfmt Hf Ha. destruct (Z.leb_spec V2 (protocolVersion s)).
  - assert (protocolVersion s = V2) as H2 by (unfold version_ok, V2 in *; lia). apply builds_aspa; try done. by apply Hfmt.
  - unfold buildAspaPdus. decide_test (protocolVersion s <? V2) true. by exists [].
Qed.

Lemma builds_operation s op :
  version_ok s -> format_ok s -> operation_ok op ->
  builds (buildDeltaOperationBuffers ipToBytes s op) (operation_pdus (protocolVersion s) op).
Proof.
  intros Hv Hfmt Hop.
  assert (is_byte UPDATE /\ is_byte WITHDRAWAL) as [Hu Hw] by (unfold is_byte, UPDATE, WITHDRAWAL; lia).
  destruct op; cbn [buildDeltaOperationBuffers operation_pdus operation_ok] in *;
    auto using builds_prefix, builds_key_any, builds_aspa_any.
  unfold buildAspaReplacementPdus. pose proof (builds_aspa_any s newData UPDATE Hv Hfmt Hu Hop) as Hb.
  destruct (Z.leb_spec V2 (protocolVersion s)).
  - decide_test (protocolVersion s <? V2) false. by rewrite Hfmt by (unfold version_ok, V2 in *; lia).
  - decide_test (protocolVersion s <? V2) true. by exists [].
Qed.

Lemma write_buffers_all bs ps t :
  Forall2 pdu_bytes bs ps -> t_budget t = None ->
  exists t', write_buffers bs t = (true, t') /\ t_budget t' = None /\ t_out t' = t_out t ++ bs.
Proof.
  intros Hb. revert t. induction Hb as [|b p bs ps (_ & Hl & _) _ IH]; intros t Ht; cbn [write_buffers].
  { exists t. by rewrite app_nil_r. }
  assert (b <> []) as Hne by (intros ->; done).
  destruct (writeBuffer_out b t Hne) as [[Hok Ho]|(_ & _ & Hn)]; [|done].
  pose proof (budget_kept b t Ht) as Hbud. destruct (writeBuffer b t) as [ok t1]. cbn [fst snd] in *. subst ok.
  destruct (IH t1 Hbud) as (t2 & H2 & Hb2 & Ho2). exists t2. rewrite H2, Ho2, Ho, <- app_assoc. done.
Qed.

Lemma sends_operations s ops :
  version_ok s -> format_ok s -> Forall operation_ok ops ->
  exists bs, Forall2 pdu_bytes bs (concat (map (operation_pdus (protocolVersion s)) ops)) /\
    sends (writeDeltaOperations ipToBytes s ops) (concat bs).
Proof.
  intros Hv Hfmt Hops. induction Hops as [|op ops Hop _ IH].
  { exists []. split; [constructor | apply sends_nothing]. }
  destruct (builds_operation s op Hv Hfmt Hop) as (b1 & Hb1 & Hp1). destruct IH as (b2 & Hp2 & S2).
  exists (b1 ++ b2). split; [cbn [map concat]; by apply Forall2_app|].
  intros t Ht. cbn [writeDeltaOperations]. rewrite Hb1.
  destruct (write_buffers_all b1 _ t Hp1 Ht) as (t1 & H1 & Hbud & Ho). rewrite H1.
  destruct (S2 t1 Hbud) as (t2 & H2 & Hbud2 & Ho2). exists t2. rewrite H2, Ho2, Ho. split; [done|]. split; [done|].
  by rewrite !concat_app, <- app_assoc.
Qed.
End Answers.

Definition open_task : task_state := {| t_budget := None; t_out := [] |}.

(** C3: a reset answer transfers the data set.  On a session that stays open, for
    each protocol version (and the current ASPA format), the answer to a Reset Query
    is, read by a router PDU by PDU: a Cache Response with the session's identifier,
    a prefix PDU for every ROA in order, from version 1 the router keys, from version
    2 the ASPAs, and End of Data with the serial number of the cache; so that the
    router holds the data set that goes with that serial number. *)
Theorem rpki_reset_response ipToBytes w s random active limit :
  worker_ok w -> version_ok s -> aspaFormat s = LATEST -> 0 <= default random (sessionId s) < 65536 ->
  active < limit -> dataset_ok ipToBytes (dataset_of w) ->
  let '(s', t) := sendResetQueryResponse ipToBytes random (createDataSnapshot active limit w)
                    (getCurrentSerial w) s open_task in
  sessionId s' = Some (default random (sessionId s)) /\
  decode_rtr (concat (t_out t)) =
    Some (dataset_pdus ipToBytes (protocolVersion s) (default random (sessionId s)) (cacheSerial w) (dataset_of w)).
Proof.
  intros Hw Hv Hfmt Hsid Hlim Hd. destruct (wk_db w Hw) as (d & Hdb & Hok & Hser).
  unfold createDataSnapshot. rewrite Hdb. decide_test (limit <=? active) false.
  unfold sendResetQueryResponse. rewrite buildCacheResponsePdu_spec by done.
  set (sid := default random (sessionId s)) in *. set (s' := s <| sessionId := Some sid |>).
  assert (0 <= cacheSerial w < 2 ^ 32) as Hrange by (rewrite <- Hser; apply Hok).
  rewrite getCacheSerial_ok, Hser by done.
  replace (normalizeCacheSerial (cacheSerial w) (getStoreCacheSerial w)) with (cacheSerial w).
  2:{ unfold normalizeCacheSerial. decide_test (cacheSerial w <? 0) false. by rewrite to_uint32_small. }
  destruct (reset_body_sends ipToBytes s' sid (cacheSerial w) (getCurrentSerial w)
    (Ok ([protocolVersion s; 3] ++ be_bytes 2 sid ++ be_bytes 4 8)) (dataset_of w)) as (bs & Hbs & Hsends); try done.
  unfold dataset_of in Hsends at 1 2 3. rewrite Hdb in Hsends. cbn [d_roas d_keys d_aspas] in Hsends.
  destruct (Hsends open_task eq_refl) as (t' & Hrun & _ & Hout). rewrite Hrun. split; [done|].
  rewrite Hout. cbn [open_task t_out concat app]. by apply decode_rtr_all.
Qed.

(** C5: a serial answer transfers the operations.  On a session that stays open, of
    version 0 or 1 or with the current ASPA format, the answer to a Serial Query is, read
    by a router: a Cache Response, for each operation in order the PDU that announces or
    withdraws its record, which is none for a router key below version 1 and for an
    ASPA below version 2, and End of Data with the given serial number. *)
Theorem rpki_serial_response ipToBytes s random ops serial current :
  version_ok s -> format_ok s -> 0 <= default random (sessionId s) < 65536 -> 0 <= serial < 2 ^ 32 ->
  Forall (operation_ok ipToBytes) ops ->
  let '(s', t) := sendSerialQueryResponse ipToBytes random ops serial current s open_task in
  let sid := default random (sessionId s) in
  let v := protocolVersion s in
  sessionId s' = Some sid /\
  decode_rtr (concat (t_out t)) =
    Some ([PduCacheResponse v sid] ++ concat (map (operation_pdus ipToBytes v) ops) ++
          [PduEndOfData v sid serial (timers v)]).
Proof.
  intros Hv Hfmt Hsid Hser Hops. unfold sendSerialQueryResponse. rewrite buildCacheResponsePdu_spec by done.
  set (sid := default random (sessionId s)) in *. set (s' := s <| sessionId := Some sid |>).
  destruct (sends_operations ipToBytes s' ops Hv Hfmt Hops) as (bs & Hbs & Hs).
  rewrite (buildEndOfDataPdu_spec s' sid) by done.
  pose proof (sends_then _ _ _ _ (sends_built ([protocolVersion s; 3] ++ be_bytes 2 sid ++ be_bytes 4 8) ltac:(done))
    (sends_then _ _ _ _ Hs (sends_built (end_of_data s' sid serial) ltac:(done)))) as Hall.
  destruct (Hall open_task eq_refl) as (t' & Hrun & _ & Hout). rewrite Hrun. split; [done|].
  cbn [snd]. rewrite Hout. change (concat (t_out open_task)) with (@nil Z). rewrite app_nil_l.
  set (x := [protocolVersion s; 3] ++ be_bytes 2 sid ++ be_bytes 4 8) in *.
  assert (x ++ concat bs ++ end_of_data s' sid serial = concat ([x] ++ bs ++ [end_of_data s' sid serial])) as ->
    by (rewrite !concat_app; cbn [concat]; by rewrite !app_nil_r).
  apply decode_rtr_all. constructor; [by apply decode_cache_response|].
  - apply Forall2_app; [done|]. constructor; [exact (decode_end_of_data s' sid serial Hsid Hser) | constructor].
Qed.

(** ** Framing of the input *)

Section Framing.
Context (w : RpkiWorker) (configured : option Z).

(** An open session takes the buffer back, a closing one has dropped it. *)
Definition with_buffer (s : RpkiSession) (b : buffer) : RpkiSession :=
  if closing s then s else s <| messageBuffer := b |>.

Definition input_ok (s : RpkiSession) : Prop := messageBuffer s = [] /\ closed s = closing s.

(** One iteration of the loop, on a session whose buffer is kept apart. *)
Definition rtr_step (s : RpkiSession) (b : buffer) : step_outcome RpkiSession (list session_effect) :=
  if closing s || (blen b <? RPKI_HEADER_LENGTH) then Wait
  else
    match parseRpkiHeader b with
    | Throw _ => Wait
    | Ok header =>
      if (h_length header <? RPKI_HEADER_LENGTH) || (MAX_RPKI_PDU_BYTES <? h_length header)
      then let '(s', out) := closeSession true s in Advance s' (drop 8 b) (Some out)
      else if blen b <? h_length header then Wait
      else
        let '(s', out) := processMessage w configured (subarray b 0 (h_length header)) s in
        Advance s' (subarray_from b (h_length header)) (Some out)
    end.

#[local] Instance rtr_decoder : StreamDecoder RpkiSession (list session_effect) :=
  {| sd_step := rtr_step; sd_ok := input_ok |}.

(** An action whose behaviour does not depend on the buffer, and which closes a
    session completely or not at all. *)
Definition framed (a : action) : Prop :=
  forall s b, closing s = false -> input_ok s ->
    input_ok (fst (a s)) /\ a (s <| messageBuffer := b |>) = (with_buffer (fst (a s)) b, snd (a s)).

Lemma framed_sendMessage b : framed (sendMessage b).
Proof.
  intros s x Hc [Hb Hd]. destruct s; cbn in *; subst. unfold sendMessage, get_this, canWrite; cbn.
  destruct socket0; done.
Qed.

Lemma framed_close d : framed (closeSession d).
Proof. intros s x Hc [Hb Hd]. destruct s; cbn in *; subst. by destruct d, socket0. Qed.

Lemma framed_enqueue t : framed (enqueueSend t).
Proof. intros s x Hc [Hb Hd]. destruct s; cbn in *; subst. done. Qed.

Lemma framed_error e v d : framed (sendError e v d).
Proof. intros s x Hc [Hb Hd]. destruct s; cbn in *; subst. by destruct d, socket0. Qed.

Lemma framed_reset header : framed (handleResetQuery configured header).
Proof.
  intros s x Hc Hok. unfold handleResetQuery. case_if; [by apply framed_error|].
  destruct Hok as [Hb Hd]. by destruct s; cbn in *; subst.
Qed.

Lemma framed_message m : framed (processMessage w configured m).
Proof.
  intros s x Hc Hok. unfold processMessage, get_this.
  destruct (parseRpkiHeader m) as [h|e]; cbn [bind_result]; [|by apply framed_error].
  case_if; [|case_if; [by apply framed_reset | case_if; [|by apply framed_error]]].
  - change (handleSerialQuery w h m (s <| messageBuffer := x |>)) with (handleSerialQuery w h m s).
    unfold handleSerialQuery. case_if; [by apply framed_error|].
    destruct (readUInt16BE m 2); cbn [bind_result]; [|by apply framed_error].
    destruct (readUInt32BE m _); cbn [bind_result]; [|by apply framed_error].
    case_if; [by apply framed_error|]. case_if; [by apply framed_sendMessage | by apply framed_enqueue].
  - unfold handleErrorReport.
    destruct (readUInt16BE m 2); cbn [bind_result]; [|by apply framed_error].
    destruct (readUInt32BE m _); cbn [bind_result]; [|by apply framed_error].
    split; [done|]. unfold skip, with_buffer; cbn [fst snd]. by rewrite Hc.
Qed.

Lemma header_app b x : RPKI_HEADER_LENGTH <= blen b -> parseRpkiHeader (b ++ x) = parseRpkiHeader b.
Proof.
  unfold RPKI_HEADER_LENGTH. intros Hb. unfold parseRpkiHeader, readUInt16BE, readUInt32BE.
  rewrite !read_app_left, !bget_app_l by lia. done.
Qed.

#[local] Instance rtr_laws : StreamLaws RpkiSession (list session_effect).
Proof.
  constructor.
  - intros s b s' b' o Hok. cbn. unfold rtr_step. case_if; [done|]. bool_hyps.
    destruct (parseRpkiHeader b) as [h|]; [|done].
    case_if.
    + destruct (framed_close true s [] ltac:(done) Hok) as [Hs _]. destruct (closeSession true s). by intros [= <- <- <-].
    + case_if; [done|]. destruct (framed_message (subarray b 0 (h_length h)) s [] ltac:(done) Hok) as [Hs _].
      destruct (processMessage _ _ _ s). by intros [= <- <- <-].
  - intros s b s' b' o Hok. cbn. unfold rtr_step, RPKI_HEADER_LENGTH. case_if; [done|]. bool_hyps.
    destruct (parseRpkiHeader b) as [h|]; [|done].
    case_if.
    + destruct (closeSession true s). intros [= <- <- <-]. rewrite length_drop. unfold blen in *. lia.
    + bool_hyps. case_if; [done|]. destruct (processMessage _ _ _ s). bool_hyps. intros [= <- <- <-].
      unfold subarray_from. rewrite length_drop. unfold blen in *. lia.
  - intros s b s' b' o x Hok. cbn. unfold rtr_step. destruct (closing s); [done|]. cbn [orb].
    pose proof (blen_nonneg x). autorewrite with blen. case_if; [done|]. bool_hyps.
    decide_test (blen b + blen x <? RPKI_HEADER_LENGTH) false. rewrite header_app by lia.
    destruct (parseRpkiHeader b) as [h|]; [|done].
    case_if.
    + destruct (closeSession true s). intros [= <- <- <-]. rewrite drop_app_le; [done|]. unfold blen, RPKI_HEADER_LENGTH in *. lia.
    + bool_hyps. case_if; [done|]. bool_hyps. decide_test (blen b + blen x <? h_length h) false.
      unfold RPKI_HEADER_LENGTH in *.
      rewrite subarray_app_left, subarray_from_app_left by lia. destruct (processMessage _ _ _ s). by intros [= <- <- <-].
  - intros s b e x Hok. cbn. unfold rtr_step. case_if; [done|]. destruct (parseRpkiHeader b) as [h|]; [|done].
    case_if; [by destruct (closeSession true s)|]. case_if; [done|]. by destruct (processMessage _ _ _ s).
Qed.

Lemma close_closes d s : closed s = false -> closing (fst (closeSession d s)) = true.
Proof. intros Hc. destruct s; cbn in *; subst. by destruct d, socket0. Qed.

(** The loop of the session is the loop of the stream decoder, and ends. *)
Lemma processBuffered_stream fuel : forall s b acc, (length b < fuel)%nat -> input_ok s ->
  exists s' b' m, stream_loop fuel Infinity s b acc = Some (s', b', Ok (acc ++ m)) /\ input_ok s' /\ blen b' <= blen b /\
    processBufferedMessages fuel w configured (with_buffer s b) = Some (with_buffer s' b', concat m).
Proof.
  induction fuel as [|f IH]; intros s b acc Hf Hok; [lia|].
  pose proof (sd_shrinks s b) as Hshr. cbn [stream_loop processBufferedMessages below].
  change (sd_step s b) with (rtr_step s b) in *.
  unfold rtr_step in *. destruct (closing s) eqn:Hc; cbn [orb] in *.
  { exists s, b, []. unfold with_buffer. rewrite Hc, app_nil_r, (proj1 Hok). done. }
  assert (with_buffer s b = s <| messageBuffer := b |>) as -> by (unfold with_buffer; by rewrite Hc).
  change (messageBuffer (s <| messageBuffer := b |>)) with b.
  assert (forall x, (s <| messageBuffer := b |>) <| messageBuffer := x |> = s <| messageBuffer := x |>) as Hset by done.
  assert (with_buffer s b = s <| messageBuffer := b |>) as Hb by (unfold with_buffer; by rewrite Hc).
  case_if. { exists s, b, []. rewrite app_nil_r, Hb. done. }
  destruct (parseRpkiHeader b) as [h|] eqn:Hh. 2:{ exists s, b, []. rewrite app_nil_r, Hb. done. }
  case_if.
  - destruct (framed_close true s b Hc Hok) as [Hok' ->].
    assert (closing (fst (closeSession true s)) = true) as Hcl
      by (apply close_closes; by rewrite (proj2 Hok)).
    destruct (closeSession true s) as [s' out]. cbn [fst snd] in *.
    destruct (IH s' (drop 8 b) (acc ++ [out])) as (s2 & b2 & m & Hl & Hok2 & Hlen & Hp); [|done|].
    { specialize (Hshr s' (drop 8 b) (Some out) Hok eq_refl). lia. }
    exists s2, b2, (out :: m). change (option_list (Some out)) with [out]. rewrite Hl, <- app_assoc. split; [done|]. split; [done|].
    autorewrite with blen in Hlen. split; [unfold blen in *; lia|].
    assert (forall x, with_buffer s' x = s') as Hw by (intros x; unfold with_buffer; by rewrite Hcl).
    assert (s2 = s' /\ m = []) as [-> ->].
    { destruct f; [|cbn [stream_loop below sd_step rtr_decoder] in Hl].
      - unfold stream_loop in Hl. done.
      - unfold rtr_step in Hl. rewrite Hcl in Hl. cbn [orb] in Hl. injection Hl as <- <- Hm.
        rewrite <- (app_nil_r (acc ++ [out])) in Hm at 1. apply app_inv_head in Hm. by subst. }
    rewrite !Hw. cbn [concat]. by rewrite app_nil_r.
  - case_if. { exists s, b, []. rewrite app_nil_r, Hb. done. }
    rewrite Hset. destruct (framed_message (subarray b 0 (h_length h)) s (subarray_from b (h_length h)) Hc Hok) as [Hok' ->].
    destruct (processMessage w configured (subarray b 0 (h_length h)) s) as [s' out]. cbn [fst snd] in *.
    pose proof (Hshr s' (subarray_from b (h_length h)) (Some out) Hok eq_refl) as Hlt.
    destruct (IH s' (subarray_from b (h_length h)) (acc ++ [out])) as (s2 & b2 & m & Hl & Hok2 & Hlen & Hp); [lia|done|].
    exists s2, b2, (out :: m). change (option_list (Some out)) with [out]. rewrite Hl, <- app_assoc. split; [done|]. split; [done|].
    split; [unfold blen in *; lia|]. rewrite Hp. done.
Qed.

(** The bytes that arrive, fragment by fragment. *)
Fixpoint recv_all (frags : list (list Z)) (s : RpkiSession) : option (RpkiSession * list session_effect) :=
  match frags with
  | [] => Some (s, [])
  | x :: tl =>
    match recvMsg w configured x s with
    | Some (s', o) => (fun r => (fst r, o ++ snd r)) <$> recv_all tl s'
    | None => None
    end
  end.

Lemma recvMsg_stream s b x : input_ok s -> blen b + blen x <= MAX_RPKI_PDU_BYTES ->
  exists s' b' m, stream_run Infinity s (b ++ x) [] = Some (s', b', Ok m) /\ input_ok s' /\
    blen b' <= blen b + blen x /\
    recvMsg w configured x (with_buffer s b) = Some (with_buffer s' b', concat m).
Proof.
  intros Hok Hmax. unfold recvMsg, stream_run.
  destruct (processBuffered_stream (S (length (b ++ x))) s (b ++ x) []) as (s' & b' & m & Hl & Hok' & Hlen & Hp); [lia|done|].
  exists s', b', m. split; [done|]. split; [done|]. autorewrite with blen in Hlen. split; [done|].
  destruct (closing s) eqn:Hc.
  - assert (with_buffer s b = s) as -> by (unfold with_buffer; by rewrite Hc). rewrite Hc.
    cbn [stream_loop below sd_step rtr_decoder] in Hl. unfold rtr_step in Hl. rewrite Hc in Hl. cbn [orb] in Hl.
    injection Hl as <- <- <-. unfold with_buffer. by rewrite Hc.
  - assert (with_buffer s b = s <| messageBuffer := b |>) as -> by (unfold with_buffer; by rewrite Hc).
    assert (with_buffer s (b ++ x) = s <| messageBuffer := b ++ x |>) as Hw by (unfold with_buffer; by rewrite Hc).
    rewrite Hw in Hp. cbn [closing messageBuffer]. change (closing (s <| messageBuffer := b |>)) with (closing s). rewrite Hc.
    change (messageBuffer (s <| messageBuffer := b |>)) with b. decide_test (MAX_RPKI_PDU_BYTES <? blen b + blen x) false.
    exact Hp.
Qed.
Lemma recv_all_stream frags : forall s b x, input_ok s -> blen b + blen x + blen (concat frags) <= MAX_RPKI_PDU_BYTES ->
  exists s' b' m, stream_run Infinity s (b ++ x ++ concat frags) [] = Some (s', b', Ok m) /\
    recv_all (x :: frags) (with_buffer s b) = Some (with_buffer s' b', concat m).
Proof.
  induction frags as [|y frags IH]; intros s b x Hok Hmax; cbn [concat] in Hmax; autorewrite with blen in Hmax.
  - destruct (recvMsg_stream s b x Hok) as (s1 & b1 & m1 & Hr & _ & _ & Hm); [blia|].
    exists s1, b1, m1. cbn [concat recv_all]. rewrite app_nil_r, Hr, Hm. cbn. by rewrite app_nil_r.
  - pose proof (blen_nonneg y). pose proof (blen_nonneg (concat frags)).
    destruct (recvMsg_stream s b x Hok) as (s1 & b1 & m1 & Hr & Hok1 & Hlen & Hm); [lia|].
    destruct (IH s1 b1 y Hok1) as (s2 & b2 & m2 & Hr2 & Hm2); [lia|].
    exists s2, b2, (m1 ++ m2). change (concat (y :: frags)) with (y ++ concat frags). rewrite (app_assoc b x). split.
    + erewrite stream_run_app_ok; [|exact Hok | exact Hr].
      rewrite <- (app_nil_r m1) at 1. rewrite stream_run_acc by done. by rewrite Hr2.
    + change (recv_all (x :: y :: frags) (with_buffer s b)) with
        (match recvMsg w configured x (with_buffer s b) with
         | Some (s', o) => (fun r => (fst r, o ++ snd r)) <$> recv_all (y :: frags) s'
         | None => None end).
      rewrite Hm, Hm2. cbn. by rewrite concat_app.
Qed.
End Framing.

(** What holds of every session between two inputs: it is closing exactly when it is
    closed, and then its buffer is gone. *)
Definition session_input (s : RpkiSession) : Prop :=
  closed s = closing s /\ (closing s = true -> messageBuffer s = []).

(** fragmentation does not matter.  However the bytes of a client are cut into
    fragments (up to 16 MiB with what is still buffered), a session ends in the same
    state, with the same unfinished bytes and the same queued answers, and has
    written and reported the same things in the same order as if the bytes had
    arrived at once; the loop over complete PDUs always ends. *)
Theorem rpki_fragmentation w configured s x frags :
  session_input s -> blen (messageBuffer s) + blen x + blen (concat frags) <= MAX_RPKI_PDU_BYTES ->
  recv_all w configured (x :: frags) s = recvMsg w configured (x ++ concat frags) s /\
  is_Some (recvMsg w configured (x ++ concat frags) s).
Proof.
  intros [Hc Hb] Hmax. set (s0 := s <| messageBuffer := [] |>).
  assert (with_buffer s0 (messageBuffer s) = s) as Hs.
  { unfold with_buffer. change (closing s0) with (closing s). destruct (closing s) eqn:E; [|by destruct s].
    subst s0. specialize (Hb eq_refl). destruct s; cbn in *. by subst. }
  assert (input_ok s0) as Hok by done.
  destruct (recv_all_stream w configured frags s0 (messageBuffer s) x Hok Hmax) as (s1 & b1 & m1 & Hr & Hm).
  destruct (recvMsg_stream w configured s0 (messageBuffer s) (x ++ concat frags) Hok) as (s2 & b2 & m2 & Hr2 & _ & _ & Hm2).
  { autorewrite with blen. lia. }
  rewrite Hs in Hm, Hm2. rewrite Hm, Hm2. rewrite Hr in Hr2. injection Hr2 as <- <- <-. eauto.
Qed.

(** ** Witnesses *)

Definition witness_ip (s : list Z) : result (list Z) :=
  if bool_decide (s = js "192.0.2.0") then Ok [192; 0; 2; 0] else Throw (ErrorMsg "not an address").

Definition witness_rtr (v : Z) : RpkiSession := (RpkiSession_new LATEST) <| protocolVersion := v |>.

Lemma rpki_reset_response_witness :
  let '(s', t) := sendResetQueryResponse witness_ip 77 (createDataSnapshot 0 4 witness_w1)
                    (getCurrentSerial witness_w1) (witness_rtr 2) open_task in
  sessionId s' = Some 77 /\
  decode_rtr (concat (t_out t)) =
    Some [PduCacheResponse 2 77; PduPrefix 2 false 1 24 24 [192; 0; 2; 0] 64500; PduEndOfData 2 77 2 (Some (3600, 600, 7200))].
Proof.
  refine (rpki_reset_response witness_ip witness_w1 (witness_rtr 2) 77 0 4 _ _ _ _ _ _).
  - constructor; try done; try apply NoDup_nil_2. exists (initializeSchema <| rpki_roas := [witness_roa] |>
      <| roa_count := 1 |> <| cache_serial := 2 |>). split; [done|]. split; [|done].
    constructor; try done; [apply NoDup_singleton | apply NoDup_nil_2].
  - by vm_compute.
  - reflexivity.
  - by vm_compute.
  - by vm_compute.
  - split_and!; [|constructor|constructor]. apply Forall_singleton. unfold roa_ok, is_byte. cbn.
    split_and!; try done. exists [192; 0; 2; 0]. split_and!; [done | repeat constructor; done | done].
Defined.

Definition witness_aspa (providers : list Z) : rpki_aspa := {| customerAsn := 64500; providerAsns := providers; afiFlags := 3 |}.

Lemma rpki_serial_response_witness :
  let '(s', t) := sendSerialQueryResponse witness_ip 77 [RoaWithdraw witness_roa; AspaReplace (witness_aspa [1]) (witness_aspa [1; 2])] 9 9 (witness_rtr 2) open_task in
  sessionId s' = Some 77 /\
  decode_rtr (concat (t_out t)) =
    Some [PduCacheResponse 2 77; PduPrefix 2 false 0 24 24 [192; 0; 2; 0] 64500; aspa_pdu 2 UPDATE (witness_aspa [1; 2]); PduEndOfData 2 77 9 (timers 2)].
Proof.
  refine (rpki_serial_response witness_ip (witness_rtr 2) 77 [RoaWithdraw witness_roa; AspaReplace (witness_aspa [1]) (witness_aspa [1; 2])] 9 9 _ _ _ _ _).
  - by vm_compute.
  - by intros _.
  - by vm_compute.
  - by vm_compute.
  - constructor; [|constructor; [|constructor]]; unfold operation_ok, roa_ok, aspa_ok, is_byte; cbn.
    + split_and!; try done. exists [192; 0; 2; 0]. split_and!; [done | repeat constructor; done | done].
    + by repeat constructor.
Defined.

(** A Reset Query in two pieces followed by the start of another PDU. *)
Lemma rpki_fragmentation_witness :
  recv_all witness_w1 None [[1; 2; 0]; [0; 0; 0; 0; 8; 1; 2]] (RpkiSession_new LATEST) =
    recvMsg witness_w1 None [1; 2; 0; 0; 0; 0; 0; 8; 1; 2] (RpkiSession_new LATEST) /\
  is_Some (recvMsg witness_w1 None [1; 2; 0; 0; 0; 0; 0; 8; 1; 2] (RpkiSession_new LATEST)).
Proof.
  apply (rpki_fragmentation witness_w1 None (RpkiSession_new LATEST) [1; 2; 0] [[0; 0; 0; 0; 8; 1; 2]]).
  - by split.
  - by vm_compute.
Defined.
