(* ===== verification/Utf8.v ===== *)
(** UTF-8 text of buffers: [Buffer.from(text, 'utf8')] and [buf.toString('utf8')].

    A JavaScript string is a list of UTF-16 code units.  A surrogate without its partner
    is encoded as U+FFFD; the decoder replaces each maximal part of an ill-formed sequence
    by U+FFFD and goes on with the byte it stopped at.  Text without such surrogates is
    read back unchanged. *)

From stdpp Require Import base list numbers strings option.
From Stdlib Require Import ZArith Lia.
From S2P Require Import Prelude.

Local Open Scope Z_scope.

Definition REPLACEMENT : Z := 65533.

Definition is_high (c : Z) : bool := (55296 <=? c) && (c <=? 56319).
Definition is_low (c : Z) : bool := (56320 <=? c) && (c <=? 57343).

(** ** Code points of a string and back *)

Fixpoint code_points (s : jsstring) : list Z :=
  match s with
  | [] => []
  | c :: tl =>
    if is_high c then
      match tl with
      | d :: tl' => if is_low d then ((c - 55296) * 1024 + (d - 56320) + 65536) :: code_points tl'
                    else REPLACEMENT :: code_points tl
      | [] => [REPLACEMENT]
      end
    else if is_low c then REPLACEMENT :: code_points tl
    else c :: code_points tl
  end.

Definition units_of (p : Z) : jsstring :=
  if p <? 65536 then [p] else [55296 + (p - 65536) / 1024; 56320 + (p - 65536) mod 1024].

(** ** Encoding *)

Definition encode_point (p : Z) : buffer :=
  if p <? 128 then [p]
  else if p <? 2048 then [192 + p / 64; 128 + p mod 64]
  else if p <? 65536 then [224 + p / 4096; 128 + p / 64 mod 64; 128 + p mod 64]
  else [240 + p / 262144; 128 + p / 4096 mod 64; 128 + p / 64 mod 64; 128 + p mod 64].

Definition utf8_encode (s : jsstring) : buffer := concat (map encode_point (code_points s)).

(** ** Decoding *)

(** A sequence that is not complete: the bits so far, the bytes to come and the range of
    the next one. *)
Record pending := { point : Z; needed : nat; lower : Z; upper : Z }.

(** The first byte of a sequence: what it emits or waits for. *)
Definition start_byte (b : Z) : list Z * option pending :=
  if b <? 128 then ([b], None)
  else if (194 <=? b) && (b <=? 223) then ([], Some {| point := b - 192; needed := 1; lower := 128; upper := 191 |})
  else if (224 <=? b) && (b <=? 239) then
    ([], Some {| point := b - 224; needed := 2; lower := if b =? 224 then 160 else 128; upper := if b =? 237 then 159 else 191 |})
  else if (240 <=? b) && (b <=? 244) then
    ([], Some {| point := b - 240; needed := 3; lower := if b =? 240 then 144 else 128; upper := if b =? 244 then 143 else 191 |})
  else ([REPLACEMENT], None).

Definition next_byte (state : option pending) (b : Z) : list Z * option pending :=
  match state with
  | None => start_byte b
  | Some s =>
    if (lower s <=? b) && (b <=? upper s) then
      let p := point s * 64 + (b - 128) in
      match needed s with
      | S (S n) => ([], Some {| point := p; needed := S n; lower := 128; upper := 191 |})
      | _ => ([p], None)
      end
    else let '(out, st) := start_byte b in (REPLACEMENT :: out, st)
  end.

Fixpoint decode_points (state : option pending) (b : buffer) : list Z :=
  match b with
  | [] => match state with None => [] | Some _ => [REPLACEMENT] end
  | x :: tl => let '(out, st) := next_byte state x in out ++ decode_points st tl
  end.

Definition utf8_decode (b : buffer) : jsstring := concat (map units_of (decode_points None b)).

(** ** Text without lone surrogates is read back *)

(** A code point that is not a surrogate. *)
Definition scalar (p : Z) : Prop := 0 <= p < 55296 \/ 57344 <= p < 1114112.

(** Every surrogate has its partner. *)
Fixpoint utf16_ok (s : jsstring) : bool :=
  match s with
  | [] => true
  | c :: tl =>
    if is_high c then match tl with d :: tl' => is_low d && utf16_ok tl' | [] => false end
    else (0 <=? c) && (c <? 65536) && negb (is_low c) && utf16_ok tl
  end.

(** Induction that takes two units at once. *)
Lemma pairs_ind (P : list Z -> Prop) :
  P [] -> (forall c, P [c]) -> (forall c d l, P l -> P (d :: l) -> P (c :: d :: l)) -> forall l, P l.
Proof.
  intros H0 H1 H2 l. enough (P l /\ forall c, P (c :: l)) by tauto.
  induction l as [|d l [IH1 IH2]]; [auto|]. split; [apply IH2|]. intros c. by apply H2.
Qed.

Lemma code_points_ok s : utf16_ok s = true -> Forall scalar (code_points s) /\ concat (map units_of (code_points s)) = s.
Proof.
  induction s as [|c|c d s IHs IHds] using pairs_ind; intros Hs; [split; [constructor | done]| |].
  - cbn [utf16_ok code_points] in *. destruct (is_high c) eqn:Eh; [done|].
    destruct (is_low c) eqn:El; [by rewrite andb_false_r in Hs|]. unfold is_high, is_low in *. bool_hyps. split; [constructor; [unfold scalar; lia | constructor]|].
    cbn [map concat]. unfold units_of. decide_test (c <? 65536) true. done.
  - change (utf16_ok (c :: d :: s)) with (if is_high c then is_low d && utf16_ok s
      else (0 <=? c) && (c <? 65536) && negb (is_low c) && utf16_ok (d :: s)) in Hs.
    change (code_points (c :: d :: s)) with (if is_high c then
      if is_low d then ((c - 55296) * 1024 + (d - 56320) + 65536) :: code_points s else REPLACEMENT :: code_points (d :: s)
      else if is_low c then REPLACEMENT :: code_points (d :: s) else c :: code_points (d :: s)).
    destruct (is_high c) eqn:Eh.
    + apply andb_true_iff in Hs as [Hd Hs]. rewrite Hd. destruct (IHs Hs) as [Hf He]. unfold is_high, is_low in *. bool_hyps.
      split; [constructor; [unfold scalar; lia | done]|]. cbn [map concat]. rewrite He. unfold units_of.
      decide_test ((c - 55296) * 1024 + (d - 56320) + 65536 <? 65536) false. cbn [app]. f_equal; [zdiv|]. f_equal. zdiv.
    + apply andb_true_iff in Hs as [Hc Hs]. destruct (IHds Hs) as [Hf He].
      destruct (is_low c) eqn:El; [by rewrite andb_false_r in Hc|]. unfold is_high, is_low in *. bool_hyps. split; [constructor; [unfold scalar; lia | done]|].
      cbn [map concat]. rewrite He. unfold units_of. by decide_test (c <? 65536) true.
Qed.

Lemma decode_more p n lo up b rest :
  lo <= b <= up ->
  decode_points (Some {| point := p; needed := S (S n); lower := lo; upper := up |}) (b :: rest) =
  decode_points (Some {| point := p * 64 + (b - 128); needed := S n; lower := 128; upper := 191 |}) rest.
Proof.
  intros Hb. cbn [decode_points next_byte lower upper needed point]. decide_test (lo <=? b) true. decide_test (b <=? up) true. done.
Qed.

Lemma decode_last p lo up b rest :
  lo <= b <= up ->
  decode_points (Some {| point := p; needed := 1; lower := lo; upper := up |}) (b :: rest) =
  (p * 64 + (b - 128)) :: decode_points None rest.
Proof.
  intros Hb. cbn [decode_points next_byte lower upper needed point]. decide_test (lo <=? b) true. decide_test (b <=? up) true. done.
Qed.

Lemma decode_start b rest :
  decode_points None (b :: rest) = let '(out, st) := start_byte b in out ++ decode_points st rest.
Proof. done. Qed.

Lemma decode_point p rest : scalar p -> decode_points None (encode_point p ++ rest) = p :: decode_points None rest.
Proof.
  intros Hp. unfold scalar in Hp. unfold encode_point.
  repeat case_if; bool_hyps; cbn [app]; rewrite decode_start; unfold start_byte.
  - by decide_test (p <? 128) true.
  - assert (2 <= p / 64 <= 31) by zdiv. decide_test (192 + p / 64 <? 128) false. decide_test (194 <=? 192 + p / 64) true. decide_test (192 + p / 64 <=? 223) true.
    cbn [andb app]. rewrite decode_last by zdiv. f_equal. zdiv.
  - assert (0 <= p / 4096 <= 15) by zdiv. decide_test (224 + p / 4096 <? 128) false. decide_test (224 + p / 4096 <=? 223) false. rewrite andb_false_r.
    decide_test (224 <=? 224 + p / 4096) true. decide_test (224 + p / 4096 <=? 239) true. cbn [andb app].
    rewrite decode_more by (repeat case_if; bool_hyps; zdiv). rewrite decode_last by zdiv. f_equal. zdiv.
  - assert (0 <= p / 262144 <= 4) by zdiv. decide_test (240 + p / 262144 <? 128) false. decide_test (240 + p / 262144 <=? 223) false. rewrite andb_false_r.
    decide_test (240 + p / 262144 <=? 239) false. rewrite andb_false_r.
    decide_test (240 <=? 240 + p / 262144) true. decide_test (240 + p / 262144 <=? 244) true. cbn [andb app].
    rewrite decode_more by (repeat case_if; bool_hyps; zdiv). rewrite decode_more by zdiv. rewrite decode_last by zdiv. f_equal. zdiv.
Qed.

Lemma decode_points_encode ps rest : Forall scalar ps -> decode_points None (concat (map encode_point ps) ++ rest) = ps ++ decode_points None rest.
Proof.
  induction 1 as [|p ps Hp _ IH]; [done|]. cbn [map concat]. rewrite <- !app_assoc, decode_point by done. cbn [app]. by rewrite IH.
Qed.

Lemma bytes_ok_point p : scalar p -> bytes_ok (encode_point p).
Proof.
  intros Hp. unfold scalar in Hp. unfold encode_point.
  repeat case_if; bool_hyps; unfold bytes_ok; rewrite !Forall_cons_iff; unfold is_byte; split_and!; try constructor; zdiv.
Qed.

Lemma code_points_scalar s : Forall (fun c => 0 <= c < 65536) s -> Forall scalar (code_points s).
Proof.
  induction s as [|c|c d s IHs IHds] using pairs_ind; intros Hs; [constructor| |].
  - apply Forall_cons_iff in Hs as [Hc _]. cbn [code_points]. unfold REPLACEMENT, is_high, is_low.
    repeat case_if; bool_hyps; (constructor; [unfold scalar; lia | constructor]).
  - change (code_points (c :: d :: s)) with (if is_high c then
      if is_low d then ((c - 55296) * 1024 + (d - 56320) + 65536) :: code_points s else REPLACEMENT :: code_points (d :: s)
      else if is_low c then REPLACEMENT :: code_points (d :: s) else c :: code_points (d :: s)).
    apply Forall_cons_iff in Hs as [Hc Hs]. pose proof Hs as Hs'. apply Forall_cons_iff in Hs' as [Hd Hs'].
    specialize (IHs Hs'). specialize (IHds Hs). unfold REPLACEMENT, is_high, is_low.
    repeat case_if; bool_hyps; (constructor; [unfold scalar; lia | done]).
Qed.

Lemma bytes_ok_utf8 s : Forall (fun c => 0 <= c < 65536) s -> bytes_ok (utf8_encode s).
Proof.
  intros Hs. pose proof (code_points_scalar s Hs) as Hp. unfold utf8_encode.
  induction Hp as [|p ps Hp _ IH]; [constructor|]. cbn [map concat]. apply bytes_ok_app. split; [by apply bytes_ok_point | done].
Qed.

Lemma utf8_round_trip s : utf16_ok s = true -> utf8_decode (utf8_encode s) = s.
Proof.
  intros Hs. destruct (code_points_ok s Hs) as [Hf He]. unfold utf8_decode, utf8_encode.
  pose proof (decode_points_encode (code_points s) [] Hf) as Hd. rewrite app_nil_r in Hd. rewrite Hd. cbn [decode_points]. by rewrite app_nil_r.
Qed.

(** Bytes after a text, ASCII ones, are decoded on their own. *)
Lemma utf8_decode_app s rest :
  utf16_ok s = true -> utf8_decode (utf8_encode s ++ rest) = s ++ utf8_decode rest.
Proof.
  intros Hs. destruct (code_points_ok s Hs) as [Hf He]. unfold utf8_decode, utf8_encode.
  rewrite decode_points_encode by done. by rewrite map_app, concat_app, He.
Qed.

Lemma utf8_ascii s : Forall (fun c => 0 <= c < 128) s -> utf16_ok s = true /\ utf8_encode s = s.
Proof.
  induction 1 as [|c s Hc _ [IH1 IH2]]; [done|]. cbn [utf16_ok].
  assert (is_high c = false) as Eh by (unfold is_high; decide_test (55296 <=? c) false; done).
  assert (is_low c = false) as El by (unfold is_low; decide_test (56320 <=? c) false; done).
  rewrite Eh, El. decide_test (0 <=? c) true. decide_test (c <? 65536) true. split; [done|].
  unfold utf8_encode in *. cbn [code_points]. rewrite Eh, El. cbn [map concat]. rewrite IH2. unfold encode_point.
  by decide_test (c <? 128) true.
Qed.

(** ** Texts one after the other *)

Lemma utf16_ok_app a b : utf16_ok a = true -> utf16_ok (a ++ b) = utf16_ok b.
Proof.
  induction a as [|c|c d s IHs IHds] using pairs_ind; intros Ha; [done| |].
  - cbn [utf16_ok app] in *. destruct (is_high c); [done|]. rewrite andb_true_r in Ha. by rewrite Ha.
  - change (utf16_ok (c :: d :: s)) with (if is_high c then is_low d && utf16_ok s
      else (0 <=? c) && (c <? 65536) && negb (is_low c) && utf16_ok (d :: s)) in Ha.
    change (utf16_ok ((c :: d :: s) ++ b)) with (if is_high c then is_low d && utf16_ok (s ++ b)
      else (0 <=? c) && (c <? 65536) && negb (is_low c) && utf16_ok ((d :: s) ++ b)).
    destruct (is_high c); apply andb_true_iff in Ha as [H1 H2]; rewrite H1; [by rewrite IHs | by rewrite IHds].
Qed.

(** A text cut before a unit that is no second half. *)
Lemma utf16_ok_cut a c b : is_low c = false -> utf16_ok (a ++ c :: b) = true -> utf16_ok a = true.
Proof.
  intros Hc. induction a as [|x|x y s IHs IHds] using pairs_ind; intros Ha; [done| |].
  - cbn [utf16_ok app] in *. destruct (is_high x); [by rewrite Hc in Ha|]. apply andb_true_iff in Ha as [-> _]. done.
  - change (utf16_ok ((x :: y :: s) ++ c :: b)) with (if is_high x then is_low y && utf16_ok (s ++ c :: b)
      else (0 <=? x) && (x <? 65536) && negb (is_low x) && utf16_ok ((y :: s) ++ c :: b)) in Ha.
    change (utf16_ok (x :: y :: s)) with (if is_high x then is_low y && utf16_ok s
      else (0 <=? x) && (x <? 65536) && negb (is_low x) && utf16_ok (y :: s)).
    destruct (is_high x); apply andb_true_iff in Ha as [H1 H2]; rewrite H1; [by apply IHs | by apply IHds].
Qed.

Lemma code_points_app a b : utf16_ok a = true -> code_points (a ++ b) = code_points a ++ code_points b.
Proof.
  induction a as [|c|c d s IHs IHds] using pairs_ind; intros Ha; [done| |].
  - cbn [utf16_ok code_points app] in *. destruct (is_high c); [done|]. destruct (is_low c); [by rewrite andb_false_r in Ha | done].
  - change (utf16_ok (c :: d :: s)) with (if is_high c then is_low d && utf16_ok s
      else (0 <=? c) && (c <? 65536) && negb (is_low c) && utf16_ok (d :: s)) in Ha.
    change (code_points ((c :: d :: s) ++ b)) with (if is_high c then
      if is_low d then ((c - 55296) * 1024 + (d - 56320) + 65536) :: code_points (s ++ b) else REPLACEMENT :: code_points ((d :: s) ++ b)
      else if is_low c then REPLACEMENT :: code_points ((d :: s) ++ b) else c :: code_points ((d :: s) ++ b)).
    change (code_points (c :: d :: s)) with (if is_high c then
      if is_low d then ((c - 55296) * 1024 + (d - 56320) + 65536) :: code_points s else REPLACEMENT :: code_points (d :: s)
      else if is_low c then REPLACEMENT :: code_points (d :: s) else c :: code_points (d :: s)).
    destruct (is_high c).
    + apply andb_true_iff in Ha as [H1 H2]. rewrite H1. by rewrite IHs.
    + apply andb_true_iff in Ha as [H1 H2]. destruct (is_low c); [by rewrite andb_false_r in H1|]. by rewrite IHds.
Qed.

Lemma utf8_encode_app a b : utf16_ok a = true -> utf8_encode (a ++ b) = utf8_encode a ++ utf8_encode b.
Proof. intros Ha. unfold utf8_encode. by rewrite code_points_app, map_app, concat_app. Qed.
