(* ===== verification/IpAddr.v ===== *)
(** Addresses as [ipaddr.js] parses and prints them.

    The package is a parameter ([IpAddr]); its law ([IpAddrLaws]) is that printing then
    parsing gives the address back.  [tagged_addresses] is an instance with the law. *)

From stdpp Require Import base list numbers strings option.
From Stdlib Require Import ZArith Lia.
From S2P Require Import Prelude.

Local Open Scope Z_scope.

Inductive ip_kind := ipv4 | ipv6.

#[export] Instance ip_kind_eq_dec : EqDecision ip_kind.
Proof. solve_decision. Defined.

(** A parsed address: its kind and its bytes. *)
Definition ip_address : Type := ip_kind * buffer.

Class IpAddr := {
  ip_parse : jsstring -> option ip_address;      (* [ipaddr.parse]; [None] when it throws *)
  ip_toString : ip_address -> jsstring;
  isIPv4MappedAddress : ip_address -> bool;
  cidr_match : jsstring -> ip_address -> bool    (* [parseCIDR] and [match]; false when it throws *)
}.

Definition ip_wf (a : ip_address) : Prop :=
  match a with
  | (ipv4, bs) => length bs = 4%nat /\ bytes_ok bs
  | (ipv6, bs) => length bs = 16%nat /\ bytes_ok bs
  end.

Class IpAddrLaws `{IpAddr} := {
  parse_toString a : ip_wf a -> ip_parse (ip_toString a) = Some a
}.

(** ** A concrete address library *)

(** The text of an address is its kind's digit and its bytes as characters. *)
Definition tagged_parse (t : jsstring) : option ip_address :=
  match t with
  | 52 :: bs => if Nat.eqb (length bs) 4 then Some (ipv4, bs) else None
  | 54 :: bs => if Nat.eqb (length bs) 16 then Some (ipv6, bs) else None
  | _ => None
  end.

Definition tagged_text (a : ip_address) : jsstring :=
  match a with
  | (ipv4, bs) => 52 :: bs
  | (ipv6, bs) => 54 :: bs
  end.

Definition tagged_addresses : IpAddr := {|
  ip_parse := tagged_parse;
  ip_toString := tagged_text;
  isIPv4MappedAddress := fun _ => false;
  cidr_match := fun _ a => match a with (ipv4, 10 :: _) => true | _ => false end
|}.

Lemma tagged_laws : @IpAddrLaws tagged_addresses.
Proof. constructor. intros [[] bs] [Hl _]; cbn in *; by rewrite Hl. Qed.
