(* ===== verification/BgpPacket.v ===== *)
(** BGP messages: the OPEN, KEEPALIVE and NOTIFICATION messages a session builds
    ([electron/worker/bgp/bgpSession.js]), the parser of received messages
    ([electron/utils/bgp/bgpPacketParser.js]) and the address family tables
    ([electron/utils/bgp/bgpUtils.js], [electron/const/bgpConst.js]).

    Of an UPDATE the parser's result only reaches the log, so the model keeps the
    bytes of the message. *)

From stdpp Require Import base list numbers strings option.
From Stdlib Require Import ZArith Lia.
From S2P Require Import Prelude.

Local Open Scope Z_scope.
Local Open Scope js_scope.

(** ** Constants *)

Definition BGP_HEAD_LEN : Z := 19.
Definition BGP_VERSION : Z := 4.
Definition BGP_MARKER_LEN : Z := 16.

Inductive BGP_PACKET_TYPE := OPEN | UPDATE | NOTIFICATION | KEEPALIVE | ROUTE_REFRESH.

Definition packet_type_value (t : BGP_PACKET_TYPE) : Z :=
  match t with OPEN => 1 | UPDATE => 2 | NOTIFICATION => 3 | KEEPALIVE => 4 | ROUTE_REFRESH => 5 end.

Inductive BGP_OPEN_CAP_CODE :=
| CAP_MULTIPROTOCOL | CAP_ROUTE_REFRESH | CAP_EXTENDED_NEXT_HOP | CAP_FOUR_OCTET_AS | CAP_ADD_PATH | CAP_BGP_ROLE.

Definition cap_code_value (c : BGP_OPEN_CAP_CODE) : Z :=
  match c with
  | CAP_MULTIPROTOCOL => 1
  | CAP_ROUTE_REFRESH => 2
  | CAP_EXTENDED_NEXT_HOP => 5
  | CAP_FOUR_OCTET_AS => 65
  | CAP_ADD_PATH => 69
  | CAP_BGP_ROLE => 9
  end.

Definition IP_TYPE_IPV6 : Z := 2.
Definition OPT_TYPE : Z := 2.

Inductive BGP_ADDR_FAMILY :=
| IPV4_UNC | IPV6_UNC | L2VPN_EVPN | VPNV4 | VPNV6 | IPV4_MVPN | IPV6_MVPN | IPV4_QP | IPV6_QP
| IPV4_FLOWSPEC | IPV6_FLOWSPEC | IPV4_LABEL_UNICAST | IPV6_LABEL_UNICAST | LINK_STATE | LINK_STATE_VPN
| IPV4_MULTICAST | IPV6_MULTICAST.

#[export] Instance BGP_ADDR_FAMILY_eq_dec : EqDecision BGP_ADDR_FAMILY.
Proof. solve_decision. Defined.

Definition AFI_IPV4 : Z := 1.
Definition AFI_IPV6 : Z := 2.
Definition AFI_L2VPN : Z := 25.
Definition AFI_BGP_LS : Z := 16388.

Definition SAFI_UNICAST : Z := 1.
Definition SAFI_MULTICAST : Z := 2.
Definition SAFI_LABEL_UNICAST : Z := 4.
Definition SAFI_MVPN : Z := 5.
Definition SAFI_EVPN : Z := 70.
Definition SAFI_BGP_LS : Z := 71.
Definition SAFI_BGP_LS_VPN : Z := 72.
Definition SAFI_VPN : Z := 128.
Definition SAFI_FLOW_SPEC : Z := 133.
Definition SAFI_QP : Z := 241.

Definition ROLE_INVALID : Z := 255.

Inductive BGP_ADD_PATH_TYPE := RECEIVE_ONLY | SEND_ONLY | SEND_RECEIVE.

Definition add_path_value (t : BGP_ADD_PATH_TYPE) : Z :=
  match t with RECEIVE_ONLY => 1 | SEND_ONLY => 2 | SEND_RECEIVE => 3 end.

(** The bit of a capability in [localCapFlags] and [peerCapFlags]. *)
Definition cap_flag (c : BGP_OPEN_CAP_CODE) : Z :=
  match c with
  | CAP_MULTIPROTOCOL => 1
  | CAP_ROUTE_REFRESH => 2
  | CAP_FOUR_OCTET_AS => 4
  | CAP_BGP_ROLE => 8
  | CAP_EXTENDED_NEXT_HOP => 16
  | CAP_ADD_PATH => 32
  end.

(** ** Flags and address families *)

Definition BIT_SET (flags flag : Z) : Z := js_or flags flag.
Definition BIT_TEST (flags flag : Z) : bool := negb (js_and flags flag =? 0).

Definition getAddressFamilyFlag (f : BGP_ADDR_FAMILY) : Z :=
  match f with
  | IPV4_UNC => 1
  | IPV6_UNC => 2
  | IPV4_MVPN => 4
  | IPV6_MVPN => 8
  | IPV4_QP => 16
  | IPV6_QP => 32
  | IPV4_LABEL_UNICAST => 64
  | IPV6_LABEL_UNICAST => 128
  | VPNV4 => 256
  | VPNV6 => 512
  | L2VPN_EVPN => 1024
  | _ => 0
  end.

Definition getAddrFamilyType (afi safi : Z) : option BGP_ADDR_FAMILY :=
  if afi =? AFI_IPV4 then
    if safi =? SAFI_UNICAST then Some IPV4_UNC
    else if safi =? SAFI_MULTICAST then Some IPV4_MULTICAST
    else if safi =? SAFI_VPN then Some VPNV4
    else if safi =? SAFI_LABEL_UNICAST then Some IPV4_LABEL_UNICAST
    else if safi =? SAFI_MVPN then Some IPV4_MVPN
    else if safi =? SAFI_FLOW_SPEC then Some IPV4_FLOWSPEC
    else if safi =? SAFI_QP then Some IPV4_QP
    else None
  else if afi =? AFI_IPV6 then
    if safi =? SAFI_UNICAST then Some IPV6_UNC
    else if safi =? SAFI_MULTICAST then Some IPV6_MULTICAST
    else if safi =? SAFI_VPN then Some VPNV6
    else if safi =? SAFI_LABEL_UNICAST then Some IPV6_LABEL_UNICAST
    else if safi =? SAFI_MVPN then Some IPV6_MVPN
    else if safi =? SAFI_FLOW_SPEC then Some IPV6_FLOWSPEC
    else if safi =? SAFI_QP then Some IPV6_QP
    else None
  else if afi =? AFI_L2VPN then
    if safi =? SAFI_EVPN then Some L2VPN_EVPN else None
  else if afi =? AFI_BGP_LS then
    if safi =? SAFI_BGP_LS then Some LINK_STATE
    else if safi =? SAFI_BGP_LS_VPN then Some LINK_STATE_VPN
    else None
  else None.

Definition getAfiAndSafi (f : BGP_ADDR_FAMILY) : Z * Z :=
  match f with
  | IPV4_UNC => (AFI_IPV4, SAFI_UNICAST)
  | IPV6_UNC => (AFI_IPV6, SAFI_UNICAST)
  | IPV4_MULTICAST => (AFI_IPV4, SAFI_MULTICAST)
  | IPV6_MULTICAST => (AFI_IPV6, SAFI_MULTICAST)
  | L2VPN_EVPN => (AFI_L2VPN, SAFI_EVPN)
  | VPNV4 => (AFI_IPV4, SAFI_VPN)
  | VPNV6 => (AFI_IPV6, SAFI_VPN)
  | IPV4_LABEL_UNICAST => (AFI_IPV4, SAFI_LABEL_UNICAST)
  | IPV6_LABEL_UNICAST => (AFI_IPV6, SAFI_LABEL_UNICAST)
  | IPV4_MVPN => (AFI_IPV4, SAFI_MVPN)
  | IPV6_MVPN => (AFI_IPV6, SAFI_MVPN)
  | IPV4_FLOWSPEC => (AFI_IPV4, SAFI_FLOW_SPEC)
  | IPV6_FLOWSPEC => (AFI_IPV6, SAFI_FLOW_SPEC)
  | IPV4_QP => (AFI_IPV4, SAFI_QP)
  | IPV6_QP => (AFI_IPV6, SAFI_QP)
  | LINK_STATE => (AFI_BGP_LS, SAFI_BGP_LS)
  | LINK_STATE_VPN => (AFI_BGP_LS, SAFI_BGP_LS_VPN)
  end.

(** ** Building messages *)

Definition writeUInt16 (value : Z) : list Z := [js_and (js_shr value 8) 255; js_and value 255].
Definition writeUInt32 (value : Z) : list Z :=
  [js_and (js_shr value 24) 255; js_and (js_shr value 16) 255; js_and (js_shr value 8) 255; js_and value 255].

(** [buf.set(numbers, off)] stores each number modulo 256. *)
Definition store_numbers (numbers : list Z) : buffer := map (fun n => n mod 256) numbers.

(** What the configuration puts into a session. *)
Record bgp_local := {
  localAs : Z;
  holdTime : Z;
  routerId : list Z;
  localCapFlags : Z;
  localAddrFamilyFlags : Z;
  localRole : Z;
  localAddPathMap : list (Z * Z * Z);
  openCapCustom : list Z
}.

Fixpoint remove_0x (s : list Z) : list Z :=
  match s with
  | 48 :: 120 :: tl => remove_0x tl
  | c :: tl => c :: remove_0x tl
  | [] => []
  end.

Definition processCustomPkt (customPkt : list Z) : buffer :=
  let cleanHex := List.filter (fun c => negb (is_space c)) customPkt in
  let pureHex := remove_0x cleanHex in
  hex_decode pureHex.

Definition buildBgpCapability (optType optLength capType capLength : Z) (capInfo : list Z) : list Z :=
  [optType; optLength; capType; capLength] ++ capInfo.

Definition multiprotocol_capability (afi safi : Z) : list Z :=
  buildBgpCapability OPT_TYPE 6 (cap_code_value CAP_MULTIPROTOCOL) 4 (writeUInt16 afi ++ writeUInt16 safi).

Definition when (c : bool) (l : list Z) : list Z := if c then l else [].

(** The parts of [buildOpenMessageOptionalParams], in its order. *)
Definition multiprotocol_params (c : bgp_local) : list Z :=
  let family f := BIT_TEST (localAddrFamilyFlags c) (getAddressFamilyFlag f) in
  when (BIT_TEST (localCapFlags c) (cap_flag CAP_MULTIPROTOCOL))
    (concat (map (fun f =>
       when (family f)
         (let '(afi, safi) := getAfiAndSafi f in
          buildBgpCapability OPT_TYPE 6 (cap_code_value CAP_MULTIPROTOCOL) 4 (writeUInt16 afi ++ [0; safi])))
       [VPNV4; VPNV6; L2VPN_EVPN]) ++
     when (family IPV4_UNC) (multiprotocol_capability AFI_IPV4 SAFI_UNICAST) ++
     when (family IPV4_LABEL_UNICAST) (multiprotocol_capability AFI_IPV4 SAFI_LABEL_UNICAST) ++
     when (family IPV6_UNC) (multiprotocol_capability AFI_IPV6 SAFI_UNICAST) ++
     when (family IPV4_MVPN) (multiprotocol_capability AFI_IPV4 SAFI_MVPN) ++
     when (family IPV6_MVPN) (multiprotocol_capability AFI_IPV6 SAFI_MVPN) ++
     when (family IPV4_QP) (multiprotocol_capability AFI_IPV4 SAFI_QP) ++
     when (family IPV6_QP) (multiprotocol_capability AFI_IPV6 SAFI_QP)).

Definition route_refresh_params (c : bgp_local) : list Z :=
  when (BIT_TEST (localCapFlags c) (cap_flag CAP_ROUTE_REFRESH))
    (buildBgpCapability OPT_TYPE 2 (cap_code_value CAP_ROUTE_REFRESH) 0 []).

Definition four_octet_as_params (c : bgp_local) : list Z :=
  when (BIT_TEST (localCapFlags c) (cap_flag CAP_FOUR_OCTET_AS))
    (buildBgpCapability OPT_TYPE 6 (cap_code_value CAP_FOUR_OCTET_AS) 4 (writeUInt32 (localAs c))).

Definition role_params (c : bgp_local) : list Z :=
  when (BIT_TEST (localCapFlags c) (cap_flag CAP_BGP_ROLE))
    (buildBgpCapability OPT_TYPE 3 (cap_code_value CAP_BGP_ROLE) 1 [localRole c]).

Definition add_path_params (c : bgp_local) : list Z :=
  when (BIT_TEST (localCapFlags c) (cap_flag CAP_ADD_PATH))
    (let capInfo := concat (map (fun '(afi, safi, mode) => writeUInt16 afi ++ [safi; mode]) (localAddPathMap c)) in
     when (0 <? blen capInfo)
       (buildBgpCapability OPT_TYPE (blen capInfo + 2) (cap_code_value CAP_ADD_PATH) (blen capInfo) capInfo)).

Definition next_hop_params (c : bgp_local) : list Z :=
  let family f := BIT_TEST (localAddrFamilyFlags c) (getAddressFamilyFlag f) in
  when (BIT_TEST (localCapFlags c) (cap_flag CAP_EXTENDED_NEXT_HOP))
    (let extNextHopFamilies :=
       when (family IPV4_UNC) [SAFI_UNICAST] ++ when (family IPV4_LABEL_UNICAST) [SAFI_LABEL_UNICAST] ++
       when (family IPV4_MVPN) [SAFI_MVPN] ++ when (family IPV4_QP) [SAFI_QP] ++ when (family VPNV4) [SAFI_VPN] in
     when (0 <? blen extNextHopFamilies)
       (let capInfo := concat (map (fun safi =>
          writeUInt16 AFI_IPV4 ++ writeUInt16 safi ++ writeUInt16 IP_TYPE_IPV6) extNextHopFamilies) in
        buildBgpCapability OPT_TYPE (blen capInfo + 2) (cap_code_value CAP_EXTENDED_NEXT_HOP) (blen capInfo) capInfo)).

Definition custom_params (c : bgp_local) : list Z :=
  when (existsb (fun ch => negb (is_space ch)) (openCapCustom c)) (processCustomPkt (openCapCustom c)).

Definition buildOpenMessageOptionalParams (c : bgp_local) : list Z :=
  multiprotocol_params c ++ route_refresh_params c ++ four_octet_as_params c ++ role_params c ++
  add_path_params c ++ next_hop_params c ++ custom_params c.

Definition marker : buffer := replicate 16 255.

Definition buildBgpMessageHeader (totalLength type : Z) : result buffer :=
  let header := marker ++ alloc 3 in
  let! header := writeUInt16BE header totalLength BGP_MARKER_LEN in
  writeUInt8 header type (BGP_MARKER_LEN + 2).

Section Open.
(** [ipaddr.parse(ip).toByteArray()] of the package [ipaddr.js]. *)
Context (ipToBytes : list Z -> result (list Z)).

Definition buildOpenMsg (c : bgp_local) : result buffer :=
  let! routerIdBytes := ipToBytes (routerId c) in
  let openHeadMsg := [BGP_VERSION] ++ writeUInt16 (localAs c) ++ writeUInt16 (holdTime c) ++ routerIdBytes in
  let openHeadMsgBuf := store_numbers openHeadMsg in
  let optParams := buildOpenMessageOptionalParams c in
  let! optParamsBuf := writeUInt8 (alloc (blen optParams + 1)) (blen optParams) 0 in
  let optParamsBuf := splice optParamsBuf 1 (store_numbers optParams) in
  let! header := buildBgpMessageHeader (BGP_HEAD_LEN + blen openHeadMsgBuf + blen optParamsBuf)
                   (packet_type_value OPEN) in
  Ok (header ++ openHeadMsgBuf ++ optParamsBuf).
End Open.

Definition buildNotificationMsg (errorCode errorSubcode : Z) : result buffer :=
  let b := marker ++ alloc 5 in
  let! b := writeUInt16BE b (BGP_HEAD_LEN + 2) BGP_MARKER_LEN in
  let! b := writeUInt8 b (packet_type_value NOTIFICATION) (BGP_MARKER_LEN + 2) in
  let! b := writeUInt8 b errorCode (BGP_MARKER_LEN + 3) in
  writeUInt8 b errorSubcode (BGP_MARKER_LEN + 4).

Definition buildKeepAliveMsg : buffer :=
  let b := marker ++ alloc 3 in
  let b := put16 b BGP_HEAD_LEN BGP_MARKER_LEN in
  put8 b (packet_type_value KEEPALIVE) (BGP_MARKER_LEN + 2).

(** ** Parsing messages *)

Inductive cap_info :=
| CapMultiprotocol (afi safi : Z)
| CapFourOctetAs (as4 : Z)
| CapRole (role : Z)
| CapNextHops (nextHops : list (Z * Z * Z))
| CapAddPaths (addPaths : list (Z * Z * Z))
| CapOther.

Record bgp_capability := { cap_code : Z; cap_length : Z; cap_value : cap_info }.

Definition MINIMUM_MESSAGE_LENGTHS (type : Z) : Z :=
  if type =? 1 then 29 else if type =? 2 then 23 else if type =? 3 then 21 else if type =? 4 then 19
  else if type =? 5 then 23 else BGP_HEAD_LEN.

Definition invalid_capability_length (capCode capLen : Z) : bool :=
  let code_is k := capCode =? cap_code_value k in
  ((code_is CAP_MULTIPROTOCOL || code_is CAP_FOUR_OCTET_AS) && negb (capLen =? 4)) ||
  (code_is CAP_ROUTE_REFRESH && negb (capLen =? 0)) ||
  (code_is CAP_BGP_ROLE && negb (capLen =? 1)) ||
  (code_is CAP_EXTENDED_NEXT_HOP && ((capLen =? 0) || negb (capLen mod 6 =? 0))) ||
  (code_is CAP_ADD_PATH && ((capLen =? 0) || negb (capLen mod 4 =? 0))).

(** [while (tempPosition + 6 <= end)]: one turn per six bytes, so that [capLen] turns are enough. *)
Fixpoint read_next_hops (turns : nat) (b : buffer) (tempPosition end_ : Z) : result (list (Z * Z * Z)) :=
  match turns with
  | O => Ok []
  | S n =>
    if tempPosition + 6 <=? end_ then
      let! afi := readUInt16BE b tempPosition in
      let! safi := readUInt16BE b (tempPosition + 2) in
      let! ipType := readUInt16BE b (tempPosition + 4) in
      let! rest := read_next_hops n b (tempPosition + 6) end_ in
      Ok ((afi, safi, ipType) :: rest)
    else Ok []
  end.

Fixpoint read_add_paths (turns : nat) (b : buffer) (tempPosition end_ : Z) : result (list (Z * Z * Z)) :=
  match turns with
  | O => Ok []
  | S n =>
    if tempPosition + 4 <=? end_ then
      let! afi := readUInt16BE b tempPosition in
      let safi := byte_at b (tempPosition + 2) in
      let sendReceive := byte_at b (tempPosition + 3) in
      let! rest := read_add_paths n b (tempPosition + 4) end_ in
      Ok ((afi, safi, sendReceive) :: rest)
    else Ok []
  end.

Definition parse_capability_value (b : buffer) (capCode capLen capPosition : Z) : result cap_info :=
  if capCode =? cap_code_value CAP_MULTIPROTOCOL then
    let! afi := readUInt16BE b capPosition in
    Ok (CapMultiprotocol afi (byte_at b (capPosition + 3)))
  else if capCode =? cap_code_value CAP_FOUR_OCTET_AS then
    let! as4 := readUInt32BE b capPosition in
    Ok (CapFourOctetAs as4)
  else if capCode =? cap_code_value CAP_BGP_ROLE then Ok (CapRole (byte_at b capPosition))
  else if capCode =? cap_code_value CAP_EXTENDED_NEXT_HOP then
    let! l := read_next_hops (Z.to_nat capLen) b capPosition (capPosition + capLen) in
    Ok (CapNextHops l)
  else if capCode =? cap_code_value CAP_ADD_PATH then
    let! l := read_add_paths (Z.to_nat capLen) b capPosition (capPosition + capLen) in
    Ok (CapAddPaths l)
  else Ok CapOther.

(** [while (capPosition < capPositionEnd)]; [None] is running out of fuel. *)
Fixpoint parse_capabilities (fuel : nat) (b : buffer) (capPosition capPositionEnd : Z)
  (capabilities : list bgp_capability) : option (result (list bgp_capability)) :=
  if capPosition <? capPositionEnd then
    match fuel with
    | O => None
    | S f =>
      if capPositionEnd <? capPosition + 2 then Some (Throw (ErrorMsg "BGP OPEN capability header is truncated"))
      else
        let capCode := byte_at b capPosition in
        let capLen := byte_at b (capPosition + 1) in
        let capPosition := capPosition + 2 in
        if capPositionEnd <? capPosition + capLen
        then Some (Throw (ErrorMsg "BGP OPEN capability value is truncated"))
        else if invalid_capability_length capCode capLen
        then Some (Throw (ErrorMsg "BGP OPEN capability has invalid length"))
        else
          match parse_capability_value b capCode capLen capPosition with
          | Throw e => Some (Throw e)
          | Ok v =>
            parse_capabilities f b (capPosition + capLen) capPositionEnd
              (capabilities ++ [{| cap_code := capCode; cap_length := capLen; cap_value := v |}])
          end
    end
  else Some (Ok capabilities).

(** [while (position < optParamsEnd)]. *)
Fixpoint parse_parameters (fuel : nat) (b : buffer) (extendedParameters : bool) (position optParamsEnd : Z)
  (capabilities : list bgp_capability) : option (result (list bgp_capability)) :=
  if position <? optParamsEnd then
    match fuel with
    | O => None
    | S f =>
      let parameterHeaderLength := if extendedParameters then 3 else 2 in
      if optParamsEnd <? position + parameterHeaderLength
      then Some (Throw (ErrorMsg "BGP OPEN optional parameter header is truncated"))
      else
        let paramType := byte_at b position in
        match (if extendedParameters then readUInt16BE b (position + 1) else Ok (byte_at b (position + 1))) with
        | Throw e => Some (Throw e)
        | Ok paramLen =>
          let position := position + parameterHeaderLength in
          if optParamsEnd <? position + paramLen
          then Some (Throw (ErrorMsg "BGP OPEN optional parameter value is truncated"))
          else if paramType =? OPT_TYPE then
            match parse_capabilities (S (length b)) b position (position + paramLen) capabilities with
            | Some (Ok capabilities) => parse_parameters f b extendedParameters (position + paramLen) optParamsEnd capabilities
            | other => other
            end
          else parse_parameters f b extendedParameters (position + paramLen) optParamsEnd capabilities
        end
    end
  else Some (Ok capabilities).

Record bgp_open := {
  o_version : Z; o_asn : Z; o_holdTime : Z; o_routerId : list Z; o_optParamLen : Z;
  o_capabilities : list bgp_capability
}.

Definition dotted (a b c d : Z) : list Z :=
  dec_digits a ++ [46] ++ dec_digits b ++ [46] ++ dec_digits c ++ [46] ++ dec_digits d.

Definition parseOpenMessage (b : buffer) : option (result bgp_open) :=
  let version := byte_at b 19 in
  match (let! asn := readUInt16BE b 20 in let! holdTime := readUInt16BE b 22 in Ok (asn, holdTime)) with
  | Throw e => Some (Throw e)
  | Ok (asn, holdTime) =>
    let routerId := dotted (byte_at b 24) (byte_at b 25) (byte_at b 26) (byte_at b 27) in
    let optParamLen := byte_at b 28 in
    let position := 29 in
    let extendedParameters := negb (optParamLen =? 0) && bool_decide (bget b position = Some 255) in
    match (if extendedParameters
           then if blen b <? position + 3
                then Throw (ErrorMsg "BGP OPEN extended optional parameter length is truncated")
                else let! n := readUInt16BE b (position + 1) in Ok (n, position + 3)
           else Ok (optParamLen, position)) with
    | Throw e => Some (Throw e)
    | Ok (optParamLen, position) =>
      if negb (position + optParamLen =? blen b)
      then Some (Throw (ErrorMsg "BGP OPEN optional parameter length is inconsistent"))
      else if negb (version =? BGP_VERSION) then Some (Throw (ErrorMsg "Unsupported BGP OPEN version"))
      else
        match parse_parameters (S (length b)) b extendedParameters position (position + optParamLen) [] with
        | Some (Ok caps) =>
          Some (Ok {| o_version := version; o_asn := asn; o_holdTime := holdTime; o_routerId := routerId;
                      o_optParamLen := optParamLen; o_capabilities := caps |})
        | Some (Throw e) => Some (Throw e)
        | None => None
        end
    end
  end.

Inductive bgp_body :=
| BodyOpen (o : bgp_open)
| BodyNotification (errorCode errorSubcode : Z) (data : list Z)
| BodyKeepalive
| BodyRouteRefresh (afi subType safi : Z)
| BodyUnknown.

Inductive bgp_parsed :=
| Parsed (type length : Z) (valid : bool) (body : bgp_body)
| UpdateMessage (packet : list Z)
| NotParsed.

Definition parseNotificationMessage (b : buffer) : bgp_body :=
  BodyNotification (byte_at b 19) (byte_at b 20) (subarray_from b 21).

Definition parseRouteRefreshMessage (b : buffer) : result bgp_body :=
  let! afi := readUInt16BE b 19 in
  Ok (BodyRouteRefresh afi (byte_at b 21) (byte_at b 22)).

(** The outcome [NotParsed] is the object [{ valid: false, error }] without a type;
    [UpdateMessage] is an UPDATE that passed the checks of the header. *)
Definition parseBgpPacket (b : buffer) : option bgp_parsed :=
  if blen b <? BGP_HEAD_LEN then Some NotParsed
  else if negb (forallb (fun x => x =? 255) (subarray b 0 BGP_MARKER_LEN)) then Some NotParsed
  else
    match readUInt16BE b BGP_MARKER_LEN with
    | Throw _ => Some NotParsed
    | Ok length =>
      let type := byte_at b (BGP_MARKER_LEN + 2) in
      if (length <? MINIMUM_MESSAGE_LENGTHS type) || negb (length =? blen b) then Some NotParsed
      else if (type =? packet_type_value KEEPALIVE) && negb (length =? BGP_HEAD_LEN) then Some NotParsed
      else if type =? packet_type_value OPEN then
        match parseOpenMessage b with
        | None => None
        | Some (Throw _) => Some NotParsed
        | Some (Ok o) => Some (Parsed type length true (BodyOpen o))
        end
      else if type =? packet_type_value UPDATE then Some (UpdateMessage b)
      else if type =? packet_type_value NOTIFICATION then Some (Parsed type length true (parseNotificationMessage b))
      else if type =? packet_type_value KEEPALIVE then Some (Parsed type length true BodyKeepalive)
      else if type =? packet_type_value ROUTE_REFRESH then
        match parseRouteRefreshMessage b with
        | Throw _ => Some NotParsed
        | Ok body => Some (Parsed type length true body)
        end
      else Some (Parsed type length false BodyUnknown)
    end.

(** ** Fields of a message *)

Lemma read_be (n : nat) pre v post : 0 <= v < 2 ^ (8 * Z.of_nat n) ->
  readUIntBE (Z.of_nat n) (pre ++ be_bytes n v ++ post) (blen pre) = Ok v.
Proof. intros Hv. rewrite read_at by apply blen_be_bytes. by rewrite be_value_be_bytes. Qed.

Lemma to_int32_congr v : exists m, to_int32 v = v + m * 2 ^ 32.
Proof.
  unfold to_int32, to_uint32. pose proof (Z.div_mod v (2 ^ 32) ltac:(lia)) as Hd.
  case_if; [exists (- (v / 2 ^ 32) - 1) | exists (- (v / 2 ^ 32))]; lia.
Qed.

Lemma shr_byte v n : 0 <= n <= 24 -> js_and (js_shr v n) 255 = v / 2 ^ n mod 256.
Proof.
  intros Hn. change 255 with (2 ^ 8 - 1). rewrite js_and_mask by lia. unfold js_shr.
  rewrite Z.shiftr_div_pow2 by lia. destruct (to_int32_congr v) as [m ->].
  replace (2 ^ 32) with (2 ^ (24 - n) * 2 ^ 8 * 2 ^ n) by (rewrite <- !Z.pow_add_r by lia; f_equal; lia).
  rewrite !Z.mul_assoc, Z.div_add by (apply Z.pow_nonzero; lia). change (2 ^ 8) with 256.
  by rewrite Z.mod_add by lia.
Qed.

Lemma writeUInt16_bytes v : writeUInt16 v = be_bytes 2 v.
Proof.
  unfold writeUInt16. rewrite shr_byte by lia. change 255 with (2 ^ 8 - 1). rewrite js_and_mask by lia. done.
Qed.

Lemma writeUInt32_bytes v : writeUInt32 v = be_bytes 4 v.
Proof.
  unfold writeUInt32. rewrite !shr_byte by lia. change 255 with (2 ^ 8 - 1). rewrite js_and_mask by lia.
  cbn [be_bytes app]. change (2 ^ 24) with (256 * 256 * 256). change (2 ^ 16) with (256 * 256). change (2 ^ 8) with 256.
  rewrite <- !Z.div_div by lia. done.
Qed.

Lemma store_bytes_ok b : bytes_ok b -> store_numbers b = b.
Proof.
  intros Hb. induction Hb as [|x b Hx _ IH]; [done|]. cbn [store_numbers map].
  rewrite Z.mod_small by apply Hx. f_equal. apply IH.
Qed.

(** ** What an OPEN says *)

Definition enc_value (v : cap_info) : buffer :=
  match v with
  | CapMultiprotocol afi safi => be_bytes 2 afi ++ [0; safi]
  | CapFourOctetAs a => be_bytes 4 a
  | CapRole r => [r]
  | CapNextHops l => concat (map (fun '(afi, safi, t) => be_bytes 2 afi ++ be_bytes 2 safi ++ be_bytes 2 t) l)
  | CapAddPaths l => concat (map (fun '(afi, safi, mode) => be_bytes 2 afi ++ [safi; mode]) l)
  | CapOther => []
  end.

Definition capability (k : BGP_OPEN_CAP_CODE) (v : cap_info) : bgp_capability :=
  {| cap_code := cap_code_value k; cap_length := blen (enc_value v); cap_value := v |}.

Definition u16 (x : Z) : Prop := 0 <= x < 65536.

(** A capability of a known kind with values that fit its fields. *)
Definition value_ok (code : Z) (v : cap_info) : Prop :=
  match v with
  | CapMultiprotocol afi safi => code = 1 /\ u16 afi /\ is_byte safi
  | CapFourOctetAs a => code = 65 /\ 0 <= a < 2 ^ 32
  | CapRole r => code = 9 /\ is_byte r
  | CapNextHops l => code = 5 /\ l <> [] /\ Forall (fun '(a, s, t) => u16 a /\ u16 s /\ u16 t) l
  | CapAddPaths l => code = 69 /\ l <> [] /\ Forall (fun '(a, s, m) => u16 a /\ is_byte s /\ is_byte m) l
  | CapOther => code = 2
  end.

Definition capability_ok (c : bgp_capability) : Prop :=
  value_ok (cap_code c) (cap_value c) /\ cap_length c = blen (enc_value (cap_value c)) /\ cap_length c <= 253.

Lemma blen_next_hops (l : list (Z * Z * Z)) :
  blen (concat (map (fun '(afi, safi, t) => be_bytes 2 afi ++ be_bytes 2 safi ++ be_bytes 2 t) l)) = 6 * blen l.
Proof.
  induction l as [|[[a s] t] l IH]; [done|]. cbn [map concat]. autorewrite with blen. rewrite IH. lia.
Qed.

Lemma blen_add_paths (l : list (Z * Z * Z)) :
  blen (concat (map (fun '(afi, safi, mode) => be_bytes 2 afi ++ [safi; mode]) l)) = 4 * blen l.
Proof.
  induction l as [|[[a s] t] l IH]; [done|]. cbn [map concat]. autorewrite with blen. rewrite IH. lia.
Qed.

Lemma read_next_hops_spec l : forall turns pre post, (length l <= turns)%nat ->
  Forall (fun '(a, s, t) => u16 a /\ u16 s /\ u16 t) l ->
  read_next_hops turns (pre ++ enc_value (CapNextHops l) ++ post) (blen pre) (blen pre + 6 * blen l) = Ok l.
Proof.
  induction l as [|[[a s] t] l IH]; intros turns pre post Ht Hl.
  { destruct turns; [done|]. cbn [read_next_hops]. by decide_test (blen pre + 6 <=? blen pre + 6 * blen (@nil (Z * Z * Z))) false. }
  destruct turns as [|turns]; [cbn in Ht; lia|]. apply Forall_cons_iff in Hl as [(Ha & Hs & Hm) Hl].
  cbn [read_next_hops]. decide_test (blen pre + 6 <=? blen pre + 6 * blen ((a, s, t) :: l)) true.
  set (tl := enc_value (CapNextHops l)) in *.
  assert (pre ++ enc_value (CapNextHops ((a, s, t) :: l)) ++ post =
    pre ++ be_bytes 2 a ++ be_bytes 2 s ++ be_bytes 2 t ++ tl ++ post) as -> by (unfold tl; cbn [enc_value map concat]; by rewrite <- !app_assoc).
  unfold readUInt16BE. rewrite (read_be 2 pre a) by done. cbn [bind_result].
  rewrite (app_assoc pre). replace (blen pre + 2) with (blen (pre ++ be_bytes 2 a)) by (autorewrite with blen; lia).
  rewrite (read_be 2 _ s) by done. cbn [bind_result].
  rewrite (app_assoc (pre ++ _)). replace (blen pre + 4) with (blen ((pre ++ be_bytes 2 a) ++ be_bytes 2 s)) by (autorewrite with blen; lia).
  rewrite (read_be 2 _ t) by done. cbn [bind_result].
  rewrite (app_assoc ((pre ++ _) ++ _)).
  specialize (IH turns (((pre ++ be_bytes 2 a) ++ be_bytes 2 s) ++ be_bytes 2 t) post ltac:(cbn in Ht; lia) Hl).
  replace (blen pre + 6) with (blen (((pre ++ be_bytes 2 a) ++ be_bytes 2 s) ++ be_bytes 2 t)) by (autorewrite with blen; lia).
  replace (blen pre + 6 * blen ((a, s, t) :: l)) with
    (blen (((pre ++ be_bytes 2 a) ++ be_bytes 2 s) ++ be_bytes 2 t) + 6 * blen l) by (autorewrite with blen; lia).
  by rewrite IH.
Qed.

Lemma read_add_paths_spec l : forall turns pre post, (length l <= turns)%nat ->
  Forall (fun '(a, s, m) => u16 a /\ is_byte s /\ is_byte m) l ->
  read_add_paths turns (pre ++ enc_value (CapAddPaths l) ++ post) (blen pre) (blen pre + 4 * blen l) = Ok l.
Proof.
  induction l as [|[[a s] m] l IH]; intros turns pre post Ht Hl.
  { destruct turns; [done|]. cbn [read_add_paths]. by decide_test (blen pre + 4 <=? blen pre + 4 * blen (@nil (Z * Z * Z))) false. }
  destruct turns as [|turns]; [cbn in Ht; lia|]. apply Forall_cons_iff in Hl as [(Ha & Hs & Hm) Hl].
  cbn [read_add_paths]. decide_test (blen pre + 4 <=? blen pre + 4 * blen ((a, s, m) :: l)) true.
  set (tl := enc_value (CapAddPaths l)) in *.
  assert (pre ++ enc_value (CapAddPaths ((a, s, m) :: l)) ++ post =
    pre ++ be_bytes 2 a ++ s :: m :: tl ++ post) as -> by (unfold tl; cbn [enc_value map concat]; by rewrite <- !app_assoc).
  unfold readUInt16BE. rewrite (read_be 2 pre a) by done. cbn [bind_result].
  rewrite (app_assoc pre). replace (blen pre + 2) with (blen (pre ++ be_bytes 2 a)) by (autorewrite with blen; lia).
  rewrite byte_at_here.
  replace ((pre ++ be_bytes 2 a) ++ s :: m :: tl ++ post) with (((pre ++ be_bytes 2 a) ++ [s]) ++ m :: tl ++ post) by (by rewrite <- !app_assoc).
  replace (blen pre + 3) with (blen ((pre ++ be_bytes 2 a) ++ [s])) by (autorewrite with blen; lia).
  rewrite byte_at_here.
  replace (((pre ++ be_bytes 2 a) ++ [s]) ++ m :: tl ++ post) with ((((pre ++ be_bytes 2 a) ++ [s]) ++ [m]) ++ tl ++ post) by (by rewrite <- !app_assoc).
  specialize (IH turns (((pre ++ be_bytes 2 a) ++ [s]) ++ [m]) post ltac:(cbn in Ht; lia) Hl).
  replace (blen pre + 4) with (blen (((pre ++ be_bytes 2 a) ++ [s]) ++ [m])) by (autorewrite with blen; lia).
  replace (blen pre + 4 * blen ((a, s, m) :: l)) with
    (blen (((pre ++ be_bytes 2 a) ++ [s]) ++ [m]) + 4 * blen l) by (autorewrite with blen; lia).
  by rewrite IH.
Qed.

Lemma parse_value_spec pre post code v : value_ok code v ->
  parse_capability_value (pre ++ enc_value v ++ post) code (blen (enc_value v)) (blen pre) = Ok v.
Proof.
  intros Hv. unfold parse_capability_value. destruct v as [afi safi|a|r|l|l|]; cbn [value_ok] in Hv.
  - destruct Hv as (-> & Ha & Hs). cbn [Z.eqb cap_code_value Pos.eqb]. cbn [enc_value].
    rewrite <- app_assoc. unfold readUInt16BE. rewrite (read_be 2 pre afi) by done. cbn [bind_result].
    replace (pre ++ be_bytes 2 afi ++ [0; safi] ++ post) with ((pre ++ be_bytes 2 afi ++ [0]) ++ safi :: post) by (by rewrite <- !app_assoc).
    replace (blen pre + 3) with (blen (pre ++ be_bytes 2 afi ++ [0])) by (autorewrite with blen; lia).
    by rewrite byte_at_here.
  - destruct Hv as (-> & Ha). cbn [Z.eqb cap_code_value Pos.eqb]. cbn [enc_value].
    unfold readUInt32BE. by rewrite (read_be 4 pre a) by done.
  - destruct Hv as (-> & Hr). cbn [Z.eqb cap_code_value Pos.eqb enc_value app]. by rewrite byte_at_here.
  - destruct Hv as (-> & Hn & Hl). cbn [Z.eqb cap_code_value Pos.eqb].
    assert (blen (enc_value (CapNextHops l)) = 6 * blen l) as -> by apply blen_next_hops.
    rewrite read_next_hops_spec; [done| |done]. unfold blen. lia.
  - destruct Hv as (-> & Hn & Hl). cbn [Z.eqb cap_code_value Pos.eqb].
    assert (blen (enc_value (CapAddPaths l)) = 4 * blen l) as -> by apply blen_add_paths.
    rewrite read_add_paths_spec; [done| |done]. unfold blen. lia.
  - by subst code.
Qed.

Lemma value_length_valid code v : value_ok code v -> invalid_capability_length code (blen (enc_value v)) = false.
Proof.
  intros Hv. unfold invalid_capability_length. destruct v as [afi safi|a|r|l|l|]; cbn [value_ok] in Hv.
  - destruct Hv as (-> & _). done.
  - destruct Hv as (-> & _). done.
  - destruct Hv as (-> & _). done.
  - destruct Hv as (-> & Hn & _). cbn [Z.eqb cap_code_value Pos.eqb andb orb].
    assert (blen (enc_value (CapNextHops l)) = 6 * blen l) as -> by apply blen_next_hops.
    destruct l as [|x l]; [done|]. rewrite blen_cons. pose proof (blen_nonneg l).
    decide_test (6 * (1 + blen l) =? 0) false. rewrite Z.mul_comm, Z.mod_mul by lia. done.
  - destruct Hv as (-> & Hn & _). cbn [Z.eqb cap_code_value Pos.eqb andb orb].
    assert (blen (enc_value (CapAddPaths l)) = 4 * blen l) as -> by apply blen_add_paths.
    destruct l as [|x l]; [done|]. rewrite blen_cons. pose proof (blen_nonneg l).
    decide_test (4 * (1 + blen l) =? 0) false. rewrite Z.mul_comm, Z.mod_mul by lia. done.
  - by subst code.
Qed.

(** One optional parameter with one capability. *)
Definition enc_parameter (c : bgp_capability) : buffer :=
  [OPT_TYPE; cap_length c + 2; cap_code c; cap_length c] ++ enc_value (cap_value c).

Lemma parse_capability_spec pre post c acc fuel : capability_ok c -> (2 <= fuel)%nat ->
  parse_capabilities fuel (pre ++ [cap_code c; cap_length c] ++ enc_value (cap_value c) ++ post)
    (blen pre) (blen pre + (cap_length c + 2)) acc = Some (Ok (acc ++ [c])).
Proof.
  intros (Hv & Hlen & Hmax) Hf. destruct fuel as [|[|fuel]]; try lia. cbn [parse_capabilities].
  destruct c as [code len v]. cbn [cap_code cap_length cap_value] in *. subst len.
  set (val := enc_value v) in *. pose proof (blen_nonneg val).
  decide_test (blen pre <? blen pre + (blen val + 2)) true.
  decide_test (blen pre + (blen val + 2) <? blen pre + 2) false.
  change ([code; blen val] ++ val ++ post) with (code :: blen val :: val ++ post).
  rewrite byte_at_here.
  replace (pre ++ code :: blen val :: val ++ post) with ((pre ++ [code]) ++ blen val :: val ++ post) by (by rewrite <- app_assoc).
  replace (blen pre + 1) with (blen (pre ++ [code])) by (autorewrite with blen; lia).
  rewrite byte_at_here. decide_test (blen pre + (blen val + 2) <? blen pre + 2 + blen val) false.
  assert (invalid_capability_length code (blen val) = false) as -> by (by apply value_length_valid).
  replace ((pre ++ [code]) ++ blen val :: val ++ post) with ((pre ++ [code; blen val]) ++ val ++ post) by (by rewrite <- !app_assoc).
  replace (blen pre + 2) with (blen (pre ++ [code; blen val])) by (autorewrite with blen; lia).
  unfold val. rewrite parse_value_spec by done. fold val.
  by decide_test (blen (pre ++ [code; blen val]) + blen val <? blen pre + (blen val + 2)) false.
Qed.

Lemma parse_parameters_spec caps : forall pre acc fuel, Forall capability_ok caps -> (length caps < fuel)%nat ->
  let b := pre ++ concat (map enc_parameter caps) in
  parse_parameters fuel b false (blen pre) (blen b) acc = Some (Ok (acc ++ caps)).
Proof.
  induction caps as [|c caps IH]; intros pre acc fuel Hc Hf; cbn [map concat].
  { destruct fuel; [lia|]. cbn [parse_parameters]. rewrite !app_nil_r. by decide_test (blen pre <? blen pre) false. }
  destruct fuel as [|fuel]; [lia|]. apply Forall_cons_iff in Hc as [Hc Hcs].
  set (rest := concat (map enc_parameter caps)) in *. cbn zeta.
  assert (0 <= cap_length c /\ blen (enc_parameter c) = 4 + cap_length c) as [Hlen0 Hlen].
  { destruct Hc as (_ & -> & _). unfold enc_parameter. autorewrite with blen.
    pose proof (blen_nonneg (enc_value (cap_value c))). lia. }
  pose proof (blen_nonneg rest).
  assert (blen (pre ++ enc_parameter c ++ rest) = blen pre + (4 + cap_length c) + blen rest) as Hb by (rewrite !blen_app, Hlen; lia).
  cbn [parse_parameters]. rewrite Hb.
  decide_test (blen pre <? blen pre + (4 + cap_length c) + blen rest) true.
  decide_test (blen pre + (4 + cap_length c) + blen rest <? blen pre + 2) false.
  set (v := enc_value (cap_value c)).
  assert (pre ++ enc_parameter c ++ rest = pre ++ OPT_TYPE :: (cap_length c + 2) :: ([cap_code c; cap_length c] ++ v ++ rest)) as Hsplit.
  { unfold enc_parameter. by rewrite <- app_assoc. }
  assert (byte_at (pre ++ enc_parameter c ++ rest) (blen pre) = OPT_TYPE) as -> by (rewrite Hsplit; apply byte_at_here).
  assert (byte_at (pre ++ enc_parameter c ++ rest) (blen pre + 1) = cap_length c + 2) as ->.
  { rewrite Hsplit. replace (pre ++ OPT_TYPE :: cap_length c + 2 :: [cap_code c; cap_length c] ++ v ++ rest) with
      ((pre ++ [OPT_TYPE]) ++ (cap_length c + 2) :: [cap_code c; cap_length c] ++ v ++ rest) by (by rewrite <- !app_assoc).
    replace (blen pre + 1) with (blen (pre ++ [OPT_TYPE])) by (autorewrite with blen; lia). apply byte_at_here. }
  decide_test (blen pre + (4 + cap_length c) + blen rest <? blen pre + 2 + (cap_length c + 2)) false.
  rewrite Z.eqb_refl.
  assert (pre ++ enc_parameter c ++ rest = (pre ++ [OPT_TYPE; cap_length c + 2]) ++ [cap_code c; cap_length c] ++ v ++ rest) as Hsplit2.
  { rewrite Hsplit. by rewrite <- !app_assoc. }
  rewrite Hsplit2 at 2.
  replace (blen pre + 2) with (blen (pre ++ [OPT_TYPE; cap_length c + 2])) by (autorewrite with blen; lia).
  rewrite parse_capability_spec by (done || (rewrite Hsplit, !length_app; cbn; lia)).
  assert (pre ++ enc_parameter c ++ rest = (pre ++ enc_parameter c) ++ rest) as -> by apply app_assoc.
  specialize (IH (pre ++ enc_parameter c) (acc ++ [c]) fuel Hcs ltac:(cbn in Hf; lia)). cbn zeta in IH. fold rest in IH.
  rewrite !blen_app, Hlen in IH. autorewrite with blen.
  replace (blen pre + (1 + (1 + 0)) + (cap_length c + 2)) with (blen pre + (4 + cap_length c)) by lia.
  rewrite IH. by rewrite <- app_assoc.
Qed.

(** ** The OPEN message *)

Definition multiprotocol (f : BGP_ADDR_FAMILY) : bgp_capability :=
  let '(afi, safi) := getAfiAndSafi f in capability CAP_MULTIPROTOCOL (CapMultiprotocol afi safi).

(** The families an OPEN can announce, in the order of the message. *)
Definition open_families : list BGP_ADDR_FAMILY :=
  [VPNV4; VPNV6; L2VPN_EVPN; IPV4_UNC; IPV4_LABEL_UNICAST; IPV6_UNC; IPV4_MVPN; IPV6_MVPN; IPV4_QP; IPV6_QP].

Definition local_cap (c : bgp_local) (k : BGP_OPEN_CAP_CODE) : bool := BIT_TEST (localCapFlags c) (cap_flag k).
Definition local_family (c : bgp_local) (f : BGP_ADDR_FAMILY) : bool :=
  BIT_TEST (localAddrFamilyFlags c) (getAddressFamilyFlag f).

Definition next_hop_families (c : bgp_local) : list (Z * Z * Z) :=
  map (fun f => (AFI_IPV4, snd (getAfiAndSafi f), IP_TYPE_IPV6))
    (List.filter (local_family c) [IPV4_UNC; IPV4_LABEL_UNICAST; IPV4_MVPN; IPV4_QP; VPNV4]).

(** The capabilities a configured session announces. *)
Definition open_capabilities (c : bgp_local) : list bgp_capability :=
  (if local_cap c CAP_MULTIPROTOCOL then map multiprotocol (List.filter (local_family c) open_families) else []) ++
  (if local_cap c CAP_ROUTE_REFRESH then [capability CAP_ROUTE_REFRESH CapOther] else []) ++
  (if local_cap c CAP_FOUR_OCTET_AS then [capability CAP_FOUR_OCTET_AS (CapFourOctetAs (localAs c))] else []) ++
  (if local_cap c CAP_BGP_ROLE then [capability CAP_BGP_ROLE (CapRole (localRole c))] else []) ++
  (if local_cap c CAP_ADD_PATH && negb (bool_decide (localAddPathMap c = []))
   then [capability CAP_ADD_PATH (CapAddPaths (localAddPathMap c))] else []) ++
  (if local_cap c CAP_EXTENDED_NEXT_HOP && negb (bool_decide (next_hop_families c = []))
   then [capability CAP_EXTENDED_NEXT_HOP (CapNextHops (next_hop_families c))] else []).

(** A configuration with values in range and no custom capability text. *)
Record config_ok (c : bgp_local) : Prop := {
  cf_as : 0 <= localAs c < 2 ^ 32;
  cf_hold : u16 (holdTime c);
  cf_role : is_byte (localRole c);
  cf_add_path : Forall (fun '(a, s, m) => u16 a /\ is_byte s /\ is_byte m) (localAddPathMap c);
  cf_add_path_len : blen (localAddPathMap c) <= 30;
  cf_custom : existsb (fun ch => negb (is_space ch)) (openCapCustom c) = false
}.

Lemma enc_if (b : bool) l : concat (map enc_parameter (if b then l else [])) = when b (concat (map enc_parameter l)).
Proof. by destruct b. Qed.

Lemma enc_filter {A} (p : A -> bool) (g : A -> bgp_capability) l :
  concat (map enc_parameter (map g (List.filter p l))) = concat (map (fun x => when (p x) (enc_parameter (g x))) l).
Proof. induction l as [|x l IH]; [done|]. cbn. destruct (p x); cbn; by rewrite IH. Qed.

Lemma when_app b x y : when b (x ++ y) = when b x ++ when b y.
Proof. by destruct b. Qed.

Lemma next_hop_list c :
  map (fun '(a, s, t) => s) (next_hop_families c) =
  when (local_family c IPV4_UNC) [SAFI_UNICAST] ++ when (local_family c IPV4_LABEL_UNICAST) [SAFI_LABEL_UNICAST] ++
  when (local_family c IPV4_MVPN) [SAFI_MVPN] ++ when (local_family c IPV4_QP) [SAFI_QP] ++
  when (local_family c VPNV4) [SAFI_VPN].
Proof.
  unfold next_hop_families. cbn [List.filter].
  by destruct (local_family c IPV4_UNC), (local_family c IPV4_LABEL_UNICAST), (local_family c IPV4_MVPN),
    (local_family c IPV4_QP), (local_family c VPNV4).
Qed.

Lemma next_hop_bytes c :
  enc_value (CapNextHops (next_hop_families c)) =
  concat (map (fun safi => writeUInt16 AFI_IPV4 ++ writeUInt16 safi ++ writeUInt16 IP_TYPE_IPV6)
    (map (fun '(a, s, t) => s) (next_hop_families c))).
Proof.
  unfold next_hop_families. cbn [enc_value]. rewrite !map_map. f_equal. apply map_ext. intros f.
  by rewrite !writeUInt16_bytes.
Qed.

Lemma add_path_bytes (l : list (Z * Z * Z)) :
  concat (map (fun '(afi, safi, mode) => writeUInt16 afi ++ [safi; mode]) l) = enc_value (CapAddPaths l).
Proof.
  cbn [enc_value]. f_equal. apply map_ext. intros [[a s] m]. by rewrite writeUInt16_bytes.
Qed.

Lemma positive_length {A} (l : list A) : (0 <? blen l) = negb (bool_decide (l = [])).
Proof. destruct l; [done|]. rewrite bool_decide_false by done. rewrite blen_cons. by decide_test (0 <? 1 + blen l) true. Qed.

(** The bytes of the optional parameters are the announced capabilities. *)
Lemma open_parameters c : config_ok c ->
  buildOpenMessageOptionalParams c = concat (map enc_parameter (open_capabilities c)).
Proof.
  intros Hc. unfold buildOpenMessageOptionalParams, open_capabilities, multiprotocol_params, route_refresh_params,
    four_octet_as_params, role_params, add_path_params, next_hop_params, custom_params. rewrite (cf_custom c Hc).
  rewrite !map_app, !concat_app, !enc_if, enc_filter. cbn [when]. rewrite !app_nil_r.
  repeat (apply (f_equal2 app)).
  - apply (f_equal2 when); [done|]. unfold open_families. cbn [map concat]. by rewrite !app_nil_r, <- !app_assoc.
  - done.
  - by rewrite writeUInt32_bytes.
  - done.
  - rewrite add_path_bytes, positive_length. cbn [map concat]. rewrite app_nil_r.
    unfold local_cap. destruct (BIT_TEST _ (cap_flag CAP_ADD_PATH)); [|done]. cbn [when andb].
    destruct (localAddPathMap c) as [|[[a s] m] l]; done.
  - fold (local_family c IPV4_UNC) (local_family c IPV4_LABEL_UNICAST) (local_family c IPV4_MVPN)
      (local_family c IPV4_QP) (local_family c VPNV4).
    rewrite <- !concat_app, <- !map_app, <- next_hop_list, <- next_hop_bytes, positive_length. cbn [map concat]. rewrite app_nil_r.
    unfold local_cap. destruct (BIT_TEST _ (cap_flag CAP_EXTENDED_NEXT_HOP)); [|done]. cbn [when andb].
    destruct (next_hop_families c) as [|[[a s] m] l]; done.
Qed.

Lemma Forall_if {A} (P : A -> Prop) (b : bool) l : (b = true -> Forall P l) -> Forall P (if b then l else []).
Proof. destruct b; [auto | constructor]. Qed.

Lemma multiprotocol_ok f : capability_ok (multiprotocol f).
Proof. by destruct f. Qed.

Lemma open_capabilities_ok c : config_ok c -> Forall capability_ok (open_capabilities c).
Proof.
  intros [Has Hh Hr Hap Hlen _]. unfold open_capabilities. rewrite !Forall_app. split_and!; apply Forall_if; intros Hb.
  - apply Forall_map, Forall_true. intros f. apply multiprotocol_ok.
  - by repeat constructor.
  - apply Forall_singleton. by split.
  - apply Forall_singleton. by split.
  - bool_hyps. apply Forall_singleton. split; [|split; [done|]].
    + split; [done|]. split; [|done]. intros Hn. by rewrite bool_decide_eq_false in *.
    + cbn [capability cap_length]. pose proof (blen_add_paths (localAddPathMap c)) as Hl. cbn [enc_value]. lia.
  - bool_hyps. apply Forall_singleton. split; [|split; [done|]].
    + split; [done|]. split; [intros Hn; by rewrite bool_decide_eq_false in *|].
      unfold next_hop_families. apply Forall_map, Forall_true. by intros [].
    + cbn [capability cap_length]. pose proof (blen_next_hops (next_hop_families c)) as Hl. cbn [enc_value].
      assert (blen (next_hop_families c) <= 5); [|lia]. unfold next_hop_families. rewrite blen_map.
      cbn [List.filter]. repeat case_if; by vm_compute.
Qed.

Lemma parameter_bytes_ok c : capability_ok c -> bytes_ok (enc_parameter c).
Proof.
  intros (Hv & Hl & Hm). unfold enc_parameter. rewrite bytes_ok_app, !bytes_ok_cons.
  pose proof (blen_nonneg (enc_value (cap_value c))).
  assert (is_byte (cap_code c)) as Hcode.
  { unfold is_byte. destruct (cap_value c); cbn [value_ok] in Hv; lia. }
  split; [unfold is_byte, OPT_TYPE in *; split_and!; try lia; constructor|].
  destruct (cap_value c) as [afi safi|a|r|l|l|]; cbn [enc_value value_ok] in *.
  - rewrite bytes_ok_app, !bytes_ok_cons. split; [apply bytes_ok_be_bytes|]. unfold is_byte in *. split_and!; try lia; constructor.
  - apply bytes_ok_be_bytes.
  - repeat constructor; apply Hv.
  - destruct Hv as (_ & _ & Hf). clear Hl H. induction Hf as [|[[a s] t] l _ _ IH]; [constructor|]. cbn [map concat].
    rewrite !bytes_ok_app. auto 10 using bytes_ok_be_bytes.
  - destruct Hv as (_ & _ & Hf). clear Hl H. induction Hf as [|[[a s] t] l Hx _ IH]; [constructor|]. cbn [map concat].
    rewrite !bytes_ok_app, !bytes_ok_cons. destruct Hx as (_ & ? & ?). split_and!; try done; [apply bytes_ok_be_bytes | constructor].
  - constructor.
Qed.

Lemma bytes_ok_concat (l : list (list Z)) : Forall bytes_ok l -> bytes_ok (concat l).
Proof. induction 1; [constructor|]. cbn. by apply bytes_ok_app. Qed.

Lemma parameters_bytes_ok caps : Forall capability_ok caps -> bytes_ok (concat (map enc_parameter caps)).
Proof. intros Hc. apply bytes_ok_concat, Forall_map. eapply Forall_impl; [|exact Hc]. apply parameter_bytes_ok. Qed.

Definition parameters_length (caps : list bgp_capability) : Z := blen (concat (map enc_parameter caps)).

Lemma parameters_length_app a b : parameters_length (a ++ b) = parameters_length a + parameters_length b.
Proof. unfold parameters_length. rewrite map_app, concat_app. by autorewrite with blen. Qed.

Lemma parameters_length_if (x : bool) l : 0 <= parameters_length (if x then l else []) <= parameters_length l.
Proof. unfold parameters_length. destruct x; cbn; pose proof (blen_nonneg (concat (map enc_parameter l))); autorewrite with blen; lia. Qed.

Lemma parameters_length_filter (p : BGP_ADDR_FAMILY -> bool) l :
  parameters_length (map multiprotocol (List.filter p l)) <= 8 * blen l.
Proof.
  unfold parameters_length. induction l as [|f l IH]; [done|]. cbn [List.filter]. rewrite blen_cons.
  assert (blen (enc_parameter (multiprotocol f)) = 8) by (by destruct f).
  destruct (p f); cbn [map concat]; autorewrite with blen; lia.
Qed.

Lemma open_parameters_fit c : config_ok c -> parameters_length (open_capabilities c) <= 255.
Proof.
  intros [_ _ _ _ Hap _]. unfold open_capabilities. rewrite !parameters_length_app.
  pose proof (parameters_length_filter (local_family c) open_families) as H1. change (8 * blen open_families) with 80 in H1.
  assert (parameters_length [capability CAP_ADD_PATH (CapAddPaths (localAddPathMap c))] <= 124) as H2.
  { unfold parameters_length. cbn [map concat]. rewrite app_nil_r. unfold enc_parameter. autorewrite with blen.
    cbn [cap_value capability]. pose proof (blen_add_paths (localAddPathMap c)). cbn [enc_value]. lia. }
  assert (parameters_length [capability CAP_EXTENDED_NEXT_HOP (CapNextHops (next_hop_families c))] <= 34) as H3.
  { unfold next_hop_families. cbn [List.filter]. repeat case_if; by vm_compute. }
  assert (forall a, parameters_length [capability CAP_FOUR_OCTET_AS (CapFourOctetAs a)] = 8) as H4 by done.
  assert (forall r, parameters_length [capability CAP_BGP_ROLE (CapRole r)] = 5) as H5 by done.
  assert (parameters_length [capability CAP_ROUTE_REFRESH CapOther] = 4) as H6 by done.
  specialize (H4 (localAs c)). specialize (H5 (localRole c)).
  repeat match goal with |- context [parameters_length (if ?x then ?l else [])] =>
    let H := fresh in pose proof (parameters_length_if x l) as H; revert H; generalize (parameters_length (if x then l else [])); intros ? H
  end. lia.
Qed.

(** A message with its header. *)
Definition message (type : Z) (body : buffer) : buffer := marker ++ be_bytes 2 (BGP_HEAD_LEN + blen body) ++ type :: body.

Lemma blen_message type body : blen (message type body) = BGP_HEAD_LEN + blen body.
Proof. unfold message, BGP_HEAD_LEN. autorewrite with blen. change (blen marker) with 16. lia. Qed.

Lemma build_header n type : u16 n -> is_byte type ->
  buildBgpMessageHeader n type = Ok (marker ++ be_bytes 2 n ++ [type]).
Proof.
  intros Hn Ht. unfold buildBgpMessageHeader. rewrite write16_put16 by (done || (by vm_compute)). cbn [bind_result].
  unfold put16. rewrite splice_app_r by (by vm_compute). change (BGP_MARKER_LEN - blen marker) with 0.
  change (alloc 3) with (alloc 2 ++ alloc 1). rewrite splice_app_l by (autorewrite with blen; by vm_compute).
  rewrite splice_all by (by rewrite length_be_bytes). unfold writeUInt8, writeUIntBE.
  change (2 ^ (8 * Z.of_nat 1)) with 256. unfold is_byte in Ht. decide_test (0 <=? type) true. decide_test (type <? 256) true.
  assert (blen (marker ++ be_bytes 2 n ++ alloc 1) = 19) as -> by (autorewrite with blen; done).
  cbn [andb BGP_MARKER_LEN Z.leb Z.compare]. f_equal.
  rewrite app_assoc, splice_app_r by (autorewrite with blen; by vm_compute).
  assert (BGP_MARKER_LEN + 2 - blen (marker ++ be_bytes 2 n) = 0) as -> by (autorewrite with blen; by vm_compute).
  rewrite splice_all by (by rewrite length_be_bytes). change (be_bytes 1 type) with [type mod 256].
  rewrite (Z.mod_small type) by lia. by rewrite <- app_assoc.
Qed.

(** The checks of the header let a well-formed message through to its body. *)
Lemma parse_message type body : u16 (BGP_HEAD_LEN + blen body) -> MINIMUM_MESSAGE_LENGTHS type <= BGP_HEAD_LEN + blen body ->
  let b := message type body in
  parseBgpPacket b =
    if (type =? packet_type_value KEEPALIVE) && negb (blen b =? BGP_HEAD_LEN) then Some NotParsed
    else if type =? packet_type_value OPEN then
      match parseOpenMessage b with
      | None => None
      | Some (Throw _) => Some NotParsed
      | Some (Ok o) => Some (Parsed type (blen b) true (BodyOpen o))
      end
    else if type =? packet_type_value UPDATE then Some (UpdateMessage b)
    else if type =? packet_type_value NOTIFICATION then Some (Parsed type (blen b) true (parseNotificationMessage b))
    else if type =? packet_type_value KEEPALIVE then Some (Parsed type (blen b) true BodyKeepalive)
    else if type =? packet_type_value ROUTE_REFRESH then
      match parseRouteRefreshMessage b with
      | Throw _ => Some NotParsed
      | Ok body => Some (Parsed type (blen b) true body)
      end
    else Some (Parsed type (blen b) false BodyUnknown).
Proof.
  intros Hl Hmin b. unfold parseBgpPacket. pose proof (blen_message type body) as Hb. fold b in Hb.
  pose proof (blen_nonneg body). rewrite Hb at 1. decide_test (BGP_HEAD_LEN + blen body <? BGP_HEAD_LEN) false.
  assert (subarray b 0 BGP_MARKER_LEN = marker) as -> by (apply (subarray_app_l marker)).
  cbn [forallb marker replicate Z.eqb Pos.eqb andb negb].
  assert (readUInt16BE b BGP_MARKER_LEN = Ok (BGP_HEAD_LEN + blen body)) as ->
    by (apply (read_be 2 marker (BGP_HEAD_LEN + blen body) (type :: body)); done).
  assert (byte_at b (BGP_MARKER_LEN + 2) = type) as ->.
  { unfold b, message. rewrite app_assoc. replace (BGP_MARKER_LEN + 2) with (blen (marker ++ be_bytes 2 (BGP_HEAD_LEN + blen body))).
    - apply byte_at_here.
    - by autorewrite with blen. }
  decide_test (BGP_HEAD_LEN + blen body <? MINIMUM_MESSAGE_LENGTHS type) false. rewrite !Hb, !Z.eqb_refl. done.
Qed.

(** The fixed fields of an OPEN and its capabilities are read back. *)
Lemma parse_open version asn hold r1 r2 r3 r4 caps :
  version = BGP_VERSION -> u16 asn -> u16 hold ->
  Forall capability_ok caps -> parameters_length caps <= 255 ->
  let params := concat (map enc_parameter caps) in
  parseOpenMessage (message (packet_type_value OPEN)
    ([version] ++ be_bytes 2 asn ++ be_bytes 2 hold ++ [r1; r2; r3; r4] ++ [blen params] ++ params)) =
  Some (Ok {| o_version := version; o_asn := asn; o_holdTime := hold; o_routerId := dotted r1 r2 r3 r4;
              o_optParamLen := blen params; o_capabilities := caps |}).
Proof.
  intros -> Ha Hh Hc Hlen params. unfold parameters_length in Hlen. fold params in Hlen. pose proof (blen_nonneg params) as Hp0.
  set (body := [BGP_VERSION] ++ be_bytes 2 asn ++ be_bytes 2 hold ++ [r1; r2; r3; r4] ++ [blen params] ++ params).
  set (b := message (packet_type_value OPEN) body).
  assert (blen b = 29 + blen params) as Hb.
  { unfold b. rewrite blen_message. unfold body, BGP_HEAD_LEN. autorewrite with blen. lia. }
  set (hd := marker ++ be_bytes 2 (BGP_HEAD_LEN + blen body) ++ [packet_type_value OPEN]).
  assert (blen hd = 19) as Hhd by (unfold hd; by autorewrite with blen).
  assert (b = hd ++ body) as Hbody by (unfold b, hd, message; by rewrite <- !app_assoc).
  assert (forall pre x post i, b = pre ++ x :: post -> i = blen pre -> byte_at b i = x) as Hbyte
    by (intros pre x post i -> ->; apply byte_at_here).
  assert (forall pre v post i, b = pre ++ be_bytes 2 v ++ post -> i = blen pre -> u16 v -> readUInt16BE b i = Ok v) as Hread
    by (intros pre v post i -> -> Hv; by apply (read_be 2)).
  set (h1 := hd ++ [BGP_VERSION]). set (h2 := h1 ++ be_bytes 2 asn). set (h3 := h2 ++ be_bytes 2 hold).
  assert (blen h1 = 20 /\ blen h2 = 22 /\ blen h3 = 24) as (E1 & E2 & E3)
    by (unfold h3, h2, h1; autorewrite with blen; rewrite Hhd; done).
  assert (b = h3 ++ [r1; r2; r3; r4] ++ [blen params] ++ params) as Hb3
    by (rewrite Hbody; unfold h3, h2, h1, body; by rewrite <- !app_assoc).
  unfold parseOpenMessage.
  rewrite (Hbyte hd BGP_VERSION (drop 1 body) 19) by (done || (rewrite Hbody; done)).
  rewrite (Hread h1 asn (be_bytes 2 hold ++ [r1; r2; r3; r4] ++ [blen params] ++ params) 20)
    by (done || (rewrite Hb3; unfold h3, h2; by rewrite <- !app_assoc)). cbn [bind_result].
  rewrite (Hread h2 hold ([r1; r2; r3; r4] ++ [blen params] ++ params) 22)
    by (done || (rewrite Hb3; unfold h3; by rewrite <- !app_assoc)). cbn [bind_result].
  rewrite (Hbyte h3 r1 ([r2; r3; r4] ++ [blen params] ++ params) 24) by done.
  rewrite (Hbyte (h3 ++ [r1]) r2 ([r3; r4] ++ [blen params] ++ params) 25) by first [by rewrite Hb3, <- app_assoc | by rewrite blen_app, E3].
  rewrite (Hbyte (h3 ++ [r1; r2]) r3 ([r4] ++ [blen params] ++ params) 26) by first [by rewrite Hb3, <- app_assoc | by rewrite blen_app, E3].
  rewrite (Hbyte (h3 ++ [r1; r2; r3]) r4 ([blen params] ++ params) 27) by first [by rewrite Hb3, <- app_assoc | by rewrite blen_app, E3].
  set (h4 := h3 ++ [r1; r2; r3; r4; blen params]).
  assert (blen h4 = 29) as E4 by (unfold h4; autorewrite with blen; rewrite E3; done).
  assert (b = h4 ++ params) as Hb4 by (rewrite Hb3; unfold h4; by rewrite <- !app_assoc).
  rewrite (Hbyte (h3 ++ [r1; r2; r3; r4]) (blen params) params 28) by first [by rewrite Hb3, <- app_assoc | by rewrite blen_app, E3].
  assert (bool_decide (bget b 29 = Some 255) = false) as ->.
  { apply bool_decide_eq_false. rewrite Hb4. unfold bget. cbn [Z.ltb Z.compare]. unfold blen in E4.
    rewrite lookup_app_r by lia. replace (Z.to_nat 29 - length h4)%nat with 0%nat by lia.
    unfold params. destruct caps; cbn; done. }
  rewrite andb_false_r. rewrite Hb, Z.eqb_refl. cbn [negb Z.eqb BGP_VERSION Pos.eqb].
  rewrite <- Hb. rewrite <- E4 at 1. rewrite Hb4 at 2 3.
  rewrite (parse_parameters_spec caps h4 []); [done|done|].
  rewrite Hb4, length_app. enough (length caps <= length params)%nat by lia.
  unfold params. clear. induction caps as [|c caps IH]; [done|]. cbn [map concat length].
  rewrite length_app. unfold enc_parameter at 1. cbn [app length]. lia.
Qed.

Lemma be_bytes_2_mod x : be_bytes 2 (x mod 65536) = be_bytes 2 x.
Proof.
  cbn [be_bytes app]. change 65536 with (256 * 256). rewrite Z.rem_mul_r by lia.
  pose proof (Z.mod_pos_bound x 256 ltac:(lia)). rewrite (Z.mul_comm 256), Z.div_add, Z.mod_add by lia.
  rewrite (Z.div_small (x mod 256)) by lia. by rewrite Z.add_0_l, !Z.mod_mod by lia.
Qed.

(** The OPEN message as the bytes of its fields. *)
Lemma build_open ipToBytes c r1 r2 r3 r4 :
  config_ok c -> ipToBytes (routerId c) = Ok [r1; r2; r3; r4] -> bytes_ok [r1; r2; r3; r4] ->
  let params := concat (map enc_parameter (open_capabilities c)) in
  buildOpenMsg ipToBytes c =
  Ok (message (packet_type_value OPEN)
    ([BGP_VERSION] ++ be_bytes 2 (localAs c) ++ be_bytes 2 (holdTime c) ++ [r1; r2; r3; r4] ++ [blen params] ++ params)).
Proof.
  intros Hc Hip Hr params. unfold buildOpenMsg. rewrite Hip. cbn [bind_result]. rewrite !writeUInt16_bytes.
  rewrite open_parameters by done. fold params.
  pose proof (open_parameters_fit c Hc) as Hfit. unfold parameters_length in Hfit. fold params in Hfit.
  pose proof (blen_nonneg params) as Hp0.
  assert (bytes_ok params) as Hpb by (apply parameters_bytes_ok, open_capabilities_ok, Hc).
  rewrite store_bytes_ok.
  2:{ rewrite !bytes_ok_app. split_and!; [by repeat constructor | apply bytes_ok_be_bytes | apply bytes_ok_be_bytes | done]. }
  rewrite (store_bytes_ok params) by done.
  assert (writeUInt8 (alloc (blen params + 1)) (blen params) 0 = Ok (blen params :: alloc (blen params))) as ->.
  { unfold writeUInt8, writeUIntBE. rewrite blen_alloc by lia. change (2 ^ (8 * Z.of_nat 1)) with 256.
    decide_test (0 <=? blen params) true. decide_test (blen params <? 256) true.
    change (Z.of_nat 1) with 1. decide_test (0 + 1 <=? blen params + 1) true. cbn [andb Z.leb Z.compare]. f_equal.
    replace (blen params + 1) with (1 + blen params) by lia. rewrite alloc_add by lia.
    rewrite splice_app_l by (autorewrite with blen; by vm_compute). rewrite splice_all by done.
    change (be_bytes 1 (blen params)) with [blen params mod 256]. by rewrite Z.mod_small by lia. }
  cbn [bind_result].
  assert (splice (blen params :: alloc (blen params)) 1 params = blen params :: params) as ->.
  { change (blen params :: alloc (blen params)) with ([blen params] ++ alloc (blen params)).
    rewrite splice_app_r by done. change (1 - blen [blen params]) with 0. rewrite splice_all; [done|].
    unfold alloc, blen. rewrite length_replicate. lia. }
  assert (is_byte (packet_type_value OPEN)) as Ht by done.
  rewrite build_header; [|unfold u16, BGP_HEAD_LEN; autorewrite with blen; lia | done]. cbn [bind_result]. f_equal.
  unfold message. rewrite <- !app_assoc. do 3 f_equal. autorewrite with blen. lia.
Qed.

Lemma open_read_back ipToBytes c r1 r2 r3 r4 :
  config_ok c -> ipToBytes (routerId c) = Ok [r1; r2; r3; r4] -> bytes_ok [r1; r2; r3; r4] ->
  exists b, buildOpenMsg ipToBytes c = Ok b /\
    parseBgpPacket b = Some (Parsed (packet_type_value OPEN) (blen b) true
      (BodyOpen {| o_version := BGP_VERSION; o_asn := localAs c mod 65536; o_holdTime := holdTime c;
                   o_routerId := dotted r1 r2 r3 r4; o_optParamLen := parameters_length (open_capabilities c);
                   o_capabilities := open_capabilities c |})).
Proof.
  intros Hc Hip Hr. eexists. split; [by apply (build_open _ _ r1 r2 r3 r4)|].
  pose proof (open_parameters_fit c Hc) as Hfit. unfold parameters_length in Hfit.
  set (params := concat (map enc_parameter (open_capabilities c))) in *. pose proof (blen_nonneg params).
  rewrite <- (be_bytes_2_mod (localAs c)).
  rewrite parse_message; cycle 1.
  { unfold u16, BGP_HEAD_LEN. autorewrite with blen. lia. }
  { unfold BGP_HEAD_LEN. autorewrite with blen. change (MINIMUM_MESSAGE_LENGTHS (packet_type_value OPEN)) with 29. lia. }
  cbn [packet_type_value Z.eqb Pos.eqb andb].
  pose proof (parse_open BGP_VERSION (localAs c mod 65536) (holdTime c) r1 r2 r3 r4 (open_capabilities c) eq_refl
    (Z.mod_pos_bound (localAs c) 65536 eq_refl) (cf_hold c Hc) (open_capabilities_ok c Hc) Hfit) as Hopen.
  cbn zeta in Hopen. fold params in Hopen. cbn [packet_type_value] in Hopen. by rewrite Hopen.
Qed.

(** C7: the OPEN a session sends is understood as it was configured.  For every
    configuration with values in range (and no custom capability text), building the
    OPEN succeeds and parsing it gives version 4, the low 16 bits of the AS number,
    the hold time, the router identifier and exactly the announced capabilities: the
    enabled families, route refresh, the four-octet AS number, the role, the ADD-PATH
    modes and the extended next hop families. *)
Theorem bgp_open_roundtrip ipToBytes c r1 r2 r3 r4 :
  config_ok c -> ipToBytes (routerId c) = Ok [r1; r2; r3; r4] -> bytes_ok [r1; r2; r3; r4] ->
  exists b, buildOpenMsg ipToBytes c = Ok b /\
    parseBgpPacket b = Some (Parsed (packet_type_value OPEN) (blen b) true
      (BodyOpen {| o_version := BGP_VERSION; o_asn := localAs c mod 65536; o_holdTime := holdTime c;
                   o_routerId := dotted r1 r2 r3 r4; o_optParamLen := parameters_length (open_capabilities c);
                   o_capabilities := open_capabilities c |})).
Proof. apply open_read_back. Qed.

(** ** The parser ends *)

Lemma read_nonneg n b off v : bytes_ok b -> readUIntBE n b off = Ok v -> 0 <= v.
Proof.
  intros Hb Hr. apply read_ok in Hr as (_ & _ & ->).
  pose proof (be_value_bound _ (bytes_ok_subarray b off (off + n) Hb)). lia.
Qed.

Lemma parse_capabilities_total fuel : forall b pos end_ acc, bytes_ok b -> (Z.to_nat (end_ - pos) < fuel)%nat ->
  is_Some (parse_capabilities fuel b pos end_ acc).
Proof.
  induction fuel as [|f IH]; intros b pos end_ acc Hb Hf; [lia|]. cbn [parse_capabilities].
  case_if; [|eauto]. bool_hyps. case_if; [eauto|]. bool_hyps.
  pose proof (byte_at_nonneg b (pos + 1) Hb). case_if; [eauto|]. bool_hyps. case_if; [eauto|].
  destruct (parse_capability_value _ _ _ _); [|eauto]. apply IH; [done | lia].
Qed.

Lemma parse_parameters_total fuel : forall b ext pos end_ acc, bytes_ok b -> 0 <= pos -> end_ <= blen b ->
  (Z.to_nat (end_ - pos) < fuel)%nat -> is_Some (parse_parameters fuel b ext pos end_ acc).
Proof.
  induction fuel as [|f IH]; intros b ext pos end_ acc Hb Hp He Hf; [lia|]. cbn [parse_parameters].
  case_if; [|eauto]. bool_hyps.
  set (hl := if ext then 3 else 2). assert (2 <= hl <= 3) as Hhl by (unfold hl; destruct ext; lia).
  case_if; [eauto|]. bool_hyps.
  destruct (if ext then readUInt16BE b (pos + 1) else Ok (byte_at b (pos + 1))) as [len|] eqn:Hlen; [|eauto].
  assert (0 <= len) as Hl0.
  { destruct ext; [by eapply read_nonneg in Hlen|]. injection Hlen as <-. by apply byte_at_nonneg. }
  case_if; [eauto|]. bool_hyps. case_if.
  - destruct (parse_capabilities_total (S (length b)) b (pos + hl) (pos + hl + len) acc Hb) as [r Hr].
    { unfold blen in He. lia. }
    rewrite Hr. destruct r; [|eauto]. apply IH; try done; lia.
  - apply IH; try done; lia.
Qed.

Lemma parseBgpPacket_total b : bytes_ok b -> is_Some (parseBgpPacket b).
Proof.
  intros Hb. unfold parseBgpPacket. case_if; [eauto|]. case_if; [eauto|].
  destruct (readUInt16BE b BGP_MARKER_LEN) as [len|]; [|eauto]. case_if; [eauto|]. case_if; [eauto|]. case_if.
  2:{ repeat case_if; eauto. destruct (parseRouteRefreshMessage b); eauto. }
  enough (is_Some (parseOpenMessage b)) as [[o|e] ->] by eauto.
  unfold parseOpenMessage. destruct (readUInt16BE b 20) as [asn|]; cbn [bind_result]; [|eauto].
  destruct (readUInt16BE b 22) as [hold|]; cbn [bind_result]; [|eauto].
  set (ext := negb (byte_at b 28 =? 0) && bool_decide (bget b 29 = Some 255)).
  destruct (if ext then if blen b <? 29 + 3 then _ else _ else Ok (byte_at b 28, 29)) as [[n pos]|] eqn:Hm; [|eauto].
  assert (0 <= pos) as Hpos.
  { destruct ext; [|injection Hm as <- <-; lia]. destruct (blen b <? 29 + 3); [done|].
    destruct (readUInt16BE b (29 + 1)); cbn in Hm; [|done]. injection Hm as <- <-. lia. }
  case_if; [eauto|]. case_if; [eauto|]. bool_hyps.
  destruct (parse_parameters_total (S (length b)) b ext pos (pos + n) [] Hb Hpos) as [r Hr]; [lia | unfold blen in *; lia|].
  rewrite Hr. destruct r; eauto.
Qed.

(** parsing always ends.  For every byte string the loops over the optional
    parameters and over the capabilities of an OPEN end, and the parser returns a
    parsed message or a rejection. *)
Theorem bgp_parse_total b : bytes_ok b -> is_Some (parseBgpPacket b).
Proof. apply parseBgpPacket_total. Qed.

Lemma bgp_parse_total_witness : is_Some (parseBgpPacket (message 1 [4; 0; 1; 0; 180; 1; 1; 1; 1; 6; 2; 4; 9; 9])).
Proof. apply bgp_parse_total. repeat constructor; done. Defined.

Definition witness_config : bgp_local := {|
  localAs := 70000; holdTime := 180; routerId := js "192.0.2.1"; localCapFlags := 63; localAddrFamilyFlags := 3;
  localRole := 3; localAddPathMap := [(1, 1, 3)]; openCapCustom := [] |}.

Lemma witness_config_ok : config_ok witness_config.
Proof. by repeat constructor. Qed.

Definition witness_router_id (s : list Z) : result (list Z) :=
  if bool_decide (s = js "192.0.2.1") then Ok [192; 0; 2; 1] else Throw (ErrorMsg "not an address").

Lemma bgp_open_roundtrip_witness :
  exists b, buildOpenMsg witness_router_id witness_config = Ok b /\ exists o,
    parseBgpPacket b = Some (Parsed 1 (blen b) true (BodyOpen o)) /\ o_asn o = 4464 /\ o_holdTime o = 180 /\
    o_capabilities o =
      [capability CAP_MULTIPROTOCOL (CapMultiprotocol 1 1); capability CAP_MULTIPROTOCOL (CapMultiprotocol 2 1);
       capability CAP_ROUTE_REFRESH CapOther; capability CAP_FOUR_OCTET_AS (CapFourOctetAs 70000);
       capability CAP_BGP_ROLE (CapRole 3); capability CAP_ADD_PATH (CapAddPaths [(1, 1, 3)]);
       capability CAP_EXTENDED_NEXT_HOP (CapNextHops [(1, 1, 2)])].
Proof.
  destruct (bgp_open_roundtrip witness_router_id witness_config 192 0 2 1 witness_config_ok eq_refl) as (b & Hb & Hp).
  - by repeat constructor.
  - exists b. split; [exact Hb|]. eexists. split; [exact Hp|]. split; [|split]; vm_compute; reflexivity.
Defined.
