(* ===== verification/BgpSession.v ===== *)
(** One BGP session ([electron/worker/bgp/bgpSession.js]) and the peers it drives
    ([electron/worker/bgp/bgpPeer.js], [electron/worker/bgp/bgpInstance.js]).

    The peers of the session are the entries under its address in the instances, one
    per address family, kept in the order of the instances.  A method is an action
    on the session or, when it can throw, an attempt. *)

From stdpp Require Import base list numbers strings option.
From Stdlib Require Import ZArith Lia.
From S2P Require Import Prelude Actions StreamDecoder BgpPacket.

Local Open Scope Z_scope.
Local Open Scope js_scope.

Inductive BGP_PEER_STATE := IDLE | CONNECT | ACTIVE | OPEN_SENT | OPEN_CONFIRM | ESTABLISHED | NO_NEG.

#[export] Instance BGP_PEER_STATE_eq_dec : EqDecision BGP_PEER_STATE.
Proof. solve_decision. Defined.

Inductive BGP_PEER_TYPE := PEER_TYPE_INVALID | PEER_TYPE_IBGP | PEER_TYPE_EBGP.

Definition HOLD_TIMER_EXPIRED : Z := 4.
Definition CONNECTION_REJECTED : Z := 6.
Definition OTHER_CONFIGURATION_CHANGE : Z := 7.

(** [BgpInstance.makeKey(vrfIndex, afi, safi)]. *)
Abbreviation instance_key := (Z * Z * Z)%type.

Record bgp_socket := { sock_id : Z; sock_destroyed : bool }.

Record BgpSession := {
  config : bgp_local;
  vrfIndex : Z;
  bgp_sock : option bgp_socket;
  packetBuffer : buffer;
  peerCapFlags : Z;
  peerAddrFamilyFlags : Z;
  peerRole : Z;
  peerType : BGP_PEER_TYPE;
  peerAddPathMap : list (Z * Z * Z);
  peerExtendedNextHopFamilies : list (Z * Z * Z);
  sessState : BGP_PEER_STATE;
  holdTimer : option Z;
  peers : list (instance_key * BGP_PEER_STATE)
}.

#[export] Instance bgp_local_rebuild : Rebuild bgp_local := fun c => {|
  localAs := localAs c; holdTime := holdTime c; routerId := routerId c; localCapFlags := localCapFlags c;
  localAddrFamilyFlags := localAddrFamilyFlags c; localRole := localRole c;
  localAddPathMap := localAddPathMap c; openCapCustom := openCapCustom c |}.

#[export] Instance BgpSession_rebuild : Rebuild BgpSession := fun s => {|
  config := config s; vrfIndex := vrfIndex s; bgp_sock := bgp_sock s; packetBuffer := packetBuffer s;
  peerCapFlags := peerCapFlags s; peerAddrFamilyFlags := peerAddrFamilyFlags s; peerRole := peerRole s;
  peerType := peerType s; peerAddPathMap := peerAddPathMap s;
  peerExtendedNextHopFamilies := peerExtendedNextHopFamilies s; sessState := sessState s;
  holdTimer := holdTimer s; peers := peers s |}.

(** A new session, configured, with its peers in the given families. *)
Definition BgpSession_new (c : bgp_local) (keys : list instance_key) : BgpSession := {|
  config := c; vrfIndex := 0; bgp_sock := None; packetBuffer := []; peerCapFlags := 0; peerAddrFamilyFlags := 0;
  peerRole := ROLE_INVALID; peerType := PEER_TYPE_INVALID; peerAddPathMap := []; peerExtendedNextHopFamilies := [];
  sessState := IDLE; holdTimer := None; peers := map (fun k => (k, IDLE)) keys |}.

Inductive bgp_effect :=
| SockWrite (b : list Z)
| SockDestroy (id : Z)
| PeerChange (k : instance_key) (state : BGP_PEER_STATE)
| SendRoute (k : instance_key)
| TimerStart (ms : Z)
| TimerStop.

Abbreviation bgp_action := (action_of BgpSession bgp_effect).
Abbreviation bgp_attempt := (attempt_of BgpSession bgp_effect).

(** ** Peers *)

(** [peer.changePeerState(state)]: the new state and whether the change is reported. *)
Definition change_state (old state : BGP_PEER_STATE) : option BGP_PEER_STATE :=
  if negb (bool_decide (state = IDLE)) && bool_decide (old = NO_NEG) then None else Some state.

(** The peer of one instance. *)
Definition changePeerState (k : instance_key) (state : BGP_PEER_STATE) : bgp_action := fun s =>
  match List.find (fun p => bool_decide (fst p = k)) (peers s) with
  | Some (_, old) =>
    match change_state old state with
    | Some new =>
      (s <| peers := map (fun p => if bool_decide (fst p = k) then (k, new) else p) (peers s) |>, [PeerChange k new])
    | None => (s, [])
    end
  | None => (s, [])
  end.

(** [this.instanceMap.forEach(instance => ...)] for a change of every peer. *)
Definition change_all (state : BGP_PEER_STATE) (ps : list (instance_key * BGP_PEER_STATE)) :=
  map (fun p => (fst p, default (snd p) (change_state (snd p) state))) ps.

Definition change_reports (state : BGP_PEER_STATE) (ps : list (instance_key * BGP_PEER_STATE)) : list bgp_effect :=
  concat (map (fun p => match change_state (snd p) state with Some new => [PeerChange (fst p) new] | None => [] end) ps).

Definition changeSessionFsmState (state : BGP_PEER_STATE) : bgp_action := fun s =>
  (s <| peers := change_all state (peers s) |> <| sessState := state |>, change_reports state (peers s)).

Definition resetPeer : bgp_action := fun s =>
  (s <| peers := map (fun p => (fst p, IDLE)) (peers s) |>, map (fun p => PeerChange (fst p) IDLE) (peers s)).

(** ** Timers and sending *)

Definition getHoldTimeMs (s : BgpSession) : Z :=
  if holdTime (config s) <=? 0 then 0 else holdTime (config s) * 1000.

Definition clearHoldTimer : bgp_action := fun s =>
  match holdTimer s with
  | Some _ => (s <| holdTimer := None |>, [TimerStop])
  | None => (s, [])
  end.

Definition usable (s : BgpSession) : bool :=
  match bgp_sock s with
  | Some k => negb (sock_destroyed k)
  | None => false
  end.

Definition startHoldTimer : bgp_action :=
  clearHoldTimer ;;;
  this s =>
    if negb (usable s) || (getHoldTimeMs s <=? 0) then skip
    else assign (fun s => s <| holdTimer := Some (getHoldTimeMs s) |>) ;;; emit (TimerStart (getHoldTimeMs s)).

(** [this.socket.write(buf)]: a [TypeError] when there is no socket. *)
Definition sock_write (b : buffer) : bgp_attempt :=
  this! s =>
    match bgp_sock s with
    | Some _ => returns (emit (SockWrite b))
    | None => raise TypeError
    end.

Definition sendKeepAliveMsg : bgp_attempt := sock_write buildKeepAliveMsg.

(** The codes passed are constants in range, so that building the message succeeds. *)
Definition sendNotification (errorCode errorSubcode : Z) : bgp_action :=
  this s =>
    if usable s
    then match buildNotificationMsg errorCode errorSubcode with
         | Ok b => emit (SockWrite b)
         | Throw _ => skip
         end
    else skip.

(** [this.socket.destroy(); this.socket = null]. *)
Definition drop_socket : bgp_action := fun s =>
  match bgp_sock s with
  | Some k => (s <| bgp_sock := None |>, [SockDestroy (sock_id k)])
  | None => (s, [])
  end.

(** ** Connection events *)

Section Session.
Context (ipToBytes : list Z -> result (list Z)).

Definition sendOpenMsg : bgp_attempt :=
  this! s =>
    match buildOpenMsg ipToBytes (config s) with
    | Ok b => sock_write b
    | Throw e => raise e
    end.

Definition tcpConnectSuccess (id : Z) : bgp_attempt :=
  returns (assign (fun s => s <| bgp_sock := Some {| sock_id := id; sock_destroyed := false |} |> <| packetBuffer := [] |>
    <| peerCapFlags := 0 |> <| peerAddrFamilyFlags := 0 |> <| peerAddPathMap := [] |>
    <| peerExtendedNextHopFamilies := [] |> <| peerRole := ROLE_INVALID |>)) ;;!
  returns (changeSessionFsmState CONNECT) ;;!
  sendOpenMsg ;;!
  returns (changeSessionFsmState OPEN_SENT) ;;!
  returns startHoldTimer.
End Session.

Definition clearSession : bgp_action :=
  clearHoldTimer ;;;
  assign (fun s => s <| packetBuffer := [] |> <| peerCapFlags := 0 |> <| peerAddrFamilyFlags := 0 |>
    <| peerRole := ROLE_INVALID |> <| peerAddPathMap := [] |> <| peerExtendedNextHopFamilies := [] |>
    <| config := (config s) <| openCapCustom := [] |> <| localCapFlags := 0 |> <| localAddrFamilyFlags := 0 |>
                   <| localRole := ROLE_INVALID |> <| localAddPathMap := [] |> |>).

Definition resetSession : bgp_action :=
  clearHoldTimer ;;;
  this s =>
    match bgp_sock s with
    | None => skip
    | Some _ =>
      changeSessionFsmState IDLE ;;;
      sendNotification CONNECTION_REJECTED OTHER_CONFIGURATION_CHANGE ;;;
      drop_socket
    end.

Definition handleHoldTimerExpired : bgp_action :=
  this s =>
    if negb (usable s) then clearHoldTimer
    else
      clearHoldTimer ;;;
      changeSessionFsmState IDLE ;;;
      sendNotification HOLD_TIMER_EXPIRED 0 ;;;
      drop_socket ;;;
      assign (fun s => s <| packetBuffer := [] |>).

Definition handleSocketClosed (id : Z) : bgp_action :=
  this s =>
    match bgp_sock s with
    | Some k =>
      if negb (sock_id k =? id) then skip
      else
        clearHoldTimer ;;;
        assign (fun s => s <| bgp_sock := None |> <| packetBuffer := [] |>) ;;;
        changeSessionFsmState IDLE
    | None => skip
    end.

(** ** Capabilities *)

(** [map.set(key, mode)] of a [Map] keyed by [`${afi}|${safi}`]. *)
Fixpoint add_path_set (afi safi mode : Z) (m : list (Z * Z * Z)) : list (Z * Z * Z) :=
  match m with
  | [] => [(afi, safi, mode)]
  | (a, f, x) :: tl => if (a =? afi) && (f =? safi) then (a, f, mode) :: tl else (a, f, x) :: add_path_set afi safi mode tl
  end.

Fixpoint add_path_get (afi safi : Z) (m : list (Z * Z * Z)) : option Z :=
  match m with
  | [] => None
  | (a, f, x) :: tl => if (a =? afi) && (f =? safi) then Some x else add_path_get afi safi tl
  end.

Definition setPeerAddPath (afi safi mode : Z) (s : BgpSession) : BgpSession :=
  s <| peerAddPathMap := add_path_set afi safi mode (peerAddPathMap s) |>.

Definition canSendAddPath (mode : option Z) : bool :=
  bool_decide (mode = Some (add_path_value SEND_ONLY)) || bool_decide (mode = Some (add_path_value SEND_RECEIVE)).
Definition canReceiveAddPath (mode : option Z) : bool :=
  bool_decide (mode = Some (add_path_value RECEIVE_ONLY)) || bool_decide (mode = Some (add_path_value SEND_RECEIVE)).

Definition isAddPathSendEnabled (s : BgpSession) (afi safi : Z) : bool :=
  canSendAddPath (add_path_get afi safi (localAddPathMap (config s))) &&
  canReceiveAddPath (add_path_get afi safi (peerAddPathMap s)).
Definition isAddPathReceiveEnabled (s : BgpSession) (afi safi : Z) : bool :=
  canSendAddPath (add_path_get afi safi (peerAddPathMap s)) &&
  canReceiveAddPath (add_path_get afi safi (localAddPathMap (config s))).

Definition isExtendedNextHopEnabled (s : BgpSession) (afi safi nextHopAfi : Z) : bool :=
  BIT_TEST (localCapFlags (config s)) (cap_flag CAP_EXTENDED_NEXT_HOP) &&
  bool_decide ((afi, safi, nextHopAfi) ∈ peerExtendedNextHopFamilies s).

Definition add_next_hop (t : Z * Z * Z) (s : BgpSession) : BgpSession :=
  if bool_decide (t ∈ peerExtendedNextHopFamilies s) then s
  else s <| peerExtendedNextHopFamilies := peerExtendedNextHopFamilies s ++ [t] |>.

Definition set_peer_cap (k : BGP_OPEN_CAP_CODE) (s : BgpSession) : BgpSession :=
  s <| peerCapFlags := BIT_SET (peerCapFlags s) (cap_flag k) |>.

Definition set_peer_family (flag : Z) (s : BgpSession) : BgpSession :=
  s <| peerAddrFamilyFlags := BIT_SET (peerAddrFamilyFlags s) flag |>.

(** The body of [parsedPacket.capabilities.forEach(cap => ...)]. *)
Definition apply_capability (cap : bgp_capability) (s : BgpSession) : BgpSession :=
  match cap_value cap with
  | CapMultiprotocol afi safi =>
    let s := set_peer_cap CAP_MULTIPROTOCOL s in
    match getAddrFamilyType afi safi with
    | None => s
    | Some addrFamilyType =>
      let addrFamilyFlag := getAddressFamilyFlag addrFamilyType in
      let s := if addrFamilyFlag =? 0 then s else set_peer_family addrFamilyFlag s in
      match addrFamilyType with
      | IPV4_UNC | IPV6_UNC | IPV4_MVPN | IPV6_MVPN | IPV4_QP | IPV6_QP => set_peer_family addrFamilyFlag s
      | _ => s
      end
    end
  | CapFourOctetAs _ => set_peer_cap CAP_FOUR_OCTET_AS s
  | CapRole role => (set_peer_cap CAP_BGP_ROLE s) <| peerRole := role |>
  | CapNextHops nextHops => foldl (fun s t => add_next_hop t s) (set_peer_cap CAP_EXTENDED_NEXT_HOP s) nextHops
  | CapAddPaths addPaths =>
    foldl (fun s '(afi, safi, mode) => setPeerAddPath afi safi mode s) (set_peer_cap CAP_ADD_PATH s) addPaths
  | CapOther => if cap_code cap =? cap_code_value CAP_ROUTE_REFRESH then set_peer_cap CAP_ROUTE_REFRESH s else s
  end.

(** A family the peer did not announce. *)
Definition check_family (vrf : Z) (f : BGP_ADDR_FAMILY) : bgp_action :=
  this s =>
    if BIT_TEST (peerAddrFamilyFlags s) (getAddressFamilyFlag f) then skip
    else let '(afi, safi) := getAfiAndSafi f in changePeerState (vrf, afi, safi) NO_NEG.

Definition check_families : bgp_action :=
  this s =>
    each [IPV4_UNC; IPV6_UNC; IPV4_MVPN; IPV4_LABEL_UNICAST; IPV6_MVPN; IPV4_QP; IPV6_QP] (check_family 0) ;;;
    each [VPNV4; VPNV6; L2VPN_EVPN] (check_family (vrfIndex s)).

(** ** Messages *)

Definition handle_open (parsed : bgp_parsed) : bgp_attempt :=
  match parsed with
  | Parsed _ _ _ (BodyOpen o) =>
    returns (assign (fun s => foldl (fun s cap => apply_capability cap s) s (o_capabilities o))) ;;!
    returns check_families ;;!
    sendKeepAliveMsg ;;!
    returns (changeSessionFsmState OPEN_CONFIRM) ;;!
    returns (assign (fun s => s <| peerType := if localAs (config s) =? o_asn o then PEER_TYPE_IBGP else PEER_TYPE_EBGP |>))
  | _ => raise TypeError
  end.

Definition handle_keepalive : bgp_attempt :=
  sendKeepAliveMsg ;;!
  this! s =>
    if bool_decide (sessState s = OPEN_CONFIRM) then
      returns (changeSessionFsmState ESTABLISHED) ;;!
      returns (fun s => (s, map (fun p => SendRoute (fst p)) (peers s)))
    else returns skip.

Definition handle_notification : bgp_action := clearHoldTimer ;;; resetPeer ;;; drop_socket.

Definition handle_route_refresh (parsed : bgp_parsed) : bgp_action :=
  match parsed with
  | Parsed _ _ _ (BodyRouteRefresh afi _ safi) =>
    this s => if existsb (fun p => bool_decide (fst p = (0, afi, safi))) (peers s) then emit (SendRoute (0, afi, safi)) else skip
  | _ => skip
  end.

Definition handle_packet (type : Z) (parsed : bgp_parsed) : bgp_attempt :=
  returns startHoldTimer ;;!
  if type =? packet_type_value OPEN then handle_open parsed
  else if type =? packet_type_value KEEPALIVE then handle_keepalive
  else if type =? packet_type_value NOTIFICATION then returns handle_notification
  else if type =? packet_type_value ROUTE_REFRESH then returns (handle_route_refresh parsed)
  else returns skip.

Record bgp_header := { hd_length : Z; hd_type : Z }.

Definition parseBgpHeader (b : buffer) : option (result bgp_header) :=
  if blen b <? BGP_HEAD_LEN then None
  else Some (let! length := readUInt16BE b 16 in
             let! type := readUInt8 b 18 in
             Ok {| hd_length := length; hd_type := type |}).

(** [while (this.packetBuffer.length >= 19) { ... }]; [None] is running out of fuel. *)
Fixpoint handle_loop (fuel : nat) (s : BgpSession) : option (BgpSession * list bgp_effect * option js_exn) :=
  match parseBgpHeader (packetBuffer s) with
  | None => Some (s, [], None)
  | Some (Throw e) => Some (s, [], Some e)
  | Some (Ok header) =>
    match fuel with
    | O => None
    | S f =>
      if blen (packetBuffer s) <? hd_length header then Some (s, [], None)
      else
        let packet := subarray (packetBuffer s) 0 (hd_length header) in
        match handle_packet (hd_type header) (default NotParsed (parseBgpPacket packet)) s with
        | (s, out, Some e) => Some (s, out, Some e)
        | (s, out, None) =>
          (fun r => (fst (fst r), out ++ snd (fst r), snd r)) <$>
            handle_loop f (s <| packetBuffer := subarray_from (packetBuffer s) (hd_length header) |>)
        end
    end
  end.

Definition handleBgpPacket (fuel : nat) (b : buffer) (s : BgpSession) :=
  handle_loop fuel (s <| packetBuffer := packetBuffer s ++ b |>).

(** ** Handlers and the input buffer

    No handler of a message reads or changes the buffer of received bytes. *)

Definition with_buffer (s : BgpSession) (y : buffer) : BgpSession := s <| packetBuffer := y |>.

Definition buffer_free (a : bgp_action) : Prop :=
  forall s y, a (with_buffer s y) = (with_buffer (fst (a s)) y, snd (a s)).
Definition buffer_free_attempt (a : bgp_attempt) : Prop :=
  forall s y, a (with_buffer s y) = (with_buffer (fst (fst (a s))) y, snd (fst (a s)), snd (a s)).

Lemma bf_seq a b : buffer_free a -> buffer_free b -> buffer_free (a ;;; b).
Proof.
  intros Ha Hb s y. unfold seq_action. rewrite Ha. destruct (a s) as [s1 o1]. cbn [fst snd]. rewrite Hb.
  by destruct (b s1).
Qed.

Lemma bf_this k : (forall s, buffer_free (k s)) -> (forall s y, k (with_buffer s y) = k s) -> buffer_free (get_this k).
Proof. intros Hk He s y. unfold get_this. rewrite He. apply Hk. Qed.

Lemma bf_skip : buffer_free skip.
Proof. done. Qed.

Lemma bf_emit e : buffer_free (emit e).
Proof. done. Qed.

Lemma bf_assign f : (forall s y, f (with_buffer s y) = with_buffer (f s) y) -> buffer_free (assign f).
Proof. intros Hf s y. unfold assign. cbn. by rewrite Hf. Qed.

Lemma bf_each {A} (xs : list A) k : (forall x, buffer_free (k x)) -> buffer_free (each xs k).
Proof. intros Hk. induction xs; cbn [each]; auto using bf_skip, bf_seq. Qed.

Lemma bf_returns a : buffer_free a -> buffer_free_attempt (returns a).
Proof. intros Ha s y. unfold returns. rewrite Ha. by destruct (a s). Qed.

Lemma bf_raise e : buffer_free_attempt (raise e).
Proof. done. Qed.

Lemma bf_seq_attempt a b : buffer_free_attempt a -> buffer_free_attempt b -> buffer_free_attempt (a ;;! b).
Proof.
  intros Ha Hb s y. unfold seq_attempt. rewrite Ha. destruct (a s) as [[s1 o1] [e|]]; cbn [fst snd]; [done|].
  rewrite Hb. by destruct (b s1) as [[s2 o2] x].
Qed.

Lemma bf_this_attempt k : (forall s, buffer_free_attempt (k s)) -> (forall s y, k (with_buffer s y) = k s) ->
  buffer_free_attempt (attempt_this k).
Proof. intros Hk He s y. unfold attempt_this. rewrite He. apply Hk. Qed.

Lemma bf_clearHoldTimer : buffer_free clearHoldTimer.
Proof. intros s y. unfold clearHoldTimer. cbn. by destruct (holdTimer s). Qed.

Lemma bf_startHoldTimer : buffer_free startHoldTimer.
Proof.
  apply bf_seq; [apply bf_clearHoldTimer|]. apply bf_this; [|done]. intros s.
  case_if; [apply bf_skip | apply bf_seq; [by apply bf_assign | apply bf_emit]].
Qed.

Lemma bf_changeSession st : buffer_free (changeSessionFsmState st).
Proof. done. Qed.

Lemma bf_changePeerState k st : buffer_free (changePeerState k st).
Proof.
  intros s y. unfold changePeerState. change (peers (with_buffer s y)) with (peers s).
  destruct (List.find _ (peers s)) as [[k' old]|]; [|done]. by destruct (change_state old st).
Qed.

Lemma bf_sock_write b : buffer_free_attempt (sock_write b).
Proof. apply bf_this_attempt; [|done]. intros s. by destruct (bgp_sock s). Qed.

Lemma apply_capability_buffer cap s y :
  apply_capability cap (with_buffer s y) = with_buffer (apply_capability cap s) y.
Proof.
  unfold apply_capability. destruct (cap_value cap) as [afi safi|a|r|l|l|]; try done.
  - destruct (getAddrFamilyType afi safi) as [[]|]; done.
  - change (set_peer_cap CAP_EXTENDED_NEXT_HOP (with_buffer s y)) with (with_buffer (set_peer_cap CAP_EXTENDED_NEXT_HOP s) y).
    generalize (set_peer_cap CAP_EXTENDED_NEXT_HOP s). clear s.
    induction l as [|t l IH]; [done|]. intros s. cbn [foldl].
    rewrite <- IH. f_equal. unfold add_next_hop. change (peerExtendedNextHopFamilies (with_buffer s y)) with (peerExtendedNextHopFamilies s).
    by case_if.
  - change (set_peer_cap CAP_ADD_PATH (with_buffer s y)) with (with_buffer (set_peer_cap CAP_ADD_PATH s) y).
    generalize (set_peer_cap CAP_ADD_PATH s). clear s.
    induction l as [|[[a f] m] l IH]; [done|]. intros s. cbn [foldl]. by rewrite <- IH.
  - by case_if.
Qed.

Lemma apply_capabilities_buffer caps s y :
  foldl (fun s cap => apply_capability cap s) (with_buffer s y) caps =
  with_buffer (foldl (fun s cap => apply_capability cap s) s caps) y.
Proof. revert s. induction caps as [|c caps IH]; intros s; [done|]. cbn [foldl]. by rewrite apply_capability_buffer, IH. Qed.

Lemma bf_check_family vrf f : buffer_free (check_family vrf f).
Proof.
  apply bf_this; [|done]. intros s. case_if; [apply bf_skip|]. destruct (getAfiAndSafi f). apply bf_changePeerState.
Qed.

Lemma bf_check_families : buffer_free check_families.
Proof. apply bf_this; [|done]. intros s. apply bf_seq; apply bf_each; intros; apply bf_check_family. Qed.

Lemma bf_drop_socket : buffer_free drop_socket.
Proof. intros s y. unfold drop_socket. cbn. by destruct (bgp_sock s). Qed.

Lemma bf_handle_open parsed : buffer_free_attempt (handle_open parsed).
Proof.
  destruct parsed as [t l v []| |]; try apply bf_raise. unfold handle_open.
  repeat apply bf_seq_attempt; try apply bf_returns; try apply bf_sock_write; try done.
  - apply bf_assign, apply_capabilities_buffer.
  - apply bf_check_families.
Qed.

Lemma bf_handle_packet type parsed : buffer_free_attempt (handle_packet type parsed).
Proof.
  apply bf_seq_attempt; [apply bf_returns, bf_startHoldTimer|].
  case_if; [apply bf_handle_open|]. case_if.
  { apply bf_seq_attempt; [apply bf_sock_write|]. apply bf_this_attempt; [|done]. intros s. case_if; [|done].
    by apply bf_seq_attempt; apply bf_returns. }
  case_if. { apply bf_returns, bf_seq; [apply bf_clearHoldTimer|]. apply bf_seq; [done | apply bf_drop_socket]. }
  case_if; [|done]. apply bf_returns. unfold handle_route_refresh. destruct parsed as [t l v []| |]; try done.
  apply bf_this; [|done]. intros s. by case_if.
Qed.

(** ** The input loop *)

Lemma with_buffer_twice s y z : with_buffer (with_buffer s y) z = with_buffer s z.
Proof. done. Qed.

Lemma with_own_buffer s : with_buffer s (packetBuffer s) = s.
Proof. by destruct s. Qed.

Lemma header_some b : BGP_HEAD_LEN <= blen b ->
  exists h, parseBgpHeader b = Some (Ok h) /\ (forall x, parseBgpHeader (b ++ x) = Some (Ok h)) /\ (bytes_ok b -> 0 <= hd_length h).
Proof.
  unfold BGP_HEAD_LEN. intros Hb. unfold parseBgpHeader, BGP_HEAD_LEN.
  assert (forall n off, 0 <= off -> 0 <= n -> off + n <= 19 -> readUIntBE n b off = Ok (be_value (subarray b off (off + n)))) as Hr.
  { intros n off H0 Hn H1. unfold readUIntBE. decide_test (0 <=? off) true. by decide_test (off + n <=? blen b) true. }
  exists {| hd_length := be_value (subarray b 16 18); hd_type := be_value (subarray b 18 19) |}. split; [|split].
  - decide_test (blen b <? 19) false. unfold readUInt16BE, readUInt8. by rewrite !Hr by lia.
  - intros x. decide_test (blen (b ++ x) <? 19) false. unfold readUInt16BE, readUInt8.
    rewrite !read_app_left by lia. by rewrite !Hr by lia.
  - intros Hok. cbn. apply (be_value_bound (subarray b 16 18)), bytes_ok_subarray, Hok.
Qed.

Lemma header_none b : blen b < BGP_HEAD_LEN -> parseBgpHeader b = None.
Proof. intros Hb. unfold parseBgpHeader. by decide_test (blen b <? BGP_HEAD_LEN) true. Qed.

Lemma handle_loop_fuel f1 f2 s r : handle_loop f1 s = Some r -> (f1 <= f2)%nat -> handle_loop f2 s = Some r.
Proof.
  revert f2 s r. induction f1 as [|f IH]; intros f2 s r Hr Hf.
  - destruct f2; [done|]. cbn [handle_loop] in *. by destruct (parseBgpHeader (packetBuffer s)) as [[]|].
  - destruct f2 as [|f2]; [lia|]. cbn [handle_loop] in *. destruct (parseBgpHeader (packetBuffer s)) as [[h|]|]; try done.
    destruct (blen (packetBuffer s) <? hd_length h); [done|].
    destruct (handle_packet _ _ s) as [[s1 o1] [e|]]; [done|].
    destruct (handle_loop f _) as [r'|] eqn:E; [|done]. by rewrite (IH f2 _ r') by (done || lia).
Qed.

(** Bytes that arrive later can as well have been there from the start. *)
Lemma handle_loop_split f : forall s b x s' out, bytes_ok b ->
  handle_loop f (with_buffer s (b ++ x)) = Some (s', out, None) ->
  exists s1 b1 out1 out2, handle_loop f (with_buffer s b) = Some (with_buffer s1 b1, out1, None) /\ bytes_ok b1 /\
    handle_loop f (with_buffer s1 (b1 ++ x)) = Some (s', out2, None) /\ out = out1 ++ out2.
Proof.
  induction f as [|f IH]; intros s b x s' out Hok Hr; destruct (Z_lt_le_dec (blen b) BGP_HEAD_LEN) as [Hb|Hb].
  - exists s, b, [], out. split; [|done]. cbn [handle_loop]. change (packetBuffer (with_buffer s b)) with b. by rewrite header_none.
  - destruct (header_some b Hb) as (h & _ & Hh & _). cbn [handle_loop] in Hr.
    change (packetBuffer (with_buffer s (b ++ x))) with (b ++ x) in Hr. by rewrite Hh in Hr.
  - exists s, b, [], out. split; [|done]. cbn [handle_loop]. change (packetBuffer (with_buffer s b)) with b. by rewrite header_none.
  - destruct (header_some b Hb) as (h & Hhb & Hh & Hpos). specialize (Hpos Hok).
    destruct (Z_lt_le_dec (blen b) (hd_length h)) as [Hl|Hl].
    { exists s, b, [], out. split; [|done]. cbn [handle_loop]. change (packetBuffer (with_buffer s b)) with b. rewrite Hhb.
      by decide_test (blen b <? hd_length h) true. }
    cbn [handle_loop] in Hr. change (packetBuffer (with_buffer s (b ++ x))) with (b ++ x) in Hr. rewrite Hh in Hr.
    revert Hr. decide_test (blen (b ++ x) <? hd_length h) false. rewrite subarray_app_left by lia.
    set (pk := subarray b 0 (hd_length h)). rewrite bf_handle_packet. intros Hr.
    destruct (handle_packet (hd_type h) (default NotParsed (parseBgpPacket pk)) s) as [[s1 o1] [e|]] eqn:Hp;
      cbn [fst snd] in Hr; [done|].
    change (packetBuffer (with_buffer s1 (b ++ x))) with (b ++ x) in Hr. rewrite subarray_from_app_left in Hr by lia.
    change ((with_buffer s1 (b ++ x)) <| packetBuffer := subarray_from b (hd_length h) ++ x |>) with
      (with_buffer s1 (subarray_from b (hd_length h) ++ x)) in Hr.
    destruct (handle_loop f _) as [[[s2 o2] x2]|] eqn:E; [|done]. cbn in Hr. injection Hr as <- <- ->.
    destruct (IH s1 (subarray_from b (hd_length h)) x s2 o2 ltac:(by apply bytes_ok_subarray_from) E)
      as (s3 & b3 & o3 & o4 & H1 & Hok3 & H2 & ->).
    exists s3, b3, (o1 ++ o3), o4. split; [|split; [done|split]].
    + cbn [handle_loop]. change (packetBuffer (with_buffer s b)) with b. rewrite Hhb.
      decide_test (blen b <? hd_length h) false. fold pk. rewrite bf_handle_packet, Hp. cbn [fst snd].
      change ((with_buffer s1 b) <| packetBuffer := subarray_from (packetBuffer (with_buffer s1 b)) (hd_length h) |>) with
        (with_buffer s1 (subarray_from b (hd_length h))). by rewrite H1.
    + eapply handle_loop_fuel; [exact H2 | lia].
    + by rewrite app_assoc.
Qed.

(** The bytes of a connection, fragment by fragment, until a handler throws. *)
Fixpoint recv_fragments (fuel : nat) (frags : list (list Z)) (s : BgpSession) : option (BgpSession * list bgp_effect * option js_exn) :=
  match frags with
  | [] => Some (s, [], None)
  | x :: tl =>
    match handleBgpPacket fuel x s with
    | Some (s1, o1, None) => (fun r => (fst (fst r), o1 ++ snd (fst r), snd r)) <$> recv_fragments fuel tl s1
    | other => other
    end
  end.

(** fragmentation does not matter.  If a session handles some received bytes at
    once (the loop ends and no handler throws), then cutting them into fragments in
    any way gives the same session, with the same unfinished bytes, and the same
    messages sent, reports, timer operations and route transmissions in the same
    order. *)
Theorem bgp_fragmentation fuel s x frags s' out :
  bytes_ok (packetBuffer s) -> bytes_ok x -> Forall bytes_ok frags ->
  handleBgpPacket fuel (x ++ concat frags) s = Some (s', out, None) ->
  recv_fragments fuel (x :: frags) s = Some (s', out, None).
Proof.
  revert s x out. induction frags as [|y frags IH]; intros s x out Hb Hx Hf Hr.
  - cbn [concat] in Hr. rewrite app_nil_r in Hr. cbn [recv_fragments]. rewrite Hr. cbn. by rewrite app_nil_r.
  - apply Forall_cons_iff in Hf as [Hy Hf]. unfold handleBgpPacket in Hr. cbn [concat] in Hr. rewrite app_assoc in Hr.
    apply handle_loop_split in Hr as (s1 & b1 & o1 & o2 & H1 & Hb1 & H2 & ->); [|by apply bytes_ok_app].
    change (recv_fragments fuel (x :: y :: frags) s) with
      (match handleBgpPacket fuel x s with
       | Some (s1, o1, None) => (fun r => (fst (fst r), o1 ++ snd (fst r), snd r)) <$> recv_fragments fuel (y :: frags) s1
       | other => other end).
    unfold handleBgpPacket at 1. change (s <| packetBuffer := packetBuffer s ++ x |>) with (with_buffer s (packetBuffer s ++ x)).
    rewrite H1, (IH (with_buffer s1 b1) y o2 Hb1 Hy Hf H2). done.
Qed.

(** a header whose length field is 0 is never consumed.  When the bytes received
    start with such a header of any type but OPEN and KEEPALIVE, the input loop
    handles an empty packet again and again: no number of iterations is enough. *)
Theorem bgp_zero_length_hangs fuel s front type rest :
  length front = 16%nat -> is_byte type -> type <> packet_type_value OPEN -> type <> packet_type_value KEEPALIVE ->
  packetBuffer s = [] ->
  handleBgpPacket fuel (front ++ [0; 0; type] ++ rest) s = None.
Proof.
  intros Hlen Ht Ho Hk Hb. unfold handleBgpPacket. rewrite Hb. cbn [app].
  change (s <| packetBuffer := front ++ 0 :: 0 :: type :: rest |>) with (with_buffer s (front ++ 0 :: 0 :: type :: rest)). clear Hb.
  set (b := front ++ 0 :: 0 :: type :: rest).
  assert (blen front = 16) as Hf by (unfold blen; lia).
  assert (parseBgpHeader b = Some (Ok {| hd_length := 0; hd_type := type |})) as Hh.
  { unfold parseBgpHeader, BGP_HEAD_LEN. unfold b.
    decide_test (blen (front ++ 0 :: 0 :: type :: rest) <? 19) false.
    assert (readUInt16BE (front ++ 0 :: 0 :: type :: rest) 16 = Ok 0) as ->
      by (rewrite <- Hf; exact (read_at 2 front [0; 0] (type :: rest) eq_refl)).
    cbn [bind_result]. replace 18 with (blen (front ++ [0; 0])) by (autorewrite with blen; lia).
    replace (front ++ 0 :: 0 :: type :: rest) with ((front ++ [0; 0]) ++ [type] ++ rest) by (by rewrite <- app_assoc).
    unfold readUInt8. by rewrite (read_at 1 (front ++ [0; 0]) [type] rest) by done. }
  revert s. induction fuel as [|f IH]; intros s; cbn [handle_loop]; change (packetBuffer (with_buffer s b)) with b; rewrite Hh; [done|].
  cbn [hd_length hd_type]. pose proof (blen_nonneg b). decide_test (blen b <? 0) false.
  change (parseBgpPacket (subarray b 0 0)) with (Some NotParsed). cbn [default from_option id].
  rewrite bf_handle_packet.
  assert (snd (handle_packet type NotParsed s) = None) as Hn.
  { unfold handle_packet. decide_test (type =? packet_type_value OPEN) false. decide_test (type =? packet_type_value KEEPALIVE) false.
    unfold seq_attempt, returns. destruct (startHoldTimer s) as [s1 o1].
    repeat case_if; try done. by destruct (handle_notification s1). }
  destruct (handle_packet type NotParsed s) as [[s1 o1] x]. cbn [fst snd] in *. subst x.
  change (subarray_from (packetBuffer (with_buffer s1 b)) 0) with b.
  change ((with_buffer s1 b) <| packetBuffer := b |>) with (with_buffer s1 b). by rewrite IH.
Qed.

(** One message at the front of the buffer. *)
Lemma handle_loop_message f s type body tail :
  u16 (BGP_HEAD_LEN + blen body) -> is_byte type ->
  handle_loop (S f) (with_buffer s (message type body ++ tail)) =
  match handle_packet type (default NotParsed (parseBgpPacket (message type body))) s with
  | (s1, out, Some e) => Some (with_buffer s1 (message type body ++ tail), out, Some e)
  | (s1, out, None) => (fun r => (fst (fst r), out ++ snd (fst r), snd r)) <$> handle_loop f (with_buffer s1 tail)
  end.
Proof.
  intros Hu Ht. pose proof (blen_message type body) as Hm. pose proof (blen_nonneg body). pose proof (blen_nonneg tail).
  set (m := message type body) in *. cbn [handle_loop]. change (packetBuffer (with_buffer s (m ++ tail))) with (m ++ tail).
  assert (parseBgpHeader (m ++ tail) = Some (Ok {| hd_length := BGP_HEAD_LEN + blen body; hd_type := type |})) as ->.
  { unfold parseBgpHeader. decide_test (blen (m ++ tail) <? BGP_HEAD_LEN) false. unfold m, message. f_equal.
    rewrite <- !app_assoc. unfold readUInt16BE.
    rewrite (read_at 2 marker (be_bytes 2 (BGP_HEAD_LEN + blen body))) by apply blen_be_bytes. cbn [bind_result].
    rewrite be_value_be_bytes by done. unfold readUInt8. rewrite app_assoc.
    change 18 with (blen (marker ++ be_bytes 2 (BGP_HEAD_LEN + blen body))).
    change ((type :: body) ++ tail) with ([type] ++ body ++ tail). by rewrite (read_at 1 _ [type]) by done. }
  cbn [hd_length hd_type]. rewrite <- Hm. decide_test (blen (m ++ tail) <? blen m) false.
  rewrite subarray_app_l, bf_handle_packet.
  destruct (handle_packet type (default NotParsed (parseBgpPacket m)) s) as [[s1 out] [e|]]; cbn [fst snd]; [done|].
  change (packetBuffer (with_buffer s1 (m ++ tail))) with (m ++ tail). by rewrite subarray_from_app.
Qed.

Lemma handle_one_message f s type body s1 out :
  packetBuffer s = [] -> u16 (BGP_HEAD_LEN + blen body) -> is_byte type ->
  handle_packet type (default NotParsed (parseBgpPacket (message type body))) s = (s1, out, None) ->
  handleBgpPacket (S (S f)) (message type body) s = Some (with_buffer s1 [], out, None).
Proof.
  intros Hb Hu Ht Hp. unfold handleBgpPacket. rewrite Hb. cbn [app].
  pose proof (handle_loop_message (S f) s type body [] Hu Ht) as Hl. rewrite app_nil_r, Hp in Hl.
  change (s <| packetBuffer := message type body |>) with (with_buffer s (message type body)). rewrite Hl.
  change (handle_loop (S f) (with_buffer s1 [])) with (Some (with_buffer s1 [], @nil bgp_effect, @None js_exn)).
  cbn [fmap option_fmap option_map fst snd]. by rewrite app_nil_r.
Qed.

(** ** Flags *)

Lemma uint31_bits a b : 0 <= a < 2 ^ 31 -> 0 <= b < 2 ^ 31 ->
  BIT_SET a b = Z.lor a b /\ 0 <= Z.lor a b < 2 ^ 31 /\ BIT_TEST a b = negb (Z.land a b =? 0).
Proof.
  intros Ha Hb.
  assert (forall x, 0 <= x < 2 ^ 31 -> to_uint32 x = x) as Hu by (intros x Hx; unfold to_uint32; apply Z.mod_small; lia).
  assert (forall x, 0 <= x < 2 ^ 31 -> to_int32 x = x) as Hi
    by (intros x Hx; unfold to_int32; rewrite Hu by lia; by decide_test (2 ^ 31 <=? x) false).
  assert (0 <= Z.lor a b < 2 ^ 31) as Hor.
  { split; [apply Z.lor_nonneg; lia|]. apply Z.log2_lt_cancel. rewrite Z.log2_lor by lia. rewrite Z.log2_pow2 by lia.
    apply Z.max_lub_lt; (destruct (Z.eq_dec a 0), (Z.eq_dec b 0); subst; try (cbn; lia); apply Z.log2_lt_pow2; lia). }
  assert (0 <= Z.land a b < 2 ^ 31) as Hand.
  { split; [apply Z.land_nonneg; lia|]. pose proof (Z.log2_land a b ltac:(lia) ltac:(lia)) as Hl.
    destruct (Z.eq_dec (Z.land a b) 0) as [->|]; [lia|]. apply Z.log2_lt_cancel. rewrite Z.log2_pow2 by lia.
    assert (0 < a) by (destruct (Z.eq_dec a 0); [subst; by rewrite Z.land_0_l in *|lia]).
    assert (Z.log2 a < 31) by (apply Z.log2_lt_pow2; lia). lia. }
  unfold BIT_SET, BIT_TEST, js_or, js_and. rewrite !(Hu a), !(Hu b) by lia. by rewrite !Hi by lia.
Qed.

Lemma bit_test_set a b c : 0 <= a < 2 ^ 31 -> 0 <= b < 2 ^ 31 -> 0 <= c < 2 ^ 31 ->
  BIT_TEST (BIT_SET a b) c = BIT_TEST a c || BIT_TEST b c.
Proof.
  intros Ha Hb Hc. destruct (uint31_bits a b Ha Hb) as (-> & Hor & _).
  destruct (uint31_bits (Z.lor a b) c Hor Hc) as (_ & _ & ->).
  destruct (uint31_bits a c Ha Hc) as (_ & _ & ->). destruct (uint31_bits b c Hb Hc) as (_ & _ & ->).
  rewrite Z.land_lor_distr_l.
  destruct (Z.land a c =? 0) eqn:E1, (Z.land b c =? 0) eqn:E2; bool_hyps; rewrite ?E1, ?E2, ?Z.lor_0_l, ?Z.lor_0_r;
    cbn [negb orb]; rewrite ?negb_true_iff; try (by apply Z.eqb_neq); try done.
  apply Z.eqb_neq. intros Hz. by apply Z.lor_eq_0_iff in Hz as [].
Qed.

Definition family_bits (flags : Z) (fs : list BGP_ADDR_FAMILY) : Z :=
  foldl (fun a f => BIT_SET a (getAddressFamilyFlag f)) flags fs.

Lemma family_flag_range f : 0 <= getAddressFamilyFlag f < 2 ^ 31.
Proof. by destruct f. Qed.

Lemma family_bits_test fs : forall flags f, 0 <= flags < 2 ^ 31 ->
  BIT_TEST (family_bits flags fs) (getAddressFamilyFlag f) =
  BIT_TEST flags (getAddressFamilyFlag f) ||
  existsb (fun g => BIT_TEST (getAddressFamilyFlag g) (getAddressFamilyFlag f)) fs.
Proof.
  induction fs as [|g fs IH]; intros flags f Hf; [by rewrite orb_false_r|].
  change (family_bits flags (g :: fs)) with (family_bits (BIT_SET flags (getAddressFamilyFlag g)) fs).
  destruct (uint31_bits flags _ Hf (family_flag_range g)) as (He & Hr & _). rewrite IH by (by rewrite He).
  rewrite bit_test_set by (done || apply family_flag_range). cbn [existsb]. by rewrite orb_assoc.
Qed.

(** The flags of the announced families tell exactly which families were announced. *)
Lemma announced_test (p : BGP_ADDR_FAMILY -> bool) f : f ∈ open_families ->
  BIT_TEST (family_bits 0 (List.filter p open_families)) (getAddressFamilyFlag f) = p f.
Proof.
  intros Hf. rewrite family_bits_test by lia. destruct (p f) eqn:Hp.
  - apply orb_true_iff. right. apply existsb_exists. exists f. rewrite filter_In, <- list_elem_of_In.
    split; [done|]. unfold open_families in Hf. by repeat (apply elem_of_cons in Hf as [->|Hf]); [..|by apply elem_of_nil in Hf].
  - apply orb_false_iff. split; [by destruct f|]. apply not_true_iff_false. rewrite existsb_exists.
    intros (g & Hg & Ht). apply filter_In in Hg as [_ Hg]. destruct (decide (g = f)) as [->|Hne]; [congruence|].
    clear - Ht Hne. by destruct f, g.
Qed.

(** ** What an OPEN does to the session *)

(** The parts of a session that capabilities do not touch. *)
Definition same_frame (s s' : BgpSession) : Prop :=
  config s' = config s /\ vrfIndex s' = vrfIndex s /\ bgp_sock s' = bgp_sock s /\ packetBuffer s' = packetBuffer s /\
  sessState s' = sessState s /\ holdTimer s' = holdTimer s /\ peers s' = peers s.

Lemma same_frame_trans a b c : same_frame a b -> same_frame b c -> same_frame a c.
Proof. unfold same_frame. intros. intuition congruence. Qed.

Lemma apply_capability_frame cap s : same_frame s (apply_capability cap s).
Proof.
  unfold apply_capability. destruct (cap_value cap) as [afi safi|a|r|l|l|]; try done.
  - destruct (getAddrFamilyType afi safi) as [[]|]; done.
  - change (same_frame s ?x) with (same_frame (set_peer_cap CAP_EXTENDED_NEXT_HOP s) x).
    generalize (set_peer_cap CAP_EXTENDED_NEXT_HOP s). clear s. induction l as [|t l IH]; [done|]. intros s. cbn [foldl].
    eapply same_frame_trans; [|apply IH]. unfold add_next_hop. by case_if.
  - change (same_frame s ?x) with (same_frame (set_peer_cap CAP_ADD_PATH s) x).
    generalize (set_peer_cap CAP_ADD_PATH s). clear s. induction l as [|[[a f] m] l IH]; [done|]. intros s. cbn [foldl].
    eapply same_frame_trans; [|apply IH]. done.
  - by case_if.
Qed.

Definition apply_capabilities (caps : list bgp_capability) (s : BgpSession) : BgpSession :=
  foldl (fun s cap => apply_capability cap s) s caps.

Lemma apply_capabilities_frame caps s : same_frame s (apply_capabilities caps s).
Proof.
  revert s. induction caps as [|c caps IH]; intros s; [done|]. cbn. eapply same_frame_trans; [apply apply_capability_frame | apply IH].
Qed.

(** The families of a list of capabilities, and its ADD-PATH modes. *)
Definition cap_family (c : bgp_capability) : option BGP_ADDR_FAMILY :=
  match cap_value c with CapMultiprotocol afi safi => getAddrFamilyType afi safi | _ => None end.
Definition cap_add_paths (c : bgp_capability) : list (Z * Z * Z) :=
  match cap_value c with CapAddPaths l => l | _ => [] end.
Definition caps_families (caps : list bgp_capability) : list BGP_ADDR_FAMILY :=
  concat (map (fun c => option_list (cap_family c)) caps).
Definition caps_add_paths (caps : list bgp_capability) : list (Z * Z * Z) := concat (map cap_add_paths caps).

Lemma bit_set_idem a b : 0 <= a < 2 ^ 31 -> 0 <= b < 2 ^ 31 -> BIT_SET (BIT_SET a b) b = BIT_SET a b.
Proof.
  intros Ha Hb. destruct (uint31_bits a b Ha Hb) as (-> & Hor & _). destruct (uint31_bits (Z.lor a b) b Hor Hb) as (-> & _).
  by rewrite <- Z.lor_assoc, Z.lor_diag.
Qed.

Lemma family_bits_range fs : forall a, 0 <= a < 2 ^ 31 -> 0 <= family_bits a fs < 2 ^ 31.
Proof.
  induction fs as [|f fs IH]; intros a Ha; [done|]. cbn. apply IH.
  by destruct (uint31_bits a _ Ha (family_flag_range f)) as (-> & ? & _).
Qed.

Lemma apply_next_hops_flags l s :
  let s' := foldl (fun s t => add_next_hop t s) s l in
  peerAddrFamilyFlags s' = peerAddrFamilyFlags s /\ peerAddPathMap s' = peerAddPathMap s.
Proof.
  revert s. induction l as [|t l IH]; intros s; [done|]. cbn [foldl]. cbn zeta. destruct (IH (add_next_hop t s)) as [-> ->].
  unfold add_next_hop. by case_if.
Qed.

Lemma apply_add_paths_flags l s :
  let s' := foldl (fun s '(afi, safi, mode) => setPeerAddPath afi safi mode s) s l in
  peerAddrFamilyFlags s' = peerAddrFamilyFlags s /\
  peerAddPathMap s' = foldl (fun m '(afi, safi, mode) => add_path_set afi safi mode m) (peerAddPathMap s) l.
Proof.
  revert s. induction l as [|[[a f] x] l IH]; intros s; [done|]. cbn [foldl]. cbn zeta.
  by destruct (IH (setPeerAddPath a f x s)) as [-> ->].
Qed.

Lemma apply_capability_flags cap s : 0 <= peerAddrFamilyFlags s < 2 ^ 31 ->
  peerAddrFamilyFlags (apply_capability cap s) = family_bits (peerAddrFamilyFlags s) (option_list (cap_family cap)) /\
  peerAddPathMap (apply_capability cap s) =
    foldl (fun m '(afi, safi, mode) => add_path_set afi safi mode m) (peerAddPathMap s) (cap_add_paths cap).
Proof.
  intros Hr. unfold apply_capability, cap_family, cap_add_paths.
  assert (BIT_SET (peerAddrFamilyFlags s) 0 = peerAddrFamilyFlags s) as H0.
  { destruct (uint31_bits (peerAddrFamilyFlags s) 0 Hr) as (-> & _); [lia|]. by rewrite Z.lor_0_r. }
  destruct (cap_value cap) as [afi safi|a|r|l|l|]; try done.
  - destruct (getAddrFamilyType afi safi) as [f|]; [|done]. split; [|by destruct f].
    change (option_list (Some f)) with [f]. cbn [family_bits foldl].
    destruct f; cbn [getAddressFamilyFlag Z.eqb set_peer_family set_peer_cap peerAddrFamilyFlags]; try done; try (by rewrite H0);
      cbn; apply bit_set_idem; lia.
  - by destruct (apply_next_hops_flags l (set_peer_cap CAP_EXTENDED_NEXT_HOP s)) as [-> ->].
  - by destruct (apply_add_paths_flags l (set_peer_cap CAP_ADD_PATH s)) as [-> ->].
  - by case_if.
Qed.

Lemma apply_capabilities_flags caps : forall s, 0 <= peerAddrFamilyFlags s < 2 ^ 31 ->
  peerAddrFamilyFlags (apply_capabilities caps s) = family_bits (peerAddrFamilyFlags s) (caps_families caps) /\
  peerAddPathMap (apply_capabilities caps s) =
    foldl (fun m '(afi, safi, mode) => add_path_set afi safi mode m) (peerAddPathMap s) (caps_add_paths caps).
Proof.
  induction caps as [|c caps IH]; intros s Hr; [done|]. destruct (apply_capability_flags c s Hr) as [H1 H2].
  change (apply_capabilities (c :: caps) s) with (apply_capabilities caps (apply_capability c s)).
  destruct (IH (apply_capability c s)) as [-> ->]; [rewrite H1; by apply family_bits_range|].
  unfold caps_families, caps_add_paths. cbn [map concat]. unfold family_bits in *. by rewrite !foldl_app, H1, H2.
Qed.

Lemma caps_families_app a b : caps_families (a ++ b) = caps_families a ++ caps_families b.
Proof. unfold caps_families. by rewrite map_app, concat_app. Qed.

Lemma caps_add_paths_app a b : caps_add_paths (a ++ b) = caps_add_paths a ++ caps_add_paths b.
Proof. unfold caps_add_paths. by rewrite map_app, concat_app. Qed.

Definition announces (c : bgp_local) (f : BGP_ADDR_FAMILY) : bool := local_cap c CAP_MULTIPROTOCOL && local_family c f.

Lemma open_caps_families c : caps_families (open_capabilities c) = List.filter (announces c) open_families.
Proof.
  unfold open_capabilities. rewrite !caps_families_app. unfold announces.
  assert (forall k v (b : bool), (forall afi safi, v <> CapMultiprotocol afi safi) ->
    caps_families (if b then [capability k v] else []) = []) as Hn.
  { intros k v b Hv. destruct b; [|done]. unfold caps_families, cap_family. cbn. by destruct v; try done; exfalso; eapply Hv. }
  rewrite !Hn by done. rewrite !app_nil_r. destruct (local_cap c CAP_MULTIPROTOCOL); cbn [andb].
  - induction open_families as [|f l IH]; [done|]. cbn [List.filter]. destruct (local_family c f); [|done].
    cbn [map]. change (caps_families (multiprotocol f :: ?x)) with (caps_families ([multiprotocol f] ++ x)).
    rewrite caps_families_app, IH. by destruct f.
  - by induction open_families.
Qed.

Lemma open_caps_add_paths c :
  caps_add_paths (open_capabilities c) = if local_cap c CAP_ADD_PATH then localAddPathMap c else [].
Proof.
  unfold open_capabilities. rewrite !caps_add_paths_app.
  assert (forall k v (b : bool), (forall l, v <> CapAddPaths l) -> caps_add_paths (if b then [capability k v] else []) = []) as Hn.
  { intros k v b Hv. destruct b; [|done]. unfold caps_add_paths, cap_add_paths. cbn. by destruct v; try done; exfalso; eapply Hv. }
  rewrite (Hn CAP_ROUTE_REFRESH), (Hn CAP_FOUR_OCTET_AS), (Hn CAP_BGP_ROLE), (Hn CAP_EXTENDED_NEXT_HOP) by done.
  rewrite app_nil_r. cbn [app].
  assert (caps_add_paths (if local_cap c CAP_MULTIPROTOCOL then map multiprotocol (List.filter (local_family c) open_families) else []) = []) as ->.
  { case_if; [|done]. unfold caps_add_paths. rewrite map_map. induction (List.filter _ _) as [|f l IH]; [done|]. cbn. by destruct f. }
  destruct (local_cap c CAP_ADD_PATH); [|done]. cbn [andb app]. destruct (localAddPathMap c) as [|x l] eqn:E; [done|].
  rewrite bool_decide_false by done. unfold caps_add_paths. cbn. by rewrite app_nil_r.
Qed.

(** ** Families the peer did not announce *)

Definition family_key (vrf : Z) (f : BGP_ADDR_FAMILY) : instance_key := (vrf, fst (getAfiAndSafi f), snd (getAfiAndSafi f)).

Definition checked_families : list BGP_ADDR_FAMILY :=
  [IPV4_UNC; IPV6_UNC; IPV4_MVPN; IPV4_LABEL_UNICAST; IPV6_MVPN; IPV4_QP; IPV6_QP; VPNV4; VPNV6; L2VPN_EVPN].

(** The peers of some families are marked when the flags lack the family. *)
Definition refused (flags : Z) (fs : list BGP_ADDR_FAMILY) (k : instance_key) : bool :=
  existsb (fun f => bool_decide (k = family_key 0 f) && negb (BIT_TEST flags (getAddressFamilyFlag f))) fs.

Definition mark (flags : Z) (fs : list BGP_ADDR_FAMILY) (p : instance_key * BGP_PEER_STATE) :=
  if refused flags fs (fst p) then (fst p, NO_NEG) else p.

Definition is_report (e : bgp_effect) : Prop := exists k st, e = PeerChange k st.

Lemma change_NO_NEG k s : NoDup (map fst (peers s)) ->
  fst (changePeerState k NO_NEG s) = s <| peers := map (fun p => if bool_decide (fst p = k) then (k, NO_NEG) else p) (peers s) |> /\
  Forall is_report (snd (changePeerState k NO_NEG s)).
Proof.
  intros Hnd. unfold changePeerState.
  assert (forall l : list (instance_key * BGP_PEER_STATE), (forall p, p ∈ l -> fst p = k -> p = (k, NO_NEG)) ->
    map (fun p => if bool_decide (fst p = k) then (k, NO_NEG) else p) l = l) as Hid.
  { intros l Hl. induction l as [|p l IH]; [done|]. cbn [map].
    rewrite IH by (intros q Hq; apply Hl; by right). f_equal. case_bool_decide as E; [|done].
    symmetry. apply Hl; [left | done]. }
  destruct (List.find _ (peers s)) as [[k' old]|] eqn:Hf.
  - apply find_some in Hf as [Hin Hk]. apply bool_decide_eq_true in Hk. cbn in Hk. subst k'.
    unfold change_state. cbn [negb]. rewrite bool_decide_false by done. cbn [negb andb].
    case_bool_decide as E; [|split; [done | by repeat econstructor]]. subst old. split; [|constructor].
    rewrite Hid; [by destruct s|]. intros [k2 st] Hp Hk2. cbn in Hk2. subst k2. f_equal.
    apply list_elem_of_In in Hin. clear Hid. revert Hnd Hin Hp. generalize (peers s) as l.
    induction l as [|[k3 st3] l IH]; intros Hnd Hin Hp; [by apply elem_of_nil in Hp|].
    cbn [map fst] in Hnd. apply list.NoDup_cons in Hnd as [Hni Hnd].
    assert (forall st', (k, st') ∈ l -> k ∈ map fst l) as Hm
      by (intros st' Hx; apply list_elem_of_In, in_map_iff; exists (k, st'); split; [done | by apply list_elem_of_In]).
    apply elem_of_cons in Hin as [E1|Hin]; apply elem_of_cons in Hp as [E2|Hp]; [congruence| | |by apply IH].
    + injection E1 as <- _. exfalso. by apply Hni, (Hm st).
    + injection E2 as <- _. exfalso. by apply Hni, (Hm NO_NEG).
  - split; [|constructor]. cbn [fst]. rewrite Hid; [by destruct s|]. intros p Hp Hk.
    apply list_elem_of_In in Hp. pose proof (List.find_none _ _ Hf p Hp) as Hx. cbn beta in Hx. by rewrite bool_decide_true in Hx.
Qed.

Lemma mark_keys flags fs l : map fst (map (mark flags fs) l) = map fst l.
Proof. rewrite map_map. apply map_ext. intros p. unfold mark. by case_if. Qed.

Lemma check_each fs : forall s, NoDup (map fst (peers s)) ->
  fst (each fs (check_family 0) s) = s <| peers := map (mark (peerAddrFamilyFlags s) fs) (peers s) |> /\
  Forall is_report (snd (each fs (check_family 0) s)).
Proof.
  induction fs as [|f fs IH]; intros s Hnd.
  { split; [|constructor]. cbn. assert (map (mark (peerAddrFamilyFlags s) []) (peers s) = peers s) as -> by (unfold mark; cbn; apply map_id). by destruct s. }
  cbn [each]. unfold seq_action.
  assert (fst (check_family 0 f s) = s <| peers := map (mark (peerAddrFamilyFlags s) [f]) (peers s) |> /\
    Forall is_report (snd (check_family 0 f s))) as [H1 H2].
  { unfold check_family, get_this. destruct (getAfiAndSafi f) as [afi safi] eqn:Hf.
    assert (family_key 0 f = (0, afi, safi)) as Hk by (unfold family_key; by rewrite Hf).
    case_if.
    - split; [|constructor]. unfold skip. cbn [fst]. replace (map (mark (peerAddrFamilyFlags s) [f]) (peers s)) with (peers s).
      + by destruct s.
      + rewrite <- (map_id (peers s)) at 1. apply map_ext. intros p. unfold mark, refused. cbn [existsb].
        rewrite E. by rewrite andb_false_r.
    - destruct (change_NO_NEG (0, afi, safi) s Hnd) as [-> Hr]. split; [|done].
      enough (map (fun p => if bool_decide (fst p = (0, afi, safi)) then (0, afi, safi, NO_NEG) else p) (peers s) =
              map (mark (peerAddrFamilyFlags s) [f]) (peers s)) as -> by done.
      apply map_ext. intros p. unfold mark, refused. cbn [existsb]. rewrite E, Hk, andb_true_r, orb_false_r.
      case_bool_decide as Ek; [|done]. by rewrite Ek. }
  destruct (check_family 0 f s) as [s1 o1]. cbn [fst snd] in H1, H2. subst s1.
  set (s1 := s <| peers := map (mark (peerAddrFamilyFlags s) [f]) (peers s) |>).
  destruct (IH s1) as [H3 H4]; [unfold s1; cbn; by rewrite mark_keys|].
  destruct (each fs (check_family 0) s1) as [s2 o2]. cbn [fst snd] in *. subst s2. split; [|by apply Forall_app].
  change (peerAddrFamilyFlags s1) with (peerAddrFamilyFlags s).
  change (peers s1) with (map (mark (peerAddrFamilyFlags s) [f]) (peers s)).
  enough (map (mark (peerAddrFamilyFlags s) fs) (map (mark (peerAddrFamilyFlags s) [f]) (peers s)) =
          map (mark (peerAddrFamilyFlags s) (f :: fs)) (peers s)) as -> by done.
  rewrite map_map. apply map_ext. intros p. unfold mark, refused. cbn [existsb].
  rewrite orb_false_r. destruct (bool_decide (fst p = family_key 0 f) && _); cbn [fst orb]; [|done].
  by case_if.
Qed.

Lemma check_families_spec s : vrfIndex s = 0 -> NoDup (map fst (peers s)) ->
  fst (check_families s) = s <| peers := map (mark (peerAddrFamilyFlags s) checked_families) (peers s) |> /\
  Forall is_report (snd (check_families s)).
Proof.
  intros Hv Hnd. unfold check_families, get_this. rewrite Hv.
  destruct (check_each checked_families s Hnd) as [H1 H2].
  change checked_families with ([IPV4_UNC; IPV6_UNC; IPV4_MVPN; IPV4_LABEL_UNICAST; IPV6_MVPN; IPV4_QP; IPV6_QP] ++ [VPNV4; VPNV6; L2VPN_EVPN]) in H1 at 1, H2.
  by rewrite each_app in H1, H2.
Qed.

(** ** Effects *)

Definition written (out : list bgp_effect) : list (list Z) :=
  concat (map (fun e => match e with SockWrite b => [b] | _ => [] end) out).
Definition routes_sent (out : list bgp_effect) : list instance_key :=
  concat (map (fun e => match e with SendRoute k => [k] | _ => [] end) out).

Lemma written_app a b : written (a ++ b) = written a ++ written b.
Proof. unfold written. by rewrite map_app, concat_app. Qed.

Lemma routes_app a b : routes_sent (a ++ b) = routes_sent a ++ routes_sent b.
Proof. unfold routes_sent. by rewrite map_app, concat_app. Qed.

Lemma reports_silent out : Forall is_report out -> written out = [] /\ routes_sent out = [].
Proof.
  induction 1 as [|e out [k [st ->]] _ [IH1 IH2]]; [done|].
  change (PeerChange k st :: out) with ([PeerChange k st] ++ out). by rewrite written_app, routes_app, IH1, IH2.
Qed.

Lemma change_reports_are st ps : Forall is_report (change_reports st ps).
Proof.
  unfold change_reports. induction ps as [|p ps IH]; [constructor|]. cbn. apply Forall_app. split; [|done].
  destruct (change_state (snd p) st); repeat econstructor.
Qed.

Lemma startHoldTimer_spec s : exists tm out,
  startHoldTimer s = (s <| holdTimer := tm |>, out) /\ written out = [] /\ routes_sent out = [].
Proof.
  unfold startHoldTimer, seq_action, clearHoldTimer, get_this, usable, skip, assign, emit, getHoldTimeMs.
  destruct s as [c v sk pb pc pf pr pt pm pe st ht ps]. destruct ht as [t|]; cbn; case_if; cbn; eexists _, _; done.
Qed.

(** ** States of the peers *)

Definition set_states (g : instance_key -> BGP_PEER_STATE) (ps : list (instance_key * BGP_PEER_STATE)) :=
  map (fun p => (fst p, g (fst p))) ps.

Lemma change_all_states st g ps : st <> IDLE ->
  change_all st (set_states g ps) = set_states (fun k => if bool_decide (g k = NO_NEG) then NO_NEG else st) ps.
Proof.
  intros Hst. unfold change_all, set_states. rewrite map_map. apply map_ext. intros p. cbn [fst snd]. f_equal.
  unfold change_state. rewrite (bool_decide_false (st = IDLE)) by done. cbn [negb andb].
  case_bool_decide as E; cbn; [by rewrite E | done].
Qed.

Lemma change_all_fresh st ps : st <> IDLE -> Forall (fun p => snd p <> NO_NEG) ps ->
  change_all st ps = set_states (fun _ => st) ps.
Proof.
  intros Hst Hps. unfold change_all, set_states. induction Hps as [|p ps Hp _ IH]; [done|]. cbn [map]. f_equal; [|done].
  f_equal. unfold change_state. rewrite (bool_decide_false (st = IDLE)), bool_decide_false by done. done.
Qed.

Lemma mark_states flags fs st ps :
  map (mark flags fs) (set_states (fun _ => st) ps) = set_states (fun k => if refused flags fs k then NO_NEG else st) ps.
Proof.
  unfold set_states. rewrite map_map. apply map_ext. intros p. unfold mark. cbn [fst]. by case_if.
Qed.

Lemma set_states_keys g ps : map fst (set_states g ps) = map fst ps.
Proof. unfold set_states. by rewrite map_map. Qed.

Lemma set_states_twice g h ps : set_states g (set_states h ps) = set_states g ps.
Proof. unfold set_states. by rewrite map_map. Qed.

Lemma set_states_ext g h ps : (forall k, g k = h k) -> set_states g ps = set_states h ps.
Proof. intros He. apply map_ext. intros p. by rewrite He. Qed.

(** ** Handling an OPEN and a KEEPALIVE *)

Lemma handle_open_spec s o t l v st k :
  bgp_sock s = Some k -> vrfIndex s = 0 -> NoDup (map fst (peers s)) -> peers s = set_states (fun _ => st) (peers s) ->
  0 <= peerAddrFamilyFlags s < 2 ^ 31 -> st <> NO_NEG ->
  let flags := family_bits (peerAddrFamilyFlags s) (caps_families (o_capabilities o)) in
  exists s' out, handle_open (Parsed t l v (BodyOpen o)) s = (s', out, None) /\
    sessState s' = OPEN_CONFIRM /\ config s' = config s /\ bgp_sock s' = Some k /\ packetBuffer s' = packetBuffer s /\
    peerAddPathMap s' = foldl (fun m '(afi, safi, mode) => add_path_set afi safi mode m) (peerAddPathMap s) (caps_add_paths (o_capabilities o)) /\
    peers s' = set_states (fun key => if refused flags checked_families key then NO_NEG else OPEN_CONFIRM) (peers s) /\
    peerType s' = (if localAs (config s) =? o_asn o then PEER_TYPE_IBGP else PEER_TYPE_EBGP) /\
    written out = [buildKeepAliveMsg] /\ routes_sent out = [].
Proof.
  intros Hk Hv Hnd Hps Hr Hst flags. unfold handle_open.
  set (s1 := apply_capabilities (o_capabilities o) s).
  destruct (apply_capabilities_flags (o_capabilities o) s Hr) as [Hf Hm].
  destruct (apply_capabilities_frame (o_capabilities o) s) as (F1 & F2 & F3 & F4 & F5 & F6 & F7). fold s1 in Hf, Hm, F1, F2, F3, F4, F5, F6, F7.
  destruct (check_families_spec s1) as [Hc Hrep]; [congruence | by rewrite F7|].
  destruct (check_families s1) as [s2 o2] eqn:E2. cbn [fst snd] in Hc, Hrep.
  destruct (reports_silent o2 Hrep) as [W2 R2].
  destruct (reports_silent (change_reports OPEN_CONFIRM (peers s2)) (change_reports_are _ _)) as [W3 R3].
  eexists _, _. split.
  - apply (seq_returns _ _ _ s1 []); [done|]. apply (seq_returns _ _ _ s2 o2); [done|].
    unfold seq_attempt at 1. unfold sendKeepAliveMsg, sock_write, attempt_this.
    assert (bgp_sock s2 = Some k) as -> by (rewrite Hc; cbn; congruence).
    unfold returns at 1, emit. cbn beta iota. unfold seq_attempt, returns, changeSessionFsmState, assign. reflexivity.
  - rewrite !written_app, !routes_app, W2, R2, W3, R3. cbn [written routes_sent map concat app].
    set (s3 := s2 <| peers := change_all OPEN_CONFIRM (peers s2) |> <| sessState := OPEN_CONFIRM |>).
    assert (config s3 = config s /\ bgp_sock s3 = Some k /\ packetBuffer s3 = packetBuffer s /\
      peerAddPathMap s3 = peerAddPathMap s1) as (G1 & G2 & G3 & G4) by (unfold s3; rewrite Hc; cbn; split_and!; congruence).
    cbn [config]. change (config (s3 <| peerType := ?x |>)) with (config s3).
    split_and!; try done; [by rewrite <- Hm | | by rewrite <- G1].
    change (peers s3 = set_states (fun key => if refused flags checked_families key then NO_NEG else OPEN_CONFIRM) (peers s)).
    unfold s3. cbn [peers]. change (change_all OPEN_CONFIRM (peers s2) =
      set_states (fun key => if refused flags checked_families key then NO_NEG else OPEN_CONFIRM) (peers s)).
    assert (peers s2 = set_states (fun key => if refused flags checked_families key then NO_NEG else st) (peers s)) as ->.
    { rewrite Hc. change (peers (s1 <| peers := ?x |>)) with x. rewrite F7, Hf. fold flags. rewrite Hps, mark_states.
      by rewrite set_states_twice. }
    rewrite change_all_states by done. apply set_states_ext. intros key.
    destruct (refused flags checked_families key); [by rewrite bool_decide_true | by rewrite bool_decide_false].
Qed.

Lemma route_effects (l : list (instance_key * BGP_PEER_STATE)) :
  written (map (fun p => SendRoute (fst p)) l) = [] /\ routes_sent (map (fun p => SendRoute (fst p)) l) = map fst l.
Proof.
  unfold written, routes_sent. rewrite !map_map. cbn. split; [by induction l|]. induction l as [|p l IH]; [done|]. cbn. by rewrite IH.
Qed.

Lemma handle_keepalive_spec s k g :
  bgp_sock s = Some k -> sessState s = OPEN_CONFIRM -> peers s = set_states g (peers s) ->
  exists s' out, handle_keepalive s = (s', out, None) /\ sessState s' = ESTABLISHED /\ config s' = config s /\
    packetBuffer s' = packetBuffer s /\ peerAddPathMap s' = peerAddPathMap s /\ peerType s' = peerType s /\
    peers s' = set_states (fun key => if bool_decide (g key = NO_NEG) then NO_NEG else ESTABLISHED) (peers s) /\
    written out = [buildKeepAliveMsg] /\ routes_sent out = map fst (peers s).
Proof.
  intros Hk Hst Hps.
  assert (change_all ESTABLISHED (peers s) =
    set_states (fun key => if bool_decide (g key = NO_NEG) then NO_NEG else ESTABLISHED) (peers s)) as Hall
    by (rewrite Hps at 1; by apply change_all_states).
  destruct (reports_silent (change_reports ESTABLISHED (peers s)) (change_reports_are _ _)) as [W R].
  eexists _, _. split.
  - unfold handle_keepalive, seq_attempt at 1, sendKeepAliveMsg, sock_write, attempt_this. rewrite Hk.
    unfold returns at 1, emit. cbn beta iota. rewrite bool_decide_true by done.
    unfold seq_attempt, returns, changeSessionFsmState. reflexivity.
  - set (s' := s <| peers := change_all ESTABLISHED (peers s) |> <| sessState := ESTABLISHED |>).
    change (peers s') with (change_all ESTABLISHED (peers s)). destruct (route_effects (change_all ESTABLISHED (peers s))) as [W2 R2].
    rewrite !written_app, !routes_app, W, R, W2, R2. split_and!; try done. cbn [routes_sent map concat app]. rewrite Hall. apply set_states_keys.
Qed.

Lemma connect_spec ipToBytes id s openMsg :
  buildOpenMsg ipToBytes (config s) = Ok openMsg -> Forall (fun p => snd p <> NO_NEG) (peers s) ->
  exists s' out, tcpConnectSuccess ipToBytes id s = (s', out, None) /\ sessState s' = OPEN_SENT /\ config s' = config s /\
    vrfIndex s' = vrfIndex s /\ bgp_sock s' = Some {| sock_id := id; sock_destroyed := false |} /\ packetBuffer s' = [] /\
    peerAddrFamilyFlags s' = 0 /\ peerAddPathMap s' = [] /\ peers s' = set_states (fun _ => OPEN_SENT) (peers s) /\
    written out = [openMsg] /\ routes_sent out = [].
Proof.
  intros Ho Hps. unfold tcpConnectSuccess.
  set (s1 := s <| bgp_sock := Some {| sock_id := id; sock_destroyed := false |} |> <| packetBuffer := [] |>
    <| peerCapFlags := 0 |> <| peerAddrFamilyFlags := 0 |> <| peerAddPathMap := [] |>
    <| peerExtendedNextHopFamilies := [] |> <| peerRole := ROLE_INVALID |>).
  set (s2 := s1 <| peers := change_all CONNECT (peers s1) |> <| sessState := CONNECT |>).
  set (s3 := s2 <| peers := change_all OPEN_SENT (peers s2) |> <| sessState := OPEN_SENT |>).
  destruct (startHoldTimer_spec s3) as (tm & o3 & E3 & W3 & R3).
  destruct (reports_silent (change_reports CONNECT (peers s1)) (change_reports_are _ _)) as [W1 R1].
  destruct (reports_silent (change_reports OPEN_SENT (peers s2)) (change_reports_are _ _)) as [W2 R2].
  assert (peers s3 = set_states (fun _ => OPEN_SENT) (peers s)) as Hp3.
  { change (peers s3) with (change_all OPEN_SENT (change_all CONNECT (peers s))).
    rewrite (change_all_fresh CONNECT), change_all_states by done. by apply set_states_ext. }
  eexists _, _. split.
  - apply (seq_returns _ _ _ s1 []); [done|]. apply (seq_returns _ _ _ s2 (change_reports CONNECT (peers s1))); [done|].
    unfold seq_attempt at 1, sendOpenMsg, attempt_this. change (config s2) with (config s). rewrite Ho.
    unfold sock_write, attempt_this. change (bgp_sock s2) with (Some {| sock_id := id; sock_destroyed := false |}).
    unfold returns at 1, emit. cbn beta iota. unfold seq_attempt at 1, returns at 1, changeSessionFsmState. fold s3.
    unfold returns. rewrite E3. reflexivity.
  - rewrite !written_app, !routes_app, W1, W2, W3, R1, R2, R3.
    assert (forall st, sessState (s3 <| holdTimer := st |>) = OPEN_SENT /\ peers (s3 <| holdTimer := st |>) = peers s3) as Hh by done.
    by rewrite (proj2 (Hh tm)), Hp3.
Qed.

(** An OPEN message received by a session that is waiting for it. *)
Lemma receive_open ipToBytes s st k c openMsg f r1 r2 r3 r4 :
  bgp_sock s = Some k -> vrfIndex s = 0 -> NoDup (map fst (peers s)) -> peers s = set_states (fun _ => st) (peers s) ->
  st <> NO_NEG -> packetBuffer s = [] -> peerAddrFamilyFlags s = 0 -> peerAddPathMap s = [] ->
  config_ok c -> ipToBytes (routerId c) = Ok [r1; r2; r3; r4] -> bytes_ok [r1; r2; r3; r4] ->
  buildOpenMsg ipToBytes c = Ok openMsg ->
  exists s' out, handleBgpPacket (S (S f)) openMsg s = Some (s', out, None) /\ sessState s' = OPEN_CONFIRM /\
    config s' = config s /\ bgp_sock s' = Some k /\ packetBuffer s' = [] /\
    peerAddPathMap s' = foldl (fun m '(afi, safi, mode) => add_path_set afi safi mode m) []
                          (if local_cap c CAP_ADD_PATH then localAddPathMap c else []) /\
    peers s' = set_states (fun key =>
      if existsb (fun f => bool_decide (key = family_key 0 f) && negb (announces c f)) checked_families
      then NO_NEG else OPEN_CONFIRM) (peers s) /\
    peerType s' = (if localAs (config s) =? localAs c mod 65536 then PEER_TYPE_IBGP else PEER_TYPE_EBGP) /\
    written out = [buildKeepAliveMsg] /\ routes_sent out = [].
Proof.
  intros Hk Hv Hnd Hps Hst Hb Hf Hm Hc Hip Hr Ho.
  pose proof (build_open ipToBytes c r1 r2 r3 r4 Hc Hip Hr) as Hbo. cbn zeta in Hbo. rewrite Ho in Hbo. injection Hbo as Hmsg.
  assert (parseBgpPacket openMsg = Some (Parsed (packet_type_value OPEN) (blen openMsg) true
      (BodyOpen {| o_version := BGP_VERSION; o_asn := localAs c mod 65536; o_holdTime := holdTime c;
                   o_routerId := dotted r1 r2 r3 r4; o_optParamLen := parameters_length (open_capabilities c);
                   o_capabilities := open_capabilities c |}))) as Hparse.
  { destruct (open_read_back ipToBytes c r1 r2 r3 r4 Hc Hip Hr) as (b & Hb1 & Hb2). rewrite Ho in Hb1. injection Hb1 as <-. exact Hb2. }
  destruct (startHoldTimer_spec s) as (tm & o0 & E0 & W0 & R0).
  set (s0 := s <| holdTimer := tm |>).
  set (o := {| o_version := BGP_VERSION; o_asn := localAs c mod 65536; o_holdTime := holdTime c;
               o_routerId := dotted r1 r2 r3 r4; o_optParamLen := parameters_length (open_capabilities c);
               o_capabilities := open_capabilities c |}) in *.
  destruct (handle_open_spec s0 o (packet_type_value OPEN) (blen openMsg) true st k Hk Hv Hnd Hps)
    as (s1 & o1 & E1 & S1 & C1 & K1 & B1 & M1 & P1 & T1 & W1 & R1);
    [change (peerAddrFamilyFlags s0) with (peerAddrFamilyFlags s); lia | done|].
  exists (with_buffer s1 []), (o0 ++ o1). split.
  - rewrite Hmsg in Hparse |- *. apply handle_one_message; [done| |done|].
    + pose proof (open_parameters_fit c Hc) as Hfit. unfold parameters_length in Hfit. unfold u16, BGP_HEAD_LEN.
      autorewrite with blen. pose proof (blen_nonneg (concat (map enc_parameter (open_capabilities c)))). lia.
    + rewrite Hparse. cbn [default from_option id]. unfold handle_packet. cbn [packet_type_value Z.eqb Pos.eqb].
      apply (seq_returns _ _ _ s0 o0); [exact E0|]. rewrite <- Hmsg. exact E1.
  - rewrite written_app, routes_app, W0, R0, W1, R1. split_and!; try done.
    + change (peerAddPathMap s0) with (peerAddPathMap s) in M1. rewrite Hm in M1.
      cbn [o_capabilities o] in M1. rewrite open_caps_add_paths in M1. exact M1.
    + change (peers (with_buffer s1 [])) with (peers s1). rewrite P1. apply set_states_ext. intros key.
      change (peerAddrFamilyFlags s0) with (peerAddrFamilyFlags s). rewrite Hf. cbn [o_capabilities o]. rewrite open_caps_families.
      unfold refused. enough (forall f, f ∈ checked_families -> BIT_TEST (family_bits 0 (List.filter (announces c) open_families))
        (getAddressFamilyFlag f) = announces c f) as Hbit.
      { assert (forall l, (forall f, f ∈ l -> f ∈ checked_families) ->
          existsb (fun f => bool_decide (key = family_key 0 f) && negb (BIT_TEST (family_bits 0 (List.filter (announces c) open_families)) (getAddressFamilyFlag f))) l =
          existsb (fun f => bool_decide (key = family_key 0 f) && negb (announces c f)) l) as ->; [|done|done].
        induction l as [|f' l IH]; intros Hl; [done|]. cbn [existsb]. rewrite IH by (intros; apply Hl; by right).
        by rewrite Hbit by (apply Hl; left). }
      intros f' Hf'. apply announced_test. unfold checked_families, open_families in *.
      repeat (apply elem_of_cons in Hf' as [->|Hf']); [..|by apply elem_of_nil in Hf'];
      repeat (first [apply list_elem_of_here | apply list_elem_of_further]).
Qed.

(** ** The handshake *)

Section Handshake.
Context (ipToBytes : list Z -> result (list Z)).

(** A configured session that is not connected. *)
Record ready (s : BgpSession) : Prop := {
  rd_config : config_ok (config s);
  rd_router : exists r1 r2 r3 r4, ipToBytes (routerId (config s)) = Ok [r1; r2; r3; r4] /\ bytes_ok [r1; r2; r3; r4];
  rd_vrf : vrfIndex s = 0;
  rd_keys : NoDup (map fst (peers s));
  rd_states : Forall (fun p => snd p <> NO_NEG) (peers s)
}.

Lemma ready_open s : ready s -> exists b, buildOpenMsg ipToBytes (config s) = Ok b.
Proof. intros [Hc (r1 & r2 & r3 & r4 & Hip & Hr) _ _ _]. eexists. by apply (build_open _ _ r1 r2 r3 r4). Qed.

(** Connecting and receiving the OPEN of the other side. *)
Lemma exchange s id c openMine openTheirs f :
  ready s -> config_ok c -> (exists r1 r2 r3 r4, ipToBytes (routerId c) = Ok [r1; r2; r3; r4] /\ bytes_ok [r1; r2; r3; r4]) ->
  buildOpenMsg ipToBytes (config s) = Ok openMine -> buildOpenMsg ipToBytes c = Ok openTheirs ->
  exists s1 o1 s2 o2, tcpConnectSuccess ipToBytes id s = (s1, o1, None) /\ sessState s1 = OPEN_SENT /\
    handleBgpPacket (S (S f)) openTheirs s1 = Some (s2, o2, None) /\ sessState s2 = OPEN_CONFIRM /\
    config s2 = config s /\ bgp_sock s2 = Some {| sock_id := id; sock_destroyed := false |} /\ packetBuffer s2 = [] /\
    peerAddPathMap s2 = foldl (fun m '(afi, safi, mode) => add_path_set afi safi mode m) []
                          (if local_cap c CAP_ADD_PATH then localAddPathMap c else []) /\
    peers s2 = set_states (fun key =>
      if existsb (fun f => bool_decide (key = family_key 0 f) && negb (announces c f)) checked_families
      then NO_NEG else OPEN_CONFIRM) (peers s) /\
    peerType s2 = (if localAs (config s) =? localAs c mod 65536 then PEER_TYPE_IBGP else PEER_TYPE_EBGP) /\
    written (o1 ++ o2) = [openMine; buildKeepAliveMsg] /\ routes_sent (o1 ++ o2) = [].
Proof.
  intros [Hcf _ Hv Hnd Hst] Hc (r1 & r2 & r3 & r4 & Hip & Hr) Hmine Htheirs.
  destruct (connect_spec ipToBytes id s openMine Hmine Hst) as (s1 & o1 & E1 & S1 & C1 & V1 & K1 & B1 & F1 & M1 & P1 & W1 & R1).
  destruct (receive_open ipToBytes s1 OPEN_SENT {| sock_id := id; sock_destroyed := false |} c openTheirs f r1 r2 r3 r4)
    as (s2 & o2 & E2 & S2 & C2 & K2 & B2 & M2 & P2 & T2 & W2 & R2); try done.
  - congruence.
  - by rewrite P1, set_states_keys.
  - by rewrite P1, set_states_twice.
  - exists s1, o1, s2, o2. rewrite written_app, routes_app, W1, W2, R1, R2. split_and!; try done; try congruence.
    + rewrite P2, P1. apply set_states_twice.
    + by rewrite T2, C1.
Qed.

(** C9: the handshake establishes the session.  A configured session that is connected
    sends its OPEN; on the OPEN of any properly configured peer it answers with a
    KEEPALIVE and waits in OpenConfirm; on the first KEEPALIVE it is Established and
    starts sending routes for each of its peers.  Then the peers of the families the
    other side announced are Established, those of the other negotiable families are
    marked as not negotiated, and nothing but the OPEN and two KEEPALIVEs was sent. *)
Theorem bgp_handshake s id c openMine openTheirs f :
  ready s -> config_ok c -> (exists r1 r2 r3 r4, ipToBytes (routerId c) = Ok [r1; r2; r3; r4] /\ bytes_ok [r1; r2; r3; r4]) ->
  buildOpenMsg ipToBytes (config s) = Ok openMine -> buildOpenMsg ipToBytes c = Ok openTheirs ->
  exists s1 o1 s2 o2 s3 o3,
    tcpConnectSuccess ipToBytes id s = (s1, o1, None) /\ sessState s1 = OPEN_SENT /\
    handleBgpPacket (S (S f)) openTheirs s1 = Some (s2, o2, None) /\ sessState s2 = OPEN_CONFIRM /\
    handleBgpPacket (S (S f)) buildKeepAliveMsg s2 = Some (s3, o3, None) /\ sessState s3 = ESTABLISHED /\
    written (o1 ++ o2 ++ o3) = [openMine; buildKeepAliveMsg; buildKeepAliveMsg] /\
    routes_sent (o1 ++ o2) = [] /\ routes_sent o3 = map fst (peers s) /\
    peers s3 = map (fun p => (fst p,
      if existsb (fun f => bool_decide (fst p = family_key 0 f) && negb (announces c f)) checked_families
      then NO_NEG else ESTABLISHED)) (peers s).
Proof.
  intros Hs Hc Hr Hmine Htheirs.
  destruct (exchange s id c openMine openTheirs f Hs Hc Hr Hmine Htheirs)
    as (s1 & o1 & s2 & o2 & E1 & S1 & E2 & S2 & C2 & K2 & B2 & M2 & P2 & T2 & W2 & R2).
  destruct (startHoldTimer_spec s2) as (tm & o0 & E0 & W0 & R0).
  set (g := fun key => if existsb (fun f => bool_decide (key = family_key 0 f) && negb (announces c f)) checked_families
                       then NO_NEG else OPEN_CONFIRM) in P2.
  destruct (handle_keepalive_spec (s2 <| holdTimer := tm |>) {| sock_id := id; sock_destroyed := false |} g)
    as (s3 & o3 & E3 & S3 & _ & B3 & _ & _ & P3 & W3 & R3); [done | done | |].
  { change (peers (s2 <| holdTimer := tm |>)) with (peers s2). rewrite P2. by rewrite set_states_twice. }
  exists s1, o1, s2, o2, (with_buffer s3 []), (o0 ++ o3). split_and!; try done.
  - apply (handle_one_message f s2 (packet_type_value KEEPALIVE) []); [done | done | done |].
    change (parseBgpPacket (message (packet_type_value KEEPALIVE) [])) with (Some (Parsed 4 19 true BodyKeepalive)).
    change (default NotParsed (Some (Parsed 4 19 true BodyKeepalive))) with (Parsed 4 19 true BodyKeepalive). unfold handle_packet. cbn [packet_type_value Z.eqb Pos.eqb].
    apply (seq_returns _ _ _ (s2 <| holdTimer := tm |>) o0); [exact E0 | exact E3].
  - rewrite app_assoc, written_app, W2, written_app, W0, W3. done.
  - rewrite routes_app, R0, R3. change (peers (s2 <| holdTimer := tm |>)) with (peers s2). rewrite P2. apply set_states_keys.
  - change (peers (with_buffer s3 [])) with (peers s3). rewrite P3. change (peers (s2 <| holdTimer := tm |>)) with (peers s2).
    rewrite P2, set_states_twice. apply map_ext. intros p. f_equal. unfold g.
    destruct (existsb _ checked_families); [by rewrite bool_decide_true | by rewrite bool_decide_false].
Qed.

Lemma add_path_fold l : forall acc, NoDup (map fst (acc ++ l)) ->
  foldl (fun m '(afi, safi, mode) => add_path_set afi safi mode m) acc l = acc ++ l.
Proof.
  induction l as [|[[a f] x] l IH]; intros acc Hnd; [by rewrite app_nil_r|]. cbn [foldl].
  assert (add_path_set a f x acc = acc ++ [(a, f, x)]) as ->.
  { rewrite map_app in Hnd. cbn [map fst] in Hnd. apply list.NoDup_app in Hnd as (_ & Hd & _). clear IH.
    induction acc as [|[[a' f'] x'] acc IHa]; [done|]. cbn [add_path_set].
    case_if. { bool_hyps. subst. exfalso. apply (Hd (a, f)); [by left | by left]. }
    cbn [app]. f_equal. apply IHa. intros k Hk. apply Hd. by right. }
  rewrite IH; [by rewrite <- app_assoc|]. by rewrite <- app_assoc.
Qed.

(** A configuration that has ADD-PATH modes announces the capability. *)
Definition add_path_config (c : bgp_local) : Prop :=
  NoDup (map fst (localAddPathMap c)) /\ (local_cap c CAP_ADD_PATH = false -> localAddPathMap c = []).

(** C10: the two ends agree on ADD-PATH.  After two configured sessions connected and
    received each other's OPEN, one sends path identifiers for an address family
    exactly if the other expects to receive them, in both directions. *)
Theorem bgp_add_path_agreement sa sb ida idb f afi safi :
  ready sa -> ready sb -> add_path_config (config sa) -> add_path_config (config sb) ->
  exists openA openB sa1 oa1 sa2 oa2 sb1 ob1 sb2 ob2,
    buildOpenMsg ipToBytes (config sa) = Ok openA /\ buildOpenMsg ipToBytes (config sb) = Ok openB /\
    tcpConnectSuccess ipToBytes ida sa = (sa1, oa1, None) /\ tcpConnectSuccess ipToBytes idb sb = (sb1, ob1, None) /\
    handleBgpPacket (S (S f)) openB sa1 = Some (sa2, oa2, None) /\
    handleBgpPacket (S (S f)) openA sb1 = Some (sb2, ob2, None) /\
    isAddPathSendEnabled sa2 afi safi = isAddPathReceiveEnabled sb2 afi safi /\
    isAddPathReceiveEnabled sa2 afi safi = isAddPathSendEnabled sb2 afi safi.
Proof.
  intros Ha Hb [Na Ca] [Nb Cb]. destruct (ready_open sa Ha) as [openA Oa]. destruct (ready_open sb Hb) as [openB Ob].
  destruct (exchange sa ida (config sb) openA openB f Ha (rd_config _ Hb) (rd_router _ Hb) Oa Ob)
    as (sa1 & oa1 & sa2 & oa2 & A1 & _ & A2 & _ & Ac & _ & _ & Am & _).
  destruct (exchange sb idb (config sa) openB openA f Hb (rd_config _ Ha) (rd_router _ Ha) Ob Oa)
    as (sb1 & ob1 & sb2 & ob2 & B1 & _ & B2 & _ & Bc & _ & _ & Bm & _).
  assert (forall c, NoDup (map fst (localAddPathMap c)) -> (local_cap c CAP_ADD_PATH = false -> localAddPathMap c = []) ->
    foldl (fun m '(afi, safi, mode) => add_path_set afi safi mode m) [] (if local_cap c CAP_ADD_PATH then localAddPathMap c else []) =
    localAddPathMap c) as Hmap.
  { intros c Hn Hc. destruct (local_cap c CAP_ADD_PATH); [by apply (add_path_fold _ [])|]. by rewrite Hc. }
  rewrite Hmap in Am, Bm by done.
  exists openA, openB, sa1, oa1, sa2, oa2, sb1, ob1, sb2, ob2. split_and!; try done;
    unfold isAddPathSendEnabled, isAddPathReceiveEnabled; by rewrite Am, Bm, Ac, Bc.
Qed.

(** the peer type compares the whole local AS number with the low 16 bits of the
    other side's.  Between two sessions of the same AS number above 65535 each end
    classifies the other as external, although the OPEN carried the four-octet
    number. *)
Theorem bgp_same_as_external s id c openMine openTheirs f :
  ready s -> config_ok c -> (exists r1 r2 r3 r4, ipToBytes (routerId c) = Ok [r1; r2; r3; r4] /\ bytes_ok [r1; r2; r3; r4]) ->
  buildOpenMsg ipToBytes (config s) = Ok openMine -> buildOpenMsg ipToBytes c = Ok openTheirs ->
  localAs (config s) = localAs c -> 65536 <= localAs c ->
  exists s1 o1 s2 o2, tcpConnectSuccess ipToBytes id s = (s1, o1, None) /\
    handleBgpPacket (S (S f)) openTheirs s1 = Some (s2, o2, None) /\ peerType s2 = PEER_TYPE_EBGP.
Proof.
  intros Hs Hc Hr Hmine Htheirs He Hbig.
  destruct (exchange s id c openMine openTheirs f Hs Hc Hr Hmine Htheirs)
    as (s1 & o1 & s2 & o2 & E1 & _ & E2 & _ & _ & _ & _ & _ & _ & T2 & _).
  exists s1, o1, s2, o2. split_and!; [done | done|]. rewrite T2, He.
  pose proof (Z.mod_pos_bound (localAs c) 65536 ltac:(lia)). by decide_test (localAs c =? localAs c mod 65536) false.
Qed.
End Handshake.

(** ** The session and its peers over time *)

(** The events of a session: a connection, received bytes, the hold timer, the end of a
    connection, a socket destroyed by the system, and a new configuration
    ([clearSession(); resetSession();] and fresh peers). *)
Inductive bgp_step (ipToBytes : list Z -> result (list Z)) : BgpSession -> list bgp_effect -> BgpSession -> Prop :=
| StepConnect id s s' o : tcpConnectSuccess ipToBytes id s = (s', o, None) -> bgp_step ipToBytes s o s'
| StepData fuel b s s' o : handleBgpPacket fuel b s = Some (s', o, None) -> bgp_step ipToBytes s o s'
| StepTimer t s s' o : holdTimer s = Some t -> handleHoldTimerExpired s = (s', o) -> bgp_step ipToBytes s o s'
| StepClosed id s s' o : handleSocketClosed id s = (s', o) -> bgp_step ipToBytes s o s'
| StepSocketFails k s : bgp_sock s = Some k ->
    bgp_step ipToBytes s [] (s <| bgp_sock := Some {| sock_id := sock_id k; sock_destroyed := true |} |>)
| StepConfigure c keys s s1 o : (clearSession ;;; resetSession) s = (s1, o) ->
    bgp_step ipToBytes s o (s1 <| config := c |> <| peers := map (fun k => (k, IDLE)) keys |>).

Inductive bgp_reachable (ipToBytes : list Z -> result (list Z)) : BgpSession -> Prop :=
| reach_new c keys : bgp_reachable ipToBytes (BgpSession_new c keys)
| reach_step s o s' : bgp_reachable ipToBytes s -> bgp_step ipToBytes s o s' -> bgp_reachable ipToBytes s'.

Definition peers_ok (s : BgpSession) : Prop :=
  Forall (fun p => snd p = NO_NEG \/ snd p = sessState s \/ (bgp_sock s = None /\ snd p = IDLE)) (peers s).
Definition timer_ok (s : BgpSession) : Prop := bgp_sock s = None -> holdTimer s = None.

Lemma change_session_peers st s : peers_ok (fst (changeSessionFsmState st s)).
Proof.
  unfold peers_ok, changeSessionFsmState. cbn. unfold change_all. apply Forall_map, Forall_true. intros p. cbn.
  unfold change_state. case_bool_decide; cbn; [by right; left|]. case_bool_decide; cbn; [by left | by right; left].
Qed.

Lemma clear_timer_eq s : fst (clearHoldTimer s) = s <| holdTimer := None |>.
Proof. unfold clearHoldTimer. destruct s as [? ? ? ? ? ? ? ? ? ? ? [t|] ?]; done. Qed.

Lemma start_timer_eq s : exists tm, fst (startHoldTimer s) = s <| holdTimer := tm |> /\ (bgp_sock s = None -> tm = None).
Proof.
  unfold startHoldTimer, seq_action, clearHoldTimer, get_this, usable, skip, assign, emit, getHoldTimeMs.
  destruct s as [c v [sk|] pb pc pf pr pt pm pe st [t|] ps]; cbn; repeat case_if; cbn; eexists; (split; [reflexivity | done]).
Qed.

Lemma check_families_frame s : bgp_sock (fst (check_families s)) = bgp_sock s /\ holdTimer (fst (check_families s)) = holdTimer s.
Proof.
  assert (forall vrf fs, keeps (fun x => bgp_sock x = bgp_sock s /\ holdTimer x = holdTimer s) (fun _ => True) (each fs (check_family vrf))) as Hk.
  { intros vrf fs. apply keeps_each. intros f x Hx. unfold check_family, get_this. case_if; [by split; [|constructor]|].
    destruct (getAfiAndSafi f) as [afi safi]. unfold changePeerState. destruct (List.find _ _) as [[k old]|]; [|by split; [|constructor]].
    destruct (change_state old NO_NEG); split; try done; by repeat constructor. }
  unfold check_families, get_this. refine (proj1 (keeps_seq _ _ _ _ (Hk 0 _) (Hk (vrfIndex s) _) s _)). done.
Qed.

Lemma handle_packet_ok type parsed s s' o :
  handle_packet type parsed s = (s', o, None) -> peers_ok s -> timer_ok s -> peers_ok s' /\ timer_ok s'.
Proof.
  intros He Hp Ht. unfold handle_packet, seq_attempt at 1, returns at 1 in He.
  destruct (start_timer_eq s) as (tm & Hs & Htm). destruct (startHoldTimer s) as [s0 o0]. cbn [fst] in Hs. subst s0.
  set (s0 := s <| holdTimer := tm |>) in *.
  assert (peers_ok s0 /\ timer_ok s0) as [Hp0 Ht0] by done.
  destruct (type =? packet_type_value OPEN).
  { destruct parsed as [t l v []| |]; try done. unfold handle_open in He.
    unfold seq_attempt, returns, assign, sendKeepAliveMsg, sock_write, attempt_this in He.
    fold (apply_capabilities (o_capabilities o1) s0) in He.
    destruct (apply_capabilities_frame (o_capabilities o1) s0) as (_ & _ & Hk & _ & _ & Hh & _).
    destruct (check_families_frame (apply_capabilities (o_capabilities o1) s0)) as [Hk2 Hh2].
    destruct (check_families (apply_capabilities (o_capabilities o1) s0)) as [s2 o2]. cbn [fst] in Hk2, Hh2.
    destruct (bgp_sock s2) eqn:Esk; [|done]. unfold emit in He. pose proof (change_session_peers OPEN_CONFIRM s2) as Hc.
    unfold changeSessionFsmState in *. injection He as <- _. split; [exact Hc|]. unfold timer_ok. cbn. by rewrite Esk. }
  destruct (type =? packet_type_value KEEPALIVE).
  { unfold handle_keepalive, seq_attempt at 1, sendKeepAliveMsg, sock_write, attempt_this in He.
    destruct (bgp_sock s0) eqn:Esk; [|done]. unfold returns at 1, emit in He.
    case_bool_decide.
    - pose proof (change_session_peers ESTABLISHED s0) as Hc. unfold seq_attempt, returns, changeSessionFsmState in *.
      injection He as <- _. split; [exact Hc|]. intros Hx. change (bgp_sock s0 = None) in Hx. congruence.
    - unfold returns, skip in He. by injection He as <- _. }
  destruct (type =? packet_type_value NOTIFICATION).
  { unfold returns, handle_notification, seq_action in He. pose proof (clear_timer_eq s0) as Hc.
    destruct (clearHoldTimer s0) as [s1 o1]. cbn [fst] in Hc. subst s1. unfold resetPeer, drop_socket in He. cbn in He.
    assert (forall x, Forall (fun p => snd p = NO_NEG \/ snd p = sessState x \/ (None = @None bgp_socket /\ snd p = IDLE))
      (map (fun p : instance_key * BGP_PEER_STATE => (fst p, IDLE)) (peers s))) as Hidle
      by (intros x; apply Forall_map, Forall_true; intros p; by right; right).
    destruct (bgp_sock s) as [sk|] eqn:Esk; injection He as <- _; (split; [|done]); unfold peers_ok; cbn; rewrite ?Esk; apply (Hidle s). }
  destruct (type =? packet_type_value ROUTE_REFRESH).
  - unfold returns in He. assert (fst (handle_route_refresh parsed s0) = s0) as Hr.
    { destruct parsed as [t l v []| |]; try done. unfold handle_route_refresh, get_this. by case_if. }
    destruct (handle_route_refresh parsed s0) as [s1 o1]. cbn [fst] in Hr. subst s1. by injection He as <- _.
  - unfold returns, skip in He. by injection He as <- _.
Qed.

Lemma handle_loop_ok f : forall s s' o, handle_loop f s = Some (s', o, None) -> peers_ok s -> timer_ok s -> peers_ok s' /\ timer_ok s'.
Proof.
  induction f as [|f IH]; intros s s' o He Hp Ht; cbn [handle_loop] in He;
    (destruct (parseBgpHeader (packetBuffer s)) as [[h|]|]; [|done | by injection He as <- _]); [done|].
  destruct (blen (packetBuffer s) <? hd_length h); [by injection He as <- _|].
  destruct (handle_packet _ _ s) as [[s1 o1] [e|]] eqn:E1; [done|].
  destruct (handle_packet_ok _ _ _ _ _ E1 Hp Ht) as [Hp1 Ht1].
  destruct (handle_loop f _) as [[[s2 o2] x2]|] eqn:E2; [|done]. cbn in He. injection He as <- <- ->.
  by apply IH in E2.
Qed.

Lemma notification_eq a b s : sendNotification a b s = (s, snd (sendNotification a b s)).
Proof. unfold sendNotification, get_this. case_if; [|done]. by destruct (buildNotificationMsg a b). Qed.

Lemma reset_ok s s1 o : (clearSession ;;; resetSession) s = (s1, o) -> bgp_sock s1 = None /\ holdTimer s1 = None.
Proof.
  unfold seq_action at 1. unfold clearSession, seq_action at 1. pose proof (clear_timer_eq s) as Hc.
  destruct (clearHoldTimer s) as [s2 o2]. cbn [fst] in Hc. subst s2. unfold assign.
  match goal with |- context [resetSession ?x] => set (s3 := x) end.
  assert (holdTimer s3 = None) as Hh by done.
  unfold resetSession, seq_action at 1. pose proof (clear_timer_eq s3) as Hc.
  destruct (clearHoldTimer s3) as [s4 o4]. cbn [fst] in Hc. unfold get_this.
  assert (holdTimer s4 = None) as Hh4 by (by rewrite Hc).
  destruct (bgp_sock s4) as [k|] eqn:Ek.
  - unfold seq_action, changeSessionFsmState. rewrite notification_eq. unfold drop_socket.
    change (bgp_sock (s4 <| peers := change_all IDLE (peers s4) |> <| sessState := IDLE |>)) with (bgp_sock s4).
    rewrite Ek. intros He. apply (f_equal fst) in He. cbn in He. by subst s1.
  - unfold skip. intros He. apply (f_equal fst) in He. cbn in He. by subst s1.
Qed.

Lemma step_keeps ipToBytes s o s' : bgp_step ipToBytes s o s' -> peers_ok s -> timer_ok s -> peers_ok s' /\ timer_ok s'.
Proof.
  intros Hst Hp Ht. destruct Hst as [id s s' o He|fuel b s s' o He|t s s' o _ He|id s s' o He|k s Hk|c keys s s1 o He].
  - unfold tcpConnectSuccess in He. apply seq_attempt_inv in He as (s1 & o1 & o1' & _ & He).
    apply seq_attempt_inv in He as (s2 & o2 & o2' & _ & He). apply seq_attempt_inv in He as (s3 & o3 & o3' & _ & He).
    apply seq_attempt_inv in He as (s4 & o4 & o4' & E4 & He). unfold returns in E4, He.
    pose proof (change_session_peers OPEN_SENT s3) as Hp4. apply (f_equal (fun x => fst (fst x))) in E4. cbn [fst] in E4.
    rewrite E4 in Hp4. destruct (start_timer_eq s4) as (tm & Hs4 & Htm). apply (f_equal (fun x => fst (fst x))) in He. cbn [fst] in He.
    rewrite <- He, Hs4. split; [exact Hp4 | exact Htm].
  - unfold handleBgpPacket in He. by apply handle_loop_ok in He.
  - unfold handleHoldTimerExpired, get_this in He. destruct (negb (usable s)) eqn:Hu.
    + pose proof (clear_timer_eq s) as Hc. rewrite He in Hc. cbn in Hc. by subst s'.
    + unfold seq_action in He. pose proof (clear_timer_eq s) as Hc. destruct (clearHoldTimer s) as [s1 o1]. cbn [fst] in Hc. subst s1.
      assert (usable s = true) as Hu' by (by destruct (usable s)). unfold usable in Hu'. destruct (bgp_sock s) as [k|] eqn:Ek; [|done].
      unfold changeSessionFsmState in He. rewrite notification_eq in He. unfold drop_socket, assign in He.
      match type of He with context [match bgp_sock ?x with _ => _ end] => change (bgp_sock x) with (bgp_sock s) in He end.
      rewrite Ek in He. apply (f_equal fst) in He. cbn in He. subst s'. split; [|done]. unfold peers_ok. cbn. apply Forall_map, Forall_true. intros p. by right; left.
  - unfold handleSocketClosed, get_this in He. destruct (bgp_sock s) as [k|] eqn:Ek; [|by injection He as <- _].
    destruct (negb (sock_id k =? id)); [by injection He as <- _|]. unfold seq_action in He.
    pose proof (clear_timer_eq s) as Hc. destruct (clearHoldTimer s) as [s1 o1]. cbn [fst] in Hc. subst s1.
    unfold assign, changeSessionFsmState in He. cbn in He. injection He as <- _. split; [|done].
    unfold peers_ok. cbn. apply Forall_map, Forall_true. intros p. by right; left.
  - split; [|done]. unfold peers_ok in *. cbn. eapply Forall_impl; [|exact Hp]. intros p [H|[H|[H1 H2]]]; [by left | by right; left | congruence].
  - apply reset_ok in He as [Hk Hh]. split; [|by intros _]. unfold peers_ok. cbn. apply Forall_map, Forall_true. intros k. right. right. by rewrite Hk.
Qed.

(** session and peers stay consistent.  In every reachable state of a session each
    of its peers is not negotiated, or is in the state of the session, or the
    connection is gone and the peer is idle; and the hold timer only runs while there
    is a connection. *)
Theorem bgp_peers_follow_session ipToBytes s : bgp_reachable ipToBytes s ->
  Forall (fun p => snd p = NO_NEG \/ snd p = sessState s \/ (bgp_sock s = None /\ snd p = IDLE)) (peers s) /\
  (bgp_sock s = None -> holdTimer s = None).
Proof.
  induction 1 as [c keys|s o s' _ [Hp Ht] Hst]; [|by eapply step_keeps].
  split; [|done]. cbn. apply Forall_map, Forall_true. intros k. by right; left.
Qed.

(** an OPEN that the parser rejects escapes as an exception.  When a complete
    message of type OPEN arrives that cannot be parsed, the handler throws a
    [TypeError] (its result has no capabilities) after restarting the timer; the
    session stays connected in its state and the message stays in the buffer. *)
Theorem bgp_bad_open_throws f s body :
  packetBuffer s = [] -> u16 (BGP_HEAD_LEN + blen body) ->
  parseBgpPacket (message (packet_type_value OPEN) body) = Some NotParsed ->
  exists s' out, handleBgpPacket (S f) (message (packet_type_value OPEN) body) s = Some (s', out, Some TypeError) /\
    packetBuffer s' = message (packet_type_value OPEN) body /\ sessState s' = sessState s /\ bgp_sock s' = bgp_sock s /\
    peers s' = peers s /\ written out = [].
Proof.
  intros Hb Hu Hp. destruct (startHoldTimer_spec s) as (tm & o0 & E0 & W0 & R0).
  pose proof (handle_loop_message f s (packet_type_value OPEN) body [] Hu ltac:(done)) as Hl.
  rewrite app_nil_r, Hp in Hl. cbn [default from_option id] in Hl.
  assert (handle_packet (packet_type_value OPEN) NotParsed s = (s <| holdTimer := tm |>, o0, Some TypeError)) as Hh.
  { unfold handle_packet, seq_attempt, returns. rewrite E0. cbn [packet_type_value Z.eqb Pos.eqb]. unfold handle_open, raise.
    by rewrite app_nil_r. }
  rewrite Hh in Hl. unfold handleBgpPacket. rewrite Hb. cbn [app].
  change (s <| packetBuffer := message (packet_type_value OPEN) body |>) with (with_buffer s (message (packet_type_value OPEN) body)).
  rewrite Hl. eexists _, _. split; [reflexivity|]. by rewrite W0.
Qed.

(** a silent peer is dropped.  When the hold timer of a connected session expires,
    the session sends the NOTIFICATION "hold timer expired" and nothing else, destroys
    its socket, and session and all peers, also those not negotiated, are idle. *)
Theorem bgp_hold_timer_expiry s k :
  bgp_sock s = Some k -> sock_destroyed k = false ->
  let '(s', out) := handleHoldTimerExpired s in
  written out = [message (packet_type_value NOTIFICATION) [4; 0]] /\
  SockDestroy (sock_id k) ∈ out /\ bgp_sock s' = None /\ holdTimer s' = None /\ packetBuffer s' = [] /\
  sessState s' = IDLE /\ peers s' = map (fun p => (fst p, IDLE)) (peers s).
Proof.
  intros Hk Hd. unfold handleHoldTimerExpired, get_this.
  assert (usable s = true) as -> by (unfold usable; by rewrite Hk, Hd). cbn [negb].
  unfold seq_action. assert (exists o1, clearHoldTimer s = (s <| holdTimer := None |>, o1) /\ written o1 = []) as (o1 & -> & W1).
  { unfold clearHoldTimer. destruct s as [? ? ? ? ? ? ? ? ? ? ? [t|] ?]; eexists; split; try reflexivity. }
  unfold changeSessionFsmState. set (s2 := _ <| sessState := IDLE |>).
  assert (sendNotification HOLD_TIMER_EXPIRED 0 s2 = (s2, [SockWrite (message (packet_type_value NOTIFICATION) [4; 0])])) as ->.
  { unfold sendNotification, get_this. assert (usable s2 = true) as -> by (unfold usable, s2; cbn; by rewrite Hk, Hd). done. }
  unfold drop_socket. change (bgp_sock s2) with (bgp_sock s). rewrite Hk. unfold assign.
  destruct (reports_silent _ (change_reports_are IDLE (peers (s <| holdTimer := None |>)))) as [W2 _].
  rewrite !written_app, W1, W2. split_and!; try done.
  rewrite !elem_of_app. right. right. right. left. by apply elem_of_cons; left.
Qed.

(** ** Witnesses *)

Definition witness_session : BgpSession := BgpSession_new witness_config [(0, 1, 1); (0, 2, 1); (0, 1, 128)].

Lemma witness_ready : ready witness_router_id witness_session.
Proof.
  constructor; [exact witness_config_ok | | done | | by repeat constructor].
  - exists 192, 0, 2, 1. split; [done | by repeat constructor].
  - apply (bool_decide_eq_true_1 (NoDup (map fst (peers witness_session)))). reflexivity.
Qed.

Lemma bgp_fragmentation_witness : exists s' out,
  handleBgpPacket 9 (buildKeepAliveMsg ++ [255]) (witness_session <| bgp_sock := Some {| sock_id := 1; sock_destroyed := false |} |>) = Some (s', out, None) /\
  recv_fragments 9 [take 5 buildKeepAliveMsg; drop 5 buildKeepAliveMsg; [255]]
    (witness_session <| bgp_sock := Some {| sock_id := 1; sock_destroyed := false |} |>) = Some (s', out, None).
Proof.
  eexists _, _. split; [vm_compute; reflexivity|].
  refine (bgp_fragmentation 9 _ (take 5 buildKeepAliveMsg) [drop 5 buildKeepAliveMsg; [255]] _ _ _ _ _ _);
    [constructor | vm_compute; repeat constructor; done | vm_compute; repeat constructor; done | vm_compute; reflexivity].
Defined.

Lemma bgp_zero_length_hangs_witness :
  handleBgpPacket 1000 (replicate 16 255 ++ [0; 0; 2] ++ []) witness_session = None.
Proof. apply (bgp_zero_length_hangs 1000 witness_session (replicate 16 255) 2 []); done. Defined.

Lemma bgp_handshake_witness : exists s1 o1 s2 o2 s3 o3 b,
  buildOpenMsg witness_router_id witness_config = Ok b /\
  tcpConnectSuccess witness_router_id 7 witness_session = (s1, o1, None) /\
  handleBgpPacket 2 b s1 = Some (s2, o2, None) /\ handleBgpPacket 2 buildKeepAliveMsg s2 = Some (s3, o3, None) /\
  peers s3 = [((0, 1, 1), ESTABLISHED); ((0, 2, 1), ESTABLISHED); ((0, 1, 128), NO_NEG)].
Proof.
  destruct (ready_open witness_router_id witness_session witness_ready) as [b Hb].
  destruct (bgp_handshake witness_router_id witness_session 7 witness_config b b 0 witness_ready witness_config_ok
    (rd_router _ _ witness_ready) Hb Hb) as (s1 & o1 & s2 & o2 & s3 & o3 & E1 & _ & E2 & _ & E3 & _ & _ & _ & _ & P3).
  exists s1, o1, s2, o2, s3, o3, b. split_and!; [exact Hb | exact E1 | exact E2 | exact E3|]. rewrite P3. vm_compute. reflexivity.
Defined.

Lemma bgp_add_path_agreement_witness : exists b sa1 oa1 sa2 oa2 sb1 ob1 sb2 ob2,
  buildOpenMsg witness_router_id witness_config = Ok b /\
  tcpConnectSuccess witness_router_id 1 witness_session = (sa1, oa1, None) /\
  tcpConnectSuccess witness_router_id 2 witness_session = (sb1, ob1, None) /\
  handleBgpPacket 2 b sa1 = Some (sa2, oa2, None) /\ handleBgpPacket 2 b sb1 = Some (sb2, ob2, None) /\
  isAddPathSendEnabled sa2 1 1 = isAddPathReceiveEnabled sb2 1 1.
Proof.
  destruct (bgp_add_path_agreement witness_router_id witness_session witness_session 1 2 0 1 1 witness_ready witness_ready)
    as (openA & openB & sa1 & oa1 & sa2 & oa2 & sb1 & ob1 & sb2 & ob2 & HA & HB & A1 & B1 & A2 & B2 & He & _).
  - split; [cbn; apply NoDup_singleton | done].
  - split; [cbn; apply NoDup_singleton | done].
  - assert (openA = openB) as -> by (cbn [config witness_session BgpSession_new] in *; congruence).
    exists openB, sa1, oa1, sa2, oa2, sb1, ob1, sb2, ob2. split_and!; assumption.
Defined.

Lemma bgp_same_as_external_witness : exists s1 o1 s2 o2 b,
  buildOpenMsg witness_router_id witness_config = Ok b /\ tcpConnectSuccess witness_router_id 7 witness_session = (s1, o1, None) /\
  handleBgpPacket 2 b s1 = Some (s2, o2, None) /\ peerType s2 = PEER_TYPE_EBGP.
Proof.
  destruct (ready_open witness_router_id witness_session witness_ready) as [b Hb].
  destruct (bgp_same_as_external witness_router_id witness_session 7 witness_config b b 0 witness_ready witness_config_ok
    (rd_router _ _ witness_ready) Hb Hb eq_refl) as (s1 & o1 & s2 & o2 & H); [by vm_compute|].
  exists s1, o1, s2, o2, b. by split.
Defined.

Lemma bgp_peers_follow_session_witness :
  Forall (fun p => snd p = NO_NEG \/ snd p = IDLE \/ (@None bgp_socket = None /\ snd p = IDLE)) (peers witness_session) /\
  (@None bgp_socket = None -> @None Z = None).
Proof. apply (bgp_peers_follow_session witness_router_id witness_session). apply reach_new. Defined.

Lemma bgp_bad_open_throws_witness : exists s' out,
  handleBgpPacket 1 (message 1 [3; 0; 1; 0; 180; 1; 1; 1; 1; 0]) witness_session = Some (s', out, Some TypeError) /\
  packetBuffer s' = message 1 [3; 0; 1; 0; 180; 1; 1; 1; 1; 0].
Proof.
  destruct (bgp_bad_open_throws 0 witness_session [3; 0; 1; 0; 180; 1; 1; 1; 1; 0]) as (s' & out & H1 & H2 & _).
  - reflexivity.
  - by vm_compute.
  - vm_compute. reflexivity.
  - exists s', out. by split.
Defined.

Lemma bgp_hold_timer_expiry_witness :
  written (snd (handleHoldTimerExpired (witness_session <| bgp_sock := Some {| sock_id := 1; sock_destroyed := false |} |>
    <| sessState := ESTABLISHED |> <| holdTimer := Some 180000 |>))) = [message (packet_type_value NOTIFICATION) [4; 0]].
Proof.
  set (s := _ <| holdTimer := Some 180000 |>).
  pose proof (bgp_hold_timer_expiry s {| sock_id := 1; sock_destroyed := false |} eq_refl eq_refl) as H.
  destruct (handleHoldTimerExpired s) as [s' out]. apply H.
Defined.
