(* ===== verification/BgpUpdate.v ===== *)
(** Received UPDATE messages: [parseUpdateMessage], [parsePathAttributes] and the IPv4
    prefixes of [electron/utils/bgp/bgpPacketParser.js], with the address text of
    [electron/utils/ipUtils.js].

    The attributes with decoders of their own (extended communities, PMSI tunnel, tunnel
    encapsulation, Prefix-SID, MP_REACH_NLRI and MP_UNREACH_NLRI) are kept abstract: the
    parser is given a [special_decoder] for them.  Error and warning texts are the
    constructors of inductive types.  The fields that [annotateEvpnPathAttributes] adds to
    EVPN routes for display are left out. *)

From stdpp Require Import base list numbers strings option.
From Stdlib Require Import ZArith Lia.
From S2P Require Import Prelude NodePath JsText BgpPacket BgpSession.

Local Open Scope Z_scope.
Local Open Scope js_scope.

(** ** Constants *)

Inductive BGP_PATH_ATTR :=
| ATTR_ORIGIN | ATTR_AS_PATH | ATTR_NEXT_HOP | ATTR_MED | ATTR_LOCAL_PREF | ATTR_ATOMIC_AGGREGATE | ATTR_AGGREGATOR
| ATTR_COMMUNITY | ATTR_MP_REACH_NLRI | ATTR_MP_UNREACH_NLRI | ATTR_EXTENDED_COMMUNITIES | ATTR_AS4_PATH
| ATTR_AS4_AGGREGATOR | ATTR_PMSI_TUNNEL | ATTR_TUNNEL_ENCAPSULATION | ATTR_PATH_OTC | ATTR_PREFIX_SID.

Definition path_attr_value (a : BGP_PATH_ATTR) : Z :=
  match a with
  | ATTR_ORIGIN => 1 | ATTR_AS_PATH => 2 | ATTR_NEXT_HOP => 3 | ATTR_MED => 4 | ATTR_LOCAL_PREF => 5
  | ATTR_ATOMIC_AGGREGATE => 6 | ATTR_AGGREGATOR => 7 | ATTR_COMMUNITY => 8 | ATTR_MP_REACH_NLRI => 14
  | ATTR_MP_UNREACH_NLRI => 15 | ATTR_EXTENDED_COMMUNITIES => 16 | ATTR_AS4_PATH => 17 | ATTR_AS4_AGGREGATOR => 18
  | ATTR_PMSI_TUNNEL => 22 | ATTR_TUNNEL_ENCAPSULATION => 23 | ATTR_PATH_OTC => 35 | ATTR_PREFIX_SID => 40
  end.

Definition FLAG_OPTIONAL : Z := 128.
Definition FLAG_TRANSITIVE : Z := 64.
Definition FLAG_EXTENDED_LENGTH : Z := 16.

Definition IP_HOST_LEN : Z := 32.

Definition FIXED_ATTRIBUTE_LENGTHS (typeCode : Z) : option (list Z) :=
  match typeCode with
  | 1 => Some [1] | 3 => Some [4] | 4 => Some [4] | 5 => Some [4] | 6 => Some [0] | 7 => Some [6; 8] | 18 => Some [8]
  | 35 => Some [4] | _ => None
  end.

(** ** Prefixes *)

(** The mask of the last byte that is only partly in the prefix. *)
Definition partial_mask (remainingBits : Z) : Z := js_and 255 (js_shl 255 (8 - remainingBits)).

Definition ipv4BufferToString (b : buffer) (length : Z) : jsstring :=
  let fullBytes := length / 8 in
  let remainingBits := length mod 8 in
  let ipBuffer := copy_into b (alloc 4) 0 in
  let ipBuffer := if (0 <? remainingBits) && (fullBytes <? 4)
                  then bset ipBuffer fullBytes (js_and (byte_at ipBuffer fullBytes) (partial_mask remainingBits))
                  else ipBuffer in
  join_with 46 (map dec_digits ipBuffer).

Inductive nlri_error := PathIdTruncated | PrefixLengthMissing | PrefixLengthExceeds | PrefixTruncated.

#[export] Instance nlri_error_eq_dec : EqDecision nlri_error.
Proof. solve_decision. Defined.

Inductive nlri_warning := STATELESS_ADD_PATH_NLRI_COMPAT_WARNING | ADD_PATH_NLRI_LENGTH_COMPAT_WARNING.

Record nlri_route := {
  pathId : Z; prefix : jsstring; prefixLength : Z;
  route_valid : bool; route_errors : list nlri_error; route_warnings : list nlri_warning
}.

#[export] Instance nlri_route_rebuild : Rebuild nlri_route := fun r => {|
  pathId := pathId r; prefix := prefix r; prefixLength := prefixLength r; route_valid := route_valid r;
  route_errors := route_errors r; route_warnings := route_warnings r |}.

Record nlri_result := {
  nlri_routes : list nlri_route;
  nlri_errors : list (Z * nlri_error);      (* with the index of the route *)
  nlri_warnings : list nlri_warning;
  nlri_position : Z;
  nlri_valid : bool
}.

Definition finish_nlri (routes : list nlri_route) (errors : list (Z * nlri_error)) (position endPosition : Z) : nlri_result := {|
  nlri_routes := routes; nlri_errors := errors; nlri_warnings := []; nlri_position := position;
  nlri_valid := bool_decide (errors = []) && (position =? endPosition) |}.

(** [Math.ceil(prefixLength / 8)] *)
Definition prefix_bytes (prefixLength : Z) : Z := (prefixLength + 7) / 8.

(** [while (position < endPosition)] of [parseIpv4NlriSequenceCandidate]. *)
Fixpoint parse_ipv4_prefixes (fuel : nat) (b : buffer) (position endPosition : Z) (addPathEnabled : bool)
    (routes : list nlri_route) (errors : list (Z * nlri_error)) : option nlri_result :=
  if position <? endPosition then
    match fuel with
    | O => None
    | S f =>
      let routeIndex := blen routes + 1 in
      if addPathEnabled && (endPosition <? position + 4)
      then Some (finish_nlri routes (errors ++ [(routeIndex, PathIdTruncated)]) endPosition endPosition)
      else
        let pathId := if addPathEnabled then read_field 4 b position else 0 in
        let position := if addPathEnabled then position + 4 else position in
        if endPosition <=? position
        then Some (finish_nlri routes (errors ++ [(routeIndex, PrefixLengthMissing)]) endPosition endPosition)
        else
          let prefixLength := byte_at b position in
          let position := position + 1 in
          let prefixBytes := prefix_bytes prefixLength in
          let routeErrors := (if IP_HOST_LEN <? prefixLength then [PrefixLengthExceeds] else []) ++
                             (if endPosition <? position + prefixBytes then [PrefixTruncated] else []) in
          let next := Z.min (position + prefixBytes) endPosition in
          parse_ipv4_prefixes f b next endPosition addPathEnabled
            (routes ++ [{| pathId := pathId;
                           prefix := ipv4BufferToString (subarray b position next) (Z.min prefixLength IP_HOST_LEN);
                           prefixLength := prefixLength;
                           route_valid := bool_decide (routeErrors = []);
                           route_errors := routeErrors; route_warnings := [] |}])
            (errors ++ map (fun e => (routeIndex, e)) routeErrors)
    end
  else Some (finish_nlri routes errors position endPosition).

Definition parseIpv4NlriSequenceCandidate (b : buffer) (startPosition endPosition : Z) (addPathEnabled : bool) : option nlri_result :=
  parse_ipv4_prefixes (S (length b)) b startPosition endPosition addPathEnabled [] [].

(** What the context knows of ADD-PATH for a family. *)
Record add_path_info := { enabled : bool; from_stateless_tlv : bool; fallbackEnabled : bool }.

Definition isWeakAddPathInfo (i : add_path_info) : bool := from_stateless_tlv i && negb (fallbackEnabled i).

Definition withNlriParseWarning (r : nlri_result) (w : nlri_warning) : nlri_result := {|
  nlri_routes := map (fun x => x <| route_warnings := route_warnings x ++ [w] |>) (nlri_routes r);
  nlri_errors := nlri_errors r; nlri_warnings := nlri_warnings r ++ [w];
  nlri_position := nlri_position r; nlri_valid := nlri_valid r |}.

Definition chooseNlriParseByLength (parseCandidate : bool -> option nlri_result) (i : add_path_info) : option nlri_result :=
  if negb (enabled i) then parseCandidate false
  else
    match parseCandidate true, parseCandidate false with
    | Some addPathResult, Some nonAddPathResult =>
      let warning := if isWeakAddPathInfo i then STATELESS_ADD_PATH_NLRI_COMPAT_WARNING
                     else ADD_PATH_NLRI_LENGTH_COMPAT_WARNING in
      if isWeakAddPathInfo i && nlri_valid nonAddPathResult then Some (withNlriParseWarning nonAddPathResult warning)
      else if nlri_valid addPathResult then Some addPathResult
      else if nlri_valid nonAddPathResult then Some (withNlriParseWarning nonAddPathResult warning)
      else Some addPathResult
    | _, _ => None
    end.

Definition parseIpv4NlriSequence (b : buffer) (startPosition endPosition : Z) (i : add_path_info) : option nlri_result :=
  chooseNlriParseByLength (parseIpv4NlriSequenceCandidate b startPosition endPosition) i.

(** ** Path attributes *)

Inductive as_path_error := SegmentHeaderTruncated | SegmentInvalid | SegmentValueTruncated.

Record as_segment := { segment_type : Z; asNumbers : list Z }.

Fixpoint read_numbers (n : nat) (size : Z) (b : buffer) (position : Z) : list Z :=
  match n with
  | O => []
  | S m => read_field size b position :: read_numbers m size b (position + size)
  end.

(** [while (position < buffer.length)] of [parseAsPath]; the number size is 4, or else 2. *)
Fixpoint parse_segments (fuel : nat) (asnSize : Z) (b : buffer) (position : Z) (segments : list as_segment)
    : option (list as_segment * list as_path_error) :=
  if position <? blen b then
    match fuel with
    | O => None
    | S f =>
      if blen b <? position + 2 then Some (segments, [SegmentHeaderTruncated])
      else
        let segmentType := byte_at b position in
        let segmentLength := byte_at b (position + 1) in
        let position := position + 2 in
        if (segmentType <? 1) || (4 <? segmentType) || (segmentLength =? 0) then Some (segments, [SegmentInvalid])
        else if blen b <? position + segmentLength * asnSize then Some (segments, [SegmentValueTruncated])
        else
          parse_segments f asnSize b (position + segmentLength * asnSize)
            (segments ++ [{| segment_type := segmentType; asNumbers := read_numbers (Z.to_nat segmentLength) asnSize b position |}])
    end
  else Some (segments, []).

Definition parseAsPath (b : buffer) (asnSize : Z) : option (list as_segment * list as_path_error) :=
  parse_segments (S (length b)) asnSize b 0 [].

(** A community: its value and its text. *)
Definition community_text (value : Z) : Z * jsstring :=
  (value, js_number_to_string (js_and (js_shr value 16) 65535) ++ [58] ++ js_number_to_string (js_and value 65535)).

Fixpoint parse_communities (n : nat) (b : buffer) (i : Z) : result (list (Z * jsstring)) :=
  match n with
  | O => Ok []
  | S m =>
    if i <? blen b then
      let! value := readUInt32BE b i in
      let! rest := parse_communities m b (i + 4) in
      Ok (community_text value :: rest)
    else Ok []
  end.

Definition parseCommunities (b : buffer) : result (list (Z * jsstring)) := parse_communities (length b) b 0.

Inductive attr_error :=
| InvalidAttributeLength (length : Z)
| CommunityTruncated
| OriginInvalid
| AsPathError (e : as_path_error)
| SpecialError (text : jsstring).

Inductive update_error :=
| AttributeSectionTruncated
| AttributeHeaderTruncated
| ExtendedLengthTruncated
| AttributeLengthTruncated
| AttributeValueExceeds
| AttributeError (typeCode : Z) (e : attr_error)
| WithdrawnRouteError (routeIndex : Z) (e : nlri_error)
| NlriError (routeIndex : Z) (e : nlri_error).

Inductive update_warning :=
| AttributeWarning (typeCode : Z) (text : jsstring)
| RouteWarning (w : nlri_warning).

Section Attributes.
Context {special : Type}.

(** The outcome of a decoder that the model does not look into. *)
Record special_attr := {
  special_value : special; special_valid : option bool; special_errors : list jsstring; special_warnings : list jsstring
}.

Inductive attr_detail :=
| NoDetail
| Origin (value : Z)
| AsPath (segments : list as_segment)
| NextHop (text : jsstring)
| Med (value : Z)
| LocalPref (value : Z)
| Aggregator (aggregatorAs : Z) (aggregatorIp : jsstring)
| Communities (communities : list (Z * jsstring))
| Otc (value : Z)
| Special (s : special_attr).

Record path_attribute := {
  attr_flags : Z; typeCode : Z; attr_value : buffer;
  attr_detail_of : attr_detail;
  attr_valid : option bool;       (* [None]: not set *)
  attr_errors : list attr_error
}.

Definition special_decoder : Type := BGP_PATH_ATTR -> buffer -> result special_attr.

(** What the parser reads of its context. *)
Record update_context := { getAddPathReceiveInfo : Z -> Z -> add_path_info; asnSize : option Z }.

Context (decode_special : special_decoder) (context : update_context).

Definition attribute (flags code : Z) (value : buffer) (d : attr_detail) (valid : option bool) (errors : list attr_error)
    : path_attribute := {|
  attr_flags := flags; typeCode := code; attr_value := value; attr_detail_of := d; attr_valid := valid; attr_errors := errors |}.

Definition parse_as_path_attribute (code : Z) (value : buffer) : option (list as_segment * list as_path_error) :=
  let size := js_or_number (asnSize context) 4 in
  match parseAsPath value (if code =? path_attr_value ATTR_AS4_PATH then 4 else size) with
  | None => None
  | Some parsedPath =>
    if (code =? path_attr_value ATTR_AS_PATH) && bool_decide (js_or_number (asnSize context) 0 = 0) && (0 <? blen (snd parsedPath))
    then
      match parseAsPath value 2 with
      | None => None
      | Some legacyPath => Some (if blen (snd legacyPath) =? 0 then legacyPath else parsedPath)
      end
    else Some parsedPath
  end.

Definition special_of (code : Z) : option BGP_PATH_ATTR :=
  List.find (fun a => path_attr_value a =? code)
    [ATTR_EXTENDED_COMMUNITIES; ATTR_PMSI_TUNNEL; ATTR_TUNNEL_ENCAPSULATION; ATTR_PREFIX_SID; ATTR_MP_REACH_NLRI;
     ATTR_MP_UNREACH_NLRI].

Definition dotted_at (b : buffer) (i : Z) : jsstring :=
  dotted (byte_at b i) (byte_at b (i + 1)) (byte_at b (i + 2)) (byte_at b (i + 3)).

(** [switch (typeCode)]. *)
Definition decode_attribute (flags code : Z) (value : buffer) : option (result path_attribute) :=
  let kind a := code =? path_attr_value a in
  let plain d := Some (Ok (attribute flags code value d None [])) in
  if kind ATTR_ORIGIN then
    if 2 <? byte_at value 0 then Some (Ok (attribute flags code value NoDetail (Some false) [OriginInvalid]))
    else plain (Origin (byte_at value 0))
  else if kind ATTR_AS_PATH || kind ATTR_AS4_PATH then
    match parse_as_path_attribute code value with
    | None => None
    | Some (segments, errors) =>
      Some (Ok (attribute flags code value (AsPath segments) (Some (blen errors =? 0)) (map AsPathError errors)))
    end
  else if kind ATTR_NEXT_HOP then plain (if blen value =? 4 then NextHop (dotted_at value 0) else NoDetail)
  else if kind ATTR_MED then plain (if 4 <=? blen value then Med (read_field 4 value 0) else NoDetail)
  else if kind ATTR_LOCAL_PREF then plain (if 4 <=? blen value then LocalPref (read_field 4 value 0) else NoDetail)
  else if kind ATTR_AGGREGATOR || kind ATTR_AS4_AGGREGATOR then
    plain (if 6 <=? blen value then
             let addressOffset := if blen value =? 8 then 4 else 2 in
             Aggregator (if addressOffset =? 4 then read_field 4 value 0 else read_field 2 value 0) (dotted_at value addressOffset)
           else NoDetail)
  else if kind ATTR_COMMUNITY then
    match parseCommunities value with
    | Ok l => plain (Communities l)
    | Throw e => Some (Throw e)
    end
  else if kind ATTR_PATH_OTC then plain (if 4 <=? blen value then Otc (read_field 4 value 0) else NoDetail)
  else
    match special_of code with
    | Some a =>
      match decode_special a value with
      | Ok s => Some (Ok (attribute flags code value (Special s) (special_valid s) (map SpecialError (special_errors s))))
      | Throw e => Some (Throw e)
      end
    | None => plain NoDetail
    end.

Definition parse_attribute (flags code : Z) (value : buffer) : option (result path_attribute) :=
  let invalid e := Some (Ok (attribute flags code value NoDetail (Some false) [e])) in
  match FIXED_ATTRIBUTE_LENGTHS code with
  | Some lengths =>
    if negb (bool_decide (blen value ∈ lengths)) then invalid (InvalidAttributeLength (blen value))
    else decode_attribute flags code value
  | None =>
    if ((code =? path_attr_value ATTR_COMMUNITY) && negb (blen value mod 4 =? 0)) ||
       ((code =? path_attr_value ATTR_EXTENDED_COMMUNITIES) && negb (blen value mod 8 =? 0))
    then invalid CommunityTruncated
    else decode_attribute flags code value
  end.

(** [while (position < endPosition)] of [parsePathAttributes]. *)
Fixpoint parse_attributes (fuel : nat) (b : buffer) (position endPosition : Z) (pathAttributes : list path_attribute)
    : option (result (list path_attribute * list update_error)) :=
  if position <? endPosition then
    match fuel with
    | O => None
    | S f =>
      let stop e := Some (Ok (pathAttributes, [e])) in
      if endPosition <? position + 2 then stop AttributeHeaderTruncated
      else
        let flags := byte_at b position in
        let code := byte_at b (position + 1) in
        let position := position + 2 in
        let extendedLength := BIT_TEST flags FLAG_EXTENDED_LENGTH in
        if extendedLength && (endPosition <? position + 2) then stop ExtendedLengthTruncated
        else if negb extendedLength && (endPosition <? position + 1) then stop AttributeLengthTruncated
        else
          let attributeLength := if extendedLength then read_field 2 b position else byte_at b position in
          let position := if extendedLength then position + 2 else position + 1 in
          if endPosition <? position + attributeLength then stop AttributeValueExceeds
          else
            match parse_attribute flags code (subarray b position (position + attributeLength)) with
            | None => None
            | Some (Throw e) => Some (Throw e)
            | Some (Ok a) => parse_attributes f b (position + attributeLength) endPosition (pathAttributes ++ [a])
            end
    end
  else Some (Ok (pathAttributes, [])).

Definition parsePathAttributes (b : buffer) (startPosition endPosition : Z)
    : option (result (list path_attribute * Z * list update_error)) :=
  if (blen b <? endPosition) || (endPosition <? startPosition) then Some (Ok ([], blen b, [AttributeSectionTruncated]))
  else
    match parse_attributes (S (length b)) b startPosition endPosition [] with
    | None => None
    | Some (Throw e) => Some (Throw e)
    | Some (Ok (l, errors)) => Some (Ok (l, endPosition, errors))
    end.

(** ** UPDATE *)

Record bgp_update := {
  withdrawnRoutesLength : Z;
  withdrawnRoutes : list nlri_route;
  pathAttributesLength : Z;
  pathAttributes : list path_attribute;
  nlri : list nlri_route;
  update_valid : bool;
  update_errors : list update_error;
  update_warnings : list update_warning
}.

Definition errors_of_attribute (a : path_attribute) : list update_error :=
  if bool_decide (attr_valid a = Some false) then map (AttributeError (typeCode a)) (attr_errors a) else [].

Definition warnings_of_attribute (a : path_attribute) : list update_warning :=
  match attr_detail_of a with
  | Special s => map (AttributeWarning (typeCode a)) (special_warnings s)
  | _ => []
  end.

Definition parseUpdateMessage (b : buffer) : option (result bgp_update) :=
  match readUInt16BE b BGP_HEAD_LEN with
  | Throw e => Some (Throw e)
  | Ok wLength =>
    let position := BGP_HEAD_LEN + 2 in
    let addPathInfo := getAddPathReceiveInfo context AFI_IPV4 SAFI_UNICAST in
    let withdrawnRoutesEnd := position + wLength in
    if blen b <? withdrawnRoutesEnd + 2 then Some (Throw (ErrorMsg "BGP UPDATE withdrawn routes length is inconsistent"))
    else
      match parseIpv4NlriSequence b position (Z.min withdrawnRoutesEnd (blen b)) addPathInfo with
      | None => None
      | Some withdrawn =>
        let aLength := read_field 2 b withdrawnRoutesEnd in
        let position := withdrawnRoutesEnd + 2 in
        let pathAttributesEnd := position + aLength in
        if blen b <? pathAttributesEnd then Some (Throw (ErrorMsg "BGP UPDATE path attribute length is inconsistent"))
        else
          match parsePathAttributes b position pathAttributesEnd with
          | None => None
          | Some (Throw e) => Some (Throw e)
          | Some (Ok (attrs, nextPosition, pathAttributeErrors)) =>
            let attributeErrors := pathAttributeErrors ++ concat (map errors_of_attribute attrs) in
            match parseIpv4NlriSequence b nextPosition (blen b) addPathInfo with
            | None => None
            | Some parsedNlri =>
              let routeErrors := map (fun '(i, e) => WithdrawnRouteError i e) (nlri_errors withdrawn) ++
                                 map (fun '(i, e) => NlriError i e) (nlri_errors parsedNlri) in
              Some (Ok {|
                withdrawnRoutesLength := wLength;
                withdrawnRoutes := nlri_routes withdrawn;
                pathAttributesLength := aLength;
                pathAttributes := attrs;
                nlri := nlri_routes parsedNlri;
                update_valid := (blen attributeErrors =? 0) && (blen routeErrors =? 0);
                update_errors := attributeErrors ++ routeErrors;
                update_warnings := concat (map warnings_of_attribute attrs) ++
                                   map RouteWarning (nlri_warnings withdrawn ++ nlri_warnings parsedNlri) |})
            end
          end
      end
  end.

(** The case of [parseBgpPacket] for an UPDATE: [None] is a message that is not parsed, for
    the checks of the header or for an exception. *)
Definition parse_update_packet (b : buffer) : option (option bgp_update) :=
  match parseBgpPacket b with
  | Some (UpdateMessage m) =>
    match parseUpdateMessage m with
    | None => None
    | Some (Ok u) => Some (Some u)
    | Some (Throw _) => Some None
    end
  | _ => Some None
  end.
End Attributes.

Arguments special_attr : clear implicits.
Arguments attr_detail : clear implicits.
Arguments path_attribute : clear implicits.
Arguments special_decoder : clear implicits.
Arguments bgp_update : clear implicits.

(** The context a session passes: itself. *)
Definition session_context (s : BgpSession) : update_context := {|
  getAddPathReceiveInfo := fun afi safi =>
    {| enabled := isAddPathReceiveEnabled s afi safi; from_stateless_tlv := false; fallbackEnabled := false |};
  asnSize := None |}.

(** ** The text of a prefix *)

(** The address of a prefix of [m] bits: the bits after the prefix are zero. *)
Definition network (address : buffer) (m : Z) : buffer := be_bytes 4 (be_value address / 2 ^ (32 - m) * 2 ^ (32 - m)).
Definition network_text (address : buffer) (m : Z) : jsstring := join_with 46 (map dec_digits (network address m)).

Lemma partial_mask_clears x r : is_byte x -> 1 <= r <= 7 -> js_and x (partial_mask r) = x / 2 ^ (8 - r) * 2 ^ (8 - r).
Proof.
  intros Hx Hr.
  assert (forallb (fun r => forallb (fun x => js_and x (partial_mask r) =? x / 2 ^ (8 - r) * 2 ^ (8 - r)) (map Z.of_nat (seq 0 256)))
            (map Z.of_nat (seq 1 7)) = true) as Hall by (vm_compute; reflexivity).
  rewrite forallb_forall in Hall. specialize (Hall r). rewrite forallb_forall in Hall.
  apply Z.eqb_eq, Hall; apply in_map_iff; [exists (Z.to_nat r) | exists (Z.to_nat x)]; rewrite in_seq; unfold is_byte in Hx; lia.
Qed.

(** Keeping the first [8 - r] bits free of the byte [x] in a number. *)
Lemma clear_low hi x lo r (q : Z) :
  0 <= x < 256 -> 0 <= lo < q -> 1 <= r <= 8 ->
  ((hi * 256 + x) * q + lo) / (2 ^ (8 - r) * q) * (2 ^ (8 - r) * q) = (hi * 256 + x / 2 ^ (8 - r) * 2 ^ (8 - r)) * q.
Proof.
  intros Hx Hlo Hr. assert (0 < 2 ^ (8 - r)) by (apply Z.pow_pos_nonneg; lia).
  rewrite (Z.mul_comm (2 ^ (8 - r)) q) at 1. rewrite <- Z.div_div by lia. rewrite Z.div_add_l, (Z.div_small lo) by lia. rewrite Z.add_0_r.
  assert (256 = 2 ^ r * 2 ^ (8 - r)) as H256 by (rewrite <- Z.pow_add_r by lia; by replace (r + (8 - r)) with 8 by lia).
  replace ((hi * 256 + x) / 2 ^ (8 - r)) with (hi * 2 ^ r + x / 2 ^ (8 - r)).
  - rewrite H256. ring.
  - rewrite H256 at 1. rewrite Z.mul_assoc, Z.div_add_l by lia. lia.
Qed.

Lemma be_bytes_of_4 a b c d : is_byte a -> is_byte b -> is_byte c -> is_byte d ->
  be_bytes 4 (((a * 256 + b) * 256 + c) * 256 + d) = [a; b; c; d].
Proof.
  intros. change (((a * 256 + b) * 256 + c) * 256 + d) with (be_value [a; b; c; d]).
  apply (be_bytes_be_value [a; b; c; d]). rewrite !bytes_ok_cons. split_and!; [done..|constructor].
Qed.

(** The bytes kept for a prefix of [8 * j + r] bits: [j] whole ones and the first [r] bits of the next. *)
Definition kept_byte (x r : Z) : Z := x / 2 ^ (8 - r) * 2 ^ (8 - r).

Lemma kept_byte_ok x r : is_byte x -> 1 <= r <= 8 -> is_byte (kept_byte x r).
Proof.
  unfold is_byte, kept_byte. intros Hx Hr. assert (0 < 2 ^ (8 - r)) by (apply Z.pow_pos_nonneg; lia).
  pose proof (Z.mul_div_le x (2 ^ (8 - r)) ltac:(lia)). pose proof (Z.div_pos x (2 ^ (8 - r)) ltac:(lia) ltac:(lia)). nia.
Qed.

Lemma masked_text (front : buffer) x r (back : nat) :
  is_byte x -> 1 <= r <= 8 -> (length front + 1 + back = 4)%nat ->
  ipv4BufferToString (front ++ [x]) (8 * blen front + r) =
  join_with 46 (map dec_digits (front ++ kept_byte x r :: replicate back 0)).
Proof.
  intros Hx Hr Hl. unfold ipv4BufferToString. do 2 f_equal.
  assert (blen (front ++ [x]) = blen front + 1) as Hlen by blia.
  assert (0 <= blen front <= 3) as Hf by (unfold blen; lia).
  change (alloc 4) with ([] ++ alloc 4). rewrite copy_filled by (done || lia). cbn [app].
  replace (alloc (4 - blen (front ++ [x]))) with (replicate back 0) by (rewrite Hlen; unfold alloc, blen; f_equal; lia).
  rewrite <- app_assoc. cbn [app]. destruct (decide (r = 8)) as [->|Hne].
  - replace ((8 * blen front + 8) mod 8) with 0 by zdiv. cbn [Z.ltb Z.compare andb]. unfold kept_byte.
    change (2 ^ (8 - 8)) with 1. by rewrite Z.div_1_r, Z.mul_1_r.
  - replace ((8 * blen front + r) mod 8) with r by zdiv. replace ((8 * blen front + r) / 8) with (blen front) by zdiv.
    decide_test (0 <? r) true. decide_test (blen front <? 4) true. cbn [andb]. rewrite byte_at_here.
    rewrite partial_mask_clears by (done || lia). fold (kept_byte x r). unfold bset. decide_test (blen front <? 0) false.
    unfold blen. rewrite Nat2Z.id, insert_app_r_alt, Nat.sub_diag by lia. cbn [insert list_insert].
    by rewrite Z.mod_small by (apply kept_byte_ok; done).
Qed.

Lemma network_bytes (front : buffer) x r (rest : buffer) :
  bytes_ok (front ++ x :: rest) -> 1 <= r <= 8 -> (length front + 1 + length rest = 4)%nat ->
  network (front ++ x :: rest) (8 * blen front + r) = front ++ kept_byte x r :: replicate (length rest) 0.
Proof.
  intros Hb Hr Hl. apply bytes_ok_app in Hb as [Hfront Hb]. apply bytes_ok_cons in Hb as [Hx Hrest].
  assert (be_value (front ++ x :: rest) = (be_value front * 256 + x) * 2 ^ (8 * blen rest) + be_value rest) as Hv.
  { change (x :: rest) with ([x] ++ rest). rewrite app_assoc, be_value_app, be_value_snoc. done. }
  pose proof (be_value_bound rest Hrest) as Hlo. pose proof (kept_byte_ok x r Hx Hr).
  assert (bytes_ok (front ++ kept_byte x r :: replicate (length rest) 0)) as Hok.
  { apply bytes_ok_app. split; [done|]. apply bytes_ok_cons. split; [done|]. change (replicate _ _) with (alloc (blen rest)) at 1 || idtac.
    apply Forall_replicate. unfold is_byte; lia. }
  unfold network. rewrite Hv.
  replace (2 ^ (32 - (8 * blen front + r))) with (2 ^ (8 - r) * 2 ^ (8 * blen rest))
    by (rewrite <- Z.pow_add_r by (unfold blen; lia); f_equal; unfold blen; lia).
  rewrite clear_low by (done || lia). rewrite <- (be_bytes_be_value _ Hok).
  replace (length (front ++ kept_byte x r :: replicate (length rest) 0)) with 4%nat
    by (rewrite length_app; cbn [length]; rewrite length_replicate; lia).
  f_equal. change (kept_byte x r :: replicate (length rest) 0) with ([kept_byte x r] ++ replicate (length rest) 0).
  rewrite app_assoc, be_value_app, be_value_snoc. rewrite be_value_zeros. unfold blen. rewrite length_replicate. unfold kept_byte. lia.
Qed.

(** The parser renders the prefix sent for an address as the address without its host bits. *)
Lemma prefix_text address m :
  length address = 4%nat -> bytes_ok address -> 0 <= m <= 32 ->
  ipv4BufferToString (take (Z.to_nat (prefix_bytes m)) address) m = network_text address m.
Proof.
  intros Hl Hb Hm. destruct (decide (m = 0)) as [->|Hm0].
  - change (prefix_bytes 0) with 0. cbn [Z.to_nat take]. unfold network_text, network. f_equal. f_equal.
    pose proof (be_value_bound address Hb) as Hv. assert (blen address = 4) as Hbl by (unfold blen; lia). rewrite Hbl in Hv.
    rewrite Z.div_small by (cbn in *; lia). done.
  - set (j := (m - 1) / 8). set (r := m - 8 * j).
    assert (0 <= j <= 3 /\ 1 <= r <= 8) as [Hj Hr] by (unfold r, j; zdiv).
    assert (prefix_bytes m = j + 1) as -> by (unfold prefix_bytes, r, j in *; zdiv).
    destruct (lookup_lt_is_Some_2 address (Z.to_nat j)) as [x Hx]; [lia|].
    pose proof (take_drop_middle _ _ _ Hx) as Hsplit.
    assert (take (Z.to_nat (j + 1)) address = take (Z.to_nat j) address ++ [x]) as ->
      by (replace (Z.to_nat (j + 1)) with (S (Z.to_nat j)) by lia; by apply take_S_r).
    set (front := take (Z.to_nat j) address) in *. set (rest := drop (S (Z.to_nat j)) address) in *.
    assert (length front = Z.to_nat j) as Hf by (unfold front; rewrite length_take; lia).
    assert (length rest = (3 - Z.to_nat j)%nat) as Hrest by (unfold rest; rewrite length_drop; lia).
    rewrite <- Hsplit in Hb |- *. replace m with (8 * blen front + r) by (unfold blen, r; lia).
    unfold network_text. rewrite (network_bytes front x r rest), (masked_text front x r (length rest)) by (done || lia || (apply bytes_ok_app in Hb as [_ Hb]; apply bytes_ok_cons in Hb; tauto)).
    done.
Qed.

(** ** Prefixes read back *)

(** A prefix on the wire: path identifier, number of bits, address. *)
Abbreviation wire_prefix := (Z * Z * list Z)%type.

Definition prefix_ok (p : wire_prefix) : Prop :=
  let '(id, m, address) := p in 0 <= id < 2 ^ 32 /\ 0 <= m <= 32 /\ length address = 4%nat /\ bytes_ok address.

Definition enc_prefix (addPath : bool) (p : wire_prefix) : buffer :=
  let '(id, m, address) := p in
  (if addPath then be_bytes 4 id else []) ++ [m] ++ take (Z.to_nat (prefix_bytes m)) address.

Definition prefix_route (addPath : bool) (p : wire_prefix) : nlri_route :=
  let '(id, m, address) := p in {|
    pathId := if addPath then id else 0; prefix := network_text address m; prefixLength := m;
    route_valid := true; route_errors := []; route_warnings := [] |}.

Lemma prefix_bytes_bound m : 0 <= m <= 32 -> 0 <= prefix_bytes m <= 4.
Proof. unfold prefix_bytes. intros. zdiv. Qed.

Lemma parse_prefix_step addPath p fuel pre post endPosition routes errors :
  prefix_ok p -> blen (pre ++ enc_prefix addPath p) <= endPosition ->
  parse_ipv4_prefixes (S fuel) (pre ++ enc_prefix addPath p ++ post) (blen pre) endPosition addPath routes errors =
  parse_ipv4_prefixes fuel (pre ++ enc_prefix addPath p ++ post) (blen (pre ++ enc_prefix addPath p)) endPosition addPath
    (routes ++ [prefix_route addPath p]) errors.
Proof.
  destruct p as [[id m] address]. intros (Hid & Hm & Hl & Hb). pose proof (prefix_bytes_bound m Hm) as Hk.
  set (ids := if addPath then be_bytes 4 id else []). set (kept := take (Z.to_nat (prefix_bytes m)) address).
  assert (blen kept = prefix_bytes m) as Hkept by (unfold kept, blen; rewrite length_take; lia).
  assert (blen ids = if addPath then 4 else 0) as Hids by (unfold ids; destruct addPath; [apply blen_be_bytes | done]).
  unfold enc_prefix. fold ids kept. set (b := pre ++ (ids ++ [m] ++ kept) ++ post). intros Hend.
  assert (b = pre ++ ids ++ m :: kept ++ post) as Hb' by (unfold b; by rewrite <- !app_assoc).
  assert (0 <= (if addPath then 4 else 0)) by (destruct addPath; lia).
  autorewrite with blen in Hend |- *. rewrite Hids, Hkept in *. cbn [parse_ipv4_prefixes].
  decide_test (blen pre <? endPosition) true.
  replace (addPath && (endPosition <? blen pre + 4)) with false by (destruct addPath; [symmetry; apply Z.ltb_ge; lia | done]).
  replace (if addPath then blen pre + 4 else blen pre) with (blen (pre ++ ids)) by (rewrite blen_app, Hids; destruct addPath; lia).
  assert (blen (pre ++ ids) = blen pre + (if addPath then 4 else 0)) as Hpos by (by rewrite blen_app, Hids).
  decide_test (endPosition <=? blen (pre ++ ids)) false.
  rewrite (byte_at_pos b (pre ++ ids) m (kept ++ post)) by (done || (rewrite Hb'; by rewrite <- app_assoc)).
  unfold IP_HOST_LEN. decide_test (32 <? m) false. decide_test (endPosition <? blen (pre ++ ids) + 1 + prefix_bytes m) false.
  cbn [app map]. rewrite app_nil_r. rewrite Z.min_l by lia. rewrite (Z.min_l m) by lia.
  replace (subarray b (blen (pre ++ ids) + 1) (blen (pre ++ ids) + 1 + prefix_bytes m)) with kept.
  2:{ symmetry. replace (blen (pre ++ ids) + 1) with (blen (pre ++ ids ++ [m])) by blia. rewrite <- Hkept.
      replace b with ((pre ++ ids ++ [m]) ++ kept ++ post) by (rewrite Hb'; by rewrite <- !app_assoc). apply subarray_mid. }
  unfold kept at 1. rewrite prefix_text by done. rewrite bool_decide_true by done.
  replace (if addPath then read_field 4 b (blen pre) else 0) with (if addPath then id else 0).
  2:{ destruct addPath; [|done]. symmetry. by apply (read_field_at 4 4 b pre id (m :: kept ++ post)). }
  f_equal. rewrite Hpos. destruct addPath; lia.
Qed.

Lemma blen_enc_prefix addPath p : prefix_ok p -> 1 <= blen (enc_prefix addPath p).
Proof. destruct p as [[id m] address]. intros _. unfold enc_prefix. autorewrite with blen. destruct addPath; blia. Qed.

Lemma parse_prefixes_run addPath l : forall pre post fuel routes errors,
  Forall prefix_ok l -> (length l < fuel)%nat ->
  let wire := concat (map (enc_prefix addPath) l) in
  parse_ipv4_prefixes fuel (pre ++ wire ++ post) (blen pre) (blen (pre ++ wire)) addPath routes errors =
  Some (finish_nlri (routes ++ map (prefix_route addPath) l) errors (blen (pre ++ wire)) (blen (pre ++ wire))).
Proof.
  induction l as [|p l IH]; intros pre post fuel routes errors Hl Hf wire; (destruct fuel as [|fuel]; [cbn [length] in Hf; lia|]).
  - unfold wire. cbn [map concat]. rewrite !app_nil_r. cbn [parse_ipv4_prefixes]. by rewrite Z.ltb_irrefl.
  - apply Forall_cons_1 in Hl as [Hp Hl]. unfold wire. cbn [map concat]. rewrite <- app_assoc.
    rewrite parse_prefix_step by (done || blia). cbn [length] in Hf. rewrite !(app_assoc pre (enc_prefix addPath p)).
    rewrite IH by (done || lia). by rewrite <- app_assoc.
Qed.

Lemma length_wire addPath l : Forall prefix_ok l -> (length l <= length (concat (map (enc_prefix addPath) l)))%nat.
Proof.
  induction 1 as [|p l Hp _ IH]; [done|]. cbn [map concat length]. rewrite length_app.
  pose proof (blen_enc_prefix addPath p Hp). unfold blen in *. lia.
Qed.

(** The candidates always have a result: each turn consumes at least a byte. *)
Lemma parse_prefixes_total fuel : forall b position endPosition addPath routes errors,
  0 <= position -> bytes_ok b -> (Z.to_nat (endPosition - position) < fuel)%nat ->
  is_Some (parse_ipv4_prefixes fuel b position endPosition addPath routes errors).
Proof.
  induction fuel as [|fuel IH]; intros b pos end_ addPath routes errors Hpos Hb Hf; [lia|]. cbn [parse_ipv4_prefixes].
  destruct (pos <? end_) eqn:El; [|by eexists]. bool_hyps.
  destruct (addPath && (end_ <? pos + 4)) eqn:E1; [by eexists|].
  set (p := if addPath then pos + 4 else pos). assert (pos <= p) by (unfold p; destruct addPath; lia).
  destruct (end_ <=? p) eqn:E2; [by eexists|]. bool_hyps.
  pose proof (byte_at_nonneg b p Hb). assert (0 <= prefix_bytes (byte_at b p)) by (unfold prefix_bytes; apply Z.div_pos; lia).
  apply IH; [lia | done | lia].
Qed.

Lemma candidate_run addPath l pre post :
  Forall prefix_ok l ->
  let wire := concat (map (enc_prefix addPath) l) in
  parseIpv4NlriSequenceCandidate (pre ++ wire ++ post) (blen pre) (blen (pre ++ wire)) addPath =
  Some (finish_nlri (map (prefix_route addPath) l) [] (blen (pre ++ wire)) (blen (pre ++ wire))).
Proof.
  intros Hl wire. unfold parseIpv4NlriSequenceCandidate. apply (parse_prefixes_run addPath l pre post _ [] []); [done|].
  rewrite !length_app. pose proof (length_wire addPath l Hl). unfold wire. lia.
Qed.

(** A strong indication of ADD-PATH, as a session has it. *)
Definition strong (addPath : bool) (i : add_path_info) : Prop := enabled i = addPath /\ isWeakAddPathInfo i = false.

Lemma sequence_run addPath l i pre post :
  Forall prefix_ok l -> strong addPath i -> bytes_ok (pre ++ concat (map (enc_prefix addPath) l) ++ post) ->
  let wire := concat (map (enc_prefix addPath) l) in
  exists r, parseIpv4NlriSequence (pre ++ wire ++ post) (blen pre) (blen (pre ++ wire)) i = Some r /\
    nlri_routes r = map (prefix_route addPath) l /\ nlri_errors r = [] /\ nlri_warnings r = [].
Proof.
  intros Hl [He Hw] Hb wire. unfold parseIpv4NlriSequence, chooseNlriParseByLength. rewrite He, Hw.
  destruct addPath; cbn [negb andb].
  - pose proof (candidate_run true l pre post Hl) as Hc. cbv zeta in Hc. fold wire in Hc. rewrite Hc.
    destruct (parse_prefixes_total (S (length (pre ++ wire ++ post))) (pre ++ wire ++ post) (blen pre) (blen (pre ++ wire)) false [] [])
      as [r Hr]; [blia | done | unfold blen; rewrite !length_app; lia|].
    unfold parseIpv4NlriSequenceCandidate. fold wire. rewrite Hr.
    unfold finish_nlri at 1. cbn [nlri_valid]. rewrite bool_decide_true, Z.eqb_refl by done. by eexists.
  - pose proof (candidate_run false l pre post Hl) as Hc. cbv zeta in Hc. fold wire in Hc. rewrite Hc. by eexists.
Qed.

(** ** Attributes read back *)

(** An attribute on the wire: flags, type code and value. *)
Abbreviation wire_attr := (Z * Z * list Z)%type.

Definition extended (flags : Z) : bool := BIT_TEST flags FLAG_EXTENDED_LENGTH.

Definition enc_attr (a : wire_attr) : buffer :=
  let '(flags, code, value) := a in
  [flags; code] ++ (if extended flags then be_bytes 2 (blen value) else [blen value]) ++ value.

Definition attr_ok (a : wire_attr) : Prop :=
  let '(flags, code, value) := a in blen value < 65536 /\ (extended flags = false -> blen value < 256).

Lemma blen_enc_attr a : blen (enc_attr a) = (if extended (fst (fst a)) then 4 else 3) + blen (snd a).
Proof. destruct a as [[flags code] value]. unfold enc_attr. cbn [fst snd]. destruct (extended flags); autorewrite with blen; lia. Qed.

Section ReadBack.
Context {special : Type} (decode_special : special_decoder special) (context : update_context).

Lemma parse_attribute_step a fuel pre post endPosition acc r :
  attr_ok a -> blen (pre ++ enc_attr a) <= endPosition ->
  parse_attribute decode_special context (fst (fst a)) (snd (fst a)) (snd a) = Some (Ok r) ->
  parse_attributes decode_special context (S fuel) (pre ++ enc_attr a ++ post) (blen pre) endPosition acc =
  parse_attributes decode_special context fuel (pre ++ enc_attr a ++ post) (blen (pre ++ enc_attr a)) endPosition (acc ++ [r]).
Proof.
  destruct a as [[flags code] value]. cbn [fst snd]. intros [Hv Hx] Hend Hr. rewrite blen_app, blen_enc_attr in *. cbn [fst snd] in *.
  pose proof (blen_nonneg value).
  set (len := if extended flags then be_bytes 2 (blen value) else [blen value]).
  assert (blen len = if extended flags then 2 else 1) as Hlen by (unfold len; destruct (extended flags); [apply blen_be_bytes | done]).
  unfold enc_attr. fold len. set (b := pre ++ ([flags; code] ++ len ++ value) ++ post).
  assert (b = pre ++ flags :: code :: len ++ value ++ post) as Hb by (unfold b; cbn [app]; by rewrite <- !app_assoc).
  cbn [parse_attributes]. pose proof (blen_nonneg pre).
  assert (3 <= (if extended flags then 4 else 3) <= 4) by (destruct (extended flags); lia).
  decide_test (blen pre <? endPosition) true. decide_test (endPosition <? blen pre + 2) false.
  rewrite (byte_at_pos b pre flags (code :: len ++ value ++ post)) by done.
  rewrite (byte_at_pos b (pre ++ [flags]) code (len ++ value ++ post) (blen pre + 1)) by ((by rewrite <- app_assoc) || by rewrite blen_app).
  fold (extended flags).
  replace (extended flags && (endPosition <? blen pre + 2 + 2)) with false by (destruct (extended flags); [symmetry; apply Z.ltb_ge; lia | done]).
  replace (negb (extended flags) && (endPosition <? blen pre + 2 + 1)) with false by (destruct (extended flags); [done | symmetry; apply Z.ltb_ge; lia]).
  replace (if extended flags then read_field 2 b (blen pre + 2) else byte_at b (blen pre + 2)) with (blen value).
  2:{ symmetry. assert (b = (pre ++ [flags; code]) ++ len ++ value ++ post) as Hb2 by (rewrite Hb; by rewrite <- app_assoc).
      unfold len in Hb2. destruct (extended flags).
      - apply (read_field_at 2 2 b (pre ++ [flags; code]) (blen value) (value ++ post)); (done || blia || (change (2 ^ (8 * Z.of_nat 2)) with 65536; lia)).
      - apply (byte_at_pos b (pre ++ [flags; code]) (blen value) (value ++ post)); [done | blia]. }
  set (p := if extended flags then blen pre + 2 + 2 else blen pre + 2 + 1).
  assert (p = blen (pre ++ [flags; code] ++ len)) as -> by (unfold p; rewrite !blen_app, Hlen; change (blen [flags; code]) with 2; destruct (extended flags); lia).
  assert (blen (pre ++ [flags; code] ++ len) = blen pre + (if extended flags then 4 else 3)) as Hp
    by (rewrite !blen_app, Hlen; change (blen [flags; code]) with 2; destruct (extended flags); lia).
  decide_test (endPosition <? blen (pre ++ [flags; code] ++ len) + blen value) false.
  replace (subarray b _ _) with value.
  2:{ symmetry. replace b with ((pre ++ [flags; code] ++ len) ++ value ++ post) by (rewrite Hb; by rewrite <- !app_assoc). apply subarray_mid. }
  rewrite Hr. f_equal. lia.
Qed.

Lemma parse_attributes_run l rs : forall pre post fuel acc,
  Forall2 (fun a r => attr_ok a /\ parse_attribute decode_special context (fst (fst a)) (snd (fst a)) (snd a) = Some (Ok r)) l rs ->
  (length l < fuel)%nat ->
  let wire := concat (map enc_attr l) in
  parse_attributes decode_special context fuel (pre ++ wire ++ post) (blen pre) (blen (pre ++ wire)) acc = Some (Ok (acc ++ rs, [])).
Proof.
  intros pre post fuel acc Hl. revert pre post fuel acc.
  induction Hl as [|a r l rs [Ha Hr] _ IH]; intros pre post fuel acc Hf wire; (destruct fuel as [|fuel]; [cbn [length] in Hf; lia|]).
  - unfold wire. cbn [map concat parse_attributes]. rewrite !app_nil_r. by rewrite Z.ltb_irrefl.
  - unfold wire. cbn [map concat]. rewrite <- app_assoc. cbn [length] in Hf.
    rewrite (parse_attribute_step a _ _ _ _ _ r) by (done || blia). rewrite !(app_assoc pre (enc_attr a)).
    rewrite IH by lia. by rewrite <- app_assoc.
Qed.

Lemma length_wire_attrs l : (length l <= length (concat (map enc_attr l)))%nat.
Proof.
  induction l as [|a l IH]; [done|]. cbn [map concat length]. rewrite length_app. pose proof (blen_enc_attr a) as Ha.
  pose proof (blen_nonneg (snd a)). unfold blen in *. destruct (extended _); lia.
Qed.

Lemma path_attributes_run l rs pre post :
  Forall2 (fun a r => attr_ok a /\ parse_attribute decode_special context (fst (fst a)) (snd (fst a)) (snd a) = Some (Ok r)) l rs ->
  let wire := concat (map enc_attr l) in
  parsePathAttributes decode_special context (pre ++ wire ++ post) (blen pre) (blen (pre ++ wire)) =
  Some (Ok (rs, blen (pre ++ wire), [])).
Proof.
  intros Hl wire. unfold parsePathAttributes.
  replace ((blen (pre ++ wire ++ post) <? blen (pre ++ wire)) || (blen (pre ++ wire) <? blen pre)) with false
    by (symmetry; apply orb_false_iff; split; apply Z.ltb_ge; blia).
  pose proof (parse_attributes_run l rs pre post (S (length (pre ++ wire ++ post))) [] Hl) as Hrun. cbv zeta in Hrun. fold wire in Hrun.
  rewrite Hrun; [done|]. rewrite !length_app. pose proof (length_wire_attrs l). unfold wire. lia.
Qed.

(** *** The attributes a peer sends *)

Lemma decode_origin flags v : 0 <= v <= 2 ->
  parse_attribute decode_special context flags 1 [v] = Some (Ok (attribute flags 1 [v] (Origin v) None [])).
Proof.
  intros Hv. unfold parse_attribute. cbn [FIXED_ATTRIBUTE_LENGTHS]. rewrite bool_decide_true by (by apply list_elem_of_singleton).
  cbn [negb]. unfold decode_attribute. cbn [path_attr_value Z.eqb Pos.eqb]. change (byte_at [v] 0) with v. by decide_test (2 <? v) false.
Qed.

(** An attribute whose value is one 32-bit number. *)
Lemma decode_number flags code v d :
  0 <= v < 2 ^ 32 -> (code = 4 /\ d = Med v) \/ (code = 5 /\ d = LocalPref v) ->
  parse_attribute decode_special context flags code (be_bytes 4 v) = Some (Ok (attribute flags code (be_bytes 4 v) d None [])).
Proof.
  intros Hv Hc. assert (read_field 4 (be_bytes 4 v) 0 = v) as Hr.
  { rewrite <- (app_nil_r (be_bytes 4 v)). by apply (read_field_at 4 4 _ [] v []). }
  unfold parse_attribute.
  destruct Hc as [[-> ->]|[-> ->]]; cbn [FIXED_ATTRIBUTE_LENGTHS]; rewrite blen_be_bytes, bool_decide_true by (by apply list_elem_of_singleton);
    cbn [negb]; unfold decode_attribute; cbn [path_attr_value Z.eqb Pos.eqb orb]; rewrite Hr; by rewrite blen_be_bytes.
Qed.

Lemma decode_next_hop flags value : length value = 4%nat ->
  parse_attribute decode_special context flags 3 value =
  Some (Ok (attribute flags 3 value (NextHop (join_with 46 (map dec_digits value))) None [])).
Proof.
  intros Hl. destruct value as [|a [|b [|c [|d [|? ?]]]]]; done.
Qed.

(** *** The AS path *)

Definition enc_segment (ns : list Z) : buffer := [2; blen ns] ++ concat (map (be_bytes 4) ns).

Definition segment_ok (ns : list Z) : Prop := 1 <= blen ns <= 255 /\ Forall (fun n => 0 <= n < 2 ^ 32) ns.

Lemma blen_numbers ns : blen (concat (map (be_bytes 4) ns)) = 4 * blen ns.
Proof. induction ns as [|n ns IH]; [done|]. cbn [map concat]. rewrite blen_app, blen_be_bytes, IH, blen_cons. lia. Qed.

Lemma read_numbers_run ns pre post :
  Forall (fun n => 0 <= n < 2 ^ 32) ns -> read_numbers (length ns) 4 (pre ++ concat (map (be_bytes 4) ns) ++ post) (blen pre) = ns.
Proof.
  intros Hn. revert pre. induction Hn as [|n ns Hn _ IH]; intros pre; [done|]. cbn [length read_numbers map concat].
  rewrite <- app_assoc. f_equal.
  - by apply (read_field_at 4 4 _ pre n (concat (map (be_bytes 4) ns) ++ post)).
  - rewrite (app_assoc pre). replace (blen pre + 4) with (blen (pre ++ be_bytes 4 n)) by (by rewrite blen_app, blen_be_bytes). apply IH.
Qed.

Lemma parse_segments_run segs : forall pre fuel acc,
  Forall segment_ok segs -> (length segs < fuel)%nat ->
  parse_segments fuel 4 (pre ++ concat (map enc_segment segs)) (blen pre) acc =
  Some (acc ++ map (fun ns => {| segment_type := 2; asNumbers := ns |}) segs, []).
Proof.
  induction segs as [|ns segs IH]; intros pre fuel acc Hs Hf; (destruct fuel as [|fuel]; [cbn [length] in Hf; lia|]); cbn [map concat].
  - rewrite !app_nil_r. cbn [parse_segments]. by rewrite Z.ltb_irrefl.
  - apply Forall_cons_1 in Hs as [[Hn Hb] Hs]. set (rest := concat (map enc_segment segs)).
    set (b := pre ++ enc_segment ns ++ rest).
    assert (b = pre ++ 2 :: blen ns :: concat (map (be_bytes 4) ns) ++ rest) as Eb by done.
    assert (blen (enc_segment ns) = 2 + 4 * blen ns) as Hl by (unfold enc_segment; rewrite blen_app, blen_numbers; done).
    assert (blen b = blen pre + (2 + 4 * blen ns) + blen rest) as Hbl by (unfold b; rewrite !blen_app, Hl; lia).
    pose proof (blen_nonneg rest). cbn [parse_segments]. rewrite Hbl.
    decide_test (blen pre <? blen pre + (2 + 4 * blen ns) + blen rest) true.
    decide_test (blen pre + (2 + 4 * blen ns) + blen rest <? blen pre + 2) false.
    rewrite (byte_at_pos b pre 2 (blen ns :: concat (map (be_bytes 4) ns) ++ rest) (blen pre)) by done.
    rewrite (byte_at_pos b (pre ++ [2]) (blen ns) (concat (map (be_bytes 4) ns) ++ rest) (blen pre + 1))
      by ((by rewrite <- app_assoc) || by rewrite blen_app).
    cbn [Z.ltb Z.compare Pos.compare Pos.compare_cont orb]. decide_test (blen ns =? 0) false.
    decide_test (blen pre + (2 + 4 * blen ns) + blen rest <? blen pre + 2 + blen ns * 4) false.
    replace (blen pre + 2 + blen ns * 4) with (blen (pre ++ enc_segment ns)) by (rewrite blen_app, Hl; lia).
    replace (Z.to_nat (blen ns)) with (length ns) by (unfold blen; lia).
    assert (read_numbers (length ns) 4 b (blen pre + 2) = ns) as ->.
    { replace (blen pre + 2) with (blen (pre ++ [2; blen ns])) by (by rewrite blen_app).
      replace b with ((pre ++ [2; blen ns]) ++ concat (map (be_bytes 4) ns) ++ rest) by (rewrite Eb; by rewrite <- app_assoc).
      by apply read_numbers_run. }
    cbn [length] in Hf. replace b with ((pre ++ enc_segment ns) ++ rest) by (unfold b; by rewrite <- app_assoc).
    unfold rest. rewrite IH by (done || lia). by rewrite <- app_assoc.
Qed.

Lemma decode_as_path flags segs :
  asnSize context = None -> Forall segment_ok segs ->
  let value := concat (map enc_segment segs) in
  parse_attribute decode_special context flags 2 value =
  Some (Ok (attribute flags 2 value (AsPath (map (fun ns => {| segment_type := 2; asNumbers := ns |}) segs)) (Some true) [])).
Proof.
  intros Hc Hs value. unfold parse_attribute. cbn [FIXED_ATTRIBUTE_LENGTHS path_attr_value Z.eqb Pos.eqb andb orb].
  unfold decode_attribute. cbn [path_attr_value Z.eqb Pos.eqb orb]. unfold parse_as_path_attribute. rewrite Hc.
  cbn [js_or_number path_attr_value Z.eqb Pos.eqb].
  assert (parseAsPath value 4 = Some (map (fun ns => {| segment_type := 2; asNumbers := ns |}) segs, [])) as ->; [|done].
  unfold parseAsPath, value. apply (parse_segments_run segs [] _ []); [done|].
  clear -Hs. induction segs as [|ns segs IH]; [cbn; lia|]. cbn [map concat length]. rewrite length_app. unfold enc_segment at 1. cbn [app length].
  apply Forall_cons_1 in Hs as [_ Hs]. specialize (IH Hs). lia.
Qed.

(** *** Communities *)

Definition enc_community (c : Z * Z) : buffer := be_bytes 2 (fst c) ++ be_bytes 2 (snd c).

Definition community_of (c : Z * Z) : Z * jsstring := (fst c * 65536 + snd c, dec_digits (fst c) ++ [58] ++ dec_digits (snd c)).

Definition community_ok (c : Z * Z) : Prop := u16 (fst c) /\ u16 (snd c).

Lemma community_bytes_value c : community_ok c -> enc_community c = be_bytes 4 (fst c * 65536 + snd c).
Proof.
  destruct c as [h l]. intros [Hh Hl]. unfold enc_community, u16 in *. cbn [fst snd] in *.
  rewrite <- (be_bytes_be_value (be_bytes 2 h ++ be_bytes 2 l)) by (apply bytes_ok_app; auto using bytes_ok_be_bytes).
  rewrite be_value_app, !be_value_be_bytes, blen_be_bytes by (cbn; lia). done.
Qed.

Lemma community_text_value c : community_ok c -> community_text (fst c * 65536 + snd c) = community_of c.
Proof.
  destruct c as [h l]. intros [Hh Hl]. unfold u16 in *. cbn [fst snd] in *. unfold community_text, community_of. cbn [fst snd].
  change 65535 with (2 ^ 16 - 1). rewrite !js_and_mask by lia.
  assert (js_shr (h * 65536 + l) 16 mod 2 ^ 16 = h) as ->.
  { unfold js_shr. rewrite Z.shiftr_div_pow2 by lia. destruct (to_int32_congr (h * 65536 + l)) as [m ->].
    replace (h * 65536 + l + m * 2 ^ 32) with (l + (h + m * 2 ^ 16) * 2 ^ 16) by lia.
    change (2 ^ 16) with 65536. rewrite Z.div_add by lia. rewrite (Z.div_small l) by lia. rewrite Z.add_0_l, Z.mod_add by lia. apply Z.mod_small; lia. }
  replace ((h * 65536 + l) mod 2 ^ 16) with l by zdiv.
  unfold js_number_to_string. decide_test (h <? 0) false. by decide_test (l <? 0) false.
Qed.

Lemma parse_communities_run cs : forall n pre,
  Forall community_ok cs -> (length cs <= n)%nat ->
  parse_communities n (pre ++ concat (map enc_community cs)) (blen pre) = Ok (map community_of cs).
Proof.
  induction cs as [|c cs IH]; intros n pre Hc Hn; cbn [map concat].
  - rewrite app_nil_r. destruct n; [done|]. cbn [parse_communities]. by rewrite Z.ltb_irrefl.
  - apply Forall_cons_1 in Hc as [Hok Hc]. destruct n as [|n]; [cbn [length] in Hn; lia|]. cbn [parse_communities length] in *.
    rewrite (community_bytes_value c Hok). set (rest := concat (map enc_community cs)).
    assert (0 <= fst c * 65536 + snd c < 2 ^ 32) as Hv by (destruct Hok; unfold u16 in *; lia).
    assert (blen pre < blen (pre ++ be_bytes 4 (fst c * 65536 + snd c) ++ rest)) as Hlt
      by (rewrite !blen_app, blen_be_bytes; pose proof (blen_nonneg rest); lia).
    apply Z.ltb_lt in Hlt. rewrite Hlt. unfold readUInt32BE. rewrite (read_be 4) by done. cbn [bind_result].
    rewrite app_assoc. replace (blen pre + 4) with (blen (pre ++ be_bytes 4 (fst c * 65536 + snd c))) by (by rewrite blen_app, blen_be_bytes).
    unfold rest. rewrite IH by (done || lia). cbn [bind_result]. by rewrite community_text_value.
Qed.

Lemma decode_communities flags cs : Forall community_ok cs ->
  let value := concat (map enc_community cs) in
  parse_attribute decode_special context flags 8 value =
  Some (Ok (attribute flags 8 value (Communities (map community_of cs)) None [])).
Proof.
  intros Hc value.
  assert (blen value = 4 * blen cs) as Hl.
  { unfold value. clear Hc. induction cs as [|c cs IH]; [done|]. cbn [map concat]. rewrite blen_app, IH, blen_cons.
    unfold enc_community. rewrite blen_app, !blen_be_bytes. lia. }
  unfold parse_attribute. cbn [FIXED_ATTRIBUTE_LENGTHS path_attr_value Z.eqb Pos.eqb andb orb].
  replace (blen value mod 4) with 0 by (rewrite Hl; zdiv). cbn [Z.eqb negb andb orb].
  unfold decode_attribute. cbn [path_attr_value Z.eqb Pos.eqb orb]. unfold parseCommunities.
  pose proof (parse_communities_run cs (length value) [] Hc) as Hrun. fold value in Hrun.
  change ([] ++ value) with value in Hrun. change (blen (@nil Z)) with 0 in Hrun. rewrite Hrun; [done|].
  unfold blen in Hl. lia.
Qed.
End ReadBack.

(** ** Messages read back *)

(** The body of an UPDATE: withdrawn prefixes, attributes and prefixes. *)
Definition update_body (w a n : buffer) : buffer := be_bytes 2 (blen w) ++ w ++ be_bytes 2 (blen a) ++ a ++ n.

Lemma bytes_ok_enc_prefix addPath p : prefix_ok p -> bytes_ok (enc_prefix addPath p).
Proof.
  destruct p as [[id m] address]. intros (Hid & Hm & Hl & Hb). unfold enc_prefix. rewrite !bytes_ok_app. split_and!.
  - destruct addPath; [apply bytes_ok_be_bytes | constructor].
  - apply bytes_ok_cons. split; [unfold is_byte; lia | constructor].
  - by apply Forall_take.
Qed.

Lemma bytes_ok_prefixes addPath l : Forall prefix_ok l -> bytes_ok (concat (map (enc_prefix addPath) l)).
Proof. induction 1; [constructor|]. cbn [map concat]. apply bytes_ok_app. auto using bytes_ok_enc_prefix. Qed.

Section Message.
Context {special : Type} (decode_special : special_decoder special) (context : update_context).

(** Attributes and how the parser reads them. *)
Definition reads (l : list wire_attr) (rs : list (path_attribute special)) : Prop :=
  Forall2 (fun a r => attr_ok a /\ parse_attribute decode_special context (fst (fst a)) (snd (fst a)) (snd a) = Some (Ok r)) l rs.

Lemma no_errors rs :
  Forall (fun r => attr_valid r <> Some false) rs -> concat (map (errors_of_attribute (special := special)) rs) = [].
Proof.
  induction 1 as [|r rs Hr _ IH]; [done|]. cbn [map concat]. rewrite IH, app_nil_r. unfold errors_of_attribute.
  by rewrite bool_decide_false.
Qed.

Lemma update_read_back addPath wl l rs nl :
  Forall prefix_ok wl -> Forall prefix_ok nl -> reads l rs -> bytes_ok (concat (map enc_attr l)) ->
  Forall (fun r => attr_valid r <> Some false) rs ->
  strong addPath (getAddPathReceiveInfo context AFI_IPV4 SAFI_UNICAST) ->
  let body := update_body (concat (map (enc_prefix addPath) wl)) (concat (map enc_attr l)) (concat (map (enc_prefix addPath) nl)) in
  u16 (BGP_HEAD_LEN + blen body) ->
  exists u, parse_update_packet decode_special context (message (packet_type_value UPDATE) body) = Some (Some u) /\
    update_valid u = true /\ withdrawnRoutes u = map (prefix_route addPath) wl /\ pathAttributes u = rs /\
    nlri u = map (prefix_route addPath) nl.
Proof.
  intros Hw Hn Hl Hlb Hvalid Hstrong body Hlen.
  set (w := concat (map (enc_prefix addPath) wl)) in *. set (a := concat (map enc_attr l)) in *. set (n := concat (map (enc_prefix addPath) nl)) in *.
  pose proof (bytes_ok_prefixes addPath wl Hw) as Hwb. pose proof (bytes_ok_prefixes addPath nl Hn) as Hnb. fold w in Hwb. fold n in Hnb.
  pose proof (blen_nonneg w). pose proof (blen_nonneg a). pose proof (blen_nonneg n).
  assert (blen body = 4 + blen w + blen a + blen n) as Hbody by (unfold body, update_body; rewrite !blen_app, !blen_be_bytes; lia).
  unfold u16, BGP_HEAD_LEN in Hlen. rewrite Hbody in Hlen.
  unfold parse_update_packet. rewrite parse_message by (unfold u16, BGP_HEAD_LEN; rewrite ?Hbody; cbn; lia).
  cbn [packet_type_value Z.eqb Pos.eqb andb].
  set (b := message 2 body).
  set (h := marker ++ be_bytes 2 (BGP_HEAD_LEN + blen body) ++ [2]).
  assert (blen h = 19) as Hh by (unfold h; rewrite !blen_app, blen_be_bytes; done).
  assert (b = h ++ be_bytes 2 (blen w) ++ w ++ be_bytes 2 (blen a) ++ a ++ n) as Hb
    by (unfold b, h, message, body, update_body; by rewrite <- !app_assoc).
  set (h1 := h ++ be_bytes 2 (blen w)). set (h2 := h1 ++ w). set (h3 := h2 ++ be_bytes 2 (blen a)). set (h4 := h3 ++ a).
  assert (h1 ++ w ++ be_bytes 2 (blen a) ++ a ++ n = b /\ h3 ++ a ++ n = b /\ h4 ++ n = b) as (B1 & B3 & B4)
    by (rewrite Hb; unfold h4, h3, h2, h1; rewrite <- !app_assoc; done).
  assert (blen h1 = 21 /\ blen h2 = 21 + blen w /\ blen h3 = 23 + blen w /\ blen h4 = 23 + blen w + blen a /\ blen b = 23 + blen w + blen a + blen n)
    as (E1 & E2 & E3 & E4 & E5).
  { rewrite <- B4. unfold h4, h3, h2, h1. rewrite !blen_app, !blen_be_bytes, Hh. lia. }
  assert (bytes_ok b) as Hbok.
  { rewrite Hb. rewrite !bytes_ok_app. split_and!; auto using bytes_ok_be_bytes. unfold h. rewrite !bytes_ok_app.
    split_and!; [apply Forall_replicate; unfold is_byte; lia | apply bytes_ok_be_bytes | apply bytes_ok_cons; split; [unfold is_byte; lia | constructor]]. }
  unfold parseUpdateMessage. change BGP_HEAD_LEN with 19.
  assert (readUInt16BE b 19 = Ok (blen w)) as ->.
  { rewrite Hb, <- Hh. apply (read_be 2). change (2 ^ (8 * Z.of_nat 2)) with 65536. lia. }
  change (19 + 2) with 21. rewrite E5. decide_test (23 + blen w + blen a + blen n <? 21 + blen w + 2) false.
  rewrite Z.min_l by lia.
  destruct (sequence_run addPath wl _ h1 (be_bytes 2 (blen a) ++ a ++ n) Hw Hstrong) as (r1 & Hr1 & R1 & X1 & _).
  { fold w. by rewrite B1. }
  fold w in Hr1. fold h2 in Hr1. rewrite B1, E1, E2 in Hr1. rewrite Hr1.
  assert (read_field 2 b (21 + blen w) = blen a) as ->.
  { apply (read_field_at 2 2 b h2 (blen a) (a ++ n)); [|by rewrite E2|done|change (2 ^ (8 * Z.of_nat 2)) with 65536; lia].
    rewrite Hb. unfold h2, h1. by rewrite <- !app_assoc. }
  replace (21 + blen w + 2) with (blen h3) by lia. decide_test (23 + blen w + blen a + blen n <? blen h3 + blen a) false.
  replace (blen h3 + blen a) with (blen h4) by lia.
  pose proof (path_attributes_run decode_special context l rs h3 n Hl) as Hrun. cbv zeta in Hrun. fold a in Hrun. fold h4 in Hrun.
  rewrite B3 in Hrun. rewrite Hrun.
  destruct (sequence_run addPath nl _ h4 [] Hn Hstrong) as (r2 & Hr2 & R2 & X2 & _).
  { fold n. by rewrite app_nil_r, B4. }
  fold n in Hr2. rewrite app_nil_r, B4 in Hr2.
  rewrite <- E5, Hr2. eexists. split; [reflexivity|]. cbn [update_valid withdrawnRoutes pathAttributes nlri].
  rewrite X1, X2, no_errors by done. done.
Qed.

(** ** The parser ends *)

Lemma parse_segments_total fuel : forall size b position acc, 0 < size -> bytes_ok b ->
  (Z.to_nat (blen b - position) < fuel)%nat -> is_Some (parse_segments fuel size b position acc).
Proof.
  induction fuel as [|fuel IH]; intros size b pos acc Hs Hb Hf; [lia|]. cbn [parse_segments].
  destruct (pos <? blen b) eqn:E0; [|by eexists]. bool_hyps. destruct (blen b <? pos + 2); [by eexists|].
  destruct (_ || _); [by eexists|]. destruct (blen b <? _); [by eexists|].
  pose proof (byte_at_nonneg b (pos + 1) Hb). apply IH; [done | done | nia].
Qed.

Lemma parse_as_path_total code value :
  bytes_ok value -> 0 < js_or_number (asnSize context) 4 -> is_Some (parse_as_path_attribute context code value).
Proof.
  intros Hb Hs. unfold parse_as_path_attribute, parseAsPath.
  destruct (parse_segments_total (S (length value)) (if code =? path_attr_value ATTR_AS4_PATH then 4 else js_or_number (asnSize context) 4) value 0 [])
    as [x Hx]; [destruct (code =? _); lia | done | unfold blen; lia|]. rewrite Hx. destruct (_ && _); [|by eexists].
  destruct (parse_segments_total (S (length value)) 2 value 0 []) as [y Hy]; [done | done | unfold blen; lia|]. rewrite Hy. by eexists.
Qed.

Lemma parse_attribute_total flags code value :
  bytes_ok value -> 0 < js_or_number (asnSize context) 4 -> is_Some (parse_attribute decode_special context flags code value).
Proof.
  intros Hb Hs. destruct (parse_as_path_total code value Hb Hs) as [[segments errors] Hp].
  assert (is_Some (decode_attribute decode_special context flags code value)) as Hd.
  { unfold decode_attribute. rewrite Hp.
    repeat first [progress case_if | (by eexists) | match goal with |- is_Some (match ?x with _ => _ end) => destruct x end]. }
  unfold parse_attribute. destruct (FIXED_ATTRIBUTE_LENGTHS code); case_if; first [exact Hd | by eexists].
Qed.

Lemma parse_attributes_total fuel : forall b position endPosition acc,
  bytes_ok b -> 0 <= position -> 0 < js_or_number (asnSize context) 4 -> (Z.to_nat (endPosition - position) < fuel)%nat ->
  is_Some (parse_attributes decode_special context fuel b position endPosition acc).
Proof.
  induction fuel as [|fuel IH]; intros b pos end_ acc Hb Hpos Hs Hf; [lia|]. cbn [parse_attributes].
  destruct (pos <? end_) eqn:E0; [|by eexists]. bool_hyps. destruct (end_ <? pos + 2) eqn:E1; [by eexists|].
  destruct (_ && _); [by eexists|]. destruct (_ && _); [by eexists|].
  set (len := if BIT_TEST _ _ then read_field 2 b (pos + 2) else _).
  assert (0 <= len) as Hlen.
  { unfold len. destruct (BIT_TEST _ _); [|by apply byte_at_nonneg]. apply read_field_bound; [done|lia|lia]. }
  set (p := if BIT_TEST _ _ then pos + 2 + 2 else pos + 2 + 1). assert (pos + 3 <= p) by (unfold p; destruct (BIT_TEST _ _); lia).
  destruct (end_ <? p + len); [by eexists|].
  destruct (parse_attribute_total (byte_at b pos) (byte_at b (pos + 1)) (subarray b p (p + len))) as [[r|e] Hr];
    [by apply bytes_ok_subarray | done | |]; rewrite Hr; [|by eexists]. apply IH; (done || lia).
Qed.

Lemma sequence_total b position endPosition i : bytes_ok b -> 0 <= position -> endPosition <= blen b ->
  is_Some (parseIpv4NlriSequence b position endPosition i).
Proof.
  intros Hb Hp He. unfold parseIpv4NlriSequence, chooseNlriParseByLength, parseIpv4NlriSequenceCandidate.
  assert (forall addPath, is_Some (parse_ipv4_prefixes (S (length b)) b position endPosition addPath [] [])) as Ht
    by (intros addPath; apply parse_prefixes_total; [done | done | unfold blen in He; lia]).
  destruct (Ht true) as [r1 ->], (Ht false) as [r2 ->]. repeat case_if; by eexists.
Qed.
End Message.

(** Parsing a received UPDATE always ends, whatever its bytes: the fuel of every loop is enough for any
    message, any context with AS numbers of positive size and any decoder of the special attributes. *)
Theorem bgp_update_parse_total {special} (decode_special : special_decoder special) (context : update_context) (b : buffer) :
  bytes_ok b -> 0 < js_or_number (asnSize context) 4 -> is_Some (parseUpdateMessage decode_special context b).
Proof.
  intros Hb Hs. unfold parseUpdateMessage. destruct (readUInt16BE b BGP_HEAD_LEN) as [w|e] eqn:Ew; [|by eexists].
  apply read_nonneg in Ew; [|done]. change BGP_HEAD_LEN with 19. destruct (blen b <? 19 + 2 + w + 2) eqn:E1; [by eexists|]. bool_hyps.
  destruct (sequence_total b (19 + 2) (Z.min (19 + 2 + w) (blen b)) (getAddPathReceiveInfo context AFI_IPV4 SAFI_UNICAST)) as [r1 Hr1];
    [done | lia | lia|]. rewrite Hr1.
  pose proof (read_field_bound 2 b (19 + 2 + w) Hb ltac:(lia) ltac:(lia)).
  destruct (blen b <? 19 + 2 + w + 2 + read_field 2 b (19 + 2 + w)) eqn:E2; [by eexists|]. bool_hyps. unfold parsePathAttributes.
  destruct (_ || _) eqn:E3.
  - destruct (sequence_total b (blen b) (blen b) (getAddPathReceiveInfo context AFI_IPV4 SAFI_UNICAST)) as [r2 Hr2];
      [done | apply blen_nonneg | done|]. rewrite Hr2. by eexists.
  - destruct (parse_attributes_total decode_special context (S (length b)) b (19 + 2 + w + 2) (19 + 2 + w + 2 + read_field 2 b (19 + 2 + w)) [])
      as [[[l errors]|e] Hp]; [done | lia | done | unfold blen in *; lia | |]; rewrite Hp; [|by eexists].
    destruct (sequence_total b (19 + 2 + w + 2 + read_field 2 b (19 + 2 + w)) (blen b) (getAddPathReceiveInfo context AFI_IPV4 SAFI_UNICAST)) as [r2 Hr2];
      [done | lia | done|]. rewrite Hr2. by eexists.
Qed.

Lemma bgp_update_parse_total_witness : exists r,
  parseUpdateMessage (special := unit) (fun _ _ => Throw TypeError) {| getAddPathReceiveInfo := fun _ _ => {| enabled := true; from_stateless_tlv := false; fallbackEnabled := true |}; asnSize := None |}
    (replicate 16 255 ++ [0; 31; 2; 0; 2; 33; 1; 0; 4; 64; 2; 9; 7]) = Some r.
Proof.
  apply (bgp_update_parse_total (special := unit) (fun _ _ => Throw TypeError)); [|done].
  by repeat (apply Forall_cons; [done|]).
Defined.
