(* ===== verification/BgpRoutes.v ===== *)
(** Sent UPDATE messages: path attributes, IPv4 prefixes and the sending loop of
    [electron/worker/bgp/bgpPeer.js], with the extended communities of
    [shared/bgpExtendedCommunities.js] and the bytes of [electron/utils/ipUtils.js].

    A peer announces routes in groups with equal attributes; [buildUpdateMsgIpv4] takes as
    many routes as fit into one message and [sendBuiltRouteLoop] goes on with the next.
    Waiting for the socket to drain does not change which messages are sent, so the loop
    is the list of messages given to the session.  The receiving side is [BgpUpdate]. *)

From stdpp Require Import base list numbers strings option.
From Stdlib Require Import ZArith Lia.
From S2P Require Import Prelude NodePath JsText BgpPacket BgpSession BgpUpdate.

Local Open Scope Z_scope.
Local Open Scope js_scope.

Definition BGP_MAX_PKT_SIZE : Z := 4096.
Definition IPV6_HOST_BYTE_LEN : Z := 16.
Definition END_DT4 : Z := 19.
Definition END_DT6 : Z := 18.

(** ** Texts *)

(** [text.split(/\s+/)] *)
Fixpoint split_space (s : jsstring) : list jsstring :=
  match s with
  | [] => [[]]
  | c :: tl =>
    match split_space tl with
    | [] => [[c]]
    | p :: ps =>
      if is_js_space c then
        match tl with
        | d :: _ => if is_js_space d then p :: ps else [] :: p :: ps
        | [] => [] :: p :: ps
        end
      else (c :: p) :: ps
    end
  end.

Definition numbers_of (parts : list jsstring) : list Z :=
  concat (map (fun p => match parseInt10 p with Some n => [n] | None => [] end) parts).

(** [for (index = 0; index < asNumbers.length; index += 255)] *)
Fixpoint as_segments (fuel : nat) (asNumbers : list Z) : list (list Z) :=
  match fuel, asNumbers with
  | S f, _ :: _ => take 255 asNumbers :: as_segments f (drop 255 asNumbers)
  | _, _ => []
  end.

Definition write_asn (use4ByteAsn : bool) (asn : Z) : list Z := if use4ByteAsn then writeUInt32 asn else writeUInt16 asn.

Definition parseRouteAsPath (asPathStr : jsstring) (use4ByteAsn : bool) : option (list Z) :=
  match asPathStr with
  | [] => None
  | _ =>
    let asNumbers := numbers_of (split_space (trim_text asPathStr)) in
    match asNumbers with
    | [] => None
    | _ => Some (concat (map (fun segment => [2; blen segment] ++ concat (map (write_asn use4ByteAsn) segment))
                           (as_segments (length asNumbers) asNumbers)))
    end
  end.

Definition community_bytes (comm : jsstring) : list Z :=
  match map parseInt10 (split_on 58 comm) with
  | Some asn :: Some value :: _ => writeUInt16 asn ++ writeUInt16 value
  | _ => []
  end.

Definition parseRouteCommunities (communities : list jsstring) : option (list Z) :=
  match concat (map community_bytes communities) with
  | [] => None
  | bytes => Some bytes
  end.

(** ** Extended communities *)

Definition unsignedInteger (text : jsstring) (max : Z) : result Z :=
  match all_digits text with
  | Some n => if n <=? max then Ok n else Throw (ErrorMsg "range")
  | None => Throw (ErrorMsg "range")
  end.

Definition unsignedBytes (value : Z) (size : nat) : list Z := be_bytes size value.

Record community_base := { base_type : Z; base_bytes : list Z; maxAssigned : Z }.

Definition parseBase (value : jsstring) : result community_base :=
  let text := trim_text value in
  if bool_decide (46 ∈ text) then
    let parts := split_on 46 text in
    if negb (blen parts =? 4) then Throw (ErrorMsg "IPv4 address")
    else
      let! bytes := map_ok (fun part => unsignedInteger part 255) parts in
      Ok {| base_type := 1; base_bytes := bytes; maxAssigned := 65535 |}
  else
    let! number := unsignedInteger text 4294967295 in
    if number <=? 65535 then Ok {| base_type := 0; base_bytes := unsignedBytes number 2; maxAssigned := 4294967295 |}
    else Ok {| base_type := 2; base_bytes := unsignedBytes number 4; maxAssigned := 65535 |}.

Definition parseEntry (value : jsstring) : result (list Z) :=
  let parts := split_on 58 value in
  match parts with
  | first :: rest =>
    let subtype := toLowerCase first in
    if bool_decide (subtype = js "hex") then
      match rest with
      | [digits] =>
        if (blen digits =? 16) && forallb (fun c => bool_decide (is_Some (hex_value c))) digits then Ok (hex_decode digits)
        else Throw (ErrorMsg "raw value")
      | _ => Throw (ErrorMsg "raw value")
      end
    else
      match rest with
      | [admin; number] =>
        let with_subtype code :=
          let! base := parseBase admin in
          let! assigned := unsignedInteger number (maxAssigned base) in
          Ok ([base_type base; code] ++ base_bytes base ++ unsignedBytes assigned (if base_type base =? 0 then 4 else 2)) in
        if bool_decide (subtype = js "rt") then with_subtype 2
        else if bool_decide (subtype = js "soo") then with_subtype 3
        else Throw (ErrorMsg "format")
      | _ => Throw (ErrorMsg "format")
      end
  | [] => Throw (ErrorMsg "format")
  end.

Definition words (text : jsstring) : list jsstring :=
  List.filter (fun w => bool_decide (w <> [])) (split_space (trim_text text)).

Definition encodeExtendedCommunities (inputs : list jsstring) : result (list Z) :=
  let! entries := map_ok parseEntry (concat (map words inputs)) in Ok (concat entries).

(** ** Attributes of a route *)

Inductive origin_input := OriginAbsent | OriginText (text : jsstring) | OriginNumber (n : Z).

(** A field that may be missing, [null] or a number. *)
Inductive number_field := Undefined | Null | Number (n : Z).

Record srv6_service := {
  srv6Sid : jsstring; srv6EndpointBehavior : number_field;
  srv6SidStructure : list (option Z)     (* the six fields in their order; [None]: not a whole number *)
}.

Inductive configured_entry :=
| EntryOrigin (value : Z)
| EntryAsPath (value : jsstring) (prependLocalAs : bool)
| EntryNextHop (value : jsstring)
| EntryMed (value : Z)
| EntryLocalPref (value : Z)
| EntryCommunities (value : list jsstring)
| EntryExtendedCommunities (value : list jsstring)
| EntryCustom (value : jsstring)
| EntrySrv6 (s : srv6_service)
| EntrySrv6L2 (s : srv6_service)
| EntrySrv6L3 (s : srv6_service).

Record route_attr := {
  configured : bool;                         (* [attributePolicy === 'configured'] *)
  configured_entries : list configured_entry;  (* [pathAttributes] of that policy *)
  origin : origin_input;
  asPath : jsstring;
  prependLocalAs : bool;
  nextHop : jsstring;
  med : option Z;
  localPref : option Z;
  communities : list jsstring;
  customAttr : jsstring;
  extendedCommunities : list jsstring;
  rt : jsstring;
  service : srv6_service
}.

Record bgp_route := {
  ip : jsstring; mask : Z;
  routePathId : option Z;           (* [None]: absent or not a number *)
  route_attr_of : route_attr        (* [instance.getRouteAttr(route)] *)
}.

Record bgp_peer := {
  session : BgpSession;
  localIp : jsstring; peerIp : jsstring;
  afi : Z; safi : Z;
  sendSrv6PrefixSid : bool
}.

Definition normalizePathId (pathId : option Z) : Z :=
  match pathId with
  | Some n => if (n <? 0) || (4294967295 <? n) then 0 else n
  | None => 0
  end.

(** The address kind that [getIpType] returns. *)
Inductive IP_TYPE := IPV4 | IPV6.

#[export] Instance IP_TYPE_eq_dec : EqDecision IP_TYPE.
Proof. solve_decision. Defined.

Section Peer.
(** [ipaddr.parse(ip).toByteArray()] and [getIpType(ip)] of the package [ipaddr.js]. *)
Context (ipToBytes : list Z -> result (list Z)) (getIpType : list Z -> option IP_TYPE) (peer : bgp_peer).

Definition isIpUnicastFamily : bool :=
  ((afi peer =? AFI_IPV4) || (afi peer =? AFI_IPV6)) &&
  ((safi peer =? SAFI_UNICAST) || ((afi peer =? AFI_IPV4) && (safi peer =? SAFI_LABEL_UNICAST))).

Definition shouldSendAddPath : bool := isIpUnicastFamily && isAddPathSendEnabled (session peer) (afi peer) (safi peer).

Definition buildIpPrefixNlri (route : bgp_route) (includePathId : bool) : result (list Z) :=
  let! prefixBytes := ipToBytes (ip route) in
  Ok ((if includePathId then writeUInt32 (normalizePathId (routePathId route)) else []) ++
      [mask route] ++ take (Z.to_nat (prefix_bytes (mask route))) prefixBytes).

Definition getOriginValue (o : origin_input) : Z :=
  match o with
  | OriginAbsent => 0
  | OriginText t =>
    if bool_decide (t = js "IGP") then 0 else if bool_decide (t = js "EGP") then 1
    else if bool_decide (t = js "INCOMPLETE") then 2 else 0
  | OriginNumber n => n
  end.

Definition buildPathAttribute (type flags : Z) (value : list Z) : list Z :=
  let flags := if 255 <? blen value then js_or flags FLAG_EXTENDED_LENGTH else flags in
  [flags; type] ++
  (if (255 <? blen value) || BIT_TEST flags FLAG_EXTENDED_LENGTH then writeUInt16 (blen value) else [blen value]) ++ value.

Definition use4ByteAsn : bool := BIT_TEST (localCapFlags (config (session peer))) (cap_flag CAP_FOUR_OCTET_AS).

Definition build_as_path (path : jsstring) (prepend : bool) : list Z :=
  let prependLocalAs := match peerType (session peer) with PEER_TYPE_EBGP => prepend | _ => false end in
  let localAs := localAs (config (session peer)) in
  let as_path value := buildPathAttribute (path_attr_value ATTR_AS_PATH) FLAG_TRANSITIVE value in
  let from_path := match path with
                   | [] => None
                   | _ => parseRouteAsPath (if prependLocalAs then js_number_to_string localAs ++ [32] ++ path else path) use4ByteAsn
                   end in
  match from_path with
  | Some asPathBytes => as_path asPathBytes
  | None => if prependLocalAs then as_path ([2; 1] ++ write_asn use4ByteAsn localAs) else as_path []
  end.

Definition buildAsPathAttribute (a : route_attr) : list Z := build_as_path (asPath a) (prependLocalAs a).

(** The automatic policy: only sent to internal peers. *)
Definition buildLocalPrefAttribute (a : route_attr) : list Z :=
  match peerType (session peer) with
  | PEER_TYPE_IBGP => buildPathAttribute (path_attr_value ATTR_LOCAL_PREF) FLAG_TRANSITIVE (writeUInt32 (default 100 (localPref a)))
  | _ => []
  end.

Definition canSendSrv6PrefixSid : bool :=
  sendSrv6PrefixSid peer && bool_decide (getIpType (peerIp peer) = Some IPV6) &&
  ((afi peer =? AFI_IPV4) || (afi peer =? AFI_IPV6)) && (safi peer =? SAFI_UNICAST).

Definition getDefaultSrv6EndpointBehavior : Z := if afi peer =? AFI_IPV4 then END_DT4 else END_DT6.

(** [Number.isInteger(Number(x)) ? Number(x) : default], where [Number(null)] is 0. *)
Definition endpoint_behavior (x : number_field) : Z :=
  match x with
  | Undefined => getDefaultSrv6EndpointBehavior
  | Null => 0
  | Number n => n
  end.

Definition structure_value (v : option Z) : result Z :=
  match v with
  | Some n => if (n <? 0) || (128 <? n) then Throw (ErrorMsg "SRv6 SID structure") else Ok n
  | None => Throw (ErrorMsg "SRv6 SID structure")
  end.

Definition buildSrv6ServiceTlv (l2 configured : bool) (s : srv6_service) : result (list Z) :=
  let! sidBytes := ipToBytes (srv6Sid s) in
  if negb (blen sidBytes =? IPV6_HOST_BYTE_LEN) then Throw (ErrorMsg "SRv6 SID must be IPv6 address")
  else
    let! structureValues := if configured then map_ok structure_value (srv6SidStructure s) else Ok [48; 16; 16; 0; 0; 0] in
    let sidStructureSubSubTlv := [1] ++ writeUInt16 6 ++ structureValues in
    let sidInformationValue := [0] ++ sidBytes ++ [0] ++ writeUInt16 (endpoint_behavior (srv6EndpointBehavior s)) ++ [0] ++
                               sidStructureSubSubTlv in
    let sidInformationSubTlv := [1] ++ writeUInt16 (blen sidInformationValue) ++ sidInformationValue in
    let serviceTlvValue := [0] ++ sidInformationSubTlv in
    Ok ([if l2 then 6 else 5] ++ writeUInt16 (blen serviceTlvValue) ++ serviceTlvValue).

Definition prefix_sid (value : list Z) : list Z :=
  buildPathAttribute (path_attr_value ATTR_PREFIX_SID) (js_or FLAG_OPTIONAL FLAG_TRANSITIVE) value.

Definition buildSrv6PrefixSidAttribute (configured : bool) (s : srv6_service) : result (list Z) :=
  if negb configured && negb canSendSrv6PrefixSid then Ok []
  else
    match srv6Sid s with
    | [] => Ok []
    | _ => let! tlv := buildSrv6ServiceTlv false configured s in Ok (prefix_sid tlv)
    end.

Definition getConfiguredIpv4NextHop : result jsstring :=
  if bool_decide (getIpType (localIp peer) = Some IPV4) then Ok (localIp peer)
  else if bool_decide (getIpType (routerId (config (session peer))) = Some IPV4) then Ok (routerId (config (session peer)))
  else Throw (ErrorMsg "NEXT_HOP").

(** [value || other] of texts. *)
Definition or_text (value other : jsstring) : jsstring := match value with [] => other | _ => value end.

(** The services of an entry, with their layer. *)
Definition service_of (e : configured_entry) : option (bool * srv6_service) :=
  match e with
  | EntrySrv6L2 s => Some (true, s)
  | EntrySrv6L3 s => Some (false, s)
  | _ => None
  end.

Definition buildEvpnSrv6PrefixSidAttribute (services : list (bool * srv6_service)) : result (list Z) :=
  let! tlvs := map_ok (fun '(l2, s) => buildSrv6ServiceTlv l2 true s) services in Ok (prefix_sid (concat tlvs)).

Definition buildConfiguredPathAttribute (e : configured_entry) : result (list Z) :=
  let attr a flags value := Ok (buildPathAttribute (path_attr_value a) flags value) in
  match e with
  | EntryOrigin v => attr ATTR_ORIGIN FLAG_TRANSITIVE [v]
  | EntryAsPath path prepend => Ok (build_as_path path prepend)
  | EntryNextHop v =>
    let! address := match v with [] => getConfiguredIpv4NextHop | _ => Ok v end in
    let! bytes := ipToBytes address in
    attr ATTR_NEXT_HOP FLAG_TRANSITIVE bytes
  | EntryMed v => attr ATTR_MED FLAG_OPTIONAL (writeUInt32 v)
  | EntryLocalPref v => attr ATTR_LOCAL_PREF FLAG_TRANSITIVE (writeUInt32 v)
  | EntryCommunities l => attr ATTR_COMMUNITY (js_or FLAG_OPTIONAL FLAG_TRANSITIVE) (default [] (parseRouteCommunities l))
  | EntryExtendedCommunities l =>
    let! bytes := encodeExtendedCommunities l in
    attr ATTR_EXTENDED_COMMUNITIES (js_or FLAG_OPTIONAL FLAG_TRANSITIVE) bytes
  | EntryCustom text => Ok (processCustomPkt text)
  | EntrySrv6 s => buildSrv6PrefixSidAttribute true s
  | EntrySrv6L2 _ | EntrySrv6L3 _ => Throw (ErrorMsg "Unsupported configured path attribute")
  end.

(** [entries.flatMap]: the services go into one attribute, at the place of the first. *)
Fixpoint build_entries (services : list (bool * srv6_service)) (first : bool) (entries : list configured_entry) : result (list Z) :=
  match entries with
  | [] => Ok []
  | e :: tl =>
    match service_of e with
    | Some _ =>
      let! here := if first then buildEvpnSrv6PrefixSidAttribute services else Ok [] in
      let! rest := build_entries services false tl in
      Ok (here ++ rest)
    | None =>
      let! here := buildConfiguredPathAttribute e in
      let! rest := build_entries services first tl in
      Ok (here ++ rest)
    end
  end.

Definition services_of (entries : list configured_entry) : list (bool * srv6_service) :=
  concat (map (fun e => match service_of e with Some s => [s] | None => [] end) entries).

Definition has_text (t : jsstring) : bool := bool_decide (trim_text t <> []).

Definition buildRoutePathAttributes (route : bgp_route) (includeIpv4NextHop : bool) : result (list Z) :=
  let a := route_attr_of route in
  if configured a then build_entries (services_of (configured_entries a)) true (configured_entries a)
  else
    let origin_as := buildPathAttribute (path_attr_value ATTR_ORIGIN) FLAG_TRANSITIVE [getOriginValue (origin a)] ++
                     buildAsPathAttribute a in
    let! next_hop := if includeIpv4NextHop
                     then let! bytes := ipToBytes (or_text (nextHop a) (localIp peer)) in
                          Ok (buildPathAttribute (path_attr_value ATTR_NEXT_HOP) FLAG_TRANSITIVE bytes)
                     else Ok [] in
    let med_pref := buildPathAttribute (path_attr_value ATTR_MED) FLAG_OPTIONAL (writeUInt32 (default 0 (med a))) ++
                    buildLocalPrefAttribute a in
    let community := match parseRouteCommunities (communities a) with
                     | Some bytes => buildPathAttribute (path_attr_value ATTR_COMMUNITY) (js_or FLAG_OPTIONAL FLAG_TRANSITIVE) bytes
                     | None => []
                     end in
    let custom := if has_text (customAttr a) then processCustomPkt (customAttr a) else [] in
    let extended := extendedCommunities a ++
                    (if has_text (rt a) then map (fun w => js "rt:" ++ w) (split_space (trim_text (rt a))) else []) in
    let! extended := match extended with
                     | [] => Ok []
                     | _ => let! bytes := encodeExtendedCommunities extended in
                            Ok (buildPathAttribute (path_attr_value ATTR_EXTENDED_COMMUNITIES)
                                  (js_or (js_or FLAG_OPTIONAL FLAG_EXTENDED_LENGTH) FLAG_TRANSITIVE) bytes)
                     end in
    let! srv6 := buildSrv6PrefixSidAttribute false (service a) in
    Ok (origin_as ++ next_hop ++ med_pref ++ community ++ custom ++ extended ++ srv6).

(** ** Messages *)

(** [while (msgLen + nlriLen <= BGP_MAX_PKT_SIZE && routeIndex < routes.length)]: the bytes and
    the number of the routes that fit. *)
Fixpoint pack_routes (routes : list bgp_route) (includePathId : bool) (msgLen : Z) : result (list Z * nat) :=
  match routes with
  | [] => Ok ([], 0%nat)
  | route :: tl =>
    let! routeNlri := buildIpPrefixNlri route includePathId in
    if msgLen + blen routeNlri <=? BGP_MAX_PKT_SIZE then
      let! (nlri, n) := pack_routes tl includePathId (msgLen + blen routeNlri) in
      Ok (routeNlri ++ nlri, S n)
    else Ok ([], 0%nat)
  end.

(** [writeUInt16BE(list.length, 0)] and [set(list, 2)] in a new buffer. *)
Definition with_length (l : list Z) : result buffer :=
  let! b := writeUInt16BE (alloc (blen l + 2)) (blen l) 0 in
  Ok (splice b 2 (store_numbers l)).

(** [Throw] is the result [{ status: false }]. *)
Definition buildUpdateMsgIpv4 (routes : list bgp_route) (routeIndex : nat) : result (buffer * nat) :=
  match drop routeIndex routes with
  | [] => Throw TypeError
  | route :: _ =>
    let! pathAttr := buildRoutePathAttributes route true in
    let! pathAttrBuf := with_length pathAttr in
    let! (nlri, n) := pack_routes (drop routeIndex routes) shouldSendAddPath (BGP_HEAD_LEN + 2 + blen pathAttrBuf) in
    let nlriBuf := store_numbers nlri in
    let! bufHeader := buildBgpMessageHeader (BGP_HEAD_LEN + 2 + blen pathAttrBuf + blen nlriBuf) (packet_type_value UPDATE) in
    Ok (bufHeader ++ alloc 2 ++ pathAttrBuf ++ nlriBuf, (routeIndex + n)%nat)
  end.

Definition buildWithdrawMsgIpv4 (routes : list bgp_route) (routeIndex : nat) : result (buffer * nat) :=
  match drop routeIndex routes with
  | [] => Throw TypeError
  | rest =>
    let! (withdrawNlri, n) := pack_routes rest shouldSendAddPath (BGP_HEAD_LEN + 2 + 2) in
    let! withdrawNlriBuf := with_length withdrawNlri in
    let! bufHeader := buildBgpMessageHeader (BGP_HEAD_LEN + blen withdrawNlriBuf + 2) (packet_type_value UPDATE) in
    Ok (bufHeader ++ withdrawNlriBuf ++ alloc 2, (routeIndex + n)%nat)
  end.

(** [while (routeIndex < routes.length)]: the messages sent; [None] is running out of fuel. *)
Fixpoint sendBuiltRouteLoop (fuel : nat) (routes : list bgp_route)
    (builder : list bgp_route -> nat -> result (buffer * nat)) (routeIndex : nat) : option (list buffer) :=
  if (routeIndex <? length routes)%nat then
    match fuel with
    | O => None
    | S f =>
      match builder routes routeIndex with
      | Throw _ => Some []
      | Ok (message, index) =>
        if (index <=? routeIndex)%nat || (BGP_MAX_PKT_SIZE <? blen message) then Some []
        else
          match sendBuiltRouteLoop f routes builder index with
          | Some messages => Some (message :: messages)
          | None => None
          end
      end
    end
  else Some [].
End Peer.

(** ** Texts of numbers *)

Definition word (w : jsstring) : Prop := w <> [] /\ Forall (fun c => is_js_space c = false) w.

Lemma dec_word n : 0 <= n -> word (dec_digits n).
Proof.
  intros Hn. split; [apply dec_digits_nonempty|]. eapply Forall_impl; [|by apply dec_digits_digits]. intros c. apply digit_not_space.
Qed.

Lemma split_space_nonempty s : split_space s <> [].
Proof. destruct s as [|c tl]; [done|]. cbn [split_space]. destruct (split_space tl); [done|]. repeat case_if; try done. by destruct tl; [|case_if]. Qed.

Lemma split_space_word w s p ps :
  Forall (fun c => is_js_space c = false) w -> split_space s = p :: ps -> split_space (w ++ s) = (w ++ p) :: ps.
Proof.
  intros Hw Hs. induction Hw as [|c w Hc _ IH]; [done|]. cbn [app split_space]. by rewrite IH, Hc.
Qed.

Lemma split_words ws : ws <> [] -> Forall word ws -> split_space (join_with 32 ws) = ws.
Proof.
  induction ws as [|w ws IH]; [done|]. intros _ Hw. apply Forall_cons_iff in Hw as [[Hne Hns] Hw]. destruct ws as [|v ws].
  - cbn [join_with]. rewrite <- (app_nil_r w) at 1. rewrite (split_space_word w [] [] []) by done. by rewrite app_nil_r.
  - change (join_with 32 (w :: v :: ws)) with (w ++ 32 :: join_with 32 (v :: ws)). rewrite (split_space_word w _ [] (v :: ws)); [by rewrite app_nil_r | done|].
    specialize (IH ltac:(done) Hw). cbn [split_space]. rewrite IH. change (is_js_space 32) with true. cbv iota.
    apply Forall_cons_iff in Hw as [[Hv Hvs] _]. destruct v as [|d v]; [done|]. apply Forall_cons_iff in Hvs as [Hd _].
    destruct ws as [|? ?]; cbn [join_with app]; by rewrite Hd.
Qed.

Lemma join_ends ws : ws <> [] -> Forall word ws ->
  (exists c s, join_with 32 ws = c :: s /\ is_js_space c = false) /\ (exists s d, join_with 32 ws = s ++ [d] /\ is_js_space d = false).
Proof.
  induction ws as [|w ws IH]; [done|]. intros _ Hw. apply Forall_cons_iff in Hw as [[Hne Hns] Hw].
  assert (exists c s, w = c :: s /\ is_js_space c = false) as (c & s & Ew & Hc)
    by (destruct w as [|c s]; [done|]; apply Forall_cons_iff in Hns as [? _]; eauto).
  destruct ws as [|v ws].
  - cbn [join_with]. split; [eauto|]. destruct (exists_last Hne) as (s' & d & ->). exists s', d. split; [done|].
    apply Forall_app in Hns as [_ Hns]. by apply Forall_cons_iff in Hns as [? _].
  - change (join_with 32 (w :: v :: ws)) with (w ++ 32 :: join_with 32 (v :: ws)). destruct (IH ltac:(done) Hw) as [_ (s' & d & -> & Hd)].
    split; [rewrite Ew; cbn [app]; eauto|]. exists (w ++ 32 :: s'), d. split; [by rewrite <- app_assoc | done].
Qed.

Lemma trim_words ws : ws <> [] -> Forall word ws -> trim_text (join_with 32 ws) = join_with 32 ws.
Proof.
  intros Hne Hw. destruct (join_ends ws Hne Hw) as [(c & s & Hh & Hc) (s' & d & Ht & Hd)]. unfold trim_text.
  rewrite Hh, trim_start_head by done. rewrite <- Hh, Ht, reverse_app. cbn [reverse app]. change (reverse [d]) with [d]. cbn [app].
  rewrite trim_start_head by done. change (d :: reverse s') with ([d] ++ reverse s'). change [d] with (reverse [d]).
  by rewrite <- reverse_app, reverse_involutive.
Qed.

Lemma numbers_of_digits l : Forall (fun n => 0 <= n) l -> numbers_of (map dec_digits l) = l.
Proof.
  unfold numbers_of. induction 1 as [|n l Hn _ IH]; [done|]. cbn [map concat]. rewrite parseInt10_dec by done. cbn [app]. by rewrite IH.
Qed.

(** The text of an AS path. *)
Definition path_text (asns : list Z) : jsstring := join_with 32 (map dec_digits asns).

Definition asn_ok (n : Z) : Prop := 0 <= n < 2 ^ 32.

Lemma path_numbers asns : asns <> [] -> Forall asn_ok asns -> numbers_of (split_space (trim_text (path_text asns))) = asns.
Proof.
  intros Hne Hok. unfold path_text. assert (Forall word (map dec_digits asns)) as Hw.
  { apply Forall_map. eapply Forall_impl; [|exact Hok]. intros n Hn. apply dec_word. unfold asn_ok in Hn. lia. }
  assert (map dec_digits asns <> []) by (by destruct asns).
  rewrite trim_words, split_words by done. apply numbers_of_digits. eapply Forall_impl; [|exact Hok]. unfold asn_ok. lia.
Qed.

Lemma path_text_head asns : asns <> [] -> Forall asn_ok asns -> exists c s, path_text asns = c :: s.
Proof.
  intros Hne Hok. destruct (join_ends (map dec_digits asns)) as [(c & s & ? & _) _]; [by destruct asns | | by exists c, s].
  apply Forall_map. eapply Forall_impl; [|exact Hok]. intros n Hn. apply dec_word. unfold asn_ok in Hn. lia.
Qed.

(** ** The AS path on the wire *)

Lemma as_segments_concat fuel : forall l, (length l <= fuel)%nat -> concat (as_segments fuel l) = l.
Proof.
  induction fuel as [|fuel IH]; intros [|n l] Hl; try done; cbn [length] in Hl; [lia|]. cbn [as_segments concat].
  rewrite IH; [apply take_drop|]. rewrite length_drop. cbn [length]. lia.
Qed.

Lemma as_segments_ok fuel : forall l, Forall asn_ok l -> Forall segment_ok (as_segments fuel l).
Proof.
  induction fuel as [|fuel IH]; intros [|n l] Hl; [constructor..|]. cbn [as_segments]. apply Forall_cons_iff. split.
  - split; [|by apply Forall_take]. unfold blen. rewrite length_take. cbn [length]. lia.
  - apply IH. by apply Forall_drop.
Qed.

Lemma write_asn_bytes l : concat (map (write_asn true) l) = concat (map (be_bytes 4) l).
Proof. f_equal. apply map_ext. intros n. apply writeUInt32_bytes. Qed.

Lemma route_as_path asns :
  asns <> [] -> Forall asn_ok asns ->
  parseRouteAsPath (path_text asns) true = Some (concat (map enc_segment (as_segments (length asns) asns))).
Proof.
  intros Hne Hok. unfold parseRouteAsPath. rewrite path_numbers by done.
  destruct (path_text_head asns Hne Hok) as (c & s & ->).
  destruct asns as [|n asns]; [done|]. do 2 f_equal. apply map_ext. intros seg. unfold enc_segment. by rewrite write_asn_bytes.
Qed.

(** *** Communities *)

Definition community_input (c : Z * Z) : jsstring := dec_digits (fst c) ++ [58] ++ dec_digits (snd c).

Lemma community_input_bytes c : community_ok c -> community_bytes (community_input c) = enc_community c.
Proof.
  destruct c as [h l]. intros [Hh Hl]. unfold u16 in *. cbn [fst snd] in *. unfold community_bytes, community_input. cbn [fst snd app].
  rewrite split_on_cons by (apply dec_digits_lacks; [lia | done]). rewrite split_on_lacks by (apply dec_digits_lacks; [lia | done]).
  cbn [map]. rewrite !parseInt10_dec by lia. unfold enc_community. by rewrite !writeUInt16_bytes.
Qed.

Lemma route_communities cs : Forall community_ok cs ->
  parseRouteCommunities (map community_input cs) = match cs with [] => None | _ => Some (concat (map enc_community cs)) end.
Proof.
  intros Hc. unfold parseRouteCommunities. rewrite map_map.
  assert (map (fun x => community_bytes (community_input x)) cs = map enc_community cs) as ->.
  { apply map_ext_in. intros c Hin. apply community_input_bytes. rewrite List.Forall_forall in Hc. by apply Hc. }
  destruct cs as [|c cs]; [done|]. destruct (concat (map enc_community (c :: cs))) eqn:E; [|done].
  apply (f_equal blen) in E. cbn [map concat] in E. unfold enc_community at 1 in E. rewrite !blen_app, !blen_be_bytes in E.
  pose proof (blen_nonneg (concat (map enc_community cs))). change (blen []) with 0 in E. lia.
Qed.

(** ** Sending *)

Section Delivery.
Context (ipToBytes : list Z -> result (list Z)) (getIpType : list Z -> option IP_TYPE) (peer : bgp_peer).

Definition flags_ok (flags : Z) : Prop := flags = 64 \/ flags = 128 \/ flags = 192.

(** The flags [buildPathAttribute] ends up with. *)
Definition sent_flags (flags : Z) (value : list Z) : Z := if 255 <? blen value then js_or flags FLAG_EXTENDED_LENGTH else flags.

Lemma built_attribute flags code value :
  flags_ok flags -> blen value < 65536 ->
  buildPathAttribute code flags value = enc_attr (sent_flags flags value, code, value) /\ attr_ok (sent_flags flags value, code, value) /\
  is_byte (sent_flags flags value).
Proof.
  intros Hf Hv. unfold buildPathAttribute, sent_flags, enc_attr, attr_ok, extended.
  destruct (255 <? blen value) eqn:E; bool_hyps.
  - assert (BIT_TEST (js_or flags FLAG_EXTENDED_LENGTH) FLAG_EXTENDED_LENGTH = true /\ is_byte (js_or flags FLAG_EXTENDED_LENGTH)) as [-> Hb]
      by (destruct Hf as [->|[->| ->]]; by vm_compute). cbn [orb]. rewrite writeUInt16_bytes. split_and!; done.
  - assert (BIT_TEST flags FLAG_EXTENDED_LENGTH = false /\ is_byte flags) as [-> Hb] by (destruct Hf as [->|[->| ->]]; by vm_compute).
    cbn [orb]. split_and!; done || lia.
Qed.

Definition route_prefix (r : bgp_route) : wire_prefix :=
  (normalizePathId (routePathId r), mask r, match ipToBytes (ip r) with Ok address => address | Throw _ => [] end).

(** An IPv4 route. *)
Definition route_ok (r : bgp_route) : Prop :=
  0 <= mask r <= 32 /\ exists address, ipToBytes (ip r) = Ok address /\ length address = 4%nat /\ bytes_ok address.

Lemma normalizePathId_bound id : 0 <= normalizePathId id < 2 ^ 32.
Proof. unfold normalizePathId. destruct id as [n|]; [|done]. destruct (_ || _) eqn:E; [done|]. bool_hyps. lia. Qed.

Lemma route_prefix_ok r : route_ok r -> prefix_ok (route_prefix r).
Proof.
  intros (Hm & address & Ha & Hl & Hb). unfold route_prefix. rewrite Ha. split; [apply normalizePathId_bound | done].
Qed.

Lemma built_prefix r addPath : route_ok r -> buildIpPrefixNlri ipToBytes r addPath = Ok (enc_prefix addPath (route_prefix r)).
Proof.
  intros (Hm & address & Ha & Hl & Hb). unfold buildIpPrefixNlri, route_prefix. rewrite Ha. cbn [bind_result].
  unfold enc_prefix. destruct addPath; [by rewrite writeUInt32_bytes | done].
Qed.

Definition wire_of (addPath : bool) (routes : list bgp_route) : buffer :=
  concat (map (enc_prefix addPath) (map route_prefix routes)).

Lemma pack_spec addPath routes : forall msgLen,
  Forall route_ok routes ->
  exists n, pack_routes ipToBytes routes addPath msgLen = Ok (wire_of addPath (take n routes), n) /\ (n <= length routes)%nat /\
    ((0 < n)%nat -> msgLen + blen (wire_of addPath (take n routes)) <= BGP_MAX_PKT_SIZE) /\
    (forall r, hd_error routes = Some r -> msgLen + blen (enc_prefix addPath (route_prefix r)) <= BGP_MAX_PKT_SIZE -> (0 < n)%nat) /\
    (forall r, hd_error routes = Some r -> BGP_MAX_PKT_SIZE < msgLen + blen (enc_prefix addPath (route_prefix r)) -> n = 0%nat).
Proof.
  induction routes as [|r routes IH]; intros msgLen Hr; cbn [pack_routes].
  { exists 0%nat. split_and!; try done; lia. }
  apply Forall_cons_iff in Hr as [Hok Hr]. rewrite built_prefix by done. cbn [bind_result].
  destruct (_ <=? BGP_MAX_PKT_SIZE) eqn:E; bool_hyps.
  - destruct (IH (msgLen + blen (enc_prefix addPath (route_prefix r))) Hr) as (n & -> & Hn & Hfit & _). cbn [bind_result].
    exists (S n). unfold wire_of in *. cbn [take map concat length] in *. split_and!; [done | lia | | intros; lia | ].
    + intros _. rewrite blen_app. destruct n; [change (take 0 routes) with (@nil bgp_route); cbn [map concat]; change (blen (@nil Z)) with 0; lia|].
      specialize (Hfit ltac:(lia)). lia.
    + intros r' [= ->]. lia.
  - exists 0%nat. split_and!; try done; try lia. intros r' [= ->]. lia.
Qed.

Lemma Ok_inj {A} (x y : A) : Ok x = Ok y -> x = y.
Proof. by intros [= ->]. Qed.

(** *** The attributes of a route *)

Definition external : bool := match peerType (session peer) with PEER_TYPE_EBGP => true | _ => false end.
Definition internal : bool := match peerType (session peer) with PEER_TYPE_IBGP => true | _ => false end.

(** The AS path announced. *)
Definition announced_path (asns : list Z) (prepend : bool) : list Z :=
  (if external && prepend then [localAs (config (session peer))] else []) ++ asns.

Lemma build_as_path_spec asns prepend :
  use4ByteAsn peer = true -> Forall asn_ok asns -> asn_ok (localAs (config (session peer))) ->
  let path := announced_path asns prepend in
  build_as_path peer (path_text asns) prepend =
  buildPathAttribute 2 FLAG_TRANSITIVE (concat (map enc_segment (as_segments (length path) path))).
Proof.
  intros H4 Hok Has path. unfold build_as_path. rewrite H4.
  replace (match peerType (session peer) with PEER_TYPE_EBGP => prepend | _ => false end) with (external && prepend)
    by (unfold external; by destruct (peerType (session peer))).
  unfold path, announced_path. destruct (external && prepend).
  - cbn [app]. destruct asns as [|n asns].
    + cbn [length as_segments take drop map concat path_text join_with]. change (as_segments 0 _) with (@nil (list Z)). cbn [map concat].
      unfold enc_segment, write_asn. rewrite writeUInt32_bytes. cbn [map concat]. by rewrite !app_nil_r.
    + assert (path_text (localAs (config (session peer)) :: n :: asns) = js_number_to_string (localAs (config (session peer))) ++ 32 :: path_text (n :: asns)) as Ht.
      { unfold path_text, js_number_to_string. unfold asn_ok in Has. by decide_test (localAs (config (session peer)) <? 0) false. }
      rewrite <- Ht, route_as_path by (done || by constructor).
      by destruct (path_text_head (n :: asns)) as (c & s & ->).
  - cbn [app]. destruct asns as [|n asns]; [done|]. rewrite route_as_path by done.
    by destruct (path_text_head (n :: asns)) as (c & s & ->).
Qed.

Lemma blen_built code flags value : blen value + 3 <= blen (buildPathAttribute code flags value).
Proof.
  unfold buildPathAttribute. rewrite !blen_app. assert (forall x : Z, blen [x; code] = 2) as -> by done.
  destruct (_ || _); [rewrite writeUInt16_bytes, blen_be_bytes; lia|]. change (blen [blen value]) with 1. lia.
Qed.

(** Attributes of the automatic policy, without custom, extended and SRv6 ones. *)
Record plain_attributes (a : route_attr) (asns : list Z) (cs : list (Z * Z)) (hop : buffer) : Prop := {
  plain_policy : configured a = false;
  plain_origin : 0 <= getOriginValue (origin a) <= 2;
  plain_path : asPath a = path_text asns;
  plain_asns : Forall asn_ok asns;
  plain_hop : ipToBytes (or_text (nextHop a) (localIp peer)) = Ok hop;
  plain_hop_length : length hop = 4%nat;
  plain_hop_bytes : bytes_ok hop;
  plain_med : 0 <= default 0 (med a) < 2 ^ 32;
  plain_pref : 0 <= default 100 (localPref a) < 2 ^ 32;
  plain_communities : communities a = map community_input cs;
  plain_pairs : Forall community_ok cs;
  plain_custom : has_text (customAttr a) = false;
  plain_extended : extendedCommunities a = [] /\ has_text (rt a) = false;
  plain_srv6 : srv6Sid (service a) = []
}.

(** What the receiver reads of them. *)
Definition announced_details {special} (a : route_attr) (asns : list Z) (cs : list (Z * Z)) (hop : buffer) (segments : list as_segment)
    : list (attr_detail special) :=
  [Origin (getOriginValue (origin a)); AsPath segments; NextHop (join_with 46 (map dec_digits hop)); Med (default 0 (med a))] ++
  (if internal then [LocalPref (default 100 (localPref a))] else []) ++
  match cs with [] => [] | _ => [Communities (map community_of cs)] end.

Definition read_as {special} (decode_special : special_decoder special) (context : update_context) (bytes : buffer) (d : attr_detail special) : Prop :=
  exists l r, bytes = enc_attr l /\ bytes_ok bytes /\ attr_ok l /\
    parse_attribute decode_special context (fst (fst l)) (snd (fst l)) (snd l) = Some (Ok r) /\
    attr_valid r <> Some false /\ attr_detail_of r = d.

Lemma read_built {special} (decode_special : special_decoder special) context code flags value d valid :
  flags_ok flags -> is_byte code -> bytes_ok value -> blen value < 65536 -> valid <> Some false ->
  (forall flags, parse_attribute decode_special context flags code value = Some (Ok (attribute flags code value d valid []))) ->
  read_as decode_special context (buildPathAttribute code flags value) d.
Proof.
  intros Hf Hc Hv Hl Hvalid Hp. destruct (built_attribute flags code value Hf Hl) as (He & Hok & Hb).
  exists (sent_flags flags value, code, value). eexists. split; [exact He|]. split; [|split; [exact Hok|split; [apply Hp | by split]]].
  rewrite He. unfold enc_attr. rewrite !bytes_ok_app. split_and!; [|  | done].
  - rewrite !bytes_ok_cons. split_and!; [done | done | constructor].
  - case_if; [apply bytes_ok_be_bytes|]. destruct Hok as [_ Hs]. apply bytes_ok_cons. split; [|constructor]. unfold is_byte.
    pose proof (blen_nonneg value). specialize (Hs E). lia.
Qed.

Lemma bytes_ok_numbers l : bytes_ok (concat (map (be_bytes 4) l)).
Proof. induction l; [constructor|]. cbn [map concat]. apply bytes_ok_app. auto using bytes_ok_be_bytes. Qed.

Lemma bytes_ok_segments segs : Forall segment_ok segs -> bytes_ok (concat (map enc_segment segs)).
Proof.
  induction 1 as [|ns segs [Hn _] _ IH]; [constructor|]. cbn [map concat]. apply bytes_ok_app. split; [|done]. unfold enc_segment.
  rewrite !bytes_ok_app, !bytes_ok_cons. split_and!; [done | unfold is_byte; lia | constructor | apply bytes_ok_numbers].
Qed.

Lemma bytes_ok_communities cs : bytes_ok (concat (map enc_community cs)).
Proof. induction cs; [constructor|]. cbn [map concat]. unfold enc_community at 1. rewrite !bytes_ok_app. auto using bytes_ok_be_bytes. Qed.

Lemma reads_of {special} (decode_special : special_decoder special) context parts ds :
  Forall2 (read_as decode_special context) parts ds ->
  exists l rs, concat parts = concat (map enc_attr l) /\ bytes_ok (concat parts) /\ reads decode_special context l rs /\
    Forall (fun r => attr_valid r <> Some false) rs /\ map attr_detail_of rs = ds.
Proof.
  induction 1 as [|bytes d parts ds (l & r & He & Hb & Hok & Hp & Hv & Hd) _ (ls & rs & IHc & IHb & IHr & IHv & IHd)].
  - exists [], []. split_and!; constructor.
  - exists (l :: ls), (r :: rs). cbn [map concat]. split_and!; [by rewrite <- He, IHc | by apply bytes_ok_app | by constructor | by constructor | by rewrite Hd, IHd].
Qed.

Lemma plain_built {special} (decode_special : special_decoder special) context r a asns cs hop b :
  route_attr_of r = a -> plain_attributes a asns cs hop -> use4ByteAsn peer = true -> asn_ok (localAs (config (session peer))) ->
  asnSize context = None ->
  buildRoutePathAttributes ipToBytes getIpType peer r true = Ok b -> blen b < 65536 ->
  let path := announced_path asns (prependLocalAs a) in
  exists l rs, b = concat (map enc_attr l) /\ bytes_ok b /\ reads decode_special context l rs /\
    Forall (fun r => attr_valid r <> Some false) rs /\
    map attr_detail_of rs = announced_details a asns cs hop
      (map (fun ns => {| segment_type := 2; asNumbers := ns |}) (as_segments (length path) path)).
Proof.
  intros Ha [Hpolicy Horigin Hpath Hasns Hhop Hhopl Hhopb Hmed Hpref Hcomm Hcs Hcustom [Hext Hrt] Hsrv6] H4 Has Hctx Hb Hlen path.
  assert (Forall asn_ok path) as Hpath_ok by (unfold path, announced_path; apply Forall_app; split; [destruct (_ && _); [constructor; [done | constructor] | constructor] | done]).
  pose proof (as_segments_ok (length path) path Hpath_ok) as Hsegs.
  set (parts := [buildPathAttribute 1 FLAG_TRANSITIVE [getOriginValue (origin a)];
                 buildPathAttribute 2 FLAG_TRANSITIVE (concat (map enc_segment (as_segments (length path) path)));
                 buildPathAttribute 3 FLAG_TRANSITIVE hop; buildPathAttribute 4 FLAG_OPTIONAL (be_bytes 4 (default 0 (med a)))] ++
                (if internal then [buildPathAttribute 5 FLAG_TRANSITIVE (be_bytes 4 (default 100 (localPref a)))] else []) ++
                match cs with [] => [] | _ => [buildPathAttribute 8 192 (concat (map enc_community cs))] end).
  assert (b = concat parts) as ->.
  { unfold buildRoutePathAttributes in Hb. rewrite Ha, Hpolicy, Hhop, Hcustom, Hext, Hrt in Hb. cbn [bind_result] in Hb. rewrite app_nil_l in Hb.
    unfold buildSrv6PrefixSidAttribute in Hb. rewrite Hsrv6 in Hb.
    replace (if negb false && negb (canSendSrv6PrefixSid getIpType peer) then Ok [] else Ok []) with (@Ok (list Z) []) in Hb by (by case_if).
    cbn [bind_result] in Hb. apply Ok_inj in Hb. rewrite <- Hb. unfold buildAsPathAttribute. rewrite Hpath, (build_as_path_spec asns (prependLocalAs a)) by done.
    fold path. rewrite Hcomm, route_communities by done. unfold buildLocalPrefAttribute. rewrite !writeUInt32_bytes.
    unfold parts, internal. cbn [path_attr_value]. change (js_or FLAG_OPTIONAL FLAG_TRANSITIVE) with 192.
    destruct (peerType (session peer)), cs; cbn [app concat]; rewrite ?app_nil_r, <- ?app_assoc; done. }
  apply reads_of.
  assert (forall code flags value, In (buildPathAttribute code flags value) parts -> blen value < 65536) as Hsmall.
  { intros code flags value Hin. pose proof (blen_built code flags value). apply in_split in Hin as (l1 & l2 & He). rewrite He in Hlen.
    rewrite concat_app in Hlen. cbn [concat] in Hlen. rewrite !blen_app in Hlen. pose proof (blen_nonneg (concat l1)). pose proof (blen_nonneg (concat l2)). lia. }
  unfold parts, announced_details. apply Forall2_app; [|apply Forall2_app].
  - repeat (apply Forall2_cons; [|]); [| | | |constructor].
    + apply (read_built _ _ _ _ _ _ None); [by left | done | | done | done | intros; by apply decode_origin].
      apply bytes_ok_cons. split; [unfold is_byte; lia | constructor].
    + apply (read_built _ _ _ _ _ _ (Some true)); [by left | done | by apply bytes_ok_segments | | done | intros; by apply decode_as_path].
      eapply Hsmall. right. by left.
    + apply (read_built _ _ _ _ _ _ None); [by left | done | done | unfold blen; lia | done | intros; by apply decode_next_hop].
    + apply (read_built _ _ _ _ _ _ None); [by right; left | done | apply bytes_ok_be_bytes | by rewrite blen_be_bytes | done|].
      intros. apply decode_number; auto.
  - destruct internal; [|constructor]. apply Forall2_cons; [|constructor].
    apply (read_built _ _ _ _ _ _ None); [by left | done | apply bytes_ok_be_bytes | by rewrite blen_be_bytes | done|]. intros. apply decode_number; auto.
  - destruct cs as [|c cs]; [constructor|]. apply Forall2_cons; [|constructor].
    apply (read_built _ _ _ _ _ _ None); [by right; right | done | apply bytes_ok_communities | | done | intros; by apply decode_communities].
    eapply (Hsmall 8 192). unfold parts. apply in_or_app. right. apply in_or_app. right. by left.
Qed.

Lemma plain_exists r a asns cs hop :
  route_attr_of r = a -> plain_attributes a asns cs hop -> exists b, buildRoutePathAttributes ipToBytes getIpType peer r true = Ok b.
Proof.
  intros Ha [Hpolicy _ _ _ Hhop _ _ _ _ _ _ Hcustom [Hext Hrt] Hsrv6]. unfold buildRoutePathAttributes.
  rewrite Ha, Hpolicy, Hhop, Hcustom, Hext, Hrt. unfold buildSrv6PrefixSidAttribute. rewrite Hsrv6. cbn [bind_result app].
  case_if; by eexists.
Qed.

(** *** Messages *)

Lemma with_length_ok l : bytes_ok l -> blen l < 65536 -> with_length l = Ok (be_bytes 2 (blen l) ++ l).
Proof.
  intros Hb Hl. unfold with_length, writeUInt16BE. pose proof (blen_nonneg l). change (alloc (blen l + 2)) with ([] ++ alloc (blen l + 2)).
  rewrite write_filled by (reflexivity || (cbn; lia)). cbn [bind_result app]. rewrite store_bytes_ok by done.
  change (Z.of_nat 2) with 2. replace (blen l + 2 - 2) with (blen l) by lia. 
  pose proof (splice_filled (be_bytes 2 (blen l)) (blen l) l ltac:(lia)) as Hs. rewrite blen_be_bytes in Hs. change (Z.of_nat 2) with 2 in Hs.
  rewrite Hs. replace (blen l - blen l) with 0 by lia. by rewrite app_nil_r.
Qed.

Lemma with_length_size l : blen l < 65536 -> exists buf, with_length l = Ok buf /\ blen buf = 2 + blen l.
Proof.
  intros Hl. unfold with_length, writeUInt16BE, writeUIntBE. pose proof (blen_nonneg l). rewrite blen_alloc by lia.
  change (2 ^ (8 * Z.of_nat 2)) with 65536. change (Z.of_nat 2) with 2. decide_test (0 <=? blen l) true. decide_test (blen l <? 65536) true.
  decide_test (0 + 2 <=? blen l + 2) true. cbn [andb Z.leb Z.compare bind_result]. eexists. split; [reflexivity|].
  set (front := splice (alloc (blen l + 2)) 0 (be_bytes 2 (blen l))).
  assert (blen front = blen l + 2) as Hfront.
  { unfold front, blen at 1. rewrite length_splice; [rewrite <- (blen_alloc (blen l + 2)) at 2 by lia; done | lia |].
    rewrite blen_be_bytes, blen_alloc by lia. change (Z.of_nat 2) with 2. lia. }
  unfold blen at 1. rewrite length_splice; [unfold blen in *; lia | lia |].
  unfold store_numbers. unfold blen in *. rewrite length_map. lia.
Qed.

Lemma bytes_ok_wire addPath routes : Forall route_ok routes -> bytes_ok (wire_of addPath routes).
Proof.
  intros Hr. apply bytes_ok_prefixes, Forall_map. eapply Forall_impl; [|exact Hr]. intros r. apply route_prefix_ok.
Qed.

Lemma update_header body :
  BGP_HEAD_LEN + blen body < 65536 ->
  buildBgpMessageHeader (BGP_HEAD_LEN + blen body) (packet_type_value UPDATE) = Ok (take 19 (message (packet_type_value UPDATE) body)) /\
  message (packet_type_value UPDATE) body = take 19 (message (packet_type_value UPDATE) body) ++ body.
Proof.
  intros Hl. pose proof (blen_nonneg body). rewrite build_header by (unfold u16, BGP_HEAD_LEN in *; done || lia).
  assert (message (packet_type_value UPDATE) body = (marker ++ be_bytes 2 (BGP_HEAD_LEN + blen body) ++ [packet_type_value UPDATE]) ++ body) as He
    by (unfold message; by rewrite <- !app_assoc).
  assert (take 19 (message (packet_type_value UPDATE) body) = marker ++ be_bytes 2 (BGP_HEAD_LEN + blen body) ++ [packet_type_value UPDATE]) as Ht
    by (rewrite He; by apply (take_app_length' _ _ 19)).
  rewrite Ht. split; [done | exact He].
Qed.

Lemma blen_prefix_bound addPath r : route_ok r -> blen (enc_prefix addPath (route_prefix r)) <= 9.
Proof.
  intros Hrok. destruct (route_prefix_ok _ Hrok) as (_ & Hm & Hl & _). unfold enc_prefix, route_prefix.
  pose proof (prefix_bytes_bound _ Hm). rewrite !blen_app. set (address := match ipToBytes (ip r) with Ok x => x | Throw _ => [] end) in *.
  assert (blen (take (Z.to_nat (prefix_bytes (mask r))) address) <= 4) by (rewrite blen_take; unfold blen; lia).
  change (blen [mask r]) with 1. destruct addPath; rewrite ?blen_be_bytes; change (blen (@nil Z)) with 0; lia.
Qed.

Lemma update_message routes i r b :
  Forall route_ok routes -> routes !! i = Some r ->
  buildRoutePathAttributes ipToBytes getIpType peer r true = Ok b -> bytes_ok b -> blen b <= 4064 ->
  exists n, let part := take n (drop i routes) in
    let m := message (packet_type_value UPDATE) (update_body [] b (wire_of (shouldSendAddPath peer) part)) in
    buildUpdateMsgIpv4 ipToBytes getIpType peer routes i = Ok (m, (i + n)%nat) /\
    (0 < n)%nat /\ (i + n <= length routes)%nat /\ blen m <= BGP_MAX_PKT_SIZE.
Proof.
  intros Hr Hi Hb Hok Hlen. pose proof (blen_nonneg b). pose proof (lookup_lt_Some _ _ _ Hi) as Hlt.
  assert (drop i routes = r :: drop (S i) routes) as Hd by (by apply drop_S).
  assert (Forall route_ok (drop i routes)) as Hrd by (by apply Forall_drop).
  assert (route_ok r) as Hrok by (rewrite Hd in Hrd; by apply Forall_cons_iff in Hrd as [? _]).
  destruct (pack_spec (shouldSendAddPath peer) (drop i routes) (BGP_HEAD_LEN + 2 + (2 + blen b)) Hrd) as (n & Hp & Hn & Hfit & Hpos & _).
  assert (0 < n)%nat as Hn0.
  { apply (Hpos r); [by rewrite Hd|]. pose proof (blen_prefix_bound (shouldSendAddPath peer) r Hrok). unfold BGP_MAX_PKT_SIZE, BGP_HEAD_LEN. lia. }
  specialize (Hfit Hn0). set (part := take n (drop i routes)) in *. set (w := wire_of (shouldSendAddPath peer) part) in *.
  assert (bytes_ok w) as Hw by (apply bytes_ok_wire; by apply Forall_take).
  pose proof (blen_nonneg w). unfold BGP_MAX_PKT_SIZE, BGP_HEAD_LEN in *.
  assert (blen (update_body [] b w) = 4 + blen b + blen w) as Hbody by (unfold update_body; rewrite !blen_app, !blen_be_bytes; change (blen (@nil Z)) with 0; lia).
  exists n. cbv zeta. fold part. fold w.
  destruct (update_header (update_body [] b w)) as [Hh Hm]; [unfold BGP_HEAD_LEN; lia|].
  split_and!; [|done| rewrite length_drop in Hn; lia | rewrite blen_message, Hbody; unfold BGP_HEAD_LEN; lia].
  unfold buildUpdateMsgIpv4. rewrite Hd at 1. rewrite Hb. cbn [bind_result]. rewrite with_length_ok by (done || lia). cbn [bind_result].
  rewrite blen_app, blen_be_bytes. change (Z.of_nat 2) with 2. unfold BGP_HEAD_LEN in *. rewrite Hp. cbn [bind_result]. fold part. fold w.
  rewrite store_bytes_ok by done. replace (19 + 2 + (2 + blen b) + blen w) with (19 + blen (update_body [] b w)) by lia.
  rewrite Hh. cbn [bind_result]. by do 2 f_equal.
Qed.

(** The loop over the routes sends them in consecutive parts, one message each. *)
Lemma send_loop builder routes (P : buffer -> list bgp_route -> Prop) :
  (forall i, (i < length routes)%nat -> exists m n, builder routes i = Ok (m, (i + n)%nat) /\ (0 < n)%nat /\ (i + n <= length routes)%nat /\
     blen m <= BGP_MAX_PKT_SIZE /\ P m (take n (drop i routes))) ->
  forall fuel i, (i <= length routes)%nat -> (length routes - i <= fuel)%nat ->
  exists ms parts, sendBuiltRouteLoop fuel routes builder i = Some ms /\ concat parts = drop i routes /\
    Forall2 (fun m part => blen m <= BGP_MAX_PKT_SIZE /\ part <> [] /\ P m part) ms parts.
Proof.
  intros Hbuild fuel. induction fuel as [|fuel IH]; intros i Hi Hf.
  - assert (i = length routes) as -> by lia. exists [], []. cbn [sendBuiltRouteLoop]. rewrite Nat.ltb_irrefl, drop_all. split_and!; constructor.
  - cbn [sendBuiltRouteLoop]. destruct (i <? length routes)%nat eqn:El.
    + apply Nat.ltb_lt in El. destruct (Hbuild i El) as (m & n & -> & Hn & Hin & Hm & HP).
      replace (i + n <=? i)%nat with false by (symmetry; apply Nat.leb_gt; lia). decide_test (BGP_MAX_PKT_SIZE <? blen m) false. cbn [orb].
      destruct (IH (i + n)%nat) as (ms & parts & -> & Hc & Hall); [lia | lia|].
      exists (m :: ms), (take n (drop i routes) :: parts). split; [done|]. split.
      * cbn [concat]. rewrite Hc, <- drop_drop. apply take_drop.
      * constructor; [|done]. split_and!; [done | | done]. intros He. apply (f_equal length) in He. rewrite length_take, length_drop in He. cbn in He. lia.
    + apply Nat.ltb_ge in El. assert (i = length routes) as -> by lia. exists [], []. rewrite drop_all. split_and!; constructor.
Qed.

Lemma withdraw_message routes i :
  Forall route_ok routes -> (i < length routes)%nat ->
  exists n, let part := take n (drop i routes) in
    let m := message (packet_type_value UPDATE) (update_body (wire_of (shouldSendAddPath peer) part) [] []) in
    buildWithdrawMsgIpv4 ipToBytes peer routes i = Ok (m, (i + n)%nat) /\
    (0 < n)%nat /\ (i + n <= length routes)%nat /\ blen m <= BGP_MAX_PKT_SIZE.
Proof.
  intros Hr Hi. destruct (lookup_lt_is_Some_2 routes i Hi) as [r Hlook].
  assert (drop i routes = r :: drop (S i) routes) as Hd by (by apply drop_S).
  assert (Forall route_ok (drop i routes)) as Hrd by (by apply Forall_drop).
  assert (route_ok r) as Hrok by (rewrite Hd in Hrd; by apply Forall_cons_iff in Hrd as [? _]).
  destruct (pack_spec (shouldSendAddPath peer) (drop i routes) (BGP_HEAD_LEN + 2 + 2) Hrd) as (n & Hp & Hn & Hfit & Hpos & _).
  assert (0 < n)%nat as Hn0.
  { apply (Hpos r); [by rewrite Hd|]. pose proof (blen_prefix_bound (shouldSendAddPath peer) r Hrok). unfold BGP_MAX_PKT_SIZE, BGP_HEAD_LEN. lia. }
  specialize (Hfit Hn0). set (part := take n (drop i routes)) in *. set (w := wire_of (shouldSendAddPath peer) part) in *.
  assert (bytes_ok w) as Hw by (apply bytes_ok_wire; by apply Forall_take).
  pose proof (blen_nonneg w). unfold BGP_MAX_PKT_SIZE, BGP_HEAD_LEN in *.
  assert (blen (update_body w [] []) = 4 + blen w) as Hbody by (unfold update_body; rewrite !blen_app, !blen_be_bytes; change (blen (@nil Z)) with 0; lia).
  exists n. cbv zeta. fold part. fold w.
  destruct (update_header (update_body w [] [])) as [Hh Hm]; [unfold BGP_HEAD_LEN; lia|].
  split_and!; [|done| rewrite length_drop in Hn; lia | rewrite blen_message, Hbody; unfold BGP_HEAD_LEN; lia].
  unfold buildWithdrawMsgIpv4. rewrite Hd. rewrite <- Hd. unfold BGP_HEAD_LEN in *. rewrite Hp. cbn [bind_result]. fold part. fold w.
  rewrite with_length_ok by (done || lia). cbn [bind_result]. rewrite blen_app, blen_be_bytes. change (Z.of_nat 2) with 2.
  replace (19 + (2 + blen w) + 2) with (19 + blen (update_body w [] [])) by lia.
  rewrite Hh. cbn [bind_result]. by do 2 f_equal.
Qed.

Lemma parts_of parts (routes : list bgp_route) (P : bgp_route -> Prop) :
  concat parts = routes -> Forall P routes -> Forall (Forall P) parts.
Proof. intros <- Hr. by apply Forall_concat. Qed.
End Delivery.

(** The prefixes a receiver is to read for routes. *)
Definition announced (ipToBytes : list Z -> result (list Z)) (peer : bgp_peer) (routes : list bgp_route) : list nlri_route :=
  map (fun r => prefix_route (shouldSendAddPath peer) (route_prefix ipToBytes r)) routes.

(** C6: A group of IPv4 routes reaches the other side. For routes with the same attributes that leave room for a prefix, the
    sending loop ends and its messages, of at most 4096 bytes each, carry consecutive nonempty parts that make up
    the group; each is read by a session that agrees on ADD-PATH as a valid UPDATE without withdrawals, with the
    origin, the next hop, the metrics and the communities of the route, an AS path that is the route's behind the
    own AS number for an external peer, and the prefixes of the part in their order: path identifier (if
    agreed), address without host bits, length. *)
Theorem bgp_routes_delivered {special} (decode_special : special_decoder special) ipToBytes getIpType peer receiver routes a asns cs hop :
  afi peer = AFI_IPV4 -> safi peer = SAFI_UNICAST ->
  isAddPathReceiveEnabled receiver AFI_IPV4 SAFI_UNICAST = isAddPathSendEnabled (session peer) AFI_IPV4 SAFI_UNICAST ->
  use4ByteAsn peer = true -> asn_ok (localAs (config (session peer))) ->
  plain_attributes ipToBytes peer a asns cs hop ->
  Forall (fun r => route_ok ipToBytes r /\ route_attr_of r = a) routes ->
  (forall r b, In r routes -> buildRoutePathAttributes ipToBytes getIpType peer r true = Ok b -> blen b <= 4064) ->
  exists ms parts,
    sendBuiltRouteLoop (length routes) routes (buildUpdateMsgIpv4 ipToBytes getIpType peer) 0 = Some ms /\
    concat parts = routes /\
    Forall2 (fun m part => blen m <= BGP_MAX_PKT_SIZE /\ part <> [] /\
      exists u segments, parse_update_packet decode_special (session_context receiver) m = Some (Some u) /\
        update_valid u = true /\ withdrawnRoutes u = [] /\
        map attr_detail_of (pathAttributes u) = announced_details peer a asns cs hop segments /\
        concat (map asNumbers segments) = announced_path peer asns (prependLocalAs a) /\
        nlri u = announced ipToBytes peer part) ms parts.
Proof.
  intros Hafi Hsafi Hagree H4 Has Hplain Hroutes Hroom.
  assert (Forall (route_ok ipToBytes) routes) as Hok by (eapply Forall_impl; [|exact Hroutes]; intros r [? _]; done).
  destruct (send_loop (buildUpdateMsgIpv4 ipToBytes getIpType peer) routes (fun m part =>
    exists b l rs, m = message (packet_type_value UPDATE) (update_body [] b (wire_of ipToBytes (shouldSendAddPath peer) part)) /\
      b = concat (map enc_attr l) /\ bytes_ok b /\ blen b <= 4064 /\ reads decode_special (session_context receiver) l rs /\
      Forall (fun r => attr_valid r <> Some false) rs /\
      map attr_detail_of rs = announced_details peer a asns cs hop
        (map (fun ns => {| segment_type := 2; asNumbers := ns |})
           (as_segments (length (announced_path peer asns (prependLocalAs a))) (announced_path peer asns (prependLocalAs a)))))) 
    with (fuel := length routes) (i := 0%nat) as (ms & parts & Hloop & Hparts & Hall); [|lia|lia|].
  - intros i Hi. destruct (lookup_lt_is_Some_2 routes i Hi) as [r Hr].
    assert (route_attr_of r = a) as Ha by (rewrite Forall_lookup in Hroutes; by apply (Hroutes i r)).
    destruct (plain_exists ipToBytes getIpType peer r a asns cs hop Ha Hplain) as [b Hb].
    assert (blen b <= 4064) as Hlen by (apply (Hroom r); [apply list_elem_of_In; by eapply list_elem_of_lookup_2 | done]).
    destruct (plain_built ipToBytes getIpType peer decode_special (session_context receiver) r a asns cs hop b) as (l & rs & Hl & Hbo & Hrs & Hv & Hd); try done; [lia|].
    destruct (update_message ipToBytes getIpType peer routes i r b) as (n & Hm & Hn & Hin & Hsize); try done.
    eexists _, n. split; [exact Hm|]. split_and!; try done. by exists b, l, rs.
  - exists ms, parts. split; [exact Hloop|]. split; [exact Hparts|].
    pose proof (parts_of parts routes _ Hparts Hok) as Hpok. clear Hloop Hparts.
    induction Hall as [|m part ms parts (Hsize & Hne & b & l & rs & -> & -> & Hbo & Hlen & Hrs & Hv & Hd) _ IH]; [constructor|].
    apply Forall_cons_iff in Hpok as [Hp Hpok]. constructor; [|by apply IH]. split; [done|]. split; [done|].
    destruct (update_read_back decode_special (session_context receiver) (shouldSendAddPath peer) [] l rs (map (route_prefix ipToBytes) part))
      as (u & Hu & Hvalid & Hwd & Hattrs & Hnlri); try done.
    + apply Forall_map. eapply Forall_impl; [|exact Hp]. intros r. apply route_prefix_ok.
    + split; [|done]. cbn [session_context getAddPathReceiveInfo enabled]. rewrite Hagree. unfold shouldSendAddPath, isIpUnicastFamily. by rewrite Hafi, Hsafi.
    + unfold u16. rewrite blen_message in Hsize. unfold BGP_MAX_PKT_SIZE, BGP_HEAD_LEN in *. pose proof (blen_nonneg (update_body [] (concat (map enc_attr l)) (wire_of ipToBytes (shouldSendAddPath peer) part))).
      change (concat (map (enc_prefix (shouldSendAddPath peer)) [])) with (@nil Z). fold (wire_of ipToBytes (shouldSendAddPath peer) part). lia.
    + eexists u, _. split; [exact Hu|]. split_and!; [done | done | by rewrite Hattrs, Hd | | by rewrite Hnlri; unfold announced; rewrite map_map].
      rewrite map_map. cbn [asNumbers]. rewrite map_id. by apply as_segments_concat.
Qed.

(** C8: Withdrawn IPv4 routes reach the other side. The loop over the routes ends, its messages are of at most 4096 bytes, and a session
    that agrees on ADD-PATH reads each as a valid UPDATE without attributes and prefixes, whose withdrawn routes are
    the next part of the routes, all of them in their order. *)
Theorem bgp_withdrawals_delivered {special} (decode_special : special_decoder special) ipToBytes peer receiver routes :
  afi peer = AFI_IPV4 -> safi peer = SAFI_UNICAST ->
  isAddPathReceiveEnabled receiver AFI_IPV4 SAFI_UNICAST = isAddPathSendEnabled (session peer) AFI_IPV4 SAFI_UNICAST ->
  Forall (route_ok ipToBytes) routes ->
  exists ms parts,
    sendBuiltRouteLoop (length routes) routes (buildWithdrawMsgIpv4 ipToBytes peer) 0 = Some ms /\
    concat parts = routes /\
    Forall2 (fun m part => blen m <= BGP_MAX_PKT_SIZE /\ part <> [] /\
      exists u, parse_update_packet decode_special (session_context receiver) m = Some (Some u) /\
        update_valid u = true /\ withdrawnRoutes u = announced ipToBytes peer part /\ pathAttributes u = [] /\ nlri u = []) ms parts.
Proof.
  intros Hafi Hsafi Hagree Hok.
  destruct (send_loop (buildWithdrawMsgIpv4 ipToBytes peer) routes (fun m part =>
    m = message (packet_type_value UPDATE) (update_body (wire_of ipToBytes (shouldSendAddPath peer) part) [] [])))
    with (fuel := length routes) (i := 0%nat) as (ms & parts & Hloop & Hparts & Hall); [|lia|lia|].
  - intros i Hi. destruct (withdraw_message ipToBytes peer routes i Hok Hi) as (n & Hm & Hn & Hin & Hsize). eexists _, n. split; [exact Hm|]. by split_and!.
  - exists ms, parts. split; [exact Hloop|]. split; [exact Hparts|].
    pose proof (parts_of parts routes _ Hparts Hok) as Hpok. clear Hloop Hparts.
    induction Hall as [|m part ms parts (Hsize & Hne & ->) _ IH]; [constructor|].
    apply Forall_cons_iff in Hpok as [Hp Hpok]. constructor; [|by apply IH]. split; [done|]. split; [done|].
    assert (u16 (BGP_HEAD_LEN + blen (update_body (wire_of ipToBytes (shouldSendAddPath peer) part) [] []))) as Hu16.
    { rewrite blen_message in Hsize. pose proof (blen_nonneg (update_body (wire_of ipToBytes (shouldSendAddPath peer) part) [] [])).
      unfold u16, BGP_MAX_PKT_SIZE, BGP_HEAD_LEN in *. lia. }
    destruct (update_read_back decode_special (session_context receiver) (shouldSendAddPath peer) (map (route_prefix ipToBytes) part) [] [] [])
      as (u & Hu & Hvalid & Hwd & Hattrs & Hnlri); [|constructor|constructor|constructor|constructor| |exact Hu16|].
    + apply Forall_map. eapply Forall_impl; [|exact Hp]. intros r. apply route_prefix_ok.
    + split; [|done]. cbn [session_context getAddPathReceiveInfo enabled]. rewrite Hagree. unfold shouldSendAddPath, isIpUnicastFamily. by rewrite Hafi, Hsafi.
    + exists u. split; [exact Hu|]. split_and!; try done. rewrite Hwd. unfold announced. by rewrite map_map.
Qed.

(** When the attributes leave no room for the next prefix, the rest of the group is dropped without a sign: the loop sends
    nothing for a group whose first prefix does not fit behind the attributes into 4096 bytes, and says nothing of it. *)
Theorem bgp_group_dropped ipToBytes getIpType peer r routes b fuel :
  Forall (route_ok ipToBytes) (r :: routes) ->
  buildRoutePathAttributes ipToBytes getIpType peer r true = Ok b -> blen b < 65536 ->
  BGP_MAX_PKT_SIZE < 23 + blen b + blen (enc_prefix (shouldSendAddPath peer) (route_prefix ipToBytes r)) ->
  sendBuiltRouteLoop (S fuel) (r :: routes) (buildUpdateMsgIpv4 ipToBytes getIpType peer) 0 = Some [].
Proof.
  intros Hok Hb Hlen Hbig. cbn [sendBuiltRouteLoop length]. change (0 <? S (length routes))%nat with true. cbv iota.
  unfold buildUpdateMsgIpv4. cbn [drop]. rewrite Hb. cbn [bind_result].
  destruct (with_length_size b Hlen) as (buf & -> & Hbuf).
  cbn [bind_result]. destruct (pack_spec ipToBytes (shouldSendAddPath peer) (r :: routes) (BGP_HEAD_LEN + 2 + blen buf) Hok) as (n & -> & _ & _ & _ & Hzero).
  assert (n = 0%nat) as -> by (apply (Hzero r); [done | unfold BGP_HEAD_LEN; lia]). cbn [bind_result].
  destruct (buildBgpMessageHeader _ _); done.
Qed.

(** ** Examples *)

Definition example_attr : route_attr := {|
  configured := false; configured_entries := []; origin := OriginText (js "EGP"); asPath := js "70000 5"; prependLocalAs := true;
  nextHop := js "192.0.2.1"; med := Some 7; localPref := None; communities := [js "65000:3"]; customAttr := []; extendedCommunities := [];
  rt := []; service := {| srv6Sid := []; srv6EndpointBehavior := Null; srv6SidStructure := [] |} |}.

Definition example_route (path_id : Z) : bgp_route := {|
  ip := js "192.0.2.1"; mask := 23; routePathId := Some path_id; route_attr_of := example_attr |}.

Definition example_peer : bgp_peer := {|
  session := witness_session; localIp := js "192.0.2.1"; peerIp := js "192.0.2.9"; afi := AFI_IPV4; safi := SAFI_UNICAST;
  sendSrv6PrefixSid := false |}.

Lemma example_plain : plain_attributes witness_router_id example_peer example_attr [70000; 5] [(65000, 3)] [192; 0; 2; 1].
Proof.
  constructor; try reflexivity.
  - done.
  - by repeat (apply Forall_cons; [done|]).
  - by repeat (apply Forall_cons; [done|]).
  - done.
  - done.
  - by repeat (apply Forall_cons; [done|]).
  - done.
Qed.

Lemma example_route_ok n : route_ok witness_router_id (example_route n).
Proof. split; [done|]. exists [192; 0; 2; 1]. split_and!; [done | done |]. by repeat (apply Forall_cons; [done|]). Qed.

Lemma bgp_routes_delivered_witness : exists ms,
  sendBuiltRouteLoop 2 [example_route 1; example_route 2] (buildUpdateMsgIpv4 witness_router_id (fun _ => Some IPV4) example_peer) 0 = Some ms.
Proof.
  destruct (bgp_routes_delivered (special := unit) (fun _ _ => Throw TypeError) witness_router_id (fun _ => Some IPV4) example_peer witness_session
    [example_route 1; example_route 2] example_attr [70000; 5] [(65000, 3)] [192; 0; 2; 1]) as (ms & _ & E & _); try done.
  - exact example_plain.
  - by repeat (apply Forall_cons; [split; [apply example_route_ok | done]|]).
  - intros r b [<-|[<-|[]]] Hb; apply Ok_inj in Hb; subst b; by vm_compute.
  - by exists ms.
Defined.

Lemma bgp_withdrawals_delivered_witness : exists ms,
  sendBuiltRouteLoop 2 [example_route 1; example_route 2] (buildWithdrawMsgIpv4 witness_router_id example_peer) 0 = Some ms.
Proof.
  destruct (bgp_withdrawals_delivered (special := unit) (fun _ _ => Throw TypeError) witness_router_id example_peer witness_session
    [example_route 1; example_route 2]) as (ms & _ & E & _); try done.
  - by repeat (apply Forall_cons; [apply example_route_ok|]).
  - by exists ms.
Defined.

(** A route with attributes of more than 4096 bytes. *)
Definition example_large : bgp_route := {|
  ip := js "192.0.2.1"; mask := 24; routePathId := None;
  route_attr_of := {|
    configured := true; configured_entries := [EntryCommunities (replicate 1020 (js "1:2"))]; origin := OriginAbsent; asPath := [];
    prependLocalAs := false; nextHop := []; med := None; localPref := None; communities := []; customAttr := [];
    extendedCommunities := []; rt := []; service := {| srv6Sid := []; srv6EndpointBehavior := Null; srv6SidStructure := [] |} |} |}.

Lemma bgp_group_dropped_witness :
  sendBuiltRouteLoop 1 [example_large] (buildUpdateMsgIpv4 witness_router_id (fun _ => Some IPV4) example_peer) 0 = Some [].
Proof.
  apply (bgp_group_dropped witness_router_id (fun _ => Some IPV4) example_peer example_large []
    (default [] (match buildRoutePathAttributes witness_router_id (fun _ => Some IPV4) example_peer example_large true with Ok b => Some b | Throw _ => None end)) 0).
  - apply Forall_cons; [|done]. split; [done|]. exists [192; 0; 2; 1]. split_and!; [done | done |]. by repeat (apply Forall_cons; [done|]).
  - vm_compute. reflexivity.
  - vm_compute. reflexivity.
  - vm_compute. reflexivity.
Defined.
