(* ===== verification/DhcpPacket.v ===== *)
(** DHCPv4 messages: src/electron/worker/dhcp/dhcpWorker.js (address texts, parser and
    builder) and the message types of src/electron/const/dhcpConst.js.

    The parser and the builder are translated line by line; the builder keeps the
    576-byte buffer and its running offset.  [bootp_message] is a specification of the
    wire format (RFC 2131): fixed fields, 192 unused bytes, the magic cookie and the
    options.  The builder's result is such a message, and parsing one gives back its
    fields. *)

From stdpp Require Import base list numbers strings option gmap.
From Stdlib Require Import ZArith Lia.
From S2P Require Import Prelude NodePath JsText.

Local Open Scope Z_scope.
Local Open Scope js_scope.

Definition MAGIC_COOKIE : buffer := [99; 130; 83; 99].

Inductive DHCP_MSG_TYPES := DISCOVER | OFFER | REQUEST | DECLINE | ACK | NAK | RELEASE | INFORM.

Definition msg_type_value (t : DHCP_MSG_TYPES) : Z :=
  match t with
  | DISCOVER => 1 | OFFER => 2 | REQUEST => 3 | DECLINE => 4
  | ACK => 5 | NAK => 6 | RELEASE => 7 | INFORM => 8
  end.

(** ** Address texts *)

Definition ipToNum (ip : jsstring) : Z :=
  js_ushr (fold_left (fun acc oct => js_or (js_shl acc 8) (default 0 (parseInt10 oct))) (split_on 46 ip) 0) 0.

Definition numToIp (num : Z) : jsstring :=
  join_with 46 (map js_number_to_string
    [js_and (js_ushr num 24) 255; js_and (js_ushr num 16) 255; js_and (js_ushr num 8) 255; js_and num 255]).

Definition ipToBuffer (ip : jsstring) : buffer :=
  map (fun oct => default 0 (Number_text oct) mod 256) (split_on 46 ip).

(** ** Parser *)

Record dhcp_packet := {
  op : Z; htype : Z; hlen : Z; hops : Z; xid : Z; secs : Z; flags : Z;
  ciaddr : buffer; yiaddr : buffer; siaddr : buffer; giaddr : buffer; chaddr : buffer;
  options : gmap Z buffer;
  macAddr : jsstring;
  msgType : option Z;
  requestedIp : option jsstring;
  hostname : option jsstring;
  serverId : option jsstring
}.

Fixpoint parse_options (fuel : nat) (b : buffer) (i : Z) (opts : gmap Z buffer) : gmap Z buffer :=
  match fuel with
  | O => opts
  | S f =>
    if i <? blen b then
      let code := read_field 1 b i in
      let i := i + 1 in
      if code =? 255 then opts
      else if code =? 0 then parse_options f b i opts
      else if blen b <=? i then opts
      else
        let len := read_field 1 b i in
        let i := i + 1 in
        parse_options f b (i + len) (<[code := subarray b i (i + len)]> opts)
    else opts
  end.

Definition mac_text (bytes : buffer) : jsstring :=
  toLowerCase (join_with 58 (map (fun x => padStart (hex_digits x) 2 48) bytes)).

Definition option_address (o : option buffer) : option jsstring :=
  match o with
  | Some d => if 4 <=? blen d then Some (numToIp (read_field 4 d 0)) else None
  | None => None
  end.

Definition parseDhcpPacket (b : buffer) : option dhcp_packet :=
  if blen b <? 236 then None
  else
    let chaddr := subarray b 28 44 in
    let hlen := read_field 1 b 2 in
    let opts :=
      if (240 <? blen b) && bool_decide (subarray b 236 240 = MAGIC_COOKIE)
      then parse_options (length b) b 240 ∅ else ∅ in
    Some {|
      op := read_field 1 b 0; htype := read_field 1 b 1; hlen := hlen; hops := read_field 1 b 3;
      xid := read_field 4 b 4; secs := read_field 2 b 8; flags := read_field 2 b 10;
      ciaddr := subarray b 12 16; yiaddr := subarray b 16 20; siaddr := subarray b 20 24;
      giaddr := subarray b 24 28; chaddr := chaddr;
      options := opts;
      macAddr := mac_text (subarray chaddr 0 (if hlen =? 0 then 6 else hlen));
      msgType := match opts !! 53 with
                 | Some d => if 1 <=? blen d then Some (read_field 1 d 0) else None
                 | None => None
                 end;
      requestedIp := option_address (opts !! 50);
      hostname := (fun d => List.filter (fun c => negb (c =? 0)) (ascii_decode d)) <$> (opts !! 12);
      serverId := option_address (opts !! 54) |}.

(** ** Builder *)

Record dhcp_config := {
  serverPort : option Z;   (* [None]: not a whole number *)
  serverIp : jsstring;
  cfg_poolStart : jsstring; cfg_poolEnd : jsstring;
  subnetMask : jsstring;
  gateway : jsstring; dns1 : jsstring; dns2 : jsstring;
  leaseTime : Z
}.

(** One step of the builder: writes at the offset and moves it. *)
Definition put_byte (v : Z) (st : buffer * Z) : result (buffer * Z) :=
  let '(b, off) := st in
  let! b := writeUInt8 b v off in Ok (b, off + 1).

Definition put_address (ip : jsstring) (st : buffer * Z) : buffer * Z :=
  let '(b, off) := st in (copy_into (ipToBuffer ip) b off, off + 4).

Definition put_address_option (code : Z) (ip : jsstring) (st : buffer * Z) : result (buffer * Z) :=
  let! st := put_byte code st in
  let! st := put_byte 4 st in
  Ok (put_address ip st).

Definition put_lease_time (seconds : Z) (st : buffer * Z) : result (buffer * Z) :=
  let! st := put_byte 51 st in
  let! (b, off) := put_byte 4 st in
  let! b := writeUInt32BE b seconds off in
  Ok (b, off + 4).

Definition put_dns (servers : list jsstring) (st : buffer * Z) : result (buffer * Z) :=
  if 0 <? blen servers then
    let! st := put_byte 6 st in
    let! st := put_byte (blen servers * 4) st in
    Ok (fold_left (fun st dns => put_address dns st) servers st)
  else Ok st.

Definition is_text (s : jsstring) : bool := bool_decide (s <> []).

(** The fixed header: the buffer with everything before offset 240. *)
Definition put_header (p : dhcp_packet) (assignedIp serverIp : jsstring) : result buffer :=
  let b := alloc 576 in
  let! b := writeUInt8 b 2 0 in
  let! b := writeUInt8 b (htype p) 1 in
  let! b := writeUInt8 b (hlen p) 2 in
  let! b := writeUInt8 b 0 3 in
  let! b := writeUInt32BE b (xid p) 4 in
  let! b := writeUInt16BE b 0 8 in
  let! b := writeUInt16BE b (flags p) 10 in
  let b := splice b 12 [0; 0; 0; 0] in
  let b := copy_into (ipToBuffer assignedIp) b 16 in
  let b := copy_into (ipToBuffer serverIp) b 20 in
  let b := copy_into (giaddr p) b 24 in
  let b := copy_into (chaddr p) b 28 in
  Ok (copy_into MAGIC_COOKIE b 236).

Definition buildDhcpResponse (c : dhcp_config) (p : dhcp_packet) (msgType : DHCP_MSG_TYPES)
    (assignedIp serverIp : jsstring) : result buffer :=
  let! b := put_header p assignedIp serverIp in
  let! st := put_byte 53 (b, 240) in
  let! st := put_byte 1 st in
  let! st := put_byte (msg_type_value msgType) st in
  let! st :=
    match msgType with
    | NAK => put_address_option 54 serverIp st
    | _ =>
      let! st := put_address_option 54 serverIp st in
      let! st := put_lease_time (leaseTime c) st in
      let! st := put_address_option 1 (subnetMask c) st in
      let! st := if is_text (gateway c) then put_address_option 3 (gateway c) st else Ok st in
      put_dns (List.filter is_text [dns1 c; dns2 c]) st
    end in
  let! (b, off) := put_byte 255 st in
  Ok (subarray b 0 off).

(** ** Address texts read back *)

Definition is_ipv4_number (n : Z) : Prop := 0 <= n < 2 ^ 32.

Lemma byte_text x : is_byte x -> js_number_to_string x = dec_digits x.
Proof. unfold is_byte, js_number_to_string. intros. by decide_test (x <? 0) false. Qed.

Lemma octet_of n k : is_ipv4_number n -> 0 <= k -> js_and (js_ushr n k) 255 = (n / 2 ^ k) mod 256.
Proof.
  intros [] ?. change 255 with (2 ^ 8 - 1). rewrite js_and_mask by lia.
  unfold js_ushr, to_uint32. rewrite (Z.mod_small n) by lia. by rewrite Z.shiftr_div_pow2.
Qed.

Lemma be_bytes_octets n :
  be_bytes 4 n = [(n / 2 ^ 24) mod 256; (n / 2 ^ 16) mod 256; (n / 2 ^ 8) mod 256; n mod 256].
Proof.
  cbn [be_bytes app]. rewrite !Z.div_div by lia.
  reflexivity.
Qed.

Lemma numToIp_eq n : is_ipv4_number n -> numToIp n = join_with 46 (map dec_digits (be_bytes 4 n)).
Proof.
  intros Hn. unfold numToIp. rewrite be_bytes_octets, !octet_of by (done || lia).
  change 255 with (2 ^ 8 - 1). rewrite js_and_mask by lia. change (2 ^ 8) with 256.
  cbn [map]. by rewrite !byte_text by (unfold is_byte; apply Z.mod_pos_bound; lia).
Qed.

Lemma split_octets bs :
  bs <> [] -> bytes_ok bs -> split_on 46 (join_with 46 (map dec_digits bs)) = map dec_digits bs.
Proof.
  intros Hne Hbs. apply split_join; [by destruct bs|]. rewrite Forall_map.
  eapply Forall_impl; [exact Hbs|]. intros x [Hx _]. by apply dec_digits_lacks.
Qed.

Lemma ipToBuffer_octets bs :
  bs <> [] -> bytes_ok bs -> ipToBuffer (join_with 46 (map dec_digits bs)) = bs.
Proof.
  intros Hne Hbs. unfold ipToBuffer. rewrite split_octets, map_map by done.
  clear Hne. induction Hbs as [|x bs Hx Hbs IH]; [done|]. cbn [map].
  rewrite IH, Number_dec by apply Hx. cbn [default from_option]. unfold is_byte in Hx. f_equal.
  by apply Z.mod_small.
Qed.

Lemma to_uint32_int32 x : to_uint32 (to_int32 x) = to_uint32 x.
Proof. unfold to_int32, to_uint32. case_if; zdiv. Qed.

(** One step of [(acc << 8) | octet]. *)
Lemma shl_or_octet acc x :
  is_byte x -> to_uint32 (js_or (js_shl acc 8) x) = (to_uint32 acc * 256 + x) mod 2 ^ 32.
Proof.
  unfold is_byte, js_or, js_shl. intros Hx. rewrite !to_uint32_int32.
  set (a := to_uint32 acc). rewrite Z.shiftl_mul_pow2 by lia. change (2 ^ 8) with 256. unfold to_uint32 at 2 3.
  assert (x mod 2 ^ 32 = x) as -> by (apply Z.mod_small; lia).
  assert ((a * 256) mod 2 ^ 32 = 256 * (a mod 2 ^ 24)) as ->.
  { change (2 ^ 32) with (2 ^ 24 * 256). rewrite Z.mul_mod_distr_r by lia. lia. }
  assert (Z.lor (256 * (a mod 2 ^ 24)) x = 256 * (a mod 2 ^ 24) + x) as ->.
  { symmetry. rewrite Z.add_comm. rewrite Z.lor_comm. apply Z.add_nocarry_lor.
    apply Z.bits_inj'. intros i Hi. rewrite Z.land_spec, Z.bits_0.
    destruct (decide (i < 8)).
    - change 256 with (2 ^ 8). rewrite (Z.mul_comm (2 ^ 8)), Z.mul_pow2_bits_low by lia. by rewrite andb_false_r.
    - rewrite (Z.bits_above_log2 x); [done | lia |]. destruct (decide (x = 0)) as [->|]; [cbn; lia|].
      apply Z.log2_lt_pow2; [lia|]. apply Z.lt_le_trans with (2 ^ 8); [cbn; lia | apply Z.pow_le_mono_r; lia]. }
  unfold to_uint32. zdiv.
Qed.

Lemma ipToNum_octets bs :
  bs <> [] -> bytes_ok bs -> blen bs <= 4 -> ipToNum (join_with 46 (map dec_digits bs)) = be_value bs.
Proof.
  intros Hne Hbs Hl. unfold ipToNum. rewrite split_octets by done. clear Hne.
  unfold js_ushr. rewrite Z.shiftr_0_r.
  assert (forall l acc, bytes_ok l ->
    to_uint32 (fold_left (fun acc oct => js_or (js_shl acc 8) (default 0 (parseInt10 oct))) (map dec_digits l) acc)
    = to_uint32 (fold_left (fun acc b => acc * 256 + b) l (to_uint32 acc))) as Hf.
  { induction l as [|x l IH]; intros acc Hok; [cbn [map fold_left]; unfold to_uint32; by rewrite Z.mod_mod by lia|].
    apply bytes_ok_cons in Hok as [Hx Hok]. cbn [map fold_left]. rewrite IH by done.
    rewrite parseInt10_dec by apply Hx. change (default 0 (Some x)) with x. rewrite shl_or_octet by done.
    clear IH. generalize (to_uint32 acc * 256 + x). intros v. clear -Hok. revert v.
    induction l as [|y l IHl]; intros v; cbn [fold_left]; [unfold to_uint32; by rewrite Z.mod_mod by lia|].
    apply bytes_ok_cons in Hok as [_ Hok]. rewrite <- (IHl Hok (v mod 2 ^ 32 * 256 + y)), <- (IHl Hok (v * 256 + y)).
    replace ((v mod 2 ^ 32 * 256 + y) mod 2 ^ 32) with ((v * 256 + y) mod 2 ^ 32); [done|].
    rewrite <- Z.add_mod_idemp_l, <- Z.mul_mod_idemp_l by lia. by rewrite Z.add_mod_idemp_l by lia. }
  rewrite Hf by done. change (to_uint32 0) with 0. fold (be_value bs).
  pose proof (be_value_bound bs Hbs) as [H0 H1]. unfold to_uint32. apply Z.mod_small. split; [done|].
  eapply Z.lt_le_trans; [exact H1|]. apply Z.pow_le_mono_r; lia.
Qed.

Lemma ipToNum_numToIp n : is_ipv4_number n -> ipToNum (numToIp n) = n.
Proof.
  intros Hn. rewrite numToIp_eq by done.
  rewrite ipToNum_octets; [by apply (be_value_be_bytes 4) | done | apply bytes_ok_be_bytes | rewrite blen_be_bytes; lia].
Qed.

Lemma ipToBuffer_numToIp n : is_ipv4_number n -> ipToBuffer (numToIp n) = be_bytes 4 n.
Proof. intros Hn. rewrite numToIp_eq by done. apply ipToBuffer_octets; [done | apply bytes_ok_be_bytes]. Qed.

Lemma numToIp_inj a b : is_ipv4_number a -> is_ipv4_number b -> numToIp a = numToIp b -> a = b.
Proof. intros Ha Hb He. rewrite <- (ipToNum_numToIp a), <- (ipToNum_numToIp b) by done. by rewrite He. Qed.

Lemma ipToNum_range ip : is_ipv4_number (ipToNum ip).
Proof. unfold ipToNum, js_ushr, is_ipv4_number. rewrite Z.shiftr_0_r. apply Z.mod_pos_bound. lia. Qed.

(** ** The wire format *)

Record bootp := {
  b_op : Z; b_htype : Z; b_hlen : Z; b_xid : Z; b_flags : Z;
  b_ciaddr : buffer; b_yiaddr : buffer; b_siaddr : buffer; b_giaddr : buffer; b_chaddr : buffer;
  b_options : list (Z * buffer)
}.

Definition encode_option (o : Z * buffer) : buffer := fst o :: blen (snd o) :: snd o.

Definition bootp_header (m : bootp) : buffer :=
  [b_op m] ++ [b_htype m] ++ [b_hlen m] ++ [0] ++ be_bytes 4 (b_xid m) ++ [0; 0] ++ be_bytes 2 (b_flags m) ++
  b_ciaddr m ++ b_yiaddr m ++ b_siaddr m ++ b_giaddr m ++ b_chaddr m.

Definition bootp_message (m : bootp) : buffer :=
  bootp_header m ++ alloc 192 ++ MAGIC_COOKIE ++ concat (map encode_option (b_options m)) ++ [255].

Definition option_ok (o : Z * buffer) : Prop := 0 < fst o < 255 /\ blen (snd o) < 256.

Record bootp_ok (m : bootp) : Prop := {
  ok_xid : 0 <= b_xid m < 2 ^ 32;
  ok_flags : 0 <= b_flags m < 65536;
  ok_ciaddr : length (b_ciaddr m) = 4%nat;
  ok_yiaddr : length (b_yiaddr m) = 4%nat;
  ok_siaddr : length (b_siaddr m) = 4%nat;
  ok_giaddr : length (b_giaddr m) = 4%nat;
  ok_chaddr : length (b_chaddr m) = 16%nat;
  ok_options : Forall option_ok (b_options m)
}.

Definition option_table (l : list (Z * buffer)) : gmap Z buffer :=
  fold_left (fun t o => <[fst o := snd o]> t) l ∅.

Definition packet_of (m : bootp) : dhcp_packet := {|
  op := b_op m; htype := b_htype m; hlen := b_hlen m; hops := 0; xid := b_xid m; secs := 0; flags := b_flags m;
  ciaddr := b_ciaddr m; yiaddr := b_yiaddr m; siaddr := b_siaddr m; giaddr := b_giaddr m; chaddr := b_chaddr m;
  options := option_table (b_options m);
  macAddr := mac_text (subarray (b_chaddr m) 0 (if b_hlen m =? 0 then 6 else b_hlen m));
  msgType := match option_table (b_options m) !! 53 with
             | Some d => if 1 <=? blen d then Some (read_field 1 d 0) else None
             | None => None
             end;
  requestedIp := option_address (option_table (b_options m) !! 50);
  hostname := (fun d => List.filter (fun c => negb (c =? 0)) (ascii_decode d)) <$> (option_table (b_options m) !! 12);
  serverId := option_address (option_table (b_options m) !! 54) |}.

(** *** Parsing a message *)

Lemma blen_encode_option o : blen (encode_option o) = 2 + blen (snd o).
Proof. unfold encode_option. blia. Qed.

(** The option loop reads a run of options and stops at the end mark. *)
Lemma parse_options_run l fuel a c t :
  Forall option_ok l -> (length l < fuel)%nat ->
  parse_options fuel (a ++ concat (map encode_option l) ++ 255 :: c) (blen a) t =
  fold_left (fun t o => <[fst o := snd o]> t) l t.
Proof.
  revert fuel a t. induction l as [|[code d] l IH]; intros fuel a t Hl Hf; (destruct fuel as [|f]; [cbn [length] in Hf; lia|]);
    cbn [parse_options map concat app fold_left].
  - decide_test (blen a <? blen (a ++ 255 :: c)) true.
    rewrite (read_field_mid 1 a [255] c) by (done || blia). by rewrite be_value_1.
  - apply Forall_cons_iff in Hl as [[Hc Hd] Hl]. cbn [fst snd] in Hc, Hd.
    change (encode_option (code, d)) with (code :: blen d :: d). cbn [fst snd app].
    set (rest := concat (map encode_option l) ++ 255 :: c).
    rewrite <- app_assoc. fold rest.
    replace (a ++ code :: blen d :: d ++ rest) with ((a ++ [code; blen d]) ++ d ++ rest) by (by rewrite <- app_assoc).
    set (b := (a ++ [code; blen d]) ++ d ++ rest).
    assert (blen b = blen a + 2 + blen d + blen rest) as Hb by (unfold b; blia).
    pose proof (blen_nonneg d). pose proof (blen_nonneg rest).
    decide_test (blen a <? blen b) true.
    assert (read_field 1 b (blen a) = code) as ->.
    { unfold b. rewrite <- app_assoc. rewrite (read_field_mid 1 a [code] (blen d :: d ++ rest)) by (done || blia). apply be_value_1. }
    decide_test (code =? 255) false. decide_test (code =? 0) false. decide_test (blen b <=? blen a + 1) false.
    assert (read_field 1 b (blen a + 1) = blen d) as ->.
    { unfold b. replace ((a ++ [code; blen d]) ++ d ++ rest) with ((a ++ [code]) ++ [blen d] ++ (d ++ rest)) by (by rewrite <- !app_assoc).
      rewrite read_field_mid by blia. apply be_value_1. }
    assert (subarray b (blen a + 1 + 1) (blen a + 1 + 1 + blen d) = d) as ->.
    { unfold b. replace (blen a + 1 + 1) with (blen (a ++ [code; blen d])) by blia. apply subarray_mid. }
    replace b with (((a ++ [code; blen d]) ++ d) ++ rest) by (unfold b; by rewrite <- !app_assoc).
    replace (blen a + 1 + 1 + blen d) with (blen ((a ++ [code; blen d]) ++ d)) by blia.
    apply IH; [done | cbn [length] in Hf; lia].
Qed.

Lemma list_4 (l : buffer) : length l = 4%nat -> exists a b c d, l = [a; b; c; d].
Proof. destruct l as [|a [|b [|c [|d [|]]]]]; try done. intros _. by exists a, b, c, d. Qed.

Lemma blen_bootp_header m : bootp_ok m -> blen (bootp_header m) = 44.
Proof.
  intros []. unfold bootp_header. autorewrite with blen.
  by repeat match goal with H : length ?l = _ |- _ => rewrite (blen_of_length l _ H); clear H end.
Qed.

Lemma subarray_header (h rest : buffer) s e : 0 <= s -> e <= blen h -> subarray (h ++ rest) s e = subarray h s e.
Proof. apply subarray_app_left. Qed.

Lemma length_options l : (length l <= length (concat (map encode_option l)))%nat.
Proof. induction l as [|o l IH]; [done|]. cbn [map concat length]. rewrite length_app. change (length (encode_option o)) with (S (S (length (snd o)))). lia. Qed.

Lemma parse_options_message m :
  bootp_ok m ->
  let b := bootp_message m in
  (240 <? blen b) && bool_decide (subarray b 236 240 = MAGIC_COOKIE) = true /\
  parse_options (length b) b 240 ∅ = option_table (b_options m).
Proof.
  intros Hm b. pose proof (blen_bootp_header m Hm) as Hh.
  assert (blen (bootp_header m ++ alloc 192) = 236) as H236 by (autorewrite with blen; rewrite Hh, blen_alloc by lia; lia).
  assert (blen ((bootp_header m ++ alloc 192) ++ MAGIC_COOKIE) = 240) as H240 by (rewrite blen_app, H236; done).
  split.
  - apply andb_true_iff. split.
    + apply Z.ltb_lt. unfold b, bootp_message. autorewrite with blen. rewrite Hh, blen_alloc by lia.
      change (blen MAGIC_COOKIE) with 4. blia.
    + apply bool_decide_eq_true. unfold b, bootp_message. rewrite app_assoc.
      replace 236 with (blen (bootp_header m ++ alloc 192)) by done.
      replace 240 with (blen (bootp_header m ++ alloc 192) + blen MAGIC_COOKIE) by (rewrite H236; done).
      apply subarray_mid.
  - unfold b, bootp_message. rewrite app_assoc, (app_assoc _ MAGIC_COOKIE). rewrite <- H240 at 1.
    apply parse_options_run; [by destruct Hm|]. rewrite !length_app. pose proof (length_options (b_options m)).
    cbn [length MAGIC_COOKIE]. lia.
Qed.

Lemma read_field_header n (h rest : buffer) off :
  0 <= off -> off + n <= blen h -> read_field n (h ++ rest) off = read_field n h off.
Proof. intros. unfold read_field. by rewrite subarray_header. Qed.

(** Parsing a message gives back its fields. *)
Lemma parse_bootp_message m : bootp_ok m -> parseDhcpPacket (bootp_message m) = Some (packet_of m).
Proof.
  intros Hm. destruct (parse_options_message m Hm) as [Hmagic Hopts]. pose proof (blen_bootp_header m Hm) as Hh.
  unfold parseDhcpPacket.
  assert (236 <= blen (bootp_message m)) as Hlen
    by (unfold bootp_message; rewrite blen_app, Hh, blen_app, blen_alloc by lia; blia).
  decide_test (blen (bootp_message m) <? 236) false.
  rewrite Hmagic, Hopts. clear Hmagic Hopts. unfold bootp_message.
  set (rest := alloc 192 ++ _). clearbody rest. rewrite !read_field_header, !subarray_header by lia.
  destruct m as [o ht hl x fl ci yi si gi ch opts]. destruct Hm as [Hx Hf Hci Hyi Hsi Hgi Hch _]. cbn [b_xid b_flags b_ciaddr b_yiaddr b_siaddr b_giaddr b_chaddr] in *.
  apply list_4 in Hci as (? & ? & ? & ? & ->). apply list_4 in Hyi as (? & ? & ? & ? & ->).
  apply list_4 in Hsi as (? & ? & ? & ? & ->). apply list_4 in Hgi as (? & ? & ? & ? & ->).
  unfold packet_of. cbn [b_op b_htype b_hlen b_xid b_flags b_ciaddr b_yiaddr b_siaddr b_giaddr b_chaddr b_options].
  set (m := {| b_op := o |}).
  change (subarray (bootp_header m) 28 44) with (take 16 ch). rewrite (take_ge ch) by (rewrite Hch; lia).
  change (read_field 4 (bootp_header m) 4) with (be_value (be_bytes 4 x)).
  change (read_field 2 (bootp_header m) 10) with (be_value (be_bytes 2 fl)).
  change (read_field 1 (bootp_header m) 2) with (be_value [hl]).
  change (read_field 1 (bootp_header m) 0) with (be_value [o]).
  change (read_field 1 (bootp_header m) 1) with (be_value [ht]).
  rewrite !be_value_1, !be_value_be_bytes by done. reflexivity.
Qed.

(** *** Building a message *)

(** The text of an IPv4 address. *)
Definition is_ipv4 (ip : jsstring) : Prop := exists n, is_ipv4_number n /\ ip = numToIp n.

Record packet_ok (p : dhcp_packet) : Prop := {
  pk_htype : is_byte (htype p);
  pk_hlen : is_byte (hlen p);
  pk_xid : 0 <= xid p < 2 ^ 32;
  pk_flags : 0 <= flags p < 65536;
  pk_ciaddr : length (ciaddr p) = 4%nat;
  pk_giaddr : length (giaddr p) = 4%nat;
  pk_chaddr : length (chaddr p) = 16%nat
}.

Record config_ok (c : dhcp_config) : Prop := {
  cfg_serverIp : is_ipv4 (serverIp c);
  cfg_subnetMask : is_ipv4 (subnetMask c);
  cfg_gateway : gateway c = [] \/ is_ipv4 (gateway c);
  cfg_dns1 : dns1 c = [] \/ is_ipv4 (dns1 c);
  cfg_dns2 : dns2 c = [] \/ is_ipv4 (dns2 c);
  cfg_leaseTime : 0 <= leaseTime c < 2 ^ 32
}.

Definition lease_options (c : dhcp_config) : list (Z * buffer) :=
  let servers := List.filter is_text [dns1 c; dns2 c] in
  [(51, be_bytes 4 (leaseTime c)); (1, ipToBuffer (subnetMask c))] ++
  (if is_text (gateway c) then [(3, ipToBuffer (gateway c))] else []) ++
  (if 0 <? blen servers then [(6, concat (map ipToBuffer servers))] else []).

Definition response (c : dhcp_config) (p : dhcp_packet) (t : DHCP_MSG_TYPES) (ip server : jsstring) : bootp := {|
  b_op := 2; b_htype := htype p; b_hlen := hlen p; b_xid := xid p; b_flags := flags p;
  b_ciaddr := [0; 0; 0; 0]; b_yiaddr := ipToBuffer ip; b_siaddr := ipToBuffer server;
  b_giaddr := giaddr p; b_chaddr := chaddr p;
  b_options := [(53, [msg_type_value t]); (54, ipToBuffer server)] ++
               match t with NAK => [] | _ => lease_options c end |}.

(** A buffer filled up to the offset: the bytes so far and the room left. *)
Definition filled (pre : buffer) (room : Z) : buffer * Z := (pre ++ alloc room, blen pre).

Lemma put_byte_filled pre room v :
  is_byte v -> 1 <= room -> put_byte v (filled pre room) = Ok (filled (pre ++ [v]) (room - 1)).
Proof.
  intros. unfold put_byte, filled. rewrite write8_filled by done. cbn [bind_result]. do 2 f_equal.
  by rewrite blen_app.
Qed.

Lemma ipToBuffer_ipv4 ip : is_ipv4 ip -> length (ipToBuffer ip) = 4%nat /\ bytes_ok (ipToBuffer ip).
Proof.
  intros (n & Hn & ->). rewrite ipToBuffer_numToIp by done. split; [apply length_be_bytes | apply bytes_ok_be_bytes].
Qed.

Lemma put_address_filled pre room ip :
  is_ipv4 ip -> 4 <= room -> put_address ip (filled pre room) = filled (pre ++ ipToBuffer ip) (room - 4).
Proof.
  intros Hip Hr. destruct (ipToBuffer_ipv4 ip Hip) as [Hl _]. unfold put_address, filled.
  apply blen_of_length in Hl. rewrite copy_filled by (done || lia). by rewrite blen_app, Hl.
Qed.

Lemma put_address_option_filled pre room code ip :
  is_byte code -> is_ipv4 ip -> 6 <= room ->
  put_address_option code ip (filled pre room) = Ok (filled (pre ++ encode_option (code, ipToBuffer ip)) (room - 6)).
Proof.
  intros Hc Hip Hr. unfold put_address_option. rewrite put_byte_filled by (done || lia). cbn [bind_result].
  rewrite put_byte_filled by (unfold is_byte; lia). cbn [bind_result]. rewrite put_address_filled by (done || lia).
  destruct (ipToBuffer_ipv4 ip Hip) as [Hl _]. apply blen_of_length in Hl.
  unfold encode_option. cbn [fst snd]. rewrite Hl. rewrite <- !app_assoc. do 2 f_equal. lia.
Qed.

Lemma put_lease_time_filled pre room t :
  0 <= t < 2 ^ 32 -> 6 <= room ->
  put_lease_time t (filled pre room) = Ok (filled (pre ++ encode_option (51, be_bytes 4 t)) (room - 6)).
Proof.
  intros Ht Hr. unfold put_lease_time. rewrite put_byte_filled by (unfold is_byte; lia). cbn [bind_result].
  rewrite put_byte_filled by (unfold is_byte; lia). cbn [bind_result]. unfold filled. unfold writeUInt32BE.
  rewrite write_filled by (done || lia). cbn [bind_result]. unfold encode_option. cbn [fst snd].
  rewrite blen_be_bytes. rewrite <- !app_assoc. cbn [app]. replace (room - 1 - 1 - Z.of_nat 4) with (room - 6) by lia. do 2 f_equal. blia.
Qed.

Lemma blen_servers l : Forall is_ipv4 l -> blen (concat (map ipToBuffer l)) = 4 * blen l.
Proof.
  induction 1 as [|x l Hx Hs IH]; [done|]. cbn [map concat].
  destruct (ipToBuffer_ipv4 x Hx) as [Hl _]. apply blen_of_length in Hl. rewrite blen_cons, blen_app, Hl. lia.
Qed.

Lemma put_dns_filled pre room servers :
  Forall is_ipv4 servers -> blen servers <= 2 -> 10 <= room ->
  put_dns servers (filled pre room) =
  Ok (filled (pre ++ concat (map encode_option
        (if 0 <? blen servers then [(6, concat (map ipToBuffer servers))] else [])))
      (room - (if 0 <? blen servers then 2 + 4 * blen servers else 0))).
Proof.
  intros Hs Hl Hr. unfold put_dns. case_if; bool_hyps.
  - rewrite put_byte_filled by (unfold is_byte; lia). cbn [bind_result].
    rewrite put_byte_filled by (unfold is_byte; lia). cbn [bind_result]. f_equal.
    assert (forall l pre r, Forall is_ipv4 l -> 4 * blen l <= r ->
      fold_left (fun st dns => put_address dns st) l (filled pre r) =
      filled (pre ++ concat (map ipToBuffer l)) (r - 4 * blen l)) as Hf.
    { induction l as [|x l IH]; intros q r Hl' Hr'; cbn [fold_left map concat].
      - rewrite app_nil_r. f_equal. unfold blen. cbn [length]. lia.
      - apply Forall_cons_iff in Hl' as [Hx Hl']. rewrite blen_cons in *. pose proof (blen_nonneg l).
        rewrite put_address_filled by (done || lia). rewrite IH by (done || lia). rewrite <- app_assoc.
        f_equal. lia. }
    rewrite Hf by (done || lia). cbn [map concat]. rewrite app_nil_r. unfold encode_option. cbn [fst snd].
    rewrite <- !app_assoc. f_equal; [|lia]. do 2 f_equal. cbn [app]. f_equal.
    rewrite blen_servers by done. lia.
  - cbn [map concat]. rewrite app_nil_r. do 2 f_equal. lia.
Qed.

(** The stores of the fixed header, each at the offset the ones before it have reached. *)
Lemma put_header_message p ip server (c : dhcp_config) (t : DHCP_MSG_TYPES) :
  packet_ok p -> is_ipv4 ip -> is_ipv4 server ->
  put_header p ip server =
  Ok ((bootp_header (response c p t ip server) ++ alloc 192 ++ MAGIC_COOKIE) ++ alloc 336).
Proof.
  intros [Hht Hhl Hx Hf _ Hg Hc] Hip Hsv. unfold put_header.
  destruct (ipToBuffer_ipv4 ip Hip) as [Hi _]. destruct (ipToBuffer_ipv4 server Hsv) as [Hs _].
  apply blen_of_length in Hi, Hs, Hg, Hc.
  change (alloc 576) with ([] ++ alloc 576).
  rewrite write8_filled by (done || (unfold is_byte; lia)). cbn [bind_result].
  rewrite write8_filled by (done || lia). cbn [bind_result].
  rewrite write8_filled by (done || lia). cbn [bind_result].
  rewrite write8_filled by (done || (unfold is_byte; lia)). cbn [bind_result].
  unfold writeUInt32BE, writeUInt16BE.
  rewrite write_filled by (done || lia). cbn [bind_result].
  rewrite write_filled by (lia || (autorewrite with blen; done)). cbn [bind_result].
  rewrite write_filled by (lia || (autorewrite with blen; done)). cbn [bind_result].
  set (h12 := _ ++ be_bytes 2 (flags p)). assert (blen h12 = 12) as H12 by (unfold h12; autorewrite with blen; done).
  rewrite <- H12 at 1. rewrite splice_filled by blia.
  rewrite copy_filled by (autorewrite with blen; lia).
  rewrite copy_filled by (autorewrite with blen; lia).
  rewrite copy_filled by (autorewrite with blen; lia).
  rewrite copy_filled by (autorewrite with blen; lia).
  set (room := 576 - 1 - _ - _ - _ - _ - _ - _ - _ - _ - _ - _ - _).
  assert (room = 532) as -> by (unfold room; rewrite Hi, Hs, Hg, Hc; reflexivity).
  rewrite (alloc_take 192 532) by lia. rewrite app_assoc.
  rewrite copy_filled by (autorewrite with blen; rewrite ?blen_alloc by lia; change (blen MAGIC_COOKIE) with 4; lia).
  change (532 - 192 - blen MAGIC_COOKIE) with 336. unfold h12, bootp_header. cbn [b_op b_htype b_hlen b_xid b_flags b_ciaddr b_yiaddr b_siaddr b_giaddr b_chaddr response].
  by rewrite <- !app_assoc.
Qed.

Lemma lease_servers c :
  config_ok c -> Forall is_ipv4 (List.filter is_text [dns1 c; dns2 c]) /\ blen (List.filter is_text [dns1 c; dns2 c]) <= 2.
Proof.
  intros Hc. assert (forall s, s = [] \/ is_ipv4 s -> is_text s = true -> is_ipv4 s) as H.
  { intros s [->|]; [|done]. by unfold is_text. }
  pose proof (H _ (cfg_dns1 c Hc)). pose proof (H _ (cfg_dns2 c Hc)). cbn [List.filter].
  destruct (is_text (dns1 c)), (is_text (dns2 c)); (split; [eauto using Forall_cons_2, Forall_nil_2 | done]).
Qed.

Lemma address_option_ok code ip : 0 < code < 255 -> is_ipv4 ip -> option_ok (code, ipToBuffer ip).
Proof.
  intros Hc Hip. destruct (ipToBuffer_ipv4 ip Hip) as [Hl _]. apply blen_of_length in Hl. split; cbn [fst snd]; [done|].
  rewrite Hl. lia.
Qed.

Lemma gateway_ipv4 c : config_ok c -> is_text (gateway c) = true -> is_ipv4 (gateway c).
Proof. intros Hc. destruct (cfg_gateway c Hc) as [->|]; by unfold is_text. Qed.

Lemma response_ok c p t ip server :
  config_ok c -> packet_ok p -> is_ipv4 ip -> is_ipv4 server -> bootp_ok (response c p t ip server).
Proof.
  intros Hc Hp Hip Hsv. destruct (ipToBuffer_ipv4 ip Hip), (ipToBuffer_ipv4 server Hsv). destruct Hp.
  split; try done. cbn [b_options response]. apply Forall_app. split.
  { constructor; [by split|]. constructor; [|constructor]. by apply address_option_ok. }
  assert (Forall option_ok (lease_options c)) as Hl; [|destruct t; (done || constructor)].
  unfold lease_options. destruct (lease_servers c Hc) as [Hs Hn]. apply Forall_app. split.
  - constructor; [split; cbn [fst snd]; [lia | by rewrite blen_be_bytes]|]. constructor; [|constructor].
    apply address_option_ok; [lia | by destruct Hc].
  - apply Forall_app. split.
    + destruct (is_text (gateway c)) eqn:Eg; repeat constructor. apply address_option_ok; [lia | by apply gateway_ipv4].
    + case_if; repeat constructor; cbn [fst snd]; rewrite ?blen_servers by done; lia.
Qed.

(** The options that grant a lease. *)
Lemma put_lease_options_filled c pre :
  config_ok c ->
  exists room, 1 <= room /\
  (let! st := put_address_option 54 (serverIp c) (filled pre 333) in
   let! st := put_lease_time (leaseTime c) st in
   let! st := put_address_option 1 (subnetMask c) st in
   let! st := if is_text (gateway c) then put_address_option 3 (gateway c) st else Ok st in
   put_dns (List.filter is_text [dns1 c; dns2 c]) st) =
  Ok (filled (pre ++ concat (map encode_option ((54, ipToBuffer (serverIp c)) :: lease_options c))) room).
Proof.
  intros Hc. destruct (lease_servers c Hc) as [Hs Hn]. pose proof (gateway_ipv4 c Hc) as Hg. destruct Hc.
  rewrite put_address_option_filled by (done || (unfold is_byte; lia)). cbn [bind_result].
  rewrite put_lease_time_filled by (done || lia). cbn [bind_result].
  rewrite put_address_option_filled by (done || (unfold is_byte; lia)). cbn [bind_result].
  unfold lease_options. cbn [app map concat]. rewrite map_app, concat_app, !app_assoc.
  destruct (is_text (gateway c)).
  - rewrite put_address_option_filled by (auto || (unfold is_byte; lia)). cbn [bind_result].
    rewrite put_dns_filled by (done || lia). eexists. split; [|cbn [map concat]; by rewrite ?app_nil_r, ?app_assoc]. case_if; lia.
  - cbn [bind_result]. rewrite put_dns_filled by (done || lia). eexists. split; [|cbn [map concat]; by rewrite ?app_nil_r, ?app_assoc].
    case_if; lia.
Qed.

(** The builder writes the message of the wire format. *)
Lemma build_response c p t ip :
  config_ok c -> packet_ok p -> is_ipv4 ip ->
  buildDhcpResponse c p t ip (serverIp c) = Ok (bootp_message (response c p t ip (serverIp c))).
Proof.
  intros Hc Hp Hip. pose proof (cfg_serverIp c Hc) as Hsv.
  unfold buildDhcpResponse. set (server := serverIp c) in *. rewrite (put_header_message p ip server c t) by done. cbn [bind_result].
  pose proof (response_ok c p t ip server Hc Hp Hip Hsv) as Hok. unfold bootp_message.
  set (h := bootp_header _ ++ _ ++ MAGIC_COOKIE).
  assert (blen h = 240) as Hh by (unfold h; rewrite !blen_app, blen_alloc, blen_bootp_header by (done || lia); done).
  rewrite <- Hh. fold (filled h 336).
  assert (is_byte (msg_type_value t)) as Ht by (unfold is_byte; destruct t; cbn; lia).
  rewrite put_byte_filled by (unfold is_byte; lia). cbn [bind_result].
  rewrite put_byte_filled by (unfold is_byte; lia). cbn [bind_result].
  rewrite put_byte_filled by (done || lia). cbn [bind_result].
  set (h3 := ((h ++ [53]) ++ [1]) ++ [msg_type_value t]).
  assert (h3 = h ++ encode_option (53, [msg_type_value t])) as Hh3 by (unfold h3; by rewrite <- !app_assoc).
  assert (forall st room, st = Ok (filled (h ++ concat (map encode_option (b_options (response c p t ip server)))) room) -> 1 <= room ->
    bind_result st (fun st => let! (b, off) := put_byte 255 st in Ok (subarray b 0 off)) =
    Ok (bootp_message (response c p t ip server))) as Hend.
  { intros st room -> Hroom. cbn [bind_result]. rewrite put_byte_filled by (unfold is_byte; lia).
    unfold filled. cbn [bind_result]. rewrite subarray_app_l. unfold bootp_message, h. by rewrite <- !app_assoc. }
  destruct (put_lease_options_filled c h3 Hc) as (room & Hroom & Hlease). fold server in Hlease.
  change (336 - 1 - 1 - 1) with 333.
  assert (forall os, b_options (response c p t ip server) = (53, [msg_type_value t]) :: os ->
    h ++ concat (map encode_option (b_options (response c p t ip server))) = h3 ++ concat (map encode_option os)) as Hsplit.
  { intros os ->. rewrite Hh3. cbn [map concat]. by rewrite <- app_assoc. }
  destruct t; try (apply (Hend _ room); [|done]; rewrite Hlease, (Hsplit _ eq_refl); reflexivity).
  apply (Hend _ 327); [|lia]. rewrite put_address_option_filled by (done || (unfold is_byte; lia)).
  rewrite (Hsplit _ eq_refl). cbn [map concat app]. by rewrite app_nil_r.
Qed.

(** ** What the parser guarantees *)

(** Every packet the parser returns has its fields in range and addresses of four bytes. *)
Lemma parse_packet_ok b p : bytes_ok b -> parseDhcpPacket b = Some p -> packet_ok p.
Proof.
  intros Hb. unfold parseDhcpPacket. case_if; [done|]. bool_hyps. intros [= <-].
  split; cbn [htype hlen xid flags ciaddr giaddr chaddr].
  - apply (read_field_bound 1); [done | lia | lia].
  - apply (read_field_bound 1); [done | lia | lia].
  - apply (read_field_bound 4); [done | lia | lia].
  - apply (read_field_bound 2); [done | lia | lia].
  - apply (length_slice b 12 4); lia.
  - apply (length_slice b 24 4); lia.
  - apply (length_slice b 28 16); lia.
Qed.

Lemma option_address_ipv4 o ip :
  (forall d, o = Some d -> bytes_ok d) -> option_address o = Some ip -> is_ipv4 ip.
Proof.
  intros Ho. unfold option_address. destruct o as [d|]; [|done]. case_if; [|done]. intros [= <-].
  exists (read_field 4 d 0). split; [|done]. apply (read_field_bound 4); [by apply Ho | lia | lia].
Qed.

Lemma parse_options_bytes fuel b i t :
  bytes_ok b -> (forall k d, t !! k = Some d -> bytes_ok d) ->
  forall k d, parse_options fuel b i t !! k = Some d -> bytes_ok d.
Proof.
  intros Hb. revert i t. induction fuel as [|f IH]; intros i t Ht k d; cbn [parse_options]; [apply Ht|].
  repeat case_if; try apply Ht; [by apply IH|]. apply IH. intros k' d'.
  destruct (decide (read_field 1 b i = k')) as [<-|]; [rewrite lookup_insert_eq; intros [= <-]; by apply bytes_ok_subarray|].
  rewrite lookup_insert_ne by done. apply Ht.
Qed.

Lemma parse_requested_ipv4 b p ip : bytes_ok b -> parseDhcpPacket b = Some p -> requestedIp p = Some ip -> is_ipv4 ip.
Proof.
  intros Hb. unfold parseDhcpPacket. case_if; [done|]. intros [= <-]. cbn [requestedIp].
  apply option_address_ipv4. intros d. destruct (_ && _); [|by rewrite lookup_empty].
  apply parse_options_bytes; [done|]. intros k d' Hd'. by rewrite lookup_empty in Hd'.
Qed.

(** ** Options of a response *)

Lemma option_fold_notin l t k :
  Forall (fun o => fst o <> k) l -> fold_left (fun t o => <[fst o := snd o]> t) l t !! k = (t : gmap Z buffer) !! k.
Proof.
  revert t. induction l as [|o l IH]; intros t; cbn [fold_left]; [done|]. rewrite Forall_cons_iff. intros [Ho Hl].
  rewrite IH by done. by rewrite lookup_insert_ne.
Qed.

Lemma option_table_mid a k d c :
  Forall (fun o => fst o <> k) c -> option_table (a ++ (k, d) :: c) !! k = Some d.
Proof.
  intros Hc. unfold option_table. rewrite fold_left_app. cbn [fold_left fst snd].
  rewrite option_fold_notin by done. apply lookup_insert_eq.
Qed.

Lemma lease_option_codes c k :
  k <> 51 -> k <> 1 -> k <> 3 -> k <> 6 -> Forall (fun o => fst o <> k) (lease_options c).
Proof.
  intros. unfold lease_options. rewrite !Forall_app. split; [repeat constructor; cbn [fst]; done|].
  split; case_if; repeat constructor; cbn [fst]; done.
Qed.

(** What a client reads in a response. *)
Lemma read_response c p t ip :
  config_ok c -> packet_ok p -> is_ipv4 ip ->
  exists q, parseDhcpPacket (bootp_message (response c p t ip (serverIp c))) = Some q /\
    op q = 2 /\ xid q = xid p /\ chaddr q = chaddr p /\ yiaddr q = ipToBuffer ip /\
    msgType q = Some (msg_type_value t) /\ options q !! 54 = Some (ipToBuffer (serverIp c)) /\
    serverId q = Some (serverIp c).
Proof.
  intros Hc Hp Hip. pose proof (cfg_serverIp c Hc) as Hsv.
  exists (packet_of (response c p t ip (serverIp c))). split; [by apply parse_bootp_message, response_ok|].
  assert (forall k, k <> 51 -> k <> 1 -> k <> 3 -> k <> 6 ->
    Forall (fun o => fst o <> k) (match t with NAK => [] | _ => lease_options c end)) as Hcodes.
  { intros k ????. pose proof (lease_option_codes c k) as Hk. destruct t; try (by apply Hk); constructor. }
  assert (option_table (b_options (response c p t ip (serverIp c))) !! 54 = Some (ipToBuffer (serverIp c))) as H54.
  { apply (option_table_mid [(53, [msg_type_value t])]). by apply Hcodes. }
  assert (option_table (b_options (response c p t ip (serverIp c))) !! 53 = Some [msg_type_value t]) as H53.
  { apply (option_table_mid []). constructor; [done|]. by apply Hcodes. }
  repeat split; cbn [op xid chaddr yiaddr options msgType serverId packet_of response b_op b_xid b_chaddr b_yiaddr]; try done.
  - rewrite H53. cbn [msg_type_value]. change (1 <=? blen [msg_type_value t]) with true.
    unfold read_field. change (subarray [msg_type_value t] 0 (0 + 1)) with [msg_type_value t]. by rewrite be_value_1.
  - rewrite H54. unfold option_address. destruct Hsv as (n & Hn & ->). rewrite ipToBuffer_numToIp by done.
    rewrite blen_be_bytes. change (4 <=? Z.of_nat 4) with true. unfold read_field.
    change (subarray (be_bytes 4 n) 0 (0 + 4)) with (be_bytes 4 n). by rewrite (be_value_be_bytes 4) by done.
Qed.
