(* ===== verification/DhcpWorker.v ===== *)
(** The DHCPv4 server: src/electron/worker/dhcp/dhcpWorker.js and dhcpLease.js.

    The server keeps its leases twice, [leaseMap] by client and [ipToMac] by address.
    Handlers are actions on that state; a handler that can throw is an attempt and the
    datagram listener swallows its exception, keeping what the handler did before.  Time
    is the value of [Date.now()] at the call, in milliseconds.  The socket's and timer's
    callbacks are events of [dhcp_step], which interleaves them in any order. *)

From stdpp Require Import base list numbers strings option gmap.
From Stdlib Require Import ZArith Lia.
From S2P Require Import Prelude Actions NodePath JsText JsMap DhcpPacket.

Local Open Scope Z_scope.
Local Open Scope js_scope.

(** ** Leases *)

Record DhcpLease := {
  lease_macAddr : jsstring; lease_ip : jsstring; lease_hostname : jsstring;
  lease_leaseTime : Z; startTime : Z; expiresAt : Z
}.

#[export] Instance DhcpLease_rebuild : Rebuild DhcpLease := fun l => {|
  lease_macAddr := lease_macAddr l; lease_ip := lease_ip l; lease_hostname := lease_hostname l;
  lease_leaseTime := lease_leaseTime l; startTime := startTime l; expiresAt := expiresAt l |}.

Definition unknown_hostname : jsstring := [26410; 30693].

Definition hostname_or_unknown (h : option jsstring) : jsstring :=
  match h with
  | Some (c :: tl) => c :: tl
  | _ => unknown_hostname
  end.

Definition DhcpLease_new (macAddr ip : jsstring) (hostname : jsstring) (leaseTime now : Z) : DhcpLease := {|
  lease_macAddr := macAddr; lease_ip := ip; lease_hostname := hostname_or_unknown (Some hostname);
  lease_leaseTime := leaseTime; startTime := now; expiresAt := now + leaseTime * 1000 |}.

Definition isExpired (now : Z) (l : DhcpLease) : bool := expiresAt l <? now.

Definition renew (leaseTime now : Z) (l : DhcpLease) : DhcpLease :=
  l <| lease_leaseTime := leaseTime |> <| startTime := now |> <| expiresAt := now + leaseTime * 1000 |>.

Inductive lease_status := active | expired.

(** The record shown to the user; the two times are rendered as local text there. *)
Record lease_info := {
  info_macAddr : jsstring; info_ip : jsstring; info_hostname : jsstring; info_leaseTime : Z;
  info_startTime : Z; info_expiresAt : Z; info_status : lease_status
}.

Definition getInfo (now : Z) (l : DhcpLease) : lease_info := {|
  info_macAddr := lease_macAddr l; info_ip := lease_ip l; info_hostname := lease_hostname l;
  info_leaseTime := lease_leaseTime l; info_startTime := startTime l; info_expiresAt := expiresAt l;
  info_status := if isExpired now l then expired else active |}.

(** ** The worker *)

Record DhcpWorker := {
  server : socket_state;
  config : option dhcp_config;
  leaseMap : jmap (list Z) DhcpLease;
  ipToMac : jmap (list Z) (list Z);
  pendingOffers : jmap Z (list Z * list Z);
  poolStart : Z; poolEnd : Z;
  leaseTimer : bool
}.

#[export] Instance DhcpWorker_rebuild : Rebuild DhcpWorker := fun w => {|
  server := server w; config := config w; leaseMap := leaseMap w; ipToMac := ipToMac w;
  pendingOffers := pendingOffers w; poolStart := poolStart w; poolEnd := poolEnd w; leaseTimer := leaseTimer w |}.

Definition DhcpWorker_new : DhcpWorker := {|
  server := Closed; config := None; leaseMap := []; ipToMac := []; pendingOffers := [];
  poolStart := 0; poolEnd := 0; leaseTimer := false |}.

Record rinfo := { address : jsstring; port : Z }.

Inductive lease_event :=
| LeaseAdd (data : lease_info)
| LeaseUpdate (data : lease_info)
| LeaseRemove (macAddr ip : jsstring).

Inductive dhcp_effect :=
| ServerSend (response : buffer) (destPort : Z) (destAddress : jsstring)
| SendEvent (e : lease_event)
| SendSuccess (messageId : Z) (data : option (list lease_info))
| SendError (messageId : Z)
| Bind (listenPort : Z)
| CloseServer
| SetInterval (ms : Z)
| ClearInterval.

Abbreviation action := (action_of DhcpWorker dhcp_effect).
Abbreviation attempt := (attempt_of DhcpWorker dhcp_effect).

(** [this.config.x] of a missing configuration throws. *)
Definition with_config (k : dhcp_config -> attempt) : attempt :=
  this! w => match config w with Some c => k c | None => raise TypeError end.

Definition attempt_result {A} (r : result A) (k : A -> attempt) : attempt :=
  match r with Ok a => k a | Throw e => raise e end.

(** [for (num = poolStart; num <= poolEnd; num++)]: the first free address. *)
Fixpoint first_free (turns : nat) (num : Z) (taken : jmap (list Z) (list Z)) : option jsstring :=
  match turns with
  | O => None
  | S t =>
    let ip := numToIp num in
    if negb (jmap_has taken ip) then Some ip else first_free t (num + 1) taken
  end.

Definition allocateIp (macAddr : jsstring) (w : DhcpWorker) : option jsstring :=
  match jmap_get (leaseMap w) macAddr with
  | Some l => Some (lease_ip l)
  | None => first_free (Z.to_nat (poolEnd w - poolStart w + 1)) (poolStart w) (ipToMac w)
  end.

Definition broadcast_address : jsstring := js "255.255.255.255".
Definition zero_address : jsstring := js "0.0.0.0".

Definition sendResponse (response : buffer) (p : dhcp_packet) (r : rinfo) : attempt :=
  let ciaddrNum := read_field 4 (ciaddr p) 0 in
  let broadcast := negb (js_and (flags p) 32768 =? 0) || (ciaddrNum =? 0) in
  let destAddress := if broadcast then broadcast_address else address r in
  this! w =>
    match server w with
    | Closed => raise TypeError
    | _ => returns (emit (ServerSend response (port r) destAddress))
    end.

Definition reply (p : dhcp_packet) (t : DHCP_MSG_TYPES) (ip : jsstring) (r : rinfo) : attempt :=
  with_config (fun c =>
    attempt_result (buildDhcpResponse c p t ip (serverIp c)) (fun response => sendResponse response p r)).

Definition handleDiscover (p : dhcp_packet) (r : rinfo) : attempt :=
  this! w =>
    match allocateIp (macAddr p) w with
    | None => returns skip
    | Some offeredIp =>
      returns (assign (fun w => w <| pendingOffers := jmap_set (pendingOffers w) (xid p) (macAddr p, offeredIp) |>)) ;;!
      reply p OFFER offeredIp r
    end.

Definition requested_address (p : dhcp_packet) : option jsstring :=
  match requestedIp p with
  | Some ip => Some ip
  | None =>
    let ciaddrNum := read_field 4 (ciaddr p) 0 in
    if negb (ciaddrNum =? 0) then Some (numToIp ciaddrNum) else None
  end.

(** The lease of an accepted request: renewed, or new. *)
Definition grant (p : dhcp_packet) (ip : jsstring) (c : dhcp_config) (now : Z) : action :=
  let mac := macAddr p in
  let hostname := hostname_or_unknown (hostname p) in
  this w =>
    match jmap_get (leaseMap w) mac with
    | Some lease =>
      let lease := (renew (leaseTime c) now lease) <| lease_hostname := hostname |> in
      assign (fun w => w <| leaseMap := jmap_set (leaseMap w) mac lease |>) ;;;
      emit (SendEvent (LeaseUpdate (getInfo now lease)))
    | None =>
      let lease := DhcpLease_new mac ip hostname (leaseTime c) now in
      assign (fun w => w <| leaseMap := jmap_set (leaseMap w) mac lease |>) ;;;
      assign (fun w => w <| ipToMac := jmap_set (ipToMac w) ip mac |>) ;;;
      emit (SendEvent (LeaseAdd (getInfo now lease)))
    end.

Definition forget_offer (p : dhcp_packet) : action :=
  assign (fun w => w <| pendingOffers := jmap_delete (pendingOffers w) (xid p) |>).

Definition handleRequest (p : dhcp_packet) (r : rinfo) (now : Z) : attempt :=
  with_config (fun c =>
    let elsewhere := match serverId p with Some s => negb (bool_decide (s = serverIp c)) | None => false end in
    if elsewhere then returns (forget_offer p)
    else
      match requested_address p with
      | None => reply p NAK zero_address r
      | Some ip =>
        this! w =>
          let requestedNum := ipToNum ip in
          if (requestedNum <? poolStart w) || (poolEnd w <? requestedNum) then reply p NAK zero_address r
          else
            match jmap_get (ipToMac w) ip with
            | Some owner =>
              if bool_decide (owner = macAddr p)
              then returns (grant p ip c now) ;;! returns (forget_offer p) ;;! reply p ACK ip r
              else reply p NAK zero_address r
            | None => returns (grant p ip c now) ;;! returns (forget_offer p) ;;! reply p ACK ip r
            end
      end).

(** Both tables forget a lease and the user interface is told. *)
Definition remove_lease (mac ip : jsstring) : action :=
  assign (fun w => w <| leaseMap := jmap_delete (leaseMap w) mac |>) ;;;
  assign (fun w => w <| ipToMac := jmap_delete (ipToMac w) ip |>) ;;;
  emit (SendEvent (LeaseRemove mac ip)).

Definition handleRelease (p : dhcp_packet) : action :=
  this w =>
    match jmap_get (leaseMap w) (macAddr p) with
    | Some lease => remove_lease (macAddr p) (lease_ip lease)
    | None => skip
    end.

(** The datagram listener; its [catch] only logs. *)
Definition swallow (a : attempt) : action := fun w => fst (a w).

Definition on_message (msg : buffer) (r : rinfo) (now : Z) : action :=
  match parseDhcpPacket msg with
  | None => skip
  | Some p =>
    if negb (op p =? 1) then skip
    else
      match msgType p with
      | Some 1 => swallow (handleDiscover p r)
      | Some 3 => swallow (handleRequest p r now)
      | Some 7 => handleRelease p
      | _ => skip
      end
  end.

(** The first external IPv4 address of the interfaces ([os.networkInterfaces()]). *)
Record iface := { iface_family : jsstring; iface_internal : bool; iface_address : jsstring }.

Definition detectLocalIp (ifaces : list (list iface)) : jsstring :=
  match List.find (fun i => bool_decide (iface_family i = js "IPv4") && negb (iface_internal i)) (concat ifaces) with
  | Some i => iface_address i
  | None => js "127.0.0.1"
  end.

Definition with_server_ip (ip : jsstring) (c : dhcp_config) : dhcp_config := {|
  serverPort := serverPort c; serverIp := ip; cfg_poolStart := cfg_poolStart c; cfg_poolEnd := cfg_poolEnd c;
  subnetMask := subnetMask c; gateway := gateway c; dns1 := dns1 c; dns2 := dns2 c; leaseTime := leaseTime c |}.

Definition startDhcp (c : dhcp_config) (ifaces : list (list iface)) : action :=
  let c := if bool_decide (serverIp c = []) then with_server_ip (detectLocalIp ifaces) c else c in
  assign (fun w => w <| config := Some c |>) ;;;
  assign (fun w => w <| poolStart := ipToNum (cfg_poolStart c) |>) ;;;
  assign (fun w => w <| poolEnd := ipToNum (cfg_poolEnd c) |>) ;;;
  assign (fun w => w <| server := Binding |>) ;;;
  emit (Bind (default 67 (serverPort c))).

(** [bind]'s callback, and the socket's ['error'] event. *)
Definition on_bound (messageId : Z) : action :=
  assign (fun w => w <| server := Listening |>) ;;;
  emit (SendSuccess messageId None) ;;;
  assign (fun w => w <| leaseTimer := true |>) ;;;
  emit (SetInterval 60000).

Definition on_error (messageId : Z) : action :=
  this w =>
    match server w with
    | Binding => emit (SendError messageId) ;;; assign (fun w => w <| server := Closed |>)
    | _ => skip
    end.

Definition stopDhcp (messageId : Z) : action :=
  this w =>
    (if leaseTimer w then emit ClearInterval ;;; assign (fun w => w <| leaseTimer := false |>) else skip) ;;;
    (match server w with
     | Closed => skip
     | _ => emit CloseServer ;;; assign (fun w => w <| server := Closed |>)
     end) ;;;
    assign (fun w => w <| leaseMap := [] |>) ;;;
    assign (fun w => w <| ipToMac := [] |>) ;;;
    assign (fun w => w <| pendingOffers := [] |>) ;;;
    assign (fun w => w <| config := None |>) ;;;
    emit (SendSuccess messageId None).

Definition getLeaseList (messageId now : Z) : action :=
  this w => emit (SendSuccess messageId (Some (map (getInfo now) (jmap_values (leaseMap w))))).

Definition releaseLease (messageId : Z) (macAddr : jsstring) : action :=
  this w =>
    match jmap_get (leaseMap w) macAddr with
    | Some lease => remove_lease macAddr (lease_ip lease) ;;; emit (SendSuccess messageId None)
    | None => emit (SendError messageId)
    end.

Definition checkExpiredLeases (now : Z) : action :=
  this w =>
    let expired := map fst (List.filter (fun e => isExpired now (snd e)) (leaseMap w)) in
    each expired (fun mac =>
      this w =>
        match jmap_get (leaseMap w) mac with
        | Some lease => remove_lease mac (lease_ip lease)
        | None => skip
        end).

(** ** Events *)

Inductive dhcp_op :=
| OpStart (c : dhcp_config) (ifaces : list (list iface))
| OpBound (messageId : Z)
| OpError (messageId : Z)
| OpMessage (msg : buffer) (r : rinfo) (now : Z)
| OpTimer (now : Z)
| OpStop (messageId : Z)
| OpList (messageId now : Z)
| OpRelease (messageId : Z) (macAddr : jsstring).

Definition run_op (o : dhcp_op) : action :=
  match o with
  | OpStart c ifaces => startDhcp c ifaces
  | OpBound id => on_bound id
  | OpError id => on_error id
  | OpMessage msg r now => on_message msg r now
  | OpTimer now => checkExpiredLeases now
  | OpStop id => stopDhcp id
  | OpList id now => getLeaseList id now
  | OpRelease id mac => releaseLease id mac
  end.

(** When an event can happen: the application starts a stopped server only; the socket
    reports its binding once and datagrams after it; the timer runs while it is set. *)
Definition enabled (o : dhcp_op) (w : DhcpWorker) : Prop :=
  match o with
  | OpStart _ _ => server w = Closed
  | OpBound _ => server w = Binding
  | OpMessage msg _ _ => server w = Listening /\ bytes_ok msg
  | OpTimer _ => leaseTimer w = true
  | _ => True
  end.

Inductive dhcp_step : DhcpWorker -> list dhcp_effect -> DhcpWorker -> Prop :=
| dhcp_step_op o w : enabled o w -> dhcp_step w (snd (run_op o w)) (fst (run_op o w)).

Inductive dhcp_reachable : DhcpWorker -> Prop :=
| dhcp_start : dhcp_reachable DhcpWorker_new
| dhcp_next w es w' : dhcp_reachable w -> dhcp_step w es w' -> dhcp_reachable w'.

(** ** The two tables agree *)

Definition in_range (first last : Z) (ip : jsstring) : Prop := exists n, first <= n <= last /\ ip = numToIp n.

(** Stated on the fields, so that an update of other fields keeps it by conversion. *)
Record tables (s : socket_state) (leases : jmap (list Z) DhcpLease) (ips : jmap (list Z) (list Z))
    (offers : jmap Z (list Z * list Z)) (first last : Z) : Prop := {
  tb_leases : jmap_ok leases;
  tb_ips : jmap_ok ips;
  tb_offers : jmap_ok offers;
  tb_pool : 0 <= first /\ last < 2 ^ 32;
  tb_lease : forall mac l, jmap_get leases mac = Some l ->
    lease_macAddr l = mac /\ in_range first last (lease_ip l) /\ jmap_get ips (lease_ip l) = Some mac;
  tb_owner : forall ip mac, jmap_get ips ip = Some mac ->
    exists l, jmap_get leases mac = Some l /\ lease_ip l = ip;
  tb_offer : forall x mac ip, jmap_get offers x = Some (mac, ip) -> in_range first last ip;
  tb_idle : s <> Listening -> leases = [] /\ ips = [] /\ offers = []
}.

Definition tables_ok (w : DhcpWorker) : Prop :=
  tables (server w) (leaseMap w) (ipToMac w) (pendingOffers w) (poolStart w) (poolEnd w).

Section Tables.
Context {s : socket_state} {leases : jmap (list Z) DhcpLease} {ips : jmap (list Z) (list Z)}.
Context {offers : jmap Z (list Z * list Z)} {first last : Z}.
Hypothesis Hok : tables s leases ips offers first last.

Lemma listening_of_lease mac l : jmap_get leases mac = Some l -> s = Listening.
Proof.
  intros Hl. destruct (decide (s = Listening)) as [|Hs]; [done|].
  destruct (tb_idle _ _ _ _ _ _ Hok Hs) as (He & _). by rewrite He in Hl.
Qed.

(** Two clients never hold the same address. *)
Lemma lease_ip_inj mac mac' l l' :
  jmap_get leases mac = Some l -> jmap_get leases mac' = Some l' -> lease_ip l = lease_ip l' -> mac = mac'.
Proof.
  intros H H' He. destruct (tb_lease _ _ _ _ _ _ Hok _ _ H) as (_ & _ & Hi).
  destruct (tb_lease _ _ _ _ _ _ Hok _ _ H') as (_ & _ & Hi'). rewrite He in Hi. congruence.
Qed.

Lemma tables_offer_set x mac ip :
  s = Listening -> in_range first last ip -> tables s leases ips (jmap_set offers x (mac, ip)) first last.
Proof.
  intros Hs Hip. destruct Hok. split; auto with jmap; [|done].
  intros x' mac' ip'. rewrite jmap_get_set. case_decide; [by intros [= <- <-] | eauto].
Qed.

Lemma tables_offer_delete x : s = Listening -> tables s leases ips (jmap_delete offers x) first last.
Proof.
  intros Hs. destruct Hok. split; auto with jmap; [|done].
  intros x' mac' ip'. rewrite jmap_get_delete by done. case_decide; [done | eauto].
Qed.

(** A renewed lease keeps its client and address. *)
Lemma tables_renew mac l l' :
  jmap_get leases mac = Some l -> lease_ip l' = lease_ip l -> lease_macAddr l' = lease_macAddr l ->
  tables s (jmap_set leases mac l') ips offers first last.
Proof.
  intros Hl Hip Hmac. pose proof (listening_of_lease mac l Hl) as ->. destruct Hok as [? ? ? ? Hlease Howner ? ?].
  split; auto with jmap; [| |done].
  - intros mac' l0. rewrite jmap_get_set. case_decide as Hd; [|by apply Hlease]. intros [= <-]. subst mac'.
    rewrite Hip, Hmac. by apply Hlease.
  - intros ip mac' Hi. destruct (Howner _ _ Hi) as (l0 & Hl0 & Hip0). rewrite jmap_get_set.
    case_decide as Hd; [|by exists l0]. subst mac'. exists l'. split; [done | congruence].
Qed.

(** A new lease of a free address to a client without one. *)
Lemma tables_add mac l :
  s = Listening -> jmap_get leases mac = None -> jmap_get ips (lease_ip l) = None ->
  lease_macAddr l = mac -> in_range first last (lease_ip l) ->
  tables s (jmap_set leases mac l) (jmap_set ips (lease_ip l) mac) offers first last.
Proof.
  intros Hs Hnone Hfree Hmac Hip. destruct Hok as [? ? ? ? Hlease Howner ? ?]. split; auto with jmap; [| |done].
  - intros mac' l0. rewrite !jmap_get_set. case_decide as Hd.
    + intros [= <-]. subst mac'. by rewrite decide_True.
    + intros Hl0. destruct (Hlease _ _ Hl0) as (? & ? & Hi0). split; [done|]. split; [done|].
      rewrite decide_False; [done|]. intros He. rewrite He in Hfree. congruence.
  - intros ip mac'. rewrite !jmap_get_set. case_decide as Hd.
    + intros [= <-]. exists l. by rewrite decide_True.
    + intros Hi. destruct (Howner _ _ Hi) as (l0 & Hl0 & Hip0). exists l0. split; [|done].
      rewrite decide_False; [done|]. intros <-. congruence.
Qed.

Lemma tables_remove mac l :
  jmap_get leases mac = Some l ->
  tables s (jmap_delete leases mac) (jmap_delete ips (lease_ip l)) offers first last.
Proof.
  intros Hl. pose proof (fun mac' l' => lease_ip_inj mac mac' l l' Hl) as Hinj. pose proof (listening_of_lease mac l Hl) as ->.
  destruct Hok as [? ? ? ? Hlease Howner ? ?]. split; auto with jmap; [| |done].
  - intros mac' l0. rewrite !jmap_get_delete by done. case_decide as Hd; [done|]. intros Hl0.
    destruct (Hlease _ _ Hl0) as (? & ? & Hi0). split; [done|]. split; [done|]. rewrite decide_False; [done|].
    intros He. by apply Hd, (Hinj _ _ Hl0).
  - intros ip mac'. rewrite !jmap_get_delete by done. case_decide as Hd; [done|]. intros Hi.
    destruct (Howner _ _ Hi) as (l0 & Hl0 & Hip0). exists l0. split; [|done]. rewrite decide_False; [done|].
    intros <-. congruence.
Qed.
End Tables.

(** ** Allocation *)

Lemma first_free_Some turns num taken ip :
  first_free turns num taken = Some ip ->
  exists n, num <= n < num + Z.of_nat turns /\ ip = numToIp n /\ jmap_get taken ip = None /\
    forall m, num <= m < n -> jmap_has taken (numToIp m) = true.
Proof.
  revert num. induction turns as [|t IH]; intros num; cbn [first_free]; [done|].
  destruct (jmap_has taken (numToIp num)) eqn:Eh; cbn [negb].
  - intros Hf. destruct (IH _ Hf) as (n & Hn & -> & Hfree & Hmin). exists n. repeat split; [lia | lia | done |].
    intros m Hm. destruct (decide (m = num)) as [->|]; [done|]. apply Hmin. lia.
  - intros [= <-]. exists num. repeat split; [lia | lia | by apply jmap_has_false |]. intros m Hm. lia.
Qed.

Lemma first_free_None turns num taken n :
  first_free turns num taken = None -> num <= n < num + Z.of_nat turns -> jmap_has taken (numToIp n) = true.
Proof.
  revert num. induction turns as [|t IH]; intros num; cbn [first_free]; [lia|].
  destruct (jmap_has taken (numToIp num)) eqn:Eh; cbn [negb]; [|done].
  intros Hf Hn. destruct (decide (n = num)) as [->|]; [done|]. apply (IH (num + 1)); [done | lia].
Qed.

Definition in_pool (w : DhcpWorker) (ip : jsstring) : Prop := in_range (poolStart w) (poolEnd w) ip.

Lemma allocateIp_in_pool mac w ip : tables_ok w -> allocateIp mac w = Some ip -> in_pool w ip.
Proof.
  intros Hok. unfold allocateIp. destruct (jmap_get (leaseMap w) mac) as [l|] eqn:El.
  - intros [= <-]. by destruct (tb_lease _ _ _ _ _ _ Hok _ _ El) as (_ & ? & _).
  - intros Hf. destruct (first_free_Some _ _ _ _ Hf) as (n & Hn & -> & _). exists n. split; [lia | done].
Qed.

Lemma in_pool_ipv4 w ip : tables_ok w -> in_pool w ip -> is_ipv4 ip.
Proof.
  intros Hok (n & Hn & ->). destruct (tb_pool _ _ _ _ _ _ Hok). exists n. split; [unfold is_ipv4_number; lia | done].
Qed.

(** ** Every event keeps the tables *)

Definition state_of (a : attempt) (w : DhcpWorker) : DhcpWorker := fst (fst (a w)).

Lemma state_of_seq (a : action) (b : attempt) w : state_of (returns a ;;! b) w = state_of b (fst (a w)).
Proof.
  unfold state_of, seq_attempt, returns. destruct (a w) as [w1 o1]. cbn [fst snd].
  by destruct (b w1) as [[w2 o2] x].
Qed.

Lemma state_of_reply p t ip r w : state_of (reply p t ip r) w = w.
Proof.
  unfold state_of, reply, with_config, attempt_this. destruct (config w) as [c|]; [|done].
  unfold attempt_result. destruct (buildDhcpResponse _ _ _ _ _); [|done].
  unfold sendResponse, attempt_this. by destruct (server w).
Qed.

Lemma state_of_swallow a w : fst (swallow a w) = state_of a w.
Proof. done. Qed.

Lemma discover_ok p r w : tables_ok w -> server w = Listening -> tables_ok (fst (swallow (handleDiscover p r) w)).
Proof.
  intros Hok Hs. rewrite state_of_swallow. unfold handleDiscover, state_of, attempt_this.
  destruct (allocateIp (macAddr p) w) as [ip|] eqn:Ea; [|done].
  change (tables_ok (state_of (returns (assign (fun w => w <| pendingOffers := jmap_set (pendingOffers w) (xid p) (macAddr p, ip) |>)) ;;!
    reply p OFFER ip r) w)).
  rewrite state_of_seq, state_of_reply. apply tables_offer_set; [done | done |]. exact (allocateIp_in_pool _ w _ Hok Ea).
Qed.

Lemma grant_ok p ip c now w :
  tables_ok w -> server w = Listening -> in_pool w ip ->
  (forall owner, jmap_get (ipToMac w) ip = Some owner -> owner = macAddr p) ->
  tables_ok (fst (grant p ip c now w)) /\ server (fst (grant p ip c now w)) = Listening.
Proof.
  intros Hok Hs Hip Howner. unfold grant, get_this.
  destruct (jmap_get (leaseMap w) (macAddr p)) as [l|] eqn:El.
  - split; [|done]. by apply (tables_renew Hok (macAddr p) l).
  - split; [|done].
    assert (jmap_get (ipToMac w) ip = None) as Hfree.
    { destruct (jmap_get (ipToMac w) ip) as [o|] eqn:Eo; [|done]. pose proof (Howner o eq_refl) as ->.
      destruct (tb_owner _ _ _ _ _ _ Hok _ _ Eo) as (l & Hl & _). congruence. }
    apply (tables_add Hok (macAddr p)
      (DhcpLease_new (macAddr p) ip (hostname_or_unknown (hostname p)) (leaseTime c) now)); done.
Qed.

Lemma requested_ipv4 b p ip : bytes_ok b -> parseDhcpPacket b = Some p -> requested_address p = Some ip -> is_ipv4 ip.
Proof.
  intros Hb Hp. unfold requested_address. destruct (requestedIp p) as [q|] eqn:Er.
  - intros [= <-]. by apply (parse_requested_ipv4 b p).
  - destruct (negb _); [|done]. intros [= <-]. eexists. split; [|done].
    apply (read_field_bound 4); [|lia | lia]. unfold parseDhcpPacket in Hp. case_if; [done|].
    injection Hp as <-. cbn [ciaddr]. by apply bytes_ok_subarray.
Qed.

(** The range check on the number is membership in the pool. *)
Lemma range_check_in_pool w ip :
  is_ipv4 ip -> (ipToNum ip <? poolStart w) || (poolEnd w <? ipToNum ip) = false -> in_pool w ip.
Proof.
  intros (n & Hn & ->). rewrite ipToNum_numToIp by done. intros Hr. bool_hyps. exists n. split; [lia | done].
Qed.

Lemma granted_ok p ip c now r w :
  tables_ok w -> server w = Listening -> in_pool w ip ->
  (forall owner, jmap_get (ipToMac w) ip = Some owner -> owner = macAddr p) ->
  tables_ok (state_of (returns (grant p ip c now) ;;! returns (forget_offer p) ;;! reply p ACK ip r) w).
Proof.
  intros Hok Hs Hip Howner. destruct (grant_ok p ip c now w Hok Hs Hip Howner) as [Hok' Hs'].
  rewrite !state_of_seq, state_of_reply. by apply tables_offer_delete.
Qed.

Lemma request_ok b p r now w :
  bytes_ok b -> parseDhcpPacket b = Some p -> tables_ok w -> server w = Listening ->
  tables_ok (fst (swallow (handleRequest p r now) w)).
Proof.
  intros Hb Hp Hok Hs. rewrite state_of_swallow. unfold handleRequest, with_config, state_of, attempt_this.
  destruct (config w) as [c|]; [|done]. case_if; [by apply (tables_offer_delete Hok)|].
  assert (forall ip, tables_ok (fst (fst (reply p NAK ip r w)))) as Hnak
    by (intros ip; fold (state_of (reply p NAK ip r) w); by rewrite state_of_reply).
  destruct (requested_address p) as [ip|] eqn:Er; [|done].
  pose proof (requested_ipv4 b p ip Hb Hp Er) as Hip. cbv zeta.
  destruct ((ipToNum ip <? poolStart w) || (poolEnd w <? ipToNum ip)) eqn:Erange; [done|].
  apply range_check_in_pool in Erange; [|done].
  destruct (jmap_get (ipToMac w) ip) as [owner|] eqn:Eo.
  - destruct (bool_decide (owner = macAddr p)) eqn:Ed; [|done]. apply bool_decide_eq_true in Ed.
    apply granted_ok; [done | done | done |]. intros o Ho. congruence.
  - apply granted_ok; [done | done | done |]. intros o Ho. congruence.
Qed.

Lemma remove_ok mac l w :
  tables_ok w -> jmap_get (leaseMap w) mac = Some l -> tables_ok (fst (remove_lease mac (lease_ip l) w)).
Proof. intros Hok Hl. exact (tables_remove Hok mac l Hl). Qed.

Lemma release_ok p w : tables_ok w -> tables_ok (fst (handleRelease p w)).
Proof.
  intros Hok. unfold handleRelease, get_this.
  destruct (jmap_get (leaseMap w) (macAddr p)) eqn:El; [by apply remove_ok | done].
Qed.

Lemma expired_ok now w : tables_ok w -> tables_ok (fst (checkExpiredLeases now w)).
Proof.
  intros Hok. unfold checkExpiredLeases, get_this.
  refine (proj1 (keeps_each tables_ok (fun _ => True) _ _ _ w Hok)).
  intros mac w1 Hok1. split; [|by apply Forall_true]. unfold get_this.
  destruct (jmap_get (leaseMap w1) mac) eqn:El; [by apply remove_ok | done].
Qed.

Lemma message_ok msg r now w :
  bytes_ok msg -> tables_ok w -> server w = Listening -> tables_ok (fst (on_message msg r now w)).
Proof.
  intros Hb Hok Hs. unfold on_message. destruct (parseDhcpPacket msg) as [p|] eqn:Ep; [|done].
  case_if; [done|]. destruct (msgType p) as [t|]; [|done].
  destruct (decide (t = 1)) as [->|]; [by apply discover_ok|].
  destruct (decide (t = 3)) as [->|]; [by apply (request_ok msg)|].
  destruct (decide (t = 7)) as [->|]; [by apply release_ok|].
  destruct t as [|t|t]; try done. destruct t as [[[t|t|]|[t|t|]|]|[t|t|]|]; done.
Qed.

Lemma tables_start w c ifaces :
  tables_ok w -> server w = Closed -> tables_ok (fst (startDhcp c ifaces w)).
Proof.
  intros Hok Hs. destruct Hok as [? ? ? ? ? ? ? Hidle]. destruct Hidle as (He1 & He2 & He3); [congruence|].
  unfold tables_ok. set (c' := if bool_decide (serverIp c = []) then with_server_ip (detectLocalIp ifaces) c else c).
  change (tables Binding (leaseMap w) (ipToMac w) (pendingOffers w) (ipToNum (cfg_poolStart c')) (ipToNum (cfg_poolEnd c'))).
  rewrite He1, He2, He3. destruct (ipToNum_range (cfg_poolStart c')), (ipToNum_range (cfg_poolEnd c')).
  split; auto with jmap; done.
Qed.

Lemma op_ok o w : tables_ok w -> enabled o w -> tables_ok (fst (run_op o w)).
Proof.
  intros Hok He. destruct o; cbn [run_op enabled] in *.
  - by apply tables_start.
  - destruct Hok as [? ? ? ? ? ? ? Hidle]. split; try done.
  - unfold on_error, get_this. destruct (server w) eqn:Es; [done | | done].
    destruct Hok as [? ? ? ? ? ? ? Hidle]. destruct Hidle as (He1 & He2 & He3); [congruence|]. by split.
  - destruct He. by apply message_ok.
  - by apply expired_ok.
  - unfold stopDhcp, get_this, tables_ok.
    assert (forall sv a b, (a = [] /\ b = @nil (list Z * list Z)) -> tables sv a b [] (poolStart w) (poolEnd w)) as Hempty.
    { intros sv a b [-> ->]. destruct Hok. split; auto with jmap; done. }
    destruct (leaseTimer w), (server w); by apply Hempty.
  - done.
  - unfold releaseLease, get_this. destruct (jmap_get (leaseMap w) _) eqn:El; [by apply (remove_ok _ _ w) | done].
Qed.

Lemma reachable_tables w : dhcp_reachable w -> tables_ok w.
Proof.
  induction 1 as [|w es w' _ IH Hstep].
  - split; auto with jmap; try done.
  - destruct Hstep. by apply op_ok.
Qed.

(** C23: In every reachable state the two tables are well formed and agree: each client has at most one lease, recorded
    under its own hardware address and with an address of the pool; the address table maps exactly the leased addresses
    to their clients, so two clients never hold the same address; offered addresses are of the pool; and a server
    that is not listening has no lease and no offer. *)
Theorem dhcp_tables_agree w :
  dhcp_reachable w ->
  NoDup (jmap_keys (leaseMap w)) /\ NoDup (jmap_keys (ipToMac w)) /\
  (forall mac l, jmap_get (leaseMap w) mac = Some l ->
     lease_macAddr l = mac /\ in_pool w (lease_ip l) /\ jmap_get (ipToMac w) (lease_ip l) = Some mac) /\
  (forall ip mac, jmap_get (ipToMac w) ip = Some mac ->
     exists l, jmap_get (leaseMap w) mac = Some l /\ lease_ip l = ip) /\
  (forall mac mac' l l', jmap_get (leaseMap w) mac = Some l -> jmap_get (leaseMap w) mac' = Some l' ->
     lease_ip l = lease_ip l' -> mac = mac') /\
  (forall x mac ip, jmap_get (pendingOffers w) x = Some (mac, ip) -> in_pool w ip) /\
  (server w <> Listening -> leaseMap w = [] /\ ipToMac w = [] /\ pendingOffers w = []).
Proof.
  intros Hw. pose proof (reachable_tables w Hw) as Hok. pose proof (fun a b c d => lease_ip_inj Hok a b c d) as Hinj.
  destruct Hok as [H1 H2 _ _ H3 H4 H5 H6]. exact (conj H1 (conj H2 (conj H3 (conj H4 (conj Hinj (conj H5 H6)))))).
Qed.

(** ** Capacity *)

Definition pool_size (w : DhcpWorker) : Z := Z.max 0 (poolEnd w - poolStart w + 1).

Definition pool_addresses (w : DhcpWorker) : list jsstring := map numToIp (seqZ (poolStart w) (pool_size w)).

Definition leased_addresses (w : DhcpWorker) : list jsstring := map lease_ip (jmap_values (leaseMap w)).

Lemma pool_addresses_elem w ip : ip ∈ pool_addresses w <-> in_pool w ip.
Proof.
  unfold pool_addresses, in_pool, in_range, pool_size. rewrite list_elem_of_fmap. split.
  - intros (n & -> & Hn). apply elem_of_seqZ in Hn. exists n. split; [lia | done].
  - intros (n & Hn & ->). exists n. split; [done|]. apply elem_of_seqZ. lia.
Qed.

Lemma length_pool_addresses w : blen (pool_addresses w) = pool_size w.
Proof. unfold pool_addresses, blen. rewrite length_map, length_seqZ. unfold pool_size. lia. Qed.

Lemma NoDup_map_on {A B} (f : A -> B) l :
  (forall x y, x ∈ l -> y ∈ l -> f x = f y -> x = y) -> NoDup l -> NoDup (map f l).
Proof.
  intros Hf. induction 1 as [|x l Hx Hl IH]; cbn [map]; [constructor|]. constructor.
  - rewrite list_elem_of_fmap. intros (y & He & Hy). apply Hx. rewrite (Hf x y); [done | left | by right | done].
  - apply IH. intros y z Hy Hz. apply Hf; by right.
Qed.

Lemma NoDup_pool w : tables_ok w -> NoDup (pool_addresses w).
Proof.
  intros Hok. destruct (tb_pool _ _ _ _ _ _ Hok). apply NoDup_map_on; [|apply NoDup_seqZ].
  unfold pool_size. intros x y Hx Hy. apply elem_of_seqZ in Hx, Hy. apply numToIp_inj; unfold is_ipv4_number; lia.
Qed.

Lemma leased_elem w ip : tables_ok w -> ip ∈ leased_addresses w <-> exists mac, jmap_get (ipToMac w) ip = Some mac.
Proof.
  intros Hok. unfold leased_addresses, jmap_values. rewrite list_elem_of_fmap. split.
  - intros (l & -> & Hl). apply list_elem_of_fmap in Hl as ([mac l'] & -> & Hl). cbn [snd].
    apply jmap_get_elem in Hl; [|apply Hok]. exists mac. by apply (tb_lease _ _ _ _ _ _ Hok).
  - intros (mac & Hm). destruct (tb_owner _ _ _ _ _ _ Hok _ _ Hm) as (l & Hl & <-). exists l. split; [done|].
    apply list_elem_of_fmap. exists (mac, l). split; [done|]. apply jmap_get_elem; [apply Hok | done].
Qed.

Lemma NoDup_leased w : tables_ok w -> NoDup (leased_addresses w).
Proof.
  intros Hok. unfold leased_addresses, jmap_values. rewrite map_map. pose proof (tb_leases _ _ _ _ _ _ Hok) as Hk.
  apply NoDup_map_on; [|by eapply NoDup_fmap_1].
  intros [mac l] [mac' l'] Hx Hy. cbn [snd]. intros He. apply jmap_get_elem in Hx, Hy; try apply Hok.
  pose proof (lease_ip_inj Hok _ _ _ _ Hx Hy He) as ->. congruence.
Qed.

Lemma blen_leased w : blen (leased_addresses w) = blen (leaseMap w).
Proof. unfold leased_addresses, jmap_values. by rewrite !blen_map. Qed.

(** A list without repetition is no longer than one that has all its elements. *)
Lemma NoDup_blen_le {A} (l k : list A) : NoDup l -> (forall x, x ∈ l -> x ∈ k) -> blen l <= blen k.
Proof.
  intros Hl Hk. unfold blen. apply Nat2Z.inj_le, submseteq_length, NoDup_submseteq; done.
Qed.

Lemma leased_in_pool w ip : tables_ok w -> ip ∈ leased_addresses w -> ip ∈ pool_addresses w.
Proof.
  intros Hok Hip. apply leased_elem in Hip as (mac & Hm); [|done]. apply pool_addresses_elem.
  destruct (tb_owner _ _ _ _ _ _ Hok _ _ Hm) as (l & Hl & <-). by apply (tb_lease _ _ _ _ _ _ Hok mac l).
Qed.

(** A client without a lease is refused exactly when every address is leased. *)
Lemma allocate_new mac w :
  tables_ok w -> jmap_get (leaseMap w) mac = None ->
  match allocateIp mac w with
  | Some ip => in_pool w ip /\ jmap_get (ipToMac w) ip = None /\ blen (leaseMap w) < pool_size w /\
               forall n, poolStart w <= n <= poolEnd w -> jmap_get (ipToMac w) (numToIp n) = None -> ipToNum ip <= n
  | None => blen (leaseMap w) = pool_size w
  end.
Proof.
  intros Hok Hnone. pose proof (allocateIp_in_pool mac w) as Hin. unfold allocateIp in *. rewrite Hnone in *.
  rewrite <- blen_leased, <- length_pool_addresses.
  destruct (first_free _ _ _) as [ip|] eqn:Ef.
  - specialize (Hin ip Hok eq_refl). destruct (first_free_Some _ _ _ _ Ef) as (n & Hn & -> & Hfree & Hmin).
    split; [done|]. split; [done|]. split.
    + pose proof (NoDup_blen_le (numToIp n :: leased_addresses w) (pool_addresses w)) as Hle.
      rewrite blen_cons in Hle. apply Z.le_succ_l. unfold Z.succ. rewrite Z.add_comm. apply Hle.
      * constructor; [|by apply NoDup_leased]. rewrite leased_elem by done. intros (mac' & Hm). congruence.
      * intros x Hx. apply elem_of_cons in Hx as [->|Hx]; [by apply pool_addresses_elem | by apply leased_in_pool].
    + intros m Hm Hfm. destruct (tb_pool _ _ _ _ _ _ Hok). rewrite ipToNum_numToIp by (unfold is_ipv4_number; lia).
      destruct (decide (n <= m)); [done|]. exfalso.
      assert (jmap_has (ipToMac w) (numToIp m) = true) as Hh by (apply Hmin; lia).
      apply jmap_has_true in Hh as (v & Hv). congruence.
  - apply Z.le_antisymm; apply NoDup_blen_le; [by apply NoDup_leased | by intros; apply leased_in_pool | by apply NoDup_pool |].
    intros ip Hip. apply pool_addresses_elem in Hip as (n & Hn & ->). apply leased_elem; [done|].
    apply jmap_has_true, (first_free_None _ _ _ n Ef). lia.
Qed.

(** The pool is never over-committed: there are at most as many leases as pool addresses. A client that has a lease is
    offered its own address; one that has none is offered the lowest address nobody holds, and is refused exactly
    when the number of leases equals the size of the pool. *)
Theorem dhcp_capacity mac w :
  dhcp_reachable w ->
  blen (leaseMap w) <= pool_size w /\
  match jmap_get (leaseMap w) mac with
  | Some l => allocateIp mac w = Some (lease_ip l)
  | None =>
    (allocateIp mac w = None <-> blen (leaseMap w) = pool_size w) /\
    forall ip, allocateIp mac w = Some ip ->
      in_pool w ip /\ jmap_get (ipToMac w) ip = None /\
      forall n, poolStart w <= n <= poolEnd w -> jmap_get (ipToMac w) (numToIp n) = None -> ipToNum ip <= n
  end.
Proof.
  intros Hw. pose proof (reachable_tables w Hw) as Hok. split.
  - rewrite <- blen_leased, <- length_pool_addresses. apply NoDup_blen_le; [by apply NoDup_leased|].
    intros; by apply leased_in_pool.
  - destruct (jmap_get (leaseMap w) mac) as [l|] eqn:El; [unfold allocateIp; by rewrite El|].
    pose proof (allocate_new mac w Hok El) as Ha. destruct (allocateIp mac w) as [ip|].
    + destruct Ha as (H1 & H2 & H3 & H4). split; [split; [done | lia]|]. by intros ? [= <-].
    + by split.
Qed.

(** ** A client obtains an address *)

(** Where the answer goes. *)
Definition destination (p : dhcp_packet) (r : rinfo) : jsstring :=
  if negb (js_and (flags p) 32768 =? 0) || (read_field 4 (ciaddr p) 0 =? 0) then broadcast_address else address r.

Lemma reply_sends c p t ip r w :
  config w = Some c -> server w = Listening -> config_ok c -> packet_ok p -> is_ipv4 ip ->
  reply p t ip r w =
  (w, [ServerSend (bootp_message (response c p t ip (serverIp c))) (port r) (destination p r)], None).
Proof.
  intros Hc Hs Hcfg Hp Hip. unfold reply, with_config, attempt_this. rewrite Hc, build_response by done.
  cbn [attempt_result]. unfold sendResponse, attempt_this. by rewrite Hs.
Qed.

(** The messages of a client with a six-byte hardware address. *)
Definition client_message (t : DHCP_MSG_TYPES) (mac : buffer) (x : Z) (opts : list (Z * buffer)) : bootp := {|
  b_op := 1; b_htype := 1; b_hlen := 6; b_xid := x; b_flags := 32768;
  b_ciaddr := [0; 0; 0; 0]; b_yiaddr := [0; 0; 0; 0]; b_siaddr := [0; 0; 0; 0]; b_giaddr := [0; 0; 0; 0];
  b_chaddr := mac ++ alloc 10; b_options := (53, [msg_type_value t]) :: opts |}.

Definition is_mac (mac : buffer) : Prop := length mac = 6%nat.

Definition discover_message (mac : buffer) (x : Z) : buffer := bootp_message (client_message DISCOVER mac x []).

(** A REQUEST for an address, and the one that takes up an offer. *)
Definition request_message (mac : buffer) (x : Z) (ip server : buffer) : buffer :=
  bootp_message (client_message REQUEST mac x [(50, ip); (54, server)]).

Definition take_offer (mac : buffer) (x : Z) (offer : dhcp_packet) : buffer :=
  request_message mac x (yiaddr offer) (default [] (options offer !! 54)).

Lemma client_message_ok t mac x opts :
  is_mac mac -> 0 <= x < 2 ^ 32 -> Forall option_ok opts -> bootp_ok (client_message t mac x opts).
Proof.
  intros Hm Hx Ho. split; try done; cbn [b_chaddr b_options client_message].
  - rewrite length_app, Hm. done.
  - constructor; [by destruct t | done].
Qed.

Lemma client_packet_ok t mac x opts :
  is_mac mac -> 0 <= x < 2 ^ 32 -> packet_ok (packet_of (client_message t mac x opts)).
Proof.
  intros Hm Hx. split; cbn [htype hlen xid flags ciaddr giaddr chaddr packet_of client_message
    b_htype b_hlen b_xid b_flags b_ciaddr b_giaddr b_chaddr]; try done; try (unfold is_byte; lia).
  rewrite length_app, Hm. done.
Qed.

Lemma client_mac t mac x opts : is_mac mac -> macAddr (packet_of (client_message t mac x opts)) = mac_text mac.
Proof.
  intros Hm. cbn [macAddr packet_of client_message b_chaddr b_hlen]. f_equal.
  unfold subarray. change (Z.to_nat 0) with 0%nat. rewrite drop_0. change (Z.to_nat (_ - 0)) with 6%nat.
  by rewrite <- Hm, take_app_length.
Qed.

Lemma client_destination t mac x opts r : destination (packet_of (client_message t mac x opts)) r = broadcast_address.
Proof. done. Qed.

Lemma discover_type mac x : msgType (packet_of (client_message DISCOVER mac x [])) = Some 1.
Proof. done. Qed.

(** DISCOVER is answered by an OFFER of the allocated address. *)
Lemma discover_offers mac x r now c w ip :
  tables_ok w -> server w = Listening -> config w = Some c -> config_ok c -> is_mac mac -> 0 <= x < 2 ^ 32 ->
  allocateIp (mac_text mac) w = Some ip ->
  let p := packet_of (client_message DISCOVER mac x []) in
  on_message (discover_message mac x) r now w =
  (w <| pendingOffers := jmap_set (pendingOffers w) x (mac_text mac, ip) |>,
   [ServerSend (bootp_message (response c p OFFER ip (serverIp c))) (port r) broadcast_address]).
Proof.
  intros Hok Hs Hc Hcfg Hm Hx Ha p. unfold on_message, discover_message.
  rewrite parse_bootp_message by (apply client_message_ok; [done | done | constructor]). fold p.
  change (msgType p) with (Some 1). change (negb (op p =? 1)) with false. cbn [negb].
  pose proof (client_mac DISCOVER mac x [] Hm) as Hmac. fold p in Hmac.
  unfold swallow, handleDiscover, attempt_this. rewrite Hmac, Ha.
  set (w1 := w <| pendingOffers := _ |>).
  assert (reply p OFFER ip r w1 =
    (w1, [ServerSend (bootp_message (response c p OFFER ip (serverIp c))) (port r) broadcast_address], None)) as Hr.
  { apply reply_sends; [done | done | done | by apply client_packet_ok |]. by apply (in_pool_ipv4 w), (allocateIp_in_pool (mac_text mac)). }
  rewrite (seq_returns _ _ w w1 [] _ _ _ eq_refl Hr). done.
Qed.

Lemma option_address_of ip : is_ipv4 ip -> option_address (Some (ipToBuffer ip)) = Some ip.
Proof.
  intros (n & Hn & ->). rewrite ipToBuffer_numToIp by done. unfold option_address. rewrite blen_be_bytes.
  change (4 <=? Z.of_nat 4) with true. unfold read_field.
  change (subarray (be_bytes 4 n) 0 (0 + 4)) with (be_bytes 4 n). by rewrite (be_value_be_bytes 4) by done.
Qed.

Definition request_packet (mac : buffer) (x : Z) (ip server : jsstring) : dhcp_packet :=
  packet_of (client_message REQUEST mac x [(50, ipToBuffer ip); (54, ipToBuffer server)]).

Lemma request_parses mac x ip server :
  is_mac mac -> 0 <= x < 2 ^ 32 -> is_ipv4 ip -> is_ipv4 server ->
  parseDhcpPacket (request_message mac x (ipToBuffer ip) (ipToBuffer server)) = Some (request_packet mac x ip server) /\
  msgType (request_packet mac x ip server) = Some 3 /\ requested_address (request_packet mac x ip server) = Some ip /\
  serverId (request_packet mac x ip server) = Some server.
Proof.
  intros Hm Hx Hip Hsv. split.
  { apply parse_bootp_message, client_message_ok; [done | done |].
    constructor; [by apply address_option_ok|]. constructor; [by apply address_option_ok | constructor]. }
  unfold requested_address, request_packet. cbn [msgType requestedIp serverId packet_of client_message b_options].
  assert (forall a k d c, (53, [3]) :: [(50, ipToBuffer ip); (54, ipToBuffer server)] = a ++ (k, d) :: c ->
    Forall (fun o => fst o <> k) c -> option_table ((53, [msg_type_value REQUEST]) :: [(50, ipToBuffer ip); (54, ipToBuffer server)]) !! k = Some d) as Hat.
  { intros a k d c He Hc. change (msg_type_value REQUEST) with 3. rewrite He. by apply option_table_mid. }
  rewrite (Hat [] 53 [3] [(50, ipToBuffer ip); (54, ipToBuffer server)] eq_refl) by (repeat constructor; done).
  rewrite (Hat [(53, [3])] 50 (ipToBuffer ip) [(54, ipToBuffer server)] eq_refl) by (repeat constructor; done).
  rewrite (Hat [(53, [3]); (50, ipToBuffer ip)] 54 (ipToBuffer server) [] eq_refl) by constructor.
  rewrite !option_address_of by done. done.
Qed.

(** A REQUEST for an address of the pool that nobody else holds is answered by an ACK of it. *)
Lemma request_acks mac x ip r now c w :
  tables_ok w -> server w = Listening -> config w = Some c -> config_ok c -> is_mac mac -> 0 <= x < 2 ^ 32 ->
  in_pool w ip -> (forall owner, jmap_get (ipToMac w) ip = Some owner -> owner = mac_text mac) ->
  let p := request_packet mac x ip (serverIp c) in
  exists ev,
  on_message (request_message mac x (ipToBuffer ip) (ipToBuffer (serverIp c))) r now w =
  (fst (forget_offer p (fst (grant p ip c now w))),
   [SendEvent ev; ServerSend (bootp_message (response c p ACK ip (serverIp c))) (port r) broadcast_address]).
Proof.
  intros Hok Hs Hc Hcfg Hm Hx Hpool Howner p. pose proof (in_pool_ipv4 w ip Hok Hpool) as Hip.
  destruct (request_parses mac x ip (serverIp c) Hm Hx Hip (cfg_serverIp c Hcfg)) as (Hp & Ht & Hr & Hsid).
  unfold on_message. rewrite Hp. fold p in Ht, Hr, Hsid |- *. change (negb (op p =? 1)) with false. rewrite Ht.
  unfold swallow, handleRequest, with_config, attempt_this. rewrite Hc, Hsid, Hr, bool_decide_true by done. cbn [negb]. cbv zeta.
  assert ((ipToNum ip <? poolStart w) || (poolEnd w <? ipToNum ip) = false) as ->.
  { destruct Hpool as (n & Hn & ->). destruct (tb_pool _ _ _ _ _ _ Hok). rewrite ipToNum_numToIp by (unfold is_ipv4_number; lia).
    apply orb_false_iff. split; apply Z.ltb_ge; lia. }
  assert (macAddr p = mac_text mac) as Hmac by (by apply client_mac).
  assert (server (fst (grant p ip c now w)) = Listening /\ config (fst (grant p ip c now w)) = Some c /\
    exists ev, snd (grant p ip c now w) = [SendEvent ev]) as (Hs1 & Hc1 & ev & Hev).
  { unfold grant, get_this. destruct (jmap_get (leaseMap w) (macAddr p)); (split; [done|]; split; [done|]; by eexists). }
  set (w1 := fst (grant p ip c now w)) in *. set (w2 := fst (forget_offer p w1)).
  exists ev. destruct (grant p ip c now w) as [w1' o1] eqn:Eg. cbn [fst snd] in Hev, w1. subst o1.
  assert (reply p ACK ip r w2 =
    (w2, [ServerSend (bootp_message (response c p ACK ip (serverIp c))) (port r) broadcast_address], None)) as Hrep.
  { apply reply_sends; [done | done | done | by apply client_packet_ok | done]. }
  assert (fst ((returns (grant p ip c now) ;;! returns (forget_offer p) ;;! reply p ACK ip r) w) =
    (w2, [SendEvent ev; ServerSend (bootp_message (response c p ACK ip (serverIp c))) (port r) broadcast_address])) as Hrun.
  { rewrite (seq_returns _ _ w w1 [SendEvent ev] _ _ _ Eg (seq_returns _ _ w1 w2 [] _ _ _ eq_refl Hrep)). done. }
  destruct (jmap_get (ipToMac w) ip) as [owner|]; [|exact Hrun].
  rewrite bool_decide_true; [exact Hrun|]. rewrite Hmac. by apply Howner.
Qed.

(** An unexpired lease survives the timer. *)
Lemma each_remove_other (xs : list jsstring) mac w :
  mac ∉ xs ->
  jmap_get (leaseMap (fst (each xs (fun m =>
    this w => match jmap_get (leaseMap w) m with
              | Some lease => remove_lease m (lease_ip lease)
              | None => skip
              end) w))) mac = jmap_get (leaseMap w) mac.
Proof.
  revert w. induction xs as [|m xs IH]; intros w; cbn [each]; [done|]. rewrite not_elem_of_cons. intros [Hm Hxs].
  unfold seq_action. set (a := get_this _ w). destruct a as [w1 o1] eqn:Ea.
  specialize (IH w1 Hxs). destruct (each xs _ w1) as [w2 o2]. cbn [fst] in *. rewrite IH.
  subst a. unfold get_this in Ea. destruct (jmap_get (leaseMap w) m) as [l|]; [|by injection Ea as <- _].
  unfold remove_lease in Ea. apply (f_equal fst) in Ea. cbn [fst] in Ea. rewrite <- Ea.
  change (jmap_get (jmap_delete (leaseMap w) m) mac = jmap_get (leaseMap w) mac). by apply jmap_get_delete_ne.
Qed.

Lemma unexpired_kept w mac l t :
  tables_ok w -> jmap_get (leaseMap w) mac = Some l -> t <= expiresAt l ->
  jmap_get (leaseMap (fst (checkExpiredLeases t w))) mac = Some l.
Proof.
  intros Hok Hl Ht. unfold checkExpiredLeases, get_this at 1. rewrite each_remove_other; [done|].
  intros Hin. apply list_elem_of_fmap in Hin as ([m l'] & He & Hin). cbn [fst] in He. subst m.
  apply list_elem_of_In, filter_In in Hin as [Hin Hexp]. apply list_elem_of_In, jmap_get_elem in Hin; [|apply Hok].
  assert (l' = l) as -> by congruence. unfold isExpired in Hexp. cbn [snd] in Hexp. apply Z.ltb_lt in Hexp. lia.
Qed.

Lemma bytes_ok_discover mac x : bytes_ok mac -> 0 <= x < 2 ^ 32 -> bytes_ok (discover_message mac x).
Proof.
  intros Hm Hx. unfold discover_message, bootp_message, bootp_header.
  cbn [b_op b_htype b_hlen b_xid b_flags b_ciaddr b_yiaddr b_siaddr b_giaddr b_chaddr b_options client_message].
  rewrite !bytes_ok_app. split_and!;
    first [ done | apply bytes_ok_alloc | apply bytes_ok_be_bytes
          | cbn [map concat app encode_option fst snd]; repeat (apply bytes_ok_cons; split; [by vm_compute|]); constructor ].
Qed.

Definition dhcp_steps : relation DhcpWorker := rtc (fun w w' => exists es, dhcp_step w es w').

Lemma reachable_steps w w' : dhcp_reachable w -> dhcp_steps w w' -> dhcp_reachable w'.
Proof. intros Hw. induction 1 as [|w w1 w2 [es Hs] _ IH]; [done|]. apply IH. by eapply dhcp_next. Qed.

(** The lease a granted request leaves. *)
Lemma granted_lease p ip c now w :
  (forall l, jmap_get (leaseMap w) (macAddr p) = Some l -> lease_ip l = ip) ->
  exists l, jmap_get (leaseMap (fst (forget_offer p (fst (grant p ip c now w))))) (macAddr p) = Some l /\
    lease_ip l = ip /\ expiresAt l = now + leaseTime c * 1000.
Proof.
  intros Hl. unfold grant, get_this. destruct (jmap_get (leaseMap w) (macAddr p)) as [l|] eqn:El.
  - eexists. split; [apply jmap_get_set_eq|]. split; [exact (Hl l eq_refl) | done].
  - eexists. split; [apply jmap_get_set_eq|]. done.
Qed.

(** C24: A client obtains an address. Whenever the client holds a lease or fewer leases than pool addresses exist, its
    DISCOVER is answered by an OFFER, readable by the client, of an address of the pool; and its REQUEST for the
    offer, after any events that leave the server listening with the same configuration and pool and the address not taken by
    another client, is answered by an ACK of that address. The client then holds a lease of it until the
    lease time has passed: no check of the leases before that removes it. *)
Theorem dhcp_client_obtains_lease w c mac x r now :
  dhcp_reachable w -> server w = Listening -> config w = Some c -> config_ok c ->
  is_mac mac -> bytes_ok mac -> 0 <= x < 2 ^ 32 ->
  is_Some (jmap_get (leaseMap w) (mac_text mac)) \/ blen (leaseMap w) < pool_size w ->
  exists ip w1 offer q,
    on_message (discover_message mac x) r now w = (w1, [ServerSend offer (port r) broadcast_address]) /\
    parseDhcpPacket offer = Some q /\ msgType q = Some (msg_type_value OFFER) /\ xid q = x /\
    yiaddr q = ipToBuffer ip /\ in_pool w ip /\
    forall w' now',
      dhcp_steps w1 w' -> server w' = Listening -> config w' = Some c ->
      poolStart w' = poolStart w -> poolEnd w' = poolEnd w ->
      (forall owner, jmap_get (ipToMac w') ip = Some owner -> owner = mac_text mac) ->
      (forall l, jmap_get (leaseMap w') (mac_text mac) = Some l -> lease_ip l = ip) ->
      exists w2 ev ack a l,
        on_message (take_offer mac x q) r now' w' = (w2, [SendEvent ev; ServerSend ack (port r) broadcast_address]) /\
        parseDhcpPacket ack = Some a /\ msgType a = Some (msg_type_value ACK) /\ xid a = x /\ yiaddr a = ipToBuffer ip /\
        jmap_get (leaseMap w2) (mac_text mac) = Some l /\ lease_ip l = ip /\
        expiresAt l = now' + leaseTime c * 1000 /\
        forall t, t <= now' + leaseTime c * 1000 ->
          jmap_get (leaseMap (fst (checkExpiredLeases t w2))) (mac_text mac) = Some l.
Proof.
  intros Hw Hs Hc Hcfg Hm Hbytes Hx Hroom. pose proof (reachable_tables w Hw) as Hok.
  assert (exists ip, allocateIp (mac_text mac) w = Some ip) as [ip Ha].
  { destruct (jmap_get (leaseMap w) (mac_text mac)) as [l|] eqn:El; [unfold allocateIp; rewrite El; eauto|].
    pose proof (allocate_new _ w Hok El) as Hn. destruct (allocateIp (mac_text mac) w); [eauto|].
    destruct Hroom as [[? ?]|?]; [done | lia]. }
  pose proof (allocateIp_in_pool _ w ip Hok Ha) as Hpool. pose proof (in_pool_ipv4 w ip Hok Hpool) as Hip.
  pose proof (discover_offers mac x r now c w ip Hok Hs Hc Hcfg Hm Hx Ha) as Hoffer. cbv zeta in Hoffer.
  destruct (read_response c (packet_of (client_message DISCOVER mac x [])) OFFER ip Hcfg) as (q & Hq & _ & Hxq & _ & Hy & Ht & H54 & _);
    [by apply client_packet_ok | done |].
  do 4 eexists. split; [exact Hoffer|]. split; [exact Hq|]. split; [done|]. split; [done|]. split; [done|]. split; [done|].
  intros w' now' Hsteps Hs' Hc' Hps Hpe Howner Hown.
  assert (dhcp_reachable w') as Hw'.
  { eapply reachable_steps; [|exact Hsteps]. eapply dhcp_next; [exact Hw|].
    pose proof (dhcp_step_op (OpMessage (discover_message mac x) r now) w) as Hst. cbn [run_op enabled] in Hst.
    rewrite Hoffer in Hst. apply Hst. split; [done | by apply bytes_ok_discover]. }
  pose proof (reachable_tables w' Hw') as Hok'.
  assert (in_pool w' ip) as Hpool' by (unfold in_pool; by rewrite Hps, Hpe).
  destruct (request_acks mac x ip r now' c w' Hok' Hs' Hc' Hcfg Hm Hx Hpool' Howner) as [ev Hack]. cbv zeta in Hack.
  destruct (read_response c (request_packet mac x ip (serverIp c)) ACK ip Hcfg) as (a & Hpa & _ & Hxa & _ & Hya & Hta & _);
    [by apply client_packet_ok | done |].
  destruct (granted_lease (request_packet mac x ip (serverIp c)) ip c now' w') as (l & Hl & Hlip & Hle).
  { unfold request_packet. by rewrite client_mac. }
  unfold request_packet in Hl at 3. rewrite client_mac in Hl by done.
  unfold take_offer. rewrite Hy, H54. cbn [default from_option].
  do 5 eexists. split; [exact Hack|]. split; [exact Hpa|]. split; [done|]. split; [done|]. split; [done|].
  split; [exact Hl|]. split; [done|]. split; [done|].
  intros t Hle'. apply unexpired_kept; [|done | by rewrite Hle].
  destruct (grant_ok (request_packet mac x ip (serverIp c)) ip c now' w' Hok' Hs' Hpool') as [Hg Hgs].
  { unfold request_packet. by rewrite client_mac. }
  by apply tables_offer_delete.
Qed.

(** Two clients can be given one address. When a client that holds a lease asks for another free address of the pool, the
    server answers with an ACK of that address but keeps the old one in its tables: the acknowledged address is
    still free there, and the next client that asks for it is sent an ACK of it as well. *)
Theorem dhcp_address_given_twice w c mac1 mac2 x1 x2 l ip r1 r2 now1 now2 :
  dhcp_reachable w -> server w = Listening -> config w = Some c -> config_ok c ->
  is_mac mac1 -> is_mac mac2 -> 0 <= x1 < 2 ^ 32 -> 0 <= x2 < 2 ^ 32 ->
  jmap_get (leaseMap w) (mac_text mac1) = Some l -> in_pool w ip -> jmap_get (ipToMac w) ip = None ->
  exists w1 w2 ev1 ev2 ack1 ack2 a1 a2,
    on_message (request_message mac1 x1 (ipToBuffer ip) (ipToBuffer (serverIp c))) r1 now1 w =
      (w1, [SendEvent ev1; ServerSend ack1 (port r1) broadcast_address]) /\
    parseDhcpPacket ack1 = Some a1 /\ msgType a1 = Some (msg_type_value ACK) /\ yiaddr a1 = ipToBuffer ip /\
    chaddr a1 = mac1 ++ alloc 10 /\
    (exists l1, jmap_get (leaseMap w1) (mac_text mac1) = Some l1 /\ lease_ip l1 = lease_ip l) /\
    jmap_get (ipToMac w1) ip = None /\
    on_message (request_message mac2 x2 (ipToBuffer ip) (ipToBuffer (serverIp c))) r2 now2 w1 =
      (w2, [SendEvent ev2; ServerSend ack2 (port r2) broadcast_address]) /\
    parseDhcpPacket ack2 = Some a2 /\ msgType a2 = Some (msg_type_value ACK) /\ yiaddr a2 = ipToBuffer ip /\
    chaddr a2 = mac2 ++ alloc 10.
Proof.
  intros Hw Hs Hc Hcfg Hm1 Hm2 Hx1 Hx2 Hl Hpool Hfree. pose proof (reachable_tables w Hw) as Hok.
  pose proof (in_pool_ipv4 w ip Hok Hpool) as Hip.
  set (p1 := request_packet mac1 x1 ip (serverIp c)). set (p2 := request_packet mac2 x2 ip (serverIp c)).
  assert (forall owner, jmap_get (ipToMac w) ip = Some owner -> owner = mac_text mac1) as Ho1 by (intros o; by rewrite Hfree).
  destruct (request_acks mac1 x1 ip r1 now1 c w Hok Hs Hc Hcfg Hm1 Hx1 Hpool Ho1) as [ev1 Hack1]. cbv zeta in Hack1. fold p1 in Hack1.
  destruct (grant_ok p1 ip c now1 w Hok Hs Hpool) as [Hg Hgs]; [intros o; by rewrite Hfree|].
  assert (macAddr p1 = mac_text mac1) as Hmac1 by (by apply client_mac).
  set (w1 := fst (forget_offer p1 (fst (grant p1 ip c now1 w)))) in *.
  assert (leaseMap w1 = jmap_set (leaseMap w) (mac_text mac1) ((renew (leaseTime c) now1 l) <| lease_hostname := hostname_or_unknown (hostname p1) |>) /\
    ipToMac w1 = ipToMac w /\ config w1 = config w /\ poolStart w1 = poolStart w /\ poolEnd w1 = poolEnd w) as (Hl1 & Hi1 & Hc1 & Hps & Hpe).
  { unfold w1, grant, get_this. rewrite Hmac1, Hl. done. }
  assert (tables_ok w1) as Hok1 by (by apply tables_offer_delete).
  assert (in_pool w1 ip) as Hpool1 by (unfold in_pool; by rewrite Hps, Hpe).
  assert (forall owner, jmap_get (ipToMac w1) ip = Some owner -> owner = mac_text mac2) as Ho2 by (intros o; by rewrite Hi1, Hfree).
  destruct (request_acks mac2 x2 ip r2 now2 c w1 Hok1 Hgs (eq_trans Hc1 Hc) Hcfg Hm2 Hx2 Hpool1 Ho2) as [ev2 Hack2].
  destruct (read_response c p1 ACK ip Hcfg) as (a1 & Ha1 & _ & _ & Hch1 & Hy1 & Ht1 & _); [by apply client_packet_ok | done |].
  destruct (read_response c p2 ACK ip Hcfg) as (a2 & Ha2 & _ & _ & Hch2 & Hy2 & Ht2 & _); [by apply client_packet_ok | done |].
  do 8 eexists. split; [exact Hack1|]. split; [exact Ha1|]. split; [done|]. split; [done|]. split; [done|].
  split; [rewrite Hl1; eexists; split; [apply jmap_get_set_eq | done]|]. split; [by rewrite Hi1|].
  split; [exact Hack2|]. split; [exact Ha2|]. done.
Qed.

(** ** Witnesses: a pool of three addresses, a client with a lease of the first *)

Definition witness_dhcp_config : dhcp_config := {|
  serverPort := Some 67; serverIp := js "192.168.1.1"; cfg_poolStart := js "192.168.1.100"; cfg_poolEnd := js "192.168.1.102";
  subnetMask := js "255.255.255.0"; gateway := js "192.168.1.1"; dns1 := js "8.8.8.8"; dns2 := []; leaseTime := 3600 |}.

Definition witness_mac1 : buffer := [2; 0; 0; 0; 0; 1].
Definition witness_mac2 : buffer := [2; 0; 0; 0; 0; 2].
Definition witness_rinfo : rinfo := {| address := js "0.0.0.0"; port := 68 |}.

Definition witness_ops : list dhcp_op :=
  [OpStart witness_dhcp_config []; OpBound 1;
   OpMessage (request_message witness_mac1 7 (ipToBuffer (js "192.168.1.100")) (ipToBuffer (js "192.168.1.1"))) witness_rinfo 0].

Definition run_ops (ops : list dhcp_op) (w : DhcpWorker) : DhcpWorker := fold_left (fun w o => fst (run_op o w)) ops w.

Definition witness_server : DhcpWorker := run_ops (take 2 witness_ops) DhcpWorker_new.
Definition witness_leased : DhcpWorker := run_ops witness_ops DhcpWorker_new.

Lemma is_ipv4_intro ip : bool_decide (ip = numToIp (ipToNum ip)) = true -> is_ipv4 ip.
Proof. intros H%bool_decide_eq_true. exists (ipToNum ip). split; [apply ipToNum_range | done]. Qed.

Lemma witness_dhcp_config_ok : config_ok witness_dhcp_config.
Proof. split; try (right; by apply is_ipv4_intro); try (by apply is_ipv4_intro); [by left | cbn; lia]. Qed.

Lemma witness_server_reachable : dhcp_reachable witness_server.
Proof.
  eapply dhcp_next; [eapply dhcp_next; [apply dhcp_start|]|].
  - by apply (dhcp_step_op (OpStart witness_dhcp_config [])).
  - by apply (dhcp_step_op (OpBound 1)).
Qed.

Lemma witness_leased_reachable : dhcp_reachable witness_leased.
Proof.
  eapply dhcp_next; [apply witness_server_reachable|].
  apply (dhcp_step_op (OpMessage (request_message witness_mac1 7 (ipToBuffer (js "192.168.1.100")) (ipToBuffer (js "192.168.1.1"))) witness_rinfo 0)).
  split; [done | by apply bytes_ok_check].
Qed.

Lemma dhcp_tables_agree_witness :
  dhcp_reachable witness_leased /\ exists l, jmap_get (leaseMap witness_leased) (mac_text witness_mac1) = Some l /\
    in_pool witness_leased (lease_ip l).
Proof.
  split; [apply witness_leased_reachable|].
  destruct (dhcp_tables_agree witness_leased witness_leased_reachable) as (_ & _ & H & _).
  eexists. split; [vm_compute; reflexivity|]. apply (H (mac_text witness_mac1)). vm_compute. reflexivity.
Defined.

Lemma dhcp_capacity_witness :
  dhcp_reachable witness_leased /\ blen (leaseMap witness_leased) = 1 /\ pool_size witness_leased = 3 /\
  allocateIp (mac_text witness_mac2) witness_leased = Some (js "192.168.1.101") /\ in_pool witness_leased (js "192.168.1.101").
Proof.
  split; [apply witness_leased_reachable|].
  destruct (dhcp_capacity (mac_text witness_mac2) witness_leased witness_leased_reachable) as [_ H].
  assert (allocateIp (mac_text witness_mac2) witness_leased = Some (js "192.168.1.101")) as Ha by (vm_compute; reflexivity).
  split; [vm_compute; reflexivity|]. split; [vm_compute; reflexivity|]. split; [exact Ha|].
  assert (jmap_get (leaseMap witness_leased) (mac_text witness_mac2) = None) as Hn by (vm_compute; reflexivity).
  rewrite Hn in H. by apply H.
Defined.

Lemma dhcp_client_obtains_lease_witness :
  exists ip w1 offer q,
    on_message (discover_message witness_mac2 9) witness_rinfo 10 witness_leased =
      (w1, [ServerSend offer 68 broadcast_address]) /\
    parseDhcpPacket offer = Some q /\ yiaddr q = ipToBuffer ip.
Proof.
  destruct (dhcp_client_obtains_lease witness_leased witness_dhcp_config witness_mac2 9 witness_rinfo 10
    witness_leased_reachable eq_refl eq_refl witness_dhcp_config_ok eq_refl (bytes_ok_check witness_mac2 eq_refl))
    as (ip & w1 & offer & q & H1 & H2 & _ & _ & H3 & _); [lia | right; vm_compute; reflexivity |].
  exists ip, w1, offer, q. split; [exact H1|]. split; [exact H2 | exact H3].
Defined.

Lemma dhcp_address_given_twice_witness :
  exists w1 w2 ev1 ev2 ack1 ack2,
    on_message (request_message witness_mac1 8 (ipToBuffer (js "192.168.1.101")) (ipToBuffer (js "192.168.1.1"))) witness_rinfo 20
      witness_leased = (w1, [SendEvent ev1; ServerSend ack1 68 broadcast_address]) /\
    on_message (request_message witness_mac2 9 (ipToBuffer (js "192.168.1.101")) (ipToBuffer (js "192.168.1.1"))) witness_rinfo 30
      w1 = (w2, [SendEvent ev2; ServerSend ack2 68 broadcast_address]).
Proof.
  assert (in_pool witness_leased (js "192.168.1.101")) as Hpool.
  { exists 3232235877. split; [vm_compute; by split | vm_compute; reflexivity]. }
  assert (exists l, jmap_get (leaseMap witness_leased) (mac_text witness_mac1) = Some l) as [l Hl].
  { eexists. vm_compute. reflexivity. }
  destruct (dhcp_address_given_twice witness_leased witness_dhcp_config witness_mac1 witness_mac2 8 9 l (js "192.168.1.101")
    witness_rinfo witness_rinfo 20 30 witness_leased_reachable eq_refl eq_refl witness_dhcp_config_ok eq_refl eq_refl)
    as (w1 & w2 & ev1 & ev2 & ack1 & ack2 & a1 & a2 & H1 & _ & _ & _ & _ & _ & _ & H2 & _);
    [lia | lia | exact Hl | exact Hpool | vm_compute; reflexivity |].
  exists w1, w2, ev1, ev2, ack1, ack2. split; [exact H1 | exact H2].
Defined.
