(* ===== verification/Ipv6Text.v ===== *)
(** IPv6 addresses as text and as 16 bytes: the address functions at the top of
    src/electron/worker/dhcp/dhcp6Worker.js.

    [isIPv6] is Node's [net.isIPv6] (lib/internal/net.js).  The main facts: the text of
    an address reads back as the address, and incrementing is addition modulo 2^128. *)

From stdpp Require Import base list numbers strings option.
From Stdlib Require Import ZArith Lia.
From S2P Require Import Prelude NodePath JsText.

Local Open Scope Z_scope.
Local Open Scope js_scope.

(** ** [net.isIPv6] *)

(** [text.split('::')] *)
Fixpoint split_double (s : jsstring) : list jsstring :=
  match s with
  | [] => [[]]
  | x :: tl =>
    match tl with
    | y :: tl' =>
      if (x =? 58) && (y =? 58) then [] :: split_double tl'
      else match split_double tl with
           | [] => [[x]]
           | p :: ps => (x :: p) :: ps
           end
    | [] => [[x]]
    end
  end.

Definition is_hex (c : Z) : bool := bool_decide (is_Some (hex_value c)).

Definition v6Seg (g : jsstring) : bool := (1 <=? blen g) && (blen g <=? 4) && forallb is_hex g.

Definition v4Seg (g : jsstring) : bool :=
  match g with
  | [] => false
  | [c] => is_digit c
  | c :: _ => negb (c =? 48) && (blen g <=? 3) && forallb is_digit g && (dec_value g <=? 255)
  end.

Definition v4Str (t : jsstring) : bool :=
  let parts := split_on 46 t in (blen parts =? 4) && forallb v4Seg parts.

(** Number of 16-bit groups, when every part is one; the last part may be an IPv4 text. *)
Fixpoint count_groups (v4 : bool) (gs : list jsstring) : option Z :=
  match gs with
  | [] => Some 0
  | g :: tl =>
    if v6Seg g then (fun n => n + 1) <$> count_groups v4 tl
    else if v4 && bool_decide (tl = []) && v4Str g then Some 2 else None
  end.

Definition half_groups (v4 : bool) (half : jsstring) : option Z :=
  match half with
  | [] => Some 0
  | _ => count_groups v4 (split_on 58 half)
  end.

Definition v6Str (s : jsstring) : bool :=
  match split_double s with
  | [a] => bool_decide (count_groups true (split_on 58 a) = Some 8)
  | [l; r] =>
    match half_groups false l, half_groups true r with
    | Some m, Some n => m + n <=? 7
    | _, _ => false
    end
  | _ => false
  end.

Definition zone_char (c : Z) : bool :=
  is_digit c || ((65 <=? c) && (c <=? 90)) || ((97 <=? c) && (c <=? 122)) || (c =? 45) || (c =? 46) || (c =? 58).

Fixpoint until_percent (s : jsstring) : jsstring * option jsstring :=
  match s with
  | [] => ([], None)
  | c :: tl => if c =? 37 then ([], Some tl) else let '(a, z) := until_percent tl in (c :: a, z)
  end.

Definition isIPv6 (s : jsstring) : bool :=
  match until_percent s with
  | (a, None) => v6Str a
  | (a, Some z) => v6Str a && (1 <=? blen z) && forallb zone_char z
  end.

(** ** Text to bytes *)

Definition zero_text : jsstring := [48].

(** [groups[i] || '0'] *)
Definition group_at (groups : list jsstring) (i : nat) : jsstring :=
  match groups !! i with
  | Some (c :: tl) => c :: tl
  | _ => zero_text
  end.

Definition half_parts (half : jsstring) : list jsstring :=
  match half with
  | [] => []
  | _ => split_on 58 half
  end.

Definition address_groups (addr : jsstring) : result (list jsstring) :=
  match split_double addr with
  | [l; r] =>
    let left := half_parts l in
    let right := half_parts r in
    if 8 - blen left - blen right <? 0 then Throw RangeError
    else Ok (left ++ replicate (Z.to_nat (8 - blen left - blen right)) zero_text ++ right)
  | _ => Ok (split_on 58 addr)
  end.

(** [writeUInt16BE] stores 0 for [NaN]. *)
Fixpoint write_groups (n : nat) (i : nat) (groups : list jsstring) (b : buffer) : result buffer :=
  match n with
  | O => Ok b
  | S m =>
    let! b := writeUInt16BE b (default 0 (parseInt16 (group_at groups i))) (Z.of_nat i * 2) in
    write_groups m (S i) groups b
  end.

Definition ipv6ToBuffer (addr : jsstring) : result buffer :=
  if negb (isIPv6 addr) then Throw (ErrorMsg "invalid IPv6 address")
  else
    let! groups := address_groups addr in
    write_groups 8 0 groups (alloc 16).

(** ** Bytes to text *)

Fixpoint read_groups (n : nat) (i : Z) (b : buffer) : result (list jsstring) :=
  match n with
  | O => Ok []
  | S m =>
    let! v := readUInt16BE b (i * 2) in
    let! rest := read_groups m (i + 1) b in
    Ok (hex_digits v :: rest)
  end.

Record zero_run := { bestStart : Z; bestLen : Z; curStart : Z; curLen : Z }.

Definition scan_group (r : zero_run) (i : Z) (g : jsstring) : zero_run :=
  if bool_decide (g = zero_text) then
    let start := if curStart r =? -1 then i else curStart r in
    let len := (if curStart r =? -1 then 0 else curLen r) + 1 in
    if bestLen r <? len then {| bestStart := start; bestLen := len; curStart := start; curLen := len |}
    else {| bestStart := bestStart r; bestLen := bestLen r; curStart := start; curLen := len |}
  else {| bestStart := bestStart r; bestLen := bestLen r; curStart := -1; curLen := 0 |}.

Fixpoint scan_groups (r : zero_run) (i : Z) (gs : list jsstring) : zero_run :=
  match gs with
  | [] => r
  | g :: tl => scan_groups (scan_group r i g) (i + 1) tl
  end.

Definition no_run : zero_run := {| bestStart := -1; bestLen := 0; curStart := -1; curLen := 0 |}.

Definition compress (groups : list jsstring) : jsstring :=
  let r := scan_groups no_run 0 groups in
  if 1 <? bestLen r then
    join_with 58 (subarray groups 0 (bestStart r)) ++ [58; 58] ++
    join_with 58 (subarray_from groups (bestStart r + bestLen r))
  else join_with 58 groups.

Definition bufferToIpv6 (b : buffer) : result jsstring :=
  let! groups := read_groups 8 0 b in Ok (compress groups).

(** ** Next address *)

Fixpoint increment_from (n : nat) (b : buffer) : buffer :=
  match n with
  | O => b
  | S i =>
    let v := default 0 (bget b (Z.of_nat i)) in
    if v <? 255 then bset b (Z.of_nat i) (v + 1)
    else increment_from i (bset b (Z.of_nat i) 0)
  end.

Definition incrementIpv6 (b : buffer) : buffer := increment_from 16 b.

(** [Buffer.compare(a, b)] *)
Fixpoint buffer_compare (a b : buffer) : comparison :=
  match a, b with
  | [], [] => Eq
  | [], _ :: _ => Lt
  | _ :: _, [] => Gt
  | x :: a, y :: b => match x ?= y with Eq => buffer_compare a b | c => c end
  end.

Example text_a : bufferToIpv6 [32;1;13;184;0;0;0;0;0;0;0;0;0;0;0;1] = Ok (js "2001:db8::1").
Proof. vm_compute. reflexivity. Qed.
Example text_b : ipv6ToBuffer (js "::ffff:1.2.3.4") = Ok [0;0;0;0;0;0;0;0;0;0;0;0;255;255;0;1].
Proof. vm_compute. reflexivity. Qed.

(** ** The text of an address reads back *)

(** A group as [toString(16)] prints it. *)
Definition seg (g : jsstring) : Prop := g <> [] /\ Forall hex_char g /\ (length g <= 4)%nat.

Lemma seg_hex_digits v : 0 <= v < 65536 -> seg (hex_digits v).
Proof.
  intros Hv. destruct (hex_digits_correct v) as (_ & Hc & Hne); [lia|]. split; [done|]. split; [done|].
  apply length_hex_digits_fuel; [|lia]. change (16 ^ Z.of_nat 4) with 65536. lia.
Qed.

Lemma hex_char_lacks c s : Forall hex_char s -> (forall x, hex_char x -> x <> c) -> lacks c s.
Proof. intros Hs Hc. eapply Forall_impl; [|exact Hs]. exact Hc. Qed.

Lemma seg_lacks_colon g : seg g -> lacks 58 g.
Proof. intros (_ & Hc & _). apply (hex_char_lacks 58 g Hc). unfold hex_char. lia. Qed.

Lemma seg_v6Seg g : seg g -> v6Seg g = true.
Proof.
  intros (Hne & Hc & Hl). unfold v6Seg. rewrite !andb_true_iff, !Z.leb_le. split; [split|].
  - destruct g; [done|]. blia.
  - unfold blen. lia.
  - apply forallb_forall. intros x Hx. rewrite Forall_forall in Hc. apply Hc, hex_char_value in Hx as [v Hv].
    unfold is_hex. apply bool_decide_eq_true. by rewrite Hv.
Qed.

Definition prepend (g : jsstring) (l : list jsstring) : list jsstring :=
  match l with
  | [] => [g]
  | p :: ps => (g ++ p) :: ps
  end.

Lemma split_double_cons x y s :
  split_double (x :: y :: s) =
  if (x =? 58) && (y =? 58) then [] :: split_double s
  else match split_double (y :: s) with [] => [[x]] | p :: ps => (x :: p) :: ps end.
Proof. reflexivity. Qed.

Lemma split_double_nonempty s : split_double s <> [].
Proof.
  destruct s as [|x [|y s]]; [done | done |]. rewrite split_double_cons. case_if; [done|].
  by destruct (split_double (y :: s)).
Qed.

Lemma split_double_char x s : x <> 58 -> split_double (x :: s) = prepend [x] (split_double s).
Proof.
  intros Hx. destruct s as [|y s]; [done|]. rewrite split_double_cons.
  rewrite (proj2 (Z.eqb_neq x 58)) by done. cbn [andb]. by destruct (split_double (y :: s)).
Qed.

Lemma split_double_lacks g s : lacks 58 g -> split_double (g ++ s) = prepend g (split_double s).
Proof.
  induction 1 as [|x g Hx Hg IH]; cbn [app].
  - pose proof (split_double_nonempty s). by destruct (split_double s).
  - rewrite split_double_char by done. rewrite IH. by destruct (split_double s).
Qed.

Lemma split_double_colon y s : y <> 58 -> split_double (58 :: y :: s) = prepend [58] (split_double (y :: s)).
Proof.
  intros Hy. rewrite split_double_cons.
  rewrite (proj2 (Z.eqb_neq y 58)) by done. cbn [andb Z.eqb]. rewrite andb_false_r. by destruct (split_double (y :: s)).
Qed.

Lemma prepend_app a b l : prepend a (prepend b l) = prepend (a ++ b) l.
Proof. destruct l; cbn [prepend]; [done|]. by rewrite app_assoc. Qed.

(** No ["::"] arises inside joined groups. *)
Lemma split_double_join gs t : Forall seg gs -> split_double (join_with 58 gs ++ t) = prepend (join_with 58 gs) (split_double t).
Proof.
  induction gs as [|g gs IH]; intros Hgs; [cbn [join_with app]; pose proof (split_double_nonempty t); by destruct (split_double t)|].
  apply Forall_cons_iff in Hgs as [Hg Hgs]. destruct gs as [|g2 gs].
  - cbn [join_with]. by apply split_double_lacks, seg_lacks_colon.
  - change (join_with 58 (g :: g2 :: gs)) with (g ++ 58 :: join_with 58 (g2 :: gs)).
    rewrite <- app_assoc. cbn [app]. rewrite split_double_lacks by (by apply seg_lacks_colon). specialize (IH Hgs).
    assert (exists y s, join_with 58 (g2 :: gs) = y :: s /\ y <> 58) as (y & s & Hj & Hy).
    { apply Forall_cons_iff in Hgs as [Hg2 _]. pose proof (seg_lacks_colon _ Hg2) as Hl. destruct Hg2 as (Hne & _).
      destruct g2 as [|y g2]; [done|]. apply Forall_cons_iff in Hl as [Hy _].
      destruct gs; cbn [join_with app]; eauto. }
    rewrite Hj in *. cbn [app] in *. rewrite split_double_colon, IH by done. rewrite !prepend_app. by rewrite <- app_assoc.
Qed.

Lemma count_groups_segs v4 gs : Forall seg gs -> count_groups v4 gs = Some (blen gs).
Proof.
  induction 1 as [|g gs Hg Hgs IH]; [done|]. cbn [count_groups]. rewrite seg_v6Seg, IH by done. cbn [fmap option_fmap option_map].
  f_equal. rewrite blen_cons. lia.
Qed.

Lemma split_segs gs : gs <> [] -> Forall seg gs -> split_on 58 (join_with 58 gs) = gs.
Proof.
  intros Hne Hgs. apply split_join; [done|]. eapply Forall_impl; [|exact Hgs]. exact seg_lacks_colon.
Qed.

Lemma join_nonempty gs : gs <> [] -> Forall seg gs -> join_with 58 gs <> [].
Proof.
  destruct gs as [|g gs]; [done|]. intros _ Hgs. apply Forall_cons_iff in Hgs as [(Hne & _) _].
  destruct gs; cbn [join_with]; [done|]. intros H. by apply app_eq_nil in H as [? _].
Qed.

Lemma half_parts_join gs : Forall seg gs -> half_parts (join_with 58 gs) = gs.
Proof.
  intros Hgs. destruct gs as [|g gs]; [done|]. pose proof (join_nonempty (g :: gs)) as Hne.
  unfold half_parts. destruct (join_with 58 (g :: gs)) eqn:Ej; [by destruct Hne|]. rewrite <- Ej. by apply split_segs.
Qed.

Lemma half_groups_join v4 gs : Forall seg gs -> half_groups v4 (join_with 58 gs) = Some (blen gs).
Proof.
  intros Hgs. destruct gs as [|g gs]; [done|]. pose proof (join_nonempty (g :: gs)) as Hne.
  unfold half_groups. destruct (join_with 58 (g :: gs)) eqn:Ej; [by destruct Hne|]. rewrite <- Ej.
  rewrite split_segs by done. by apply count_groups_segs.
Qed.

Lemma until_percent_none s : lacks 37 s -> until_percent s = (s, None).
Proof.
  induction 1 as [|c s Hc Hs IH]; [done|]. cbn [until_percent]. rewrite (proj2 (Z.eqb_neq c 37)) by done. by rewrite IH.
Qed.

Lemma join_lacks_percent gs : Forall seg gs -> lacks 37 (join_with 58 gs).
Proof.
  induction 1 as [|g gs Hg Hgs IH]; [constructor|].
  assert (lacks 37 g) as Hl by (destruct Hg as (_ & Hc & _); apply (hex_char_lacks 37 g Hc); unfold hex_char; lia).
  destruct gs as [|g2 gs]; [done|]. change (join_with 58 (g :: g2 :: gs)) with (g ++ 58 :: join_with 58 (g2 :: gs)).
  apply Forall_app. split; [done|]. by constructor.
Qed.

(** *** The compressed run *)

(** The groups from [s] on, [n] of them, are all zero. *)
Definition zeros_at (gs : list jsstring) (s n : Z) : Prop :=
  0 <= s /\ 0 <= n /\ s + n <= blen gs /\ forall k, s <= k < s + n -> gs !! Z.to_nat k = Some zero_text.

Definition run_ok (gs : list jsstring) (i : Z) (r : zero_run) : Prop :=
  (0 < bestLen r -> zeros_at gs (bestStart r) (bestLen r)) /\
  (curStart r = -1 \/ zeros_at gs (curStart r) (curLen r) /\ curStart r + curLen r = i).

Lemma scan_group_ok gs i r g :
  0 <= i -> gs !! Z.to_nat i = Some g -> run_ok gs i r -> run_ok gs (i + 1) (scan_group r i g).
Proof.
  intros Hi Hg [Hbest Hcur]. unfold scan_group. destruct (bool_decide (g = zero_text)) eqn:Ez.
  - apply bool_decide_eq_true in Ez. subst g. assert (i < blen gs) as Hlt.
    { apply lookup_lt_Some in Hg. unfold blen. lia. }
    assert (zeros_at gs (if curStart r =? -1 then i else curStart r) ((if curStart r =? -1 then 0 else curLen r) + 1)) as Hz.
    { destruct Hcur as [->|[(H0 & H1 & H2 & H3) He]].
      - change (-1 =? -1) with true; cbv iota. split_and!; try lia. intros k Hk. by replace k with i by lia.
      - decide_test (curStart r =? -1) false; cbv iota. split_and!; try lia. intros k Hk.
        destruct (decide (k = i)) as [->|]; [done | apply H3; lia]. }
    assert ((if curStart r =? -1 then i else curStart r) + ((if curStart r =? -1 then 0 else curLen r) + 1) = i + 1) as He.
    { destruct Hcur as [->|[(H0 & _) He]]; [change (-1 =? -1) with true; cbv iota; lia|]. decide_test (curStart r =? -1) false; cbv iota. lia. }
    case_if; (split; cbn [bestLen bestStart curStart curLen]; [auto|]); right; auto.
  - split; cbn [bestLen bestStart curStart curLen]; [done | by left].
Qed.

Lemma scan_groups_ok gs done rest r :
  gs = done ++ rest -> run_ok gs (blen done) r -> run_ok gs (blen gs) (scan_groups r (blen done) rest).
Proof.
  revert done r. induction rest as [|g rest IH]; intros dn r He Hr; cbn [scan_groups].
  - by rewrite He, app_nil_r in *.
  - replace (blen dn + 1) with (blen (dn ++ [g])) by blia. apply IH; [by rewrite <- app_assoc|].
    replace (blen (dn ++ [g])) with (blen dn + 1) by blia. apply scan_group_ok; [blia | | done].
    rewrite He. unfold blen. rewrite Nat2Z.id. apply list_lookup_middle. done.
Qed.

Lemma zeros_split gs s n :
  zeros_at gs s n ->
  gs = subarray gs 0 s ++ replicate (Z.to_nat n) zero_text ++ subarray_from gs (s + n) /\
  blen (subarray gs 0 s) = s /\ blen (subarray_from gs (s + n)) = blen gs - s - n.
Proof.
  intros (H0 & H1 & H2 & H3). split; [|split; [rewrite blen_subarray; lia | rewrite blen_subarray_from; lia]].
  rewrite (subarray_split gs s) at 1 by lia. f_equal. unfold subarray_from.
  apply list_eq. intros k. rewrite lookup_drop. destruct (decide (k < Z.to_nat n)%nat).
  - rewrite lookup_app_l by (rewrite length_replicate; lia). rewrite lookup_replicate_2 by lia.
    replace (Z.to_nat s + k)%nat with (Z.to_nat (s + Z.of_nat k)) by lia. apply H3. lia.
  - rewrite lookup_app_r by (rewrite length_replicate; lia). rewrite length_replicate, lookup_drop. f_equal. lia.
Qed.

Lemma compress_run gs :
  1 < bestLen (scan_groups no_run 0 gs) ->
  zeros_at gs (bestStart (scan_groups no_run 0 gs)) (bestLen (scan_groups no_run 0 gs)).
Proof.
  intros Hl. assert (run_ok gs (blen gs) (scan_groups no_run 0 gs)) as [H _]; [|apply H; lia].
  change 0 with (blen (@nil jsstring)). apply scan_groups_ok; [done|]. split; cbn; [lia | by left].
Qed.

(** The compressed text is an IPv6 address whose groups are the ones it was made of. *)
Lemma compress_groups gs :
  blen gs = 8 -> Forall seg gs -> isIPv6 (compress gs) = true /\ address_groups (compress gs) = Ok gs.
Proof.
  intros H8 Hgs. unfold compress. case_if; bool_hyps.
  - set (s := bestStart _) in *. set (n := bestLen _) in *.
    assert (zeros_at gs s n) as Hz by (by apply compress_run). pose proof Hz as (Hs & _ & Hsn & _).
    destruct (zeros_split gs s n Hz) as (He & Hbl & Hbr).
    set (left := subarray gs 0 s) in *. set (right := subarray_from gs (s + n)) in *.
    assert (Forall seg left) as Hleft by (by apply Forall_take, Forall_drop).
    assert (Forall seg right) as Hright by (by apply Forall_drop).
    assert (split_double (join_with 58 left ++ [58; 58] ++ join_with 58 right) = [join_with 58 left; join_with 58 right]) as Hsplit.
    { rewrite split_double_join by done. cbn [app]. rewrite split_double_cons. cbn [Z.eqb Pos.eqb andb].
      rewrite <- (app_nil_r (join_with 58 right)) at 1. rewrite split_double_join by done. cbn [split_double prepend].
      by rewrite !app_nil_r. }
    split.
    + unfold isIPv6. rewrite until_percent_none.
      * unfold v6Str. rewrite Hsplit, !half_groups_join by done. apply Z.leb_le. lia.
      * apply Forall_app. split; [by apply join_lacks_percent|]. apply Forall_app. split; [by repeat constructor|]. by apply join_lacks_percent.
    + unfold address_groups. rewrite Hsplit, !half_parts_join by done.
      decide_test (8 - blen left - blen right <? 0) false. replace (8 - blen left - blen right) with n by lia. by rewrite <- He.
  - assert (gs <> []) as Hne by (by intros ->).
    assert (split_double (join_with 58 gs) = [join_with 58 gs]) as Hsplit.
    { rewrite <- (app_nil_r (join_with 58 gs)) at 1. rewrite split_double_join by done. cbn [split_double prepend]. by rewrite app_nil_r. }
    split.
    + unfold isIPv6. rewrite until_percent_none by (by apply join_lacks_percent). unfold v6Str.
      rewrite Hsplit, split_segs, count_groups_segs, H8 by done. by apply bool_decide_eq_true.
    + unfold address_groups. rewrite Hsplit. by rewrite split_segs.
Qed.

(** *** Bytes and groups *)

Definition group_value (v : Z) : Prop := 0 <= v < 65536.

Lemma subarray_cons_at (b : buffer) s m e :
  0 <= s -> s <= m -> m <= e -> e <= blen b -> subarray b s e = subarray b s m ++ subarray b m e.
Proof.
  intros. unfold subarray. rewrite <- (take_drop (Z.to_nat (m - s)) (take (Z.to_nat (e - s)) (drop (Z.to_nat s) b))).
  rewrite take_take, skipn_firstn_comm, drop_drop. f_equal; [f_equal; lia|]. f_equal; [lia|]. f_equal. lia.
Qed.

Lemma read_groups_spec n i b :
  0 <= i -> 2 * (i + Z.of_nat n) <= blen b -> bytes_ok b ->
  exists vs, read_groups n i b = Ok (map hex_digits vs) /\ length vs = n /\ Forall group_value vs /\
    concat (map (be_bytes 2) vs) = subarray b (i * 2) (2 * (i + Z.of_nat n)).
Proof.
  revert i. induction n as [|n IH]; intros i Hi Hl Hb.
  - exists []. repeat split; [constructor|]. cbn [map concat]. unfold subarray.
    replace (Z.to_nat _) with 0%nat by lia. done.
  - destruct (IH (i + 1)) as (vs & Hr & Hn & Hv & Hc); [lia | lia | done |].
    set (v := be_value (subarray b (i * 2) (i * 2 + 2))).
    assert (blen (subarray b (i * 2) (i * 2 + 2)) = 2) as Hlen by (rewrite blen_subarray; lia).
    exists (v :: vs). cbn [read_groups map]. unfold readUInt16BE, readUIntBE.
    decide_test (0 <=? i * 2) true. decide_test (i * 2 + 2 <=? blen b) true. cbn [andb bind_result]. rewrite Hr. cbn [bind_result].
    split; [done|]. split; [by rewrite <- Hn|]. split.
    + constructor; [|done]. pose proof (be_value_bound _ (bytes_ok_subarray b (i * 2) (i * 2 + 2) Hb)) as Hbv.
      rewrite Hlen in Hbv. exact Hbv.
    + cbn [concat]. rewrite Hc. rewrite (subarray_cons_at b (i * 2) (i * 2 + 2)) by lia. f_equal; [|f_equal; lia].
      unfold v. replace 2%nat with (length (subarray b (i * 2) (i * 2 + 2))) by (unfold blen in Hlen; lia).
      apply be_bytes_be_value. by apply bytes_ok_subarray.
Qed.

Lemma write_groups_spec n i groups pre vs :
  blen pre = Z.of_nat i * 2 -> length vs = n -> Forall group_value vs ->
  (forall k v, vs !! k = Some v -> group_at groups (i + k) = hex_digits v) ->
  write_groups n i groups (pre ++ alloc (2 * Z.of_nat n)) = Ok (pre ++ concat (map (be_bytes 2) vs)).
Proof.
  revert i pre vs. induction n as [|n IH]; intros i pre vs Hpre Hn Hv Hg.
  - destruct vs; [|done]. cbn [write_groups map concat]. change (alloc (2 * Z.of_nat 0)) with (@nil Z). done.
  - destruct vs as [|v vs]; [done|]. cbn [length] in Hn. apply Forall_cons_iff in Hv as [Hv0 Hv]. unfold group_value in Hv0.
    cbn [write_groups]. pose proof (Hg 0%nat v eq_refl) as Hg0. rewrite Nat.add_0_r in Hg0.
    rewrite Hg0, parseInt16_hex by lia. change (default 0 (Some v)) with v. unfold writeUInt16BE.
    rewrite write_filled by (try done; cbn; lia). cbn [bind_result].
    replace (2 * Z.of_nat (S n) - Z.of_nat 2) with (2 * Z.of_nat n) by lia.
    rewrite (IH (S i) (pre ++ be_bytes 2 v) vs).
    + cbn [map concat]. by rewrite <- app_assoc.
    + autorewrite with blen. lia.
    + lia.
    + done.
    + intros k v' Hk. rewrite <- (Hg (S k) v' Hk). f_equal. lia.
Qed.

(** The text of 16 bytes reads back as the bytes. *)
Lemma ipv6_text_roundtrip b :
  length b = 16%nat -> bytes_ok b -> exists t, bufferToIpv6 b = Ok t /\ ipv6ToBuffer t = Ok b.
Proof.
  intros Hl Hb. destruct (read_groups_spec 8 0 b) as (vs & Hr & Hn & Hv & Hc); [lia | unfold blen; lia | done |].
  exists (compress (map hex_digits vs)). unfold bufferToIpv6. rewrite Hr. split; [done|].
  destruct (compress_groups (map hex_digits vs)) as [His Hag].
  - unfold blen. rewrite length_map. lia.
  - apply Forall_map. eapply Forall_impl; [|exact Hv]. exact seg_hex_digits.
  - unfold ipv6ToBuffer. rewrite His, Hag. cbn [negb bind_result]. change (alloc 16) with ([] ++ alloc (2 * Z.of_nat 8)).
    rewrite (write_groups_spec 8 0 _ [] vs); [|done | done | done |].
    + cbn [app]. rewrite Hc. unfold subarray. change (Z.to_nat (0 * 2)) with 0%nat. rewrite drop_0, take_ge; [done | lia].
    + intros k v Hk. cbn [Nat.add]. unfold group_at. rewrite list_lookup_fmap, Hk. cbn [fmap option_fmap option_map].
      assert (group_value v) as Hgv by (by eapply Forall_lookup_1). unfold group_value in Hgv.
      destruct (hex_digits_correct v) as (_ & _ & Hne); [lia|]. by destruct (hex_digits v).
Qed.

Lemma bufferToIpv6_inj a b t :
  length a = 16%nat -> bytes_ok a -> length b = 16%nat -> bytes_ok b ->
  bufferToIpv6 a = Ok t -> bufferToIpv6 b = Ok t -> a = b.
Proof.
  intros Ha Hba Hb Hbb Hta Htb. destruct (ipv6_text_roundtrip a Ha Hba) as (ta & Ea & Ra).
  destruct (ipv6_text_roundtrip b Hb Hbb) as (tb & Eb & Rb). congruence.
Qed.

(** ** Increment and comparison *)

Lemma bset_snoc pre x rest v : bset (pre ++ x :: rest) (blen pre) v = pre ++ v mod 256 :: rest.
Proof.
  unfold bset. decide_test (blen pre <? 0) false. unfold blen. rewrite Nat2Z.id.
  by rewrite insert_app_r_alt, Nat.sub_diag by lia.
Qed.

Lemma bget_mid (pre : buffer) x rest : bget (pre ++ x :: rest) (blen pre) = Some x.
Proof.
  unfold bget. decide_test (blen pre <? 0) false. unfold blen. rewrite Nat2Z.id. by apply list_lookup_middle.
Qed.

(** The carry passes over trailing 255 bytes. *)
Lemma increment_from_spec pre rest :
  bytes_ok pre ->
  increment_from (length pre) (pre ++ rest) =
  be_bytes (length pre) ((be_value pre + 1) mod 2 ^ (8 * blen pre)) ++ rest.
Proof.
  revert rest. induction pre as [|x pre IH] using rev_ind; intros rest Hb; [done|].
  apply bytes_ok_app in Hb as [Hb Hx]. apply bytes_ok_cons in Hx as [Hx _]. unfold is_byte in Hx.
  rewrite length_app, Nat.add_comm. cbn [length Nat.add increment_from be_bytes].
  rewrite <- app_assoc. cbn [app]. change (Z.of_nat (length pre)) with (blen pre). rewrite bget_mid, !bset_snoc.
  change (default 0 (Some x)) with x. rewrite be_value_snoc, blen_app. change (blen [x]) with 1.
  pose proof (be_value_bound pre Hb) as Hv. pose proof (blen_nonneg pre).
  replace (8 * (blen pre + 1)) with (8 * blen pre + 8) by lia. rewrite Z.pow_add_r by lia. change (2 ^ 8) with 256.
  set (P := 2 ^ (8 * blen pre)) in *. assert (0 < P) by lia. set (v := be_value pre) in *. case_if; bool_hyps.
  - rewrite (Z.mod_small (v * 256 + x + 1)) by nia.
    replace ((v * 256 + x + 1) / 256) with v by zdiv. replace ((v * 256 + x + 1) mod 256) with (x + 1) by zdiv.
    rewrite (Z.mod_small (x + 1)) by lia. unfold v. rewrite be_bytes_be_value by done. by rewrite <- app_assoc.
  - assert (x = 255) as -> by lia. rewrite IH by done. rewrite <- app_assoc. cbn [app]. change (0 mod 256) with 0.
    replace ((v * 256 + 255 + 1) mod (P * 256)) with ((v + 1) mod P * 256)
      by (rewrite <- Z.mul_mod_distr_r by lia; f_equal; lia).
    rewrite Z.div_mul, Z.mod_mul by lia. by fold P.
Qed.

Lemma incrementIpv6_value b :
  length b = 16%nat -> bytes_ok b -> incrementIpv6 b = be_bytes 16 ((be_value b + 1) mod 2 ^ 128).
Proof.
  intros Hl Hb. unfold incrementIpv6. pose proof (increment_from_spec b [] Hb) as He. rewrite !app_nil_r, Hl in He.
  unfold blen in He. by rewrite Hl in He.
Qed.

Lemma be_value_cons x b : be_value (x :: b) = x * 2 ^ (8 * blen b) + be_value b.
Proof.
  induction b as [|y b IH] using rev_ind; [unfold be_value, blen; cbn; lia|].
  change (x :: b ++ [y]) with ((x :: b) ++ [y]). rewrite !be_value_snoc, IH, blen_app. change (blen [y]) with 1.
  replace (8 * (blen b + 1)) with (8 * blen b + 8) by lia. pose proof (blen_nonneg b).
  rewrite Z.pow_add_r by lia. lia.
Qed.

(** Comparison of equally long addresses is comparison of numbers. *)
Lemma buffer_compare_value a b :
  length a = length b -> bytes_ok a -> bytes_ok b -> buffer_compare a b = (be_value a ?= be_value b).
Proof.
  revert b. induction a as [|x a IH]; intros [|y b] Hl Ha Hb; try done.
  apply bytes_ok_cons in Ha as [Hx Ha]. apply bytes_ok_cons in Hb as [Hy Hb]. injection Hl as Hl.
  cbn [buffer_compare]. rewrite !be_value_cons. pose proof (be_value_bound a Ha). pose proof (be_value_bound b Hb).
  replace (blen b) with (blen a) in * by (unfold blen; by rewrite Hl). set (P := 2 ^ (8 * blen a)) in *.
  destruct (Z.compare_spec x y) as [->|Hlt|Hgt].
  - rewrite IH by done. by rewrite Z.add_compare_mono_l.
  - symmetry. apply Z.compare_lt_iff. nia.
  - symmetry. apply Z.compare_gt_iff. nia.
Qed.

Lemma write_groups_length n i gs b b' : write_groups n i gs b = Ok b' -> length b' = length b.
Proof.
  revert i b. induction n as [|n IH]; intros i b; cbn [write_groups]; [by intros [= <-]|].
  intros H. apply bind_ok in H as (b1 & Hw & H). apply IH in H. rewrite H.
  unfold writeUInt16BE, writeUIntBE in Hw. set (bs := be_bytes 2 _) in Hw.
  assert (blen bs = 2) as Hbs by (unfold bs; by rewrite blen_be_bytes). case_if; [|done].
  assert (b1 = splice b (Z.of_nat i * 2) bs) as -> by congruence. bool_hyps. apply length_splice; lia.
Qed.

Lemma ipv6ToBuffer_length t b : ipv6ToBuffer t = Ok b -> length b = 16%nat.
Proof.
  unfold ipv6ToBuffer. case_if; [done|]. intros H. apply bind_ok in H as (gs & _ & H). by apply write_groups_length in H.
Qed.
