(* ===== verification/Dhcp6Packet.v ===== *)
(** DHCPv6 messages: the parser and the builders of src/electron/worker/dhcp/dhcp6Worker.js
    and the codes of src/electron/const/dhcp6Const.js.

    [dhcp6_message] is a specification of the wire format: the message type, three bytes
    of transaction and a run of options.  The builders produce such messages; parsing one
    gives back its options and the address inside the identity association. *)

From stdpp Require Import base list numbers strings option gmap.
From Stdlib Require Import ZArith Lia.
From S2P Require Import Prelude NodePath JsText Ipv6Text.

Local Open Scope Z_scope.
Local Open Scope js_scope.

Inductive DHCP6_MSG_TYPES :=
| SOLICIT | ADVERTISE | REQUEST | CONFIRM | RENEW | REBIND | REPLY | RELEASE | DECLINE | RECONFIGURE
| INFORMATION_REQUEST.

Definition msg_type_value (t : DHCP6_MSG_TYPES) : Z :=
  match t with
  | SOLICIT => 1 | ADVERTISE => 2 | REQUEST => 3 | CONFIRM => 4 | RENEW => 5 | REBIND => 6 | REPLY => 7
  | RELEASE => 8 | DECLINE => 9 | RECONFIGURE => 10 | INFORMATION_REQUEST => 11
  end.

Inductive DHCP6_OPTS := CLIENTID | SERVERID | IA_NA | IAADDR | STATUS_CODE | DNS_SERVERS.

Definition opt_value (o : DHCP6_OPTS) : Z :=
  match o with
  | CLIENTID => 1 | SERVERID => 2 | IA_NA => 3 | IAADDR => 5 | STATUS_CODE => 13 | DNS_SERVERS => 23
  end.

Definition STATUS_SUCCESS : Z := 0.
Definition STATUS_NO_ADDRS_AVAIL : Z := 2.

(** ** Parser *)

Record dhcp6_packet := {
  msgType : Z;
  txId : buffer;
  options : gmap Z buffer;
  clientDuid : option jsstring;
  serverDuid : option jsstring;
  iaid : option jsstring;
  iaNaT1 : option Z; iaNaT2 : option Z;
  requestedIp : option jsstring
}.

Fixpoint parse_options (fuel : nat) (b : buffer) (i : Z) (opts : gmap Z buffer) : gmap Z buffer :=
  match fuel with
  | O => opts
  | S f =>
    if i + 4 <=? blen b then
      let code := read_field 2 b i in
      let len := read_field 2 b (i + 2) in
      let i := i + 4 in
      if blen b <? i + len then opts
      else parse_options f b (i + len) (<[code := subarray b i (i + len)]> opts)
    else opts
  end.

(** The sub-options of an identity association; the last address counts. *)
Fixpoint parse_ia (fuel : nat) (ia : buffer) (j : Z) (ip : option jsstring) : result (option jsstring) :=
  match fuel with
  | O => Ok ip
  | S f =>
    if j + 4 <=? blen ia then
      let subCode := read_field 2 ia j in
      let subLen := read_field 2 ia (j + 2) in
      let j := j + 4 in
      if (subCode =? opt_value IAADDR) && (24 <=? subLen) then
        let! text := bufferToIpv6 (subarray ia j (j + 16)) in
        parse_ia f ia (j + subLen) (Some text)
      else parse_ia f ia (j + subLen) ip
    else Ok ip
  end.

Definition parseDhcp6Packet (b : buffer) : result (option dhcp6_packet) :=
  if blen b <? 4 then Ok None
  else
    let opts := parse_options (length b) b 4 ∅ in
    let client := hex_encode <$> opts !! opt_value CLIENTID in
    let server := hex_encode <$> opts !! opt_value SERVERID in
    let packet ia t1 t2 ip := {|
      msgType := read_field 1 b 0; txId := subarray b 1 4; options := opts;
      clientDuid := client; serverDuid := server; iaid := ia; iaNaT1 := t1; iaNaT2 := t2; requestedIp := ip |} in
    match opts !! opt_value IA_NA with
    | Some ia =>
      if 12 <=? blen ia then
        let! ip := parse_ia (length ia) ia 12 None in
        Ok (Some (packet (Some (hex_encode (subarray ia 0 4))) (Some (read_field 4 ia 4)) (Some (read_field 4 ia 8)) ip))
      else Ok (Some (packet None None None None))
    | None => Ok (Some (packet None None None None))
    end.

(** ** Builders *)

Definition buildOption (code : Z) (data : buffer) : result buffer :=
  let b := alloc (4 + blen data) in
  let! b := writeUInt16BE b code 0 in
  let! b := writeUInt16BE b (blen data) 2 in
  Ok (copy_into data b 4).

Definition buildIaAddr (ipv6Buf : buffer) (preferredLifetime validLifetime : Z) : result buffer :=
  let data := copy_into ipv6Buf (alloc 24) 0 in
  let! data := writeUInt32BE data preferredLifetime 16 in
  let! data := writeUInt32BE data validLifetime 20 in
  buildOption (opt_value IAADDR) data.

Definition buildIaNa (iaidBuf : buffer) (t1 t2 : Z) (iaAddrOpt : buffer) : result buffer :=
  let data := copy_into iaidBuf (alloc (12 + blen iaAddrOpt)) 0 in
  let! data := writeUInt32BE data t1 4 in
  let! data := writeUInt32BE data t2 8 in
  buildOption (opt_value IA_NA) (copy_into iaAddrOpt data 12).

(** The message texts are ASCII, where UTF-8 is the text itself. *)
Definition buildStatusCode (code : Z) (msg : jsstring) : result buffer :=
  let data := alloc (2 + blen msg) in
  let! data := writeUInt16BE data code 0 in
  buildOption (opt_value STATUS_CODE) (copy_into msg data 2).

Fixpoint copy_options (opts : list buffer) (b : buffer) (off : Z) : buffer :=
  match opts with
  | [] => b
  | o :: tl => copy_options tl (copy_into o b off) (off + blen o)
  end.

Definition buildDhcp6Response (t : DHCP6_MSG_TYPES) (txId : buffer) (optionList : list buffer) : result buffer :=
  let totalLen := fold_left (fun n o => n + blen o) optionList 4 in
  let! b := writeUInt8 (alloc totalLen) (msg_type_value t) 0 in
  Ok (copy_options optionList (copy_into txId b 1) 4).

(** ** The wire format *)

Definition encode_option (o : Z * buffer) : buffer := be_bytes 2 (fst o) ++ be_bytes 2 (blen (snd o)) ++ snd o.

Definition dhcp6_message (t : Z) (tx : buffer) (opts : list (Z * buffer)) : buffer :=
  [t] ++ tx ++ concat (map encode_option opts).

Definition ia_address (ip : buffer) (preferred valid : Z) : Z * buffer :=
  (opt_value IAADDR, ip ++ be_bytes 4 preferred ++ be_bytes 4 valid).

Definition ia_na (ia : buffer) (t1 t2 : Z) (sub : Z * buffer) : Z * buffer :=
  (opt_value IA_NA, ia ++ be_bytes 4 t1 ++ be_bytes 4 t2 ++ encode_option sub).

Definition status_code (code : Z) (msg : jsstring) : Z * buffer :=
  (opt_value STATUS_CODE, be_bytes 2 code ++ msg).

Definition u32 (v : Z) : Prop := 0 <= v < 2 ^ 32.
Definition option_ok (o : Z * buffer) : Prop := 0 <= fst o < 65536 /\ blen (snd o) < 65536.

Lemma blen_encode_option6 o : blen (encode_option o) = 4 + blen (snd o).
Proof. unfold encode_option. blia. Qed.

(** *** The builders write it *)

Lemma write_filled_nil n room v :
  0 <= v < 2 ^ (8 * Z.of_nat n) -> Z.of_nat n <= room ->
  writeUIntBE n (alloc room) v 0 = Ok (be_bytes n v ++ alloc (room - Z.of_nat n)).
Proof. intros. change (alloc room) with ([] ++ alloc room). by rewrite write_filled. Qed.

Lemma copy_filled_nil src room : blen src <= room -> copy_into src (alloc room) 0 = src ++ alloc (room - blen src).
Proof. intros. change (alloc room) with ([] ++ alloc room). by rewrite copy_filled. Qed.

Lemma alloc_0 n : n = 0 -> alloc n = [].
Proof. by intros ->. Qed.

Lemma buildOption_ok o : option_ok o -> buildOption (fst o) (snd o) = Ok (encode_option o).
Proof.
  intros [Hc Hl]. unfold buildOption, writeUInt16BE. pose proof (blen_nonneg (snd o)).
  rewrite write_filled_nil by (cbn; lia). cbn [bind_result].
  rewrite write_filled by (try (autorewrite with blen; done); cbn; lia). cbn [bind_result].
  rewrite copy_filled by (try (autorewrite with blen; done); cbn; lia).
  rewrite alloc_0 by (cbn; lia). unfold encode_option. by rewrite app_nil_r, <- app_assoc.
Qed.

Lemma buildIaAddr_ok ip p v :
  blen ip = 16 -> u32 p -> u32 v -> buildIaAddr ip p v = Ok (encode_option (ia_address ip p v)).
Proof.
  intros Hip Hp Hv. unfold buildIaAddr, writeUInt32BE. rewrite copy_filled_nil by lia.
  rewrite write_filled by (done || lia). cbn [bind_result].
  rewrite write_filled by (try (autorewrite with blen; lia); (done || lia)). cbn [bind_result].
  rewrite alloc_0 by lia. rewrite app_nil_r, <- app_assoc.
  apply (buildOption_ok (ia_address ip p v)). split; [done|]. cbn [snd ia_address]. autorewrite with blen. lia.
Qed.

Lemma buildIaNa_ok ia t1 t2 sub :
  blen ia = 4 -> u32 t1 -> u32 t2 -> blen (encode_option sub) < 65000 ->
  buildIaNa ia t1 t2 (encode_option sub) = Ok (encode_option (ia_na ia t1 t2 sub)).
Proof.
  intros Hia H1 H2 Hs. pose proof (blen_nonneg (encode_option sub)). unfold buildIaNa, writeUInt32BE.
  rewrite copy_filled_nil by lia. rewrite write_filled by (done || lia). cbn [bind_result].
  rewrite write_filled by (try (autorewrite with blen; lia); (done || lia)). cbn [bind_result].
  rewrite copy_filled by (autorewrite with blen; lia). rewrite alloc_0 by lia. rewrite app_nil_r, <- !app_assoc.
  apply (buildOption_ok (ia_na ia t1 t2 sub)). split; [done|]. cbn [snd ia_na]. autorewrite with blen. lia.
Qed.

Lemma buildStatusCode_ok code msg :
  0 <= code < 65536 -> blen msg < 65000 -> buildStatusCode code msg = Ok (encode_option (status_code code msg)).
Proof.
  intros Hc Hm. pose proof (blen_nonneg msg). unfold buildStatusCode, writeUInt16BE.
  rewrite write_filled_nil by (cbn; lia). cbn [bind_result].
  rewrite copy_filled by (try (autorewrite with blen; done); cbn; lia). rewrite alloc_0 by (cbn; lia). rewrite app_nil_r.
  apply (buildOption_ok (status_code code msg)). split; [done|]. cbn [snd status_code]. autorewrite with blen. lia.
Qed.

Lemma copy_options_filled opts pre room :
  blen (concat opts) <= room ->
  copy_options opts (pre ++ alloc room) (blen pre) = pre ++ concat opts ++ alloc (room - blen (concat opts)).
Proof.
  revert pre room. induction opts as [|o opts IH]; intros pre room Hr; cbn [copy_options concat].
  - cbn [app]. change (blen (@nil Z)) with 0. by rewrite Z.sub_0_r.
  - cbn [concat] in Hr. rewrite blen_app in Hr. rewrite blen_app. pose proof (blen_nonneg o). pose proof (blen_nonneg (concat opts)).
    rewrite copy_filled by (done || lia). replace (blen pre + blen o) with (blen (pre ++ o)) by (by rewrite blen_app).
    rewrite IH by lia. rewrite <- !app_assoc.
    by replace (room - blen o - blen (concat opts)) with (room - (blen o + blen (concat opts))) by lia.
Qed.

Lemma total_length (l : list buffer) n : fold_left (fun n o => n + blen o) l n = n + blen (concat l).
Proof.
  revert n. induction l as [|o l IH]; intros n; cbn [fold_left concat]; [change (blen (@nil Z)) with 0; lia|].
  rewrite IH, blen_app. lia.
Qed.

Lemma buildDhcp6Response_ok t tx opts :
  length tx = 3%nat ->
  buildDhcp6Response t tx (map encode_option opts) = Ok (dhcp6_message (msg_type_value t) tx opts).
Proof.
  intros Htx. unfold buildDhcp6Response. rewrite total_length. set (rest := concat (map encode_option opts)).
  pose proof (blen_nonneg rest). assert (blen tx = 3) as Hl by (by unfold blen; rewrite Htx).
  change (alloc (4 + blen rest)) with ([] ++ alloc (4 + blen rest)).
  rewrite write8_filled by (done || lia || (unfold is_byte; destruct t; cbn; lia)). cbn [bind_result app].
  change (msg_type_value t :: alloc (4 + blen rest - 1)) with ([msg_type_value t] ++ alloc (4 + blen rest - 1)).
  rewrite copy_filled by (done || lia). replace 4 with (blen ([msg_type_value t] ++ tx)) at 2 by (rewrite blen_app, Hl; done).
  rewrite copy_options_filled by (unfold rest in *; lia). rewrite alloc_0 by (unfold rest; lia).
  by rewrite app_nil_r, <- app_assoc.
Qed.

(** *** The parser reads it *)

Definition option_table (l : list (Z * buffer)) : gmap Z buffer :=
  fold_left (fun t o => <[fst o := snd o]> t) l ∅.

(** The head of a run of options starting at offset [blen a]. *)
Lemma option_head a o c :
  option_ok o ->
  let b := a ++ encode_option o ++ c in
  read_field 2 b (blen a) = fst o /\ read_field 2 b (blen a + 2) = blen (snd o) /\
  subarray b (blen a + 4) (blen a + 4 + blen (snd o)) = snd o /\ blen b = blen a + 4 + blen (snd o) + blen c.
Proof.
  intros [Hc Hl] b. destruct o as [code d]. cbn [fst snd] in *. unfold b, encode_option. cbn [fst snd].
  rewrite <- !app_assoc. pose proof (blen_nonneg d). split_and!.
  - rewrite read_field_mid by (done || (autorewrite with blen; done)). by apply (be_value_be_bytes 2).
  - rewrite app_assoc. rewrite read_field_mid by (autorewrite with blen; cbn; lia). apply (be_value_be_bytes 2). cbn. lia.
  - rewrite !app_assoc. rewrite <- (app_assoc _ d).
    replace (blen a + 4) with (blen ((a ++ be_bytes 2 code) ++ be_bytes 2 (blen d))) by (autorewrite with blen; cbn; lia).
    apply subarray_mid.
  - autorewrite with blen. cbn. lia.
Qed.

Lemma parse_options_run6 l fuel a t :
  Forall option_ok l -> (length l < fuel)%nat ->
  parse_options fuel (a ++ concat (map encode_option l)) (blen a) t =
  fold_left (fun t o => <[fst o := snd o]> t) l t.
Proof.
  revert fuel a t. induction l as [|o l IH]; intros fuel a t Hl Hf;
    (destruct fuel as [|f]; [cbn [length] in Hf; lia|]); cbn [parse_options map concat fold_left].
  - rewrite app_nil_r. by decide_test (blen a + 4 <=? blen a) false.
  - apply Forall_cons_iff in Hl as [Ho Hl]. set (rest := concat (map encode_option l)).
    destruct (option_head a o rest Ho) as (H1 & H2 & H3 & H4). pose proof (blen_nonneg rest). pose proof (blen_nonneg (snd o)).
    rewrite H1, H2, H3, H4.
    decide_test (blen a + 4 <=? blen a + 4 + blen (snd o) + blen rest) true.
    decide_test (blen a + 4 + blen (snd o) + blen rest <? blen a + 4 + blen (snd o)) false.
    rewrite app_assoc. replace (blen a + 4 + blen (snd o)) with (blen (a ++ encode_option o))
      by (rewrite blen_app, blen_encode_option6; lia).
    apply IH; [done | cbn [length] in Hf; lia].
Qed.

Lemma length_options6 l : (length l <= length (concat (map encode_option l)))%nat.
Proof.
  induction l as [|o l IH]; [done|]. cbn [map concat length]. rewrite length_app.
  pose proof (blen_encode_option6 o) as He. pose proof (blen_nonneg (snd o)). unfold blen in *. lia.
Qed.

Lemma parse_ia_step f ia j ip :
  parse_ia (S f) ia j ip =
  if j + 4 <=? blen ia then
    if (read_field 2 ia j =? opt_value IAADDR) && (24 <=? read_field 2 ia (j + 2)) then
      let! text := bufferToIpv6 (subarray ia (j + 4) (j + 4 + 16)) in
      parse_ia f ia (j + 4 + read_field 2 ia (j + 2)) (Some text)
    else parse_ia f ia (j + 4 + read_field 2 ia (j + 2)) ip
  else Ok ip.
Proof. reflexivity. Qed.

(** The identity association of a message: its address, as text. *)
Lemma parse_ia_address ia t1 t2 ip p v text :
  blen ia = 4 -> blen ip = 16 -> bufferToIpv6 ip = Ok text ->
  let d := snd (ia_na ia t1 t2 (ia_address ip p v)) in
  parse_ia (length d) d 12 None = Ok (Some text).
Proof.
  intros Hia Hip Ht d. assert (blen d = 40) as Hd.
  { unfold d. cbn [snd ia_na]. rewrite !blen_app, blen_encode_option6. cbn [snd ia_address]. autorewrite with blen. lia. }
  assert (length d = 40%nat) as Hlen by (unfold blen in Hd; lia). rewrite Hlen.
  set (h := ia ++ be_bytes 4 t1 ++ be_bytes 4 t2).
  assert (d = h ++ encode_option (ia_address ip p v) ++ []) as He by (unfold d, h; rewrite app_nil_r; cbn [snd ia_na]; by rewrite <- !app_assoc).
  assert (blen h = 12) as Hh by (unfold h; autorewrite with blen; lia).
  destruct (option_head h (ia_address ip p v) []) as (H1 & H2 & H3 & _).
  { split; [done|]. cbn [snd ia_address]. autorewrite with blen. lia. }
  rewrite <- He in *. rewrite Hh in *.
  assert (blen (snd (ia_address ip p v)) = 24) as Hb by (cbn [snd ia_address]; autorewrite with blen; lia). rewrite Hb in *.
  rewrite (parse_ia_step 39), Hd, H1, H2. cbn [fst ia_address]. rewrite !Z.eqb_refl. cbn [andb].
  change (12 + 4 <=? 40) with true. change (24 <=? 24) with true. cbv iota.
  assert (subarray d (12 + 4) (12 + 4 + 16) = ip) as ->.
  { transitivity (subarray (snd (ia_address ip p v)) 0 16).
    - rewrite <- H3. unfold subarray. change (Z.to_nat 0) with 0%nat. rewrite drop_0, take_take. f_equal.
    - cbn [snd ia_address]. rewrite subarray_app_left by lia. rewrite <- Hip, <- (app_nil_r ip) at 1. apply subarray_app_l. }
  rewrite Ht. cbn [bind_result]. rewrite (parse_ia_step 38), Hd. change (12 + 4 + 24 + 4 <=? 40) with false. done.
Qed.

Lemma option_fold_notin6 l t k :
  Forall (fun o => fst o <> k) l -> fold_left (fun t o => <[fst o := snd o]> t) l t !! k = (t : gmap Z buffer) !! k.
Proof.
  revert t. induction l as [|o l IH]; intros t; cbn [fold_left]; [done|]. rewrite Forall_cons_iff. intros [Ho Hl].
  rewrite IH by done. by rewrite lookup_insert_ne.
Qed.

Lemma option_table_mid6 a k d c :
  Forall (fun o => fst o <> k) c -> option_table (a ++ (k, d) :: c) !! k = Some d.
Proof.
  intros Hc. unfold option_table. rewrite fold_left_app. cbn [fold_left fst snd].
  rewrite option_fold_notin6 by done. apply lookup_insert_eq.
Qed.

(** What the parser makes of a message whose identity association is [ia]. *)
Definition packet_of (t : Z) (tx : buffer) (opts : list (Z * buffer)) (ia : buffer) (ip : option jsstring) : dhcp6_packet := {|
  msgType := t; txId := tx; options := option_table opts;
  clientDuid := hex_encode <$> option_table opts !! opt_value CLIENTID;
  serverDuid := hex_encode <$> option_table opts !! opt_value SERVERID;
  iaid := Some (hex_encode (subarray ia 0 4)); iaNaT1 := Some (read_field 4 ia 4); iaNaT2 := Some (read_field 4 ia 8);
  requestedIp := ip |}.

Lemma parse_message6 t tx opts ia ip :
  length tx = 3%nat -> Forall option_ok opts -> option_table opts !! opt_value IA_NA = Some ia -> 12 <= blen ia ->
  parse_ia (length ia) ia 12 None = Ok ip ->
  parseDhcp6Packet (dhcp6_message t tx opts) = Ok (Some (packet_of t tx opts ia ip)).
Proof.
  intros Htx Hopts Hia Hlen Hip. unfold parseDhcp6Packet, dhcp6_message. assert (blen tx = 3) as Hl by (unfold blen; by rewrite Htx).
  set (rest := concat (map encode_option opts)). pose proof (blen_nonneg rest).
  decide_test (blen ([t] ++ tx ++ rest) <? 4) false. set (b := [t] ++ tx ++ rest).
  assert (parse_options (length b) b 4 ∅ = option_table opts) as ->.
  { unfold b. rewrite app_assoc. replace 4 with (blen ([t] ++ tx)) by (rewrite blen_app, Hl; done). unfold rest.
    apply parse_options_run6; [done|]. pose proof (length_options6 opts). rewrite !length_app. cbn [length]. lia. }
  rewrite Hia. decide_test (12 <=? blen ia) true. rewrite Hip. cbn [bind_result].
  change (read_field 1 b 0) with (be_value [t]). rewrite be_value_1.
  assert (subarray b 1 4 = tx) as ->; [|done].
  unfold b. rewrite <- (subarray_mid [t] tx rest) at 2. by rewrite Hl.
Qed.
