(* ===== verification/Dhcp6Worker.v ===== *)
(** The DHCPv6 server: src/electron/worker/dhcp/dhcp6Worker.js and dhcp6Lease.js.

    As in the DHCPv4 server, leases are kept by client (the DUID in hexadecimal) and by
    address, and handlers are actions on that state.  The address search of [allocateIp]
    is a loop over the pool with a bound on its turns; [search_enough] shows the bound is
    never reached, so the code's unbounded loop ends with the same result. *)

From stdpp Require Import base list numbers strings option gmap.
From Stdlib Require Import ZArith Lia.
From S2P Require Import Prelude Actions NodePath JsText JsMap Ipv6Text Dhcp6Packet.

Local Open Scope Z_scope.
Local Open Scope js_scope.

(** ** Leases *)

Record Dhcp6Lease := {
  duid : jsstring; lease_ip : jsstring; lease_iaid : jsstring;
  lease_preferred : Z; lease_valid : Z; startTime : Z; expiresAt : Z
}.

#[export] Instance Dhcp6Lease_rebuild : Rebuild Dhcp6Lease := fun l => {|
  duid := duid l; lease_ip := lease_ip l; lease_iaid := lease_iaid l; lease_preferred := lease_preferred l;
  lease_valid := lease_valid l; startTime := startTime l; expiresAt := expiresAt l |}.

Definition Dhcp6Lease_new (duid ip iaid : jsstring) (preferred valid now : Z) : Dhcp6Lease := {|
  duid := duid; lease_ip := ip; lease_iaid := iaid; lease_preferred := preferred; lease_valid := valid;
  startTime := now; expiresAt := now + valid * 1000 |}.

Definition isExpired (now : Z) (l : Dhcp6Lease) : bool := expiresAt l <? now.

Definition renew (preferred valid now : Z) (l : Dhcp6Lease) : Dhcp6Lease :=
  l <| lease_preferred := preferred |> <| lease_valid := valid |> <| startTime := now |>
    <| expiresAt := now + valid * 1000 |>.

Inductive lease_status := active | expired.

(** [getInfo()]: the lease and its status; the times are rendered as local text there. *)
Definition getInfo (now : Z) (l : Dhcp6Lease) : Dhcp6Lease * lease_status :=
  (l, if isExpired now l then expired else active).

(** ** The worker *)

Record dhcp6_config := {
  serverPort : option Z;   (* [None]: not a whole number *)
  cfg_poolStart : jsstring; cfg_poolEnd : jsstring;
  preferredLifetime : Z; validLifetime : Z;
  dns1 : jsstring; dns2 : jsstring
}.

Record Dhcp6Worker := {
  server : socket_state;
  config : option dhcp6_config;
  own_duid : buffer;
  leaseMap : jmap (list Z) Dhcp6Lease;
  ipToClient : jmap (list Z) (list Z);
  poolStartBuf : option buffer; poolEndBuf : option buffer;
  leaseTimer : bool
}.

#[export] Instance Dhcp6Worker_rebuild : Rebuild Dhcp6Worker := fun w => {|
  server := server w; config := config w; own_duid := own_duid w; leaseMap := leaseMap w;
  ipToClient := ipToClient w; poolStartBuf := poolStartBuf w; poolEndBuf := poolEndBuf w;
  leaseTimer := leaseTimer w |}.

(** The server's DUID: type 3, hardware type 1 and six random bytes. *)
Definition generateServerDuid (random : list Z) : buffer := [0; 3; 0; 1] ++ random.

Definition Dhcp6Worker_new (random : list Z) : Dhcp6Worker := {|
  server := Closed; config := None; own_duid := generateServerDuid random; leaseMap := []; ipToClient := [];
  poolStartBuf := None; poolEndBuf := None; leaseTimer := false |}.

Record rinfo := { address : jsstring; port : Z }.

Inductive lease_event :=
| LeaseAdd (data : Dhcp6Lease * lease_status)
| LeaseUpdate (data : Dhcp6Lease * lease_status)
| LeaseRemove (duid ip : jsstring).

Inductive dhcp6_effect :=
| ServerSend (response : buffer) (destPort : Z) (destAddress : jsstring)
| SendEvent (e : lease_event)
| SendSuccess (messageId : Z) (data : option (list (Dhcp6Lease * lease_status)))
| SendError (messageId : Z)
| Bind (listenPort : Z)
| AddMembership (iface : jsstring)
| CloseServer
| SetInterval (ms : Z)
| ClearInterval.

Abbreviation action := (action_of Dhcp6Worker dhcp6_effect).
Abbreviation attempt := (attempt_of Dhcp6Worker dhcp6_effect).

Definition with_config (k : dhcp6_config -> attempt) : attempt :=
  this! w => match config w with Some c => k c | None => raise TypeError end.

Definition attempt_result {A} (r : result A) (k : A -> attempt) : attempt :=
  match r with Ok a => k a | Throw e => raise e end.

(** ** Allocation *)

Inductive search :=
| Found (ip : jsstring)
| Exhausted
| Failed (e : js_exn)
| OutOfTurns.

(** [while (Buffer.compare(cur, this.poolEndBuf) <= 0)] *)
Fixpoint search_pool (turns : nat) (cur last : buffer) (taken : jmap (list Z) (list Z)) : search :=
  match turns with
  | O => OutOfTurns
  | S t =>
    match buffer_compare cur last with
    | Gt => Exhausted
    | _ =>
      match bufferToIpv6 cur with
      | Throw e => Failed e
      | Ok ip => if negb (jmap_has taken ip) then Found ip else search_pool t (incrementIpv6 cur) last taken
      end
    end
  end.

Definition allocateIp (clientDuid : jsstring) (w : Dhcp6Worker) : search :=
  match jmap_get (leaseMap w) clientDuid with
  | Some l => Found (lease_ip l)
  | None =>
    match poolStartBuf w, poolEndBuf w with
    | Some first, Some last => search_pool (S (length (ipToClient w))) first last (ipToClient w)
    | _, _ => Failed TypeError
    end
  end.

(** The address of a search; [null] when the pool is exhausted. *)
Definition with_search (s : search) (k : option jsstring -> attempt) : attempt :=
  match s with
  | Found ip => k (Some ip)
  | Exhausted => k None
  | Failed e => raise e
  | OutOfTurns => raise (ErrorMsg "the search goes on")
  end.

(** ** Handlers *)

Definition is_text (s : jsstring) : bool := bool_decide (s <> []).

Fixpoint map_result {A B} (f : A -> result B) (l : list A) : result (list B) :=
  match l with
  | [] => Ok []
  | x :: tl =>
    let! y := f x in
    let! ys := map_result f tl in
    Ok (y :: ys)
  end.

Definition dns_options (c : dhcp6_config) : result (list buffer) :=
  if is_text (dns1 c) || is_text (dns2 c) then
    let! dnsList := map_result ipv6ToBuffer (List.filter is_text [dns1 c; dns2 c]) in
    let! o := buildOption (opt_value DNS_SERVERS) (concat dnsList) in
    Ok [o]
  else Ok [].

(** The identity association that grants an address. *)
Definition build_grant (c : dhcp6_config) (iaid assignedIp : jsstring) : result buffer :=
  let t1 := validLifetime c / 2 in
  let t2 := validLifetime c * 7 / 8 in
  let! ip := ipv6ToBuffer assignedIp in
  let! iaAddrOpt := buildIaAddr ip (preferredLifetime c) (validLifetime c) in
  buildIaNa (hex_decode iaid) t1 t2 iaAddrOpt.

(** The identity association that carries a status only. *)
Definition build_status (iaid : jsstring) (code : Z) (msg : jsstring) : result buffer :=
  let! status := buildStatusCode code msg in
  buildIaNa (hex_decode iaid) 0 0 status.

Definition build_reply (t : DHCP6_MSG_TYPES) (txId own : buffer) (client : jsstring) (ia : result buffer)
    (tail : result (list buffer)) : result buffer :=
  let! iaNaOpt := ia in
  let! server := buildOption (opt_value SERVERID) own in
  let! client := buildOption (opt_value CLIENTID) (hex_decode client) in
  let! tail := tail in
  buildDhcp6Response t txId ([server; client; iaNaOpt] ++ tail).

Definition send_to (r : rinfo) (message : result buffer) : attempt :=
  attempt_result message (fun resp =>
    this! w =>
      match server w with
      | Closed => raise TypeError
      | _ => returns (emit (ServerSend resp (port r) (address r)))
      end).

Definition handleSolicit (p : dhcp6_packet) (r : rinfo) : attempt :=
  match clientDuid p, iaid p with
  | Some (d :: ds), Some (i :: is_) =>
    let client := d :: ds in
    this! w =>
      with_search (allocateIp client w) (fun ip =>
        match ip with
        | None => returns skip
        | Some assignedIp =>
          with_config (fun c =>
            send_to r (build_reply ADVERTISE (txId p) (own_duid w) client (build_grant c (i :: is_) assignedIp) (dns_options c)))
        end)
  | _, _ => returns skip
  end.

(** The lease of a request: renewed, or new. *)
Definition record_lease (client ip ia : jsstring) (c : dhcp6_config) (now : Z) : action :=
  this w =>
    match jmap_get (leaseMap w) client with
    | Some lease =>
      let lease := renew (preferredLifetime c) (validLifetime c) now lease in
      assign (fun w => w <| leaseMap := jmap_set (leaseMap w) client lease |>) ;;;
      emit (SendEvent (LeaseUpdate (getInfo now lease)))
    | None =>
      let lease := Dhcp6Lease_new client ip ia (preferredLifetime c) (validLifetime c) now in
      assign (fun w => w <| leaseMap := jmap_set (leaseMap w) client lease |>) ;;;
      assign (fun w => w <| ipToClient := jmap_set (ipToClient w) ip client |>) ;;;
      emit (SendEvent (LeaseAdd (getInfo now lease)))
    end.

Definition handleRequest (p : dhcp6_packet) (r : rinfo) (now : Z) : attempt :=
  match clientDuid p, iaid p with
  | Some (d :: ds), Some (i :: is_) =>
    let client := d :: ds in
    let ia := i :: is_ in
    this! w =>
      let elsewhere := match serverDuid p with
                       | Some s => is_text s && negb (bool_decide (s = hex_encode (own_duid w)))
                       | None => false
                       end in
      if elsewhere then returns skip
      else
        with_search (match requestedIp p with
                     | Some (x :: xs) => Found (x :: xs)
                     | _ => allocateIp client w
                     end) (fun ip =>
          match ip with
          | None =>
            send_to r (build_reply REPLY (txId p) (own_duid w) client
              (build_status ia STATUS_NO_ADDRS_AVAIL (js "No addresses available")) (Ok []))
          | Some assignedIp =>
            with_config (fun c =>
              returns (record_lease client assignedIp ia c now) ;;!
              send_to r (build_reply REPLY (txId p) (own_duid w) client (build_grant c ia assignedIp) (dns_options c)))
          end)
  | _, _ => returns skip
  end.

Definition remove_lease (client ip : jsstring) : action :=
  assign (fun w => w <| ipToClient := jmap_delete (ipToClient w) ip |>) ;;;
  assign (fun w => w <| leaseMap := jmap_delete (leaseMap w) client |>) ;;;
  emit (SendEvent (LeaseRemove client ip)).

Definition release_client (client : jsstring) : action :=
  this w =>
    match jmap_get (leaseMap w) client with
    | Some lease => remove_lease client (lease_ip lease)
    | None => skip
    end.

Definition handleRelease (p : dhcp6_packet) (r : rinfo) : attempt :=
  match clientDuid p with
  | Some (d :: ds) =>
    returns (release_client (d :: ds)) ;;!
    match iaid p with
    | Some (i :: is_) =>
      this! w =>
        send_to r (build_reply REPLY (txId p) (own_duid w) (d :: ds)
          (build_status (i :: is_) STATUS_SUCCESS (js "Released")) (Ok []))
    | _ => returns skip
    end
  | _ => returns skip
  end.

Definition swallow (a : attempt) : action := fun w => fst (a w).

Definition on_message (msg : buffer) (r : rinfo) (now : Z) : action :=
  match parseDhcp6Packet msg with
  | Throw _ | Ok None => skip
  | Ok (Some p) =>
    match msgType p with
    | 1 => swallow (handleSolicit p r)
    | 3 | 4 | 5 | 6 => swallow (handleRequest p r now)
    | 8 => swallow (handleRelease p r)
    | _ => skip
    end
  end.

(** ** Start, stop and leases *)

Definition clear_state : action :=
  assign (fun w => w <| leaseMap := [] |>) ;;;
  assign (fun w => w <| ipToClient := [] |>) ;;;
  assign (fun w => w <| config := None |>) ;;;
  assign (fun w => w <| poolStartBuf := None |>) ;;;
  assign (fun w => w <| poolEndBuf := None |>).

Definition stop_timer : action :=
  this w =>
    if leaseTimer w then emit ClearInterval ;;; assign (fun w => w <| leaseTimer := false |>) else skip.

(** [cleanupFailedStart(server)]; the socket passed is the worker's own, or none. *)
Definition cleanupFailedStart (socket : bool) : action :=
  stop_timer ;;;
  (if socket then assign (fun w => w <| server := Closed |>) ;;; emit CloseServer else skip) ;;;
  clear_state.

(** The pool texts are read before the socket exists; [createSocket] is taken to succeed. *)
Definition startDhcp6 (messageId : Z) (c : dhcp6_config) : action :=
  assign (fun w => w <| config := Some c |>) ;;;
  match ipv6ToBuffer (cfg_poolStart c) with
  | Throw _ => cleanupFailedStart false ;;; emit (SendError messageId)
  | Ok first =>
    assign (fun w => w <| poolStartBuf := Some first |>) ;;;
    match ipv6ToBuffer (cfg_poolEnd c) with
    | Throw _ => cleanupFailedStart false ;;; emit (SendError messageId)
    | Ok last =>
      assign (fun w => w <| poolEndBuf := Some last |>) ;;;
      assign (fun w => w <| server := Binding |>) ;;;
      emit (Bind (default 547 (serverPort c)))
    end
  end.

Record iface := { iface_family : jsstring; iface_internal : bool; iface_address : jsstring }.

Definition on_bound (messageId : Z) (ifaces : list (list iface)) : action :=
  this w =>
    match server w with
    | Closed => skip
    | _ =>
      assign (fun w => w <| server := Listening |>) ;;;
      each (List.filter (fun i => bool_decide (iface_family i = js "IPv6") && negb (iface_internal i)) (concat ifaces))
        (fun i => emit (AddMembership (iface_address i))) ;;;
      emit (SendSuccess messageId None) ;;;
      assign (fun w => w <| leaseTimer := true |>) ;;;
      emit (SetInterval 60000)
    end.

Definition on_error (messageId : Z) : action :=
  this w =>
    match server w with
    | Binding => cleanupFailedStart true ;;; emit (SendError messageId)
    | _ => skip
    end.

Definition stopDhcp6 (messageId : Z) : action :=
  stop_timer ;;;
  (this w =>
     match server w with
     | Closed => skip
     | _ => emit CloseServer ;;; assign (fun w => w <| server := Closed |>)
     end) ;;;
  clear_state ;;;
  emit (SendSuccess messageId None).

Definition getLeaseList (messageId now : Z) : action :=
  this w => emit (SendSuccess messageId (Some (map (getInfo now) (jmap_values (leaseMap w))))).

Definition releaseLease (messageId : Z) (client : jsstring) : action :=
  this w =>
    match jmap_get (leaseMap w) client with
    | Some lease => remove_lease client (lease_ip lease) ;;; emit (SendSuccess messageId None)
    | None => emit (SendError messageId)
    end.

Definition checkExpiredLeases (now : Z) : action :=
  this w => each (map fst (List.filter (fun e => isExpired now (snd e)) (leaseMap w))) release_client.

(** ** The search of the pool *)

Definition address_ok (b : buffer) : Prop := length b = 16%nat /\ bytes_ok b.

Lemma be_bytes_address v : address_ok (be_bytes 16 v).
Proof. split; [apply length_be_bytes | apply bytes_ok_be_bytes]. Qed.

(** The text of the address with number [n]. *)
Definition address_text (n : Z) : option jsstring :=
  match bufferToIpv6 (be_bytes 16 n) with
  | Ok t => Some t
  | Throw _ => None
  end.

Lemma address_text_ok n : exists t, bufferToIpv6 (be_bytes 16 n) = Ok t /\ address_text n = Some t.
Proof.
  destruct (be_bytes_address n) as [Hl Hb]. destruct (ipv6_text_roundtrip _ Hl Hb) as (t & Ht & _).
  exists t. split; [done|]. unfold address_text. by rewrite Ht.
Qed.

Lemma address_text_inj a b t :
  0 <= a < 2 ^ 128 -> 0 <= b < 2 ^ 128 -> address_text a = Some t -> address_text b = Some t -> a = b.
Proof.
  intros Ha Hb Hta Htb. destruct (address_text_ok a) as (ta & Ea & Fa). destruct (address_text_ok b) as (tb & Eb & Fb).
  destruct (be_bytes_address a), (be_bytes_address b).
  assert (be_bytes 16 a = be_bytes 16 b) as He by (eapply (bufferToIpv6_inj _ _ t); (done || congruence)).
  rewrite <- (be_value_be_bytes 16 a), <- (be_value_be_bytes 16 b) by done. by rewrite He.
Qed.

Definition taken_number (taken : jmap (list Z) (list Z)) (n : Z) : Prop :=
  exists t, address_text n = Some t /\ jmap_has taken t = true.

Lemma incrementIpv6_number n : 0 <= n < 2 ^ 128 -> incrementIpv6 (be_bytes 16 n) = be_bytes 16 ((n + 1) mod 2 ^ 128).
Proof.
  intros Hn. destruct (be_bytes_address n). rewrite incrementIpv6_value by done. by rewrite (be_value_be_bytes 16) by done.
Qed.

Lemma compare_numbers a b :
  0 <= a < 2 ^ 128 -> 0 <= b < 2 ^ 128 -> buffer_compare (be_bytes 16 a) (be_bytes 16 b) = (a ?= b).
Proof.
  intros Ha Hb. destruct (be_bytes_address a), (be_bytes_address b). rewrite buffer_compare_value by congruence || done.
  by rewrite !(be_value_be_bytes 16) by done.
Qed.

Lemma search_spec turns n m taken :
  0 <= n -> 0 <= m -> n <= m + 1 -> m + 1 < 2 ^ 128 ->
  match search_pool turns (be_bytes 16 n) (be_bytes 16 m) taken with
  | Found t => exists k, n <= k <= m /\ address_text k = Some t /\ jmap_get taken t = None /\
                 forall j, n <= j < k -> taken_number taken j
  | Exhausted => forall j, n <= j <= m -> taken_number taken j
  | Failed _ => False
  | OutOfTurns => forall j, n <= j < n + Z.of_nat turns -> j <= m /\ taken_number taken j
  end.
Proof.
  revert n. induction turns as [|t IH]; intros n Hn Hm0 Hnm Hm; cbn [search_pool]; [intros j Hj; lia|].
  rewrite compare_numbers by lia. destruct (Z.compare_spec n m) as [He|Hlt|Hgt]; [| |intros j Hj; lia].
  all: destruct (address_text_ok n) as (text & Ht & Hat); rewrite Ht; destruct (jmap_has taken text) eqn:Eh; cbn [negb];
    [|exists n; apply jmap_has_false in Eh; split_and!; try done; try lia; intros j Hj; lia].
  all: assert (taken_number taken n) as Htn by (by exists text).
  all: rewrite incrementIpv6_number, (Z.mod_small (n + 1)) by lia; specialize (IH (n + 1) ltac:(lia) Hm0 ltac:(lia) Hm).
  all: destruct (search_pool t _ _ _).
  all: try done.
  all: try (destruct IH as (k & Hk & _); exfalso; lia).
  all: try (destruct IH as (k & Hk & Hkt & Hfree & Hall); exists k; split_and!; try done; try lia;
            intros j Hj; destruct (decide (j = n)) as [->|]; [done | apply Hall; lia]).
  all: intros j Hj; destruct (decide (j = n)) as [->|]; [done || (split; [lia | done]) | apply IH; lia].
Qed.

(** The texts of [n] consecutive addresses are all different. *)
Lemma consecutive_texts n k :
  0 <= n -> n + Z.of_nat k <= 2 ^ 128 ->
  exists ts, length ts = k /\ NoDup ts /\ forall t, t ∈ ts -> exists j, n <= j < n + Z.of_nat k /\ address_text j = Some t.
Proof.
  revert n. induction k as [|k IH]; intros n Hn Hk.
  - exists []. split; [done|]. split; [constructor|]. intros t Ht. by apply elem_of_nil in Ht.
  - destruct (IH (n + 1)) as (ts & Hl & Hnd & Hts); [lia | lia |]. destruct (address_text_ok n) as (t & _ & Ht).
    exists (t :: ts). split; [cbn [length]; lia|]. split.
    + constructor; [|done]. intros Hin. destruct (Hts _ Hin) as (j & Hj & Htj).
      assert (n = j) by (apply (address_text_inj n j t); (done || lia)). lia.
    + intros t' Hin. apply elem_of_cons in Hin as [->|Hin]; [exists n; split; [lia | done]|].
      destruct (Hts _ Hin) as (j & Hj & Htj). exists j. split; [lia | done].
Qed.

(** The bound on the turns is never reached: there are too few taken addresses. *)
Lemma search_enough n m taken :
  0 <= n -> 0 <= m -> n <= m + 1 -> m + 1 < 2 ^ 128 ->
  search_pool (S (length taken)) (be_bytes 16 n) (be_bytes 16 m) taken <> OutOfTurns.
Proof.
  intros Hn Hm0 Hnm Hm He. pose proof (search_spec (S (length taken)) n m taken Hn Hm0 Hnm Hm) as Hs. rewrite He in Hs.
  destruct (consecutive_texts n (S (length taken))) as (ts & Hl & Hnd & Hts); [done | |].
  { destruct (Hs (n + Z.of_nat (length taken))) as [? _]; lia. }
  assert (length ts <= length (jmap_keys taken))%nat as Hle.
  { apply submseteq_length, NoDup_submseteq; [done|]. intros t Ht. destruct (Hts t Ht) as (j & Hj & Htj).
    destruct (Hs j Hj) as (_ & t' & Ht' & Hh). assert (t' = t) as -> by congruence.
    apply jmap_has_true in Hh as (v & Hv). destruct (decide (t ∈ jmap_keys taken)) as [|Hnot]; [done|].
    apply jmap_get_None in Hnot. congruence. }
  unfold jmap_keys in Hle. rewrite length_map in Hle. lia.
Qed.

(** ** Events *)

Inductive dhcp6_op :=
| OpStart (messageId : Z) (c : dhcp6_config)
| OpBound (messageId : Z) (ifaces : list (list iface))
| OpError (messageId : Z)
| OpMessage (msg : buffer) (r : rinfo) (now : Z)
| OpTimer (now : Z)
| OpStop (messageId : Z)
| OpList (messageId now : Z)
| OpRelease (messageId : Z) (client : jsstring).

Definition run_op (o : dhcp6_op) : action :=
  match o with
  | OpStart id c => startDhcp6 id c
  | OpBound id ifaces => on_bound id ifaces
  | OpError id => on_error id
  | OpMessage msg r now => on_message msg r now
  | OpTimer now => checkExpiredLeases now
  | OpStop id => stopDhcp6 id
  | OpList id now => getLeaseList id now
  | OpRelease id client => releaseLease id client
  end.

(** As for the DHCPv4 server: started when stopped, datagrams while listening. *)
Definition enabled (o : dhcp6_op) (w : Dhcp6Worker) : Prop :=
  match o with
  | OpStart _ _ => server w = Closed
  | OpBound _ _ => server w = Binding
  | OpMessage msg _ _ => server w = Listening /\ bytes_ok msg
  | OpTimer _ => leaseTimer w = true
  | _ => True
  end.

Inductive dhcp6_reachable (random : list Z) : Dhcp6Worker -> Prop :=
| dhcp6_start : dhcp6_reachable random (Dhcp6Worker_new random)
| dhcp6_next o w : dhcp6_reachable random w -> enabled o w -> dhcp6_reachable random (fst (run_op o w)).

(** Kept by every event: the address table has each address once, the DUID does not change. *)
Definition basic_ok (random : list Z) (w : Dhcp6Worker) : Prop :=
  jmap_ok (ipToClient w) /\ own_duid w = generateServerDuid random.

Section Basic.
Context {random : list Z}.

Abbreviation kept a := (keeps (basic_ok random) (fun _ : dhcp6_effect => True) a).

Lemma kept_assign f :
  (forall w, jmap_ok (ipToClient w) -> jmap_ok (ipToClient (f w))) -> (forall w, own_duid (f w) = own_duid w) ->
  kept (assign f).
Proof. intros H1 H2. apply keeps_assign. intros w [Hi Hd]. split; [by apply H1 | by rewrite H2]. Qed.

Lemma kept_emit e : kept (emit e).
Proof. by apply keeps_emit. Qed.

Lemma kept_this (k : Dhcp6Worker -> action) : (forall w, kept (k w)) -> kept (get_this k).
Proof. intros Hk w Hw. by apply Hk. Qed.

Lemma kept_skip : kept skip.
Proof. apply keeps_skip. Qed.

(** An attempt keeps the state facts when its state does. *)
Definition kept_attempt (a : attempt) : Prop := forall w, basic_ok random w -> basic_ok random (fst (fst (a w))).

Lemma kept_swallow a : kept_attempt a -> kept (swallow a).
Proof. intros Ha w Hw. split; [by apply Ha | by apply Forall_true]. Qed.

Lemma kept_returns a : kept a -> kept_attempt (returns a).
Proof. intros Ha w Hw. by apply Ha. Qed.

Lemma kept_raise e : kept_attempt (raise e).
Proof. by intros w Hw. Qed.

Lemma kept_attempt_this k : (forall w, kept_attempt (k w)) -> kept_attempt (attempt_this k).
Proof. intros Hk w Hw. by apply Hk. Qed.

Lemma kept_seq_attempt a b : kept_attempt a -> kept_attempt b -> kept_attempt (seq_attempt a b).
Proof.
  intros Ha Hb w Hw. specialize (Ha w Hw). unfold seq_attempt. destruct (a w) as [[w1 o1] [e|]]; [done|].
  cbn [fst] in Ha. specialize (Hb w1 Ha). by destruct (b w1) as [[w2 o2] x].
Qed.

Lemma kept_send r m : kept_attempt (send_to r m).
Proof.
  unfold send_to, attempt_result. destruct m; [|apply kept_raise]. apply kept_attempt_this. intros w.
  destruct (server w); [apply kept_raise | by apply kept_returns, kept_emit | by apply kept_returns, kept_emit].
Qed.

Lemma kept_config k : (forall c, kept_attempt (k c)) -> kept_attempt (with_config k).
Proof. intros Hk. apply kept_attempt_this. intros w. destruct (config w); [apply Hk | apply kept_raise]. Qed.

Lemma kept_search s k : (forall ip, kept_attempt (k ip)) -> kept_attempt (with_search s k).
Proof. intros Hk. destruct s; cbn [with_search]; first [apply Hk | apply kept_raise]. Qed.
End Basic.

(** Walk through a handler, case by case. *)
Ltac keep :=
  cbv zeta;
  repeat lazymatch goal with
  | |- forall _, _ => intro
  | |- keeps _ _ (match ?x with _ => _ end) => destruct x
  | |- keeps _ _ (seq_action _ _) => apply keeps_seq
  | |- keeps _ _ (emit _) => apply kept_emit
  | |- keeps _ _ (get_this _) => apply kept_this
  | |- keeps _ _ skip => apply kept_skip
  | |- keeps _ _ (each _ _) => apply keeps_each
  | |- keeps _ _ (swallow _) => apply kept_swallow
  | |- keeps _ _ (assign _) =>
    apply kept_assign; intros;
      [first [assumption | by apply jmap_ok_delete | by apply jmap_ok_set | apply jmap_ok_nil] | reflexivity]
  | |- kept_attempt (match ?x with _ => _ end) => destruct x
  | |- kept_attempt (returns _) => apply kept_returns
  | |- kept_attempt (raise _) => apply kept_raise
  | |- kept_attempt (attempt_this _) => apply kept_attempt_this
  | |- kept_attempt (seq_attempt _ _) => apply kept_seq_attempt
  | |- kept_attempt (send_to _ _) => apply kept_send
  | |- kept_attempt (with_config _) => apply kept_config
  | |- kept_attempt (with_search _ _) => apply kept_search
  end.

Lemma message_kept random msg r now : keeps (basic_ok random) (fun _ => True) (on_message msg r now).
Proof.
  unfold on_message, handleSolicit, handleRequest, record_lease, handleRelease, release_client, remove_lease. keep.
Qed.

Lemma reachable_basic random w : dhcp6_reachable random w -> basic_ok random w.
Proof.
  induction 1 as [|o w _ IH _]; [by split; [apply jmap_ok_nil|]|].
  refine (proj1 ((_ : keeps (basic_ok random) (fun _ => True) (run_op o)) w IH)).
  destruct o; cbn [run_op]; [| | | apply message_kept | | | |];
    unfold startDhcp6, on_bound, on_error, cleanupFailedStart, stopDhcp6, stop_timer, clear_state, getLeaseList,
      releaseLease, checkExpiredLeases, release_client, remove_lease; keep.
Qed.

(** ** What the replies say *)

Definition dns_ok (t : jsstring) : Prop := t = [] \/ exists b, ipv6ToBuffer t = Ok b.

Record config_ok (c : dhcp6_config) : Prop := {
  cfg_preferred : u32 (preferredLifetime c);
  cfg_valid : u32 (validLifetime c);
  cfg_dns1 : dns_ok (dns1 c);
  cfg_dns2 : dns_ok (dns2 c)
}.

(** The DUID and the association identifier of a client. *)
Definition client_ok (client ia : buffer) : Prop :=
  client <> [] /\ bytes_ok client /\ blen client < 65536 /\ length ia = 4%nat /\ bytes_ok ia.

Lemma map_result_lengths l bs : map_result ipv6ToBuffer l = Ok bs -> blen (concat bs) = 16 * blen l.
Proof.
  revert bs. induction l as [|x l IH]; intros bs; cbn [map_result]; [by intros [= <-]|].
  intros H. apply bind_ok in H as (y & Hy & H). apply bind_ok in H as (ys & Hys & H). injection H as <-.
  cbn [concat]. rewrite blen_app, blen_cons, (IH ys Hys). apply ipv6ToBuffer_length in Hy. unfold blen at 1. rewrite Hy. lia.
Qed.

Lemma map_result_ok l : Forall (fun t => exists b, ipv6ToBuffer t = Ok b) l -> exists bs, map_result ipv6ToBuffer l = Ok bs.
Proof.
  induction 1 as [|t l [b Hb] Hl [bs Hbs]]; [by exists []|]. exists (b :: bs). cbn [map_result]. by rewrite Hb, Hbs.
Qed.

Lemma dns_options_ok c :
  config_ok c -> exists l, dns_options c = Ok (map encode_option l) /\ Forall option_ok l /\ Forall (fun o => fst o = 23) l.
Proof.
  intros [_ _ H1 H2]. unfold dns_options. set (servers := List.filter is_text [dns1 c; dns2 c]).
  assert (forall t, dns_ok t -> is_text t = true -> exists b, ipv6ToBuffer t = Ok b) as Hd by (intros t [->|?]; [by unfold is_text | done]).
  assert (Forall (fun t => exists b, ipv6ToBuffer t = Ok b) servers /\ blen servers <= 2) as [Hs Hn].
  { unfold servers. cbn [List.filter]. destruct (is_text (dns1 c)) eqn:E1, (is_text (dns2 c)) eqn:E2;
      (split; [repeat (apply Forall_cons_2; [by apply Hd|]); constructor | done]). }
  destruct (is_text (dns1 c) || is_text (dns2 c)); [|exists []; done].
  destruct (map_result_ok servers Hs) as [bs Hbs]. rewrite Hbs. cbn [bind_result].
  assert (option_ok (opt_value DNS_SERVERS, concat bs)) as Ho.
  { split; [done|]. cbn [snd]. rewrite (map_result_lengths servers bs Hbs). lia. }
  exists [(opt_value DNS_SERVERS, concat bs)].
  pose proof (buildOption_ok _ Ho) as Hb. cbn [fst snd] in Hb. rewrite Hb. cbn [bind_result map].
  split; [done|]. split; (constructor; [done | constructor]).
Qed.

Lemma build_grant_ok c ia ip t :
  config_ok c -> length ia = 4%nat -> bytes_ok ia -> ipv6ToBuffer t = Ok ip ->
  build_grant c (hex_encode ia) t =
  Ok (encode_option (ia_na ia (validLifetime c / 2) (validLifetime c * 7 / 8)
        (ia_address ip (preferredLifetime c) (validLifetime c)))).
Proof.
  intros [Hp Hv _ _] Hl Hb Ht. unfold build_grant. rewrite Ht. cbn [bind_result]. apply ipv6ToBuffer_length in Ht.
  assert (blen ip = 16) as Hip by (unfold blen; by rewrite Ht). rewrite buildIaAddr_ok by done. cbn [bind_result].
  rewrite hex_decode_encode by done. unfold u32 in *. apply buildIaNa_ok.
  - unfold blen. by rewrite Hl.
  - unfold u32. zdiv.
  - unfold u32. zdiv.
  - rewrite blen_encode_option6. cbn [snd ia_address]. autorewrite with blen. lia.
Qed.

Lemma ia_na_ok ia t1 t2 sub : length ia = 4%nat -> blen (snd sub) < 60000 -> option_ok (ia_na ia t1 t2 sub).
Proof.
  intros Hl Hs. split; [done|]. cbn [snd ia_na]. rewrite !blen_app, blen_encode_option6, !blen_be_bytes.
  unfold blen at 1. rewrite Hl. lia.
Qed.

Lemma build_reply_ok t tx own client o dns :
  length tx = 3%nat -> blen own < 65536 -> bytes_ok client -> blen client < 65536 ->
  build_reply t tx own (hex_encode client) (Ok (encode_option o)) (Ok (map encode_option dns)) =
  Ok (dhcp6_message (msg_type_value t) tx ([(2, own); (1, client); o] ++ dns)).
Proof.
  intros Htx Ho Hb Hc. unfold build_reply. cbn [bind_result].
  change (opt_value SERVERID) with 2. change (opt_value CLIENTID) with 1.
  pose proof (buildOption_ok (2, own)) as H2. cbn [fst snd] in H2. rewrite H2 by done. cbn [bind_result].
  rewrite hex_decode_encode by done.
  pose proof (buildOption_ok (1, client)) as H1. cbn [fst snd] in H1. rewrite H1 by done. cbn [bind_result].
  by apply (buildDhcp6Response_ok t tx ([(2, own); (1, client); o] ++ dns)).
Qed.

(** A reply that grants an address, as a client reads it. *)
Lemma read_grant t tx own client ia t1 t2 ip p v dns text :
  length tx = 3%nat -> blen own < 65536 -> blen client < 65536 -> length ia = 4%nat -> bytes_ok ia -> blen ip = 16 ->
  bufferToIpv6 ip = Ok text -> Forall option_ok dns -> Forall (fun o => fst o = 23) dns ->
  exists q, parseDhcp6Packet (dhcp6_message t tx ([(2, own); (1, client); ia_na ia t1 t2 (ia_address ip p v)] ++ dns)) = Ok (Some q) /\
    msgType q = t /\ txId q = tx /\ clientDuid q = Some (hex_encode client) /\ serverDuid q = Some (hex_encode own) /\
    iaid q = Some (hex_encode ia) /\ requestedIp q = Some text.
Proof.
  intros Htx Ho Hc Hia Hib Hip Htext Hdns Hcodes. set (o := ia_na ia t1 t2 (ia_address ip p v)).
  assert (blen (snd (ia_address ip p v)) = 24) as H24 by (cbn [snd ia_address]; autorewrite with blen; lia).
  assert (blen ia = 4) as Hia4 by (unfold blen; by rewrite Hia).
  assert (forall a k d c, [(2, own); (1, client); o] = a ++ (k, d) :: c -> k <> 23 -> Forall (fun o => fst o <> k) c ->
    option_table ([(2, own); (1, client); o] ++ dns) !! k = Some d) as Hat.
  { intros a k d c -> Hk Hf. rewrite <- app_assoc. apply option_table_mid6. apply Forall_app. split; [done|].
    eapply Forall_impl; [exact Hcodes|]. intros x Hx. cbn in Hx. congruence. }
  assert (option_table ([(2, own); (1, client); o] ++ dns) !! 3 = Some (snd o)) as H3
    by (apply (Hat [(2, own); (1, client)] 3 (snd o) []); done || constructor).
  assert (option_table ([(2, own); (1, client); o] ++ dns) !! 1 = Some client) as H1
    by (apply (Hat [(2, own)] 1 client [o]); [done | done | by repeat constructor]).
  assert (option_table ([(2, own); (1, client); o] ++ dns) !! 2 = Some own) as H2
    by (apply (Hat [] 2 own [(1, client); o]); [done | done | by repeat constructor]).
  assert (12 <= blen (snd o)) as H12.
  { unfold o. cbn [snd ia_na]. rewrite !blen_app, blen_encode_option6, H24. autorewrite with blen. lia. }
  exists (packet_of t tx ([(2, own); (1, client); o] ++ dns) (snd o) (Some text)). split.
  - apply parse_message6; [done | | done | done |].
    + apply Forall_app. split; [|done]. repeat (apply Forall_cons_2; [try (by split)|]); [|constructor].
      apply ia_na_ok; [done | lia].
    + by apply parse_ia_address.
  - unfold packet_of. cbn [msgType txId clientDuid serverDuid iaid requestedIp opt_value]. rewrite H1, H2.
    split_and!; try done. do 2 f_equal. unfold o. cbn [snd ia_na]. rewrite <- Hia4. apply subarray_app_l.
Qed.

(** ** Clients *)

(** A message without an address in its association, and one that names an address. *)
Definition plain_message (t : DHCP6_MSG_TYPES) (tx client ia : buffer) : buffer :=
  dhcp6_message (msg_type_value t) tx [(1, client); (3, ia ++ be_bytes 4 0 ++ be_bytes 4 0)].

Definition request_message (tx client own ia ip : buffer) (preferred valid : Z) : buffer :=
  dhcp6_message (msg_type_value REQUEST) tx [(1, client); (2, own); ia_na ia 0 0 (ia_address ip preferred valid)].

Lemma parse_plain t tx client ia :
  length tx = 3%nat -> client_ok client ia ->
  exists p, parseDhcp6Packet (plain_message t tx client ia) = Ok (Some p) /\ msgType p = msg_type_value t /\ txId p = tx /\
    clientDuid p = Some (hex_encode client) /\ serverDuid p = None /\ iaid p = Some (hex_encode ia) /\ requestedIp p = None.
Proof.
  intros Htx (_ & _ & Hc & Hl & Hb). assert (blen ia = 4) as Hia by (unfold blen; by rewrite Hl).
  set (d := ia ++ be_bytes 4 0 ++ be_bytes 4 0). assert (blen d = 12) as Hd by (unfold d; rewrite !blen_app, !blen_be_bytes; lia).
  assert (length d = 12%nat) as Hd' by (unfold blen in Hd; lia).
  exists (packet_of (msg_type_value t) tx [(1, client); (3, d)] d None). split.
  - apply parse_message6; [done | | done | lia |].
    + constructor; [by split|]. constructor; [|constructor]. split; [done|]. cbn [snd]. lia.
    + rewrite Hd'. change 12%nat with (S 11). rewrite parse_ia_step. by decide_test (12 + 4 <=? blen d) false.
  - unfold packet_of. cbn [msgType txId clientDuid serverDuid iaid requestedIp opt_value].
    split_and!; try done. do 2 f_equal. unfold d. rewrite <- Hia. apply subarray_app_l.
Qed.

Lemma parse_request tx client own ia ip p v text :
  length tx = 3%nat -> client_ok client ia -> blen own < 65536 -> blen ip = 16 -> bufferToIpv6 ip = Ok text ->
  exists q, parseDhcp6Packet (request_message tx client own ia ip p v) = Ok (Some q) /\ msgType q = 3 /\ txId q = tx /\
    clientDuid q = Some (hex_encode client) /\ serverDuid q = Some (hex_encode own) /\ iaid q = Some (hex_encode ia) /\
    requestedIp q = Some text.
Proof.
  intros Htx (_ & _ & Hc & Hl & Hb) Ho Hip Ht. assert (blen ia = 4) as Hia by (unfold blen; by rewrite Hl).
  set (o := ia_na ia 0 0 (ia_address ip p v)).
  assert (blen (snd (ia_address ip p v)) = 24) as H24 by (cbn [snd ia_address]; autorewrite with blen; lia).
  exists (packet_of 3 tx [(1, client); (2, own); o] (snd o) (Some text)). split.
  - apply parse_message6; [done | | done | |].
    + repeat (apply Forall_cons_2; [try (by split)|]); [|constructor]. apply ia_na_ok; [done | lia].
    + unfold o. cbn [snd ia_na]. rewrite !blen_app, blen_encode_option6, H24. autorewrite with blen. lia.
    + by apply parse_ia_address.
  - unfold packet_of. cbn [msgType txId clientDuid serverDuid iaid requestedIp opt_value].
    split_and!; try done. do 2 f_equal. unfold o. cbn [snd ia_na]. rewrite <- Hia. apply subarray_app_l.
Qed.

Lemma hex_encode_cons b : b <> [] -> exists c s, hex_encode b = c :: s.
Proof. destruct b as [|x b]; [done|]. intros _. unfold hex_encode. cbn [map concat app]. eauto. Qed.

Lemma ia_nonempty (ia : buffer) : length ia = 4%nat -> ia <> [].
Proof. by intros Hl ->. Qed.

(** The grant of an address, sent. *)
Lemma send_grant t tx client ia ip text c w r :
  length tx = 3%nat -> client_ok client ia -> blen (own_duid w) < 65536 -> config_ok c -> server w = Listening ->
  blen ip = 16 -> bufferToIpv6 ip = Ok text -> ipv6ToBuffer text = Ok ip ->
  exists resp q,
    send_to r (build_reply t tx (own_duid w) (hex_encode client) (build_grant c (hex_encode ia) text) (dns_options c)) w =
      (w, [ServerSend resp (port r) (address r)], None) /\
    parseDhcp6Packet resp = Ok (Some q) /\ msgType q = msg_type_value t /\ txId q = tx /\
    clientDuid q = Some (hex_encode client) /\ serverDuid q = Some (hex_encode (own_duid w)) /\
    iaid q = Some (hex_encode ia) /\ requestedIp q = Some text.
Proof.
  intros Htx (Hne & Hcb & Hcl & Hl & Hb) Ho Hcfg Hs Hip Ht1 Ht2.
  destruct (dns_options_ok c Hcfg) as (dns & Hdns & Hok & Hcodes).
  rewrite (build_grant_ok c ia ip text), Hdns, build_reply_ok by done.
  destruct (read_grant (msg_type_value t) tx (own_duid w) client ia (validLifetime c / 2) (validLifetime c * 7 / 8) ip
    (preferredLifetime c) (validLifetime c) dns text) as (q & Hq); try done.
  eexists. exists q. split; [|exact Hq]. unfold send_to, attempt_result, attempt_this. by rewrite Hs.
Qed.

(** C32: A SOLICIT of a client without a lease is answered from the pool. The search for an address ends; when every address from the
    first to the last is taken nothing is sent; otherwise the ADVERTISE, as the client parses it, repeats its transaction,
    identifier and association and offers the text of the lowest address that is not taken, and nothing is recorded. (The last
    address of the pool is assumed not to be the highest IPv6 address.) *)
Theorem dhcp6_solicit_advertises random w c client tx ia r now first last :
  dhcp6_reachable random w -> length random = 6%nat -> server w = Listening -> config w = Some c -> config_ok c ->
  poolStartBuf w = Some (be_bytes 16 first) -> poolEndBuf w = Some (be_bytes 16 last) ->
  0 <= first -> first <= last -> last + 1 < 2 ^ 128 ->
  length tx = 3%nat -> client_ok client ia -> jmap_get (leaseMap w) (hex_encode client) = None ->
  (on_message (plain_message SOLICIT tx client ia) r now w = (w, []) /\
   forall n, first <= n <= last -> taken_number (ipToClient w) n) \/
  exists n text resp q,
    on_message (plain_message SOLICIT tx client ia) r now w = (w, [ServerSend resp (port r) (address r)]) /\
    parseDhcp6Packet resp = Ok (Some q) /\ msgType q = msg_type_value ADVERTISE /\ txId q = tx /\
    clientDuid q = Some (hex_encode client) /\ iaid q = Some (hex_encode ia) /\ requestedIp q = Some text /\
    first <= n <= last /\ address_text n = Some text /\ jmap_get (ipToClient w) text = None /\
    forall m, first <= m < n -> taken_number (ipToClient w) m.
Proof.
  intros Hw Hrandom Hs Hc Hcfg Hfirst Hlast H0 Hfl Hm Htx Hclient Hnone.
  destruct (reachable_basic random w Hw) as [_ Hduid].
  assert (blen (own_duid w) < 65536) as Ho by (rewrite Hduid; unfold generateServerDuid, blen; cbn [app length]; lia).
  destruct (parse_plain SOLICIT tx client ia Htx Hclient) as (p & Hp & Ht & Hptx & Hpc & _ & Hpi & _).
  pose proof Hclient as (Hne & _ & _ & Hl & _).
  destruct (hex_encode_cons client Hne) as (d & ds & Hd). destruct (hex_encode_cons ia (ia_nonempty ia Hl)) as (i & is_ & Hi).
  assert (on_message (plain_message SOLICIT tx client ia) r now w = fst (with_search (allocateIp (hex_encode client) w) (fun ip =>
    match ip with
    | None => returns skip
    | Some assignedIp => with_config (fun c =>
        send_to r (build_reply ADVERTISE tx (own_duid w) (hex_encode client) (build_grant c (hex_encode ia) assignedIp) (dns_options c)))
    end) w)) as ->.
  { unfold on_message. rewrite Hp, Ht. cbn [msg_type_value]. unfold swallow, handleSolicit. rewrite Hpc, Hpi, Hptx, Hd, Hi. done. }
  unfold allocateIp. rewrite Hnone, Hfirst, Hlast.
  pose proof (search_spec (S (length (ipToClient w))) first last (ipToClient w) H0 ltac:(lia) ltac:(lia) Hm) as Hspec.
  pose proof (search_enough first last (ipToClient w) H0 ltac:(lia) ltac:(lia) Hm) as Henough.
  destruct (search_pool _ _ _ _) as [text| | |]; [right | left | done | done].
  - destruct Hspec as (n & Hn & Htext & Hfree & Hmin). destruct (address_text_ok n) as (t' & Hb2t & Hat).
    assert (t' = text) as -> by congruence. destruct (be_bytes_address n) as [Hl16 Hb16].
    destruct (ipv6_text_roundtrip _ Hl16 Hb16) as (t'' & Hb2t' & Ht2b). assert (t'' = text) as -> by congruence.
    destruct (send_grant ADVERTISE tx client ia (be_bytes 16 n) text c w r) as (resp & q & Hsend & Hq & H1 & H2 & H3 & _ & H5 & H6);
      try done.
    exists n, text, resp, q. split_and!; try done; try lia. cbn [with_search]. unfold with_config, attempt_this.
    rewrite Hc, Hsend. done.
  - by split.
Qed.

(** A REQUEST for an address is granted, whoever holds the address. *)
Lemma request_granted w c client tx ia ip text p v r now :
  server w = Listening -> config w = Some c -> config_ok c -> blen (own_duid w) < 65536 ->
  length tx = 3%nat -> client_ok client ia -> address_ok ip -> bufferToIpv6 ip = Ok text ->
  exists ev resp q,
    on_message (request_message tx client (own_duid w) ia ip p v) r now w =
      (fst (record_lease (hex_encode client) text (hex_encode ia) c now w), [SendEvent ev; ServerSend resp (port r) (address r)]) /\
    parseDhcp6Packet resp = Ok (Some q) /\ msgType q = msg_type_value REPLY /\ txId q = tx /\
    clientDuid q = Some (hex_encode client) /\ iaid q = Some (hex_encode ia) /\ requestedIp q = Some text.
Proof.
  intros Hs Hc Hcfg Ho Htx Hclient [Hl16 Hb16] Htext. assert (blen ip = 16) as Hip by (unfold blen; by rewrite Hl16).
  destruct (parse_request tx client (own_duid w) ia ip p v text Htx Hclient Ho Hip Htext)
    as (pk & Hp & Ht & Hptx & Hpc & Hps & Hpi & Hpr).
  destruct (ipv6_text_roundtrip ip Hl16 Hb16) as (t' & Hb2t & Ht2b). assert (t' = text) as -> by congruence.
  pose proof Hclient as (Hne & _ & _ & Hl & _).
  destruct (hex_encode_cons client Hne) as (d & ds & Hd). destruct (hex_encode_cons ia (ia_nonempty ia Hl)) as (i & is_ & Hi).
  set (w1 := fst (record_lease (hex_encode client) text (hex_encode ia) c now w)).
  assert (server w1 = Listening /\ own_duid w1 = own_duid w /\
    exists ev, record_lease (hex_encode client) text (hex_encode ia) c now w = (w1, [SendEvent ev])) as (Hs1 & Hd1 & ev & Hev).
  { unfold w1, record_lease, get_this. destruct (jmap_get (leaseMap w) (hex_encode client)); (split; [done|]; split; [done|]; by eexists). }
  destruct (send_grant REPLY tx client ia ip text c w1 r) as (resp & q & Hsend & Hq & H1 & H2 & H3 & _ & H5 & H6); try done; [by rewrite Hd1|].
  exists ev, resp, q. split; [|done]. unfold on_message. rewrite Hp, Ht. unfold swallow, handleRequest.
  rewrite Hpc, Hps, Hpi, Hptx, Hpr, Hd, Hi. unfold attempt_this. rewrite bool_decide_true by done. rewrite andb_false_r.
  assert (text <> []) as Hnet by (intros ->; vm_compute in Ht2b; done).
  destruct text as [|x xs]; [done|]. cbn [with_search]. unfold with_config, attempt_this. rewrite Hc, <- Hd, <- Hi.
  rewrite Hd1 in Hsend. by rewrite (seq_returns _ _ w w1 _ _ _ _ Hev Hsend).
Qed.

Lemma send_state r m w : fst (fst (send_to r m w)) = w.
Proof.
  unfold send_to, attempt_result. destruct m; [|done]. unfold attempt_this. by destruct (server w).
Qed.

(** A RELEASE changes the state by forgetting the lease; the reply changes nothing. *)
Lemma release_state msg r now w p d ds :
  parseDhcp6Packet msg = Ok (Some p) -> msgType p = 8 -> clientDuid p = Some (d :: ds) ->
  fst (on_message msg r now w) = fst (release_client (d :: ds) w).
Proof.
  intros Hp Ht Hd. unfold on_message. rewrite Hp, Ht. unfold swallow, handleRelease. rewrite Hd. unfold seq_attempt, returns.
  destruct (release_client (d :: ds) w) as [w1 o1]. cbn [fst].
  destruct (iaid p) as [[|i is_]|]; [done | | done]. unfold attempt_this.
  pose proof (send_state r (build_reply REPLY (txId p) (own_duid w1) (d :: ds)
    (build_status (i :: is_) STATUS_SUCCESS (js "Released")) (Ok [])) w1) as Hs.
  by destruct (send_to _ _ w1) as [[w2 o2] x].
Qed.

(** An address can be leased to two clients. A REQUEST that names an address is granted without a look at the tables or the
    pool: while a first client holds the address, a second client without a lease is sent a REPLY that grants it,
    both leases have the same address, and when the first client releases its lease the address counts as free
    although the second lease of it stands. *)
Theorem dhcp6_address_taken_over random w c client1 client2 tx ia1 ia2 ip text l p v r now :
  dhcp6_reachable random w -> length random = 6%nat -> server w = Listening -> config w = Some c -> config_ok c ->
  length tx = 3%nat -> client_ok client1 ia1 -> client_ok client2 ia2 -> address_ok ip -> bufferToIpv6 ip = Ok text ->
  jmap_get (leaseMap w) (hex_encode client1) = Some l -> lease_ip l = text ->
  jmap_get (leaseMap w) (hex_encode client2) = None ->
  exists ev resp q w1 w2 l2,
    on_message (request_message tx client2 (own_duid w) ia2 ip p v) r now w =
      (w1, [SendEvent ev; ServerSend resp (port r) (address r)]) /\
    parseDhcp6Packet resp = Ok (Some q) /\ msgType q = msg_type_value REPLY /\ requestedIp q = Some text /\
    jmap_get (leaseMap w1) (hex_encode client1) = Some l /\
    jmap_get (leaseMap w1) (hex_encode client2) = Some l2 /\ lease_ip l2 = text /\
    fst (on_message (plain_message RELEASE tx client1 ia1) r now w1) = w2 /\
    jmap_get (leaseMap w2) (hex_encode client2) = Some l2 /\ jmap_get (ipToClient w2) text = None.
Proof.
  intros Hw Hrandom Hs Hc Hcfg Htx Hc1 Hc2 Hip Htext Hl Hlip Hnone.
  destruct (reachable_basic random w Hw) as [Hips Hduid].
  assert (blen (own_duid w) < 65536) as Ho by (rewrite Hduid; unfold generateServerDuid, blen; cbn [app length]; lia).
  destruct (request_granted w c client2 tx ia2 ip text p v r now Hs Hc Hcfg Ho Htx Hc2 Hip Htext)
    as (ev & resp & q & Hreq & Hq & Ht & _ & _ & _ & Hqip).
  set (w1 := fst (record_lease (hex_encode client2) text (hex_encode ia2) c now w)) in *.
  set (l2 := Dhcp6Lease_new (hex_encode client2) text (hex_encode ia2) (preferredLifetime c) (validLifetime c) now).
  assert (leaseMap w1 = jmap_set (leaseMap w) (hex_encode client2) l2 /\
    ipToClient w1 = jmap_set (ipToClient w) text (hex_encode client2)) as [Hl1 Hi1].
  { unfold w1, record_lease, get_this. rewrite Hnone. done. }
  assert (hex_encode client2 <> hex_encode client1) as Hne by (intros He; congruence).
  exists ev, resp, q, w1. do 2 eexists. split; [exact Hreq|]. split; [exact Hq|]. split; [exact Ht|]. split; [exact Hqip|].
  split; [rewrite Hl1; by rewrite jmap_get_set_ne|]. split; [rewrite Hl1; apply jmap_get_set_eq|]. split; [done|].
  split; [reflexivity|].
  destruct (parse_plain RELEASE tx client1 ia1 Htx Hc1) as (pk & Hp & Hpt & _ & Hpc & _ & Hpi & _).
  destruct Hc1 as (Hne1 & _). destruct (hex_encode_cons client1 Hne1) as (d & ds & Hd).
  assert (jmap_get (leaseMap w1) (hex_encode client1) = Some l) as Hlw1 by (rewrite Hl1; by rewrite jmap_get_set_ne).
  rewrite (release_state _ r now w1 pk d ds Hp Hpt) by (by rewrite Hpc, Hd). rewrite <- Hd.
  unfold release_client, get_this. rewrite Hlw1, Hlip.
  change (jmap_get (jmap_delete (leaseMap w1) (hex_encode client1)) (hex_encode client2) = Some l2 /\
    jmap_get (jmap_delete (ipToClient w1) text) text = None).
  split; [rewrite jmap_get_delete_ne by done; rewrite Hl1; apply jmap_get_set_eq|].
  apply jmap_get_delete_eq. rewrite Hi1. by apply jmap_ok_set.
Qed.

(** A pool that ends at the highest address: the next address wraps to [::], which is then given out. *)
Lemma search_wraps client :
  search_pool 2 (be_bytes 16 (2 ^ 128 - 1)) (be_bytes 16 (2 ^ 128 - 1)) [(js "ffff:ffff:ffff:ffff:ffff:ffff:ffff:ffff", client)] =
  Found (js "::").
Proof. vm_compute. reflexivity. Qed.

(** ** Witnesses: the default pool, a client with a lease of its first address *)

Definition witness6_config : dhcp6_config := {|
  serverPort := Some 547; cfg_poolStart := js "2001:db8::100"; cfg_poolEnd := js "2001:db8::1ff";
  preferredLifetime := 3600; validLifetime := 7200; dns1 := js "2001:4860:4860::8888"; dns2 := [] |}.

Definition witness6_random : list Z := [1; 2; 3; 4; 5; 6].
Definition witness6_client1 : buffer := [0; 3; 0; 1; 2; 0; 0; 0; 0; 1].
Definition witness6_client2 : buffer := [0; 3; 0; 1; 2; 0; 0; 0; 0; 2].
Definition witness6_ia : buffer := [0; 0; 0; 1].
Definition witness6_tx : buffer := [9; 9; 9].
Definition witness6_rinfo : rinfo := {| address := js "fe80::1"; port := 546 |}.
Definition witness6_first : Z := 42540766411282592856903984951653826816.
Definition witness6_address : buffer := be_bytes 16 witness6_first.

Definition witness6_started : Dhcp6Worker :=
  fst (run_op (OpBound 1 []) (fst (run_op (OpStart 1 witness6_config) (Dhcp6Worker_new witness6_random)))).

Definition witness6_request : dhcp6_op :=
  OpMessage (request_message witness6_tx witness6_client1 (generateServerDuid witness6_random) witness6_ia witness6_address 0 0)
    witness6_rinfo 0.

Definition witness6_leased : Dhcp6Worker := fst (run_op witness6_request witness6_started).

Lemma witness6_reachable : dhcp6_reachable witness6_random witness6_leased.
Proof.
  apply (dhcp6_next _ witness6_request); [apply (dhcp6_next _ (OpBound 1 [])); [apply (dhcp6_next _ (OpStart 1 witness6_config))|]|].
  - apply dhcp6_start.
  - done.
  - vm_compute. reflexivity.
  - split; [vm_compute; reflexivity | by apply bytes_ok_check].
Qed.

Lemma witness6_config_ok : config_ok witness6_config.
Proof.
  split; [unfold u32; cbn; lia | unfold u32; cbn; lia | | by left].
  right. eexists. vm_compute. reflexivity.
Qed.

Lemma witness6_client_ok client : In client [witness6_client1; witness6_client2] -> client_ok client witness6_ia.
Proof. intros [<-|[<-|[]]]; (split; [done|]; split; [by apply bytes_ok_check|]; split; [done|]; split; [done | by apply bytes_ok_check]). Qed.

Lemma dhcp6_solicit_advertises_witness :
  (on_message (plain_message SOLICIT witness6_tx witness6_client2 witness6_ia) witness6_rinfo 5 witness6_leased = (witness6_leased, []) /\
   forall n, witness6_first <= n <= witness6_first + 255 -> taken_number (ipToClient witness6_leased) n) \/
  exists text resp q,
    on_message (plain_message SOLICIT witness6_tx witness6_client2 witness6_ia) witness6_rinfo 5 witness6_leased =
      (witness6_leased, [ServerSend resp 546 (js "fe80::1")]) /\
    parseDhcp6Packet resp = Ok (Some q) /\ requestedIp q = Some text.
Proof.
  destruct (dhcp6_solicit_advertises witness6_random witness6_leased witness6_config witness6_client2 witness6_tx witness6_ia
    witness6_rinfo 5 witness6_first (witness6_first + 255) witness6_reachable eq_refl)
    as [H|(n & text & resp & q & H1 & H2 & _ & _ & _ & _ & H3 & _)];
    [vm_compute; reflexivity | vm_compute; reflexivity | apply witness6_config_ok | vm_compute; reflexivity
    | vm_compute; reflexivity | by vm_compute | by vm_compute | by vm_compute | done | apply witness6_client_ok; right; by left
    | vm_compute; reflexivity | |].
  - left. exact H.
  - right. exists text, resp, q. split; [exact H1|]. split; [exact H2 | exact H3].
Defined.

Lemma dhcp6_address_taken_over_witness :
  exists ev resp w1 w2 l2,
    on_message (request_message witness6_tx witness6_client2 (own_duid witness6_leased) witness6_ia witness6_address 0 0)
      witness6_rinfo 5 witness6_leased = (w1, [SendEvent ev; ServerSend resp 546 (js "fe80::1")]) /\
    jmap_get (leaseMap w2) (hex_encode witness6_client2) = Some l2 /\ lease_ip l2 = js "2001:db8::100" /\
    jmap_get (ipToClient w2) (js "2001:db8::100") = None.
Proof.
  assert (exists l, jmap_get (leaseMap witness6_leased) (hex_encode witness6_client1) = Some l /\ lease_ip l = js "2001:db8::100")
    as (l & Hl & Hlip) by (eexists; vm_compute; split; reflexivity).
  destruct (dhcp6_address_taken_over witness6_random witness6_leased witness6_config witness6_client1 witness6_client2 witness6_tx
    witness6_ia witness6_ia witness6_address (js "2001:db8::100") l 0 0 witness6_rinfo 5 witness6_reachable eq_refl)
    as (ev & resp & q & w1 & w2 & l2 & H1 & _ & _ & _ & _ & _ & H2 & _ & H3 & H4);
    [vm_compute; reflexivity | vm_compute; reflexivity | apply witness6_config_ok | done | apply witness6_client_ok; by left
    | apply witness6_client_ok; right; by left | apply be_bytes_address | vm_compute; reflexivity | exact Hl | exact Hlip
    | vm_compute; reflexivity |].
  exists ev, resp, w1, w2, l2. split; [exact H1|]. split; [exact H3|]. split; [exact H2 | exact H4].
Defined.
