(* ===== verification/TcpAuthForward.v ===== *)
(** Authenticated TCP connections handed to a protocol worker: the forwarding header of
    src/electron/worker/core/tcpAuthForwardProtocol.js and the internal socket of
    src/electron/worker/core/tcpAuthForwardingServer.js.

    A helper accepts the authenticated connection and connects to the worker's private
    socket, where it first writes an 80-byte header: the addresses of the connection and a
    capability only the helper knows.  The worker collects the header from whatever
    fragments arrive, checks it and passes the socket and the bytes after the header on.

    [ipaddr.js] is a parameter ([IpAddr]): parsing and printing of addresses and the match
    against a prefix.  Its law is that printing then parsing gives the address back. *)

From stdpp Require Import base list numbers strings option.
From Stdlib Require Import ZArith Lia.
From S2P Require Import Prelude Actions IpAddr.

Local Open Scope Z_scope.
Local Open Scope js_scope.

Definition TCP_AUTH_FORWARD_MAGIC : buffer := js "NNAO".
Definition TCP_AUTH_FORWARD_VERSION : Z := 1.
Definition TCP_AUTH_FORWARD_HEADER_BYTES : Z := 80.
Definition TCP_AUTH_FORWARD_CAPABILITY_BYTES : Z := 32.

Definition invalidHeader {A} : result A := Throw (ErrorCode "TCP_AUTH_FORWARD_HEADER_INVALID").

Section Forward.
Context `{IpAddr}.

(** ** The header *)

Record forward_header := {
  family : Z;
  remoteAddress : jsstring; remotePort : Z;
  localAddress : jsstring; localPort : Z
}.

Definition normalizePort (port : Z) : result Z :=
  if (port <? 1) || (65535 <? port) then invalidHeader else Ok port.

Definition normalizeCapability (value : option buffer) : result buffer :=
  match value with
  | Some c => if blen c =? TCP_AUTH_FORWARD_CAPABILITY_BYTES then Ok c else invalidHeader
  | None => invalidHeader
  end.

Definition expected_kind (family : Z) : ip_kind := if family =? 4 then ipv4 else ipv6.

Definition encodeAddress (address : jsstring) (family : Z) : result buffer :=
  match ip_parse address with
  | None => invalidHeader
  | Some parsed =>
    if negb (bool_decide (fst parsed = expected_kind family)) || ((family =? 6) && isIPv4MappedAddress parsed)
    then invalidHeader
    else Ok (copy_into (snd parsed) (alloc 16) (if family =? 4 then 12 else 0))
  end.

Definition decodeAddress (bytes : buffer) (family : Z) : result jsstring :=
  if family =? 4 then
    if forallb (fun x => x =? 0) (subarray bytes 0 12) then Ok (ip_toString (ipv4, subarray_from bytes 12))
    else invalidHeader
  else
    if isIPv4MappedAddress (ipv6, bytes) then invalidHeader else Ok (ip_toString (ipv6, bytes)).

Definition encodeTcpAuthForwardHeader (h : forward_header) (capability : option buffer) : result buffer :=
  if negb (family h =? 4) && negb (family h =? 6) then invalidHeader
  else
    let! token := normalizeCapability capability in
    let b := copy_into TCP_AUTH_FORWARD_MAGIC (alloc TCP_AUTH_FORWARD_HEADER_BYTES) 0 in
    let b := bset b 4 TCP_AUTH_FORWARD_VERSION in
    let b := bset b 5 (family h) in
    let! b := writeUInt16BE b TCP_AUTH_FORWARD_HEADER_BYTES 6 in
    let! port := normalizePort (remotePort h) in
    let! b := writeUInt16BE b port 8 in
    let! port := normalizePort (localPort h) in
    let! b := writeUInt16BE b port 10 in
    let! address := encodeAddress (remoteAddress h) (family h) in
    let b := copy_into address b 16 in
    let! address := encodeAddress (localAddress h) (family h) in
    let b := copy_into address b 32 in
    Ok (copy_into token b 48).

Definition decodeTcpAuthForwardHeader (header : buffer) (expectedCapability : option buffer) : result forward_header :=
  let! token := normalizeCapability expectedCapability in
  guard! blen header =? TCP_AUTH_FORWARD_HEADER_BYTES else ErrorCode "TCP_AUTH_FORWARD_HEADER_INVALID" in
  guard! bool_decide (subarray header 0 4 = TCP_AUTH_FORWARD_MAGIC) else ErrorCode "TCP_AUTH_FORWARD_HEADER_INVALID" in
  guard! read_field 1 header 4 =? TCP_AUTH_FORWARD_VERSION else ErrorCode "TCP_AUTH_FORWARD_HEADER_INVALID" in
  let family := read_field 1 header 5 in
  guard! (family =? 4) || (family =? 6) else ErrorCode "TCP_AUTH_FORWARD_HEADER_INVALID" in
  guard! read_field 2 header 6 =? TCP_AUTH_FORWARD_HEADER_BYTES else ErrorCode "TCP_AUTH_FORWARD_HEADER_INVALID" in
  guard! read_field 4 header 12 =? 0 else ErrorCode "TCP_AUTH_FORWARD_HEADER_INVALID" in
  let receivedCapability := subarray header 48 80 in
  guard! bool_decide (receivedCapability = token) else ErrorCode "TCP_AUTH_FORWARD_HEADER_INVALID" in
  let! remoteAddress := decodeAddress (subarray header 16 32) family in
  let! remotePort := normalizePort (read_field 2 header 8) in
  let! localAddress := decodeAddress (subarray header 32 48) family in
  let! localPort := normalizePort (read_field 2 header 10) in
  Ok {| family := family; remoteAddress := remoteAddress; remotePort := remotePort;
        localAddress := localAddress; localPort := localPort |}.

(** ** The internal socket *)

Record profile := { profile_id : option jsstring; profile_name : option jsstring; peer : jsstring }.

(** What the handlers read of the server. *)
Record forwarding_server := {
  stopping : bool;
  forwardCapability : option buffer;
  pendingSockets : Z;
  maxPendingHeaders : Z;
  listenPort : Z;
  profiles : list profile
}.

(** The metadata passed on: the header and the profile it matches. *)
Definition validatePeerMetadata (srv : forwarding_server) (h : forward_header) : result (forward_header * profile) :=
  if negb (localPort h =? listenPort srv) then Throw (ErrorMsg "local port")
  else
    match ip_parse (remoteAddress h) with
    | None => Throw (ErrorMsg "remote address")
    | Some remote =>
      match List.find (fun p => cidr_match (peer p) remote) (profiles srv) with
      | None => Throw (ErrorMsg "profile")
      | Some p => Ok (h, p)
      end
    end.

(** What [acceptConnection] does: returns false or null, nothing, an object whose
    [resume] may be false, or throws. *)
Inductive accept_result := Refused | Nothing | Accepted (resume : bool) | AcceptThrows.

Record internal_socket := {
  header : buffer;
  received : Z;
  finished : bool;
  pending : bool     (* in [pendingSockets] *)
}.

#[export] Instance internal_socket_rebuild : Rebuild internal_socket := fun s => {|
  header := header s; received := received s; finished := finished s; pending := pending s |}.

Inductive socket_effect :=
| Destroy
| Pause
| Resume
| AcceptConnection (metadata : forward_header * profile) (initialData : buffer).

Abbreviation action := (action_of internal_socket socket_effect).

(** [acceptInternalSocket]: a socket that is taken up waits for its header. *)
Definition acceptInternalSocket (srv : forwarding_server) : option internal_socket * list socket_effect :=
  let no_capability := match forwardCapability srv with
                       | Some c => negb (blen c =? TCP_AUTH_FORWARD_CAPABILITY_BYTES)
                       | None => true
                       end in
  if stopping srv || no_capability || (maxPendingHeaders srv <=? pendingSockets srv) then (None, [Destroy])
  else (Some {| header := alloc TCP_AUTH_FORWARD_HEADER_BYTES; received := 0; finished := false; pending := true |}, [Resume]).

(** Listeners and timer go, the header is wiped. *)
Definition cleanup : action :=
  assign (fun s => s <| pending := false |>) ;;;
  assign (fun s => s <| header := alloc TCP_AUTH_FORWARD_HEADER_BYTES |>).

(** Also the handler of ['end'], ['close'], ['error'] and of the timer. *)
Definition rejectHeader : action :=
  this s =>
    if finished s then skip
    else assign (fun s => s <| finished := true |>) ;;; cleanup ;;; emit Destroy.

Definition checked_metadata (srv : forwarding_server) (header : buffer) : result (forward_header * profile) :=
  let! h := decodeTcpAuthForwardHeader header (forwardCapability srv) in
  let! metadata := validatePeerMetadata srv h in
  if stopping srv then Throw (ErrorMsg "stopping") else Ok metadata.

Definition onData (accept : forward_header * profile -> buffer -> accept_result) (srv : forwarding_server) (chunk : buffer)
    : action :=
  this s =>
    if finished s then skip
    else
      let copyLength := Z.min (TCP_AUTH_FORWARD_HEADER_BYTES - received s) (blen chunk) in
      assign (fun s => s <| header := copy_into (subarray chunk 0 copyLength) (header s) (received s) |>) ;;;
      assign (fun s => s <| received := received s + copyLength |>) ;;;
      this s =>
        if received s <? TCP_AUTH_FORWARD_HEADER_BYTES then skip
        else
          emit Pause ;;;
          match checked_metadata srv (header s) with
          | Throw _ => rejectHeader
          | Ok metadata =>
            let initialData := subarray_from chunk copyLength in
            assign (fun s => s <| finished := true |>) ;;;
            cleanup ;;;
            emit (AcceptConnection metadata initialData) ;;;
            match accept metadata initialData with
            | Refused | AcceptThrows => emit Destroy
            | Nothing => emit Resume
            | Accepted resume => if resume then emit Resume else skip
            end
          end.

(** ** The header read back *)

(** The 16 bytes of an address. *)
Definition address_field (a : ip_address) (family : Z) : buffer :=
  if family =? 4 then alloc 12 ++ snd a else snd a.

Definition header_bytes (h : forward_header) (remote local : ip_address) (token : buffer) : buffer :=
  TCP_AUTH_FORWARD_MAGIC ++ [TCP_AUTH_FORWARD_VERSION; family h] ++ be_bytes 2 80 ++ be_bytes 2 (remotePort h) ++
  be_bytes 2 (localPort h) ++ alloc 4 ++ address_field remote (family h) ++ address_field local (family h) ++ token.

Definition port_ok (p : Z) : Prop := 1 <= p <= 65535.

(** An address that a header of the family can carry. *)
Definition carried (family : Z) (text : jsstring) (a : ip_address) : Prop :=
  ip_parse text = Some a /\ ip_wf a /\ fst a = expected_kind family /\ (family = 6 -> isIPv4MappedAddress a = false).

Definition header_ok (h : forward_header) (remote local : ip_address) : Prop :=
  (family h = 4 \/ family h = 6) /\ port_ok (remotePort h) /\ port_ok (localPort h) /\
  carried (family h) (remoteAddress h) remote /\ carried (family h) (localAddress h) local.

Lemma normalizePort_ok p : port_ok p -> normalizePort p = Ok p.
Proof. unfold port_ok, normalizePort. intros. decide_test (p <? 1) false. by decide_test (65535 <? p) false. Qed.

Lemma blen_address_field family text a : carried family text a -> (family = 4 \/ family = 6) -> blen (address_field a family) = 16.
Proof.
  intros (_ & Hwf & Hk & _) Hf. destruct a as [k bs]. cbn [fst] in Hk. subst k. unfold address_field, expected_kind in *.
  destruct Hf as [-> | ->]; cbn [Z.eqb Pos.eqb ip_wf] in *; destruct Hwf as [Hl _]; cbn [snd].
  - rewrite blen_app, blen_alloc by lia. unfold blen. rewrite Hl. lia.
  - unfold blen. by rewrite Hl.
Qed.

Lemma encodeAddress_ok family text a :
  carried family text a -> (family = 4 \/ family = 6) -> encodeAddress text family = Ok (address_field a family).
Proof.
  intros Hc Hf. pose proof (blen_address_field family text a Hc Hf) as Hb. destruct Hc as (Hp & _ & Hk & Hm).
  unfold encodeAddress. rewrite Hp, Hk, bool_decide_true by done. cbn [negb orb]. unfold address_field in *.
  destruct Hf as [-> | ->]; cbn [Z.eqb Pos.eqb andb] in *.
  - rewrite (alloc_take 12 16) by lia. rewrite blen_app, blen_alloc in Hb by lia.
    rewrite copy_filled by (rewrite ?blen_alloc by lia; lia).
    replace (16 - 12 - blen (snd a)) with 0 by lia. by rewrite app_nil_r.
  - rewrite Hm by done. change (alloc 16) with ([] ++ alloc 16). rewrite copy_filled by (done || lia). cbn [app].
    replace (16 - blen (snd a)) with 0 by lia. by rewrite app_nil_r.
Qed.

Lemma decodeAddress_ok family text a :
  carried family text a -> (family = 4 \/ family = 6) -> decodeAddress (address_field a family) family = Ok (ip_toString a).
Proof.
  intros (_ & Hwf & Hk & Hm) Hf. destruct a as [k bs]. cbn [fst] in Hk. subst k. unfold decodeAddress, address_field, expected_kind in *.
  destruct Hf as [-> | ->]; cbn [Z.eqb Pos.eqb snd] in *.
  - change 12 with (blen (alloc 12)) at 2 4. rewrite subarray_app_l, subarray_from_app. done.
  - by rewrite Hm.
Qed.

Lemma bset_filled pre room v off :
  blen pre = off -> 1 <= room -> bset (pre ++ alloc room) off v = (pre ++ [v mod 256]) ++ alloc (room - 1).
Proof.
  intros <- Hr. rewrite (alloc_take 1 room) by lia. change (alloc 1) with [0]. unfold bset.
  decide_test (blen pre <? 0) false. unfold blen. rewrite Nat2Z.id. rewrite insert_app_r_alt, Nat.sub_diag by lia.
  cbn [app insert list_insert]. by rewrite <- app_assoc.
Qed.

Lemma alloc_0' n : n = 0 -> alloc n = [].
Proof. by intros ->. Qed.

Lemma encode_header h remote local token :
  header_ok h remote local -> blen token = 32 ->
  encodeTcpAuthForwardHeader h (Some token) = Ok (header_bytes h remote local token).
Proof.
  intros (Hf & Hrp & Hlp & Hr & Hl) Ht. unfold encodeTcpAuthForwardHeader, normalizeCapability. rewrite Ht.
  replace (negb (family h =? 4) && negb (family h =? 6)) with false by (destruct Hf as [-> | ->]; done).
  cbn [Z.eqb Pos.eqb TCP_AUTH_FORWARD_CAPABILITY_BYTES bind_result].
  pose proof (blen_address_field _ _ _ Hr Hf) as Hbr. pose proof (blen_address_field _ _ _ Hl Hf) as Hbl.
  assert (blen TCP_AUTH_FORWARD_MAGIC = 4) as Hmagic by done.
  change (alloc TCP_AUTH_FORWARD_HEADER_BYTES) with ([] ++ alloc 80). rewrite copy_filled by (done || lia). cbn [app].
  rewrite Hmagic. change (80 - 4) with 76. rewrite bset_filled by lia. rewrite bset_filled by (reflexivity || lia).
  unfold writeUInt16BE, TCP_AUTH_FORWARD_HEADER_BYTES.
  rewrite write_filled by (reflexivity || (cbn; lia)). cbn [bind_result].
  unfold port_ok in *. rewrite !normalizePort_ok by done. cbn [bind_result].
  rewrite write_filled by (try (autorewrite with blen; reflexivity); cbn; lia). cbn [bind_result].
  rewrite write_filled by (try (autorewrite with blen; reflexivity); cbn; lia). cbn [bind_result].
  rewrite (encodeAddress_ok _ _ _ Hr Hf), (encodeAddress_ok _ _ _ Hl Hf). cbn [bind_result].
  replace (76 - 1 - 1 - Z.of_nat 2 - Z.of_nat 2 - Z.of_nat 2) with 68 by lia. rewrite (alloc_take 4 68) by lia.
  rewrite (app_assoc _ (alloc 4)). change (68 - 4) with 64.
  rewrite copy_filled by (try (rewrite Hbr; lia); autorewrite with blen; rewrite blen_alloc by lia; reflexivity).
  rewrite copy_filled by (try (rewrite Hbl, Hbr; lia); autorewrite with blen; rewrite blen_alloc, Hbr by lia; reflexivity).
  rewrite copy_filled by (try (rewrite Hbl, Hbr, Ht; lia); autorewrite with blen; rewrite blen_alloc, Hbr, Hbl by lia; reflexivity).
  rewrite (alloc_0' (64 - blen (address_field remote (family h)) - blen (address_field local (family h)) - blen token)) by lia. rewrite app_nil_r. unfold header_bytes.
  replace (family h mod 256) with (family h) by (destruct Hf as [-> | ->]; done).
  by rewrite <- !app_assoc.
Qed.

(** A slice given by what is before it. *)
Lemma slice_at (b pre m post : buffer) s e :
  b = pre ++ m ++ post -> blen pre = s -> s + blen m = e -> subarray b s e = m.
Proof. intros -> <- <-. apply subarray_mid. Qed.

(** The metadata of a decoded header: the addresses in the library's own text. *)
Definition canonical (h : forward_header) (remote local : ip_address) : forward_header := {|
  family := family h; remoteAddress := ip_toString remote; remotePort := remotePort h;
  localAddress := ip_toString local; localPort := localPort h |}.

Lemma decode_header h remote local token :
  header_ok h remote local -> blen token = 32 ->
  decodeTcpAuthForwardHeader (header_bytes h remote local token) (Some token) = Ok (canonical h remote local).
Proof.
  intros (Hf & Hrp & Hlp & Hr & Hl) Ht.
  pose proof (blen_address_field _ _ _ Hr Hf) as Hbr. pose proof (blen_address_field _ _ _ Hl Hf) as Hbl.
  set (R := address_field remote (family h)) in *. set (L := address_field local (family h)) in *.
  set (P1 := TCP_AUTH_FORWARD_MAGIC ++ [TCP_AUTH_FORWARD_VERSION; family h] ++ be_bytes 2 80).
  set (P2 := P1 ++ be_bytes 2 (remotePort h) ++ be_bytes 2 (localPort h) ++ alloc 4).
  assert (header_bytes h remote local token = P2 ++ R ++ L ++ token) as -> by (unfold header_bytes, P2, P1; fold R L; by rewrite <- !app_assoc).
  assert (blen P2 = 16) as H16 by reflexivity.
  assert (forall s e, 0 <= s -> e <= 16 -> subarray (P2 ++ R ++ L ++ token) s e = subarray P2 s e) as Hfront
    by (intros; apply subarray_app_left; lia).
  unfold decodeTcpAuthForwardHeader, normalizeCapability, read_field. rewrite Ht. cbn [Z.eqb Pos.eqb TCP_AUTH_FORWARD_CAPABILITY_BYTES bind_result].
  assert (blen (P2 ++ R ++ L ++ token) = 80) as -> by (rewrite !blen_app, H16, Hbr, Hbl, Ht; lia).
  rewrite !Hfront by lia. change (80 =? TCP_AUTH_FORWARD_HEADER_BYTES) with true. cbv iota.
  change (subarray P2 0 4) with TCP_AUTH_FORWARD_MAGIC. rewrite bool_decide_true by done.
  change (subarray P2 4 (4 + 1)) with [TCP_AUTH_FORWARD_VERSION]. rewrite be_value_1. change (TCP_AUTH_FORWARD_VERSION =? TCP_AUTH_FORWARD_VERSION) with true. cbv iota zeta.
  change (subarray P2 5 (5 + 1)) with [family h]. rewrite be_value_1.
  replace ((family h =? 4) || (family h =? 6)) with true by (destruct Hf as [-> | ->]; done).
  change (be_value (subarray P2 6 (6 + 2)) =? TCP_AUTH_FORWARD_HEADER_BYTES) with true.
  change (be_value (subarray P2 12 (12 + 4)) =? 0) with true. cbv iota.
  rewrite (slice_at _ (P2 ++ R ++ L) token [] 48 80), (slice_at _ P2 R (L ++ token) 16 32), (slice_at _ (P2 ++ R) L token 32 48);
    try (rewrite ?app_nil_r; by rewrite <- !app_assoc); try (rewrite ?blen_app; lia); try done.
  rewrite (Hfront 8 (8 + 2)), (Hfront 10 (10 + 2)) by lia.
  rewrite bool_decide_true by done. unfold R, L. rewrite (decodeAddress_ok _ _ _ Hr Hf), (decodeAddress_ok _ _ _ Hl Hf).
  change (subarray P2 8 (8 + 2)) with (be_bytes 2 (remotePort h)). change (subarray P2 10 (10 + 2)) with (be_bytes 2 (localPort h)).
  unfold port_ok in *. rewrite !be_value_be_bytes by (cbn; lia). cbn [bind_result]. rewrite !normalizePort_ok by done. done.
Qed.

(** Only a header with the magic and the capability is decoded. *)
Lemma decode_requires header capability h :
  decodeTcpAuthForwardHeader header capability = Ok h ->
  blen header = 80 /\ subarray header 0 4 = TCP_AUTH_FORWARD_MAGIC /\ capability = Some (subarray header 48 80).
Proof.
  unfold decodeTcpAuthForwardHeader. intros Hd. apply bind_ok in Hd as (token & Ht & Hd).
  destruct (blen header =? _) eqn:E1; [|done]. destruct (bool_decide (subarray header 0 4 = _)) eqn:E2; [|done].
  destruct (read_field 1 header 4 =? _); [|done]. cbv zeta in Hd. destruct (_ || _); [|done].
  destruct (read_field 2 header 6 =? _); [|done]. destruct (read_field 4 header 12 =? 0); [|done].
  destruct (bool_decide (subarray header 48 80 = token)) eqn:E3; [|done].
  apply bool_decide_eq_true in E2, E3. apply Z.eqb_eq in E1. split; [done|]. split; [done|].
  unfold normalizeCapability in Ht. destruct capability as [c|]; [|done]. case_if; [|done]. congruence.
Qed.

(** ** The socket, whatever the fragments *)

Inductive socket_event :=
| Data (chunk : buffer)
| Failure.   (* the timer, or ['end'], ['close'], ['error'] *)

Section Socket.
Context (accept : forward_header * profile -> buffer -> accept_result) (srv : forwarding_server).

Definition on_event (e : socket_event) : action :=
  match e with
  | Data chunk => onData accept srv chunk
  | Failure => rejectHeader
  end.

Definition socket_run (evs : list socket_event) : action := each evs on_event.

(** What follows the decision on the 80 bytes [h] with the bytes [rest] after them. *)
Definition decision (h rest : buffer) : list socket_effect :=
  match checked_metadata srv h with
  | Throw _ => [Destroy]
  | Ok metadata =>
    AcceptConnection metadata rest ::
    match accept metadata rest with
    | Refused | AcceptThrows => [Destroy]
    | Nothing => [Resume]
    | Accepted resume => if resume then [Resume] else []
    end
  end.

(** The specification: gather bytes, decide once at the 80th, and then do nothing more. *)
Fixpoint socket_spec (got : buffer) (evs : list socket_event) : list socket_effect :=
  match evs with
  | [] => []
  | Failure :: _ => [Destroy]
  | Data chunk :: tl =>
    let all := got ++ chunk in
    if blen all <? 80 then socket_spec all tl else Pause :: decision (take 80 all) (drop 80 all)
  end.

(** A socket that has received [got]. *)
Definition waiting (got : buffer) : internal_socket := {|
  header := got ++ alloc (80 - blen got); received := blen got; finished := false; pending := true |}.

Lemma finished_silent evs s : finished s = true -> snd (socket_run evs s) = [].
Proof.
  intros Hf. induction evs as [|e evs IH]; [done|]. unfold socket_run in *. cbn [each]. unfold seq_action.
  assert (on_event e s = (s, [])) as ->.
  { destruct e; cbn [on_event]; unfold onData, rejectHeader, get_this; by rewrite Hf. }
  destruct (each evs on_event s) as [s2 o2]. exact IH.
Qed.

Lemma data_waits got chunk :
  blen (got ++ chunk) < 80 -> onData accept srv chunk (waiting got) = (waiting (got ++ chunk), []).
Proof.
  intros Hl. rewrite blen_app in Hl. pose proof (blen_nonneg got). pose proof (blen_nonneg chunk).
  unfold onData, get_this. cbn [finished waiting received header]. unfold TCP_AUTH_FORWARD_HEADER_BYTES.
  rewrite Z.min_r by lia.
  assert (subarray chunk 0 (blen chunk) = chunk) as -> by (rewrite <- (app_nil_r chunk) at 1; apply subarray_app_l).
  unfold seq_action, assign. cbn [waiting].
  set (w := _ <| header := _ |> <| received := _ |>).
  assert (w = waiting (got ++ chunk)) as ->.
  { unfold w, waiting. cbv [modify]. cbn [header received finished pending]. rewrite copy_filled by (done || lia).
    rewrite !blen_app. by replace (80 - blen got - blen chunk) with (80 - (blen got + blen chunk)) by lia. }
  cbn [received waiting]. rewrite blen_app. by decide_test (blen got + blen chunk <? 80) true.
Qed.

Lemma data_decides got chunk :
  blen got < 80 -> 80 <= blen (got ++ chunk) ->
  exists s, onData accept srv chunk (waiting got) =
    (s, Pause :: decision (take 80 (got ++ chunk)) (drop 80 (got ++ chunk))) /\ finished s = true.
Proof.
  intros Hg Hl. rewrite blen_app in Hl. pose proof (blen_nonneg got).
  unfold onData, get_this. cbn [finished waiting received header]. unfold TCP_AUTH_FORWARD_HEADER_BYTES.
  rewrite Z.min_l by lia. set (n := 80 - blen got).
  assert (blen (subarray chunk 0 n) = n) as Hn by (rewrite blen_subarray; unfold n; lia).
  assert (got ++ subarray chunk 0 n = take 80 (got ++ chunk)) as Htake.
  { rewrite take_app_ge by (unfold blen, n in *; lia). f_equal. unfold subarray. change (Z.to_nat 0) with 0%nat.
    rewrite drop_0. f_equal. unfold n, blen in *. lia. }
  assert (subarray_from chunk n = drop 80 (got ++ chunk)) as Hdrop.
  { rewrite drop_app_ge by (unfold blen, n in *; lia). unfold subarray_from. f_equal. unfold n, blen in *. lia. }
  unfold seq_action at 1 2, assign at 1 2. cbn [waiting].
  set (w := _ <| header := _ |> <| received := _ |>).
  assert (header w = take 80 (got ++ chunk) /\ received w = 80 /\ finished w = false) as (Hh & Hr & Hf).
  { unfold w. cbv [modify]. cbn [header received finished waiting]. split; [|split; [unfold n; lia | done]].
    rewrite copy_filled by (done || lia). rewrite Hn, Z.sub_diag, Htake. apply app_nil_r. }
  rewrite Hr. change (80 <? 80) with false. cbv iota. rewrite Hh, Hdrop. unfold decision. set (h := take 80 _). set (d := drop 80 _).
  destruct (checked_metadata srv h) as [md|e].
  - destruct (accept md d) as [| |[]|]; eexists; (split; [reflexivity | done]).
  - unfold seq_action, emit, rejectHeader, get_this. rewrite Hf. eexists. split; [reflexivity | done].
Qed.

Lemma rejectHeader_waiting got : exists s, rejectHeader (waiting got) = (s, [Destroy]) /\ finished s = true.
Proof. by eexists. Qed.

(** The gathering of fragments in the fixed header buffer implements the specification. *)
Lemma run_spec evs got : blen got < 80 -> snd (socket_run evs (waiting got)) = socket_spec got evs.
Proof.
  revert got. induction evs as [|e evs IH]; intros got Hg; [done|]. unfold socket_run in *. cbn [each socket_spec].
  pose proof (finished_silent evs) as Hsilent. unfold socket_run in Hsilent. unfold seq_action.
  destruct e as [chunk|]; cbn [on_event].
  - destruct (blen (got ++ chunk) <? 80) eqn:El; bool_hyps.
    + rewrite data_waits by done. specialize (IH (got ++ chunk) El).
      destruct (each evs _ _) as [s2 o2]. exact IH.
    + destruct (data_decides got chunk Hg) as (s & Hd & Hf); [lia|]. rewrite Hd. specialize (Hsilent s Hf).
      destruct (each evs _ s) as [s2 o2]. cbn [snd] in *. rewrite Hsilent. apply app_nil_r.
  - destruct (rejectHeader_waiting got) as (s & Hr & Hf). rewrite Hr. specialize (Hsilent s Hf).
    destruct (each evs _ s) as [s2 o2]. cbn [snd] in *. by rewrite Hsilent.
Qed.

Definition data_of (evs : list socket_event) : buffer :=
  concat (map (fun e => match e with Data chunk => chunk | Failure => [] end) evs).

Lemma spec_accepts evs got md d :
  In (AcceptConnection md d) (socket_spec got evs) ->
  exists h rest, checked_metadata srv h = Ok md /\ got ++ data_of evs = h ++ d ++ rest /\ (blen got < 80 -> blen h = 80).
Proof.
  revert got. induction evs as [|[chunk|] evs IH]; intros got; cbn [socket_spec]; [done | | by intros [?|[]]].
  unfold data_of. cbn [map concat]. fold (data_of evs). rewrite app_assoc.
  destruct (blen (got ++ chunk) <? 80) eqn:El; bool_hyps.
  - intros Hin. destruct (IH _ Hin) as (h & rest & Hm & He & Hl). exists h, rest. split; [done|]. split; [done|]. intros _. by apply Hl.
  - intros [?|Hin]; [done|]. unfold decision in Hin.
    destruct (checked_metadata srv _) as [md'|] eqn:Em; [|by destruct Hin as [?|[]]].
    assert (md' = md /\ drop 80 (got ++ chunk) = d) as [-> <-].
    { destruct Hin as [Hi|Hin]; [by injection Hi|]. destruct (accept md' _) as [| |[]|]; cbn in Hin; naive_solver. }
    exists (take 80 (got ++ chunk)), (data_of evs). split; [done|]. split; [by rewrite app_assoc, take_drop|].
    intros _. unfold blen in *. rewrite length_take. lia.
Qed.

(** A complete header in the data, and no failure: the decision is on it. *)
Lemma spec_complete chunks got h data :
  blen got < 80 -> blen h = 80 -> got ++ concat chunks = h ++ data ->
  exists initial later, socket_spec got (map Data chunks) = Pause :: decision h initial /\
    data = initial ++ concat later /\ exists k, later = drop k chunks.
Proof.
  revert got. induction chunks as [|c chunks IH]; intros got Hg Hh He; cbn [map socket_spec concat] in *.
  - rewrite app_nil_r in He. subst got. rewrite blen_app in Hg. pose proof (blen_nonneg data). lia.
  - rewrite app_assoc in He. destruct (blen (got ++ c) <? 80) eqn:El; bool_hyps.
    + destruct (IH (got ++ c) El Hh He) as (initial & later & Hs & Hd & k & Hk). exists initial, later.
      split; [done|]. split; [done|]. by exists (S k).
    + exists (drop 80 (got ++ c)), chunks. split; [|split; [|by exists 1%nat]].
      * do 2 f_equal. apply (f_equal (take 80)) in He. rewrite take_app_le in He by (unfold blen in El; lia).
        rewrite He, take_app_le by (unfold blen in Hh; lia). apply take_ge. unfold blen in Hh. lia.
      * apply (f_equal (drop 80)) in He. rewrite drop_app_le in He by (unfold blen in El; lia).
        rewrite He. rewrite drop_app_ge by (unfold blen in Hh; lia). unfold blen in Hh.
        by replace (80 - length h)%nat with 0%nat by lia.
Qed.
End Socket.

(** C34: A connection is passed on exactly once, for the right header, however its bytes are cut. On the internal socket: (1) a
    header the helper encodes with the worker's capability, for the worker's port and a remote address of a profile,
    followed by any data and cut into any fragments, leads to one call of the connection handler, with the addresses of
    the header, the matching profile and the bytes that follow the header in that fragment, the later fragments
    holding the rest; (2) after any fragments and failures, the handler is called only if the first 80 bytes carry the magic, the
    worker's capability and its port. *)
Theorem tcp_auth_forward (accept : forward_header * profile -> buffer -> accept_result) (srv : forwarding_server)
    (token : buffer) (h : forward_header) (remote local : ip_address) (p : profile) (data : buffer) `{!IpAddrLaws} :
  forwardCapability srv = Some token -> blen token = 32 -> stopping srv = false ->
  header_ok h remote local -> localPort h = listenPort srv ->
  List.find (fun q => cidr_match (peer q) remote) (profiles srv) = Some p ->
  (exists hdr, encodeTcpAuthForwardHeader h (Some token) = Ok hdr /\
     forall chunks, concat chunks = hdr ++ data ->
       exists initial later after,
         snd (socket_run accept srv (map Data chunks) (waiting [])) =
           Pause :: AcceptConnection (canonical h remote local, p) initial :: after /\
         Forall (fun e => e = Destroy \/ e = Resume) after /\
         data = initial ++ concat later /\ exists k, later = drop k chunks) /\
  (forall evs md d, In (AcceptConnection md d) (snd (socket_run accept srv evs (waiting []))) ->
     exists hdr rest, data_of evs = hdr ++ d ++ rest /\ blen hdr = 80 /\
       subarray hdr 0 4 = TCP_AUTH_FORWARD_MAGIC /\ subarray hdr 48 80 = token /\
       localPort (fst md) = listenPort srv /\ In (snd md) (profiles srv)).
Proof.
  intros Hcap Htok Hstop Hh Hport Hfind. split.
  - exists (header_bytes h remote local token). split; [by apply encode_header|]. intros chunks Hc.
    assert (blen (header_bytes h remote local token) = 80) as H80
      by (by apply (decode_requires _ (Some token) (canonical h remote local)), decode_header).
    rewrite run_spec by reflexivity.
    destruct (spec_complete accept srv chunks [] _ data eq_refl H80 Hc) as (initial & later & Hs & Hd & Hk).
    rewrite Hs. unfold decision, checked_metadata. rewrite Hcap, decode_header by done. cbn [bind_result].
    unfold validatePeerMetadata. cbn [canonical localPort remoteAddress]. rewrite Hport, Z.eqb_refl. cbn [negb].
    destruct Hh as (_ & _ & _ & (_ & Hwf & _) & _). rewrite parse_toString, Hfind by done. cbn [bind_result]. rewrite Hstop.
    do 3 eexists. split; [reflexivity|]. split; [|split; [exact Hd | exact Hk]].
    destruct (accept _ initial) as [| |[]|]; auto.
  - intros evs md d Hin. rewrite run_spec in Hin by reflexivity.
    destruct (spec_accepts accept srv evs [] md d Hin) as (hdr & rest & Hm & He & Hl).
    unfold checked_metadata in Hm. apply bind_ok in Hm as (h' & Hdec & Hm). apply bind_ok in Hm as (md' & Hval & Hm).
    apply decode_requires in Hdec as (_ & Hmagic & Htoken). rewrite Hcap in Htoken. injection Htoken as Htoken.
    exists hdr, rest. split; [done|]. split; [by apply Hl|]. split; [done|]. split; [done|].
    destruct (stopping srv); [done|]. injection Hm as ->. unfold validatePeerMetadata in Hval.
    destruct (localPort h' =? listenPort srv) eqn:Ep; [|done]. cbn [negb] in Hval.
    clear Hfind. destruct (ip_parse _) as [a|]; [|done]. destruct (List.find _ _) as [q|] eqn:Eq; [|done]. injection Hval as <-.
    split; [by apply Z.eqb_eq in Ep | by apply find_some in Eq as [? _]].
Qed.
End Forward.

(** ** Examples *)

Definition example_server : forwarding_server := {|
  stopping := false; forwardCapability := Some (replicate 32 7); pendingSockets := 0; maxPendingHeaders := 16;
  listenPort := 179; profiles := [{| profile_id := None; profile_name := None; peer := js "10.0.0.0/8" |}] |}.

Definition example_header : forward_header := {|
  family := 4; remoteAddress := [52; 10; 0; 0; 2]; remotePort := 40000; localAddress := [52; 10; 0; 0; 1]; localPort := 179 |}.

Definition example_profile : profile := {| profile_id := None; profile_name := None; peer := js "10.0.0.0/8" |}.

Lemma tcp_auth_forward_witness :
  exists hdr initial after,
    @encodeTcpAuthForwardHeader tagged_addresses example_header (Some (replicate 32 7)) = Ok hdr /\
    snd (@socket_run tagged_addresses (fun _ _ => Nothing) example_server
           [Data (take 30 (hdr ++ [1; 2; 3])); Data (drop 30 (hdr ++ [1; 2; 3]))] (waiting [])) =
      Pause :: AcceptConnection (example_header, example_profile) initial :: after.
Proof.
  destruct (@tcp_auth_forward tagged_addresses (fun _ _ => Nothing) example_server (replicate 32 7) example_header
    (ipv4, [10; 0; 0; 2]) (ipv4, [10; 0; 0; 1]) example_profile [1; 2; 3]
    tagged_laws eq_refl eq_refl eq_refl) as [(hdr & He & Hall) _].
  - unfold header_ok, port_ok, carried. cbn. split_and!; try done; try lia; try (by left); apply bytes_ok_check; reflexivity.
  - reflexivity.
  - reflexivity.
  - destruct (Hall [take 30 (hdr ++ [1; 2; 3]); drop 30 (hdr ++ [1; 2; 3])]) as (initial & later & after & Hr & _).
    + cbn [concat]. by rewrite app_nil_r, take_drop.
    + exists hdr, initial, after. split; [exact He | exact Hr].
Defined.
