(* ===== verification/RadiusPacket.v ===== *)
(** RADIUS packets: [electron/utils/radiusUtils.js].

    Attributes, the parser and the builder of packets, the authenticators of responses and
    accounting requests, the Message-Authenticator and the hiding of passwords.  MD5 and
    HMAC-MD5 are parameters with digests of 16 bytes, addresses are [IpAddr].  The loops that
    look for the Message-Authenticator in a packet step by the length byte of an attribute
    and do not end on a zero; they are functions of fuel, and enough of it for the packets
    they are given. *)

From stdpp Require Import base list numbers strings option.
From Stdlib Require Import ZArith Lia.
From S2P Require Import Prelude NodePath JsText Utf8 IpAddr.

Local Open Scope Z_scope.
Local Open Scope js_scope.

Definition MAX_PACKET_LENGTH : Z := 4096.
Definition MIN_PACKET_LENGTH : Z := 20.
Definition MAX_ATTRIBUTE_VALUE_LENGTH : Z := 253.

Definition ACCESS_REQUEST : Z := 1.
Definition ACCESS_ACCEPT : Z := 2.
Definition ACCESS_REJECT : Z := 3.
Definition ACCOUNTING_REQUEST : Z := 4.
Definition ACCOUNTING_RESPONSE : Z := 5.
Definition ACCESS_CHALLENGE : Z := 11.
Definition DISCONNECT_REQUEST : Z := 40.
Definition DISCONNECT_ACK : Z := 41.
Definition DISCONNECT_NAK : Z := 42.
Definition COA_REQUEST : Z := 43.
Definition COA_ACK : Z := 44.
Definition COA_NAK : Z := 45.

Definition USER_NAME : Z := 1.
Definition USER_PASSWORD : Z := 2.
Definition CHAP_PASSWORD : Z := 3.
Definition NAS_IP_ADDRESS : Z := 4.
Definition NAS_PORT : Z := 5.
Definition SERVICE_TYPE : Z := 6.
Definition FRAMED_PROTOCOL : Z := 7.
Definition FRAMED_IP_ADDRESS : Z := 8.
Definition FRAMED_IP_NETMASK : Z := 9.
Definition FILTER_ID : Z := 11.
Definition REPLY_MESSAGE : Z := 18.
Definition STATE : Z := 24.
Definition CLASS : Z := 25.
Definition VENDOR_SPECIFIC : Z := 26.
Definition SESSION_TIMEOUT : Z := 27.
Definition IDLE_TIMEOUT : Z := 28.
Definition CALLED_STATION_ID : Z := 30.
Definition CALLING_STATION_ID : Z := 31.
Definition NAS_IDENTIFIER : Z := 32.
Definition PROXY_STATE : Z := 33.
Definition ACCT_STATUS_TYPE : Z := 40.
Definition ACCT_SESSION_ID : Z := 44.
Definition ACCT_MULTI_SESSION_ID : Z := 50.
Definition CHAP_CHALLENGE : Z := 60.
Definition MESSAGE_AUTHENTICATOR : Z := 80.
Definition NAS_PORT_ID : Z := 87.
Definition CHARGEABLE_USER_IDENTITY : Z := 89.
Definition NAS_IPV6_ADDRESS : Z := 95.
Definition FRAMED_INTERFACE_ID : Z := 96.
Definition FRAMED_IPV6_PREFIX : Z := 97.
Definition ERROR_CAUSE : Z := 101.

(** ** Values of attributes *)

Record radius_attr := { attr_type : Z; attr_value : buffer }.

#[export] Instance radius_attr_eq_dec : EqDecision radius_attr.
Proof. solve_decision. Defined.

Definition attr (type : Z) (value : buffer) : radius_attr := {| attr_type := type; attr_value := value |}.

Definition stringToBuffer (value : jsstring) : buffer := utf8_encode value.

Definition numberToBuffer (num : Z) : result buffer :=
  if (num <? 0) || (4294967295 <? num) then Throw (ErrorMsg "RADIUS integer attribute out of range")
  else writeUInt32BE (alloc 4) num 0.

Definition octet (part : jsstring) : result Z :=
  match Number_text part with
  | Some n => if (n <? 0) || (255 <? n) then Throw (ErrorMsg "Invalid IPv4 address") else Ok n
  | None => Throw (ErrorMsg "Invalid IPv4 address")
  end.

Definition ipToBuffer (ip : jsstring) : result buffer :=
  let parts := split_on 46 ip in
  guard! blen parts =? 4 else ErrorMsg "Invalid IPv4 address" in
  map_ok octet parts.

Definition bufferToIp (b : buffer) : jsstring := if blen b =? 4 then join_with 46 (map dec_digits b) else [].

Definition stringAttr (type : Z) (value : jsstring) : radius_attr := attr type (stringToBuffer value).

Definition integerAttr (type : Z) (value : Z) : result radius_attr := let! b := numberToBuffer value in Ok (attr type b).

Definition ipAttr (type : Z) (value : jsstring) : result radius_attr := let! b := ipToBuffer value in Ok (attr type b).

Section Addresses.
Context `{IpAddr}.

Definition ipv6ToBuffer (ip : jsstring) : result buffer :=
  match ip_parse ip with
  | Some (ipv6, bytes) => Ok bytes
  | _ => Throw (ErrorMsg "Invalid IPv6 address")
  end.

Definition bufferToIpv6 (b : buffer) : jsstring := if blen b =? 16 then toLowerCase (ip_toString (ipv6, b)) else [].

(** [.replace(/^\[/, '').replace(/\]$/, '')] *)
Definition without_brackets (value : jsstring) : jsstring :=
  let value := match value with 91 :: tl => tl | _ => value end in
  match reverse value with 93 :: tl => reverse tl | _ => value end.

Definition normalizeAddress (address : jsstring) : jsstring :=
  match address with
  | [] => []
  | _ =>
    let value := default [] (head (split_on 37 (without_brackets (trim_text address)))) in
    match ip_parse value with
    | Some (ipv6, bytes) =>
      if isIPv4MappedAddress (ipv6, bytes) then ip_toString (ipv4, drop 12 bytes) else toLowerCase (ip_toString (ipv6, bytes))
    | Some a => toLowerCase (ip_toString a)
    | None =>
      let prefix := js "::ffff:" in
      toLowerCase (if bool_decide (take (length prefix) value = prefix) then drop (length prefix) value else value)
    end
  end.

Definition ipv6PrefixAttr (type : Z) (prefix : jsstring) : result radius_attr :=
  match split_on 47 prefix with
  | address :: lengthText :: _ =>
    match Number_text lengthText with
    | Some prefixLength =>
      if (prefixLength <? 0) || (128 <? prefixLength) then Throw (ErrorMsg "Invalid IPv6 prefix length")
      else
        let! addressBuffer := ipv6ToBuffer address in
        let prefixBytes := (prefixLength + 7) / 8 in
        Ok (attr type ([0; prefixLength] ++ subarray addressBuffer 0 prefixBytes))
    | None => Throw (ErrorMsg "Invalid IPv6 prefix length")
    end
  | _ => Throw (ErrorMsg "Invalid IPv6 prefix length")
  end.
End Addresses.

Definition vendorSpecificAttr (vendor type : Z) (value : jsstring) : result radius_attr :=
  let payload := stringToBuffer value in
  guard! negb ((vendor <? 1) || (4294967295 <? vendor)) else ErrorMsg "Invalid RADIUS vendor id" in
  guard! negb ((type <? 1) || (255 <? type)) else ErrorMsg "Invalid RADIUS vendor attribute type" in
  guard! negb (247 <? blen payload) else ErrorMsg "Vendor-Specific payload is longer than 247 octets" in
  let! b := writeUInt32BE (alloc (6 + blen payload)) vendor 0 in
  let! b := writeUInt8 b type 4 in
  let! b := writeUInt8 b (2 + blen payload) 5 in
  Ok (attr VENDOR_SPECIFIC (copy_into payload b 6)).

(** ** Encoding *)

Definition encodeAttribute (a : radius_attr) : result buffer :=
  guard! negb ((attr_type a <? 1) || (255 <? attr_type a)) else ErrorMsg "Invalid RADIUS attribute type" in
  guard! negb (MAX_ATTRIBUTE_VALUE_LENGTH <? blen (attr_value a)) else ErrorMsg "RADIUS attribute is longer than 253 octets" in
  let! b := writeUInt8 (alloc (2 + blen (attr_value a))) (attr_type a) 0 in
  let! b := writeUInt8 b (2 + blen (attr_value a)) 1 in
  Ok (copy_into (attr_value a) b 2).

Definition encodeAttributes (attributes : list radius_attr) : result buffer :=
  let! parts := map_ok encodeAttribute attributes in Ok (concat parts).

(** The first 20 bytes: [writeUInt8(code)], [writeUInt8(identifier & 0xff)], [writeUInt16BE(length)] and
    the authenticator. *)
Definition write_header (b : buffer) (code identifier len : Z) (authenticator : buffer) : result buffer :=
  let! b := writeUInt8 b code 0 in
  let! b := writeUInt8 b (js_and identifier 255) 1 in
  let! b := writeUInt16BE b len 2 in
  Ok (copy_into authenticator b 4).

Definition buildPacket (code identifier : Z) (authenticator : buffer) (attributes : list radius_attr) : result buffer :=
  let! attrs := encodeAttributes attributes in
  let len := MIN_PACKET_LENGTH + blen attrs in
  guard! negb (MAX_PACKET_LENGTH <? len) else ErrorMsg "RADIUS packet is longer than 4096 octets" in
  let! packet := write_header (alloc len) code identifier len authenticator in
  Ok (copy_into attrs packet MIN_PACKET_LENGTH).

(** ** Parsing *)

Record radius_packet := {
  code : Z; identifier : Z; packet_length : Z;
  authenticator : buffer;
  attributes : list radius_attr;
  raw : buffer;
  paddingLength : Z
}.

(** [while (offset < length)]. *)
Fixpoint parse_attrs (fuel : nat) (raw : buffer) (offset : Z) (acc : list radius_attr) : run (list radius_attr) :=
  if offset <? blen raw then
    match fuel with
    | O => None
    | S f =>
      if blen raw <? offset + 2 then Some (Throw (ErrorMsg "RADIUS attribute header is truncated"))
      else
        let type := byte_at raw offset in
        let attrLength := byte_at raw (offset + 1) in
        if attrLength <? 2 then Some (Throw (ErrorMsg "Invalid RADIUS attribute length"))
        else if blen raw <? offset + attrLength then Some (Throw (ErrorMsg "RADIUS attribute extends beyond packet length"))
        else parse_attrs f raw (offset + attrLength) (acc ++ [attr type (subarray raw (offset + 2) (offset + attrLength))])
    end
  else Some (Ok acc).

Definition parsePacket (b : buffer) : run radius_packet :=
  if blen b <? MIN_PACKET_LENGTH then Some (Throw (ErrorMsg "RADIUS packet shorter than 20 octets"))
  else
    let len := read_field 2 b 2 in
    if (len <? MIN_PACKET_LENGTH) || (MAX_PACKET_LENGTH <? len) then Some (Throw (ErrorMsg "Invalid RADIUS packet length"))
    else if blen b <? len then Some (Throw (ErrorMsg "RADIUS packet truncated"))
    else
      let raw := subarray b 0 len in
      let? attributes := parse_attrs (length b) raw MIN_PACKET_LENGTH [] in
      Some (Ok {| code := byte_at b 0; identifier := byte_at b 1; packet_length := len;
                  authenticator := subarray raw 4 20; attributes := attributes; raw := raw;
                  paddingLength := blen b - len |}).

(** ** Reading attributes *)

Definition getAttributes (l : list radius_attr) (type : Z) : list radius_attr := List.filter (fun a => attr_type a =? type) l.
Definition getFirstAttribute (l : list radius_attr) (type : Z) : option radius_attr := head (getAttributes l type).
Definition hasAttribute (l : list radius_attr) (type : Z) : bool := bool_decide (is_Some (getFirstAttribute l type)).

Fixpoint drop_nuls (s : jsstring) : jsstring :=
  match s with
  | 0 :: tl => drop_nuls tl
  | _ => s
  end.

(** [text.replace(/\0+$/g, '')] *)
Definition strip_nuls (s : jsstring) : jsstring := reverse (drop_nuls (reverse s)).

Definition getString (l : list radius_attr) (type : Z) : jsstring :=
  match getFirstAttribute l type with
  | Some a => strip_nuls (utf8_decode (attr_value a))
  | None => []
  end.

Definition getInteger (l : list radius_attr) (type : Z) : option Z :=
  match getFirstAttribute l type with
  | Some a => if blen (attr_value a) =? 4 then Some (read_field 4 (attr_value a) 0) else None
  | None => None
  end.

Definition getIp (l : list radius_attr) (type : Z) : jsstring :=
  match getFirstAttribute l type with
  | Some a => bufferToIp (attr_value a)
  | None => []
  end.

Definition getIpv6 `{IpAddr} (l : list radius_attr) (type : Z) : jsstring :=
  match getFirstAttribute l type with
  | Some a => bufferToIpv6 (attr_value a)
  | None => []
  end.

Definition prefix_text `{IpAddr} (value : buffer) : jsstring :=
  if (blen value <? 2) || (18 <? blen value) then []
  else
    let prefixLength := byte_at value 1 in
    if 128 <? prefixLength then []
    else bufferToIpv6 (copy_into (take (Z.to_nat (Z.min 16 (blen value - 2))) (subarray_from value 2)) (alloc 16) 0) ++
         [47] ++ dec_digits prefixLength.

Definition getIpv6Prefix `{IpAddr} (l : list radius_attr) (type : Z) : jsstring :=
  match getFirstAttribute l type with
  | Some a => prefix_text (attr_value a)
  | None => []
  end.

Definition getProxyStateAttributes (l : list radius_attr) : list radius_attr :=
  map (fun a => attr PROXY_STATE (attr_value a)) (getAttributes l PROXY_STATE).

(** ** Authenticators *)

Definition normalizeSecret (secret : jsstring) : result buffer :=
  match secret with
  | [] => Throw (ErrorMsg "RADIUS shared secret cannot be empty")
  | _ => Ok (utf8_encode secret)
  end.

Definition replaceAuthenticator (packet authenticator : buffer) : buffer := copy_into authenticator packet 4.

(** [while (offset < copy.length)] of [zeroMessageAuthenticator]; [fill] throws when the
    attribute does not end inside the packet. *)
Fixpoint zero_loop (fuel : nat) (copy : buffer) (offset : Z) : run buffer :=
  if offset <? blen copy then
    match fuel with
    | O => None
    | S f =>
      match readUInt8 copy offset, readUInt8 copy (offset + 1) with
      | Ok type, Ok len =>
        if (type =? MESSAGE_AUTHENTICATOR) && (len =? 18) then
          if blen copy <? offset + 18 then Some (Throw RangeError)
          else zero_loop f (splice copy (offset + 2) (alloc 16)) (offset + len)
        else zero_loop f copy (offset + len)
      | _, _ => Some (Throw RangeError)
      end
    end
  else Some (Ok copy).

Definition zeroMessageAuthenticator (packet : buffer) : run buffer := zero_loop (length packet) packet MIN_PACKET_LENGTH.

Fixpoint insert_loop (fuel : nat) (copy value : buffer) (offset : Z) : run buffer :=
  if offset <? blen copy then
    match fuel with
    | O => None
    | S f =>
      match readUInt8 copy offset, readUInt8 copy (offset + 1) with
      | Ok type, Ok len =>
        if (type =? MESSAGE_AUTHENTICATOR) && (len =? 18) then Some (Ok (copy_into value copy (offset + 2)))
        else insert_loop f copy value (offset + len)
      | _, _ => Some (Throw RangeError)
      end
    end
  else Some (Ok copy).

Definition insertMessageAuthenticator (packet value : buffer) : run buffer := insert_loop (length packet) packet value MIN_PACKET_LENGTH.

Definition hasMessageAuthenticator (l : list radius_attr) : bool := existsb (fun a => attr_type a =? MESSAGE_AUTHENTICATOR) l.

Definition withMessageAuthenticator (l : list radius_attr) (required : bool) : list radius_attr :=
  if negb required || hasMessageAuthenticator l then l else l ++ [attr MESSAGE_AUTHENTICATOR (alloc 16)].

Section Crypto.
(** [crypto.createHash('md5')] over the parts of a message and [crypto.createHmac('md5', key)]. *)
Context (md5 : buffer -> buffer) (hmacMd5 : buffer -> buffer -> buffer).

Definition safeEqual (a b : buffer) : bool := bool_decide (a = b).

Definition computeResponseAuthenticator (code identifier : Z) (requestAuthenticator : buffer) (l : list radius_attr) (secret : jsstring)
    : result buffer :=
  let! attrs := encodeAttributes l in
  let! header := write_header (alloc MIN_PACKET_LENGTH) code identifier (MIN_PACKET_LENGTH + blen attrs) requestAuthenticator in
  let! key := normalizeSecret secret in
  Ok (md5 (header ++ attrs ++ key)).

Definition buildResponsePacket (code identifier : Z) (requestAuthenticator : buffer) (l : list radius_attr) (secret : jsstring)
    (includeMessageAuthenticator : bool) : run buffer :=
  let responseAttrs := withMessageAuthenticator l includeMessageAuthenticator in
  let? packet := Some (buildPacket code identifier requestAuthenticator responseAttrs) in
  let? packet := if includeMessageAuthenticator then
                   let? hmacPacket := zeroMessageAuthenticator (replaceAuthenticator packet requestAuthenticator) in
                   let? key := Some (normalizeSecret secret) in
                   insertMessageAuthenticator packet (hmacMd5 key hmacPacket)
                 else Some (Ok packet) in
  let finalAttrs := subarray_from packet MIN_PACKET_LENGTH in
  let? header := Some (write_header (alloc MIN_PACKET_LENGTH) code identifier (blen packet) requestAuthenticator) in
  let? key := Some (normalizeSecret secret) in
  Some (Ok (copy_into (md5 (header ++ finalAttrs ++ key)) packet 4)).

(** The header with an authenticator of zeros. *)
Definition computeAccountingRequestAuthenticator (code identifier : Z) (l : list radius_attr) (secret : jsstring) : result buffer :=
  computeResponseAuthenticator code identifier (alloc 16) l secret.

Definition buildAccountingLikeRequestPacket (code identifier : Z) (l : list radius_attr) (secret : jsstring)
    (includeMessageAuthenticator : bool) : run buffer :=
  let attrs := withMessageAuthenticator l includeMessageAuthenticator in
  let? requestAuth := Some (computeAccountingRequestAuthenticator code identifier attrs secret) in
  let? packet := Some (buildPacket code identifier requestAuth attrs) in
  if includeMessageAuthenticator then
    let? zeroed := zeroMessageAuthenticator packet in
    let? key := Some (normalizeSecret secret) in
    let? packet := insertMessageAuthenticator packet (hmacMd5 key (replaceAuthenticator zeroed (alloc 16))) in
    let? parsed := parsePacket packet in
    let? requestAuth := Some (computeAccountingRequestAuthenticator code identifier (attributes parsed) secret) in
    Some (Ok (copy_into requestAuth packet 4))
  else Some (Ok packet).

Definition verifyAccountingLikeRequest (packet : radius_packet) (secret : jsstring) : result bool :=
  let! expected := computeAccountingRequestAuthenticator (code packet) (identifier packet) (attributes packet) secret in
  Ok (safeEqual expected (authenticator packet)).

Definition computeAccessMessageAuthenticator (packet : radius_packet) (secret : jsstring) (requestAuthenticator : option buffer) : run buffer :=
  let? hmacPacket := zeroMessageAuthenticator (raw packet) in
  let hmacPacket := match requestAuthenticator with
                    | Some a => replaceAuthenticator hmacPacket a
                    | None => hmacPacket
                    end in
  let? key := Some (normalizeSecret secret) in
  Some (Ok (hmacMd5 key hmacPacket)).

Definition verifyAccessMessageAuthenticator (packet : radius_packet) (secret : jsstring) (requestAuthenticator : option buffer) : run bool :=
  match getFirstAttribute (attributes packet) MESSAGE_AUTHENTICATOR with
  | Some item =>
    if negb (blen (attr_value item) =? 16) then Some (Ok false)
    else let? expected := computeAccessMessageAuthenticator packet secret requestAuthenticator in
         Some (Ok (safeEqual expected (attr_value item)))
  | None => Some (Ok false)
  end.

Definition computeDynamicRequestMessageAuthenticator (packet : radius_packet) (secret : jsstring) : run buffer :=
  let? zeroed := zeroMessageAuthenticator (raw packet) in
  let? key := Some (normalizeSecret secret) in
  Some (Ok (hmacMd5 key (replaceAuthenticator zeroed (alloc 16)))).

Definition verifyDynamicRequestMessageAuthenticator (packet : radius_packet) (secret : jsstring) : run bool :=
  match getFirstAttribute (attributes packet) MESSAGE_AUTHENTICATOR with
  | Some item =>
    if negb (blen (attr_value item) =? 16) then Some (Ok false)
    else let? expected := computeDynamicRequestMessageAuthenticator packet secret in
         Some (Ok (safeEqual expected (attr_value item)))
  | None => Some (Ok false)
  end.

(** ** Passwords *)

(** [for (let i = 0; i < 16; i++) out[i] = block[i] ^ digest[i]] into 16 zero bytes. *)
Definition xor_block (block digest : buffer) : buffer :=
  map (fun i => js_xor (byte_at block (Z.of_nat i)) (byte_at digest (Z.of_nat i)) mod 256) (seq 0 16).

(** [for (offset = 0; offset < padded.length; offset += 16)]: one turn for each block. *)
Fixpoint encrypt_blocks (n : nat) (padded key previous : buffer) : buffer :=
  match n with
  | O => []
  | S m =>
    let cipher := xor_block (take 16 padded) (md5 (key ++ previous)) in
    cipher ++ encrypt_blocks m (drop 16 padded) key cipher
  end.

Definition encryptUserPassword (password secret : jsstring) (requestAuthenticator : buffer) : result buffer :=
  let passwordBuffer := stringToBuffer password in
  guard! negb (128 <? blen passwordBuffer) else ErrorMsg "RADIUS User-Password cannot exceed 128 octets" in
  let paddedLength := Z.max 16 ((blen passwordBuffer + 15) / 16 * 16) in
  let padded := copy_into passwordBuffer (alloc paddedLength) 0 in
  let! key := normalizeSecret secret in
  Ok (encrypt_blocks (Z.to_nat (blen padded / 16)) padded key requestAuthenticator).

Fixpoint decrypt_blocks (n : nat) (encrypted key previous : buffer) : buffer :=
  match n with
  | O => []
  | S m =>
    let cipher := take 16 encrypted in
    xor_block cipher (md5 (key ++ previous)) ++ decrypt_blocks m (drop 16 encrypted) key cipher
  end.

Definition decryptUserPassword (encrypted : buffer) (secret : jsstring) (requestAuthenticator : buffer) : result jsstring :=
  guard! negb ((blen encrypted <? 16) || (128 <? blen encrypted) || negb (blen encrypted mod 16 =? 0))
    else ErrorMsg "Invalid RADIUS User-Password attribute length" in
  let! key := normalizeSecret secret in
  Ok (strip_nuls (utf8_decode (decrypt_blocks (Z.to_nat (blen encrypted / 16)) encrypted key requestAuthenticator))).

Definition verifyChapPassword (packet : radius_packet) (clearTextPassword : jsstring) : bool :=
  match getFirstAttribute (attributes packet) CHAP_PASSWORD with
  | Some chap =>
    if negb (blen (attr_value chap) =? 17) then false
    else
      let challenge := match getFirstAttribute (attributes packet) CHAP_CHALLENGE with
                       | Some a => attr_value a
                       | None => authenticator packet
                       end in
      safeEqual (md5 (take 1 (attr_value chap) ++ stringToBuffer clearTextPassword ++ challenge)) (drop 1 (attr_value chap))
  | None => false
  end.

Definition buildChapPassword (chapId : Z) (clearTextPassword : jsstring) (challenge : buffer) : buffer :=
  [js_and chapId 255] ++ md5 ([js_and chapId 255] ++ stringToBuffer clearTextPassword ++ challenge).
End Crypto.

(** ** The bytes of a packet *)

Definition enc (a : radius_attr) : buffer := [attr_type a; 2 + blen (attr_value a)] ++ attr_value a.
Definition enc_all (l : list radius_attr) : buffer := concat (map enc l).

Definition header (code identifier len : Z) (auth : buffer) : buffer := [code; identifier mod 256] ++ be_bytes 2 len ++ auth.

Definition packet_bytes (code identifier : Z) (auth : buffer) (l : list radius_attr) : buffer :=
  header code identifier (20 + blen (enc_all l)) auth ++ enc_all l.

(** An attribute the parser can return, and one the encoder accepts. *)
Definition attr_wf (a : radius_attr) : Prop := is_byte (attr_type a) /\ blen (attr_value a) <= 253 /\ bytes_ok (attr_value a).
Definition attr_ok (a : radius_attr) : Prop := 1 <= attr_type a <= 255 /\ blen (attr_value a) <= 253.

Lemma encode_ok a : attr_ok a -> encodeAttribute a = Ok (enc a).
Proof.
  intros [Ht Hl]. unfold encodeAttribute. decide_test (attr_type a <? 1) false. decide_test (255 <? attr_type a) false.
  unfold MAX_ATTRIBUTE_VALUE_LENGTH. decide_test (253 <? blen (attr_value a)) false. cbn [orb negb].
  pose proof (blen_nonneg (attr_value a)).
  change (alloc (2 + blen (attr_value a))) with ([] ++ alloc (2 + blen (attr_value a))).
  rewrite write8_filled by (done || unfold is_byte; lia). cbn [bind_result]. rewrite write8_filled by (done || unfold is_byte; lia).
  cbn [bind_result]. rewrite copy_filled by (done || lia).
  replace (2 + blen (attr_value a) - 1 - 1 - blen (attr_value a)) with 0 by lia. unfold alloc, enc. cbn [Z.to_nat replicate].
  by rewrite app_nil_r.
Qed.

Lemma encode_throws a : bytes_ok (attr_value a) -> attr_type a < 1 -> exists e, encodeAttribute a = Throw e.
Proof. intros _ Ht. unfold encodeAttribute. decide_test (attr_type a <? 1) true. cbn [orb negb]. by eexists. Qed.

Lemma encode_all l : Forall attr_ok l -> encodeAttributes l = Ok (enc_all l).
Proof.
  intros Hl. unfold encodeAttributes. rewrite (map_ok_all _ enc); [done|].
  eapply Forall_impl; [|exact Hl]. apply encode_ok.
Qed.

Lemma enc_all_app l1 l2 : enc_all (l1 ++ l2) = enc_all l1 ++ enc_all l2.
Proof. unfold enc_all. by rewrite map_app, concat_app. Qed.

Lemma blen_enc a : blen (enc a) = 2 + blen (attr_value a).
Proof. unfold enc. autorewrite with blen. lia. Qed.

Lemma blen_packet_header code identifier len auth : length auth = 16%nat -> blen (header code identifier len auth) = 20.
Proof. intros Ha. unfold header. autorewrite with blen. unfold blen. rewrite Ha. lia. Qed.

Lemma identifier_mask x : js_and x 255 = x mod 256.
Proof. exact (js_and_mask x 8 ltac:(lia)). Qed.

Lemma write_header_ok code identifier len auth room :
  is_byte code -> 0 <= len < 65536 -> length auth = 16%nat -> 20 <= room ->
  write_header (alloc room) code identifier len auth = Ok (header code identifier len auth ++ alloc (room - 20)).
Proof.
  intros Hc Hl Ha Hr. unfold write_header. change (alloc room) with ([] ++ alloc room).
  rewrite write8_filled by (done || lia). cbn [bind_result]. rewrite identifier_mask.
  pose proof (Z.mod_pos_bound identifier 256 ltac:(lia)).
  rewrite write8_filled by (done || unfold is_byte; lia). cbn [bind_result]. unfold writeUInt16BE.
  rewrite write_filled by (done || lia). cbn [bind_result].
  rewrite copy_filled by (done || unfold blen; rewrite ?Ha; lia).
  replace (room - 1 - 1 - Z.of_nat 2 - blen auth) with (room - 20) by (unfold blen; rewrite Ha; lia). done.
Qed.

Lemma build_ok code identifier auth l :
  is_byte code -> length auth = 16%nat -> Forall attr_ok l -> 20 + blen (enc_all l) <= 4096 ->
  buildPacket code identifier auth l = Ok (packet_bytes code identifier auth l).
Proof.
  intros Hc Ha Hl Hlen. unfold buildPacket. rewrite encode_all by done. cbn [bind_result].
  pose proof (blen_nonneg (enc_all l)). unfold MIN_PACKET_LENGTH, MAX_PACKET_LENGTH.
  decide_test (4096 <? 20 + blen (enc_all l)) false. cbn [negb].
  rewrite write_header_ok by (done || lia). cbn [bind_result].
  rewrite copy_filled by (by rewrite blen_packet_header || lia).
  replace (20 + blen (enc_all l) - 20 - blen (enc_all l)) with 0 by lia. unfold packet_bytes, alloc. cbn [Z.to_nat replicate].
  by rewrite app_nil_r.
Qed.

(** ** Parsing reads the attributes back *)

Lemma byte_at_next (b pre : buffer) x y post i : b = pre ++ x :: y :: post -> i = blen pre + 1 -> byte_at b i = y.
Proof.
  intros -> ->. replace (pre ++ x :: y :: post) with ((pre ++ [x]) ++ y :: post) by (by rewrite <- app_assoc).
  replace (blen pre + 1) with (blen (pre ++ [x])) by (autorewrite with blen; lia). apply byte_at_here.
Qed.

Lemma parse_attrs_step a fuel pre post acc :
  blen (attr_value a) <= 253 ->
  parse_attrs (S fuel) (pre ++ enc a ++ post) (blen pre) acc =
  parse_attrs fuel (pre ++ enc a ++ post) (blen (pre ++ enc a)) (acc ++ [a]).
Proof.
  intros Ha. pose proof (blen_nonneg (attr_value a)). pose proof (blen_nonneg post). cbn [parse_attrs].
  assert (blen (pre ++ enc a ++ post) = blen pre + 2 + blen (attr_value a) + blen post) as Hlen
    by (rewrite !blen_app, blen_enc; lia).
  rewrite Hlen. decide_test (blen pre <? blen pre + 2 + blen (attr_value a) + blen post) true.
  decide_test (blen pre + 2 + blen (attr_value a) + blen post <? blen pre + 2) false.
  assert (byte_at (pre ++ enc a ++ post) (blen pre) = attr_type a) as -> by apply byte_at_here.
  assert (byte_at (pre ++ enc a ++ post) (blen pre + 1) = 2 + blen (attr_value a)) as ->
    by (by eapply (byte_at_next _ pre (attr_type a) _ (attr_value a ++ post))).
  decide_test (2 + blen (attr_value a) <? 2) false.
  decide_test (blen pre + 2 + blen (attr_value a) + blen post <? blen pre + (2 + blen (attr_value a))) false.
  assert (subarray (pre ++ enc a ++ post) (blen pre + 2) (blen pre + (2 + blen (attr_value a))) = attr_value a) as ->.
  { unfold enc. change (pre ++ ([attr_type a; 2 + blen (attr_value a)] ++ attr_value a) ++ post)
      with (pre ++ ([attr_type a; 2 + blen (attr_value a)] ++ (attr_value a ++ post))).
    rewrite (app_assoc pre). replace (blen pre + 2) with (blen (pre ++ [attr_type a; 2 + blen (attr_value a)])) by (autorewrite with blen; lia).
    replace (blen pre + (2 + blen (attr_value a))) with (blen (pre ++ [attr_type a; 2 + blen (attr_value a)]) + blen (attr_value a))
      by (autorewrite with blen; lia). apply subarray_mid. }
  rewrite blen_app, blen_enc. by destruct a.
Qed.

Lemma parse_attrs_run l : forall pre fuel acc,
  Forall (fun a => blen (attr_value a) <= 253) l -> (length l <= fuel)%nat ->
  parse_attrs fuel (pre ++ enc_all l) (blen pre) acc = Some (Ok (acc ++ l)).
Proof.
  induction l as [|a l IH]; intros pre fuel acc Hl Hf.
  - unfold enc_all. cbn [map concat]. rewrite app_nil_r. destruct fuel; cbn [parse_attrs]; rewrite Z.ltb_irrefl; by rewrite app_nil_r.
  - apply Forall_cons_iff in Hl as [Ha Hl]. destruct fuel as [|fuel]; [cbn [length] in Hf; lia|].
    change (enc_all (a :: l)) with (enc a ++ enc_all l). rewrite parse_attrs_step by done. rewrite (app_assoc pre).
    rewrite IH by (done || cbn [length] in Hf; lia). by rewrite <- app_assoc.
Qed.

Lemma length_enc_all l : (length l <= length (enc_all l))%nat.
Proof. induction l as [|a l IH]; [done|]. change (enc_all (a :: l)) with (enc a ++ enc_all l). rewrite length_app. unfold enc. cbn [length app]. lia. Qed.

Lemma parse_built code identifier auth l padding :
  is_byte code -> length auth = 16%nat -> Forall (fun a => blen (attr_value a) <= 253) l -> 20 + blen (enc_all l) <= 4096 ->
  parsePacket (packet_bytes code identifier auth l ++ padding) = Some (Ok {|
    code := code; identifier := identifier mod 256; packet_length := 20 + blen (enc_all l); authenticator := auth;
    attributes := l; raw := packet_bytes code identifier auth l; paddingLength := blen padding |}).
Proof.
  intros Hc Ha Hl Hlen. set (b := packet_bytes code identifier auth l). pose proof (blen_nonneg (enc_all l)). pose proof (blen_nonneg padding).
  assert (blen b = 20 + blen (enc_all l)) as Hb by (unfold b, packet_bytes; rewrite blen_app, blen_packet_header by done; lia).
  unfold parsePacket, MIN_PACKET_LENGTH, MAX_PACKET_LENGTH. rewrite blen_app, Hb.
  decide_test (20 + blen (enc_all l) + blen padding <? 20) false.
  assert (read_field 2 (b ++ padding) 2 = 20 + blen (enc_all l)) as ->.
  { eapply (read_field_at 2 2 _ [code; identifier mod 256] _ (auth ++ enc_all l ++ padding)); [|done | done |].
    - unfold b, packet_bytes, header. by rewrite <- !app_assoc.
    - change (2 ^ (8 * Z.of_nat 2)) with 65536. lia. }
  decide_test (20 + blen (enc_all l) <? 20) false. decide_test (4096 <? 20 + blen (enc_all l)) false. cbn [orb].
  decide_test (20 + blen (enc_all l) + blen padding <? 20 + blen (enc_all l)) false.
  assert (subarray (b ++ padding) 0 (20 + blen (enc_all l)) = b) as -> by (rewrite <- Hb; apply subarray_app_l).
  assert (parse_attrs (length (b ++ padding)) b 20 [] = Some (Ok l)) as ->.
  { pose proof (parse_attrs_run l (header code identifier (20 + blen (enc_all l)) auth) (length (b ++ padding)) [] Hl) as Hp.
    rewrite blen_packet_header in Hp by done. apply Hp. pose proof (length_enc_all l). unfold b, packet_bytes. rewrite !length_app. lia. }
  cbn [bind_run].
  assert (subarray b 4 20 = auth) as ->.
  { unfold b, packet_bytes, header. replace (([code; identifier mod 256] ++ be_bytes 2 (20 + blen (enc_all l)) ++ auth) ++ enc_all l)
      with (([code; identifier mod 256] ++ be_bytes 2 (20 + blen (enc_all l))) ++ auth ++ enc_all l) by (by rewrite <- !app_assoc).
    replace 20 with (4 + blen auth) at 2 by (unfold blen; rewrite Ha; lia). 
    exact (subarray_mid ([code; identifier mod 256] ++ be_bytes 2 (20 + blen (enc_all l))) auth (enc_all l)). }
  replace (20 + blen (enc_all l) + blen padding - (20 + blen (enc_all l))) with (blen padding) by lia. done.
Qed.

(** ** What the parser accepts is what the encoder writes *)

Lemma parse_attrs_inv fuel : forall raw offset acc,
  bytes_ok raw -> 20 <= offset <= blen raw -> (length raw < fuel + Z.to_nat offset)%nat ->
  (exists e, parse_attrs fuel raw offset acc = Some (Throw e)) \/
  exists l, parse_attrs fuel raw offset acc = Some (Ok (acc ++ l)) /\ Forall attr_wf l /\ subarray_from raw offset = enc_all l.
Proof.
  induction fuel as [|f IH]; intros raw offset acc Hb Ho Hf; cbn [parse_attrs]; destruct (offset <? blen raw) eqn:E; bool_hyps.
  - unfold blen in *. lia.
  - right. exists []. rewrite app_nil_r. split; [done|]. split; [constructor|]. unfold subarray_from, blen in *. by rewrite drop_ge by lia.
  - destruct (blen raw <? offset + 2) eqn:E2; [left; by eexists|]. bool_hyps.
    destruct (byte_at raw (offset + 1) <? 2) eqn:E3; [left; by eexists|].
    destruct (blen raw <? offset + byte_at raw (offset + 1)) eqn:E4; [left; by eexists|]. bool_hyps.
    set (n := byte_at raw (offset + 1)) in *. pose proof (byte_at_nonneg raw (offset + 1) Hb) as Hn. fold n in Hn.
    set (a := attr (byte_at raw offset) (subarray raw (offset + 2) (offset + n))).
    assert (blen (attr_value a) = n - 2) as Hv by (cbn; rewrite blen_subarray; lia).
    destruct (IH raw (offset + n) (acc ++ [a]) Hb) as [[e He]|(l & Hl & Hwf & Hs)]; [lia | lia | left; by exists e|].
    right. exists (a :: l). rewrite Hl, <- app_assoc. split; [done|]. split.
    + constructor; [|done]. split; [apply byte_at_nonneg; done|]. split; [lia | by apply bytes_ok_subarray].
    + change (enc_all (a :: l)) with (enc a ++ enc_all l). rewrite <- Hs. unfold enc. rewrite Hv. replace (2 + (n - 2)) with n by lia.
      rewrite subarray_from_byte by lia. rewrite subarray_from_byte by lia. replace (offset + 1 + 1) with (offset + 2) by lia.
      rewrite (subarray_from_split raw (offset + 2) (offset + n)) by lia. done.
  - right. exists []. rewrite app_nil_r. split; [done|]. split; [constructor|]. unfold subarray_from, blen in *. by rewrite drop_ge by lia.
Qed.

(** What a parsed packet is made of. *)
Record parsed_ok (p : radius_packet) : Prop := {
  po_code : is_byte (code p);
  po_identifier : is_byte (identifier p);
  po_auth : length (authenticator p) = 16%nat /\ bytes_ok (authenticator p);
  po_attrs : Forall attr_wf (attributes p);
  po_size : 20 + blen (enc_all (attributes p)) <= 4096;
  po_length : packet_length p = 20 + blen (enc_all (attributes p));
  po_raw : raw p = packet_bytes (code p) (identifier p) (authenticator p) (attributes p)
}.

Lemma parse_total b : bytes_ok b -> exists r, parsePacket b = Some r /\ forall p, r = Ok p -> parsed_ok p.
Proof.
  intros Hb. unfold parsePacket, MIN_PACKET_LENGTH, MAX_PACKET_LENGTH. destruct (blen b <? 20) eqn:E1; [by eexists|].
  destruct (_ || _) eqn:E2; [by eexists|]. destruct (blen b <? read_field 2 b 2) eqn:E3; [by eexists|]. bool_hyps.
  set (len := read_field 2 b 2) in *. set (r := subarray b 0 len). assert (bytes_ok r) as Hr by (by apply bytes_ok_subarray).
  assert (blen r = len) as Hlen by (unfold r; rewrite blen_subarray; lia).
  destruct (parse_attrs_inv (length b) r 20 [] Hr) as [[e He]|(l & Hl & Hwf & Hs)]; [lia | unfold blen in *; lia | |].
  - rewrite He. cbn [bind_run]. by eexists.
  - rewrite Hl. cbn [bind_run app]. eexists. split; [done|]. intros p [= <-].
    assert (blen (subarray r 4 20) = 16) as Ha by (rewrite blen_subarray; lia).
    assert (blen (enc_all l) = len - 20) as He by (rewrite <- Hs, blen_subarray_from; lia).
    assert (r = packet_bytes (byte_at b 0) (byte_at b 1) (subarray r 4 20) l) as Heq.
    { pose proof (subarray_split b len ltac:(lia)) as Hsplit. fold r in Hsplit.
      assert (byte_at b 0 = byte_at r 0) as -> by (unfold byte_at; rewrite Hsplit at 1; by rewrite bget_app_l by lia).
      assert (byte_at b 1 = byte_at r 1) as -> by (unfold byte_at; rewrite Hsplit at 1; by rewrite bget_app_l by lia).
      assert (len = be_value (subarray r 2 4)) as Hval.
      { unfold len at 1, read_field. change (2 + 2) with 4. rewrite Hsplit at 1. by rewrite subarray_app_left by lia. }
      unfold packet_bytes, header. rewrite He, <- Hs. replace (20 + (len - 20)) with len by lia. pose proof (byte_at_nonneg r 1 Hr).
      rewrite Z.mod_small by lia. rewrite Hval at 1.
      assert (be_bytes 2 (be_value (subarray r 2 4)) = subarray r 2 4) as ->.
      { replace 2%nat with (length (subarray r 2 4)) at 1 by (apply Nat2Z.inj; fold (blen (subarray r 2 4)); rewrite blen_subarray; lia).
        by apply be_bytes_be_value, bytes_ok_subarray. }
      change r with (subarray_from r 0) at 1. rewrite subarray_from_byte by lia. rewrite (subarray_from_byte r (0 + 1)) by lia.
      change (0 + 1 + 1) with 2. rewrite (subarray_from_split r 2 4), (subarray_from_split r 4 20) by lia. cbn [app]. by rewrite <- app_assoc. }
    constructor; cbn [code identifier authenticator attributes packet_length raw]; try done.
    + by apply byte_at_nonneg.
    + by apply byte_at_nonneg.
    + split; [unfold blen in Ha; lia | by apply bytes_ok_subarray].
    + lia.
    + lia.
Qed.

(** ** The Message-Authenticator in a packet *)

Definition is_mac (a : radius_attr) : bool := (attr_type a =? MESSAGE_AUTHENTICATOR) && (blen (attr_value a) =? 16).
Definition zero_mac (a : radius_attr) : radius_attr := if is_mac a then attr MESSAGE_AUTHENTICATOR (alloc 16) else a.

Lemma read_type a pre post : readUInt8 (pre ++ enc a ++ post) (blen pre) = Ok (attr_type a).
Proof.
  unfold readUInt8. change (pre ++ enc a ++ post) with (pre ++ [attr_type a] ++ (2 + blen (attr_value a) :: attr_value a ++ post)).
  rewrite read_at by done. by rewrite be_value_1.
Qed.

Lemma read_length a pre post : readUInt8 (pre ++ enc a ++ post) (blen pre + 1) = Ok (2 + blen (attr_value a)).
Proof.
  unfold readUInt8, enc. replace (blen pre + 1) with (blen (pre ++ [attr_type a])) by (autorewrite with blen; lia).
  replace (pre ++ ([attr_type a; 2 + blen (attr_value a)] ++ attr_value a) ++ post)
    with ((pre ++ [attr_type a]) ++ [2 + blen (attr_value a)] ++ (attr_value a ++ post)) by (by rewrite <- !app_assoc).
  rewrite read_at by done. by rewrite be_value_1.
Qed.

Lemma is_mac_length a : ((attr_type a =? MESSAGE_AUTHENTICATOR) && (2 + blen (attr_value a) =? 18)) = is_mac a.
Proof. unfold is_mac. f_equal. apply eq_true_iff_eq. rewrite !Z.eqb_eq. lia. Qed.

Lemma mac_shape a : is_mac a = true -> attr_type a = MESSAGE_AUTHENTICATOR /\ length (attr_value a) = 16%nat.
Proof. unfold is_mac, blen. intros. bool_hyps. split; [done | lia]. Qed.

(** A store over the value of an attribute. *)
Lemma splice_value a pre post v : length v = length (attr_value a) ->
  splice (pre ++ enc a ++ post) (blen pre + 2) v = pre ++ enc (attr (attr_type a) v) ++ post.
Proof.
  intros Hv. unfold enc at 1. replace (pre ++ ([attr_type a; 2 + blen (attr_value a)] ++ attr_value a) ++ post)
    with ((pre ++ [attr_type a; 2 + blen (attr_value a)]) ++ attr_value a ++ post) by (by rewrite <- !app_assoc).
  replace (blen pre + 2) with (blen (pre ++ [attr_type a; 2 + blen (attr_value a)])) by (autorewrite with blen; lia).
  rewrite splice_mid by done. unfold enc, blen. cbn [attr_type attr_value attr]. rewrite Hv. by rewrite <- !app_assoc.
Qed.

Lemma blen_enc_zero a : blen (enc (zero_mac a)) = blen (enc a).
Proof.
  unfold zero_mac. destruct (is_mac a) eqn:E; [|done]. destruct (mac_shape a E) as [_ Hl]. rewrite !blen_enc. cbn [attr_value attr].
  unfold blen. rewrite Hl. done.
Qed.

Lemma zero_step a fuel pre post :
  zero_loop (S fuel) (pre ++ enc a ++ post) (blen pre) =
  zero_loop fuel (pre ++ enc (zero_mac a) ++ post) (blen (pre ++ enc (zero_mac a))).
Proof.
  cbn [zero_loop]. rewrite read_type, read_length. pose proof (blen_nonneg (attr_value a)). pose proof (blen_nonneg post).
  rewrite !blen_app, blen_enc_zero, blen_enc. decide_test (blen pre <? blen pre + (2 + blen (attr_value a) + blen post)) true.
  rewrite is_mac_length. unfold zero_mac. destruct (is_mac a) eqn:E.
  - destruct (mac_shape a E) as [Ht Hl]. assert (blen (attr_value a) = 16) as Hl' by (unfold blen; rewrite Hl; done).
    rewrite Hl'. decide_test (blen pre + (2 + 16 + blen post) <? blen pre + 18) false.
    rewrite splice_value by (by rewrite Hl). by rewrite Ht.
  - f_equal; lia.
Qed.

Lemma zero_run l : forall pre fuel, (length l <= fuel)%nat ->
  zero_loop fuel (pre ++ enc_all l) (blen pre) = Some (Ok (pre ++ enc_all (map zero_mac l))).
Proof.
  induction l as [|a l IH]; intros pre fuel Hf.
  - unfold enc_all. cbn [map concat]. rewrite app_nil_r. destruct fuel; cbn [zero_loop]; by rewrite Z.ltb_irrefl.
  - destruct fuel as [|fuel]; [cbn [length] in Hf; lia|]. change (enc_all (a :: l)) with (enc a ++ enc_all l).
    rewrite zero_step. rewrite (app_assoc pre), IH by (cbn [length] in Hf; lia). cbn [map].
    change (enc_all (zero_mac a :: map zero_mac l)) with (enc (zero_mac a) ++ enc_all (map zero_mac l)). by rewrite <- app_assoc.
Qed.

Lemma insert_step a fuel pre post v :
  length v = 16%nat ->
  insert_loop (S fuel) (pre ++ enc a ++ post) v (blen pre) =
  if is_mac a then Some (Ok (pre ++ enc (attr MESSAGE_AUTHENTICATOR v) ++ post))
  else insert_loop fuel (pre ++ enc a ++ post) v (blen (pre ++ enc a)).
Proof.
  intros Hv. cbn [insert_loop]. rewrite read_type, read_length. pose proof (blen_nonneg (attr_value a)). pose proof (blen_nonneg post).
  rewrite !blen_app, blen_enc. decide_test (blen pre <? blen pre + (2 + blen (attr_value a) + blen post)) true.
  rewrite is_mac_length. destruct (is_mac a) eqn:E.
  - destruct (mac_shape a E) as [Ht Hl]. unfold copy_into. assert (blen v = 16) as Hv' by (unfold blen; rewrite Hv; done).
    rewrite take_ge.
    + rewrite splice_value by (by rewrite Hl). by rewrite Ht.
    + assert (blen (attr_value a) = 16) as Hl' by (unfold blen; rewrite Hl; done). rewrite Hv, !blen_app, blen_enc, Hl'. lia.
  - f_equal; lia.
Qed.

Lemma insert_run v l1 a l2 : forall pre fuel,
  length v = 16%nat -> Forall (fun x => is_mac x = false) l1 -> is_mac a = true -> (length l1 < fuel)%nat ->
  insert_loop fuel (pre ++ enc_all (l1 ++ a :: l2)) v (blen pre) =
  Some (Ok (pre ++ enc_all (l1 ++ attr MESSAGE_AUTHENTICATOR v :: l2))).
Proof.
  induction l1 as [|x l1 IH]; intros pre fuel Hv Hl1 Ha Hf; (destruct fuel as [|fuel]; [lia|]).
  - cbn [app]. change (enc_all (a :: l2)) with (enc a ++ enc_all l2). rewrite insert_step by done. rewrite Ha. done.
  - apply Forall_cons_iff in Hl1 as [Hx Hl1]. cbn [app]. change (enc_all (x :: l1 ++ a :: l2)) with (enc x ++ enc_all (l1 ++ a :: l2)).
    rewrite insert_step by done. rewrite Hx, (app_assoc pre), IH by (done || cbn [length] in Hf; lia).
    change (enc_all (x :: l1 ++ attr MESSAGE_AUTHENTICATOR v :: l2)) with (enc x ++ enc_all (l1 ++ attr MESSAGE_AUTHENTICATOR v :: l2)).
    by rewrite <- app_assoc.
Qed.

Lemma zero_packet code identifier auth l : length auth = 16%nat ->
  zeroMessageAuthenticator (packet_bytes code identifier auth l) =
  Some (Ok (header code identifier (20 + blen (enc_all l)) auth ++ enc_all (map zero_mac l))).
Proof.
  intros Ha. unfold zeroMessageAuthenticator, MIN_PACKET_LENGTH, packet_bytes.
  pose proof (zero_run l (header code identifier (20 + blen (enc_all l)) auth)) as Hz. rewrite blen_packet_header in Hz by done.
  apply Hz. rewrite length_app. pose proof (length_enc_all l). lia.
Qed.

Lemma blen_enc_all_zero l : blen (enc_all (map zero_mac l)) = blen (enc_all l).
Proof.
  induction l as [|a l IH]; [done|]. cbn [map]. change (enc_all (zero_mac a :: map zero_mac l)) with (enc (zero_mac a) ++ enc_all (map zero_mac l)).
  change (enc_all (a :: l)) with (enc a ++ enc_all l). rewrite !blen_app, blen_enc_zero. lia.
Qed.

Lemma replace_packet code identifier len auth auth' rest : length auth = 16%nat -> length auth' = 16%nat ->
  replaceAuthenticator (header code identifier len auth ++ rest) auth' = header code identifier len auth' ++ rest.
Proof.
  intros Ha Ha'. unfold replaceAuthenticator, copy_into, header. rewrite take_ge.
  - replace (([code; identifier mod 256] ++ be_bytes 2 len ++ auth) ++ rest)
      with (([code; identifier mod 256] ++ be_bytes 2 len) ++ auth ++ rest) by (by rewrite <- !app_assoc).
    change 4 with (blen ([code; identifier mod 256] ++ be_bytes 2 len)). rewrite splice_mid by (by rewrite Ha, Ha').
    by rewrite <- !app_assoc.
  - rewrite Ha'. pose proof (blen_packet_header code identifier len auth Ha) as Hb. unfold header in Hb. rewrite blen_app, Hb.
    pose proof (blen_nonneg rest). lia.
Qed.

(** ** Authentic packets *)

Section Authentic.
Context (md5 : buffer -> buffer) (hmacMd5 : buffer -> buffer -> buffer).
Hypothesis md5_digest : forall m, length (md5 m) = 16%nat /\ bytes_ok (md5 m).
Hypothesis hmac_digest : forall k m, length (hmacMd5 k m) = 16%nat /\ bytes_ok (hmacMd5 k m).
Context (secret : jsstring).
Hypothesis secret_given : secret <> [].

Lemma secret_key : normalizeSecret secret = Ok (utf8_encode secret).
Proof. unfold normalizeSecret. by destruct secret. Qed.

(** A value of the Message-Authenticator at the end of the attributes. *)
Definition with_mac (l : list radius_attr) (mac : buffer) : list radius_attr := l ++ [attr MESSAGE_AUTHENTICATOR mac].

Definition no_mac (l : list radius_attr) : Prop := Forall (fun a => attr_type a <> MESSAGE_AUTHENTICATOR) l.

Lemma no_mac_has l : no_mac l -> hasMessageAuthenticator l = false.
Proof.
  intros Hl. unfold hasMessageAuthenticator. apply not_true_iff_false. rewrite existsb_exists. intros (a & Ha & E). apply Z.eqb_eq in E.
  apply list.Forall_forall with (x := a) in Hl; [done | by apply list_elem_of_In].
Qed.

Lemma no_mac_is l : no_mac l -> Forall (fun a => is_mac a = false) l.
Proof. intros Hl. eapply Forall_impl; [|exact Hl]. intros a Ha. unfold is_mac. by rewrite (proj2 (Z.eqb_neq _ _) Ha). Qed.

Lemma zero_no_mac l : no_mac l -> map zero_mac l = l.
Proof. induction 1 as [|a l Ha _ IH]; [done|]. cbn [map]. rewrite IH. unfold zero_mac, is_mac. by rewrite (proj2 (Z.eqb_neq _ _) Ha). Qed.

Lemma is_mac_attr mac : length mac = 16%nat -> is_mac (attr MESSAGE_AUTHENTICATOR mac) = true.
Proof. intros Hm. unfold is_mac, blen. cbn [attr_type attr_value attr]. by rewrite Hm. Qed.

Lemma zero_with_mac l mac : no_mac l -> length mac = 16%nat -> map zero_mac (with_mac l mac) = with_mac l (alloc 16).
Proof.
  intros Hl Hm. unfold with_mac. rewrite map_app, zero_no_mac by done. cbn [map]. unfold zero_mac. by rewrite is_mac_attr.
Qed.

Lemma blen_with_mac l mac : length mac = 16%nat -> blen (enc_all (with_mac l mac)) = blen (enc_all l) + 18.
Proof. intros Hm. unfold with_mac. rewrite enc_all_app, blen_app. unfold enc_all at 2. cbn [map concat]. rewrite app_nil_r, blen_enc. cbn [attr_value attr]. unfold blen at 2. rewrite Hm. lia. Qed.

Lemma with_mac_ok l mac : Forall attr_ok l -> length mac = 16%nat -> Forall attr_ok (with_mac l mac).
Proof.
  intros Hl Hm. apply list.Forall_app. split; [done|]. constructor; [|constructor]. split; [cbn; unfold MESSAGE_AUTHENTICATOR; lia|].
  cbn [attr_value attr]. unfold blen. rewrite Hm. lia.
Qed.

Lemma insert_packet code identifier auth l mac : length auth = 16%nat -> length mac = 16%nat -> no_mac l ->
  insertMessageAuthenticator (packet_bytes code identifier auth (with_mac l (alloc 16))) mac =
  Some (Ok (packet_bytes code identifier auth (with_mac l mac))).
Proof.
  intros Ha Hm Hl. unfold insertMessageAuthenticator, MIN_PACKET_LENGTH, packet_bytes.
  pose proof (insert_run mac l (attr MESSAGE_AUTHENTICATOR (alloc 16)) []
    (header code identifier (20 + blen (enc_all (with_mac l (alloc 16)))) auth)) as Hi. rewrite blen_packet_header in Hi by done.
  pose proof (blen_with_mac l mac Hm) as H1. pose proof (blen_with_mac l (alloc 16) eq_refl) as H2. unfold with_mac in *.
  rewrite H1, H2 in *. apply Hi.
  - done.
  - by apply no_mac_is.
  - done.
  - rewrite enc_all_app, !length_app. pose proof (length_enc_all l).
    assert (0 < length (enc_all [attr MESSAGE_AUTHENTICATOR (alloc 16)]))%nat by (cbn; lia). lia.
Qed.

(** The authenticator over a header and attributes. *)
Definition digest_of (code identifier : Z) (auth : buffer) (l : list radius_attr) : buffer :=
  md5 (header code identifier (20 + blen (enc_all l)) auth ++ enc_all l ++ utf8_encode secret).

Lemma compute_response code identifier auth l :
  is_byte code -> length auth = 16%nat -> Forall attr_ok l -> 20 + blen (enc_all l) <= 4096 ->
  computeResponseAuthenticator md5 code identifier auth l secret = Ok (digest_of code identifier auth l).
Proof.
  intros Hc Ha Hl Hlen. unfold computeResponseAuthenticator, MIN_PACKET_LENGTH. rewrite encode_all by done. cbn [bind_result].
  pose proof (blen_nonneg (enc_all l)). rewrite write_header_ok by (done || lia). cbn [bind_result]. rewrite secret_key. cbn [bind_result].
  unfold alloc. cbn [Z.sub Z.to_nat replicate]. change (20 + - (20)) with 0. cbn. by rewrite app_nil_r.
Qed.

(** The digest goes into the place of the authenticator. *)
Lemma put_authenticator code identifier len auth auth' rest : length auth = 16%nat -> length auth' = 16%nat ->
  copy_into auth' (header code identifier len auth ++ rest) 4 = header code identifier len auth' ++ rest.
Proof. apply replace_packet. Qed.

Lemma sub_packet code identifier auth l : length auth = 16%nat ->
  subarray_from (packet_bytes code identifier auth l) MIN_PACKET_LENGTH = enc_all l.
Proof.
  intros Ha. unfold packet_bytes. pose proof (subarray_from_app (header code identifier (20 + blen (enc_all l)) auth) (enc_all l)) as Hs.
  by rewrite blen_packet_header in Hs by done.
Qed.

(** The attributes of a response: with its Message-Authenticator, when it has one. *)
Definition response_mac (code identifier : Z) (request : buffer) (l : list radius_attr) : buffer :=
  hmacMd5 (utf8_encode secret)
    (header code identifier (20 + blen (enc_all (with_mac l (alloc 16)))) request ++ enc_all (with_mac l (alloc 16))).

Definition response_attributes (code identifier : Z) (request : buffer) (l : list radius_attr) (include : bool) : list radius_attr :=
  if include then with_mac l (response_mac code identifier request l) else l.

Lemma response_attributes_ok code identifier request l include : Forall attr_ok l ->
  Forall attr_ok (response_attributes code identifier request l include) /\
  blen (enc_all (response_attributes code identifier request l include)) = blen (enc_all l) + if include then 18 else 0.
Proof.
  intros Hl. unfold response_attributes. destruct include; [|split; [done | lia]].
  destruct (hmac_digest (utf8_encode secret) (header code identifier (20 + blen (enc_all (with_mac l (alloc 16)))) request ++
    enc_all (with_mac l (alloc 16)))) as [Hm _]. split; [by apply with_mac_ok | by apply blen_with_mac].
Qed.

(** Every response that fits is built. *)
Lemma response_built code identifier request l include :
  is_byte code -> length request = 16%nat -> Forall attr_ok l -> (include = true -> no_mac l) ->
  20 + blen (enc_all l) + (if include then 18 else 0) <= 4096 ->
  let attrs := response_attributes code identifier request l include in
  buildResponsePacket md5 hmacMd5 code identifier request l secret include =
  Some (Ok (packet_bytes code identifier (digest_of code identifier request attrs) attrs)).
Proof.
  intros Hc Hr Hl Hno Hlen attrs. destruct (response_attributes_ok code identifier request l include Hl) as [Hok Hsize].
  fold attrs in Hok, Hsize. pose proof (blen_nonneg (enc_all l)).
  assert (forall x, is_byte code -> copy_into (md5 x) (packet_bytes code identifier request attrs) 4 = packet_bytes code identifier (md5 x) attrs) as Hput
    by (intros x _; apply put_authenticator; [done | apply md5_digest]).
  assert (blen (packet_bytes code identifier request attrs) = 20 + blen (enc_all attrs)) as Hpk
    by (unfold packet_bytes; rewrite blen_app, blen_packet_header by done; done).
  unfold buildResponsePacket. destruct include; cbn [bind_run].
  - assert (no_mac l) as Hnl by auto. unfold withMessageAuthenticator. rewrite no_mac_has by done. cbn [negb orb].
    fold (with_mac l (alloc 16)). rewrite build_ok; [|done | done | by apply with_mac_ok | by rewrite blen_with_mac by done; lia].
    cbn [bind_run]. unfold packet_bytes at 1. rewrite replace_packet by done. fold (packet_bytes code identifier request (with_mac l (alloc 16))).
    rewrite zero_packet by done. cbn [bind_run]. rewrite zero_with_mac, secret_key by done. cbn [bind_run].
    fold (response_mac code identifier request l). rewrite insert_packet by (done || apply hmac_digest). cbn [bind_run].
    fold attrs. change (with_mac l (response_mac code identifier request l)) with attrs.
    rewrite sub_packet, Hpk by done. unfold MIN_PACKET_LENGTH. rewrite write_header_ok by (done || lia). cbn [bind_run].
    change (alloc (20 - 20)) with (@nil Z). rewrite app_nil_r. by rewrite Hput.
  - change (withMessageAuthenticator l false) with l. change l with attrs. rewrite build_ok by (done || lia). cbn [bind_run].
    rewrite sub_packet, Hpk by done. unfold MIN_PACKET_LENGTH. rewrite write_header_ok by (done || lia). cbn [bind_run].
    rewrite secret_key. cbn [bind_run]. change (alloc (20 - 20)) with (@nil Z). rewrite app_nil_r. by rewrite Hput.
Qed.

Lemma attr_ok_length l : Forall attr_ok l -> Forall (fun a => blen (attr_value a) <= 253) l.
Proof. intros Hl. eapply Forall_impl; [|exact Hl]. by intros a [_ ?]. Qed.

Lemma first_mac l mac : no_mac l -> getFirstAttribute (with_mac l mac) MESSAGE_AUTHENTICATOR = Some (attr MESSAGE_AUTHENTICATOR mac).
Proof.
  intros Hl. unfold getFirstAttribute, getAttributes, with_mac. induction Hl as [|a l Ha _ IH]; [done|].
  cbn [app List.filter]. by rewrite (proj2 (Z.eqb_neq _ _) Ha).
Qed.

(** A response is authentic to who knows the secret: whatever padding follows it, the
    packet parses back with the code, the identifier and the attributes it was built with,
    its Response Authenticator is the one computed from the request's, and its
    Message-Authenticator, if asked for, verifies. *)
Lemma response_verifies code0 id request l include padding :
  is_byte code0 -> length request = 16%nat -> Forall attr_ok l -> (include = true -> no_mac l) ->
  20 + blen (enc_all l) + (if include then 18 else 0) <= 4096 ->
  exists packet p,
    buildResponsePacket md5 hmacMd5 code0 id request l secret include = Some (Ok packet) /\
    parsePacket (packet ++ padding) = Some (Ok p) /\
    code p = code0 /\ identifier p = id mod 256 /\ attributes p = response_attributes code0 id request l include /\
    computeResponseAuthenticator md5 (code p) (identifier p) request (attributes p) secret = Ok (authenticator p) /\
    (include = true -> verifyAccessMessageAuthenticator hmacMd5 p secret (Some request) = Some (Ok true)).
Proof.
  intros Hc Hr Hl Hno Hlen. destruct (response_attributes_ok code0 id request l include Hl) as [Hok Hsize].
  rewrite response_built by done. cbv zeta. set (attrs := response_attributes code0 id request l include) in *.
  set (auth := digest_of code0 id request attrs). assert (length auth = 16%nat) as Ha by apply md5_digest.
  eexists _, _. split; [done|]. split; [apply parse_built; try done; [by apply attr_ok_length | destruct include; lia]|].
  split; [done|]. split; [done|]. split; [done|]. cbn [code identifier attributes authenticator]. split.
  - rewrite compute_response by (done || destruct include; lia). unfold auth, digest_of, header. by rewrite Z.mod_mod by lia.
  - intros ->. unfold verifyAccessMessageAuthenticator. cbn [attributes raw]. unfold attrs at 1, response_attributes. rewrite first_mac by auto.
    unfold computeAccessMessageAuthenticator. cbn [attr_value attr raw].
    destruct (hmac_digest (utf8_encode secret) (header code0 id (20 + blen (enc_all (with_mac l (alloc 16)))) request ++
      enc_all (with_mac l (alloc 16)))) as [Hm _]. fold (response_mac code0 id request l) in Hm.
    assert (blen (response_mac code0 id request l) = 16) as -> by (unfold blen; by rewrite Hm). cbn [Z.eqb Pos.eqb negb].
    rewrite zero_packet by done. cbn [bind_run]. unfold attrs, response_attributes. rewrite replace_packet, secret_key, zero_with_mac by auto.
    cbn [bind_run]. rewrite blen_with_mac by done. rewrite <- (blen_with_mac l (alloc 16)) by done.
    fold (response_mac code0 id request l). do 2 f_equal. unfold safeEqual. by apply bool_decide_eq_true.
Qed.

(** An accounting, disconnect or CoA request that a client builds verifies. *)
Lemma request_verifies code0 id l include padding :
  is_byte code0 -> Forall attr_ok l -> (include = true -> no_mac l) -> 20 + blen (enc_all l) + (if include then 18 else 0) <= 4096 ->
  exists packet p mac,
    buildAccountingLikeRequestPacket md5 hmacMd5 code0 id l secret include = Some (Ok packet) /\
    parsePacket (packet ++ padding) = Some (Ok p) /\
    code p = code0 /\ identifier p = id mod 256 /\ attributes p = (if include then with_mac l mac else l) /\
    length (authenticator p) = 16%nat /\
    verifyAccountingLikeRequest md5 p secret = Ok true /\
    (include = true -> verifyDynamicRequestMessageAuthenticator hmacMd5 p secret = Some (Ok true)).
Proof.
  intros Hc Hl Hno Hlen. pose proof (blen_nonneg (enc_all l)). unfold buildAccountingLikeRequestPacket, computeAccountingRequestAuthenticator.
  destruct include; cbn [bind_run].
  - assert (no_mac l) as Hnl by auto. unfold withMessageAuthenticator. rewrite no_mac_has by done. cbn [negb orb]. fold (with_mac l (alloc 16)).
    pose proof (blen_with_mac l (alloc 16) eq_refl) as H0. assert (Forall attr_ok (with_mac l (alloc 16))) as Hok by (by apply with_mac_ok).
    rewrite compute_response by (done || lia). cbn [bind_run]. rewrite build_ok by (done || apply md5_digest || lia). cbn [bind_run].
    rewrite zero_packet by apply md5_digest. cbn [bind_run]. rewrite secret_key, zero_with_mac, replace_packet by (done || apply md5_digest).
    cbn [bind_run]. set (mac := hmacMd5 _ _). assert (length mac = 16%nat) as Hm by apply hmac_digest.
    rewrite insert_packet by (done || apply md5_digest). cbn [bind_run].
    assert (Forall attr_ok (with_mac l mac)) as Hokm by (by apply with_mac_ok). pose proof (blen_with_mac l mac Hm) as H1.
    rewrite <- (app_nil_r (packet_bytes _ _ _ _)). rewrite parse_built; [|done | apply md5_digest | by apply attr_ok_length | lia].
    cbn [bind_run attributes]. rewrite compute_response by (done || lia). cbn [bind_run]. rewrite app_nil_r.
    unfold packet_bytes at 1. rewrite put_authenticator by apply md5_digest.
    set (auth := digest_of code0 id (alloc 16) (with_mac l mac)). assert (length auth = 16%nat) as Ha by apply md5_digest.
    fold (packet_bytes code0 id auth (with_mac l mac)).
    eexists _, _, mac. split; [done|]. split; [apply parse_built; try done; [by apply attr_ok_length | lia]|]. do 4 (split; [done|]).
    split.
    + unfold verifyAccountingLikeRequest, computeAccountingRequestAuthenticator. cbn [code identifier attributes authenticator].
      rewrite compute_response by (done || lia). cbn [bind_result]. f_equal. apply bool_decide_eq_true.
      unfold auth, digest_of, header. by rewrite Z.mod_mod by lia.
    + intros _. unfold verifyDynamicRequestMessageAuthenticator, computeDynamicRequestMessageAuthenticator. cbn [attributes raw].
      rewrite first_mac by done. cbn [attr_value attr]. assert (blen mac = 16) as -> by (unfold blen; by rewrite Hm). cbn [Z.eqb Pos.eqb negb].
      rewrite zero_packet by done. cbn [bind_run]. rewrite secret_key, replace_packet, zero_with_mac by done. cbn [bind_run].
      rewrite H1, <- H0. fold mac. do 2 f_equal. by apply bool_decide_eq_true.
  - unfold withMessageAuthenticator. cbn [negb orb]. rewrite compute_response by (done || lia). cbn [bind_run].
    rewrite build_ok by (done || apply md5_digest || lia). cbn [bind_run].
    eexists _, _, []. split; [done|]. split; [apply parse_built; try done; [apply md5_digest | by apply attr_ok_length | lia]|].
    do 3 (split; [done|]). split; [apply md5_digest|]. split; [|done]. unfold verifyAccountingLikeRequest, computeAccountingRequestAuthenticator.
    cbn [code identifier attributes authenticator]. rewrite compute_response by (done || lia). cbn [bind_result]. f_equal.
    apply bool_decide_eq_true. unfold digest_of, header. by rewrite Z.mod_mod by lia.
Qed.
End Authentic.

(** ** Passwords are read back *)

Section Password.
Context (md5 : buffer -> buffer).
Hypothesis md5_digest : forall m, length (md5 m) = 16%nat /\ bytes_ok (md5 m).

Lemma length_xor b d : length (xor_block b d) = 16%nat.
Proof. done. Qed.

Lemma byte_at_xor b d i : (i < 16)%nat -> byte_at (xor_block b d) (Z.of_nat i) = js_xor (byte_at b (Z.of_nat i)) (byte_at d (Z.of_nat i)) mod 256.
Proof.
  intros Hi. unfold byte_at at 1, bget. decide_test (Z.of_nat i <? 0) false. unfold xor_block.
  rewrite Nat2Z.id, list_lookup_fmap, lookup_seq_lt by done. done.
Qed.

Lemma xor_block_twice b d : length b = 16%nat -> bytes_ok b -> bytes_ok d -> xor_block (xor_block b d) d = b.
Proof.
  intros Hl Hb Hd. apply list_eq. intros i. destruct (decide (i < 16)%nat) as [Hi|Hi].
  - unfold xor_block at 1. rewrite list_lookup_fmap, lookup_seq_lt by done. cbn [fmap option_fmap option_map Nat.add].
    rewrite byte_at_xor by done. pose proof (byte_at_nonneg b (Z.of_nat i) Hb) as H1. pose proof (byte_at_nonneg d (Z.of_nat i) Hd) as H2.
    destruct (js_xor_bytes (byte_at b (Z.of_nat i)) (byte_at d (Z.of_nat i)) H1 H2) as [_ H3]. unfold is_byte in H3.
    rewrite (Z.mod_small (js_xor (byte_at b (Z.of_nat i)) (byte_at d (Z.of_nat i)))) by lia. rewrite js_xor_twice by done. rewrite Z.mod_small by lia.
    destruct (lookup_lt_is_Some_2 b i) as [x Hx]; [lia|]. rewrite Hx. unfold byte_at, bget.
    decide_test (Z.of_nat i <? 0) false. by rewrite Nat2Z.id, Hx.
  - rewrite !lookup_ge_None_2; [done | lia | rewrite length_xor; lia].
Qed.

Lemma bytes_ok_xor b d : bytes_ok b -> bytes_ok d -> bytes_ok (xor_block b d).
Proof. intros _ _. apply Forall_map, Forall_forall. intros i _. apply Z.mod_pos_bound. lia. Qed.

Lemma decrypt_encrypt n key : forall padded previous,
  length padded = (16 * n)%nat -> bytes_ok padded ->
  length (encrypt_blocks md5 n padded key previous) = (16 * n)%nat /\
  decrypt_blocks md5 n (encrypt_blocks md5 n padded key previous) key previous = padded.
Proof.
  induction n as [|n IH]; intros padded previous Hl Hb; [by destruct padded|]. cbn [encrypt_blocks decrypt_blocks].
  set (cipher := xor_block (take 16 padded) (md5 (key ++ previous))). destruct (md5_digest (key ++ previous)) as [Hd Hdb].
  destruct (IH (drop 16 padded) cipher) as [IH1 IH2]; [rewrite length_drop; lia | by apply Forall_drop|].
  assert (length cipher = 16%nat) as Hc by apply length_xor. split; [rewrite length_app; lia|].
  rewrite take_app_length', drop_app_length' by done. rewrite IH2. unfold cipher.
  rewrite xor_block_twice; [by rewrite take_drop | rewrite length_take; lia | by apply Forall_take | done].
Qed.

Lemma decode_zeros n : utf8_decode (replicate n 0) = replicate n 0.
Proof.
  destruct (utf8_ascii (replicate n 0)) as [Hok He]; [apply Forall_replicate; lia|].
  rewrite <- He at 1. by apply utf8_round_trip.
Qed.

Lemma strip_zeros s n : strip_nuls (s ++ replicate n 0) = strip_nuls s.
Proof.
  unfold strip_nuls. f_equal. rewrite reverse_app, reverse_replicate. induction n as [|n IH]; [done|]. cbn [replicate app drop_nuls]. done.
Qed.

Lemma text_bytes s : utf16_ok s = true -> bytes_ok (utf8_encode s).
Proof.
  intros Hs. destruct (code_points_ok s Hs) as [Hp _]. unfold utf8_encode.
  induction Hp as [|p ps Hp _ IH]; [constructor|]. cbn [map concat]. apply bytes_ok_app. split; [by apply bytes_ok_point | done].
Qed.

(** The server reads the password a client has hidden, up to NUL characters at its end. *)
Lemma password_read_back password secret request :
  utf16_ok password = true -> blen (utf8_encode password) <= 128 -> secret <> [] ->
  exists e, encryptUserPassword md5 password secret request = Ok e /\ 16 <= blen e <= 128 /\
    decryptUserPassword md5 e secret request = Ok (strip_nuls password).
Proof.
  intros Hp Hl Hs. unfold encryptUserPassword, stringToBuffer. set (pw := utf8_encode password) in *.
  pose proof (blen_nonneg pw). decide_test (128 <? blen pw) false. cbn [negb]. rewrite secret_key by done. cbn [bind_result].
  set (m := Z.max 16 ((blen pw + 15) / 16 * 16)). assert (16 <= m <= 128 /\ m mod 16 = 0 /\ blen pw <= m) as (Hm & Hmod & Hfit) by (unfold m; zdiv).
  change (alloc m) with ([] ++ alloc m). rewrite copy_filled by done. cbn [app]. set (padded := pw ++ alloc (m - blen pw)).
  assert (blen padded = m) as Hpl by (unfold padded; rewrite blen_app, blen_alloc by lia; lia). rewrite Hpl.
  assert (length padded = 16 * Z.to_nat (m / 16))%nat as Hpl'.
  { assert (16 * (m / 16) = m) by zdiv. assert (0 <= m / 16) by zdiv. unfold blen in Hpl. lia. }
  assert (bytes_ok padded) as Hpb by (apply bytes_ok_app; split; [by apply text_bytes | apply bytes_ok_alloc]).
  destruct (decrypt_encrypt (Z.to_nat (m / 16)) (utf8_encode secret) padded request Hpl' Hpb) as [Hel Hd].
  eexists. split; [done|]. set (e := encrypt_blocks _ _ _ _ _) in *. assert (blen e = m) as Hem by (unfold blen in *; lia).
  split; [by rewrite Hem|]. unfold decryptUserPassword. rewrite Hem. decide_test (m <? 16) false. decide_test (128 <? m) false.
  rewrite Hmod. cbn [Z.eqb negb orb]. rewrite secret_key by done. cbn [bind_result]. rewrite Hd. unfold padded, pw.
  rewrite utf8_decode_app by done. unfold alloc. by rewrite decode_zeros, strip_zeros.
Qed.

(** A CHAP password that a client builds for the right clear text verifies. *)
Lemma chap_verifies p id password challenge :
  getFirstAttribute (attributes p) CHAP_PASSWORD = Some (attr CHAP_PASSWORD (buildChapPassword md5 id password challenge)) ->
  challenge = default (authenticator p) (attr_value <$> getFirstAttribute (attributes p) CHAP_CHALLENGE) ->
  verifyChapPassword md5 p password = true.
Proof.
  intros Hc ->. unfold verifyChapPassword. rewrite Hc. cbn [attr_value attr]. unfold buildChapPassword.
  set (ch := default _ _). destruct (md5_digest ([js_and id 255] ++ stringToBuffer password ++ ch)) as [Hl _].
  assert (blen ([js_and id 255] ++ md5 ([js_and id 255] ++ stringToBuffer password ++ ch)) = 17) as -> by (rewrite blen_app; unfold blen at 2; rewrite Hl; done).
  cbn [Z.eqb Pos.eqb negb]. cbn [app take drop]. rewrite take_0, drop_0.
  assert (match getFirstAttribute (attributes p) CHAP_CHALLENGE with Some a => attr_value a | None => authenticator p end = ch) as ->
    by (unfold ch; by destruct (getFirstAttribute (attributes p) CHAP_CHALLENGE)).
  by apply bool_decide_eq_true.
Qed.
End Password.

(** ** Every response is built or refused *)

Section Total.
Context (md5 : buffer -> buffer) (hmacMd5 : buffer -> buffer -> buffer).
Hypothesis hmac_digest : forall k m, length (hmacMd5 k m) = 16%nat /\ bytes_ok (hmacMd5 k m).

Lemma map_ok_inv {A B} (f : A -> result B) (P : A -> Prop) l ys :
  (forall x y, f x = Ok y -> P x) -> map_ok f l = Ok ys -> Forall P l.
Proof.
  intros Hf. revert ys. induction l as [|x l IH]; intros ys Hm; [constructor|]. cbn [map_ok] in Hm.
  apply bind_ok in Hm as (y & Hy & Hm). apply bind_ok in Hm as (zs & Hz & _). constructor; [by eapply Hf | by eapply IH].
Qed.

Lemma encode_inv a b : encodeAttribute a = Ok b -> attr_ok a.
Proof.
  unfold encodeAttribute, MAX_ATTRIBUTE_VALUE_LENGTH. destruct ((attr_type a <? 1) || (255 <? attr_type a)) eqn:E1; [done|].
  destruct (253 <? blen (attr_value a)) eqn:E2; [done|]. intros _. bool_hyps. split; lia.
Qed.

Lemma encode_all_inv l b : encodeAttributes l = Ok b -> Forall attr_ok l /\ b = enc_all l.
Proof.
  intros He. assert (Forall attr_ok l) as Hl.
  { unfold encodeAttributes in He. apply bind_ok in He as (ps & Hp & _). eapply map_ok_inv; [apply encode_inv | exact Hp]. }
  split; [done|]. rewrite encode_all in He by done. by injection He.
Qed.

Lemma build_inv code0 id auth l p : is_byte code0 -> length auth = 16%nat -> buildPacket code0 id auth l = Ok p ->
  p = packet_bytes code0 id auth l /\ Forall attr_ok l /\ 20 + blen (enc_all l) <= 4096.
Proof.
  intros Hc Ha Hb. assert (Forall attr_ok l) as Hl.
  { unfold buildPacket in Hb. apply bind_ok in Hb as (attrs & He & _). by apply encode_all_inv in He as [? _]. }
  assert (20 + blen (enc_all l) <= 4096) as Hlen.
  { unfold buildPacket in Hb. rewrite encode_all in Hb by done. cbn [bind_result] in Hb. unfold MIN_PACKET_LENGTH, MAX_PACKET_LENGTH in Hb.
    destruct (4096 <? 20 + blen (enc_all l)) eqn:E; [done|]. by bool_hyps. }
  rewrite build_ok in Hb by done. split; [by injection Hb | done].
Qed.

Lemma insert_total v l : forall pre fuel, length v = 16%nat -> (length l <= fuel)%nat ->
  exists l', length l' = length l /\ blen (enc_all l') = blen (enc_all l) /\
    insert_loop fuel (pre ++ enc_all l) v (blen pre) = Some (Ok (pre ++ enc_all l')).
Proof.
  induction l as [|a l IH]; intros pre fuel Hv Hf.
  - exists []. split; [done|]. split; [done|]. unfold enc_all. cbn [map concat]. rewrite app_nil_r. destruct fuel; cbn [insert_loop]; by rewrite Z.ltb_irrefl.
  - destruct fuel as [|fuel]; [cbn [length] in Hf; lia|]. change (enc_all (a :: l)) with (enc a ++ enc_all l). rewrite insert_step by done.
    destruct (is_mac a) eqn:E.
    + exists (attr MESSAGE_AUTHENTICATOR v :: l). split; [done|]. destruct (mac_shape a E) as [_ Hl]. split; [|done].
      change (enc_all (attr MESSAGE_AUTHENTICATOR v :: l)) with (enc (attr MESSAGE_AUTHENTICATOR v) ++ enc_all l).
      rewrite !blen_app, !blen_enc. cbn [attr_value attr]. unfold blen at 1 3. by rewrite Hv, Hl.
    + destruct (IH (pre ++ enc a) fuel Hv) as (l' & Hl & Hb & Hi); [cbn [length] in Hf; lia|].
      exists (a :: l'). split; [cbn [length]; by rewrite Hl|]. change (enc_all (a :: l')) with (enc a ++ enc_all l').
      split; [rewrite !blen_app; lia|]. by rewrite (app_assoc pre), Hi, <- app_assoc.
Qed.

Lemma response_total code0 id request l secret include :
  is_byte code0 -> length request = 16%nat -> is_Some (buildResponsePacket md5 hmacMd5 code0 id request l secret include).
Proof.
  intros Hc Hr. unfold buildResponsePacket. set (attrs := withMessageAuthenticator l include).
  destruct (buildPacket code0 id request attrs) as [p|e] eqn:Eb; cbn [bind_run]; [|by eexists].
  apply build_inv in Eb as (-> & Hl & Hlen); [|done | done].
  assert (forall p : buffer, is_Some (let? header := Some (write_header (alloc MIN_PACKET_LENGTH) code0 id (blen p) request) in
    let? key := Some (normalizeSecret secret) in
    Some (Ok (copy_into (md5 (header ++ subarray_from p MIN_PACKET_LENGTH ++ key)) p 4)))) as Hlast.
  { intros p. destruct (write_header _ _ _ _ _); cbn [bind_run]; [|by eexists]. destruct (normalizeSecret secret); by eexists. }
  destruct include; cbn [bind_run]; [|apply Hlast].
  unfold packet_bytes at 1. rewrite replace_packet by done. fold (packet_bytes code0 id request attrs). rewrite zero_packet by done.
  cbn [bind_run]. destruct (normalizeSecret secret) as [k|e]; cbn [bind_run]; [|by eexists].
  unfold insertMessageAuthenticator, MIN_PACKET_LENGTH.
  destruct (insert_total (hmacMd5 k (header code0 id (20 + blen (enc_all attrs)) request ++ enc_all (map zero_mac attrs))) attrs
    (header code0 id (20 + blen (enc_all attrs)) request) (length (packet_bytes code0 id request attrs))) as (l' & _ & _ & Hi);
    [apply hmac_digest | unfold packet_bytes; rewrite length_app; pose proof (length_enc_all attrs); lia|].
  rewrite blen_packet_header in Hi by done. fold (packet_bytes code0 id request attrs) in Hi. rewrite Hi. cbn [bind_run]. apply Hlast.
Qed.

(** The checks of a parsed packet end. *)
Lemma access_mac_total p secret request : parsed_ok p -> is_Some (verifyAccessMessageAuthenticator hmacMd5 p secret request).
Proof.
  intros Hp. unfold verifyAccessMessageAuthenticator. destruct (getFirstAttribute _ _) as [a|]; [|by eexists]. case_if; [by eexists|].
  unfold computeAccessMessageAuthenticator. rewrite (po_raw _ Hp), zero_packet by apply (po_auth _ Hp). cbn [bind_run].
  destruct (normalizeSecret secret); cbn [bind_run]; by eexists.
Qed.

Lemma dynamic_mac_total p secret : parsed_ok p -> is_Some (verifyDynamicRequestMessageAuthenticator hmacMd5 p secret).
Proof.
  intros Hp. unfold verifyDynamicRequestMessageAuthenticator. destruct (getFirstAttribute _ _) as [a|]; [|by eexists]. case_if; [by eexists|].
  unfold computeDynamicRequestMessageAuthenticator. rewrite (po_raw _ Hp), zero_packet by apply (po_auth _ Hp). cbn [bind_run].
  destruct (normalizeSecret secret); cbn [bind_run]; by eexists.
Qed.

Hypothesis md5_digest : forall m, length (md5 m) = 16%nat /\ bytes_ok (md5 m).

(** The first byte of a response is its code. *)
Lemma response_code code0 id request l secret include b :
  is_byte code0 -> length request = 16%nat ->
  buildResponsePacket md5 hmacMd5 code0 id request l secret include = Some (Ok b) -> byte_at b 0 = code0.
Proof.
  intros Hc Hr. unfold buildResponsePacket. set (attrs := withMessageAuthenticator l include).
  destruct (buildPacket code0 id request attrs) as [p|e] eqn:Eb; cbn [bind_run]; [|done].
  apply build_inv in Eb as (-> & Hl & Hlen); [|done | done].
  assert (forall ks len rest b0, (let? header0 := Some (write_header (alloc MIN_PACKET_LENGTH) code0 id (blen (header code0 id len request ++ rest)) request) in
    let? key := Some ks in
    Some (Ok (copy_into (md5 (header0 ++ subarray_from (header code0 id len request ++ rest) MIN_PACKET_LENGTH ++ key)) (header code0 id len request ++ rest) 4)))
      = Some (Ok b0) -> byte_at b0 0 = code0) as Hlast.
  { intros ks len rest b0. destruct (write_header _ _ _ _ _); cbn [bind_run]; [|done]. destruct ks; cbn [bind_run]; [|done].
    rewrite put_authenticator by (done || apply md5_digest). intros [= <-]. by apply (byte_at_here []). }
  destruct include; cbn [bind_run]; [|apply (Hlast (normalizeSecret secret))].
  unfold packet_bytes at 1. rewrite replace_packet by done. fold (packet_bytes code0 id request attrs). rewrite zero_packet by done.
  cbn [bind_run]. destruct (normalizeSecret secret) as [k|e]; cbn [bind_run]; [|done].
  unfold insertMessageAuthenticator, MIN_PACKET_LENGTH.
  destruct (insert_total (hmacMd5 k (header code0 id (20 + blen (enc_all attrs)) request ++ enc_all (map zero_mac attrs))) attrs
    (header code0 id (20 + blen (enc_all attrs)) request) (length (packet_bytes code0 id request attrs))) as (l' & _ & _ & Hi);
    [apply hmac_digest | unfold packet_bytes; rewrite length_app; pose proof (length_enc_all attrs); lia|].
  rewrite blen_packet_header in Hi by done. fold (packet_bytes code0 id request attrs) in Hi. rewrite Hi. cbn [bind_run].
  apply (Hlast (Ok k)).
Qed.
End Total.
