(* ===== verification/RadiusWorker.v ===== *)
(** The RADIUS server: [electron/worker/services/radiusWorker.js].

    A datagram on one of the three ports is handled by [handleAuthMessage],
    [handleAccountingMessage] or [handleCoaMessage] at a time [now]; a handler ends with the
    datagrams and reports it causes, or with an exception that nothing catches.  Random
    bytes and the digest of a request are given from outside.  Texts of messages and the
    display form of attributes are left out of the request log. *)

From stdpp Require Import base list numbers strings option.
From Stdlib Require Import ZArith Lia.
From S2P Require Import Prelude NodePath JsText JsMap Utf8 IpAddr RadiusPacket.

Local Open Scope Z_scope.
Local Open Scope js_scope.

Definition START : Z := 1.
Definition STOP : Z := 2.
Definition INTERIM_UPDATE : Z := 3.
Definition ACCOUNTING_OFF : Z := 8.

Definition AUTHORIZE_ONLY : Z := 17.

Definition UNSUPPORTED_ATTRIBUTE : Z := 401.
Definition MISSING_ATTRIBUTE : Z := 402.
Definition UNSUPPORTED_SERVICE : Z := 405.
Definition SESSION_CONTEXT_NOT_FOUND : Z := 503.

Inductive auth_method := PAP | CHAP | CHALLENGE | UNKNOWN.

#[export] Instance auth_method_eq_dec : EqDecision auth_method.
Proof. solve_decision. Defined.

Inductive request_status := ACCEPTED | REJECTED | CHALLENGED | ACCOUNTED | ACK | NAK | IGNORED | ERROR.

Definition IDENTIFICATION_ATTRIBUTES : list Z :=
  [USER_NAME; NAS_IP_ADDRESS; NAS_IDENTIFIER; NAS_PORT; FRAMED_IP_ADDRESS; CALLED_STATION_ID; CALLING_STATION_ID; ACCT_SESSION_ID;
   ACCT_MULTI_SESSION_ID; NAS_PORT_ID; CHARGEABLE_USER_IDENTITY; NAS_IPV6_ADDRESS; FRAMED_INTERFACE_ID; FRAMED_IPV6_PREFIX;
   VENDOR_SPECIFIC].

Definition COA_AUTHORIZATION_ATTRIBUTES : list Z :=
  [SERVICE_TYPE; FILTER_ID; FRAMED_IP_ADDRESS; FRAMED_IPV6_PREFIX; FRAMED_IP_NETMASK; SESSION_TIMEOUT; IDLE_TIMEOUT; CLASS].

Definition META_ATTRIBUTES : list Z := [PROXY_STATE; MESSAGE_AUTHENTICATOR].

Definition isIdentification (a : radius_attr) : bool := bool_decide (attr_type a ∈ IDENTIFICATION_ATTRIBUTES).
Definition isAuthorization (a : radius_attr) : bool := bool_decide (attr_type a ∈ COA_AUTHORIZATION_ATTRIBUTES).
Definition isMeta (a : radius_attr) : bool := bool_decide (attr_type a ∈ META_ATTRIBUTES).

(** ** State *)

Record vendor_attribute := { vendorId : Z; vendorType : Z; vendorValue : jsstring }.

(** A configured user; an empty text and the number 0 stand for a field that is not set. *)
Record radius_user := {
  username : jsstring; password : jsstring; enabled : bool; authType : jsstring;
  challengePrompt : jsstring; challengeResponse : jsstring;
  replyMessage : jsstring; serviceType : Z; framedProtocol : Z; framedIpAddress : jsstring; framedIpv6Prefix : jsstring;
  framedIpNetmask : jsstring; sessionTimeout : Z; idleTimeout : Z; classAttribute : jsstring;
  filterIds : list jsstring; vendorAttributes : list vendor_attribute
}.

Record radius_client := { ipAddress : jsstring; client_secret : jsstring }.

Record radius_config := {
  sharedSecret : jsstring; requireMessageAuthenticator : bool; rejectUnknownClients : bool; duplicateCacheTtlMs : Z
}.

Record rinfo := { address : jsstring; port : Z }.

Record request_record := {
  record_id : Z; service : jsstring; timestamp : Z; clientAddress : jsstring; clientPort : Z;
  requestCode : option Z; responseCode : option Z; requestIdentifier : option Z;
  recordUser : jsstring; authMethod : option auth_method; status : request_status; packetLength : Z;
  recordSession : jsstring
}.

Record radius_session := {
  key : jsstring; userName : jsstring; acctSessionId : jsstring; acctMultiSessionId : jsstring;
  nasAddress : jsstring; nasIpAddress : jsstring; nasIpv6Address : jsstring; nasIdentifier : jsstring;
  nasPort : option Z; nasPortId : jsstring; sessionIp : jsstring; sessionIpv6 : jsstring;
  callingStationId : jsstring; calledStationId : jsstring; lastStatusType : option Z; lastUpdateAt : Z;
  startedAt : option Z;
  coaFilterIds : list jsstring; coaSessionTimeout : option Z; coaIdleTimeout : option Z; lastCoaAt : option Z
}.

#[export] Instance radius_session_rebuild : Rebuild radius_session := fun s => {|
  key := key s; userName := userName s; acctSessionId := acctSessionId s; acctMultiSessionId := acctMultiSessionId s;
  nasAddress := nasAddress s; nasIpAddress := nasIpAddress s; nasIpv6Address := nasIpv6Address s; nasIdentifier := nasIdentifier s;
  nasPort := nasPort s; nasPortId := nasPortId s; sessionIp := sessionIp s; sessionIpv6 := sessionIpv6 s;
  callingStationId := callingStationId s; calledStationId := calledStationId s; lastStatusType := lastStatusType s;
  lastUpdateAt := lastUpdateAt s; startedAt := startedAt s; coaFilterIds := coaFilterIds s;
  coaSessionTimeout := coaSessionTimeout s; coaIdleTimeout := coaIdleTimeout s; lastCoaAt := lastCoaAt s |}.

Record pending_challenge := { pendingUser : jsstring; pendingResponse : jsstring; challengeExpires : Z }.

Record cached_response := { hash : buffer; response : buffer; responseExpires : Z }.

Record radius_worker := {
  config : radius_config;
  users : jmap jsstring radius_user;
  clients : list radius_client;
  requestHistory : list request_record;
  activeSessions : jmap jsstring radius_session;
  pendingChallenges : jmap jsstring pending_challenge;
  responseCache : jmap jsstring cached_response;
  requestCounter : Z;
  historyLimit : nat
}.

#[export] Instance radius_worker_rebuild : Rebuild radius_worker := fun s => {|
  config := config s; users := users s; clients := clients s; requestHistory := requestHistory s;
  activeSessions := activeSessions s; pendingChallenges := pendingChallenges s; responseCache := responseCache s;
  requestCounter := requestCounter s; historyLimit := historyLimit s |}.

Inductive radius_effect :=
| Send (packet : buffer) (port : Z) (address : jsstring)
| RequestReceived (record : request_record) (requestCount sessionCount : Z)
| SessionUpdated (sessions : list radius_session).

(** How a handler ends: [None] is a loop that does not end, the last part an exception that
    is not caught. *)
Definition handled : Type := option (radius_worker * list radius_effect * option js_exn).

Definition finish (s : radius_worker) (effects : list radius_effect) : handled := Some (s, effects, None).

Section Worker.
Context `{IpAddr} (md5 : buffer -> buffer) (hmacMd5 : buffer -> buffer -> buffer) (sha256 : buffer -> buffer).

(** ** The request log *)

Definition or_dash (s : jsstring) : jsstring := match s with [] => [45] | _ => s end.

Definition recordRequest (entry : Z -> request_record) (s : radius_worker) : radius_worker * list radius_effect :=
  let record := entry (requestCounter s + 1) in
  let history := take (historyLimit s) (record :: requestHistory s) in
  (s <| requestCounter := requestCounter s + 1 |> <| requestHistory := history |>,
   [RequestReceived record (blen history) (blen (activeSessions s))]).

Definition detectAuthMethod (packet : radius_packet) : auth_method :=
  if hasAttribute (attributes packet) CHAP_PASSWORD then CHAP
  else if hasAttribute (attributes packet) USER_PASSWORD then PAP
  else if hasAttribute (attributes packet) STATE then CHALLENGE
  else UNKNOWN.

(** A record about a packet, as far as all of them agree. *)
Definition entry_for (now : Z) (svc : jsstring) (packet : radius_packet) (r : rinfo) (answer : option Z) (m : option auth_method)
    (st : request_status) (session : jsstring) (id : Z) : request_record := {|
  record_id := id; service := svc; timestamp := now; clientAddress := normalizeAddress (address r); clientPort := port r;
  requestCode := Some (code packet); responseCode := answer; requestIdentifier := Some (identifier packet);
  recordUser := or_dash (getString (attributes packet) USER_NAME); authMethod := m; status := st;
  packetLength := packet_length packet; recordSession := session |}.

Definition recordIgnored (now : Z) (svc : jsstring) (packet : radius_packet) (r : rinfo) (s : radius_worker) : radius_worker * list radius_effect :=
  recordRequest (entry_for now svc packet r None (Some (detectAuthMethod packet)) IGNORED []) s.

Definition ignored (now : Z) (svc : jsstring) (packet : radius_packet) (r : rinfo) (s : radius_worker) : handled :=
  let '(s, out) := recordIgnored now svc packet r s in finish s out.

(** ** Clients and duplicates *)

Definition selectClient (r : rinfo) (s : radius_worker) : option radius_client :=
  let a := normalizeAddress (address r) in
  match List.find (fun item => bool_decide (ipAddress item = a) || bool_decide (ipAddress item = [42])) (clients s) with
  | Some client => Some client
  | None =>
    if rejectUnknownClients (config s) && (0 <? blen (clients s)) then None
    else Some {| ipAddress := a; client_secret := sharedSecret (config s) |}
  end.

Definition parseIncoming (now : Z) (svc : jsstring) (msg : buffer) (r : rinfo) (s : radius_worker)
    : option (radius_worker * list radius_effect * option (radius_client * radius_packet)) :=
  match selectClient r s with
  | None => Some (s, [], None)
  | Some client =>
    match parsePacket msg with
    | None => None
    | Some (Ok packet) => Some (s, [], Some (client, packet))
    | Some (Throw _) =>
      let '(s, out) := recordRequest (fun id => {|
        record_id := id; service := svc; timestamp := now; clientAddress := normalizeAddress (address r); clientPort := port r;
        requestCode := None; responseCode := None; requestIdentifier := None; recordUser := [45]; authMethod := None;
        status := ERROR; packetLength := blen msg; recordSession := [] |}) s in
      Some (s, out, None)
    end
  end.

Definition getCacheKey (svc : jsstring) (packet : radius_packet) (r : rinfo) : jsstring :=
  svc ++ [124] ++ normalizeAddress (address r) ++ [124] ++ js_number_to_string (port r) ++ [124] ++ js_number_to_string (identifier packet).

Definition getRequestHash (packet : radius_packet) : buffer := sha256 (raw packet).

Definition cleanupResponseCache (now : Z) (s : radius_worker) : radius_worker :=
  s <| responseCache := List.filter (fun e => now <? responseExpires (snd e)) (responseCache s) |>
    <| pendingChallenges := List.filter (fun e => now <? challengeExpires (snd e)) (pendingChallenges s) |>.

Definition sendCachedResponseIfDuplicate (now : Z) (svc : jsstring) (packet : radius_packet) (r : rinfo) (s : radius_worker)
    : radius_worker * list radius_effect * bool :=
  let s := cleanupResponseCache now s in
  match jmap_get (responseCache s) (getCacheKey svc packet r) with
  | Some cached =>
    if bool_decide (hash cached = getRequestHash packet) then
      let '(s, out) := recordRequest (entry_for now svc packet r None None IGNORED []) s in
      (s, Send (response cached) (port r) (address r) :: out, true)
    else (s, [], false)
  | None => (s, [], false)
  end.

Definition cacheResponse (now : Z) (svc : jsstring) (packet : radius_packet) (r : rinfo) (response : buffer) (s : radius_worker) : radius_worker :=
  s <| responseCache := jmap_set (responseCache s) (getCacheKey svc packet r)
         {| hash := getRequestHash packet; response := response; responseExpires := now + duplicateCacheTtlMs (config s) |} |>.

(** Build the response, send it, remember it and log the request. *)
Definition respond (now : Z) (svc : jsstring) (packet : radius_packet) (r : rinfo) (secret : jsstring) (responseCode : Z)
    (attrs : list radius_attr) (include : bool) (before : list radius_effect) (entry : Z -> request_record) (s : radius_worker) : handled :=
  match buildResponsePacket md5 hmacMd5 responseCode (identifier packet) (authenticator packet) attrs secret include with
  | None => None
  | Some (Throw e) => Some (s, before, Some e)
  | Some (Ok response) =>
    let s := cacheResponse now svc packet r response s in
    let '(s, out) := recordRequest entry s in
    finish s (before ++ [Send response (port r) (address r)] ++ out)
  end.

(** ** Authentication *)

(** A text of the source that is not ASCII. *)
Definition text (s : string) : jsstring := utf8_decode (js s).

(** The text for the client, empty if the request can be answered. *)
Definition validateAccessRequest (packet : radius_packet) : jsstring :=
  let l := attributes packet in
  let hasUserPassword := hasAttribute l USER_PASSWORD in
  let hasChapPassword := hasAttribute l CHAP_PASSWORD in
  let hasState := hasAttribute l STATE in
  if hasUserPassword && hasChapPassword then text "Access-Request 不能同时包含 User-Password 和 CHAP-Password"
  else if negb hasUserPassword && negb hasChapPassword && negb hasState then
    text "Access-Request 缺少 User-Password、CHAP-Password 或 State"
  else if 1 <? blen (getAttributes l STATE) then text "Access-Request 不能包含多个 State 属性"
  else if negb (hasAttribute l NAS_IP_ADDRESS) && negb (hasAttribute l NAS_IPV6_ADDRESS) && negb (hasAttribute l NAS_IDENTIFIER)
  then text "Access-Request 缺少 NAS-IP-Address、NAS-IPv6-Address 或 NAS-Identifier"
  else [].

Definition isAuthorizeOnly (packet : radius_packet) : bool :=
  bool_decide (getInteger (attributes packet) SERVICE_TYPE = Some AUTHORIZE_ONLY).

Definition verifyUserAuth (packet : radius_packet) (user : radius_user) (m : auth_method) (secret : jsstring) : result bool :=
  if bool_decide (authType user = js "PAP") && negb (bool_decide (m = PAP)) then Ok false
  else if bool_decide (authType user = js "CHAP") && negb (bool_decide (m = CHAP)) then Ok false
  else
    match m with
    | PAP =>
      match getFirstAttribute (attributes packet) USER_PASSWORD with
      | Some passwordAttr =>
        let! p := decryptUserPassword md5 (attr_value passwordAttr) secret (authenticator packet) in
        Ok (bool_decide (p = password user))
      | None => Throw TypeError
      end
    | CHAP => Ok (verifyChapPassword md5 packet (password user))
    | _ => Ok false
    end.

(** [if (text) attrs.push(...)] *)
Definition when_text (t : jsstring) (a : result radius_attr) : result (list radius_attr) :=
  match t with [] => Ok [] | _ => let! x := a in Ok [x] end.
Definition when_number (n : Z) (a : result radius_attr) : result (list radius_attr) :=
  if n =? 0 then Ok [] else let! x := a in Ok [x].

Definition buildRejectAttributes (packet : radius_packet) (message : jsstring) : list radius_attr :=
  (match message with [] => [] | _ => [stringAttr REPLY_MESSAGE message] end) ++ getProxyStateAttributes (attributes packet).

Definition buildAcceptAttributes (packet : radius_packet) (user : radius_user) : result (list radius_attr) :=
  let! reply := when_text (replyMessage user) (Ok (stringAttr REPLY_MESSAGE (replyMessage user))) in
  let! svc := when_number (serviceType user) (integerAttr SERVICE_TYPE (serviceType user)) in
  let! protocol := when_number (framedProtocol user) (integerAttr FRAMED_PROTOCOL (framedProtocol user)) in
  let! ip := when_text (framedIpAddress user) (ipAttr FRAMED_IP_ADDRESS (framedIpAddress user)) in
  let! ip6 := when_text (framedIpv6Prefix user) (ipv6PrefixAttr FRAMED_IPV6_PREFIX (framedIpv6Prefix user)) in
  let! netmask := when_text (framedIpNetmask user) (ipAttr FRAMED_IP_NETMASK (framedIpNetmask user)) in
  let! timeout := when_number (sessionTimeout user) (integerAttr SESSION_TIMEOUT (sessionTimeout user)) in
  let! idle := when_number (idleTimeout user) (integerAttr IDLE_TIMEOUT (idleTimeout user)) in
  let! class := when_text (classAttribute user) (Ok (stringAttr CLASS (classAttribute user))) in
  let! vendor := map_ok (fun v => vendorSpecificAttr (vendorId v) (vendorType v) (vendorValue v)) (vendorAttributes user) in
  Ok (reply ++ svc ++ protocol ++ ip ++ ip6 ++ netmask ++ timeout ++ idle ++ class ++ map (stringAttr FILTER_ID) (filterIds user) ++
      vendor ++ getProxyStateAttributes (attributes packet)).

Record auth_answer := { answerCode : Z; answerAttrs : list radius_attr; answerStatus : request_status }.

Definition rejection (packet : radius_packet) : auth_answer := {|
  answerCode := ACCESS_REJECT; answerAttrs := buildRejectAttributes packet (js "Access rejected"); answerStatus := REJECTED |}.

(** The pending challenges afterwards and the answer; an exception keeps the changes. *)
Definition handleChallengeAuth (now : Z) (random : buffer) (packet : radius_packet) (user : radius_user) (secret : jsstring)
    (pending : jmap jsstring pending_challenge) : jmap jsstring pending_challenge * result auth_answer :=
  match getFirstAttribute (attributes packet) STATE with
  | None =>
    (jmap_set pending (hex_encode random)
       {| pendingUser := username user;
          pendingResponse := match challengeResponse user with [] => password user | t => t end;
          challengeExpires := now + 5 * 60 * 1000 |},
     Ok {| answerCode := ACCESS_CHALLENGE;
           answerAttrs := [stringAttr REPLY_MESSAGE (match challengePrompt user with [] => js "Enter challenge response" | t => t end);
                           attr STATE random] ++ getProxyStateAttributes (attributes packet);
           answerStatus := CHALLENGED |})
  | Some stateAttr =>
    let state := hex_encode (attr_value stateAttr) in
    match jmap_get pending state with
    | None => (pending, Ok (rejection packet))
    | Some p =>
      if negb (bool_decide (pendingUser p = username user)) then (pending, Ok (rejection packet))
      else
        (jmap_delete pending state,
         match getFirstAttribute (attributes packet) USER_PASSWORD with
         | None => Ok (rejection packet)
         | Some passwordAttr =>
           let! answer := decryptUserPassword md5 (attr_value passwordAttr) secret (authenticator packet) in
           if negb (bool_decide (answer = pendingResponse p)) then Ok (rejection packet)
           else
             let! attrs := buildAcceptAttributes packet user in
             Ok {| answerCode := ACCESS_ACCEPT; answerAttrs := attrs; answerStatus := ACCEPTED |}
         end)
    end
  end.

(** [responseCode] and [status] are set before the attributes are built; an exception there is
    caught with both already set. *)
Definition accept_with (packet : radius_packet) (attrs : result (list radius_attr)) : auth_answer := {|
  answerCode := ACCESS_ACCEPT;
  answerAttrs := match attrs with Ok l => l | Throw _ => buildRejectAttributes packet (js "Access rejected") end;
  answerStatus := ACCEPTED |}.

(** The [try] block of [handleAuthMessage]. *)
Definition authorize (now : Z) (random : buffer) (packet : radius_packet) (user : option radius_user) (secret : jsstring)
    (pending : jmap jsstring pending_challenge) : jmap jsstring pending_challenge * auth_answer :=
  match validateAccessRequest packet with
  | (_ :: _) as message =>
    (pending, {| answerCode := ACCESS_REJECT; answerAttrs := buildRejectAttributes packet message; answerStatus := REJECTED |})
  | [] =>
    match user with
    | None => (pending, rejection packet)
    | Some user =>
      if negb (enabled user) then (pending, rejection packet)
      else if isAuthorizeOnly packet then (pending, accept_with packet (buildAcceptAttributes packet user))
      else if bool_decide (authType user = js "CHALLENGE") then
        match handleChallengeAuth now random packet user secret pending with
        | (pending, Ok answer) => (pending, answer)
        | (pending, Throw _) => (pending, rejection packet)
        end
      else
        match verifyUserAuth packet user (detectAuthMethod packet) secret with
        | Ok true => (pending, accept_with packet (buildAcceptAttributes packet user))
        | _ => (pending, rejection packet)
        end
    end
  end.

Definition AUTH : jsstring := js "auth".

(** After the checks of the code and of duplicates. *)
Definition authRequest (now : Z) (random : buffer) (client : radius_client) (packet : radius_packet) (r : rinfo) (s : radius_worker) : handled :=
  let secret := client_secret client in
  let hasMac := hasAttribute (attributes packet) MESSAGE_AUTHENTICATOR in
  match (if hasMac then verifyAccessMessageAuthenticator hmacMd5 packet secret None else Some (Ok true)) with
  | None => None
  | Some (Throw e) => Some (s, [], Some e)
  | Some (Ok verified) =>
    if negb verified then ignored now AUTH packet r s
    else if requireMessageAuthenticator (config s) && negb hasMac then ignored now AUTH packet r s
    else
      let user := jmap_get (users s) (getString (attributes packet) USER_NAME) in
      let '(pending, answer) := authorize now random packet user secret (pendingChallenges s) in
      respond now AUTH packet r secret (answerCode answer) (answerAttrs answer) hasMac []
        (entry_for now AUTH packet r (Some (answerCode answer)) (Some (detectAuthMethod packet)) (answerStatus answer) [])
        (s <| pendingChallenges := pending |>)
  end.

Definition handleAuthMessage (now : Z) (random msg : buffer) (r : rinfo) (s : radius_worker) : handled :=
  match parseIncoming now AUTH msg r s with
  | None => None
  | Some (s, out, None) => finish s out
  | Some (s, out, Some (client, packet)) =>
    if negb (code packet =? ACCESS_REQUEST) then ignored now AUTH packet r s
    else
      match sendCachedResponseIfDuplicate now AUTH packet r s with
      | (s, out, true) => finish s out
      | (s, _, false) => authRequest now random client packet r s
      end
  end.

(** ** Accounting *)

Definition or_else (a b : jsstring) : jsstring := match a with [] => b | _ => a end.

Definition getNasAddress (packet : radius_packet) (r : rinfo) : jsstring :=
  or_else (getIp (attributes packet) NAS_IP_ADDRESS)
    (or_else (getIpv6 (attributes packet) NAS_IPV6_ADDRESS) (normalizeAddress (address r))).

Definition getSessionKey (packet : radius_packet) (r : rinfo) : jsstring :=
  let l := attributes packet in
  or_else (getString l ACCT_SESSION_ID)
    (or_dash (getString l USER_NAME) ++ [124] ++ getNasAddress packet r ++ [124] ++
     (match getInteger l NAS_PORT with Some n => js_number_to_string n | None => [45] end) ++ [124] ++
     or_dash (getString l CALLING_STATION_ID)).

(** The session a request describes. *)
Definition session_base (now : Z) (packet : radius_packet) (r : rinfo) (statusType : option Z) : radius_session :=
  let l := attributes packet in {|
    key := getSessionKey packet r; userName := or_dash (getString l USER_NAME);
    acctSessionId := getString l ACCT_SESSION_ID; acctMultiSessionId := getString l ACCT_MULTI_SESSION_ID;
    nasAddress := or_else (getIp l NAS_IP_ADDRESS) (or_else (getIpv6 l NAS_IPV6_ADDRESS) (normalizeAddress (address r)));
    nasIpAddress := getIp l NAS_IP_ADDRESS; nasIpv6Address := getIpv6 l NAS_IPV6_ADDRESS;
    nasIdentifier := getString l NAS_IDENTIFIER; nasPort := getInteger l NAS_PORT; nasPortId := getString l NAS_PORT_ID;
    sessionIp := getIp l FRAMED_IP_ADDRESS; sessionIpv6 := getIpv6Prefix l FRAMED_IPV6_PREFIX;
    callingStationId := getString l CALLING_STATION_ID; calledStationId := getString l CALLED_STATION_ID;
    lastStatusType := statusType; lastUpdateAt := now; startedAt := None;
    coaFilterIds := []; coaSessionTimeout := None; coaIdleTimeout := None; lastCoaAt := None |}.

Definition both (a b : jsstring) : bool := bool_decide (a <> []) && bool_decide (b = a).

Definition nas_matches (base session : radius_session) : bool :=
  both (nasAddress base) (nasAddress session) || both (nasIpAddress base) (nasIpAddress session) ||
  both (nasIpv6Address base) (nasIpv6Address session) || both (nasIdentifier base) (nasIdentifier session).

Definition clearSessionsForNas (base : radius_session) (sessions : jmap jsstring radius_session) : jmap jsstring radius_session :=
  List.filter (fun e => negb (nas_matches base (snd e))) sessions.

Definition sendSessionEvent (s : radius_worker) : radius_effect := SessionUpdated (jmap_values (activeSessions s)).

(** The session of the log entry, and the sessions reported if they changed. *)
Definition updateSessionFromAccounting (now : Z) (packet : radius_packet) (r : rinfo) (statusType : option Z) (s : radius_worker)
    : radius_worker * list radius_effect * radius_session :=
  let sessionKey := getSessionKey packet r in
  let base := session_base now packet r statusType in
  let existing := jmap_get (activeSessions s) sessionKey in
  if bool_decide (statusType = Some STOP) then
    let s := s <| activeSessions := jmap_delete (activeSessions s) sessionKey |> in
    (s, [sendSessionEvent s], default base existing)
  else if bool_decide (statusType = Some ACCOUNTING_OFF) then
    let s := s <| activeSessions := clearSessionsForNas base (activeSessions s) |> in
    (s, [sendSessionEvent s], base)
  else if bool_decide (statusType = Some START) || bool_decide (statusType = Some INTERIM_UPDATE) then
    let session := match existing with
                   | Some old => base <| startedAt := Some (default now (startedAt old)) |> <| coaFilterIds := coaFilterIds old |>
                                      <| coaSessionTimeout := coaSessionTimeout old |> <| coaIdleTimeout := coaIdleTimeout old |>
                                      <| lastCoaAt := lastCoaAt old |>
                   | None => base <| startedAt := Some now |>
                   end in
    let s := s <| activeSessions := jmap_set (activeSessions s) sessionKey session |> in
    (s, [sendSessionEvent s], session)
  else (s, [], base).

Definition ACCOUNTING : jsstring := js "accounting".

Definition accountingRequest (now : Z) (client : radius_client) (packet : radius_packet) (r : rinfo) (s : radius_worker) : handled :=
  match verifyAccountingLikeRequest md5 packet (client_secret client) with
  | Throw e => Some (s, [], Some e)
  | Ok false => ignored now ACCOUNTING packet r s
  | Ok true =>
    let statusTypeValue := getInteger (attributes packet) ACCT_STATUS_TYPE in
    let '(s, events, session) := updateSessionFromAccounting now packet r statusTypeValue s in
    respond now ACCOUNTING packet r (client_secret client) ACCOUNTING_RESPONSE (getProxyStateAttributes (attributes packet)) false
      events (entry_for now ACCOUNTING packet r (Some ACCOUNTING_RESPONSE) None ACCOUNTED (key session)) s
  end.

Definition handleAccountingMessage (now : Z) (msg : buffer) (r : rinfo) (s : radius_worker) : handled :=
  match parseIncoming now ACCOUNTING msg r s with
  | None => None
  | Some (s, out, None) => finish s out
  | Some (s, out, Some (client, packet)) =>
    if negb (code packet =? ACCOUNTING_REQUEST) then ignored now ACCOUNTING packet r s
    else
      match sendCachedResponseIfDuplicate now ACCOUNTING packet r s with
      | (s, out, true) => finish s out
      | (s, _, false) => accountingRequest now client packet r s
      end
  end.

(** ** Dynamic authorization *)

Definition value_text (a : radius_attr) : jsstring := utf8_decode (attr_value a).

Definition filter_matches (session : radius_session) (f : radius_attr) : result bool :=
  let has t := attr_type f =? t in
  let same (a b : jsstring) := Ok (bool_decide (a = b)) in
  let ip := bufferToIp (attr_value f) in
  let ip6 := bufferToIpv6 (attr_value f) in
  if has USER_NAME then same (userName session) (value_text f)
  else if has NAS_IP_ADDRESS then Ok (bool_decide (nasIpAddress session = ip) || bool_decide (nasAddress session = ip))
  else if has NAS_IPV6_ADDRESS then Ok (bool_decide (nasIpv6Address session = ip6) || bool_decide (nasAddress session = ip6))
  else if has NAS_IDENTIFIER then same (nasIdentifier session) (value_text f)
  else if has NAS_PORT then let! n := readUInt32BE (attr_value f) 0 in Ok (bool_decide (nasPort session = Some n))
  else if has FRAMED_IP_ADDRESS then same (sessionIp session) ip
  else if has FRAMED_IPV6_PREFIX then same (sessionIpv6 session) (prefix_text (attr_value f))
  else if has CALLING_STATION_ID then same (callingStationId session) (value_text f)
  else if has CALLED_STATION_ID then same (calledStationId session) (value_text f)
  else if has ACCT_SESSION_ID then same (acctSessionId session) (value_text f)
  else if has ACCT_MULTI_SESSION_ID then same (acctMultiSessionId session) (value_text f)
  else if has NAS_PORT_ID then same (nasPortId session) (value_text f)
  else Ok true.

(** [filters.every(...)], which stops at the first that does not match. *)
Fixpoint sessionMatches (session : radius_session) (filters : list radius_attr) : result bool :=
  match filters with
  | [] => Ok true
  | f :: tl => let! b := filter_matches session f in if b then sessionMatches session tl else Ok false
  end.

(** The error cause, or the entries of the sessions that match. *)
Definition findMatchingSessions (packet : radius_packet) (sessions : jmap jsstring radius_session) : result (Z + list (jsstring * radius_session)) :=
  let identificationFilters := List.filter isIdentification (attributes packet) in
  let strictFilters := if code packet =? COA_REQUEST then List.filter (fun a => negb (isAuthorization a)) identificationFilters
                       else identificationFilters in
  let filters := if 0 <? blen strictFilters then strictFilters else identificationFilters in
  if blen filters =? 0 then Ok (inl MISSING_ATTRIBUTE)
  else
    let! marks := map_ok (fun e => let! b := sessionMatches (snd e) filters in Ok (e, b)) sessions in
    match map fst (List.filter snd marks) with
    | [] => Ok (inl SESSION_CONTEXT_NOT_FOUND)
    | found => Ok (inr found)
    end.

Definition applyCoaAttributes (now : Z) (packet : radius_packet) (session : radius_session) : radius_session :=
  let l := attributes packet in
  let session := match map value_text (getAttributes l FILTER_ID) with
                 | [] => session
                 | filterIds => session <| coaFilterIds := filterIds |>
                 end in
  let session := match getIp l FRAMED_IP_ADDRESS with [] => session | ip => session <| sessionIp := ip |> end in
  let session := match getIpv6Prefix l FRAMED_IPV6_PREFIX with [] => session | p => session <| sessionIpv6 := p |> end in
  let session := match getInteger l SESSION_TIMEOUT with None => session | n => session <| coaSessionTimeout := n |> end in
  let session := match getInteger l IDLE_TIMEOUT with None => session | n => session <| coaIdleTimeout := n |> end in
  session <| lastCoaAt := Some now |>.

(** The sessions afterwards; [inl] is the error cause of a refusal. *)
Definition processDisconnect (packet : radius_packet) (sessions : jmap jsstring radius_session)
    : result (Z + jmap jsstring radius_session) :=
  match List.find (fun a => negb (isIdentification a) && negb (isMeta a)) (attributes packet) with
  | Some _ => Ok (inl UNSUPPORTED_ATTRIBUTE)
  | None =>
    let! matches := findMatchingSessions packet sessions in
    match matches with
    | inl cause => Ok (inl cause)
    | inr found => Ok (inr (fold_left (fun m e => jmap_delete m (key (snd e))) found sessions))
    end
  end.

Definition processCoa (now : Z) (packet : radius_packet) (sessions : jmap jsstring radius_session)
    : result (Z + jmap jsstring radius_session) :=
  if bool_decide (getInteger (attributes packet) SERVICE_TYPE = Some AUTHORIZE_ONLY) then Ok (inl UNSUPPORTED_SERVICE)
  else
    match List.find (fun a => negb (isIdentification a) && negb (isAuthorization a) && negb (isMeta a)) (attributes packet) with
    | Some _ => Ok (inl UNSUPPORTED_ATTRIBUTE)
    | None =>
      let! matches := findMatchingSessions packet sessions in
      match matches with
      | inl cause => Ok (inl cause)
      | inr found =>
        Ok (inr (map (fun e => if bool_decide (fst e ∈ map fst found) then (fst e, applyCoaAttributes now packet (snd e)) else e) sessions))
      end
    end.

Definition DYNAMIC_AUTH : jsstring := js "dynamic-auth".

Definition coaRequest (now : Z) (client : radius_client) (packet : radius_packet) (r : rinfo) (s : radius_worker) : handled :=
  match verifyAccountingLikeRequest md5 packet (client_secret client) with
  | Throw e => Some (s, [], Some e)
  | Ok false => ignored now DYNAMIC_AUTH packet r s
  | Ok true =>
    let hasMac := hasAttribute (attributes packet) MESSAGE_AUTHENTICATOR in
    match (if hasMac then verifyDynamicRequestMessageAuthenticator hmacMd5 packet (client_secret client) else Some (Ok true)) with
    | None => None
    | Some (Throw e) => Some (s, [], Some e)
    | Some (Ok verified) =>
      if negb verified then ignored now DYNAMIC_AUTH packet r s
      else
        let disconnect := code packet =? DISCONNECT_REQUEST in
        match (if disconnect then processDisconnect packet (activeSessions s) else processCoa now packet (activeSessions s)) with
        | Throw e => Some (s, [], Some e)
        | Ok result =>
          match (match result with inl cause => let! a := integerAttr ERROR_CAUSE cause in Ok [a] | inr _ => Ok [] end) with
          | Throw e => Some (s, [], Some e)
          | Ok attrs =>
            let '(s, events, ok) := match result with
                                    | inl _ => (s, [], false)
                                    | inr sessions => let s := s <| activeSessions := sessions |> in (s, [sendSessionEvent s], true)
                                    end in
            let responseCode := if disconnect then if ok then DISCONNECT_ACK else DISCONNECT_NAK
                                else if ok then COA_ACK else COA_NAK in
            respond now DYNAMIC_AUTH packet r (client_secret client) responseCode
              (attrs ++ getProxyStateAttributes (attributes packet)) hasMac events
              (entry_for now DYNAMIC_AUTH packet r (Some responseCode) None (if ok : bool then ACK else NAK) []) s
          end
        end
    end
  end.

Definition handleCoaMessage (now : Z) (msg : buffer) (r : rinfo) (s : radius_worker) : handled :=
  match parseIncoming now DYNAMIC_AUTH msg r s with
  | None => None
  | Some (s, out, None) => finish s out
  | Some (s, out, Some (client, packet)) =>
    if negb ((code packet =? DISCONNECT_REQUEST) || (code packet =? COA_REQUEST)) then ignored now DYNAMIC_AUTH packet r s
    else
      match sendCachedResponseIfDuplicate now DYNAMIC_AUTH packet r s with
      | (s, out, true) => finish s out
      | (s, _, false) => coaRequest now client packet r s
      end
  end.
End Worker.

(** ** The three ports *)

Inductive radius_port := AuthPort | AccountingPort | CoaPort.

Definition port_service (p : radius_port) : jsstring :=
  match p with AuthPort => AUTH | AccountingPort => ACCOUNTING | CoaPort => DYNAMIC_AUTH end.

Section Server.
Context `{IpAddr} (md5 : buffer -> buffer) (hmacMd5 : buffer -> buffer -> buffer) (sha256 : buffer -> buffer).

(** The handler a datagram is given to; random bytes are used by authentication only. *)
Definition handle_message (p : radius_port) (now : Z) (random msg : buffer) (r : rinfo) (s : radius_worker) : handled :=
  match p with
  | AuthPort => handleAuthMessage md5 hmacMd5 sha256 now random msg r s
  | AccountingPort => handleAccountingMessage md5 hmacMd5 sha256 now msg r s
  | CoaPort => handleCoaMessage md5 hmacMd5 sha256 now msg r s
  end.

(** ** Invariant *)

Record radius_ok (s : radius_worker) : Prop := {
  ok_sessions : jmap_ok (activeSessions s);
  ok_keys : Forall (fun e => key (snd e) = fst e) (activeSessions s);
  ok_history : (length (requestHistory s) <= historyLimit s)%nat;
  ok_cache : jmap_ok (responseCache s);
  ok_pending : jmap_ok (pendingChallenges s)
}.

Lemma ok_record entry s : radius_ok s -> radius_ok (fst (recordRequest entry s)).
Proof.
  intros [H1 H2 H3 H4 H5]. constructor; try done. cbn [recordRequest fst]. 
  change (length (take (historyLimit s) (entry (requestCounter s + 1)%Z :: requestHistory s)) <= historyLimit s)%nat.
  rewrite length_take. lia.
Qed.

Lemma ok_cleanup now s : radius_ok s -> radius_ok (cleanupResponseCache now s).
Proof. intros [H1 H2 H3 H4 H5]. constructor; try done; by apply jmap_ok_filter. Qed.

Lemma ok_cache_response now svc packet r b s : radius_ok s -> radius_ok (cacheResponse sha256 now svc packet r b s).
Proof. intros [H1 H2 H3 H4 H5]. constructor; try done. by apply jmap_ok_set. Qed.

Lemma ok_set_pending pending s : radius_ok s -> jmap_ok pending -> radius_ok (s <| pendingChallenges := pending |>).
Proof. intros [H1 H2 H3 H4 H5] Hp. by constructor. Qed.

Lemma ok_set_sessions sessions s :
  radius_ok s -> jmap_ok sessions -> Forall (fun e => key (snd e) = fst e) sessions -> radius_ok (s <| activeSessions := sessions |>).
Proof. intros [H1 H2 H3 H4 H5] Hp Hk. by constructor. Qed.

Lemma ok_respond now svc packet r secret c attrs include before entry s s' out x :
  radius_ok s -> respond md5 hmacMd5 sha256 now svc packet r secret c attrs include before entry s = Some (s', out, x) -> radius_ok s'.
Proof.
  intros Hs. unfold respond. destruct (buildResponsePacket _ _ _ _ _ _ _ _) as [[b|e]|]; [| |done].
  - pose proof (ok_record entry _ (ok_cache_response now svc packet r b s Hs)) as Hr. destruct (recordRequest entry _). by intros [= <- _ _].
  - by intros [= <- _ _].
Qed.

Lemma ok_ignored now svc packet r s s' out x : radius_ok s -> ignored now svc packet r s = Some (s', out, x) -> radius_ok s'.
Proof.
  intros Hs. unfold ignored, recordIgnored. pose proof (ok_record (entry_for now svc packet r None (Some (detectAuthMethod packet)) IGNORED []) s Hs) as Hr.
  destruct (recordRequest _ s). by intros [= <- _ _].
Qed.

Lemma parse_incoming now svc msg r s s' out c : radius_ok s -> parseIncoming now svc msg r s = Some (s', out, c) ->
  radius_ok s' /\ match c with Some (client, packet) => s' = s /\ selectClient r s = Some client /\ parsePacket msg = Some (Ok packet) | None => True end.
Proof.
  intros Hs. unfold parseIncoming. destruct (selectClient r s) as [client|]; [|by intros [= <- _ <-]].
  destruct (parsePacket msg) as [[p|e]|]; [by intros [= <- _ <-] | | done].
  destruct (recordRequest _ s) as [s1 l] eqn:E. intros [= <- _ <-]. split; [|done]. change s1 with (fst (s1, l)). rewrite <- E. by apply ok_record.
Qed.

Lemma ok_duplicate now svc packet r s s' out d : radius_ok s ->
  sendCachedResponseIfDuplicate sha256 now svc packet r s = (s', out, d) -> radius_ok s'.
Proof.
  intros Hs. pose proof (ok_cleanup now s Hs) as Hc. unfold sendCachedResponseIfDuplicate.
  destruct (jmap_get _ _) as [c|]; [|by intros [= <- _ _]]. case_bool_decide; [|by intros [= <- _ _]].
  pose proof (ok_record (entry_for now svc packet r None None IGNORED []) _ Hc) as Hr. destruct (recordRequest _ _). by intros [= <- _ _].
Qed.

Lemma ok_challenge now random packet user secret pending pending' a : jmap_ok pending ->
  handleChallengeAuth md5 now random packet user secret pending = (pending', a) -> jmap_ok pending'.
Proof.
  intros Hp. unfold handleChallengeAuth. destruct (getFirstAttribute _ STATE); [|intros [= <- _]; by apply jmap_ok_set].
  destruct (jmap_get _ _); [|by intros [= <- _]]. case_if; [by intros [= <- _]|]. intros [= <- _]. by apply jmap_ok_delete.
Qed.

Lemma ok_authorize now random packet user secret pending pending' a : jmap_ok pending ->
  authorize md5 now random packet user secret pending = (pending', a) -> jmap_ok pending'.
Proof.
  intros Hp. unfold authorize. destruct (validateAccessRequest packet); [|by intros [= <- _]]. destruct user as [u|]; [|by intros [= <- _]].
  do 2 (case_if; [by intros [= <- _]|]). case_if.
  - destruct (handleChallengeAuth _ _ _ _ _ _ _) as [q o] eqn:Eh. apply ok_challenge in Eh; [|done]. destruct o; by intros [= <- _].
  - destruct (verifyUserAuth _ _ _ _ _) as [[]|]; by intros [= <- _].
Qed.

Lemma ok_update now packet r st s s' out session : radius_ok s ->
  updateSessionFromAccounting now packet r st s = (s', out, session) -> radius_ok s'.
Proof.
  intros Hs. pose proof Hs as [H1 H2 _ _ _]. unfold updateSessionFromAccounting.
  destruct (bool_decide (st = Some STOP)); [|destruct (bool_decide (st = Some ACCOUNTING_OFF)); [|destruct (_ || _)]];
    ((intros [= <- _ _]; apply ok_set_sessions; [done | |]) || (intros [= <- _ _]; done)).
  - by apply jmap_ok_delete.
  - by apply Forall_jmap_delete.
  - by apply jmap_ok_filter.
  - by apply Forall_filter_list.
  - by apply jmap_ok_set.
  - apply Forall_jmap_set; [done|]. cbn [fst snd]. by destruct (jmap_get _ _).
Qed.

Lemma ok_disconnect packet sessions sessions' : jmap_ok sessions -> Forall (fun e => key (snd e) = fst e) sessions ->
  processDisconnect packet sessions = Ok (inr sessions') -> jmap_ok sessions' /\ Forall (fun e => key (snd e) = fst e) sessions'.
Proof.
  intros H1 H2. unfold processDisconnect. destruct (List.find _ _); [done|]. intros Hm. apply bind_ok in Hm as (m & _ & Hm).
  destruct m as [|found]; [done|]. injection Hm as <-. clear -H1 H2. revert sessions H1 H2.
  induction found as [|e found IH]; intros sessions H1 H2; [done|]. cbn [fold_left]. apply IH; [by apply jmap_ok_delete | by apply Forall_jmap_delete].
Qed.

Lemma applyCoa_key now packet session : key (applyCoaAttributes now packet session) = key session.
Proof.
  unfold applyCoaAttributes. cbv zeta. repeat match goal with |- context [match ?x with _ => _ end] => destruct x end; reflexivity.
Qed.

Lemma ok_coa now packet sessions sessions' : jmap_ok sessions -> Forall (fun e => key (snd e) = fst e) sessions ->
  processCoa now packet sessions = Ok (inr sessions') -> jmap_ok sessions' /\ Forall (fun e => key (snd e) = fst e) sessions'.
Proof.
  intros H1 H2. unfold processCoa. case_if; [done|]. destruct (List.find _ _); [done|]. intros Hm. apply bind_ok in Hm as (m & _ & Hm).
  destruct m as [|found]; [done|]. injection Hm as <-. split.
  - unfold jmap_ok, jmap_keys in *. rewrite map_map. rewrite (map_ext _ fst); [done|]. intros e. destruct (bool_decide (fst e ∈ map fst found)); reflexivity.
  - apply Forall_map. eapply Forall_impl; [|exact H2]. intros e He. destruct (bool_decide (fst e ∈ map fst found)); [|done]. cbn [fst snd]. by rewrite applyCoa_key.
Qed.
Lemma ok_handle p now random msg r s s' out x :
  radius_ok s -> handle_message p now random msg r s = Some (s', out, x) -> radius_ok s'.
Proof.
  intros Hs. destruct p; cbn [handle_message];
    unfold handleAuthMessage, handleAccountingMessage, handleCoaMessage, authRequest, accountingRequest, coaRequest;
    (destruct (parseIncoming now _ msg r s) as [[[s1 o1] c]|] eqn:Ep; [|done]);
    apply parse_incoming in Ep as [Hs1 _]; [|done| |done| |done]; (destruct c as [[client packet]|]; [|by intros [= <- _ _]]);
    (case_if; [by apply ok_ignored|]);
    (destruct (sendCachedResponseIfDuplicate _ _ _ _ _ _) as [[s2 o2] []] eqn:Ed; apply ok_duplicate in Ed; try done; [by intros [= <- _ _]|]).
  - destruct (if hasAttribute _ _ then _ else _) as [[v|e]|]; [|by intros [= <- _ _] | done].
    do 2 (case_if; [by apply ok_ignored|]). destruct (authorize _ _ _ _ _ _ _) as [pending answer] eqn:Ea.
    apply ok_authorize in Ea; [|by apply ok_pending]. apply ok_respond. by apply ok_set_pending.
  - destruct (verifyAccountingLikeRequest _ _ _) as [[]|e]; [| by apply ok_ignored | by intros [= <- _ _]].
    destruct (updateSessionFromAccounting _ _ _ _ _) as [[s3 events] session] eqn:Eu. apply ok_update in Eu; [|done]. by apply ok_respond.
  - destruct (verifyAccountingLikeRequest _ _ _) as [[]|e]; [| by apply ok_ignored | by intros [= <- _ _]].
    destruct (if hasAttribute _ _ then _ else _) as [[v|e]|]; [|by intros [= <- _ _] | done]. case_if; [by apply ok_ignored|].
    destruct (if code packet =? DISCONNECT_REQUEST then _ else _) as [res|e] eqn:Er; [|by intros [= <- _ _]].
    assert (match res with inl _ => True | inr ss => jmap_ok ss /\ Forall (fun e => key (snd e) = fst e) ss end) as Hres.
    { destruct res as [|ss]; [done|]. destruct Hs1 as [K1 K2 _ _ _].
      destruct (code packet =? DISCONNECT_REQUEST); [eapply ok_disconnect | eapply ok_coa]; try exact Er; apply Ed. }
    destruct (match res with inl _ => _ | inr _ => _ end) as [attrs|e]; [|by intros [= <- _ _]].
    destruct res as [cause|ss]; apply ok_respond; [done|]. destruct Hres. by apply ok_set_sessions.
Qed.

(** A server after it has started. *)
Definition radius_started_with (c : radius_config) (us : list radius_user) (cs : list radius_client) (limit : nat) : radius_worker := {|
  config := c; users := fold_left (fun m u => jmap_set m (username u) u) us []; clients := cs; requestHistory := [];
  activeSessions := []; pendingChallenges := []; responseCache := []; requestCounter := 0; historyLimit := limit |}.

Lemma ok_started c us cs limit : radius_ok (radius_started_with c us cs limit).
Proof. constructor; cbn; [apply jmap_ok_nil | constructor | lia | apply jmap_ok_nil | apply jmap_ok_nil]. Qed.

(** What can happen to a running server: a datagram on a port. *)
Inductive radius_reachable (s0 : radius_worker) : radius_worker -> Prop :=
| radius_initial : radius_reachable s0 s0
| radius_datagram s p now random msg r s' out x :
    radius_reachable s0 s -> handle_message p now random msg r s = Some (s', out, x) -> radius_reachable s0 s'.

(** In every state a server reaches after its start no session, cached response or pending challenge is kept twice
    under one key, each session is found under its own key, and the request log has at most its limit of entries;
    each further datagram on any port, whatever its bytes, keeps it so. *)
Theorem radius_tables_consistent c us cs limit s p now random msg r s' out x :
  radius_reachable (radius_started_with c us cs limit) s ->
  radius_ok s /\ (handle_message p now random msg r s = Some (s', out, x) -> radius_ok s').
Proof.
  intros Hr. enough (radius_ok s) as Hs by (split; [done | by apply ok_handle]).
  induction Hr as [|s1 p1 now1 random1 msg1 r1 s2 out1 x1 _ IH Hh]; [apply ok_started | by eapply ok_handle].
Qed.

(** ** Every datagram is handled *)

Definition port_accepts (p : radius_port) (c : Z) : bool :=
  match p with
  | AuthPort => c =? ACCESS_REQUEST
  | AccountingPort => c =? ACCOUNTING_REQUEST
  | CoaPort => (c =? DISCONNECT_REQUEST) || (c =? COA_REQUEST)
  end.

(** What a port does with a request that is not a duplicate. *)
Definition fresh_request (p : radius_port) (now : Z) (random : buffer) (client : radius_client) (packet : radius_packet) (r : rinfo)
    (s : radius_worker) : handled :=
  match p with
  | AuthPort => authRequest md5 hmacMd5 sha256 now random client packet r s
  | AccountingPort => accountingRequest md5 hmacMd5 sha256 now client packet r s
  | CoaPort => coaRequest md5 hmacMd5 sha256 now client packet r s
  end.

Lemma handle_shape p now random msg r s :
  handle_message p now random msg r s =
  match parseIncoming now (port_service p) msg r s with
  | None => None
  | Some (s, out, None) => finish s out
  | Some (s, out, Some (client, packet)) =>
    if negb (port_accepts p (code packet)) then ignored now (port_service p) packet r s
    else
      match sendCachedResponseIfDuplicate sha256 now (port_service p) packet r s with
      | (s, out, true) => finish s out
      | (s, _, false) => fresh_request p now random client packet r s
      end
  end.
Proof. by destruct p. Qed.

Lemma handle_parsed p now random msg r s client packet :
  selectClient r s = Some client -> parsePacket msg = Some (Ok packet) -> port_accepts p (code packet) = true ->
  handle_message p now random msg r s =
  match sendCachedResponseIfDuplicate sha256 now (port_service p) packet r s with
  | (s, out, true) => finish s out
  | (s, _, false) => fresh_request p now random client packet r s
  end.
Proof. intros Hc Hp Ha. rewrite handle_shape. unfold parseIncoming. by rewrite Hc, Hp, Ha. Qed.

Section Digests.
Hypothesis md5_digest : forall m, length (md5 m) = 16%nat /\ bytes_ok (md5 m).
Hypothesis hmac_digest : forall k m, length (hmacMd5 k m) = 16%nat /\ bytes_ok (hmacMd5 k m).

Lemma respond_total now svc packet r secret c attrs include before entry s :
  parsed_ok packet -> is_byte c -> is_Some (respond md5 hmacMd5 sha256 now svc packet r secret c attrs include before entry s).
Proof.
  intros Hp Hc. unfold respond.
  destruct (response_total md5 hmacMd5 hmac_digest c (identifier packet) (authenticator packet) attrs secret include Hc (proj1 (po_auth _ Hp))) as [[b|e] ->];
    [|by eexists]. destruct (recordRequest _ _). by eexists.
Qed.

Lemma authorize_code now random packet user secret pending : is_byte (answerCode (snd (authorize md5 now random packet user secret pending))).
Proof.
  unfold authorize. destruct (validateAccessRequest packet); [|done]. destruct user as [u|]; [|done]. do 2 (case_if; [done|]). case_if.
  - unfold handleChallengeAuth. destruct (getFirstAttribute _ STATE); [|done]. destruct (jmap_get _ _); [|done]. case_if; [done|].
    destruct (getFirstAttribute _ USER_PASSWORD); [|done]. destruct (decryptUserPassword _ _ _ _); [|done]. cbn [bind_result]. case_if; [done|].
    by destruct (buildAcceptAttributes packet u).
  - by destruct (verifyUserAuth _ _ _ _ _) as [[]|].
Qed.

Lemma fresh_total p now random client packet r s : parsed_ok packet -> is_Some (fresh_request p now random client packet r s).
Proof.
  intros Hp. assert (forall svc s, is_Some (ignored now svc packet r s)) as Hi by (intros svc s'; unfold ignored; destruct (recordIgnored _ _ _ _ _); by eexists).
  destruct p; cbn [fresh_request]; unfold authRequest, accountingRequest, coaRequest.
  - destruct (if hasAttribute _ _ then _ else _) as [[v|e]|] eqn:E; [|by eexists|].
    2:{ destruct (hasAttribute _ _); [|done]. destruct (access_mac_total hmacMd5 packet (client_secret client) None Hp) as [? Hm]. by rewrite Hm in E. }
    do 2 (case_if; [apply Hi|]). pose proof (authorize_code now random packet (jmap_get (users s) (getString (attributes packet) USER_NAME)) (client_secret client) (pendingChallenges s)) as Hc.
    destruct (authorize _ _ _ _ _ _ _). by apply respond_total.
  - destruct (verifyAccountingLikeRequest _ _ _) as [[]|e]; [| apply Hi | by eexists].
    destruct (updateSessionFromAccounting _ _ _ _ _) as [[s3 events] session]. by apply respond_total.
  - destruct (verifyAccountingLikeRequest _ _ _) as [[]|e]; [| apply Hi | by eexists].
    destruct (if hasAttribute _ _ then _ else _) as [[v|e]|] eqn:E; [|by eexists|].
    2:{ destruct (hasAttribute _ _); [|done]. destruct (dynamic_mac_total hmacMd5 packet (client_secret client) Hp) as [? Hm]. by rewrite Hm in E. }
    case_if; [apply Hi|]. destruct (if code packet =? DISCONNECT_REQUEST then _ else _) as [res|e]; [|by eexists].
    destruct (match res with inl _ => _ | inr _ => _ end) as [attrs|e]; [|by eexists].
    destruct res as [cause|ss]; apply respond_total; try done; by destruct (code packet =? DISCONNECT_REQUEST).
Qed.

(** A datagram on any of the three ports, whatever its bytes, is handled in finitely many steps: the loops over its attributes end. *)
Theorem radius_handlers_end p now random msg r s : bytes_ok msg -> is_Some (handle_message p now random msg r s).
Proof.
  intros Hb. rewrite handle_shape. unfold parseIncoming. destruct (selectClient r s) as [client|]; [|by eexists].
  destruct (parse_total msg Hb) as ([packet|e] & -> & Hok); [|destruct (recordRequest _ _); by eexists].
  case_if; [unfold ignored; destruct (recordIgnored _ _ _ _ _); by eexists|].
  destruct (sendCachedResponseIfDuplicate _ _ _ _ _ _) as [[s2 o2] []]; [by eexists|]. apply fresh_total. by apply Hok.
Qed.

(** ** Retransmissions *)

(** The answer of a port to a datagram, remembered for the time of the cache. *)
Lemma respond_sends now svc packet r secret c attrs include before entry s s' out :
  respond md5 hmacMd5 sha256 now svc packet r secret c attrs include before entry s = Some (s', out, None) ->
  exists b rec n k, out = before ++ [Send b (port r) (address r); RequestReceived rec n k] /\
    buildResponsePacket md5 hmacMd5 c (identifier packet) (authenticator packet) attrs secret include = Some (Ok b) /\
    jmap_get (responseCache s') (getCacheKey svc packet r) =
      Some {| hash := sha256 (raw packet); response := b; responseExpires := now + duplicateCacheTtlMs (config s) |} /\
    activeSessions s' = activeSessions s /\ config s' = config s /\ clients s' = clients s /\ users s' = users s.
Proof.
  unfold respond. destruct (buildResponsePacket _ _ _ _ _ _ _ _) as [[b|e]|]; [|done|done].
  destruct (recordRequest entry _) as [s1 o1] eqn:E. intros [= <- <-]. unfold recordRequest in E. injection E as <- <-.
  exists b. do 3 eexists. split; [done|]. split; [done|]. split; [apply jmap_get_set_eq|]. done.
Qed.

Lemma duplicate_answered p now random msg r s client packet c :
  radius_ok s -> selectClient r s = Some client -> parsePacket msg = Some (Ok packet) -> port_accepts p (code packet) = true ->
  jmap_get (responseCache s) (getCacheKey (port_service p) packet r) = Some c -> hash c = sha256 (raw packet) -> now < responseExpires c ->
  exists s' rec n k, handle_message p now random msg r s = Some (s', [Send (response c) (port r) (address r); RequestReceived rec n k], None) /\
    activeSessions s' = activeSessions s /\ status rec = IGNORED.
Proof.
  intros Hok Hc Hp Ha Hg Hh Hn. rewrite (handle_parsed p now random msg r s client packet) by done. unfold sendCachedResponseIfDuplicate.
  assert (jmap_get (responseCache (cleanupResponseCache now s)) (getCacheKey (port_service p) packet r) = Some c) as ->
    by (apply jmap_get_filter; [apply Hok | done | by apply Z.ltb_lt]).
  rewrite bool_decide_eq_true_2 by done. unfold recordRequest. do 4 eexists. split; [done|]. done.
Qed.

Definition no_send (out : list radius_effect) : Prop := Forall (fun e => match e with Send _ _ _ => False | _ => True end) out.

Lemma no_send_in out b q a : no_send out -> ~ In (Send b q a) out.
Proof. intros Hn Hin. unfold no_send in Hn. apply list.Forall_forall with (x := Send b q a) in Hn; [done | by apply list_elem_of_In]. Qed.

Lemma ignored_silent now svc packet r s s' out x : ignored now svc packet r s = Some (s', out, x) -> no_send out.
Proof. unfold ignored, recordIgnored, recordRequest. intros [= _ <- _]. by repeat constructor. Qed.

Lemma update_silent now packet r st s s' out session : updateSessionFromAccounting now packet r st s = (s', out, session) ->
  no_send out /\ config s' = config s /\ clients s' = clients s /\ users s' = users s.
Proof.
  unfold updateSessionFromAccounting. destruct (bool_decide (st = Some STOP)); [|destruct (bool_decide (st = Some ACCOUNTING_OFF)); [|destruct (_ || _)]];
    intros [= <- <- _]; (split; [by repeat constructor | done]).
Qed.

(** A request that is not a duplicate and is answered: the answer is the last thing but the log entry. *)
Lemma fresh_answers p now random client packet r s s' out b q a :
  fresh_request p now random client packet r s = Some (s', out, None) -> In (Send b q a) out ->
  exists c attrs include before entry s0,
    respond md5 hmacMd5 sha256 now (port_service p) packet r (client_secret client) c attrs include before entry s0 = Some (s', out, None) /\
    no_send before /\ config s0 = config s /\ clients s0 = clients s /\ users s0 = users s.
Proof.
  intros Hf Hin. assert (forall svc, ignored now svc packet r s <> Some (s', out, None)) as Hi
    by (intros svc Hg; apply ignored_silent in Hg; by eapply no_send_in).
  destruct p; cbn [fresh_request port_service] in *; unfold authRequest, accountingRequest, coaRequest in Hf.
  - destruct (if hasAttribute _ _ then _ else _) as [[v|e]|]; [|done|done]. case_if; [by apply Hi in Hf|]. case_if; [by apply Hi in Hf|].
    destruct (authorize _ _ _ _ _ _ _) as [pending answer]. do 6 eexists. split; [exact Hf|]. split; [constructor | done].
  - destruct (verifyAccountingLikeRequest _ _ _) as [[]|e]; [| by apply Hi in Hf | done].
    destruct (updateSessionFromAccounting _ _ _ _ _) as [[s3 events] session] eqn:Eu. apply update_silent in Eu as [Hn Hs].
    do 6 eexists. split; [exact Hf|]. done.
  - destruct (verifyAccountingLikeRequest _ _ _) as [[]|e]; [| by apply Hi in Hf | done].
    destruct (if hasAttribute _ _ then _ else _) as [[v|e]|]; [|done|done]. case_if; [by apply Hi in Hf|].
    destruct (if code packet =? DISCONNECT_REQUEST then _ else _) as [res|e]; [|done].
    destruct (match res with inl _ => _ | inr _ => _ end) as [attrs|e]; [|done].
    destruct res as [cause|ss]; (do 6 eexists; split; [exact Hf|]); (split; [by repeat constructor | done]).
Qed.

Lemma answer_of before b rec n k r b' q a :
  no_send before -> In (Send b' q a) (before ++ [Send b (port r) (address r); RequestReceived rec n k]) -> b' = b.
Proof.
  intros Hn Hin. apply in_app_or in Hin as [Hin|[Hin|[Hin|[]]]]; [by apply no_send_in in Hin | by injection Hin | done].
Qed.

(** A retransmitted request is answered once more with the bytes of the first answer and has no other effect: after a
    datagram is answered on any port, the same datagram from the same address gets the same answer for as long as the
    server keeps it - the configured time from the first answer on - and the sessions stay as they are. *)
Theorem radius_retransmission p now random msg r s s1 out b :
  radius_ok s -> 0 < duplicateCacheTtlMs (config s) -> bytes_ok msg ->
  handle_message p now random msg r s = Some (s1, out, None) -> In (Send b (port r) (address r)) out ->
  exists until packet, now < until /\ parsePacket msg = Some (Ok packet) /\
    (jmap_get (responseCache s) (getCacheKey (port_service p) packet r) = None -> until = now + duplicateCacheTtlMs (config s)) /\
    forall now' random', now' < until ->
      exists s2 rec n k, handle_message p now' random' msg r s1 = Some (s2, [Send b (port r) (address r); RequestReceived rec n k], None) /\
        activeSessions s2 = activeSessions s1 /\ status rec = IGNORED.
Proof.
  intros Hok Httl Hb Hh Hin. pose proof (ok_handle _ _ _ _ _ _ _ _ _ Hok Hh) as Hok1. rewrite handle_shape in Hh.
  destruct (parseIncoming now (port_service p) msg r s) as [[[s0 o0] c0]|] eqn:Ep; [|done].
  assert (match c0 with Some (client, packet) => s0 = s /\ selectClient r s = Some client /\ parsePacket msg = Some (Ok packet) | None => no_send o0 end) as Hc.
  { apply parse_incoming in Ep as Hc; [|done]. destruct c0 as [[]|]; [apply Hc|]. unfold parseIncoming in Ep.
    destruct (selectClient r s); [|injection Ep as _ <-; constructor]. destruct (parsePacket msg) as [[]|]; [done | | done].
    unfold recordRequest in Ep. injection Ep as _ <-. by repeat constructor. }
  destruct c0 as [[client packet]|]; [|by injection Hh as <- <-; apply no_send_in in Hin]. destruct Hc as (-> & Hc & Hp).
  destruct (port_accepts p (code packet)) eqn:Ea; cbn [negb] in Hh; [|apply ignored_silent in Hh; by apply no_send_in in Hin].
  unfold sendCachedResponseIfDuplicate in Hh. set (sc := cleanupResponseCache now s) in *. assert (radius_ok sc) as Hsc by by apply ok_cleanup.
  set (ck := getCacheKey (port_service p) packet r) in *.
  assert (forall c, jmap_get (responseCache sc) ck = Some c -> jmap_get (responseCache s) ck = Some c /\ now < responseExpires c) as Hkept.
  { intros c Hg. apply jmap_get_elem in Hg; [|apply Hsc]. apply list_elem_of_In, filter_In in Hg as [Hg He].
    split; [apply jmap_get_elem; [apply Hok | by apply list_elem_of_In] | by apply Z.ltb_lt in He]. }
  destruct (match jmap_get (responseCache sc) ck with Some c => _ | None => _ end) as [[s3 o3] d] eqn:Ed.
  assert ((exists c, d = true /\ jmap_get (responseCache sc) ck = Some c /\ hash c = sha256 (raw packet) /\ s3 = fst (recordRequest (entry_for now (port_service p) packet r None None IGNORED []) sc) /\
             exists rec n k, o3 = [Send (response c) (port r) (address r); RequestReceived rec n k]) \/ d = false /\ s3 = sc) as [(c & -> & Hg & Hhash & -> & rec & n & k & ->)|[-> ->]].
  { destruct (jmap_get (responseCache sc) ck) as [c|]; [|injection Ed as <- _ <-; by right]. case_bool_decide; [|injection Ed as <- _ <-; by right].
    unfold recordRequest in Ed. injection Ed as <- <- <-. left. exists c. do 4 (split; [done|]). by do 3 eexists. }
  - injection Hh as <- <-. destruct (Hkept c Hg) as [Hgs He]. exists (responseExpires c), packet. split; [done|]. split; [done|].
    split; [intros Hnone; fold ck in Hnone; congruence|]. intros now' random' Hn. assert (b = response c) as -> by (apply (answer_of [] _ _ _ _ _ _ _ _ ltac:(constructor)) in Hin; done).
    by apply (duplicate_answered p now' random' msg r _ client packet c).
  - destruct (fresh_answers _ _ _ _ _ _ _ _ _ _ _ _ Hh Hin) as (cd & attrs & include & before & entry & s4 & Hr & Hno & Hcfg & Hcl & _).
    apply respond_sends in Hr as (b' & rec & n & k & -> & _ & Hcache & _ & Hcfg1 & Hcl1 & _). apply answer_of in Hin as ->; [|done].
    exists (now + duplicateCacheTtlMs (config s)), packet. split; [lia|]. split; [done|]. split; [done|]. intros now' random' Hn.
    rewrite Hcfg in Hcache, Hcfg1. rewrite Hcl in Hcl1. change (config sc) with (config s) in *. change (clients sc) with (clients s) in *.
    apply (duplicate_answered p now' random' msg r s1 client packet
      {| hash := sha256 (raw packet); response := b'; responseExpires := now + duplicateCacheTtlMs (config s) |}); try done.
    unfold selectClient in *. by rewrite Hcl1, Hcfg1.
Qed.

(** ** Who is let in *)

(** The reasons for an Access-Accept to a request that names the user [u]. *)
Inductive granted (now : Z) (packet : radius_packet) (u : radius_user) (secret : jsstring) (pending : jmap jsstring pending_challenge) : Prop :=
| granted_password a :
    getFirstAttribute (attributes packet) USER_PASSWORD = Some a -> authType u <> js "CHAP" ->
    decryptUserPassword md5 (attr_value a) secret (authenticator packet) = Ok (password u) -> granted now packet u secret pending
| granted_chap :
    authType u <> js "PAP" -> verifyChapPassword md5 packet (password u) = true -> granted now packet u secret pending
| granted_challenge a c p :
    getFirstAttribute (attributes packet) STATE = Some c -> jmap_get pending (hex_encode (attr_value c)) = Some p ->
    pendingUser p = username u -> now < challengeExpires p ->
    getFirstAttribute (attributes packet) USER_PASSWORD = Some a ->
    decryptUserPassword md5 (attr_value a) secret (authenticator packet) = Ok (pendingResponse p) -> granted now packet u secret pending
| granted_authorize_only : isAuthorizeOnly packet = true -> granted now packet u secret pending.

Lemma authorize_granted now random packet user secret pending :
  (forall k p, jmap_get pending k = Some p -> now < challengeExpires p) ->
  answerCode (snd (authorize md5 now random packet user secret pending)) = ACCESS_ACCEPT ->
  exists u, user = Some u /\ enabled u = true /\ granted now packet u secret pending.
Proof.
  intros Hfresh. unfold authorize. destruct (validateAccessRequest packet); [|done]. destruct user as [u|]; [|done].
  destruct (enabled u) eqn:Een; cbn [negb]; [|done]. destruct (isAuthorizeOnly packet) eqn:Eao.
  { intros _. exists u. split; [done|]. split; [done|]. by apply granted_authorize_only. }
  intros Hg. exists u. split; [done|]. split; [done|]. revert Hg. case_if.
  - unfold handleChallengeAuth. destruct (getFirstAttribute _ STATE) as [c|] eqn:Ec; [|done]. destruct (jmap_get pending _) as [p|] eqn:Ep; [|done].
    destruct (bool_decide (pendingUser p = username u)) eqn:Eu; cbn [negb]; [|done]. apply bool_decide_eq_true in Eu.
    destruct (getFirstAttribute _ USER_PASSWORD) as [a|] eqn:Ea; [|done].
    destruct (decryptUserPassword _ _ _ _) as [t|] eqn:Et; cbn [bind_result]; [|done]. destruct (bool_decide (t = pendingResponse p)) eqn:Ex; cbn [negb]; [|done].
    apply bool_decide_eq_true in Ex. subst t. intros _. eapply granted_challenge; eauto.
  - unfold verifyUserAuth. destruct (bool_decide (authType u = js "PAP")) eqn:E1, (bool_decide (authType u = js "CHAP")) eqn:E2;
      rewrite ?bool_decide_eq_true, ?bool_decide_eq_false in *; try congruence;
      destruct (detectAuthMethod packet) eqn:Em; cbn [negb andb bool_decide decide_rel]; try done;
      try (destruct (getFirstAttribute _ USER_PASSWORD) as [a|] eqn:Ea; [|done]; destruct (decryptUserPassword _ _ _ _) as [t|] eqn:Et; cbn [bind_result]; [|done];
           destruct (bool_decide (t = password u)) eqn:Ex; [|done]; apply bool_decide_eq_true in Ex; subst t; intros _; eapply granted_password; eauto; congruence);
      try (destruct (verifyChapPassword _ _ _) eqn:Ev; [|done]; intros _; apply granted_chap; [congruence | done]).
Qed.

(** An Access-Accept is only sent with a reason. If the authentication port sends a datagram with that code, then the request was parsed,
    and it is either the remembered answer to the same bytes from the same address, or the request names a known and enabled user and
    carries his password under the client's secret, or a CHAP response to it, or the answer to a challenge that was given to
    him and has not expired, or asks for authorization only. *)
Theorem radius_accept_has_reason now random msg r s s' out x b q a :
  radius_ok s -> bytes_ok msg -> handle_message AuthPort now random msg r s = Some (s', out, x) -> In (Send b q a) out -> byte_at b 0 = ACCESS_ACCEPT ->
  exists client packet, selectClient r s = Some client /\ parsePacket msg = Some (Ok packet) /\
    ((exists c, jmap_get (responseCache s) (getCacheKey AUTH packet r) = Some c /\ response c = b /\ hash c = sha256 (raw packet)) \/
     exists u, jmap_get (users s) (getString (attributes packet) USER_NAME) = Some u /\ enabled u = true /\
       granted now packet u (client_secret client) (pendingChallenges s)).
Proof.
  intros Hok Hb Hh Hin Hcode. rewrite handle_shape in Hh. unfold parseIncoming in Hh. destruct (selectClient r s) as [client|]; [|by injection Hh as _ <- _].
  destruct (parse_total msg Hb) as ([packet|e] & Hp & Hpk); rewrite Hp in Hh.
  2:{ unfold recordRequest in Hh. injection Hh as _ <- _. destruct Hin as [?|[]]; done. }
  specialize (Hpk packet eq_refl). exists client, packet. split; [done|]. split; [done|].
  case_if; [apply ignored_silent in Hh; by apply no_send_in in Hin|]. unfold sendCachedResponseIfDuplicate in Hh. cbn [port_service] in Hh.
  assert (forall k c, jmap_get (responseCache (cleanupResponseCache now s)) k = Some c -> jmap_get (responseCache s) k = Some c) as Hkept.
  { intros k c Hg. apply jmap_get_elem in Hg; [|apply (ok_cleanup now s Hok)]. apply list_elem_of_In, filter_In in Hg as [Hg _].
    apply jmap_get_elem; [apply Hok | by apply list_elem_of_In]. }
  assert (forall s2 o2, fresh_request AuthPort now random client packet r (cleanupResponseCache now s) = Some (s2, o2, x) -> In (Send b q a) o2 ->
    exists u, jmap_get (users s) (getString (attributes packet) USER_NAME) = Some u /\ enabled u = true /\ granted now packet u (client_secret client) (pendingChallenges s)) as Hfresh.
  { intros s2 o2 Hf Ho. cbn [fresh_request] in Hf. unfold authRequest in Hf.
    destruct (if hasAttribute _ _ then _ else _) as [[v|e]|]; [|by injection Hf as _ <- _ | done].
    do 2 (case_if; [apply ignored_silent in Hf; by apply no_send_in in Ho|]). change (users (cleanupResponseCache now s)) with (users s) in Hf.
    pose proof (authorize_code now random packet (jmap_get (users s) (getString (attributes packet) USER_NAME)) (client_secret client) (pendingChallenges (cleanupResponseCache now s))) as Hbyte.
    pose proof (authorize_granted now random packet (jmap_get (users s) (getString (attributes packet) USER_NAME)) (client_secret client) (pendingChallenges (cleanupResponseCache now s))) as Hg.
    destruct (authorize _ _ _ _ _ _ _) as [pending answer]. cbn [snd] in *. unfold respond in Hf.
    destruct (buildResponsePacket _ _ _ _ _ _ _ _) as [[b'|e]|] eqn:Eb; [|by injection Hf as _ <- _ | done].
    unfold recordRequest in Hf. injection Hf as _ <- _. destruct Ho as [Ho|[Ho|[]]]; [|done]. injection Ho as -> _ _.
    apply response_code in Eb; [|done | done | done | apply (po_auth _ Hpk)].
    destruct Hg as (u & Hu & He & Hg); [|congruence|].
    - intros k p Hk. apply jmap_get_elem in Hk; [|apply (ok_cleanup now s Hok)]. apply list_elem_of_In, filter_In in Hk as [_ Hk]. by apply Z.ltb_lt in Hk.
    - exists u. split; [done|]. split; [done|]. destruct Hg; [by eapply granted_password | by eapply granted_chap | | by eapply granted_authorize_only].
      eapply granted_challenge; eauto. apply jmap_get_elem; [apply Hok|]. apply jmap_get_elem in H1; [|apply (ok_cleanup now s Hok)].
      apply list_elem_of_In, filter_In in H1 as [H1 _]. by apply list_elem_of_In. }
  destruct (jmap_get (responseCache (cleanupResponseCache now s)) (getCacheKey AUTH packet r)) as [c|] eqn:Ec; [|right; by eapply Hfresh].
  case_bool_decide; [|right; by eapply Hfresh]. left. exists c. unfold recordRequest in Hh. injection Hh as _ <- _.
  destruct Hin as [Hin|[Hin|[]]]; [|done]. injection Hin as -> _ _. split; [by apply Hkept | done].
Qed.
(** ** A request and its answer *)

(** No answer to these bytes is remembered. *)
Definition unanswered (msg : buffer) (s : radius_worker) : Prop :=
  forall p, parsePacket msg = Some (Ok p) -> Forall (fun e => hash (snd e) <> sha256 (raw p)) (responseCache s).

(** What a client that knows the secret checks of a datagram [b] it takes for the answer with
    code [c] and attributes [l]. *)
Definition answer_verifies (secret : jsstring) (id : Z) (request : buffer) (c : Z) (l : list radius_attr) (b : buffer) : Prop :=
  exists p, parsePacket b = Some (Ok p) /\ code p = c /\ identifier p = id /\ attributes p = l /\
    computeResponseAuthenticator md5 c id request l secret = Ok (authenticator p).

Lemma fresh_handled p now random msg r s client packet :
  radius_ok s -> selectClient r s = Some client -> parsePacket msg = Some (Ok packet) -> port_accepts p (code packet) = true ->
  unanswered msg s -> handle_message p now random msg r s = fresh_request p now random client packet r (cleanupResponseCache now s).
Proof.
  intros Hok Hc Hp Ha Hu. rewrite (handle_parsed p now random msg r s client packet) by done. unfold sendCachedResponseIfDuplicate.
  destruct (jmap_get _ _) as [c|] eqn:Ec; [|done]. rewrite bool_decide_eq_false_2; [done|].
  apply jmap_get_elem in Ec; [|apply (ok_cleanup now s Hok)]. apply list_elem_of_In, filter_In in Ec as [Ec _].
  specialize (Hu packet Hp). rewrite Forall_forall in Hu. by apply (Hu _ Ec).
Qed.

Lemma respond_verifies now svc packet r secret c attrs before entry s :
  secret <> [] -> is_byte c -> length (authenticator packet) = 16%nat -> is_byte (identifier packet) -> Forall attr_ok attrs ->
  20 + blen (enc_all attrs) <= 4096 ->
  exists s' b rec n k,
    respond md5 hmacMd5 sha256 now svc packet r secret c attrs false before entry s =
      Some (s', before ++ [Send b (port r) (address r); RequestReceived rec n k], None) /\
    activeSessions s' = activeSessions s /\ rec = entry (requestCounter s + 1) /\
    answer_verifies secret (identifier packet) (authenticator packet) c attrs b.
Proof.
  intros Hs Hc Ha Hi Hl Hlen.
  destruct (response_verifies md5 hmacMd5 md5_digest hmac_digest secret Hs c (identifier packet) (authenticator packet) attrs false [])
    as (b & p & Hb & Hp & H1 & H2 & H3 & H4 & _); try done; [lia|].
  unfold respond, recordRequest. rewrite Hb. do 5 eexists. split; [done|]. split; [done|]. split; [done|].
  rewrite app_nil_r in Hp. rewrite Z.mod_small in H2 by (unfold is_byte in Hi; lia). cbn [response_attributes] in H3. exists p.
  rewrite H1, H2, H3 in H4. done.
Qed.
(** The attributes of a login with a password hidden in [e]; [only] asks for authorization only. *)
Definition login_attributes (name nas : jsstring) (e : buffer) (only : bool) : list radius_attr :=
  [stringAttr USER_NAME name; attr USER_PASSWORD e; stringAttr NAS_IDENTIFIER nas] ++
  (if only then [attr SERVICE_TYPE [0; 0; 0; AUTHORIZE_ONLY]] else []).

Definition login_packet (id : Z) (auth : buffer) (l : list radius_attr) : radius_packet := {|
  code := ACCESS_REQUEST; identifier := id mod 256; packet_length := 20 + blen (enc_all l); authenticator := auth;
  attributes := l; raw := packet_bytes ACCESS_REQUEST id auth l; paddingLength := 0 |}.

Lemma login_parsed id auth l : length auth = 16%nat -> Forall (fun a => blen (attr_value a) <= 253) l -> 20 + blen (enc_all l) <= 4096 ->
  parsePacket (packet_bytes ACCESS_REQUEST id auth l) = Some (Ok (login_packet id auth l)).
Proof. intros Ha Hl Hn. rewrite <- (app_nil_r (packet_bytes _ _ _ _)). by rewrite parse_built. Qed.

Lemma login_name name nas e only : utf16_ok name = true -> getString (login_attributes name nas e only) USER_NAME = strip_nuls name.
Proof. intros Hn. unfold getString. change (getFirstAttribute _ _) with (Some (stringAttr USER_NAME name)). unfold stringAttr, attr, stringToBuffer. cbn [attr_value]. by rewrite utf8_round_trip. Qed.

(** A user who may log in with a password and whose reply fits into a packet. *)
Record password_user (packet : radius_packet) (u : radius_user) : Prop := {
  pw_enabled : enabled u = true;
  pw_type : authType u = js "PAP";
  pw_reply : exists l, buildAcceptAttributes packet u = Ok l /\ Forall attr_ok l /\ 20 + blen (enc_all l) <= 4096
}.

Lemma login_decided now random id auth name nas e only typed u secret pending :
  let packet := login_packet id auth (login_attributes name nas e only) in
  password_user packet u -> decryptUserPassword md5 e secret auth = Ok typed ->
  exists l, authorize md5 now random packet (Some u) secret pending =
    (pending, {| answerCode := if only || bool_decide (typed = password u) then ACCESS_ACCEPT else ACCESS_REJECT; answerAttrs := l;
                 answerStatus := if only || bool_decide (typed = password u) then ACCEPTED else REJECTED |}) /\
    Forall attr_ok l /\ 20 + blen (enc_all l) <= 4096.
Proof.
  intros packet [He Ht (l & Hl & Hok & Hn)] Hd. unfold authorize. assert (validateAccessRequest packet = []) as -> by (destruct only; reflexivity).
  rewrite He, Ht. cbn [negb]. assert (isAuthorizeOnly packet = only) as -> by (destruct only; reflexivity).
  destruct only; [exists l; unfold accept_with; by rewrite Hl|]. rewrite bool_decide_eq_false_2 by done.
  assert (detectAuthMethod packet = PAP) as -> by reflexivity. unfold verifyUserAuth. rewrite Ht.
  rewrite bool_decide_eq_true_2 by done. rewrite (bool_decide_eq_true_2 (PAP = PAP)) by done. cbn [negb andb].
  rewrite bool_decide_eq_false_2 by done. cbn [andb]. change (getFirstAttribute (attributes packet) USER_PASSWORD) with (Some (attr USER_PASSWORD e)).
  cbn [attr_value attr]. change (authenticator packet) with auth. rewrite Hd. cbn [bind_result orb].
  case_bool_decide; [exists l; unfold accept_with; by rewrite Hl|]. exists (answerAttrs (rejection packet)). split; [done|].
  split; [|by vm_compute]. by repeat (apply Forall_cons; [done|]).
Qed.
Lemma login_fits name nas e only : blen (utf8_encode name) <= 253 -> blen (utf8_encode nas) <= 253 -> blen e <= 253 ->
  Forall attr_ok (login_attributes name nas e only) /\ 20 + blen (enc_all (login_attributes name nas e only)) <= 4096.
Proof.
  intros H1 H2 H3. split.
  - unfold login_attributes. repeat (apply Forall_cons; [done|]). by destruct only; repeat (apply Forall_cons; [done|]).
  - unfold login_attributes. rewrite enc_all_app, blen_app. unfold enc_all at 1. cbn [map concat]. rewrite !blen_app, !blen_enc. cbn [stringAttr attr attr_value].
    unfold stringToBuffer. change (blen []) with 0.
    destruct only; [change (blen (enc_all [attr SERVICE_TYPE _])) with 6 | change (blen (enc_all [])) with 0]; lia.
Qed.

(** C19: A login is answered, with an answer the client can verify, and only the right password lets the user in: a user who
    logs in with a password, hidden the way the client hides it, gets an Access-Accept if the password up to the zero
    bytes at its end is his, and an Access-Reject otherwise; but whoever asks for authorization only gets the
    Access-Accept with any password. *)
Theorem radius_login now random r s client id auth name nas typed only u :
  radius_ok s -> selectClient r s = Some client -> client_secret client <> [] -> requireMessageAuthenticator (config s) = false ->
  is_byte id -> length auth = 16%nat -> utf16_ok name = true -> utf16_ok typed = true ->
  blen (utf8_encode name) <= 253 -> blen (utf8_encode nas) <= 253 -> blen (utf8_encode typed) <= 128 ->
  jmap_get (users s) (strip_nuls name) = Some u ->
  exists e, encryptUserPassword md5 typed (client_secret client) auth = Ok e /\
    let l := login_attributes name nas e only in
    exists msg, buildPacket ACCESS_REQUEST id auth l = Ok msg /\
      (password_user (login_packet id auth l) u -> unanswered msg s ->
       exists s' b rec n k answer,
         handle_message AuthPort now random msg r s = Some (s', [Send b (port r) (address r); RequestReceived rec n k], None) /\
         activeSessions s' = activeSessions s /\
         answer_verifies (client_secret client) id auth
           (if only || bool_decide (strip_nuls typed = password u) then ACCESS_ACCEPT else ACCESS_REJECT) answer b).
Proof.
  intros Hok Hc Hs Hreq Hid Ha Hn Ht Hl1 Hl2 Hl3 Hu.
  destruct (password_read_back md5 md5_digest typed (client_secret client) auth Ht Hl3 Hs) as (e & He & Hsize & Hd).
  exists e. split; [done|]. set (l := login_attributes name nas e only). destruct (login_fits name nas e only) as [Hl Hfit]; [done..|lia|].
  exists (packet_bytes ACCESS_REQUEST id auth l). split; [by apply build_ok|]. intros Hpu Hun.
  assert (parsePacket (packet_bytes ACCESS_REQUEST id auth l) = Some (Ok (login_packet id auth l))) as Hp
    by (apply login_parsed; [done | by apply attr_ok_length | done]).
  rewrite (fresh_handled AuthPort now random _ r s client _ Hok Hc Hp eq_refl Hun). cbn [fresh_request]. unfold authRequest.
  change (hasAttribute (attributes (login_packet id auth l)) MESSAGE_AUTHENTICATOR) with (hasAttribute l MESSAGE_AUTHENTICATOR).
  assert (hasAttribute l MESSAGE_AUTHENTICATOR = false) as -> by (unfold l; destruct only; reflexivity). cbn [negb].
  change (requireMessageAuthenticator (config (cleanupResponseCache now s))) with (requireMessageAuthenticator (config s)). rewrite Hreq. cbn [andb].
  change (users (cleanupResponseCache now s)) with (users s).
  change (getString (attributes (login_packet id auth l)) USER_NAME) with (getString l USER_NAME). unfold l at 2. rewrite login_name, Hu by done.
  edestruct (login_decided now random id auth name nas e only (strip_nuls typed) u) as (answer & Hauth & Hans & Hansfit); [done | exact Hd|].
  fold l in Hauth. rewrite Hauth. cbn [answerCode answerAttrs answerStatus].
  edestruct respond_verifies as (s' & b & rec & n & k & Hr & Hsess & _ & Hv);
    [exact Hs | | | | exact Hans | exact Hansfit | do 6 eexists; split; [exact Hr|]; split; [exact Hsess|]].
  - by destruct (only || _).
  - done.
  - cbn [identifier login_packet]. rewrite Z.mod_small; unfold is_byte in *; lia.
  - cbn [identifier authenticator login_packet] in Hv. rewrite Z.mod_small in Hv by (unfold is_byte in Hid; lia). exact Hv.
Qed.

Lemma parsed_identifier b p : bytes_ok b -> parsePacket b = Some (Ok p) -> is_byte (identifier p).
Proof. intros Hb Hp. destruct (parse_total b Hb) as (r & Hr & Hok). rewrite Hp in Hr. injection Hr as <-. apply (Hok p eq_refl). Qed.

Lemma proxy_fits l : Forall attr_ok l -> Forall attr_ok (getProxyStateAttributes l) /\ blen (enc_all (getProxyStateAttributes l)) <= blen (enc_all l).
Proof.
  unfold getProxyStateAttributes, getAttributes. induction 1 as [|a l Ha _ [IH1 IH2]]; [split; [constructor | done]|]. cbn [List.filter].
  change (enc_all (a :: l)) with (enc a ++ enc_all l). rewrite blen_app. pose proof (blen_nonneg (enc a)).
  destruct (attr_type a =? PROXY_STATE); cbn [map]; [|split; [done | lia]]. split.
  - apply Forall_cons; [|done]. split; [done | apply Ha].
  - change (enc_all (?x :: ?y)) with (enc x ++ enc_all y). rewrite blen_app, !blen_enc. cbn [attr_value attr]. lia.
Qed.

(** The session a START or an interim update leaves behind. *)
Definition accounted (now : Z) (packet : radius_packet) (r : rinfo) (st : Z) (old : option radius_session) (new : radius_session) : Prop :=
  key new = getSessionKey packet r /\ userName new = or_dash (getString (attributes packet) USER_NAME) /\
  sessionIp new = getIp (attributes packet) FRAMED_IP_ADDRESS /\ lastStatusType new = Some st /\ lastUpdateAt new = now /\
  startedAt new = Some (match old with Some session => default now (startedAt session) | None => now end) /\
  coaFilterIds new = match old with Some session => coaFilterIds session | None => [] end.

Lemma update_session now packet r st s : radius_ok s -> st = START \/ st = STOP \/ st = INTERIM_UPDATE ->
  exists s' events session,
    updateSessionFromAccounting now packet r (Some st) s = (s', events, session) /\ events = [SessionUpdated (jmap_values (activeSessions s'))] /\
    (forall k, k <> getSessionKey packet r -> jmap_get (activeSessions s') k = jmap_get (activeSessions s) k) /\
    if st =? STOP then jmap_get (activeSessions s') (getSessionKey packet r) = None
    else exists new, jmap_get (activeSessions s') (getSessionKey packet r) = Some new /\
         accounted now packet r st (jmap_get (activeSessions s) (getSessionKey packet r)) new.
Proof.
  intros Hok Hst. unfold updateSessionFromAccounting, sendSessionEvent. destruct (Z.eqb_spec st STOP) as [->|Hns].
  - rewrite bool_decide_eq_true_2 by done. do 3 eexists. split; [done|]. split; [done|]. split.
    + intros k Hk. cbn. by rewrite jmap_get_delete_ne.
    + cbn. apply jmap_get_delete_eq, Hok.
  - rewrite bool_decide_eq_false_2 by congruence. rewrite (bool_decide_eq_false_2 (Some st = Some ACCOUNTING_OFF)) by (intros [= ->]; naive_solver).
    assert (bool_decide (Some st = Some START) || bool_decide (Some st = Some INTERIM_UPDATE) = true) as ->
      by (destruct Hst as [->|[->| ->]]; done). do 3 eexists. split; [done|]. split; [done|]. split.
    + intros k Hk. cbn. by rewrite jmap_get_set_ne.
    + eexists. cbn. split; [by rewrite jmap_get_set_eq|]. unfold accounted. by destruct (jmap_get _ _).
Qed.

(** Accounting is recorded and acknowledged: a Start, Interim-Update or Stop that a client builds with the shared secret is
    answered with an Accounting-Response the client can verify, which returns the Proxy-States; Start and
    Interim-Update leave the session they describe under its key, with the time of its first request and the changes
    of a CoA kept, Stop removes it, no other session changes, and the new sessions are reported. *)
Theorem radius_accounting now random r s client id l st padding :
  radius_ok s -> selectClient r s = Some client -> client_secret client <> [] -> is_byte id ->
  Forall attr_ok l -> 20 + blen (enc_all l) <= 4096 -> getInteger l ACCT_STATUS_TYPE = Some st -> st = START \/ st = STOP \/ st = INTERIM_UPDATE ->
  exists msg packet, buildAccountingLikeRequestPacket md5 hmacMd5 ACCOUNTING_REQUEST id l (client_secret client) false = Some (Ok msg) /\
    parsePacket (msg ++ padding) = Some (Ok packet) /\ attributes packet = l /\
    (unanswered (msg ++ padding) s ->
     exists s' b rec n k,
       handle_message AccountingPort now random (msg ++ padding) r s =
         Some (s', [SessionUpdated (jmap_values (activeSessions s')); Send b (port r) (address r); RequestReceived rec n k], None) /\
       answer_verifies (client_secret client) id (authenticator packet) ACCOUNTING_RESPONSE (getProxyStateAttributes l) b /\
       (forall sk, sk <> getSessionKey packet r -> jmap_get (activeSessions s') sk = jmap_get (activeSessions s) sk) /\
       if st =? STOP then jmap_get (activeSessions s') (getSessionKey packet r) = None
       else exists new, jmap_get (activeSessions s') (getSessionKey packet r) = Some new /\
              accounted now packet r st (jmap_get (activeSessions s) (getSessionKey packet r)) new).
Proof.
  intros Hok Hc Hs Hid Hl Hfit Hst Hcases.
  destruct (request_verifies md5 hmacMd5 md5_digest hmac_digest (client_secret client) Hs ACCOUNTING_REQUEST id l false padding)
    as (msg & packet & _ & Hb & Hp & Hcode & Hident & Hattrs & Hauth & Hv & _); try done; [lia|].
  exists msg, packet. do 3 (split; [done|]). intros Hun.
  rewrite (fresh_handled AccountingPort now random _ r s client _ Hok Hc Hp) by (done || by cbn; rewrite Hcode). cbn [fresh_request]. unfold accountingRequest.
  rewrite Hv, Hattrs, Hst. pose proof (ok_cleanup now s Hok) as Hok'.
  destruct (update_session now packet r st (cleanupResponseCache now s) Hok' Hcases) as (s1 & events & session & Hup & -> & Hother & Hthis). rewrite Hup.
  change (activeSessions (cleanupResponseCache now s)) with (activeSessions s) in *. destruct (proxy_fits l Hl) as [Hpo Hps].
  assert (identifier packet = id) as Hid' by (rewrite Hident; apply Z.mod_small; unfold is_byte in Hid; lia).
  edestruct respond_verifies as (s' & b & rec & n & k & Hr & Hsess & _ & Hans);
    [exact Hs | | exact Hauth | by rewrite Hid' | exact Hpo | lia | exists s', b, rec, n, k; rewrite Hsess; split; [exact Hr|]].
  - done.
  - rewrite Hid' in Hans. split; [exact Hans | split; done].
Qed.

(** *** Disconnect *)

Definition selects (session : radius_session) (f : radius_attr) : bool :=
  match filter_matches session f with Ok b => b | Throw _ => false end.

(** The sessions a list of filters means: every filter selects them. *)
Definition selected (filters : list radius_attr) (session : radius_session) : bool := forallb (selects session) filters.

(** A NAS-Port that can be read. *)
Definition readable (a : radius_attr) : Prop := attr_type a = NAS_PORT -> 4 <= blen (attr_value a).

Lemma filter_reads session f : readable f -> filter_matches session f = Ok (selects session f).
Proof.
  intros Hr. unfold selects. enough (exists b, filter_matches session f = Ok b) as [b ->] by done. unfold filter_matches.
  repeat (case_if; [by eexists|]). case_if; [|repeat (case_if; [by eexists|]); by eexists].
  specialize (Hr ltac:(by apply Z.eqb_eq)). destruct (attr_value f) as [|a [|b [|c [|d v]]]]; unfold blen in Hr; cbn [length] in Hr; try lia.
  pose proof (read_at 4 [] [a; b; c; d] v eq_refl) as Hrd. unfold readUInt32BE. change (readUIntBE 4 (a :: b :: c :: d :: v) 0) with
    (readUIntBE 4 ([] ++ [a; b; c; d] ++ v) (blen (@nil Z))). rewrite Hrd. by eexists.
Qed.

Lemma session_matches session filters : Forall readable filters -> sessionMatches session filters = Ok (selected filters session).
Proof.
  unfold selected. induction 1 as [|f filters Hf _ IH]; [done|]. cbn [sessionMatches forallb]. rewrite filter_reads by done. cbn [bind_result].
  by destruct (selects session f).
Qed.

Lemma matching_sessions packet sessions :
  let filters := List.filter isIdentification (attributes packet) in
  code packet = DISCONNECT_REQUEST -> filters <> [] -> Forall readable filters ->
  findMatchingSessions packet sessions =
    Ok (match List.filter (fun e => selected filters (snd e)) sessions with [] => inl SESSION_CONTEXT_NOT_FOUND | found => inr found end).
Proof.
  intros filters Hc Hne Hr. unfold findMatchingSessions. rewrite Hc. change (DISCONNECT_REQUEST =? COA_REQUEST) with false. cbv zeta iota. fold filters.
  assert (0 < blen filters) by (destruct filters; [done | unfold blen; cbn [length]; lia]).
  decide_test (0 <? blen filters) true. decide_test (blen filters =? 0) false.
  rewrite (map_ok_all _ (fun e => (e, selected filters (snd e)))).
  2:{ apply list.Forall_forall. intros e _. by rewrite session_matches. }
  cbn [bind_result]. enough (map fst (List.filter snd (map (fun e => (e, selected filters (snd e))) sessions)) =
    List.filter (fun e => selected filters (snd e)) sessions) as -> by (by destruct (List.filter _ sessions)).
  induction sessions as [|e sessions IH]; [done|]. cbn [map List.filter snd]. destruct (selected filters (snd e)); cbn [map fst]; by rewrite IH.
Qed.

Lemma keys_agree (f : jsstring * radius_session -> bool) sessions :
  jmap_ok sessions -> Forall (fun e => key (snd e) = fst e) sessions ->
  fold_left (fun m e => jmap_delete m (key (snd e))) (List.filter f sessions) sessions = List.filter (fun e => negb (f e)) sessions.
Proof.
  intros Hok Hkeys. rewrite <- jmap_delete_all by done. generalize sessions at 2 4. apply (Forall_filter_list _ f) in Hkeys.
  induction Hkeys as [|e found He _ IH]; intros m; [done|]. cbn [fold_left]. by rewrite He, IH.
Qed.

Lemma disconnect_sessions packet sessions :
  let filters := List.filter isIdentification (attributes packet) in
  let found := List.filter (fun e => selected filters (snd e)) sessions in
  jmap_ok sessions -> Forall (fun e => key (snd e) = fst e) sessions -> code packet = DISCONNECT_REQUEST ->
  Forall (fun a => isIdentification a || isMeta a = true) (attributes packet) -> filters <> [] -> Forall readable filters ->
  processDisconnect packet sessions =
    Ok (if bool_decide (found = []) then inl SESSION_CONTEXT_NOT_FOUND
        else inr (List.filter (fun e => negb (selected filters (snd e))) sessions)).
Proof.
  intros filters found Hok Hkeys Hc Hall Hne Hr. unfold processDisconnect. destruct (List.find _ _) as [a|] eqn:Ef.
  { apply find_some in Ef as [Hin Ha]. rewrite Forall_forall in Hall. specialize (Hall a Hin). by destruct (isIdentification a), (isMeta a). }
  rewrite matching_sessions by done. cbn [bind_result]. fold filters found. destruct found as [|e found'] eqn:E; [by rewrite bool_decide_eq_true_2|].
  rewrite bool_decide_eq_false_2, <- E by done. unfold found. by rewrite keys_agree.
Qed.

Lemma none_selected {A} (f : A -> bool) l : List.filter f l = [] -> List.filter (fun x => negb (f x)) l = l /\ existsb f l = false.
Proof.
  induction l as [|x l IH]; [done|]. cbn [List.filter existsb]. destruct (f x); [done|]. intros Hl. destruct (IH Hl) as [H1 H2].
  cbn [negb orb]. by rewrite H1.
Qed.

Lemma some_selected {A} (f : A -> bool) l : List.filter f l <> [] -> existsb f l = true.
Proof. induction l as [|x l IH]; [done|]. cbn [List.filter existsb]. destruct (f x); [done|]. by apply IH. Qed.

Lemma vendor_selects l session : Forall (fun a => attr_type a = VENDOR_SPECIFIC) l -> selected l session = true.
Proof.
  induction 1 as [|a l Ha _ IH]; [done|]. unfold selected in *. cbn [forallb]. rewrite IH. unfold selects, filter_matches. by rewrite Ha.
Qed.

(** A Disconnect-Request removes exactly the sessions it names: built with the shared secret from attributes that identify
    sessions, it is answered with an ACK the client can verify if some session has all those attributes, and with a NAK
    otherwise, and the sessions that remain are, in their order, those that do not have all of them. But a
    Vendor-Specific attribute has no say in this: a request with no other attribute removes every session. *)
Theorem radius_disconnect now random r s client id l padding :
  radius_ok s -> selectClient r s = Some client -> client_secret client <> [] -> is_byte id ->
  Forall attr_ok l -> no_mac l -> 26 + blen (enc_all l) <= 4096 ->
  Forall (fun a => isIdentification a || isMeta a = true) l -> Forall readable l -> List.filter isIdentification l <> [] ->
  exists msg packet, buildAccountingLikeRequestPacket md5 hmacMd5 DISCONNECT_REQUEST id l (client_secret client) false = Some (Ok msg) /\
    parsePacket (msg ++ padding) = Some (Ok packet) /\
    (unanswered (msg ++ padding) s ->
     exists s' events b rec n k answer,
       handle_message CoaPort now random (msg ++ padding) r s =
         Some (s', events ++ [Send b (port r) (address r); RequestReceived rec n k], None) /\
       let named := selected (List.filter isIdentification l) in
       answer_verifies (client_secret client) id (authenticator packet)
         (if existsb (fun e => named (snd e)) (activeSessions s) then DISCONNECT_ACK else DISCONNECT_NAK) answer b /\
       activeSessions s' = List.filter (fun e => negb (named (snd e))) (activeSessions s) /\
       (Forall (fun a => attr_type a = VENDOR_SPECIFIC) l -> activeSessions s' = [])).
Proof.
  intros Hok Hc Hs Hid Hl Hno Hfit Hall Hr Hne.
  destruct (request_verifies md5 hmacMd5 md5_digest hmac_digest (client_secret client) Hs DISCONNECT_REQUEST id l false padding)
    as (msg & packet & _ & Hb & Hp & Hcode & Hident & Hattrs & Hauth & Hv & _); try done; [lia|].
  exists msg, packet. do 2 (split; [done|]). intros Hun.
  rewrite (fresh_handled CoaPort now random _ r s client _ Hok Hc Hp) by (done || by cbn; rewrite Hcode). cbn [fresh_request]. unfold coaRequest.
  rewrite Hv, Hattrs, Hcode. assert (hasAttribute l MESSAGE_AUTHENTICATOR = false) as ->.
  { unfold hasAttribute, getFirstAttribute, getAttributes. apply bool_decide_eq_false. intros [a Ha]. apply head_Some_elem_of, list_elem_of_In, filter_In in Ha as [Hin Ha].
    unfold no_mac in Hno. rewrite Forall_forall in Hno. apply (Hno a Hin). by apply Z.eqb_eq. }
  cbn [negb]. change (DISCONNECT_REQUEST =? DISCONNECT_REQUEST) with true. cbv iota.
  change (activeSessions (cleanupResponseCache now s)) with (activeSessions s). rewrite disconnect_sessions by (rewrite ?Hattrs; try apply Hok; try done; by apply Forall_filter_list).
  rewrite Hattrs. set (named := selected (List.filter isIdentification l)). destruct (proxy_fits l Hl) as [Hpo Hps].
  assert (identifier packet = id) as Hid' by (rewrite Hident; apply Z.mod_small; unfold is_byte in Hid; lia).
  assert (Forall (fun a => attr_type a = VENDOR_SPECIFIC) l -> List.filter (fun e => negb (named (snd e))) (activeSessions s) = []) as Hvendor.
  { intros Hven. induction (activeSessions s) as [|e m IH]; [done|]. cbn [List.filter]. unfold named. rewrite vendor_selects; [done | by apply Forall_filter_list]. }
  case_bool_decide as Hfound; cbn [bind_result].
  - destruct (none_selected (fun e => named (snd e)) (activeSessions s) Hfound) as [Hkeep Hnone]. rewrite Hkeep, Hnone in *.
    change (integerAttr ERROR_CAUSE SESSION_CONTEXT_NOT_FOUND) with (Ok (attr ERROR_CAUSE [0; 0; 1; 247])). cbn [bind_result].
    edestruct respond_verifies as (s' & b & rec & n & k & Hresp & Hsess & _ & Hans);
      [exact Hs | | exact Hauth | by rewrite Hid' | apply Forall_app; split; [|exact Hpo] | | exists s', [], b, rec, n, k; eexists; rewrite Hsess; split; [exact Hresp|]].
    + done.
    + by apply Forall_cons.
    + rewrite enc_all_app, blen_app. change (blen (enc_all [attr ERROR_CAUSE _])) with 6. lia.
    + rewrite Hid' in Hans. split; [exact Hans | split; [done | exact Hvendor]].
  - rewrite (some_selected (fun e => named (snd e)) (activeSessions s) Hfound). 
    edestruct respond_verifies as (s' & b & rec & n & k & Hresp & Hsess & _ & Hans);
      [exact Hs | | exact Hauth | by rewrite Hid' | exact Hpo | | eexists s', _, b, rec, n, k, _; rewrite Hsess; split; [exact Hresp|]].
    + done.
    + lia.
    + rewrite Hid' in Hans. split; [exact Hans | split; [done | exact Hvendor]].
Qed.

End Digests.
End Server.


(** ** Examples *)

Module Examples.
#[local] Existing Instance tagged_addresses.

Definition digest (m : buffer) : buffer := replicate 16 (blen m mod 256).
Definition mac (k m : buffer) : buffer := replicate 16 ((blen k + blen m) mod 256).

Lemma digest_ok m : length (digest m) = 16%nat /\ bytes_ok (digest m).
Proof. split; [done|]. apply Forall_replicate. apply Z.mod_pos_bound. lia. Qed.

Lemma mac_ok k m : length (mac k m) = 16%nat /\ bytes_ok (mac k m).
Proof. split; [done|]. apply Forall_replicate. apply Z.mod_pos_bound. lia. Qed.

Definition alice : radius_user := {|
  username := js "alice"; password := js "wonder"; enabled := true; authType := js "PAP"; challengePrompt := []; challengeResponse := [];
  replyMessage := js "hello"; serviceType := 2; framedProtocol := 1; framedIpAddress := js "10.0.0.9"; framedIpv6Prefix := [];
  framedIpNetmask := []; sessionTimeout := 3600; idleTimeout := 0; classAttribute := []; filterIds := [js "std"]; vendorAttributes := [] |}.

Definition settings : radius_config := {|
  sharedSecret := js "secret"; requireMessageAuthenticator := false; rejectUnknownClients := false; duplicateCacheTtlMs := 30000 |}.

Definition server : radius_worker := radius_started_with settings [alice] [] 10.
Definition nas : rinfo := {| address := [52; 10; 0; 0; 1]; port := 40000 |}.
Definition nas_client : radius_client := {| ipAddress := @normalizeAddress tagged_addresses [52; 10; 0; 0; 1]; client_secret := js "secret" |}.
Definition request_auth : buffer := replicate 16 9.

Definition login (typed : jsstring) : buffer :=
  match encryptUserPassword digest typed (js "secret") request_auth with
  | Ok e => packet_bytes ACCESS_REQUEST 1 request_auth (login_attributes (js "alice") (js "nas") e false)
  | Throw _ => []
  end.

Definition handles (p : radius_port) (now : Z) (msg : buffer) (s : radius_worker) : handled :=
  @handle_message tagged_addresses digest mac (fun m => m) p now [] msg nas s.

Lemma server_ok : radius_ok server.
Proof. apply ok_started. Qed.
Lemma radius_tables_consistent_witness :
  exists s' out, handles AuthPort 5 (login (js "wonder")) server = Some (s', out, None) /\ radius_ok s'.
Proof.
  eexists _, _. split; [vm_compute; reflexivity|].
  edestruct (radius_tables_consistent digest mac (fun m => m) settings [alice] [] 10 server AuthPort 5 [] (login (js "wonder")) nas) as [_ Hs];
    [constructor | apply Hs; vm_compute; reflexivity].
Defined.

Lemma radius_handlers_end_witness : is_Some (handles CoaPort 5 [43; 1; 0; 22; 1; 2; 3; 4; 5; 6; 7; 8; 9; 10; 11; 12; 13; 14; 15; 16; 0; 2] server).
Proof. apply (radius_handlers_end digest mac (fun m => m) mac_ok CoaPort 5 []). by apply bytes_ok_check. Defined.

Lemma radius_retransmission_witness :
  exists s1 out b, handles AuthPort 5 (login (js "wonder")) server = Some (s1, out, None) /\
    exists s2 rec n k, handles AuthPort 30004 (login (js "wonder")) s1 = Some (s2, [Send b 40000 (address nas); RequestReceived rec n k], None).
Proof.
  eexists _, _, _. split; [vm_compute; reflexivity|].
  edestruct (radius_retransmission digest mac (fun m => m) AuthPort 5 [] (login (js "wonder")) nas server) as (until & packet & _ & Hp & Hu & Hr);
    [apply server_ok | done | by apply bytes_ok_check | vm_compute; reflexivity | by left |].
  rewrite Hu in Hr by reflexivity. destruct (Hr 30004 []) as (s2 & rec & n & k & Hh & _); [done|]. exists s2, rec, n, k. exact Hh.
Defined.

Lemma radius_accept_has_reason_witness :
  exists s' out b, handles AuthPort 5 (login (js "wonder")) server = Some (s', out, None) /\ In (Send b 40000 (address nas)) out /\
    byte_at b 0 = ACCESS_ACCEPT /\
    exists packet, parsePacket (login (js "wonder")) = Some (Ok packet) /\ granted digest 5 packet alice (js "secret") [].
Proof.
  eexists _, _, _. split; [vm_compute; reflexivity|]. split; [by left|]. split; [reflexivity|].
  edestruct (radius_accept_has_reason digest mac (fun m => m) digest_ok mac_ok 5 [] (login (js "wonder")) nas server)
    as (client & packet & Hc & Hp & [(c & Hcache & _)|(u & Hu & _ & Hg)]);
    [apply server_ok | by apply bytes_ok_check | vm_compute; reflexivity | by left | reflexivity | done |].
  injection Hc as <-. vm_compute in Hp. injection Hp as <-. vm_compute in Hu. injection Hu as <-. eexists. split; [vm_compute; reflexivity | exact Hg].
Defined.
Lemma server_unanswered msg : unanswered (fun m => m) msg server.
Proof. intros p _. constructor. Qed.

Lemma radius_login_witness :
  exists e msg s' b rec n k answer,
    buildPacket ACCESS_REQUEST 1 request_auth (login_attributes (js "alice") (js "nas") e false) = Ok msg /\
    handles AuthPort 5 msg server = Some (s', [Send b 40000 (address nas); RequestReceived rec n k], None) /\
    answer_verifies digest (js "secret") 1 request_auth ACCESS_REJECT answer b.
Proof.
  destruct (radius_login digest mac (fun m => m) digest_ok mac_ok 5 [] nas server nas_client 1 request_auth (js "alice") (js "nas") (js "guess") false alice
    server_ok eq_refl ltac:(done) eq_refl ltac:(done) eq_refl eq_refl eq_refl ltac:(done) ltac:(done) ltac:(done) eq_refl) as (e & He & msg & Hm & Hrun).
  destruct Hrun as (s' & b & rec & n & k & answer & Hh & _ & Hv).
  - vm_compute in He. injection He as <-. split; [done | done|]. eexists. split; [vm_compute; reflexivity|]. split; [|by vm_compute].
    by repeat (apply Forall_cons; [done|]).
  - apply server_unanswered.
  - exists e, msg, s', b, rec, n, k, answer. split; [exact Hm|]. split; [exact Hh | exact Hv].
Defined.

Definition started : radius_session := {|
  key := js "s1"; userName := js "alice"; acctSessionId := js "s1"; acctMultiSessionId := []; nasAddress := js "10.0.0.1";
  nasIpAddress := []; nasIpv6Address := []; nasIdentifier := []; nasPort := None; nasPortId := []; sessionIp := []; sessionIpv6 := [];
  callingStationId := []; calledStationId := []; lastStatusType := Some START; lastUpdateAt := 1; startedAt := Some 1;
  coaFilterIds := []; coaSessionTimeout := None; coaIdleTimeout := None; lastCoaAt := None |}.

Definition busy : radius_worker := server <| activeSessions := [(js "s1", started)] |>.

Lemma busy_ok : radius_ok busy.
Proof. apply ok_set_sessions; [apply server_ok | by apply (jmap_ok_set []), jmap_ok_nil | by apply Forall_cons]. Qed.

Lemma radius_accounting_witness :
  exists msg s' b rec n k,
    handles AccountingPort 9 msg busy = Some (s', [SessionUpdated []; Send b 40000 (address nas); RequestReceived rec n k], None) /\
    jmap_get (activeSessions s') (js "s1") = None.
Proof.
  destruct (radius_accounting digest mac (fun m => m) digest_ok mac_ok 9 [] nas busy nas_client 7
    [attr ACCT_STATUS_TYPE [0; 0; 0; STOP]; stringAttr ACCT_SESSION_ID (js "s1")] STOP []
    busy_ok eq_refl ltac:(done) ltac:(done) ltac:(by repeat (apply Forall_cons; [done|])) ltac:(done) eq_refl ltac:(by right; left))
    as (msg & packet & Hm & Hp & Ha & Hrun).
  vm_compute in Hm. injection Hm as <-. vm_compute in Hp. injection Hp as <-.
  destruct Hrun as (s' & b & rec & n & k & Hh & _ & _ & Hgone); [intros ? _; constructor|].
  eexists _, s', b, rec, n, k. rewrite app_nil_r in Hh. split; [|exact Hgone].
  unfold handles. rewrite Hh. do 3 f_equal. vm_compute in Hh. by injection Hh as <- _ _.
Defined.

Lemma radius_disconnect_witness :
  exists msg s' events b rec n k,
    handles CoaPort 9 msg busy = Some (s', events ++ [Send b 40000 (address nas); RequestReceived rec n k], None) /\ activeSessions s' = [].
Proof.
  destruct (radius_disconnect digest mac (fun m => m) digest_ok mac_ok 9 [] nas busy nas_client 7 [attr VENDOR_SPECIFIC [0; 0; 0; 9; 1; 2]] []
    busy_ok eq_refl ltac:(done) ltac:(done) ltac:(by repeat (apply Forall_cons; [done|])) ltac:(by repeat (apply Forall_cons; [done|])) ltac:(done)
    ltac:(by repeat (apply Forall_cons; [done|])) ltac:(by repeat (apply Forall_cons; [done|])) ltac:(done))
    as (msg & packet & Hm & Hp & Hrun).
  destruct Hrun as (s' & events & b & rec & n & k & answer & Hh & _ & _ & Hall); [intros ? _; constructor|].
  exists (msg ++ []), s', events, b, rec, n, k. split; [exact Hh|]. apply Hall. by apply Forall_cons.
Defined.
End Examples.
