(* ===== verification/WorkerRequests.v ===== *)
(** Requests between processes: [electron/worker/core].

    A client numbers its calls; the promise of a call is its number.  [Table] is what the
    clients share: the calls that wait for a response under their message ids, with the
    timers and abort listeners they hold.  [RequestProcessClient], [ProtocolProcess],
    [RequestWorkerClient] and [LongRunningWorker] are the four clients,
    [WorkerMessageHandler] the other end.  A client reacts to events (a call, a message, an
    error or the exit of the other side, a timer); message ids are given from outside, as
    they are random. *)

From stdpp Require Import base list numbers strings option.
From Stdlib Require Import ZArith Lia.
From S2P Require Import Prelude Actions JsText JsMap Utf8.

Local Open Scope Z_scope.
Local Open Scope js_scope.

(** ** Messages *)

Inductive request_op := OpNumber (n : Z) | OpText (t : jsstring) | OpMissing.

(** A message to the client; an absent text is empty. *)
Record message (D : Type) := {
  eventName : jsstring; messageId : jsstring; success : bool; msg : jsstring; msg_code : jsstring; data : option D
}.
Arguments eventName {D}. Arguments messageId {D}. Arguments success {D}. Arguments msg {D}. Arguments msg_code {D}. Arguments data {D}.

(** An [Error] of a rejection: its [code] (empty if it has none) and [data]. *)
Record request_error (D : Type) := { error_code : jsstring; error_data : option D }.
Arguments error_code {D}. Arguments error_data {D}.

Definition error_of {D} (code : string) : request_error D := {| error_code := js code; error_data := None |}.

(** An entry of [callbacks] and [pending]: the promise, and whether its [cleanup] has a timer
    and a signal to release. *)
Record entry := { promise : nat; has_timer : bool; has_signal : bool }.

#[export] Instance entry_eq_dec : EqDecision entry.
Proof. solve_decision. Defined.

(** What a timer or an abort listener refers to: the message id and the entry of its call. *)
Abbreviation closure := (jsstring * entry)%type (only parsing).

Inductive call_effect (D : Type) :=
| Resolve (p : nat) (m : message D)
| Reject (p : nat) (e : request_error D)
| StartTimer (p : nat) (ms : Z) | ClearTimer (p : nat)
| Listen (p : nat) | Unlisten (p : nat)
| Post (id : jsstring) (op : request_op) (data : option D)
| PostCancel (id : jsstring)
| Spawn
| EmitEvent (name : jsstring) (data : option D)
| EmitExit (code : Z)
| Sleep (ms : Z)
| TerminateHost.
Arguments Resolve {D}. Arguments Reject {D}. Arguments StartTimer {D}. Arguments ClearTimer {D}. Arguments Listen {D}.
Arguments Unlisten {D}. Arguments Post {D}. Arguments PostCancel {D}. Arguments Spawn {D}. Arguments EmitEvent {D}.
Arguments EmitExit {D}. Arguments Sleep {D}. Arguments TerminateHost {D}.

(** ** The table of waiting calls *)

Record call_table := {
  pending : jmap jsstring entry;
  timers : list closure;
  listeners : list closure;
  issued : nat
}.

#[export] Instance call_table_rebuild : Rebuild call_table := fun t => {|
  pending := pending t; timers := timers t; listeners := listeners t; issued := issued t |}.

Definition new_table : call_table := {| pending := []; timers := []; listeners := []; issued := 0 |}.

Definition without (p : nat) (l : list closure) : list closure := List.filter (fun c => negb (Nat.eqb (promise (snd c)) p)) l.

#[local] Arguments without : simpl never.

(** The options of a call: [timeoutMs], and whether a [signal] is given and already aborted. *)
Record call_options := { timeoutMs : option Z; signal : option bool }.

Section Table.
Context {D : Type}.

Definition table_action : Type := action_of call_table (call_effect D).

Definition cleanup (e : entry) : table_action :=
  (if has_timer e then
     assign (fun t => t <| timers := without (promise e) (timers t) |>) ;;; emit (ClearTimer (promise e))
   else skip) ;;;
  (if has_signal e then
     assign (fun t => t <| listeners := without (promise e) (listeners t) |>) ;;; emit (Unlisten (promise e))
   else skip).

Definition remove_call (id : jsstring) : table_action := assign (fun t => t <| pending := jmap_delete (pending t) id |>).

(** A response. *)
Definition settle (e : entry) (m : message D) : call_effect D :=
  if success m then Resolve (promise e) m
  else Reject (promise e) {| error_code := match msg_code m with [] => js "WORKER_REQUEST_FAILED" | c => c end; error_data := data m |}.

Definition reply (m : message D) : table_action := this t =>
  match jmap_get (pending t) (messageId m) with
  | None => skip
  | Some e => remove_call (messageId m) ;;; cleanup e ;;; emit (settle e m)
  end.

Definition failAll (error : request_error D) : table_action := this t =>
  each (jmap_values (pending t)) (fun e => cleanup e ;;; emit (Reject (promise e) error)) ;;;
  assign (fun t => t <| pending := [] |>).

(** The callback of a timer or of an abort listener of a call. *)
Definition rejectAndCancel (c : closure) (error : request_error D) (cancel : bool) : table_action := this t =>
  if jmap_has (pending t) (fst c) then
    remove_call (fst c) ;;; cleanup (snd c) ;;; emit (Reject (promise (snd c)) error) ;;;
    (if cancel then emit (PostCancel (fst c)) else skip)
  else skip.

Definition timer_fires (c : closure) (cancel : bool) : table_action :=
  assign (fun t => t <| timers := without (promise (snd c)) (timers t) |>) ;;; rejectAndCancel c (error_of "WORKER_TIMEOUT") cancel.

Definition signal_aborts (c : closure) (cancel : bool) : table_action :=
  assign (fun t => t <| listeners := without (promise (snd c)) (listeners t) |>) ;;; rejectAndCancel c (error_of "WORKER_CANCELLED") cancel.

(** [Promise.reject(error)] for a call that is not sent. *)
Definition refuse (error : request_error D) : table_action := this t =>
  assign (fun t => t <| issued := S (issued t) |>) ;;; emit (Reject (issued t) error).

(** The executor of a call's promise; [posted] tells whether [postMessage] returns. *)
Definition submit (id : jsstring) (op : request_op) (d : option D) (timeout : Z) (signalled : bool) (posted : bool) : table_action := this t =>
  let e := {| promise := issued t; has_timer := 0 <? timeout; has_signal := signalled |} in
  assign (fun t => t <| issued := S (issued t) |>) ;;;
  (if 0 <? timeout then
     assign (fun t => t <| timers := timers t ++ [(id, e)] |>) ;;; emit (StartTimer (promise e) timeout)
   else skip) ;;;
  (if signalled then
     assign (fun t => t <| listeners := listeners t ++ [(id, e)] |>) ;;; emit (Listen (promise e))
   else skip) ;;;
  assign (fun t => t <| pending := jmap_set (pending t) id e |>) ;;;
  (if posted then emit (Post id op d)
   else remove_call id ;;; cleanup e ;;; emit (Reject (promise e) (error_of ""))).

Definition timeout_of (default_ms : Z) (o : call_options) : Z :=
  match timeoutMs o with None => default_ms | Some ms => Z.max 0 ms end.

Definition aborted (o : call_options) : bool := bool_decide (signal o = Some true).
Definition has_listener (o : call_options) : bool := bool_decide (is_Some (signal o)).

(** *** Every call is settled once or waits *)

(** The promises that effects settle. *)
Definition settles (f : call_effect D) : list nat :=
  match f with Resolve p _ => [p] | Reject p _ => [p] | _ => [] end.
Definition settled (out : list (call_effect D)) : list nat := concat (map settles out).

Lemma settled_app o1 o2 : settled (o1 ++ o2) = settled o1 ++ settled o2.
Proof. unfold settled. by rewrite map_app, concat_app. Qed.

(** The promises that wait. *)
Definition waiting (t : call_table) : list nat := map promise (jmap_values (pending t)).

(** [out] is what happened since the table was new: each call was settled once, or waits and
    holds its timer and its listener. *)
Record table_ok (t : call_table) (out : list (call_effect D)) : Prop := {
  keys_ok : jmap_ok (pending t);
  calls_kept : settled out ++ waiting t ≡ₚ seq 0 (issued t);
  timers_held : forall c, c ∈ timers t <-> c ∈ pending t /\ has_timer (snd c) = true;
  listeners_held : forall c, c ∈ listeners t <-> c ∈ pending t /\ has_signal (snd c) = true
}.

Definition cleaned (e : entry) (t : call_table) : call_table := {|
  pending := pending t; timers := if has_timer e then without (promise e) (timers t) else timers t;
  listeners := if has_signal e then without (promise e) (listeners t) else listeners t; issued := issued t |}.

Lemma cleanup_eq e t : exists o, cleanup e t = (cleaned e t, o) /\ settled o = [].
Proof. unfold cleanup, cleaned. destruct t. destruct (has_timer e), (has_signal e); by eexists. Qed.

Lemma without_in p l c : c ∈ without p l <-> c ∈ l /\ promise (snd c) <> p.
Proof.
  unfold without. rewrite !list_elem_of_In, filter_In, negb_true_iff, Nat.eqb_neq. done.
Qed.

Lemma new_table_ok : table_ok new_table [].
Proof. constructor; [apply jmap_ok_nil | done | |]; intros c; (split; [by intros ?%elem_of_nil | by intros [?%elem_of_nil _]]). Qed.

(** Two waiting calls have two promises. *)
Lemma promises_differ t out c1 c2 : table_ok t out -> c1 ∈ pending t -> c2 ∈ pending t -> promise (snd c1) = promise (snd c2) -> c1 = c2.
Proof.
  intros [_ Hp _ _] H1 H2 He. assert (NoDup (waiting t)) as Hnd.
  { assert (NoDup (settled out ++ waiting t)) as Hn by (rewrite Hp; apply NoDup_ListNoDup, seq_NoDup). by apply list.NoDup_app in Hn as (_ & _ & ?). }
  unfold waiting, jmap_values in Hnd. rewrite map_map in Hnd. apply list_elem_of_lookup in H1 as [i Hi], H2 as [j Hj].
  assert (i = j) as <-; [|congruence]. apply (NoDup_lookup _ i j (promise (snd c1)) Hnd); rewrite list_lookup_fmap.
  - by rewrite Hi.
  - by rewrite Hj, He.
Qed.

Lemma promise_issued t out c : table_ok t out -> c ∈ pending t -> (promise (snd c) < issued t)%nat.
Proof.
  intros [_ Hp _ _] Hc. assert (promise (snd c) ∈ settled out ++ waiting t) as Hin.
  { apply elem_of_app. right. unfold waiting, jmap_values. rewrite map_map. apply list_elem_of_fmap. by exists c. }
  rewrite Hp in Hin. apply elem_of_seq in Hin. lia.
Qed.
(** A call that waits is taken out and settled. *)
Lemma take_call t out id e o f : table_ok t out -> (id, e) ∈ pending t -> settled o = [] -> settles f = [promise e] ->
  table_ok (cleaned e (t <| pending := jmap_delete (pending t) id |>)) (out ++ o ++ [f]).
Proof.
  intros Hok Hin Ho Hf. pose proof (proj1 (jmap_get_elem (pending t) id e (keys_ok _ _ Hok)) Hin) as Hget.
  assert (forall c, c ∈ jmap_delete (pending t) id <-> c ∈ pending t /\ promise (snd c) <> promise e) as Hkept.
  { intros [id' e']. rewrite jmap_delete_elem by apply Hok. cbn [snd]. split; intros [Hc Hne]; (split; [done|]).
    - intros Hp. destruct Hne. by injection (promises_differ t out (id', e') (id, e) Hok Hc Hin Hp).
    - intros ->. destruct Hne. apply (jmap_get_elem _ _ _ (keys_ok _ _ Hok)) in Hc. congruence. }
  constructor; cbn.
  - apply jmap_ok_delete, Hok.
  - rewrite !settled_app, Ho, <- (calls_kept _ _ Hok). unfold waiting, jmap_values. cbn [pending].
    rewrite (jmap_delete_perm (pending t) id e) at 2 by done. cbn [map snd]. unfold settled at 2. cbn [map concat]. rewrite Hf.
    cbn [app]. rewrite <- app_assoc. done.
  - intros c. rewrite Hkept. destruct (has_timer e) eqn:Et; [rewrite without_in|]; rewrite (timers_held _ _ Hok); [naive_solver|].
    split; [|naive_solver]. intros [Hc Ht]. split; [|done]. split; [done|]. intros Hp. 
    apply (promises_differ t out c (id, e) Hok Hc Hin) in Hp. subst c. cbn [snd] in Ht. congruence.
  - intros c. rewrite Hkept. destruct (has_signal e) eqn:Et; [rewrite without_in|]; rewrite (listeners_held _ _ Hok); [naive_solver|].
    split; [|naive_solver]. intros [Hc Ht]. split; [|done]. split; [done|]. intros Hp.
    apply (promises_differ t out c (id, e) Hok Hc Hin) in Hp. subst c. cbn [snd] in Ht. congruence.
Qed.

Definition table_keeps (t : call_table) (a : table_action) : Prop :=
  forall out, table_ok t out -> table_ok (fst (a t)) (out ++ snd (a t)).

Lemma keeps_reply t m : table_keeps t (reply m).
Proof.
  intros out Hok. unfold reply, get_this. destruct (jmap_get (pending t) (messageId m)) as [e|] eqn:Eg; [|by rewrite app_nil_r].
  destruct (cleanup_eq e (t <| pending := jmap_delete (pending t) (messageId m) |>)) as (o & Hc & Ho).
  unfold remove_call, seq_action at 1, assign, seq_action, emit. rewrite Hc. cbn [fst snd app].
  apply (take_call t out (messageId m) e); [done | by apply jmap_get_elem; [apply Hok|] | done |].
  unfold settle. by destruct (success m).
Qed.
Lemma each_fails error es : forall t, exists t' o,
  each es (fun e => cleanup e ;;; emit (Reject (promise e) error)) t = (t', o) /\ settled o = map promise es /\
  pending t' = pending t /\ issued t' = issued t /\
  (forall c, c ∈ timers t' -> c ∈ timers t /\ forall e, e ∈ es -> has_timer e = true -> promise (snd c) <> promise e) /\
  (forall c, c ∈ listeners t' -> c ∈ listeners t /\ forall e, e ∈ es -> has_signal e = true -> promise (snd c) <> promise e).
Proof.
  induction es as [|e es IH]; intros t; [exists t, []; cbn; do 4 (split; [done|]); split; intros c Hc; (split; [done | by intros e ?%elem_of_nil])|].
  destruct (cleanup_eq e t) as (o & Hc & Ho). destruct (IH (cleaned e t)) as (t' & o' & He & Hs & Hp & Hi & Ht & Hl).
  exists t', ((o ++ [Reject (promise e) error]) ++ o'). split.
  { cbn [each]. apply (seq_action_eq _ _ _ (cleaned e t)); [by eapply seq_action_eq | exact He]. }
  split; [by rewrite !settled_app, Ho, Hs|]. split; [by rewrite Hp|]. split; [by rewrite Hi|]. split; intros c Hin.
  - destruct (Ht c Hin) as [H1 H2]. cbn [cleaned timers] in H1. split; [destruct (has_timer e); [by apply without_in in H1 as [? _]|done]|].
    intros e' [->|He']%elem_of_cons Hte; [|by apply H2]. rewrite Hte in H1. by apply without_in in H1 as [_ ?].
  - destruct (Hl c Hin) as [H1 H2]. cbn [cleaned listeners] in H1. split; [destruct (has_signal e); [by apply without_in in H1 as [? _]|done]|].
    intros e' [->|He']%elem_of_cons Hte; [|by apply H2]. rewrite Hte in H1. by apply without_in in H1 as [_ ?].
Qed.

Lemma failAll_eq t error : exists t' o,
  failAll error t = ({| pending := []; timers := timers t'; listeners := listeners t'; issued := issued t |}, o) /\ settled o = waiting t /\
  (forall c, c ∈ timers t' -> c ∈ timers t /\ forall e, e ∈ jmap_values (pending t) -> has_timer e = true -> promise (snd c) <> promise e) /\
  (forall c, c ∈ listeners t' -> c ∈ listeners t /\ forall e, e ∈ jmap_values (pending t) -> has_signal e = true -> promise (snd c) <> promise e).
Proof.
  destruct (each_fails error (jmap_values (pending t)) t) as (t' & o & He & Hs & _ & Hi & Hrest). exists t', (o ++ []).
  split; [|by rewrite app_nil_r]. unfold failAll, get_this. apply (seq_action_eq _ _ _ t'); [exact He|]. unfold assign. destruct t'. cbn in Hi. by rewrite Hi.
Qed.

Lemma keeps_failAll t error : table_keeps t (failAll error).
Proof.
  intros out Hok. destruct (failAll_eq t error) as (t' & o & -> & Hs & Ht & Hl). constructor; cbn.
  - apply jmap_ok_nil.
  - rewrite settled_app, Hs, app_nil_r. apply Hok.
  - intros c. split; [|by intros [?%elem_of_nil _]]. intros Hc. apply Ht in Hc as [Hc Hne]. apply (timers_held _ _ Hok) in Hc as [Hc Htc].
    destruct (Hne (snd c)); [|done..]. unfold jmap_values. apply list_elem_of_fmap. by exists c.
  - intros c. split; [|by intros [?%elem_of_nil _]]. intros Hc. apply Hl in Hc as [Hc Hne]. apply (listeners_held _ _ Hok) in Hc as [Hc Htc].
    destruct (Hne (snd c)); [|done..]. unfold jmap_values. apply list_elem_of_fmap. by exists c.
Qed.

Lemma keeps_reject t c error cancel : c ∈ pending t -> table_keeps t (rejectAndCancel c error cancel).
Proof.
  intros Hin out Hok. destruct c as [id e]. unfold rejectAndCancel, get_this. cbn [fst snd].
  assert (jmap_get (pending t) id = Some e) as Hg by (by apply jmap_get_elem; [apply Hok|]).
  assert (jmap_has (pending t) id = true) as -> by (apply jmap_has_true; by exists e).
  destruct (cleanup_eq e (t <| pending := jmap_delete (pending t) id |>)) as (o & Hc & Ho).
  unfold remove_call, seq_action at 1, assign, seq_action, emit. rewrite Hc.
  pose proof (take_call t out id e o (Reject (promise e) error) Hok Hin Ho eq_refl) as [K1 K2 K3 K4].
  destruct cancel; cbn [fst snd app skip]; [|by constructor]. constructor; [done | | done | done].
  rewrite app_assoc. change ([Reject (promise e) error; PostCancel id]) with ([Reject (promise e) error] ++ [PostCancel (D := D) id]).
  rewrite app_assoc, settled_app. change (settled [PostCancel id]) with (@nil nat). rewrite app_nil_r. by rewrite <- app_assoc.
Qed.

(** A timer fires once; its call is still waiting. *)
Lemma without_twice p l : without p (without p l) = without p l.
Proof. unfold without. induction l as [|c l IH]; [done|]. cbn [List.filter]. destruct (negb _) eqn:E; cbn [List.filter]; [by rewrite E, IH | done]. Qed.

Lemma keeps_timer t c cancel : c ∈ timers t -> table_keeps t (timer_fires c cancel).
Proof.
  intros Hc out Hok. apply (timers_held _ _ Hok) in Hc as [Hin Ht]. pose proof (keeps_reject t c (error_of "WORKER_TIMEOUT") cancel Hin out Hok) as Hk.
  enough (timer_fires c cancel t = rejectAndCancel c (error_of "WORKER_TIMEOUT") cancel t) as -> by done. clear Hk.
  destruct c as [id e]. cbn [snd] in Ht. unfold timer_fires, rejectAndCancel, remove_call, cleanup, get_this, seq_action, assign, emit, skip. cbn [fst snd].
  change (pending (t <| timers := without (promise e) (timers t) |>)) with (pending t).
  assert (jmap_has (pending t) id = true) as -> by (apply jmap_has_true; exists e; by apply jmap_get_elem; [apply Hok|]).
  rewrite Ht. destruct t, (has_signal e), cancel; cbn; by rewrite without_twice.
Qed.

Lemma keeps_abort t c cancel : c ∈ listeners t -> table_keeps t (signal_aborts c cancel).
Proof.
  intros Hc out Hok. apply (listeners_held _ _ Hok) in Hc as [Hin Ht]. pose proof (keeps_reject t c (error_of "WORKER_CANCELLED") cancel Hin out Hok) as Hk.
  enough (signal_aborts c cancel t = rejectAndCancel c (error_of "WORKER_CANCELLED") cancel t) as -> by done. clear Hk.
  destruct c as [id e]. cbn [snd] in Ht. unfold signal_aborts, rejectAndCancel, remove_call, cleanup, get_this, seq_action, assign, emit, skip. cbn [fst snd].
  change (pending (t <| listeners := without (promise e) (listeners t) |>)) with (pending t).
  assert (jmap_has (pending t) id = true) as -> by (apply jmap_has_true; exists e; by apply jmap_get_elem; [apply Hok|]).
  rewrite Ht. destruct t, (has_timer e), cancel; cbn; by rewrite without_twice.
Qed.

Lemma keeps_refuse t error : table_keeps t (refuse error).
Proof.
  intros out [K1 K2 K3 K4]. destruct t as [pe ti li n]. constructor; [done | | done | done].
  change (settled (out ++ [Reject n error]) ++ map promise (jmap_values pe) ≡ₚ seq 0 (S n)). rewrite settled_app, seq_S, <- K2, <- !app_assoc.
  apply Permutation_app_head. by rewrite Permutation_app_comm.
Qed.
Definition new_entry (t : call_table) (timeout : Z) (signalled : bool) : entry :=
  {| promise := issued t; has_timer := 0 <? timeout; has_signal := signalled |}.

Lemma submit_sent t id op d timeout signalled : jmap_get (pending t) id = None ->
  exists o, submit id op d timeout signalled true t =
    ({| pending := pending t ++ [(id, new_entry t timeout signalled)];
        timers := if 0 <? timeout then timers t ++ [(id, new_entry t timeout signalled)] else timers t;
        listeners := if signalled then listeners t ++ [(id, new_entry t timeout signalled)] else listeners t; issued := S (issued t) |}, o) /\
    settled o = [] /\ In (Post id op d) o.
Proof.
  intros Hfree. destruct t as [pe ti li n]. unfold submit, get_this, cleanup, assign, emit, skip, seq_action, new_entry. cbn in *.
  destruct (0 <? timeout) eqn:Et, signalled; cbn; rewrite jmap_set_fresh by done; eexists; (split; [done|]); (split; [done|]); cbn; auto.
Qed.

Lemma keeps_submit t id op d timeout signalled posted : jmap_get (pending t) id = None ->
  table_keeps t (submit id op d timeout signalled posted).
Proof.
  intros Hfree out Hok. pose proof (promise_issued t out) as Hold. destruct Hok as [K1 K2 K3 K4]. destruct t as [pe ti li n]. cbn in Hfree, K1, K3, K4, Hold.
  assert (forall c, c ∈ pe -> promise (snd c) <> n) as Hnew.
  { intros c Hc. specialize (Hold c ltac:(by constructor) Hc). lia. }
  assert (forall l, (forall c, c ∈ l -> c ∈ pe) -> forall e, promise e = n -> without n (l ++ [(id, e)]) = l) as Hwithout.
  { intros l Hl e He. unfold without. rewrite filter_app. cbn [List.filter snd]. rewrite He, Nat.eqb_refl. cbn [negb]. rewrite app_nil_r.
    induction l as [|c l IH]; [done|]. cbn [List.filter]. rewrite (proj2 (Nat.eqb_neq _ _)) by (apply Hnew, Hl; by left). cbn [negb].
    rewrite IH; [done|]. intros x Hx. apply Hl. by right. }
  set (e := {| promise := n; has_timer := 0 <? timeout; has_signal := signalled |}).
  destruct posted.
  - destruct (submit_sent {| pending := pe; timers := ti; listeners := li; issued := n |} id op d timeout signalled Hfree) as (o & -> & Ho & _).
    unfold new_entry. cbn [pending timers listeners issued]. fold e.
    constructor; cbn [fst snd pending timers listeners issued].
    + rewrite <- (jmap_set_fresh pe id e) by done. by apply jmap_ok_set.
    + rewrite settled_app, Ho, app_nil_r. unfold waiting, jmap_values. cbn [pending]. rewrite !map_app, seq_S, <- K2, <- app_assoc. done.
    + intros c. destruct (0 <? timeout) eqn:Et; rewrite ?elem_of_app, ?list_elem_of_singleton, K3; [naive_solver|].
      split; [naive_solver|]. intros [[?| ->] Hc]; [naive_solver|]. cbn in Hc. congruence.
    + intros c. destruct signalled; rewrite ?elem_of_app, ?list_elem_of_singleton, K4; naive_solver.
  - assert (exists o, submit id op d timeout signalled false {| pending := pe; timers := ti; listeners := li; issued := n |} =
      ({| pending := pe; timers := ti; listeners := li; issued := S n |}, o) /\ settled o = [n]) as (o & -> & Ho).
    { unfold submit, get_this, remove_call, cleanup, seq_action, assign, emit, skip. cbn. destruct (0 <? timeout), signalled; cbn;
        rewrite jmap_set_fresh, jmap_delete_fresh, ?(Hwithout ti), ?(Hwithout li) by (done || naive_solver); by eexists. }
    constructor; cbn [fst snd pending timers listeners issued]; [done | | done | done]. rewrite settled_app, Ho. unfold waiting in *. cbn [pending] in *. rewrite seq_S, <- K2, <- !app_assoc.
    apply Permutation_app_head. by rewrite Permutation_app_comm.
Qed.

(** Effects that settle nothing. *)
Lemma quiet t out o : table_ok t out -> settled o = [] -> table_ok t (out ++ o).
Proof. intros [K1 K2 K3 K4] Ho. constructor; try done. by rewrite settled_app, Ho, app_nil_r. Qed.

Lemma failed_idle t error : pending (fst (failAll error t)) = [].
Proof. by destruct (failAll_eq t error) as (t' & o & -> & _). Qed.

(** Everything that waits is rejected, before and after things that settle nothing. *)
Lemma failed_ok t (out : list (call_effect D)) error o : table_ok t out -> settled o = [] ->
  table_ok (fst (failAll error t)) (out ++ snd (failAll error t) ++ o).
Proof. intros Ht Ho. rewrite app_assoc. apply quiet; [by apply keeps_failAll | done]. Qed.
End Table.

(** ** A client as an object with a table *)

Class HasTable (S : Type) := { table_of : S -> call_table; with_table : call_table -> S -> S }.

Definition on_table {S D} `{HasTable S} (a : action_of call_table (call_effect D)) : action_of S (call_effect D) := fun s =>
  (with_table (fst (a (table_of s))) s, snd (a (table_of s))).

(** [event]s handled one after the other. *)
Definition run_events {S D Ev} (on_event : Ev -> action_of S (call_effect D)) (evs : list Ev) : action_of S (call_effect D) := each evs on_event.

(** What an attempt does, whether it returns or throws. *)
Definition up_to_throw {S E} (a : attempt_of S E) : action_of S E := fun s => fst (a s).

Definition is_empty {A} (l : list A) : bool := match l with [] => true | _ => false end.

(** ** [RequestProcessClient] *)

Module RequestProcessClient.

Record client := {
  table : call_table;
  process : bool;
  closed : bool;
  exited : bool;
  terminationPromise : bool;
  defaultTimeoutMs : Z
}.

#[export] Instance client_rebuild : Rebuild client := fun c => {|
  table := table c; process := process c; closed := closed c; exited := exited c; terminationPromise := terminationPromise c;
  defaultTimeoutMs := defaultTimeoutMs c |}.

#[export] Instance client_table : HasTable client := {| table_of := table; with_table t c := c <| table := t |> |}.

Definition new_client (timeout : option Z) : client := {|
  table := new_table; process := false; closed := false; exited := false; terminationPromise := false;
  defaultTimeoutMs := Z.max 0 (js_or_number timeout 30000) |}.

Section Client.
Context {D : Type}.

Definition client_action : Type := action_of client (call_effect D).

Definition start : attempt_of client (call_effect D) := this! c =>
  if process c then returns skip
  else if closed c then raise (ErrorCode "WORKER_TERMINATED")
  else if exited c then raise (ErrorCode "WORKER_EXIT")
  else returns (assign (fun c => c <| process := true |>) ;;; emit Spawn).

Definition handleMessage (m : message D) : client_action :=
  if is_empty (eventName m) then on_table (reply m) else emit (EmitEvent (eventName m) (data m)).

Definition sendRequest (id : jsstring) (op : request_op) (d : option D) (o : call_options) (posted : bool) : client_action := this c =>
  if closed c then on_table (refuse (error_of "WORKER_TERMINATED"))
  else if exited c then on_table (refuse (error_of "WORKER_EXIT"))
  else if aborted o then on_table (refuse (error_of "WORKER_CANCELLED"))
  else up_to_throw start ;;; on_table (submit id op d (timeout_of (defaultTimeoutMs c) o) (has_listener o) posted).

Definition on_exit (code : Z) : client_action := this c =>
  assign (fun c => c <| exited := true |> <| process := false |>) ;;;
  (if negb (closed c) || negb (code =? 0) then on_table (failAll (error_of "WORKER_EXIT")) else skip) ;;;
  emit (EmitExit code).

Definition terminate : client_action := this c =>
  if terminationPromise c then skip
  else
    assign (fun c => c <| closed := true |>) ;;;
    on_table (failAll (error_of "WORKER_TERMINATED")) ;;;
    (if process c then emit TerminateHost else skip) ;;;
    assign (fun c => c <| terminationPromise := true |>).

(** What a client reacts to; [Terminated] and [TerminateFailed] are the ends of the process
    host's [terminate]. *)
Inductive client_event :=
| Start
| Send (id : jsstring) (op : request_op) (d : option D) (o : call_options) (posted : bool)
| Receive (m : message D)
| HostError (code : string)
| HostExit (code : Z)
| TimerFires (c : closure)
| SignalAborts (c : closure)
| Terminate
| Terminated
| TerminateFailed.

Definition on_event (ev : client_event) : client_action :=
  match ev with
  | Start => up_to_throw start
  | Send id op d o posted => sendRequest id op d o posted
  | Receive m => handleMessage m
  | HostError code => on_table (failAll (error_of code))
  | HostExit code => on_exit code
  | TimerFires c => on_table (timer_fires c true)
  | SignalAborts c => on_table (signal_aborts c true)
  | Terminate => terminate
  | Terminated => assign (fun c => c <| process := false |>)
  | TerminateFailed => assign (fun c => c <| terminationPromise := false |>)
  end.

(** A generated id is new, and only a live timer or listener is called. *)
Definition possible (c : client) (ev : client_event) : Prop :=
  match ev with
  | Send id _ _ _ _ => jmap_get (pending (table c)) id = None
  | TimerFires x => x ∈ timers (table c)
  | SignalAborts x => x ∈ listeners (table c)
  | _ => True
  end.

Inductive reachable (timeout : option Z) : client -> list (call_effect D) -> Prop :=
| reachable_new : reachable timeout (new_client timeout) []
| reachable_step c out ev : reachable timeout c out -> possible c ev ->
    reachable timeout (fst (on_event ev c)) (out ++ snd (on_event ev c)).

Record client_ok (c : client) (out : list (call_effect D)) : Prop := {
  table_is_ok : table_ok (table c) out;
  ended_idle : closed c || exited c = true -> pending (table c) = []
}.

Lemma start_shape c : exists r o, up_to_throw start c = (c <| process := r |>, o) /\ settled o = [].
Proof.
  unfold up_to_throw, start, attempt_this. destruct c as [t pr cl ex te de]. cbn. destruct pr, cl, ex; cbn; do 2 eexists; split; reflexivity.
Qed.

Lemma client_ok_send c out id op d o posted : client_ok c out -> jmap_get (pending (table c)) id = None ->
  client_ok (fst (sendRequest id op d o posted c)) (out ++ snd (sendRequest id op d o posted c)).
Proof.
  intros [Ht He] Hid. unfold sendRequest, get_this. destruct (closed c || exited c) eqn:Ee.
  - assert (exists code, sendRequest id op d o posted c = on_table (refuse (error_of code)) c) as [code Hs].
    { unfold sendRequest, get_this. destruct (closed c); [by eexists|]. cbn in Ee. rewrite Ee. by eexists. }
    unfold sendRequest, get_this in Hs. rewrite Hs. pose proof (keeps_refuse (table c) (error_of code) out Ht) as Hk.
    constructor; [exact Hk|]. intros _. by apply He.
  - apply orb_false_iff in Ee as [E1 E2]. rewrite E1, E2. destruct (aborted o).
    + pose proof (keeps_refuse (table c) (error_of "WORKER_CANCELLED") out Ht) as Hk. constructor; [exact Hk|]. intros Hc. cbn in Hc. by rewrite E1, E2 in Hc.
    + destruct (start_shape c) as (r & o1 & Hs & Ho1). unfold seq_action. rewrite Hs. unfold on_table. cbn [table_of client_table].
      change (table (c <| process := r |>)) with (table c).
      pose proof (keeps_submit (table c) id op d (timeout_of (defaultTimeoutMs c) o) (has_listener o) posted Hid (out ++ o1) (quiet _ _ _ Ht Ho1)) as Hk.
      destruct (submit _ _ _ _ _ _ _) as [t o2]. cbn [fst snd] in *. constructor; [by rewrite app_assoc|]. cbn. by rewrite E1, E2.
Qed.

Lemma client_ok_exit c out code : client_ok c out -> client_ok (fst (on_exit code c)) (out ++ snd (on_exit code c)).
Proof.
  intros [Ht He]. unfold on_exit, get_this, seq_action, assign, emit, skip. destruct (negb (closed c) || negb (code =? 0)) eqn:Ef.
  - constructor; cbn; [by apply failed_ok | intros _; apply failed_idle].
  - constructor; cbn; [by apply quiet|]. intros _. apply He. apply orb_false_iff in Ef as [Ec _]. by destruct (closed c).
Qed.

Lemma client_ok_terminate c out : client_ok c out -> client_ok (fst (terminate c)) (out ++ snd (terminate c)).
Proof.
  intros [Ht He]. unfold terminate, get_this. destruct (terminationPromise c); [constructor; [by apply quiet | done]|].
  unfold seq_action, assign, emit, skip. destruct (process c); (constructor; cbn; [by apply failed_ok | intros _; apply failed_idle]).
Qed.

Lemma client_ok_step c out ev : client_ok c out -> possible c ev -> client_ok (fst (on_event ev c)) (out ++ snd (on_event ev c)).
Proof.
  intros Hok Hp. pose proof Hok as [Ht He]. destruct ev as [|id op d o posted|m|code|code|x|x| | |]; cbn [on_event possible] in *.
  - destruct (start_shape c) as (r & o & -> & Ho). constructor; [by apply quiet | done].
  - by apply client_ok_send.
  - unfold handleMessage. destruct (is_empty (eventName m)); [|constructor; [by apply quiet | done]].
    pose proof (keeps_reply (table c) m out Ht) as Hk. constructor; [exact Hk|]. intros Hc. cbn in Hc. specialize (He Hc).
    cbn. unfold reply, get_this. rewrite He. cbn. by rewrite He.
  - pose proof (keeps_failAll (table c) (error_of code) out Ht) as Hk. constructor; [exact Hk|]. intros _. apply failed_idle.
  - by apply client_ok_exit.
  - pose proof (keeps_timer (table c) x true Hp out Ht) as Hk. constructor; [exact Hk|]. intros Hc. cbn in Hc. specialize (He Hc).
    apply (timers_held _ _ Ht) in Hp as [Hp _]. rewrite He in Hp. by apply elem_of_nil in Hp.
  - pose proof (keeps_abort (table c) x true Hp out Ht) as Hk. constructor; [exact Hk|]. intros Hc. cbn in Hc. specialize (He Hc).
    apply (listeners_held _ _ Ht) in Hp as [Hp _]. rewrite He in Hp. by apply elem_of_nil in Hp.
  - by apply client_ok_terminate.
  - constructor; [by rewrite app_nil_r | done].
  - constructor; [by rewrite app_nil_r | done].
Qed.

Lemma client_reachable_ok timeout c out : reachable timeout c out -> client_ok c out.
Proof. induction 1 as [|c out ev _ IH Hp]; [constructor; [apply new_table_ok | done] | by apply client_ok_step]. Qed.

(** C21: No call of a client is lost or answered twice: in every order of calls, messages, errors, exits, timers and aborted
    signals the promises that were resolved or rejected, and those of the calls that wait, are together each call
    exactly once; a timer or abort listener is live exactly for a call that waits and has one; and once the client is
    terminated or its process has exited every call is settled, and a further call is rejected and sends nothing. *)
Theorem request_client_settles timeout c out id op d o posted :
  reachable timeout c out ->
  settled out ++ waiting (table c) ≡ₚ seq 0 (issued (table c)) /\
  (forall x, x ∈ timers (table c) <-> x ∈ pending (table c) /\ has_timer (snd x) = true) /\
  (forall x, x ∈ listeners (table c) <-> x ∈ pending (table c) /\ has_signal (snd x) = true) /\
  (closed c || exited c = true ->
   settled out ≡ₚ seq 0 (issued (table c)) /\
   exists code, snd (sendRequest id op d o posted c) = [Reject (issued (table c)) (error_of code)]).
Proof.
  intros Hr. destruct (client_reachable_ok _ _ _ Hr) as [[K1 K2 K3 K4] He]. split_and!; [done | done | done|]. intros Hend. split.
  - rewrite <- K2. unfold waiting. rewrite (He Hend). by rewrite app_nil_r.
  - unfold sendRequest, get_this. destruct (closed c); [by eexists|]. cbn in Hend. rewrite Hend. by eexists.
Qed.
End Client.
End RequestProcessClient.

(** ** [ProtocolProcessWithPromise]: the client of a protocol worker *)

Module ProtocolProcess.

(** [hostRunning] is [processHost.runtime]; [draining] the deadline of a [terminate] that waits. *)
Record client := {
  table : call_table;
  eventListeners : list jsstring;
  hostRunning : bool;
  terminating : bool;
  draining : option Z;
  terminationPromise : bool;
  defaultTimeoutMs : Z;
  pendingDrainTimeoutMs : Z
}.

#[export] Instance client_rebuild : Rebuild client := fun c => {|
  table := table c; eventListeners := eventListeners c; hostRunning := hostRunning c; terminating := terminating c; draining := draining c;
  terminationPromise := terminationPromise c; defaultTimeoutMs := defaultTimeoutMs c; pendingDrainTimeoutMs := pendingDrainTimeoutMs c |}.

#[export] Instance client_table : HasTable client := {| table_of := table; with_table t c := c <| table := t |> |}.

Definition new_client (timeout drain : option Z) : client := {|
  table := new_table; eventListeners := []; hostRunning := true; terminating := false; draining := None; terminationPromise := false;
  defaultTimeoutMs := Z.max 0 (js_or_number timeout 0); pendingDrainTimeoutMs := Z.max 250 (js_or_number drain 5000) |}.

Section Client.
Context {D : Type}.

Definition client_action : Type := action_of client (call_effect D).

Definition createUnavailableError (c : client) : request_error D := error_of (if terminating c then "WORKER_TERMINATED" else "WORKER_EXIT").

Definition handleMessage (m : message D) : client_action := this c =>
  if negb (is_empty (eventName m)) && bool_decide (eventName m ∈ eventListeners c) then emit (EmitEvent (eventName m) (data m))
  else if negb (is_empty (messageId m)) then on_table (reply m)
  else skip.

Definition sendRequest (id : jsstring) (op : request_op) (d : option D) (o : call_options) (posted : bool) : client_action := this c =>
  if terminating c || negb (hostRunning c) then on_table (refuse (createUnavailableError c))
  else if aborted o then on_table (refuse (error_of "WORKER_CANCELLED"))
  else on_table (submit id op d (timeout_of (defaultTimeoutMs c) o) (has_listener o) posted).

Definition addEventListener (name : jsstring) : client_action :=
  assign (fun c => c <| eventListeners := eventListeners c ++ [name] |>).

(** The host clears its runtime before it emits [exit]. *)
Definition on_exit (code : Z) : client_action :=
  assign (fun c => c <| hostRunning := false |>) ;;; on_table (failAll (error_of "WORKER_EXIT")) ;;; emit (EmitExit code).

Definition checkCallbacks (now : Z) : client_action := this c =>
  match draining c with
  | None => skip
  | Some deadline =>
    if is_empty (pending (table c)) || (deadline <=? now) then
      (if is_empty (pending (table c)) then skip else on_table (failAll (error_of ""))) ;;;
      assign (fun c => c <| draining := None |>) ;;; emit TerminateHost
    else emit (Sleep 100)
  end.

Definition terminate (now : Z) : client_action := this c =>
  if terminationPromise c then skip
  else
    assign (fun c => c <| terminating := true |>) ;;;
    (if negb (is_empty (pending (table c))) then
       assign (fun c => c <| draining := Some (now + pendingDrainTimeoutMs c) |>) ;;; checkCallbacks now
     else emit TerminateHost) ;;;
    assign (fun c => c <| terminationPromise := true |>).

Inductive client_event :=
| Send (id : jsstring) (op : request_op) (d : option D) (o : call_options) (posted : bool)
| Receive (m : message D)
| AddEventListener (name : jsstring)
| HostError (code : string)
| HostExit (code : Z)
| TimerFires (c : closure)
| SignalAborts (c : closure)
| Terminate (now : Z)
| CheckCallbacks (now : Z)
| TerminateFailed.

Definition on_event (ev : client_event) : client_action :=
  match ev with
  | Send id op d o posted => sendRequest id op d o posted
  | Receive m => handleMessage m
  | AddEventListener name => addEventListener name
  | HostError code => on_table (failAll (error_of code))
  | HostExit code => on_exit code
  | TimerFires c => on_table (timer_fires c false)
  | SignalAborts c => on_table (signal_aborts c false)
  | Terminate now => terminate now
  | CheckCallbacks now => checkCallbacks now
  | TerminateFailed => assign (fun c => c <| terminationPromise := false |>)
  end.

Definition possible (c : client) (ev : client_event) : Prop :=
  match ev with
  | Send id _ _ _ _ => jmap_get (pending (table c)) id = None
  | TimerFires x => x ∈ timers (table c)
  | SignalAborts x => x ∈ listeners (table c)
  | TerminateFailed => draining c = None
  | _ => True
  end.

Inductive reachable (timeout drain : option Z) : client -> list (call_effect D) -> Prop :=
| reachable_new : reachable timeout drain (new_client timeout drain) []
| reachable_step c out ev : reachable timeout drain c out -> possible c ev ->
    reachable timeout drain (fst (on_event ev c)) (out ++ snd (on_event ev c)).

(** The calls of a client that no longer can be answered are settled. *)
Record client_ok (c : client) (out : list (call_effect D)) : Prop := {
  table_is_ok : table_ok (table c) out;
  exited_idle : hostRunning c = false -> pending (table c) = [];
  drained_idle : terminating c = true -> draining c = None -> pending (table c) = [];
  drain_started : is_Some (draining c) -> terminating c = true
}.
Lemma empty_nil {A} (l : list A) : is_empty l = true -> l = [].
Proof. by destruct l. Qed.

Lemma process_ok_send c out id op d o posted : client_ok c out -> jmap_get (pending (table c)) id = None ->
  client_ok (fst (sendRequest id op d o posted c)) (out ++ snd (sendRequest id op d o posted c)).
Proof.
  intros [Ht He Hd Hs] Hid. unfold sendRequest, get_this. destruct (terminating c || negb (hostRunning c)) eqn:Ee; [|destruct (aborted o)].
  - pose proof (keeps_refuse (table c) (createUnavailableError c) out Ht) as Hk. by constructor.
  - pose proof (keeps_refuse (table c) (error_of "WORKER_CANCELLED") out Ht) as Hk. by constructor.
  - apply orb_false_iff in Ee as [E1 E2]. pose proof (keeps_submit (table c) id op d (timeout_of (defaultTimeoutMs c) o) (has_listener o) posted Hid out Ht) as Hk.
    constructor; [exact Hk | | | done].
    + intros Hr. change (hostRunning c = false) in Hr. by rewrite Hr in E2.
    + intros Hr. change (terminating c = true) in Hr. congruence.
Qed.

Lemma ok_check c out now : client_ok c out -> client_ok (fst (checkCallbacks now c)) (out ++ snd (checkCallbacks now c)).
Proof.
  intros [Ht He Hd Hs]. unfold checkCallbacks, get_this. destruct (draining c) as [deadline|] eqn:Ed; [|constructor; cbn; by rewrite ?Ed, ?app_nil_r].
  destruct (is_empty (pending (table c))) eqn:Ee; cbn [orb].
  - apply empty_nil in Ee. constructor; cbn; [by apply quiet | done | done | by intros [? ?]].
  - destruct (deadline <=? now).
    + unfold seq_action, assign, emit, on_table. constructor; cbn; [by apply failed_ok | intros _; apply failed_idle | intros _ _; apply failed_idle | by intros [? ?]].
    + constructor; cbn; [by apply quiet | done | intros _; by rewrite Ed | intros _; apply Hs; by eexists].
Qed.

Lemma process_ok_terminate c out now : client_ok c out -> client_ok (fst (terminate now c)) (out ++ snd (terminate now c)).
Proof.
  intros Hok. pose proof Hok as [Ht He Hd Hs]. unfold terminate, get_this. destruct (terminationPromise c); [cbn; rewrite app_nil_r; by constructor|].
  destruct (is_empty (pending (table c))) eqn:Ee; cbn [negb].
  - apply empty_nil in Ee. constructor; cbn; [by apply quiet | done | done | done].
  - set (c1 := c <| terminating := true |> <| draining := Some (now + pendingDrainTimeoutMs c) |>).
    assert (client_ok c1 out) as H1 by (by constructor).
    pose proof (ok_check c1 out now H1) as [K1 K2 K3 K4]. unfold seq_action, assign. cbn [fst snd app]. fold c1.
    change (pendingDrainTimeoutMs (c <| terminating := true |>)) with (pendingDrainTimeoutMs c). fold c1.
    destruct (checkCallbacks now c1) as [c2 o2]. cbn [fst snd] in *. rewrite !app_nil_r. by constructor.
Qed.

Lemma process_ok_step c out ev : client_ok c out -> possible c ev -> client_ok (fst (on_event ev c)) (out ++ snd (on_event ev c)).
Proof.
  intros Hok Hp. pose proof Hok as [Ht He Hd Hs].
  assert (forall t o, table_ok t (out ++ o) -> (pending (table c) = [] -> pending t = []) -> client_ok (c <| table := t |>) (out ++ o)) as Htable.
  { intros t o H1 H2. constructor; cbn; [done | intros Hr; by apply H2, He | intros Hr Hn; by apply H2, Hd | done]. }
  destruct ev as [id op d o posted|m|name|code|code|x|x|now|now|]; cbn [on_event possible] in *.
  - by apply process_ok_send.
  - unfold handleMessage, get_this. destruct (_ && _); [constructor; cbn; try done; by apply quiet|].
    destruct (negb (is_empty (messageId m))); [|cbn; by rewrite app_nil_r]. apply Htable; [by apply keeps_reply|].
    intros Hn. change (pending (fst (reply m (table c))) = []). unfold reply, get_this. rewrite Hn. cbn. by rewrite Hn.
  - constructor; cbn; try done. by rewrite app_nil_r.
  - apply Htable; [by apply keeps_failAll|]. intros _. apply failed_idle.
  - unfold on_exit, seq_action, assign, emit, on_table. constructor; cbn; [by apply failed_ok | intros _; apply failed_idle | intros _ _; apply failed_idle | done].
  - apply Htable; [by apply keeps_timer|]. intros Hn. apply (timers_held _ _ Ht) in Hp as [Hp _]. rewrite Hn in Hp. by apply elem_of_nil in Hp.
  - apply Htable; [by apply keeps_abort|]. intros Hn. apply (listeners_held _ _ Ht) in Hp as [Hp _]. rewrite Hn in Hp. by apply elem_of_nil in Hp.
  - by apply process_ok_terminate.
  - by apply ok_check.
  - constructor; cbn; try done. by rewrite app_nil_r.
Qed.

Lemma process_reachable_ok timeout drain c out : reachable timeout drain c out -> client_ok c out.
Proof. induction 1 as [|c out ev _ IH Hp]; [constructor; [apply new_table_ok | done | done | by intros [? ?]] | by apply process_ok_step]. Qed.

(** Every call to a protocol process ends: in every order of events each call was settled once or waits, with its timer;
    when the process exits nothing waits any longer; when a client that is being terminated looks at its calls after the
    deadline, nothing waits and the process is told to end; and from [terminate] or the exit on further calls are
    rejected at once. *)
Theorem protocol_client_settles timeout drain c out :
  reachable timeout drain c out ->
  settled out ++ waiting (table c) ≡ₚ seq 0 (issued (table c)) /\
  (forall x, x ∈ timers (table c) <-> x ∈ pending (table c) /\ has_timer (snd x) = true) /\
  (forall code, let '(c', o) := on_exit code c in settled (out ++ o) ≡ₚ seq 0 (issued (table c'))) /\
  (forall now deadline, draining c = Some deadline -> deadline <= now ->
     let '(c', o) := checkCallbacks now c in settled (out ++ o) ≡ₚ seq 0 (issued (table c')) /\ In TerminateHost o) /\
  (terminating c = true \/ hostRunning c = false -> forall id op d o posted, exists e, snd (sendRequest id op d o posted c) = [Reject (issued (table c)) e]).
Proof.
  intros Hr. pose proof (process_reachable_ok _ _ _ _ Hr) as Hok. pose proof Hok as [[K1 K2 K3 K4] He Hd Hs]. split_and!; [done | done | | |].
  - intros code. pose proof (process_ok_step c out (HostExit code) Hok I) as [[_ Kp _ _] He' _ _]. cbn [on_event] in *. destruct (on_exit code c) as [c' o] eqn:E.
    cbn [fst snd] in *. unfold waiting in Kp. rewrite He' in Kp by (unfold on_exit, seq_action, assign, on_table, emit in E; by injection E as <- _).
    by rewrite app_nil_r in Kp.
  - intros now deadline Hdr Hnow. pose proof (ok_check c out now Hok) as [[_ Kp _ _] _ Hd' _]. destruct (checkCallbacks now c) as [c' o] eqn:E. cbn [fst snd] in *.
    assert (terminating c' = true /\ draining c' = None /\ In TerminateHost o) as (H1 & H2 & H3).
    { unfold checkCallbacks, get_this in E. rewrite Hdr in E. rewrite (proj2 (Z.leb_le _ _) Hnow), orb_true_r in E. unfold seq_action, assign, emit, on_table, skip in E.
      specialize (Hs ltac:(rewrite Hdr; by eexists)). destruct (is_empty _); injection E as <- <-; (split_and!; [done | done|]); [by left | apply in_or_app; right; by left]. }
    split; [|done]. unfold waiting in Kp. rewrite Hd' in Kp by done. by rewrite app_nil_r in Kp.
  - intros Hend id op d o posted. unfold sendRequest, get_this. assert (terminating c || negb (hostRunning c) = true) as -> by (destruct Hend as [-> | ->]; [done | by rewrite orb_true_r]).
    by eexists.
Qed.
End Client.
End ProtocolProcess.

(** ** [RequestWorkerClient] *)

Module RequestWorkerClient.

(** [worker] is the number of the worker thread the client refers to, [spawned] how many it
    has started. *)
Record client := { table : call_table; worker : option nat; spawned : nat; closed : bool; defaultTimeoutMs : Z }.

#[export] Instance client_rebuild : Rebuild client := fun c => {|
  table := table c; worker := worker c; spawned := spawned c; closed := closed c; defaultTimeoutMs := defaultTimeoutMs c |}.

#[export] Instance client_table : HasTable client := {| table_of := table; with_table t c := c <| table := t |> |}.

Definition new_client (timeout : option Z) : client := {|
  table := new_table; worker := None; spawned := 0; closed := false; defaultTimeoutMs := Z.max 0 (js_or_number timeout 30000) |}.

Section Client.
Context {D : Type}.

Definition client_action : Type := action_of client (call_effect D).

Definition start : client_action := this c =>
  match worker c with
  | Some _ => skip
  | None => assign (fun c => c <| closed := false |> <| worker := Some (spawned c) |> <| spawned := S (spawned c) |>) ;;; emit Spawn
  end.

Definition handleMessage (m : message D) : client_action :=
  if is_empty (eventName m) then on_table (reply m) else emit (EmitEvent (eventName m) (data m)).

(** A signal that is already aborted is found after the timer was started. *)
Definition refuse_aborted (timeout : Z) : action_of call_table (call_effect D) := this t =>
  assign (fun t => t <| issued := S (issued t) |>) ;;;
  (if 0 <? timeout then emit (StartTimer (issued t) timeout) ;;; emit (ClearTimer (issued t)) else skip) ;;;
  emit (Unlisten (issued t)) ;;; emit (Reject (issued t) (error_of "WORKER_CANCELLED")).

(** [postMessage] outside a [try] block: when it throws, the promise is rejected by its
    executor and the call stays in the table. *)
Definition submit_unguarded (id : jsstring) (op : request_op) (d : option D) (timeout : Z) (signalled posted : bool)
    : action_of call_table (call_effect D) := this t =>
  let e := {| promise := issued t; has_timer := 0 <? timeout; has_signal := signalled |} in
  assign (fun t => t <| issued := S (issued t) |>) ;;;
  (if 0 <? timeout then assign (fun t => t <| timers := timers t ++ [(id, e)] |>) ;;; emit (StartTimer (promise e) timeout) else skip) ;;;
  (if signalled then assign (fun t => t <| listeners := listeners t ++ [(id, e)] |>) ;;; emit (Listen (promise e)) else skip) ;;;
  assign (fun t => t <| pending := jmap_set (pending t) id e |>) ;;;
  emit (if posted : bool then Post id op d else Reject (promise e) (error_of "")).

Definition sendRequest (id : jsstring) (op : request_op) (d : option D) (o : call_options) (posted : bool) : client_action :=
  start ;;;
  this c =>
    if closed c then on_table (refuse (error_of ""))
    else if aborted o then on_table (refuse_aborted (timeout_of (defaultTimeoutMs c) o))
    else on_table (submit_unguarded id op d (timeout_of (defaultTimeoutMs c) o) (has_listener o) posted).

(** The exit of any worker the client has started. *)
Definition on_exit (code : Z) : client_action := this c =>
  assign (fun c => c <| worker := None |>) ;;;
  (if negb (closed c) || negb (code =? 0) then on_table (failAll (error_of "WORKER_EXIT")) else skip) ;;;
  emit (EmitExit code).

Definition terminate : client_action := this c =>
  assign (fun c => c <| closed := true |>) ;;;
  on_table (failAll (error_of "WORKER_TERMINATED")) ;;;
  assign (fun c => c <| worker := None |>) ;;;
  match worker c with Some _ => emit TerminateHost | None => skip end.

(** A client that is used again after [terminate] takes the exit of its old worker for that of the new one: the new call is
    rejected although its worker runs, and the next call starts yet another worker while the client has lost the one
    before. *)
Theorem stale_exit_rejects c w code id1 op1 d1 o1 id2 op2 d2 o2 :
  worker c = Some w -> pending (table c) = [] -> signal o1 = None -> signal o2 = None ->
  let '(c1, _) := terminate c in
  let '(c2, sent) := sendRequest id1 op1 d1 o1 true c1 in
  let '(c3, out) := on_exit code c2 in
  let '(c4, again) := sendRequest id2 op2 d2 o2 true c3 in
  In (Post id1 op1 d1) sent /\ worker c2 = Some (spawned c) /\
  In (Reject (issued (table c)) (error_of "WORKER_EXIT")) out /\ worker c3 = None /\
  In Spawn again /\ worker c4 = Some (S (spawned c)).
Proof.
  intros Hw Hp Ho1 Ho2. destruct c as [[pe ti li n] wo sp cl de]. cbn in Hw, Hp. subst pe wo.
  assert (aborted o1 = false /\ has_listener o1 = false /\ aborted o2 = false /\ has_listener o2 = false) as (E1 & E2 & E3 & E4)
    by (unfold aborted, has_listener; by rewrite Ho1, Ho2).
  unfold sendRequest. rewrite E1, E2, E3, E4.
  unfold terminate, on_exit, start, submit_unguarded, failAll, on_table, get_this, assign, emit, skip, seq_action. cbn.
  destruct (0 <? timeout_of de o1) eqn:T1, (0 <? timeout_of de o2) eqn:T2; cbn; rewrite ?T1, ?T2; cbn; auto 12.
Qed.
End Client.
End RequestWorkerClient.

(** ** [WorkerWithPromise.createLongRunningWorker] *)

Module LongRunningWorker.

Record client := { callbacks : jmap jsstring nat; eventListeners : list jsstring; calls : nat; waitsForEnd : bool }.

#[export] Instance client_rebuild : Rebuild client := fun c => {|
  callbacks := callbacks c; eventListeners := eventListeners c; calls := calls c; waitsForEnd := waitsForEnd c |}.

Definition new_client : client := {| callbacks := []; eventListeners := []; calls := 0; waitsForEnd := false |}.

Section Client.
Context {D : Type}.

Definition client_action : Type := action_of client (call_effect D).

Definition rejectAll (error : request_error D) : client_action := this c =>
  each (jmap_values (callbacks c)) (fun p => emit (Reject p error)) ;;; assign (fun c => c <| callbacks := [] |>).

Definition on_message (m : message D) : client_action := this c =>
  if negb (is_empty (eventName m)) && bool_decide (eventName m ∈ eventListeners c) then emit (EmitEvent (eventName m) (data m))
  else if negb (is_empty (messageId m)) then
    match jmap_get (callbacks c) (messageId m) with
    | Some p =>
      assign (fun c => c <| callbacks := jmap_delete (callbacks c) (messageId m) |>) ;;;
      emit (if success m then Resolve p m else Reject p (error_of ""))
    | None => skip
    end
  else skip.

Definition sendRequest (id : jsstring) (op : request_op) (d : option D) : client_action := this c =>
  assign (fun c => c <| calls := S (calls c) |> <| callbacks := jmap_set (callbacks c) id (calls c) |>) ;;; emit (Post id op d).

(** [checkCallbacks], again after 100 ms while a call waits. *)
Definition checkCallbacks : client_action := this c =>
  if waitsForEnd c then
    if is_empty (callbacks c) then assign (fun c => c <| waitsForEnd := false |>) ;;; emit TerminateHost else emit (Sleep 100)
  else skip.

Definition terminate : client_action := this c =>
  if negb (is_empty (callbacks c)) then assign (fun c => c <| waitsForEnd := true |>) ;;; checkCallbacks else emit TerminateHost.

Inductive client_event :=
| Send (id : jsstring) (op : request_op) (d : option D)
| Receive (m : message D)
| WorkerError
| WorkerExit
| Terminate
| CheckCallbacks.

Definition on_event (ev : client_event) : client_action :=
  match ev with
  | Send id op d => sendRequest id op d
  | Receive m => on_message m
  | WorkerError => rejectAll (error_of "")
  | WorkerExit => rejectAll (error_of "")
  | Terminate => terminate
  | CheckCallbacks => checkCallbacks
  end.

(** What still can happen when the worker has exited: calls, and the client's own timer. *)
Definition after_exit (ev : client_event) : bool :=
  match ev with Send _ _ _ => true | Terminate => true | CheckCallbacks => true | _ => false end.

Definition silent (o : list (call_effect D)) : Prop := settled o = [] /\ Forall (fun f => f <> TerminateHost) o.

Lemma stays_lost c ev : callbacks c <> [] -> after_exit ev = true ->
  callbacks (fst (on_event ev c)) <> [] /\ silent (snd (on_event ev c)).
Proof.
  destruct c as [[|[k v] cb] el n w]; [done|]. intros _ Ha.
  destruct ev as [id op d| | | | |]; try done; cbn; try (split; [|split]; try done; by repeat constructor).
  - split; [by case_decide|]. split; [done | by repeat constructor].
  - destruct w; cbn; (split; [done | split; [done | by repeat constructor]]).
Qed.

(** A call made after the worker thread has exited never ends: whatever further calls are made, its promise is neither
    resolved nor rejected, and a [terminate] that waits for it never finishes. *)
Theorem call_after_exit_never_ends c id op d evs :
  forallb after_exit evs = true ->
  let '(c1, _) := on_event WorkerExit c in
  let '(c2, sent) := on_event (Send id op d) c1 in
  let '(c3, later) := run_events on_event (Terminate :: evs) c2 in
  sent = [Post id op d] /\ callbacks c1 = [] /\ callbacks c3 <> [] /\ silent later.
Proof.
  intros Hevs. assert (forall evs c, forallb after_exit evs = true -> callbacks c <> [] ->
    callbacks (fst (run_events on_event evs c)) <> [] /\ silent (snd (run_events on_event evs c))) as Hrun.
  { clear. induction evs as [|ev evs IH]; intros c; cbn [forallb]; [intros _ Hc; split; [done | by split]|].
    intros [Ha Hr]%andb_true_iff Hc. destruct (stays_lost c ev Hc Ha) as [H1 [H2 H3]]. unfold run_events. cbn [each]. unfold seq_action.
    destruct (on_event ev c) as [c1 o1]. cbn [fst snd] in *. destruct (IH c1 Hr H1) as [H4 [H5 H6]]. unfold run_events in *.
    destruct (each evs on_event c1) as [c2 o2]. cbn [fst snd] in *. split; [done|]. split; [by rewrite settled_app, H2, H5 | by apply Forall_app]. }
  destruct (on_event WorkerExit c) as [c1 o1] eqn:E1. assert (callbacks c1 = []) as Hc1.
  { cbn [on_event] in E1. unfold rejectAll, get_this, seq_action, assign in E1. destruct (each _ _ c). by injection E1 as <- _. }
  cbn [on_event]. unfold sendRequest, get_this, seq_action, assign, emit. set (c2 := c1 <| calls := _ |> <| callbacks := _ |>).
  assert (callbacks c2 <> []) as Hc2 by (unfold c2; cbn; by rewrite Hc1).
  destruct (Hrun (Terminate :: evs) c2) as [H1 H2]; [done | done|]. destruct (run_events on_event (Terminate :: evs) c2). done.
Qed.
End Client.
End LongRunningWorker.

(** ** [WorkerMessageHandler]: the worker's end *)

Module WorkerMessageHandler.
Section Handler.
Context {D : Type}.














End Handler.
End WorkerMessageHandler.

(** ** A request and its response *)

Section EndToEnd.
Context {D : Type}.
Import ProtocolProcess WorkerMessageHandler.






End EndToEnd.

(** ** Examples *)

Module Examples.
Definition no_options : call_options := {| timeoutMs := None; signal := None |}.
Definition timed : call_options := {| timeoutMs := Some 10; signal := None |}.

Definition timed_call : jsstring * entry := (js "m1", {| promise := 0; has_timer := true; has_signal := false |}).

(** A call times out, the client is terminated. *)
Lemma request_client_settles_witness : exists c out,
  RequestProcessClient.reachable (D := nat) None c out /\ RequestProcessClient.closed c = true /\ settled out ≡ₚ [0%nat] /\
  settled out ++ waiting (RequestProcessClient.table c) ≡ₚ [0%nat].
Proof.
  pose proof (RequestProcessClient.reachable_step None _ _ (RequestProcessClient.Send (js "m1") (OpNumber 1) (Some 5%nat) timed true)
    (RequestProcessClient.reachable_new None) eq_refl) as R1.
  pose proof (RequestProcessClient.reachable_step None _ _ (RequestProcessClient.TimerFires timed_call) R1 ltac:(by left)) as R2.
  pose proof (RequestProcessClient.reachable_step None _ _ RequestProcessClient.Terminate R2 I) as R3.
  eexists _, _. split; [exact R3|]. split; [reflexivity|].
  destruct (RequestProcessClient.request_client_settles None _ _ (js "m2") (OpNumber 1) None no_options true R3) as (H1 & _ & _ & H4).
  split; [exact (proj1 (H4 eq_refl)) | exact H1].
Defined.


Lemma protocol_client_settles_witness : exists c out,
  ProtocolProcess.reachable (D := nat) None None c out /\ waiting (ProtocolProcess.table c) = [0%nat] /\
  settled (out ++ snd (ProtocolProcess.on_exit 1 c)) ≡ₚ [0%nat].
Proof.
  pose proof (ProtocolProcess.reachable_step None None _ _ (ProtocolProcess.Send (js "m1") (OpNumber 1) (Some 5%nat) timed true)
    (ProtocolProcess.reachable_new None None) eq_refl) as R1.
  eexists _, _. split; [exact R1|]. split; [reflexivity|].
  destruct (ProtocolProcess.protocol_client_settles None None _ _ R1) as (_ & _ & H3 & _). exact (H3 1).
Defined.

Definition worker_client : RequestWorkerClient.client := {|
  RequestWorkerClient.table := new_table; RequestWorkerClient.worker := Some 0%nat; RequestWorkerClient.spawned := 1%nat;
  RequestWorkerClient.closed := false; RequestWorkerClient.defaultTimeoutMs := 30000 |}.

Lemma stale_exit_rejects_witness :
  RequestWorkerClient.worker worker_client = Some 0%nat /\
  let '(c1, _) := RequestWorkerClient.terminate (D := nat) worker_client in
  let '(c2, sent) := RequestWorkerClient.sendRequest (js "m1") (OpNumber 1) (Some 5%nat) no_options true c1 in
  let '(c3, out) := RequestWorkerClient.on_exit (D := nat) 1 c2 in
  let '(c4, again) := RequestWorkerClient.sendRequest (D := nat) (js "m2") (OpNumber 1) None no_options true c3 in
  In (Post (js "m1") (OpNumber 1) (Some 5%nat)) sent /\ RequestWorkerClient.worker c2 = Some 1%nat /\
  In (Reject 0%nat (error_of "WORKER_EXIT")) out /\ RequestWorkerClient.worker c3 = None /\
  In Spawn again /\ RequestWorkerClient.worker c4 = Some 2%nat.
Proof. split; [reflexivity|]. exact (RequestWorkerClient.stale_exit_rejects worker_client 0 1 _ _ _ no_options _ _ _ no_options eq_refl eq_refl eq_refl eq_refl). Defined.

Lemma call_after_exit_never_ends_witness : exists c1 c2 c3 later,
  fst (LongRunningWorker.on_event (D := nat) LongRunningWorker.WorkerExit LongRunningWorker.new_client) = c1 /\
  fst (LongRunningWorker.on_event (LongRunningWorker.Send (js "m1") (OpNumber 1) (Some 5%nat)) c1) = c2 /\
  run_events LongRunningWorker.on_event [LongRunningWorker.Terminate; LongRunningWorker.CheckCallbacks] c2 = (c3, later) /\ settled (D := nat) later = [].
Proof.
  eexists _, _, _, _. split; [reflexivity|]. split; [reflexivity|]. split; [reflexivity|].
  destruct (LongRunningWorker.call_after_exit_never_ends (D := nat) LongRunningWorker.new_client (js "m1") (OpNumber 1) (Some 5%nat)
    [LongRunningWorker.CheckCallbacks] eq_refl) as (_ & _ & _ & H & _). exact H.
Defined.


End Examples.
