(* ===== verification/Base64.v ===== *)
(** Node's base64 text of a buffer and back, for texts of the strict form that
    [electron/worker/core/protocolProcessSerialization.js] checks before it decodes. *)

From stdpp Require Import base list numbers.
From Stdlib Require Import ZArith Lia.
From S2P Require Import Prelude.

Local Open Scope Z_scope.

(** The character of six bits and its value. *)
Definition b64_char (n : Z) : Z :=
  if n <? 26 then 65 + n else if n <? 52 then 71 + n else if n <? 62 then n - 4 else if n =? 62 then 43 else 47.

Definition b64_digit (c : Z) : bool :=
  ((65 <=? c) && (c <=? 90)) || ((97 <=? c) && (c <=? 122)) || ((48 <=? c) && (c <=? 57)) || (c =? 43) || (c =? 47).

Definition b64_value (c : Z) : Z :=
  if (65 <=? c) && (c <=? 90) then c - 65
  else if (97 <=? c) && (c <=? 122) then c - 71
  else if (48 <=? c) && (c <=? 57) then c + 4
  else if c =? 43 then 62 else 63.

(** [buf.toString('base64')] *)
Fixpoint b64_encode (b : buffer) : jsstring :=
  match b with
  | [] => []
  | [x] => [b64_char (x / 4); b64_char (x mod 4 * 16); 61; 61]
  | [x; y] => [b64_char (x / 4); b64_char (x mod 4 * 16 + y / 16); b64_char (y mod 16 * 4); 61]
  | x :: y :: z :: tl =>
    [b64_char (x / 4); b64_char (x mod 4 * 16 + y / 16); b64_char (y mod 16 * 4 + z / 64); b64_char (z mod 64)] ++ b64_encode tl
  end.

(** The strict form: groups of four digits, the last one perhaps padded. *)
Fixpoint b64_valid (s : jsstring) : bool :=
  match s with
  | [] => true
  | a :: b :: c :: d :: tl =>
    b64_digit a && b64_digit b &&
    ((b64_digit c && b64_digit d && b64_valid tl) ||
     (match tl with [] => (d =? 61) && ((c =? 61) || b64_digit c) | _ => false end))
  | _ => false
  end.

(** [Buffer.from(s, 'base64')] of a text of that form. *)
Fixpoint b64_decode (s : jsstring) : buffer :=
  match s with
  | a :: b :: c :: d :: tl =>
    let x := b64_value a in let y := b64_value b in let z := b64_value c in let w := b64_value d in
    if c =? 61 then [x * 4 + y / 16]
    else if d =? 61 then [x * 4 + y / 16; y mod 16 * 16 + z / 4]
    else [x * 4 + y / 16; y mod 16 * 16 + z / 4; z mod 4 * 64 + w] ++ b64_decode tl
  | _ => []
  end.

Lemma b64_char_digit n : 0 <= n < 64 -> b64_digit (b64_char n) = true /\ b64_value (b64_char n) = n /\ b64_char n <> 61.
Proof.
  intros Hn. assert (In n (seqZ 0 64)) as Hin by (apply list_elem_of_In, elem_of_seqZ; lia).
  assert (forallb (fun n => b64_digit (b64_char n) && (b64_value (b64_char n) =? n) && negb (b64_char n =? 61)) (seqZ 0 64) = true) as Hall
    by (vm_compute; reflexivity).
  rewrite forallb_forall in Hall. specialize (Hall n Hin). apply andb_true_iff in Hall as [[H1 H2]%andb_true_iff H3].
  split; [done|]. split; [by apply Z.eqb_eq | by apply negb_true_iff, Z.eqb_neq in H3].
Qed.

Lemma b64_round_trip b : bytes_ok b -> b64_valid (b64_encode b) = true /\ b64_decode (b64_encode b) = b.
Proof.
  assert (forall n b, (length b <= n)%nat -> bytes_ok b -> b64_valid (b64_encode b) = true /\ b64_decode (b64_encode b) = b) as H.
  2:{ intros Hb. by apply (H (length b)). }
  clear b. induction n as [|n IH]; intros b Hl Hb.
  - destruct b; [done | cbn in Hl; lia].
  - unfold bytes_ok in Hb. destruct b as [|x [|y [|z tl]]]; [done | | |].
    + inversion_clear Hb as [|? ? Hx _]. unfold is_byte in Hx. cbn [b64_encode]. 
      destruct (b64_char_digit (x / 4)) as (D1 & V1 & N1); [zdiv|]. destruct (b64_char_digit (x mod 4 * 16)) as (D2 & V2 & N2); [zdiv|].
      cbn [b64_valid b64_decode]. rewrite D1, D2, V1, V2. split; [done|]. cbn. f_equal. zdiv.
    + inversion_clear Hb as [|? ? Hx Hb']. inversion_clear Hb' as [|? ? Hy _]. unfold is_byte in *. cbn [b64_encode].
      destruct (b64_char_digit (x / 4)) as (D1 & V1 & N1); [zdiv|]. destruct (b64_char_digit (x mod 4 * 16 + y / 16)) as (D2 & V2 & N2); [zdiv|].
      destruct (b64_char_digit (y mod 16 * 4)) as (D3 & V3 & N3); [zdiv|].
      cbn [b64_valid b64_decode]. rewrite D1, D2, D3, V1, V2, V3, (proj2 (Z.eqb_neq _ _) N3). split; [done|]. cbn. f_equal; [zdiv|]. f_equal. zdiv.
    + inversion_clear Hb as [|? ? Hx Hb']. inversion_clear Hb' as [|? ? Hy Hb]. inversion_clear Hb as [|? ? Hz Hb']. unfold is_byte in *. cbn [b64_encode app].
      destruct (b64_char_digit (x / 4)) as (D1 & V1 & N1); [zdiv|]. destruct (b64_char_digit (x mod 4 * 16 + y / 16)) as (D2 & V2 & N2); [zdiv|].
      destruct (b64_char_digit (y mod 16 * 4 + z / 64)) as (D3 & V3 & N3); [zdiv|]. destruct (b64_char_digit (z mod 64)) as (D4 & V4 & N4); [zdiv|].
      destruct (IH tl) as [IH1 IH2]; [cbn in Hl; lia | done|].
      cbn [b64_valid b64_decode]. rewrite D1, D2, D3, D4, V1, V2, V3, V4, (proj2 (Z.eqb_neq _ _) N3), (proj2 (Z.eqb_neq _ _) N4), IH1, IH2. split; [done|].
      cbn [app]. f_equal; [zdiv|]. f_equal; [zdiv|]. f_equal. zdiv.
Qed.
