(* ===== verification/ProcessSerialization.v ===== *)
(** Messages between processes as JSON: [electron/worker/core/protocolProcessSerialization.js].

    A message is a graph of objects with shared references and cycles.  The objects are a
    heap: [Object l] is a reference to the [l]-th object.  [encodeProtocolProcessMessage]
    numbers the objects it reaches and writes each as one node, with references as
    numbers; [decodeProtocolProcessMessage] builds a new heap whose [i]-th object is the
    [i]-th node.  Numbers that are neither integers nor special are a parameter, as are
    [String] of a value, [new Date] and the check of regular expressions. *)

From stdpp Require Import base list numbers strings option.
From Stdlib Require Import ZArith Lia.
From S2P Require Import Prelude JsText JsMap Base64.

Local Open Scope Z_scope.
Local Open Scope js_scope.

(** ** Values and objects *)

Inductive view_type :=
| Int8Array | Uint8Array | Uint8ClampedArray | Int16Array | Uint16Array | Int32Array | Uint32Array | Float32Array | Float64Array
| BigInt64Array | BigUint64Array
| OtherView.

Inductive error_type := Error | EvalError | RangeErr | ReferenceError | SyntaxError | TypeErr | URIError.

#[export] Instance view_type_eq_dec : EqDecision view_type.
Proof. solve_decision. Defined.
#[export] Instance error_type_eq_dec : EqDecision error_type.
Proof. solve_decision. Defined.

Definition VIEW_TYPES : list (jsstring * view_type) :=
  [(js "Int8Array", Int8Array); (js "Uint8Array", Uint8Array); (js "Uint8ClampedArray", Uint8ClampedArray); (js "Int16Array", Int16Array);
   (js "Uint16Array", Uint16Array); (js "Int32Array", Int32Array); (js "Uint32Array", Uint32Array); (js "Float32Array", Float32Array);
   (js "Float64Array", Float64Array); (js "BigInt64Array", BigInt64Array); (js "BigUint64Array", BigUint64Array)].

Definition ERROR_TYPES : list (jsstring * error_type) :=
  [(js "Error", Error); (js "EvalError", EvalError); (js "RangeError", RangeErr); (js "ReferenceError", ReferenceError);
   (js "SyntaxError", SyntaxError); (js "TypeError", TypeErr); (js "URIError", URIError)].

Definition BYTES_PER_ELEMENT (t : view_type) : Z :=
  match t with
  | Int8Array | Uint8Array | Uint8ClampedArray | OtherView => 1
  | Int16Array | Uint16Array => 2
  | Int32Array | Uint32Array | Float32Array => 4
  | Float64Array | BigInt64Array | BigUint64Array => 8
  end.

(** The constructor's name of a view and of an error. *)
Definition view_name (t : view_type) : jsstring :=
  match List.find (fun e => bool_decide (snd e = t)) VIEW_TYPES with Some e => fst e | None => [] end.
Definition error_type_name (t : error_type) : jsstring :=
  match List.find (fun e => bool_decide (snd e = t)) ERROR_TYPES with Some e => fst e | None => [] end.

Section Codec.
(** The finite numbers that are not integers. *)
Context {F : Type} `{EqDecision F}.

Inductive js_number := Int (n : Z) | Frac (x : F) | NegZero | NaN | PosInfinity | NegInfinity.

(** [Unclonable] is a function or a symbol. *)
Inductive value :=
| Null | Undefined | Str (s : jsstring) | Boolean (b : bool) | Number (n : js_number) | BigInt (n : Z) | Unclonable
| Object (l : nat).

#[local] Instance js_number_eq_dec : EqDecision js_number.
Proof. solve_decision. Defined.
#[local] Instance value_eq_dec : EqDecision value.
Proof. solve_decision. Defined.

(** Own enumerable properties, in the order of [Object.keys]. *)
Abbreviation properties := (jmap jsstring value) (only parsing).

(** An error has a message and a stack of its own unless a property hides them; its [cause] is
    not enumerable.  [Unsupported] is an object with any other tag. *)
Inductive object :=
| Plain (props : properties)
| Arr (len : Z) (props : properties)
| MapObj (entries : jmap value value)
| SetObj (entries : list value)
| DateObj (time : js_number)
| RegExpObj (source flags : jsstring)
| ErrorObj (type : error_type) (message : jsstring) (stack : option jsstring) (cause : option value) (props : properties)
| BufferObj (bytes : buffer)
| ArrayBuf (bytes : buffer)
| DataView (buf : nat) (byteOffset byteLength : Z)
| TypedArray (type : view_type) (buf : nat) (byteOffset len : Z)
| Unsupported.

Abbreviation heap := (list object) (only parsing).

Inductive json := JNull | JBool (b : bool) | JStr (s : jsstring) | JNum (n : js_number) | JArr (l : list json) | JObj.

Definition jstr (s : string) : json := JStr (js s).
Definition jint (n : Z) : json := JNum (Int n).

Definition invalid : js_exn := ErrorCode "PROTOCOL_PROCESS_MESSAGE_INVALID".

(** ** Encoding *)

(** [references] is the map from objects to numbers: the [i]-th object has number [i].  An entry
    of [backingBuffers] is a buffer with its node and the views on it with their nodes. *)
Record encoder := {
  nodes : list json;
  references : list nat;
  explicitBuffers : list nat;
  backingBuffers : jmap nat (nat * list (nat * nat))
}.

Definition new_encoder : encoder := {| nodes := []; references := []; explicitBuffers := []; backingBuffers := [] |}.

Definition mark_explicit (l : nat) (s : encoder) : encoder :=
  {| nodes := nodes s; references := references s; explicitBuffers := explicitBuffers s ++ [l]; backingBuffers := backingBuffers s |}.
(** [references.set(value, index); nodes.push(null)] *)
Definition add_reference (l : nat) (s : encoder) : encoder :=
  {| nodes := nodes s ++ [JNull]; references := references s ++ [l]; explicitBuffers := explicitBuffers s; backingBuffers := backingBuffers s |}.
Definition set_node (index : nat) (node : json) (s : encoder) : encoder :=
  {| nodes := <[index := node]> (nodes s); references := references s; explicitBuffers := explicitBuffers s; backingBuffers := backingBuffers s |}.
Definition set_backing (l : nat) (e : nat * list (nat * nat)) (s : encoder) : encoder :=
  {| nodes := nodes s; references := references s; explicitBuffers := explicitBuffers s; backingBuffers := jmap_set (backingBuffers s) l e |}.

Fixpoint index_of (l : list nat) (x : nat) : option nat :=
  match l with
  | [] => None
  | y :: tl => if Nat.eqb y x then Some O else S <$> index_of tl x
  end.

Definition jref (i : nat) : json := JArr [jstr "ref"; jint (Z.of_nat i)].

(** The token of a number. *)
Definition number_token (n : js_number) : json :=
  match n with
  | Int _ => JNum n
  | Frac _ => JNum n
  | NegZero => JArr [jstr "number"; jstr "-0"]
  | NaN => JArr [jstr "number"; jstr "NaN"]
  | PosInfinity => JArr [jstr "number"; jstr "Infinity"]
  | NegInfinity => JArr [jstr "number"; jstr "-Infinity"]
  end.

Context (js_String : value -> jsstring) (date_of : value -> result js_number) (regexp_valid : jsstring -> jsstring -> bool).

Definition error_name (t : error_type) (props : properties) : jsstring :=
  match jmap_get props (js "name") with Some v => js_String v | None => error_type_name t end.
Definition error_message (m : jsstring) (props : properties) : jsstring :=
  match jmap_get props (js "message") with Some v => js_String v | None => m end.
Definition error_stack (s : option jsstring) (props : properties) : option jsstring :=
  match jmap_get props (js "stack") with Some (Str t) => Some t | Some _ => None | None => s end.

(** [Object.keys(value)] with their values, and [cause] if it is an own property. *)
Definition error_properties (cause : option value) (props : properties) : properties :=
  match cause with
  | Some c => if jmap_has props (js "cause") then props else props ++ [(js "cause", c)]
  | None => props
  end.

Definition text_or_null (t : option jsstring) : json := match t with Some s => JStr s | None => JNull end.

Section EncodeObject.
Context (h : heap) (enc : value -> bool -> encoder -> run (json * encoder)).

Fixpoint encode_properties (props : properties) (s : encoder) : run (list json * encoder) :=
  match props with
  | [] => Some (Ok ([], s))
  | (k, v) :: tl =>
    let? (t, s) := enc v false s in
    let? (ts, s) := encode_properties tl s in
    Some (Ok (JArr [JStr k; t] :: ts, s))
  end.

Fixpoint encode_entries (entries : jmap value value) (s : encoder) : run (list json * encoder) :=
  match entries with
  | [] => Some (Ok ([], s))
  | (k, v) :: tl =>
    let? (tk, s) := enc k false s in
    let? (tv, s) := enc v false s in
    let? (ts, s) := encode_entries tl s in
    Some (Ok (JArr [tk; tv] :: ts, s))
  end.

Fixpoint encode_values (vs : list value) (s : encoder) : run (list json * encoder) :=
  match vs with
  | [] => Some (Ok ([], s))
  | v :: tl =>
    let? (t, s) := enc v false s in
    let? (ts, s) := encode_values tl s in
    Some (Ok (t :: ts, s))
  end.

(** [backingBuffers.get(value.buffer).views.push(...)] *)
Definition push_view (buf l index : nat) (s : encoder) : run encoder :=
  match jmap_get (backingBuffers s) buf with
  | Some (i, views) => Some (Ok (set_backing buf (i, views ++ [(l, index)]) s))
  | None => Some (Throw TypeError)
  end.

(** The node of the object [l], which has number [index]. *)
Definition encode_object (l index : nat) (s : encoder) : run (json * encoder) :=
  match h !! l with
  | None => Some (Throw TypeError)
  | Some (BufferObj bytes) => Some (Ok (JArr [jstr "buffer"; JStr (b64_encode bytes)], s))
  | Some (ArrayBuf _) =>
    Some (Ok (JArr [jstr "array-buffer"; JNull], set_backing l (index, []) s))
  | Some (DataView buf off len) =>
    let? (t, s) := enc (Object buf) true s in
    let? s := push_view buf l index s in
    Some (Ok (JArr [jstr "data-view"; t; jint off; jint len], s))
  | Some (TypedArray OtherView _ _ _) => Some (Throw invalid)
  | Some (TypedArray type buf off len) =>
    let? (t, s) := enc (Object buf) true s in
    let? s := push_view buf l index s in
    Some (Ok (JArr [jstr "typed-array"; JStr (view_name type); t; jint off; jint len], s))
  | Some (Arr len props) =>
    let? (ps, s) := encode_properties props s in
    Some (Ok (JArr [jstr "array"; jint len; JArr ps], s))
  | Some (MapObj entries) =>
    let? (es, s) := encode_entries entries s in
    Some (Ok (JArr [jstr "map"; JArr es], s))
  | Some (SetObj entries) =>
    let? (es, s) := encode_values entries s in
    Some (Ok (JArr [jstr "set"; JArr es], s))
  | Some (DateObj time) => Some (Ok (JArr [jstr "date"; number_token time], s))
  | Some (RegExpObj source flags) => Some (Ok (JArr [jstr "regexp"; JStr source; JStr flags], s))
  | Some (ErrorObj type message stack cause props) =>
    let? (ps, s) := encode_properties (error_properties cause props) s in
    Some (Ok (JArr [jstr "error"; JStr (error_name type props); JStr (error_message message props);
                    text_or_null (error_stack stack props); JArr ps], s))
  | Some (Plain props) =>
    let? (ps, s) := encode_properties props s in
    Some (Ok (JArr [jstr "object"; JArr ps], s))
  | Some Unsupported => Some (Throw invalid)
  end.
End EncodeObject.

Definition is_array_buffer (h : heap) (l : nat) : bool := match h !! l with Some (ArrayBuf _) => true | _ => false end.

(** [fuel] bounds the depth of the recursion. *)
Fixpoint encode (fuel : nat) (h : heap) (v : value) (fromView : bool) (s : encoder) : run (json * encoder) :=
  match v with
  | Null => Some (Ok (JNull, s))
  | Str t => Some (Ok (JStr t, s))
  | Boolean b => Some (Ok (JBool b, s))
  | Number n => Some (Ok (number_token n, s))
  | Undefined => Some (Ok (JArr [jstr "undefined"], s))
  | BigInt n => Some (Ok (JArr [jstr "bigint"; JStr (js_number_to_string n)], s))
  | Unclonable => Some (Throw invalid)
  | Object l =>
    let s := if is_array_buffer h l && negb fromView then mark_explicit l s else s in
    match index_of (references s) l with
    | Some i => Some (Ok (jref i, s))
    | None =>
      match fuel with
      | O => None
      | S f =>
        let index := length (nodes s) in
        let? (node, s) := encode_object h (encode f h) l index (add_reference l s) in
        Some (Ok (jref index, set_node index node s))
      end
    end
  end.
(** *** Backing buffers *)

(** [byteOffset], [byteLength] and [BYTES_PER_ELEMENT || 1] of a view. *)
Definition view_offset (o : object) : Z := match o with DataView _ off _ => off | TypedArray _ _ off _ => off | _ => 0 end.
Definition view_bytes (o : object) : Z :=
  match o with DataView _ _ len => len | TypedArray t _ _ len => len * BYTES_PER_ELEMENT t | _ => 0 end.
Definition view_alignment (o : object) : Z := match o with TypedArray t _ _ _ => BYTES_PER_ELEMENT t | _ => 1 end.

(** The first byte that is kept of a buffer, and the end of the bytes that are kept. *)
Definition compact_first (bytes : buffer) (views : list object) : Z :=
  let first := fold_left (fun m o => Z.min m (view_offset o)) views (blen bytes) in
  let alignment := fold_left (fun m o => Z.max m (view_alignment o)) views 1 in
  first / alignment * alignment.
Definition compact_end (views : list object) : Z := fold_left (fun m o => Z.max m (view_offset o + view_bytes o)) views 0.

(** The visible ranges, with zeros between them. *)
Definition compact_bytes (bytes : buffer) (views : list object) : buffer :=
  let first := compact_first bytes views in
  fold_left (fun b o => copy_into (subarray bytes (view_offset o) (view_offset o + view_bytes o)) b (view_offset o - first))
    views (alloc (compact_end views - first)).

(** [viewNode[i] -= first] *)
Definition shift_node (first : Z) (node : json) : json :=
  match node with
  | JArr [k; t; JNum (Int off); len] => JArr [k; t; jint (off - first); len]
  | JArr [k; name; t; JNum (Int off); len] => JArr [k; name; t; jint (off - first); len]
  | n => n
  end.

Definition put_bytes (b : buffer) (node : json) : json :=
  match node with JArr [k; _] => JArr [k; JStr (b64_encode b)] | n => n end.

Definition update_node (i : nat) (f : json -> json) (ns : list json) : list json :=
  match ns !! i with Some n => <[i := f n]> ns | None => ns end.

(** The changes that the loop over [backingBuffers] makes for one entry; [Buffer.alloc] throws on a negative size. *)
Definition finish_nodes (h : heap) (explicit : list nat) (ns : list json) (e : nat * (nat * list (nat * nat))) : list json :=
  let '(l, (i, views)) := e in
  match h !! l with
  | Some (ArrayBuf bytes) =>
    if bool_decide (l ∈ explicit) then update_node i (put_bytes bytes) ns
    else
      let objects := omap (fun v => h !! fst v) views in
      let first := compact_first bytes objects in
      update_node i (put_bytes (compact_bytes bytes objects))
        (fold_left (fun ns v => update_node (snd v) (shift_node first) ns) views ns)
  | _ => ns
  end.

Definition negative_size (h : heap) (explicit : list nat) (e : nat * (nat * list (nat * nat))) : bool :=
  let '(l, (_, views)) := e in
  match h !! l with
  | Some (ArrayBuf bytes) =>
    let objects := omap (fun v => h !! fst v) views in
    negb (bool_decide (l ∈ explicit)) && (compact_end objects - compact_first bytes objects <? 0)
  | _ => false
  end.

Fixpoint finish_buffers (h : heap) (explicit : list nat) (entries : jmap nat (nat * list (nat * nat))) (ns : list json) : run (list json) :=
  match entries with
  | [] => Some (Ok ns)
  | e :: tl => if negative_size h explicit e then Some (Throw RangeError) else finish_buffers h explicit tl (finish_nodes h explicit ns e)
  end.

Definition PROTOCOL_PROCESS_IPC_CODEC : jsstring := js "netnexus-json-graph".

Record envelope := { codec : json; version : json; root : json; envelope_nodes : json }.

Definition encodeProtocolProcessMessage (fuel : nat) (h : heap) (message : value) : run envelope :=
  let? (t, s) := encode fuel h message false new_encoder in
  let? ns := finish_buffers h (explicitBuffers s) (backingBuffers s) (nodes s) in
  Some (Ok {| codec := JStr PROTOCOL_PROCESS_IPC_CODEC; version := jint 1; root := t; envelope_nodes := JArr ns |}).

(** ** Decoding *)

(** The integer of a JSON number that [Number.isSafeInteger] accepts. *)
Definition safe_integer (j : json) : option Z :=
  match j with
  | JNum (Int n) => if is_safe_integer n then Some n else None
  | JNum NegZero => Some 0
  | _ => None
  end.

(** [/^-?\d+$/] and [BigInt] of such a text. *)
Definition bigint_of (t : jsstring) : option Z :=
  match t with
  | [] => None
  | c :: tl =>
    if c =? 45 then match tl with [] => None | _ => if forallb is_digit tl then Some (- dec_value tl) else None end
    else if forallb is_digit t then Some (dec_value t) else None
  end.

(** The objects that have been built so far, by number. *)
Abbreviation values := (list (option object)) (only parsing).

Definition defined (vs : values) (i : nat) : bool := match vs !! i with Some (Some _) => true | _ => false end.

Definition decode_token (vs : values) (t : json) : result value :=
  match t with
  | JNull => Ok Null
  | JStr s => Ok (Str s)
  | JBool b => Ok (Boolean b)
  | JNum (Int n) => Ok (Number (Int n))
  | JNum (Frac x) => Ok (Number (Frac x))
  | JNum NegZero => Ok (Number NegZero)
  | JArr [JStr k] => if bool_decide (k = js "undefined") then Ok Undefined else Throw invalid
  | JArr [JStr k; x] =>
    if bool_decide (k = js "bigint") then
      match x with JStr s => match bigint_of s with Some n => Ok (BigInt n) | None => Throw invalid end | _ => Throw invalid end
    else if bool_decide (k = js "number") then
      match x with
      | JStr s =>
        if bool_decide (s = js "-0") then Ok (Number NegZero)
        else if bool_decide (s = js "NaN") then Ok (Number NaN)
        else if bool_decide (s = js "Infinity") then Ok (Number PosInfinity)
        else if bool_decide (s = js "-Infinity") then Ok (Number NegInfinity)
        else Throw invalid
      | _ => Throw invalid
      end
    else if bool_decide (k = js "ref") then
      match safe_integer x with
      | Some i => if (0 <=? i) && (i <? blen vs) && defined vs (Z.to_nat i) then Ok (Object (Z.to_nat i)) else Throw invalid
      | None => Throw invalid
      end
    else Throw invalid
  | _ => Throw invalid
  end.

Definition decodeBytes (j : json) : result buffer :=
  match j with JStr s => if b64_valid s then Ok (b64_decode s) else Throw invalid | _ => Throw invalid end.

(** [node[i]] where it must be there. *)
Definition part (l : list json) (i : nat) : result json := match l !! i with Some j => Ok j | None => Throw invalid end.

Definition error_type_of (name : jsstring) : error_type :=
  match List.find (fun e => bool_decide (fst e = name)) ERROR_TYPES with Some e => snd e | None => Error end.
Definition view_type_of (name : jsstring) : option view_type :=
  snd <$> List.find (fun e => bool_decide (fst e = name)) VIEW_TYPES.

(** A loop over the nodes that sets [values[index]]. *)
Fixpoint for_each (step : json -> values -> option object -> result (option object)) (ns : list json) (i : nat) (vs : values) : result values :=
  match ns with
  | [] => Ok vs
  | n :: tl => let! o := step n vs (default None (vs !! i)) in for_each step tl (S i) (<[i := o]> vs)
  end.

(** The first loop: an object for each node but the views. *)
Definition allocate (node : json) (vs : values) (_ : option object) : result (option object) :=
  match node with
  | JArr ((JStr k :: _) as l) =>
    if bool_decide (k = js "object") then Ok (Some (Plain []))
    else if bool_decide (k = js "array") then
      let! n := part l 1 in
      match safe_integer n with
      | Some len => if (0 <=? len) && (len <=? 0xffffffff) then Ok (Some (Arr len [])) else Throw invalid
      | None => Throw invalid
      end
    else if bool_decide (k = js "map") then Ok (Some (MapObj []))
    else if bool_decide (k = js "set") then Ok (Some (SetObj []))
    else if bool_decide (k = js "date") then
      let! t := part l 1 in
      let! v := decode_token vs t in
      match date_of v with Ok time => Ok (Some (DateObj time)) | Throw _ => Throw invalid end
    else if bool_decide (k = js "regexp") then
      match l with
      | _ :: JStr source :: JStr flags :: _ => if regexp_valid source flags then Ok (Some (RegExpObj source flags)) else Throw invalid
      | _ => Throw invalid
      end
    else if bool_decide (k = js "error") then
      match l with
      | _ :: JStr name :: JStr message :: rest =>
        Ok (Some (ErrorObj (error_type_of name) message (match rest with JStr s :: _ => Some s | _ => None end) None [(js "name", Str name)]))
      | _ => Throw invalid
      end
    else if bool_decide (k = js "buffer") then let! j := part l 1 in let! b := decodeBytes j in Ok (Some (BufferObj b))
    else if bool_decide (k = js "array-buffer") then let! j := part l 1 in let! b := decodeBytes j in Ok (Some (ArrayBuf b))
    else if bool_decide (k = js "data-view") || bool_decide (k = js "typed-array") then Ok None
    else Throw invalid
  | _ => Throw invalid
  end.

(** The second loop: a view on its buffer. *)
Definition build_view (node : json) (vs : values) (o : option object) : result (option object) :=
  match node with
  | JArr ((JStr k :: _) as l) =>
    let data_view := bool_decide (k = js "data-view") in
    if data_view || bool_decide (k = js "typed-array") then
      let offset := if data_view then 2%nat else 3%nat in
      let! t := part l (offset - 1) in
      let! v := decode_token vs t in
      let! off := part l offset in
      let! len := part l (offset + 1) in
      match v with
      | Object b =>
        match vs !! b, safe_integer off, safe_integer len with
        | Some (Some (ArrayBuf bytes)), Some off, Some len =>
          if (off <? 0) || (len <? 0) then Throw invalid
          else if data_view then
            if (blen bytes <? off) || (blen bytes <? off + len) then Throw invalid else Ok (Some (DataView b off len))
          else
            let! name := part l 1 in
            match name with
            | JStr name =>
              match view_type_of name with
              | Some type =>
                if negb (off mod BYTES_PER_ELEMENT type =? 0) || (blen bytes <? off + len * BYTES_PER_ELEMENT type) then Throw invalid
                else Ok (Some (TypedArray type b off len))
              | None => Throw invalid
              end
            | _ => Throw invalid
            end
        | _, _, _ => Throw invalid
        end
      | _ => Throw invalid
      end
    else Ok o
  | _ => Ok o
  end.

Fixpoint decode_properties (vs : values) (entries : list json) : result properties :=
  match entries with
  | [] => Ok []
  | JArr [JStr k; t] :: tl => let! v := decode_token vs t in let! ps := decode_properties vs tl in Ok ((k, v) :: ps)
  | _ => Throw invalid
  end.

(** [Object.defineProperty] on an array: an index past the end makes it longer, and [length] cannot be redefined. *)
Definition array_index (k : jsstring) : option Z :=
  if forallb is_digit k && negb (bool_decide (k = [])) && bool_decide (dec_digits (dec_value k) = k) && (dec_value k <? 0xffffffff)
  then Some (dec_value k) else None.

Definition define_property (o : object) (k : jsstring) (v : value) : result object :=
  match o with
  | Plain props => Ok (Plain (jmap_set props k v))
  | Arr len props =>
    if bool_decide (k = js "length") then Throw invalid
    else Ok (Arr (match array_index k with Some i => Z.max len (i + 1) | None => len end) (jmap_set props k v))
  | ErrorObj t m s c props => Ok (ErrorObj t m s c (jmap_set props k v))
  | o => Ok o
  end.

Fixpoint define_properties (o : object) (ps : properties) : result object :=
  match ps with
  | [] => Ok o
  | (k, v) :: tl => let! o := define_property o k v in define_properties o tl
  end.

(** [defineProperties(target, entries)]; properties before an invalid one are of no consequence, as the target is lost. *)
Definition defineProperties (vs : values) (o : object) (entries : result json) : result object :=
  match entries with
  | Ok (JArr l) => let! ps := decode_properties vs l in define_properties o ps
  | _ => Throw invalid
  end.

(** A key of a [Map] or [Set]: -0 is taken for 0. *)
Definition map_key (v : value) : value := match v with Number NegZero => Number (Int 0) | v => v end.

Fixpoint decode_entries (vs : values) (entries : list json) (m : jmap value value) : result (jmap value value) :=
  match entries with
  | [] => Ok m
  | JArr [tk; tv] :: tl =>
    let! k := decode_token vs tk in
    let! v := decode_token vs tv in
    decode_entries vs tl (jmap_set m (map_key k) v)
  | _ => Throw invalid
  end.

Definition set_add (l : list value) (v : value) : list value := if bool_decide (map_key v ∈ l) then l else l ++ [map_key v].

Fixpoint decode_values (vs : values) (entries : list json) (l : list value) : result (list value) :=
  match entries with
  | [] => Ok l
  | t :: tl => let! v := decode_token vs t in decode_values vs tl (set_add l v)
  end.

(** The third loop: what the objects contain. *)
Definition fill (node : json) (vs : values) (o : option object) : result (option object) :=
  match node, o with
  | JArr ((JStr k :: _) as l), Some o =>
    if bool_decide (k = js "object") then let! o := defineProperties vs o (part l 1) in Ok (Some o)
    else if bool_decide (k = js "array") then let! o := defineProperties vs o (part l 2) in Ok (Some o)
    else if bool_decide (k = js "error") then let! o := defineProperties vs o (part l 4) in Ok (Some o)
    else if bool_decide (k = js "map") then
      match part l 1 with
      | Ok (JArr es) => let! m := decode_entries vs es [] in Ok (Some (MapObj m))
      | _ => Throw invalid
      end
    else if bool_decide (k = js "set") then
      match part l 1 with
      | Ok (JArr es) => let! m := decode_values vs es [] in Ok (Some (SetObj m))
      | _ => Throw invalid
      end
    else Ok (Some o)
  | _, o => Ok o
  end.

(** The root and the objects by number. *)
Definition decodeProtocolProcessMessage (e : envelope) : result (value * values) :=
  match codec e, version e, envelope_nodes e with
  | JStr c, JNum (Int 1), JArr ns =>
    if negb (bool_decide (c = PROTOCOL_PROCESS_IPC_CODEC)) then Throw invalid
    else
      let! vs := for_each allocate ns 0 (replicate (length ns) None) in
      let! vs := for_each build_view ns 0 vs in
      let! vs := for_each fill ns 0 vs in
      let! v := decode_token vs (root e) in
      Ok (v, vs)
  | _, _, _ => Throw invalid
  end.
(** ** Well-formed messages *)

(** The values an object refers to, and the buffer of a view. *)
Definition children (o : object) : list value :=
  match o with
  | Plain props => map snd props
  | Arr _ props => map snd props
  | MapObj entries => concat (map (fun e => [fst e; snd e]) entries)
  | SetObj entries => entries
  | ErrorObj _ _ _ c props => map snd (error_properties c props)
  | _ => []
  end.

Definition buffer_of (o : object) : option nat :=
  match o with DataView b _ _ => Some b | TypedArray _ b _ _ => Some b | _ => None end.

Definition value_ok (h : heap) (v : value) : Prop :=
  match v with Unclonable => False | Object l => (l < length h)%nat | _ => True end.

(** What the language guarantees of an object: keys are unique, -0 is no key, a view lies in
    its buffer, lengths are lengths; and nothing that cannot be cloned. *)
Definition object_ok (h : heap) (o : object) : Prop :=
  Forall (value_ok h) (children o) /\
  match o with
  | Plain props => jmap_ok props
  | Arr len props =>
    0 <= len <= 0xffffffff /\ jmap_ok props /\
    Forall (fun e => fst e <> js "length" /\ forall i, array_index (fst e) = Some i -> i < len) props
  | MapObj entries => jmap_ok entries /\ Forall (fun e => fst e <> Number NegZero) entries
  | SetObj entries => NoDup entries /\ Number NegZero ∉ entries
  | DateObj time => date_of (Number time) = Ok time
  | RegExpObj source flags => regexp_valid source flags = true
  | ErrorObj _ _ _ _ props => jmap_ok props
  | BufferObj bytes => bytes_ok bytes
  | ArrayBuf bytes => bytes_ok bytes /\ blen bytes <= max_safe_integer
  | DataView b off len => exists bytes, h !! b = Some (ArrayBuf bytes) /\ 0 <= off /\ 0 <= len /\ off + len <= blen bytes
  | TypedArray t b off len =>
    t <> OtherView /\ exists bytes, h !! b = Some (ArrayBuf bytes) /\ 0 <= off /\ 0 <= len /\
      off mod BYTES_PER_ELEMENT t = 0 /\ off + len * BYTES_PER_ELEMENT t <= blen bytes
  | Unsupported => False
  end.

Definition heap_ok (h : heap) : Prop := Forall (object_ok h) h.

(** ** The graph that is sent *)

(** The number of an object that is sent, and a value with numbers for references. *)
Definition number_of (refs : list nat) (l : nat) : nat := default O (index_of refs l).
Definition rename (refs : list nat) (v : value) : value := match v with Object l => Object (number_of refs l) | v => v end.

(** The token of a value and the node of an object, once all objects have numbers. *)
Definition token (refs : list nat) (v : value) : json :=
  match v with
  | Null => JNull
  | Str t => JStr t
  | Boolean b => JBool b
  | Number n => number_token n
  | Undefined => JArr [jstr "undefined"]
  | BigInt n => JArr [jstr "bigint"; JStr (js_number_to_string n)]
  | Unclonable => JNull
  | Object l => jref (number_of refs l)
  end.

Definition property_nodes (refs : list nat) (props : properties) : list json := map (fun e => JArr [JStr (fst e); token refs (snd e)]) props.

Definition node_of (refs : list nat) (o : object) : json :=
  match o with
  | Plain props => JArr [jstr "object"; JArr (property_nodes refs props)]
  | Arr len props => JArr [jstr "array"; jint len; JArr (property_nodes refs props)]
  | MapObj entries => JArr [jstr "map"; JArr (map (fun e => JArr [token refs (fst e); token refs (snd e)]) entries)]
  | SetObj entries => JArr [jstr "set"; JArr (map (token refs) entries)]
  | DateObj time => JArr [jstr "date"; number_token time]
  | RegExpObj source flags => JArr [jstr "regexp"; JStr source; JStr flags]
  | ErrorObj t m st c props =>
    JArr [jstr "error"; JStr (error_name t props); JStr (error_message m props); text_or_null (error_stack st props);
          JArr (property_nodes refs (error_properties c props))]
  | BufferObj bytes => JArr [jstr "buffer"; JStr (b64_encode bytes)]
  | ArrayBuf _ => JArr [jstr "array-buffer"; JNull]
  | DataView b off len => JArr [jstr "data-view"; jref (number_of refs b); jint off; jint len]
  | TypedArray t b off len => JArr [jstr "typed-array"; JStr (view_name t); jref (number_of refs b); jint off; jint len]
  | Unsupported => JNull
  end.

(** The objects that some values lead to. *)
Inductive reaches (h : heap) (rs : list value) : nat -> Prop :=
| reach_root l : Object l ∈ rs -> reaches h rs l
| reach_child l o l' : reaches h rs l -> h !! l = Some o -> Object l' ∈ children o \/ buffer_of o = Some l' -> reaches h rs l'.

Lemma reaches_mono h rs rs' l : (forall l, Object l ∈ rs -> reaches h rs' l) -> reaches h rs l -> reaches h rs' l.
Proof. intros Hrs. induction 1 as [l Hl|l o l' Hl IH Ho Hc]; [by apply Hrs | by apply (reach_child h rs' l o l')]. Qed.

(** A buffer that the message or a property refers to: all its bytes are sent. *)
Definition named (h : heap) (message : value) (b : nat) : Prop :=
  message = Object b \/ exists l o, reaches h [message] l /\ h !! l = Some o /\ Object b ∈ children o.

(** A value whose object has a number. *)
Definition known (refs : list nat) (v : value) : Prop := match v with Object l => l ∈ refs | _ => True end.
Definition known_object (refs : list nat) (o : object) : Prop :=
  Forall (known refs) (children o) /\ forall b, buffer_of o = Some b -> b ∈ refs.

Lemma index_of_none l x : index_of l x = None <-> x ∉ l.
Proof.
  induction l as [|y l IH]; cbn [index_of]; [split; [intros _; apply not_elem_of_nil | done]|]. rewrite list.not_elem_of_cons.
  destruct (Nat.eqb_spec y x) as [->|Hne]; [naive_solver|]. destruct (index_of l x); cbn; naive_solver.
Qed.

Lemma index_of_some l x i : index_of l x = Some i -> l !! i = Some x.
Proof.
  revert i. induction l as [|y l IH]; cbn [index_of]; [done|]. intros i. destruct (Nat.eqb_spec y x) as [->|Hne]; [by intros [= <-]|].
  destruct (index_of l x) as [j|]; [|done]. intros [= <-]. by apply IH.
Qed.

Lemma index_of_app l l2 x : x ∈ l -> index_of (l ++ l2) x = index_of l x.
Proof.
  induction l as [|y l IH]; [by intros ?%elem_of_nil|]. cbn [app index_of]. intros Hx. destruct (Nat.eqb_spec y x) as [->|Hne]; [done|].
  apply elem_of_cons in Hx as [->|Hx]; [done|]. by rewrite IH.
Qed.

Lemma number_of_in l x : x ∈ l -> l !! number_of l x = Some x /\ index_of l x = Some (number_of l x).
Proof.
  intros Hx. unfold number_of. destruct (index_of l x) as [i|] eqn:E; [by split; [apply index_of_some|]|]. by apply index_of_none in E.
Qed.

Lemma number_of_at l i x : NoDup l -> l !! i = Some x -> number_of l x = i.
Proof.
  intros Hn Hi. assert (x ∈ l) as Hx by (by apply list_elem_of_lookup_2 in Hi). destruct (number_of_in l x Hx) as [H _].
  by apply (NoDup_lookup l (number_of l x) i x).
Qed.

Lemma known_app l l2 v : known l v -> known (l ++ l2) v /\ token (l ++ l2) v = token l v.
Proof.
  destruct v; try done. cbn. intros Hl. split; [by apply elem_of_app; left|]. unfold number_of. by rewrite index_of_app.
Qed.

Lemma nodes_app l l2 o : known_object l o -> known_object (l ++ l2) o /\ node_of (l ++ l2) o = node_of l o.
Proof.
  intros [Hc Hb]. assert (Forall (fun v => token (l ++ l2) v = token l v) (children o)) as Ht
    by (eapply Forall_impl; [|exact Hc]; intros v Hv; by apply known_app).
  split.
  { split; [eapply Forall_impl; [|exact Hc]; intros v Hv; by apply known_app|]. intros b Hob. apply elem_of_app. left. by apply Hb. }
  assert (forall props, Forall (fun v => token (l ++ l2) v = token l v) (map snd props) -> property_nodes (l ++ l2) props = property_nodes l props) as Hprops.
  { intros props Hp. unfold property_nodes. apply map_ext_in. intros e He. rewrite Forall_forall in Hp. rewrite (Hp (snd e)); [done|]. by apply in_map. }
  destruct o; cbn [node_of children buffer_of] in *; try done.
  - by rewrite Hprops.
  - by rewrite Hprops.
  - do 4 f_equal. apply map_ext_in. intros e He. rewrite Forall_forall in Ht. rewrite !Ht; [done | |]; apply in_concat; exists [fst e; snd e];
      (split; [by apply (in_map (fun e => [fst e; snd e])) | cbn; auto]).
  - do 4 f_equal. apply map_ext_in. intros v Hv. rewrite Forall_forall in Ht. by apply Ht.
  - by rewrite Hprops.
  - unfold number_of. by rewrite index_of_app by (by apply Hb).
  - unfold number_of. by rewrite index_of_app by (by apply Hb).
Qed.
(** ** Compaction *)

Definition view_fits (bytes : buffer) (o : object) : Prop :=
  0 <= view_offset o /\ 0 <= view_bytes o /\ view_offset o + view_bytes o <= blen bytes /\ view_offset o mod view_alignment o = 0.

(** A view shows the byte [p] of its buffer. *)
Definition shows (p : Z) (o : object) : bool := (view_offset o <=? p) && (p <? view_offset o + view_bytes o).

Lemma bget_subarray b s e i : 0 <= s -> 0 <= i -> bget (subarray b s e) i = if i <? e - s then bget b (s + i) else None.
Proof.
  intros Hs Hi. unfold bget, subarray. rewrite (proj2 (Z.ltb_ge i 0)) by lia. rewrite (proj2 (Z.ltb_ge (s + i) 0)) by lia.
  case_if; bool_hyps.
  - rewrite lookup_take_lt by lia. rewrite lookup_drop. f_equal. lia.
  - apply lookup_take_ge. lia.
Qed.

Lemma bget_copy_into src b off i : 0 <= off -> off + blen src <= blen b -> 0 <= i ->
  bget (copy_into src b off) i = if (off <=? i) && (i <? off + blen src) then bget src (i - off) else bget b i.
Proof.
  intros Ho Hl Hi. unfold copy_into, splice. rewrite (take_ge src) by (unfold blen in *; lia). unfold bget, blen in *.
  rewrite (proj2 (Z.ltb_ge i 0)) by lia. destruct ((off <=? i) && (i <? off + Z.of_nat (length src))) eqn:E; bool_hyps.
  - rewrite (proj2 (Z.ltb_ge (i - off) 0)) by lia. rewrite lookup_app_r by (rewrite length_take; lia).
    rewrite lookup_app_l by (rewrite length_take; lia). f_equal. rewrite length_take. lia.
  - destruct (decide (i < off)) as [Hlt|Hge].
    + rewrite lookup_app_l by (rewrite length_take; lia). by rewrite lookup_take_lt by lia.
    + destruct E as [E|E]; bool_hyps; [lia|].
      rewrite lookup_app_r by (rewrite length_take; lia). rewrite lookup_app_r by (rewrite length_take; lia).
      rewrite lookup_drop. f_equal. rewrite length_take. lia.
Qed.

Lemma blen_copy_into src b off : 0 <= off -> off + blen src <= blen b -> blen (copy_into src b off) = blen b.
Proof.
  intros Ho Hl. unfold copy_into, splice. rewrite (take_ge src) by (unfold blen in *; lia). unfold blen in *.
  rewrite !length_app, length_take, length_drop. lia.
Qed.

Lemma copies_spec bytes first objs b :
  Forall (view_fits bytes) objs -> Forall (fun o => first <= view_offset o /\ view_offset o + view_bytes o - first <= blen b) objs ->
  let c := fold_left (fun b o => copy_into (subarray bytes (view_offset o) (view_offset o + view_bytes o)) b (view_offset o - first)) objs b in
  blen c = blen b /\ forall i, 0 <= i -> bget c i = if existsb (shows (first + i)) objs then bget bytes (first + i) else bget b i.
Proof.
  revert b. induction objs as [|o objs IH]; intros b Hf Hr; cbn [fold_left existsb]; [done|].
  apply list.Forall_cons in Hf as [Ho Hf], Hr as [[Hr1 Hr2] Hr]. destruct Ho as (H0 & H1 & H2 & _).
  assert (blen (subarray bytes (view_offset o) (view_offset o + view_bytes o)) = view_bytes o) as Hlen by (rewrite blen_subarray; lia).
  assert (blen (copy_into (subarray bytes (view_offset o) (view_offset o + view_bytes o)) b (view_offset o - first)) = blen b) as Hc
    by (apply blen_copy_into; lia).
  specialize (IH (copy_into (subarray bytes (view_offset o) (view_offset o + view_bytes o)) b (view_offset o - first)) Hf).
  rewrite Hc in IH. specialize (IH Hr). cbv zeta in IH. destruct IH as [IHl IHi]. split; [done|]. intros i Hi. rewrite IHi by done.
  destruct (existsb (shows (first + i)) objs); [by rewrite orb_true_r|]. rewrite orb_false_r. rewrite bget_copy_into by lia. rewrite Hlen.
  unfold shows. replace ((view_offset o - first <=? i) && (i <? view_offset o - first + view_bytes o))
    with ((view_offset o <=? first + i) && (first + i <? view_offset o + view_bytes o)) by (apply eq_true_iff_eq; rewrite !andb_true_iff; lia).
  destruct ((view_offset o <=? first + i) && (first + i <? view_offset o + view_bytes o)) eqn:E; [|done]. bool_hyps.
  rewrite bget_subarray by lia. rewrite (proj2 (Z.ltb_lt _ _)) by lia. f_equal. lia.
Qed.

Lemma fold_min_spec (g : object -> Z) objs m : fold_left (fun m o => Z.min m (g o)) objs m <= m /\
  Forall (fun o => fold_left (fun m o => Z.min m (g o)) objs m <= g o) objs.
Proof.
  revert m. induction objs as [|o objs IH]; intros m; cbn [fold_left]; [split; [lia | constructor]|].
  destruct (IH (Z.min m (g o))) as [H1 H2]. split; [lia|]. constructor; [lia | exact H2].
Qed.

Lemma fold_min_ge (g : object -> Z) objs m k : k <= m -> Forall (fun o => k <= g o) objs -> k <= fold_left (fun m o => Z.min m (g o)) objs m.
Proof. intros Hm Ho. revert m Hm. induction Ho as [|o objs Ho _ IH]; intros m Hm; cbn [fold_left]; [done | apply IH; lia]. Qed.

Lemma fold_max_spec (g : object -> Z) objs m : m <= fold_left (fun m o => Z.max m (g o)) objs m /\
  Forall (fun o => g o <= fold_left (fun m o => Z.max m (g o)) objs m) objs.
Proof.
  revert m. induction objs as [|o objs IH]; intros m; cbn [fold_left]; [split; [lia | constructor]|].
  destruct (IH (Z.max m (g o))) as [H1 H2]. split; [lia|]. constructor; [lia | exact H2].
Qed.

(** Alignments are powers of two, so that the largest is a multiple of all. *)
Lemma alignment_power o : exists k, 0 <= k /\ view_alignment o = 2 ^ k.
Proof. destruct o; try (by exists 0). destruct type; (by exists 0) || (by exists 1) || (by exists 2) || by exists 3. Qed.

Lemma alignment_spec objs k : 0 <= k -> exists K, k <= K /\ fold_left (fun m o => Z.max m (view_alignment o)) objs (2 ^ k) = 2 ^ K /\
  Forall (fun o => (view_alignment o | 2 ^ K)) objs.
Proof.
  revert k. induction objs as [|o objs IH]; intros k Hk; cbn [fold_left]; [by exists k|].
  destruct (alignment_power o) as (j & Hj & Ej). assert (Z.max (2 ^ k) (view_alignment o) = 2 ^ Z.max k j) as ->.
  { rewrite Ej. destruct (Z.max_spec k j) as [[Hlt ->]|[Hle ->]].
    - apply Z.max_r. apply Z.pow_le_mono_r; lia.
    - apply Z.max_l. apply Z.pow_le_mono_r; lia. }
  destruct (IH (Z.max k j) ltac:(lia)) as (K & HK & E & Hd). exists K. split; [lia|]. split; [done|]. constructor; [|done].
  rewrite Ej. exists (2 ^ (K - j)). rewrite <- Z.pow_add_r by lia. f_equal. lia.
Qed.

Lemma compact_spec bytes objs : objs <> [] -> Forall (view_fits bytes) objs ->
  let first := compact_first bytes objs in
  let c := compact_bytes bytes objs in
  0 <= first <= compact_end objs /\ blen c = compact_end objs - first /\
  (forall o, o ∈ objs -> first <= view_offset o /\ view_offset o + view_bytes o <= compact_end objs /\ (view_offset o - first) mod view_alignment o = 0) /\
  (forall i, 0 <= i < blen c -> bget c i = if existsb (shows (first + i)) objs then bget bytes (first + i) else Some 0).
Proof.
  intros Hne Hf first c.
  destruct (alignment_spec objs 0 ltac:(lia)) as (K & HK & EA & HA). change (2 ^ 0) with 1 in EA.
  set (m := fold_left (fun m o => Z.min m (view_offset o)) objs (blen bytes)).
  assert (first = m / 2 ^ K * 2 ^ K) as Hfirst by (unfold first, compact_first; by rewrite EA).
  assert (0 < 2 ^ K) as Hpos by (apply Z.pow_pos_nonneg; lia).
  assert (0 <= m) as Hm0.
  { apply fold_min_ge; [apply blen_nonneg|]. eapply Forall_impl; [|exact Hf]. intros o Ho. apply Ho. }
  assert (0 <= first <= m) as Hfm.
  { pose proof (Z.div_pos m (2 ^ K) Hm0 Hpos). pose proof (Z.mul_div_le m (2 ^ K) Hpos). nia. }
  destruct (fold_min_spec view_offset objs (blen bytes)) as [_ Hmin]. fold m in Hmin.
  destruct (fold_max_spec (fun o => view_offset o + view_bytes o) objs 0) as [He0 Hmax]. fold (compact_end objs) in He0, Hmax.
  rewrite list.Forall_forall in Hmin, Hmax, HA. pose proof Hf as Hf'. rewrite list.Forall_forall in Hf'.
  assert (forall o, o ∈ objs -> first <= view_offset o /\ view_offset o + view_bytes o <= compact_end objs /\ (view_offset o - first) mod view_alignment o = 0) as Hview.
  { intros o Ho. destruct (Hf' o Ho) as (_ & Hb & _ & Hal). pose proof (Hmin o Ho). pose proof (Hmax o Ho) as Hmx. cbv beta in Hmx. split; [lia|]. split; [done|].
    destruct (alignment_power o) as (j & Hj & Ej). assert (0 < view_alignment o) as Hp by (rewrite Ej; apply Z.pow_pos_nonneg; lia).
    destruct (HA o Ho) as [q Hq]. rewrite Hfirst, Hq.
    replace (view_offset o - m / (q * view_alignment o) * (q * view_alignment o)) with (view_offset o + (- (m / (q * view_alignment o) * q)) * view_alignment o) by ring.
    by rewrite Z.mod_add by lia. }
  assert (first <= compact_end objs) as Hfe.
  { destruct objs as [|o objs']; [done|]. destruct (Hview o ltac:(by left)) as (? & ? & _). destruct (Hf' o ltac:(by left)) as (_ & ? & _). lia. }
  assert (Forall (fun o => first <= view_offset o /\ view_offset o + view_bytes o - first <= blen (alloc (compact_end objs - first))) objs) as Hr.
  { apply list.Forall_forall. intros o Ho. rewrite blen_alloc by lia. destruct (Hview o Ho) as (? & ? & _). lia. }
  destruct (copies_spec bytes first objs (alloc (compact_end objs - first)) Hf Hr) as [Hcl Hci].
  change (blen c = blen (alloc (compact_end objs - first))) in Hcl.
  change (forall i, 0 <= i -> bget c i = if existsb (shows (first + i)) objs then bget bytes (first + i) else bget (alloc (compact_end objs - first)) i) in Hci.
  rewrite blen_alloc in Hcl by lia.
  split; [lia|]. split; [done|]. split; [done|]. intros i Hi. rewrite Hci by lia. case_match; [done|].
  unfold bget, alloc. rewrite (proj2 (Z.ltb_ge i 0)) by lia. apply lookup_replicate. split; [done | lia].
Qed.

(** ** The traversal *)

Definition views_of (s : encoder) (b : nat) : list (nat * nat) :=
  match jmap_get (backingBuffers s) b with Some (_, views) => views | None => [] end.

(** ** What arrives *)

Section Copy.
Context (refs : list nat) (sent : nat -> buffer -> buffer) (shift : nat -> Z).

Definition rename_properties (props : properties) : properties := map (fun e => (fst e, rename refs (snd e))) props.

(** The object that is built for the object [l]: its references are numbers, the bytes of its
    buffer are [sent], and a view begins [shift] bytes earlier.  An error gets its name as a
    property of its own. *)
Definition copy (l : nat) (o : object) : object :=
  match o with
  | Plain props => Plain (rename_properties props)
  | Arr len props => Arr len (rename_properties props)
  | MapObj entries => MapObj (map (fun e => (rename refs (fst e), rename refs (snd e))) entries)
  | SetObj entries => SetObj (map (rename refs) entries)
  | ErrorObj t m st c props =>
    ErrorObj (error_type_of (error_name t props)) (error_message m props) (error_stack st props) None
      (fold_left (fun m e => jmap_set m (fst e) (snd e)) (rename_properties (error_properties c props)) [(js "name", Str (error_name t props))])
  | ArrayBuf bytes => ArrayBuf (sent l bytes)
  | DataView b off len => DataView (number_of refs b) (off - shift b) len
  | TypedArray t b off len => TypedArray t (number_of refs b) (off - shift b) len
  | o => o
  end.

(** The objects after the first loop and after the second. *)
Definition allocated (l : nat) (o : object) : option object :=
  match o with
  | Plain _ => Some (Plain [])
  | Arr len _ => Some (Arr len [])
  | MapObj _ => Some (MapObj [])
  | SetObj _ => Some (SetObj [])
  | ErrorObj t m st c props =>
    Some (ErrorObj (error_type_of (error_name t props)) (error_message m props) (error_stack st props) None [(js "name", Str (error_name t props))])
  | DataView _ _ _ | TypedArray _ _ _ _ | Unsupported => None
  | o => Some (copy l o)
  end.
Definition with_views (l : nat) (o : object) : option object :=
  match o with DataView _ _ _ | TypedArray _ _ _ _ => Some (copy l o) | o => allocated l o end.
End Copy.

Section Traversal.
Context (h : heap).
Hypothesis h_ok : heap_ok h.

(** The encoder between two calls: every number has a node, every buffer an entry. *)
Record enc_ok (s : encoder) : Prop := {
  e_len : length (nodes s) = length (references s);
  e_nodup : NoDup (references s);
  e_bound : Forall (fun l => (l < length h)%nat) (references s);
  e_keys : jmap_ok (backingBuffers s);
  e_backing : forall l i vs, jmap_get (backingBuffers s) l = Some (i, vs) -> references s !! i = Some l /\ is_array_buffer h l = true;
  e_has : forall l, l ∈ references s -> is_array_buffer h l = true -> is_Some (jmap_get (backingBuffers s) l);
  e_views : forall b lv j, (lv, j) ∈ views_of s b -> references s !! j = Some lv;
  e_views_nodup : forall b, NoDup (views_of s b)
}.

(** An object that got its number between two states. *)
Definition new_object (s s' : encoder) (i l : nat) (o : object) : Prop :=
  (length (references s) <= i)%nat /\ references s' !! i = Some l /\ h !! l = Some o.

(** What encoding the values [rs] does to the encoder: new objects get numbers, all of them are
    reached from [rs], and their nodes are complete; a view is noted for its buffer; a buffer that
    a value of [ds] or a property refers to is explicit. *)
Record extends (ds rs : list value) (s s' : encoder) : Prop := {
  x_refs : exists new, references s' = references s ++ new;
  x_old : forall i, (i < length (references s))%nat -> nodes s' !! i = nodes s !! i;
  x_new : forall i l o, new_object s s' i l o -> nodes s' !! i = Some (node_of (references s') o) /\ known_object (references s') o;
  x_views : forall b lv j, (lv, j) ∈ views_of s' b <->
    (lv, j) ∈ views_of s b \/ exists o, new_object s s' j lv o /\ buffer_of o = Some b;
  x_reached : forall i l o, new_object s s' i l o -> reaches h rs l;
  x_explicit : forall b, b ∈ explicitBuffers s' <->
    b ∈ explicitBuffers s \/
    is_array_buffer h b = true /\ (Object b ∈ ds \/ exists i l o, new_object s s' i l o /\ Object b ∈ children o)
}.

Lemma extends_refl rs s : extends [] rs s s.
Proof.
  assert (forall i l o, ~ new_object s s i l o) as Hno.
  { intros i l o (Hi & Hl & _). apply lookup_lt_Some in Hl. lia. }
  constructor.
  - exists []. by rewrite app_nil_r.
  - done.
  - intros i l o H. by apply Hno in H.
  - intros b lv j. split; [by left|]. intros [?|(o & Ho & _)]; [done | by apply Hno in Ho].
  - intros i l o H. by apply Hno in H.
  - intros b. split; [by left|]. intros [?|[_ [H|(i & l & o & Ho & _)]]]; [done | by apply elem_of_nil in H | by apply Hno in Ho].
Qed.

Lemma extends_new ds1 ds2 rs1 rs2 s s1 s2 i l o : extends ds1 rs1 s s1 -> extends ds2 rs2 s1 s2 ->
  new_object s s2 i l o <-> new_object s s1 i l o \/ new_object s1 s2 i l o.
Proof.
  intros [[n1 E1] _ _ _ _ _] [[n2 E2] _ _ _ _ _]. unfold new_object. rewrite E2, E1. split.
  - intros (Hi & Hl & Ho). destruct (decide (i < length (references s ++ n1))%nat) as [Hlt|Hge].
    + left. rewrite lookup_app_l in Hl by done. done.
    + right. split; [lia | done].
  - intros [(Hi & Hl & Ho)|(Hi & Hl & Ho)].
    + split; [done|]. split; [by apply lookup_app_l_Some | done].
    + split; [rewrite length_app in Hi; lia | done].
Qed.

Lemma extends_trans ds1 ds2 rs1 rs2 s s1 s2 : extends ds1 rs1 s s1 -> extends ds2 rs2 s1 s2 -> extends (ds1 ++ ds2) (rs1 ++ rs2) s s2.
Proof.
  intros X1 X2.
  assert (forall i l o, new_object s s2 i l o <-> new_object s s1 i l o \/ new_object s1 s2 i l o) as Hnew
    by (intros i l o; exact (extends_new ds1 ds2 rs1 rs2 s s1 s2 i l o X1 X2)).
  destruct X1 as [[n1 E1] O1 N1 V1 R1 P1], X2 as [[n2 E2] O2 N2 V2 R2 P2]. constructor.
  - exists (n1 ++ n2). by rewrite E2, E1, app_assoc.
  - intros i Hi. rewrite O2 by (rewrite E1, length_app; lia). by apply O1.
  - intros i l o H. apply Hnew in H as [H|H]; [|by apply (N2 i l o)]. destruct (N1 i l o H) as [Hn Hk]. destruct H as (_ & Hl & _).
    rewrite E2. destruct (nodes_app _ n2 o Hk) as [Hk2 ->]. split; [|done].
    rewrite O2; [done|]. by apply lookup_lt_Some in Hl.
  - intros b lv j. rewrite V2, V1. split; [intros [[?|(o & Ho & Hb)]|(o & Ho & Hb)] | intros [?|(o & Ho & Hb)]].
    + by left.
    + right. exists o. split; [apply Hnew; by left | done].
    + right. exists o. split; [apply Hnew; by right | done].
    + by left; left.
    + apply Hnew in Ho as [Ho|Ho]; [left; right | right]; eauto.
  - intros i l o H. apply Hnew in H as [H|H]; [apply R1 in H | apply R2 in H]; revert H; apply reaches_mono; intros l' Hl'; apply reach_root, elem_of_app; tauto.
  - intros b. rewrite P2, P1. rewrite elem_of_app. split.
    + intros [[?|[Hb [?|(i & l & o & H & Ho)]]]|[Hb [?|(i & l & o & H & Ho)]]]; [tauto | tauto | | tauto |];
        right; (split; [done|]); right; exists i, l, o; (split; [apply Hnew; tauto | done]).
    + intros [?|[Hb [[?|?]|(i & l & o & H & Ho)]]]; [tauto.. |]. apply Hnew in H as [H|H]; [left; right|right]; (split; [done|]); right; exists i, l, o; auto.
Qed.

Lemma extends_length ds rs s s' : extends ds rs s s' -> (length (references s) <= length (references s'))%nat.
Proof. intros [[n E] _ _ _ _ _]. rewrite E, length_app. lia. Qed.

Lemma extends_known ds rs s s' v : extends ds rs s s' -> known (references s) v -> known (references s') v /\ token (references s') v = token (references s) v.
Proof. intros [[n E] _ _ _ _ _] Hk. rewrite E. by apply known_app. Qed.

Lemma extends_weaken ds ds' rs s s' :
  (forall b, is_array_buffer h b = true -> Object b ∈ ds <-> Object b ∈ ds') -> extends ds rs s s' -> extends ds' rs s s'.
Proof.
  intros Hds [R O N V Re P]. constructor; try done. intros b. rewrite P. pose proof (Hds b). tauto.
Qed.

Lemma mark_ok l s : enc_ok s -> enc_ok (mark_explicit l s).
Proof. intros []. by constructor. Qed.

Lemma mark_extends l s : is_array_buffer h l = true -> extends [Object l] [] s (mark_explicit l s).
Proof.
  intros Hl. destruct (extends_refl [] s) as [R O N V Re P]. constructor; try done. intros b. cbn [explicitBuffers mark_explicit].
  specialize (P b). rewrite list.elem_of_nil in P.
  change (exists i l' o, new_object s (mark_explicit l s) i l' o /\ Object b ∈ children o) with (exists i l' o, new_object s s i l' o /\ Object b ∈ children o).
  rewrite elem_of_app, !list_elem_of_singleton.
  assert (b = l <-> is_array_buffer h b = true /\ Object b = Object l) as -> by (split; [by intros -> | by intros [_ [= ->]]]). tauto.
Qed.

Lemma add_reference_ok l s : enc_ok s -> l ∉ references s -> (l < length h)%nat -> is_array_buffer h l = false -> enc_ok (add_reference l s).
Proof.
  intros [Hl Hn Hb Hk Hba Hh Hv Hvn] Hnew Hlt Hnb. constructor; cbn [nodes references add_reference]; try done.
  - rewrite !length_app, Hl. done.
  - apply list.NoDup_app. split; [done|]. split; [|apply NoDup_singleton]. intros x Hx ->%list_elem_of_singleton. done.
  - apply Forall_app. split; [done|]. by apply list.Forall_singleton.
  - intros l' i vs H. destruct (Hba l' i vs H). split; [by apply lookup_app_l_Some | done].
  - intros l' [H| ->%list_elem_of_singleton]%elem_of_app Hl'; [by apply Hh | congruence].
  - intros b lv j H. apply lookup_app_l_Some. by apply (Hv b).
Qed.

(** An object whose children are encoded, and that is noted for its buffer if it is a view. *)
Lemma object_done l o ds rs s s2 s3 :
  enc_ok s -> l ∉ references s -> h !! l = Some o -> length (nodes s2) = length (references s2) ->
  extends ds rs (add_reference l s) s2 ->
  (forall b, Object b ∈ children o <-> Object b ∈ ds) -> (forall b, Object b ∈ rs -> Object b ∈ children o \/ buffer_of o = Some b) ->
  known_object (references s2) o ->
  nodes s3 = nodes s2 -> references s3 = references s2 -> explicitBuffers s3 = explicitBuffers s2 ->
  (forall b p, p ∈ views_of s3 b <-> p ∈ views_of s2 b \/ p = (l, length (nodes s)) /\ buffer_of o = Some b) ->
  extends [] [Object l] s (set_node (length (nodes s)) (node_of (references s2) o) s3).
Proof.
  intros Hs Hnew Ho Hlen2 [[n1 E1] O1 N1 V1 R1 P1] Hds Hrs Hk En Er Ee Ev. cbn [references add_reference] in *.
  pose proof (e_len s Hs) as Hlen. rewrite <- app_assoc in E1. cbn [app] in E1.
  assert (forall i l' o', new_object s s3 i l' o' <-> (i = length (nodes s) /\ l' = l /\ o' = o) \/ new_object (add_reference l s) s2 i l' o') as Hobj.
  { intros i l' o'. unfold new_object. cbn [references add_reference]. rewrite Er, E1, length_app. cbn [length]. split.
    - intros (Hi & Hl & Ho'). destruct (decide (i = length (references s))) as [->|Hne].
      + rewrite lookup_app_r in Hl by lia. rewrite Nat.sub_diag in Hl. injection Hl as <-. left. rewrite Hlen. split; [done|]. split; [done|]. congruence.
      + right. split; [lia | done].
    - intros [(-> & -> & ->)|(Hi & Hl & Ho')]; [|split; [lia | done]]. rewrite Hlen. split; [lia|]. split; [|done].
      rewrite lookup_app_r by lia. by rewrite Nat.sub_diag. }
  assert (forall i l' o', new_object s (set_node (length (nodes s)) (node_of (references s2) o) s3) i l' o' <-> new_object s s3 i l' o') as Hset by done.
  assert (length (references s) < length (references s2))%nat as Hlt by (rewrite E1, length_app; cbn; lia).
  constructor; cbn [nodes references explicitBuffers set_node].
  - exists (l :: n1). by rewrite Er.
  - intros i Hi. rewrite list_lookup_insert_ne by lia. rewrite En, O1 by (rewrite length_app; lia). cbn [nodes add_reference].
    rewrite lookup_app_l by lia. done.
  - intros i l' o' H. apply Hset, Hobj in H as [(-> & -> & ->)|H].
    + rewrite list_lookup_insert_eq by (rewrite En; lia). rewrite Er. done.
    + rewrite list_lookup_insert_ne. { rewrite En, Er. by apply N1 with l'. }
      destruct H as (Hi & _ & _). cbn [references add_reference] in Hi. rewrite length_app in Hi. cbn in Hi. lia.
  - intros b lv j. change (views_of (set_node (length (nodes s)) (node_of (references s2) o) s3) b) with (views_of s3 b). rewrite Ev, V1.
    change (views_of (add_reference l s) b) with (views_of s b). split.
    + intros [[?|(o' & H & Hb)]|[[= -> ->] Hb]]; [by left | right; exists o'; (split; [|done]); apply Hset, Hobj; by right|].
      right. exists o. split; [|done]. apply Hset, Hobj. by left.
    + intros [?|(o' & H & Hb)]; [by left; left|]. apply Hset, Hobj in H as [(-> & -> & ->)|H]; [by right | left; right; eauto].
  - intros i l' o' H. assert (reaches h [Object l] l) as Hroot by (apply reach_root; by left).
    apply Hset, Hobj in H as [(-> & -> & ->)|H]; [done|]. apply R1 in H. revert H. apply reaches_mono. intros b Hb.
    apply (reach_child h _ l o b Hroot Ho). by apply Hrs.
  - intros b. rewrite Ee, P1. cbn [explicitBuffers add_reference]. split.
    + intros [?|[Hb [H|(i & l' & o' & H & Hc)]]]; [by left | |]; right; (split; [done|]); right.
      * exists (length (nodes s)), l, o. split; [apply Hset, Hobj; by left | by apply Hds].
      * exists i, l', o'. split; [apply Hset, Hobj; by right | done].
    + intros [?|[Hb [H|(i & l' & o' & H & Hc)]]]; [by left | by apply elem_of_nil in H|]. right. split; [done|].
      apply Hset, Hobj in H as [(-> & -> & ->)|H]; [left; by apply Hds | right; by exists i, l', o'].
Qed.

(** What the encoder of one value is expected to do. *)
Definition encoded (v : value) (ds : list value) (s : encoder) (r : run (json * encoder)) : Prop :=
  exists s', r = Some (Ok (token (references s') v, s')) /\ enc_ok s' /\ extends ds [v] s s' /\ known (references s') v.

Section Children.
Context (enc : value -> bool -> encoder -> run (json * encoder)) (size : nat).
Hypothesis enc_spec : forall v s, enc_ok s -> value_ok h v -> (size <= length (references s))%nat -> encoded v [v] s (enc v false s).

Lemma encode_values_ok vs s :
  enc_ok s -> Forall (value_ok h) vs -> (size <= length (references s))%nat ->
  exists s', encode_values enc vs s = Some (Ok (map (token (references s')) vs, s')) /\ enc_ok s' /\ extends vs vs s s' /\ Forall (known (references s')) vs.
Proof.
  intros Hs Hvs. revert s Hs. induction Hvs as [|v vs Hv Hvs IH]; intros s Hs Hsize; cbn [encode_values].
  { exists s. split; [done|]. split; [done|]. split; [apply extends_refl | done]. }
  destruct (enc_spec v s Hs Hv Hsize) as (s1 & E1 & Hs1 & X1 & K1). rewrite E1. cbn [bind_run].
  pose proof (extends_length _ _ _ _ X1).
  destruct (IH s1 Hs1 ltac:(lia)) as (s2 & E2 & Hs2 & X2 & K2). rewrite E2. cbn [bind_run].
  destruct (extends_known _ _ _ _ v X2 K1) as [K1' T1]. exists s2. cbn [map]. rewrite T1.
  split; [done|]. split; [done|]. split; [exact (extends_trans _ _ _ _ _ _ _ X1 X2) | by constructor].
Qed.

Lemma encode_properties_ok props s :
  enc_ok s -> Forall (value_ok h) (map snd props) -> (size <= length (references s))%nat ->
  exists s', encode_properties enc props s = Some (Ok (property_nodes (references s') props, s')) /\ enc_ok s' /\
    extends (map snd props) (map snd props) s s' /\ Forall (known (references s')) (map snd props).
Proof.
  revert s. induction props as [|[k v] props IH]; intros s Hs Hvs Hsize; cbn [encode_properties map snd] in *.
  { exists s. split; [done|]. split; [done|]. split; [apply extends_refl | done]. }
  apply list.Forall_cons_1 in Hvs as [Hv Hvs].
  destruct (enc_spec v s Hs Hv Hsize) as (s1 & E1 & Hs1 & X1 & K1). rewrite E1. cbn [bind_run].
  pose proof (extends_length _ _ _ _ X1).
  destruct (IH s1 Hs1 Hvs ltac:(lia)) as (s2 & E2 & Hs2 & X2 & K2). rewrite E2. cbn [bind_run].
  destruct (extends_known _ _ _ _ v X2 K1) as [K1' T1]. exists s2. unfold property_nodes. cbn [map fst snd]. rewrite T1.
  split; [done|]. split; [done|]. split; [exact (extends_trans _ _ _ _ _ _ _ X1 X2) | by constructor].
Qed.

Lemma encode_entries_ok entries s :
  enc_ok s -> Forall (value_ok h) (children (MapObj entries)) -> (size <= length (references s))%nat ->
  exists s', encode_entries enc entries s = Some (Ok (map (fun e => JArr [token (references s') (fst e); token (references s') (snd e)]) entries, s')) /\
    enc_ok s' /\ extends (children (MapObj entries)) (children (MapObj entries)) s s' /\ Forall (known (references s')) (children (MapObj entries)).
Proof.
  revert s. induction entries as [|[k v] entries IH]; intros s Hs Hvs Hsize; cbn [encode_entries children map fst snd concat app] in *.
  { exists s. split; [done|]. split; [done|]. split; [apply extends_refl | done]. }
  apply list.Forall_cons_1 in Hvs as [Hk Hvs]. apply list.Forall_cons_1 in Hvs as [Hv Hvs].
  destruct (enc_spec k s Hs Hk Hsize) as (s1 & E1 & Hs1 & X1 & K1). rewrite E1. cbn [bind_run]. pose proof (extends_length _ _ _ _ X1).
  destruct (enc_spec v s1 Hs1 Hv ltac:(lia)) as (s2 & E2 & Hs2 & X2 & K2). rewrite E2. cbn [bind_run]. pose proof (extends_length _ _ _ _ X2).
  destruct (IH s2 Hs2 Hvs ltac:(lia)) as (s3 & E3 & Hs3 & X3 & K3). rewrite E3. cbn [bind_run].
  destruct (extends_known _ _ _ _ v X3 K2) as [K2' T2].
  pose proof (extends_trans _ _ _ _ _ _ _ X2 X3) as X23. destruct (extends_known _ _ _ _ k X23 K1) as [K1' T1]. exists s3. rewrite T1, T2.
  split; [done|]. split; [done|]. split; [exact (extends_trans _ _ _ _ _ _ _ X1 X23) | by constructor; [|constructor]].
Qed.
End Children.

(** The objects other than buffers and views. *)
Definition composite (o : object) : bool :=
  match o with ArrayBuf _ | DataView _ _ _ | TypedArray _ _ _ _ | Unsupported => false | _ => true end.

Lemma encode_object_ok enc size l index o s :
  (forall v s, enc_ok s -> value_ok h v -> (size <= length (references s))%nat -> encoded v [v] s (enc v false s)) ->
  enc_ok s -> h !! l = Some o -> composite o = true -> (size <= length (references s))%nat ->
  exists s', encode_object h enc l index s = Some (Ok (node_of (references s') o, s')) /\ enc_ok s' /\ extends (children o) (children o) s s' /\
    known_object (references s') o.
Proof.
  intros Henc Hs Ho Hc Hsize. assert (object_ok h o) as [Hvs _] by (by apply (Forall_lookup_1 _ _ _ _ h_ok Ho)).
  unfold encode_object, known_object. rewrite Ho. destruct o; try discriminate Hc; cbn [children node_of] in Hvs |- *.
  - destruct (encode_properties_ok enc size Henc props s Hs Hvs Hsize) as (s' & E & ? & ? & ?). rewrite E. cbn [bind_run]. exists s'. do 3 (split; [done|]). by split; [|intros b [=]].
  - destruct (encode_properties_ok enc size Henc props s Hs Hvs Hsize) as (s' & E & ? & ? & ?). rewrite E. cbn [bind_run]. exists s'. do 3 (split; [done|]). by split; [|intros b [=]].
  - destruct (encode_entries_ok enc size Henc entries s Hs Hvs Hsize) as (s' & E & ? & ? & ?). rewrite E. cbn [bind_run]. exists s'. do 3 (split; [done|]). by split; [|intros b [=]].
  - destruct (encode_values_ok enc size Henc entries s Hs Hvs Hsize) as (s' & E & ? & ? & ?). rewrite E. cbn [bind_run]. exists s'. do 3 (split; [done|]). by split; [|intros b [=]].
  - exists s. do 2 (split; [done|]). split; [apply extends_refl|]. by split; [|intros b [=]].
  - exists s. do 2 (split; [done|]). split; [apply extends_refl|]. by split; [|intros b [=]].
  - destruct (encode_properties_ok enc size Henc _ s Hs Hvs Hsize) as (s' & E & ? & ? & ?). rewrite E. cbn [bind_run]. exists s'. do 3 (split; [done|]). by split; [|intros b [=]].
  - exists s. do 2 (split; [done|]). split; [apply extends_refl|]. by split; [|intros b [=]].
Qed.

Lemma views_of_set b e s b' : views_of (set_backing b e s) b' = if decide (b = b') then snd e else views_of s b'.
Proof.
  unfold views_of, set_backing. cbn [backingBuffers]. rewrite jmap_get_set. destruct e as [i vs]. by case_decide.
Qed.

Lemma array_buffer_case l : is_array_buffer h l = true <-> exists bytes, h !! l = Some (ArrayBuf bytes).
Proof. unfold is_array_buffer. destruct (h !! l) as [[]|]; naive_solver. Qed.

Lemma set_backing_ok b i vs s :
  enc_ok s -> references s !! i = Some b -> is_array_buffer h b = true -> (forall lv j, (lv, j) ∈ vs -> references s !! j = Some lv) ->
  NoDup vs -> enc_ok (set_backing b (i, vs) s).
Proof.
  intros [Hl Hn Hb Hk Hba Hh Hv Hvn] Hi Hab Hvs Hnd. constructor; try done; cbn [references set_backing backingBuffers].
  - by apply jmap_ok_set.
  - intros l j us. rewrite jmap_get_set. case_decide; [intros [= <- <-]; by subst | by apply Hba].
  - intros l Hin Hl'. rewrite jmap_get_set. case_decide; [done | by apply Hh].
  - intros b' lv j. rewrite views_of_set. case_decide; [by apply Hvs | by apply Hv].
  - intros b'. rewrite views_of_set. by case_decide.
Qed.

(** The entry of a buffer that just got its number. *)
Lemma new_buffer_ok l s : enc_ok s -> l ∉ references s -> is_array_buffer h l = true -> jmap_get (backingBuffers s) l = None ->
  enc_ok (set_backing l (length (nodes s), []) (add_reference l s)).
Proof.
  intros [Hl Hn Hb Hk Hba Hh Hv Hvn] Hnew Hab Hnone. constructor; cbn [nodes references backingBuffers add_reference set_backing].
  - by rewrite !length_app, Hl.
  - apply list.NoDup_app. split; [done|]. split; [|apply NoDup_singleton]. intros x Hx ->%list_elem_of_singleton. done.
  - apply Forall_app. split; [done|]. apply list.Forall_singleton. apply array_buffer_case in Hab as [bytes H]. by apply lookup_lt_Some in H.
  - by apply jmap_ok_set.
  - intros l' j us. rewrite jmap_get_set. case_decide as E.
    + intros [= <- <-]. subst l'. split; [|done]. rewrite lookup_app_r by lia. by rewrite Hl, Nat.sub_diag.
    + intros H. destruct (Hba _ _ _ H). split; [by apply lookup_app_l_Some | done].
  - intros l' [H| ->%list_elem_of_singleton]%elem_of_app Hl'; rewrite jmap_get_set; case_decide; try done. by apply Hh.
  - intros b lv j. rewrite views_of_set. case_decide; [by intros ?%elem_of_nil|]. intros Hin. apply lookup_app_l_Some. by apply (Hv b).
  - intros b. rewrite views_of_set. case_decide; [apply NoDup_nil_2 | apply Hvn].
Qed.

Lemma set_node_ok i n s : enc_ok s -> enc_ok (set_node i n s).
Proof. intros []. constructor; try done. cbn [nodes references set_node]. by rewrite length_insert. Qed.

Lemma backing_none l s : enc_ok s -> l ∉ references s -> jmap_get (backingBuffers s) l = None.
Proof.
  intros Hs Hl. destruct (jmap_get (backingBuffers s) l) as [[i vs]|] eqn:E; [|done]. exfalso. apply Hl.
  destruct (e_backing s Hs _ _ _ E) as [H _]. by apply list_elem_of_lookup_2 in H.
Qed.

Lemma reference_at l ds rs s s2 : enc_ok s -> extends ds rs (add_reference l s) s2 -> references s2 !! length (nodes s) = Some l.
Proof.
  intros Hs X. destruct (x_refs _ _ _ _ X) as [n ->]. apply lookup_app_l_Some. cbn [references add_reference]. rewrite (e_len s Hs).
  rewrite lookup_app_r by lia. by rewrite Nat.sub_diag.
Qed.

Lemma encode_view_ok enc l o buf s :
  enc_ok s -> l ∉ references s -> h !! l = Some o -> buffer_of o = Some buf ->
  encoded (Object buf) [] (add_reference l s) (enc (Object buf) true (add_reference l s)) ->
  exists s3, encode_object h enc l (length (nodes s)) (add_reference l s) = Some (Ok (node_of (references s3) o, s3)) /\ enc_ok s3 /\
    extends [] [Object l] s (set_node (length (nodes s)) (node_of (references s3) o) s3) /\ references s3 !! length (nodes s) = Some l.
Proof.
  intros Hs Hnew Ho Hbuf (s2 & E & Hs2 & X & Hin). cbn [known token] in Hin, E.
  assert (object_ok h o) as [_ Hobj] by (by apply (Forall_lookup_1 _ _ _ _ h_ok Ho)).
  assert (is_array_buffer h buf = true) as Hab.
  { apply array_buffer_case. destruct o; try discriminate Hbuf; injection Hbuf as ->.
    - destruct Hobj as (bytes & ? & _). by exists bytes.
    - destruct Hobj as (_ & bytes & ? & _). by exists bytes. }
  destruct (e_has s2 Hs2 buf Hin Hab) as [[i vs] Hget].
  pose proof (e_len s Hs) as Hlen.
  set (s3 := set_backing buf (i, vs ++ [(l, length (nodes s))]) s2).
  assert (push_view buf l (length (nodes s)) s2 = Some (Ok s3)) as Hpush by (unfold push_view; by rewrite Hget).
  assert (views_of s2 buf = vs) as Hvs by (unfold views_of; by rewrite Hget).
  pose proof (reference_at l _ _ s s2 Hs X) as Hat.
  assert ((l, length (nodes s)) ∉ vs) as Hfresh.
  { rewrite <- Hvs. intros [H|(o' & (Hi & _) & _)]%(x_views _ _ _ _ X).
    - apply (e_views s Hs) in H. apply lookup_lt_Some in H. lia.
    - cbn [references add_reference] in Hi. rewrite length_app in Hi. cbn in Hi. lia. }
  assert (enc_ok s3) as Hs3.
  { destruct (e_backing s2 Hs2 _ _ _ Hget) as [Hri _]. apply set_backing_ok; try done.
    - intros lv j [H|H%list_elem_of_singleton]%elem_of_app; [apply (e_views s2 Hs2 buf); by rewrite Hvs | by injection H as -> ->].
    - apply list.NoDup_app. split; [rewrite <- Hvs; apply (e_views_nodup s2 Hs2)|]. split; [|apply NoDup_singleton]. by intros x Hx ->%list_elem_of_singleton. }
  assert (known_object (references s2) o) as Hk.
  { split; [|intros b Hb; congruence]. destruct o; try discriminate Hbuf; apply list.Forall_nil_2. }
  assert (children o = []) as Hch by (by destruct o).
  exists s3. change (references s3) with (references s2). split; [|split; [done|]; split; [|done]].
  - unfold encode_object. rewrite Ho. destruct o; try discriminate Hbuf; injection Hbuf as ->.
    + rewrite E. cbn [bind_run]. rewrite Hpush. done.
    + destruct Hobj as [Hne _]. destruct type; try (rewrite E; cbn [bind_run]; rewrite Hpush; done). done.
  - apply (object_done l o [] [Object buf] s s2 s3); try done.
    + apply (e_len s2 Hs2).
    + by rewrite Hch.
    + intros b [= ->]%list_elem_of_singleton. by right.
    + intros b p. unfold s3. rewrite views_of_set, Hbuf. cbn [snd]. case_decide as Hd.
      * subst b. rewrite Hvs, elem_of_app, list_elem_of_singleton. naive_solver.
      * split; [by left | intros [?|[_ [= ->]]]; done].
Qed.

Lemma encoded_mark l fv s r :
  encoded (Object l) [] (if is_array_buffer h l && negb fv then mark_explicit l s else s) r -> encoded (Object l) (if fv then [] else [Object l]) s r.
Proof.
  intros (s' & E & Hs' & X & K). exists s'. split; [done|]. split; [done|]. split; [|done]. destruct (is_array_buffer h l) eqn:Hl, fv; try exact X.
  - cbn [andb negb] in X. exact (extends_trans [Object l] [] [] [Object l] _ _ _ (mark_extends l s Hl) X).
  - cbn [andb negb] in X. revert X. apply extends_weaken. intros b Hb. rewrite list_elem_of_singleton. split; [by intros ?%elem_of_nil | intros [= ->]; congruence].
Qed.

Lemma refs_bound l s : enc_ok s -> l ∉ references s -> (l < length h)%nat -> (length (references s) < length h)%nat.
Proof.
  intros Hs Hnew Hl. assert (NoDup (l :: references s)) as Hnd by (constructor; [done | apply (e_nodup s Hs)]).
  assert (incl (l :: references s) (seq 0 (length h))) as Hincl.
  { intros x [<-|Hx]; apply in_seq; [lia|]. pose proof (proj1 (List.Forall_forall _ _) (e_bound s Hs) x Hx). cbn in *. lia. }
  apply NoDup_ListNoDup in Hnd. pose proof (NoDup_incl_length Hnd Hincl) as H. rewrite length_seq in H. cbn in H. lia.
Qed.


Lemma encode_scalar fuel v fv s : value_ok h v -> (forall l, v <> Object l) -> encode fuel h v fv s = Some (Ok (token (references s) v, s)).
Proof. intros Hv Hno. destruct fuel, v; try done; by destruct (Hno l). Qed.

Lemma encode_unfold fuel l fv s :
  encode fuel h (Object l) fv s =
  let s := if is_array_buffer h l && negb fv then mark_explicit l s else s in
  match index_of (references s) l with
  | Some i => Some (Ok (jref i, s))
  | None =>
    match fuel with
    | O => None
    | S f =>
      let index := length (nodes s) in
      let? (node, s) := encode_object h (encode f h) l index (add_reference l s) in
      Some (Ok (jref index, set_node index node s))
    end
  end.
Proof. by destruct fuel. Qed.

(** Enough fuel: the objects that have no number yet. *)
Lemma encode_value_ok fuel v fv s :
  enc_ok s -> value_ok h v -> (length h <= fuel + length (references s))%nat ->
  (fv = true -> exists b, v = Object b /\ is_array_buffer h b = true) ->
  encoded v (if fv then [] else [v]) s (encode fuel h v fv s).
Proof.
  revert v fv s. induction fuel as [fuel IH] using lt_wf_ind; intros v fv s Hs Hv Hfuel Hfv.
  destruct (match v with Object l => Some l | _ => None end) as [l|] eqn:Hvo.
  2: { assert (forall l, v <> Object l) as Hno by (by intros l ->). exists s. rewrite encode_scalar by done. split; [done|]. split; [done|].
       split; [|by destruct v]. destruct fv; [by destruct (Hfv eq_refl) as (b & -> & _)|]. generalize (extends_refl [v] s). apply extends_weaken.
       intros b _. rewrite list_elem_of_singleton. split; [by intros ?%elem_of_nil | intros <-; by destruct (Hno b)]. }
  destruct v; try discriminate Hvo. injection Hvo as ->. cbn [value_ok] in Hv. apply encoded_mark. rewrite encode_unfold. cbv zeta.
  set (s0 := if is_array_buffer h l && negb fv then mark_explicit l s else s).
  assert (enc_ok s0 /\ references s0 = references s) as [Hs0 Hr0] by (unfold s0; case_match; [by split; [apply mark_ok|] | done]).
  clearbody s0. rewrite <- Hr0 in Hfuel. clear Hr0 Hs s. rename s0 into s, Hs0 into Hs.
  destruct (index_of (references s) l) as [i|] eqn:Hi.
  { exists s. unfold token, number_of. rewrite Hi. cbn [default]. split; [done|]. split; [done|]. split; [apply extends_refl|].
    apply index_of_some in Hi. cbn [known]. by apply list_elem_of_lookup_2 in Hi. }
  apply index_of_none in Hi as Hnew. pose proof (refs_bound l s Hs Hnew Hv). destruct fuel as [|f]; [lia|].
  assert (exists o, h !! l = Some o) as [o Ho] by (apply lookup_lt_is_Some; done).
  pose proof (e_len s Hs) as Hlen.
  assert (exists s3, encode_object h (encode f h) l (length (nodes s)) (add_reference l s) = Some (Ok (node_of (references s3) o, s3)) /\ enc_ok s3 /\
    extends [] [Object l] s (set_node (length (nodes s)) (node_of (references s3) o) s3) /\ references s3 !! length (nodes s) = Some l) as (s3 & E & Hs3 & X & Hat).
  { assert (length h <= f + length (references (add_reference l s)))%nat as Hf by (cbn [references add_reference]; rewrite length_app; cbn; lia).
    assert (object_ok h o) as [Hch Hobj] by (by apply (Forall_lookup_1 _ _ _ _ h_ok Ho)).
    destruct (composite o) eqn:Hco; [|destruct (buffer_of o) as [buf|] eqn:Hbuf].
    - assert (is_array_buffer h l = false) as Hab by (unfold is_array_buffer; rewrite Ho; by destruct o).
      pose proof (add_reference_ok l s Hs Hnew Hv Hab) as Hs1.
      destruct (encode_object_ok (encode f h) (length (references (add_reference l s))) l (length (nodes s)) o (add_reference l s)) as (s2 & E & Hs2 & X & K); try done.
      { intros v s' Hs' Hv' Hsize. apply (IH f ltac:(lia) v false s' Hs' Hv'); [lia | done]. }
      exists s2. split; [done|]. split; [done|]. split; [|by apply (reference_at l (children o) (children o))].
      apply (object_done l o (children o) (children o) s s2 s2); try done; [apply (e_len s2 Hs2) | by left |].
      intros b p. split; [by left | intros [?|[_ Hb]]; [done | by destruct o]].
    - assert (is_array_buffer h buf = true) as Hab.
      { apply array_buffer_case. destruct o; try discriminate Hbuf; injection Hbuf as ->; naive_solver. }
      assert (is_array_buffer h l = false) as Hab' by (unfold is_array_buffer; rewrite Ho; by destruct o).
      pose proof (add_reference_ok l s Hs Hnew Hv Hab') as Hs1.
      apply (encode_view_ok (encode f h) l o buf s Hs Hnew Ho Hbuf).
      apply (IH f ltac:(lia) (Object buf) true _ Hs1); [|done | intros _; by exists buf].
      cbn [value_ok]. apply array_buffer_case in Hab as [bytes Hlk]. by apply lookup_lt_Some in Hlk.
    - destruct o; try discriminate; [|done].
      assert (is_array_buffer h l = true) as Hab by (unfold is_array_buffer; by rewrite Ho).
      pose proof (backing_none l s Hs Hnew) as Hnone. pose proof (new_buffer_ok l s Hs Hnew Hab Hnone) as Hs3.
      set (s3 := set_backing l (length (nodes s), []) (add_reference l s)) in *.
      assert (forall b, views_of s3 b = views_of (add_reference l s) b) as Hviews.
      { intros b. unfold s3. rewrite views_of_set. cbn [snd]. case_decide as Hd; [subst b|done]. unfold views_of. cbn [backingBuffers add_reference]. by rewrite Hnone. }
      exists s3. split; [unfold encode_object; by rewrite Ho|]. split; [done|]. split; [|exact (reference_at l [] [] s (add_reference l s) Hs (extends_refl _ _))].
      change (references s3) with (references (add_reference l s)).
      apply (object_done l _ [] [] s (add_reference l s) s3); try done.
      + by apply (e_len _ Hs3).
      + apply extends_refl.
      + intros b Hb. by apply elem_of_nil in Hb.
      + intros b p. rewrite Hviews. cbn [buffer_of]. split; [by left | by intros [?|[_ ?]]]. }
  cbv zeta. rewrite E. cbn [bind_run]. exists (set_node (length (nodes s)) (node_of (references s3) o) s3).
  split; [|split; [by apply set_node_ok|]; split; [done|]; cbn [known references set_node]; by apply list_elem_of_lookup_2 in Hat].
  cbn [token references set_node]. by rewrite (number_of_at (references s3) (length (nodes s)) l (e_nodup s3 Hs3) Hat).
Qed.

(** ** The last loop of the encoder *)

Definition view_objects (views : list (nat * nat)) : list object := omap (fun v => h !! fst v) views.

(** The bytes of a buffer that are sent, and where they begin. *)
Definition sent (s : encoder) (b : nat) (bytes : buffer) : buffer :=
  if bool_decide (b ∈ explicitBuffers s) then bytes else compact_bytes bytes (view_objects (views_of s b)).
Definition shift (s : encoder) (b : nat) : Z :=
  if bool_decide (b ∈ explicitBuffers s) then 0
  else match h !! b with Some (ArrayBuf bytes) => compact_first bytes (view_objects (views_of s b)) | _ => 0 end.

Definition final_node (s : encoder) (l : nat) (o : object) : json :=
  match o with
  | ArrayBuf bytes => JArr [jstr "array-buffer"; JStr (b64_encode (sent s l bytes))]
  | DataView b off len => JArr [jstr "data-view"; jref (number_of (references s) b); jint (off - shift s b); jint len]
  | TypedArray t b off len =>
    JArr [jstr "typed-array"; JStr (view_name t); jref (number_of (references s) b); jint (off - shift s b); jint len]
  | o => node_of (references s) o
  end.

(** The encoder when all objects are encoded. *)
Record complete (s : encoder) : Prop := {
  c_ok : enc_ok s;
  c_nodes : forall i l o, references s !! i = Some l -> h !! l = Some o -> nodes s !! i = Some (node_of (references s) o) /\ known_object (references s) o;
  c_views : forall b lv j, (lv, j) ∈ views_of s b <-> exists o, references s !! j = Some lv /\ h !! lv = Some o /\ buffer_of o = Some b
}.

Lemma update_node_lookup i f ns j : update_node i f ns !! j = if decide (i = j) then f <$> ns !! j else ns !! j.
Proof.
  unfold update_node. destruct (ns !! i) as [n|] eqn:E; case_decide as Hd.
  - subst j. rewrite list_lookup_insert_eq by (by apply lookup_lt_Some in E). by rewrite E.
  - by rewrite list_lookup_insert_ne.
  - subst j. by rewrite E.
  - done.
Qed.

Lemma update_views_lookup f (views : list (nat * nat)) ns j : NoDup (map snd views) ->
  fold_left (fun ns v => update_node (snd v) f ns) views ns !! j = if decide (j ∈ map snd views) then f <$> ns !! j else ns !! j.
Proof.
  revert ns. induction views as [|[lv i] views IH]; intros ns Hnd; cbn [fold_left map snd] in *; [done|].
  apply list.NoDup_cons in Hnd as [Hi Hnd]. rewrite IH, update_node_lookup by done. destruct (decide (i = j)) as [->|Hne].
  - rewrite decide_False by done. by rewrite decide_True by (by left).
  - case_decide as Hj; [rewrite decide_True by (by right) | rewrite decide_False]; try done. by rewrite elem_of_cons; intros [->|?].
Qed.

(** The buffer whose entry changes the node of an object. *)
Definition backing_of (l : nat) (o : object) : option nat := match o with ArrayBuf _ => Some l | o => buffer_of o end.

Lemma view_numbers_nodup s b : complete s -> NoDup (map snd (views_of s b)).
Proof.
  intros [Hs _ _]. apply NoDup_fmap_2_strong; [|apply (e_views_nodup s Hs)]. intros [l1 j1] [l2 j2] H1 H2 E. cbn in E. subst j2.
  apply (e_views s Hs) in H1, H2. congruence.
Qed.

Lemma finish_untouched s E ns j l o : complete s -> Forall (fun e => e ∈ backingBuffers s) E ->
  references s !! j = Some l -> h !! l = Some o -> (forall e, e ∈ E -> backing_of l o <> Some (fst e)) ->
  fold_left (finish_nodes h (explicitBuffers s)) E ns !! j = ns !! j.
Proof.
  intros Hc HE Hj Ho. revert ns. induction HE as [|[b [i vs]] E He HE IH]; intros ns Hno; cbn [fold_left]; [done|].
  rewrite IH by (intros e Hin; apply Hno; by right). specialize (Hno _ (list_elem_of_here _ _)). cbn [fst] in Hno.
  apply (jmap_get_elem _ _ _ (e_keys s (c_ok s Hc))) in He.
  destruct (e_backing s (c_ok s Hc) _ _ _ He) as [Hi Hab].
  assert (views_of s b = vs) as Hvs by (unfold views_of; by rewrite He). unfold finish_nodes. destruct (h !! b) as [[]|] eqn:Hb; try done.
  assert (i <> j) as Hij.
  { intros ->. rewrite Hi in Hj. injection Hj as ->. rewrite Hb in Ho. injection Ho as <-. by apply Hno. }
  assert (j ∉ map snd vs) as Hjv.
  { rewrite <- Hvs. intros ([lv k] & Ek & H)%list_elem_of_fmap. cbn in Ek. subst k. apply (c_views s Hc) in H as (o' & Hk & Ho' & Hbo).
    rewrite Hj in Hk. injection Hk as <-. rewrite Ho in Ho'. injection Ho' as <-. apply Hno. by destruct o. }
  case_match; rewrite update_node_lookup, decide_False by done; [done|].
  rewrite update_views_lookup by (rewrite <- Hvs; by apply view_numbers_nodup). by rewrite decide_False.
Qed.

Lemma backing_entry s j l o b : complete s -> references s !! j = Some l -> h !! l = Some o -> backing_of l o = Some b ->
  exists i E1 E2, backingBuffers s = E1 ++ (b, (i, views_of s b)) :: E2 /\ references s !! i = Some b /\
    forall e, e ∈ E1 ++ E2 -> backing_of l o <> Some (fst e).
Proof.
  intros Hc Hj Ho Hb. pose proof (c_ok s Hc) as Hs. destruct (c_nodes s Hc j l o Hj Ho) as [_ [_ Hkb]].
  assert (b ∈ references s /\ is_array_buffer h b = true) as [Hin Hab].
  { assert (object_ok h o) as [_ Hobj] by (by apply (Forall_lookup_1 _ _ _ _ h_ok Ho)). destruct o; try discriminate Hb; injection Hb as ->.
    - split; [by apply list_elem_of_lookup_2 in Hj | apply array_buffer_case; by eexists].
    - split; [by apply Hkb | apply array_buffer_case; naive_solver].
    - split; [by apply Hkb | apply array_buffer_case; naive_solver]. }
  destruct (e_has s Hs b Hin Hab) as [[i vs] Hget]. destruct (e_backing s Hs _ _ _ Hget) as [Hi _].
  assert (views_of s b = vs) as -> by (unfold views_of; by rewrite Hget).
  apply (jmap_get_elem _ _ _ (e_keys s Hs)) in Hget as He. apply list_elem_of_split in He as (E1 & E2 & E).
  exists i, E1, E2. split; [done|]. split; [done|]. intros [b' x] Hin' Heq. rewrite Hb in Heq. injection Heq as <-.
  pose proof (e_keys s Hs) as Hk. unfold jmap_ok, jmap_keys in Hk. rewrite E, map_app in Hk. cbn [map fst] in Hk.
  apply list.NoDup_app in Hk as (_ & Hd1 & Hk). apply list.NoDup_cons in Hk as [Hd2 _].
  apply elem_of_app in Hin' as [H|H]; apply (list_elem_of_fmap_2 fst) in H; cbn [fst] in H; [|done].
  apply (Hd1 b H). by left.
Qed.

Lemma finish_ok s j l o : complete s -> references s !! j = Some l -> h !! l = Some o ->
  fold_left (finish_nodes h (explicitBuffers s)) (backingBuffers s) (nodes s) !! j = Some (final_node s l o).
Proof.
  intros Hc Hj Ho. destruct (c_nodes s Hc j l o Hj Ho) as [Hn Hkn]. destruct (backing_of l o) as [b|] eqn:Hb.
  2: { rewrite (finish_untouched s _ _ j l o) by (done || (apply list.Forall_forall; done) || (intros e _; by rewrite Hb)).
       rewrite Hn. by destruct o. }
  destruct (backing_entry s j l o b Hc Hj Ho Hb) as (i & E1 & E2 & E & Hi & Hno).
  assert (Forall (fun e => e ∈ backingBuffers s) E1 /\ Forall (fun e => e ∈ backingBuffers s) E2) as [HE1 HE2].
  { rewrite E. split; apply list.Forall_forall; intros e He; apply elem_of_app; [by left | right; by right]. }
  rewrite E at 1. rewrite fold_left_app. cbn [fold_left].
  rewrite (finish_untouched s E2 _ j l o) by (done || (intros e He; apply Hno; apply elem_of_app; by right)).
  set (ns := fold_left (finish_nodes h (explicitBuffers s)) E1 (nodes s)).
  assert (ns !! j = Some (node_of (references s) o)) as Hns.
  { unfold ns. rewrite (finish_untouched s E1 _ j l o) by (done || (intros e He; apply Hno; apply elem_of_app; by left)). done. }
  pose proof (e_nodup s (c_ok s Hc)) as Hnd.
  assert (object_ok h o) as [_ Hobj] by (by apply (Forall_lookup_1 _ _ _ _ h_ok Ho)).
  destruct (buffer_of o) as [b'|] eqn:Hbo.
  - assert (b' = b) as -> by (destruct o; try discriminate Hbo; injection Hbo as ->; by injection Hb as ->).
    assert (exists bytes, h !! b = Some (ArrayBuf bytes)) as [bytes Hbb] by (destruct o; try discriminate Hbo; injection Hbo as ->; naive_solver).
    assert (i <> j) as Hij by (intros ->; rewrite Hi in Hj; injection Hj as ->; rewrite Ho in Hbb; by injection Hbb as ->).
    assert (j ∈ map snd (views_of s b)) as Hjv.
    { apply list_elem_of_fmap. exists (l, j). split; [done|]. apply (c_views s Hc). by exists o. }
    assert (final_node s l o = shift_node (shift s b) (node_of (references s) o)) as -> by (destruct o; try discriminate Hbo; by injection Hbo as ->).
    unfold finish_nodes, shift. rewrite Hbb. case_bool_decide; rewrite update_node_lookup, decide_False by done.
    + rewrite Hns. f_equal. destruct o; try discriminate Hbo; cbn; by rewrite Z.sub_0_r.
    + rewrite update_views_lookup by (by apply view_numbers_nodup). rewrite decide_True by done. by rewrite Hns.
  - destruct o; try discriminate; injection Hb as ->. assert (i = j) as -> by (by apply (NoDup_lookup (references s) i j b)).
    unfold finish_nodes. rewrite Ho. unfold final_node, sent. case_bool_decide; rewrite update_node_lookup, decide_True by done.
    + by rewrite Hns.
    + rewrite update_views_lookup by (by apply view_numbers_nodup). rewrite decide_False; [by rewrite Hns|].
      intros ([lv k] & Ek & Hin)%list_elem_of_fmap. cbn in Ek. subst k. apply (c_views s Hc) in Hin as (o' & Hk & Ho' & Hbo').
      rewrite Hj in Hk. injection Hk as <-. rewrite Ho in Ho'. by injection Ho' as <-.
Qed.

(** The encoder at the end: everything reached has a number. *)
Lemma complete_end s v : enc_ok s -> extends [v] [v] new_encoder s ->
  complete s /\ (forall l, l ∈ references s -> reaches h [v] l) /\
  (forall b, b ∈ explicitBuffers s <->
     is_array_buffer h b = true /\ (v = Object b \/ exists l o, l ∈ references s /\ h !! l = Some o /\ Object b ∈ children o)).
Proof.
  intros Hs [R O N V Re P].
  assert (forall i l o, new_object new_encoder s i l o <-> references s !! i = Some l /\ h !! l = Some o) as Hnew.
  { intros i l o. unfold new_object. cbn. split; [tauto | intros []; split; [lia | done]]. }
  split; [constructor; [done | |] | split].
  - intros i l o Hi Ho. apply (N i l o). by apply Hnew.
  - intros b lv j. rewrite V. cbn. split.
    + intros [H|(o & H & Hb)]; [by apply elem_of_nil in H|]. apply Hnew in H. exists o. tauto.
    + intros (o & Hj & Ho & Hb). right. exists o. split; [by apply Hnew | done].
  - intros l [i Hi]%list_elem_of_lookup. pose proof (proj1 (list.Forall_forall _ _) (e_bound s Hs) l ltac:(by apply list_elem_of_lookup_2 in Hi)) as Hlt.
    cbn in Hlt. apply lookup_lt_is_Some in Hlt as [o Ho]. apply (Re i l o). by apply Hnew.
  - intros b. rewrite P. cbn [explicitBuffers new_encoder]. rewrite list_elem_of_singleton. split.
    + intros [H|[Hb [H|(i & l & o & H & Hc)]]]; [by apply elem_of_nil in H | by split; [|left] |]. split; [done|]. right. apply Hnew in H as [Hi Ho].
      exists l, o. split; [by apply list_elem_of_lookup_2 in Hi | done].
    + intros [Hb [H|(l & o & Hl & Ho & Hc)]]; right; (split; [done|]); [by left|]. apply list_elem_of_lookup in Hl as [i Hi].
      right. exists i, l, o. split; [by apply Hnew | done].
Qed.

(** What is known of the encoder when the message has been walked. *)
Record walked (v : value) (s : encoder) : Prop := {
  w_complete : complete s;
  w_root : known (references s) v;
  w_reached : forall l, l ∈ references s <-> reaches h [v] l;
  w_explicit : forall b, b ∈ explicitBuffers s <->
    is_array_buffer h b = true /\ named h v b
}.

Lemma reference_object s l : enc_ok s -> l ∈ references s -> exists i o, references s !! i = Some l /\ h !! l = Some o.
Proof.
  intros Hs Hl. pose proof (proj1 (list.Forall_forall _ _) (e_bound s Hs) l Hl) as Hlt. cbn in Hlt. apply lookup_lt_is_Some in Hlt as [o Ho].
  apply list_elem_of_lookup in Hl as [i Hi]. by exists i, o.
Qed.

Lemma message_walked v s : enc_ok s -> extends [v] [v] new_encoder s -> known (references s) v -> walked v s.
Proof.
  intros Hs X Hv. destruct (complete_end s v Hs X) as (Hc & Hr & He).
  assert (forall l, l ∈ references s <-> reaches h [v] l) as Hreach.
  { intros l. split; [apply Hr|]. induction 1 as [l Hl|l o l' Hl IH Ho Hch]; [apply list_elem_of_singleton in Hl; by subst v|].
    destruct (reference_object s l Hs IH) as (i & o' & Hi & Ho'). rewrite Ho in Ho'. injection Ho' as <-.
    destruct (c_nodes s Hc i l o Hi Ho) as [_ [Hk Hb]]. destruct Hch as [Hch|Hch]; [|by apply Hb].
    rewrite list.Forall_forall in Hk. apply (Hk _ Hch). }
  constructor; try done. intros b. rewrite He. unfold named. setoid_rewrite Hreach. done.
Qed.

Lemma view_object o l b : h !! l = Some o -> buffer_of o = Some b -> exists bytes, h !! b = Some (ArrayBuf bytes) /\ view_fits bytes o.
Proof.
  intros Ho Hb. assert (object_ok h o) as [_ Hobj] by (by apply (Forall_lookup_1 _ _ _ _ h_ok Ho)). destruct o; try discriminate Hb; injection Hb as ->.
  - destruct Hobj as (bytes & Hbb & ? & ? & ?). exists bytes. split; [done|]. unfold view_fits; cbn [view_offset view_bytes view_alignment].
    rewrite Z.mod_1_r. lia.
  - destruct Hobj as (_ & bytes & Hbb & ? & ? & ? & ?). exists bytes. split; [done|]. unfold view_fits; cbn [view_offset view_bytes view_alignment].
    repeat split; try done; try lia. destruct type; cbn; lia.
Qed.

(** The views on a buffer are those of the message. *)
Lemma view_objects_elem s b o : complete s ->
  o ∈ view_objects (views_of s b) <-> exists l, l ∈ references s /\ h !! l = Some o /\ buffer_of o = Some b.
Proof.
  intros Hc. unfold view_objects. rewrite list_elem_of_omap. split.
  - intros ([l j] & H & Ho). cbn in Ho. apply (c_views s Hc) in H as (o' & Hj & Ho' & Hb). exists l. split; [by apply list_elem_of_lookup_2 in Hj|].
    split; [done|]. congruence.
  - intros (l & [j Hj]%list_elem_of_lookup & Ho & Hb). exists (l, j). split; [|done]. apply (c_views s Hc). by exists o.
Qed.

Lemma views_fit s b bytes : complete s -> h !! b = Some (ArrayBuf bytes) -> Forall (view_fits bytes) (view_objects (views_of s b)).
Proof.
  intros Hc Hb. apply list.Forall_forall. intros o Ho. apply (view_objects_elem s b o Hc) in Ho as (l & _ & Ho & Hbo).
  destruct (view_object o l b Ho Hbo) as (bytes' & Hb' & Hf). congruence.
Qed.

(** A buffer that no value refers to has a view. *)
Lemma buffer_has_view v s b : walked v s -> b ∈ references s -> is_array_buffer h b = true -> b ∉ explicitBuffers s -> view_objects (views_of s b) <> [].
Proof.
  intros W Hb Hab Hne. pose proof (w_explicit v s W b) as He. apply (w_reached v s W) in Hb.
  assert (exists o, o ∈ view_objects (views_of s b)) as [o Ho]; [|by intros E; rewrite E in Ho; apply elem_of_nil in Ho].
  inversion Hb as [l Hl|l o l' Hl Ho [Hc|Hc]]; subst.
  - exfalso. apply Hne, He. split; [done|]. left. by apply list_elem_of_singleton in Hl.
  - exfalso. apply Hne, He. split; [done|]. right. by exists l, o.
  - exists o. apply (view_objects_elem s b o (w_complete v s W)). exists l. split; [by apply (w_reached v s W) | done].
Qed.

Lemma sent_spec v s b bytes : walked v s -> b ∈ references s -> h !! b = Some (ArrayBuf bytes) ->
  0 <= shift s b /\ bytes_ok (sent s b bytes) /\
  (forall l o, l ∈ references s -> h !! l = Some o -> buffer_of o = Some b ->
     shift s b <= view_offset o /\ view_offset o - shift s b + view_bytes o <= blen (sent s b bytes) /\ (view_offset o - shift s b) mod view_alignment o = 0 /\
     forall i, 0 <= i < view_bytes o -> bget (sent s b bytes) (view_offset o - shift s b + i) = bget bytes (view_offset o + i)) /\
  (b ∉ explicitBuffers s -> forall i x, bget (sent s b bytes) i = Some x -> x <> 0 ->
     exists l o, l ∈ references s /\ h !! l = Some o /\ buffer_of o = Some b /\ shows (shift s b + i) o = true /\ bget bytes (shift s b + i) = Some x).
Proof.
  intros W Hin Hb. assert (object_ok h (ArrayBuf bytes)) as [_ [Hbytes _]] by (by apply (Forall_lookup_1 _ _ _ _ h_ok Hb)).
  pose proof (w_complete v s W) as Hc. pose proof (views_fit s b bytes Hc Hb) as Hf. unfold shift, sent. rewrite Hb. case_bool_decide as Hex.
  - split; [done|]. split; [done|]. split; [|done]. intros l o Hl Ho Hbo. destruct (view_object o l b Ho Hbo) as (bytes' & Hb' & (? & ? & ? & Hal)).
    rewrite Hb in Hb'. injection Hb' as <-. rewrite Z.sub_0_r. done.
  - assert (is_array_buffer h b = true) as Hab by (apply array_buffer_case; by exists bytes).
    pose proof (buffer_has_view v s b W Hin Hab Hex) as Hne.
    destruct (compact_spec bytes _ Hne Hf) as (Hfirst & Hlen & Hviews & Hbyte).
    set (c := compact_bytes bytes (view_objects (views_of s b))) in *. set (first := compact_first bytes (view_objects (views_of s b))) in *.
    split; [lia|]. split; [|split].
    + apply Forall_lookup. intros i x Hx. assert (bget c (Z.of_nat i) = Some x) as Hg
        by (unfold bget; rewrite (proj2 (Z.ltb_ge (Z.of_nat i) 0)) by lia; by rewrite Nat2Z.id).
      apply lookup_lt_Some in Hx. rewrite Hbyte in Hg by (unfold blen; lia). case_match; [|by injection Hg as <-].
      by apply (bget_byte bytes (first + Z.of_nat i)).
    + intros l o Hl Ho Hbo. assert (o ∈ view_objects (views_of s b)) as Hov by (apply view_objects_elem; [done | by exists l]).
      destruct (Hviews o Hov) as (? & ? & Hal). destruct (proj1 (list.Forall_forall _ _) Hf o Hov) as (? & ? & ? & _).
      split; [done|]. split; [lia|]. split; [done|]. intros i Hi. rewrite Hbyte by lia.
      replace (first + (view_offset o - first + i)) with (view_offset o + i) by lia.
      rewrite (proj2 (existsb_exists _ _)); [done|]. exists o. split; [by apply list_elem_of_In|]. unfold shows. apply andb_true_iff. lia.
    + intros _ i x Hx Hx0. assert (0 <= i < blen c) as Hi.
      { unfold bget in Hx. case_if; [done|]. bool_hyps. apply lookup_lt_Some in Hx. unfold blen. lia. }
      rewrite Hbyte in Hx by done. destruct (existsb (shows (first + i)) (view_objects (views_of s b))) eqn:E; [|by injection Hx as <-].
      apply existsb_exists in E as (o & Ho & Hs). apply list_elem_of_In, (view_objects_elem s b o Hc) in Ho as (l & Hl & Ho & Hbo).
      by exists l, o.
Qed.

Lemma finish_buffers_ok v s E ns : walked v s -> Forall (fun e => e ∈ backingBuffers s) E ->
  finish_buffers h (explicitBuffers s) E ns = Some (Ok (fold_left (finish_nodes h (explicitBuffers s)) E ns)).
Proof.
  intros W HE. revert ns. induction HE as [|[b [i vs]] E He HE IH]; intros ns; cbn [finish_buffers fold_left]; [done|]. pose proof (w_complete v s W) as Hc.
  assert (negative_size h (explicitBuffers s) (b, (i, vs)) = false) as ->; [|apply IH]. unfold negative_size.
  destruct (h !! b) as [[]|] eqn:Hb; try done. case_bool_decide as Hex; [done|]. cbn [negb andb]. apply Z.ltb_ge.
  apply (jmap_get_elem _ _ _ (e_keys s (c_ok s Hc))) in He as Hget. destruct (e_backing s (c_ok s Hc) _ _ _ Hget) as [Hi Hab].
  assert (views_of s b = vs) as Hvs by (unfold views_of; by rewrite Hget). fold (view_objects vs). rewrite <- Hvs.
  destruct (compact_spec bytes (view_objects (views_of s b))) as (Hfirst & _); [|by apply views_fit|lia].
  apply (buffer_has_view v s b W); try done. by apply list_elem_of_lookup_2 in Hi.
Qed.

Lemma encode_walked v fuel : value_ok h v -> (length h <= fuel)%nat ->
  exists s, encode fuel h v false new_encoder = Some (Ok (token (references s) v, s)) /\ enc_ok s /\ walked v s.
Proof.
  intros Hv Hfuel. assert (enc_ok new_encoder) as H0.
  { constructor; cbn; try done; try apply NoDup_nil_2; try (by intros l ?%elem_of_nil); try (by intros b lv j ?%elem_of_nil).
    intros b. apply NoDup_nil_2. }
  destruct (encode_value_ok fuel v false new_encoder H0 Hv ltac:(cbn; lia) ltac:(done)) as (s & E & Hs & X & K). cbn in X.
  exists s. split; [done|]. split; [done|]. by apply message_walked.
Qed.

(** The message as it is sent. *)
Lemma encode_message v fuel : value_ok h v -> (length h <= fuel)%nat ->
  exists s ns, encodeProtocolProcessMessage fuel h v =
      Some (Ok {| codec := JStr PROTOCOL_PROCESS_IPC_CODEC; version := jint 1; root := token (references s) v; envelope_nodes := JArr ns |}) /\
    walked v s /\ length ns = length (references s) /\
    forall j l o, references s !! j = Some l -> h !! l = Some o -> ns !! j = Some (final_node s l o).
Proof.
  intros Hv Hfuel. destruct (encode_walked v fuel Hv Hfuel) as (s & E & Hs & W).
  exists s, (fold_left (finish_nodes h (explicitBuffers s)) (backingBuffers s) (nodes s)). split; [|split; [done|split]].
  - unfold encodeProtocolProcessMessage. rewrite E. cbn [bind_run]. rewrite (finish_buffers_ok v s) by (done || by apply list.Forall_forall). done.
  - rewrite <- (e_len s Hs). generalize (nodes s) (backingBuffers s). intros ns E'. revert ns. induction E' as [|[b [i vs]] E' IH]; intros ns; [done|].
    cbn [fold_left]. rewrite IH. unfold finish_nodes.
    assert (forall i f ns, length (update_node i f ns) = length ns) as Hu by (intros; unfold update_node; case_match; [apply length_insert | done]).
    assert (forall f vs ns, length (fold_left (fun ns (v : nat * nat) => update_node (snd v) f ns) vs ns) = length ns) as Huv.
    { intros f us. induction us as [|u us IHu]; intros ms; cbn [fold_left]; [done | by rewrite IHu]. }
    repeat case_match; rewrite ?Hu, ?Huv; done.
  - intros j l o Hj Ho. by apply finish_ok; [apply (w_complete v s W)|..].
Qed.

(** ** Decoding *)

Lemma for_each_ok step ns (B A : nat -> option object) :
  (forall i n vs, ns !! i = Some n -> length vs = length ns -> (forall k, (k < i)%nat -> vs !! k = Some (A k)) ->
     (forall k, (i <= k < length ns)%nat -> vs !! k = Some (B k)) -> step n vs (B i) = Ok (A i)) ->
  forall vs, length vs = length ns -> (forall k, (k < length ns)%nat -> vs !! k = Some (B k)) ->
  exists vs', for_each step ns 0 vs = Ok vs' /\ length vs' = length ns /\ forall k, (k < length ns)%nat -> vs' !! k = Some (A k).
Proof.
  intros Hstep.
  assert (forall ms i vs, drop i ns = ms -> (i <= length ns)%nat -> length vs = length ns -> (forall k, (k < i)%nat -> vs !! k = Some (A k)) ->
    (forall k, (i <= k < length ns)%nat -> vs !! k = Some (B k)) ->
    exists vs', for_each step ms i vs = Ok vs' /\ length vs' = length ns /\ forall k, (k < length ns)%nat -> vs' !! k = Some (A k)) as H.
  { induction ms as [|n ms IH]; intros i vs Hd Hi Hlen HA HB; cbn [for_each].
    - exists vs. split; [done|]. split; [done|]. intros k Hk. apply HA. apply (f_equal length) in Hd. rewrite length_drop in Hd. cbn in Hd. lia.
    - assert (ns !! i = Some n) as Hn by (rewrite <- (Nat.add_0_r i), <- lookup_drop, Hd; done). apply lookup_lt_Some in Hn as Hlt.
      rewrite (HB i) by lia. change (default None (Some (B i))) with (B i). rewrite (Hstep i n vs Hn Hlen HA HB). cbn [bind_result]. apply IH.
      + rewrite <- Nat.add_1_r, <- drop_drop, Hd. done.
      + lia.
      + by rewrite length_insert.
      + intros k Hk. destruct (decide (k = i)) as [->|Hne]; [by rewrite list_lookup_insert_eq by lia|]. rewrite list_lookup_insert_ne by done. apply HA. lia.
      + intros k Hk. rewrite list_lookup_insert_ne by lia. apply HB. lia. }
  intros vs Hlen HB. apply (H ns O vs); try done; [lia | intros k Hk; lia | intros k Hk; apply HB; lia].
Qed.

Lemma bigint_text n : bigint_of (js_number_to_string n) = Some n.
Proof.
  unfold js_number_to_string, bigint_of. case_if; bool_hyps.
  - destruct (dec_digits_correct (- n)) as (Hv & Hd & _); [lia|]. pose proof (dec_digits_nonempty (- n)). change (45 =? 45) with true.
    destruct (dec_digits (- n)) as [|c tl] eqn:Ed; [done|]. rewrite Hd, Hv. f_equal. lia.
  - destruct (dec_digits_correct n) as (Hv & Hd & _); [lia|]. pose proof (dec_digits_nonempty n). destruct (dec_digits n) as [|c tl] eqn:Ed; [done|].
    rewrite Hd, Hv. cbn [forallb] in Hd. apply andb_true_iff in Hd as [Hc _]. unfold is_digit in Hc. by destruct (Z.eqb_spec c 45); [subst c|].
Qed.

Lemma number_text_ok vs n : decode_token vs (number_token n) = Ok (Number n).
Proof. by destruct n. Qed.

Lemma safe_number n : 0 <= n <= max_safe_integer -> safe_integer (jint n) = Some n.
Proof. intros H. cbn [safe_integer jint]. unfold is_safe_integer. rewrite (proj2 (Z.leb_le _ _)), (proj2 (Z.leb_le _ _)); [done | lia | unfold max_safe_integer in *; lia]. Qed.

Lemma decode_ref vs i : Z.of_nat (length vs) <= max_safe_integer -> (exists o, vs !! i = Some (Some o)) -> decode_token vs (jref i) = Ok (Object i).
Proof.
  intros Hsafe [o Ho]. apply lookup_lt_Some in Ho as Hlt. cbn [decode_token jref jstr].
  change (bool_decide (js "ref" = js "bigint")) with false. change (bool_decide (js "ref" = js "number")) with false. change (bool_decide (js "ref" = js "ref")) with true.
  rewrite safe_number by lia. unfold defined. rewrite Nat2Z.id, Ho. rewrite (proj2 (Z.leb_le 0 _)), (proj2 (Z.ltb_lt _ _)); [done | unfold blen; lia | lia].
Qed.

Lemma decode_token_ok refs vs v : Z.of_nat (length vs) <= max_safe_integer ->
  (forall l, l ∈ refs -> exists o, vs !! number_of refs l = Some (Some o)) -> known refs v -> value_ok h v -> decode_token vs (token refs v) = Ok (rename refs v).
Proof.
  intros Hsafe Hdef Hk Hv. destruct v; cbn [token rename]; try done.
  - apply number_text_ok.
  - cbn [decode_token jstr]. change (bool_decide (js "bigint" = js "bigint")) with true. by rewrite bigint_text.
  - apply decode_ref; [done|]. by apply Hdef.
Qed.

(** The tests on the first element of a node. *)
Ltac decide_tags :=
  unfold jstr; repeat match goal with
  | |- context [bool_decide (js ?a = js ?b)] =>
    let c := eval vm_compute in (bool_decide (js a = js b)) in change (bool_decide (js a = js b)) with c
  end.

Section Decoding.
Context (v : value) (s : encoder) (ns : list json).
Hypothesis W : walked v s.
Hypothesis h_size : Z.of_nat (length h) <= max_safe_integer.
Hypothesis ns_length : length ns = length (references s).
Hypothesis ns_nodes : forall j l o, references s !! j = Some l -> h !! l = Some o -> ns !! j = Some (final_node s l o).

Let received := copy (references s) (sent s) (shift s).

(** What the [k]-th value is, for a function of objects. *)
Definition nth_object (f : nat -> object -> option object) (k : nat) : option object :=
  match references s !! k with
  | Some l => match h !! l with Some o => f l o | None => None end
  | None => None
  end.

Lemma nth_object_at f k l o : references s !! k = Some l -> h !! l = Some o -> nth_object f k = f l o.
Proof. intros Hk Ho. unfold nth_object. by rewrite Hk, Ho. Qed.

Lemma nth_node k n : ns !! k = Some n -> exists l o, references s !! k = Some l /\ h !! l = Some o /\ n = final_node s l o /\ object_ok h o.
Proof.
  intros Hn. assert (exists l, references s !! k = Some l) as [l Hl] by (apply lookup_lt_is_Some; rewrite <- ns_length; by apply lookup_lt_Some in Hn).
  destruct (reference_object s l (c_ok s (w_complete v s W))) as (_ & o & _ & Ho); [by apply list_elem_of_lookup_2 in Hl|].
  exists l, o. split; [done|]. split; [done|]. split; [|by apply (Forall_lookup_1 _ _ _ _ h_ok Ho)]. rewrite (ns_nodes k l o Hl Ho) in Hn. by injection Hn.
Qed.

Lemma references_size : Z.of_nat (length ns) <= max_safe_integer.
Proof.
  rewrite ns_length. pose proof (c_ok s (w_complete v s W)) as Hs. assert (incl (references s) (seq 0 (length h))) as Hincl.
  { intros x Hx. apply in_seq. pose proof (proj1 (List.Forall_forall _ _) (e_bound s Hs) x Hx). cbn in *. lia. }
  pose proof (e_nodup s Hs) as Hnd. apply NoDup_ListNoDup in Hnd. pose proof (NoDup_incl_length Hnd Hincl) as H. rewrite length_seq in H. lia.
Qed.

Lemma bytes_text_ok (k : string) b : bytes_ok b -> (let! j := part [jstr k; JStr (b64_encode b)] 1 in decodeBytes j) = Ok b.
Proof. intros Hb. destruct (b64_round_trip b Hb) as [Hv Hd]. cbn [part lookup list_lookup bind_result decodeBytes]. unfold decodeBytes. by rewrite Hv, Hd. Qed.

Lemma allocate_ok l o vs x : object_ok h o -> l ∈ references s -> h !! l = Some o ->
  allocate (final_node s l o) vs x = Ok (allocated (references s) (sent s) (shift s) l o).
Proof.
  intros [_ Hobj] Hl Ho. destruct o; cbn [final_node node_of allocated copy allocate jstr] in *; decide_tags; try done.
  - destruct Hobj as ([H0 H1] & _). cbn [part lookup list_lookup bind_result]. rewrite safe_number by (unfold max_safe_integer; lia).
    by rewrite (proj2 (Z.leb_le 0 len)), (proj2 (Z.leb_le len _)) by lia.
  - cbn [part lookup list_lookup bind_result]. rewrite number_text_ok. cbn [bind_result]. by rewrite Hobj.
  - by rewrite Hobj.
  - by destruct (error_stack stack props).
  - pose proof (bytes_text_ok "buffer" bytes Hobj) as E. cbn [part lookup list_lookup bind_result jstr] in *. by rewrite E.
  - destruct (sent_spec v s l bytes W Hl Ho) as (_ & Hb & _). pose proof (bytes_text_ok "array-buffer" _ Hb) as E.
    cbn [part lookup list_lookup bind_result jstr] in *. by rewrite E.
Qed.

Lemma view_type_names t : t <> OtherView -> view_type_of (view_name t) = Some t.
Proof. by destruct t. Qed.

Lemma build_view_ok l o vs : object_ok h o -> l ∈ references s -> h !! l = Some o -> Z.of_nat (length vs) <= max_safe_integer ->
  (forall b bytes, buffer_of o = Some b -> h !! b = Some (ArrayBuf bytes) -> vs !! number_of (references s) b = Some (Some (ArrayBuf (sent s b bytes)))) ->
  build_view (final_node s l o) vs (allocated (references s) (sent s) (shift s) l o) = Ok (with_views (references s) (sent s) (shift s) l o).
Proof.
  intros Hok Hl Ho Hsize Hbuf.
  destruct (buffer_of o) as [b|] eqn:Hb.
  2: { destruct o; try discriminate Hb; cbn [final_node node_of with_views build_view jstr]; decide_tags; try done. }
  destruct (view_object o l b Ho Hb) as (bytes & Hbb & (Hf0 & Hf1 & Hf2 & Hf3)).
  assert (object_ok h (ArrayBuf bytes)) as [_ [_ Hsafe]] by (by apply (Forall_lookup_1 _ _ _ _ h_ok Hbb)).
  assert (b ∈ references s) as Hbin.
  { apply (w_reached v s W). apply (reach_child h _ l o b); [by apply (w_reached v s W) | done | by right]. }
  destruct (sent_spec v s b bytes W Hbin Hbb) as (Hsh & _ & Hviews & _). destruct (Hviews l o Hl Ho Hb) as (H1 & H2 & H3 & _).
  specialize (Hbuf b bytes eq_refl Hbb). pose proof (decode_ref vs (number_of (references s) b) Hsize ltac:(by eexists)) as Href.
  assert (0 <= view_offset o - shift s b <= max_safe_integer) as Hoff by lia.
  destruct o; try discriminate Hb; injection Hb as ->; cbn [view_offset view_bytes view_alignment] in *;
    cbn [final_node with_views copy build_view jstr]; decide_tags; cbn [orb part lookup list_lookup bind_result Nat.sub Nat.add]; rewrite Href; cbn [bind_result];
    rewrite Hbuf, safe_number by lia.
  - rewrite safe_number by lia. rewrite (proj2 (Z.ltb_ge _ 0)), (proj2 (Z.ltb_ge byteLength 0)) by lia. cbn [orb].
    by rewrite (proj2 (Z.ltb_ge _ (byteOffset - shift s b))), (proj2 (Z.ltb_ge _ (byteOffset - shift s b + byteLength))) by lia.
  - destruct Hok as [_ [Hne _]]. assert (0 <= len <= max_safe_integer) as Hlen by (destruct type; cbn in *; lia).
    rewrite safe_number by lia. rewrite (proj2 (Z.ltb_ge _ 0)), (proj2 (Z.ltb_ge len 0)) by lia. cbn [orb].
    rewrite view_type_names by done. rewrite (proj2 (Z.eqb_eq _ _) H3). cbn [negb orb].
    by rewrite (proj2 (Z.ltb_ge _ (byteOffset - shift s b + len * BYTES_PER_ELEMENT type))) by lia.
Qed.

Section Fill.
Context (vs : list (option object)).
Hypothesis vs_size : Z.of_nat (length vs) <= max_safe_integer.
Hypothesis vs_defined : forall l, l ∈ references s -> exists o, vs !! number_of (references s) l = Some (Some o).

Lemma decode_properties_ok props : Forall (value_ok h) (map snd props) -> Forall (known (references s)) (map snd props) ->
  decode_properties vs (property_nodes (references s) props) = Ok (rename_properties (references s) props).
Proof.
  induction props as [|[k u] props IH]; [done|]. cbn [map snd]. intros [Hu Hus]%list.Forall_cons_1 [Hk Hks]%list.Forall_cons_1.
  cbn [property_nodes map fst snd decode_properties]. rewrite decode_token_ok by done. cbn [bind_result].
  fold (property_nodes (references s) props). by rewrite IH.
Qed.

Lemma rename_keys props : jmap_keys (rename_properties (references s) props) = jmap_keys props.
Proof. unfold jmap_keys, rename_properties. rewrite map_map. done. Qed.

(** Properties set one after the other, as [define_property] does for each kind of object. *)
Lemma define_plain ps qs : define_properties (Plain qs) ps = Ok (Plain (fold_left (fun m e => jmap_set m (fst e) (snd e)) ps qs)).
Proof. revert qs. induction ps as [|[k u] ps IH]; intros qs; [done|]. apply IH. Qed.

Lemma define_error t m st c ps qs :
  define_properties (ErrorObj t m st c qs) ps = Ok (ErrorObj t m st c (fold_left (fun m e => jmap_set m (fst e) (snd e)) ps qs)).
Proof. revert qs. induction ps as [|[k u] ps IH]; intros qs; [done|]. apply IH. Qed.

Lemma define_array len ps qs : Forall (fun e : jsstring * value => fst e <> js "length" /\ forall i, array_index (fst e) = Some i -> i < len) ps ->
  define_properties (Arr len qs) ps = Ok (Arr len (fold_left (fun m e => jmap_set m (fst e) (snd e)) ps qs)).
Proof.
  intros Hp. revert qs. induction Hp as [|[k u] ps [Hne Hi] Hp IH]; intros qs; [done|]. cbn [define_properties define_property fst] in *.
  rewrite bool_decide_eq_false_2 by done. cbn [bind_result fold_left fst snd].
  destruct (array_index k) as [i|] eqn:E; [|apply IH]. specialize (Hi i eq_refl). rewrite Z.max_l by lia. apply IH.
Qed.

Lemma set_all_fresh {K V} `{EqDecision K} (ps qs : jmap K V) : jmap_ok (qs ++ ps) -> fold_left (fun m e => jmap_set m (fst e) (snd e)) ps qs = qs ++ ps.
Proof.
  revert qs. induction ps as [|[k u] ps IH]; intros qs Hok; cbn [fold_left fst snd]; [by rewrite app_nil_r|].
  assert (jmap_get qs k = None) as Hk.
  { apply jmap_get_None. unfold jmap_ok, jmap_keys in *. rewrite map_app in Hok. apply list.NoDup_app in Hok as (_ & Hd & _). intros Hin. apply (Hd k Hin). by left. }
  rewrite jmap_set_fresh by done. rewrite IH by (by rewrite <- app_assoc). by rewrite <- app_assoc.
Qed.

Lemma rename_inj u1 u2 : known (references s) u1 -> known (references s) u2 -> rename (references s) u1 = rename (references s) u2 -> u1 = u2.
Proof.
  destruct u1, u2; cbn [rename known]; try done. intros H1 H2 [= E]. f_equal.
  destruct (number_of_in _ _ H1) as [E1 _], (number_of_in _ _ H2) as [E2 _]. rewrite E in E1. congruence.
Qed.

Lemma map_key_rename u : u <> Number NegZero -> map_key (rename (references s) u) = rename (references s) u.
Proof. destruct u as [| | | | [] | | |]; done. Qed.

Lemma decode_entries_ok entries m : Forall (value_ok h) (children (MapObj entries)) -> Forall (known (references s)) (children (MapObj entries)) ->
  Forall (fun e => fst e <> Number NegZero) entries ->
  decode_entries vs (map (fun e => JArr [token (references s) (fst e); token (references s) (snd e)]) entries) m =
  Ok (fold_left (fun m e => jmap_set m (fst e) (snd e)) (map (fun e => (rename (references s) (fst e), rename (references s) (snd e))) entries) m).
Proof.
  revert m. induction entries as [|[k u] entries IH]; intros m; [done|]. cbn [children map fst snd concat app decode_entries].
  intros [Hk [Hu Hus]%list.Forall_cons_1]%list.Forall_cons_1 [Kk [Ku Kus]%list.Forall_cons_1]%list.Forall_cons_1 [Hz Hzs]%list.Forall_cons_1.
  rewrite !decode_token_ok by done. cbn [bind_result fold_left fst snd]. rewrite map_key_rename by done. by apply IH.
Qed.

Lemma decode_values_ok entries m : Forall (value_ok h) entries -> Forall (known (references s)) entries -> Number NegZero ∉ entries ->
  NoDup (m ++ map (rename (references s)) entries) ->
  decode_values vs (map (token (references s)) entries) m = Ok (m ++ map (rename (references s)) entries).
Proof.
  revert m. induction entries as [|u entries IH]; intros m; cbn [map decode_values]; [by rewrite app_nil_r|].
  intros [Hu Hus]%list.Forall_cons_1 [Ku Kus]%list.Forall_cons_1 [Hz Hzs]%list.not_elem_of_cons Hnd.
  rewrite decode_token_ok by done. cbn [bind_result]. unfold set_add. rewrite map_key_rename by done.
  rewrite bool_decide_eq_false_2. { rewrite IH; [by rewrite <- app_assoc | done..| by rewrite <- app_assoc]. }
  apply list.NoDup_app in Hnd as (_ & Hd & _). intros Hin. apply (Hd _ Hin). by left.
Qed.

Lemma rename_nodup entries : NoDup entries -> Forall (known (references s)) entries -> NoDup (map (rename (references s)) entries).
Proof.
  intros Hn Hk. rewrite list.Forall_forall in Hk. apply NoDup_fmap_2_strong; [|done]. intros u1 u2 H1 H2. apply rename_inj; by apply Hk.
Qed.

Lemma fill_ok l o : object_ok h o -> known_object (references s) o ->
  fill (final_node s l o) vs (with_views (references s) (sent s) (shift s) l o) = Ok (Some (received l o)).
Proof.
  intros [Hch Hobj] [Hkn _]. unfold received. destruct o; cbn [final_node node_of with_views allocated copy fill jstr children] in *; decide_tags; try done;
    cbn [part lookup list_lookup defineProperties].
  - rewrite decode_properties_ok by done. cbn [bind_result]. rewrite define_plain. cbn [bind_result].
    rewrite set_all_fresh; [done|]. cbn [app]. unfold jmap_ok. by rewrite rename_keys.
  - destruct Hobj as (_ & Hok & Hidx). rewrite decode_properties_ok by done. cbn [bind_result]. rewrite define_array. 2: { apply Forall_map. exact Hidx. }
    cbn [bind_result]. rewrite set_all_fresh; [done|]. cbn [app]. unfold jmap_ok. by rewrite rename_keys.
  - destruct Hobj as [Hok Hz]. rewrite decode_entries_ok by done. cbn [bind_result]. rewrite set_all_fresh; [done|]. cbn [app].
    unfold jmap_ok, jmap_keys. rewrite map_map. cbn [fst]. rewrite <- (map_map fst (rename (references s))). apply rename_nodup; [done|].
    apply Forall_map. apply list.Forall_forall. intros [k u] Hin. rewrite list.Forall_forall in Hkn. apply Hkn. apply list_elem_of_In, in_concat.
    exists [k; u]. split; [apply list_elem_of_In in Hin; by apply (in_map (fun e => [fst e; snd e])) in Hin | by left].
  - destruct Hobj as [Hn Hz]. rewrite decode_values_ok by (done || by apply rename_nodup). done.
  - rewrite decode_properties_ok by done. cbn [bind_result]. rewrite define_error. done.
Qed.
End Fill.

Lemma known_number l : l ∈ references s -> (number_of (references s) l < length ns)%nat /\ references s !! number_of (references s) l = Some l.
Proof. intros Hl. destruct (number_of_in _ _ Hl) as [H _]. split; [rewrite ns_length; by apply lookup_lt_Some in H | done]. Qed.

Lemma decode_message : value_ok h v ->
  exists vs, decodeProtocolProcessMessage {| codec := JStr PROTOCOL_PROCESS_IPC_CODEC; version := jint 1; root := token (references s) v; envelope_nodes := JArr ns |} =
      Ok (rename (references s) v, vs) /\
    length vs = length (references s) /\
    forall k l o, references s !! k = Some l -> h !! l = Some o -> vs !! k = Some (Some (received l o)).
Proof.
  intros Hv. pose proof references_size as Hsize. pose proof (w_complete v s W) as Hc.
  set (A := nth_object (allocated (references s) (sent s) (shift s))). set (B := nth_object (with_views (references s) (sent s) (shift s))).
  set (C := nth_object (fun l o => Some (received l o))).
  assert (forall i n, ns !! i = Some n -> exists l o, references s !! i = Some l /\ l ∈ references s /\ h !! l = Some o /\ n = final_node s l o /\ object_ok h o /\
    A i = allocated (references s) (sent s) (shift s) l o /\ B i = with_views (references s) (sent s) (shift s) l o /\ C i = Some (received l o)) as Hnode.
  { intros i n Hn. destruct (nth_node i n Hn) as (l & o & Hl & Ho & -> & Hok). exists l, o. split; [done|]. split; [by apply list_elem_of_lookup_2 in Hl|].
    do 3 (split; [done|]). unfold A, B, C. by rewrite !(nth_object_at _ i l o Hl Ho). }
  destruct (for_each_ok allocate ns (fun _ => None) A) with (vs := replicate (length ns) (@None object)) as (v1 & E1 & L1 & H1).
  { intros i n vs Hn _ _ _. destruct (Hnode i n Hn) as (l & o & Hi & Hl & Ho & -> & Hok & -> & _). by apply allocate_ok. }
  { apply length_replicate. } { intros k Hk. by apply lookup_replicate. }
  destruct (for_each_ok build_view ns A B) with (vs := v1) as (v2 & E2 & L2 & H2); [|done|done|].
  { intros i n vs Hn Hlen HB HA. destruct (Hnode i n Hn) as (l & o & Hi & Hl & Ho & -> & Hok & -> & -> & _). apply build_view_ok; try done; [by rewrite Hlen|].
    intros b bytes Hb Hbb. assert (b ∈ references s) as Hbin.
    { apply (w_reached v s W). apply (reach_child h _ l o b); [by apply (w_reached v s W) | done | by right]. }
    destruct (known_number b Hbin) as [Hlt Hat].
    destruct (decide (number_of (references s) b < i)%nat) as [Hlti|Hge].
    - rewrite HB by done. f_equal. unfold B. by rewrite (nth_object_at _ _ b _ Hat Hbb).
    - rewrite HA by lia. f_equal. unfold A. by rewrite (nth_object_at _ _ b _ Hat Hbb). }
  assert (forall k, (k < length ns)%nat -> exists o1 o2, B k = Some o1 /\ C k = Some o2) as Hdef.
  { intros k [n Hn]%lookup_lt_is_Some. destruct (Hnode k n Hn) as (l & o & _ & _ & _ & _ & [_ Hok] & _ & -> & ->).
    destruct o; cbn [with_views allocated]; eauto; done. }
  destruct (for_each_ok fill ns B C) with (vs := v2) as (v3 & E3 & L3 & H3); [|done|done|].
  { intros i n vs Hn Hlen HC HB. destruct (Hnode i n Hn) as (l & o & Hi & Hl & Ho & -> & Hok & _ & -> & ->). apply fill_ok; try done; [by rewrite Hlen | |].
    - intros l' Hl'. destruct (known_number l' Hl') as [Hlt _]. destruct (Hdef _ Hlt) as (o1 & o2 & EB & EC).
      destruct (decide (number_of (references s) l' < i)%nat) as [Hlti|Hge]; [exists o2; rewrite HC by done | exists o1; rewrite HB by lia]; by f_equal.
    - by apply (c_nodes s Hc i l o). }
  exists v3. split; [|split; [by rewrite L3|]].
  - unfold decodeProtocolProcessMessage. cbn [codec version root envelope_nodes jint]. rewrite bool_decide_eq_true_2 by done. cbn [negb].
    rewrite E1. cbn [bind_result]. rewrite E2. cbn [bind_result]. rewrite E3. cbn [bind_result]. rewrite decode_token_ok; [done | by rewrite L3 | | apply (w_root v s W) | done].
    intros l Hl. destruct (known_number l Hl) as [Hlt _]. destruct (Hdef _ Hlt) as (_ & o2 & _ & EC). exists o2. rewrite H3 by done. by f_equal.
  - intros k l o Hk Ho. rewrite H3 by (rewrite ns_length; by apply lookup_lt_Some in Hk). f_equal. unfold C. by rewrite (nth_object_at _ _ l o Hk Ho).
Qed.
End Decoding.
End Traversal.


(** ** What other bytes a message sends *)

(** Two heaps that differ only in bytes of buffers that are not [named] and outside the views of the message. *)
Definition same_message (h1 h2 : heap) (message : value) : Prop :=
  length h1 = length h2 /\
  forall l o1 o2, h1 !! l = Some o1 -> h2 !! l = Some o2 ->
    o1 = o2 \/
    exists bytes1 bytes2, o1 = ArrayBuf bytes1 /\ o2 = ArrayBuf bytes2 /\ blen bytes1 = blen bytes2 /\ ~ named h1 message l /\
      forall p l' o, reaches h1 [message] l' -> h1 !! l' = Some o -> buffer_of o = Some l -> shows p o = true -> bget bytes1 p = bget bytes2 p.

Section SameMessage.
Context (h1 h2 : heap) (message : value).
Hypothesis h1_ok : heap_ok h1.
Hypothesis message_ok : value_ok h1 message.
Hypothesis same : same_message h1 h2 message.

Lemma same_object l : h1 !! l = h2 !! l \/ exists b1 b2, h1 !! l = Some (ArrayBuf b1) /\ h2 !! l = Some (ArrayBuf b2).
Proof.
  destruct same as [Hlen Hs]. destruct (h1 !! l) as [o1|] eqn:E1.
  - destruct (h2 !! l) as [o2|] eqn:E2; [|apply lookup_ge_None in E2; apply lookup_lt_Some in E1; lia].
    destruct (Hs l o1 o2 E1 E2) as [->|(b1 & b2 & -> & -> & _)]; [by left | right; by exists b1, b2].
  - destruct (h2 !! l) as [o2|] eqn:E2; [|by left]. apply lookup_ge_None in E1. apply lookup_lt_Some in E2. lia.
Qed.

Lemma encode_lists_same (e1 e2 : value -> bool -> encoder -> run (json * encoder)) : (forall u fv s, e1 u fv s = e2 u fv s) ->
  (forall props s, encode_properties e1 props s = encode_properties e2 props s) /\
  (forall entries s, encode_entries e1 entries s = encode_entries e2 entries s) /\
  (forall vs s, encode_values e1 vs s = encode_values e2 vs s).
Proof.
  intros He. split; [|split].
  - induction props as [|[k u] props IH]; intros s; [done|]. cbn [encode_properties]. rewrite He. destruct (e2 u false s) as [[[t s']|]|]; [|done..].
    cbn [bind_run]. by rewrite IH.
  - induction entries as [|[k u] entries IH]; intros s; [done|]. cbn [encode_entries]. rewrite He. destruct (e2 k false s) as [[[t s']|]|]; [|done..].
    cbn [bind_run]. rewrite He. destruct (e2 u false s') as [[[t' s'']|]|]; [|done..]. cbn [bind_run]. by rewrite IH.
  - induction vs as [|u vs IH]; intros s; [done|]. cbn [encode_values]. rewrite He. destruct (e2 u false s) as [[[t s']|]|]; [|done..].
    cbn [bind_run]. by rewrite IH.
Qed.

(** The traversal does not look at bytes. *)
Lemma encode_same fuel u fv s : encode fuel h1 u fv s = encode fuel h2 u fv s.
Proof.
  assert (forall l, is_array_buffer h1 l = is_array_buffer h2 l) as Hab
    by (intros l; unfold is_array_buffer; by destruct (same_object l) as [->|(b1 & b2 & -> & ->)]).
  revert u fv s. induction fuel as [|f IH]; intros u fv s; (destruct u; try done); rewrite !encode_unfold, Hab; cbv zeta; [done|].
  case_match; [done|]. destruct (encode_lists_same _ _ IH) as (Hp & He & Hv). unfold encode_object.
  destruct (same_object l) as [->|(b1 & b2 & -> & ->)]; [|done]. destruct (h2 !! l) as [[]|]; rewrite ?Hp, ?He, ?Hv, ?IH; try done.
Qed.

Lemma subarray_shown b1 b2 o : blen b1 = blen b2 -> 0 <= view_offset o -> (forall p, shows p o = true -> bget b1 p = bget b2 p) ->
  subarray b1 (view_offset o) (view_offset o + view_bytes o) = subarray b2 (view_offset o) (view_offset o + view_bytes o).
Proof.
  intros Hlen Ho Hb. apply list_eq. intros i. pose proof (bget_subarray b1 (view_offset o) (view_offset o + view_bytes o) (Z.of_nat i) Ho ltac:(lia)) as H1.
  pose proof (bget_subarray b2 (view_offset o) (view_offset o + view_bytes o) (Z.of_nat i) Ho ltac:(lia)) as H2.
  assert (forall b : buffer, bget b (Z.of_nat i) = b !! i) as Hi by (intros b; unfold bget; rewrite (proj2 (Z.ltb_ge _ 0)) by lia; by rewrite Nat2Z.id).
  rewrite Hi in H1, H2. rewrite H1, H2. case_if; [|done]. bool_hyps. apply Hb. unfold shows. apply andb_true_iff. lia.
Qed.

Lemma compact_same b1 b2 objs : blen b1 = blen b2 -> Forall (fun o => 0 <= view_offset o /\ forall p, shows p o = true -> bget b1 p = bget b2 p) objs ->
  compact_bytes b1 objs = compact_bytes b2 objs /\ compact_first b1 objs = compact_first b2 objs.
Proof.
  intros Hlen Hf. assert (compact_first b1 objs = compact_first b2 objs) as E by (unfold compact_first; by rewrite Hlen). split; [|done].
  unfold compact_bytes. rewrite E. generalize (compact_first b2 objs) as first. intros first. generalize (alloc (compact_end objs - first)) as c.
  induction Hf as [|o objs [Ho Hs] _ IH]; intros c; cbn [fold_left]; [done|]. rewrite (subarray_shown b1 b2 o) by done. apply IH.
  unfold compact_first. by rewrite Hlen.
Qed.

Lemma finish_entry_same s b i vs ns : walked h1 message s -> (b, (i, vs)) ∈ backingBuffers s ->
  negative_size h1 (explicitBuffers s) (b, (i, vs)) = negative_size h2 (explicitBuffers s) (b, (i, vs)) /\
  finish_nodes h1 (explicitBuffers s) ns (b, (i, vs)) = finish_nodes h2 (explicitBuffers s) ns (b, (i, vs)).
Proof.
  intros W He. pose proof (w_complete _ _ _ W) as Hc. apply (jmap_get_elem _ _ _ (e_keys _ s (c_ok _ s Hc))) in He.
  assert (views_of s b = vs) as Hvs by (unfold views_of; by rewrite He). destruct (e_backing _ s (c_ok _ s Hc) _ _ _ He) as [Hi Hab].
  assert (omap (fun v : nat * nat => h1 !! fst v) vs = omap (fun v : nat * nat => h2 !! fst v) vs) as Hobjs.
  { assert (Forall (fun v : nat * nat => h1 !! fst v = h2 !! fst v) vs) as Hf.
    2: { clear -Hf. induction Hf as [|v vs' E _ IH]; [done|]. cbn. rewrite E. by destruct (h2 !! v.1); rewrite ?IH; f_equal. }
    apply list.Forall_forall. intros [lv j] Hv. rewrite <- Hvs in Hv. apply (c_views _ s Hc) in Hv as (o & _ & Ho & Hb). cbn [fst].
    destruct (same_object lv) as [?|(b1 & b2 & E1 & E2)]; [done|]. rewrite E1 in Ho. by injection Ho as <-. }
  destruct (proj1 (array_buffer_case h1 b) Hab) as [bytes1 Hb1].
  assert (exists bytes2, h2 !! b = Some (ArrayBuf bytes2)) as [bytes2 Hb2] by (destruct (same_object b) as [<-|(? & b2 & _ & ?)]; eauto).
  unfold negative_size, finish_nodes. rewrite Hb1, Hb2, <- Hobjs.
  destruct (proj2 same b _ _ Hb1 Hb2) as [[= ->]|(? & ? & [= <-] & [= <-] & Hlen & Hnamed & Hshow)]; [done|].
  rewrite bool_decide_eq_false_2 by (intros [_ H]%(w_explicit _ _ _ W); done). cbn [negb andb].
  destruct (compact_same bytes1 bytes2 (omap (fun v : nat * nat => h1 !! fst v) vs) Hlen) as [-> ->]; [|done].
  apply list.Forall_forall. intros o Ho. fold (view_objects h1 vs) in Ho. rewrite <- Hvs in Ho. apply (view_objects_elem h1 s b o Hc) in Ho as (l & Hl & Ho & Hbo).
  destruct (view_object h1 h1_ok o l b Ho Hbo) as (? & _ & H0 & _). split; [done|]. intros p. apply (Hshow p l o); [by apply (w_reached _ _ _ W) | done..].
Qed.
End SameMessage.

(** ** Claims *)

(** C18: A message of plain objects, arrays, maps, sets, dates, regular expressions, errors, buffers and views,
    with shared references and cycles, is encoded (in a depth of recursion of at most the number of objects) and
    decoded to a copy of the graph: exactly the objects that the message leads to get distinct numbers, the
    result refers to the number of the message's object, the object with each number is the copy of its original
    with every reference renamed, a buffer that is named arrives whole, and every view shows the bytes it showed,
    with all views on a buffer moved alike. *)
Theorem message_round_trip h message :
  heap_ok h -> value_ok h message -> Z.of_nat (length h) <= max_safe_integer ->
  exists e refs sent shift vs,
    encodeProtocolProcessMessage (length h) h message = Some (Ok e) /\
    decodeProtocolProcessMessage e = Ok (rename refs message, vs) /\
    NoDup refs /\ (forall l, l ∈ refs <-> reaches h [message] l) /\ length vs = length refs /\
    (forall k l o, refs !! k = Some l -> h !! l = Some o -> vs !! k = Some (Some (copy refs sent shift l o))) /\
    (forall b bytes, h !! b = Some (ArrayBuf bytes) -> named h message b -> sent b bytes = bytes /\ shift b = 0) /\
    (forall l o b bytes, l ∈ refs -> h !! l = Some o -> buffer_of o = Some b -> h !! b = Some (ArrayBuf bytes) ->
       0 <= shift b <= view_offset o /\
       forall i, 0 <= i < view_bytes o -> bget (sent b bytes) (view_offset o - shift b + i) = bget bytes (view_offset o + i)).
Proof.
  intros Hh Hv Hsize. destruct (encode_message h Hh message (length h) Hv (le_n _)) as (s & ns & E & W & Hlen & Hns).
  destruct (decode_message h Hh message s ns W Hsize Hlen Hns Hv) as (vs & D & Hvl & Hvs). pose proof (w_complete _ _ _ W) as Hc.
  eexists _, (references s), (sent h s), (shift h s), vs. split; [exact E|]. split; [exact D|]. split; [apply (e_nodup h s (c_ok h s Hc))|].
  split; [apply (w_reached _ _ _ W)|]. split; [done|]. split; [done|]. split.
  - intros b bytes Hb Hn. assert (b ∈ explicitBuffers s) as Hex by (apply (w_explicit _ _ _ W); split; [apply array_buffer_case; by exists bytes | done]).
    unfold sent, shift. by rewrite bool_decide_eq_true_2.
  - intros l o b bytes Hl Ho Hb Hbb. assert (b ∈ references s) as Hin.
    { apply (w_reached _ _ _ W). apply (reach_child h _ l o b); [by apply (w_reached _ _ _ W) | done | by right]. }
    destruct (sent_spec h Hh message s b bytes W Hin Hbb) as (? & _ & Hviews & _). destruct (Hviews l o Hl Ho Hb) as (? & _ & _ & ?). done.
Qed.

(** C20: A view does not give away the rest of its buffer: two heaps that differ only in bytes that are outside the
    views of the message, in buffers that the message does not name, are sent as the same text. *)
Theorem private_bytes h1 h2 message : heap_ok h1 -> value_ok h1 message -> same_message h1 h2 message ->
  encodeProtocolProcessMessage (length h1) h2 message = encodeProtocolProcessMessage (length h1) h1 message.
Proof.
  intros Hh Hv Hsame. destruct (encode_walked h1 Hh message (length h1) Hv (le_n _)) as (s & E & Hs & W).
  unfold encodeProtocolProcessMessage. rewrite <- (encode_same h1 h2 message Hsame), E. cbn [bind_run].
  assert (forall entries ns, Forall (fun e => e ∈ backingBuffers s) entries ->
    finish_buffers h2 (explicitBuffers s) entries ns = finish_buffers h1 (explicitBuffers s) entries ns) as ->; [|done | by apply list.Forall_forall].
  intros entries ns He. revert ns. induction He as [|[b [i vs]] entries He _ IH]; intros ns; cbn [finish_buffers]; [done|].
  destruct (finish_entry_same h1 h2 message Hh Hsame s b i vs ns W He) as [-> ->]. by rewrite IH.
Qed.
End Codec.

(** ** Examples *)

Module Examples.

Definition String_of (_ : value (F := Z)) : jsstring := js "[object]".
Definition date_of (v : value (F := Z)) : result (js_number (F := Z)) := match v with Number n => Ok n | _ => Throw TypeError end.

(** An object that contains itself, an array that names it, two views on the bytes 4 to 11 of a
    buffer of 16, a map and an error. *)
Definition pool : buffer := [0; 1; 2; 3; 4; 5; 6; 7; 8; 9; 10; 11; 12; 13; 14; 15].
Definition objects (bytes : buffer) : list (object (F := Z)) := [
  Plain [(js "self", Object 0); (js "list", Object 1); (js "error", Object 6)];
  Arr 4 [(js "0", Number NaN); (js "2", Object 3); (js "3", Object 4)];
  ArrayBuf bytes;
  TypedArray Uint16Array 2 4 3;
  DataView 2 9 3;
  MapObj [(Object 0, BigInt (-7)); (Str (js "k"), Undefined)];
  ErrorObj TypeErr (js "bad") (Some (js "at 1")) (Some (Object 5)) []].

Lemma objects_ok : heap_ok date_of (fun _ _ => true) (objects pool).
Proof.
  assert (forall l : list (value (F := Z)), forallb (fun v => match v with Unclonable => false | Object l => Nat.ltb l 7 | _ => true end) l = true ->
    Forall (value_ok (objects pool)) l) as Hvs.
  { intros l Hl. apply List.Forall_forall. intros v Hv. apply (proj1 (forallb_forall _ _) Hl) in Hv. destruct v; try done. by apply Nat.ltb_lt. }
  unfold heap_ok, objects. repeat (apply list.Forall_cons; split; [split; [by apply Hvs|] |]); try (apply list.Forall_nil_2).
  - by apply (bool_decide_unpack _); vm_compute.
  - split; [lia|]. split; [by apply (bool_decide_unpack _); vm_compute|].
    repeat (apply list.Forall_cons; split); try (apply list.Forall_nil_2); (split; [done|]); intros i Hi; vm_compute in Hi; injection Hi as <-; lia.
  - split; [by apply bytes_ok_check | done].
  - split; [done|]. exists pool. split; [done|]. vm_compute. repeat (apply conj); congruence.
  - exists pool. split; [done|]. vm_compute. repeat (apply conj); congruence.
  - split; [|repeat (apply list.Forall_cons; split); done]. apply list.NoDup_cons. split; [|apply NoDup_singleton].
    by intros [=]%list_elem_of_singleton.
  - apply NoDup_nil_2.
Qed.

(** The bytes of the buffer outside the two views are different. *)
Definition other_pool : buffer := [9; 9; 9; 9; 4; 5; 6; 7; 8; 9; 10; 11; 8; 8; 8; 8].

Lemma pool_not_named : ~ named (objects pool) (Object 0) 2.
Proof.
  intros [[=]|(i & o & _ & Ho & Hc)]. assert (forall o, o ∈ objects pool -> Object 2 ∉ children o) as Hno; [|by apply (Hno o); [apply list_elem_of_lookup_2 in Ho|]].
  clear. intros o Ho. assert (forallb (fun o => forallb (fun v => match v with Object 2 => false | _ => true end) (children o)) (objects pool) = true) as Hall by done.
  apply list_elem_of_In in Ho. apply (proj1 (forallb_forall _ _) Hall) in Ho. intros Hc%list_elem_of_In. by apply (proj1 (forallb_forall _ _) Ho) in Hc.
Qed.

Lemma pools_same : same_message (objects pool) (objects other_pool) (Object 0).
Proof.
  split; [done|]. intros l o1 o2 H1 H2. destruct (decide (l = 2%nat)) as [->|Hne].
  2: { left. assert (objects pool !! l = objects other_pool !! l) as E by (by do 7 (destruct l as [|l]; [done|])). congruence. }
  right. exists pool, other_pool. injection H1 as <-. injection H2 as <-. do 3 (split; [done|]).
  split; [exact pool_not_named|]. intros p l o _ Ho Hb Hp.
  assert (4 <= p < 12) as Hrange.
  { do 7 (destruct l as [|l]; [injection Ho as <-; try discriminate Hb; unfold shows in Hp; cbn in Hp; bool_hyps; lia|]). done. }
  assert (p = 4 \/ p = 5 \/ p = 6 \/ p = 7 \/ p = 8 \/ p = 9 \/ p = 10 \/ p = 11) as Hcases by lia.
  by repeat destruct Hcases as [->|Hcases]; subst.
Qed.

(** The encoded message, for an object of each kind. *)
Example sent_nodes :
  encodeProtocolProcessMessage String_of 7 (objects pool) (Object 0) = Some (Ok {|
    codec := jstr "netnexus-json-graph"; version := jint 1; root := jref 0;
    envelope_nodes := JArr [
      JArr [jstr "object"; JArr [JArr [jstr "self"; jref 0]; JArr [jstr "list"; jref 1]; JArr [jstr "error"; jref 5]]];
      JArr [jstr "array"; jint 4; JArr [JArr [jstr "0"; JArr [jstr "number"; jstr "NaN"]]; JArr [jstr "2"; jref 2]; JArr [jstr "3"; jref 4]]];
      JArr [jstr "typed-array"; jstr "Uint16Array"; jref 3; jint 0; jint 3];
      JArr [jstr "array-buffer"; jstr "BAUGBwgJCgs="];
      JArr [jstr "data-view"; jref 3; jint 5; jint 3];
      JArr [jstr "error"; jstr "TypeError"; jstr "bad"; jstr "at 1"; JArr [JArr [jstr "cause"; jref 6]]];
      JArr [jstr "map"; JArr [JArr [jref 0; JArr [jstr "bigint"; jstr "-7"]]; JArr [jstr "k"; JArr [jstr "undefined"]]]]] |}).
Proof. vm_compute. reflexivity. Qed.

Lemma message_round_trip_witness :
  heap_ok date_of (fun _ _ => true) (objects pool) /\
  exists e vs, encodeProtocolProcessMessage String_of 7 (objects pool) (Object 0) = Some (Ok e) /\
    decodeProtocolProcessMessage date_of (fun _ _ => true) e = Ok (Object 0, vs) /\
    vs !! 1%nat = Some (Some (Arr 4 [(js "0", Number NaN); (js "2", Object 2); (js "3", Object 4)])) /\
    vs !! 2%nat = Some (Some (TypedArray Uint16Array 3 0 3)) /\ vs !! 4%nat = Some (Some (DataView 3 5 3)).
Proof.
  split; [exact objects_ok|].
  pose proof (message_round_trip String_of date_of (fun _ _ => true) (objects pool) (Object 0) objects_ok ltac:(cbn; lia) ltac:(vm_compute; congruence)) as H.
  destruct H as (e & refs & sent & shift & vs & E & D & _). vm_compute in E. injection E as <-. vm_compute in D. injection D as _ <-.
  eexists _, _. split; [vm_compute; reflexivity|]. split; [vm_compute; reflexivity|]. split; [reflexivity|]. split; reflexivity.
Defined.

Lemma private_bytes_witness :
  heap_ok date_of (fun _ _ => true) (objects pool) /\ same_message (objects pool) (objects other_pool) (Object 0) /\
  encodeProtocolProcessMessage String_of 7 (objects other_pool) (Object 0) = encodeProtocolProcessMessage String_of 7 (objects pool) (Object 0).
Proof.
  split; [exact objects_ok|]. split; [exact pools_same|].
  exact (private_bytes String_of date_of (fun _ _ => true) (objects pool) (objects other_pool) (Object 0) objects_ok ltac:(cbn; lia) pools_same).
Defined.
End Examples.
