(* ===== verification/FtpSession.v ===== *)
(** FTP sessions: [electron/worker/transfer/ftpSession.js] and [ftpWorker.js].

    A session is a state with handlers for the commands of the control connection.  File
    system calls, data connections and servers are effects; each registers the callback
    that runs when it is done, and the environment runs registered callbacks in any order
    ([ftp_step]).  What a session logs with [Received command] is an effect as well, so that
    a theorem can speak of the commands that led to another effect.  Sockets and servers for
    data are numbers. *)

From stdpp Require Import base list numbers strings option.
From Stdlib Require Import ZArith Lia.
From S2P Require Import Prelude Actions NodePath JsText JsMap Utf8.

Local Open Scope Z_scope.
Local Open Scope js_scope.

(** ** Paths *)

(** [path.normalize] keeps [..] at the front of a path that is not absolute. *)
Fixpoint normalize_relative (segs acc : list jsstring) : list jsstring :=
  match segs with
  | [] => acc
  | seg :: tl =>
    if bool_decide (seg = []) || bool_decide (seg = dot_segment) then normalize_relative tl acc
    else if bool_decide (seg = dotdot_segment) then
      normalize_relative tl (if bool_decide (acc = []) || bool_decide (head (reverse acc) = Some dotdot_segment) then acc ++ [dotdot_segment] else removelast acc)
    else normalize_relative tl (acc ++ [seg])
  end.

Definition path_normalize (p : jsstring) : jsstring :=
  match p with
  | [] => dot_segment
  | _ =>
    let trailing := bool_decide (head (reverse p) = Some SLASH) in
    if is_absolute p then
      match join_slash (normalize_segments (split_slash p) []) with
      | [] => [SLASH]
      | s => SLASH :: s ++ (if trailing then [SLASH] else [])
      end
    else
      match join_slash (normalize_relative (split_slash p) []) with
      | [] => if trailing then [DOT; SLASH] else dot_segment
      | s => s ++ (if trailing then [SLASH] else [])
      end
  end.

(** [path.join(...parts)] *)
Definition path_join (parts : list jsstring) : jsstring :=
  path_normalize (join_slash (List.filter (fun p => negb (bool_decide (p = []))) parts)).

(** [path.resolve(dir, p)] for an absolute [dir]. *)
Definition path_resolve_text (dir p : jsstring) : jsstring :=
  SLASH :: join_slash (if is_absolute p then normalize_segments (split_slash p) [] else normalize_segments (split_slash p) (normalize_segments (split_slash dir) [])).

(** [path.dirname]: the loop from the end looks for a slash that a name follows. *)
Fixpoint before_name (p : jsstring) (named : bool) : option jsstring :=
  match p with
  | [] => None
  | c :: tl => if c =? SLASH then if named then Some tl else before_name tl false else before_name tl true
  end.
Definition path_dirname (p : jsstring) : jsstring :=
  match p with
  | [] => dot_segment
  | c :: tl =>
    match before_name (reverse tl) false with
    | None => if c =? SLASH then [SLASH] else dot_segment
    | Some r => if (c =? SLASH) && bool_decide (r = []) then [SLASH; SLASH] else c :: reverse r
    end
  end.

(** ** Text *)

(** [toUpperCase]: exact for the letters whose upper case is made of ASCII letters, which the
    tests on names of commands can tell apart; others are kept. *)
Definition upper_units (c : Z) : jsstring :=
  if (97 <=? c) && (c <=? 122) then [c - 32]
  else if c =? 223 then js "SS"
  else if c =? 305 then js "I"
  else if c =? 383 then js "S"
  else if c =? 64256 then js "FF"
  else if c =? 64257 then js "FI"
  else if c =? 64258 then js "FL"
  else if c =? 64259 then js "FFI"
  else if c =? 64260 then js "FFL"
  else if (c =? 64261) || (c =? 64262) then js "ST"
  else [c].
Definition toUpperCase (s : jsstring) : jsstring := concat (map upper_units s).

Definition CRLF : list Z := [13; 10].

(** [text.split('\r\n')] *)
Fixpoint split_crlf (s : jsstring) : list jsstring :=
  match s with
  | 13 :: 10 :: tl => [] :: split_crlf tl
  | c :: tl => match split_crlf tl with [] => [[c]] | p :: ps => (c :: p) :: ps end
  | [] => [[]]
  end.

Fixpoint join_crlf (parts : list jsstring) : jsstring :=
  match parts with
  | [] => []
  | [p] => p
  | p :: ps => p ++ CRLF ++ join_crlf ps
  end.

(** ** State *)

Record user_config := { cfg_username : jsstring; cfg_password : jsstring; rootDir : jsstring }.

Inductive transfer_type := ascii | binary.

Definition transfer_text (t : transfer_type) : jsstring := match t with ascii => js "ascii" | binary => js "binary" end.

(** What a data connection is for: the continuation of [createDataConnection]. *)
Inductive job :=
| JobList (fullPath : jsstring)
| JobRetr (filePath fullPath : jsstring) (size : Z)
| JobStor (fullPath : jsstring).

(** A listener on [connection] of the server, with the timer of its promise. *)
Record waiter := { w_server : nat; w_job : job; w_timer : bool }.

Record FtpSession := {
  localIp : jsstring;
  localPort : Z;
  remoteIp : jsstring;
  remotePort : Z;
  socket : bool;
  writable : bool;
  authenticated : bool;
  username : option jsstring;
  currentDir : jsstring;
  dataPort : option Z;
  dataHost : option jsstring;
  passive : bool;
  passiveServer : option nat;
  dataSocket : option nat;
  transferType : transfer_type;
  waiting : list waiter;
  servers : nat
}.

#[export] Instance FtpSession_rebuild : Rebuild FtpSession := fun s => {|
  localIp := localIp s; localPort := localPort s; remoteIp := remoteIp s; remotePort := remotePort s;
  socket := socket s; writable := writable s; authenticated := authenticated s; username := username s;
  currentDir := currentDir s; dataPort := dataPort s; dataHost := dataHost s; passive := passive s;
  passiveServer := passiveServer s; dataSocket := dataSocket s; transferType := transferType s;
  waiting := waiting s; servers := servers s |}.

(** The object of the constructor once the worker has set its socket and addresses. *)
Definition new_session (localIp : jsstring) (localPort : Z) (remoteIp : jsstring) (remotePort : Z) : FtpSession := {|
  localIp := localIp; localPort := localPort; remoteIp := remoteIp; remotePort := remotePort;
  socket := true; writable := true; authenticated := false; username := None; currentDir := [SLASH];
  dataPort := None; dataHost := None; passive := false; passiveServer := None; dataSocket := None;
  transferType := ascii; waiting := []; servers := 0 |}.

(** ** Effects *)

(** [getClientInfo], without the time of the connection. *)
Record client_info := {
  ci_localIp : jsstring; ci_localPort : Z; ci_remoteIp : jsstring; ci_remotePort : Z;
  ci_username : jsstring; ci_authenticated : bool; ci_status : jsstring }.

Inductive ftp_event :=
| AUTHENTICATION (success : bool) (username : option jsstring)
| DIRECTORY_LISTING (directory : jsstring)
| FILE_TRANSFER_START (filename : jsstring) (size : Z)
| FILE_TRANSFER_ERROR (filename : jsstring)
| FILE_TRANSFER_COMPLETE (filename : jsstring) (size : Z)
| FTP_EVT_ADD
| FTP_EVT_REMOVE.

Inductive access_mode := R_OK | W_OK.

Record stats := { isDirectory : bool; isFile : bool; size : Z; mtime : jsstring }.

Inductive ftp_callback :=
| CbListening (server : nat)
| CbConnected (j : job)
| CbListAccess (targetDir fullPath : jsstring)
| CbReaddir (sock : nat) (fullPath : jsstring)
| CbListStat (sock : nat) (fullPath file : jsstring) (rest fileList : list jsstring)
| CbCwdAccess (newDir fullPath : jsstring)
| CbCwdStat (newDir : jsstring)
| CbRetrAccess (filePath fullPath : jsstring)
| CbRetrStat (filePath fullPath : jsstring)
| CbReadError (sock : nat) (filePath : jsstring)
| CbDownloadClosed (filePath : jsstring) (size : Z)
| CbStorAccess (filePath fullPath : jsstring)
| CbWriteError (sock : nat)
| CbUploadClosed
| CbDeleAccess (fullPath : jsstring)
| CbUnlink
| CbRmdAccess (fullPath : jsstring)
| CbRmdir
| CbMkdir (dirPath : jsstring).

Inductive ftp_effect :=
| Received (command : jsstring)
| Write (bytes : buffer)
| DestroySocket
| SendEvent (e : ftp_event) (client : client_info)
| Listen (server : nat) (cb : ftp_callback)
| CloseServer (server : nat)
| Connect (host : option jsstring) (port : Z) (cb : ftp_callback)
| EndSocket (sock : nat) (data : buffer)
| FsAccess (path : jsstring) (mode : access_mode) (cb : ftp_callback)
| FsStat (path : jsstring) (cb : ftp_callback)
| FsReaddir (path : jsstring) (cb : ftp_callback)
| FsUnlink (path : jsstring) (cb : ftp_callback)
| FsRmdir (path : jsstring) (cb : ftp_callback)
| FsMkdir (path : jsstring) (cb : ftp_callback)
| ReadStream (path : jsstring) (sock : nat) (cbs : list ftp_callback)
| WriteStream (path : jsstring) (sock : nat) (cbs : list ftp_callback).

Abbreviation action := (action_of FtpSession ftp_effect).
Abbreviation attempt := (attempt_of FtpSession ftp_effect).

Definition client_info_of (s : FtpSession) : client_info := {|
  ci_localIp := localIp s; ci_localPort := localPort s; ci_remoteIp := remoteIp s; ci_remotePort := remotePort s;
  ci_username := (match username s with Some (c :: u) => c :: u | _ => [21311; 21517] end);
  ci_authenticated := authenticated s;
  ci_status := (if authenticated s then [24050; 30331; 24405] else [24050; 36830; 25509]) |}.

Definition sendEvent (e : ftp_event) : action := this s => emit (SendEvent e (client_info_of s)).

(** [sendMsg(Buffer.from(text))] *)
Definition sendMsg (text : jsstring) : action :=
  this s => if socket s && writable s then emit (Write (utf8_encode text)) ;;; emit (Write CRLF) else skip.

(** A file system call with a path throws at once if the path has a zero in it. *)
Definition fs_call (path : jsstring) (e : ftp_effect) : attempt :=
  if existsb (Z.eqb 0) path then raise (ErrorCode "ERR_INVALID_ARG_VALUE") else returns (emit e).

(** ** Data connections *)

Definition closeDataConnection : action :=
  (this s =>
     match dataSocket s with
     | Some sock => emit (EndSocket sock []) ;;; assign (fun s => s <| dataSocket := None |>)
     | None => skip
     end) ;;;
  this s =>
    match passiveServer s, passive s with
    | Some server, true => emit (CloseServer server) ;;; assign (fun s => s <| passiveServer := None |> <| passive := false |>)
    | _, _ => skip
    end.

(** The [then] callback of [createDataConnection]. *)
Definition run_job (j : job) (sock : nat) : action :=
  match j with
  | JobList fullPath => emit (FsReaddir fullPath (CbReaddir sock fullPath))
  | JobRetr filePath fullPath size => emit (ReadStream fullPath sock [CbReadError sock filePath; CbDownloadClosed filePath size])
  | JobStor fullPath => emit (WriteStream fullPath sock [CbWriteError sock; CbUploadClosed])
  end.

(** Its [catch] callback. *)
Definition fail_job (j : job) : action :=
  sendMsg (js "425 Cannot open data connection") ;;;
  match j with JobRetr filePath _ _ => sendEvent (FILE_TRANSFER_ERROR filePath) | _ => skip end.

Definition createDataConnection (j : job) : action :=
  this s =>
    if passive s then
      match dataSocket s, passiveServer s with
      | Some sock, _ => run_job j sock
      | None, Some server => assign (fun s => s <| waiting := waiting s ++ [{| w_server := server; w_job := j; w_timer := true |}] |>)
      | None, None => fail_job j
      end
    else
      match dataPort s with
      | Some port => if (0 <=? port) && (port <=? 65535) then emit (Connect (dataHost s) port (CbConnected j)) else fail_job j
      | None => fail_job j
      end.

(** A connection to a passive server: its own listener, then those of the promises that wait. *)
Definition on_connection (server sock : nat) : action :=
  assign (fun s => s <| dataSocket := Some sock |>) ;;;
  this s =>
    assign (fun s => s <| waiting := List.filter (fun w => negb (Nat.eqb (w_server w) server)) (waiting s) |>) ;;;
    each (List.filter (fun w => Nat.eqb (w_server w) server) (waiting s))
      (fun w => if w_timer w then run_job (w_job w) sock else skip).

(** The timer of the [i]-th waiting promise. *)
Definition wait_timeout (i : nat) : action :=
  this s =>
    match waiting s !! i with
    | Some w =>
      if w_timer w then
        assign (fun s => s <| waiting := <[i := {| w_server := w_server w; w_job := w_job w; w_timer := false |}]> (waiting s) |>) ;;;
        fail_job (w_job w)
      else skip
    | None => skip
    end.

Definition on_server_error : action := sendMsg (js "425 Cannot open passive connection").

Definition closeSession : action :=
  closeDataConnection ;;;
  (this s => if socket s then emit DestroySocket ;;; assign (fun s => s <| socket := false |>) else skip) ;;;
  sendEvent FTP_EVT_REMOVE.

(** ** Commands *)

Section Handlers.
(** [this.ftpWorker.userConfig]: [null] when the server is stopped. *)
Context (userConfig : option user_config).

Definition with_config (k : user_config -> attempt) : attempt :=
  match userConfig with Some c => k c | None => raise TypeError end.

(** [const fullPath = path.join(rootDir, this.currentDir, filePath)] *)
Definition with_path (filePath : jsstring) (k : jsstring -> attempt) : attempt :=
  with_config (fun c => this! s => k (path_join [rootDir c; currentDir s; filePath])).

Definition handleUser (name : jsstring) : attempt :=
  with_config (fun c =>
    if bool_decide (cfg_username c = name)
    then returns (assign (fun s => s <| username := Some name |>) ;;; sendMsg (js "331 Username OK, password required"))
    else returns (sendMsg (js "530 Authentication failed"))).

Definition handlePass (password : jsstring) : attempt :=
  with_config (fun c => returns (this s =>
    if bool_decide (Some (cfg_username c) = username s) && bool_decide (cfg_password c = password) then
      assign (fun s => s <| authenticated := true |> <| currentDir := [SLASH] |>) ;;;
      sendMsg (js "230 User logged in, proceed") ;;;
      this s => sendEvent (AUTHENTICATION true (username s))
    else
      sendMsg (js "530 Authentication failed") ;;;
      this s => sendEvent (AUTHENTICATION false (username s)))).

Definition handleSyst : action := sendMsg (js "215 UNIX Type: L8").

(** A text in double quotes. *)
Definition quoted (t : jsstring) : jsstring := [34] ++ t ++ [34].

Definition handlePwd : action := this s => sendMsg (js "257 " ++ quoted (currentDir s) ++ js " is the current directory").

Definition handleType (type : jsstring) : action :=
  if bool_decide (type = js "A") then assign (fun s => s <| transferType := ascii |>) ;;; sendMsg (js "200 Type set to ASCII")
  else if bool_decide (type = js "I") then assign (fun s => s <| transferType := binary |>) ;;; sendMsg (js "200 Type set to binary")
  else sendMsg (js "504 Type not implemented").

Definition handlePasv : action :=
  (this s => match passiveServer s with Some server => emit (CloseServer server) | None => skip end) ;;;
  this s =>
    assign (fun s => s <| passiveServer := Some (servers s) |> <| servers := S (servers s) |>) ;;;
    emit (Listen (servers s) (CbListening (servers s))).

(** [`${Number(part)}`] *)
Definition number_text (part : jsstring) : jsstring :=
  match Number_text part with Some n => js_number_to_string n | None => js "NaN" end.

Definition pasv_reply (localIp : jsstring) (port : Z) : jsstring :=
  let host := if existsb (Z.eqb 58) localIp then js "127,0,0,1" else join_with 44 (map number_text (split_on 46 localIp)) in
  js "227 Entering Passive Mode (" ++ host ++ [44] ++ js_number_to_string (port / 256) ++ [44] ++ js_number_to_string (port mod 256) ++ [41].

(** The callback of [listen]. *)
Definition listening (port : Z) : action :=
  (this s => sendMsg (pasv_reply (localIp s) port)) ;;; assign (fun s => s <| passive := true |>).

Definition handlePort (args : jsstring) : action :=
  match split_on 44 args with
  | [h1; h2; h3; h4; p1; p2] =>
    assign (fun s => s <| dataHost := Some (join_with 46 [h1; h2; h3; h4]) |>
                       <| dataPort := (match parseInt10 p1, parseInt10 p2 with Some a, Some b => Some (a * 256 + b) | _, _ => None end) |>
                       <| passive := false |>) ;;;
    sendMsg (js "200 PORT command successful")
  | _ => sendMsg (js "501 Invalid PORT command")
  end.

Definition handleList (args : jsstring) : attempt :=
  with_config (fun c => this! s =>
    let targetDir := if bool_decide (args = []) then currentDir s else path_resolve_text (currentDir s) args in
    let fullPath := path_join [rootDir c; targetDir] in
    fs_call fullPath (FsAccess fullPath R_OK (CbListAccess targetDir fullPath))).

Definition list_access (targetDir fullPath : jsstring) (ok : bool) : action :=
  if ok then
    sendMsg (js "150 Opening ASCII mode data connection for file list") ;;;
    sendEvent (DIRECTORY_LISTING targetDir) ;;;
    createDataConnection (JobList fullPath)
  else sendMsg (js "550 Directory not accessible").

(** [getFileInfo(index)] *)
Definition getFileInfo (sock : nat) (fullPath : jsstring) (files fileList : list jsstring) : action :=
  match files with
  | [] =>
    emit (EndSocket sock (utf8_encode (join_crlf fileList ++ CRLF))) ;;;
    sendMsg (js "226 Transfer complete") ;;;
    closeDataConnection
  | file :: rest => emit (FsStat (path_join [fullPath; file]) (CbListStat sock fullPath file rest fileList))
  end.

Definition read_dir (sock : nat) (fullPath : jsstring) (files : option (list jsstring)) : action :=
  match files with
  | None => emit (EndSocket sock []) ;;; sendMsg (js "550 Failed to list directory")
  | Some files => getFileInfo sock fullPath files []
  end.

Definition file_line (st : stats) (file : jsstring) : jsstring :=
  (if isDirectory st then js "drwxr-xr-x" else js "-rw-r--r--") ++ js " 1 owner group " ++ js_number_to_string (size st) ++ [32] ++ mtime st ++ [32] ++ file.

Definition list_stat (sock : nat) (fullPath file : jsstring) (rest fileList : list jsstring) (st : option stats) : action :=
  getFileInfo sock fullPath rest (match st with Some st => fileList ++ [file_line st file] | None => fileList end).

Definition cwd_target (currentDir dir : jsstring) : jsstring :=
  if startsWith dir [SLASH] then dir
  else
    let newDir := if bool_decide (currentDir = [SLASH]) then [SLASH] ++ dir else currentDir ++ [SLASH] ++ dir in
    SLASH :: join_slash (normalize_segments (split_slash newDir) []).

Definition handleCwd (dir : jsstring) : attempt :=
  this! s =>
    let newDir := cwd_target (currentDir s) dir in
    with_config (fun c =>
      let fullPath := path_join [rootDir c; newDir] in
      fs_call fullPath (FsAccess fullPath R_OK (CbCwdAccess newDir fullPath))).

Definition cwd_access (newDir fullPath : jsstring) (ok : bool) : action :=
  if ok then emit (FsStat fullPath (CbCwdStat newDir)) else sendMsg (js "550 Directory not accessible").

Definition cwd_stat (newDir : jsstring) (st : option stats) : action :=
  match st with
  | Some st => if isDirectory st then assign (fun s => s <| currentDir := newDir |>) ;;; sendMsg (js "250 Directory changed to " ++ newDir)
               else sendMsg (js "550 Not a directory")
  | None => sendMsg (js "550 Not a directory")
  end.

Definition handleCdup : attempt := handleCwd dotdot_segment.

Definition handleRetr (filePath : jsstring) : attempt :=
  with_path filePath (fun fullPath => fs_call fullPath (FsAccess fullPath R_OK (CbRetrAccess filePath fullPath))).

Definition retr_access (filePath fullPath : jsstring) (ok : bool) : action :=
  if ok then emit (FsStat fullPath (CbRetrStat filePath fullPath)) else sendMsg (js "550 File not accessible").

Definition opening (t : transfer_type) (filePath : jsstring) : jsstring :=
  js "150 Opening " ++ transfer_text t ++ js " mode data connection for " ++ filePath.

Definition retr_stat (filePath fullPath : jsstring) (st : option stats) : action :=
  match st with
  | Some st =>
    if isFile st then
      (this s => sendMsg (opening (transferType s) filePath ++ js " (" ++ js_number_to_string (size st) ++ js " bytes)")) ;;;
      sendEvent (FILE_TRANSFER_START filePath (size st)) ;;;
      createDataConnection (JobRetr filePath fullPath (size st))
    else sendMsg (js "550 Not a regular file")
  | None => sendMsg (js "550 Not a regular file")
  end.

Definition read_error (sock : nat) (filePath : jsstring) : action :=
  emit (EndSocket sock []) ;;; sendMsg (js "550 Failed to read file") ;;; sendEvent (FILE_TRANSFER_ERROR filePath).

Definition download_closed (filePath : jsstring) (size : Z) : action :=
  sendMsg (js "226 Transfer complete") ;;; closeDataConnection ;;; sendEvent (FILE_TRANSFER_COMPLETE filePath size).

Definition handleStor (filePath : jsstring) : attempt :=
  with_path filePath (fun fullPath =>
    let dirPath := path_dirname fullPath in
    fs_call dirPath (FsAccess dirPath W_OK (CbStorAccess filePath fullPath))).

Definition stor_access (filePath fullPath : jsstring) (ok : bool) : action :=
  if ok then (this s => sendMsg (opening (transferType s) filePath)) ;;; createDataConnection (JobStor fullPath)
  else sendMsg (js "550 Directory not writable").

Definition write_error (sock : nat) : action := emit (EndSocket sock []) ;;; sendMsg (js "550 Failed to write file").
Definition upload_closed : action := sendMsg (js "226 Transfer complete") ;;; closeDataConnection.

Definition handleDele (filePath : jsstring) : attempt :=
  with_path filePath (fun fullPath => fs_call fullPath (FsAccess fullPath W_OK (CbDeleAccess fullPath))).
Definition dele_access (fullPath : jsstring) (ok : bool) : action :=
  if ok then emit (FsUnlink fullPath CbUnlink) else sendMsg (js "550 File not accessible").
Definition unlinked (ok : bool) : action := sendMsg (if ok then js "250 File deleted" else js "550 Failed to delete file").

Definition handleRmd (dirPath : jsstring) : attempt :=
  with_path dirPath (fun fullPath => fs_call fullPath (FsAccess fullPath W_OK (CbRmdAccess fullPath))).
Definition rmd_access (fullPath : jsstring) (ok : bool) : action :=
  if ok then emit (FsRmdir fullPath CbRmdir) else sendMsg (js "550 Directory not accessible").
Definition removed (ok : bool) : action := sendMsg (if ok then js "250 Directory removed" else js "550 Failed to remove directory").

Definition handleMkd (dirPath : jsstring) : attempt :=
  with_path dirPath (fun fullPath => fs_call fullPath (FsMkdir fullPath (CbMkdir dirPath))).
Definition created (dirPath : jsstring) (ok : bool) : action :=
  sendMsg (if ok then js "257 " ++ quoted dirPath ++ js " created" else js "550 Failed to create directory").

Definition handleFeat : action :=
  sendMsg (js "211-Features:") ;;; sendMsg (js " UTF8") ;;; sendMsg (js " SIZE") ;;; sendMsg (js " PASV") ;;;
  sendMsg (js " TYPE A;I") ;;; sendMsg (js "211 End").

Definition handleOpts (args : jsstring) : action :=
  if bool_decide (toUpperCase (default [] (head (split_on 32 args))) = js "UTF8") then sendMsg (js "200 UTF8 set to ON")
  else sendMsg (js "501 Option not supported").

Definition handleNoop : action := sendMsg (js "200 NOOP command successful").
Definition handleQuit : action := sendMsg (js "221 Goodbye") ;;; closeSession.

Definition handlers : list (jsstring * (jsstring -> attempt)) := [
  (js "USER", handleUser);
  (js "PASS", handlePass);
  (js "SYST", fun _ => returns handleSyst);
  (js "PWD", fun _ => returns handlePwd);
  (js "TYPE", fun args => returns (handleType args));
  (js "PASV", fun _ => returns handlePasv);
  (js "PORT", fun args => returns (handlePort args));
  (js "LIST", handleList);
  (js "CWD", handleCwd);
  (js "CDUP", fun _ => handleCdup);
  (js "RETR", handleRetr);
  (js "STOR", handleStor);
  (js "QUIT", fun _ => returns handleQuit);
  (js "FEAT", fun _ => returns handleFeat);
  (js "OPTS", fun args => returns (handleOpts args));
  (js "NOOP", fun _ => returns handleNoop);
  (js "DELE", handleDele);
  (js "RMD", handleRmd);
  (js "MKD", handleMkd)].

Definition noAuthRequired : list jsstring :=
  [js "USER"; js "PASS"; js "SYST"; js "FEAT"; js "QUIT"; js "NOOP"; js "OPTS"].

Definition handleCommand (cmd args : jsstring) : attempt :=
  match List.find (fun e => bool_decide (fst e = cmd)) handlers with
  | Some (_, handler) =>
    this! s =>
      if negb (authenticated s) && negb (bool_decide (cmd ∈ noAuthRequired)) then returns (sendMsg (js "530 Not logged in"))
      else handler args
  | None => returns (sendMsg (js "502 Command '" ++ cmd ++ js "' not implemented"))
  end.

(** The command and its arguments in a line. *)
Definition parse_command (command : jsstring) : jsstring * jsstring :=
  let parts := split_on 32 command in
  (toUpperCase (default [] (head parts)), join_with 32 (drop 1 parts)).

Definition processMessage (message : buffer) : action :=
  let command := trim_text (utf8_decode message) in
  emit (Received command) ;;;
  fun s =>
    let '(cmd, args) := parse_command command in
    match handleCommand cmd args s with
    | (s, out, None) => (s, out)
    | (s, out, Some _) => let '(s, out2) := sendMsg (js "500 Error processing command") s in (s, out ++ out2)
    end.

(** ** Received data *)

(** The rest of the object: what is received of the next command. *)
Record FtpConnection := { messageBuffer : buffer; session : FtpSession }.

Definition recvMsg (data : buffer) : action_of FtpConnection ftp_effect := fun c =>
  let b := messageBuffer c ++ data in
  match reverse (split_crlf (utf8_decode b)) with
  | last :: ((_ :: _) as complete) =>
    let '(s, out) := each (List.filter (fun m => negb (bool_decide (m = []))) (reverse complete)) (fun m => processMessage (utf8_encode m)) (session c) in
    ({| messageBuffer := utf8_encode last; session := s |}, out)
  | _ => ({| messageBuffer := b; session := session c |}, [])
  end.
End Handlers.

(** ** The event loop *)

(** What the environment supplies when a callback runs. *)
Inductive callback_value :=
| Done (ok : bool)
| Stat (st : option stats)
| Files (files : option (list jsstring))
| Port (port : Z)
| Connected (sock : option nat)
| NoValue.

Definition run_callback (cb : ftp_callback) (v : callback_value) : option action :=
  match cb, v with
  | CbListening server, Port port => Some (this s => if bool_decide (passiveServer s = Some server) then listening port else skip)
  | CbConnected j, Connected (Some sock) => Some (assign (fun s => s <| dataSocket := Some sock |>) ;;; run_job j sock)
  | CbConnected j, Connected None => Some (fail_job j)
  | CbListAccess targetDir fullPath, Done ok => Some (list_access targetDir fullPath ok)
  | CbReaddir sock fullPath, Files files => Some (read_dir sock fullPath files)
  | CbListStat sock fullPath file rest fileList, Stat st => Some (list_stat sock fullPath file rest fileList st)
  | CbCwdAccess newDir fullPath, Done ok => Some (cwd_access newDir fullPath ok)
  | CbCwdStat newDir, Stat st => Some (cwd_stat newDir st)
  | CbRetrAccess filePath fullPath, Done ok => Some (retr_access filePath fullPath ok)
  | CbRetrStat filePath fullPath, Stat st => Some (retr_stat filePath fullPath st)
  | CbReadError sock filePath, NoValue => Some (read_error sock filePath)
  | CbDownloadClosed filePath size, NoValue => Some (download_closed filePath size)
  | CbStorAccess filePath fullPath, Done ok => Some (stor_access filePath fullPath ok)
  | CbWriteError sock, NoValue => Some (write_error sock)
  | CbUploadClosed, NoValue => Some upload_closed
  | CbDeleAccess fullPath, Done ok => Some (dele_access fullPath ok)
  | CbUnlink, Done ok => Some (unlinked ok)
  | CbRmdAccess fullPath, Done ok => Some (rmd_access fullPath ok)
  | CbRmdir, Done ok => Some (removed ok)
  | CbMkdir dirPath, Done ok => Some (created dirPath ok)
  | _, _ => None
  end.

Definition callbacks_of (e : ftp_effect) : list ftp_callback :=
  match e with
  | Listen _ cb | Connect _ _ cb | FsAccess _ _ cb | FsStat _ cb | FsReaddir _ cb | FsUnlink _ cb | FsRmdir _ cb | FsMkdir _ cb => [cb]
  | ReadStream _ _ cbs | WriteStream _ _ cbs => cbs
  | _ => []
  end.

Record ftp_world := { w_connection : FtpConnection; w_pending : list ftp_callback; w_log : list ftp_effect }.

Definition apply_outcome (pending : list ftp_callback) (w : ftp_world) (r : FtpConnection * list ftp_effect) : ftp_world :=
  {| w_connection := fst r; w_pending := pending ++ concat (map callbacks_of (snd r)); w_log := w_log w ++ snd r |}.

Definition on_session (a : action) : action_of FtpConnection ftp_effect := fun c =>
  let '(s, out) := a (session c) in ({| messageBuffer := messageBuffer c; session := s |}, out).

(** The events of one connection: data, callbacks, connections to a passive server, its
    errors, timers, the end of the control connection, and whether it can be written to. *)
Inductive ftp_input :=
| InData (data : buffer)
| InCallback (before : list ftp_callback) (cb : ftp_callback) (after : list ftp_callback) (v : callback_value)
| InConnection (server sock : nat)
| InServerError
| InTimeout (i : nat)
| InClose
| InWritable (b : bool).

Definition ftp_input_run (u : option user_config) (i : ftp_input) (w : ftp_world) : option ftp_world :=
  let c := w_connection w in
  match i with
  | InData data => Some (apply_outcome (w_pending w) w (recvMsg u data c))
  | InCallback before cb after v =>
    match run_callback cb v with
    | Some a => Some (apply_outcome (before ++ after) w (on_session a c))
    | None => None
    end
  | InConnection server sock => Some (apply_outcome (w_pending w) w (on_session (on_connection server sock) c))
  | InServerError => Some (apply_outcome (w_pending w) w (on_session on_server_error c))
  | InTimeout i => Some (apply_outcome (w_pending w) w (on_session (wait_timeout i) c))
  | InClose => Some (apply_outcome (w_pending w) w (on_session closeSession c))
  | InWritable b => Some (apply_outcome (w_pending w) w (on_session (assign (fun s => s <| writable := b |>)) c))
  end.

(** An event that can happen: a callback must be registered, a server must have been made. *)
Definition enabled (i : ftp_input) (w : ftp_world) : Prop :=
  match i with
  | InCallback before cb after _ => w_pending w = before ++ cb :: after
  | InConnection server _ => (server < servers (session (w_connection w)))%nat
  | InServerError => (0 < servers (session (w_connection w)))%nat
  | _ => True
  end.

Inductive ftp_step (u : option user_config) (w : ftp_world) : ftp_world -> Prop :=
| ftp_step_input i w' : enabled i w -> ftp_input_run u i w = Some w' -> ftp_step u w w'.

Definition ftp_world_new (localIp : jsstring) (localPort : Z) (remoteIp : jsstring) (remotePort : Z) : ftp_world :=
  {| w_connection := {| messageBuffer := []; session := new_session localIp localPort remoteIp remotePort |};
     w_pending := []; w_log := [] |}.

Inductive ftp_reachable (u : option user_config) : ftp_world -> Prop :=
| ftp_reach_new lip lport rip rport : ftp_reachable u (ftp_world_new lip lport rip rport)
| ftp_reach_step w w' : ftp_reachable u w -> ftp_step u w w' -> ftp_reachable u w'.

(** * Lemmas *)

(** ** Files only after a login *)

(** Effects on files, other connections and servers. *)
Definition touches (e : ftp_effect) : bool :=
  match e with
  | Listen _ _ | Connect _ _ _ | FsAccess _ _ _ | FsStat _ _ | FsReaddir _ _ | FsUnlink _ _ | FsRmdir _ _ | FsMkdir _ _
  | ReadStream _ _ _ | WriteStream _ _ _ => true
  | _ => false
  end.

(** A line that gives the configured user name, and after it one that gives the password. *)
Definition is_user (u : user_config) (e : ftp_effect) : Prop :=
  exists line, e = Received line /\ parse_command line = (js "USER", cfg_username u).
Definition is_pass (u : user_config) (e : ftp_effect) : Prop :=
  exists line, e = Received line /\ parse_command line = (js "PASS", cfg_password u).
Definition named_user (u : user_config) (log : list ftp_effect) : Prop := exists e, e ∈ log /\ is_user u e.
Definition logged_in (u : user_config) (log : list ftp_effect) : Prop :=
  exists l1 e l2, log = l1 ++ e :: l2 /\ is_pass u e /\ named_user u l1.

Section Login.
Context (u : user_config).

(** A session before the login: nothing is registered, and the name is known only if a line gave it. *)
Definition stranger (log : list ftp_effect) (s : FtpSession) : Prop :=
  authenticated s = false /\ (forall n, username s = Some n -> n = cfg_username u -> named_user u log) /\ waiting s = [] /\ servers s = O.

Definition safe (log : list ftp_effect) : Prop :=
  forall l1 e l2, log = l1 ++ e :: l2 -> touches e = true -> logged_in u l1.

(** What an action may do: before the login the session stays a stranger's and touches nothing. *)
Definition cautious (log : list ftp_effect) (s : FtpSession) (r : FtpSession * list ftp_effect) : Prop :=
  logged_in u (log ++ snd r) \/ stranger (log ++ snd r) (fst r).

Lemma named_user_app l1 l2 : named_user u l1 -> named_user u (l1 ++ l2).
Proof. intros (e & He & Hu). exists e. split; [apply elem_of_app; by left | done]. Qed.

Lemma logged_in_app l1 l2 : logged_in u l1 -> logged_in u (l1 ++ l2).
Proof. intros (a & e & b & -> & Hp & Hn). exists a, e, (b ++ l2). by rewrite <- app_assoc. Qed.

Lemma safe_app log out : safe log -> (logged_in u log \/ Forall (fun e => touches e = false) out) -> safe (log ++ out).
Proof.
  intros Hs Ho l1 e l2 E Ht. apply app_eq_inv in E as [(l & -> & E)|(l & -> & E)].
  - destruct l as [|x l]; [|injection E as -> ->; by apply (Hs l1 x l)]. cbn in E. subst out. rewrite app_nil_r in *. destruct Ho as [Ho|Ho]; [done|].
    apply list.Forall_cons in Ho as [Ho _]. congruence.
  - destruct Ho as [Ho|Ho]; [by apply logged_in_app|]. rewrite E in Ho. apply list.Forall_app in Ho as [_ Ho]. apply list.Forall_cons in Ho as [Ho _]. congruence.
Qed.

(** An action that does not log in: it touches nothing and leaves what [stranger] speaks of. *)
Definition mild (a : action) : Prop := forall s,
  Forall (fun e => touches e = false) (snd (a s)) /\
  authenticated (fst (a s)) = authenticated s /\ username (fst (a s)) = username s /\ waiting (fst (a s)) = waiting s /\ servers (fst (a s)) = servers s.

Lemma mild_seq a b : mild a -> mild b -> mild (a ;;; b).
Proof.
  intros Ha Hb s. unfold seq_action. destruct (Ha s) as (H1 & H2 & H3 & H4 & H5). destruct (a s) as [s1 o1]. cbn [fst snd] in *.
  destruct (Hb s1) as (K1 & K2 & K3 & K4 & K5). destruct (b s1) as [s2 o2]. cbn [fst snd] in *.
  split; [by apply list.Forall_app|]. by rewrite K2, K3, K4, K5.
Qed.

Lemma mild_this k : (forall s, mild (k s)) -> mild (get_this k).
Proof. intros Hk s. apply Hk. Qed.

Lemma mild_skip : mild skip.
Proof. intros s. by split. Qed.

Lemma mild_emit e : touches e = false -> mild (emit e).
Proof. intros He s. split; [by apply list.Forall_singleton | done]. Qed.

Lemma mild_assign f : (forall s, authenticated (f s) = authenticated s /\ username (f s) = username s /\ waiting (f s) = waiting s /\ servers (f s) = servers s) -> mild (assign f).
Proof. intros Hf s. split; [constructor | apply Hf]. Qed.

Lemma mild_sendMsg t : mild (sendMsg t).
Proof. apply mild_this. intros s. destruct (socket s && writable s); [apply mild_seq; by apply mild_emit | apply mild_skip]. Qed.

Lemma mild_sendEvent e : mild (sendEvent e).
Proof. apply mild_this. intros s. by apply mild_emit. Qed.

Lemma mild_closeData : mild closeDataConnection.
Proof.
  apply mild_seq; apply mild_this; intros s.
  - destruct (dataSocket s); [|apply mild_skip]. apply mild_seq; [by apply mild_emit | by apply mild_assign].
  - destruct (passiveServer s), (passive s); try apply mild_skip. apply mild_seq; [by apply mild_emit | by apply mild_assign].
Qed.

Lemma mild_closeSession : mild closeSession.
Proof.
  apply mild_seq; [apply mild_closeData|]. apply mild_seq; [|apply mild_sendEvent]. apply mild_this. intros s.
  destruct (socket s); [|apply mild_skip]. apply mild_seq; [by apply mild_emit | by apply mild_assign].
Qed.

(** What a command does before the login: it names the user, logs in, or is mild. *)
Inductive early (cmd args : jsstring) (s : FtpSession) : FtpSession * list ftp_effect * option js_exn -> Prop :=
| early_user out : cmd = js "USER" -> args = cfg_username u -> Forall (fun e => touches e = false) out ->
    early cmd args s (s <| username := Some args |>, out, None)
| early_pass s' out : cmd = js "PASS" -> args = cfg_password u -> username s = Some (cfg_username u) -> Forall (fun e => touches e = false) out ->
    early cmd args s (s', out, None)
| early_mild s' out x : Forall (fun e => touches e = false) out -> authenticated s' = authenticated s -> username s' = username s ->
    waiting s' = waiting s -> servers s' = servers s -> early cmd args s (s', out, x).

Lemma early_action cmd args s a : mild a -> early cmd args s (returns a s).
Proof. intros Ha. unfold returns. destruct (Ha s) as (? & ? & ? & ? & ?). destruct (a s) as [s' out]. by apply early_mild. Qed.

Lemma early_text cmd args s t : early cmd args s (returns (sendMsg t) s).
Proof. apply early_action, mild_sendMsg. Qed.

Lemma assigned_user name t s : exists out, (assign (fun s => s <| username := Some name |>) ;;; sendMsg t) s = (s <| username := Some name |>, out) /\
  Forall (fun e => touches e = false) out.
Proof.
  unfold seq_action, assign. unfold sendMsg, get_this. destruct (_ && _); eexists; (split; [reflexivity|]); repeat (apply list.Forall_cons; split); try done; apply list.Forall_nil_2.
Qed.

Lemma handle_early cmd args s : authenticated s = false -> early cmd args s (handleCommand (Some u) cmd args s).
Proof.
  intros Ha. unfold handleCommand. destruct (List.find _ _) as [[name handler]|] eqn:Hf; [|apply early_text].
  unfold attempt_this. rewrite Ha. cbn [negb andb]. case_bool_decide as Hin; cbn [negb]; [|apply early_text].
  unfold noAuthRequired in Hin. apply List.find_some in Hf as Hn. destruct Hn as [_ Hn%bool_decide_eq_true]. cbn [fst] in Hn. subst name.
  repeat (apply elem_of_cons in Hin as [->|Hin]; [match type of Hf with ?t = _ => let v := eval hnf in t in change t with v in Hf end; injection Hf as <-|]);
    [.. | by apply elem_of_nil in Hin].
  - unfold handleUser, with_config. case_bool_decide as Hu; [|apply early_text].
    destruct (assigned_user args (js "331 Username OK, password required") s) as (out & E & Ho). unfold returns. rewrite E. by apply early_user.
  - unfold handlePass, with_config, returns, get_this. destruct (bool_decide _ && bool_decide _) eqn:E.
    + apply andb_true_iff in E as [E1%bool_decide_eq_true E2%bool_decide_eq_true].
      assert (mild (sendMsg (js "230 User logged in, proceed") ;;; this s => sendEvent (AUTHENTICATION true (username s)))) as Hm
        by (apply mild_seq; [apply mild_sendMsg | apply mild_this; intros ?; apply mild_sendEvent]).
      unfold seq_action at 1, assign. destruct (Hm (s <| authenticated := true |> <| currentDir := [SLASH] |>)) as [Ho _].
      destruct ((sendMsg _ ;;; _) _) as [s2 out]. by apply early_pass.
    + apply (early_action _ _ _ (sendMsg (js "530 Authentication failed") ;;; this s => sendEvent (AUTHENTICATION false (username s)))).
      apply mild_seq; [apply mild_sendMsg | apply mild_this; intros ?; apply mild_sendEvent].
  - apply early_text.
  - apply early_action. unfold handleFeat. repeat (apply mild_seq; [apply mild_sendMsg|]). apply mild_sendMsg.
  - apply early_action. apply mild_seq; [apply mild_sendMsg | apply mild_closeSession].
  - apply early_text.
  - apply early_action. unfold handleOpts. destruct (bool_decide _); apply mild_sendMsg.
Qed.

(** A state and what was logged: logged in, or still a stranger. *)
Definition known_or_stranger (log : list ftp_effect) (s : FtpSession) : Prop := logged_in u log \/ stranger log s.

Lemma stranger_mild log s s' out : stranger log s -> authenticated s' = authenticated s -> username s' = username s -> waiting s' = waiting s ->
  servers s' = servers s -> stranger (log ++ out) s'.
Proof.
  intros (H1 & H2 & H3 & H4) E1 E2 E3 E4. split; [congruence|]. split; [|split; congruence].
  intros n Hn Hc. apply named_user_app, (H2 n); congruence.
Qed.

Lemma process_safe m log s : known_or_stranger log s -> safe log ->
  let r := processMessage (Some u) m s in known_or_stranger (log ++ snd r) (fst r) /\ safe (log ++ snd r).
Proof.
  intros [Hl|Hs] Hsafe; [split; [left; by apply logged_in_app | apply safe_app; auto]|].
  unfold processMessage. cbv zeta. set (line := trim_text (utf8_decode m)). unfold seq_action, emit.
  destruct (parse_command line) as [cmd args] eqn:Hp. pose proof (handle_early cmd args s (proj1 Hs)) as He.
  assert (touches (Received line) = false) as Hr by done.
  inversion He as [out Hc Ha Ho Hrun|s' out Hc Ha Hu Ho Hrun|s' out x Ho E1 E2 E3 E4 Hrun]; clear He; cbn [fst snd].
  - cbn [app]. assert (Forall (fun e => touches e = false) (Received line :: out)) as Hall by (by apply list.Forall_cons).
    split; [|apply safe_app; auto]. right. destruct Hs as (H1 & H2 & H3 & H4). split; [done|]. split; [|done].
    intros n [= <-] Hn. exists (Received line). split; [apply elem_of_app; right; by left|]. exists line. split; [done|]. by rewrite Hp, Hc, Ha.
  - cbn [app]. split; [|apply safe_app; [done | right; by apply list.Forall_cons]]. left.
    exists log, (Received line), out. split; [done|]. split; [exists line; split; [done|]; by rewrite Hp, Hc, Ha|]. by apply (proj1 (proj2 Hs) (cfg_username u)).
  - destruct x as [x|]; cbn [fst snd app].
    + destruct (mild_sendMsg (js "500 Error processing command") s') as (Ho2 & F1 & F2 & F3 & F4). destruct (sendMsg _ s') as [s2 out2]. cbn [fst snd] in *.
      split; [right; apply (stranger_mild log s); congruence || done|]. apply safe_app; [done|]. right. apply list.Forall_cons. split; [done|]. by apply list.Forall_app.
    + split; [right; by apply (stranger_mild log s)|]. apply safe_app; [done|]. right. by apply list.Forall_cons.
Qed.

Lemma each_safe ms log s : known_or_stranger log s -> safe log ->
  let r := each ms (fun m => processMessage (Some u) (utf8_encode m)) s in known_or_stranger (log ++ snd r) (fst r) /\ safe (log ++ snd r).
Proof.
  revert log s. induction ms as [|m ms IH]; intros log s Hk Hs; cbn [each]; [by rewrite app_nil_r|].
  destruct (process_safe (utf8_encode m) log s Hk Hs) as [Hk1 Hs1]. unfold seq_action. destruct (processMessage _ _ s) as [s1 o1]. cbn [fst snd] in *.
  specialize (IH (log ++ o1) s1 Hk1 Hs1). destruct (each _ _ s1) as [s2 o2]. cbn [fst snd] in *. by rewrite <- app_assoc in IH.
Qed.

Lemma recv_safe data log c : known_or_stranger log (session c) -> safe log ->
  let r := recvMsg (Some u) data c in known_or_stranger (log ++ snd r) (session (fst r)) /\ safe (log ++ snd r).
Proof.
  intros Hk Hs. unfold recvMsg. cbv zeta. destruct (reverse _) as [|lastm [|m ms]]; cbn [fst snd session]; [by rewrite app_nil_r..|].
  pose proof (each_safe (List.filter (fun m => negb (bool_decide (m = []))) (reverse (m :: ms))) log (session c) Hk Hs) as H. cbv zeta in H.
  destruct (each _ _ (session c)) as [s out]. done.
Qed.

Lemma mild_safe a log s : mild a -> known_or_stranger log s -> safe log ->
  let r := a s in known_or_stranger (log ++ snd r) (fst r) /\ safe (log ++ snd r).
Proof.
  intros Ha [Hl|Hk] Hs; cbv zeta; [split; [left; by apply logged_in_app | apply safe_app; auto]|].
  destruct (Ha s) as (Ho & H1 & H2 & H3 & H4). split; [right; by apply (stranger_mild log s) | apply safe_app; auto].
Qed.

Lemma callbacks_touch out : concat (map callbacks_of out) <> [] -> exists e, e ∈ out /\ touches e = true.
Proof.
  induction out as [|e out IH]; [done|]. cbn [map concat]. intros H. destruct (touches e) eqn:Ht; [exists e; split; [by left | done]|].
  assert (callbacks_of e = []) as E by (by destruct e). rewrite E in H. destruct (IH H) as (e' & He & ?). exists e'. split; [by right | done].
Qed.

(** The invariant of the event loop. *)
Definition world_safe (w : ftp_world) : Prop :=
  known_or_stranger (w_log w) (session (w_connection w)) /\ safe (w_log w) /\ (w_pending w <> [] -> logged_in u (w_log w)).

Lemma outcome_safe w pending (r : FtpConnection * list ftp_effect) :
  known_or_stranger (w_log w ++ snd r) (session (fst r)) -> safe (w_log w ++ snd r) -> (pending <> [] -> logged_in u (w_log w)) ->
  world_safe (apply_outcome pending w r).
Proof.
  intros Hk Hs Hp. split; [done|]. split; [done|]. cbn [w_pending w_log apply_outcome]. intros Hne.
  destruct (decide (pending = [])) as [->|Hpn]; [|by apply logged_in_app, Hp]. destruct (callbacks_touch (snd r) Hne) as (e & He & Ht).
  apply list_elem_of_split in He as (o1 & o2 & E). rewrite E in *. rewrite app_assoc. apply logged_in_app. apply (Hs (w_log w ++ o1) e o2); [by rewrite <- app_assoc | done].
Qed.

Lemma on_session_eq a c : on_session a c = ({| messageBuffer := messageBuffer c; session := fst (a (session c)) |}, snd (a (session c))).
Proof. unfold on_session. by destruct (a (session c)). Qed.

(** After the login nothing more is asked for. *)
Lemma logged_in_world w pending r : safe (w_log w) -> logged_in u (w_log w) -> world_safe (apply_outcome pending w r).
Proof.
  intros Hs Hl. apply outcome_safe; [left; by apply logged_in_app | apply safe_app; auto | done].
Qed.

Lemma mild_world w a : mild a -> world_safe w -> world_safe (apply_outcome (w_pending w) w (on_session a (w_connection w))).
Proof.
  intros Ha (Hk & Hs & Hp). rewrite on_session_eq. destruct (mild_safe a (w_log w) (session (w_connection w)) Ha Hk Hs). by apply outcome_safe.
Qed.

Lemma step_safe w w' : world_safe w -> ftp_step (Some u) w w' -> world_safe w'.
Proof.
  intros Hw [i w2 Hen Hrun]. pose proof Hw as (Hk & Hs & Hp). destruct i; cbn [ftp_input_run enabled] in *; try injection Hrun as <-.
  - destruct (recv_safe data (w_log w) (w_connection w) Hk Hs). by apply outcome_safe.
  - destruct (run_callback cb v) as [a|]; [|done]. injection Hrun as <-. apply logged_in_world; [done|]. apply Hp. rewrite Hen. by destruct before.
  - destruct Hk as [Hl|(_ & _ & _ & H0)]; [by apply logged_in_world | lia].
  - destruct Hk as [Hl|(_ & _ & _ & H0)]; [by apply logged_in_world | lia].
  - destruct Hk as [Hl|Hst]; [by apply logged_in_world|]. rewrite on_session_eq. unfold wait_timeout, get_this. destruct Hst as (? & ? & Hwait & ?).
    rewrite Hwait. cbn [lookup list_lookup]. cbn [skip fst snd]. apply outcome_safe; cbn [fst snd session]; rewrite ?app_nil_r; try done. right. done.
  - apply mild_world; [apply mild_closeSession | done].
  - apply mild_world; [by apply mild_assign | done].
Qed.

Lemma reachable_safe w : ftp_reachable (Some u) w -> world_safe w.
Proof.
  induction 1 as [lip lport rip rport|w w' _ IH Hstep]; [|by apply (step_safe w)].
  split; [right; split; [done|]; split; [done|]; done|]. split; [|done]. intros l1 e l2 E. by destruct l1.
Qed.
End Login.
(** ** Data in pieces *)

(** The pieces before the last line end, and what follows it. *)
Definition complete_lines (text : jsstring) : list jsstring := removelast (split_crlf text).
Definition rest_of (text : jsstring) : jsstring := List.last (split_crlf text) [].

Lemma split_crlf_cons c d tl : split_crlf (c :: d :: tl) =
  if (c =? 13) && (d =? 10) then [] :: split_crlf tl
  else match split_crlf (d :: tl) with [] => [[c]] | p :: ps => (c :: p) :: ps end.
Proof.
  destruct (Z.eqb_spec c 13) as [->|Hc]; cbn [andb].
  - destruct (Z.eqb_spec d 10) as [->|Hd]; [done|]. cbn [split_crlf]. destruct d as [|d|d]; try done. by repeat (destruct d as [d|d|]; try done).
  - destruct c as [|c|c]; try done. by repeat (destruct c as [c|c|]; try done).
Qed.

Lemma split_crlf_one c : split_crlf [c] = [[c]].
Proof. destruct c as [|c|c]; try done. by repeat (destruct c as [c|c|]; try done). Qed.

Lemma split_crlf_nonempty s : split_crlf s <> [].
Proof.
  induction s as [|c|c d s IHs IHds] using pairs_ind; [done | by rewrite split_crlf_one|].
  rewrite split_crlf_cons. destruct (_ && _); [done|]. by destruct (split_crlf (d :: s)).
Qed.

(** The first line, and the split of what follows it. *)
Lemma split_crlf_shape s : (split_crlf s = [s]) \/ exists q s', s = q ++ 13 :: 10 :: s' /\ split_crlf s = q :: split_crlf s'.
Proof.
  induction s as [|c|c d s IHs IHds] using pairs_ind; [by left | left; apply split_crlf_one|].
  rewrite split_crlf_cons. destruct ((c =? 13) && (d =? 10)) eqn:E.
  - apply andb_true_iff in E as [->%Z.eqb_eq ->%Z.eqb_eq]. right. by exists [], s.
  - destruct IHds as [->|(q & s' & Es & ->)]; [by left|]. right. exists (c :: q), s'. by rewrite Es.
Qed.

Lemma split_crlf_app a b : split_crlf (a ++ b) = removelast (split_crlf a) ++ split_crlf (List.last (split_crlf a) [] ++ b).
Proof.
  induction a as [|c|c d a IHa IHda] using pairs_ind; [done | by rewrite split_crlf_one|].
  cbn [app]. rewrite !split_crlf_cons. destruct ((c =? 13) && (d =? 10)) eqn:E.
  - rewrite IHa. pose proof (split_crlf_nonempty a). by destruct (split_crlf a).
  - cbn [app] in IHda. rewrite IHda. destruct (split_crlf_shape (d :: a)) as [Hs|(q & s' & Es & Hs)]; rewrite Hs.
    + cbn [removelast List.last app]. by rewrite split_crlf_cons, E.
    + pose proof (split_crlf_nonempty s'). by destruct (split_crlf s').
Qed.

Lemma rest_lines text : split_crlf (rest_of text) = [rest_of text] /\ (utf16_ok text = true -> utf16_ok (rest_of text) = true).
Proof.
  unfold rest_of. remember (length text) as n eqn:Hn. revert text Hn. induction n as [n IH] using lt_wf_ind. intros text ->.
  destruct (split_crlf_shape text) as [E|(q & s' & -> & E)]; rewrite E; [done|].
  pose proof (split_crlf_nonempty s') as Hne. destruct (IH (length s')) with (text := s') as [H1 H2]; [rewrite length_app; cbn; lia | done|].
  destruct (split_crlf s') as [|p ps] eqn:Es; [done|]. cbn [List.last] in *. split; [done|]. intros Hok. apply H2.
  pose proof (utf16_ok_cut q 13 (10 :: s') eq_refl Hok) as Hq. rewrite utf16_ok_app in Hok by done. cbn [utf16_ok] in Hok. exact Hok.
Qed.

Section Pieces.
Context (u : option user_config).

Definition run_lines (lines : list jsstring) : action :=
  each (List.filter (fun m => negb (bool_decide (m = []))) lines) (fun m => processMessage u (utf8_encode m)).

(** [recvMsg] for one piece after the other. *)
Fixpoint feed (pieces : list buffer) : action_of FtpConnection ftp_effect :=
  match pieces with
  | [] => skip
  | b :: tl => recvMsg u b ;;; feed tl
  end.

(** A piece of text: its lines run, and what follows the last one is kept. *)
Lemma recv_text before text s : utf16_ok before = true -> utf16_ok text = true -> split_crlf before = [before] ->
  recvMsg u (utf8_encode text) {| messageBuffer := utf8_encode before; session := s |} =
    let '(s', out) := run_lines (complete_lines (before ++ text)) s in ({| messageBuffer := utf8_encode (rest_of (before ++ text)); session := s' |}, out).
Proof.
  intros Hb Ht Hl. unfold recvMsg. cbn [messageBuffer session]. cbv zeta. rewrite <- utf8_encode_app by done.
  rewrite utf8_round_trip by (by rewrite utf16_ok_app). unfold complete_lines, rest_of, run_lines.
  destruct (split_crlf_shape (before ++ text)) as [E|(q & s' & _ & E)].
  - by rewrite E.
  - pose proof (split_crlf_nonempty s') as Hne. rewrite E. destruct (exists_last Hne) as (ls & l & El). rewrite El.
    change (q :: ls ++ [l]) with ((q :: ls) ++ [l]). rewrite removelast_last, last_last, reverse_app. cbn [reverse app]. change (reverse [l]) with [l]. cbn [app].
    rewrite reverse_cons. destruct (reverse ls ++ [q]) as [|x xs] eqn:Er; [by destruct (reverse ls)|]. rewrite <- Er, <- reverse_cons, reverse_involutive. done.
Qed.

Lemma run_lines_app l1 l2 s : run_lines (l1 ++ l2) s = (run_lines l1 ;;; run_lines l2) s.
Proof. unfold run_lines. rewrite List.filter_app. apply each_app. Qed.

Lemma complete_app a b : complete_lines (a ++ b) = complete_lines a ++ complete_lines (rest_of a ++ b) /\ rest_of (a ++ b) = rest_of (rest_of a ++ b).
Proof.
  unfold complete_lines, rest_of. rewrite split_crlf_app. pose proof (split_crlf_nonempty (List.last (split_crlf a) [] ++ b)) as Hne.
  destruct (exists_last Hne) as (l & x & ->). by rewrite app_assoc, !removelast_last, !last_last.
Qed.
End Pieces.

(** ** Paths *)

Lemma split_slash_app a b : split_slash (a ++ SLASH :: b) = split_slash a ++ split_slash b.
Proof.
  induction a as [|c a IH]; [done|]. cbn [app split_slash]. destruct (c =? SLASH); rewrite IH; [done|].
  assert (split_slash a <> []) as Hne by (destruct a as [|x a]; cbn; [done|]; destruct (x =? SLASH); [done|]; by destruct (split_slash a)).
  by destruct (split_slash a).
Qed.

Lemma split_slash_plain seg : SLASH ∉ seg -> split_slash seg = [seg].
Proof.
  induction seg as [|c seg IH]; [done|]. intros [Hc Hs]%list.not_elem_of_cons. cbn [split_slash]. rewrite (proj2 (Z.eqb_neq c SLASH)) by congruence. by rewrite IH.
Qed.

Lemma split_join_slash segs : segs <> [] -> Forall plain_segment segs -> split_slash (join_slash segs) = segs.
Proof.
  induction segs as [|seg segs IH]; [done|]. intros _ [(_ & _ & _ & Hs) Hp]%list.Forall_cons_1. destruct segs as [|seg2 segs]; [by apply split_slash_plain|].
  change (join_slash (seg :: seg2 :: segs)) with (seg ++ SLASH :: join_slash (seg2 :: segs)). rewrite split_slash_app, split_slash_plain by done. by rewrite IH.
Qed.

Lemma normalize_app a b acc : normalize_segments (a ++ b) acc = normalize_segments b (normalize_segments a acc).
Proof. revert acc. induction a as [|seg a IH]; intros acc; [done|]. cbn [app normalize_segments]. case_match; [apply IH|]. case_match; apply IH. Qed.

Lemma normalize_plain segs acc : Forall plain_segment segs -> normalize_segments segs acc = acc ++ segs.
Proof.
  intros Hp. revert acc. induction Hp as [|seg segs (H1 & H2 & H3 & _) _ IH]; intros acc; [by rewrite app_nil_r|]. cbn [normalize_segments].
  rewrite (bool_decide_eq_false_2 (seg = [])), (bool_decide_eq_false_2 (seg = dot_segment)), (bool_decide_eq_false_2 (seg = dotdot_segment)) by done.
  cbn [orb]. rewrite IH. by rewrite <- app_assoc.
Qed.

Definition absolute_path (segs : list jsstring) : jsstring := SLASH :: join_slash segs.

Lemma join_slash_last segs seg : exists p, join_slash (segs ++ [seg]) = p ++ seg.
Proof.
  induction segs as [|x segs [p IH]]; [by exists []|]. destruct segs as [|y segs]; [exists (x ++ [SLASH]); cbn; by rewrite <- app_assoc|].
  cbn [app] in *. exists (x ++ SLASH :: p). change (join_slash (x :: y :: segs ++ [seg])) with (x ++ SLASH :: join_slash (y :: segs ++ [seg])). rewrite IH. by rewrite <- app_assoc.
Qed.

(** A path in the root directory, a name for the last part. *)
Lemma join_in_root rsegs p name : rsegs <> [] -> Forall plain_segment rsegs -> plain_segment name ->
  path_join [absolute_path rsegs; p ++ SLASH :: name] = absolute_path (normalize_segments (split_slash p) rsegs ++ [name]).
Proof.
  intros Hne Hr Hn. unfold path_join. cbn [List.filter]. unfold absolute_path at 1. rewrite bool_decide_eq_false_2 by done.
  rewrite (bool_decide_eq_false_2 (p ++ SLASH :: name = [])) by (by destruct p). cbn [negb join_slash].
  unfold path_normalize. unfold absolute_path at 1 2 3 4. cbn [app is_absolute]. change (SLASH =? SLASH) with true. cbv iota.
  destruct Hn as (Hn0 & Hn1 & Hn2 & Hn3).
  assert (normalize_segments (split_slash (SLASH :: join_slash rsegs ++ SLASH :: p ++ SLASH :: name)) [] = normalize_segments (split_slash p) rsegs ++ [name]) as E.
  { cbn [split_slash]. change (SLASH =? SLASH) with true. cbv iota. cbn [normalize_segments]. rewrite bool_decide_eq_true_2 by done. cbn [orb].
    rewrite split_slash_app, split_join_slash by done. rewrite split_slash_app, (split_slash_plain name) by done. rewrite !normalize_app, (normalize_plain rsegs) by done.
    cbn [app]. by rewrite (normalize_plain [name]) by (by repeat constructor). }
  rewrite E. destruct (join_slash_last (normalize_segments (split_slash p) rsegs) name) as [q Eq]. unfold absolute_path. rewrite Eq.
  assert (head (reverse (SLASH :: join_slash rsegs ++ SLASH :: p ++ SLASH :: name)) <> Some SLASH) as Hlast.
  { destruct name as [|c name _] using rev_ind; [done|]. rewrite !app_comm_cons, !app_assoc, reverse_app. change (reverse [c]) with [c]. cbn [app head].
    intros [= ->]. apply Hn3, elem_of_app. right. by left. }
  rewrite bool_decide_eq_false_2 by done. destruct (q ++ name) as [|x y] eqn:Eqn; [by apply app_eq_nil in Eqn as [_ ->]|]. by rewrite app_nil_r.
Qed.

(** ** One line *)

Inductive ftp_runs (u : option user_config) : list ftp_input -> ftp_world -> ftp_world -> Prop :=
| ftp_runs_nil w : ftp_runs u [] w w
| ftp_runs_cons i inputs w w1 w2 : enabled i w -> ftp_input_run u i w = Some w1 -> ftp_runs u inputs w1 w2 -> ftp_runs u (i :: inputs) w w2.

(** A line that the client can send: text without a line end and without spaces around it. *)
Definition line_ok (line : jsstring) : Prop :=
  line <> [] /\ utf16_ok line = true /\ split_crlf line = [line] /\ trim_text line = line.

Lemma run_one u line s : line_ok line -> run_lines u [line] s = processMessage u (utf8_encode line) s.
Proof.
  intros (Hne & _). unfold run_lines. cbn [List.filter]. rewrite bool_decide_eq_false_2 by done. cbn [negb each]. unfold seq_action, skip.
  destruct (processMessage u (utf8_encode line) s). by rewrite app_nil_r.
Qed.

Lemma split_crlf_line t : split_crlf t = [t] -> split_crlf (t ++ CRLF) = [t; []].
Proof.
  induction t as [|c|c d t IHt IHdt] using pairs_ind; intros Ht; [done| |].
  - change ([c] ++ CRLF) with [c; 13; 10]. rewrite split_crlf_cons. by rewrite andb_false_r.
  - cbn [app] in *. rewrite split_crlf_cons in Ht |- *. destruct ((c =? 13) && (d =? 10)); [done|].
    destruct (split_crlf (d :: t)) as [|p [|p' ps]]; [done| |done]. injection Ht as ->. by rewrite IHdt.
Qed.

Lemma recv_line u line s : line_ok line ->
  recvMsg u (utf8_encode (line ++ CRLF)) {| messageBuffer := []; session := s |} =
    let '(s', out) := processMessage u (utf8_encode line) s in ({| messageBuffer := []; session := s' |}, out).
Proof.
  intros Hl. pose proof Hl as (Hne & Hok & Hsplit & _). change (@nil Z) with (utf8_encode []) at 1. rewrite (recv_text u [] (line ++ CRLF)); [|done | by rewrite utf16_ok_app | done].
  cbn [app]. unfold complete_lines, rest_of. rewrite split_crlf_line by done. cbn [removelast List.last]. rewrite run_one by done.
  by destruct (processMessage _ _ _).
Qed.

Lemma process_line u line cmd args s s' out : line_ok line -> parse_command line = (cmd, args) -> handleCommand u cmd args s = (s', out, None) ->
  processMessage u (utf8_encode line) s = (s', Received line :: out).
Proof.
  intros (_ & Hok & _ & Ht) Hp Hc. unfold processMessage. rewrite utf8_round_trip, Ht by done. cbv zeta. unfold seq_action, emit. by rewrite Hp, Hc.
Qed.

Lemma sendMsg_open t s : socket s = true -> writable s = true -> sendMsg t s = (s, [Write (utf8_encode t); Write CRLF]).
Proof. intros H1 H2. unfold sendMsg, get_this. by rewrite H1, H2. Qed.

Lemma split_on_app c a b : split_on c (a ++ c :: b) = split_on c a ++ split_on c b.
Proof.
  induction a as [|x a IH]; cbn [app split_on]; [by rewrite Z.eqb_refl|]. destruct (x =? c); rewrite IH; [done|].
  assert (split_on c a <> []) as Hne by (destruct a as [|y a]; cbn; [done|]; destruct (y =? c); [done|]; by destruct (split_on c a)). by destruct (split_on c a).
Qed.

Lemma join_split c s : join_with c (split_on c s) = s.
Proof.
  induction s as [|x s IH]; [done|]. cbn [split_on]. assert (split_on c s <> []) as Hne
    by (destruct s as [|y s]; cbn; [done|]; destruct (y =? c); [done|]; by destruct (split_on c s)).
  destruct (Z.eqb_spec x c) as [->|Hx]; (destruct (split_on c s) as [|p ps]; [done|]).
  - change (join_with c ([] :: p :: ps)) with (c :: join_with c (p :: ps)). by rewrite IH.
  - destruct ps; cbn in *; by rewrite IH.
Qed.

(** A command word and its arguments are read back. *)
Lemma parse_line cmd args : lacks 32 cmd -> parse_command (cmd ++ 32 :: args) = (toUpperCase cmd, args).
Proof.
  intros Hc. unfold parse_command. rewrite split_on_app, split_on_lacks by done. cbn [app].
  change (drop 1 (cmd :: split_on 32 args)) with (split_on 32 args). by rewrite join_split.

Qed.

(** ** The worker *)

(** Sessions by number, and the map from [makeKey] to them; the servers for IPv4 and IPv6 do the same but for the greeting. *)
Module FtpWorker.

Definition makeKey (localIp : jsstring) (localPort : Z) (remoteIp : jsstring) (remotePort : Z) : jsstring :=
  localIp ++ [124] ++ js_number_to_string localPort ++ [124] ++ remoteIp ++ [124] ++ js_number_to_string remotePort.

Inductive worker_effect := SessionDoes (id : nat) (e : ftp_effect) | DestroyUnknown | Respond (success : bool) (clients : list client_info).

Record worker := {
  serving : bool;
  userConfig : option user_config;
  sessions : list FtpConnection;
  ftpSessionMap : jmap jsstring nat
}.

#[global] Instance worker_rebuild : Rebuild worker := fun w => {|
  serving := serving w; userConfig := userConfig w; sessions := sessions w; ftpSessionMap := ftpSessionMap w |}.

Abbreviation worker_action := (action_of worker worker_effect).

(** A method of the session [id]. *)
Definition in_session (id : nat) (a : action_of FtpConnection ftp_effect) : worker_action := fun w =>
  match sessions w !! id with
  | Some c => let '(c, out) := a c in (w <| sessions := <[id := c]> (sessions w) |>, map (SessionDoes id) out)
  | None => (w, [])
  end.

Definition on_data (key : jsstring) (data : buffer) : worker_action :=
  this w =>
    match jmap_get (ftpSessionMap w) key with
    | None => emit DestroyUnknown
    | Some id => in_session id (recvMsg (userConfig w) data)
    end.

(** The listeners of [end], [close] and [error]. *)
Definition on_end (key : jsstring) : worker_action :=
  this w =>
    match jmap_get (ftpSessionMap w) key with
    | None => emit DestroyUnknown
    | Some id => in_session id (on_session closeSession) ;;; assign (fun w => w <| ftpSessionMap := jmap_delete (ftpSessionMap w) key |>)
    end.

(** The assignments to the session's fields and what is sent at the start. *)
Definition greet (welcome lip : jsstring) (lport : Z) (rip : jsstring) (rport : Z) : action :=
  assign (fun s => s <| socket := true |> <| writable := true |> <| localIp := lip |> <| localPort := lport |>
                     <| remoteIp := rip |> <| remotePort := rport |>) ;;;
  sendMsg welcome ;;;
  sendEvent FTP_EVT_ADD.

Definition WELCOME_IPV4 : jsstring := js "220  Welcome to the Mini Tools FTP server".
Definition WELCOME_IPV6 : jsstring := js "220 Welcome to the Mini Tools FTP server".

(** The listener of [createServer]. *)
Definition on_client (welcome localIp : jsstring) (localPort : Z) (remoteIp : jsstring) (remotePort : Z) : worker_action :=
  let key := makeKey localIp localPort remoteIp remotePort in
  this w =>
    match jmap_get (ftpSessionMap w) key with
    | Some id =>
      in_session id (on_session closeSession) ;;;
      assign (fun w => w <| ftpSessionMap := jmap_set (jmap_delete (ftpSessionMap w) key) key id |>) ;;;
      in_session id (on_session (greet welcome localIp localPort remoteIp remotePort))
    | None =>
      let id := length (sessions w) in
      assign (fun w => w <| sessions := sessions w ++ [{| messageBuffer := []; session := new_session localIp localPort remoteIp remotePort |}] |>
                         <| ftpSessionMap := jmap_set (ftpSessionMap w) key id |>) ;;;
      in_session id (on_session (greet welcome localIp localPort remoteIp remotePort))
    end.

(** [startFtp], once both servers listen. *)
Definition startFtp (u : user_config) : worker_action :=
  assign (fun w => w <| serving := true |> <| userConfig := Some u |>) ;;; emit (Respond true []).

Definition stopFtp : worker_action :=
  assign (fun w => w <| serving := false |> <| userConfig := None |>) ;;;
  (this w => each (jmap_values (ftpSessionMap w)) (fun id => in_session id (on_session closeSession))) ;;;
  assign (fun w => w <| ftpSessionMap := [] |>) ;;;
  emit (Respond true []).

Definition getClientList : worker_action :=
  this w => emit (Respond true (omap (fun id => (fun c => client_info_of (session c)) <$> sessions w !! id) (jmap_values (ftpSessionMap w)))).
End FtpWorker.

(** * Claims *)

(** C15: Before a login nothing is touched: in whatever order commands, callbacks, connections and timers come, each
    request to the file system, each listening server and each outgoing data connection of a session comes after a
    line that gave the configured user name and a later line that gave the configured password. *)
Theorem ftp_requires_login u w :
  ftp_reachable (Some u) w ->
  forall l1 e l2, w_log w = l1 ++ e :: l2 -> touches e = true -> logged_in u l1.
Proof. intros Hw. destruct (reachable_safe u w Hw) as (_ & Hs & _). exact Hs. Qed.

(** The pieces in which text arrives do not matter, as long as no character is cut: from the text kept from before,
    all pieces together make the session run the lines of the whole text in order (empty ones left out), and the part
    after the last line end is kept. *)
Theorem ftp_fragmentation u before pieces s :
  utf16_ok before = true -> split_crlf before = [before] -> Forall (fun t => utf16_ok t = true) pieces ->
  let whole := before ++ concat pieces in
  feed u (map utf8_encode pieces) {| messageBuffer := utf8_encode before; session := s |} =
    ({| messageBuffer := utf8_encode (rest_of whole); session := fst (run_lines u (complete_lines whole) s) |},
     snd (run_lines u (complete_lines whole) s)).
Proof.
  intros Hb Hs Hp whole. subst whole. revert before s Hb Hs. induction Hp as [|t pieces Ht _ IH]; intros before s Hb Hs; cbn [map concat feed].
  - rewrite app_nil_r. unfold complete_lines, rest_of. rewrite Hs. done.
  - destruct (complete_app (before ++ t) (concat pieces)) as [Hc Hr]. rewrite app_assoc, Hc, Hr, run_lines_app. unfold seq_action.
    rewrite recv_text by done. destruct (run_lines u (complete_lines (before ++ t)) s) as [s1 o1].
    destruct (rest_lines (before ++ t)) as [H1 H2]. rewrite IH by (done || apply H2; by rewrite utf16_ok_app).
    by destruct (run_lines u _ s1) as [s2 o2].
Qed.

(** A session between two lines, what is registered and the log. *)
Definition mkw (s : FtpSession) (pending : list ftp_callback) (log : list ftp_effect) : ftp_world :=
  {| w_connection := {| messageBuffer := []; session := s |}; w_pending := pending; w_log := log |}.

Lemma data_in u data s pending log s' out : recvMsg u data {| messageBuffer := []; session := s |} = ({| messageBuffer := []; session := s' |}, out) ->
  ftp_input_run u (InData data) (mkw s pending log) = Some (mkw s' (pending ++ concat (map callbacks_of out)) (log ++ out)).
Proof. intros E. cbn [ftp_input_run mkw w_connection]. rewrite E. done. Qed.

Lemma run_in u before cb after v s pending log (a : action) s' out : run_callback cb v = Some a -> a s = (s', out) ->
  ftp_input_run u (InCallback before cb after v) (mkw s pending log) = Some (mkw s' ((before ++ after) ++ concat (map callbacks_of out)) (log ++ out)).
Proof. intros Ha E. cbn [ftp_input_run]. rewrite Ha. unfold on_session. cbn [mkw w_connection session]. rewrite E. done. Qed.

Lemma connect_in u server sock s pending log s' out : on_connection server sock s = (s', out) ->
  ftp_input_run u (InConnection server sock) (mkw s pending log) = Some (mkw s' (pending ++ concat (map callbacks_of out)) (log ++ out)).
Proof. intros E. cbn [ftp_input_run]. unfold on_session. cbn [mkw w_connection session]. rewrite E. done. Qed.

(** C22: A download in passive mode, from the client's two lines to the end: the session listens, tells the port, takes
    the connection, checks the file, opens it on that connection and, when the connection is closed, reports the end and
    closes the server; the session is then as before. *)
Theorem ftp_passive_download u s w file st port sock :
  w_connection w = {| messageBuffer := []; session := s |} -> w_pending w = [] ->
  authenticated s = true -> socket s = true -> writable s = true ->
  dataSocket s = None -> passive s = false -> passiveServer s = None -> waiting s = [] ->
  line_ok (js "RETR " ++ file) -> isFile st = true ->
  let path := path_join [rootDir u; currentDir s; file] in
  existsb (Z.eqb 0) path = false ->
  exists w', ftp_runs (Some u)
    [InData (utf8_encode (js "PASV" ++ CRLF)); InCallback [] (CbListening (servers s)) [] (Port port); InConnection (servers s) sock;
     InData (utf8_encode ((js "RETR " ++ file) ++ CRLF)); InCallback [] (CbRetrAccess file path) [] (Done true);
     InCallback [] (CbRetrStat file path) [] (Stat (Some st)); InCallback [CbReadError sock file] (CbDownloadClosed file (size st)) [] NoValue] w w' /\
  session (w_connection w') = s <| servers := S (servers s) |> /\
  w_log w' = w_log w ++
    [Received (js "PASV"); Listen (servers s) (CbListening (servers s)); Write (utf8_encode (pasv_reply (localIp s) port)); Write CRLF;
     Received (js "RETR " ++ file); FsAccess path R_OK (CbRetrAccess file path); FsStat path (CbRetrStat file path);
     Write (utf8_encode (opening (transferType s) file ++ js " (" ++ js_number_to_string (size st) ++ js " bytes)")); Write CRLF;
     SendEvent (FILE_TRANSFER_START file (size st)) (client_info_of s);
     ReadStream path sock [CbReadError sock file; CbDownloadClosed file (size st)];
     Write (utf8_encode (js "226 Transfer complete")); Write CRLF; EndSocket sock []; CloseServer (servers s);
     SendEvent (FILE_TRANSFER_COMPLETE file (size st)) (client_info_of s)].
Proof.
  intros Hc Hpend Hauth Hsock Hwr Hds Hpa Hps Hwait Hline Hfile path Hnul.
  assert (line_ok (js "PASV")) as Hpasv by (repeat split; by vm_compute).
  set (s1 := s <| passiveServer := Some (servers s) |> <| servers := S (servers s) |>).
  set (s2 := s1 <| passive := true |>). set (s3 := s2 <| dataSocket := Some sock |>).
  assert (recvMsg (Some u) (utf8_encode (js "PASV" ++ CRLF)) {| messageBuffer := []; session := s |} =
    ({| messageBuffer := []; session := s1 |}, [Received (js "PASV"); Listen (servers s) (CbListening (servers s))])) as E1.
  { rewrite recv_line by done. rewrite (process_line _ (js "PASV") (js "PASV") [] s s1 [Listen (servers s) (CbListening (servers s))]); [done..|].
    unfold handleCommand. change (List.find _ _) with (Some (js "PASV", fun _ : jsstring => returns handlePasv)). unfold attempt_this. rewrite Hauth. cbn [negb andb].
    unfold returns, handlePasv, seq_action, get_this. by rewrite Hps. }
  assert (recvMsg (Some u) (utf8_encode ((js "RETR " ++ file) ++ CRLF)) {| messageBuffer := []; session := s3 |} =
    ({| messageBuffer := []; session := s3 |}, [Received (js "RETR " ++ file); FsAccess path R_OK (CbRetrAccess file path)])) as E2.
  { rewrite recv_line by done. rewrite (process_line _ (js "RETR " ++ file) (js "RETR") file s3 s3 [FsAccess path R_OK (CbRetrAccess file path)]); [done | done | |].
    - change (js "RETR " ++ file) with (js "RETR" ++ 32 :: file). rewrite parse_line; [done|]. repeat constructor; done.
    - unfold handleCommand. change (List.find _ _) with (Some (js "RETR", handleRetr (Some u))). unfold attempt_this.
      change (authenticated s3) with (authenticated s). rewrite Hauth. cbn [negb andb]. unfold handleRetr, with_path, with_config, attempt_this, fs_call.
      change (currentDir s3) with (currentDir s). fold path. rewrite Hnul. done. }
  assert (forall t, sendMsg t s1 = (s1, [Write (utf8_encode t); Write CRLF])) as Hsend1 by (intros t; by apply sendMsg_open).
  assert (forall t, sendMsg t s3 = (s3, [Write (utf8_encode t); Write CRLF])) as Hsend3 by (intros t; by apply sendMsg_open).
  set (done_file := [Write (utf8_encode (js "226 Transfer complete")); Write CRLF; EndSocket sock []; CloseServer (servers s);
     SendEvent (FILE_TRANSFER_COMPLETE file (size st)) (client_info_of s)]).
  set (start_file := [Write (utf8_encode (opening (transferType s) file ++ js " (" ++ js_number_to_string (size st) ++ js " bytes)")); Write CRLF;
     SendEvent (FILE_TRANSFER_START file (size st)) (client_info_of s);
     ReadStream path sock [CbReadError sock file; CbDownloadClosed file (size st)]]).
  assert ((this s => if bool_decide (passiveServer s = Some (servers s1 - 1)%nat) then listening port else skip) s1 =
    (s2, [Write (utf8_encode (pasv_reply (localIp s) port)); Write CRLF])) as E3.
  { unfold get_this at 1. rewrite bool_decide_eq_true_2 by (unfold s1; cbn; by rewrite Nat.sub_0_r). unfold listening, seq_action, get_this. by rewrite Hsend1. }
  assert (on_connection (servers s) sock s2 = (s3, [])) as E4.
  { unfold on_connection, seq_action, assign, get_this. fold s3. change (waiting s3) with (waiting s). rewrite Hwait. cbn [List.filter each]. unfold skip.
    f_equal. unfold s3, s2, s1. rewrite <- Hwait. by destruct s. }
  assert (retr_stat file path (Some st) s3 = (s3, start_file)) as E5 by (unfold retr_stat; rewrite Hfile; unfold seq_action, get_this; by rewrite Hsend3).
  assert (download_closed file (size st) s3 = (s <| servers := S (servers s) |>, done_file)) as E6.
  { unfold download_closed, seq_action. rewrite Hsend3. unfold s3, s2, s1. destruct s. cbn in Hds, Hpa, Hps. by subst. }
  replace (servers s1 - 1)%nat with (servers s) in E3 by (unfold s1; cbn; lia).
  assert (w = mkw s [] (w_log w)) as -> by (clear -Hc Hpend; destruct w; cbn [w_connection w_pending] in Hc, Hpend; by subst).
  eexists. split.
  { eapply ftp_runs_cons; [done | apply data_in, E1|].
    eapply ftp_runs_cons; [done | eapply run_in; [reflexivity | exact E3]|].
    eapply ftp_runs_cons; [cbn; lia | apply connect_in, E4|].
    eapply ftp_runs_cons; [done | apply data_in, E2|].
    eapply ftp_runs_cons; [done | eapply run_in; [reflexivity | reflexivity]|].
    eapply ftp_runs_cons; [done | eapply run_in; [reflexivity | exact E5]|].
    eapply ftp_runs_cons; [done | eapply run_in; [reflexivity | exact E6]|]. apply ftp_runs_nil. }
  split; [done|]. cbn [mkw w_log apply_outcome fst snd]. unfold start_file, done_file. rewrite <- !app_assoc. reflexivity.
Qed.

Lemma number_read n : 0 <= n -> js_number_to_string n = dec_digits n /\ number_text (dec_digits n) = dec_digits n /\ lacks 44 (dec_digits n) /\ lacks 46 (dec_digits n).
Proof.
  intros Hn. assert (js_number_to_string n = dec_digits n) as E by (unfold js_number_to_string; by rewrite (proj2 (Z.ltb_ge n 0))). split; [done|].
  split; [unfold number_text; by rewrite Number_dec|]. split; by apply dec_digits_lacks.
Qed.

Lemma no_colon ds : Forall (fun d => 0 <= d) ds -> existsb (Z.eqb 58) (join_with 46 (map dec_digits ds)) = false.
Proof.
  assert (forall d, 0 <= d -> existsb (Z.eqb 58) (dec_digits d) = false) as Hd.
  { intros d H0. pose proof (dec_digits_lacks 58 d H0 eq_refl) as Hl. induction Hl as [|c s Hc _ IH]; [done|]. cbn [existsb]. rewrite IH, orb_false_r. by apply Z.eqb_neq. }
  induction 1 as [|d ds H0 _ IH]; [done|]. destruct ds as [|d2 ds]; [by apply Hd|].
  change (join_with 46 (map dec_digits (d :: d2 :: ds))) with (dec_digits d ++ 46 :: join_with 46 (map dec_digits (d2 :: ds))).
  rewrite existsb_app, Hd by done. cbn [existsb orb]. exact IH.
Qed.

(** The address that the session tells in answer to PASV is the one that PORT reads: its text is six numbers in
    parentheses, and these as arguments of PORT give the session's address and the port. *)
Theorem ftp_pasv_port a b c d port s :
  0 <= a -> 0 <= b -> 0 <= c -> 0 <= d -> 0 <= port < 65536 ->
  let ip := join_with 46 (map js_number_to_string [a; b; c; d]) in
  exists args, pasv_reply ip port = js "227 Entering Passive Mode (" ++ args ++ [41] /\
    dataHost (fst (handlePort args s)) = Some ip /\ dataPort (fst (handlePort args s)) = Some port /\ passive (fst (handlePort args s)) = false.
Proof.
  intros Ha Hb Hc Hd Hp ip. set (ns := [a; b; c; d; port / 256; port mod 256]).
  assert (Forall (fun n => 0 <= n) ns) as Hns by (unfold ns; repeat constructor; zdiv).
  assert (forall l, Forall (fun n => 0 <= n) l -> map js_number_to_string l = map dec_digits l) as Hmap
    by (intros l Hl; induction Hl as [|n l H0 _ IH]; [done|]; cbn [map]; by rewrite IH, (proj1 (number_read n H0))).
  assert (forall l, Forall (fun n => 0 <= n) l -> Forall (lacks 44) (map dec_digits l) /\ Forall (lacks 46) (map dec_digits l) /\ map number_text (map dec_digits l) = map dec_digits l) as Hl.
  { intros l Hl. induction Hl as [|n l H0 _ (IH1 & IH2 & IH3)]; [done|]. destruct (number_read n H0) as (_ & H1 & H2 & H3). cbn [map]. rewrite H1, IH3.
    split; [by constructor|]. split; [by constructor | done]. }
  assert (Forall (fun n => 0 <= n) [a; b; c; d]) as H4 by (by repeat constructor).
  unfold ip. rewrite Hmap by done. exists (join_with 44 (map dec_digits ns)). split.
  - unfold pasv_reply. rewrite no_colon by done. destruct (Hl _ H4) as (_ & H46 & Hnum). rewrite split_join by done. rewrite Hnum.
    rewrite (proj1 (number_read (port / 256) ltac:(zdiv))), (proj1 (number_read (port mod 256) ltac:(zdiv))).
    unfold ns. cbn [map join_with]. f_equal. repeat (cbn [app]; rewrite <- app_assoc). done.
  - unfold handlePort. destruct (Hl _ Hns) as (H44 & _). rewrite split_join by done. unfold ns at 1 2 3. cbn [map].
    rewrite !parseInt10_dec by zdiv. unfold seq_action, assign, sendMsg, get_this. cbn [fst].
    destruct (socket _ && writable _); cbn; (split; [done|]; split; [f_equal; zdiv | done]).
Qed.

Lemma join_three a b c : a <> [] -> b <> [] -> c <> [] -> path_join [a; b; c] = path_join [a; b ++ SLASH :: c].
Proof.
  intros Ha Hb Hc. unfold path_join. cbn [List.filter]. rewrite !bool_decide_eq_false_2 by done || (by destruct b).
  cbn [negb join_slash]. done.
Qed.

(** C36: The root directory does not confine a session: after the login, with the data connection of passive mode open
    and the current directory [/], the name [../x] is a file beside the root directory, and a client that asks for it
    gets its content on the data connection. *)
Theorem ftp_leaves_root u s parent r name st sock :
  Forall plain_segment (parent ++ [r]) -> plain_segment name -> r <> name ->
  rootDir u = absolute_path (parent ++ [r]) -> existsb (Z.eqb 0) (absolute_path (parent ++ [name])) = false ->
  authenticated s = true -> currentDir s = [SLASH] -> passive s = true -> dataSocket s = Some sock -> isFile st = true ->
  let file := js "../" ++ name in
  let path := absolute_path (parent ++ [name]) in
  relative_segments (parent ++ [r]) (parent ++ [name]) = [dotdot_segment; name] /\
  handleCommand (Some u) (js "RETR") file s = (s, [FsAccess path R_OK (CbRetrAccess file path)], None) /\
  retr_access file path true s = (s, [FsStat path (CbRetrStat file path)]) /\
  exists out, retr_stat file path (Some st) s = (s, out ++ [ReadStream path sock [CbReadError sock file; CbDownloadClosed file (size st)]]).
Proof.
  intros Hr Hname Hne Hroot Hnul Hauth Hcd Hpas Hds Hfile file path. split; [|split; [|split; [done|]]].
  - clear -Hne. induction parent as [|p parent IH]; cbn [app relative_segments]; [by rewrite bool_decide_eq_false_2|]. by rewrite bool_decide_eq_true_2.
  - unfold handleCommand. change (List.find _ _) with (Some (js "RETR", handleRetr (Some u))). unfold attempt_this. rewrite Hauth. cbn [negb andb].
    unfold handleRetr, with_path, with_config, attempt_this, fs_call. rewrite Hroot, Hcd.
    assert (path_join [absolute_path (parent ++ [r]); [SLASH]; file] = path) as ->; [|fold path in Hnul; by rewrite Hnul].
    rewrite join_three by (done || by destruct name). unfold file. change ([SLASH] ++ SLASH :: js "../" ++ name) with ((SLASH :: SLASH :: dotdot_segment) ++ SLASH :: name).
    rewrite join_in_root; [|by destruct parent | done | done]. unfold path. do 3 f_equal.
    change (split_slash (SLASH :: SLASH :: dotdot_segment)) with [[]; []; dotdot_segment]. cbn [normalize_segments].
    change (bool_decide (@nil Z = [])) with true. cbn [orb]. change (bool_decide (dotdot_segment = []) || bool_decide (dotdot_segment = dot_segment)) with false.
    change (bool_decide (dotdot_segment = dotdot_segment)) with true. cbv iota. by rewrite removelast_last.
  - unfold retr_stat. rewrite Hfile. unfold seq_action, get_this. unfold sendMsg, get_this.
    assert (createDataConnection (JobRetr file path (size st)) s = (s, [ReadStream path sock [CbReadError sock file; CbDownloadClosed file (size st)]])) as E
      by (unfold createDataConnection, get_this; by rewrite Hpas, Hds).
    destruct (socket s && writable s); unfold seq_action, emit, skip, sendEvent, get_this, emit; rewrite E; eexists; by rewrite app_assoc.
Qed.

(** An upload whose file cannot be written is reported as failed and then, when the data connection is closed, as complete. *)
Theorem ftp_failed_upload_complete s sock :
  socket s = true -> writable s = true -> dataSocket s = Some sock -> passive s = false ->
  (write_error sock ;;; upload_closed) s =
    (s <| dataSocket := None |>,
     [EndSocket sock []; Write (utf8_encode (js "550 Failed to write file")); Write CRLF;
      Write (utf8_encode (js "226 Transfer complete")); Write CRLF; EndSocket sock []]).
Proof.
  intros Hs Hw Hd Hp. unfold write_error, upload_closed, seq_action, emit. rewrite !sendMsg_open by done.
  unfold closeDataConnection, seq_action, get_this. rewrite Hd. unfold emit, assign.
  change (passiveServer (s <| dataSocket := None |>)) with (passiveServer s). change (passive (s <| dataSocket := None |>)) with (passive s). rewrite Hp.
  by destruct (passiveServer s).
Qed.

(** A piece that ends in the middle of a character, after a line end: the bytes of the half are kept as the text
    U+FFFD, so that the name in the second line is another one. *)
Example ftp_character_cut :
  feed None [ascii_encode (js "NOOP") ++ CRLF ++ ascii_encode (js "CWD ") ++ [195]; [169] ++ CRLF]
    {| messageBuffer := []; session := new_session [] 21 [] 0 |} =
  feed None [ascii_encode (js "NOOP") ++ CRLF ++ utf8_encode (js "CWD " ++ [65533; 65533]) ++ CRLF]
    {| messageBuffer := []; session := new_session [] 21 [] 0 |}.
Proof. vm_compute. reflexivity. Qed.

Lemma in_session_eq id a w c : FtpWorker.sessions w !! id = Some c ->
  FtpWorker.in_session id a w = (w <| FtpWorker.sessions := <[id := fst (a c)]> (FtpWorker.sessions w) |>, map (FtpWorker.SessionDoes id) (snd (a c))).
Proof. intros Hc. unfold FtpWorker.in_session. rewrite Hc. by destruct (a c). Qed.

(** A new connection from the same address and port takes over the old session, logged in as it was. *)
Theorem ftp_reconnect_logged_in w welcome lip lport rip rport id c :
  jmap_get (FtpWorker.ftpSessionMap w) (FtpWorker.makeKey lip lport rip rport) = Some id -> FtpWorker.sessions w !! id = Some c ->
  authenticated (session c) = true ->
  let w' := fst (FtpWorker.on_client welcome lip lport rip rport w) in
  jmap_get (FtpWorker.ftpSessionMap w') (FtpWorker.makeKey lip lport rip rport) = Some id /\
  exists c', FtpWorker.sessions w' !! id = Some c' /\ authenticated (session c') = true /\ socket (session c') = true.
Proof.
  intros Hget Hc Hauth w'. subst w'. unfold FtpWorker.on_client, get_this. rewrite Hget. unfold seq_action.
  rewrite (in_session_eq id (on_session closeSession) w c Hc), on_session_eq. cbn [fst snd]. unfold assign.
  set (c1 := {| messageBuffer := messageBuffer c; session := fst (closeSession (session c)) |}) in *.
  set (w1 := w <| FtpWorker.sessions := _ |>). apply lookup_lt_Some in Hc as Hlt.
  set (w2 := w1 <| FtpWorker.ftpSessionMap := _ |>).
  assert (FtpWorker.sessions w2 !! id = Some c1) as Hc1 by (by apply list_lookup_insert_eq).
  rewrite (in_session_eq id _ w2 c1 Hc1), on_session_eq. cbn [fst snd].
  set (c2 := {| messageBuffer := messageBuffer c1; session := _ |}).
  split; [by apply jmap_get_set_eq|]. exists c2.
  split; [apply list_lookup_insert_eq; by apply lookup_lt_Some in Hc1|].
  destruct (mild_closeSession (session c)) as (_ & H1 & _).
  unfold c2. cbn [session]. unfold FtpWorker.greet, seq_action, assign.
  set (s1 := (session c1) <| socket := true |> <| writable := true |> <| localIp := lip |> <| localPort := lport |> <| remoteIp := rip |> <| remotePort := rport |>).
  rewrite (sendMsg_open welcome s1) by done. unfold sendEvent, get_this, emit. cbn [fst]. split; [|done].
  change (authenticated s1) with (authenticated (fst (closeSession (session c)))). by rewrite H1.
Qed.

(** ** Examples *)

Module Examples.

Definition config : user_config := {| cfg_username := js "admin"; cfg_password := js "secret"; rootDir := js "/srv/ftp" |}.
Definition fresh : ftp_world := ftp_world_new (js "10.0.0.1") 21 (js "10.0.0.9") 40000.
Definition login : buffer := ascii_encode (js "USER admin") ++ CRLF ++ ascii_encode (js "PASS secret") ++ CRLF ++ ascii_encode (js "DELE a.txt") ++ CRLF.

Definition logged : ftp_world := default fresh (ftp_input_run (Some config) (InData login) fresh).

Lemma logged_reachable : ftp_reachable (Some config) logged.
Proof. apply (ftp_reach_step _ fresh); [apply ftp_reach_new|]. apply (ftp_step_input _ _ (InData login)); [done|]. vm_compute. reflexivity. Qed.

Lemma ftp_requires_login_witness :
  ftp_reachable (Some config) logged /\
  exists l1 l2, w_log logged = l1 ++ FsAccess (js "/srv/ftp/a.txt") W_OK (CbDeleAccess (js "/srv/ftp/a.txt")) :: l2 /\ logged_in config l1.
Proof.
  split; [exact logged_reachable|].
  assert (exists l1 l2, w_log logged = l1 ++ FsAccess (js "/srv/ftp/a.txt") W_OK (CbDeleAccess (js "/srv/ftp/a.txt")) :: l2) as (l1 & l2 & E).
  { exists (take 8 (w_log logged)), []. vm_compute. reflexivity. }
  exists l1, l2. split; [exact E|].
  exact (ftp_requires_login config logged logged_reachable l1 _ l2 E eq_refl).
Defined.

Definition session0 : FtpSession := session (w_connection fresh).

Lemma ftp_fragmentation_witness :
  let pieces := [js "NO"; js "OP" ++ [13]; [10] ++ js "SYST" ++ CRLF ++ js "QU"] in
  feed (Some config) (map utf8_encode pieces) {| messageBuffer := utf8_encode []; session := session0 |} =
    ({| messageBuffer := utf8_encode (js "QU"); session := session0 |},
     [Received (js "NOOP"); Write (utf8_encode (js "200 NOOP command successful")); Write CRLF;
      Received (js "SYST"); Write (utf8_encode (js "215 UNIX Type: L8")); Write CRLF]).
Proof.
  pose proof (ftp_fragmentation (Some config) [] [js "NO"; js "OP" ++ [13]; [10] ++ js "SYST" ++ CRLF ++ js "QU"] session0 eq_refl eq_refl
    ltac:(repeat (apply list.Forall_cons; split); [vm_compute; reflexivity.. | apply list.Forall_nil_2])) as H.
  cbv zeta in *. rewrite H. vm_compute. reflexivity.
Defined.

(** A session after the login. *)
Definition user_session : FtpSession := session (w_connection logged).

Definition file_stats : stats := {| isDirectory := false; isFile := true; size := 5; mtime := js "Mon Jan 05 2026" |}.

Lemma ftp_passive_download_witness :
  let w := mkw user_session [] [] in
  exists w', ftp_runs (Some config)
    [InData (utf8_encode (js "PASV" ++ CRLF)); InCallback [] (CbListening 0) [] (Port 5001); InConnection 0 7;
     InData (utf8_encode ((js "RETR " ++ js "notes.txt") ++ CRLF)); InCallback [] (CbRetrAccess (js "notes.txt") (js "/srv/ftp/notes.txt")) [] (Done true);
     InCallback [] (CbRetrStat (js "notes.txt") (js "/srv/ftp/notes.txt")) [] (Stat (Some file_stats));
     InCallback [CbReadError 7 (js "notes.txt")] (CbDownloadClosed (js "notes.txt") 5) [] NoValue] w w' /\
  session (w_connection w') = user_session <| servers := 1%nat |>.
Proof.
  cbv zeta.
  destruct (ftp_passive_download config user_session (mkw user_session [] []) (js "notes.txt") file_stats 5001 7 eq_refl eq_refl eq_refl eq_refl eq_refl eq_refl eq_refl eq_refl eq_refl
    ltac:(repeat split; by vm_compute) eq_refl eq_refl) as (w' & Hr & Hs & _).
  exists w'. split; [exact Hr | exact Hs].
Defined.

Lemma ftp_pasv_port_witness :
  exists args, pasv_reply (js "192.168.1.20") 50021 = js "227 Entering Passive Mode (" ++ args ++ [41] /\
    dataHost (fst (handlePort args user_session)) = Some (js "192.168.1.20") /\ dataPort (fst (handlePort args user_session)) = Some 50021.
Proof.
  destruct (ftp_pasv_port 192 168 1 20 50021 user_session ltac:(lia) ltac:(lia) ltac:(lia) ltac:(lia) ltac:(lia)) as (args & E & Hh & Hp & _).
  exists args. split; [exact E|]. split; [exact Hh | exact Hp].
Defined.

Definition receiving : FtpSession := user_session <| passive := true |> <| dataSocket := Some 7%nat |>.

Lemma ftp_leaves_root_witness :
  handleCommand (Some config) (js "RETR") (js "../" ++ js "shadow") receiving =
    (receiving, [FsAccess (js "/srv/shadow") R_OK (CbRetrAccess (js "../shadow") (js "/srv/shadow"))], None) /\
  exists out, retr_stat (js "../shadow") (js "/srv/shadow") (Some file_stats) receiving =
    (receiving, out ++ [ReadStream (js "/srv/shadow") 7 [CbReadError 7 (js "../shadow"); CbDownloadClosed (js "../shadow") 5]]).
Proof.
  destruct (ftp_leaves_root config receiving [js "srv"] (js "ftp") (js "shadow") file_stats 7) as (_ & H1 & _ & H2); try reflexivity.
  - repeat (apply list.Forall_cons; split); [| |apply list.Forall_nil_2]; unfold plain_segment; repeat split; by apply (bool_decide_unpack _); vm_compute.
  - unfold plain_segment; repeat split; by apply (bool_decide_unpack _); vm_compute.
  - intros E. discriminate E.
  - split; [exact H1 | exact H2].
Defined.
End Examples.
