(* ===== verification/NetconfXml.v ===== *)
(** NETCONF documents: [electron/utils/netconf/xml.js], the request and hello texts of
    [builders.js] and the message ids of [client.js].

    A document is a JavaScript string.  The XML parser ([fast-xml-parser]) is a parameter:
    whether it accepts a text, and the tree it makes of it.  The regular expressions are
    written out as matchers; all of them work on ASCII letters without regard to case. *)

From stdpp Require Import base list numbers strings option.
From Stdlib Require Import ZArith Lia.
From S2P Require Import Prelude NodePath JsText Utf8.

Local Open Scope Z_scope.
Local Open Scope js_scope.

Definition DEFAULT_MAX_XML_SIZE : Z := 64 * 1024 * 1024.

Definition XML_TOO_LARGE : js_exn := ErrorCode "NETCONF_XML_TOO_LARGE".
Definition UNSAFE_XML : js_exn := ErrorCode "NETCONF_UNSAFE_XML".
Definition INVALID_XML : js_exn := ErrorCode "NETCONF_INVALID_XML".

(** ** Matching *)

Definition lower (c : Z) : Z := if (65 <=? c) && (c <=? 90) then c + 32 else c.
Definition is_letter (c : Z) : bool := (97 <=? lower c) && (lower c <=? 122).
(** [\w] *)
Definition is_word (c : Z) : bool := is_letter c || is_digit c || (c =? 95).
(** [[A-Za-z_]] and [[\w.-]] *)
Definition name_start (c : Z) : bool := is_letter c || (c =? 95).
Definition name_char (c : Z) : bool := is_word c || (c =? 46) || (c =? 45).

Fixpoint skip_while (p : Z -> bool) (s : jsstring) : jsstring :=
  match s with
  | c :: tl => if p c then skip_while p tl else s
  | [] => []
  end.

(** What follows a literal, given in lower case. *)
Fixpoint literal (pat s : jsstring) : option jsstring :=
  match pat, s with
  | [], _ => Some s
  | p :: ps, c :: cs => if lower c =? p then literal ps cs else None
  | _ :: _, [] => None
  end.

Definition starts_word (s : jsstring) : bool :=
  match s with
  | c :: _ => is_word c
  | [] => false
  end.

(** A literal that ends in a letter, and [\b]. *)
Definition word_literal (pat s : jsstring) : option jsstring :=
  rest ← literal pat s; if starts_word rest then None else Some rest.

(** A name and a colon. *)
Definition name_prefix (s : jsstring) : option jsstring :=
  match s with
  | c :: tl => if name_start c then
                 match skip_while name_char tl with
                 | 58 :: rest => Some rest
                 | _ => None
                 end
               else None
  | [] => None
  end.

Definition or_else {A} (a b : option A) : option A :=
  match a with
  | Some x => Some x
  | None => b
  end.

(** An optional prefix in front of what [m] matches. *)
Definition prefixed {A} (m : jsstring -> option A) (s : jsstring) : option A := or_else (name_prefix s ≫= m) (m s).

(** [<], an optional prefix and the word [name] at the start of a text. *)
Definition tag_open (name s : jsstring) : option jsstring :=
  match s with
  | 60 :: tl => prefixed (word_literal name) tl
  | _ => None
  end.

(** What follows the first [>]. *)
Fixpoint after_gt (s : jsstring) : option jsstring :=
  match s with
  | c :: tl => if c =? 62 then Some tl else after_gt tl
  | [] => None
  end.

(** The part of [s] in front of its tail [rest]. *)
Definition matched (s rest : jsstring) : jsstring := take (length s - length rest) s.

Definition RPC : jsstring := js "rpc".
Definition MESSAGE_ID : jsstring := js "message-id".

(** [.]: not a line terminator. *)
Definition is_line_end (c : Z) : bool := (c =? 10) || (c =? 13) || (c =? 8232) || (c =? 8233).

(** [(.*?)] up to the quote [q]. *)
Fixpoint quoted (q : Z) (s : jsstring) : option jsstring :=
  match s with
  | c :: tl => if c =? q then Some [] else if is_line_end c then None else (fun v => c :: v) <$> quoted q tl
  | [] => None
  end.

(** An attribute [message-id], [=] and its value in single or double quotes. *)
Definition id_attribute (s : jsstring) : option jsstring :=
  rest ← literal MESSAGE_ID s;
  match skip_while is_js_space rest with
  | 61 :: tl =>
    match skip_while is_js_space tl with
    | q :: v => if (q =? 34) || (q =? 39) then quoted q v else None
    | [] => None
    end
  | _ => None
  end.

(** The leftmost match behind a word boundary; [inside] tells whether the character before
    is a word character. *)
Fixpoint search_id (inside : bool) (s : jsstring) : option jsstring :=
  match (if Bool.eqb inside (starts_word s) then None else prefixed id_attribute s) with
  | Some v => Some v
  | None => match s with
            | c :: tl => search_id (is_word c) tl
            | [] => None
            end
  end.

(** A text [<!DOCTYPE] or [<!ENTITY] anywhere, with white space behind the mark. *)
Fixpoint has_declaration (s : jsstring) : bool :=
  match s with
  | [] => false
  | c :: tl =>
    bool_decide (is_Some (rest ← literal (js "<!") s;
                          let t := skip_while is_js_space rest in
                          or_else (word_literal (js "doctype") t) (word_literal (js "entity") t)))
    || has_declaration tl
  end.

Definition assertSafeXml (value : jsstring) (maxXmlSize : option Z) : result jsstring :=
  guard! (blen (utf8_encode value) <=? js_or_number maxXmlSize DEFAULT_MAX_XML_SIZE) else XML_TOO_LARGE in
  guard! negb (has_declaration value) else UNSAFE_XML in
  Ok value.

(** ** Escapes *)

(** [s.replace(/pat/g, rep)] for a literal pattern that is not empty. *)
Fixpoint replace_fuel (fuel : nat) (pat rep s : jsstring) : jsstring :=
  match fuel, s with
  | S f, c :: tl => if startsWith s pat then rep ++ replace_fuel f pat rep (drop (length pat) s)
                    else c :: replace_fuel f pat rep tl
  | _, _ => s
  end.

Definition replace_all (pat rep s : jsstring) : jsstring := replace_fuel (length s) pat rep s.

Definition escapeXml (s : jsstring) : jsstring :=
  replace_all (js ">") (js "&gt;") (replace_all (js "<") (js "&lt;") (replace_all (js "&") (js "&amp;") s)).

Definition escapeXmlAttribute (s : jsstring) : jsstring :=
  replace_all [39] (js "&apos;") (replace_all [34] (js "&quot;") (escapeXml s)).

(** [String.fromCodePoint(n)] *)
Definition fromCodePoint (n : Z) : result jsstring :=
  if n <=? 1114111 then Ok (units_of n) else Throw RangeError.

(** The digits of a reference and what follows its semicolon. *)
Definition reference_end (is_digit : Z -> bool) (s : jsstring) : option (jsstring * jsstring) :=
  match skip_while is_digit s with
  | 59 :: rest => match matched s (59 :: rest) with
                  | [] => None
                  | ds => Some (ds, rest)
                  end
  | _ => None
  end.

Definition is_hex_digit (c : Z) : bool := bool_decide (is_Some (hex_value c)).

(** A hexadecimal reference: its number and what follows. *)
Definition hex_reference (s : jsstring) : option (Z * jsstring) :=
  rest ← literal (js "&#x") s;
  '(ds, rest) ← reference_end is_hex_digit rest; Some (hex_number ds, rest).

(** A decimal reference. *)
Definition dec_reference (s : jsstring) : option (Z * jsstring) :=
  rest ← literal (js "&#") s;
  '(ds, rest) ← reference_end is_digit rest; Some (dec_value ds, rest).

Fixpoint replace_references (reference : jsstring -> option (Z * jsstring)) (fuel : nat) (s : jsstring) : result jsstring :=
  match fuel, s with
  | S f, c :: tl =>
    match reference s with
    | Some (n, rest) => let! u := fromCodePoint n in let! t := replace_references reference f rest in Ok (u ++ t)
    | None => let! t := replace_references reference f tl in Ok (c :: t)
    end
  | _, _ => Ok s
  end.

Definition decodeXmlText (value : jsstring) : result jsstring :=
  let s := replace_all (js "&amp;") (js "&")
             (replace_all (js "&apos;") [39]
                (replace_all (js "&quot;") [34]
                   (replace_all (js "&gt;") (js ">") (replace_all (js "&lt;") (js "<") value)))) in
  let! s := replace_references hex_reference (length s) s in
  replace_references dec_reference (length s) s.

(** ** Request and hello texts *)

Definition BASE_NAMESPACE : jsstring := js "urn:ietf:params:xml:ns:netconf:base:1.0".
Definition BASE_CAPABILITY_PREFIX : jsstring := js "urn:ietf:params:netconf:base:".
Definition DEFAULT_CLIENT_CAPABILITIES : list jsstring := [BASE_CAPABILITY_PREFIX ++ js "1.0"; BASE_CAPABILITY_PREFIX ++ js "1.1"].

Definition requireNonEmpty (value : jsstring) : result jsstring :=
  match trim_text value with
  | [] => Throw TypeError
  | t => Ok t
  end.

Definition validateFragment (fragment : jsstring) : result jsstring :=
  let! value := requireNonEmpty fragment in
  assertSafeXml value None.

(** [[...new Set(list)]] *)
Fixpoint unique_from {A} `{EqDecision A} (seen : list A) (l : list A) : list A :=
  match l with
  | [] => []
  | x :: tl => if bool_decide (x ∈ seen) then unique_from seen tl else x :: unique_from (x :: seen) tl
  end.

Definition unique {A} `{EqDecision A} (l : list A) : list A := unique_from [] l.

Definition quote (s : jsstring) : jsstring := 34 :: s ++ [34].

Definition buildHello (capabilities : list jsstring) : result jsstring :=
  let! checked := map_ok requireNonEmpty capabilities in
  match unique checked with
  | [] => Throw TypeError
  | normalized =>
    Ok (js "<hello xmlns=" ++ quote BASE_NAMESPACE ++ js "><capabilities>"
        ++ concat (map (fun c => js "<capability>" ++ escapeXml c ++ js "</capability>") normalized)
        ++ js "</capabilities></hello>")
  end.

(** The text of a request. *)
Definition rpc_text (messageId fragment : jsstring) : jsstring :=
  js "<rpc xmlns=" ++ quote BASE_NAMESPACE ++ js " message-id=" ++ quote (escapeXmlAttribute messageId) ++ js ">"
  ++ fragment ++ js "</rpc>".

Definition is_envelope (s : jsstring) : bool := bool_decide (is_Some (tag_open RPC (skip_while is_js_space s))).

Definition buildRpc (operation : jsstring) (messageId : option jsstring) : result jsstring :=
  match messageId with
  | None => Throw TypeError
  | Some id =>
    let! id := requireNonEmpty id in
    let! fragment := validateFragment operation in
    guard! negb (is_envelope fragment) else TypeError in
    Ok (rpc_text id fragment)
  end.

(** ** The parsed document *)

(** What the parser makes of a text: JavaScript values, objects as their entries. *)
Inductive xml_value :=
| XUndefined
| XNull
| XText (s : jsstring)
| XNumber (n : Z)
| XBool (b : bool)
| XArray (l : list xml_value)
| XObject (entries : list (jsstring * xml_value)).

Definition localName (name : jsstring) : jsstring :=
  match List.find (fun c => c =? 58) name with
  | None => name
  | Some _ => List.tl (skip_while (fun c => negb (c =? 58)) name)
  end.

Definition asArray (v : xml_value) : list xml_value :=
  match v with
  | XUndefined | XNull => []
  | XArray l => l
  | v => [v]
  end.

Definition TEXT : jsstring := js "#text".
Definition ATTRIBUTE : jsstring := js "@_".

Definition not_empty (t : option jsstring) : list jsstring :=
  match t with
  | None | Some [] => []
  | Some s => [s]
  end.

Fixpoint textValue (v : xml_value) : option jsstring :=
  match v with
  | XUndefined | XNull => None
  | XText s => Some (trim_text s)
  | XNumber n => Some (js_number_to_string n)
  | XBool b => Some (js (if b then "true" else "false"))
  | XArray l =>
    match List.flat_map (fun item => not_empty (textValue item)) l with
    | [] => None
    | values => Some (concat values)
    end
  | XObject entries =>
    (fix own (es : list (jsstring * xml_value)) : option jsstring :=
       match es with
       | [] => None
       | (k, v) :: tl => if bool_decide (k = TEXT) then textValue v else own tl
       end) entries
  end.

Definition is_child (key : jsstring) : bool := negb (startsWith key ATTRIBUTE) && negb (bool_decide (key = TEXT)).

Definition entriesByLocalName (node : xml_value) (wantedName : jsstring) : list xml_value :=
  match node with
  | XObject entries =>
    List.flat_map (fun '(key, value) =>
      if is_child key && bool_decide (localName key = localName wantedName) then asArray value else []) entries
  | _ => []
  end.

Definition childValues := entriesByLocalName.

Definition childText (node : xml_value) (wantedName : jsstring) : option jsstring :=
  match childValues node wantedName with
  | v :: _ => textValue v
  | [] => None
  end.

Definition childTexts (node : xml_value) (wantedName : jsstring) : list jsstring :=
  List.flat_map (fun v => not_empty (textValue v)) (childValues node wantedName).

Fixpoint findAll (node : xml_value) (wanted : jsstring) : list xml_value :=
  match node with
  | XArray l => List.flat_map (fun v => findAll v wanted) l
  | XObject entries =>
    List.flat_map (fun '(key, value) =>
      if is_child key then
        (if bool_decide (localName key = localName wanted) then asArray value else []) ++ findAll value (localName wanted)
      else []) entries
  | _ => []
  end.

Definition findFirst (node : xml_value) (wanted : jsstring) : option xml_value := head (findAll node wanted).

Definition findRoot (document : xml_value) : option (jsstring * xml_value) :=
  match document with
  | XObject entries =>
    '(key, value) ← List.find (fun '(key, _) => negb (startsWith key (js "?")) && is_child key) entries;
    Some (localName key, value)
  | _ => None
  end.

(** [String(value)] *)
Fixpoint String_of (v : xml_value) : jsstring :=
  match v with
  | XUndefined => js "undefined"
  | XNull => js "null"
  | XText s => s
  | XNumber n => js_number_to_string n
  | XBool b => js (if b then "true" else "false")
  | XArray l => join_with 44 (map (fun x => match x with XUndefined | XNull => [] | _ => String_of x end) l)
  | XObject _ => js "[object Object]"
  end.

Definition getAttribute (node : xml_value) (wantedName : jsstring) : option jsstring :=
  match node with
  | XObject entries =>
    '(key, value) ← List.find (fun '(key, _) =>
      startsWith key ATTRIBUTE && bool_decide (localName (drop 2 key) = localName wantedName)) entries;
    match value with
    | XUndefined | XNull => None
    | _ => Some (String_of value)
    end
  | _ => None
  end.

Definition falsy (v : xml_value) : bool :=
  match v with
  | XUndefined | XNull | XText [] | XBool false => true
  | XNumber n => n =? 0
  | _ => false
  end.

(** [values[0] || null] *)
Definition first_or_null (l : list xml_value) : option xml_value :=
  match l with
  | v :: _ => if falsy v then None else Some v
  | [] => None
  end.

(** ** Messages *)

Record rpc_error := {
  error_type : option jsstring;
  error_tag : option jsstring;
  error_severity : option jsstring;
  error_appTag : option jsstring;
  error_path : option jsstring;
  error_message : option jsstring;
  error_messageLanguage : option jsstring;
  error_info : option xml_value
}.

Definition normalizeRpcError (node : xml_value) : rpc_error := {|
  error_type := childText node (js "error-type");
  error_tag := childText node (js "error-tag");
  error_severity := childText node (js "error-severity");
  error_appTag := childText node (js "error-app-tag");
  error_path := childText node (js "error-path");
  error_message := childText node (js "error-message");
  error_messageLanguage := m ← head (childValues node (js "error-message")); getAttribute m (js "lang");
  error_info := first_or_null (childValues node (js "error-info"))
|}.

Inductive message_body :=
| Hello (sessionId : option jsstring) (capabilities : list jsstring)
| RpcReply (messageId : option jsstring) (ok : bool) (data : option xml_value) (errors : list rpc_error)
| Notification (eventTime : option jsstring)
| OtherMessage (type : jsstring).

Record netconf_message := { message_xml : jsstring; document : xml_value; root : xml_value; body : message_body }.

Definition body_of (name : jsstring) (value : xml_value) : message_body :=
  if bool_decide (name = js "hello") then
    let capabilitiesNode := default (XObject []) (first_or_null (childValues value (js "capabilities"))) in
    Hello (childText value (js "session-id")) (childTexts capabilitiesNode (js "capability"))
  else if bool_decide (name = js "rpc-reply") then
    RpcReply (getAttribute value MESSAGE_ID)
      (match childValues value (js "ok") with [] => false | _ => true end)
      (first_or_null (childValues value (js "data")))
      (map normalizeRpcError (childValues value (js "rpc-error")))
  else if bool_decide (name = js "notification") then Notification (childText value (js "eventTime"))
  else OtherMessage name.

Definition extractRpcMessageId (xml : jsstring) : result (option jsstring) :=
  let s := skip_while is_js_space xml in
  match tag_open RPC s ≫= after_gt with
  | None => Ok None
  | Some rest =>
    match search_id false (matched xml rest) with
    | None => Ok None
    | Some v => let! id := decodeXmlText v in Ok (Some id)
    end
  end.

(** The replacement text of [xml.replace(...)]: [$] patterns refer to the match. *)
Fixpoint expand (whole after group1 t : jsstring) : jsstring :=
  match t with
  | 36 :: 36 :: tl => 36 :: expand whole after group1 tl
  | 36 :: 38 :: tl => whole ++ expand whole after group1 tl
  | 36 :: 96 :: tl => expand whole after group1 tl
  | 36 :: 39 :: tl => after ++ expand whole after group1 tl
  | 36 :: 49 :: tl => group1 ++ expand whole after group1 tl
  | 36 :: 48 :: 49 :: tl => group1 ++ expand whole after group1 tl
  | c :: tl => c :: expand whole after group1 tl
  | [] => []
  end.

(** [message-id] put into an envelope that has none. *)
Definition insert_message_id (xml messageId : jsstring) : jsstring :=
  match tag_open RPC xml with
  | None => xml
  | Some rest =>
    let opening := matched xml rest in
    let id := replace_all [34] (js "&quot;") (replace_all (js "&") (js "&amp;") messageId) in
    expand opening rest opening (js "$1 message-id=" ++ quote id) ++ rest
  end.

Section Parser.
(** [XMLValidator.validate(text) === true], and the document of [parse(text)], with the data
    of a reply left as text or not; [None] is an exception. *)
Context (validate : jsstring -> bool) (parse : bool -> jsstring -> option xml_value).

Definition parseValidatedXml (value : jsstring) (opaque : bool) : result xml_value :=
  guard! validate value else INVALID_XML in
  match parse opaque value with
  | Some document => Ok document
  | None => Throw INVALID_XML
  end.

Definition parseXml (xml : jsstring) : result xml_value :=
  let! value := assertSafeXml xml None in
  parseValidatedXml value false.

Definition parseNetconfMessage (xml : jsstring) (maxXmlSize : option Z) (opaque : bool) : result netconf_message :=
  let! value := assertSafeXml xml maxXmlSize in
  let! document := parseValidatedXml value opaque in
  match findRoot document with
  | None => Throw INVALID_XML
  | Some (name, root) => Ok {| message_xml := value; document := document; root := root; body := body_of name root |}
  end.

(** A request text and its message id. *)
Definition ensureRpcEnvelope (operationOrRpc : jsstring) (messageId : option jsstring) : result (jsstring * jsstring) :=
  let! safe := assertSafeXml operationOrRpc None in
  let xml := trim_text safe in
  match tag_open RPC xml with
  | None =>
    let! rpcXml := buildRpc xml messageId in
    let! _ := parseXml rpcXml in
    Ok (rpcXml, default [] messageId)
  | Some _ =>
    let! existingId := extractRpcMessageId xml in
    match existingId, messageId with
    | Some existing, Some id =>
      guard! bool_decide (id = existing) else TypeError in
      let! _ := parseXml xml in Ok (xml, existing)
    | Some existing, None => let! _ := parseXml xml in Ok (xml, existing)
    | None, None => Throw TypeError
    | None, Some id =>
      let withMessageId := insert_message_id xml id in
      let! _ := parseXml withMessageId in Ok (withMessageId, id)
    end
  end.
End Parser.

(** ** Examples *)

Example extracted : extractRpcMessageId (js " <nc:rpc xmlns:nc='u' nc:message-id = '12'><get/></nc:rpc>") = Ok (Some (js "12")).
Proof. vm_compute. reflexivity. Qed.
Example extracted_none : extractRpcMessageId (js "<rpcx message-id='12'/>") = Ok None.
Proof. vm_compute. reflexivity. Qed.
Example extracted_decoded : extractRpcMessageId (js "<rpc message-id='a&amp;#60;&lt;'>") = Ok (Some (js "a<<")).
Proof. vm_compute. reflexivity. Qed.
Example inserted : insert_message_id (js "<rpc a='1'><get/></rpc>") (js "5$1") = js "<rpc message-id=" ++ quote (js "5<rpc") ++ js " a='1'><get/></rpc>".
Proof. vm_compute. reflexivity. Qed.
Example unsafe : has_declaration (js "<a/><!  docType x>") = true /\ has_declaration (js "<!doctypes>") = false.
Proof. vm_compute. auto. Qed.
Example wrong_attribute : extractRpcMessageId (js "<rpc x-message-id='5' message-id='7'>") = Ok (Some (js "5")).
Proof. vm_compute. reflexivity. Qed.

(** ** Lemmas on escapes *)

Lemma startsWith_iff s pat : startsWith s pat = true <-> exists t, s = pat ++ t.
Proof.
  split.
  - revert s. induction pat as [|p ps IH]; intros s; [by exists s|].
    destruct s as [|c cs]; cbn [startsWith]; [done|]. intros [->%Z.eqb_eq [t ->]%IH]%andb_true_iff. by exists t.
  - intros [t ->]. apply startsWith_app.
Qed.

Lemma replace_fuel_enough pat rep : pat <> [] -> forall f1 f2 s, (length s <= f1)%nat -> (length s <= f2)%nat ->
  replace_fuel f1 pat rep s = replace_fuel f2 pat rep s.
Proof.
  intros Hpat. induction f1 as [|f1 IH]; intros f2 s H1 H2.
  - destruct s; [by destruct f2 | cbn in H1; lia].
  - destruct s as [|c tl]; [by destruct f2|]. destruct f2 as [|f2]; [cbn in H2; lia|]. cbn in H1, H2. cbn [replace_fuel].
    destruct pat as [|p ps]; [done|]. case_if; f_equal; apply IH; rewrite ?length_drop; cbn; lia.
Qed.

Lemma replace_all_here pat rep s : pat <> [] -> replace_all pat rep (pat ++ s) = rep ++ replace_all pat rep s.
Proof.
  intros Hpat. unfold replace_all. destruct (pat ++ s) as [|c tl] eqn:E; [by destruct pat|]. cbn [length replace_fuel].
  rewrite <- E, startsWith_app. f_equal. rewrite drop_app_length. apply replace_fuel_enough; [done| |lia].
  apply (f_equal length) in E. rewrite length_app in E. cbn in E. destruct pat; [done|]. cbn in E. lia.
Qed.

Lemma replace_all_not pat rep c s : pat <> [] -> startsWith (c :: s) pat = false ->
  replace_all pat rep (c :: s) = c :: replace_all pat rep s.
Proof. intros Hpat Hs. unfold replace_all. cbn [length replace_fuel]. by rewrite Hs. Qed.

Lemma replace_char c rep s : replace_all [c] rep s = concat (map (fun x => if x =? c then rep else [x]) s).
Proof.
  induction s as [|x s IH]; [done|]. cbn [map concat]. destruct (Z.eqb_spec x c) as [->|Hx].
  - change (c :: s) with ([c] ++ s). by rewrite replace_all_here, IH.
  - rewrite replace_all_not, IH; [done..|]. cbn [startsWith]. rewrite andb_true_r. lia.
Qed.

(** What the escapes make of a character, and the texts their output consists of. *)
Definition escaped (c : Z) : jsstring :=
  if c =? 38 then js "&amp;" else if c =? 60 then js "&lt;" else if c =? 62 then js "&gt;"
  else if c =? 34 then js "&quot;" else if c =? 39 then js "&apos;" else [c].

Lemma concat_map_concat {A} (f g : A -> list A) s : concat (map f (concat (map g s))) = concat (map (fun c => concat (map f (g c))) s).
Proof. induction s as [|c s IH]; [done|]. cbn [map concat]. by rewrite map_app, concat_app, IH. Qed.

Lemma escape_each s : escapeXmlAttribute s = concat (map escaped s).
Proof.
  unfold escapeXmlAttribute, escapeXml. change (js ">") with [62]. change (js "<") with [60]. change (js "&") with [38].
  rewrite !replace_char, !concat_map_concat. f_equal. apply map_ext. intros c. unfold escaped.
  destruct (Z.eqb_spec c 38) as [->|H1]; [reflexivity|]. destruct (Z.eqb_spec c 60) as [->|H2]; [reflexivity|].
  destruct (Z.eqb_spec c 62) as [->|H3]; [reflexivity|]. destruct (Z.eqb_spec c 34) as [->|H4]; [reflexivity|].
  destruct (Z.eqb_spec c 39) as [->|H5]; [reflexivity|].
  repeat (cbn [map concat app]; rewrite ?(proj2 (Z.eqb_neq _ _) H1), ?(proj2 (Z.eqb_neq _ _) H2), ?(proj2 (Z.eqb_neq _ _) H3),
    ?(proj2 (Z.eqb_neq _ _) H4), ?(proj2 (Z.eqb_neq _ _) H5)). done.
Qed.

Definition reference_token (n : jsstring) : jsstring := 38 :: n ++ [59].
Definition entity (n : jsstring) : Prop := Forall (fun c => c <> 38 /\ c <> 59) n.
Definition token (t : jsstring) : Prop := (exists c, t = [c] /\ c <> 38) \/ (exists n, t = reference_token n /\ entity n).

Lemma same_reference n p s : entity n -> entity p -> startsWith (reference_token n ++ s) (reference_token p) = bool_decide (n = p).
Proof.
  intros Hn Hp. unfold reference_token. cbn [app startsWith]. rewrite Z.eqb_refl, <- app_assoc. cbn [andb app].
  revert p Hp. induction n as [|c n IH]; intros [|d p] Hp; cbn [app startsWith].
  - by rewrite Z.eqb_refl, bool_decide_true.
  - apply list.Forall_cons in Hp as [[_ Hd] _]. rewrite (proj2 (Z.eqb_neq d 59)) by done. by rewrite bool_decide_false.
  - apply list.Forall_cons in Hn as [[_ Hd] _]. rewrite (proj2 (Z.eqb_neq 59 c)) by done. by rewrite bool_decide_false.
  - apply list.Forall_cons in Hp as [_ Hp]. apply list.Forall_cons in Hn as [_ Hn]. rewrite IH by done.
    destruct (Z.eqb_spec d c) as [->|Hdc]; cbn [andb].
    + apply bool_decide_ext. split; [by intros ->|by intros [= ->]].
    + symmetry. apply bool_decide_false. by intros [= -> _].
Qed.

Lemma replace_plain p rep u s : Forall (fun c => c <> 38) u ->
  replace_all (reference_token p) rep (u ++ s) = u ++ replace_all (reference_token p) rep s.
Proof.
  induction u as [|c u IH]; [done|]. intros [Hc Hu]%list.Forall_cons. cbn [app].
  rewrite replace_all_not, IH; [done..|]. unfold reference_token. cbn [startsWith]. by rewrite (proj2 (Z.eqb_neq 38 c)).
Qed.

Lemma replace_tokens p rep ts : entity p -> Forall token ts ->
  replace_all (reference_token p) rep (concat ts) =
  concat (map (fun t => if bool_decide (t = reference_token p) then rep else t) ts).
Proof.
  intros Hp. induction ts as [|t ts IH]; [done|]. intros [Ht Hts]%list.Forall_cons. cbn [map concat]. rewrite <- IH by done.
  destruct Ht as [(c & -> & Hc)|(n & -> & Hn)].
  - rewrite replace_plain by by repeat constructor. rewrite bool_decide_false; [done|]. by intros [= ->].
  - destruct (decide (n = p)) as [->|Hne].
    + by rewrite replace_all_here, bool_decide_true.
    + rewrite bool_decide_false by by intros [= Heq%app_inj_tail]; destruct Heq.
      pose proof (same_reference n p (concat ts) Hn Hp) as Hs. rewrite bool_decide_false in Hs by done.
      unfold reference_token at 2 3. cbn [app]. unfold reference_token in Hs at 1. cbn [app] in Hs.
      rewrite replace_all_not by done. f_equal. rewrite replace_plain; [done|]. apply Forall_app. split; [|by repeat constructor].
      eapply list.Forall_impl; [exact Hn|]. by intros c [].
Qed.

(** A text as tokens, the characters of [done] being decoded. *)
Definition half_decoded (done : list Z) (c : Z) : jsstring := if bool_decide (c ∈ done) then [c] else escaped c.

Lemma half_decoded_token done c : 38 ∉ done -> token (half_decoded done c).
Proof.
  intros Hd. unfold half_decoded. case_bool_decide; [left; exists c; split; [done|]; by intros ->|].
  unfold escaped. repeat case_if.
  - right. exists (js "amp"). split; [done | by repeat constructor].
  - right. exists (js "lt"). split; [done | by repeat constructor].
  - right. exists (js "gt"). split; [done | by repeat constructor].
  - right. exists (js "quot"). split; [done | by repeat constructor].
  - right. exists (js "apos"). split; [done | by repeat constructor].
  - left. exists c. split; [done | by apply Z.eqb_neq].
Qed.

(** One pass of [decodeXmlText] decodes the references to one character. *)
Lemma decode_pass done d p s : 38 ∉ done -> entity p -> escaped d = reference_token p ->
  (forall c, escaped c = reference_token p -> c = d) ->
  replace_all (reference_token p) [d] (concat (map (half_decoded done) s)) = concat (map (half_decoded (d :: done)) s).
Proof.
  intros Hd Hp Hesc Hinj. rewrite replace_tokens; [|done|].
  - rewrite map_map. f_equal. apply map_ext. intros c. destruct (decide (c = d)) as [->|Hc].
    + assert (half_decoded (d :: done) d = [d]) as ->; [unfold half_decoded; by rewrite bool_decide_true by apply list_elem_of_here|].
      unfold half_decoded. destruct (decide (d ∈ done)).
      * rewrite bool_decide_false; [by rewrite bool_decide_true|]. rewrite bool_decide_true by done. intros [= _ E]. by destruct p.
      * rewrite bool_decide_true; [done|]. by rewrite bool_decide_false.
    + assert (half_decoded (d :: done) c = half_decoded done c) as ->.
      { unfold half_decoded. by rewrite (bool_decide_ext (c ∈ d :: done) (c ∈ done)) by (rewrite list.elem_of_cons; tauto). }
      rewrite bool_decide_false; [done|].
      unfold half_decoded. case_bool_decide; [intros [= -> E]; by destruct p|]. intros E. by apply Hc, Hinj.
  - apply list.Forall_forall. intros t (c & -> & _)%list_elem_of_fmap. by apply half_decoded_token.
Qed.

Lemma escaped_inj d p c : escaped d = reference_token p -> escaped c = reference_token p -> c = d.
Proof.
  unfold escaped. intros <-.
  repeat match goal with |- context [?x =? ?k] => destruct (Z.eqb_spec x k) as [->|?] end; try done;
    repeat match goal with H : ?x <> ?x |- _ => done end; try (by intros [= ->]); by intros [= ?].
Qed.

(** A closed decidable proposition. *)
Ltac decided := match goal with |- ?P => refine (bool_decide_unpack P _); vm_compute; exact I end.

Definition five_passes (s : jsstring) : jsstring :=
  replace_all (js "&amp;") (js "&")
    (replace_all (js "&apos;") [39]
       (replace_all (js "&quot;") [34] (replace_all (js "&gt;") (js ">") (replace_all (js "&lt;") (js "<") s)))).

Lemma decode_passes done s : 38 ∉ done -> five_passes (concat (map (half_decoded done) s)) = s.
Proof.
  intros Hdone. unfold five_passes.
  assert (forall done d p, escaped d = reference_token p -> Forall (fun c => c <> 38 /\ c <> 59) p -> 38 ∉ done ->
    replace_all (reference_token p) [d] (concat (map (half_decoded done) s)) = concat (map (half_decoded (d :: done)) s)) as Hpass.
  { clear. intros done d p He Hp H38. apply decode_pass; [done..|]. intros c. by apply escaped_inj. }
  change (js "&lt;") with (reference_token (js "lt")). change (js "&gt;") with (reference_token (js "gt")).
  change (js "&quot;") with (reference_token (js "quot")). change (js "&apos;") with (reference_token (js "apos")).
  change (js "&amp;") with (reference_token (js "amp")).
  change (js "<") with [60]. change (js ">") with [62]. change (js "&") with [38].
  assert (forall d, d <> 38 -> forall l, 38 ∉ l -> 38 ∉ d :: l) as Hmore by (intros d Hd l Hl; rewrite list.elem_of_cons; intuition).
  rewrite (Hpass _ 60 (js "lt") eq_refl) by (done || decided).
  rewrite (Hpass _ 62 (js "gt") eq_refl) by (decided || auto).
  rewrite (Hpass _ 34 (js "quot") eq_refl) by (decided || auto).
  rewrite (Hpass _ 39 (js "apos") eq_refl) by (decided || auto).
  rewrite (Hpass _ 38 (js "amp") eq_refl) by (decided || auto 6).
  clear. induction s as [|c s IH]; [done|]. cbn [map concat]. rewrite IH.
  unfold half_decoded, escaped. case_bool_decide as Hc; [done|].
  by repeat (case_if; [exfalso; apply Hc; bool_hyps; subst; rewrite !list.elem_of_cons; tauto|]).
Qed.

(** A text in which no [&#] could start a reference. *)
Definition no_reference (s : jsstring) : Prop := forall a b, s <> a ++ js "&#" ++ b.

Lemma no_hash s : 35 ∉ s -> no_reference s.
Proof. intros Hs a b ->. apply Hs. rewrite !list.elem_of_app. right. left. cbn. rewrite !list.elem_of_cons. auto. Qed.

Lemma no_reference_cons c s : no_reference (c :: s) -> no_reference s.
Proof. intros H a b ->. by apply (H (c :: a) b). Qed.

Lemma literal_hash pat s : no_reference s -> literal (js "&#" ++ pat) s = None.
Proof.
  intros Hs. destruct s as [|a [|b s]]; cbn -[Z.eqb lower]; [done|by case_if|].
  case_if; [|done]. case_if; [|done]. exfalso. apply (Hs [] s). cbn. unfold lower in *. repeat case_if; bool_hyps; subst; try lia; try done.
Qed.

Lemma references_absent reference fuel s : (forall s, no_reference s -> reference s = None) -> no_reference s ->
  replace_references reference fuel s = Ok s.
Proof.
  intros Hr. revert s. induction fuel as [|f IH]; intros s Hs; [by destruct s|]. destruct s as [|c tl]; [done|].
  cbn [replace_references]. rewrite Hr by done. by rewrite IH by by eapply no_reference_cons.
Qed.

Lemma decode_half done s : 38 ∉ done -> no_reference s -> decodeXmlText (concat (map (half_decoded done) s)) = Ok s.
Proof.
  intros Hd Hs. unfold decodeXmlText. cbv zeta. fold (five_passes (concat (map (half_decoded done) s))). rewrite decode_passes by done.
  rewrite references_absent; [|clear; intros s Hs; unfold hex_reference; by rewrite (literal_hash (js "x"))|done].
  cbn [bind_result]. apply references_absent; [|done]. clear. intros s Hs. unfold dec_reference. by rewrite (literal_hash []).
Qed.

(** ** Lemmas on message ids *)

Lemma matched_app a b : matched (a ++ b) b = a.
Proof. unfold matched. rewrite length_app, Nat.add_sub. by rewrite take_app_length. Qed.

Lemma skip_while_shape p s : exists r, s = r ++ skip_while p s /\ Forall (fun c => p c = true) r.
Proof.
  induction s as [|c s (r & Hs & Hr)]; [by exists []|]. cbn [skip_while]. destruct (p c) eqn:Hp; [|by exists []].
  exists (c :: r). split; [cbn; by rewrite <- Hs | by constructor].
Qed.

Lemma skip_while_stop p r c t : Forall (fun c => p c = true) r -> p c = false -> skip_while p (r ++ c :: t) = c :: t.
Proof. intros Hr Hc. induction Hr as [|x r Hx Hr IH]; cbn [app skip_while]; [by rewrite Hc | by rewrite Hx]. Qed.

Lemma literal_shape pat s rest : literal pat s = Some rest ->
  exists r, s = r ++ rest /\ Forall2 (fun c p => lower c = p) r pat /\ forall t, literal pat (r ++ t) = Some t.
Proof.
  revert s. induction pat as [|p ps IH]; intros s; cbn [literal]; [intros [= ->]; by exists []|].
  destruct s as [|c cs]; [done|]. case_if; [|done]. intros (r & -> & Hr & Hl)%IH. bool_hyps. exists (c :: r).
  split; [done|]. split; [by constructor|]. intros t. cbn [app literal]. by rewrite (proj2 (Z.eqb_eq _ _)).
Qed.

(** Characters of the start of a tag. *)
Definition tag_char (c : Z) : Prop := c <> 61 /\ c <> 62 /\ is_js_space c = false.

Lemma name_tag_char c : name_char c = true \/ c = 58 -> tag_char c.
Proof.
  unfold name_char, is_word, is_letter, is_digit, tag_char, is_js_space, lower. intros H.
  assert (c <> 61 /\ c <> 62 /\ 33 <= c <= 127) as (? & ? & ?); [|split; [done|]; split; [done|]; lia].
  destruct (Z.leb_spec 65 c), (Z.leb_spec c 90); cbn [andb] in H; lia.
Qed.

Lemma start_name c : name_start c = true -> name_char c = true.
Proof. unfold name_start, name_char, is_word. destruct (is_letter c), (c =? 95); cbn; try done. by rewrite orb_true_r. Qed.

Lemma name_prefix_shape s rest : name_prefix s = Some rest ->
  exists r, s = r ++ rest /\ Forall tag_char r /\ forall t, name_prefix (r ++ t) = Some t.
Proof.
  destruct s as [|c s]; cbn [name_prefix]; [done|]. case_if; [|done].
  destruct (skip_while_shape name_char s) as (r & Hs & Hr). destruct (skip_while name_char s) as [|d tl]; [done|].
  destruct (decide (d = 58)) as [->|Hd].
  - intros [= <-]. exists (c :: r ++ [58]). split; [cbn; by rewrite Hs, <- app_assoc|]. split.
    + constructor; [apply name_tag_char; left; by apply start_name|]. apply Forall_app. split; [|repeat constructor; apply name_tag_char; auto].
      eapply list.Forall_impl; [exact Hr|]. intros. apply name_tag_char. auto.
    + intros t. cbn [app name_prefix]. rewrite <- app_assoc. cbn [app]. rewrite skip_while_stop by done.
      by destruct (name_start c).
  - by destruct d as [|d|d]; try done; repeat (destruct d as [d|d|]; try done).
Qed.

Lemma rpc_tag_char r : Forall2 (fun c p => lower c = p) r RPC -> Forall (fun c => name_char c = true) r /\ length r = 3%nat.
Proof.
  intros H. split; [|apply Forall2_length in H; by rewrite H].
  assert (Forall (fun p => forall c, lower c = p -> name_char c = true) RPC) as Hp.
  { repeat constructor; intros c; unfold name_char, is_word, is_letter; by intros ->. }
  induction H as [|c p r ps Hc H IH]; [done|]. apply list.Forall_cons in Hp as [Hp1 Hp]. constructor; eauto.
Qed.

Lemma or_else_left {A} (x : A) b : or_else (Some x) b = Some x.
Proof. done. Qed.

(** The start of a tag, and the same start in front of a space. *)
Lemma tag_open_shape s rest : tag_open RPC s = Some rest ->
  exists r, s = 60 :: r ++ rest /\ Forall tag_char r /\ forall t, tag_open RPC (60 :: r ++ 32 :: t) = Some (32 :: t).
Proof.
  destruct s as [|c s]; [done|]. destruct (decide (c = 60)) as [->|Hc].
  2: { by destruct c as [|c|c]; try done; repeat (destruct c as [c|c|]; try done). }
  cbn [tag_open]. unfold prefixed, word_literal.
  assert (forall s rest, (x ← literal RPC s; if starts_word x then None else Some x) = Some rest ->
    exists r, s = r ++ rest /\ Forall (fun c => name_char c = true) r /\ forall t, literal RPC (r ++ t) = Some t) as Hword.
  { clear. intros s rest. destruct (literal RPC s) as [x|] eqn:El; [|done]. cbn [mbind option_bind]. case_if; [done|]. intros [= ->].
    apply literal_shape in El as (r & -> & Hr & Hl). exists r. split; [done|]. split; [by apply rpc_tag_char|done]. }
  assert (forall r, Forall (fun c => name_char c = true) r -> Forall tag_char r) as Hchars.
  { intros r Hr. eapply list.Forall_impl; [exact Hr|]. intros. apply name_tag_char. auto. }
  destruct (name_prefix s ≫= _) as [x|] eqn:Ep.
  - intros [= ->]. destruct (name_prefix s) as [s1|] eqn:En; [|done]. cbn [mbind option_bind] in Ep.
    apply Hword in Ep as (r2 & -> & Hr2 & Hl). apply name_prefix_shape in En as (r1 & -> & Hr1 & Hn).
    exists (r1 ++ r2). split; [by rewrite <- app_assoc|]. split; [apply Forall_app; auto|]. intros t.
    rewrite <- app_assoc, Hn. cbn [mbind option_bind]. by rewrite Hl.
  - intros (r & -> & Hr & Hl)%Hword. exists r. split; [done|]. split; [auto|]. intros t.
    assert (name_prefix (r ++ 32 :: t) = None) as ->; [|cbn [mbind option_bind]; by rewrite Hl].
    destruct Hr as [|c r Hc Hr]; [done|]. cbn [app name_prefix]. rewrite skip_while_stop by done. by destruct (name_start c).
Qed.

(** No attribute starts in a run of such characters. *)
Lemma id_attribute_run r t : Forall tag_char r -> (forall u, skip_while is_js_space t <> 61 :: u) -> id_attribute (r ++ 32 :: t) = None.
Proof.
  intros Hr Ht. unfold id_attribute. destruct (literal MESSAGE_ID (r ++ 32 :: t)) as [rest|] eqn:El; [|done]. cbn [mbind option_bind].
  assert (exists r', rest = r' ++ 32 :: t /\ Forall tag_char r') as (r' & -> & Hr').
  { assert (Forall (fun p => p <> lower 32) MESSAGE_ID) as Hp by (by repeat constructor).
    revert r Hr El. induction MESSAGE_ID as [|p ps IH]; intros r Hr; cbn [literal]; [intros [= <-]; by exists r|].
    apply list.Forall_cons in Hp as [Hp1 Hp]. destruct Hr as [|c r Hc Hr]; cbn [app].
    - case_if; [|done]. by bool_hyps.
    - case_if; [|done]. by apply IH. }
  destruct Hr' as [|c r' (H1 & H2 & H3) Hr']; cbn [app skip_while].
  - change (is_js_space 32) with true. cbn [andb]. cbv iota.
    destruct (skip_while is_js_space t) as [|d u] eqn:E; [done|]. specialize (Ht u).
    destruct d as [|d|d]; try done; repeat (destruct d as [d|d|]; try done).
  - rewrite H3. destruct c as [|c|c]; try done; repeat (destruct c as [c|c|]; try done).
Qed.

Lemma search_run b r t : Forall tag_char r -> (forall u, skip_while is_js_space t <> 61 :: u) ->
  search_id b (r ++ 32 :: t) = search_id false t.
Proof.
  intros Hr Ht. assert (forall r, Forall tag_char r -> prefixed id_attribute (r ++ 32 :: t) = None) as Hnone.
  { clear r Hr. intros r Hr. unfold prefixed. rewrite (id_attribute_run r) by done.
    destruct (name_prefix (r ++ 32 :: t)) as [rest|] eqn:En; [|done]. cbn [mbind option_bind].
    assert (exists r', rest = r' ++ 32 :: t /\ Forall tag_char r') as (r' & -> & Hr'); [|by rewrite id_attribute_run].
    destruct Hr as [|c r Hc Hr]; [done|]. cbn [app name_prefix] in En. destruct (name_start c); [|done].
    induction Hr as [|d r Hd Hr IH]; [done|]. cbn [app skip_while] in En. destruct (name_char d) eqn:Hn; [auto|].
    exists r. split; [|done]. destruct d as [|d|d]; try done; repeat (destruct d as [d|d|]; try done); congruence. }
  revert b. induction Hr as [|c r Hc Hr IH]; intros b.
  - specialize (Hnone [] (list.Forall_nil_2 _)). cbn [app] in *. cbn [search_id]. rewrite Hnone. by destruct (Bool.eqb _ _).
  - specialize (Hnone (c :: r) (list.Forall_cons_2 _ _ _ Hc Hr)). cbn [app] in *. cbn [search_id]. rewrite Hnone.
    destruct (Bool.eqb _ _); apply IH.
Qed.

Lemma quoted_all q v t : Forall (fun c => c <> q /\ is_line_end c = false) v -> quoted q (v ++ q :: t) = Some v.
Proof.
  induction 1 as [|c v [Hc Hl] Hv IH]; cbn [app quoted]; [by rewrite Z.eqb_refl|]. rewrite (proj2 (Z.eqb_neq c q)), Hl, IH; done.
Qed.

Lemma after_gt_lacks u v : Forall (fun c => c <> 62) u -> after_gt (u ++ v) = after_gt v.
Proof. induction 1 as [|c u Hc Hu IH]; [done|]. cbn [app after_gt]. by rewrite (proj2 (Z.eqb_neq c 62)). Qed.

(** An id that a request can carry: not blank at its ends, on one line, without [$] and [>], and
    without a text that looks like a character reference. *)
Record plain_id (id : jsstring) : Prop := {
  id_trimmed : trim_text id = id;
  id_present : id <> [];
  id_chars : Forall (fun c => is_line_end c = false /\ c <> 36 /\ c <> 62) id;
  id_reference : no_reference id
}.

Lemma plain_decimal n : 0 <= n -> plain_id (dec_digits n).
Proof.
  intros Hn. pose proof (dec_digits_digits n Hn) as Hd.
  assert (forall c, is_digit c = true -> 48 <= c <= 57) as Hdigit by (intros c; unfold is_digit; lia).
  split; [| apply dec_digits_nonempty | |].
  - unfold trim_text. rewrite (trim_start_digits (dec_digits n)) by done. rewrite trim_start_digits; [apply reverse_involutive|].
    by apply list.Forall_reverse.
  - eapply list.Forall_impl; [exact Hd|]. intros c Hc%Hdigit. unfold is_line_end. split; lia.
  - apply no_hash. intros Hin. pose proof (proj1 (list.Forall_forall _ _) Hd 35 Hin) as H. apply Hdigit in H. lia.
Qed.

(** An id in an attribute. *)
Definition in_attribute (done : list Z) (id : jsstring) : jsstring := concat (map (half_decoded done) id).

Definition value_char (c : Z) : Prop := is_line_end c = false /\ c <> 36 /\ c <> 62 /\ c <> 34.

Lemma attribute_chars done id : 34 ∉ done -> Forall (fun c => is_line_end c = false /\ c <> 36 /\ c <> 62) id ->
  Forall value_char (in_attribute done id).
Proof.
  intros Hq Hid. unfold in_attribute. induction Hid as [|c id (H1 & H2 & H3) Hid IH]; [constructor|]. cbn [map concat].
  apply Forall_app. split; [|done]. unfold half_decoded, escaped. repeat case_if; try (repeat constructor; done).
  - constructor; [|constructor]. split; [done|]. split; [done|]. split; [done|]. intros ->. by case_bool_decide.
  - constructor; [|constructor]. split; [done|]. split; [done|]. split; [done|]. by apply Z.eqb_neq.
Qed.

Lemma quoted_attribute done id t : 34 ∉ done -> plain_id id -> quoted 34 (in_attribute done id ++ 34 :: t) = Some (in_attribute done id).
Proof.
  intros Hq Hid. apply quoted_all. eapply list.Forall_impl; [by apply attribute_chars, id_chars|]. intros c (? & _ & _ & ?). done.
Qed.

Lemma search_hit b s v : Bool.eqb b (starts_word s) = false -> prefixed id_attribute s = Some v -> search_id b s = Some v.
Proof. intros Hb Hp. destruct s; cbn [search_id]; by rewrite Hb, Hp. Qed.

(** The attribute itself is found. *)
Lemma search_here done id t : 34 ∉ done -> plain_id id ->
  search_id false (js "message-id=" ++ 34 :: in_attribute done id ++ 34 :: t) = Some (in_attribute done id).
Proof.
  intros Hq Hid. pose proof (quoted_attribute done id t Hq Hid) as Hv.
  set (v := in_attribute done id) in *. set (w := v ++ 34 :: t) in *.
  assert (id_attribute (js "message-id=" ++ 34 :: w) = quoted 34 w) as Hi by reflexivity.
  apply search_hit; [reflexivity|]. unfold prefixed. rewrite Hi, Hv. reflexivity.
Qed.

Lemma extract_found done id opening rest : 34 ∉ done -> 38 ∉ done -> plain_id id ->
  tag_open RPC (opening ++ rest) ≫= after_gt = Some rest ->
  search_id false opening = Some (in_attribute done id) -> skip_while is_js_space (opening ++ rest) = opening ++ rest ->
  extractRpcMessageId (opening ++ rest) = Ok (Some id).
Proof.
  intros H34 H38 Hid Ht Hs Hsk. unfold extractRpcMessageId. cbv zeta. rewrite Hsk, Ht, matched_app, Hs.
  unfold in_attribute. rewrite decode_half by (done || by apply id_reference). done.
Qed.

Lemma fragment_found id fragment : plain_id id -> extractRpcMessageId (rpc_text id fragment) = Ok (Some id).
Proof.
  intros Hid. unfold rpc_text. rewrite escape_each. change (concat (map escaped id)) with (in_attribute [] id).
  set (v := in_attribute [] id).
  set (opening := js "<rpc xmlns=" ++ quote BASE_NAMESPACE ++ js " " ++ (js "message-id=" ++ 34 :: v ++ [34; 62])).
  match goal with |- extractRpcMessageId ?t = _ => replace t with (opening ++ fragment ++ js "</rpc>") end.
  2: { unfold opening, quote. rewrite <- ?app_assoc. cbn [app]. rewrite <- ?app_assoc. reflexivity. }
  assert (Forall (fun c => c <> 62) v) as Hv.
  { eapply list.Forall_impl; [apply attribute_chars, id_chars; [decided | done]|]. intros c (_ & _ & ? & _). done. }
  apply (extract_found []); try done; try decided.
  - unfold opening. set (rest := fragment ++ _).
    assert (forall t, tag_open RPC (js "<rpc xmlns=" ++ t) = Some (js " xmlns=" ++ t)) as Hopen by reflexivity.
    rewrite <- app_assoc, Hopen. cbn [mbind option_bind].
    match goal with |- after_gt ?x = _ =>
      replace x with ((js " xmlns=" ++ quote BASE_NAMESPACE ++ js " message-id=" ++ [34]) ++ v ++ [34] ++ 62 :: rest) by
        (cbn; rewrite <- ?app_assoc; reflexivity) end.
    by rewrite !after_gt_lacks by (done || by repeat constructor).
  - unfold opening.
    assert (forall t, search_id false (js "<rpc xmlns=" ++ quote BASE_NAMESPACE ++ js " " ++ t) = search_id false t) as Hskip.
    { intros t. reflexivity. }
    rewrite Hskip. change [34; 62] with (34 :: [62]). by apply search_here; [decided|].
Qed.

Lemma expand_plain whole after group1 t : Forall (fun c => c <> 36) t -> expand whole after group1 t = t.
Proof.
  induction 1 as [|c t Hc Ht IH]; [done|]. cbn [expand].
  destruct c as [|c|c]; try (by rewrite IH); repeat (destruct c as [c|c|]; try (by rewrite IH)).
Qed.

Lemma insertion_escape id :
  replace_all [34] (js "&quot;") (replace_all (js "&") (js "&amp;") id) = in_attribute [60; 62; 39] id.
Proof.
  change (js "&") with [38]. rewrite !replace_char, concat_map_concat. unfold in_attribute. f_equal. apply map_ext. intros c.
  unfold half_decoded. destruct (Z.eqb_spec c 38) as [->|H1]; [reflexivity|]. cbn [map concat app].
  destruct (Z.eqb_spec c 34) as [->|H2]; [reflexivity|]. case_bool_decide as Hc; [done|].
  rewrite !list.elem_of_cons in Hc. unfold escaped. rewrite (proj2 (Z.eqb_neq c 38)), (proj2 (Z.eqb_neq c 34)) by done.
  rewrite (proj2 (Z.eqb_neq c 60)), (proj2 (Z.eqb_neq c 62)), (proj2 (Z.eqb_neq c 39)) by tauto. done.
Qed.

Lemma expand_group whole after group1 t : expand whole after group1 (36 :: 49 :: t) = group1 ++ expand whole after group1 t.
Proof. reflexivity. Qed.

Definition attribute_text (v : jsstring) : jsstring := js " message-id=" ++ quote v.

Lemma insertion_text id r rest : plain_id id -> tag_open RPC (60 :: r ++ rest) = Some rest ->
  insert_message_id (60 :: r ++ rest) id = (60 :: r) ++ attribute_text (in_attribute [60; 62; 39] id) ++ rest.
Proof.
  intros Hid Ht. unfold insert_message_id. rewrite Ht. cbv zeta. change (60 :: r ++ rest) with ((60 :: r) ++ rest).
  rewrite matched_app, insertion_escape.
  assert (Forall value_char (in_attribute [60; 62; 39] id)) as Hv by (apply attribute_chars, id_chars; [decided | done]).
  revert Hv. generalize (in_attribute [60; 62; 39] id). intros v Hv.
  assert (Forall (fun c => c <> 36) v) as Hv36 by (eapply list.Forall_impl; [exact Hv|]; by intros c (_ & ? & _ & _)).
  change (js "$1 message-id=" ++ quote v) with (36 :: 49 :: attribute_text v).
  rewrite expand_group, expand_plain, <- app_assoc; [reflexivity|].
  unfold attribute_text. apply Forall_app. split; [by repeat constructor|]. constructor; [done|]. apply Forall_app. by repeat constructor.
Qed.

Lemma after_gt_shape rest body : after_gt rest = Some body -> exists u, rest = u ++ body.
Proof.
  induction rest as [|c rest IH]; cbn [after_gt]; [done|]. case_if; [intros [= <-]; by exists [c]|].
  intros [u ->]%IH. by exists (c :: u).
Qed.

Lemma attribute_passed v rest : Forall value_char v -> after_gt (attribute_text v ++ rest) = after_gt rest.
Proof.
  intros Hv. unfold attribute_text, quote. rewrite <- !app_assoc. rewrite after_gt_lacks by by repeat constructor.
  change ((34 :: v ++ [34]) ++ rest) with ([34] ++ (v ++ [34]) ++ rest). rewrite <- app_assoc.
  rewrite !after_gt_lacks; [done | by repeat constructor | | by repeat constructor].
  eapply list.Forall_impl; [exact Hv|]. by intros c (_ & _ & ? & _).
Qed.

Lemma insertion_found id xml rest : plain_id id -> tag_open RPC xml = Some rest -> is_Some (after_gt rest) ->
  extractRpcMessageId (insert_message_id xml id) = Ok (Some id).
Proof.
  intros Hid Ht [body Hgt]. pose proof (tag_open_shape _ _ Ht) as (r & -> & Hr & Hopen). rewrite insertion_text by done.
  destruct (after_gt_shape _ _ Hgt) as [u ->].
  assert ((34 ∉ [60; 62; 39]) /\ (38 ∉ [60; 62; 39])) as [Hq Ha] by decided. revert Hq Ha. generalize [60; 62; 39]. intros done Hq Ha.
  assert (Forall value_char (in_attribute done id)) as Hv by (apply attribute_chars, id_chars; auto).
  pose proof (search_here done id u Hq Hid) as Hs.
  replace ((60 :: r) ++ attribute_text (in_attribute done id) ++ u ++ body)
    with (((60 :: r) ++ attribute_text (in_attribute done id) ++ u) ++ body) by (by rewrite <- !app_assoc).
  assert (forall t, attribute_text (in_attribute done id) ++ t = 32 :: js "message-id=" ++ 34 :: in_attribute done id ++ 34 :: t) as Htext.
  { intros t. unfold attribute_text, quote. rewrite <- app_assoc. cbn [app]. by rewrite <- app_assoc. }
  apply (extract_found done); [exact Hq | exact Ha | exact Hid | | | reflexivity].
  - rewrite <- !app_assoc. cbn [app]. pose proof (attribute_passed _ (u ++ body) Hv) as Hp. rewrite Htext in Hp |- *.
    rewrite Hopen. cbn [mbind option_bind]. by rewrite Hp.
  - rewrite Htext, search_run; [exact Hs | by repeat constructor | intros w; discriminate].
Qed.

(** The id of a request is the id in its text. *)
Lemma envelope_id validate parse operation id xml key :
  plain_id id ->
  (forall rest, tag_open RPC (trim_text operation) = Some rest -> is_Some (after_gt rest)) ->
  ensureRpcEnvelope validate parse operation (Some id) = Ok (xml, key) ->
  key = id /\ extractRpcMessageId xml = Ok (Some id).
Proof.
  intros Hid Hgt. unfold ensureRpcEnvelope, assertSafeXml. case_if; [|done]. case_if; [|done]. cbn [bind_result]. cbv zeta.
  destruct (tag_open RPC (trim_text operation)) as [rest|] eqn:Ht.
  - destruct (extractRpcMessageId (trim_text operation)) as [[existing|]|e] eqn:Ex; cbn [bind_result]; [| |done].
    + case_bool_decide as Heq; [|done]. subst existing. destruct (parseXml _ _ _); cbn [bind_result]; [|done]. by intros [= <- <-].
    + destruct (parseXml _ _ _); cbn [bind_result]; [|done]. intros [= <- <-]. split; [done|].
      eapply insertion_found; [done | done | by apply Hgt].
  - unfold buildRpc. unfold requireNonEmpty at 1. rewrite id_trimmed by done.
    pose proof (id_present _ Hid) as Hne. destruct id as [|c id]; [done|]. cbn [bind_result].
    destruct (validateFragment _) as [fragment|] eqn:Ef; cbn [bind_result]; [|done]. case_if; [|done]. cbn [bind_result].
    destruct (parseXml _ _ _); cbn [bind_result]; [|done]. intros [= <- <-]. split; [done|]. by apply fragment_found.
Qed.

(** the message id under which a request waits for its reply is the id that its text carries, whether the caller gave a
    bare operation, an envelope with an id or an envelope without one, for an id that is trimmed, on one line and free of
    character references. *)
Theorem request_carries_its_id validate parse operation id xml key :
  plain_id id ->
  (forall rest, tag_open RPC (trim_text operation) = Some rest -> is_Some (after_gt rest)) ->
  ensureRpcEnvelope validate parse operation (Some id) = Ok (xml, key) ->
  key = id /\ extractRpcMessageId xml = Ok (Some id).
Proof. apply envelope_id. Qed.

Lemma request_carries_its_id_witness :
  let id := js "7<&" in
  exists xml, ensureRpcEnvelope (fun _ => true) (fun _ _ => Some XNull) (js " <get/> ") (Some id) = Ok (xml, id) /\
  (id = id /\ extractRpcMessageId xml = Ok (Some id)).
Proof.
  intros id. eexists. split; [vm_compute; reflexivity|].
  refine (request_carries_its_id (fun _ => true) (fun _ _ => Some XNull) (js " <get/> ") id _ id _ _ _).
  - split; [vm_compute; reflexivity | discriminate | by repeat constructor |].
    apply no_hash. decided.
  - intros rest. vm_compute. discriminate.
  - vm_compute. reflexivity.
Defined.

(** escaping a text for an attribute and decoding it gives the text back, unless the text holds a character reference of
    its own; such a text is decoded twice. *)
Theorem attribute_round_trip s :
  (no_reference s -> decodeXmlText (escapeXmlAttribute s) = Ok s) /\
  decodeXmlText (escapeXmlAttribute (js "&#60;")) = Ok (js "<").
Proof.
  split; [|vm_compute; reflexivity]. intros Hs. rewrite escape_each. change escaped with (half_decoded []).
  by apply decode_half; [decided|].
Qed.

Lemma attribute_round_trip_witness :
  decodeXmlText (escapeXmlAttribute (js "a<&b")) = Ok (js "a<&b").
Proof.
  refine (proj1 (attribute_round_trip (js "a<&b")) _).
  apply no_hash. decided.
Defined.
