(* ===== verification/NetconfClient.v ===== *)
(** The NETCONF client: [electron/utils/netconf/client.js].

    One session over one transport: the exchange of hellos with the NETCONF 1.0 framing, the
    negotiated framing behind it, calls that wait for their replies under their message ids.
    A client reacts to events: calls of its methods, data and the end of the transport, the
    result of the transport factory, timers.  What promises do in microtasks runs at the end of
    an event ([microtasks]).  The promise of a call is its number.  Transports are numbered;
    whether a [write] returns is given with the event.  Listeners of the client's own events do
    not call it back. *)

From stdpp Require Import base list numbers strings option.
From Stdlib Require Import ZArith Lia.
From S2P Require Import Prelude Actions StreamDecoder NetconfFraming NodePath JsText JsMap Utf8 NetconfXml.

Local Open Scope Z_scope.
Local Open Scope js_scope.

(** ** Errors *)

Definition INVALID_STATE : js_exn := ErrorCode "NETCONF_INVALID_STATE".
Definition INVALID_TRANSPORT : js_exn := ErrorCode "NETCONF_INVALID_TRANSPORT".
Definition HELLO_TIMEOUT : js_exn := ErrorCode "NETCONF_HELLO_TIMEOUT".
Definition TRANSPORT_ERROR : js_exn := ErrorCode "NETCONF_TRANSPORT_ERROR".
Definition TRANSPORT_ENDED : js_exn := ErrorCode "NETCONF_TRANSPORT_ENDED".
Definition TRANSPORT_CLOSED : js_exn := ErrorCode "NETCONF_TRANSPORT_CLOSED".
Definition WRITE_FAILED : js_exn := ErrorCode "NETCONF_WRITE_FAILED".
Definition PROTOCOL_ERROR : js_exn := ErrorCode "NETCONF_PROTOCOL_ERROR".
Definition EXPECTED_HELLO : js_exn := ErrorCode "NETCONF_EXPECTED_HELLO".
Definition HELLO_NO_SESSION_ID : js_exn := ErrorCode "NETCONF_HELLO_NO_SESSION_ID".
Definition NO_COMMON_BASE : js_exn := ErrorCode "NETCONF_NO_COMMON_BASE".
Definition NOT_CONNECTED : js_exn := ErrorCode "NETCONF_NOT_CONNECTED".
Definition DUPLICATE_MESSAGE_ID : js_exn := ErrorCode "NETCONF_DUPLICATE_MESSAGE_ID".
Definition RETIRED_MESSAGE_ID : js_exn := ErrorCode "NETCONF_RETIRED_MESSAGE_ID".
Definition RPC_TIMEOUT : js_exn := ErrorCode "NETCONF_RPC_TIMEOUT".
Definition RPC_CANCELLED : js_exn := ErrorCode "NETCONF_RPC_CANCELLED".
Definition DISCONNECTED : js_exn := ErrorCode "NETCONF_DISCONNECTED".

(** [error instanceof NetconfProtocolError], for what [_handleData] can throw. *)
Definition protocol_error (e : js_exn) : js_exn :=
  if bool_decide (e ∈ [EXPECTED_HELLO; HELLO_NO_SESSION_ID; NO_COMMON_BASE]) then e else PROTOCOL_ERROR.

Definition MAX_INLINE_RPC_REPLY_BYTES : Z := 256 * 1024.
Definition DEFAULT_RPC_TIMEOUT : Z := 300000.

(** ** State *)

Inductive client_state := Idle | Connecting | Greeting | Connected | Closed.

#[export] Instance client_state_eq_dec : EqDecision client_state.
Proof. solve_decision. Defined.

Record session_info := { info_sessionId : option jsstring; info_capabilities : list jsstring; info_baseVersion : option string }.

(** [_connectPromise]: what [_connect] waits for. *)
Inductive connect_stage :=
| AwaitFactory
| AwaitHello
| HelloResolved (info : session_info)
| HelloRejected (e : js_exn).

(** An entry of [pending]. *)
Record call := { promise : nat; requestXml : jsstring; rejectOnRpcError : bool }.

#[export] Instance call_eq_dec : EqDecision call.
Proof. solve_decision. Defined.

Record client := {
  clientCapabilities : list jsstring;
  rpcTimeout : Z;
  helloTimeout : Z;
  maxMessageSize : option Z;
  maxChunkSize : option Z;
  chunkSize : option Z;
  transport : option nat;
  state : client_state;
  sessionId : option jsstring;
  capabilities : list jsstring;
  baseVersion : option string;
  pending : jmap jsstring call;
  retired : list jsstring;
  nextMessageId : Z;
  helloFramer : option DelimiterFramer;
  session_framer : option framer;
  helloTimer : bool;
  helloOpen : bool;
  connectPromise : option connect_stage;
  listening : option nat;
  closeEmitted : bool;
  inbound : Z;
  timers : list (jsstring * call);
  closers : list nat;
  issued : nat
}.

#[export] Instance client_rebuild : Rebuild client := fun c => {|
  clientCapabilities := clientCapabilities c; rpcTimeout := rpcTimeout c; helloTimeout := helloTimeout c;
  maxMessageSize := maxMessageSize c; maxChunkSize := maxChunkSize c; chunkSize := chunkSize c;
  transport := transport c; state := state c; sessionId := sessionId c; capabilities := capabilities c;
  baseVersion := baseVersion c; pending := pending c; retired := retired c; nextMessageId := nextMessageId c;
  helloFramer := helloFramer c; session_framer := session_framer c; helloTimer := helloTimer c; helloOpen := helloOpen c;
  connectPromise := connectPromise c; listening := listening c; closeEmitted := closeEmitted c; inbound := inbound c;
  timers := timers c; closers := closers c; issued := issued c |}.

Inductive client_effect :=
| Write (t : nat) (data : buffer) | Bind (t : nat) | Unbind (t : nat) | Destroy (t : nat) | End (t : nat)
| CallFactory
| StartTimer (p : nat) (ms : Z) | ClearTimer (p : nat)
| StartHelloTimer (ms : Z) | ClearHelloTimer
| Resolve (p : nat) (reply : netconf_message) (sequence : Z) (requestXml : jsstring)
| RejectReply (p : nat) (errors : list rpc_error) (reply : netconf_message) (requestXml : jsstring)
| Reject (p : nat) (e : js_exn) (requestXml messageId : option jsstring)
| ConnectResolves (info : session_info) | ConnectRejects (e : js_exn) | UnhandledRejection (e : js_exn)
| EmitConnected (info : session_info)
| EmitOrphan (reply : netconf_message) (sequence : Z)
| EmitNotification (m : netconf_message) (sequence : Z)
| EmitMessage (m : netconf_message) (sequence : Z)
| EmitProtocolError (e : js_exn)
| EmitClose (e : js_exn).

Definition client_action : Type := action_of client client_effect.
Definition client_attempt : Type := attempt_of client client_effect.

(** ** Construction *)

Definition capabilitySet (capabilities : list jsstring) : list jsstring :=
  unique (List.filter (fun c => bool_decide (c <> [])) (map trim_text capabilities)).

Definition supportsBase (capabilities : list jsstring) (version : string) : bool :=
  let expected := BASE_CAPABILITY_PREFIX ++ js version in
  existsb (fun c => bool_decide (c = expected) || startsWith c (expected ++ js "?")) capabilities.

(** Options of the constructor; the times and the first id are whole numbers. *)
Record client_options := {
  given_capabilities : option (list jsstring);
  given_transport : option nat;
  given_rpcTimeout : option Z;
  given_helloTimeout : option Z;
  given_maxMessageSize : option Z;
  given_maxChunkSize : option Z;
  given_chunkSize : option Z;
  initialMessageId : option Z
}.

Definition NetconfClient_new (o : client_options) : result client :=
  let caps := capabilitySet (default DEFAULT_CLIENT_CAPABILITIES (given_capabilities o)) in
  let rpc_ms := default DEFAULT_RPC_TIMEOUT (given_rpcTimeout o) in
  let hello_ms := default 20000 (given_helloTimeout o) in
  let first_id := default 1 (initialMessageId o) in
  guard! 0 <? rpc_ms else TypeError in
  guard! 0 <? hello_ms else TypeError in
  guard! supportsBase caps "1.0" || supportsBase caps "1.1" else TypeError in
  guard! is_safe_integer first_id && (0 <=? first_id) else TypeError in
  Ok {| clientCapabilities := caps; rpcTimeout := rpc_ms; helloTimeout := hello_ms;
        maxMessageSize := given_maxMessageSize o; maxChunkSize := given_maxChunkSize o; chunkSize := given_chunkSize o;
        transport := given_transport o; state := Idle; sessionId := None; capabilities := []; baseVersion := None;
        pending := []; retired := []; nextMessageId := first_id; helloFramer := None; session_framer := None;
        helloTimer := false; helloOpen := false; connectPromise := None; listening := None; closeEmitted := false;
        inbound := 0; timers := []; closers := []; issued := 0 |}.

Definition connected (c : client) : bool := bool_decide (state c = Connected).

Definition framerOptions (c : client) : framer_options := {|
  opt_maxMessageSize := maxMessageSize c; opt_maxChunkSize := maxChunkSize c; opt_encoding := None |}.

Definition sessionInfo (c : client) : session_info := {|
  info_sessionId := sessionId c; info_capabilities := capabilities c; info_baseVersion := baseVersion c |}.

Definition supports (c : client) (capability : jsstring) : bool := bool_decide (capability ∈ capabilities c).
Definition supportsCapabilityPrefix (c : client) (prefix : jsstring) : bool := existsb (fun x => startsWith x prefix) (capabilities c).

(** Text of the framers: UTF-8, the only encoding the client asks for. *)
Definition decode_text (_ : string) (b : buffer) : jsstring := utf8_decode b.

(** ** The end of a session *)

(** The timers other than that of the promise [p]; a timer is what its callback refers to. *)
Definition without_timer (p : nat) (l : list (jsstring * call)) : list (jsstring * call) :=
  List.filter (fun t => negb (Nat.eqb (promise (snd t)) p)) l.

Definition clearTimeout (p : nat) : client_action :=
  assign (fun c => c <| timers := without_timer p (timers c) |>) ;;; emit (ClearTimer p).

Definition clearHelloTimer : client_action := this c =>
  if helloTimer c then emit ClearHelloTimer ;;; assign (fun c => c <| helloTimer := false |>) else skip.

(** [withRpcContext] adds the request to the error. *)
Definition rejectPending (e : js_exn) : client_action := this c =>
  each (pending c) (fun '(messageId, x) =>
    clearTimeout (promise x) ;;; emit (Reject (promise x) e (Some (requestXml x)) (Some messageId))) ;;;
  assign (fun c => c <| pending := [] |>).

Definition unbindTransport : client_action := this c =>
  match listening c with
  | None => skip
  | Some t => emit (Unbind t) ;;; assign (fun c => c <| listening := None |>)
  end.

(** The promise of the hello is rejected: [_connect] may wait for it. *)
Definition rejectHello (e : js_exn) : client_action := this c =>
  if helloOpen c then
    assign (fun c => c <| helloOpen := false |>) ;;;
    match connectPromise c with
    | Some AwaitHello => assign (fun c => c <| connectPromise := Some (HelloRejected e) |>)
    | _ => emit (UnhandledRejection e)
    end
  else skip.

Definition has_no_calls (c : client) : bool := match pending c with [] => true | _ => false end.

Definition terminate (e : js_exn) (destroyTransport : bool) : client_action := this c =>
  if bool_decide (state c = Closed) && negb (helloOpen c) && has_no_calls c then skip
  else
    let t := transport c in
    assign (fun c => c <| state := Closed |>) ;;;
    clearHelloTimer ;;;
    rejectHello e ;;;
    rejectPending e ;;;
    assign (fun c => c <| retired := [] |>) ;;;
    unbindTransport ;;;
    (match destroyTransport, t with
     | true, Some t => emit (Destroy t)
     | _, _ => skip
     end) ;;;
    this c =>
    if closeEmitted c then skip else assign (fun c => c <| closeEmitted := true |>) ;;; emit (EmitClose e).

Definition failProtocol (e : js_exn) : client_action := emit (EmitProtocolError e) ;;; terminate e true.

Definition disconnect (reason : option js_exn) : client_action := this c =>
  let t := transport c in
  terminate (default DISCONNECTED reason) false ;;;
  match t with
  | Some t => emit (End t)
  | None => skip
  end.

(** ** Writing *)

Definition write (data : buffer) (writes : bool) : client_attempt := this! c =>
  match transport c with
  | None => raise TRANSPORT_CLOSED
  | Some t => if writes then returns (emit (Write t data)) else raise WRITE_FAILED
  end.

(** A value that may be an exception. *)
Definition attempt_value {A} (r : result A) (k : A -> client_attempt) : client_attempt :=
  match r with
  | Ok a => k a
  | Throw e => raise e
  end.

(** [try { a } catch (error) { handler(error) }] *)
Definition try_catch (a : client_attempt) (handler : js_exn -> client_action) : client_action := fun c =>
  match a c with
  | (c1, o1, None) => (c1, o1)
  | (c1, o1, Some e) => let '(c2, o2) := handler e c1 in (c2, o1 ++ o2)
  end.

(** ** Connecting *)

Definition bindTransport (t : nat) : client_action :=
  unbindTransport ;;; emit (Bind t) ;;; assign (fun c => c <| listening := Some t |>).

(** [_connectPromise] settles. *)
Definition connect_resolves (info : session_info) : client_action :=
  assign (fun c => c <| connectPromise := None |>) ;;; emit (ConnectResolves info).

(** The [catch] of [_connect]. *)
Definition connect_fails (e : js_exn) : client_action :=
  (this c => if bool_decide (state c = Closed) then skip else terminate e true) ;;;
  assign (fun c => c <| connectPromise := None |>) ;;; emit (ConnectRejects e).

(** The hello as bytes. *)
Definition hello_bytes (caps : list jsstring) : result buffer :=
  let! text := buildHello caps in encodeMessage utf8_encode (InString text) "1.0" None.

(** [_connect] once it has a transport. *)
Definition open_session (t : nat) (writes : bool) : client_action :=
  try_catch
    (returns
       (assign (fun c => c <| transport := Some t |> <| retired := [] |> <| inbound := 0 |>) ;;;
        bindTransport t ;;;
        (this c => assign (fun c => c <| helloFramer := Some (DelimiterFramer_new (framerOptions c)) |>)) ;;;
        assign (fun c => c <| session_framer := None |> <| state := Greeting |> <| helloOpen := true |> <| helloTimer := true |>) ;;;
        (this c => emit (StartHelloTimer (helloTimeout c)))) ;;!
     (this! c =>
      attempt_value (hello_bytes (clientCapabilities c)) (fun data => write data writes)) ;;!
     returns (assign (fun c => c <| connectPromise := Some AwaitHello |>)))
    connect_fails.

(** What [connect] is given: a transport, or a profile for the factory. *)
Inductive connect_target := WithTransport (t : nat) | WithProfile.

Definition connect (target : connect_target) (writes : bool) : client_action := this c =>
  if connected c then emit (ConnectResolves (sessionInfo c))
  else match connectPromise c with
       | Some _ => skip
       | None =>
         if bool_decide (state c = Idle) || bool_decide (state c = Closed) then
           assign (fun c => c <| state := Connecting |> <| closeEmitted := false |>) ;;;
           match target, transport c with
           | WithTransport t, _ => open_session t writes
           | WithProfile, Some t => open_session t writes
           | WithProfile, None => assign (fun c => c <| connectPromise := Some AwaitFactory |>) ;;; emit CallFactory
           end
         else emit (ConnectRejects INVALID_STATE)
       end.

(** The promise of the factory settles. *)
Inductive factory_result := FactoryTransport (t : nat) | FactoryOther | FactoryThrows (e : js_exn).

Definition factory_done (r : factory_result) (writes : bool) : client_action :=
  match r with
  | FactoryTransport t => open_session t writes
  | FactoryOther => connect_fails INVALID_TRANSPORT
  | FactoryThrows e => connect_fails e
  end.

Section Session.
(** The XML parser, as in [NetconfXml]. *)
Context (validate : jsstring -> bool) (parse : bool -> jsstring -> option xml_value).

(** ** Data *)

Definition negotiate (client_caps server_caps : list jsstring) : option string :=
  if supportsBase server_caps "1.1" && supportsBase client_caps "1.1" then Some "1.1"%string
  else if supportsBase server_caps "1.0" && supportsBase client_caps "1.0" then Some "1.0"%string
  else None.

Definition present (t : option jsstring) : bool := match t with None | Some [] => false | _ => true end.

(** The end of [_handleServerHello]. *)
Definition established (f : framer) : client_action :=
  assign (fun c => c <| session_framer := Some f |> <| state := Connected |>) ;;;
  clearHelloTimer ;;;
  this c =>
  let info := sessionInfo c in
  (if helloOpen c then
     assign (fun c => c <| helloOpen := false |>) ;;;
     match connectPromise c with
     | Some AwaitHello => assign (fun c => c <| connectPromise := Some (HelloResolved info) |>)
     | _ => skip
     end
   else skip) ;;;
  emit (EmitConnected info).

Definition handleServerHello (xml : jsstring) : client_attempt := this! c =>
  attempt_value (parseNetconfMessage validate parse xml (maxMessageSize c) false) (fun m =>
  match body m with
  | Hello sid server =>
    if present sid then
      match negotiate (clientCapabilities c) server with
      | None => raise NO_COMMON_BASE
      | Some version =>
        returns (assign (fun c => c <| baseVersion := Some version |> <| sessionId := sid |> <| capabilities := server |>)) ;;!
        attempt_value (createFramer version (framerOptions c)) (fun f => returns (established f))
      end
    else raise HELLO_NO_SESSION_ID
  | _ => raise EXPECTED_HELLO
  end).

Definition remove_call (id : jsstring) : client_action := assign (fun c => c <| pending := jmap_delete (pending c) id |>).

(** A reply to a call that waits. *)
Definition settle_reply (m : netconf_message) (sequence : Z) (errors : list rpc_error) (x : call) : client_effect :=
  match errors with
  | [] => Resolve (promise x) m sequence (requestXml x)
  | _ => if rejectOnRpcError x then RejectReply (promise x) errors m (requestXml x)
         else Resolve (promise x) m sequence (requestXml x)
  end.

Definition handleReply (m : netconf_message) (sequence : Z) (messageId : option jsstring) (errors : list rpc_error) : client_action := this c =>
  match messageId with
  | None | Some [] => emit (EmitOrphan m sequence)
  | Some id =>
    if bool_decide (id ∈ retired c) then
      assign (fun c => c <| retired := List.filter (fun x => negb (bool_decide (x = id))) (retired c) |>) ;;;
      emit (EmitOrphan m sequence)
    else match jmap_get (pending c) id with
         | None => emit (EmitOrphan m sequence)
         | Some x => remove_call id ;;; clearTimeout (promise x) ;;; emit (settle_reply m sequence errors x)
         end
  end.

Definition handleMessage (xml : jsstring) : client_attempt := this! c =>
  let opaque := MAX_INLINE_RPC_REPLY_BYTES <? blen (utf8_encode xml) in
  attempt_value (parseNetconfMessage validate parse xml (maxMessageSize c) opaque) (fun m =>
  let sequence := inbound c + 1 in
  returns (
    assign (fun c => c <| inbound := sequence |>) ;;;
    match body m with
    | RpcReply messageId _ _ errors => handleReply m sequence messageId errors
    | Notification _ => emit (EmitNotification m sequence)
    | _ => emit (EmitMessage m sequence)
    end)).

Fixpoint handle_messages (l : list jsstring) : client_attempt :=
  match l with
  | [] => returns skip
  | xml :: tl => handleMessage xml ;;! handle_messages tl
  end.

(** [this._framer.push(chunk)]: the framer after it and the messages; [None] is running out of
    fuel. *)
Definition framer_push (f : framer) (chunk : buffer) : option (framer * result (list jsstring)) :=
  match f with
  | Netconf11Framer f => (fun '(f, r) => (Netconf11Framer f, r)) <$> chunked_push decode_text utf8_encode f (InBuffer chunk) Infinity
  | Netconf10Framer f => (fun '(f, r) => (Netconf10Framer f, r)) <$> delimiter_push decode_text utf8_encode f (InBuffer chunk) Infinity
  end.

Definition OUT_OF_FUEL : js_exn := ErrorMsg "out of fuel".

Definition decodeEstablishedData (chunk : buffer) : client_attempt := this! c =>
  match session_framer c with
  | None => raise TypeError
  | Some f =>
    match framer_push f chunk with
    | None => raise OUT_OF_FUEL
    | Some (f, r) =>
      returns (assign (fun c => c <| session_framer := Some f |>)) ;;!
      attempt_value r handle_messages
    end
  end.

(** The first complete message, with what is buffered behind it. *)
Definition greet (chunk : buffer) : client_attempt := this! c =>
  match helloFramer c with
  | None => raise TypeError
  | Some f =>
    match delimiter_push decode_text utf8_encode f (InBuffer chunk) (Count 1) with
    | None => raise OUT_OF_FUEL
    | Some (f, r) =>
      returns (assign (fun c => c <| helloFramer := Some f |>)) ;;!
      attempt_value r (fun messages =>
        match messages with
        | [] => returns skip
        | xml :: _ =>
          let '(f, remainder) := delimiter_takeBuffered f in
          returns (assign (fun c => c <| helloFramer := Some f |>)) ;;!
          handleServerHello xml ;;!
          (this! c => if (0 <? blen remainder) && connected c then decodeEstablishedData remainder else returns skip)
        end)
    end
  end.

Definition handleData (chunk : buffer) : client_action := this c =>
  try_catch
    (if bool_decide (state c = Greeting) then greet chunk
     else if connected c then decodeEstablishedData chunk
     else returns skip)
    (fun e => failProtocol (protocol_error e)).

(** ** Calls *)

(** The id of the options, as text; the timeout, a whole number of milliseconds if it is one. *)
Inductive given_id := IdUndefined | IdNull | IdText (id : jsstring).
Inductive given_timeout := TimeoutDefault | TimeoutMs (ms : Z) | TimeoutOther.
Record rpc_options := { opt_messageId : given_id; opt_timeout : given_timeout; opt_rejectOnRpcError : bool }.

(** [Promise.reject(error)] *)
Definition refuse (e : js_exn) : client_action := this c =>
  assign (fun c => c <| issued := S (issued c) |>) ;;; emit (Reject (issued c) e None None).

(** [reserveMessageId()] *)
Definition reserveMessageId (c : client) : result (client * Z) :=
  guard! is_safe_integer (nextMessageId c) && (0 <=? nextMessageId c) else RangeError in
  Ok (c <| nextMessageId := nextMessageId c + 1 |>, nextMessageId c).

Definition timeout_of (c : client) (t : given_timeout) : option Z :=
  match t with
  | TimeoutDefault => Some (rpcTimeout c)
  | TimeoutMs ms => if 0 <? ms then Some ms else None
  | TimeoutOther => None
  end.

(** The executor of the promise. *)
Definition send_call (id xml : jsstring) (ms : Z) (rejects writes : bool) : client_action := this c =>
  let x := {| promise := issued c; requestXml := xml; rejectOnRpcError := rejects |} in
  assign (fun c => c <| issued := S (issued c) |> <| timers := timers c ++ [(id, x)] |>) ;;;
  emit (StartTimer (promise x) ms) ;;;
  assign (fun c => c <| pending := jmap_set (pending c) id x |>) ;;;
  try_catch
    (this! c => attempt_value (encodeMessage utf8_encode (InString xml) (default EmptyString (baseVersion c)) (chunkSize c))
       (fun data => write data writes))
    (fun e => clearTimeout (promise x) ;;; remove_call id ;;; emit (Reject (promise x) e (Some xml) (Some id))).

Definition call_with_id (rawXml requested : jsstring) (o : rpc_options) (writes : bool) : client_action := this c =>
  match ensureRpcEnvelope validate parse rawXml (Some requested) with
  | Throw e => refuse e
  | Ok (xml, id) =>
    if jmap_has (pending c) id then refuse DUPLICATE_MESSAGE_ID
    else if bool_decide (id ∈ retired c) then refuse RETIRED_MESSAGE_ID
    else match timeout_of c (opt_timeout o) with
         | None => refuse TypeError
         | Some ms => send_call id xml ms (opt_rejectOnRpcError o) writes
         end
  end.

(** [rpc(operationOrRpc, options)]; [None] is an operation that is no text. *)
Definition rpc (operation : option jsstring) (o : rpc_options) (writes : bool) : client_attempt := this! c =>
  if negb (connected c) then returns (refuse NOT_CONNECTED)
  else match operation with
       | None => returns (refuse TypeError)
       | Some rawXml =>
         attempt_value (extractRpcMessageId rawXml) (fun existing =>
         returns (
           match opt_messageId o, existing with
           | IdText id, _ => call_with_id rawXml id o writes
           | IdUndefined, Some id => call_with_id rawXml id o writes
           | _, _ =>
             match reserveMessageId c with
             | Throw e => refuse e
             | Ok (c1, n) => assign (fun _ => c1) ;;; call_with_id rawXml (js_number_to_string n) o writes
             end
           end))
       end.

Definition retire (id : jsstring) : client_action :=
  assign (fun c => c <| retired := if bool_decide (id ∈ retired c) then retired c else retired c ++ [id] |>).

Definition cancelRpc (messageId : option jsstring) : client_action := this c =>
  match messageId with
  | None => skip
  | Some id =>
    match jmap_get (pending c) id with
    | None => skip
    | Some x =>
      clearTimeout (promise x) ;;; remove_call id ;;; retire id ;;;
      emit (Reject (promise x) RPC_CANCELLED (Some (requestXml x)) (Some id))
    end
  end.

(** The callback of a call's timer. *)
Definition rpc_timer (id : jsstring) (x : call) : client_action :=
  assign (fun c => c <| timers := without_timer (promise x) (timers c) |>) ;;;
  this c =>
  if jmap_has (pending c) id then
    remove_call id ;;; retire id ;;; emit (Reject (promise x) RPC_TIMEOUT (Some (requestXml x)) (Some id))
  else skip.

(** [closeSession(options)] up to its [await]. *)
Definition CLOSE_SESSION : jsstring := js "<close-session/>".

Definition closeSession (o : rpc_options) (writes : bool) : client_attempt := this! c =>
  if connected c then
    returns (assign (fun c => c <| closers := closers c ++ [issued c] |>)) ;;! rpc (Some CLOSE_SESSION) o writes
  else returns (disconnect None).

(** ** Events *)

Inductive transport_event := Data (chunk : buffer) | TransportError | TransportEnd | TransportClose.

Inductive client_event :=
| Connect (target : connect_target) (writes : bool)
| FactoryDone (r : factory_result) (writes : bool)
| TransportEvent (t : nat) (ev : transport_event)
| HelloTimer
| RpcTimer (id : jsstring) (x : call)
| Rpc (operation : option jsstring) (o : rpc_options) (writes : bool)
| ReserveMessageId
| CancelRpc (messageId : option jsstring)
| Disconnect (reason : option js_exn)
| CloseSession (o : rpc_options) (writes : bool).

Definition on_transport (ev : transport_event) : client_action :=
  match ev with
  | Data chunk => handleData chunk
  | TransportError => terminate TRANSPORT_ERROR false
  | TransportEnd => terminate TRANSPORT_ENDED false
  | TransportClose => terminate TRANSPORT_CLOSED false
  end.

Definition up_to_throw (a : client_attempt) : client_action := fun c => fst (a c).

Definition handle (ev : client_event) : client_action :=
  match ev with
  | Connect target writes => connect target writes
  | FactoryDone r writes => factory_done r writes
  | TransportEvent t ev => this c => if bool_decide (listening c = Some t) then on_transport ev else skip
  | HelloTimer => failProtocol HELLO_TIMEOUT
  | RpcTimer id x => rpc_timer id x
  | Rpc operation o writes => up_to_throw (rpc operation o writes)
  | ReserveMessageId => this c => match reserveMessageId c with
                                  | Ok (c1, _) => assign (fun _ => c1)
                                  | Throw _ => skip
                                  end
  | CancelRpc id => cancelRpc id
  | Disconnect reason => disconnect reason
  | CloseSession o writes => up_to_throw (closeSession o writes)
  end.

Definition waits (c : client) (p : nat) : bool := existsb (fun x => Nat.eqb (promise x) p) (jmap_values (pending c)).

(** What the promises of [connect] and [closeSession] do when the event is over. *)
Definition connect_resumes : client_action := this c =>
  match connectPromise c with
  | Some (HelloResolved info) => connect_resolves info
  | Some (HelloRejected e) => connect_fails e
  | _ => skip
  end.

Definition closers_resume : client_action := this c =>
  if forallb (waits c) (closers c) then skip
  else each (closers c) (fun _ => disconnect None) ;;; assign (fun c => c <| closers := [] |>).

Definition on_event (ev : client_event) : client_action := handle ev ;;; closers_resume ;;; connect_resumes.

(** Which events can happen. *)
Definition possible (c : client) (ev : client_event) : Prop :=
  match ev with
  | FactoryDone _ _ => connectPromise c = Some AwaitFactory
  | HelloTimer => helloTimer c = true
  | RpcTimer id x => (id, x) ∈ timers c
  | _ => True
  end.
End Session.

(** ** Every call is settled once or waits *)

Definition settles (f : client_effect) : list nat :=
  match f with
  | Resolve p _ _ _ | RejectReply p _ _ _ | Reject p _ _ _ => [p]
  | _ => []
  end.

Definition settled (out : list client_effect) : list nat := concat (map settles out).

Lemma client_settled_app o1 o2 : settled (o1 ++ o2) = settled o1 ++ settled o2.
Proof. unfold settled. by rewrite map_app, concat_app. Qed.

Definition waiting (c : client) : list nat := map promise (jmap_values (pending c)).

(** The table of calls: each promise is settled or waits, a call that waits has a timer and
    its id is not retired. *)
Record table_ok (c : client) (out : list client_effect) : Prop := {
  table_keys : jmap_ok (pending c);
  table_promises : settled out ++ waiting c ≡ₚ seq 0 (issued c);
  table_timers : timers c ≡ₚ pending c;
  table_retired : Forall (fun id => id ∉ jmap_keys (pending c)) (retired c)
}.

(** The same table. *)
Definition same_table (c c' : client) : Prop :=
  pending c' = pending c /\ timers c' = timers c /\ issued c' = issued c /\ retired c' = retired c.

Lemma table_frame c c' out o : table_ok c out -> same_table c c' -> settled o = [] -> table_ok c' (out ++ o).
Proof.
  intros [H1 H2 H3 H4] (Hp & Ht & Hi & Hr) Ho.
  split; unfold waiting in *; rewrite ?Hp, ?Ht, ?Hi, ?Hr, ?client_settled_app, ?Ho, ?app_nil_r; done.
Qed.

Lemma table_nodup c out : table_ok c out -> NoDup (waiting c) /\ forall p, p ∈ waiting c -> p ∉ settled out.
Proof.
  intros [_ H _ _]. assert (NoDup (settled out ++ waiting c)) as Hn by (rewrite H; apply NoDup_ListNoDup, seq_NoDup).
  apply list.NoDup_app in Hn as (_ & Hd & Hw). split; [done|]. intros p Hp Hs. by apply (Hd p).
Qed.

Lemma waiting_in c id x : (id, x) ∈ pending c -> promise x ∈ waiting c.
Proof. intros Hx. unfold waiting, jmap_values. rewrite map_map. apply list_elem_of_fmap. by exists (id, x). Qed.

Lemma without_absent p (l : list (jsstring * call)) : p ∉ map (fun x => promise (snd x)) l -> without_timer p l = l.
Proof.
  induction l as [|[id x] l IH]; [done|]. cbn [map]. rewrite list.not_elem_of_cons. intros [Hx Hl].
  unfold without_timer in *. cbn [List.filter snd]. rewrite (proj2 (Nat.eqb_neq _ _)) by (cbn in Hx; congruence). by rewrite IH.
Qed.

Lemma without_perm p l1 l2 : l1 ≡ₚ l2 -> without_timer p l1 ≡ₚ without_timer p l2.
Proof.
  induction 1; unfold without_timer in *; cbn [List.filter]; [done | by case_if; [constructor|] | | by etrans].
  repeat case_if; (done || constructor).
Qed.

(** Removing a call by its id removes its timer. *)
Lemma without_delete id x (m : jmap jsstring call) : NoDup (map promise (jmap_values m)) -> jmap_get m id = Some x ->
  without_timer (promise x) m = jmap_delete m id.
Proof.
  induction m as [|[k y] m IH]; [done|]. cbn [jmap_values map]. intros [Hy Hm]%list.NoDup_cons. cbn [jmap_get jmap_delete].
  unfold jmap_values in *. rewrite map_map in Hy, Hm.
  destruct (decide (k = id)) as [->|Hk].
  - intros [= ->]. change (without_timer (promise x) ((id, x) :: m)) with
      (if negb (Nat.eqb (promise x) (promise x)) then (id, x) :: without_timer (promise x) m else without_timer (promise x) m).
    rewrite Nat.eqb_refl. cbn. by apply without_absent.
  - intros Hx. assert (promise y <> promise x) as Hne.
    { intros E. apply Hy. cbn [snd]. rewrite E. apply list_elem_of_fmap. exists (id, x). split; [done|].
      rewrite (jmap_delete_perm m id x Hx). apply list_elem_of_here. }
    change (without_timer (promise x) ((k, y) :: m)) with
      (if negb (Nat.eqb (promise y) (promise x)) then (k, y) :: without_timer (promise x) m else without_timer (promise x) m).
    rewrite (proj2 (Nat.eqb_neq _ _)) by done. cbn. f_equal. apply IH; [by rewrite map_map|done].
Qed.

Lemma promises_distinct c out : table_ok c out -> NoDup (map promise (jmap_values (pending c))).
Proof. intros H. by apply (table_nodup c out). Qed.

(** A call leaves the table with its promise settled. *)
Lemma table_take c c' out o id x : table_ok c out -> jmap_get (pending c) id = Some x ->
  pending c' = jmap_delete (pending c) id -> timers c' = without_timer (promise x) (timers c) -> issued c' = issued c ->
  (forall i, i ∈ retired c' -> i ∈ retired c \/ i = id) -> settled o = [promise x] -> table_ok c' (out ++ o).
Proof.
  intros Hok Hx Hp Ht Hi Hr Ho. pose proof (promises_distinct _ _ Hok) as Hd. destruct Hok as [H1 H2 H3 H4]. split.
  - rewrite Hp. by apply jmap_ok_delete.
  - rewrite Hi, <- H2, client_settled_app, Ho, <- app_assoc. apply Permutation_app_head. unfold waiting, jmap_values. rewrite Hp.
    by rewrite (jmap_delete_perm (pending c) id x Hx) at 2.
  - rewrite Ht, Hp, <- (without_delete id x) by done. by apply without_perm.
  - apply list.Forall_forall. intros i [Hri| ->]%Hr; rewrite Hp.
    + intros Hk%jmap_keys_delete. by eapply (proj1 (list.Forall_forall _ _) H4 i).
    + apply jmap_get_None. by apply jmap_get_delete_eq.
Qed.

(** A call refused at once. *)
Lemma table_refused c out e : table_ok c out -> table_ok (fst (refuse e c)) (out ++ snd (refuse e c)).
Proof.
  intros [H1 H2 H3 H4]. split; try done. change (issued (fst (refuse e c))) with (S (issued c)).
  change (waiting (fst (refuse e c))) with (waiting c). rewrite client_settled_app, seq_S, <- H2. cbn -[waiting].
  rewrite <- !app_assoc. apply Permutation_app_head. by rewrite Permutation_app_comm.
Qed.

(** A call enters the table. *)
Lemma table_enter c c' out o id x : table_ok c out -> jmap_get (pending c) id = None -> id ∉ retired c -> promise x = issued c ->
  pending c' = jmap_set (pending c) id x -> timers c' = timers c ++ [(id, x)] -> issued c' = S (issued c) -> retired c' = retired c ->
  settled o = [] -> table_ok c' (out ++ o).
Proof.
  intros [H1 H2 H3 H4] Hid Hret Hpx Hp Ht Hi Hr Ho. split.
  - rewrite Hp. by apply jmap_ok_set.
  - rewrite Hi, seq_S, <- H2, client_settled_app, Ho, app_nil_r, <- app_assoc. apply Permutation_app_head. unfold waiting, jmap_values.
    rewrite Hp, jmap_set_fresh, !map_app by done. cbn. by rewrite Hpx.
  - by rewrite Ht, Hp, jmap_set_fresh, H3 by done.
  - rewrite Hr, Hp. apply list.Forall_forall. intros i Hi2. rewrite jmap_keys_set. intros [->|Hk]; [done|].
    by apply (proj1 (list.Forall_forall _ _) H4 i).
Qed.

(** All calls are settled. *)
Lemma table_clear c c' out o : table_ok c out -> pending c' = [] -> timers c' = [] -> issued c' = issued c -> retired c' = [] ->
  settled o = waiting c -> table_ok c' (out ++ o).
Proof.
  intros [H1 H2 H3 H4] Hp Ht Hi Hr Ho. split; rewrite ?Hp, ?Ht, ?Hr; [apply NoDup_nil_2 | | done | apply list.Forall_nil_2].
  unfold waiting at 1. rewrite Hp, Hi, client_settled_app, Ho, app_nil_r. done.
Qed.

(** [rejectPending] *)
Definition drop_timers (calls l : list (jsstring * call)) : list (jsstring * call) :=
  List.filter (fun t => negb (existsb (fun x => Nat.eqb (promise (snd t)) (promise (snd x))) calls)) l.

Lemma drop_timers_all (l : list (jsstring * call)) calls : (forall t, t ∈ l -> t ∈ calls) -> drop_timers calls l = [].
Proof.
  unfold drop_timers. induction l as [|t l IH]; intros Hl; [done|]. cbn [List.filter].
  assert (existsb (fun x => Nat.eqb (promise (snd t)) (promise (snd x))) calls = true) as ->.
  - apply existsb_exists. exists t. split; [|apply Nat.eqb_refl]. apply list_elem_of_In, Hl, list_elem_of_here.
  - apply IH. intros u Hu. apply Hl. by apply list_elem_of_further.
Qed.

Lemma drop_timers_nil l : drop_timers [] l = l.
Proof. unfold drop_timers. cbn [existsb negb]. induction l as [|t l IH]; [done|]. cbn [List.filter]. by f_equal. Qed.

Lemma drop_timers_cons id x calls l : drop_timers ((id, x) :: calls) l = drop_timers calls (without_timer (promise x) l).
Proof.
  unfold drop_timers, without_timer. induction l as [|t l IH]; [done|]. cbn [List.filter existsb snd] in IH |- *.
  destruct (Nat.eqb (promise (snd t)) (promise x)); cbn [negb orb List.filter]; [exact IH|]. rewrite IH. reflexivity.
Qed.

Definition reject_each (e : js_exn) (calls : list (jsstring * call)) : client_action :=
  each calls (fun '(messageId, x) =>
    clearTimeout (promise x) ;;; emit (Reject (promise x) e (Some (requestXml x)) (Some messageId))).

Lemma reject_each_spec e calls : forall c, exists o,
  reject_each e calls c = (c <| timers := drop_timers calls (timers c) |>, o) /\ settled o = map (fun x => promise (snd x)) calls.
Proof.
  induction calls as [|[id x] calls IH]; intros c.
  - exists []. split; [|done]. rewrite drop_timers_nil. by destruct c.
  - destruct (IH (c <| timers := without_timer (promise x) (timers c) |>)) as (o & Ho & Hs).
    eexists. unfold reject_each in *. cbn [each]. split.
    + erewrite seq_action_eq; [| reflexivity | exact Ho]. by rewrite drop_timers_cons.
    + cbn [app]. unfold settled in *. cbn [map concat settles app snd]. by rewrite Hs.
Qed.

(** [a] takes [c] to [c'] and settles the promises [l]. *)
Definition does (a : client_action) (c c' : client) (l : list nat) : Prop := exists o, a c = (c', o) /\ settled o = l.

Lemma does_seq (a b : client_action) c c1 c2 l1 l2 : does a c c1 l1 -> does b c1 c2 l2 -> does (a ;;; b) c c2 (l1 ++ l2).
Proof.
  intros (o1 & H1 & S1) (o2 & H2 & S2). exists (o1 ++ o2). split; [by apply seq_action_eq with c1|].
  by rewrite client_settled_app, S1, S2.
Qed.

Lemma does_quiet (a b : client_action) c c1 c2 l : does a c c1 [] -> does b c1 c2 l -> does (a ;;; b) c c2 l.
Proof. intros Ha Hb. change l with ([] ++ l). by eapply does_seq. Qed.

Lemma does_skip c : does skip c c [].
Proof. by exists []. Qed.

Lemma does_assign f c : does (assign f) c (f c) [].
Proof. by exists []. Qed.

Lemma does_emit e c : does (emit e) c c (settles e).
Proof. exists [e]. split; [done|]. unfold settled. cbn. by rewrite app_nil_r. Qed.

Lemma does_eq a c c1 c2 l1 l2 : does a c c1 l1 -> c1 = c2 -> l1 = l2 -> does a c c2 l2.
Proof. by intros H <- <-. Qed.

Lemma does_this (k : client -> client_action) c c' l : does (k c) c c' l -> does (this c => k c) c c' l.
Proof. done. Qed.

Lemma same_client c : {| clientCapabilities := clientCapabilities c; rpcTimeout := rpcTimeout c; helloTimeout := helloTimeout c;
  maxMessageSize := maxMessageSize c; maxChunkSize := maxChunkSize c; chunkSize := chunkSize c;
  transport := transport c; state := state c; sessionId := sessionId c; capabilities := capabilities c;
  baseVersion := baseVersion c; pending := pending c; retired := retired c; nextMessageId := nextMessageId c;
  helloFramer := helloFramer c; session_framer := session_framer c; helloTimer := helloTimer c; helloOpen := helloOpen c;
  connectPromise := connectPromise c; listening := listening c; closeEmitted := closeEmitted c; inbound := inbound c;
  timers := timers c; closers := closers c; issued := issued c |} = c.
Proof. by destruct c. Qed.

Lemma does_clearHelloTimer c : does clearHelloTimer c (c <| helloTimer := false |>) [].
Proof.
  unfold clearHelloTimer. apply does_this. destruct (helloTimer c) eqn:E.
  - eapply does_quiet; [by apply (does_emit ClearHelloTimer) | apply does_assign].
  - eapply does_eq; [apply does_skip | | done]. destruct c. cbn in E. by rewrite E.
Qed.

Lemma does_clearTimeout p c : does (clearTimeout p) c (c <| timers := without_timer p (timers c) |>) [].
Proof. eapply does_quiet; [apply does_assign | apply (does_emit (ClearTimer p))]. Qed.

(** The promise of [connect] when the hello fails. *)
Definition connect_after (e : js_exn) (c : client) : option connect_stage :=
  match helloOpen c, connectPromise c with
  | true, Some AwaitHello => Some (HelloRejected e)
  | _, p => p
  end.

Lemma does_rejectHello e c : does (rejectHello e) c (c <| helloOpen := false |> <| connectPromise := connect_after e c |>) [].
Proof.
  unfold rejectHello, connect_after. apply does_this. destruct (helloOpen c) eqn:E.
  - eapply does_quiet; [apply does_assign|]. destruct (connectPromise c) as [[]|] eqn:Ep.
    all: try (eapply does_eq; [apply (does_emit (UnhandledRejection e)) | | done]; destruct c; cbn in Ep; by rewrite Ep).
    apply does_assign.
  - eapply does_eq; [apply does_skip | | done]. destruct c. cbn in E. by rewrite E.
Qed.

Lemma does_rejectPending e c :
  does (rejectPending e) c (c <| timers := drop_timers (pending c) (timers c) |> <| pending := [] |>) (waiting c).
Proof.
  unfold rejectPending. apply does_this. destruct (reject_each_spec e (pending c) c) as (o & Ho & Hs).
  eapply does_eq; [eapply does_seq; [exists o; by split; [exact Ho | exact Hs] | apply does_assign] | done |].
  rewrite app_nil_r. unfold waiting, jmap_values. by rewrite map_map.
Qed.

Lemma does_unbind c : does unbindTransport c (c <| listening := None |>) [].
Proof.
  unfold unbindTransport. apply does_this. destruct (listening c) eqn:E.
  - eapply does_quiet; [apply (does_emit (Unbind n)) | apply does_assign].
  - eapply does_eq; [apply does_skip | | done]. destruct c. cbn in E. by rewrite E.
Qed.

(** The client of a session that ended with [e]. *)
Definition closed_client (e : js_exn) (c : client) : client :=
  {| clientCapabilities := clientCapabilities c; rpcTimeout := rpcTimeout c; helloTimeout := helloTimeout c;
     maxMessageSize := maxMessageSize c; maxChunkSize := maxChunkSize c; chunkSize := chunkSize c;
     transport := transport c; state := Closed; sessionId := sessionId c; capabilities := capabilities c;
     baseVersion := baseVersion c; pending := []; retired := []; nextMessageId := nextMessageId c;
     helloFramer := helloFramer c; session_framer := session_framer c; helloTimer := false; helloOpen := false;
     connectPromise := connect_after e c; listening := None; closeEmitted := true; inbound := inbound c;
     timers := drop_timers (pending c) (timers c); closers := closers c; issued := issued c |}.

(** [terminate] has nothing to do. *)
Definition at_rest (c : client) : bool := bool_decide (state c = Closed) && negb (helloOpen c) && has_no_calls c.

Lemma does_terminate e destroy c :
  does (terminate e destroy) c (if at_rest c then c else closed_client e c) (if at_rest c then [] else waiting c).
Proof.
  unfold terminate. apply does_this. fold (at_rest c). destruct (at_rest c); [apply does_skip|]. cbv zeta.
  eapply does_quiet; [apply does_assign|]. eapply does_quiet; [apply does_clearHelloTimer|].
  eapply does_quiet; [apply does_rejectHello|].
  eapply does_eq; [eapply does_seq; [apply does_rejectPending|] | done | apply app_nil_r].
  eapply does_quiet; [apply does_assign|]. eapply does_quiet; [apply does_unbind|].
  eapply does_quiet.
  - instantiate (1 := _). destruct destroy, (transport c); first [apply (does_emit (Destroy _)) | apply does_skip].
  - apply does_this. cbn [closeEmitted modify]. destruct (closeEmitted c) eqn:E.
    + eapply does_eq; [apply does_skip | | done]. destruct c. cbn in E. by rewrite E.
    + eapply does_quiet; [apply does_assign | apply (does_emit (EmitClose e))].
Qed.

Lemma does_disconnect reason c :
  does (disconnect reason) c (if at_rest c then c else closed_client (default DISCONNECTED reason) c) (if at_rest c then [] else waiting c).
Proof.
  unfold disconnect. apply does_this. cbv zeta. eapply does_eq; [eapply does_seq; [apply does_terminate|] | done | apply app_nil_r].
  destruct (transport c); [apply (does_emit (End n)) | apply does_skip].
Qed.

Lemma does_failProtocol e c :
  does (failProtocol e) c (if at_rest c then c else closed_client e c) (if at_rest c then [] else waiting c).
Proof. eapply does_quiet; [apply (does_emit (EmitProtocolError e)) | apply does_terminate]. Qed.

(** ** The phases of a session *)

Definition framer_ok (f : framer) : Prop :=
  match f with
  | Netconf11Framer f => chunked_ok (cf_state f)
  | Netconf10Framer _ => True
  end.

(** No session: nothing waits, no transport is listened to. *)
Definition resting (c : client) : Prop :=
  helloOpen c = false /\ helloTimer c = false /\ pending c = [] /\ listening c = None.

(** What holds in each state, also while the promise of the hello has not been acted upon. *)
Definition phase_ok (c : client) : Prop :=
  match state c with
  | Idle => resting c /\ connectPromise c = None
  | Connecting => resting c /\ connectPromise c = Some AwaitFactory
  | Greeting =>
    helloOpen c = true /\ helloTimer c = true /\ pending c = [] /\ is_Some (helloFramer c) /\
    connectPromise c = Some AwaitHello /\ is_Some (listening c)
  | Connected =>
    helloOpen c = false /\ helloTimer c = false /\ (exists f, session_framer c = Some f /\ framer_ok f) /\
    (connectPromise c = None \/ exists info, connectPromise c = Some (HelloResolved info)) /\ is_Some (listening c)
  | Closed => resting c /\ connectPromise c <> Some AwaitHello
  end.

Definition client_inv (c : client) (out : list client_effect) : Prop := table_ok c out /\ phase_ok c.

Definition keeps_client (a : client_action) : Prop := forall c out, client_inv c out -> client_inv (fst (a c)) (out ++ snd (a c)).

Lemma does_inv a c c' l out : does a c c' l -> (forall o, settled o = l -> client_inv c' (out ++ o)) ->
  client_inv (fst (a c)) (out ++ snd (a c)).
Proof. intros (o & Ha & Ho) Hinv. rewrite Ha. by apply Hinv. Qed.

Lemma closed_table e c out o : table_ok c out -> settled o = waiting c -> table_ok (closed_client e c) (out ++ o).
Proof.
  intros Hok Ho. eapply table_clear; [exact Hok | done | | done..|exact Ho]. cbn. apply drop_timers_all.
  intros t. by rewrite (table_timers _ _ Hok).
Qed.

Lemma closed_phase e c : phase_ok c -> phase_ok (closed_client e c).
Proof.
  intros Hc. split; [done|]. change (connectPromise (closed_client e c)) with (connect_after e c).
  unfold phase_ok in Hc. unfold connect_after. destruct (state c).
  - by destruct Hc as [(-> & _) ->].
  - by destruct Hc as [(-> & _) ->].
  - by destruct Hc as (-> & _ & _ & _ & -> & _).
  - by destruct Hc as (-> & _ & _ & [->|[? ->]] & _).
  - by destruct Hc as [(-> & _) Hc].
Qed.

Lemma keeps_end (a : client_action) e :
  (forall c, does a c (if at_rest c then c else closed_client e c) (if at_rest c then [] else waiting c)) -> keeps_client a.
Proof.
  intros Ha c out [Ht Hp]. eapply does_inv; [apply Ha|]. intros o Ho. destruct (at_rest c).
  - split; [|done]. by eapply table_frame.
  - split; [by apply closed_table | by apply closed_phase].
Qed.

Lemma keeps_terminate e destroy : keeps_client (terminate e destroy).
Proof. eapply keeps_end. intros c. apply does_terminate. Qed.
Lemma keeps_disconnect reason : keeps_client (disconnect reason).
Proof. eapply keeps_end. intros c. apply does_disconnect. Qed.
Lemma keeps_failProtocol e : keeps_client (failProtocol e).
Proof. eapply keeps_end. intros c. apply does_failProtocol. Qed.

Lemma keeps_then (a b : client_action) : keeps_client a -> keeps_client b -> keeps_client (a ;;; b).
Proof.
  intros Ha Hb c out Hc. unfold seq_action. specialize (Ha c out Hc). destruct (a c) as [c1 o1]. cbn [fst snd] in Ha.
  specialize (Hb c1 _ Ha). destruct (b c1) as [c2 o2]. cbn [fst snd] in *. by rewrite app_assoc.
Qed.

Lemma keeps_nothing : keeps_client skip.
Proof. intros c out Hc. by rewrite app_nil_r. Qed.

Lemma keeps_silent e : settles e = [] -> keeps_client (emit e).
Proof.
  intros He c out [Ht Hp]. split; [|done]. eapply table_frame; [exact Ht | done |]. unfold settled. cbn. by rewrite He.
Qed.

Lemma keeps_repeat {A} (l : list A) k : (forall x, keeps_client (k x)) -> keeps_client (each l k).
Proof. intros Hk. induction l; cbn [each]; auto using keeps_nothing, keeps_then. Qed.

(** *** Connecting *)

(** The client whose hello is to be written, and the one that waits for the peer's. *)
Definition greeting_client (t : nat) (c : client) : client :=
  {| clientCapabilities := clientCapabilities c; rpcTimeout := rpcTimeout c; helloTimeout := helloTimeout c;
     maxMessageSize := maxMessageSize c; maxChunkSize := maxChunkSize c; chunkSize := chunkSize c; transport := Some t;
     state := Greeting; sessionId := sessionId c; capabilities := capabilities c; baseVersion := baseVersion c;
     pending := pending c; retired := []; nextMessageId := nextMessageId c;
     helloFramer := Some (DelimiterFramer_new (framerOptions c)); session_framer := None; helloTimer := true;
     helloOpen := true; connectPromise := connectPromise c; listening := Some t; closeEmitted := closeEmitted c;
     inbound := 0; timers := timers c; closers := closers c; issued := issued c |}.

Lemma does_connect_fails e c : state c <> Closed ->
  does (connect_fails e) c ((closed_client e c) <| connectPromise := None |>) (waiting c).
Proof.
  intros Hc. unfold connect_fails. eapply does_eq; [eapply does_seq| done | apply app_nil_r].
  - apply does_this. rewrite bool_decide_false by done.
    pose proof (does_terminate e true c) as H. unfold at_rest in H. rewrite bool_decide_false in H by done. exact H.
  - eapply does_quiet; [apply does_assign | apply (does_emit (ConnectRejects e))].
Qed.

Lemma try_catch_eq (a : client_attempt) h c c1 o1 : a c = (c1, o1, None) -> try_catch a h c = (c1, o1).
Proof. unfold try_catch. by intros ->. Qed.

Lemma does_caught (a : client_attempt) h c c1 o1 e c2 l : a c = (c1, o1, Some e) -> settled o1 = [] -> does (h e) c1 c2 l ->
  does (try_catch a h) c c2 l.
Proof.
  intros Ha Ho (o2 & Hh & Hs). exists (o1 ++ o2). unfold try_catch. rewrite Ha, Hh. split; [done|]. by rewrite client_settled_app, Ho.
Qed.

Lemma does_open t writes c :
  does (open_session t writes) c ((greeting_client t c) <| connectPromise := Some AwaitHello |>) [] \/
  exists e, does (open_session t writes) c ((closed_client e (greeting_client t c)) <| connectPromise := None |>) (waiting c).
Proof.
  unfold open_session. set (begin := _ ;;; _ ;;; _). set (greet := this! c => _).
  assert (does begin c (greeting_client t c) []) as (o & Hb & Ho).
  { subst begin. eapply does_quiet; [apply does_assign|]. eapply does_quiet.
    - eapply does_quiet; [apply does_unbind|]. eapply does_quiet; [apply (does_emit (Bind t)) | apply does_assign].
    - eapply does_quiet; [apply does_this, does_assign|]. eapply does_quiet; [apply does_assign|].
      apply does_this. eapply does_eq; [apply (does_emit (StartHelloTimer _)) | done | done]. }
  assert ((exists o, greet (greeting_client t c) = (greeting_client t c, o, None) /\ settled o = []) \/
          exists e, greet (greeting_client t c) = (greeting_client t c, [], Some e)) as [(o2 & Hg & Ho2)|[e Hg]].
  { subst greet. unfold attempt_this, attempt_value, write, attempt_this.
    destruct (hello_bytes _) as [data|e]; [|right; by exists e]. cbn [transport greeting_client modify].
    destruct writes; [left|right; by exists WRITE_FAILED]. exists [Write t data]. done. }
  - left. exists (o ++ o2 ++ []). split; [|by rewrite !client_settled_app, Ho, Ho2].
    apply try_catch_eq. unfold seq_attempt, returns at 1. rewrite Hb, Hg. done.
  - right. exists e. eapply does_caught; [|exact Ho|].
    + unfold seq_attempt, returns at 1. rewrite Hb, Hg. by rewrite app_nil_r.
    + by apply (does_connect_fails e (greeting_client t c)).
Qed.

Lemma keeps_open t writes c out : table_ok c out -> pending c = [] ->
  client_inv (fst (open_session t writes c)) (out ++ snd (open_session t writes c)).
Proof.
  intros Ht Hp. assert (waiting c = []) as Hw by (unfold waiting; by rewrite Hp).
  assert (table_ok (greeting_client t c) out) as Hg.
  { destruct Ht as [H1 H2 H3 H4]. by split. }
  destruct (does_open t writes c) as [H|[e H]]; (eapply does_inv; [exact H|]); intros o Ho.
  - split; [eapply table_frame; [exact Hg | done | done]|]. cbn. by repeat split; eauto.
  - split; [|by repeat split].
    pose proof (closed_table e _ out o Hg Ho) as [H1 H2 H3 H4]. by split.
Qed.

Lemma idle_pending c : phase_ok c -> state c <> Connected -> pending c = [].
Proof. unfold phase_ok, resting. destruct (state c); intros; intuition. Qed.

Lemma open_keeps t writes : forall c out, client_inv c out -> state c <> Connected ->
  client_inv (fst (open_session t writes c)) (out ++ snd (open_session t writes c)).
Proof. intros c out [Ht Hp] Hs. apply keeps_open; [done|]. by apply idle_pending. Qed.

(** A step that leaves the table alone and ends in a good phase. *)
Lemma inv_step a c c' out : client_inv c out -> does a c c' [] -> same_table c c' -> phase_ok c' ->
  client_inv (fst (a c)) (out ++ snd (a c)).
Proof. intros [Ht _] Ha Hs Hp. eapply does_inv; [exact Ha|]. intros o Ho. split; [by eapply table_frame | done]. Qed.

Lemma keeps_connect target writes : keeps_client (connect target writes).
Proof.
  intros c out Hc. unfold connect, get_this at 1 2, connected. case_bool_decide as Hs; [by apply keeps_silent|].
  destruct (connectPromise c) as [stage|] eqn:Ep; [by apply keeps_nothing|].
  destruct (bool_decide (state c = Idle) || bool_decide (state c = Closed)) eqn:Ei; [|by apply keeps_silent].
  assert (state c = Idle \/ state c = Closed) as Hi by (apply orb_true_iff in Ei as [?%bool_decide_eq_true|?%bool_decide_eq_true]; auto).
  set (c1 := c <| state := Connecting |> <| closeEmitted := false |>).
  assert (table_ok c1 out) as Ht by (destruct Hc as [[] _]; by split).
  assert (resting c) as Hr by (destruct Hc as [_ Hp]; unfold phase_ok in Hp; destruct Hi as [E|E]; rewrite E in Hp; apply Hp).
  assert (forall t, client_inv (fst ((assign (fun c => c <| state := Connecting |> <| closeEmitted := false |>) ;;; open_session t writes) c))
    (out ++ snd ((assign (fun c => c <| state := Connecting |> <| closeEmitted := false |>) ;;; open_session t writes) c))) as Hopen.
  { intros t. unfold seq_action, assign. fold c1. pose proof (keeps_open t writes c1 out Ht ltac:(apply Hr)) as H.
    destruct (open_session t writes c1). exact H. }
  destruct target, (transport c); try apply Hopen.
  eapply inv_step; [exact Hc | | |].
  - eapply does_quiet; [apply does_assign|]. eapply does_quiet; [apply does_assign | apply (does_emit CallFactory)].
  - done.
  - split; [exact Hr | done].
Qed.

Lemma keeps_connect_fails e c out : client_inv c out -> connectPromise c <> Some AwaitHello -> state c <> Greeting -> state c <> Connected ->
  client_inv (fst (connect_fails e c)) (out ++ snd (connect_fails e c)).
Proof.
  intros [Ht Hp] H1 H2 H3. destruct (decide (state c = Closed)) as [Hs|Hs].
  - eapply inv_step; [split; eassumption | | |].
    + unfold connect_fails. eapply does_quiet; [apply does_this; rewrite bool_decide_true by done; apply does_skip|].
      eapply does_quiet; [apply does_assign | apply (does_emit (ConnectRejects e))].
    + done.
    + unfold phase_ok in *. cbn. rewrite Hs in *. by destruct Hp.
  - eapply does_inv; [by apply does_connect_fails|]. intros o Ho. pose proof (closed_table e c out o Ht Ho) as [K1 K2 K3 K4].
    split; [by split | by repeat split].
Qed.

Lemma keeps_factory r writes c out : client_inv c out -> connectPromise c = Some AwaitFactory ->
  client_inv (fst (factory_done r writes c)) (out ++ snd (factory_done r writes c)).
Proof.
  intros Hc Hp. assert (state c <> Greeting /\ state c <> Connected) as [H1 H2].
  { destruct Hc as [_ Hc]. unfold phase_ok in Hc. rewrite Hp in Hc.
    split; intros E; rewrite E in Hc; [by destruct Hc as (_ & _ & _ & _ & ? & _) | by destruct Hc as (_ & _ & _ & [?|[? ?]] & _)]. }
  destruct r; cbn [factory_done]; [by apply open_keeps | apply keeps_connect_fails | apply keeps_connect_fails]; congruence || done.
Qed.

(** *** Data *)

Section Data.
Context (validate : jsstring -> bool) (parse : bool -> jsstring -> option xml_value).

(** A method that may throw keeps the invariant, and [P]. *)
Definition attempt_keeps (P : client -> Prop) (a : client_attempt) : Prop := forall c out, client_inv c out -> P c ->
  let '(c', o, x) := a c in client_inv c' (out ++ o) /\ (x = None -> P c').

(** The same without a promise about the end. *)
Definition attempt_from (P : client -> Prop) (a : client_attempt) : Prop := forall c out, client_inv c out -> P c ->
  let '(c', o, _) := a c in client_inv c' (out ++ o).

Lemma attempt_keeps_from P a : attempt_keeps P a -> attempt_from P a.
Proof. intros Ha c out Hc HP. specialize (Ha c out Hc HP). destruct (a c) as [[c1 o1] x]. apply Ha. Qed.

Lemma keeps_try P a h : attempt_from P a -> (forall e, keeps_client (h e)) -> forall c out, client_inv c out -> P c ->
  client_inv (fst (try_catch a h c)) (out ++ snd (try_catch a h c)).
Proof.
  intros Ha Hh c out Hc HP. unfold try_catch. specialize (Ha c out Hc HP). destruct (a c) as [[c1 o1] [e|]].
  - specialize (Hh e c1 _ Ha). destruct (h e c1) as [c2 o2]. cbn [fst snd] in *. by rewrite app_assoc.
  - exact Ha.
Qed.

Lemma attempt_raise P e : attempt_keeps P (raise e).
Proof. intros c out Hc _. cbn. by rewrite app_nil_r. Qed.

Lemma attempt_value_keeps {A} P (r : result A) k : (forall a, r = Ok a -> attempt_keeps P (k a)) -> attempt_keeps P (attempt_value r k).
Proof. intros Hk. destruct r as [a|e]; [by apply Hk | apply attempt_raise]. Qed.

Lemma attempt_seq P a b : attempt_keeps P a -> attempt_keeps P b -> attempt_keeps P (a ;;! b).
Proof.
  intros Ha Hb c out Hc HP. unfold seq_attempt. specialize (Ha c out Hc HP). destruct (a c) as [[c1 o1] [e|]]; [exact Ha|].
  destruct Ha as [Hc1 HP1]. specialize (Hb c1 _ Hc1 (HP1 eq_refl)). destruct (b c1) as [[c2 o2] x]. by rewrite app_assoc.
Qed.

Lemma attempt_returns P a : (forall c out, client_inv c out -> P c -> client_inv (fst (a c)) (out ++ snd (a c)) /\ P (fst (a c))) ->
  attempt_keeps P (returns a).
Proof. intros Ha c out Hc HP. unfold returns. specialize (Ha c out Hc HP). destruct (a c). destruct Ha. by split. Qed.

Lemma attempt_get P k : (forall c, P c -> attempt_keeps P (k c)) -> attempt_keeps P (this! c => k c).
Proof. intros Hk c out Hc HP. by apply (Hk c HP). Qed.

(** A connected client whose table changes. *)
Lemma connected_phase c c' : phase_ok c -> state c = Connected -> state c' = Connected -> helloOpen c' = helloOpen c ->
  helloTimer c' = helloTimer c -> session_framer c' = session_framer c -> connectPromise c' = connectPromise c ->
  listening c' = listening c -> phase_ok c'.
Proof. unfold phase_ok. intros Hp Hs -> -> -> -> -> ->. by rewrite Hs in Hp. Qed.

Definition is_connected (c : client) : Prop := state c = Connected.

Lemma handleReply_keeps m sequence messageId errors c out : client_inv c out -> is_connected c ->
  client_inv (fst (handleReply m sequence messageId errors c)) (out ++ snd (handleReply m sequence messageId errors c)) /\
  is_connected (fst (handleReply m sequence messageId errors c)).
Proof.
  intros [Ht Hp] Hc. assert (client_inv c (out ++ [EmitOrphan m sequence])) as Horphan.
  { by apply (keeps_silent (EmitOrphan m sequence) eq_refl c out). }
  unfold handleReply, get_this. destruct messageId as [[|i id]|]; [by split| |by split].
  case_bool_decide as Hr; [|destruct (jmap_get (pending c) (i :: id)) as [x|] eqn:Ex; [|by split]].
  - cbn [seq_action assign emit fst snd app]. split; [|done]. split; [|eapply connected_phase; done].
    destruct Horphan as [[H1 H2 H3 H4] _]. split; [done..|]. cbn [retired pending modify]. by apply Forall_filter_list.
  - cbn [seq_action remove_call clearTimeout assign emit fst snd app]. split; [|done].
    split; [|eapply connected_phase; [exact Hp | done..]].
    eapply table_take; [exact Ht | exact Ex | done | done | done | by left |].
    unfold settle_reply, settled. destruct errors; [done|]. by destruct (rejectOnRpcError x).
Qed.

Lemma handleMessage_keeps xml : attempt_keeps is_connected (handleMessage validate parse xml).
Proof.
  apply attempt_get. intros c0 _. cbv zeta. apply attempt_value_keeps. intros m _. apply attempt_returns. intros c out Hc Hcon.
  assert (forall a : client_action,
    (forall c out, client_inv c out -> is_connected c -> client_inv (fst (a c)) (out ++ snd (a c)) /\ is_connected (fst (a c))) ->
    client_inv (fst ((assign (fun c => c <| inbound := inbound c0 + 1 |>) ;;; a) c)) (out ++ snd ((assign (fun c => c <| inbound := inbound c0 + 1 |>) ;;; a) c)) /\
    is_connected (fst ((assign (fun c => c <| inbound := inbound c0 + 1 |>) ;;; a) c))) as Hthen.
  { intros a Ha. unfold seq_action, assign. specialize (Ha (c <| inbound := inbound c0 + 1 |>) out).
    destruct (a (c <| inbound := inbound c0 + 1 |>)) as [c2 o2]. apply Ha; [|done].
    destruct Hc as [[] Hp]. split; [by split|]. eapply connected_phase; done. }
  assert (forall e, settles e = [] -> forall c out, client_inv c out -> is_connected c ->
    client_inv (fst (emit e c)) (out ++ snd (emit e c)) /\ is_connected (fst (emit e c))) as Hemit.
  { intros e He c1 out1 H1 H2. split; [by apply keeps_silent | done]. }
  apply Hthen. destruct (body m); try by apply Hemit. intros c1 out1. by apply handleReply_keeps.
Qed.

Lemma handle_messages_keeps l : attempt_keeps is_connected (handle_messages validate parse l).
Proof.
  induction l as [|xml l IH]; cbn [handle_messages]; [|by apply attempt_seq; [apply handleMessage_keeps|]].
  apply attempt_returns. intros c out Hc Hcon. split; [by apply keeps_nothing | done].
Qed.

Lemma delimiter_push_some f chunk limit : exists f' r, delimiter_push decode_text utf8_encode f (InBuffer chunk) limit = Some (f', r).
Proof.
  unfold delimiter_push. cbn [toBuffer]. destruct (check_max_messages limit); [eauto|].
  destruct (@stream_run_total _ _ (delimiter_decoder decode_text) (delimiter_laws decode_text) limit (df_state f)
    (appendBuffer (df_buffer f) chunk) [] I) as [[[s b] r] ->]. cbn. eauto.
Qed.

Lemma framer_push_ok f chunk : framer_ok f -> exists f' r, framer_push f chunk = Some (f', r) /\ framer_ok f'.
Proof.
  intros Hf. destruct f as [f|f]; cbn [framer_push].
  - destruct (chunked_push_total decode_text utf8_encode f (InBuffer chunk) Infinity Hf) as (f' & r & Hr & Hf'). rewrite Hr. cbn. eauto.
  - destruct (delimiter_push_some f chunk Infinity) as (f' & r & Hr). rewrite Hr. cbn. eauto.
Qed.

Lemma decode_keeps chunk : attempt_keeps is_connected (decodeEstablishedData validate parse chunk).
Proof.
  intros c out Hc Hcon. unfold decodeEstablishedData, attempt_this.
  pose proof Hc as [_ Hp]. unfold phase_ok in Hp. rewrite Hcon in Hp. destruct Hp as (H1 & H2 & (f & Hf & Hok) & H3 & H4).
  rewrite Hf. destruct (framer_push_ok f chunk Hok) as (f' & r & -> & Hok').
  refine (attempt_seq is_connected _ _ _ _ c out Hc Hcon).
  - apply attempt_returns. intros c1 out1 [[] Hp1] Hc1. split; [|done]. split; [by split; rewrite ?app_nil_r|].
    unfold phase_ok in *. cbn. rewrite Hc1 in *. destruct Hp1 as (? & ? & _ & ? & ?). eauto 10.
  - apply attempt_value_keeps. intros l _. apply handle_messages_keeps.
Qed.

(** The client after a hello. *)
Definition greeted_client (version : string) (sid : option jsstring) (server : list jsstring) (f : framer) (c : client) : client :=
  {| clientCapabilities := clientCapabilities c; rpcTimeout := rpcTimeout c; helloTimeout := helloTimeout c;
     maxMessageSize := maxMessageSize c; maxChunkSize := maxChunkSize c; chunkSize := chunkSize c;
     transport := transport c; state := Connected; sessionId := sid; capabilities := server;
     baseVersion := Some version; pending := pending c; retired := retired c; nextMessageId := nextMessageId c;
     helloFramer := helloFramer c; session_framer := Some f; helloTimer := false; helloOpen := false;
     connectPromise := match helloOpen c, connectPromise c with
       | true, Some AwaitHello => Some (HelloResolved {| info_sessionId := sid; info_capabilities := server; info_baseVersion := Some version |})
       | _, p => p
       end;
     listening := listening c; closeEmitted := closeEmitted c; inbound := inbound c; timers := timers c;
     closers := closers c; issued := issued c |}.

Lemma negotiate_framer a b v o : negotiate a b = Some v -> exists f, createFramer v o = Ok f /\ framer_ok f.
Proof.
  unfold negotiate. repeat case_if; [| |done]; intros [= <-]; eexists; (split; [reflexivity|]); [|done].
  split; [done | reflexivity].
Qed.

Lemma hello_cases xml c :
  (exists e, handleServerHello validate parse xml c = (c, [], Some e)) \/
  exists version sid server f o, framer_ok f /\ createFramer version (framerOptions c) = Ok f /\ settled o = [] /\
    handleServerHello validate parse xml c = (greeted_client version sid server f c, o, None).
Proof.
  unfold handleServerHello, attempt_this, attempt_value.
  destruct (parseNetconfMessage validate parse xml _ _) as [m|e]; [|left; by exists e].
  destruct (body m) as [sid server| | |]; try (left; by eexists).
  destruct (present sid); [|left; by eexists]. destruct (negotiate _ server) as [v|] eqn:En; [|left; by eexists].
  destruct (negotiate_framer _ _ _ (framerOptions c) En) as (f & Hf & Hok). right.
  set (c1 := c <| baseVersion := Some v |> <| sessionId := sid |> <| capabilities := server |>).
  assert (exists o, established f c1 = (greeted_client v sid server f c, o) /\ settled o = []) as (o & Ho & Hs).
  { eapply does_quiet; [apply does_assign|]. eapply does_quiet; [apply does_clearHelloTimer|]. apply does_this. cbv zeta.
    eapply does_quiet; [|apply (does_emit (EmitConnected _))].
    subst c1. cbn [helloOpen connectPromise modify].
    destruct (helloOpen c) eqn:E.
    - eapply does_quiet; [apply does_assign|]. destruct (connectPromise c) as [[]|] eqn:Ep;
        first [eapply does_eq; [apply does_assign | unfold greeted_client; rewrite E, Ep; reflexivity | done] | eapply does_eq; [apply does_skip | unfold greeted_client; rewrite E, Ep; rewrite <- Ep; reflexivity | done]].
    - eapply does_eq; [apply does_skip | unfold greeted_client; rewrite E; clear -E; destruct c; cbn in E; rewrite E; reflexivity | done]. }
  exists v, sid, server, f, o. split; [done|]. split; [done|]. split; [done|].
  unfold seq_attempt, returns at 1. unfold assign. fold c1. rewrite Hf. unfold returns. by rewrite Ho.
Qed.

Definition is_greeting (c : client) : Prop := state c = Greeting.

Lemma greeting_framer c out f : client_inv c out -> is_greeting c -> client_inv (c <| helloFramer := Some f |>) out.
Proof.
  intros [[] Hp] Hg. split; [by split|]. unfold phase_ok, is_greeting in *. cbn. rewrite Hg in *.
  destruct Hp as (? & ? & ? & _ & ? & ?). by repeat split.
Qed.

Lemma greeted_inv c out version sid server f : client_inv c out -> is_greeting c -> framer_ok f ->
  client_inv (greeted_client version sid server f c) out.
Proof.
  intros [[] Hp] Hg Hf. split; [by split|]. unfold phase_ok, is_greeting in *. rewrite Hg in Hp. cbn.
  destruct Hp as (-> & _ & _ & _ & -> & ?). split; [done|]. split; [done|]. split; [by exists f|]. split; [right; by eexists|done].
Qed.

Lemma greet_from chunk : attempt_from is_greeting (greet validate parse chunk).
Proof.
  intros c out Hc Hg. pose proof Hc as [_ Hp]. unfold phase_ok in Hp. unfold is_greeting in Hg. rewrite Hg in Hp.
  destruct Hp as (_ & _ & _ & [f Hf] & _). unfold greet, attempt_this. rewrite Hf.
  destruct (delimiter_push_some f chunk (Count 1)) as (f1 & r & ->). unfold seq_attempt at 1, returns at 1, assign at 1.
  pose proof (greeting_framer c out f1 Hc Hg) as Hc1. set (c1 := c <| helloFramer := Some f1 |>) in *. cbn [app].
  destruct r as [[|xml rest]|e]; cbn [attempt_value]; [| |].
  - unfold returns, skip. by rewrite app_nil_r.
  - cbn [delimiter_takeBuffered]. unfold seq_attempt at 1, returns at 1, assign at 1. cbn [app].
    set (f2 := {| df_state := df_state f1; df_buffer := [] |}).
    pose proof (greeting_framer c1 out f2 Hc1 Hg) as Hc2. set (c2 := c1 <| helloFramer := Some f2 |>) in *.
    unfold seq_attempt. destruct (hello_cases xml c2) as [[e He]|(version & sid & server & fr & o & Hok & _ & Ho & He)]; rewrite He.
    + by rewrite app_nil_r.
    + assert (client_inv (greeted_client version sid server fr c2) (out ++ o)) as Hc3.
      { pose proof (greeted_inv c2 out version sid server fr Hc2 Hg Hok) as [Ht Hp]. split; [by eapply table_frame | done]. }
      case_if.
      * pose proof (decode_keeps (df_buffer f1) _ _ Hc3 eq_refl) as Hd. destruct (decodeEstablishedData _ _ _ _) as [[c4 o4] x].
        rewrite app_assoc. apply Hd.
      * unfold returns, skip. by rewrite app_nil_r.
  - unfold raise. by rewrite app_nil_r.
Qed.

Lemma keeps_handleData chunk : keeps_client (handleData validate parse chunk).
Proof.
  intros c out Hc. unfold handleData, get_this. case_bool_decide as Hg.
  - apply (keeps_try is_greeting); [apply greet_from | intros; apply keeps_failProtocol | done | done].
  - unfold connected. case_bool_decide as Hcon.
    + apply (keeps_try is_connected); [apply attempt_keeps_from, decode_keeps | intros; apply keeps_failProtocol | done | done].
    + unfold try_catch, returns, skip. cbn. by rewrite app_nil_r.
Qed.

Lemma keeps_on_transport ev : keeps_client (on_transport validate parse ev).
Proof. destruct ev; cbn [on_transport]; [apply keeps_handleData | apply keeps_terminate ..]. Qed.

(** *** Calls *)

Lemma refuse_keeps_client e : keeps_client (refuse e).
Proof. intros c out [Ht Hp]. split; [by apply table_refused | done]. Qed.

Lemma write_cases c xml writes : exists o,
  (this! c => attempt_value (encodeMessage utf8_encode (InString xml) (default EmptyString (baseVersion c)) (chunkSize c))
     (fun data => write data writes)) c = (c, o, None) /\ settled o = [] \/
  exists e, (this! c => attempt_value (encodeMessage utf8_encode (InString xml) (default EmptyString (baseVersion c)) (chunkSize c))
     (fun data => write data writes)) c = (c, [], Some e).
Proof.
  unfold attempt_this, attempt_value, write, attempt_this. destruct (encodeMessage _ _ _ _) as [data|e]; [|exists []; right; by exists e].
  destruct (transport c) as [t|]; [|exists []; right; by eexists]. destruct writes; [|exists []; right; by eexists].
  exists [Write t data]. by left.
Qed.

(** A call that is sent. *)
Definition sent_client (id xml : jsstring) (rejects : bool) (c : client) : client :=
  c <| issued := S (issued c) |>
    <| timers := timers c ++ [(id, {| promise := issued c; requestXml := xml; rejectOnRpcError := rejects |})] |>
    <| pending := jmap_set (pending c) id {| promise := issued c; requestXml := xml; rejectOnRpcError := rejects |} |>.

Lemma keeps_send id xml ms rejects writes c out : client_inv c out -> is_connected c -> jmap_get (pending c) id = None -> id ∉ retired c ->
  client_inv (fst (send_call id xml ms rejects writes c)) (out ++ snd (send_call id xml ms rejects writes c)).
Proof.
  intros [Ht Hp] Hcon Hid Hret. set (x := {| promise := issued c; requestXml := xml; rejectOnRpcError := rejects |}).
  set (c1 := sent_client id xml rejects c).
  assert (table_ok c1 out) as Ht1 by (rewrite <- (app_nil_r out); by apply (table_enter c c1 out [] id x)).
  assert (phase_ok c1) as Hp1 by by eapply connected_phase.
  assert (jmap_get (pending c1) id = Some x) as Hx by apply jmap_get_set_eq.
  set (c2 := c1 <| timers := without_timer (promise x) (timers c1) |> <| pending := jmap_delete (pending c1) id |>).
  assert (does (send_call id xml ms rejects writes) c c1 [] \/ does (send_call id xml ms rejects writes) c c2 [promise x]) as [H|H].
  - destruct (write_cases c1 xml writes) as [o [[Hw Ho]|[e Hw]]]; [left|right]; unfold send_call; apply does_this; cbv zeta; fold x.
    + eapply does_quiet; [apply does_assign|]. eapply does_quiet; [apply (does_emit (StartTimer _ ms))|].
      eapply does_quiet; [apply does_assign|]. exists o. split; [|done]. apply try_catch_eq. exact Hw.
    + eapply does_quiet; [apply does_assign|]. eapply does_quiet; [apply (does_emit (StartTimer _ ms))|].
      eapply does_quiet; [apply does_assign|]. eapply does_caught; [exact Hw | done|].
      eapply does_quiet; [apply (does_clearTimeout (promise x))|]. eapply does_quiet; [apply does_assign | apply (does_emit (Reject _ e _ _))].
  - eapply does_inv; [exact H|]. intros o Ho. split; [by eapply table_frame | done].
  - eapply does_inv; [exact H|]. intros o Ho. split; [|by eapply (connected_phase c1)].
    by apply (table_take c1 c2 out o id x); auto.
Qed.

Lemma keeps_call raw requested o writes c out : client_inv c out -> is_connected c ->
  client_inv (fst (call_with_id validate parse raw requested o writes c)) (out ++ snd (call_with_id validate parse raw requested o writes c)).
Proof.
  intros Hc Hcon. unfold call_with_id, get_this. destruct (ensureRpcEnvelope _ _ _ _) as [[xml id]|e]; [|by apply refuse_keeps_client].
  destruct (jmap_has (pending c) id) eqn:Eh; [by apply refuse_keeps_client|]. case_bool_decide; [by apply refuse_keeps_client|].
  destruct (timeout_of c (opt_timeout o)); [|by apply refuse_keeps_client]. apply keeps_send; [done | done | by apply jmap_has_false | done].
Qed.

Lemma keeps_rpc operation o writes : keeps_client (up_to_throw (rpc validate parse operation o writes)).
Proof.
  intros c out Hc. unfold up_to_throw, rpc, attempt_this, connected. case_bool_decide as Hcon; cbn [negb]; [|by apply refuse_keeps_client].
  destruct operation as [raw|]; [|by apply refuse_keeps_client].
  destruct (extractRpcMessageId raw) as [existing|e]; cbn [attempt_value]; [|by apply keeps_nothing].
  assert (forall requested, client_inv (fst (call_with_id validate parse raw requested o writes c))
    (out ++ snd (call_with_id validate parse raw requested o writes c))) as Hcall by (intros; by apply keeps_call).
  assert (client_inv (fst (match reserveMessageId c with
      | Throw e => refuse e
      | Ok (c1, n) => assign (fun _ => c1) ;;; call_with_id validate parse raw (js_number_to_string n) o writes
      end c)) (out ++ snd (match reserveMessageId c with
      | Throw e => refuse e
      | Ok (c1, n) => assign (fun _ => c1) ;;; call_with_id validate parse raw (js_number_to_string n) o writes
      end c))) as Hreserve.
  { destruct (reserveMessageId c) as [[c1 n]|e] eqn:Er; [|by apply refuse_keeps_client].
    unfold reserveMessageId in Er. destruct (is_safe_integer _ && _); [|done]. injection Er as <- <-.
    assert (client_inv (c <| nextMessageId := nextMessageId c + 1 |>) out) as Hc1 by (destruct Hc as [[] Hp]; split; [by split | by eapply connected_phase]).
    unfold seq_action, assign. pose proof (keeps_call raw (js_number_to_string (nextMessageId c)) o writes _ _ Hc1 Hcon) as H.
    destruct (call_with_id _ _ _ _ _ _ _). exact H. }
  unfold returns. cbn [fst]. destruct (opt_messageId o), existing; apply Hcall || exact Hreserve.
Qed.

Lemma retired_more (id : jsstring) l i : i ∈ (if bool_decide (id ∈ l) then l else l ++ [id]) -> i ∈ l \/ i = id.
Proof. case_bool_decide; [auto|]. rewrite list.elem_of_app, list_elem_of_singleton. tauto. Qed.

Lemma keeps_cancel id : keeps_client (cancelRpc id).
Proof.
  intros c out [Ht Hp]. unfold cancelRpc, get_this. destruct id as [id|]; [|by apply keeps_nothing].
  destruct (jmap_get (pending c) id) as [x|] eqn:Ex; [|by apply keeps_nothing].
  assert (state c = Connected) as Hcon.
  { destruct (decide (state c = Connected)) as [|Hn]; [done|]. by rewrite (idle_pending c Hp Hn) in Ex. }
  unfold clearTimeout, remove_call. cbn [seq_action assign emit fst snd app retire]. split; [|by eapply connected_phase].
  eapply table_take; [exact Ht | exact Ex | done..| |done]. intros i. apply (retired_more id (retired c)).
Qed.

Lemma timer_keeps_client id x c out : client_inv c out -> (id, x) ∈ timers c ->
  client_inv (fst (rpc_timer id x c)) (out ++ snd (rpc_timer id x c)).
Proof.
  intros [Ht Hp] Hx. assert (jmap_get (pending c) id = Some x) as Ex.
  { apply jmap_get_elem; [apply Ht|]. by rewrite <- (table_timers _ _ Ht). }
  assert (state c = Connected) as Hcon.
  { destruct (decide (state c = Connected)) as [|Hn]; [done|]. by rewrite (idle_pending c Hp Hn) in Ex. }
  set (c1 := c <| timers := without_timer (promise x) (timers c) |> <| pending := jmap_delete (pending c) id |>
    <| retired := if bool_decide (id ∈ retired c) then retired c else retired c ++ [id] |>).
  assert (does (rpc_timer id x) c c1 [promise x]) as H.
  { unfold rpc_timer. eapply does_quiet; [apply does_assign|]. apply does_this.
    match goal with |- context [jmap_has ?m id] => assert (jmap_has m id = true) as -> end; [apply jmap_has_true; by exists x|].
    eapply does_quiet; [apply does_assign|]. eapply does_quiet; [apply does_assign | apply (does_emit (Reject _ RPC_TIMEOUT _ _))]. }
  eapply does_inv; [exact H|]. intros o Ho. split; [|by eapply (connected_phase c)].
  eapply table_take; [exact Ht | exact Ex | done..| |exact Ho]. intros i. apply (retired_more id (retired c)).
Qed.

(** *** Events *)

Lemma keeps_closeSession o writes : keeps_client (up_to_throw (closeSession validate parse o writes)).
Proof.
  intros c out Hc. unfold up_to_throw, closeSession, attempt_this, connected. case_bool_decide; [|by apply keeps_disconnect].
  assert (client_inv (c <| closers := closers c ++ [issued c] |>) out) as Hc1 by (destruct Hc as [[] Hp]; split; [by split | done]).
  unfold seq_attempt, returns, assign. pose proof (keeps_rpc (Some CLOSE_SESSION) o writes _ _ Hc1) as H0. unfold up_to_throw in H0.
  destruct (rpc validate parse (Some CLOSE_SESSION) o writes _) as [[c2 o2] x]. exact H0.
Qed.

Lemma keeps_handle ev c out : client_inv c out -> possible c ev ->
  client_inv (fst (handle validate parse ev c)) (out ++ snd (handle validate parse ev c)).
Proof.
  intros Hc Hev. destruct ev; cbn [handle].
  - by apply keeps_connect.
  - by apply keeps_factory.
  - unfold get_this. case_bool_decide; [by apply keeps_on_transport | by apply keeps_nothing].
  - by apply keeps_failProtocol.
  - by apply timer_keeps_client.
  - by apply keeps_rpc.
  - unfold get_this, reserveMessageId. destruct (is_safe_integer _ && _); [|by apply keeps_nothing].
    cbn. rewrite app_nil_r. destruct Hc as [[] Hp]. split; [by split | done].
  - by apply keeps_cancel.
  - by apply keeps_disconnect.
  - by apply keeps_closeSession.
Qed.

Lemma keeps_closers : keeps_client closers_resume.
Proof.
  intros c out Hc. unfold closers_resume, get_this. destruct (forallb _ _); [by apply keeps_nothing|].
  apply keeps_then; [apply keeps_repeat; intros; apply keeps_disconnect | | done].
  clear. intros c out [[] Hp]. cbn. rewrite app_nil_r. split; [by split | done].
Qed.

(** Nothing is left for the promise of [connect] to act upon. *)
Definition acted (c : client) : Prop :=
  match connectPromise c with
  | Some (HelloResolved _) | Some (HelloRejected _) => False
  | _ => True
  end.

Lemma resumed c out : client_inv c out ->
  client_inv (fst (connect_resumes c)) (out ++ snd (connect_resumes c)) /\ acted (fst (connect_resumes c)).
Proof.
  intros Hc. unfold connect_resumes, get_this. destruct (connectPromise c) as [[| |info|e]|] eqn:Ep.
  - split; [by apply keeps_nothing|]. unfold acted, skip. cbn. by rewrite Ep.
  - split; [by apply keeps_nothing|]. unfold acted, skip. cbn. by rewrite Ep.
  - split; [|done]. eapply inv_step; [exact Hc | eapply does_quiet; [apply does_assign | apply (does_emit (ConnectResolves info))] | done |].
    destruct Hc as [_ Hp]. unfold phase_ok in *. cbn. rewrite Ep in Hp. destruct (state c).
    + by destruct Hp.
    + by destruct Hp.
    + by destruct Hp as (_ & _ & _ & _ & ? & _).
    + destruct Hp as (? & ? & ? & _ & ?). auto 10.
    + by destruct Hp.
  - assert (state c <> Greeting /\ state c <> Connected) as [H1 H2].
    { destruct Hc as [_ Hp]. unfold phase_ok in Hp. rewrite Ep in Hp. split; intros E; rewrite E in Hp.
      - by destruct Hp as (_ & _ & _ & _ & ? & _).
      - by destruct Hp as (_ & _ & _ & [?|[? ?]] & _). }
    split; [apply keeps_connect_fails; congruence || done|].
    unfold connect_fails, seq_action. destruct (get_this _ c) as [c1 o1]. done.
  - split; [by apply keeps_nothing|]. unfold acted, skip. cbn. by rewrite Ep.
Qed.

Lemma on_event_inv ev c out : client_inv c out -> possible c ev ->
  client_inv (fst (on_event validate parse ev c)) (out ++ snd (on_event validate parse ev c)) /\ acted (fst (on_event validate parse ev c)).
Proof.
  intros Hc Hev. unfold on_event, seq_action. pose proof (keeps_handle ev c out Hc Hev) as H1.
  destruct (handle validate parse ev c) as [c1 o1]. cbn [fst snd] in H1. pose proof (keeps_closers c1 _ H1) as H2.
  destruct (closers_resume c1) as [c2 o2]. cbn [fst snd] in H2. pose proof (resumed c2 _ H2) as H3.
  destruct (connect_resumes c2) as [c3 o3]. cbn [fst snd] in *. by rewrite !app_assoc.
Qed.

(** The histories of a client. *)
Inductive reachable (o : client_options) : client -> list client_effect -> Prop :=
| reachable_new c : NetconfClient_new o = Ok c -> reachable o c []
| reachable_step c out ev : reachable o c out -> possible c ev ->
    reachable o (fst (on_event validate parse ev c)) (out ++ snd (on_event validate parse ev c)).

Lemma reachable_inv o c out : reachable o c out -> client_inv c out /\ acted c.
Proof.
  induction 1 as [c Hc|c out ev _ [IH _] Hev]; [|by apply on_event_inv].
  unfold NetconfClient_new in Hc. repeat (case_if; [|done]). injection Hc as <-. split; [|done].
  split; [|done]. split; try done. apply NoDup_nil_2.
Qed.
End Data.

(** ** Fragments *)

Section Fragments.
Context (validate : jsstring -> bool) (parse : bool -> jsstring -> option xml_value).

#[local] Instance text_decoder : StreamDecoder DelimiterState jsstring := delimiter_decoder decode_text.
#[local] Instance text_laws : StreamLaws DelimiterState jsstring := delimiter_laws decode_text.

Lemma delimiter_step_out s b s' b' out : delimiter_step decode_text s b = Advance s' b' out -> exists m, out = Some m.
Proof. unfold delimiter_step. destruct (indexOf _ _ _); repeat case_if; try done. intros [= _ _ <-]. eauto. Qed.

(** A push limited to one message. *)
Lemma delimiter_push_one f x :
  delimiter_push decode_text utf8_encode f (InBuffer x) (Count 1) =
  match delimiter_step decode_text (df_state f) (df_buffer f ++ x) with
  | Wait => Some ({| df_state := df_state f; df_buffer := df_buffer f ++ x |}, Ok [])
  | Fail e => Some ({| df_state := df_state f; df_buffer := df_buffer f ++ x |}, Throw e)
  | Advance s b out => match out with
                       | Some m => Some ({| df_state := s; df_buffer := b |}, Ok [m])
                       | None => None
                       end
  end.
Proof.
  unfold delimiter_push. cbn [toBuffer check_max_messages]. change (is_safe_integer 1) with true. change (1 <=? 0) with false. cbv iota.
  rewrite appendBuffer_app. set (run := stream_run (Count 1)).
  destruct (delimiter_step decode_text (df_state f) (df_buffer f ++ x)) as [|e|s b [m|]] eqn:Es; subst run.
  - by rewrite stream_run_wait.
  - by rewrite (stream_run_fail _ _ _ _ e).
  - rewrite (stream_run_advance (Count 1) _ _ _ s b (Some m)) by done. cbn [option_list app]. by rewrite stream_run_stop.
  - by destruct (delimiter_step_out _ _ _ _ _ Es) as [m ?].
Qed.

Lemma delimiter_one_split f x y :
  match delimiter_push decode_text utf8_encode f (InBuffer x) (Count 1) with
  | Some (f1, Ok []) =>
    delimiter_push decode_text utf8_encode f (InBuffer (x ++ y)) (Count 1) = delimiter_push decode_text utf8_encode f1 (InBuffer y) (Count 1)
  | Some (f1, Ok ms) =>
    delimiter_push decode_text utf8_encode f (InBuffer (x ++ y)) (Count 1) =
    Some ({| df_state := df_state f1; df_buffer := df_buffer f1 ++ y |}, Ok ms)
  | Some (_, Throw e) => exists f2, delimiter_push decode_text utf8_encode f (InBuffer (x ++ y)) (Count 1) = Some (f2, Throw e)
  | None => False
  end.
Proof.
  rewrite (delimiter_push_one f x), (delimiter_push_one f (x ++ y)), app_assoc.
  destruct (delimiter_step decode_text (df_state f) (df_buffer f ++ x)) as [|e|s b out] eqn:Es.
  - rewrite (delimiter_push_one {| df_state := _; df_buffer := _ |}). cbn [df_state df_buffer].
    destruct (delimiter_step decode_text (df_state f) ((df_buffer f ++ x) ++ y)) as [|e|s b out] eqn:E2; [done..|].
    by destruct (delimiter_step_out _ _ _ _ _ E2) as [m ->].
  - pose proof (@sd_fail_app DelimiterState jsstring text_decoder text_laws (df_state f) (df_buffer f ++ x) e y I Es) as Hf.
    cbn [sd_step text_decoder delimiter_decoder] in Hf. rewrite Hf. eauto.
  - destruct (delimiter_step_out _ _ _ _ _ Es) as [m ->].
    pose proof (@sd_advance_app DelimiterState jsstring text_decoder text_laws (df_state f) (df_buffer f ++ x) s b (Some m) y I Es) as Ha.
    cbn [sd_step text_decoder delimiter_decoder] in Ha. by rewrite Ha.
Qed.

Lemma framer_push_split f x y f2 m : framer_ok f -> framer_push f (x ++ y) = Some (f2, Ok m) ->
  exists f1 m1 m2, framer_push f x = Some (f1, Ok m1) /\ framer_ok f1 /\ framer_push f1 y = Some (f2, Ok m2) /\ m = m1 ++ m2.
Proof.
  intros Hok. destruct (framer_push_ok f x Hok) as (f1 & r1 & Hx & Hok1). rewrite Hx. intros Hxy.
  destruct f as [f|f]; cbn [framer_push] in Hx, Hxy.
  - pose proof (chunked_feed_concat decode_text utf8_encode f x [y] Hok) as Hf. cbn [chunked_feed concat] in Hf. rewrite app_nil_r in Hf.
    destruct (chunked_push decode_text utf8_encode f (InBuffer x) Infinity) as [[g1 [m1|e]]|]; [| |done]; cbn in Hx; injection Hx as <- <-.
    + destruct (chunked_push decode_text utf8_encode g1 (InBuffer y) Infinity) as [[g2 [m2|e]]|] eqn:Ey; [| |done].
      * rewrite Hf in Hxy. cbn in Hxy. injection Hxy as <- <-. exists (Netconf11Framer g1), m1, m2. cbn [framer_push]. by rewrite Ey.
      * destruct Hf as [b2 Hf]. by rewrite Hf in Hxy.
    + destruct Hf as [b2 Hf]. by rewrite Hf in Hxy.
  - pose proof (delimiter_feed_concat decode_text utf8_encode f x [y]) as Hf. cbn [delimiter_feed concat] in Hf. rewrite app_nil_r in Hf.
    destruct (delimiter_push decode_text utf8_encode f (InBuffer x) Infinity) as [[g1 [m1|e]]|]; [| |done]; cbn in Hx; injection Hx as <- <-.
    + destruct (delimiter_push decode_text utf8_encode g1 (InBuffer y) Infinity) as [[g2 [m2|e]]|] eqn:Ey; [| |done].
      * rewrite Hf in Hxy. cbn in Hxy. injection Hxy as <- <-. exists (Netconf10Framer g1), m1, m2. cbn [framer_push]. by rewrite Ey.
      * destruct Hf as [b2 Hf]. by rewrite Hf in Hxy.
    + destruct Hf as [b2 Hf]. by rewrite Hf in Hxy.
Qed.

(** The messages do not look at the framer. *)
Lemma handleMessage_framer xml g c :
  handleMessage validate parse xml (c <| session_framer := g |>) =
  (let '(c', o, x) := handleMessage validate parse xml c in (c' <| session_framer := g |>, o, x)).
Proof.
  unfold handleMessage, attempt_this. cbv zeta. change (maxMessageSize (c <| session_framer := g |>)) with (maxMessageSize c).
  destruct (parseNetconfMessage _ _ _ _ _) as [m|e]; [|done]. cbn [attempt_value]. unfold returns, seq_action, assign.
  change (inbound (c <| session_framer := g |>)) with (inbound c).
  destruct (body m); [done| |done|done]. unfold handleReply, get_this. destruct messageId as [[|i id]|]; [done| |done].
  change (retired (c <| session_framer := g |> <| inbound := inbound c + 1 |>)) with (retired c).
  change (retired (c <| inbound := inbound c + 1 |>)) with (retired c). case_bool_decide; [done|].
  change (pending (c <| session_framer := g |> <| inbound := inbound c + 1 |>)) with (pending c).
  change (pending (c <| inbound := inbound c + 1 |>)) with (pending c). by destruct (jmap_get (pending c) (i :: id)).
Qed.

Lemma handle_messages_framer l g : forall c,
  handle_messages validate parse l (c <| session_framer := g |>) =
  (let '(c', o, x) := handle_messages validate parse l c in (c' <| session_framer := g |>, o, x)).
Proof.
  induction l as [|xml l IH]; intros c; [done|]. cbn [handle_messages]. unfold seq_attempt. rewrite handleMessage_framer.
  destruct (handleMessage validate parse xml c) as [[c1 o1] [e|]]; [done|]. rewrite IH. by destruct (handle_messages validate parse l c1) as [[c2 o2] x].
Qed.

Lemma handle_messages_app l1 l2 c :
  handle_messages validate parse (l1 ++ l2) c = (handle_messages validate parse l1 ;;! handle_messages validate parse l2) c.
Proof.
  revert c. induction l1 as [|xml l1 IH]; intros c; cbn [app handle_messages].
  - unfold seq_attempt, returns, skip. by destruct (handle_messages validate parse l2 c) as [[c1 o1] x].
  - unfold seq_attempt in *. destruct (handleMessage validate parse xml c) as [[c1 o1] [e|]]; [done|]. rewrite IH.
    destruct (handle_messages validate parse l1 c1) as [[c2 o2] [e|]]; [done|].
    destruct (handle_messages validate parse l2 c2) as [[c3 o3] x]. by rewrite app_assoc.
Qed.

(** Decoding two fragments is decoding them together. *)
Lemma decode_split x y c c' o : phase_ok c -> is_connected c ->
  decodeEstablishedData validate parse (x ++ y) c = (c', o, None) ->
  (decodeEstablishedData validate parse x ;;! decodeEstablishedData validate parse y) c = (c', o, None).
Proof.
  intros Hp Hcon. pose proof Hp as Hp0. unfold phase_ok in Hp. rewrite Hcon in Hp. destruct Hp as (_ & _ & (f & Hf & Hok) & _).
  unfold decodeEstablishedData, seq_attempt, attempt_this. rewrite Hf.
  destruct (framer_push_ok f (x ++ y) Hok) as (f2 & r & Hxy & _). rewrite Hxy. unfold returns, assign. cbn [app].
  destruct r as [m|e]; cbn [attempt_value]; [|done].
  destruct (framer_push_split f x y f2 m Hok Hxy) as (f1 & m1 & m2 & Hx & _ & Hy & ->). rewrite Hx. cbn [attempt_value].
  rewrite handle_messages_app. unfold seq_attempt. rewrite !(handle_messages_framer m1).
  destruct (handle_messages validate parse m1 c) as [[c1 o1] [e|]] eqn:E1; [done|].
  match goal with |- context [session_framer ?s] => change (session_framer s) with (Some f1) end.
  cbv iota. rewrite Hy. cbn [attempt_value app]. cbv beta.
  repeat match goal with |- context [handle_messages validate parse m2 ?s] =>
    progress change s with (c1 <| session_framer := Some f2 |>) end.
  by destruct (handle_messages validate parse m2 (c1 <| session_framer := Some f2 |>)) as [[c2 o2] z].
Qed.

Lemma try_catch_ok (a : client_attempt) h c c1 o1 : a c = (c1, o1, None) -> try_catch a h c = (c1, o1).
Proof. unfold try_catch. by intros ->. Qed.

Lemma failed_closes e c : state (fst (failProtocol e c)) = Closed.
Proof.
  destruct (does_failProtocol e c) as (o & H & _). rewrite H. cbn. destruct (at_rest c) eqn:E; [|done].
  unfold at_rest in E. apply andb_true_iff in E as [[E _]%andb_true_iff _]. by apply bool_decide_eq_true in E.
Qed.

(** A try that does not end in [Closed] did not throw. *)
Lemma try_open (a : client_attempt) (f : js_exn -> js_exn) c :
  state (fst (try_catch a (fun e => failProtocol (f e)) c)) <> Closed ->
  exists c1 o1, a c = (c1, o1, None) /\ try_catch a (fun e => failProtocol (f e)) c = (c1, o1).
Proof.
  unfold try_catch. destruct (a c) as [[c1 o1] [e|]]; [|intros _; by exists c1, o1].
  pose proof (failed_closes (f e) c1) as H. destruct (failProtocol (f e) c1). cbn in *. by rewrite H.
Qed.

Lemma handleData_greeting x c : is_greeting c ->
  handleData validate parse x c = try_catch (greet validate parse x) (fun e => failProtocol (protocol_error e)) c.
Proof. intros H. unfold handleData, get_this. by rewrite bool_decide_true. Qed.

Lemma handleData_connected x c : is_connected c ->
  handleData validate parse x c = try_catch (decodeEstablishedData validate parse x) (fun e => failProtocol (protocol_error e)) c.
Proof.
  intros H. unfold handleData, get_this, connected. unfold is_connected in H. rewrite H. rewrite bool_decide_false by done.
  by rewrite bool_decide_true.
Qed.

(** A session that is connected decodes the rest like any data. *)
Lemma decode_handle x c c' o : is_connected c -> decodeEstablishedData validate parse x c = (c', o, None) -> handleData validate parse x c = (c', o).
Proof. intros Hc H. rewrite handleData_connected by done. by apply try_catch_ok. Qed.

Lemma attempt_assign (f : client -> client) (b : client_attempt) c : (returns (assign f) ;;! b) c = b (f c).
Proof. unfold seq_attempt, returns, assign. by destruct (b (f c)) as [[c1 o1] z]. Qed.

(** What [greet] does once the hello is complete. *)
Definition greeted (xml : jsstring) (remainder : buffer) : client_attempt :=
  handleServerHello validate parse xml ;;!
  (this! c => if (0 <? blen remainder) && connected c then decodeEstablishedData validate parse remainder else returns skip).

Lemma greet_cases chunk c f : helloFramer c = Some f ->
  greet validate parse chunk c =
  match delimiter_push decode_text utf8_encode f (InBuffer chunk) (Count 1) with
  | None => (c, [], Some OUT_OF_FUEL)
  | Some (f1, Ok []) => (c <| helloFramer := Some f1 |>, [], None)
  | Some (f1, Ok (xml :: _)) => greeted xml (df_buffer f1) (c <| helloFramer := Some {| df_state := df_state f1; df_buffer := [] |} |>)
  | Some (f1, Throw e) => (c <| helloFramer := Some f1 |>, [], Some e)
  end.
Proof.
  intros Hf. unfold greet, attempt_this. rewrite Hf.
  destruct (delimiter_push _ _ _ _ _) as [[f1 [[|xml l]|e]]|]; [done| |done..].
  cbn [attempt_value delimiter_takeBuffered]. by rewrite !attempt_assign.
Qed.

(** The end of [data_split_greeting]: the hello is complete in the first fragment. *)
Lemma greeted_split xml b y c c1 o1 out : client_inv c out -> is_greeting c -> y <> [] ->
  greeted xml (b ++ y) c = (c1, o1, None) ->
  exists c2 o2 o3, greeted xml b c = (c2, o2, None) /\ handleData validate parse y c2 = (c1, o3) /\ o1 = o2 ++ o3.
Proof.
  intros Hinv Hg Hy Ha. unfold greeted, seq_attempt, attempt_this in *.
  destruct (hello_cases validate parse xml c) as [[e He]|(version & sid & server & fr & oh & Hok & _ & Hoh & He)]; rewrite He in *; [done|].
  pose proof (greeted_inv c out version sid server fr Hinv Hg Hok) as [Ht2 Hp2]. set (c2 := greeted_client version sid server fr c) in *.
  assert (blen y > 0) as Hyl by (destruct y; [done|]; rewrite blen_cons; pose proof (blen_nonneg y); lia).
  rewrite blen_app in Ha. pose proof (blen_nonneg b) as Hb. change (connected c2) with true in *. rewrite andb_true_r in *.
  rewrite (proj2 (Z.ltb_lt 0 (blen b + blen y))) in Ha by lia.
  destruct (decodeEstablishedData validate parse (b ++ y) c2) as [[c3 o3] z] eqn:Ed. injection Ha as <- <- ->.
  destruct (0 <? blen b) eqn:El.
  - pose proof (decode_split b y c2 c3 o3 Hp2 eq_refl Ed) as Hs. unfold seq_attempt in Hs.
    pose proof (decode_keeps validate parse b c2 (out ++ oh)) as Hk.
    destruct (decodeEstablishedData validate parse b c2) as [[c4 o4] [e|]] eqn:E4; [done|].
    destruct (decodeEstablishedData validate parse y c4) as [[c5 o5] z] eqn:E5. injection Hs as -> <- ->.
    assert (is_connected c4) as Hc4 by (apply Hk; [split; [by eapply table_frame | done] | done | done]).
    exists c4, (oh ++ o4), o5. split; [done|]. split; [by apply decode_handle | by rewrite app_assoc].
  - assert (b = []) as -> by (apply blen_0_inv; apply Z.ltb_ge in El; lia). cbn [app] in Ed.
    exists c2, (oh ++ []), o3. split; [done|]. split; [by apply decode_handle | by rewrite app_nil_r].
Qed.

Lemma data_split_greeting x y c out : client_inv c out -> is_greeting c -> y <> [] ->
  state (fst (handleData validate parse (x ++ y) c)) <> Closed ->
  handleData validate parse (x ++ y) c = (handleData validate parse x ;;; handleData validate parse y) c.
Proof.
  intros Hinv Hg Hy Hopen. rewrite (handleData_greeting (x ++ y)) in * by done. apply try_open in Hopen as (c1 & o1 & Ha & ->).
  pose proof Hinv as [_ Hp]. unfold phase_ok in Hp. rewrite Hg in Hp. destruct Hp as (_ & _ & _ & [f Hf] & _).
  rewrite (greet_cases _ _ f Hf) in Ha. pose proof (delimiter_one_split f x y) as Hsplit.
  unfold seq_action. rewrite (handleData_greeting x) by done. pose proof (greet_cases x c f Hf) as Hx.
  destruct (delimiter_push decode_text utf8_encode f (InBuffer x) (Count 1)) as [[f1 [[|xml l]|e]]|]; [| | |done].
  - rewrite (try_catch_ok _ _ _ _ _ Hx), (handleData_greeting y) by done. rewrite Hsplit in Ha.
    pose proof (greet_cases y (c <| helloFramer := Some f1 |>) f1 eq_refl) as Hy2.
    assert (greet validate parse y (c <| helloFramer := Some f1 |>) = (c1, o1, None)) as Hy3.
    { rewrite Hy2, <- Ha. by destruct (delimiter_push _ _ f1 _ _) as [[f2 [[|xml l]|e]]|]. }
    by rewrite (try_catch_ok _ _ _ _ _ Hy3).
  - rewrite Hsplit in Ha. cbn [df_state df_buffer] in Ha.
    assert (client_inv (c <| helloFramer := Some {| df_state := df_state f1; df_buffer := [] |} |>) out) as Hinv0 by by apply greeting_framer.
    destruct (greeted_split _ _ _ _ _ _ out Hinv0 Hg Hy Ha) as (c2 & o2 & o3 & H1 & H2 & ->).
    rewrite H1 in Hx. by rewrite (try_catch_ok _ _ _ _ _ Hx), H2.
  - destruct Hsplit as [f2 Hsplit]. by rewrite Hsplit in Ha.
Qed.

(** The data of two fragments, and the fragments one after the other. *)
Lemma data_split x y c out : client_inv c out -> y <> [] -> state (fst (handleData validate parse (x ++ y) c)) <> Closed ->
  handleData validate parse (x ++ y) c = (handleData validate parse x ;;; handleData validate parse y) c.
Proof.
  intros Hinv Hy Hopen. destruct (decide (is_greeting c)) as [Hg|Hg]; [by eapply data_split_greeting|].
  destruct (decide (is_connected c)) as [Hc|Hc].
  - rewrite (handleData_connected (x ++ y)) in * by done. apply try_open in Hopen as (c1 & o1 & Ha & ->).
    pose proof Hinv as [_ Hp]. pose proof (decode_split x y c c1 o1 Hp Hc Ha) as Hs. unfold seq_action, seq_attempt in *.
    pose proof (decode_keeps validate parse x c out Hinv Hc) as Hk.
    destruct (decodeEstablishedData validate parse x c) as [[c4 o4] [e|]] eqn:E4; [done|]. destruct Hk as [_ Hc4].
    rewrite (decode_handle x c c4 o4) by done.
    destruct (decodeEstablishedData validate parse y c4) as [[c5 o5] z] eqn:E5. injection Hs as -> <- ->.
    by rewrite (decode_handle y c4 c1 o5) by auto.
  - assert (forall z, handleData validate parse z c = (c, [])) as Hno.
    { intros z. unfold handleData, get_this, connected. by rewrite !bool_decide_false by done. }
    unfold seq_action. by rewrite !Hno.
Qed.

Lemma fragments_whole frags c out : client_inv c out -> frags <> [] -> Forall (fun x => x <> []) frags ->
  state (fst (handleData validate parse (concat frags) c)) <> Closed ->
  each frags (handleData validate parse) c = handleData validate parse (concat frags) c.
Proof.
  intros Hinv Hne Hall. revert c out Hinv Hne. induction Hall as [|x frags Hx Hall IH]; intros c out Hinv Hne Hopen; [done|].
  cbn [each concat] in *. destruct frags as [|y frags].
  - cbn [each concat] in *. rewrite app_nil_r in *. unfold seq_action, skip. destruct (handleData validate parse x c) as [c1 o1].
    by rewrite app_nil_r.
  - assert (concat (y :: frags) <> []) as Hrest.
    { apply list.Forall_cons in Hall as [Hy _]. cbn. by destruct y. }
    pose proof (data_split x (concat (y :: frags)) c out Hinv Hrest Hopen) as Hs. rewrite Hs in *. unfold seq_action in *.
    pose proof (keeps_handleData validate parse x c out Hinv) as Hinv1. destruct (handleData validate parse x c) as [c1 o1].
    rewrite (IH c1 (out ++ o1) Hinv1); [done..|]. by destruct (handleData validate parse (concat (y :: frags)) c1).
Qed.

(** C25: the bytes of a session may arrive in any fragments: from any state a client can be in, also across the end of the
    hello, where the framing changes, handling the fragments one after the other has the same effects and the same final
    state as handling them in one piece, if the session survives the piece. *)
Theorem netconf_fragmentation o c out frags : reachable validate parse o c out ->
  frags <> [] -> Forall (fun x => x <> []) frags ->
  state (fst (handleData validate parse (concat frags) c)) <> Closed ->
  each frags (handleData validate parse) c = handleData validate parse (concat frags) c.
Proof. intros [Hinv _]%reachable_inv. by apply (fragments_whole frags c out). Qed.

(** ** Calls and replies *)

(** A message in the chunked framing, given to a framer at a message boundary. *)
Lemma encoded_push o k text w : utf16_ok text = true -> chunked_admits (cf_state (ChunkedFramer_new o)) k (utf8_encode text) ->
  encodeMessage utf8_encode (InString text) "1.1" k = Ok w ->
  chunked_push decode_text utf8_encode (ChunkedFramer_new o) (InBuffer w) Infinity = Some (ChunkedFramer_new o, Ok [text]).
Proof.
  intros Htext Hadm Hw. rewrite chunked_push_run. cbn [cf_buffer ChunkedFramer_new app].
  pose proof (chunked_run_messages decode_text utf8_encode (cf_state (ChunkedFramer_new o)) k [utf8_encode text] [w] [] eq_refl eq_refl eq_refl) as Hrun.
  cbn [concat] in Hrun. rewrite app_nil_r in Hrun. rewrite Hrun by (constructor; [split; [exact Hadm | exact Hw] | constructor]). cbn. unfold decode_text. by rewrite utf8_round_trip.
Qed.

Definition default_options : rpc_options := {| opt_messageId := IdUndefined; opt_timeout := TimeoutDefault; opt_rejectOnRpcError := true |}.

Lemma rpc_sends op c t id xml w c1 : state c = Connected -> transport c = Some t -> baseVersion c = Some "1.1"%string ->
  extractRpcMessageId op = Ok None -> reserveMessageId c = Ok (c1, nextMessageId c) -> id = js_number_to_string (nextMessageId c) ->
  jmap_get (pending c) id = None -> id ∉ retired c ->
  ensureRpcEnvelope validate parse op (Some id) = Ok (xml, id) ->
  encodeMessage utf8_encode (InString xml) "1.1" (chunkSize c) = Ok w ->
  rpc validate parse (Some op) default_options true c =
  (sent_client id xml true c1, [StartTimer (issued c) (rpcTimeout c); Write t w], None).
Proof.
  intros Hc Ht Hv Hop Hres -> Hid Hret Henv Hw. unfold rpc, attempt_this, connected. rewrite bool_decide_true by done. cbn [negb].
  rewrite Hop. cbn [attempt_value default_options opt_messageId]. rewrite Hres.
  unfold reserveMessageId in Hres. destruct (is_safe_integer _ && _); [|done]. injection Hres as <-.
  unfold returns, seq_action, assign, call_with_id, get_this. rewrite Henv.
  match goal with |- context [jmap_has (pending ?s) _] => change (pending s) with (pending c); change (retired s) with (retired c) end.
  rewrite (proj2 (jmap_has_false _ _) Hid), bool_decide_false by done. cbn [timeout_of default_options opt_timeout].
  unfold send_call, get_this. cbv zeta. unfold seq_action, assign, emit. cbn [app].
  match goal with |- context [try_catch ?a ?h ?s] => assert (try_catch a h s = (s, [Write t w])) as -> end; [|done].
  apply try_catch_ok. unfold attempt_this, attempt_value.
  match goal with |- context [baseVersion ?s] => change (baseVersion s) with (baseVersion c); change (chunkSize s) with (chunkSize c) end.
  rewrite Hv. change (default EmptyString (Some "1.1"%string)) with "1.1"%string. rewrite Hw. unfold write, attempt_this.
  match goal with |- context [transport ?s] => change (transport s) with (transport c) end. by rewrite Ht.
Qed.

Lemma reply_settles c f reply m id okay data x sequence w : state c = Connected -> session_framer c = Some f -> sequence = inbound c + 1 ->
  framer_push f w = Some (f, Ok [reply]) ->
  parseNetconfMessage validate parse reply (maxMessageSize c) (MAX_INLINE_RPC_REPLY_BYTES <? blen (utf8_encode reply)) = Ok m ->
  body m = RpcReply (Some id) okay data [] -> id <> [] -> id ∉ retired c -> jmap_get (pending c) id = Some x ->
  handleData validate parse w c =
  (c <| session_framer := Some f |> <| inbound := sequence |> <| pending := jmap_delete (pending c) id |>
     <| timers := without_timer (promise x) (timers c) |>,
   [ClearTimer (promise x); Resolve (promise x) m sequence (requestXml x)]).
Proof.
  intros Hc Hf -> Hpush Hparse Hbody Hid Hret Hx. apply decode_handle; [done|].
  unfold decodeEstablishedData, attempt_this. rewrite Hf, Hpush, attempt_assign. cbn [attempt_value handle_messages].
  unfold handleMessage, seq_attempt, attempt_this. cbv zeta.
  match goal with |- context [maxMessageSize ?s] => change (maxMessageSize s) with (maxMessageSize c) end. rewrite Hparse. cbn [attempt_value].
  rewrite Hbody. destruct id as [|i id]; [done|]. unfold returns, seq_action, assign, handleReply, get_this.
  match goal with |- context [retired ?s] => change (retired s) with (retired c); change (pending s) with (pending c) end.
  rewrite bool_decide_false by done. rewrite Hx. done.
Qed.

(** C12: a call on a connected NETCONF 1.1 session.  The bytes written decode, with any framer that admits them, to the request
    text, which carries the id of the call; and a reply text with that id, encoded with any chunk size and arriving in any
    fragments, resolves the call with the parsed reply and the request text, stops its timer and settles nothing else. *)
Theorem netconf_exchange o c out t op xml w po reply m okay data k frags :
  let id := js_number_to_string (nextMessageId c) in
  reachable validate parse o c out ->
  state c = Connected -> transport c = Some t -> baseVersion c = Some "1.1"%string ->
  session_framer c = Some (Netconf11Framer (ChunkedFramer_new (framerOptions c))) ->
  (0 <= nextMessageId c <= max_safe_integer) -> jmap_get (pending c) id = None -> id ∉ retired c ->
  extractRpcMessageId op = Ok None -> tag_open RPC (trim_text op) = None ->
  ensureRpcEnvelope validate parse op (Some id) = Ok (xml, id) -> utf16_ok xml = true ->
  encodeMessage utf8_encode (InString xml) "1.1" (chunkSize c) = Ok w ->
  chunked_admits (cf_state (ChunkedFramer_new po)) (chunkSize c) (utf8_encode xml) ->
  parseNetconfMessage validate parse reply (maxMessageSize c) (MAX_INLINE_RPC_REPLY_BYTES <? blen (utf8_encode reply)) = Ok m ->
  body m = RpcReply (Some id) okay data [] -> utf16_ok reply = true ->
  chunked_admits (cf_state (ChunkedFramer_new (framerOptions c))) k (utf8_encode reply) ->
  encodeMessage utf8_encode (InString reply) "1.1" k = Ok (concat frags) -> frags <> [] -> Forall (fun x => x <> []) frags ->
  exists c1 c2,
    rpc validate parse (Some op) default_options true c = (c1, [StartTimer (issued c) (rpcTimeout c); Write t w], None) /\
    chunked_push decode_text utf8_encode (ChunkedFramer_new po) (InBuffer w) Infinity = Some (ChunkedFramer_new po, Ok [xml]) /\
    extractRpcMessageId xml = Ok (Some id) /\
    each frags (handleData validate parse) c1 = (c2, [ClearTimer (issued c); Resolve (issued c) m (inbound c + 1) xml]) /\
    state c2 = Connected /\ pending c2 = pending c.
Proof.
  intros id Hreach Hc Ht Hv Hf Hn Hid Hret Hop Htag Henv Hxml Hw Hadm Hparse Hbody Hreply Hadm2 Hrw Hne Hall.
  assert (js_number_to_string (nextMessageId c) = dec_digits (nextMessageId c)) as Hdec.
  { unfold js_number_to_string. by rewrite (proj2 (Z.ltb_ge _ _)) by lia. }
  assert (plain_id id) as Hplain by (unfold id; rewrite Hdec; apply plain_decimal; lia).
  set (c0 := c <| nextMessageId := nextMessageId c + 1 |>).
  assert (reserveMessageId c = Ok (c0, nextMessageId c)) as Hres.
  { unfold reserveMessageId, is_safe_integer. by rewrite (proj2 (Z.leb_le _ _)), !(proj2 (Z.leb_le _ _)) by (unfold max_safe_integer in *; lia). }
  pose proof (rpc_sends op c t id xml w c0 Hc Ht Hv Hop Hres eq_refl Hid Hret Henv Hw) as Hsend.
  set (x := {| promise := issued c; requestXml := xml; rejectOnRpcError := true |}).
  set (c1 := sent_client id xml true c0) in *.
  destruct (reachable_inv validate parse o c out Hreach) as [Hinv _].
  pose proof (keeps_rpc validate parse (Some op) default_options true c out Hinv) as Hinv1.
  unfold up_to_throw in Hinv1. rewrite Hsend in Hinv1. cbn [fst snd] in Hinv1.
  pose proof (encoded_push (framerOptions c) k reply (concat frags) Hreply Hadm2 Hrw) as Hpush.
  assert (framer_push (Netconf11Framer (ChunkedFramer_new (framerOptions c))) (concat frags) =
          Some (Netconf11Framer (ChunkedFramer_new (framerOptions c)), Ok [reply])) as Hfpush by (cbn [framer_push]; by rewrite Hpush).
  assert (pending c1 = jmap_set (pending c) id x) as Hpend by done.
  assert (jmap_get (pending c1) id = Some x) as Hx by (rewrite Hpend; apply jmap_get_set_eq).
  pose proof (reply_settles c1 _ reply m id okay data x (inbound c + 1) (concat frags) Hc Hf eq_refl Hfpush Hparse Hbody
    (id_present _ Hplain) Hret Hx) as Hhandle.
  eexists c1, _. split; [exact Hsend|]. split; [by eapply encoded_push|]. split.
  { apply (envelope_id validate parse op id xml id Hplain); [|done]. intros rest Hr. by rewrite Htag in Hr. }
  split.
  - rewrite (fragments_whole frags c1 _ Hinv1 Hne Hall); [exact Hhandle|]. rewrite Hhandle. cbn. by rewrite Hc.
  - split; [exact Hc|]. cbn [pending modify]. rewrite Hpend, jmap_set_fresh by done. by apply jmap_delete_fresh.
Qed.
(** C29: every promise of [rpc] settles once or waits, in every history of a client: the promises settled are distinct, the
    ones issued are those settled and those that wait, a call that waits has exactly one running timer, and nothing waits
    unless the session is connected; the promise of [connect] waits for the hello, with its timer, exactly while the client
    greets. *)
Theorem netconf_calls_settle o c out : reachable validate parse o c out ->
  NoDup (settled out) /\ (forall p, (p < issued c)%nat <-> p ∈ settled out \/ p ∈ waiting c) /\
  (forall p, p ∈ waiting c -> p ∉ settled out) /\ timers c ≡ₚ pending c /\
  (state c <> Connected -> pending c = []) /\
  (state c = Greeting <-> connectPromise c = Some AwaitHello) /\ (helloTimer c = true <-> state c = Greeting) /\
  (is_Some (listening c) <-> state c = Greeting \/ state c = Connected).
Proof.
  intros Hreach. destruct (reachable_inv validate parse o c out Hreach) as [[Ht Hp] Ha].
  destruct (table_nodup c out Ht) as [Hw Hws]. pose proof (table_promises _ _ Ht) as Hperm.
  assert (NoDup (settled out)) as Hs.
  { assert (NoDup (settled out ++ waiting c)) as Hn by (rewrite Hperm; apply NoDup_ListNoDup, seq_NoDup). apply list.NoDup_app in Hn. apply Hn. }
  split; [done|]. split.
  { intros p. rewrite <- list.elem_of_app, Hperm, list_elem_of_In, in_seq. lia. }
  split; [done|]. split; [apply Ht|]. split; [intros Hn; by apply idle_pending|].
  clear -Hp Ha. unfold phase_ok, resting, acted in *. unfold is_Some in *.
  destruct (state c), (connectPromise c) as [[]|]; destruct_and?; try done.
  all: try match goal with H : Some _ = None \/ _ |- _ => destruct H as [[=]|[? [=]]] end.
  all: repeat match goal with H : ?a = ?b |- _ => is_var b || rewrite ?H in *; clear H end; destruct_or?; simplify_eq.
  all: split; [split; congruence|]; split; [split; congruence|].
  all: split; [intros [? ?]; simplify_eq; auto | intros []; simplify_eq; eauto].
Qed.

(** a call that timed out.  Its promise is rejected and its id retired: a new request under the id is refused, so that the
    late reply cannot be taken for the reply to another call; when it comes, the reply is reported as an orphan and nothing is
    settled, and only then the id is free again. *)
Theorem netconf_late_reply o c out id x : reachable validate parse o c out -> (id, x) ∈ timers c -> id <> [] ->
  exists c1,
    rpc_timer id x c = (c1, [Reject (promise x) RPC_TIMEOUT (Some (requestXml x)) (Some id)]) /\
    (forall raw requested opts writes xml, ensureRpcEnvelope validate parse raw (Some requested) = Ok (xml, id) ->
       call_with_id validate parse raw requested opts writes c1 = refuse RETIRED_MESSAGE_ID c1) /\
    forall m sequence errors, exists c2,
      handleReply m sequence (Some id) errors c1 = (c2, [EmitOrphan m sequence]) /\
      pending c2 = jmap_delete (pending c) id /\ jmap_get (pending c2) id = None /\ id ∉ retired c2.
Proof.
  intros Hreach Hx Hne. destruct (reachable_inv validate parse o c out Hreach) as [[Ht Hp] _].
  assert (jmap_get (pending c) id = Some x) as Ex by (apply jmap_get_elem; [apply Ht | by rewrite <- (table_timers _ _ Ht)]).
  assert (jmap_get (jmap_delete (pending c) id) id = None) as Hgone by (apply jmap_get_delete_eq, Ht).
  set (c1 := c <| timers := without_timer (promise x) (timers c) |> <| pending := jmap_delete (pending c) id |>
    <| retired := if bool_decide (id ∈ retired c) then retired c else retired c ++ [id] |>).
  assert (id ∈ retired c1) as Hret.
  { change (retired c1) with (if bool_decide (id ∈ retired c) then retired c else retired c ++ [id]).
    case_bool_decide; [done|]. rewrite list.elem_of_app, list_elem_of_singleton. auto. }
  exists c1. split; [|split].
  - unfold rpc_timer, seq_action, assign, get_this.
    match goal with |- context [jmap_has (pending ?s) id] => change (pending s) with (pending c) end.
    by rewrite (proj2 (jmap_has_true _ _)) by by exists x.
  - intros raw requested opts writes xml Henv. unfold call_with_id, get_this. rewrite Henv.
    change (pending c1) with (jmap_delete (pending c) id). rewrite (proj2 (jmap_has_false _ _)) by done. by rewrite bool_decide_true.
  - intros m sequence errors. exists (c1 <| retired := List.filter (fun i => negb (bool_decide (i = id))) (retired c1) |>).
    split; [|split; [done|]; split; [done|]].
    + unfold handleReply, get_this. destruct id as [|i id]; [done|]. by rewrite bool_decide_true.
    + intros Hin. change (id ∈ List.filter (fun i => negb (bool_decide (i = id))) (retired c1)) in Hin.
      apply list_elem_of_In, filter_In in Hin as [_ Hin]. by rewrite bool_decide_true in Hin.
Qed.

Lemma open_ok t c data : listening c = None -> hello_bytes (clientCapabilities c) = Ok data ->
  open_session t true c =
  ((greeting_client t c) <| connectPromise := Some AwaitHello |>, [Bind t; StartHelloTimer (helloTimeout c); Write t data]).
Proof.
  intros Hl Hd. unfold open_session. apply try_catch_ok.
  assert (unbindTransport (c <| transport := Some t |> <| retired := [] |> <| inbound := 0 |>) =
          (c <| transport := Some t |> <| retired := [] |> <| inbound := 0 |>, [])) as Hu.
  { unfold unbindTransport, get_this. match goal with |- context [listening ?s] => change (listening s) with (listening c) end. by rewrite Hl. }
  eapply (seq_returns _ _ _ (greeting_client t c) [Bind t; StartHelloTimer (helloTimeout c)] _ [Write t data]).
  - eapply (seq_action_eq _ _ _ _ []); [reflexivity|].
    eapply (seq_action_eq _ _ _ _ [Bind t] _ [StartHelloTimer (helloTimeout c)]).
    + eapply (seq_action_eq _ _ _ _ []); [exact Hu|]. eapply (seq_action_eq _ _ _ _ [Bind t]); reflexivity.
    + eapply (seq_action_eq _ _ _ _ []); [reflexivity|]. eapply (seq_action_eq _ _ _ _ []); reflexivity.
  - unfold seq_attempt, attempt_this. change (clientCapabilities (greeting_client t c)) with (clientCapabilities c).
    rewrite Hd. reflexivity.
Qed.

Lemma on_event_quiet ev c c1 o1 : handle validate parse ev c = (c1, o1) -> closers c1 = [] -> acted c1 ->
  on_event validate parse ev c = (c1, o1).
Proof.
  intros He Hc Ha. unfold on_event, seq_action. rewrite He. unfold closers_resume, get_this. rewrite Hc. unfold skip.
  unfold connect_resumes, get_this. unfold acted in Ha. cbn [forallb].
  destruct (connectPromise c1) as [[]|]; try done; unfold skip; cbn [app]; by rewrite !app_nil_r.
Qed.

Lemma clearHelloTimer_runs c : clearHelloTimer c = (c <| helloTimer := false |>, if helloTimer c then [ClearHelloTimer] else []).
Proof. unfold clearHelloTimer, get_this. destruct (helloTimer c) eqn:E; [done|]. destruct c. cbn in E. by rewrite E. Qed.

Lemma rejectHello_runs e c : (helloOpen c = true -> connectPromise c = Some AwaitHello) ->
  rejectHello e c = (c <| helloOpen := false |> <| connectPromise := connect_after e c |>, []).
Proof.
  intros Hh. unfold rejectHello, get_this, connect_after. destruct (helloOpen c) eqn:E; [by rewrite (Hh eq_refl)|].
  destruct c. cbn in E. by rewrite E.
Qed.

Lemma rejectPending_runs e c : pending c = [] ->
  rejectPending e c = (c <| timers := drop_timers (pending c) (timers c) |> <| pending := [] |>, []).
Proof. intros Hp. unfold rejectPending, get_this. rewrite Hp, drop_timers_nil. by destruct c. Qed.

Lemma unbind_runs c : unbindTransport c = (c <| listening := None |>, match listening c with Some t => [Unbind t] | None => [] end).
Proof. unfold unbindTransport, get_this. destruct (listening c) eqn:E; [done|]. destruct c. cbn in E. by rewrite E. Qed.

Lemma report_close_runs e c :
  (if closeEmitted c then skip else assign (fun c => c <| closeEmitted := true |>) ;;; emit (EmitClose e)) c =
  (c <| closeEmitted := true |>, if closeEmitted c then [] else [EmitClose e]).
Proof. destruct (closeEmitted c) eqn:E; [|done]. unfold skip. destruct c. cbn in E. by rewrite E. Qed.

(** [terminate] with no call waiting, with its effects. *)
Lemma terminate_runs e c : pending c = [] -> at_rest c = false -> (helloOpen c = true -> connectPromise c = Some AwaitHello) ->
  terminate e false c =
  (closed_client e c,
   (if helloTimer c then [ClearHelloTimer] else []) ++ (match listening c with Some t => [Unbind t] | None => [] end) ++
   (if closeEmitted c then [] else [EmitClose e])).
Proof.
  intros Hp Hr Hh. unfold terminate, get_this at 1. fold (at_rest c). rewrite Hr. cbv zeta.
  eapply (seq_action_eq _ _ _ _ []); [reflexivity|].
  set (s1 := c <| state := Closed |>). set (s2 := s1 <| helloTimer := false |>).
  set (s3 := s2 <| helloOpen := false |> <| connectPromise := connect_after e s2 |>).
  set (s4 := s3 <| timers := drop_timers (pending s3) (timers s3) |> <| pending := [] |>). set (s5 := s4 <| retired := [] |>).
  eapply (seq_action_eq _ _ _ s2 (if helloTimer c then [ClearHelloTimer] else [])); [exact (clearHelloTimer_runs s1)|].
  eapply (seq_action_eq _ _ _ s3 []); [exact (rejectHello_runs e s2 Hh)|].
  eapply (seq_action_eq _ _ _ s4 []); [exact (rejectPending_runs e s3 Hp)|].
  eapply (seq_action_eq _ _ _ s5 []); [reflexivity|].
  eapply (seq_action_eq _ _ _ (s5 <| listening := None |>) (match listening c with Some t => [Unbind t] | None => [] end)); [exact (unbind_runs s5)|].
  eapply (seq_action_eq _ _ _ _ []); [reflexivity|]. exact (report_close_runs e (s5 <| listening := None |>)).
Qed.

Lemma connect_runs c : state c = Idle -> connectPromise c = None -> transport c = None ->
  connect WithProfile true c =
  (c <| state := Connecting |> <| closeEmitted := false |> <| connectPromise := Some AwaitFactory |>, [CallFactory]).
Proof.
  intros Hs Hp Ht. unfold connect, get_this, connected. rewrite Hs, Hp, Ht, bool_decide_false by done. reflexivity.
Qed.

(** [disconnect] while the transport factory works does not stop the connection: the client is closed and says so, but when
    the factory is done the session starts all the same; and as the close was already reported, its end is not. *)
Theorem netconf_disconnect_ignored o c t data : NetconfClient_new o = Ok c -> given_transport o = None -> hello_bytes (clientCapabilities c) = Ok data ->
  exists c1 c2 c3 c4,
    on_event validate parse (Connect WithProfile true) c = (c1, [CallFactory]) /\ state c1 = Connecting /\
    on_event validate parse (Disconnect None) c1 = (c2, [EmitClose DISCONNECTED]) /\ state c2 = Closed /\
    on_event validate parse (FactoryDone (FactoryTransport t) true) c2 =
      (c3, [Bind t; StartHelloTimer (helloTimeout c); Write t data]) /\ state c3 = Greeting /\
    on_event validate parse (TransportEvent t TransportClose) c3 =
      (c4, [ClearHelloTimer; Unbind t; ConnectRejects TRANSPORT_CLOSED]) /\ state c4 = Closed.
Proof.
  intros Hnew Hnone Hdata.
  assert (state c = Idle /\ connectPromise c = None /\ transport c = None /\ closers c = [] /\ helloOpen c = false /\ helloTimer c = false /\
    pending c = [] /\ listening c = None) as (Hs & Hcp & Ht & Hcl & Hho & Hht & Hpe & Hli).
  { unfold NetconfClient_new in Hnew. repeat (case_if; [|done]). injection Hnew as <-. by rewrite <- Hnone. }
  set (c1 := c <| state := Connecting |> <| closeEmitted := false |> <| connectPromise := Some AwaitFactory |>).
  set (c2 := closed_client DISCONNECTED c1). set (c3 := (greeting_client t c2) <| connectPromise := Some AwaitHello |>).
  set (c4 := closed_client TRANSPORT_CLOSED c3).
  assert (terminate DISCONNECTED false c1 = (c2, [EmitClose DISCONNECTED])) as H2.
  { rewrite terminate_runs; [|done|done|change (helloOpen c1) with (helloOpen c); by rewrite Hho].
    change (helloTimer c1) with (helloTimer c). change (listening c1) with (listening c). by rewrite Hht, Hli. }
  assert (terminate TRANSPORT_CLOSED false c3 = (c4, [ClearHelloTimer; Unbind t])) as H4 by by rewrite terminate_runs.
  assert (connectPromise c2 = Some AwaitFactory) as Hcp2.
  { change (connectPromise c2) with (connect_after DISCONNECTED c1). unfold connect_after. change (helloOpen c1) with (helloOpen c). by rewrite Hho. }
  exists c1, c2, c3, (c4 <| connectPromise := None |>). split; [|split; [done|]]; [|split; [|split; [done|]]]; [| |split; [|split; [done|]]];
    [| | |split; [|done]].
  - apply on_event_quiet; [by apply connect_runs | exact Hcl | done].
  - apply on_event_quiet; [|exact Hcl | unfold acted; by rewrite Hcp2].
    cbn [handle]. unfold disconnect, get_this. cbv zeta. change (transport c1) with (transport c). rewrite Ht. unfold seq_action. cbn [default].
    change (from_option id DISCONNECTED None) with DISCONNECTED. by rewrite H2.
  - apply on_event_quiet; [|exact Hcl | done]. cbn [handle factory_done]. change (helloTimeout c) with (helloTimeout c2). by apply open_ok.
  - unfold on_event. cbn [handle]. unfold seq_action at 1, get_this at 1. rewrite bool_decide_true by done. cbn [on_transport]. rewrite H4.
    unfold seq_action, closers_resume, get_this. change (closers c4) with (closers c). rewrite Hcl. cbn [forallb]. unfold skip.
    unfold connect_resumes, get_this. change (connectPromise c4) with (Some (HelloRejected TRANSPORT_CLOSED)). cbv iota.
    unfold connect_fails, seq_action, get_this. rewrite bool_decide_true by done. done.
Qed.
End Fragments.

(** ** Examples *)

Module Examples.

(** A parser for the texts below. *)
Definition parse_example (_ : bool) (s : jsstring) : option xml_value :=
  if startsWith s (js "<hello") then
    Some (XObject [(js "hello", XObject [
      (js "capabilities", XObject [(js "capability", XText (js "urn:ietf:params:netconf:base:1.1"))]); (js "session-id", XText (js "4"))])])
  else if startsWith s (js "<rpc-reply") then
    Some (XObject [(js "rpc-reply", XObject [(js "@_message-id", XText (js "1")); (js "ok", XText [])])])
  else Some (XObject [(js "rpc", XText [])]).

Definition validate_example (_ : jsstring) : bool := true.

Definition options : client_options := {|
  given_capabilities := None; given_transport := None; given_rpcTimeout := None; given_helloTimeout := None;
  given_maxMessageSize := None; given_maxChunkSize := None; given_chunkSize := None; initialMessageId := None |}.

Definition fresh : client := {|
  clientCapabilities := DEFAULT_CLIENT_CAPABILITIES; rpcTimeout := DEFAULT_RPC_TIMEOUT; helloTimeout := 20000;
  maxMessageSize := None; maxChunkSize := None; chunkSize := None; transport := None; state := Idle; sessionId := None;
  capabilities := []; baseVersion := None; pending := []; retired := []; nextMessageId := 1; helloFramer := None;
  session_framer := None; helloTimer := false; helloOpen := false; connectPromise := None; listening := None;
  closeEmitted := false; inbound := 0; timers := []; closers := []; issued := 0 |}.

Lemma fresh_ok : NetconfClient_new options = Ok fresh.
Proof. vm_compute. reflexivity. Qed.

Definition step (ev : client_event) (h : client * list client_effect) : client * list client_effect :=
  let '(c, o) := on_event validate_example parse_example ev (fst h) in (c, snd h ++ o).

Definition hello_wire : buffer := js "<hello/>]]>]]>".

Definition greeting : client * list client_effect := step (Connect (WithTransport 0) true) (fresh, []).
Definition open_client : client * list client_effect := step (TransportEvent 0 (Data hello_wire)) greeting.
Definition called : client * list client_effect := step (Rpc (Some (js "<get/>")) default_options true) open_client.

Definition history (h : client * list client_effect) : Prop := reachable validate_example parse_example options (fst h) (snd h).

Lemma history_step ev h : history h -> possible (fst h) ev -> history (step ev h).
Proof.
  unfold history, step. intros Hh Hev. pose proof (reachable_step _ _ _ _ _ _ Hh Hev) as H.
  destruct (on_event validate_example parse_example ev (fst h)). exact H.
Qed.

Lemma called_history : history greeting /\ history open_client /\ history called.
Proof.
  assert (history greeting) as H1 by (apply history_step; [by apply reachable_new, fresh_ok | exact I]).
  assert (history open_client) as H2 by (by apply history_step). split; [done|]. split; [done|]. by apply history_step.
Qed.

Lemma netconf_calls_settle_witness : timers (fst called) ≡ₚ pending (fst called) /\ waiting (fst called) = [0%nat].
Proof.
  split; [|vm_compute; reflexivity].
  exact (proj1 (proj2 (proj2 (proj2 (netconf_calls_settle validate_example parse_example options (fst called) (snd called)
    (proj2 (proj2 called_history))))))).
Defined.

Definition fragments : list buffer := [js "<hell"; js "o/>]]"; js ">]]>"].

Lemma netconf_fragmentation_witness :
  each fragments (handleData validate_example parse_example) (fst greeting) =
  handleData validate_example parse_example hello_wire (fst greeting).
Proof.
  refine (netconf_fragmentation validate_example parse_example options (fst greeting) (snd greeting) fragments
    (proj1 called_history) _ _ _); [discriminate | by repeat constructor | vm_compute; discriminate].
Defined.

Definition get_call : call := {| promise := 0; requestXml := rpc_text (js "1") (js "<get/>"); rejectOnRpcError := true |}.

Lemma netconf_late_reply_witness : exists c1 : client, retired c1 = [js "1"] /\
  rpc_timer (js "1") get_call (fst called) = (c1, [Reject 0 RPC_TIMEOUT (Some (requestXml get_call)) (Some (js "1"))]).
Proof.
  assert ((js "1", get_call) ∈ timers (fst called)) as Hin by (vm_compute; apply list_elem_of_here).
  destruct (netconf_late_reply validate_example parse_example options (fst called) (snd called) (js "1") get_call
    (proj2 (proj2 called_history)) Hin ltac:(discriminate)) as (c1 & H & _).
  exists c1. split; [|exact H]. apply (f_equal fst) in H. cbn [fst] in H. rewrite <- H. vm_compute. reflexivity.
Defined.

Lemma netconf_disconnect_ignored_witness : exists c4,
  state c4 = Closed /\ NetconfClient_new options = Ok fresh.
Proof.
  destruct (hello_bytes (clientCapabilities fresh)) as [data|] eqn:E; [|vm_compute in E; discriminate].
  destruct (netconf_disconnect_ignored validate_example parse_example options fresh 7 data fresh_ok eq_refl E)
    as (c1 & c2 & c3 & c4 & _ & _ & _ & _ & _ & _ & _ & H). exists c4. split; [exact H | exact fresh_ok].
Defined.

Definition reply_text : jsstring := js "<rpc-reply message-id='1'><ok/></rpc-reply>".
Definition reply_message : netconf_message :=
  let root := XObject [(js "@_message-id", XText (js "1")); (js "ok", XText [])] in
  {| message_xml := reply_text; document := XObject [(js "rpc-reply", root)]; root := root;
     body := RpcReply (Some (js "1")) true None [] |}.

Definition request_wire : buffer :=
  match encodeMessage utf8_encode (InString (requestXml get_call)) "1.1" None with Ok w => w | Throw _ => [] end.
Definition reply_wire : list buffer :=
  match encodeMessage utf8_encode (InString reply_text) "1.1" (Some 20) with Ok w => [take 3 w; drop 3 w] | Throw _ => [] end.

Lemma netconf_exchange_witness : exists c1 c2,
  rpc validate_example parse_example (Some (js "<get/>")) default_options true (fst open_client) =
    (c1, [StartTimer (issued (fst open_client)) (rpcTimeout (fst open_client)); Write 0 request_wire], None) /\
  each reply_wire (handleData validate_example parse_example) c1 =
    (c2, [ClearTimer (issued (fst open_client));
          Resolve (issued (fst open_client)) reply_message (inbound (fst open_client) + 1) (requestXml get_call)]).
Proof.
  edestruct (netconf_exchange validate_example parse_example options (fst open_client) (snd open_client) 0 (js "<get/>") (requestXml get_call)
    request_wire no_options reply_text reply_message true None (Some 20) reply_wire) as (c1 & c2 & H1 & _ & _ & H2 & _).
  - exact (proj1 (proj2 called_history)).
  - vm_compute. reflexivity.
  - vm_compute. reflexivity.
  - vm_compute. reflexivity.
  - vm_compute. reflexivity.
  - vm_compute. split; discriminate.
  - vm_compute. reflexivity.
  - vm_compute. intros H. by apply list.elem_of_nil in H.
  - vm_compute. reflexivity.
  - vm_compute. reflexivity.
  - vm_compute. reflexivity.
  - vm_compute. reflexivity.
  - vm_compute. reflexivity.
  - vm_compute. split; discriminate.
  - vm_compute. reflexivity.
  - vm_compute. reflexivity.
  - vm_compute. reflexivity.
  - vm_compute. split; discriminate.
  - vm_compute. reflexivity.
  - vm_compute. discriminate.
  - vm_compute. by repeat constructor.
  - exists c1, c2. split; [exact H1 | exact H2].
Defined.
End Examples.
