(* ===== verification/BmpFrames.v ===== *)
(** Receiving BMP messages from a socket: [recvMsg] of worker/bmp/bmpSession.js.

    A message starts with six bytes: the version, the length of the message as a 32-bit
    number, the type.  Bytes that are not yet a whole message wait in blocks of at most 64 KiB
    which are allocated as the bytes arrive, so that a header that announces a long message
    does not reserve its memory.  The file models the blocks as the code keeps them and
    proves that they are invisible: the session processes the messages of the stream of
    bytes, however it was cut into pieces, and keeps little more memory than the bytes it
    waits with. *)

From stdpp Require Import base list numbers option.
From Stdlib Require Import ZArith Lia.
From S2P Require Import Prelude.

Local Open Scope Z_scope.
Local Open Scope js_scope.

Definition BMP_HEADER_LENGTH : Z := 6.
Definition BMP_VERSION_V3 : Z := 3.
Definition BMP_VERSION_V4 : Z := 4.
Definition MAX_BMP_MESSAGE_BYTES : Z := 16 * 1024 * 1024.
Definition BMP_BUFFER_BLOCK_BYTES : Z := 64 * 1024.

(** * Blocks *)

Record block := { mem : list Z; used : Z }.
#[export] Instance rebuild_block : Rebuild block :=
  fun r => {| mem := mem r; used := used r |}.

Record frame_state := {
  blocks : list block;
  bytes : Z;
  capacity : Z;
  frame_length : Z;
  closed : bool
}.
#[export] Instance rebuild_frame_state : Rebuild frame_state :=
  fun r => {| blocks := blocks r; bytes := bytes r; capacity := capacity r;
              frame_length := frame_length r; closed := closed r |}.

(** [frameState] of a session seen for the first time. *)
Definition frameState : frame_state :=
  {| blocks := []; bytes := 0; capacity := 0; frame_length := 0; closed := false |}.

Definition contents (b : block) : list Z := subarray (mem b) 0 (used b).

(** [Buffer.concat] with a total length cuts what is longer and fills up with zeros. *)
Definition concat_total (parts : list (list Z)) (total : Z) : list Z :=
  let all := concat parts in
  if total <=? blen all then subarray all 0 total else all ++ alloc (total - blen all).

Definition bufferedFrame (s : frame_state) : list Z :=
  match blocks s with
  | [] => alloc 0
  | [b] => subarray (mem b) 0 (bytes s)
  | bs => concat_total (map contents bs) (bytes s)
  end.

Definition set_last {A} (l : list A) (x : A) : list A := removelast l ++ [x].

Section Receive.
(** What [Buffer.allocUnsafe] leaves in the memory it returns: anything. *)
Context (garbage : frame_state -> Z -> Z).

Definition allocUnsafe (s : frame_state) (n : Z) : result (list Z) :=
  if 0 <=? n then Ok (map (fun i => garbage s (Z.of_nat i) mod 256) (seq 0 (Z.to_nat n))) else Throw RangeError.

(** The block that takes the next byte, made when there is none with room. *)
Definition new_block (s : frame_state) (limit : Z) : result (frame_state * block) :=
  let room := Z.min BMP_BUFFER_BLOCK_BYTES (limit - capacity s) in
  let! m := allocUnsafe s room in
  let b := {| mem := m; used := 0 |} in
  Ok (s <| blocks := blocks s ++ [b] |> <| capacity := capacity s + room |>, b).

Definition open_block (s : frame_state) (limit : Z) : result (frame_state * block) :=
  match list.last (blocks s) with
  | None => new_block s limit
  | Some b => if used b =? blen (mem b) then new_block s limit else Ok (s, b)
  end.

(** A turn of [while (start < end)]; the new value of [start]. *)
Definition append_turn (s : frame_state) (data : list Z) (start end_ limit : Z) : result (frame_state * Z) :=
  let! (s1, b) := open_block s limit in
  let copied := Z.min (end_ - start) (blen (mem b) - used b) in
  let b1 := {| mem := copy_into (subarray data start (start + copied)) (mem b) (used b);
               used := used b + copied |} in
  Ok (s1 <| blocks := set_last (blocks s1) b1 |> <| bytes := bytes s1 + copied |>, start + copied).

Fixpoint append_loop (fuel : nat) (s : frame_state) (data : list Z) (start end_ limit : Z) : run frame_state :=
  if start <? end_ then
    match fuel with
    | O => None
    | S f =>
      let? (s1, start1) := Some (append_turn s data start end_ limit) in
      append_loop f s1 data start1 end_ limit
    end
  else Some (Ok s).

Definition appendFrameBytes (s : frame_state) (data : list Z) (start count limit : Z) : run frame_state :=
  append_loop (S (Z.to_nat count)) s data start (start + count) limit.

(** * The session

    [rest] is the session without its frame buffer.  [process_message] is what a message does
    to it; the boolean says that it closed the session on the way.  [close_rest] is
    [closeSession] without the lines for the frame buffer. *)
Context {W : Type} (process_message : list Z -> W -> W * bool) (close_rest : W -> W).

Record session := { frame : frame_state; rest : W }.

(** The lines of [closeSession] for the frame buffer. *)
Definition close_frame (s : frame_state) : frame_state :=
  {| blocks := []; bytes := 0; capacity := 0; frame_length := 0; closed := true |}.

Definition closeSession (s : session) : session :=
  {| frame := close_frame (frame s); rest := close_rest (rest s) |}.

(** [processMessage] closes the session itself when it does. *)
Definition processMessage (m : list Z) (s : session) : session :=
  let (w, c) := process_message m (rest s) in
  {| frame := if c then close_frame (frame s) else frame s; rest := w |}.

Definition validateFrameHeader (s : session) (buffer : list Z) (offset : Z) : result (session * Z) :=
  let version := bget buffer offset in
  let! length := readUInt32BE buffer (offset + 1) in
  if (negb (bool_decide (version = Some BMP_VERSION_V3)) && negb (bool_decide (version = Some BMP_VERSION_V4)))
     || (length <? BMP_HEADER_LENGTH) || (MAX_BMP_MESSAGE_BYTES <? length)
  then Ok (closeSession s, 0)
  else Ok (s, length).

(** What a part of the body of [recvMsg]'s loop does with the control flow. *)
Inductive flow :=
| Return
| Continue (offset : Z)
| On (offset : Z).

(** [if (state.bytes === 0 && ...)]: a whole message in the data is processed where it is. *)
Definition whole_message (s : session) (buffer : list Z) (offset : Z) : result (session * flow) :=
  let remaining := blen buffer - offset in
  if (bytes (frame s) =? 0) && (BMP_HEADER_LENGTH <=? remaining) then
    let! (s1, length) := validateFrameHeader s buffer offset in
    if length =? 0 then Ok (s1, Return)
    else if length <=? remaining
    then Ok (processMessage (subarray buffer offset (offset + length)) s1, Continue (offset + length))
    else Ok (s1, On offset)
  else Ok (s, On offset).

(** [if (state.bytes < BmpConst.BMP_HEADER_LENGTH)]: the header is collected first. *)
Definition collect_header (s : session) (buffer : list Z) (offset : Z) : run (session * flow) :=
  if bytes (frame s) <? BMP_HEADER_LENGTH then
    let count := Z.min (BMP_HEADER_LENGTH - bytes (frame s)) (blen buffer - offset) in
    let? st := appendFrameBytes (frame s) buffer offset count BMP_HEADER_LENGTH in
    let s1 := {| frame := st; rest := rest s |} in
    if bytes st <? BMP_HEADER_LENGTH then Some (Ok (s1, Return))
    else
      match blocks st with
      | [] => Some (Throw TypeError)
      | b :: _ =>
        let? (s2, length) := Some (validateFrameHeader s1 (mem b) 0) in
        let s3 := {| frame := (frame s2) <| frame_length := length |>; rest := rest s2 |} in
        if length =? 0 then Some (Ok (s3, Return)) else Some (Ok (s3, On (offset + count)))
      end
  else Some (Ok (s, On offset)).

(** The rest of the body: bytes of the message are collected and a complete one processed. *)
Definition collect_message (s : session) (buffer : list Z) (offset : Z) : run (session * flow) :=
  let count := Z.min (frame_length (frame s) - bytes (frame s)) (blen buffer - offset) in
  let? st := appendFrameBytes (frame s) buffer offset count (frame_length (frame s)) in
  if bytes st <? frame_length st then Some (Ok ({| frame := st; rest := rest s |}, Return))
  else
    let completeMessage := bufferedFrame st in
    let st1 := {| blocks := []; bytes := 0; capacity := 0; frame_length := 0; closed := closed st |} in
    Some (Ok (processMessage completeMessage {| frame := st1; rest := rest s |}, Continue (offset + count))).

Definition recv_turn (s : session) (buffer : list Z) (offset : Z) : run (session * flow) :=
  let? (s1, f1) := Some (whole_message s buffer offset) in
  match f1 with
  | On o1 =>
    let? (s2, f2) := collect_header s1 buffer o1 in
    match f2 with
    | On o2 => collect_message s2 buffer o2
    | _ => Some (Ok (s2, f2))
    end
  | _ => Some (Ok (s1, f1))
  end.

Fixpoint recv_loop (fuel : nat) (s : session) (buffer : list Z) (offset : Z) : run session :=
  if (offset <? blen buffer) && negb (closed (frame s)) then
    match fuel with
    | O => None
    | S f =>
      let? (s1, next) := recv_turn s buffer offset in
      match next with
      | Continue o => recv_loop f s1 buffer o
      | _ => Some (Ok s1)
      end
    end
  else Some (Ok s).

Definition recvMsg (s : session) (buffer : list Z) : run session :=
  recv_loop (S (length buffer)) s buffer 0.

(** Data events, one after the other. *)
Fixpoint recv_all (s : session) (fragments : list (list Z)) : run session :=
  match fragments with
  | [] => Some (Ok s)
  | x :: tl => let? s1 := recvMsg s x in recv_all s1 tl
  end.

(** [get messageBuffer], [set messageBuffer], [get bufferedMessageBytes] and
    [processBufferedMessages]. *)
Definition messageBuffer (s : session) : list Z := bufferedFrame (frame s).

Definition set_messageBuffer (s : session) (buffer : list Z) : session :=
  let n := blen buffer in
  {| frame := {| blocks := if n =? 0 then [] else [{| mem := buffer; used := n |}];
                 bytes := n; capacity := n; frame_length := 0; closed := closed (frame s) |};
     rest := rest s |}.

Definition bufferedMessageBytes (s : session) : Z := capacity (frame s).

Definition processBufferedMessages (s : session) : run session :=
  recvMsg (set_messageBuffer s (alloc 0)) (messageBuffer s).
End Receive.
Arguments session W : clear implicits.
Arguments frame {W} s.
Arguments rest {W} s.


(** * The stream as one list of bytes

    What the session does with the bytes of a stream, without blocks or pieces: the messages
    are processed from the front.  The result is [None] for a session that was closed and else
    the bytes that are not a whole message yet. *)

Definition frame_size (b : list Z) : Z :=
  let length := be_value (subarray b 1 5) in
  if (negb (bool_decide (bget b 0 = Some BMP_VERSION_V3)) && negb (bool_decide (bget b 0 = Some BMP_VERSION_V4)))
     || (length <? BMP_HEADER_LENGTH) || (MAX_BMP_MESSAGE_BYTES <? length)
  then 0 else length.

Section Stream.
Context {W : Type} (process_message : list Z -> W -> W * bool) (close_rest : W -> W).

Fixpoint deliver_loop (fuel : nat) (w : W) (b : list Z) : W * option (list Z) :=
  match fuel with
  | O => (w, Some b)
  | S f =>
    if blen b <? BMP_HEADER_LENGTH then (w, Some b)
    else if frame_size b =? 0 then (close_rest w, None)
    else if blen b <? frame_size b then (w, Some b)
    else
      let (w1, c) := process_message (subarray b 0 (frame_size b)) w in
      if c then (w1, None) else deliver_loop f w1 (subarray_from b (frame_size b))
  end.

Definition deliver (w : W) (b : list Z) : W * option (list Z) := deliver_loop (S (length b)) w b.

Lemma frame_size_range b : frame_size b = 0 \/ BMP_HEADER_LENGTH <= frame_size b <= MAX_BMP_MESSAGE_BYTES.
Proof. unfold frame_size. case_if; [by left|]. right. bool_hyps. lia. Qed.

(** The header is in the first six bytes. *)
Lemma frame_size_app a b : BMP_HEADER_LENGTH <= blen a -> frame_size (a ++ b) = frame_size a.
Proof.
  unfold BMP_HEADER_LENGTH. intros Ha. unfold frame_size. rewrite subarray_app_left, bget_app_l by lia. done.
Qed.

Lemma frame_size_cut b n : BMP_HEADER_LENGTH <= n <= blen b -> frame_size (subarray b 0 n) = frame_size b.
Proof.
  intros Hn. rewrite <- (frame_size_app (subarray b 0 n) (subarray_from b n)).
  - by rewrite <- (subarray_split b n) by (unfold BMP_HEADER_LENGTH in Hn; lia).
  - unfold BMP_HEADER_LENGTH in *. rewrite blen_subarray; lia.
Qed.

(** Fuel *)
Lemma deliver_loop_fuel f1 f2 w b : (length b < f1)%nat -> (length b < f2)%nat -> deliver_loop f1 w b = deliver_loop f2 w b.
Proof.
  revert f2 w b; induction f1 as [|f1 IH]; intros f2 w b H1 H2; [lia|]. destruct f2 as [|f2]; [lia|]. cbn [deliver_loop].
  case_if; [done|]. case_if; [done|]. case_if; [done|]. bool_hyps.
  destruct (process_message _ w) as [w1 c]. destruct c; [done|].
  destruct (frame_size_range b) as [|Hr]; [done|]. unfold BMP_HEADER_LENGTH in Hr.
  assert (length (subarray_from b (frame_size b)) < length b)%nat by (unfold subarray_from; rewrite length_drop; unfold blen in *; lia).
  apply IH; lia.
Qed.

(** One message *)
Lemma deliver_short w b : blen b < BMP_HEADER_LENGTH -> deliver w b = (w, Some b).
Proof. intros Hb. unfold deliver. cbn [deliver_loop]. by decide_test (blen b <? BMP_HEADER_LENGTH) true. Qed.

Lemma deliver_invalid w b : BMP_HEADER_LENGTH <= blen b -> frame_size b = 0 -> deliver w b = (close_rest w, None).
Proof. intros Hb Hs. unfold deliver. cbn [deliver_loop]. decide_test (blen b <? BMP_HEADER_LENGTH) false. by rewrite Hs. Qed.

Lemma deliver_partial w b : BMP_HEADER_LENGTH <= blen b -> blen b < frame_size b -> deliver w b = (w, Some b).
Proof.
  intros Hb Hs. unfold deliver, BMP_HEADER_LENGTH in *. cbn [deliver_loop]. unfold BMP_HEADER_LENGTH. decide_test (blen b <? 6) false.
  decide_test (frame_size b =? 0) false. by decide_test (blen b <? frame_size b) true.
Qed.

Lemma deliver_message w b :
  frame_size b <> 0 -> frame_size b <= blen b ->
  deliver w b =
  let (w1, c) := process_message (subarray b 0 (frame_size b)) w in
  if c then (w1, None) else deliver w1 (subarray_from b (frame_size b)).
Proof.
  intros H0 Hs. destruct (frame_size_range b) as [|Hr]; [done|]. unfold deliver at 1. cbn [deliver_loop].
  decide_test (blen b <? BMP_HEADER_LENGTH) false. decide_test (frame_size b =? 0) false. decide_test (blen b <? frame_size b) false.
  destruct (process_message _ w) as [w1 c]. destruct c; [done|]. unfold deliver. unfold BMP_HEADER_LENGTH in *.
  apply deliver_loop_fuel; unfold subarray_from; rewrite length_drop; unfold blen in *; lia.
Qed.

(** Bytes that come later. *)
Lemma deliver_app w a b :
  deliver w (a ++ b) =
  match deliver w a with
  | (w1, None) => (w1, None)
  | (w1, Some r) => deliver w1 (r ++ b)
  end.
Proof.
  remember (length a) as n eqn:Hn. revert w a Hn. induction n as [n IH] using lt_wf_ind. intros w a ->.
  destruct (decide (blen a < BMP_HEADER_LENGTH)); [by rewrite (deliver_short w a)|].
  destruct (decide (frame_size a = 0)) as [E|E].
  { rewrite (deliver_invalid w a), (deliver_invalid w (a ++ b)); [done | blia | by rewrite frame_size_app by lia | lia | done]. }
  destruct (decide (blen a < frame_size a)); [by rewrite (deliver_partial w a) by lia|].
  assert (frame_size (a ++ b) = frame_size a) as Es by (apply frame_size_app; lia).
  rewrite (deliver_message w a) by lia. rewrite (deliver_message w (a ++ b)) by (rewrite ?Es; blia). rewrite Es.
  destruct (frame_size_range a) as [|Hr]; [done|]. unfold BMP_HEADER_LENGTH in Hr.
  rewrite subarray_app_left, subarray_from_app_left by lia.
  destruct (process_message _ w) as [w1 c]. destruct c; [done|]. apply (IH (length (subarray_from a (frame_size a)))); [|done].
  unfold subarray_from. rewrite length_drop. unfold blen in *. lia.
Qed.
End Stream.

(** * Blocks hold the bytes they were given *)

Lemma subarray_join {A} (b : list A) i j k : 0 <= i -> i <= j -> j <= k -> subarray b i k = subarray b i j ++ subarray b j k.
Proof.
  intros. unfold subarray. rewrite <- (take_drop (Z.to_nat (j - i)) (take _ _)). rewrite take_take, Nat.min_l by lia. f_equal.
  rewrite skipn_firstn_comm, drop_drop. f_equal; [lia|]. f_equal. lia.
Qed.

Definition memory (l : list block) : Z := foldr (fun b n => blen (mem b) + n) 0 l.
Definition full (b : block) : Prop := used b = blen (mem b) /\ 0 < used b <= BMP_BUFFER_BLOCK_BYTES.
Definition partly (b : block) : Prop := 0 < used b <= blen (mem b) /\ blen (mem b) <= BMP_BUFFER_BLOCK_BYTES.

(** Every block but the last is full, and the last is not empty. *)
Definition chain (l : list block) : Prop := l = [] \/ exists init b, l = init ++ [b] /\ Forall full init /\ partly b.

Record holds (s : frame_state) (p : list Z) : Prop := {
  holds_chain : chain (blocks s);
  holds_contents : concat (map contents (blocks s)) = p;
  holds_bytes : bytes s = blen p;
  holds_capacity : capacity s = memory (blocks s)
}.

Lemma memory_app l1 l2 : memory (l1 ++ l2) = memory l1 + memory l2.
Proof. induction l1 as [|b l1 IH]; [done|]. cbn [app memory foldr]. change (foldr _ 0 ?l) with (memory l). rewrite IH. lia. Qed.

Lemma contents_full b : full b -> contents b = mem b.
Proof. intros [Hu _]. unfold contents, subarray. rewrite Z.sub_0_r, Hu. unfold blen. by rewrite Nat2Z.id, take_ge. Qed.

Lemma blen_contents b : 0 <= used b <= blen (mem b) -> blen (contents b) = used b.
Proof. intros Hu. unfold contents. rewrite blen_subarray; lia. Qed.

Lemma contents_chain init : Forall full init -> blen (concat (map contents init)) = memory init.
Proof.
  induction 1 as [|b l Hb _ IH]; [done|]. cbn [map concat memory foldr]. rewrite blen_app, IH, contents_full by done.
  done.
Qed.

(** No more memory than the bytes and one block. *)
Lemma holds_slack s p : holds s p -> blen p <= capacity s < blen p + BMP_BUFFER_BLOCK_BYTES.
Proof.
  intros [Hc <- _ ->]. destruct Hc as [->|(init & b & -> & Hi & Hb & Hm)]; [done|].
  rewrite map_app, concat_app, blen_app, memory_app, contents_chain by done. cbn [map concat memory foldr]. rewrite app_nil_r, blen_contents; lia.
Qed.

Lemma holds_buffered s p : holds s p -> bufferedFrame s = p.
Proof.
  intros [_ Hp Hb _]. unfold bufferedFrame, concat_total. destruct (blocks s) as [|b [|b2 l]]; [done | |].
  - cbn [map concat] in Hp. rewrite app_nil_r in Hp. unfold contents, subarray in Hp. rewrite Hb, <- Hp. unfold subarray. rewrite !Z.sub_0_r in *.
    change (Z.to_nat 0) with 0%nat in *. rewrite drop_0 in *. set (m := mem b) in *. set (u := Z.to_nat (used b)) in *.
    unfold blen. rewrite Nat2Z.id, length_take. destruct (decide (u <= length m)%nat); [by rewrite Nat.min_l|].
    rewrite Nat.min_r, !take_ge by lia. done.
  - rewrite Hp, Hb. decide_test (blen p <=? blen p) true. unfold subarray. rewrite Z.sub_0_r. unfold blen. rewrite Nat2Z.id.
    by apply take_ge.
Qed.

Section Append.
Context (garbage : frame_state -> Z -> Z).

Lemma blen_allocUnsafe s n : 0 <= n -> exists m, allocUnsafe garbage s n = Ok m /\ blen m = n.
Proof.
  intros Hn. unfold allocUnsafe. decide_test (0 <=? n) true. eexists. split; [done|]. unfold blen. rewrite length_map, length_seq. lia.
Qed.

(** The open block: the last one, with room for a byte. *)
Record opened (s : frame_state) (p : list Z) (limit : Z) (s1 : frame_state) (init : list block) (b : block) : Prop := {
  opened_blocks : blocks s1 = init ++ [b];
  opened_full : Forall full init;
  opened_room : 0 <= used b < blen (mem b) /\ blen (mem b) <= BMP_BUFFER_BLOCK_BYTES;
  opened_contents : concat (map contents (init ++ [b])) = p;
  opened_capacity : capacity s1 = memory (init ++ [b]) /\ capacity s1 <= limit;
  opened_same : bytes s1 = bytes s /\ closed s1 = closed s /\ frame_length s1 = frame_length s;
  opened_new : s1 = s \/ capacity s1 = capacity s + Z.min BMP_BUFFER_BLOCK_BYTES (limit - capacity s) /\ init = blocks s /\ capacity s < limit
}.

Lemma new_block_ok s p limit : Forall full (blocks s) -> concat (map contents (blocks s)) = p -> capacity s = memory (blocks s) -> capacity s < limit ->
  exists s1 b, new_block garbage s limit = Ok (s1, b) /\ opened s p limit s1 (blocks s) b.
Proof.
  intros Hf Hp Hc Hl. unfold new_block. set (room := Z.min _ _). assert (0 < room <= BMP_BUFFER_BLOCK_BYTES) as Hroom by (unfold room, BMP_BUFFER_BLOCK_BYTES; lia).
  destruct (blen_allocUnsafe s room) as (m & -> & Hm); [lia|]. cbn [bind_result].
  set (b := {| mem := m; used := 0 |}).
  exists {| blocks := blocks s ++ [b]; bytes := bytes s; capacity := capacity s + room; frame_length := frame_length s; closed := closed s |}, b.
  split; [done|]. constructor; cbn [blocks capacity bytes closed frame_length].
  - done.
  - done.
  - cbn [b mem used]. lia.
  - rewrite map_app, concat_app, Hp. cbn. by rewrite app_nil_r.
  - rewrite memory_app, <- Hc. cbn [memory foldr b mem]. split; [lia | unfold room; lia].
  - done.
  - by right.
Qed.

Lemma open_block_ok s p limit : holds s p -> capacity s <= limit -> blen p < limit ->
  exists s1 init b, open_block garbage s limit = Ok (s1, b) /\ opened s p limit s1 init b.
Proof.
  intros [Hc Hcont Hb Hcap] Hl Hp. unfold open_block.
  assert (Forall full (blocks s) -> exists s1 init b, new_block garbage s limit = Ok (s1, b) /\ opened s p limit s1 init b) as Hnew.
  { intros Hf. destruct (new_block_ok s p limit) as (s1 & b & -> & H); [done | done | done | | eauto].
    by rewrite Hcap, <- (contents_chain (blocks s)), Hcont. }
  destruct Hc as [E|(init & b & E & Hi & Hb1 & Hb2)].
  - rewrite E in *. cbn [list.last]. by apply Hnew.
  - rewrite E, last_snoc in *. case_if; bool_hyps.
    + apply Hnew. apply Forall_app. split; [done|]. constructor; [|done]. split; lia.
    + exists s, init, b. split; [done|]. constructor; try done; [lia | by left].
Qed.

(** The first block of a short message has exactly its size. *)
Definition single (limit : Z) (l : list block) : Prop := l = [] \/ exists b, l = [b] /\ blen (mem b) = limit.

Lemma copy_contents src b : 0 <= used b -> used b + blen src <= blen (mem b) ->
  blen (copy_into src (mem b) (used b)) = blen (mem b) /\
  contents {| mem := copy_into src (mem b) (used b); used := used b + blen src |} = contents b ++ src.
Proof.
  intros Hu Hs. unfold copy_into. rewrite (take_ge src) by (unfold blen in *; lia). split; [unfold blen; rewrite length_splice by lia; done|].
  unfold contents, splice, subarray. cbn [mem used]. rewrite !Z.sub_0_r. change (Z.to_nat 0) with 0%nat. rewrite !drop_0.
  unfold blen in *. rewrite Z2Nat.inj_add, Nat2Z.id by lia.
  replace (Z.to_nat (used b) + length src)%nat with (length (take (Z.to_nat (used b)) (mem b)) + length src)%nat at 1 by (rewrite length_take; lia).
  rewrite take_app_add. f_equal. by rewrite take_app_length.
Qed.

Lemma append_turn_ok s p data start end_ limit :
  holds s p -> capacity s <= limit -> blen p + (end_ - start) <= limit -> 0 <= start < end_ -> end_ <= blen data ->
  exists s1 start1, append_turn garbage s data start end_ limit = Ok (s1, start1) /\ start < start1 <= end_ /\
    holds s1 (p ++ subarray data start start1) /\ capacity s1 <= limit /\ closed s1 = closed s /\ frame_length s1 = frame_length s /\
    (limit <= BMP_BUFFER_BLOCK_BYTES -> single limit (blocks s) -> single limit (blocks s1)).
Proof.
  intros H Hl Hp Hs He.
  destruct (open_block_ok s p limit) as (s1 & init & b & Ho & [E Hi [Hu Hm] Hcont [Hcap Hl1] (Hb & Hc & Hf) Hcase]); [done..| lia |].
  unfold append_turn. rewrite Ho. cbn [bind_result]. set (n := Z.min (end_ - start) (blen (mem b) - used b)).
  assert (0 < n <= end_ - start) as Hn by lia. set (src := subarray data start (start + n)).
  assert (blen src = n) as Hsrc by (unfold src; rewrite blen_subarray; lia).
  destruct (copy_contents src b) as [Hmem Hnew]; [lia | lia |]. rewrite Hsrc in Hnew.
  set (b1 := {| mem := copy_into src (mem b) (used b); used := used b + n |}). change (blen (mem b1) = blen (mem b)) in Hmem. change (contents b1 = contents b ++ src) in Hnew.
  exists {| blocks := set_last (blocks s1) b1; bytes := bytes s1 + n; capacity := capacity s1; frame_length := frame_length s1; closed := closed s1 |}, (start + n).
  split; [done|]. split; [lia|]. cbn [blocks bytes capacity closed frame_length]. rewrite E. unfold set_last. rewrite removelast_last.
  split; [|split; [done|split; [done|split; [done|]]]].
  - constructor; cbn [blocks bytes capacity].
    + right. exists init, b1. split; [done|]. split; [done|]. split; [cbn [b1 used]; lia | by rewrite Hmem].
    + rewrite map_app, concat_app. cbn [map concat]. rewrite Hnew. rewrite map_app, concat_app in Hcont. cbn [map concat] in Hcont.
      rewrite app_nil_r in *. by rewrite app_assoc, Hcont.
    + rewrite Hb, (holds_bytes _ _ H), blen_app. unfold src in Hsrc. rewrite Hsrc. done.
    + rewrite Hcap, !memory_app. cbn [memory foldr]. by rewrite Hmem.
  - intros Hsmall Hsingle. destruct Hcase as [->|(Ecap & -> & Elim)].
    + destruct Hsingle as [E0|(b0 & E0 & Hb0)]; rewrite E0 in E; [by destruct init|].
      destruct init as [|? init]; [|by destruct init]. injection E as ->. right. exists b1. split; [done|]. by rewrite Hmem.
    + destruct Hsingle as [E0|(b0 & E0 & Hb0)].
      * rewrite E0 in *. right. eexists. split; [reflexivity|]. cbn [mem]. rewrite Hmem. cbn in Hcap. pose proof (holds_capacity _ _ H) as Hz. rewrite E0 in Hz. cbn in Hz. lia.
      * exfalso. pose proof (holds_capacity _ _ H) as Hz. rewrite E0 in Hz. cbn in Hz. lia.
Qed.

Lemma append_loop_ok fuel s p data start end_ limit :
  holds s p -> capacity s <= limit -> blen p + (end_ - start) <= limit -> 0 <= start <= end_ -> end_ <= blen data -> end_ - start < Z.of_nat fuel ->
  exists s1, append_loop garbage fuel s data start end_ limit = Some (Ok s1) /\
    holds s1 (p ++ subarray data start end_) /\ capacity s1 <= limit /\ closed s1 = closed s /\ frame_length s1 = frame_length s /\
    (limit <= BMP_BUFFER_BLOCK_BYTES -> single limit (blocks s) -> single limit (blocks s1)).
Proof.
  revert s p start; induction fuel as [|fuel IH]; intros s p start H Hl Hp Hs He Hf; [lia|]. cbn [append_loop]. case_if; bool_hyps.
  - destruct (append_turn_ok s p data start end_ limit) as (s1 & start1 & -> & H1 & H2 & H3 & H4 & H5 & H6); [done..| lia |  done |]. cbn [bind_run].
    destruct (IH s1 (p ++ subarray data start start1) start1) as (s2 & -> & G2 & G3 & G4 & G5 & G6); [done | done | | lia | lia | lia |].
    { rewrite blen_app, blen_subarray; lia. }
    exists s2. split; [done|]. rewrite <- app_assoc in G2.
    replace (subarray data start end_) with (subarray data start start1 ++ subarray data start1 end_) by (symmetry; apply subarray_join; lia).
    split; [done|]. split; [done|]. split; [by rewrite G4|]. split; [by rewrite G5|]. auto.
  - replace (subarray data start end_) with (@nil Z) by (unfold subarray; by replace (Z.to_nat (end_ - start)) with 0%nat by lia).
    rewrite app_nil_r. eauto 10.
Qed.

Lemma appendFrameBytes_ok s p data start count limit :
  holds s p -> capacity s <= limit -> blen p + count <= limit -> 0 <= start -> 0 <= count -> start + count <= blen data ->
  exists s1, appendFrameBytes garbage s data start count limit = Some (Ok s1) /\
    holds s1 (p ++ subarray data start (start + count)) /\ capacity s1 <= limit /\ closed s1 = closed s /\ frame_length s1 = frame_length s /\
    (limit <= BMP_BUFFER_BLOCK_BYTES -> single limit (blocks s) -> single limit (blocks s1)).
Proof. intros. unfold appendFrameBytes. apply append_loop_ok; (done || lia). Qed.
End Append.

(** * The session processes the messages of the stream *)

(** Waiting with the bytes [p]: part of a header, or a header and part of the message. *)
Record waiting (s : frame_state) (p : list Z) : Prop := {
  waiting_open : closed s = false;
  waiting_holds : holds s p;
  waiting_part :
    (blen p < BMP_HEADER_LENGTH /\ single BMP_HEADER_LENGTH (blocks s)) \/
    (BMP_HEADER_LENGTH <= blen p < frame_length s /\ frame_size p = frame_length s /\ capacity s <= frame_length s)
}.

(** A message of which the header is known; it may be complete. *)
Record collecting (s : frame_state) (p : list Z) : Prop := {
  collecting_open : closed s = false;
  collecting_holds : holds s p;
  collecting_part : BMP_HEADER_LENGTH <= blen p <= frame_length s /\ frame_size p = frame_length s /\ capacity s <= frame_length s
}.

Lemma frameState_waiting : waiting frameState [].
Proof. constructor; [done | | left; split; [done | by left]]. constructor; [by left | done..]. Qed.

Lemma waiting_empty s : closed s = false -> blocks s = [] -> bytes s = 0 -> capacity s = 0 -> waiting s [].
Proof. intros Hc Hb Hn Hk. constructor; [done | | left; split; [done | by left]]. constructor; [by left | by rewrite Hb | done | by rewrite Hk, Hb]. Qed.

Section Receiving.
Context (garbage : frame_state -> Z -> Z) {W : Type} (process_message : list Z -> W -> W * bool) (close_rest : W -> W).
Local Abbreviation deliver := (deliver process_message close_rest).

(** The session after a stream: closed, or waiting with what is left. *)
Definition agrees (s : session W) (r : W * option (list Z)) : Prop :=
  rest s = fst r /\
  match snd r with
  | None => closed (frame s) = true /\ blocks (frame s) = [] /\ capacity (frame s) = 0
  | Some p => waiting (frame s) p
  end.

Lemma deliver_waiting s p w : waiting s p -> deliver w p = (w, Some p).
Proof.
  intros [_ _ [[Hp _]|(Hp & Hs & _)]]; [by apply deliver_short|]. apply deliver_partial; [lia | rewrite Hs; lia].
Qed.

Lemma validateFrameHeader_ok s b post k : 0 <= k -> k + BMP_HEADER_LENGTH <= blen b -> post = subarray_from b k ->
  validateFrameHeader close_rest s b k = Ok (if frame_size post =? 0 then closeSession close_rest s else s, frame_size post).
Proof.
  unfold BMP_HEADER_LENGTH. intros Hk Hb ->. unfold validateFrameHeader, readUInt32BE, readUIntBE, frame_size.
  decide_test (0 <=? k + 1) true. decide_test (k + 1 + 4 <=? blen b) true. cbn [andb bind_result].
  assert (subarray (subarray_from b k) 1 5 = subarray b (k + 1) (k + 1 + 4)) as ->.
  { unfold subarray, subarray_from. rewrite drop_drop. f_equal; [lia|]. f_equal. lia. }
  assert (bget (subarray_from b k) 0 = bget b k) as ->.
  { unfold bget, subarray_from. decide_test (k <? 0) false. change (0 <? 0) with false. cbn [Z.to_nat]. rewrite lookup_drop. f_equal. lia. }
  set (n := be_value _). case_if; [done|]. bool_hyps. unfold BMP_HEADER_LENGTH in *. by decide_test (n =? 0) false.
Qed.

(** The first branch of the loop. *)
Lemma whole_message_ok s p b k : waiting (frame s) p -> 0 <= k < blen b ->
  exists s1 f, whole_message process_message close_rest s b k = Ok (s1, f) /\
    match f with
    | Return => agrees s1 (deliver (rest s) (p ++ subarray_from b k))
    | Continue k1 => k < k1 <= blen b /\ p = [] /\ frame_size (subarray_from b k) = k1 - k /\ s1 = processMessage process_message (subarray b k k1) s
    | On k1 => k1 = k /\ s1 = s
    end.
Proof.
  intros Hw Hk. pose proof (waiting_holds _ _ Hw) as Hh. unfold whole_message. case_if; [|by exists s, (On k)]. bool_hyps. rename H into Hn0, H0 into H6.
  rewrite (holds_bytes _ _ Hh) in Hn0. apply blen_0_inv in Hn0 as ->. cbn [app].
  rewrite (validateFrameHeader_ok s b (subarray_from b k)) by (done || lia). cbn [bind_result]. set (n := frame_size (subarray_from b k)).
  assert (blen (subarray_from b k) = blen b - k) as Hlen by (rewrite blen_subarray_from; lia).
  destruct (frame_size_range (subarray_from b k)) as [E|E]; fold n in E.
  - rewrite E, Z.eqb_refl. eexists _, Return. split; [done|]. rewrite deliver_invalid by (done || lia). done.
  - unfold BMP_HEADER_LENGTH in *. decide_test (n =? 0) false. case_if; bool_hyps.
    + eexists _, (Continue (k + n)). split; [done|]. split; [lia|]. split; [done|]. split; [unfold n in *; lia | done].
    + by eexists _, (On k).
Qed.

Lemma collect_header_ok s p b k : waiting (frame s) p -> 0 <= k < blen b ->
  exists s1 f, collect_header garbage close_rest s b k = Some (Ok (s1, f)) /\
    match f with
    | Return => agrees s1 (deliver (rest s) (p ++ subarray_from b k))
    | Continue _ => False
    | On k1 => k <= k1 <= blen b /\ rest s1 = rest s /\ collecting (frame s1) (p ++ subarray b k k1) /\ (k1 = k -> blen p < frame_length (frame s1))
    end.
Proof.
  intros [Hc Hh Hp] Hk. unfold collect_header. case_if; bool_hyps; rewrite (holds_bytes _ _ Hh) in *.
  - destruct Hp as [[Hp Hs]|[? _]]; [|lia]. set (n := Z.min (BMP_HEADER_LENGTH - blen p) (blen b - k)).
    assert (capacity (frame s) <= BMP_HEADER_LENGTH) as Hcap.
    { rewrite (holds_capacity _ _ Hh). destruct Hs as [->|(b0 & -> & <-)]; cbn; unfold BMP_HEADER_LENGTH; lia. }
    destruct (appendFrameBytes_ok garbage (frame s) p b k n BMP_HEADER_LENGTH) as (s1 & -> & Hh1 & Hcap1 & Hc1 & _ & Hs1); [done | done | lia | lia | lia | lia |].
    specialize (Hs1 ltac:(done) Hs). cbn [bind_run]. set (q := p ++ subarray b k (k + n)) in *.
    assert (blen q = blen p + n) as Hq by (unfold q; rewrite blen_app, blen_subarray; lia). rewrite (holds_bytes _ _ Hh1), Hq.
    case_if; bool_hyps.
    { eexists _, Return. split; [done|]. replace (p ++ subarray_from b k) with q.
      - assert (waiting s1 q) as Hw by (constructor; [congruence | done | left; split; [lia | done]]). rewrite (deliver_waiting _ _ _ Hw). done.
      - unfold q. f_equal. unfold subarray, subarray_from. rewrite take_ge; [done|]. rewrite length_drop. unfold n, blen in *. lia. }
    assert (blen p + n = BMP_HEADER_LENGTH) as Hsix by lia.
    destruct Hs1 as [Enil|(b0 & Eb & Hb0)].
    { pose proof (holds_contents _ _ Hh1) as Hz. rewrite Enil in Hz. cbn in Hz. apply (f_equal blen) in Hz. rewrite Hq, Hsix in Hz. done. }
    assert (mem b0 = q) as Hmem.
    { pose proof (holds_contents _ _ Hh1) as Hz. pose proof (f_equal blen Hz) as Hz2. rewrite Eb in Hz, Hz2. cbn in Hz, Hz2. rewrite app_nil_r in *.
      rewrite <- Hz. unfold contents, subarray in *. cbn [Z.to_nat] in *. rewrite drop_0 in *. rewrite Z.sub_0_r in *. rewrite take_ge; [done|].
      rewrite blen_take in Hz2. unfold blen in *. lia. }
    rewrite Eb, Hmem. rewrite (validateFrameHeader_ok _ q q) by (done || (unfold subarray_from; cbn; by rewrite drop_0) || lia). cbn [bind_run].
    assert (p ++ subarray_from b k = q ++ subarray_from b (k + n)) as Hall.
    { unfold q. rewrite <- app_assoc. f_equal. apply subarray_from_split. lia. }
    destruct (frame_size_range q) as [Ez|Ez].
    + rewrite Ez, Z.eqb_refl. eexists _, Return. split; [done|]. rewrite Hall, deliver_invalid; [done | |]; [blia | by rewrite frame_size_app by lia].
    + unfold BMP_HEADER_LENGTH in Ez. decide_test (frame_size q =? 0) false. eexists _, (On (k + n)). split; [done|]. split; [lia|]. split; [done|].
      cbn [frame]. split; [|unfold BMP_HEADER_LENGTH in *; lia].
      fold q. constructor; [cbn; congruence | | cbn; unfold BMP_HEADER_LENGTH in *; lia]. destruct Hh1. constructor; done.
  - destruct Hp as [[? _]|(Hp & Hs & Hcap)]; [lia|]. eexists s, (On k). split; [done|]. split; [lia|]. split; [done|].
    replace (subarray b k k) with (@nil Z) by (unfold subarray; by rewrite Z.sub_diag). rewrite app_nil_r. split; [|lia].
    constructor; [done | done | split; [lia | done]].
Qed.

(** Processing a message when nothing is left in the blocks. *)
Lemma processMessage_next s m q r : waiting (frame s) [] -> frame_size m <> 0 -> blen m = frame_size m ->
  deliver (rest s) (m ++ q) = r ->
  (closed (frame (processMessage process_message m s)) = true -> agrees (processMessage process_message m s) r) /\
  (closed (frame (processMessage process_message m s)) = false ->
     waiting (frame (processMessage process_message m s)) [] /\ deliver (rest (processMessage process_message m s)) q = r).
Proof.
  intros Hw Hm0 Hm <-. assert (frame_size (m ++ q) = frame_size m) as E.
  { apply frame_size_app. destruct (frame_size_range m); [done | lia]. }
  rewrite deliver_message by (rewrite E; blia). rewrite E, <- Hm.
  rewrite subarray_app_l, subarray_from_app. unfold processMessage. destruct (process_message m (rest s)) as [w c]. destruct c; cbn [frame rest].
  - split; [|done]. intros _. done.
  - split; [|done]. intros Hc. rewrite (waiting_open _ _ Hw) in Hc. done.
Qed.

Lemma collect_message_ok s p b k : collecting (frame s) p -> 0 <= k <= blen b ->
  exists s1 f, collect_message garbage process_message s b k = Some (Ok (s1, f)) /\
    match f with
    | Return => agrees s1 (deliver (rest s) (p ++ subarray_from b k))
    | Continue k1 => k <= k1 <= blen b /\ (blen p < frame_length (frame s) -> k < k1) /\
        (closed (frame s1) = true -> agrees s1 (deliver (rest s) (p ++ subarray_from b k))) /\
        (closed (frame s1) = false -> waiting (frame s1) [] /\ deliver (rest s1) (subarray_from b k1) = deliver (rest s) (p ++ subarray_from b k))
    | On _ => False
    end.
Proof.
  intros [Hc Hh (Hp & Hs & Hcap)] Hk. unfold collect_message. rewrite (holds_bytes _ _ Hh). set (n := Z.min (frame_length (frame s) - blen p) (blen b - k)).
  destruct (appendFrameBytes_ok garbage (frame s) p b k n (frame_length (frame s))) as (s1 & -> & Hh1 & Hcap1 & Hc1 & Hf1 & _); [done | done | lia | lia | lia | lia |].
  cbn [bind_run]. set (q := p ++ subarray b k (k + n)) in *.
  assert (blen q = blen p + n) as Hq by (unfold q; rewrite blen_app, blen_subarray; lia). rewrite (holds_bytes _ _ Hh1), Hq, Hf1.
  assert (frame_size q = frame_length (frame s)) as Eq by (unfold q; rewrite frame_size_app by lia; done).
  case_if; bool_hyps.
  - eexists _, Return. split; [done|]. replace (p ++ subarray_from b k) with q.
    + assert (waiting s1 q) as Hw by (constructor; [congruence | done | right; rewrite Hf1; split; [lia | done]]). rewrite (deliver_waiting _ _ _ Hw). done.
    + unfold q. f_equal. unfold subarray, subarray_from. rewrite take_ge; [done|]. rewrite length_drop. unfold n, blen in *. lia.
  - eexists _, (Continue (k + n)). split; [done|]. split; [lia|]. split; [lia|]. rewrite (holds_buffered _ _ Hh1). unfold BMP_HEADER_LENGTH in Hp.
    eapply processMessage_next; cbn [frame rest]; [by apply waiting_empty; cbn; try congruence | lia | lia |].
    f_equal. unfold q. rewrite <- app_assoc. f_equal. symmetry. apply subarray_from_split. lia.
Qed.

Lemma recv_turn_ok s p b k : waiting (frame s) p -> 0 <= k < blen b ->
  exists s1 f, recv_turn garbage process_message close_rest s b k = Some (Ok (s1, f)) /\
    match f with
    | Return => agrees s1 (deliver (rest s) (p ++ subarray_from b k))
    | Continue k1 => k < k1 <= blen b /\
        (closed (frame s1) = true -> agrees s1 (deliver (rest s) (p ++ subarray_from b k))) /\
        (closed (frame s1) = false -> waiting (frame s1) [] /\ deliver (rest s1) (subarray_from b k1) = deliver (rest s) (p ++ subarray_from b k))
    | On _ => False
    end.
Proof.
  intros Hw Hk. unfold recv_turn. destruct (whole_message_ok s p b k) as (s1 & f & -> & H); [done | done|]. cbn [bind_run]. destruct f as [|k1|k1].
  - eexists _, Return. split; [done|]. done.
  - destruct H as (Hk1 & -> & Hs & ->). eexists _, (Continue k1). split; [done|]. split; [done|]. cbn [app].
    assert (blen (subarray b k k1) = k1 - k) as Hl by (rewrite blen_subarray; lia).
    assert (frame_size (subarray b k k1) = k1 - k) as Hs1.
    { rewrite <- Hs. rewrite (subarray_from_split b k k1) by lia. symmetry. apply frame_size_app. destruct (frame_size_range (subarray_from b k)); lia. }
    apply processMessage_next; [done | lia | lia |]. by rewrite <- subarray_from_split by lia.
  - destruct H as [-> ->]. destruct (collect_header_ok s p b k) as (s2 & f & -> & H); [done | done |]. cbn [bind_run]. destruct f as [|k2|k2]; [|done|].
    { eexists _, Return. split; [done|]. done. }
    destruct H as (Hk2 & Er & Hcoll & Hpos).
    assert (blen (p ++ subarray b k k2) = blen p + (k2 - k)) as Hlen by (rewrite blen_app, blen_subarray; lia).
    destruct (collect_message_ok s2 (p ++ subarray b k k2) b k2) as (s3 & f & -> & H); [done | lia |].
    rewrite Er, <- app_assoc, <- subarray_from_split in H by lia.
    exists s3, f. split; [done|]. destruct f as [|k3|k3]; [done| |done]. destruct H as (Hk3 & Hpos3 & Hr). split; [|done].
    destruct (decide (k2 = k)) as [->|]; [|lia]. rewrite Hlen in Hpos3. specialize (Hpos eq_refl). lia.
Qed.

Lemma recv_loop_ok fuel s p b k : waiting (frame s) p -> 0 <= k <= blen b -> blen b - k < Z.of_nat fuel ->
  exists s1, recv_loop garbage process_message close_rest fuel s b k = Some (Ok s1) /\ agrees s1 (deliver (rest s) (p ++ subarray_from b k)).
Proof.
  revert s p k; induction fuel as [|fuel IH]; intros s p k Hw Hk Hf; [lia|]. cbn [recv_loop]. rewrite (waiting_open _ _ Hw). cbn [negb]. rewrite andb_true_r.
  case_if; bool_hyps.
  - destruct (recv_turn_ok s p b k) as (s1 & f & -> & H); [done | lia |]. cbn [bind_run]. destruct f as [|k1|k1]; [by eexists | | done].
    destruct H as (Hk1 & Hclosed & Hopen). destruct (closed (frame s1)) eqn:Ec.
    + exists s1. split; [|by apply Hclosed]. destruct fuel; cbn [recv_loop]; by rewrite Ec, andb_false_r.
    + destruct (Hopen eq_refl) as [Hw1 <-]. apply (IH s1 []); [done | lia | lia].
  - exists s. split; [done|]. replace (subarray_from b k) with (@nil Z) by (unfold subarray_from; rewrite drop_ge; [done | unfold blen in *; lia]).
    rewrite app_nil_r, (deliver_waiting _ _ _ Hw). done.
Qed.

Lemma recvMsg_ok s p b : waiting (frame s) p ->
  exists s1, recvMsg garbage process_message close_rest s b = Some (Ok s1) /\ agrees s1 (deliver (rest s) (p ++ b)).
Proof.
  intros Hw. unfold recvMsg. destruct (recv_loop_ok (S (length b)) s p b 0) as (s1 & H1 & H2); [done | blia | unfold blen; lia |].
  unfold subarray_from in H2. change (Z.to_nat 0) with 0%nat in H2. rewrite drop_0 in H2. eauto.
Qed.

Lemma recvMsg_closed s b : closed (frame s) = true -> recvMsg garbage process_message close_rest s b = Some (Ok s).
Proof. intros Hc. unfold recvMsg. cbn [recv_loop]. rewrite Hc, andb_false_r. done. Qed.

Lemma recv_all_closed s fragments : closed (frame s) = true -> recv_all garbage process_message close_rest s fragments = Some (Ok s).
Proof. intros Hc. induction fragments as [|x tl IH]; [done|]. cbn [recv_all]. rewrite recvMsg_closed by done. done. Qed.

Lemma recv_all_ok fragments s p : waiting (frame s) p ->
  exists s1, recv_all garbage process_message close_rest s fragments = Some (Ok s1) /\ agrees s1 (deliver (rest s) (p ++ concat fragments)).
Proof.
  revert s p; induction fragments as [|x tl IH]; intros s p Hw; cbn [recv_all concat].
  - exists s. split; [done|]. rewrite app_nil_r, (deliver_waiting _ _ _ Hw). done.
  - destruct (recvMsg_ok s p x Hw) as (s1 & -> & Er & Hf). cbn [bind_run]. rewrite (app_assoc p x), deliver_app.
    destruct (deliver (rest s) (p ++ x)) as [w [q|]]; cbn [fst snd] in *.
    + destruct (IH s1 q Hf) as (s2 & -> & H2). rewrite Er in H2. eauto.
    + destruct Hf as (Hc & Hb & Hk). exists s1. rewrite recv_all_closed by done. split; [done|]. split; [done|]. done.
Qed.

(** [processBufferedMessages] takes up the buffered bytes again. *)
Lemma processBufferedMessages_ok s p : waiting (frame s) p ->
  exists s1, processBufferedMessages garbage process_message close_rest s = Some (Ok s1) /\ agrees s1 (rest s, Some p).
Proof.
  intros Hw. unfold processBufferedMessages, messageBuffer. rewrite (holds_buffered _ _ (waiting_holds _ _ Hw)).
  destruct (recvMsg_ok (set_messageBuffer s (alloc 0)) [] p) as (s1 & H1 & H2).
  { apply waiting_empty; [apply (waiting_open _ _ Hw) | done..]. }
  exists s1. split; [done|]. by rewrite <- (deliver_waiting _ _ (rest s) Hw).
Qed.

(** Complete messages are processed in their order as long as none closes the session. *)
Lemma deliver_messages ms w q : Forall (fun m => frame_size m <> 0 /\ blen m = frame_size m) ms ->
  (forall m w1, m ∈ ms -> snd (process_message m w1) = false) ->
  deliver w (concat ms ++ q) = deliver (foldl (fun w1 m => fst (process_message m w1)) w ms) q.
Proof.
  intros Hms. revert w; induction Hms as [|m ms [Hm0 Hm] _ IH]; intros w Hopen; [done|]. cbn [concat foldl]. rewrite <- app_assoc.
  assert (frame_size (m ++ concat ms ++ q) = blen m) as E.
  { rewrite Hm. apply frame_size_app. destruct (frame_size_range m); [done | lia]. }
  rewrite deliver_message by (rewrite E; blia). rewrite E, subarray_app_l, subarray_from_app.
  pose proof (Hopen m w) as Ho. destruct (process_message m w) as [w1 c]. cbn [snd fst] in *. rewrite Ho by apply list_elem_of_here.
  apply IH. intros m2 w2 Hin. apply Hopen. by apply list_elem_of_further.
Qed.
End Receiving.

(** The session of a new connection. *)
Definition new_session {W} (w : W) : session W := {| frame := frameState; rest := w |}.

(** C14: The session processes the messages of the stream of bytes, whatever pieces the
    bytes come in and whatever the new memory holds: after any sequence of data events the
    rest of the session is what [deliver] makes of the concatenation of their data, it has been
    closed exactly when [deliver] closes it (a header with a wrong version or length, or
    a message that ends the session), and the buffered bytes are the ones that are not a
    whole message yet.  No event throws or loops. *)
Theorem bmp_stream_processed {W} garbage process_message close_rest (w : W) fragments :
  exists s, recv_all garbage process_message close_rest (new_session w) fragments = Some (Ok s) /\
    (rest s, if closed (frame s) then None else Some (messageBuffer s)) = deliver process_message close_rest w (concat fragments).
Proof.
  destruct (recv_all_ok garbage process_message close_rest fragments (new_session w) [] frameState_waiting) as (s & Hr & Er & Hf).
  exists s. split; [done|]. cbn [app new_session rest] in *. destruct (deliver _ _ w _) as [w1 [q|]]; cbn [fst snd] in *.
  - rewrite (waiting_open _ _ Hf). unfold messageBuffer. by rewrite (holds_buffered _ _ (waiting_holds _ _ Hf)), Er.
  - destruct Hf as [-> _]. by rewrite Er.
Qed.

(** The memory that a connection keeps for bytes of an unfinished message is less than
    one block of 64 KiB more than these bytes, and never more than the 16 MiB of the longest
    message: announcing a long message reserves nothing. *)
Theorem bmp_memory_bounded {W} garbage process_message close_rest (w : W) fragments s :
  recv_all garbage process_message close_rest (new_session w) fragments = Some (Ok s) ->
  bufferedMessageBytes s <= blen (messageBuffer s) + BMP_BUFFER_BLOCK_BYTES - 1 /\ bufferedMessageBytes s <= MAX_BMP_MESSAGE_BYTES.
Proof.
  intros Hr. destruct (recv_all_ok garbage process_message close_rest fragments (new_session w) [] frameState_waiting) as (s1 & Hr1 & _ & Hf).
  rewrite Hr in Hr1. injection Hr1 as <-. unfold bufferedMessageBytes, messageBuffer. destruct (snd _) as [q|].
  - pose proof (waiting_holds _ _ Hf) as Hh. rewrite (holds_buffered _ _ Hh). pose proof (holds_slack _ _ Hh). split; [lia|].
    destruct (waiting_part _ _ Hf) as [[Hq _]|(Hq & Hs & Hcap)].
    + unfold BMP_HEADER_LENGTH, BMP_BUFFER_BLOCK_BYTES, MAX_BMP_MESSAGE_BYTES in *. lia.
    + destruct (frame_size_range q) as [E|E]; unfold BMP_HEADER_LENGTH in *; lia.
  - destruct Hf as (_ & Hb & ->). unfold bufferedFrame. rewrite Hb. change (blen (alloc 0)) with 0. unfold BMP_BUFFER_BLOCK_BYTES, MAX_BMP_MESSAGE_BYTES. lia.
Qed.

Module Examples.
(** The header and the first byte of a message of eight bytes, in two pieces. *)
Lemma bmp_memory_bounded_witness :
  bufferedMessageBytes {| frame := {| blocks := [{| mem := [3; 0; 0; 0; 8; 4]; used := 6 |}; {| mem := [9; 0]; used := 1 |}];
    bytes := 7; capacity := 8; frame_length := 8; closed := false |}; rest := @nil (list Z) |} <= 7 + BMP_BUFFER_BLOCK_BYTES - 1 /\ 8 <= MAX_BMP_MESSAGE_BYTES.
Proof.
  apply (bmp_memory_bounded (fun _ _ => 0) (fun m w => (w ++ [m], false)) (fun w => w) [] [[3; 0; 0]; [0; 8; 4; 9]]
    {| frame := {| blocks := [{| mem := [3; 0; 0; 0; 8; 4]; used := 6 |}; {| mem := [9; 0]; used := 1 |}];
                   bytes := 7; capacity := 8; frame_length := 8; closed := false |}; rest := @nil (list Z) |}).
  vm_compute. reflexivity.
Defined.
End Examples.
