(* ===== verification/BmpPacket.v ===== *)
(** The encodings of BMP: utils/bmp/bmpUtils.js, with [rdBufferToString] of
    utils/bgp/bgpEncoding.js, [ipv6BufferToString] of utils/ipUtils.js and the readers of
    embedded BGP messages of worker/bmp/bmpSession.js.

    The main facts: TLVs are read without loss, a per-peer header gives different peers
    different keys, and the readers of Peer Up and Peer Down return what a message says.

    Texts for the user interface (names of types, hexadecimal copies of values) are left out. *)

From stdpp Require Import base list numbers strings option.
From Stdlib Require Import ZArith Lia.
From S2P Require Import Prelude JsText Ipv6Text BgpPacket BgpUpdate BmpFrames.

Local Open Scope Z_scope.
Local Open Scope js_scope.

(** * Constants, const/bmpConst.js and const/bgpConst.js *)

Inductive BMP_PEER_TYPE := GLOBAL | L3VPN | LOCAL | LOCAL_RIB.

Definition peer_type_value (t : BMP_PEER_TYPE) : Z :=
  match t with GLOBAL => 0 | L3VPN => 1 | LOCAL => 2 | LOCAL_RIB => 3 end.

Inductive BMP_SESSION_FLAGS := IPV6 | POST_POLICY | AS_PATH | ADJ_RIB_OUT | FILTERED | EXTENDED_FLAGS_.

Definition flag_value (f : BMP_SESSION_FLAGS) : Z :=
  match f with IPV6 => 128 | POST_POLICY => 64 | AS_PATH => 32 | ADJ_RIB_OUT => 16 | FILTERED => 8 | EXTENDED_FLAGS_ => 1 end.

Inductive BMP_TLV_TYPE := SEQUENCE_NUMBER | EXTENDED_FLAGS | TIMESTAMP.

Definition tlv_type_value (t : BMP_TLV_TYPE) : Z :=
  match t with SEQUENCE_NUMBER => 1 | EXTENDED_FLAGS => 2 | TIMESTAMP => 3 end.

Inductive BMP_PEER_DOWN_REASON :=
| LOCAL_SYSTEM_CLOSED_WITH_NOTIFICATION
| LOCAL_SYSTEM_CLOSED_NO_NOTIFICATION
| REMOTE_SYSTEM_CLOSED_WITH_NOTIFICATION
| REMOTE_SYSTEM_CLOSED_NO_NOTIFICATION
| PEER_DE_CONFIGURED
| LOCAL_SYSTEM_CLOSED_WITH_TLV.

Definition reason_value (r : BMP_PEER_DOWN_REASON) : Z :=
  match r with
  | LOCAL_SYSTEM_CLOSED_WITH_NOTIFICATION => 1 | LOCAL_SYSTEM_CLOSED_NO_NOTIFICATION => 2
  | REMOTE_SYSTEM_CLOSED_WITH_NOTIFICATION => 3 | REMOTE_SYSTEM_CLOSED_NO_NOTIFICATION => 4
  | PEER_DE_CONFIGURED => 5 | LOCAL_SYSTEM_CLOSED_WITH_TLV => 6
  end.

Definition BGP_RD_LEN : Z := 8.

(** The types with a value per address family. *)
Definition PER_AFI_SAFI_STATS_TYPES : list Z := [9; 10; 16; 17; 19; 21].

(** * Texts *)

Definition RD_TYPE_AS2 : Z := 0.
Definition RD_TYPE_IP : Z := 1.
Definition RD_TYPE_AS4 : Z := 2.

Definition rdBufferToString (b : buffer) : result jsstring :=
  if negb (blen b =? 8) then Throw (ErrorMsg "RD must be a Buffer of length 8")
  else
    let! type := readUInt16BE b 0 in
    if type =? RD_TYPE_AS2 then
      let! admin := readUInt16BE b 2 in
      let! assigned := readUInt32BE b 4 in
      Ok (dec_digits admin ++ [58] ++ dec_digits assigned)
    else if type =? RD_TYPE_IP then
      let admin := join_with 46 (map dec_digits (subarray b 2 6)) in
      let! assigned := readUInt16BE b 6 in
      Ok (admin ++ [58] ++ dec_digits assigned)
    else if type =? RD_TYPE_AS4 then
      let! admin := readUInt32BE b 2 in
      let! assigned := readUInt16BE b 6 in
      Ok (dec_digits admin ++ [58] ++ dec_digits assigned)
    else Ok (js "unknown(" ++ dec_digits type ++ js ")").

(** [/(^|:)0(:0)+(:|$)/]: [zeros_tail] matches from the first [:0] on and returns what follows
    the match; the longest repetition is tried first. *)
Fixpoint zeros_tail (s : jsstring) : option jsstring :=
  match s with
  | a :: b :: tl =>
    if (a =? 58) && (b =? 48) then
      match zeros_tail tl with
      | Some r => Some r
      | None =>
        match tl with
        | [] => Some []
        | c :: r => if c =? 58 then Some r else None
        end
      end
    else None
  | _ => None
  end.

Definition zeros_start (s : jsstring) : option jsstring :=
  match s with
  | c :: tl => if c =? 48 then zeros_tail tl else None
  | [] => None
  end.

(** The positions where the match starts with a colon. *)
Fixpoint replace_after_colon (s : jsstring) : jsstring :=
  match s with
  | [] => []
  | c :: tl =>
    if c =? 58 then
      match zeros_start tl with
      | Some r => 58 :: 58 :: r
      | None => c :: replace_after_colon tl
      end
    else c :: replace_after_colon tl
  end.

(** [.replace(/(^|:)0(:0)+(:|$)/, '::')] *)
Definition replace_zeros (s : jsstring) : jsstring :=
  match zeros_start s with
  | Some r => 58 :: 58 :: r
  | None => replace_after_colon s
  end.

(** [.replace(/:{3,}/g, '::')]; [n] colons have been read and not written. *)
Definition colons (n : nat) : jsstring := replicate (if (3 <=? n)%nat then 2%nat else n) 58.

Fixpoint collapse_colons (s : jsstring) (n : nat) : jsstring :=
  match s with
  | [] => colons n
  | c :: tl => if c =? 58 then collapse_colons tl (S n) else colons n ++ c :: collapse_colons tl 0
  end.

Definition ipv6BufferToString (b : buffer) (length : Z) : result jsstring :=
  let fullBytes := length / 8 in
  let remainingBits := length mod 8 in
  let ipBuffer := copy_into b (alloc 16) 0 in
  let ipBuffer := if (0 <? remainingBits) && (fullBytes <? 16)
                  then bset ipBuffer fullBytes (js_and (byte_at ipBuffer fullBytes) (partial_mask remainingBits))
                  else ipBuffer in
  let! segments := read_groups 8 0 ipBuffer in
  Ok (collapse_colons (replace_zeros (join_with 58 segments)) 0).

(** * utils/bmp/bmpUtils.js *)

Record common_header := { header_version : Z; header_length : Z; header_type : Z }.

(** [None]: the object [{ valid: false }]. *)
Definition parseCommonHeader (b : buffer) : result (option common_header) :=
  if blen b <? BMP_HEADER_LENGTH then Ok None
  else
    let! v := readUInt8 b 0 in
    let! n := readUInt32BE b 1 in
    let! t := readUInt8 b 5 in
    Ok (Some {| header_version := v; header_length := n; header_type := t |}).

Definition toUnixTimestampMs (seconds microseconds : Z) : option Z :=
  if seconds <? 0 then None
  else if (microseconds <? 0) || (999999 <? microseconds) then Some (seconds * 1000)
  else Some (seconds * 1000 + microseconds / 1000).

Record bmp_peer := {
  peerType : Z;
  peerFlags : Z;
  peerRd : jsstring;
  peerRdRaw : jsstring;
  peerAddress : jsstring;
  peerAs : Z;
  peerRouterId : jsstring;
  peerTimestamp : Z;
  peerTimestampMicroseconds : Z;
  peerTimestampMs : option Z
}.

Definition LOC_RIB_ADDRESS : jsstring := js "0.0.0.0".

(** The address at [offset]: 16 bytes, of which an IPv4 address uses the last four. *)
Definition parse_address (b : buffer) (offset : Z) (v6 : bool) : result jsstring :=
  if v6 then ipv6BufferToString (subarray b offset (offset + 16)) 128
  else Ok (ipv4BufferToString (subarray b (offset + 12) (offset + 16)) 32).

(** The peer and the offset behind the header; [None] for a truncated header. *)
Definition parsePeerHeader (b : buffer) (offset : Z) : result (option (bmp_peer * Z)) :=
  if blen b <? offset + 42 then Ok None
  else
    let type := byte_at b offset in
    let flags := byte_at b (offset + 1) in
    let rdBuffer := subarray b (offset + 2) (offset + 2 + BGP_RD_LEN) in
    let! rd := rdBufferToString rdBuffer in
    let! address := if type =? peer_type_value LOCAL_RIB then Ok LOC_RIB_ADDRESS
                    else parse_address b (offset + 10) (BIT_TEST flags (flag_value IPV6)) in
    let! as_ := readUInt32BE b (offset + 26) in
    let routerId := ipv4BufferToString (subarray b (offset + 30) (offset + 34)) 32 in
    let! seconds := readUInt32BE b (offset + 34) in
    let! micros := readUInt32BE b (offset + 38) in
    Ok (Some ({| peerType := type; peerFlags := flags; peerRd := rd; peerRdRaw := js "raw:" ++ hex_encode rdBuffer;
                 peerAddress := address; peerAs := as_; peerRouterId := routerId; peerTimestamp := seconds;
                 peerTimestampMicroseconds := micros; peerTimestampMs := toUnixTimestampMs seconds micros |}, offset + 42)).

(** ** TLVs *)

Record tlv := {
  rawType : Z;
  tlv_type : Z;
  enterprise : bool;
  enterpriseNumber : option Z;
  tlv_length : Z;
  rawIndex : option Z;
  index : option Z;
  group : bool;
  value : buffer;
  rawValue : buffer;
  tlv_offset : Z
}.

Inductive tlv_warning :=
| HeaderTruncated (offset : Z)
| IndexTruncated (offset : Z)
| LengthExceeds (type length : Z)
| EnterpriseShort (type : Z).

Record tlv_result := { tlvs : list tlv; warnings : list tlv_warning; end_offset : Z }.

(** The index behind the length: [None] when it is truncated. *)
Definition parse_index (indexed : bool) (b : buffer) (position : Z) : result (option (option Z * Z)) :=
  if indexed then
    if blen b <? position + 2 then Ok None
    else let! i := readUInt16BE b position in Ok (Some (Some i, position + 2))
  else Ok (Some (None, position)).

(** What a turn of the loop adds: a TLV and perhaps a warning, or the end. *)
Inductive tlv_turn :=
| Tlv (t : tlv) (ws : list tlv_warning) (position : Z)
| Broken (w : tlv_warning) (position : Z).

(** The lines behind the index. *)
Definition parse_tlv_value (b : buffer) (tlvStart raw n : Z) (i : option Z) (position : Z) : result tlv_turn :=
  let ent := BIT_TEST raw 32768 in
  let type := js_and raw 32767 in
  if blen b <? position + n then Ok (Broken (LengthExceeds type n) position)
  else
    let! (number, valueOffset, ws) :=
      if ent then
        if n <? 4 then Ok (None, position, [EnterpriseShort type])
        else let! e := readUInt32BE b position in Ok (Some e, position + 4, [])
      else Ok (None, position, []) in
    Ok (Tlv {| rawType := raw; tlv_type := type; enterprise := ent; enterpriseNumber := number; tlv_length := n;
               rawIndex := i; index := (fun r => js_and r 32767) <$> i; group := match i with Some r => BIT_TEST r 32768 | None => false end;
               value := subarray b valueOffset (position + n); rawValue := subarray b position (position + n);
               tlv_offset := tlvStart |} ws (position + n)).

Definition parse_tlv (indexed : bool) (b : buffer) (tlvStart : Z) : result tlv_turn :=
  if blen b <? tlvStart + 4 then Ok (Broken (HeaderTruncated tlvStart) tlvStart)
  else
    let! raw := readUInt16BE b tlvStart in
    let! n := readUInt16BE b (tlvStart + 2) in
    let! idx := parse_index indexed b (tlvStart + 4) in
    match idx with
    | None => Ok (Broken (IndexTruncated tlvStart) (tlvStart + 4))
    | Some (i, position) => parse_tlv_value b tlvStart raw n i position
    end.

(** [while (position < buffer.length)]; [None] is running out of fuel. *)
Fixpoint tlv_loop (fuel : nat) (indexed : bool) (b : buffer) (position : Z) (ts : list tlv) (ws : list tlv_warning) : run tlv_result :=
  if position <? blen b then
    match fuel with
    | O => None
    | S f =>
      let? turn := Some (parse_tlv indexed b position) in
      match turn with
      | Broken w p => Some (Ok {| tlvs := ts; warnings := ws ++ [w]; end_offset := p |})
      | Tlv t w p => tlv_loop f indexed b p (ts ++ [t]) (ws ++ w)
      end
    end
  else Some (Ok {| tlvs := ts; warnings := ws; end_offset := position |}).

Definition parseBmpTlvs (b : buffer) (offset : Z) (indexed : bool) : run tlv_result :=
  tlv_loop (S (length b)) indexed b offset [] [].

(** ** Flags *)

Definition EXTENDED_PEER_FLAGS_COMPAT_MASK : Z :=
  js_or (js_or (js_or (js_or (flag_value IPV6) (flag_value POST_POLICY)) (flag_value AS_PATH)) (flag_value ADJ_RIB_OUT)) (flag_value FILTERED).

Definition EXTENDED_PEER_FLAGS_COMPAT_MAX_LENGTH : Z := 4.

Definition decodeExtendedPeerFlagsValue (v : buffer) : option Z :=
  if blen v =? 0 then None
  else
    let flags := byte_at v 0 in
    if negb (flags =? 0) || (blen v =? 1) || (EXTENDED_PEER_FLAGS_COMPAT_MAX_LENGTH <? blen v) then Some flags
    else
      let lastByte := byte_at v (blen v - 1) in
      let rightAlignedFlags := js_and lastByte EXTENDED_PEER_FLAGS_COMPAT_MASK in
      let leadingBytesAreZero := forallb (fun x => x =? 0) (subarray v 0 (blen v - 1)) in
      if leadingBytesAreZero && negb (rightAlignedFlags =? 0) && (rightAlignedFlags =? lastByte)
      then Some rightAlignedFlags
      else Some flags.

(** The value of an Extended Flags TLV that was found is not empty, so that the flags are a number. *)
Definition getEffectivePeerFlags (flags : Z) (ts : list tlv) : Z :=
  match List.find (fun t => negb (enterprise t) && (tlv_type t =? tlv_type_value EXTENDED_FLAGS) && (0 <? blen (value t))) ts with
  | None => flags
  | Some t => default 0 (decodeExtendedPeerFlagsValue (value t))
  end.

(** ** Statistics *)

(** A value above 2^53 - 1 is kept as a text. *)
Inductive stat_value := StatNumber (n : Z) | StatText (s : jsstring).

Record statistic := { stat_type : Z; stat : stat_value; stat_bytes : buffer; stat_afi : option Z; stat_safi : option Z }.

Inductive stat_warning := CountTruncated | StatHeaderTruncated (i : Z) | StatLengthExceeds (type length : Z).

Record stats_result := { statistics : list statistic; stat_warnings : list stat_warning; stats_offset : Z }.

Definition big_stat (n : Z) : stat_value := if n <=? max_safe_integer then StatNumber n else StatText (dec_digits n).

Definition stat_value_at (b : buffer) (position type n : Z) : result (stat_value * option Z * option Z) :=
  if n =? 4 then let! v := readUInt32BE b position in Ok (StatNumber v, None, None)
  else if n =? 8 then let! v := readUIntBE 8 b position in Ok (big_stat v, None, None)
  else if bool_decide (type ∈ PER_AFI_SAFI_STATS_TYPES) && (n =? 11) then
    let! afi := readUInt16BE b position in
    let! v := readUIntBE 8 b (position + 3) in
    Ok (big_stat v, Some afi, Some (byte_at b (position + 2)))
  else Ok (StatNumber 0, None, None).

(** [for (let i = 0; i < statsCount; i++)]: a turn takes four bytes or ends the loop, so that the
    length of the buffer is enough fuel for any count. *)
Fixpoint stats_loop (fuel : nat) (b : buffer) (statsCount i position : Z) (acc : list statistic) : run stats_result :=
  if i <? statsCount then
    match fuel with
    | O => None
    | S f =>
      if blen b <? position + 4
      then Some (Ok {| statistics := acc; stat_warnings := [StatHeaderTruncated i]; stats_offset := position |})
      else
        let? statType := Some (readUInt16BE b position) in
        let? statLength := Some (readUInt16BE b (position + 2)) in
        let start := position + 4 in
        if blen b <? start + statLength
        then Some (Ok {| statistics := acc; stat_warnings := [StatLengthExceeds statType statLength]; stats_offset := start |})
        else
          let? (v, afi, safi) := Some (stat_value_at b start statType statLength) in
          stats_loop f b statsCount (i + 1) (start + statLength)
            (acc ++ [{| stat_type := statType; stat := v; stat_bytes := subarray b start (start + statLength); stat_afi := afi; stat_safi := safi |}])
    end
  else Some (Ok {| statistics := acc; stat_warnings := []; stats_offset := position |}).

Definition parseStatsRecords (b : buffer) (offset : Z) : run stats_result :=
  if blen b <? offset + 4
  then Some (Ok {| statistics := []; stat_warnings := [CountTruncated]; stats_offset := offset |})
  else
    let? statsCount := Some (readUInt32BE b offset) in
    stats_loop (S (length b)) b statsCount 0 (offset + 4) [].

(** * Embedded BGP messages, worker/bmp/bmpSession.js

    [None] inside the result stands for an object with an error. *)

Record bgp_header := { h_length : Z; h_type : Z }.

Definition parseBgpHeader (b : buffer) : result (option bgp_header) :=
  if blen b <? BGP_HEAD_LEN then Ok None
  else
    let! n := readUInt16BE b 16 in
    let! t := readUInt8 b 18 in
    Ok (Some {| h_length := n; h_type := t |}).

Record embedded := { parsed : bgp_parsed; e_length : Z; e_type : Z }.

Definition parseEmbeddedBgpPacket (message : buffer) (position : Z) : run (option embedded) :=
  if blen message <? position + BGP_HEAD_LEN then Some (Ok None)
  else
    let? header := Some (parseBgpHeader (subarray message position (position + BGP_HEAD_LEN))) in
    match header with
    | None => Some (Ok None)
    | Some h =>
      if h_length h <? BGP_HEAD_LEN then Some (Ok None)
      else if blen message <? position + h_length h then Some (Ok None)
      else
        match parseBgpPacket (subarray message position (position + h_length h)) with
        | None => None
        | Some p => Some (Ok (Some {| parsed := p; e_length := h_length h; e_type := h_type h |}))
        end
    end.

(** [parsed?.valid && parsed.type === OPEN] *)
Definition valid_open (e : embedded) : option bgp_open :=
  match parsed e with
  | Parsed _ _ true (BodyOpen o) => Some o
  | _ => None
  end.

(** The OPEN messages sent and received by the monitored router, and the offset behind them. *)
Definition parsePeerUpOpenMessages (message : buffer) (position : Z) : run (option (bgp_open * bgp_open * Z)) :=
  let? sent := parseEmbeddedBgpPacket message position in
  match sent ≫= (fun e => (fun o => (o, position + e_length e)) <$> valid_open e) with
  | None => Some (Ok None)
  | Some (sent_open, position) =>
    let? received := parseEmbeddedBgpPacket message position in
    match received ≫= (fun e => (fun o => (o, position + e_length e)) <$> valid_open e) with
    | None => Some (Ok None)
    | Some (received_open, position) => Some (Ok (Some (sent_open, received_open, position)))
    end
  end.

Record peer_down := { hasValidBgpNotification : bool; fsmEventCode : option Z; down_tlvs : list tlv }.

Definition is_notification (e : embedded) : bool :=
  (e_type e =? packet_type_value NOTIFICATION) && (BGP_HEAD_LEN + 2 <=? e_length e) &&
  match parsed e with Parsed _ _ true (BodyNotification _ _ _) => true | _ => false end.

(** The part that depends on the reason: whether there is a Notification, the event code and
    the offset behind. *)
Definition parse_reason_data (message : buffer) (position reason : Z) : run (option (bool * option Z * Z)) :=
  if (reason =? reason_value LOCAL_SYSTEM_CLOSED_WITH_NOTIFICATION) || (reason =? reason_value REMOTE_SYSTEM_CLOSED_WITH_NOTIFICATION) then
    let? e := parseEmbeddedBgpPacket message position in
    match e with
    | None => Some (Ok None)
    | Some e => if is_notification e then Some (Ok (Some (true, None, position + e_length e))) else Some (Ok None)
    end
  else if reason =? reason_value LOCAL_SYSTEM_CLOSED_NO_NOTIFICATION then
    if position + 2 <=? blen message then
      let? code := Some (readUInt16BE message position) in
      Some (Ok (Some (false, Some code, position + 2)))
    else Some (Ok None)
  else Some (Ok (Some (false, None, position))).

Definition known_reason (reason : Z) : bool := (1 <=? reason) && (reason <=? 6).

Definition parsePeerDownPayload (message : buffer) (position : Z) (reason : option Z) (version : Z) : run (option peer_down) :=
  match reason with
  | None => Some (Ok None)
  | Some reason =>
    if negb (known_reason reason) then Some (Ok None)
    else
      let? data := parse_reason_data message position reason in
      match data with
      | None => Some (Ok None)
      | Some (valid, code, position) =>
        if (version =? BMP_VERSION_V4) || (reason =? reason_value LOCAL_SYSTEM_CLOSED_WITH_TLV) then
          let? r := parseBmpTlvs message position false in
          match warnings r with
          | [] => Some (Ok (Some {| hasValidBgpNotification := valid; fsmEventCode := code; down_tlvs := tlvs r |}))
          | _ => Some (Ok None)
          end
        else if position =? blen message
        then Some (Ok (Some {| hasValidBgpNotification := valid; fsmEventCode := code; down_tlvs := [] |}))
        else Some (Ok None)
      end
  end.

(** [buffer.every(byte => byte >= 0x20 && byte !== 0x7f)] of a text of at most 255 bytes. *)
Definition isTextTlvValue (v : buffer) : bool :=
  negb (blen v =? 0) && (blen v <=? 255) && forallb (fun x => (32 <=? x) && negb (x =? 127)) v.

(** * TLVs are read without loss *)

Module Wire.
(** A TLV as it is sent. *)
Record wire_tlv := { w_type : Z; w_index : option Z; w_value : buffer }.

Definition encode (w : wire_tlv) : buffer :=
  be_bytes 2 (w_type w) ++ be_bytes 2 (blen (w_value w)) ++
  match w_index w with Some i => be_bytes 2 i | None => [] end ++ w_value w.

Definition u16 (n : Z) : Prop := 0 <= n < 65536.

Definition wire_ok (indexed : bool) (w : wire_tlv) : Prop :=
  u16 (w_type w) /\ u16 (blen (w_value w)) /\ bytes_ok (w_value w) /\
  match w_index w with Some i => indexed = true /\ u16 i | None => indexed = false end.

(** The high bit of the type says that the value starts with an enterprise number. *)
Definition is_enterprise (w : wire_tlv) : bool := 32768 <=? w_type w.

(** A TLV as the program sees it. *)
Definition decode (position : Z) (w : wire_tlv) : tlv :=
  let numbered := is_enterprise w && (4 <=? blen (w_value w)) in {|
    rawType := w_type w;
    tlv_type := w_type w mod 32768;
    enterprise := is_enterprise w;
    enterpriseNumber := if numbered then Some (be_value (subarray (w_value w) 0 4)) else None;
    tlv_length := blen (w_value w);
    rawIndex := w_index w;
    index := (fun i => i mod 32768) <$> w_index w;
    group := match w_index w with Some i => 32768 <=? i | None => false end;
    value := if numbered then subarray_from (w_value w) 4 else w_value w;
    rawValue := w_value w;
    tlv_offset := position
  |}.

Definition warning (w : wire_tlv) : list tlv_warning :=
  if is_enterprise w && (blen (w_value w) <? 4) then [EnterpriseShort (w_type w mod 32768)] else [].

(** What is at the end of a list of TLVs that does not fill its buffer: part of a header, of an
    index or of a value. *)
Inductive cut (indexed : bool) (position : Z) : buffer -> tlv_warning -> Prop :=
| CutHeader b : 0 < blen b < 4 -> cut indexed position b (HeaderTruncated position)
| CutIndex b : indexed = true -> 4 <= blen b < 6 -> cut indexed position b (IndexTruncated position)
| CutValue w rest : wire_ok indexed w -> rest `prefix_of` encode w -> blen (encode w) - blen (w_value w) <= blen rest < blen (encode w) ->
    cut indexed position rest (LengthExceeds (w_type w mod 32768) (blen (w_value w))).

(** The grammar of a list of TLVs from [position] on. *)
Inductive grammar (indexed : bool) : Z -> buffer -> list tlv -> list tlv_warning -> Prop :=
| Finished position : grammar indexed position [] [] []
| Truncated position b w : cut indexed position b w -> grammar indexed position b [] [w]
| Next position w rest ts ws : wire_ok indexed w -> grammar indexed (position + blen (encode w)) rest ts ws ->
    grammar indexed position (encode w ++ rest) (decode position w :: ts) (warning w ++ ws).
End Wire.

Import Wire.

Lemma high_bit z : u16 z -> BIT_TEST z 32768 = (32768 <=? z).
Proof.
  unfold u16. intros Hz. unfold BIT_TEST, js_and, to_uint32. rewrite Z.mod_small by lia. change (32768 mod 2 ^ 32) with (2 ^ 15).
  assert (Z.testbit z 15 = (32768 <=? z)) as Hbit.
  { rewrite Z.testbit_odd, Z.shiftr_div_pow2 by lia. change (2 ^ 15) with 32768. destruct (32768 <=? z) eqn:E; bool_hyps.
    - by replace (z / 32768) with 1 by zdiv.
    - by replace (z / 32768) with 0 by zdiv. }
  assert (Z.land z (2 ^ 15) = if 32768 <=? z then 32768 else 0) as ->.
  { rewrite <- Hbit. apply Z.bits_inj'. intros n Hn. rewrite Z.land_spec, Z.pow2_bits_eqb by lia.
    destruct (15 =? n) eqn:E; bool_hyps.
    - subst n. rewrite andb_true_r. by destruct (Z.testbit z 15).
    - rewrite andb_false_r. destruct (Z.testbit z 15); [|by rewrite Z.bits_0]. change 32768 with (2 ^ 15). rewrite Z.pow2_bits_eqb by lia.
      symmetry. by apply Z.eqb_neq. }
  by destruct (32768 <=? z).
Qed.

Lemma low_bits z : js_and z 32767 = z mod 32768.
Proof. change 32767 with (2 ^ 15 - 1). rewrite js_and_mask by lia. done. Qed.

(** Reads and slices behind a known prefix. *)
Lemma read_behind n k pre x m c : blen x = k -> blen m = n -> readUIntBE n (pre ++ x ++ m ++ c) (blen pre + k) = Ok (be_value m).
Proof. intros <- Hm. rewrite app_assoc, <- blen_app. by apply read_at. Qed.

Lemma slice_behind {A} k j (pre x m c : list A) : blen x = k -> k + blen m = j -> subarray (pre ++ x ++ m ++ c) (blen pre + k) (blen pre + j) = m.
Proof. intros <- <-. rewrite app_assoc, <- blen_app. replace (blen pre + (blen x + blen m)) with (blen (pre ++ x) + blen m) by blia. apply subarray_mid. Qed.

Lemma u16_value m : blen m = 2 -> bytes_ok m -> u16 (be_value m) /\ be_bytes 2 (be_value m) = m.
Proof.
  intros Hl Hm. split; [unfold u16; pose proof (be_value_bound m Hm) as Hb; by rewrite Hl in Hb|].
  replace 2%nat with (length m) by (unfold blen in Hl; lia). by apply be_bytes_be_value.
Qed.

(** A turn of the loop, with the header and the index read. *)
Lemma parse_value_turn (b pre hd body : buffer) raw n i :
  b = pre ++ hd ++ body -> u16 raw -> 0 <= n -> match i with Some i => u16 i | None => True end ->
  parse_tlv_value b (blen pre) raw n i (blen pre + blen hd) =
  if blen body <? n then Ok (Broken (LengthExceeds (raw mod 32768) n) (blen pre + blen hd))
  else
    let w := {| w_type := raw; w_index := i; w_value := subarray body 0 n |} in
    Ok (Tlv (decode (blen pre) w) (warning w) (blen pre + blen hd + n)).
Proof.
  intros -> Hraw Hn Hi. unfold parse_tlv_value. rewrite low_bits, high_bit by done.
  replace ((fun r => js_and r 32767) <$> i) with ((fun r => r mod 32768) <$> i) by (destruct i; [cbn; by rewrite low_bits | done]).
  replace (match i with Some r => BIT_TEST r 32768 | None => false end) with (match i with Some r => 32768 <=? r | None => false end)
    by (destruct i; [by rewrite high_bit | done]).
  rewrite !blen_app. replace (blen pre + (blen hd + blen body) <? blen pre + blen hd + n) with (blen body <? n).
  2:{ destruct (blen body <? n) eqn:E; bool_hyps; symmetry; [apply Z.ltb_lt | apply Z.ltb_ge]; lia. }
  destruct (blen body <? n) eqn:E; [done|]. bool_hyps. set (v := subarray body 0 n). assert (blen v = n) as Hv by (unfold v; rewrite blen_subarray; lia).
  assert (body = v ++ subarray_from body n) as Hbody by (by apply subarray_split).
  assert (forall k, 0 <= k <= n -> subarray (pre ++ hd ++ body) (blen pre + blen hd + k) (blen pre + blen hd + n) = subarray_from v k) as Hslice.
  { intros k Hk. rewrite Hbody. rewrite (subarray_split v k) at 1 by lia. rewrite <- !app_assoc.
    replace (blen pre + blen hd + k) with (blen (pre ++ hd) + k) by blia. replace (blen pre + blen hd + n) with (blen (pre ++ hd) + n) by blia.
    rewrite app_assoc. apply slice_behind; [rewrite blen_subarray; lia | rewrite blen_subarray_from; lia]. }
  pose proof (Hslice 0 ltac:(lia)) as H0. rewrite Z.add_0_r in H0. change (subarray_from v 0) with v in H0.
  unfold decode, warning, is_enterprise. cbn [w_type w_index w_value]. rewrite Hv.
  destruct (32768 <=? raw) eqn:Er; cbn [andb].
  - destruct (n <? 4) eqn:E4; bool_hyps; cbn [bind_result].
    + decide_test (4 <=? n) false. by rewrite H0.
    + decide_test (4 <=? n) true. unfold readUInt32BE.
      assert (readUIntBE 4 (pre ++ hd ++ body) (blen pre + blen hd) = Ok (be_value (subarray v 0 4))) as ->.
      { rewrite Hbody. rewrite (subarray_split v 4) at 1 by lia. rewrite <- !app_assoc.
        apply read_behind; [done | rewrite blen_subarray; lia]. }
      cbn [bind_result]. by rewrite (Hslice 4), H0 by lia.
  - cbn [bind_result]. by rewrite H0.
Qed.

(** What the turn means for the bytes that are left. *)
Lemma value_turn_cases indexed b pre tb lb ib body raw n i :
  b = pre ++ (tb ++ lb ++ ib) ++ body -> tb = be_bytes 2 raw -> lb = be_bytes 2 n -> u16 raw -> u16 n -> bytes_ok body ->
  match i with Some i => indexed = true /\ u16 i /\ ib = be_bytes 2 i | None => indexed = false /\ ib = [] end ->
  let rem := (tb ++ lb ++ ib) ++ body in
  (exists w rest, wire_ok indexed w /\ rem = encode w ++ rest /\
     parse_tlv_value b (blen pre) raw n i (blen pre + blen (tb ++ lb ++ ib)) = Ok (Tlv (decode (blen pre) w) (warning w) (blen pre + blen (encode w)))) \/
  (exists wn p, parse_tlv_value b (blen pre) raw n i (blen pre + blen (tb ++ lb ++ ib)) = Ok (Broken wn p) /\ cut indexed (blen pre) rem wn).
Proof.
  intros Hb Et El Hraw Hn Hbody Hi rem. unfold u16 in Hn. rewrite (parse_value_turn b pre (tb ++ lb ++ ib) body) by (done || lia || (destruct i; naive_solver)).
  assert (ib = match i with Some i => be_bytes 2 i | None => [] end) as Hib by (destruct i; naive_solver).
  case_if; bool_hyps.
  - right. eexists _, _. split; [done|]. set (w := {| w_type := raw; w_index := i; w_value := body ++ alloc (n - blen body) |}).
    assert (blen (w_value w) = n) as Hw by (cbn [w w_value]; rewrite blen_app, blen_alloc; lia).
    assert (encode w = rem ++ alloc (n - blen body)) as Ew.
    { unfold encode. rewrite Hw. cbn [w w_type w_index w_value]. unfold rem. rewrite <- Et, <- El, <- Hib, <- !app_assoc. done. }
    enough (cut indexed (blen pre) rem (LengthExceeds (w_type w mod 32768) (blen (w_value w)))) as Hc by (by rewrite Hw in Hc).
    apply (CutValue indexed (blen pre) w rem).
    + split; [done|]. split; [rewrite Hw; done|]. split; [|destruct i; naive_solver]. apply bytes_ok_app. split; [done | apply bytes_ok_alloc].
    + exists (alloc (n - blen body)). done.
    + rewrite Ew, Hw, blen_app, blen_alloc by lia. unfold rem. rewrite blen_app. pose proof (blen_nonneg body). lia.
  - left. set (w := {| w_type := raw; w_index := i; w_value := subarray body 0 n |}).
    assert (blen (w_value w) = n) as Hw by (cbn [w w_value]; rewrite blen_subarray; lia).
    assert (rem = encode w ++ subarray_from body n) as Ew.
    { unfold encode. rewrite Hw. cbn [w w_type w_index w_value]. unfold rem. rewrite Et, El, Hib, <- !app_assoc. do 3 f_equal. apply subarray_split. lia. }
    exists w, (subarray_from body n). split; [|split; [done|]].
    + split; [done|]. split; [rewrite Hw; done|]. split; [by apply bytes_ok_subarray | cbn [w w_index]; destruct i; naive_solver].
    + cbv zeta. fold w. do 2 f_equal. pose proof (f_equal blen Ew) as Hlen. unfold rem in Hlen. rewrite blen_app, (blen_app (encode w)), blen_subarray_from in Hlen by lia. lia.
Qed.

(** A turn at [blen pre], where [rem] is left. *)
Lemma parse_tlv_cases indexed b pre rem : b = pre ++ rem -> bytes_ok rem -> rem <> [] ->
  (exists w rest, wire_ok indexed w /\ rem = encode w ++ rest /\
     parse_tlv indexed b (blen pre) = Ok (Tlv (decode (blen pre) w) (warning w) (blen pre + blen (encode w)))) \/
  (exists wn p, parse_tlv indexed b (blen pre) = Ok (Broken wn p) /\ cut indexed (blen pre) rem wn).
Proof.
  intros Hb Hok Hne. assert (0 < blen rem) as Hpos by (destruct rem; [done | blia]).
  assert (blen b = blen pre + blen rem) as Hlen by (rewrite Hb; blia).
  unfold parse_tlv. rewrite Hlen. destruct (decide (blen rem < 4)) as [H4|H4].
  { decide_test (blen pre + blen rem <? blen pre + 4) true. right. eexists _, _. split; [done|]. constructor. lia. }
  decide_test (blen pre + blen rem <? blen pre + 4) false.
  set (tb := subarray rem 0 2). set (lb := subarray rem 2 4). set (tl := subarray_from rem 4).
  assert (blen tb = 2) as Ht by (unfold tb; rewrite blen_subarray; lia). assert (blen lb = 2) as Hl by (unfold lb; rewrite blen_subarray; lia).
  assert (rem = tb ++ lb ++ tl) as Hrem.
  { unfold tb, lb, tl. rewrite (subarray_split rem 2) at 1 by lia. f_equal. apply subarray_from_split. lia. }
  assert (blen tl = blen rem - 4) as Htl by (unfold tl; rewrite blen_subarray_from; lia). clearbody tb lb tl. subst rem. rewrite !blen_app in Hlen.
  apply bytes_ok_app in Hok as [Hokt Hok]. apply bytes_ok_app in Hok as [Hokl Hok].
  destruct (u16_value tb Ht Hokt) as [Hraw Etb]. destruct (u16_value lb Hl Hokl) as [Hn Elb]. set (raw := be_value tb) in *. set (n := be_value lb) in *.
  assert (readUInt16BE b (blen pre) = Ok raw) as -> by (rewrite Hb; unfold readUInt16BE; by apply read_at).
  assert (readUInt16BE b (blen pre + 2) = Ok n) as -> by (rewrite Hb; unfold readUInt16BE; by apply read_behind).
  cbn [bind_result]. unfold parse_index. destruct indexed.
  - rewrite Hlen. destruct (decide (blen tl < 2)).
    + decide_test (blen pre + (blen tb + (blen lb + blen tl)) <? blen pre + 4 + 2) true. cbn [bind_result]. right. eexists _, _. split; [done|].
      constructor; [done | blia].
    + decide_test (blen pre + (blen tb + (blen lb + blen tl)) <? blen pre + 4 + 2) false.
      set (ib := subarray tl 0 2). assert (blen ib = 2) as Hib by (unfold ib; rewrite blen_subarray; lia).
      assert (tl = ib ++ subarray_from tl 2) as Etl by (apply subarray_split; lia). set (body := subarray_from tl 2) in *. clearbody ib body. subst tl.
      apply bytes_ok_app in Hok as [Hoki Hok]. destruct (u16_value ib Hib Hoki) as [Hi Eib].
      assert (readUInt16BE b (blen pre + 4) = Ok (be_value ib)) as ->.
      { rewrite Hb. unfold readUInt16BE. rewrite (app_assoc tb). apply read_behind; [blia | done]. }
      cbn [bind_result]. replace (blen pre + 4 + 2) with (blen pre + blen (tb ++ lb ++ ib)) by blia.
      replace (tb ++ lb ++ ib ++ body) with ((tb ++ lb ++ ib) ++ body) in * by (by rewrite <- !app_assoc).
      by apply value_turn_cases.
  - cbn [bind_result]. replace (blen pre + 4) with (blen pre + blen (tb ++ lb ++ [])) by blia.
    replace (tb ++ lb ++ tl) with ((tb ++ lb ++ []) ++ tl) in * by (by rewrite <- !app_assoc).
    by apply value_turn_cases.
Qed.

Lemma blen_encode w : 4 <= blen (encode w).
Proof. unfold encode. rewrite !blen_app, !blen_be_bytes. destruct (w_index w); blia. Qed.

Lemma tlv_loop_grammar fuel indexed b pre rem ts ws : b = pre ++ rem -> bytes_ok rem -> (length rem < fuel)%nat ->
  exists ts' ws' p, tlv_loop fuel indexed b (blen pre) ts ws = Some (Ok {| tlvs := ts ++ ts'; warnings := ws ++ ws'; end_offset := p |}) /\
    grammar indexed (blen pre) rem ts' ws'.
Proof.
  revert pre rem ts ws. induction fuel as [|fuel IH]; intros pre rem ts ws Hb Hok Hf; [lia|]. cbn [tlv_loop]. assert (blen b = blen pre + blen rem) as Hlen by (rewrite Hb; blia). rewrite Hlen.
  destruct (decide (rem = [])) as [->|Hne].
  { decide_test (blen pre <? blen pre + blen (@nil Z)) false. exists [], [], (blen pre). rewrite !app_nil_r. split; [done | constructor]. }
  assert (0 < blen rem) by (destruct rem; [done | blia]). decide_test (blen pre <? blen pre + blen rem) true.
  destruct (parse_tlv_cases indexed b pre rem Hb Hok Hne) as [(w & rest & Hw & -> & ->)|(wn & p & -> & Hc)]; cbn [bind_run].
  - pose proof (blen_encode w) as Hew. apply bytes_ok_app in Hok as [_ Hok].
    destruct (IH (pre ++ encode w) rest (ts ++ [decode (blen pre) w]) (ws ++ warning w)) as (ts' & ws' & p & Hr & Hg).
    + by rewrite <- app_assoc. + done. + rewrite length_app in Hf. unfold blen in Hew. lia.
    + rewrite blen_app in Hr, Hg. exists (decode (blen pre) w :: ts'), (warning w ++ ws'), p. split; [|by constructor].
      rewrite Hr. by rewrite <- !app_assoc.
  - exists [], [wn], p. rewrite app_nil_r. split; [done|]. by constructor.
Qed.

(** C37: The TLVs of a message are read without loss.  For every message and every offset in it the
    reader returns, and its TLVs and warnings are what the grammar of the encoding says of the
    bytes from the offset on: each TLV stands for exactly the bytes of its encoding, one
    after the other, with type, flags, number, index and value taken from them; a part of a TLV at
    the end gives exactly one warning that says what is missing. *)
Theorem bmp_tlvs_grammar indexed b offset : bytes_ok b -> 0 <= offset <= blen b ->
  exists r, parseBmpTlvs b offset indexed = Some (Ok r) /\ grammar indexed offset (subarray_from b offset) (tlvs r) (warnings r).
Proof.
  intros Hb Ho. unfold parseBmpTlvs.
  destruct (tlv_loop_grammar (S (length b)) indexed b (subarray b 0 offset) (subarray_from b offset) [] []) as (ts & ws & p & Hr & Hg).
  - apply subarray_split. lia.
  - by apply bytes_ok_subarray_from.
  - unfold subarray_from. rewrite length_drop. lia.
  - rewrite blen_subarray, Z.sub_0_r in Hr, Hg by lia. cbn [app] in Hr. by eexists.
Qed.

(** * Texts of addresses are different for different addresses *)

Definition tail_text (gs : list jsstring) : jsstring := concat (map (cons 58) gs).

Lemma join_tail g gs : join_with 58 (g :: gs) = g ++ tail_text gs.
Proof.
  revert g. induction gs as [|h gs IH]; intros g; [cbn; by rewrite app_nil_r|].
  change (join_with 58 (g :: h :: gs)) with (g ++ 58 :: join_with 58 (h :: gs)). by rewrite IH.
Qed.

Fixpoint strip_zeros (gs : list jsstring) : list jsstring :=
  match gs with
  | g :: tl => if decide (g = zero_text) then strip_zeros tl else gs
  | [] => []
  end.

Lemma strip_zeros_split gs : exists n, gs = replicate n zero_text ++ strip_zeros gs.
Proof.
  induction gs as [|g gs [n IH]]; [by exists O|]. cbn [strip_zeros]. case_decide; [|by exists O]. subst g. exists (S n). cbn [replicate app]. by rewrite <- IH.
Qed.

Lemma seg_head g : seg g -> exists c tl, g = c :: tl /\ c <> 58.
Proof.
  intros Hg. pose proof (seg_lacks_colon g Hg) as Hl. destruct Hg as (Hne & _). destruct g as [|c tl]; [done|].
  apply list.Forall_cons in Hl as [Hc _]. eauto.
Qed.

(** A match goes over all the zero groups that follow. *)
Lemma zeros_tail_spec gs : Forall seg gs ->
  zeros_tail (tail_text gs) =
  match gs with
  | g :: tl => if decide (g = zero_text) then Some (join_with 58 (strip_zeros tl)) else None
  | [] => None
  end.
Proof.
  induction 1 as [|g gs Hg Hgs IH]; [done|]. change (tail_text (g :: gs)) with (58 :: g ++ tail_text gs).
  destruct (seg_head g Hg) as (c & tl & -> & Hc). cbn [app zeros_tail]. case_decide as Hz.
  - injection Hz as -> ->. cbn [app]. change ((58 =? 58) && (48 =? 48)) with true. cbv iota. rewrite IH. destruct gs as [|h gs].
    + done.
    + cbn [strip_zeros]. case_decide; [done|]. change (tail_text (h :: gs)) with (58 :: h ++ tail_text gs). by rewrite join_tail.
  - destruct (decide (c = 48)) as [->|]; [|by rewrite (proj2 (Z.eqb_neq c 48)), andb_false_r by done].
    change ((58 =? 58) && (48 =? 48)) with true. cbv iota. destruct tl as [|d tl]; [done|]. cbn [app].
    pose proof (seg_lacks_colon _ Hg) as Hl. apply list.Forall_cons in Hl as [_ Hl]. apply list.Forall_cons in Hl as [Hd _].
    assert (zeros_tail (d :: tl ++ tail_text gs) = None) as ->.
    { destruct (tl ++ tail_text gs) as [|e s]; [done|]. cbn [zeros_tail]. by rewrite (proj2 (Z.eqb_neq d 58)). }
    by rewrite (proj2 (Z.eqb_neq d 58)).
Qed.

Lemma zeros_start_spec g gs : seg g -> Forall seg gs ->
  zeros_start (g ++ tail_text gs) = if decide (g = zero_text) then zeros_tail (tail_text gs) else None.
Proof.
  intros Hg Hgs. destruct (seg_head g Hg) as (c & tl & -> & Hc). cbn [app zeros_start]. case_decide as Hz; [by injection Hz as -> ->|].
  destruct (decide (c = 48)) as [->|]; [|by rewrite (proj2 (Z.eqb_neq c 48))]. cbn [Z.eqb Pos.eqb].
  destruct tl as [|d tl]; [done|]. pose proof (seg_lacks_colon _ Hg) as Hl. apply list.Forall_cons in Hl as [_ Hl]. apply list.Forall_cons in Hl as [Hd _].
  cbn [app]. destruct (tl ++ tail_text gs) as [|e s]; [done|]. cbn [zeros_tail]. by rewrite (proj2 (Z.eqb_neq d 58)).
Qed.

(** The text with one run of two or more zero groups replaced. *)
Definition shortened (gs : list jsstring) (t : jsstring) : Prop :=
  t = join_with 58 gs \/
  exists l n r, gs = l ++ replicate (S (S n)) zero_text ++ r /\ t = join_with 58 l ++ [58; 58] ++ join_with 58 r.

Lemma replace_lacks g s : lacks 58 g -> replace_after_colon (g ++ s) = g ++ replace_after_colon s.
Proof.
  induction 1 as [|c g Hc _ IH]; [done|]. cbn [app replace_after_colon]. rewrite (proj2 (Z.eqb_neq c 58)) by done. by rewrite IH.
Qed.

Lemma replace_tail gs : Forall seg gs ->
  replace_after_colon (tail_text gs) = tail_text gs \/
  exists l n r, gs = l ++ replicate (S (S n)) zero_text ++ r /\ replace_after_colon (tail_text gs) = tail_text l ++ [58; 58] ++ join_with 58 r.
Proof.
  induction 1 as [|g gs Hg Hgs IH]; [by left|]. change (tail_text (g :: gs)) with (58 :: g ++ tail_text gs). cbn [replace_after_colon].
  change (58 =? 58) with true. cbv iota. rewrite zeros_start_spec by done.
  destruct (decide (g = zero_text)) as [->|Hz].
  - rewrite zeros_tail_spec by done. destruct gs as [|h gs]; [by left|]. destruct (decide (h = zero_text)) as [->|Hh].
    + right. destruct (strip_zeros_split gs) as [n Hn]. exists [], n, (strip_zeros gs). split; [|done]. cbn [replicate app]. by rewrite <- Hn.
    + rewrite (replace_lacks zero_text) by (by apply seg_lacks_colon). destruct IH as [->|(l & n & r & E & ->)]; [by left|].
      right. exists (zero_text :: l), n, r. split; [by rewrite E|]. done.
  - rewrite replace_lacks by (by apply seg_lacks_colon). destruct IH as [->|(l & n & r & E & ->)]; [by left|].
    right. exists (g :: l), n, r. split; [by rewrite E|]. change (tail_text (g :: l)) with (58 :: g ++ tail_text l). cbn [app]. by rewrite <- app_assoc.
Qed.

Lemma replace_zeros_spec gs : gs <> [] -> Forall seg gs -> shortened gs (replace_zeros (join_with 58 gs)).
Proof.
  intros Hne Hgs. destruct gs as [|g gs]; [done|]. apply list.Forall_cons in Hgs as [Hg Hgs]. rewrite join_tail. unfold replace_zeros, shortened.
  rewrite zeros_start_spec by done. destruct (decide (g = zero_text)) as [->|Hz].
  - rewrite zeros_tail_spec by done. destruct gs as [|h gs].
    + left. done.
    + destruct (decide (h = zero_text)) as [->|Hh].
      * right. destruct (strip_zeros_split gs) as [n Hn]. exists [], n, (strip_zeros gs). split; [|done]. cbn [replicate app]. by rewrite <- Hn.
      * rewrite (replace_lacks zero_text) by (by apply seg_lacks_colon). destruct (replace_tail (h :: gs) Hgs) as [->|(l & n & r & E & ->)].
        -- left. by rewrite join_tail.
        -- right. exists (zero_text :: l), n, r. split; [by rewrite E|]. by rewrite join_tail, <- app_assoc.
  - rewrite replace_lacks by (by apply seg_lacks_colon). destruct (replace_tail gs Hgs) as [->|(l & n & r & E & ->)].
    + left. by rewrite join_tail.
    + right. exists (g :: l), n, r. split; [by rewrite E|]. by rewrite join_tail, <- app_assoc.
Qed.

(** Nothing is left for the second replacement. *)
Lemma collapse_lacks g s : lacks 58 g -> g <> [] -> forall n, collapse_colons (g ++ s) n = colons n ++ g ++ collapse_colons s 0.
Proof.
  induction 1 as [|c g Hc Hg IH]; [done|]. intros _ n. cbn [app collapse_colons]. rewrite (proj2 (Z.eqb_neq c 58)) by done.
  destruct g as [|d g]; [done|]. by rewrite (IH ltac:(done) 0%nat).
Qed.

Lemma collapse_join gs s n : Forall seg gs -> gs <> [] -> collapse_colons (join_with 58 gs ++ s) n = colons n ++ join_with 58 gs ++ collapse_colons s 0.
Proof.
  intros Hgs. revert n. induction Hgs as [|g gs Hg Hgs IH]; intros n; [done|]. intros _. assert (g <> []) by apply Hg. destruct gs as [|h gs].
  - cbn [join_with]. by apply collapse_lacks; [apply seg_lacks_colon|].
  - change (join_with 58 (g :: h :: gs)) with (g ++ 58 :: join_with 58 (h :: gs)). rewrite <- !app_assoc. rewrite collapse_lacks by (done || by apply seg_lacks_colon).
    do 2 f_equal. cbn [app collapse_colons]. change (58 =? 58) with true. cbv iota. by rewrite IH.
Qed.

Lemma collapse_shortened gs t : Forall seg gs -> shortened gs t -> collapse_colons t 0 = t.
Proof.
  intros Hgs [->|(l & n & r & -> & ->)].
  - destruct (decide (gs = [])) as [->|]; [done|]. rewrite <- (app_nil_r (join_with 58 gs)) at 1. rewrite collapse_join by done. cbn. by rewrite app_nil_r.
  - apply Forall_app in Hgs as [Hl Hgs]. apply Forall_app in Hgs as [_ Hr].
    assert (collapse_colons ([58; 58] ++ join_with 58 r) 0 = [58; 58] ++ join_with 58 r) as E.
    { cbn [app collapse_colons]. change (58 =? 58) with true. cbv iota. destruct (decide (r = [])) as [->|]; [done|].
      rewrite <- (app_nil_r (join_with 58 r)) at 1. rewrite collapse_join by done. cbn. by rewrite app_nil_r. }
    destruct (decide (l = [])) as [->|]; [exact E|]. rewrite collapse_join by done. by rewrite E.
Qed.

(** The groups can be read back. *)
Lemma shortened_groups gs t : blen gs = 8 -> Forall seg gs -> shortened gs t -> address_groups t = Ok gs.
Proof.
  intros H8 Hgs [->|(l & n & r & -> & ->)]; unfold address_groups.
  - assert (split_double (join_with 58 gs) = [join_with 58 gs]) as ->.
    { rewrite <- (app_nil_r (join_with 58 gs)) at 1. rewrite split_double_join by done. cbn [split_double prepend]. by rewrite app_nil_r. }
    rewrite split_segs; [done | by intros -> | done].
  - apply Forall_app in Hgs as [Hl Hgs]. apply Forall_app in Hgs as [_ Hr].
    assert (split_double (join_with 58 l ++ [58; 58] ++ join_with 58 r) = [join_with 58 l; join_with 58 r]) as ->.
    { rewrite split_double_join by done. cbn [app]. rewrite split_double_cons. cbn [Z.eqb Pos.eqb andb].
      rewrite <- (app_nil_r (join_with 58 r)) at 1. rewrite split_double_join by done. cbn [split_double prepend]. by rewrite !app_nil_r. }
    rewrite !half_parts_join by done. rewrite !blen_app in H8. assert (blen (replicate (S (S n)) zero_text) = Z.of_nat (S (S n))) as Hn by (unfold blen; by rewrite length_replicate).
    decide_test (8 - blen l - blen r <? 0) false. replace (Z.to_nat (8 - blen l - blen r)) with (S (S n)) by lia. done.
Qed.

Lemma hex_digits_inj m n : 0 <= m -> 0 <= n -> hex_digits m = hex_digits n -> m = n.
Proof. intros Hm Hn E. destruct (hex_digits_correct m Hm) as (<- & _). destruct (hex_digits_correct n Hn) as (<- & _). by rewrite E. Qed.

(** The characters of an address text are not the separator of keys. *)
Definition address_char (c : Z) : Prop := hex_char c \/ c = 58 \/ c = 46.

Lemma segs_chars gs : Forall seg gs -> Forall address_char (join_with 58 gs).
Proof.
  induction 1 as [|g gs (_ & Hc & _) _ IH]; [constructor|]. assert (Forall address_char g) by (eapply Forall_impl; [|exact Hc]; by left).
  destruct gs as [|h gs]; [done|]. change (join_with 58 (g :: h :: gs)) with (g ++ 58 :: join_with 58 (h :: gs)). apply Forall_app. split; [done|].
  constructor; [|done]. right; by left.
Qed.

Lemma shortened_chars gs t : Forall seg gs -> shortened gs t -> Forall address_char t.
Proof.
  intros Hgs [->|(l & n & r & -> & ->)]; [by apply segs_chars|]. apply Forall_app in Hgs as [Hl Hgs]. apply Forall_app in Hgs as [_ Hr].
  apply Forall_app. split; [by apply segs_chars|]. repeat (constructor; [right; by left|]). by apply segs_chars.
Qed.

Lemma shortened_colon gs t : blen gs = 8 -> shortened gs t -> 58 ∈ t.
Proof.
  intros H8 [->|(l & n & r & -> & ->)].
  - destruct gs as [|g [|h gs]]; [done | done |]. rewrite join_tail. change (tail_text (h :: gs)) with (58 :: h ++ tail_text gs).
    apply list.elem_of_app. right. apply list_elem_of_here.
  - apply list.elem_of_app. right. apply list_elem_of_here.
Qed.

Lemma ipv6_text b : length b = 16%nat -> bytes_ok b ->
  exists vs t, ipv6BufferToString b 128 = Ok t /\ concat (map (be_bytes 2) vs) = b /\ Forall group_value vs /\
    address_groups t = Ok (map hex_digits vs) /\ Forall address_char t /\ 58 ∈ t.
Proof.
  intros Hl Hb. destruct (read_groups_spec 8 0 b) as (vs & Hr & Hn & Hv & Hc); [lia | unfold blen; lia | done |].
  assert (copy_into b (alloc 16) 0 = b) as Hcopy.
  { unfold copy_into. rewrite take_ge by (rewrite blen_alloc; lia). apply splice_all. by rewrite Hl. }
  set (gs := map hex_digits vs) in *. assert (Forall seg gs) as Hgs by (apply Forall_map; eapply Forall_impl; [|exact Hv]; exact seg_hex_digits).
  assert (blen gs = 8) as H8 by (unfold gs, blen; rewrite length_map; lia).
  assert (shortened gs (replace_zeros (join_with 58 gs))) as Hs by (apply replace_zeros_spec; [by intros -> | done]).
  exists vs, (replace_zeros (join_with 58 gs)). split.
  { unfold ipv6BufferToString. rewrite Hcopy. change (128 mod 8) with 0. cbn [Z.ltb Z.compare andb]. rewrite Hr. cbn [bind_result].
    by rewrite (collapse_shortened gs). }
  split; [rewrite Hc; unfold subarray; change (Z.to_nat (0 * 2)) with 0%nat; rewrite drop_0, take_ge; [done | lia]|]. split; [done|].
  split; [by apply shortened_groups|]. split; [by apply (shortened_chars gs) | by apply (shortened_colon gs)].
Qed.

Lemma ipv6_text_inj a b t : length a = 16%nat -> bytes_ok a -> length b = 16%nat -> bytes_ok b ->
  ipv6BufferToString a 128 = Ok t -> ipv6BufferToString b 128 = Ok t -> a = b.
Proof.
  intros Ha Hoka Hb Hokb Hta Htb. destruct (ipv6_text a Ha Hoka) as (va & ta & Ea & <- & Hva & Hga & _). destruct (ipv6_text b Hb Hokb) as (vb & tb & Eb & <- & Hvb & Hgb & _).
  rewrite Hta in Ea. rewrite Htb in Eb. injection Ea as <-. injection Eb as <-. rewrite Hga in Hgb. injection Hgb as Hgb. do 2 f_equal. clear -Hgb Hva Hvb.
  revert vb Hgb Hvb. induction Hva as [|x va Hx _ IH]; intros [|y vb] E Hvb; try done. cbn [map] in E. injection E as E1 E2. apply list.Forall_cons in Hvb as [Hy Hvb].
  unfold group_value in *. rewrite (hex_digits_inj x y) by (done || lia). f_equal. by apply IH.
Qed.

Lemma ipv4_text b : length b = 4%nat -> ipv4BufferToString b 32 = join_with 46 (map dec_digits b).
Proof.
  intros Hl. unfold ipv4BufferToString. change (32 mod 8) with 0. cbn [Z.ltb Z.compare andb]. do 2 f_equal.
  unfold copy_into. rewrite take_ge by (rewrite blen_alloc; lia). apply splice_all. by rewrite Hl.
Qed.

Lemma numbers_lack c b : is_digit c = false -> bytes_ok b -> Forall (lacks c) (map dec_digits b).
Proof. intros Hc Hb. apply Forall_map. eapply Forall_impl; [|exact Hb]. intros x [Hx _]. by apply dec_digits_lacks. Qed.

Lemma ipv4_text_inj a b t : length a = 4%nat -> bytes_ok a -> length b = 4%nat -> bytes_ok b ->
  ipv4BufferToString a 32 = t -> ipv4BufferToString b 32 = t -> a = b.
Proof.
  intros Ha Hoka Hb Hokb Ea Eb. rewrite ipv4_text in Ea, Eb by done. rewrite <- Ea in Eb. apply (f_equal (split_on 46)) in Eb.
  rewrite !split_join in Eb; [| by destruct a | by apply numbers_lack | by destruct b | by apply numbers_lack].
  clear -Eb Hoka Hokb. revert a Eb Hoka. induction Hokb as [|y b [Hy _] _ IH]; intros [|x a] E Hoka; try done. cbn [map] in E. injection E as E1 E2.
  apply list.Forall_cons in Hoka as [[Hx _] Hoka]. rewrite (dec_digits_inj x y) by (done || lia). f_equal. by apply IH.
Qed.

Lemma ipv4_text_chars b : length b = 4%nat -> bytes_ok b -> Forall address_char (ipv4BufferToString b 32) /\ 58 ∉ ipv4BufferToString b 32.
Proof.
  intros Hl Hb. rewrite ipv4_text by done.
  assert (Forall (fun c => is_digit c = true \/ c = 46) (join_with 46 (map dec_digits b))) as Hc.
  { clear Hl. induction Hb as [|x b [Hx _] _ IH]; [constructor|]. pose proof (dec_digits_digits x Hx) as Hd.
    assert (Forall (fun c => is_digit c = true \/ c = 46) (dec_digits x)) by (eapply Forall_impl; [|exact Hd]; by left).
    destruct b as [|y b]; [done|]. cbn [map] in *. change (join_with 46 (dec_digits x :: dec_digits y :: map dec_digits b)) with (dec_digits x ++ 46 :: join_with 46 (dec_digits y :: map dec_digits b)).
    apply Forall_app. split; [done|]. constructor; [by right | done]. }
  split.
  - eapply Forall_impl; [|exact Hc]. intros c [Hd| ->]; [|by right; right]. left. unfold is_digit in Hd. bool_hyps. left. lia.
  - intros Hin. rewrite list.Forall_forall in Hc. by destruct (Hc 58 Hin).
Qed.

(** ** The address of a header *)

Definition address_bytes (b : buffer) (offset : Z) (v6 : bool) : buffer :=
  if v6 then subarray b offset (offset + 16) else subarray b (offset + 12) (offset + 16).

Lemma address_bytes_ok b offset v6 : bytes_ok b -> 0 <= offset -> offset + 16 <= blen b ->
  bytes_ok (address_bytes b offset v6) /\ length (address_bytes b offset v6) = (if v6 then 16 else 4)%nat.
Proof.
  intros Hb Ho Hl. destruct v6; cbn [address_bytes]; (split; [by apply bytes_ok_subarray|]).
  - rewrite length_slice; lia.
  - replace (offset + 16) with (offset + 12 + 4) by lia. rewrite length_slice; lia.
Qed.

Lemma parse_address_ok b offset v6 : bytes_ok b -> 0 <= offset -> offset + 16 <= blen b ->
  exists t, parse_address b offset v6 = Ok t /\ Forall address_char t /\ (58 ∈ t <-> v6 = true).
Proof.
  intros Hb Ho Hl. destruct (address_bytes_ok b offset v6 Hb Ho Hl) as [Hok Hlen]. unfold parse_address. destruct v6; cbn [address_bytes] in *.
  - destruct (ipv6_text _ Hlen Hok) as (_ & t & -> & _ & _ & _ & Hc & H58). by exists t.
  - destruct (ipv4_text_chars _ Hlen Hok) as [Hc H58]. by eexists.
Qed.

(** Different addresses have different texts. *)
Lemma parse_address_inj b1 o1 v1 b2 o2 v2 t : bytes_ok b1 -> 0 <= o1 -> o1 + 16 <= blen b1 -> bytes_ok b2 -> 0 <= o2 -> o2 + 16 <= blen b2 ->
  parse_address b1 o1 v1 = Ok t -> parse_address b2 o2 v2 = Ok t -> v1 = v2 /\ address_bytes b1 o1 v1 = address_bytes b2 o2 v2.
Proof.
  intros Hb1 Ho1 Hl1 Hb2 Ho2 Hl2 H1 H2. destruct (parse_address_ok b1 o1 v1) as (t1 & E1 & _ & C1); [done..|]. destruct (parse_address_ok b2 o2 v2) as (t2 & E2 & _ & C2); [done..|].
  rewrite H1 in E1. rewrite H2 in E2. injection E1 as <-. injection E2 as <-. assert (v1 = v2) as <-.
  { destruct v1, v2; try done; exfalso; [assert (58 ∈ t) as H by (by apply C1); by apply C2 in H | assert (58 ∈ t) as H by (by apply C2); by apply C1 in H]. }
  split; [done|]. destruct (address_bytes_ok b1 o1 v1 Hb1 Ho1 Hl1) as [Hok1 Hlen1]. destruct (address_bytes_ok b2 o2 v1 Hb2 Ho2 Hl2) as [Hok2 Hlen2].
  unfold parse_address in H1, H2. destruct v1; cbn [address_bytes] in *.
  - by apply (ipv6_text_inj _ _ t).
  - injection H1 as H1. injection H2 as H2. by apply (ipv4_text_inj _ _ t).
Qed.

(** ** The per-peer header *)

Lemma read_in n b off : 0 <= off -> off + n <= blen b -> readUIntBE n b off = Ok (read_field n b off).
Proof. intros Ho Hl. unfold readUIntBE, read_field. decide_test (0 <=? off) true. by decide_test (off + n <=? blen b) true. Qed.

Lemma rd_text b : blen b = 8 -> exists t, rdBufferToString b = Ok t.
Proof.
  intros Hl. unfold rdBufferToString, readUInt16BE, readUInt32BE. rewrite Hl. cbn [Z.eqb Pos.eqb negb]. rewrite !read_in by (rewrite ?Hl; lia).
  cbn [bind_result]. repeat case_if; eauto.
Qed.

Lemma parsePeerHeader_ok b offset : bytes_ok b -> 0 <= offset -> offset + 42 <= blen b ->
  exists p, parsePeerHeader b offset = Ok (Some (p, offset + 42)) /\
    peerType p = byte_at b offset /\ peerFlags p = byte_at b (offset + 1) /\
    peerRdRaw p = js "raw:" ++ hex_encode (subarray b (offset + 2) (offset + 10)) /\
    (if peerType p =? peer_type_value LOCAL_RIB then Ok LOC_RIB_ADDRESS
     else parse_address b (offset + 10) (BIT_TEST (peerFlags p) (flag_value IPV6))) = Ok (peerAddress p) /\
    peerAs p = read_field 4 b (offset + 26).
Proof.
  intros Hb Ho Hl. unfold parsePeerHeader, BGP_RD_LEN. decide_test (blen b <? offset + 42) false. replace (offset + 2 + 8) with (offset + 10) by lia.
  destruct (rd_text (subarray b (offset + 2) (offset + 10))) as [rd ->]; [rewrite blen_subarray; lia|]. cbn [bind_result].
  unfold readUInt32BE. rewrite !read_in by lia.
  assert (exists t, (if byte_at b offset =? peer_type_value LOCAL_RIB then Ok LOC_RIB_ADDRESS else parse_address b (offset + 10) (BIT_TEST (byte_at b (offset + 1)) (flag_value IPV6))) = Ok t) as [t Ht].
  { case_if; [by eexists|]. destruct (parse_address_ok b (offset + 10) (BIT_TEST (byte_at b (offset + 1)) (flag_value IPV6))) as (t & -> & _); [done | lia | lia | by exists t]. }
  rewrite Ht. cbn [bind_result]. eexists. split; [done|]. cbn [peerType peerFlags peerRdRaw peerAddress peerAs]. by rewrite Ht.
Qed.

(** * The readers return *)

Lemma read16_nonneg b off v : bytes_ok b -> readUInt16BE b off = Ok v -> 0 <= v.
Proof. apply read_nonneg. Qed.

Lemma parse_tlv_advances indexed b position t ws p : bytes_ok b -> parse_tlv indexed b position = Ok (Tlv t ws p) -> position + 4 <= p.
Proof.
  intros Hb. unfold parse_tlv. case_if; [done|]. destruct (readUInt16BE b position) as [raw|]; cbn [bind_result]; [|done].
  destruct (readUInt16BE b (position + 2)) as [n|] eqn:En; cbn [bind_result]; [|done]. apply read16_nonneg in En; [|done].
  assert (forall i q, parse_tlv_value b position raw n i q = Ok (Tlv t ws p) -> p = q + n) as Hv.
  { intros i q. unfold parse_tlv_value. case_if; [done|]. destruct (if BIT_TEST raw 32768 then _ else _) as [[[m off] ws']|]; cbn [bind_result]; [|done]. by intros [= _ _ <-]. }
  unfold parse_index. destruct indexed; [|cbn [bind_result]; intros H%Hv; lia].
  case_if; cbn [bind_result]; [done|]. destruct (readUInt16BE b (position + 4)); cbn [bind_result]; [|done]. intros H%Hv. lia.
Qed.

Lemma tlv_loop_total fuel indexed b position ts ws : bytes_ok b -> blen b - position < Z.of_nat fuel -> is_Some (tlv_loop fuel indexed b position ts ws).
Proof.
  intros Hb. revert position ts ws. induction fuel as [|fuel IH]; intros position ts ws Hf; cbn [tlv_loop]; (case_if; bool_hyps; [|by eexists]); [lia|].
  destruct (parse_tlv indexed b position) as [[t w p|w p]|e] eqn:Et; cbn; [|by eexists..]. apply parse_tlv_advances in Et; [|done]. apply IH. lia.
Qed.

Lemma parseBmpTlvs_total b offset indexed : bytes_ok b -> 0 <= offset -> is_Some (parseBmpTlvs b offset indexed).
Proof. intros Hb Ho. apply tlv_loop_total; [done|]. unfold blen. lia. Qed.

Lemma stats_loop_total fuel b count i position acc : bytes_ok b -> position <= blen b -> blen b - position < Z.of_nat fuel ->
  is_Some (stats_loop fuel b count i position acc).
Proof.
  intros Hb. revert i position acc. induction fuel as [|fuel IH]; intros i position acc Hp Hf; cbn [stats_loop]; (case_if; [|by eexists]); [lia|].
  case_if; [by eexists|]. destruct (readUInt16BE b position) as [type|e]; cbn [bind_run]; [|by eexists].
  destruct (readUInt16BE b (position + 2)) as [n|e] eqn:En; cbn [bind_run]; [|by eexists]. apply read16_nonneg in En; [|done].
  case_if; [by eexists|]. destruct (stat_value_at b (position + 4) type n) as [[[v afi] safi]|e]; cbn [bind_run]; [|by eexists].
  bool_hyps. apply IH; lia.
Qed.

Lemma parseStatsRecords_total b offset : bytes_ok b -> 0 <= offset -> is_Some (parseStatsRecords b offset).
Proof.
  intros Hb Ho. unfold parseStatsRecords. case_if; [by eexists|]. destruct (readUInt32BE b offset); cbn [bind_run]; [|by eexists].
  bool_hyps. apply stats_loop_total; [done | lia|]. unfold blen. lia.
Qed.

Lemma parseEmbedded_total b position : bytes_ok b -> is_Some (parseEmbeddedBgpPacket b position).
Proof.
  intros Hb. unfold parseEmbeddedBgpPacket. case_if; [by eexists|]. destruct (parseBgpHeader _) as [[h|]|e]; cbn [bind_run]; [|by eexists..].
  repeat (case_if; [by eexists|]). destruct (parseBgpPacket_total (subarray b position (position + h_length h))) as [r ->]; [by apply bytes_ok_subarray | by eexists].
Qed.

(** An embedded message that was read has a length of its own. *)
Lemma parseEmbedded_length b position e : parseEmbeddedBgpPacket b position = Some (Ok (Some e)) -> BGP_HEAD_LEN <= e_length e.
Proof.
  unfold parseEmbeddedBgpPacket. case_if; [done|]. destruct (parseBgpHeader _) as [[h|]|x]; cbn [bind_run]; [|done..].
  case_if; [done|]. case_if; [done|]. destruct (parseBgpPacket _); [|done]. intros [= <-]. cbn [e_length]. bool_hyps. lia.
Qed.

Lemma parsePeerUpOpenMessages_total b position : bytes_ok b ->
  exists r, parsePeerUpOpenMessages b position = Some r /\ match r with Ok (Some (_, _, p)) => position <= p | _ => True end.
Proof.
  intros Hb. unfold parsePeerUpOpenMessages. destruct (parseEmbedded_total b position Hb) as [[[e1|]|x] E1]; rewrite E1; cbn [bind_run]; [| by eexists..].
  apply parseEmbedded_length in E1. unfold BGP_HEAD_LEN in E1. cbn [mbind option_bind]. destruct (valid_open e1) as [o1|]; cbn [fmap option_fmap option_map]; [|by eexists].
  destruct (parseEmbedded_total b (position + e_length e1) Hb) as [[[e2|]|x] E2]; rewrite E2; cbn [bind_run]; [| by eexists..].
  apply parseEmbedded_length in E2. unfold BGP_HEAD_LEN in E2. cbn [mbind option_bind]. destruct (valid_open e2) as [o2|]; cbn [fmap option_fmap option_map]; [|by eexists].
  eexists. split; [done|]. cbn. lia.
Qed.

Lemma parse_reason_data_total b position reason : bytes_ok b ->
  exists r, parse_reason_data b position reason = Some r /\ match r with Ok (Some (_, _, p)) => position <= p | _ => True end.
Proof.
  intros Hb. unfold parse_reason_data. case_if.
  - destruct (parseEmbedded_total b position Hb) as [[[e|]|x] Ee]; rewrite Ee; cbn [bind_run]; [| by eexists..].
    apply parseEmbedded_length in Ee. unfold BGP_HEAD_LEN in Ee. case_if; eexists; (split; [done|]); cbn; lia.
  - case_if; [|eexists; split; [done|]; cbn; lia]. case_if; [|by eexists]. destruct (readUInt16BE b position); cbn [bind_run]; eexists; (split; [done|]); cbn; lia.
Qed.

Lemma parsePeerDownPayload_total b position reason version : bytes_ok b -> 0 <= position -> is_Some (parsePeerDownPayload b position reason version).
Proof.
  intros Hb Hp. unfold parsePeerDownPayload. destruct reason as [reason|]; [|by eexists]. case_if; [by eexists|].
  destruct (parse_reason_data_total b position reason Hb) as ([[[[valid code] p]|]|x] & -> & Hle); cbn [bind_run]; [|by eexists..].
  case_if; [|case_if; by eexists]. destruct (parseBmpTlvs_total b p false Hb) as [[r|x] ->]; [lia | |]; cbn [bind_run]; [destruct (warnings r)|]; by eexists.
Qed.

Module Examples.
(** A TLV, an enterprise TLV with its number, and the first byte of a third. *)
Lemma bmp_tlvs_grammar_witness :
  exists r, parseBmpTlvs [0; 1; 0; 2; 7; 8; 128; 2; 0; 5; 0; 0; 0; 1; 9; 0] 0 false = Some (Ok r) /\
    grammar false 0 (subarray_from [0; 1; 0; 2; 7; 8; 128; 2; 0; 5; 0; 0; 0; 1; 9; 0] 0) (tlvs r) (warnings r).
Proof. apply (bmp_tlvs_grammar false [0; 1; 0; 2; 7; 8; 128; 2; 0; 5; 0; 0; 0; 1; 9; 0] 0); [by repeat constructor | by vm_compute]. Defined.
End Examples.
