(* ===== verification/BmpPeer.v ===== *)
(** The BGP peers of a monitored router: worker/bmp/bmpBgpSession.js, the Peer Up and Peer Down
    messages of peers in worker/bmp/bmpSession.js, and the map of worker/bmp/identityFallbackMap.js.

    A peer keeps what its OPEN messages negotiated and a record for each of its RIB scopes (an
    address family in one of the four Adj-RIBs); the routes are in a database.  A scope has an
    epoch, and routes are stored with the epoch of their scope: when a scope becomes stale its epoch
    advances, and routes of older epochs are shown as stale and may be removed.  A router may announce
    the families of a peer in several Peer Up messages.

    Effects are the calls to the worker and the events sent to the main process.  The connection is one
    that the worker has admitted.  Texts of the log, the time of a stale mark and the object sent with an
    event are left out. *)

From stdpp Require Import base list numbers strings option.
From Stdlib Require Import ZArith Lia.
From S2P Require Import Prelude Actions NodePath JsText JsMap Utf8 Ipv6Text BgpPacket BgpUpdate BmpFrames BmpPacket.

Local Open Scope Z_scope.
Local Open Scope js_scope.

(** * Data *)

(** Without [AS_PATH], which the source keeps for compatibility only and never uses. *)
Inductive BMP_BGP_RIB_TYPE := PRE_ADJ_RIB_IN | ADJ_RIB_IN | ADJ_RIB_OUT_ | POST_ADJ_RIB_OUT.

#[export] Instance rib_type_eq_dec : EqDecision BMP_BGP_RIB_TYPE.
Proof. solve_decision. Defined.

Inductive BMP_SESSION_STATE := PEER_UP | PEER_DOWN.

#[export] Instance session_state_eq_dec : EqDecision BMP_SESSION_STATE.
Proof. solve_decision. Defined.

(** The key [afi|safi] of a family and the key [afi|safi|ribType] of a scope. *)
Definition family : Type := Z * Z.
Definition scope : Type := family * BMP_BGP_RIB_TYPE.

#[export] Instance family_eq_dec : EqDecision family.
Proof. unfold family. apply _. Defined.
#[export] Instance scope_eq_dec : EqDecision scope.
Proof. unfold scope. apply _. Defined.

Record summary := { active : Z; stale : Z; total : Z }.

Inductive stale_reason := PeerUpRefresh | PeerDownReason (reason : Z).

(** States of a scope in the database and the events that lead to them. *)
Inductive scope_state := Syncing | Stale | Ready.
Inductive scope_event := ScopeOpen | ScopeStale | ScopeEor.

(** The fields that a Peer Up sets from its header. *)
Record peer_info := { header : bmp_peer; effectiveFlags : Z; localIp : jsstring; localPort : Z; remotePort : Z }.

Record peer_session := {
  info : option peer_info;
  sessionState : option BMP_SESSION_STATE;
  peerUpTlvs : list tlv;
  peerDownTlvs : list tlv;
  vrfTableNames : list jsstring;
  peerDownReason : option Z;
  peerDownFsmEventCode : option Z;
  recvAddressFamilies : list family;
  sendAddressFamilies : list family;
  enabledAddressFamilies : list family;
  ribTypes : list BMP_BGP_RIB_TYPE;
  recvAddPathMap : jmap family Z;
  sendAddPathMap : jmap family Z;
  addPathReceiveMap : jmap family bool;
  addPathSendMap : jmap family bool;
  addPathMap : jmap family bool;
  peerUpAddressFamilyKeys : list family;
  routeScopes : list scope;
  routeSummaries : jmap scope summary;
  ribEpochMap : jmap scope Z;
  ribStaleMetadataMap : jmap scope (Z * stale_reason);
  persistenceScopeStateMap : jmap scope scope_state
}.

#[export] Instance rebuild_peer_session : Rebuild peer_session := fun r => {|
  info := info r; sessionState := sessionState r; peerUpTlvs := peerUpTlvs r; peerDownTlvs := peerDownTlvs r;
  vrfTableNames := vrfTableNames r; peerDownReason := peerDownReason r; peerDownFsmEventCode := peerDownFsmEventCode r;
  recvAddressFamilies := recvAddressFamilies r; sendAddressFamilies := sendAddressFamilies r;
  enabledAddressFamilies := enabledAddressFamilies r; ribTypes := ribTypes r; recvAddPathMap := recvAddPathMap r;
  sendAddPathMap := sendAddPathMap r; addPathReceiveMap := addPathReceiveMap r; addPathSendMap := addPathSendMap r;
  addPathMap := addPathMap r; peerUpAddressFamilyKeys := peerUpAddressFamilyKeys r; routeScopes := routeScopes r;
  routeSummaries := routeSummaries r; ribEpochMap := ribEpochMap r; ribStaleMetadataMap := ribStaleMetadataMap r;
  persistenceScopeStateMap := persistenceScopeStateMap r |}.

Definition new_peer_session : peer_session := {|
  info := None; sessionState := None; peerUpTlvs := []; peerDownTlvs := []; vrfTableNames := []; peerDownReason := None;
  peerDownFsmEventCode := None; recvAddressFamilies := []; sendAddressFamilies := []; enabledAddressFamilies := []; ribTypes := [];
  recvAddPathMap := []; sendAddPathMap := []; addPathReceiveMap := []; addPathSendMap := []; addPathMap := [];
  peerUpAddressFamilyKeys := []; routeScopes := []; routeSummaries := []; ribEpochMap := []; ribStaleMetadataMap := [];
  persistenceScopeStateMap := [] |}.

(** What marking a scope stale returns. *)
Record stale_update := { su_scope : scope; su_epoch : Z; su_changed : Z }.

Inductive peer_effect :=
| PersistScope (s : scope) (state : scope_state) (event : scope_event)
| PersistenceSweep
| RoutesStale (u : stale_update)
| SessionUpdate
| PurgeRoutes (reason : Z) (scopes : list (scope * Z)).

Definition peer_action : Type := action_of peer_session peer_effect.

(** * Sets

    A JavaScript [Set] is the list of its elements in the order of insertion. *)

Definition set_add {A} `{EqDecision A} (l : list A) (x : A) : list A := if bool_decide (x ∈ l) then l else l ++ [x].
Definition set_of {A} `{EqDecision A} (l : list A) : list A := fold_left set_add l [].

(** * bmpBgpSession.js *)

(** Routes the router receives from the peer, sends to it, or either. *)
Inductive path_direction := Receive | Send | Any.

Definition getAddPathEnabledForKey (p : peer_session) (key : family) (direction : path_direction) : bool :=
  let is_on m := bool_decide (jmap_get m key = Some true) in
  match direction with
  | Send => is_on (addPathSendMap p)
  | Any => is_on (addPathReceiveMap p) || is_on (addPathSendMap p) || is_on (addPathMap p)
  | Receive =>
    if jmap_has (addPathReceiveMap p) key then is_on (addPathReceiveMap p)
    else if jmap_has (addPathMap p) key then is_on (addPathMap p)
    else false
  end.

Definition hasAddressFamily (l : list family) (f : family) : bool := bool_decide (f ∈ l).

Definition hasAdvertisedAddressFamily (p : peer_session) (f : family) : bool :=
  hasAddressFamily (recvAddressFamilies p) f || hasAddressFamily (sendAddressFamilies p) f.

(** Whether ADD-PATH is on, and whether that is inferred from the unicast family. *)
Definition getAddPathReceiveInfo (p : peer_session) (f : family) (direction : path_direction) : bool * bool :=
  if getAddPathEnabledForKey p f direction then (true, false)
  else if (snd f =? SAFI_LABEL_UNICAST) && negb (hasAdvertisedAddressFamily p f)
          && getAddPathEnabledForKey p (fst f, SAFI_UNICAST) direction
  then (true, true)
  else (false, false).

Definition isAddPathReceiveEnabled (p : peer_session) (f : family) (direction : path_direction) : bool := fst (getAddPathReceiveInfo p f direction).

Definition makeKey (sessionType : Z) (sessionRd sessionIp : jsstring) (sessionAs : Z) (sessionRdRaw : option jsstring) : jsstring :=
  let rd := match sessionRdRaw with Some (c :: tl) => c :: tl | _ => sessionRd end in
  dec_digits sessionType ++ [124] ++ rd ++ [124] ++ sessionIp ++ [124] ++ dec_digits sessionAs.

Definition no_routes : summary := {| active := 0; stale := 0; total := 0 |}.

Definition ensureRouteTableSummary (s : scope) (p : peer_session) : peer_session :=
  if jmap_has (routeSummaries p) s then p else p <| routeSummaries := jmap_set (routeSummaries p) s no_routes |>.

Definition summary_of (p : peer_session) (s : scope) : summary := default no_routes (jmap_get (routeSummaries p) s).

Definition setRouteSummary (s : scope) (v : summary) (p : peer_session) : peer_session :=
  p <| routeSummaries := jmap_set (routeSummaries p) s {| active := Z.max 0 (active v); stale := Z.max 0 (stale v); total := Z.max 0 (total v) |} |>.

Definition getRouteSummary (p : peer_session) : summary :=
  fold_left (fun a v => {| active := active a + active v; stale := stale a + stale v; total := total a + total v |})
    (jmap_values (routeSummaries p)) no_routes.

Definition ensureRouteScope (s : scope) (p : peer_session) : peer_session :=
  if bool_decide (s ∈ routeScopes p) then p else p <| routeScopes := routeScopes p ++ [s] |>.

Definition getRouteScopeAddressFamilies (p : peer_session) : list family := set_of (map fst (routeScopes p)).

Definition epoch (p : peer_session) (s : scope) : Z := default 0 (jmap_get (ribEpochMap p) s).

(** [getRibEpoch] stores the epoch that it returns. *)
Definition getRibEpoch (s : scope) (p : peer_session) : peer_session :=
  if jmap_has (ribEpochMap p) s then p else p <| ribEpochMap := jmap_set (ribEpochMap p) s 0 |>.

Definition advanceRibEpoch (s : scope) (p : peer_session) : peer_session :=
  let p := getRibEpoch s p in p <| ribEpochMap := jmap_set (ribEpochMap p) s (epoch p s + 1) |>.

(** The body of [markRoutesStale] for one scope. *)
Definition markScopeStale (s : scope) (reason : stale_reason) (p : peer_session) : peer_session * stale_update :=
  let p := ensureRouteScope s p in
  let p := advanceRibEpoch s p in
  let staleEpoch := epoch p s in
  let p := ensureRouteTableSummary s p in
  let v := summary_of p s in
  let p := p <| routeSummaries := jmap_set (routeSummaries p) s {| active := 0; stale := total v; total := total v |} |> in
  (p <| ribStaleMetadataMap := jmap_set (ribStaleMetadataMap p) s (staleEpoch, reason) |>,
   {| su_scope := s; su_epoch := staleEpoch; su_changed := active v |}).

Definition targetRibTypes (p : peer_session) (f : family) (types : list BMP_BGP_RIB_TYPE) : list BMP_BGP_RIB_TYPE :=
  match types with
  | [] => map snd (List.filter (fun s => bool_decide (fst s = f)) (routeScopes p))
  | _ => types
  end.

Fixpoint markScopesStale (ss : list scope) (reason : stale_reason) (p : peer_session) : peer_session * list stale_update :=
  match ss with
  | [] => (p, [])
  | s :: tl =>
    let (p1, u) := markScopeStale s reason p in
    let (p2, us) := markScopesStale tl reason p1 in
    (p2, u :: us)
  end.

Definition markRoutesStale (f : family) (types : list BMP_BGP_RIB_TYPE) (reason : stale_reason) (p : peer_session) : peer_session * list stale_update :=
  markScopesStale (map (pair f) (targetRibTypes p f types)) reason p.

(** [closeSession] of the peer. *)
Definition closePeer (p : peer_session) : peer_session :=
  p <| routeScopes := [] |> <| routeSummaries := [] |> <| recvAddPathMap := [] |> <| sendAddPathMap := [] |>
    <| addPathReceiveMap := [] |> <| addPathSendMap := [] |> <| addPathMap := [] |> <| peerUpAddressFamilyKeys := [] |>
    <| ribEpochMap := [] |> <| ribStaleMetadataMap := [] |>.

(** * Peer Up, worker/bmp/bmpSession.js *)

(** ** Reading the message *)

Record peer_up := {
  up_header : bmp_peer;
  up_localAddress : jsstring;
  up_localPort : Z;
  up_remotePort : Z;
  up_sent : bgp_open;
  up_received : bgp_open;
  up_tlvs : list tlv;
  up_flags : Z
}.

(** The header and the addresses, of which every field is behind the previous one. *)
Definition parse_peer_up_header (message : buffer) : result (bmp_peer * jsstring * Z * Z) :=
  let flags := byte_at message 1 in
  let v6 := BIT_TEST flags (flag_value IPV6) in
  let rdBuffer := subarray message 2 (2 + BGP_RD_LEN) in
  let! rd := rdBufferToString rdBuffer in
  let! address := parse_address message 10 v6 in
  let! as_ := readUInt32BE message 26 in
  let routerId := ipv4BufferToString (subarray message 30 34) 32 in
  let! seconds := readUInt32BE message 34 in
  let! micros := readUInt32BE message 38 in
  let! localAddress := parse_address message 42 v6 in
  let! localPort := readUInt16BE message 58 in
  let! remotePort := readUInt16BE message 60 in
  Ok ({| peerType := byte_at message 0; peerFlags := flags; peerRd := rd; peerRdRaw := js "raw:" ++ hex_encode rdBuffer;
         peerAddress := address; peerAs := as_; peerRouterId := routerId; peerTimestamp := seconds;
         peerTimestampMicroseconds := micros; peerTimestampMs := toUnixTimestampMs seconds micros |},
      localAddress, localPort, remotePort).

(** [version === V4 && this.isBmpV4TlvDraft20() ? getEffectivePeerFlags(...) : flags] *)
Definition effective_flags (version : Z) (draft20 : bool) (flags : Z) (ts : list tlv) : Z :=
  if (version =? BMP_VERSION_V4) && draft20 then getEffectivePeerFlags flags ts else flags.

(** The part of [processPeerUpGlobal] that reads; [None] inside the result is its early return. *)
Definition read_peer_up (message : buffer) (version : Z) (draft20 : bool) : run (option peer_up) :=
  let? (h, localAddress, localPort, remotePort) := Some (parse_peer_up_header message) in
  let? opens := parsePeerUpOpenMessages message 62 in
  match opens with
  | None => Some (Ok None)
  | Some (sent, received, position) =>
    let? r := parseBmpTlvs message position false in
    match warnings r with
    | [] =>
      Some (Ok (Some {| up_header := h; up_localAddress := localAddress; up_localPort := localPort; up_remotePort := remotePort;
                        up_sent := sent; up_received := received; up_tlvs := tlvs r;
                        up_flags := effective_flags version draft20 (peerFlags h) (tlvs r) |}))
    | _ => Some (Ok None)
    end
  end.

(** ** What the OPEN messages say *)

Definition open_families (o : bgp_open) : list family :=
  omap (fun c => if cap_code c =? cap_code_value CAP_MULTIPROTOCOL
                 then match cap_value c with CapMultiprotocol afi safi => Some (afi, safi) | _ => None end
                 else None) (o_capabilities o).

Definition add_paths_of (c : bgp_capability) : list (Z * Z * Z) :=
  if cap_code c =? cap_code_value CAP_ADD_PATH then match cap_value c with CapAddPaths l => l | _ => [] end else [].

Definition open_add_paths (o : bgp_open) : jmap family Z :=
  fold_left (fun m ap => jmap_set m (fst ap) (snd ap)) (concat (map add_paths_of (o_capabilities o))) [].

Definition IPV4_UNICAST : family := (AFI_IPV4, SAFI_UNICAST).

(** [addImplicitBaseIpv4UnicastAddressFamily]: the received and the sent families. *)
Definition with_implicit_family (received sent : list family) : list family * list family :=
  match received, sent with
  | [], [] => ([IPV4_UNICAST], [IPV4_UNICAST])
  | _, _ => (received, sent)
  end.

Definition up_families (u : peer_up) : list family * list family :=
  with_implicit_family (open_families (up_received u)) (open_families (up_sent u)).

Definition up_enabled (u : peer_up) : list family :=
  let (received, sent) := up_families u in List.filter (fun f => bool_decide (f ∈ sent)) received.

(** [incomingAddressFamilyKeys] and [incomingCapabilityKeys] *)
Definition up_keys (u : peer_up) : list family := let (received, sent) := up_families u in set_of (received ++ sent).
Definition up_path_keys (u : peer_up) : list family :=
  set_of (jmap_keys (open_add_paths (up_received u)) ++ jmap_keys (open_add_paths (up_sent u))).
Definition up_capability_keys (u : peer_up) : list family :=
  set_of (up_keys u ++ jmap_keys (open_add_paths (up_received u)) ++ jmap_keys (open_add_paths (up_sent u))).

Definition canReceiveAddPath (mode : option Z) : bool :=
  bool_decide (mode = Some (add_path_value RECEIVE_ONLY)) || bool_decide (mode = Some (add_path_value SEND_RECEIVE)).
Definition canSendAddPath (mode : option Z) : bool :=
  bool_decide (mode = Some (add_path_value SEND_ONLY)) || bool_decide (mode = Some (add_path_value SEND_RECEIVE)).
Definition canRouterReceiveAddPath (remoteMode routerMode : option Z) : bool := canSendAddPath remoteMode && canReceiveAddPath routerMode.
Definition canRouterSendAddPath (remoteMode routerMode : option Z) : bool := canSendAddPath routerMode && canReceiveAddPath remoteMode.

Definition isVrfTableNameTlv (t : tlv) : bool :=
  negb (enterprise t) && (tlv_type t =? 3) && isTextTlvValue (value t).

(** Of TLVs without an index. *)
Definition decodeVrfTableNameTlvs (ts : list tlv) : list jsstring := map (fun t => utf8_decode (value t)) (List.filter isVrfTableNameTlv ts).

(** ** The peer *)

Definition mergeVrfTableNames (names : list jsstring) : peer_action :=
  assign (fun p => match names with
                   | [] => p
                   | _ => p <| vrfTableNames := fold_left (fun l n => if bool_decide (n = []) then l else set_add l n) names (set_of (vrfTableNames p)) |>
                   end).

Definition persistScopeState (s : scope) (state : scope_state) (event : scope_event) : peer_action :=
  assign (fun p => p <| persistenceScopeStateMap := jmap_set (persistenceScopeStateMap p) s state |>) ;;;
  emit (PersistScope s state event).

(** [markSessionRoutesStale] without a filter of RIBs: what was marked is passed on. *)
Fixpoint markSessionRoutesStale (fs : list family) (reason : stale_reason) (k : list stale_update -> peer_action) : peer_action :=
  match fs with
  | [] => k []
  | f :: tl => fun p =>
    let (p1, us) := markRoutesStale f [] reason p in
    (each us (fun u => persistScopeState (su_scope u) Stale ScopeStale) ;;;
     markSessionRoutesStale tl reason (fun us' => k (us ++ us'))) p1
  end.

Definition sendSessionStaleEvents (us : list stale_update) : peer_action := each us (fun u => emit (RoutesStale u)).

Definition clearSessionAddPathByAddressFamilies (fs : list family) : peer_action :=
  each fs (fun f => assign (fun p =>
    p <| recvAddPathMap := jmap_delete (recvAddPathMap p) f |> <| sendAddPathMap := jmap_delete (sendAddPathMap p) f |>
      <| addPathReceiveMap := jmap_delete (addPathReceiveMap p) f |> <| addPathSendMap := jmap_delete (addPathSendMap p) f |>
      <| addPathMap := jmap_delete (addPathMap p) f |>)).

(** [replaceAddressFamilies]: an item is its key. *)
Definition replace_item (source touched : list family) (acc : list family * list family) (item : family) : list family * list family :=
  let (next, replaced) := acc in
  if negb (bool_decide (item ∈ touched)) then (next ++ [item], replaced)
  else if bool_decide (item ∈ source) && negb (bool_decide (item ∈ replaced)) then (next ++ [item], set_add replaced item)
  else (next, replaced).

Definition replaceAddressFamilies (target source touched : list family) : list family :=
  match touched with
  | [] => target
  | _ =>
    let (next, replaced) := fold_left (replace_item source touched) target ([], []) in
    next ++ List.filter (fun item => bool_decide (item ∈ touched) && negb (bool_decide (item ∈ replaced))) (set_of source)
  end.

(** Families that are announced again while the peer is up start a new epoch. *)
Definition refresh_announced (u : peer_up) : peer_action :=
  this p =>
  if bool_decide (sessionState p = Some PEER_UP) then
    markSessionRoutesStale (List.filter (fun f => bool_decide (f ∈ peerUpAddressFamilyKeys p)) (up_keys u)) PeerUpRefresh sendSessionStaleEvents
  else
    assign (fun p =>
      p <| enabledAddressFamilies := [] |> <| recvAddressFamilies := [] |> <| sendAddressFamilies := [] |>
        <| recvAddPathMap := [] |> <| sendAddPathMap := [] |> <| addPathReceiveMap := [] |> <| addPathSendMap := [] |>
        <| addPathMap := [] |> <| peerUpAddressFamilyKeys := [] |>).

Definition replace_families (u : peer_up) : peer_action :=
  assign (fun p =>
    p <| enabledAddressFamilies := replaceAddressFamilies (enabledAddressFamilies p) (up_enabled u) (up_keys u) |>
      <| recvAddressFamilies := replaceAddressFamilies (recvAddressFamilies p) (fst (up_families u)) (up_keys u) |>
      <| sendAddressFamilies := replaceAddressFamilies (sendAddressFamilies p) (snd (up_families u)) (up_keys u) |>
      <| peerUpAddressFamilyKeys := fold_left set_add (up_keys u) (peerUpAddressFamilyKeys p) |>).

Definition set_path_key (u : peer_up) (key : family) : peer_action :=
  let recvMode := jmap_get (open_add_paths (up_received u)) key in
  let sendMode := jmap_get (open_add_paths (up_sent u)) key in
  let receive := canRouterReceiveAddPath recvMode sendMode in
  let send := canRouterSendAddPath recvMode sendMode in
  assign (fun p =>
    p <| addPathReceiveMap := jmap_set (addPathReceiveMap p) key receive |>
      <| addPathSendMap := jmap_set (addPathSendMap p) key send |>
      <| addPathMap := jmap_set (addPathMap p) key (receive || send) |>).

Definition set_modes (m modes : jmap family Z) : jmap family Z := fold_left (fun m e => jmap_set m (fst e) (snd e)) modes m.

Definition set_add_paths (u : peer_up) : peer_action :=
  each (up_path_keys u) (set_path_key u) ;;;
  assign (fun p =>
    p <| recvAddPathMap := set_modes (recvAddPathMap p) (open_add_paths (up_received u)) |>
      <| sendAddPathMap := set_modes (sendAddPathMap p) (open_add_paths (up_sent u)) |>).

Definition ALL_RIB_TYPES : list BMP_BGP_RIB_TYPE := [PRE_ADJ_RIB_IN; ADJ_RIB_IN; ADJ_RIB_OUT_; POST_ADJ_RIB_OUT].

Definition set_info (u : peer_up) : peer_action :=
  assign (fun p => p <| peerUpTlvs := up_tlvs u |>) ;;;
  mergeVrfTableNames (decodeVrfTableNameTlvs (up_tlvs u)) ;;;
  assign (fun p =>
    p <| ribTypes := fold_left set_add ALL_RIB_TYPES (ribTypes p) |>
      <| info := Some {| header := up_header u; effectiveFlags := up_flags u; localIp := up_localAddress u;
                         localPort := up_localPort u; remotePort := up_remotePort u |} |>
      <| sessionState := Some PEER_UP |>).

Definition open_scopes (u : peer_up) : peer_action :=
  each (set_of (up_enabled u)) (fun f =>
    this p => each (ribTypes p) (fun r =>
      assign (ensureRouteScope (f, r)) ;;;
      persistScopeState (f, r) Syncing ScopeOpen)).

(** [processPeerUpGlobal] from the place where the peer is known. *)
Definition peerUp (u : peer_up) : peer_action :=
  refresh_announced u ;;;
  clearSessionAddPathByAddressFamilies (up_capability_keys u) ;;;
  replace_families u ;;;
  set_add_paths u ;;;
  set_info u ;;;
  open_scopes u ;;;
  emit PersistenceSweep ;;;
  emit SessionUpdate.

(** * Peer Down and Route Monitoring *)

(** What [requestNotificationPeerRoutePurge] depends on outside the peer: whether the connection
    has its source key, and what the worker answers. *)
Record purge_env := { source_known : bool; worker_accepts : bool }.

(** [peerDownPayload.hasValidBgpNotification && this.requestNotificationPeerRoutePurge(...)], with
    the lines that depend on it. *)
Definition purge_or_mark (env : purge_env) (reason : Z) (valid : bool) (us : list stale_update) : peer_action :=
  let marked := sendSessionStaleEvents us ;;; emit PersistenceSweep in
  if valid && source_known env then
    match us with
    | [] => skip
    | _ =>
      emit (PurgeRoutes reason (map (fun u => (su_scope u, su_epoch u)) us)) ;;;
      if worker_accepts env then skip else marked
    end
  else marked.

(** [processPeerDownGlobal] from the place where the peer is known. *)
Definition peerDown (env : purge_env) (reason : Z) (d : peer_down) : peer_action :=
  assign (fun p => p <| peerDownReason := Some reason |> <| peerDownTlvs := down_tlvs d |> <| peerDownFsmEventCode := fsmEventCode d |>) ;;;
  this p =>
  markSessionRoutesStale (set_of (enabledAddressFamilies p ++ getRouteScopeAddressFamilies p)) (PeerDownReason reason) (fun us =>
    assign (fun p => p <| sessionState := Some PEER_DOWN |> <| peerUpAddressFamilyKeys := [] |>) ;;;
    purge_or_mark env reason (hasValidBgpNotification d) us) ;;;
  emit SessionUpdate.

(** [ensureBgpSessionRouteScope]: a route of a RIB scope was received. *)
Definition ensureBgpSessionRouteScope (s : scope) : peer_action :=
  this p =>
  let known := bool_decide (s ∈ routeScopes p) && hasAddressFamily (enabledAddressFamilies p) (fst s) && bool_decide (snd s ∈ ribTypes p) in
  assign (fun p => ensureRouteScope s
    (p <| enabledAddressFamilies := set_add (enabledAddressFamilies p) (fst s) |> <| ribTypes := set_add (ribTypes p) (snd s) |>)) ;;;
  if known then skip else emit SessionUpdate.

(** The End-of-RIB of some families, in the RIBs of the message. *)
Definition endOfRib (eorAddressFamilies : list family) (ribTypes : list BMP_BGP_RIB_TYPE) : peer_action :=
  if bool_decide (eorAddressFamilies = []) then skip
  else
    each eorAddressFamilies (fun family => each ribTypes (fun ribType => persistScopeState (family, ribType) Ready ScopeEor)) ;;;
    emit PersistenceSweep ;;; emit SessionUpdate.

(** * The peers of a connection *)

(** The key without the raw route distinguisher, as older keys were. *)
Definition legacy_key (p : peer_session) : jsstring :=
  match info p with
  | Some i => makeKey (peerType (header i)) (peerRd (header i)) (peerAddress (header i)) (peerAs (header i)) None
  | None => js "null|null|null|null"
  end.

(** [resolveFallbackKey]: the only entry with this legacy key. *)
Definition resolveFallbackKey (m : jmap jsstring peer_session) (key : jsstring) : option jsstring :=
  match List.filter (fun e => bool_decide (legacy_key (snd e) = key)) m with
  | [(k, _)] => Some k
  | _ => None
  end.

(** [get] of the map, with the key of the entry. *)
Definition fallback_get (m : jmap jsstring peer_session) (key : jsstring) : option (jsstring * peer_session) :=
  match jmap_get m key with
  | Some p => Some (key, p)
  | None => k ← resolveFallbackKey m key; p ← jmap_get m k; Some (k, p)
  end.

Record bmp_peers := { bgpSessionMap : jmap jsstring peer_session; draft20 : bool }.
#[export] Instance rebuild_bmp_peers : Rebuild bmp_peers := fun r => {| bgpSessionMap := bgpSessionMap r; draft20 := draft20 r |}.

Definition peer_key (h : bmp_peer) : jsstring := makeKey (peerType h) (peerRd h) (peerAddress h) (peerAs h) (Some (peerRdRaw h)).

(** A method of a peer of the map. *)
Definition on_peer (key : jsstring) (p : peer_session) (a : peer_action) : action_of bmp_peers (jsstring * peer_effect) := fun s =>
  let (p1, out) := a p in
  (s <| bgpSessionMap := jmap_set (bgpSessionMap s) key p1 |>, map (pair key) out).

(** An exception or an early return leaves everything as it was. *)
Definition processPeerUpGlobal (message : buffer) (version : Z) (s : bmp_peers) : option (bmp_peers * list (jsstring * peer_effect)) :=
  match read_peer_up message version (draft20 s) with
  | None => None
  | Some (Ok (Some u)) =>
    let key := peer_key (up_header u) in
    let '(k, p) := default (key, new_peer_session) (fallback_get (bgpSessionMap s) key) in
    Some (on_peer k p (peerUp u) s)
  | Some _ => Some (s, [])
  end.

Definition processPeerDownGlobal (env : purge_env) (message : buffer) (version : Z) (s : bmp_peers) : option (bmp_peers * list (jsstring * peer_effect)) :=
  match parsePeerHeader message 0 with
  | Ok (Some (h, position)) =>
    let reason := bget message position in
    match parsePeerDownPayload message (position + 1) reason version with
    | None => None
    | Some (Ok (Some d)) =>
      match fallback_get (bgpSessionMap s) (peer_key h), reason with
      | Some (k, p), Some reason => Some (on_peer k p (peerDown env reason d) s)
      | _, _ => Some (s, [])
      end
    | Some _ => Some (s, [])
    end
  | _ => Some (s, [])
  end.

(** ** RIBs *)

Definition getRibTypesByFlags (flags : Z) : BMP_BGP_RIB_TYPE :=
  if BIT_TEST flags (flag_value ADJ_RIB_OUT)
  then if BIT_TEST flags (flag_value POST_POLICY) then POST_ADJ_RIB_OUT else ADJ_RIB_OUT_
  else if BIT_TEST flags (flag_value POST_POLICY) then ADJ_RIB_IN else PRE_ADJ_RIB_IN.

Definition getAddPathParsingDirection (peerType peerFlags : Z) : path_direction :=
  if peerType =? peer_type_value LOCAL_RIB then Any
  else if BIT_TEST peerFlags (flag_value ADJ_RIB_OUT) then Send else Receive.

(** * Lemmas on sets and maps *)

Section Sets.
Context {A : Type} `{EqDecision A}.
Implicit Types (l : list A) (x y : A).

Lemma elem_of_set_add l x y : y ∈ set_add l x <-> y = x \/ y ∈ l.
Proof.
  unfold set_add. case_bool_decide; [naive_solver|]. rewrite list.elem_of_app, list_elem_of_singleton. naive_solver.
Qed.

Lemma NoDup_set_add l x : NoDup l -> NoDup (set_add l x).
Proof.
  intros Hl. unfold set_add. case_bool_decide; [done|]. apply list.NoDup_app. split; [done|]. split; [|apply NoDup_singleton].
  intros y Hy. rewrite list_elem_of_singleton. by intros ->.
Qed.

Lemma elem_of_set_fold l acc y : y ∈ fold_left set_add l acc <-> y ∈ acc \/ y ∈ l.
Proof.
  revert acc. induction l as [|x l IH]; intros acc; cbn [fold_left]; [rewrite elem_of_nil; naive_solver|].
  rewrite IH, elem_of_set_add, list.elem_of_cons. naive_solver.
Qed.

Lemma NoDup_set_fold l acc : NoDup acc -> NoDup (fold_left set_add l acc).
Proof. revert acc. induction l as [|x l IH]; intros acc Hacc; [done|]. apply IH. by apply NoDup_set_add. Qed.

Lemma elem_of_set_of l y : y ∈ set_of l <-> y ∈ l.
Proof. unfold set_of. rewrite elem_of_set_fold, elem_of_nil. naive_solver. Qed.

Lemma NoDup_set_of l : NoDup (set_of l).
Proof. apply NoDup_set_fold, NoDup_nil_2. Qed.

(** Adding elements that are not there yet. *)
Lemma set_fold_fresh l acc : (forall y, y ∈ l -> y ∉ acc) -> fold_left set_add l acc = acc ++ set_of l.
Proof.
  unfold set_of. assert (forall l acc pre, (forall y, y ∈ l -> y ∉ acc) -> fold_left set_add l (acc ++ pre) = acc ++ fold_left set_add l pre) as Hgen.
  { clear. intros l acc. induction l as [|x l IH]; intros pre Hf; [done|]. cbn [fold_left].
    assert (set_add (acc ++ pre) x = acc ++ set_add pre x) as ->.
    { unfold set_add. assert (x ∉ acc) by (apply Hf; left). rewrite (bool_decide_ext (x ∈ acc ++ pre) (x ∈ pre)) by (rewrite list.elem_of_app; naive_solver).
      case_bool_decide; [done | by rewrite app_assoc]. }
    apply IH. intros y Hy. apply Hf. by right. }
  intros Hf. pose proof (Hgen l acc [] Hf) as Hg. by rewrite app_nil_r in Hg.
Qed.

Lemma set_of_app l1 l2 : (forall y, y ∈ l2 -> y ∉ l1) -> set_of (l1 ++ l2) = set_of l1 ++ set_of l2.
Proof.
  intros Hf. unfold set_of at 1. rewrite fold_left_app. change (fold_left set_add l1 []) with (set_of l1). apply set_fold_fresh.
  intros y Hy. rewrite elem_of_set_of. by apply Hf.
Qed.
End Sets.

Section Maps.
Context {K V : Type} `{EqDecision K}.

Lemma get_fold_set (f : K -> V) ks (m : jmap K V) k :
  jmap_get (fold_left (fun m k => jmap_set m k (f k)) ks m) k = if bool_decide (k ∈ ks) then Some (f k) else jmap_get m k.
Proof.
  revert m. induction ks as [|k0 ks IH]; intros m; cbn [fold_left]; [by rewrite bool_decide_eq_false_2 by apply not_elem_of_nil|].
  rewrite IH, jmap_get_set. destruct (decide (k0 = k)) as [->|Hne].
  - rewrite (bool_decide_eq_true_2 (k ∈ k :: ks)) by left. by case_bool_decide.
  - rewrite (bool_decide_ext (k ∈ k0 :: ks) (k ∈ ks)) by (rewrite list.elem_of_cons; naive_solver). done.
Qed.

Lemma get_fold_delete ks (m : jmap K V) k : jmap_ok m ->
  jmap_get (fold_left jmap_delete ks m) k = if bool_decide (k ∈ ks) then None else jmap_get m k.
Proof.
  revert m. induction ks as [|k0 ks IH]; intros m Hm; cbn [fold_left]; [by rewrite bool_decide_eq_false_2 by apply not_elem_of_nil|].
  rewrite IH, jmap_get_delete by (done || by apply jmap_ok_delete). destruct (decide (k0 = k)) as [->|Hne].
  - rewrite (bool_decide_eq_true_2 (k ∈ k :: ks)) by left. by case_bool_decide.
  - rewrite (bool_decide_ext (k ∈ k0 :: ks) (k ∈ ks)) by (rewrite list.elem_of_cons; naive_solver). done.
Qed.

Lemma ok_fold_delete ks (m : jmap K V) : jmap_ok m -> jmap_ok (fold_left jmap_delete ks m).
Proof. revert m. induction ks as [|k0 ks IH]; intros m Hm; [done|]. apply IH. by apply jmap_ok_delete. Qed.

Lemma ok_fold_set {A} (g : A -> K) (f : A -> V) l (m : jmap K V) : jmap_ok m -> jmap_ok (fold_left (fun m x => jmap_set m (g x) (f x)) l m).
Proof. revert m. induction l as [|x l IH]; intros m Hm; [done|]. apply IH. by apply jmap_ok_set. Qed.

(** Entries of another map written over a map. *)
Lemma get_fold_entries (l m : jmap K V) k : jmap_ok l ->
  jmap_get (fold_left (fun m e => jmap_set m (fst e) (snd e)) l m) k = match jmap_get l k with Some v => Some v | None => jmap_get m k end.
Proof.
  revert m. induction l as [|[k0 v0] l IH]; intros m Hl; [done|]. unfold jmap_ok in Hl. cbn [jmap_keys map fst] in Hl. apply list.NoDup_cons in Hl as [Hk Hl].
  cbn [fold_left fst snd jmap_get]. rewrite IH by done. rewrite jmap_get_set. destruct (decide (k0 = k)) as [->|Hne]; [|done].
  apply jmap_get_None in Hk. by rewrite Hk.
Qed.

Lemma elem_of_keys (m : jmap K V) k : k ∈ jmap_keys m <-> is_Some (jmap_get m k).
Proof. rewrite <- not_eq_None_Some. rewrite jmap_get_None. destruct (decide (k ∈ jmap_keys m)); naive_solver. Qed.
End Maps.

Lemma each_assign {S E A} (g : A -> S -> S) (xs : list A) (s : S) : each (E := E) xs (fun x => assign (g x)) s = (fold_left (fun s x => g x s) xs s, []).
Proof.
  revert s. induction xs as [|x xs IH]; intros s; [done|]. cbn [each fold_left]. unfold seq_action, assign. fold (@assign S E). rewrite IH. done.
Qed.

(** * What a Peer Up leaves *)

(** The states of the peer after the parts of [peerUp]. *)
Definition cleared (fs : list family) (p : peer_session) : peer_session :=
  p <| recvAddPathMap := fold_left jmap_delete fs (recvAddPathMap p) |> <| sendAddPathMap := fold_left jmap_delete fs (sendAddPathMap p) |>
    <| addPathReceiveMap := fold_left jmap_delete fs (addPathReceiveMap p) |> <| addPathSendMap := fold_left jmap_delete fs (addPathSendMap p) |>
    <| addPathMap := fold_left jmap_delete fs (addPathMap p) |>.

Definition path_receive (u : peer_up) (key : family) : bool :=
  canRouterReceiveAddPath (jmap_get (open_add_paths (up_received u)) key) (jmap_get (open_add_paths (up_sent u)) key).
Definition path_send (u : peer_up) (key : family) : bool :=
  canRouterSendAddPath (jmap_get (open_add_paths (up_received u)) key) (jmap_get (open_add_paths (up_sent u)) key).

Definition with_paths (u : peer_up) (ks : list family) (p : peer_session) : peer_session :=
  p <| addPathReceiveMap := fold_left (fun m k => jmap_set m k (path_receive u k)) ks (addPathReceiveMap p) |>
    <| addPathSendMap := fold_left (fun m k => jmap_set m k (path_send u k)) ks (addPathSendMap p) |>
    <| addPathMap := fold_left (fun m k => jmap_set m k (path_receive u k || path_send u k)) ks (addPathMap p) |>.

Definition up_scopes (u : peer_up) (types : list BMP_BGP_RIB_TYPE) : list scope :=
  concat (map (fun f => map (pair f) types) (set_of (up_enabled u))).

Definition with_scopes (ss : list scope) (p : peer_session) : peer_session :=
  p <| routeScopes := fold_left set_add ss (routeScopes p) |>
    <| persistenceScopeStateMap := fold_left (fun m s => jmap_set m s Syncing) ss (persistenceScopeStateMap p) |>.

Lemma clear_eq fs p : clearSessionAddPathByAddressFamilies fs p = (cleared fs p, []).
Proof.
  unfold clearSessionAddPathByAddressFamilies. rewrite each_assign. f_equal. revert p. induction fs as [|f fs IH]; intros p; [by destruct p|].
  cbn [fold_left]. rewrite IH. by destruct p.
Qed.

Lemma paths_eq u ks p : each ks (set_path_key u) p = (with_paths u ks p, []).
Proof.
  unfold set_path_key. rewrite each_assign. f_equal. revert p. induction ks as [|k ks IH]; intros p; [by destruct p|].
  cbn [fold_left]. rewrite IH. by destruct p.
Qed.

Definition scope_effects (ss : list scope) : list peer_effect := map (fun s => PersistScope s Syncing ScopeOpen) ss.

Lemma ensure_persist_eq s p :
  (assign (ensureRouteScope s) ;;; persistScopeState s Syncing ScopeOpen) p = (with_scopes [s] p, scope_effects [s]).
Proof.
  unfold persistScopeState, seq_action, assign, emit, with_scopes, ensureRouteScope. cbn [fold_left]. unfold set_add. by case_bool_decide; destruct p.
Qed.

Lemma with_scopes_app a b p : with_scopes b (with_scopes a p) = with_scopes (a ++ b) p.
Proof. unfold with_scopes. rewrite !fold_left_app. by destruct p. Qed.

Lemma with_scopes_nil p : with_scopes [] p = p.
Proof. by destruct p. Qed.

Lemma ribTypes_with_scopes ss p : ribTypes (with_scopes ss p) = ribTypes p.
Proof. by destruct p. Qed.

Lemma scopes_of_family_eq f rs p :
  each rs (fun r => assign (ensureRouteScope (f, r)) ;;; persistScopeState (f, r) Syncing ScopeOpen) p = (with_scopes (map (pair f) rs) p, scope_effects (map (pair f) rs)).
Proof.
  revert p. induction rs as [|r rs IH]; intros p; [by rewrite with_scopes_nil|]. cbn [each map].
  erewrite seq_action_eq; [| apply ensure_persist_eq | apply IH]. by rewrite with_scopes_app.
Qed.

Lemma open_scopes_eq u p : open_scopes u p = (with_scopes (up_scopes u (ribTypes p)) p, scope_effects (up_scopes u (ribTypes p))).
Proof.
  unfold open_scopes, up_scopes. generalize (set_of (up_enabled u)) as fs. intros fs. remember (ribTypes p) as rs eqn:Hrs. revert p Hrs.
  induction fs as [|f fs IH]; intros p Hrs; [by rewrite with_scopes_nil|]. cbn [each map concat].
  erewrite seq_action_eq; [| unfold get_this; rewrite <- Hrs; apply scopes_of_family_eq | apply IH; by rewrite ribTypes_with_scopes].
  rewrite with_scopes_app. unfold scope_effects. by rewrite map_app.
Qed.

(** The peer after the part of [peerUp] that follows [refresh_announced]. *)
Definition upped (u : peer_up) (p : peer_session) : peer_session :=
  let c := cleared (up_capability_keys u) p in
  let types := fold_left set_add ALL_RIB_TYPES (ribTypes p) in {|
    info := Some {| header := up_header u; effectiveFlags := up_flags u; localIp := up_localAddress u;
                    localPort := up_localPort u; remotePort := up_remotePort u |};
    sessionState := Some PEER_UP;
    peerUpTlvs := up_tlvs u;
    peerDownTlvs := peerDownTlvs p;
    vrfTableNames := vrfTableNames (fst (mergeVrfTableNames (decodeVrfTableNameTlvs (up_tlvs u)) p));
    peerDownReason := peerDownReason p;
    peerDownFsmEventCode := peerDownFsmEventCode p;
    recvAddressFamilies := replaceAddressFamilies (recvAddressFamilies p) (fst (up_families u)) (up_keys u);
    sendAddressFamilies := replaceAddressFamilies (sendAddressFamilies p) (snd (up_families u)) (up_keys u);
    enabledAddressFamilies := replaceAddressFamilies (enabledAddressFamilies p) (up_enabled u) (up_keys u);
    ribTypes := types;
    recvAddPathMap := set_modes (recvAddPathMap c) (open_add_paths (up_received u));
    sendAddPathMap := set_modes (sendAddPathMap c) (open_add_paths (up_sent u));
    addPathReceiveMap := fold_left (fun m k => jmap_set m k (path_receive u k)) (up_path_keys u) (addPathReceiveMap c);
    addPathSendMap := fold_left (fun m k => jmap_set m k (path_send u k)) (up_path_keys u) (addPathSendMap c);
    addPathMap := fold_left (fun m k => jmap_set m k (path_receive u k || path_send u k)) (up_path_keys u) (addPathMap c);
    peerUpAddressFamilyKeys := fold_left set_add (up_keys u) (peerUpAddressFamilyKeys p);
    routeScopes := fold_left set_add (up_scopes u types) (routeScopes p);
    routeSummaries := routeSummaries p;
    ribEpochMap := ribEpochMap p;
    ribStaleMetadataMap := ribStaleMetadataMap p;
    persistenceScopeStateMap := fold_left (fun m s => jmap_set m s Syncing) (up_scopes u types) (persistenceScopeStateMap p)
  |}.

Lemma peerUp_eq u p p0 o : refresh_announced u p = (p0, o) ->
  exists o1, peerUp u p = (upped u p0, o ++ o1) /\ Forall (fun e => match e with RoutesStale _ | PurgeRoutes _ _ => False | _ => True end) o1.
Proof.
  intros Hr. set (c := cleared (up_capability_keys u) p0).
  set (p1 := fst (replace_families u c)). set (p2 := with_paths u (up_path_keys u) p1).
  set (p3 := p2 <| recvAddPathMap := set_modes (recvAddPathMap p2) (open_add_paths (up_received u)) |>
                <| sendAddPathMap := set_modes (sendAddPathMap p2) (open_add_paths (up_sent u)) |>).
  set (p4 := fst (set_info u p3)).
  exists (scope_effects (up_scopes u (ribTypes p4)) ++ [PersistenceSweep; SessionUpdate]).
  assert (set_add_paths u p1 = (p3, [])) as H3 by (unfold set_add_paths; erewrite seq_action_eq; [| apply paths_eq | reflexivity]; done).
  assert (set_info u p3 = (p4, [])) as H4.
  { unfold p4, set_info, mergeVrfTableNames, seq_action, assign. by destruct (decodeVrfTableNameTlvs (up_tlvs u)). }
  split.
  - unfold peerUp. erewrite seq_action_eq; [|exact Hr|]; [|eapply seq_action_eq; [apply clear_eq|]; eapply seq_action_eq; [reflexivity|];
      eapply seq_action_eq; [exact H3|]; eapply seq_action_eq; [exact H4|]; eapply seq_action_eq; [apply open_scopes_eq|]; reflexivity].
    f_equal. unfold p4, set_info, mergeVrfTableNames, seq_action, assign, upped. clear. destruct p0. by destruct (decodeVrfTableNameTlvs (up_tlvs u)).
  - apply Forall_app. split; [|by repeat constructor]. unfold scope_effects. apply Forall_map. by apply Forall_true.
Qed.

(** * The messages of peers *)

Lemma read_peer_up_total message version draft : bytes_ok message -> is_Some (read_peer_up message version draft).
Proof.
  intros Hb. unfold read_peer_up. destruct (parse_peer_up_header message) as [[[[h la] lp] rp]|x]; cbn [bind_run]; [|by eexists].
  destruct (parsePeerUpOpenMessages_total message 62 Hb) as ([[[[so ro] p]|]|x] & -> & Hp); cbn [bind_run]; [|by eexists..].
  destruct (parseBmpTlvs_total message p false Hb) as [[r|x] ->]; [lia | |]; cbn [bind_run]; [destruct (warnings r)|]; by eexists.
Qed.

(** C40: reading a Peer Up, a Peer Down or the counters of a Statistics Report ends for every message of bytes and every
    version, in every state of the connection: malformed lengths, OPEN messages and TLVs included. *)
Theorem bmp_peer_messages_end env message version s : bytes_ok message ->
  is_Some (processPeerUpGlobal message version s) /\ is_Some (processPeerDownGlobal env message version s) /\ is_Some (parseStatsRecords message 42).
Proof.
  intros Hb. split; [|split; [|by apply parseStatsRecords_total]].
  - unfold processPeerUpGlobal. destruct (read_peer_up_total message version (draft20 s) Hb) as [[[u|]|x] ->]; [|by eexists..].
    destruct (default _ _) as [k p]. by eexists.
  - unfold processPeerDownGlobal. destruct (parsePeerHeader message 0) as [[[h position]|]|x] eqn:Eh; [|by eexists..].
    assert (0 <= position) as Hp.
    { destruct (Z.leb_spec (0 + 42) (blen message)) as [Hl|Hl]; [|unfold parsePeerHeader in Eh; case_if; [done | bool_hyps; lia]].
      destruct (parsePeerHeader_ok message 0 Hb (Z.le_refl 0) Hl) as (h' & Eh' & _). rewrite Eh in Eh'. injection Eh' as _ ->. lia. }
    destruct (parsePeerDownPayload_total message (position + 1) (bget message position) version Hb) as [[[d|]|x] ->]; [lia | |by eexists..].
    destruct (fallback_get _ _) as [[k p]|]; [|by eexists]. destruct (bget message position); by eexists.
Qed.

Module Examples.
Definition header_bytes : buffer := [0; 0] ++ [0; 0; 253; 232; 0; 0; 0; 7] ++ repeat 0 12 ++ [192; 0; 2; 1] ++ [0; 0; 253; 233] ++ [10; 0; 0; 2] ++ repeat 0 8.
Lemma bmp_peer_messages_end_witness :
  is_Some (processPeerUpGlobal header_bytes 3 {| bgpSessionMap := []; draft20 := false |}) /\
  is_Some (processPeerDownGlobal {| source_known := true; worker_accepts := true |} header_bytes 3 {| bgpSessionMap := []; draft20 := false |}) /\
  is_Some (parseStatsRecords header_bytes 42).
Proof. apply (bmp_peer_messages_end {| source_known := true; worker_accepts := true |} header_bytes 3 {| bgpSessionMap := []; draft20 := false |}). by repeat constructor. Defined.
End Examples.
