(* ===== verification/BmpPeerProperties.v ===== *)
(** What the peers of a monitored router promise: a message reaches the peer that it is about, a Peer Up
    can be split over several messages, a Peer Down makes every route stale, and epochs only grow. *)

From stdpp Require Import base list numbers strings option.
From Stdlib Require Import ZArith Lia.
From S2P Require Import Prelude Actions NodePath JsText JsMap Utf8 Ipv6Text BgpPacket BgpUpdate BmpFrames BmpPacket BmpPeer.

Local Open Scope Z_scope.
Local Open Scope js_scope.

(** * The identity of a peer *)

Lemma hex_encode_lacks c b : bytes_ok b -> (forall x, hex_char x -> x <> c) -> lacks c (hex_encode b).
Proof.
  intros Hb Hc. induction Hb as [|x b [Hx1 Hx2] _ IH]; [constructor|].
  assert (hex_char (hex_digit (x / 16)) /\ hex_char (hex_digit (x mod 16))) as [] by (split; apply hex_digit_char; zdiv).
  unfold hex_encode. cbn [map concat app]. constructor; [by apply Hc|]. constructor; [by apply Hc | exact IH].
Qed.

Section Identity.
Variables (b : buffer) (offset : Z) (p : bmp_peer) (e : Z).
Hypotheses (Hb : bytes_ok b) (Ho : 0 <= offset) (Hp : parsePeerHeader b offset = Ok (Some (p, e))).

Lemma peer_header_fits : offset + 42 <= blen b.
Proof. clear Hb Ho. unfold parsePeerHeader in Hp. case_if; [done|]. bool_hyps. lia. Qed.

Definition key_parts : list jsstring :=
  [dec_digits (byte_at b offset); js "raw:" ++ hex_encode (subarray b (offset + 2) (offset + 10)); peerAddress p; dec_digits (read_field 4 b (offset + 26))].

Lemma peer_header_fields :
  peerType p = byte_at b offset /\ peerRdRaw p = js "raw:" ++ hex_encode (subarray b (offset + 2) (offset + 10)) /\
  (if byte_at b offset =? peer_type_value LOCAL_RIB then Ok LOC_RIB_ADDRESS
   else parse_address b (offset + 10) (BIT_TEST (byte_at b (offset + 1)) (flag_value IPV6))) = Ok (peerAddress p) /\
  peerAs p = read_field 4 b (offset + 26).
Proof.
  destruct (parsePeerHeader_ok b offset Hb Ho peer_header_fits) as (p' & Hp' & Ht & Hf & Hr & Ha & Hs). rewrite Hp in Hp'. injection Hp' as <- _.
  rewrite Ht, Hf in Ha. done.
Qed.

Lemma peer_key_text : peer_key p = join_with 124 key_parts.
Proof.
  destruct peer_header_fields as (Ht & Hr & _ & Hs). unfold peer_key, makeKey, key_parts. rewrite Ht, Hr, Hs. by rewrite <- ?app_assoc.
Qed.

Lemma key_parts_lack : Forall (lacks 124) key_parts.
Proof.
  pose proof peer_header_fits as Hl. destruct peer_header_fields as (_ & _ & Ha & _).
  apply list.Forall_cons; split; [| apply list.Forall_cons; split; [| apply list.Forall_cons; split; [| apply list.Forall_cons; split; [|constructor]]]].
  - apply dec_digits_lacks; [by apply byte_at_nonneg | done].
  - apply Forall_app. split; [by repeat constructor|]. apply hex_encode_lacks; [by apply bytes_ok_subarray|]. unfold hex_char. lia.
  - case_if; [injection Ha as <-; unfold LOC_RIB_ADDRESS; vm_compute; by repeat constructor|]. destruct (parse_address_ok b (offset + 10) (BIT_TEST (byte_at b (offset + 1)) (flag_value IPV6))) as (t & Et & Hc & _); [done | lia | lia |].
    rewrite Ha in Et. injection Et as <-. eapply Forall_impl; [|exact Hc]. unfold address_char, hex_char. lia.
  - apply dec_digits_lacks; [|done]. apply read_field_bound; [done | lia | lia].
Qed.
End Identity.

(** The fields of a per-peer header that say which peer it is; a Loc-RIB has no address. *)
Definition same_peer (b1 : buffer) (o1 : Z) (b2 : buffer) (o2 : Z) : Prop :=
  let v6 b o := BIT_TEST (byte_at b (o + 1)) (flag_value IPV6) in
  byte_at b1 o1 = byte_at b2 o2 /\
  subarray b1 (o1 + 2) (o1 + 10) = subarray b2 (o2 + 2) (o2 + 10) /\
  (byte_at b1 o1 = peer_type_value LOCAL_RIB \/
   v6 b1 o1 = v6 b2 o2 /\ address_bytes b1 (o1 + 10) (v6 b1 o1) = address_bytes b2 (o2 + 10) (v6 b2 o2)) /\
  read_field 4 b1 (o1 + 26) = read_field 4 b2 (o2 + 26).

(** C35: the keys of two per-peer headers are equal exactly when the headers have the same peer type, the same eight
    bytes of route distinguisher, the same AS number and, unless it is a Loc-RIB, the same address family flag and
    the same bytes of address, so no two peers share an entry of the map of peers. *)
Theorem bmp_peer_identity b1 o1 p1 e1 b2 o2 p2 e2 :
  bytes_ok b1 -> 0 <= o1 -> parsePeerHeader b1 o1 = Ok (Some (p1, e1)) ->
  bytes_ok b2 -> 0 <= o2 -> parsePeerHeader b2 o2 = Ok (Some (p2, e2)) ->
  peer_key p1 = peer_key p2 <-> same_peer b1 o1 b2 o2.
Proof.
  intros Hb1 Ho1 Hp1 Hb2 Ho2 Hp2.
  pose proof (peer_header_fits _ _ _ _ Hp1). pose proof (peer_header_fits _ _ _ _ Hp2).
  destruct (peer_header_fields _ _ _ _ Hb1 Ho1 Hp1) as (_ & _ & Ha1 & _). destruct (peer_header_fields _ _ _ _ Hb2 Ho2 Hp2) as (_ & _ & Ha2 & _).
  rewrite (peer_key_text _ _ _ _ Hb1 Ho1 Hp1), (peer_key_text _ _ _ _ Hb2 Ho2 Hp2). unfold same_peer. split.
  - intros Hk. apply (f_equal (split_on 124)) in Hk. rewrite !split_join in Hk; [| done | by eapply key_parts_lack | done | by eapply key_parts_lack].
    unfold key_parts in Hk. injection Hk as Ht Hr Ha Hs.
    apply dec_digits_inj in Ht; [| by apply byte_at_nonneg..]. apply dec_digits_inj in Hs; [| (apply read_field_bound; [done | lia | lia])..].
    apply hex_encode_inj in Hr; [| by apply bytes_ok_subarray..]. rewrite <- Ht, <- Ha in Ha2.
    split; [done|]. split; [done|]. split; [|done]. destruct (Z.eqb_spec (byte_at b1 o1) (peer_type_value LOCAL_RIB)); [by left|right].
    by apply (parse_address_inj _ _ _ _ _ _ (peerAddress p1)); try done; lia.
  - intros (Ht & Hr & Ha & Hs). assert (Ok (peerAddress p1) = Ok (peerAddress p2)) as He; [|injection He as He; unfold key_parts; by rewrite Ht, Hr, Hs, He].
    rewrite <- Ha1, <- Ha2, Ht in *. destruct (Z.eqb_spec (byte_at b2 o2) (peer_type_value LOCAL_RIB)); [done|]. destruct Ha as [Ha|[Hv Ha]]; [done|].
    rewrite Hv in *. unfold parse_address, address_bytes in *. destruct (BIT_TEST _ _); by rewrite Ha.
Qed.

(** * Capabilities of a Peer Up *)

Lemma elem_of_families u : forall f, f ∈ up_keys u <-> f ∈ fst (up_families u) \/ f ∈ snd (up_families u).
Proof. intros f. unfold up_keys. destruct (up_families u) as [r s]. by rewrite elem_of_set_of, list.elem_of_app. Qed.

Lemma elem_of_path_keys u k : k ∈ up_path_keys u <-> is_Some (jmap_get (open_add_paths (up_received u)) k) \/ is_Some (jmap_get (open_add_paths (up_sent u)) k).
Proof. unfold up_path_keys. by rewrite elem_of_set_of, list.elem_of_app, !elem_of_keys. Qed.

Lemma elem_of_capability_keys u k : k ∈ up_capability_keys u <-> k ∈ up_keys u \/ k ∈ up_path_keys u.
Proof.
  unfold up_capability_keys. rewrite elem_of_set_of, !list.elem_of_app. unfold up_path_keys. rewrite elem_of_set_of, list.elem_of_app. tauto.
Qed.

Lemma enabled_subset u f : f ∈ up_enabled u -> f ∈ fst (up_families u) /\ f ∈ snd (up_families u).
Proof.
  unfold up_enabled. destruct (up_families u) as [r s]. rewrite list_elem_of_In, filter_In, <- list_elem_of_In. intros [Hr Hs].
  split; [done | by apply bool_decide_eq_true in Hs].
Qed.

Lemma open_add_paths_ok o : jmap_ok (open_add_paths o).
Proof. apply (ok_fold_set fst snd). apply jmap_ok_nil. Qed.

(** Later entries win. *)
Lemma get_fold_pairs (l : list (Z * Z * Z)) (m : jmap family Z) k :
  jmap_get (fold_left (fun m ap => jmap_set m (fst ap) (snd ap)) l m) k =
  match jmap_get (fold_left (fun m ap => jmap_set m (fst ap) (snd ap)) l []) k with Some v => Some v | None => jmap_get m k end.
Proof.
  revert m. induction l as [|[k0 v0] l IH] using rev_ind; intros m; [done|]. rewrite !fold_left_app. cbn [fold_left fst snd].
  rewrite !jmap_get_set. case_decide; [done|]. apply IH.
Qed.

Lemma open_add_paths_join o o1 o2 k : o_capabilities o = o_capabilities o1 ++ o_capabilities o2 ->
  jmap_get (open_add_paths o) k = match jmap_get (open_add_paths o2) k with Some v => Some v | None => jmap_get (open_add_paths o1) k end.
Proof. intros Ho. unfold open_add_paths. rewrite Ho, map_app, concat_app, fold_left_app. apply get_fold_pairs. Qed.

Lemma open_families_join o o1 o2 : o_capabilities o = o_capabilities o1 ++ o_capabilities o2 -> open_families o = open_families o1 ++ open_families o2.
Proof. intros Ho. unfold open_families. by rewrite Ho, omap_app. Qed.

(** * Families and ADD-PATH after a Peer Up *)

Lemma replace_fresh target source touched : (forall f, f ∈ target -> f ∉ touched) -> (forall f, f ∈ source -> f ∈ touched) ->
  replaceAddressFamilies target source touched = target ++ set_of source.
Proof.
  intros Ht Hs. unfold replaceAddressFamilies. destruct touched as [|f0 fs].
  { destruct source as [|f source]; [by rewrite app_nil_r|]. exfalso. apply (not_elem_of_nil f), Hs. left. }
  revert Ht Hs. generalize (f0 :: fs) as touched. intros touched Ht Hs.
  assert (forall l pre, (forall f, f ∈ l -> f ∉ touched) -> fold_left (replace_item source touched) l (pre, []) = (pre ++ l, [])) as Hf.
  { clear. induction l as [|f l IH]; intros pre Hl; [by rewrite app_nil_r|]. cbn [fold_left]. unfold replace_item at 2.
    rewrite (bool_decide_eq_false_2 (f ∈ touched)) by (apply Hl; left). cbn [negb]. rewrite IH by (intros g Hg; apply Hl; by right). by rewrite <- app_assoc. }
  rewrite Hf by done. cbn [app]. f_equal.
  assert (forall l, (forall f, f ∈ l -> f ∈ touched) -> List.filter (fun item => bool_decide (item ∈ touched) && negb (bool_decide (item ∈ @nil family))) l = l) as Hk.
  { clear. induction l as [|f l IH]; intros Hl; [done|]. cbn [List.filter]. rewrite bool_decide_eq_true_2 by (apply Hl; left).
    rewrite bool_decide_eq_false_2 by apply not_elem_of_nil. cbn [andb negb]. f_equal. apply IH. intros g Hg. apply Hl. by right. }
  apply Hk. intros f. rewrite elem_of_set_of. apply Hs.
Qed.

Lemma get_set_modes u (m modes : jmap family Z) k : jmap_ok m -> jmap_ok modes ->
  jmap_get (set_modes (fold_left jmap_delete (up_capability_keys u) m) modes) k =
  match jmap_get modes k with Some v => Some v | None => if bool_decide (k ∈ up_capability_keys u) then None else jmap_get m k end.
Proof. intros Hm Hmodes. unfold set_modes. by rewrite get_fold_entries, get_fold_delete. Qed.

Lemma get_set_paths u (m : jmap family bool) (f : family -> bool) k : jmap_ok m ->
  jmap_get (fold_left (fun m k => jmap_set m k (f k)) (up_path_keys u) (fold_left jmap_delete (up_capability_keys u) m)) k =
  if bool_decide (k ∈ up_path_keys u) then Some (f k) else if bool_decide (k ∈ up_capability_keys u) then None else jmap_get m k.
Proof. intros Hm. by rewrite get_fold_set, get_fold_delete. Qed.

(** What a Peer Up clears in a peer that is not up. *)
Definition reset (p : peer_session) : peer_session :=
  p <| enabledAddressFamilies := [] |> <| recvAddressFamilies := [] |> <| sendAddressFamilies := [] |>
    <| recvAddPathMap := [] |> <| sendAddPathMap := [] |> <| addPathReceiveMap := [] |> <| addPathSendMap := [] |>
    <| addPathMap := [] |> <| peerUpAddressFamilyKeys := [] |>.

Lemma refresh_down u p : sessionState p <> Some PEER_UP -> refresh_announced u p = (reset p, []).
Proof. intros Hp. unfold refresh_announced, get_this. by rewrite bool_decide_eq_false_2. Qed.

Lemma refresh_fresh u p : sessionState p = Some PEER_UP -> (forall f, f ∈ up_keys u -> f ∉ peerUpAddressFamilyKeys p) -> refresh_announced u p = (p, []).
Proof.
  intros Hp Hf. unfold refresh_announced, get_this. rewrite bool_decide_eq_true_2 by done.
  assert (List.filter (fun f => bool_decide (f ∈ peerUpAddressFamilyKeys p)) (up_keys u) = []) as ->; [|done].
  revert Hf. generalize (up_keys u) as l. induction l as [|f l IH]; intros Hf; [done|]. cbn [List.filter]. rewrite bool_decide_eq_false_2 by (apply Hf; left).
  apply IH. intros g Hg. apply Hf. by right.
Qed.

(** A Peer Up of a peer that is not up. *)
Lemma peerUp_down u p : sessionState p <> Some PEER_UP -> fst (peerUp u p) = upped u (reset p).
Proof. intros Hp. by destruct (peerUp_eq u p _ _ (refresh_down u p Hp)) as (o1 & -> & _). Qed.

(** * A Peer Up in two messages *)

(** Two peers with the same families, modes, scopes and epochs; the orders of [peerUpAddressFamilyKeys] may differ. *)
Definition same_session (p q : peer_session) : Prop :=
  recvAddressFamilies p = recvAddressFamilies q /\ sendAddressFamilies p = sendAddressFamilies q /\
  enabledAddressFamilies p = enabledAddressFamilies q /\ ribTypes p = ribTypes q /\ routeScopes p = routeScopes q /\
  (forall k, jmap_get (recvAddPathMap p) k = jmap_get (recvAddPathMap q) k) /\
  (forall k, jmap_get (sendAddPathMap p) k = jmap_get (sendAddPathMap q) k) /\
  (forall k, jmap_get (addPathReceiveMap p) k = jmap_get (addPathReceiveMap q) k) /\
  (forall k, jmap_get (addPathSendMap p) k = jmap_get (addPathSendMap q) k) /\
  (forall k, jmap_get (addPathMap p) k = jmap_get (addPathMap q) k) /\
  (forall f, f ∈ peerUpAddressFamilyKeys p <-> f ∈ peerUpAddressFamilyKeys q) /\
  routeSummaries p = routeSummaries q /\ (forall s, epoch p s = epoch q s) /\ ribStaleMetadataMap p = ribStaleMetadataMap q /\
  persistenceScopeStateMap p = persistenceScopeStateMap q /\ sessionState p = sessionState q.

Section Split.
Variables (u u1 u2 : peer_up).

(** The capabilities of [u] are those of [u1] and those of [u2], which are about other families. *)
Record splits : Prop := {
  split_received : o_capabilities (up_received u) = o_capabilities (up_received u1) ++ o_capabilities (up_received u2);
  split_sent : o_capabilities (up_sent u) = o_capabilities (up_sent u1) ++ o_capabilities (up_sent u2);
  split_disjoint : forall f, f ∈ up_capability_keys u1 -> f ∉ up_capability_keys u2;
  split_some1 : open_families (up_received u1) ++ open_families (up_sent u1) <> [];
  split_some2 : open_families (up_received u2) ++ open_families (up_sent u2) <> []
}.
Hypothesis Hs : splits.

Lemma explicit_families v : open_families (up_received v) ++ open_families (up_sent v) <> [] ->
  up_families v = (open_families (up_received v), open_families (up_sent v)).
Proof. unfold up_families, with_implicit_family. destruct (open_families (up_received v)), (open_families (up_sent v)); done. Qed.

Lemma split_families : up_families u = (fst (up_families u1) ++ fst (up_families u2), snd (up_families u1) ++ snd (up_families u2)).
Proof.
  destruct Hs as [Hr Hse Hd H1 H2]. rewrite (explicit_families u1), (explicit_families u2) by done. cbn [fst snd].
  rewrite <- (open_families_join _ _ _ Hr), <- (open_families_join _ _ _ Hse). apply explicit_families.
  rewrite (open_families_join _ _ _ Hr). destruct (open_families (up_received u1)); [|done]. cbn [app] in *.
  rewrite (open_families_join _ _ _ Hse). destruct (open_families (up_sent u1)); [done|]. by destruct (open_families (up_received u2)).
Qed.

Lemma split_keys f : f ∈ up_keys u <-> f ∈ up_keys u1 \/ f ∈ up_keys u2.
Proof. rewrite !elem_of_families, split_families. cbn [fst snd]. rewrite !list.elem_of_app. tauto. Qed.

Lemma split_keys_apart f : f ∈ up_keys u1 -> f ∉ up_keys u2.
Proof. intros H1 H2. apply (split_disjoint Hs f); apply elem_of_capability_keys; by left. Qed.

Lemma split_received_mode k : jmap_get (open_add_paths (up_received u)) k =
  match jmap_get (open_add_paths (up_received u2)) k with Some v => Some v | None => jmap_get (open_add_paths (up_received u1)) k end.
Proof. apply open_add_paths_join, split_received, Hs. Qed.

Lemma split_sent_mode k : jmap_get (open_add_paths (up_sent u)) k =
  match jmap_get (open_add_paths (up_sent u2)) k with Some v => Some v | None => jmap_get (open_add_paths (up_sent u1)) k end.
Proof. apply open_add_paths_join, split_sent, Hs. Qed.

Lemma no_mode v k : k ∉ up_path_keys v -> jmap_get (open_add_paths (up_received v)) k = None /\ jmap_get (open_add_paths (up_sent v)) k = None.
Proof.
  rewrite elem_of_path_keys. intros Hk. split; apply eq_None_not_Some; tauto.
Qed.

Lemma split_path_keys k : k ∈ up_path_keys u <-> k ∈ up_path_keys u1 \/ k ∈ up_path_keys u2.
Proof.
  rewrite !elem_of_path_keys, split_received_mode, split_sent_mode. split.
  - intros [H|H]; [destruct (jmap_get (open_add_paths (up_received u2)) k) | destruct (jmap_get (open_add_paths (up_sent u2)) k)]; eauto 6.
  - intros [[H|H]|[H|H]]; [left; by case_match | right; by case_match | left; by destruct H as [? ->] | right; by destruct H as [? ->]].
Qed.

(** The modes of a family are those of the message that has it. *)
Lemma split_modes k :
  (k ∈ up_path_keys u2 -> path_receive u k = path_receive u2 k /\ path_send u k = path_send u2 k) /\
  (k ∉ up_path_keys u2 -> path_receive u k = path_receive u1 k /\ path_send u k = path_send u1 k).
Proof.
  unfold path_receive, path_send. rewrite split_received_mode, split_sent_mode. split.
  - intros H2. assert (k ∉ up_path_keys u1) as H1 by (intros H1; apply (split_disjoint Hs k); apply elem_of_capability_keys; by right).
    destruct (no_mode u1 k H1) as [-> ->]. by destruct (jmap_get (open_add_paths (up_received u2)) k), (jmap_get (open_add_paths (up_sent u2)) k).
  - intros H2. by destruct (no_mode u2 k H2) as [-> ->].
Qed.

Lemma split_enabled : up_enabled u = up_enabled u1 ++ up_enabled u2.
Proof.
  pose proof split_keys_apart as Hd. setoid_rewrite elem_of_families in Hd. unfold up_enabled. rewrite split_families.
  destruct (up_families u1) as [r1 s1], (up_families u2) as [r2 s2]. cbn [fst snd] in *. rewrite filter_app.
  f_equal; apply filter_ext_in; intros f Hf%list_elem_of_In; apply bool_decide_ext; rewrite list.elem_of_app; specialize (Hd f); tauto.
Qed.

(** A list of families of the message replaces the families of the message, twice or once. *)
Lemma split_replaced (g : peer_up -> list family) : g u = g u1 ++ g u2 -> (forall v f, f ∈ g v -> f ∈ up_keys v) ->
  replaceAddressFamilies (replaceAddressFamilies [] (g u1) (up_keys u1)) (g u2) (up_keys u2) = replaceAddressFamilies [] (g u) (up_keys u).
Proof.
  intros Hg Hsub. pose proof split_keys_apart as Hd. rewrite (replace_fresh [] (g u1)), (replace_fresh [] (g u)); try by intros f ?%elem_of_nil.
  2: intros f; apply Hsub. 2: intros f; apply Hsub.
  cbn [app]. rewrite replace_fresh.
  - rewrite Hg, set_of_app; [done|]. intros f H2 H1. by apply (Hd f); apply Hsub.
  - intros f. rewrite elem_of_set_of. intros H1. by apply Hd, Hsub.
  - intros f. apply Hsub.
Qed.

Lemma set_fold_members (l : list BMP_BGP_RIB_TYPE) acc : (forall x, x ∈ l -> x ∈ acc) -> fold_left set_add l acc = acc.
Proof.
  revert acc. induction l as [|x l IH]; intros acc Hl; [done|]. cbn [fold_left]. unfold set_add at 2. rewrite bool_decide_eq_true_2 by (apply Hl; left).
  apply IH. intros y Hy. apply Hl. by right.
Qed.

Lemma rib_types_again l : fold_left set_add ALL_RIB_TYPES (fold_left set_add ALL_RIB_TYPES l) = fold_left set_add ALL_RIB_TYPES l.
Proof. apply set_fold_members. intros x Hx. apply elem_of_set_fold. by right. Qed.

Lemma split_scopes types : up_scopes u types = up_scopes u1 types ++ up_scopes u2 types.
Proof.
  unfold up_scopes. rewrite split_enabled, set_of_app, map_app, concat_app; [done|].
  intros f [H2 _]%enabled_subset [H1 _]%enabled_subset. by apply (split_keys_apart f); apply elem_of_families; left.
Qed.

Lemma split_mode_map (modes : peer_up -> jmap family Z) k :
  (forall v, jmap_ok (modes v)) -> (forall v k, is_Some (jmap_get (modes v) k) -> k ∈ up_path_keys v) ->
  (forall k, jmap_get (modes u) k = match jmap_get (modes u2) k with Some v => Some v | None => jmap_get (modes u1) k end) ->
  jmap_get (set_modes (fold_left jmap_delete (up_capability_keys u2) (set_modes (fold_left jmap_delete (up_capability_keys u1) []) (modes u1))) (modes u2)) k =
  jmap_get (set_modes (fold_left jmap_delete (up_capability_keys u) []) (modes u)) k.
Proof.
  intros Hok Hk Hj. rewrite !get_set_modes; try done; try apply jmap_ok_nil; [| apply (ok_fold_set fst snd), ok_fold_delete, jmap_ok_nil].
  rewrite Hj. cbn [jmap_get]. destruct (jmap_get (modes u2) k) eqn:E2; [done|]. destruct (jmap_get (modes u1) k) eqn:E1.
  - rewrite bool_decide_eq_false_2; [done|]. apply (split_disjoint Hs). apply elem_of_capability_keys. right. apply Hk. by rewrite E1.
  - by repeat case_bool_decide.
Qed.

Lemma split_path_map (f : peer_up -> family -> bool) k :
  (k ∈ up_path_keys u2 -> f u k = f u2 k) -> (k ∉ up_path_keys u2 -> f u k = f u1 k) ->
  jmap_get (fold_left (fun m k => jmap_set m k (f u2 k)) (up_path_keys u2) (fold_left jmap_delete (up_capability_keys u2)
    (fold_left (fun m k => jmap_set m k (f u1 k)) (up_path_keys u1) (fold_left jmap_delete (up_capability_keys u1) [])))) k =
  jmap_get (fold_left (fun m k => jmap_set m k (f u k)) (up_path_keys u) (fold_left jmap_delete (up_capability_keys u) [])) k.
Proof.
  intros H2 H1. rewrite !get_set_paths; try apply jmap_ok_nil; [| apply (ok_fold_set (fun k => k)), ok_fold_delete, jmap_ok_nil].
  cbn [jmap_get]. pose proof (split_path_keys k) as Hp. pose proof (split_disjoint Hs k) as Hd. rewrite !elem_of_capability_keys in Hd.
  destruct (decide (k ∈ up_path_keys u2)) as [K2|K2].
  - rewrite !(bool_decide_eq_true_2 (k ∈ up_path_keys _)) by tauto. by rewrite H2.
  - rewrite (bool_decide_eq_false_2 (k ∈ up_path_keys u2)) by done. rewrite H1 by done. destruct (decide (k ∈ up_path_keys u1)) as [K1|K1].
    + rewrite !(bool_decide_eq_true_2 (k ∈ up_path_keys _)) by tauto. rewrite bool_decide_eq_false_2; [done|]. rewrite elem_of_capability_keys. tauto.
    + rewrite !(bool_decide_eq_false_2 (k ∈ up_path_keys _)) by tauto. by repeat case_bool_decide.
Qed.
End Split.

(** C30: a peer that comes up with its families and ADD-PATH capabilities in two Peer Up messages that are about
    different families ends as if one message had all of them - the same families in the same order, modes, scopes
    and epochs - and the second message makes no route stale. *)
Theorem bmp_split_peer_up u u1 u2 p : splits u u1 u2 -> sessionState p <> Some PEER_UP ->
  let (first, _) := peerUp u1 p in
  let (second, out) := peerUp u2 first in
  same_session second (fst (peerUp u p)) /\ (forall x, RoutesStale x ∉ out).
Proof.
  intros Hs Hp. rewrite (peerUp_down u p Hp). pose proof (peerUp_down u1 p Hp) as H1. destruct (peerUp u1 p) as [q o1]. cbn [fst] in H1. subst q.
  assert (refresh_announced u2 (upped u1 (reset p)) = (upped u1 (reset p), [])) as Hr.
  { apply refresh_fresh; [done|]. intros f H2. change (peerUpAddressFamilyKeys (upped u1 (reset p))) with (fold_left set_add (up_keys u1) []).
    fold (set_of (up_keys u1)). rewrite elem_of_set_of. intros H1. by apply (split_keys_apart u u1 u2 Hs f). }
  destruct (peerUp_eq u2 _ _ _ Hr) as (o2 & -> & Ho2). split; [|intros x Hx; by eapply list.Forall_forall in Ho2; [|exact Hx]]. clear Hr Ho2.
  repeat apply conj.
  - apply (split_replaced u u1 u2 Hs (fun v => fst (up_families v))); [by rewrite (split_families u u1 u2 Hs) | intros v f; rewrite elem_of_families; tauto].
  - apply (split_replaced u u1 u2 Hs (fun v => snd (up_families v))); [by rewrite (split_families u u1 u2 Hs) | intros v f; rewrite elem_of_families; tauto].
  - apply (split_replaced u u1 u2 Hs up_enabled); [by apply split_enabled | intros v f [H _]%enabled_subset; apply elem_of_families; by left].
  - apply rib_types_again.
  - unfold upped, reset. cbn [routeScopes ribTypes]. rewrite rib_types_again, (split_scopes u u1 u2 Hs), fold_left_app. done.
  - intros k. apply (split_mode_map u u1 u2 Hs (fun v => open_add_paths (up_received v))); [intros v; apply open_add_paths_ok | intros v k' H; apply elem_of_path_keys; by left | by apply split_received_mode].
  - intros k. apply (split_mode_map u u1 u2 Hs (fun v => open_add_paths (up_sent v))); [intros v; apply open_add_paths_ok | intros v k' H; apply elem_of_path_keys; by right | by apply split_sent_mode].
  - intros k. destruct (split_modes u u1 u2 Hs k) as [M2 M1]. apply (split_path_map u u1 u2 Hs path_receive); tauto.
  - intros k. destruct (split_modes u u1 u2 Hs k) as [M2 M1]. apply (split_path_map u u1 u2 Hs path_send); tauto.
  - intros k. destruct (split_modes u u1 u2 Hs k) as [M2 M1]. apply (split_path_map u u1 u2 Hs (fun v k => path_receive v k || path_send v k)); intros H; [destruct (M2 H) as [-> ->] | destruct (M1 H) as [-> ->]]; done.
  - intros f. change (f ∈ fold_left set_add (up_keys u2) (fold_left set_add (up_keys u1) []) <-> f ∈ fold_left set_add (up_keys u) []).
    rewrite !elem_of_set_fold, (split_keys u u1 u2 Hs). tauto.
  - done.
  - done.
  - done.
  - unfold upped, reset. cbn [persistenceScopeStateMap ribTypes]. rewrite rib_types_again, (split_scopes u u1 u2 Hs), fold_left_app. done.
  - done.
Qed.

(** * Scopes that become stale *)

Definition stale_mark (p : peer_session) (s : scope) : stale_update :=
  {| su_scope := s; su_epoch := epoch p s + 1; su_changed := active (summary_of p s) |}.

Definition stale_summary (v : summary) : summary := {| active := 0; stale := total v; total := total v |}.

(** Each scope of [ss] was made stale once. *)
Record staled (ss : list scope) (p p' : peer_session) : Prop := {
  staled_scopes : routeScopes p' = routeScopes p;
  staled_epoch : forall s, epoch p' s = epoch p s + if bool_decide (s ∈ ss) then 1 else 0;
  staled_summary : forall s, summary_of p' s = if bool_decide (s ∈ ss) then stale_summary (summary_of p s) else summary_of p s
}.

Lemma staled_nil p : staled [] p p.
Proof. split; [done| |]; intros s; rewrite bool_decide_eq_false_2 by apply not_elem_of_nil; [lia | done]. Qed.

Lemma staled_app ss1 ss2 p p1 p2 : staled ss1 p p1 -> staled ss2 p1 p2 -> (forall s, s ∈ ss1 -> s ∉ ss2) -> staled (ss1 ++ ss2) p p2.
Proof.
  intros [S1 E1 V1] [S2 E2 V2] Hd. split; [congruence| |]; intros s; [rewrite E2, E1 | rewrite V2, V1]; specialize (Hd s);
    rewrite (bool_decide_ext (s ∈ ss1 ++ ss2) (s ∈ ss1 \/ s ∈ ss2)) by apply list.elem_of_app; repeat case_bool_decide; (lia || naive_solver).
Qed.

Lemma stale_mark_other ss p p' s : staled ss p p' -> s ∉ ss -> stale_mark p' s = stale_mark p s.
Proof. intros [_ E V] Hs. unfold stale_mark. rewrite E, V. rewrite bool_decide_eq_false_2 by done. by rewrite Z.add_0_r. Qed.

Lemma epoch_getRibEpoch s p s' : epoch (getRibEpoch s p) s' = epoch p s'.
Proof.
  unfold getRibEpoch. destruct (jmap_has (ribEpochMap p) s) eqn:H; [done|]. apply jmap_has_false in H. unfold epoch. cbn. rewrite jmap_get_set. case_decide; [subst; by rewrite H | done].
Qed.

Lemma epoch_advance s p s' : epoch (advanceRibEpoch s p) s' = epoch p s' + if bool_decide (s' = s) then 1 else 0.
Proof.
  unfold advanceRibEpoch. unfold epoch at 1. cbn -[epoch getRibEpoch]. rewrite jmap_get_set. rewrite epoch_getRibEpoch. case_decide as Hs.
  - subst. by rewrite bool_decide_eq_true_2.
  - rewrite bool_decide_eq_false_2 by congruence. fold (epoch (getRibEpoch s p) s'). rewrite epoch_getRibEpoch. lia.
Qed.

Lemma summary_ensure s p s' : summary_of (ensureRouteTableSummary s p) s' = summary_of p s'.
Proof.
  unfold ensureRouteTableSummary. destruct (jmap_has (routeSummaries p) s) eqn:H; [done|]. apply jmap_has_false in H. unfold summary_of. cbn. rewrite jmap_get_set. case_decide; [subst; by rewrite H | done].
Qed.

(** [advanceRibEpoch] and [ensureRouteTableSummary] leave the rest of the peer. *)
Lemma advance_frame s p : routeScopes (advanceRibEpoch s p) = routeScopes p /\ routeSummaries (advanceRibEpoch s p) = routeSummaries p /\
  sessionState (advanceRibEpoch s p) = sessionState p.
Proof. unfold advanceRibEpoch, getRibEpoch. by case_if. Qed.

Lemma ensure_table_frame s p : routeScopes (ensureRouteTableSummary s p) = routeScopes p /\ ribEpochMap (ensureRouteTableSummary s p) = ribEpochMap p.
Proof. unfold ensureRouteTableSummary. by case_if. Qed.

Lemma ensure_scope_frame s p : epoch (ensureRouteScope s p) = epoch p /\ summary_of (ensureRouteScope s p) = summary_of p.
Proof. unfold ensureRouteScope. by case_if. Qed.

Lemma markScopeStale_fields s reason p :
  (forall s', epoch (fst (markScopeStale s reason p)) s' = epoch p s' + if bool_decide (s' = s) then 1 else 0) /\
  (forall s', summary_of (fst (markScopeStale s reason p)) s' = if bool_decide (s' = s) then stale_summary (summary_of p s) else summary_of p s') /\
  routeScopes (fst (markScopeStale s reason p)) = routeScopes (ensureRouteScope s p) /\
  snd (markScopeStale s reason p) = stale_mark p s.
Proof.
  unfold markScopeStale. cbn [fst snd]. destruct (ensure_scope_frame s p) as [Eq Vq]. set (q := ensureRouteScope s p) in *.
  destruct (advance_frame s q) as (A1 & A2 & _). pose proof (epoch_advance s q) as Ea. set (q1 := advanceRibEpoch s q) in *.
  destruct (ensure_table_frame s q1) as (T1 & T2). pose proof (summary_ensure s q1) as Va. set (q2 := ensureRouteTableSummary s q1) in *.
  assert (summary_of q1 = summary_of p) as Vp by (rewrite <- Vq; unfold summary_of; by rewrite A2). rewrite Vp in Va. rewrite Eq in Ea.
  assert (forall s', epoch q2 s' = epoch q1 s') as E2 by (intros s'; unfold epoch; by rewrite T2).
  split; [intros s'; rewrite <- Ea; exact (E2 s')|]. split; [|split].
  - intros s'. unfold summary_of at 1. cbn. rewrite jmap_get_set. rewrite Va. case_decide as Hs; [subst; by rewrite bool_decide_eq_true_2|].
    rewrite bool_decide_eq_false_2 by congruence. rewrite <- Va. done.
  - cbn. congruence.
  - unfold stale_mark. rewrite Va. f_equal. rewrite Ea. by rewrite bool_decide_eq_true_2.
Qed.

Lemma markScopeStale_ok s reason p : s ∈ routeScopes p ->
  exists p1, markScopeStale s reason p = (p1, stale_mark p s) /\ staled [s] p p1.
Proof.
  intros Hs. destruct (markScopeStale_fields s reason p) as (He & Hv & Hr & Hu). destruct (markScopeStale s reason p) as [p1 u]. cbn [fst snd] in *.
  subst u. exists p1. split; [done|]. split.
  - rewrite Hr. unfold ensureRouteScope. by rewrite bool_decide_eq_true_2.
  - intros s'. rewrite He. by rewrite (bool_decide_ext (s' ∈ [s]) (s' = s)) by apply list_elem_of_singleton.
  - intros s'. rewrite Hv. rewrite (bool_decide_ext (s' ∈ [s]) (s' = s)) by apply list_elem_of_singleton. case_bool_decide; by subst.
Qed.

Lemma markScopesStale_ok ss reason p : NoDup ss -> (forall s, s ∈ ss -> s ∈ routeScopes p) ->
  exists p1, markScopesStale ss reason p = (p1, map (stale_mark p) ss) /\ staled ss p p1.
Proof.
  revert p. induction ss as [|s ss IH]; intros p Hd Hin; [exists p; split; [done | apply staled_nil]|].
  apply list.NoDup_cons in Hd as [Hs Hd]. cbn [markScopesStale map]. destruct (markScopeStale_ok s reason p) as (p1 & -> & S1); [apply Hin; left|].
  destruct (IH p1 Hd) as (p2 & -> & S2). { intros s' Hs'. rewrite (staled_scopes _ _ _ S1). apply Hin. by right. }
  exists p2. split.
  - do 2 f_equal. apply map_ext_in. intros s' Hs'%list_elem_of_In. eapply stale_mark_other; [exact S1|]. rewrite list_elem_of_singleton. by intros ->.
  - change (s :: ss) with ([s] ++ ss). eapply staled_app; [done..|]. intros s' ->%list_elem_of_singleton. done.
Qed.

(** ** All scopes of some families *)

Definition scopes_in (p : peer_session) (f : family) : list scope := map (pair f) (targetRibTypes p f []).

Lemma scopes_in_filter p f : scopes_in p f = List.filter (fun s => bool_decide (fst s = f)) (routeScopes p).
Proof.
  unfold scopes_in, targetRibTypes. induction (routeScopes p) as [|[g t] l IH]; [done|]. cbn [List.filter fst].
  case_bool_decide; [cbn [map snd]; by rewrite IH, H | done].
Qed.

Lemma elem_of_scopes_in p f s : s ∈ scopes_in p f <-> s ∈ routeScopes p /\ fst s = f.
Proof. by rewrite scopes_in_filter, list_elem_of_In, filter_In, <- list_elem_of_In, bool_decide_eq_true. Qed.

Lemma NoDup_scopes_in p f : NoDup (routeScopes p) -> NoDup (scopes_in p f).
Proof. rewrite scopes_in_filter. intros H. apply NoDup_ListNoDup, List.NoDup_filter. by apply NoDup_ListNoDup. Qed.

Definition stale_scopes (fs : list family) (p : peer_session) : list scope := concat (map (scopes_in p) fs).

Lemma elem_of_stale_scopes fs p s : s ∈ stale_scopes fs p <-> s ∈ routeScopes p /\ fst s ∈ fs.
Proof.
  unfold stale_scopes. induction fs as [|f fs IH]; cbn [map concat]; [rewrite !elem_of_nil; tauto|].
  rewrite list.elem_of_app, IH, elem_of_scopes_in, list.elem_of_cons. tauto.
Qed.

Lemma NoDup_stale_scopes fs p : NoDup fs -> NoDup (routeScopes p) -> NoDup (stale_scopes fs p).
Proof.
  intros Hf Hn. induction Hf as [|f fs Hx _ IH]; [apply NoDup_nil_2|]. change (stale_scopes (f :: fs) p) with (scopes_in p f ++ stale_scopes fs p).
  apply list.NoDup_app. split; [by apply NoDup_scopes_in|]. split; [|done].
  intros s [_ Hs]%elem_of_scopes_in [_ Hs']%elem_of_stale_scopes. by subst.
Qed.

Definition stale_effects (ss : list scope) : list peer_effect := map (fun s => PersistScope s Stale ScopeStale) ss.

Lemma persist_stale_eq us p : exists p1, each us (fun u => persistScopeState (su_scope u) Stale ScopeStale) p = (p1, stale_effects (map su_scope us)) /\ staled [] p p1.
Proof.
  revert p. induction us as [|u us IH]; intros p; [exists p; split; [done | apply staled_nil]|]. cbn [each map].
  set (p0 := p <| persistenceScopeStateMap := jmap_set (persistenceScopeStateMap p) (su_scope u) Stale |>).
  destruct (IH p0) as (p1 & E1 & S1). exists p1. split; [|by destruct S1].
  eapply (seq_action_eq _ _ _ p0 [PersistScope (su_scope u) Stale ScopeStale]); [reflexivity | exact E1].
Qed.

Lemma stale_effects_app a b : stale_effects (a ++ b) = stale_effects a ++ stale_effects b.
Proof. apply map_app. Qed.

Lemma markSession_ok fs reason k p : NoDup fs -> NoDup (routeScopes p) ->
  exists p1, staled (stale_scopes fs p) p p1 /\
    markSessionRoutesStale fs reason k p = (fst (k (map (stale_mark p) (stale_scopes fs p)) p1), stale_effects (stale_scopes fs p) ++ snd (k (map (stale_mark p) (stale_scopes fs p)) p1)).
Proof.
  revert k p. induction fs as [|f fs IH]; intros k p Hf Hr.
  { exists p. split; [apply staled_nil|]. cbn [markSessionRoutesStale]. unfold stale_scopes. cbn. by destruct (k [] p). }
  apply list.NoDup_cons in Hf as [Hn Hf]. cbn [markSessionRoutesStale]. unfold markRoutesStale.
  destruct (markScopesStale_ok (scopes_in p f) reason p) as (p1 & E1 & S1); [by apply NoDup_scopes_in | intros s; rewrite elem_of_scopes_in; tauto|].
  unfold scopes_in in E1 at 1. rewrite E1. destruct (persist_stale_eq (map (stale_mark p) (scopes_in p f)) p1) as (p2 & E2 & S2).
  assert (staled (scopes_in p f) p p2) as S by (rewrite <- (app_nil_r (scopes_in p f)); eapply staled_app; [exact S1 | exact S2 | intros s _; apply not_elem_of_nil]).
  destruct (IH (fun us' => k (map (stale_mark p) (scopes_in p f) ++ us')) p2 Hf) as (p3 & S3 & E3); [by rewrite (staled_scopes _ _ _ S)|].
  assert (stale_scopes fs p2 = stale_scopes fs p) as Hsame.
  { unfold stale_scopes. f_equal. apply map_ext. intros g. rewrite !scopes_in_filter. by rewrite (staled_scopes _ _ _ S). }
  rewrite Hsame in *.
  assert (forall s, s ∈ scopes_in p f -> s ∉ stale_scopes fs p) as Hd.
  { intros s [_ Hs]%elem_of_scopes_in [_ Hs']%elem_of_stale_scopes. by subst. }
  assert (map (stale_mark p2) (stale_scopes fs p) = map (stale_mark p) (stale_scopes fs p)) as Hm.
  { apply map_ext_in. intros s Hs%list_elem_of_In. eapply stale_mark_other; [exact S|]. intros H. by apply (Hd s). }
  exists p3. split; [by eapply staled_app|]. change (stale_scopes (f :: fs) p) with (scopes_in p f ++ stale_scopes fs p).
  erewrite seq_action_eq; [| exact E2 | exact E3]. rewrite Hm, map_app, stale_effects_app, map_map. cbn [su_scope]. rewrite map_id, app_assoc. done.
Qed.

(** * What happens to a peer *)

Inductive peer_event :=
| PeerUpMessage (u : peer_up)
| PeerDownMessage (env : purge_env) (reason : Z) (d : peer_down)
| RouteReceived (s : scope)
| EndOfRibReceived (families : list family) (ribs : list BMP_BGP_RIB_TYPE)
| SummaryRead (s : scope) (v : summary).

(** A route is stored with the epoch of its scope. *)
Definition on_event (e : peer_event) : peer_action :=
  match e with
  | PeerUpMessage u => peerUp u
  | PeerDownMessage env reason d => peerDown env reason d
  | RouteReceived s => ensureBgpSessionRouteScope s ;;; assign (getRibEpoch s)
  | EndOfRibReceived families ribs => endOfRib families ribs
  | SummaryRead s v => assign (setRouteSummary s v)
  end.

Definition after (es : list peer_event) (p : peer_session) : peer_session := fold_left (fun p e => fst (on_event e p)) es p.

(** Scopes are listed once and epochs do not fall. *)
Definition grows (p p' : peer_session) : Prop := NoDup (routeScopes p) -> NoDup (routeScopes p') /\ forall s, epoch p s <= epoch p' s.

Lemma grows_trans p1 p2 p3 : grows p1 p2 -> grows p2 p3 -> grows p1 p3.
Proof. intros G1 G2 Hn. destruct (G1 Hn) as [N2 E2]. destruct (G2 N2) as [N3 E3]. split; [done|]. intros s. etrans; [apply E2 | apply E3]. Qed.

Lemma staled_grows ss p p' : staled ss p p' -> grows p p'.
Proof. intros [R E _] Hn. split; [by rewrite R|]. intros s. rewrite E. case_bool_decide; lia. Qed.

Lemma send_stale_eq us q : sendSessionStaleEvents us q = (q, map RoutesStale us).
Proof.
  unfold sendSessionStaleEvents. induction us as [|u us IH]; [done|]. cbn [each map]. by eapply (seq_action_eq _ _ _ q [RoutesStale u]).
Qed.

Lemma session_key_filter_nodup (f : family -> bool) l : NoDup l -> NoDup (List.filter f l).
Proof. intros Hl. apply NoDup_ListNoDup, List.NoDup_filter. by apply NoDup_ListNoDup. Qed.

Lemma refresh_grows u p : grows p (fst (refresh_announced u p)).
Proof.
  intros Hn. unfold refresh_announced, get_this. case_bool_decide as Hup; [|by split].
  destruct (markSession_ok (List.filter (fun f => bool_decide (f ∈ peerUpAddressFamilyKeys p)) (up_keys u)) PeerUpRefresh sendSessionStaleEvents p) as (p1 & S1 & ->); [|done|].
  - apply session_key_filter_nodup. unfold up_keys. destruct (up_families u). apply NoDup_set_of.
  - rewrite send_stale_eq. by apply (staled_grows _ _ _ S1).
Qed.

Lemma peerUp_grows u p : grows p (fst (peerUp u p)).
Proof.
  pose proof (refresh_grows u p) as Hg. destruct (refresh_announced u p) as [p0 o] eqn:E. destruct (peerUp_eq u p p0 o E) as (o1 & -> & _). cbn [fst] in *.
  eapply grows_trans; [exact Hg|]. intros Hn. split; [|done]. by apply NoDup_set_fold.
Qed.

(** What [processPeerDownGlobal] sends besides the stale marks. *)
Definition down_effects (env : purge_env) (reason : Z) (valid : bool) (us : list stale_update) : list peer_effect :=
  let marked := map RoutesStale us ++ [PersistenceSweep] in
  if valid && source_known env then
    match us with
    | [] => []
    | _ => PurgeRoutes reason (map (fun u => (su_scope u, su_epoch u)) us) :: (if worker_accepts env then [] else marked)
    end
  else marked.

Lemma purge_or_mark_eq env reason valid us q : purge_or_mark env reason valid us q = (q, down_effects env reason valid us).
Proof.
  assert ((sendSessionStaleEvents us ;;; emit PersistenceSweep) q = (q, map RoutesStale us ++ [PersistenceSweep])) as Hm
    by (by eapply seq_action_eq; [apply send_stale_eq|]).
  unfold purge_or_mark, down_effects. case_if; [|exact Hm]. destruct us as [|u us]; [done|]. destruct (worker_accepts env); [done|].
  by eapply (seq_action_eq _ _ _ q [_]).
Qed.

Lemma peerDown_ok env reason d p : NoDup (routeScopes p) ->
  exists ss p', ss ≡ₚ routeScopes p /\ staled ss p p' /\ sessionState p' = Some PEER_DOWN /\ peerUpAddressFamilyKeys p' = [] /\
    peerDown env reason d p = (p', stale_effects ss ++ down_effects env reason (hasValidBgpNotification d) (map (stale_mark p) ss) ++ [SessionUpdate]).
Proof.
  intros Hn. set (p0 := p <| peerDownReason := Some reason |> <| peerDownTlvs := down_tlvs d |> <| peerDownFsmEventCode := fsmEventCode d |>).
  set (fs := set_of (enabledAddressFamilies p0 ++ getRouteScopeAddressFamilies p0)).
  set (k := fun us => assign (fun p => p <| sessionState := Some PEER_DOWN |> <| peerUpAddressFamilyKeys := [] |>) ;;; purge_or_mark env reason (hasValidBgpNotification d) us).
  destruct (markSession_ok fs (PeerDownReason reason) k p0 (NoDup_set_of _) Hn) as (p1 & S1 & E1).
  assert (forall us q, k us q = (q <| sessionState := Some PEER_DOWN |> <| peerUpAddressFamilyKeys := [] |>, down_effects env reason (hasValidBgpNotification d) us)) as Hk.
  { intros us q. unfold k. by eapply (seq_action_eq _ _ _ (q <| sessionState := Some PEER_DOWN |> <| peerUpAddressFamilyKeys := [] |>) []); [|apply purge_or_mark_eq]. }
  rewrite Hk in E1. cbn [fst snd] in E1. set (p' := p1 <| sessionState := Some PEER_DOWN |> <| peerUpAddressFamilyKeys := [] |>) in *.
  exists (stale_scopes fs p0), p'. split; [|split; [|split; [done | split; [done|]]]].
  - apply NoDup_Permutation; [apply NoDup_stale_scopes; [apply NoDup_set_of | done] | done|]. intros s. rewrite elem_of_stale_scopes. split; [tauto|]. intros Hs.
    split; [done|]. apply elem_of_set_of, list.elem_of_app. right. apply elem_of_set_of. by apply (list_elem_of_fmap_2 fst).
  - by destruct S1.
  - unfold peerDown. rewrite app_assoc. change (?l ++ [SessionUpdate]) with ([] ++ (l ++ [SessionUpdate])).
    eapply seq_action_eq; [reflexivity|]. eapply seq_action_eq; [exact E1 | reflexivity].
Qed.

Lemma peerDown_grows env reason d p : grows p (fst (peerDown env reason d p)).
Proof.
  intros Hn. destruct (peerDown_ok env reason d p Hn) as (ss & p' & _ & S & _ & _ & ->). by apply (staled_grows _ _ _ S).
Qed.

(** The scope that a route leaves known. *)
Lemma on_route_received s p : fst (on_event (RouteReceived s) p) =
  getRibEpoch s (ensureRouteScope s (p <| enabledAddressFamilies := set_add (enabledAddressFamilies p) (fst s) |> <| ribTypes := set_add (ribTypes p) (snd s) |>)).
Proof.
  cbn [on_event]. unfold ensureBgpSessionRouteScope, seq_action, get_this, assign.
  by destruct (bool_decide (s ∈ routeScopes p) && hasAddressFamily (enabledAddressFamilies p) (fst s) && bool_decide (snd s ∈ ribTypes p)).
Qed.

Lemma endOfRib_grows fs rs p : grows p (fst (endOfRib fs rs p)).
Proof.
  assert (keeps (fun q => routeScopes q = routeScopes p /\ forall s, epoch q s = epoch p s) (fun _ => True) (endOfRib fs rs)) as Hk.
  { unfold endOfRib. case_bool_decide; [apply keeps_skip|]. apply keeps_seq; [|apply keeps_seq; by apply keeps_emit].
    apply keeps_each. intros f. apply keeps_each. intros t. apply keeps_seq; [by apply keeps_assign | by apply keeps_emit]. }
  destruct (Hk p) as [[H1 H2] _]; [done|]. intros Hn. split; [by rewrite H1|]. intros s. by rewrite H2.
Qed.

Lemma on_event_grows e p : grows p (fst (on_event e p)).
Proof.
  destruct e as [u|env reason d|s|fs rs|s v].
  - apply peerUp_grows.
  - apply peerDown_grows.
  - intros Hn. rewrite on_route_received. set (q := p <| enabledAddressFamilies := set_add (enabledAddressFamilies p) (fst s) |> <| ribTypes := set_add (ribTypes p) (snd s) |>).
    destruct (ensure_scope_frame s q) as [Eq _]. split.
    + unfold getRibEpoch. assert (NoDup (routeScopes (ensureRouteScope s q))) as H; [|by case_if].
      pose proof (NoDup_set_add (routeScopes q) s Hn) as H. unfold ensureRouteScope. unfold set_add in H. by case_bool_decide.
    + intros s'. rewrite epoch_getRibEpoch, Eq. done.
  - apply endOfRib_grows.
  - by intros Hn.
Qed.

Lemma after_grows es p : grows p (after es p).
Proof.
  revert p. induction es as [|e es IH]; intros p; [by intros Hn|]. eapply grows_trans; [apply on_event_grows | apply IH].
Qed.

(** The states of a peer since it was created. *)
Lemma after_nodup es : NoDup (routeScopes (after es new_peer_session)).
Proof. by destruct (after_grows es new_peer_session (NoDup_nil_2)). Qed.

(** C33: after any history of a peer, a Peer Down makes exactly the tracked scopes stale, each once and whatever
    family it is of: its epoch advances by one, its active routes become stale, and the database is told; the routes
    are then either asked to be removed below the new epochs (a valid NOTIFICATION of a known source that the worker
    takes on) or announced as stale. *)
Theorem bmp_peer_down es env reason d :
  let p := after es new_peer_session in
  exists ss p', ss ≡ₚ routeScopes p /\ staled ss p p' /\ sessionState p' = Some PEER_DOWN /\ peerUpAddressFamilyKeys p' = [] /\
    peerDown env reason d p = (p', stale_effects ss ++ down_effects env reason (hasValidBgpNotification d) (map (stale_mark p) ss) ++ [SessionUpdate]).
Proof. apply peerDown_ok, after_nodup. Qed.

(** C31: routes that a Peer Down asks to remove are those with an epoch below the one it names; every route stored
    before it has a smaller epoch than that, and no route stored later does, whatever happens to the peer. *)
Theorem bmp_purge_spares_new_routes before es env reason d r scopes s e later :
  let p0 := after before new_peer_session in
  let p := after es p0 in
  let (p', out) := peerDown env reason d p in
  PurgeRoutes r scopes ∈ out -> (s, e) ∈ scopes -> epoch p0 s < e <= epoch (after later p') s.
Proof.
  cbv zeta. set (p0 := after before new_peer_session). set (p := after es p0). assert (NoDup (routeScopes p0)) as Hn0 by apply after_nodup.
  destruct (after_grows es p0 Hn0) as [Hn Hb]. fold p in Hn, Hb.
  destruct (peerDown_ok env reason d p Hn) as (ss & p' & Hss & S & _ & _ & ->). intros Hout Hs.
  destruct (staled_grows _ _ _ S Hn) as [Hn' _]. destruct (after_grows later p' Hn') as [_ Hl].
  assert (scopes = map (fun s => (s, epoch p s + 1)) ss) as Hsc.
  { apply list.elem_of_app in Hout as [Hout|[Hout|Hout%list_elem_of_singleton]%list.elem_of_app]; [by apply list_elem_of_fmap in Hout as (? & ? & _)| |done].
    assert (forall us, PurgeRoutes r scopes ∉ map RoutesStale us ++ [PersistenceSweep]) as Hno.
    { intros us [(? & ? & _)%list_elem_of_fmap | ?%list_elem_of_singleton]%list.elem_of_app; done. }
    unfold down_effects in Hout. case_if; [|by apply Hno in Hout]. destruct ss as [|s0 ss]; [by apply elem_of_nil in Hout|]. cbn [map] in Hout.
    apply list.elem_of_cons in Hout as [[= _ ->]|Hout]; [cbn [map]; by rewrite map_map|]. destruct (worker_accepts env); [by apply elem_of_nil in Hout | by apply (Hno (stale_mark p s0 :: map (stale_mark p) ss)) in Hout]. }
  subst scopes. apply list_elem_of_fmap in Hs as (s' & [= <- ->] & Hin). split; [specialize (Hb s); lia|].
  etrans; [|apply Hl]. rewrite (staled_epoch _ _ _ S), bool_decide_eq_true_2 by done. lia.
Qed.

(** * ADD-PATH *)

(** What an OPEN says about receiving and sending several paths of a family. *)
Definition offers_receive (o : bgp_open) (f : family) : Prop := jmap_get (open_add_paths o) f = Some 1 \/ jmap_get (open_add_paths o) f = Some 3.
Definition offers_send (o : bgp_open) (f : family) : Prop := jmap_get (open_add_paths o) f = Some 2 \/ jmap_get (open_add_paths o) f = Some 3.

Lemma canReceive_iff o f : canReceiveAddPath (jmap_get (open_add_paths o) f) = true <-> offers_receive o f.
Proof. unfold canReceiveAddPath, offers_receive. by rewrite orb_true_iff, !bool_decide_eq_true. Qed.

Lemma canSend_iff o f : canSendAddPath (jmap_get (open_add_paths o) f) = true <-> offers_send o f.
Proof. unfold canSendAddPath, offers_send. by rewrite orb_true_iff, !bool_decide_eq_true. Qed.

Lemma path_receive_iff u f : path_receive u f = true <-> offers_send (up_received u) f /\ offers_receive (up_sent u) f.
Proof. unfold path_receive, canRouterReceiveAddPath. by rewrite andb_true_iff, canReceive_iff, canSend_iff. Qed.

Lemma path_send_iff u f : path_send u f = true <-> offers_send (up_sent u) f /\ offers_receive (up_received u) f.
Proof. unfold path_send, canRouterSendAddPath. by rewrite andb_true_iff, canReceive_iff, canSend_iff. Qed.

Lemma no_path u f : f ∉ up_path_keys u -> path_receive u f = false /\ path_send u f = false.
Proof. intros Hf. unfold path_receive, path_send. by destruct (no_mode u f Hf) as [-> ->]. Qed.

(** after a peer comes up, paths of a family carry identifiers in the routes that the router receives exactly if
    the peer's OPEN offers to send them and the router's to receive them, and in the routes that the router sends
    exactly in the reverse case; families without the capability have none. *)
Theorem bmp_add_path_direction u p f : sessionState p <> Some PEER_UP ->
  let q := fst (peerUp u p) in
  (getAddPathEnabledForKey q f Receive = true <-> offers_send (up_received u) f /\ offers_receive (up_sent u) f) /\
  (getAddPathEnabledForKey q f Send = true <-> offers_send (up_sent u) f /\ offers_receive (up_received u) f) /\
  getAddPathEnabledForKey q f Any = getAddPathEnabledForKey q f Receive || getAddPathEnabledForKey q f Send.
Proof.
  intros Hp. cbv zeta. rewrite (peerUp_down u p Hp), <- path_receive_iff, <- path_send_iff.
  assert (forall g : family -> bool,
    jmap_get (fold_left (fun m k => jmap_set m k (g k)) (up_path_keys u) (fold_left jmap_delete (up_capability_keys u) [])) f =
    if bool_decide (f ∈ up_path_keys u) then Some (g f) else None) as Hg.
  { intros g. rewrite get_set_paths by apply jmap_ok_nil. cbn [jmap_get]. by repeat case_bool_decide. }
  pose proof (no_path u f) as Hno.
  assert (jmap_get (addPathReceiveMap (upped u (reset p))) f = if bool_decide (f ∈ up_path_keys u) then Some (path_receive u f) else None) as ER by apply Hg.
  assert (jmap_get (addPathSendMap (upped u (reset p))) f = if bool_decide (f ∈ up_path_keys u) then Some (path_send u f) else None) as ES by apply Hg.
  assert (jmap_get (addPathMap (upped u (reset p))) f = if bool_decide (f ∈ up_path_keys u) then Some (path_receive u f || path_send u f) else None) as EA
    by apply (Hg (fun k => path_receive u k || path_send u k)).
  unfold getAddPathEnabledForKey, jmap_has. rewrite ER, ES, EA. case_bool_decide as Hk.
  - by destruct (path_receive u f), (path_send u f).
  - by destruct (Hno Hk) as [-> ->].
Qed.

Module Examples.
Import BmpPeer.Examples.

Definition capability (code : Z) (v : cap_info) : bgp_capability := {| cap_code := code; cap_length := 4; cap_value := v |}.
Definition open_of (l : list bgp_capability) : bgp_open :=
  {| o_version := 4; o_asn := 65000; o_holdTime := 180; o_routerId := js "10.0.0.1"; o_optParamLen := 0; o_capabilities := l |}.
Definition ipv4 : list bgp_capability := [capability 1 (CapMultiprotocol 1 1); capability 69 (CapAddPaths [((1, 1), 3)])].
Definition ipv6 : list bgp_capability := [capability 1 (CapMultiprotocol 2 1)].

Definition peer_header : bmp_peer :=
  match parsePeerHeader header_bytes 0 with Ok (Some (h, _)) => h | _ => {| peerType := 0; peerFlags := 0; peerRd := []; peerRdRaw := []; peerAddress := []; peerAs := 0;
    peerRouterId := []; peerTimestamp := 0; peerTimestampMicroseconds := 0; peerTimestampMs := None |} end.

Definition up (sent received : list bgp_capability) : peer_up :=
  {| up_header := peer_header; up_localAddress := js "192.0.2.2"; up_localPort := 179; up_remotePort := 40000; up_sent := open_of sent; up_received := open_of received;
     up_tlvs := []; up_flags := 0 |}.

Lemma bmp_peer_identity_witness : peer_key peer_header = peer_key peer_header <-> same_peer header_bytes 0 header_bytes 0.
Proof.
  apply (bmp_peer_identity header_bytes 0 peer_header 42 header_bytes 0 peer_header 42);
    [by repeat constructor | done | by vm_compute | by repeat constructor | done | by vm_compute].
Defined.

Lemma ipv4_ipv6_split : splits (up (ipv4 ++ ipv6) (ipv4 ++ ipv6)) (up ipv4 ipv4) (up ipv6 ipv6).
Proof.
  split; try done. intros f Hf. change (f ∈ [(1, 1)]) in Hf. change (f ∉ [(2, 1)]). apply list_elem_of_singleton in Hf as ->. by rewrite list_elem_of_singleton.
Qed.

Lemma bmp_split_peer_up_witness :
  let (first, _) := peerUp (up ipv4 ipv4) new_peer_session in
  let (second, out) := peerUp (up ipv6 ipv6) first in
  same_session second (fst (peerUp (up (ipv4 ++ ipv6) (ipv4 ++ ipv6)) new_peer_session)) /\ (forall x, RoutesStale x ∉ out).
Proof. apply (bmp_split_peer_up _ _ _ new_peer_session ipv4_ipv6_split). done. Defined.

Lemma bmp_add_path_direction_witness :
  let q := fst (peerUp (up ipv4 ipv4) new_peer_session) in
  (getAddPathEnabledForKey q (1, 1) Receive = true <-> offers_send (open_of ipv4) (1, 1) /\ offers_receive (open_of ipv4) (1, 1)) /\
  (getAddPathEnabledForKey q (1, 1) Send = true <-> offers_send (open_of ipv4) (1, 1) /\ offers_receive (open_of ipv4) (1, 1)) /\
  getAddPathEnabledForKey q (1, 1) Any = getAddPathEnabledForKey q (1, 1) Receive || getAddPathEnabledForKey q (1, 1) Send.
Proof. apply (bmp_add_path_direction (up ipv4 ipv4) new_peer_session (1, 1)). done. Defined.

Definition notification : peer_down := {| hasValidBgpNotification := true; fsmEventCode := None; down_tlvs := [] |}.

Lemma bmp_purge_spares_new_routes_witness :
  epoch new_peer_session ((1, 1), PRE_ADJ_RIB_IN) < 1 <=
  epoch (after [PeerUpMessage (up ipv4 ipv4)]
    (fst (peerDown {| source_known := true; worker_accepts := true |} 1 notification (after [PeerUpMessage (up ipv4 ipv4)] new_peer_session)))) ((1, 1), PRE_ADJ_RIB_IN).
Proof.
  pose proof (bmp_purge_spares_new_routes [] [PeerUpMessage (up ipv4 ipv4)] {| source_known := true; worker_accepts := true |} 1 notification 1
    [(((1, 1), PRE_ADJ_RIB_IN), 1); (((1, 1), ADJ_RIB_IN), 1); (((1, 1), ADJ_RIB_OUT_), 1); (((1, 1), POST_ADJ_RIB_OUT), 1)]
    ((1, 1), PRE_ADJ_RIB_IN) 1 [PeerUpMessage (up ipv4 ipv4)]) as H.
  cbv zeta in H. change (after [] new_peer_session) with new_peer_session in H.
  destruct (peerDown _ _ _ _) as [p' out] eqn:E. cbn [fst]. apply H; [|by left].
  vm_compute in E. injection E as _ <-. do 4 right. left.
Defined.
(** A whole Peer Up with two OPEN messages for IPv4 unicast, and a Peer Down with a NOTIFICATION. *)
Definition open_bytes : buffer :=
  repeat 255 16 ++ [0; 37; 1] ++ [4; 253; 232; 0; 180; 10; 0; 0; 1] ++ [8; 2; 6; 1; 4; 0; 1; 0; 1].
Definition peer_up_bytes : buffer := header_bytes ++ repeat 0 12 ++ [192; 0; 2; 2] ++ [0; 179] ++ [156; 64] ++ open_bytes ++ open_bytes.
Definition peer_down_bytes : buffer := header_bytes ++ [1] ++ repeat 255 16 ++ [0; 21; 3; 6; 2].
Definition no_peers : bmp_peers := {| bgpSessionMap := []; draft20 := false |}.
Definition unicast (t : BMP_BGP_RIB_TYPE) : scope := ((1, 1), t).

Example peer_goes_up_and_down :
  let env := {| source_known := true; worker_accepts := true |} in
  match processPeerUpGlobal peer_up_bytes 3 no_peers with
  | Some (s, out) =>
    map snd out = scope_effects (map unicast ALL_RIB_TYPES) ++ [PersistenceSweep; SessionUpdate] /\
    (snd <$> processPeerDownGlobal env peer_down_bytes 3 s) =
      Some (map (pair (peer_key peer_header)) (stale_effects (map unicast ALL_RIB_TYPES) ++ [PurgeRoutes 1 (map (fun t => (unicast t, 1)) ALL_RIB_TYPES); SessionUpdate]))
  | None => False
  end.
Proof. vm_compute. split; reflexivity. Qed.
End Examples.
