(* ===== verification/BmpBatch.v ===== *)
(** Batches of mutations on their way to the BMP database: [estimateMutationBytes] and
    [encodeBatchMutations] of worker/bmp/bmpPersistenceClient.js and the inverse
    [decodeBatchMutations] of worker/bmp/bmpPersistenceStore.js.

    A mutation refers to three descriptor objects, which many mutations of a batch share.  The
    encoding sends each descriptor once.  It finds descriptors by identity, so an object is an
    address here, and [heap] has the content of each address: the encoding does not change objects. *)

From stdpp Require Import base list numbers strings option.
From Stdlib Require Import ZArith Lia.
From S2P Require Import Prelude JsText JsMap Utf8.

Local Open Scope Z_scope.
Local Open Scope js_scope.

Section Batch.
(** The properties of objects that the code passes on without reading, and [JSON.stringify] of a
    descriptor, which throws for some. *)
Context {X : Type} `{EqDecision X}.

(** A property that is not a string is [None]; the id is empty if it is missing. *)
Record descriptor := {
  id : jsstring; keyJson : option jsstring; identityJson : option jsstring; sysName : option jsstring; sysDesc : option jsstring;
  metadata : bool; others : X
}.

#[export] Instance descriptor_eq_dec : EqDecision descriptor.
Proof. solve_decision. Defined.

Context (stringify : descriptor -> option jsstring) (heap : Z -> descriptor).

Record route_payload := {
  r_keyJson : option jsstring; r_identityJson : option jsstring; r_nlriJson : option jsstring; r_attrJson : option jsstring;
  r_routeJson : option jsstring; r_legacyRouteKey : option jsstring
}.

(** [statistics] is the JSON text of the report. *)
Record mutation := {
  source : option Z; connection : option Z; scope : option Z; route : option route_payload; statistics : option jsstring; rest : X
}.

(** * The size of a mutation *)

Definition MUTATION_BASE_BYTES : Z := 320.
Definition MUTATION_SCOPE_BYTES : Z := 256.
Definition MUTATION_ROUTE_BYTES : Z := 256.
Definition MUTATION_METADATA_BYTES : Z := 256.

Definition stringBytes (v : option jsstring) : Z := match v with Some t => blen t | None => 0 end.

Definition estimateMutationBytes (m : mutation) : Z :=
  let bytes := MUTATION_BASE_BYTES in
  let bytes := bytes + match heap <$> source m with
    | None => 0
    | Some s => stringBytes (keyJson s) + stringBytes (identityJson s) + (stringBytes (sysName s) + stringBytes (sysDesc s))
                + (if metadata s then MUTATION_METADATA_BYTES else 0)
    end in
  let bytes := bytes + match heap <$> scope m with
    | None => 0
    | Some s => MUTATION_SCOPE_BYTES + stringBytes (keyJson s) + stringBytes (identityJson s)
    end in
  let bytes := bytes + match route m with
    | None => 0
    | Some r => MUTATION_ROUTE_BYTES + stringBytes (r_keyJson r) + stringBytes (r_identityJson r) + stringBytes (r_nlriJson r)
                + stringBytes (r_attrJson r) + stringBytes (r_routeJson r) + stringBytes (r_legacyRouteKey r)
    end in
  bytes + match statistics m with None => 0 | Some t => blen (utf8_encode t) end.

Lemma stringBytes_nonneg v : 0 <= stringBytes v.
Proof. destruct v; cbn; [apply blen_nonneg | done]. Qed.

Lemma estimate_positive m : 0 < estimateMutationBytes m.
Proof.
  unfold estimateMutationBytes, MUTATION_BASE_BYTES, MUTATION_SCOPE_BYTES, MUTATION_ROUTE_BYTES, MUTATION_METADATA_BYTES.
  pose proof stringBytes_nonneg as Hs.
  assert (0 <= match statistics m with None => 0 | Some t => blen (utf8_encode t) end) by (destruct (statistics m); [apply blen_nonneg | done]).
  destruct (heap <$> source m) as [d|]; [pose proof (Hs (keyJson d)); pose proof (Hs (identityJson d)); pose proof (Hs (sysName d)); pose proof (Hs (sysDesc d)); destruct (metadata d)|];
    (destruct (heap <$> scope m) as [e|]; [pose proof (Hs (keyJson e)); pose proof (Hs (identityJson e))|]);
    (destruct (route m) as [r|]; [pose proof (Hs (r_keyJson r)); pose proof (Hs (r_identityJson r)); pose proof (Hs (r_nlriJson r)); pose proof (Hs (r_attrJson r));
       pose proof (Hs (r_routeJson r)); pose proof (Hs (r_legacyRouteKey r))|]); lia.
Qed.

(** * Encoding *)

Record interning := { table : list descriptor; index : jmap jsstring (list nat); objects : jmap Z nat }.

Definition no_interning : interning := {| table := []; index := []; objects := [] |}.

(** [positions?.find(candidate => isDeepStrictEqual(table[candidate], value))] *)
Definition find_position (positions : option (list nat)) (t : list descriptor) (v : descriptor) : option nat :=
  match positions with
  | None => None
  | Some l => List.find (fun candidate => bool_decide (t !! candidate = Some v)) l
  end.

(** A new entry of the table. *)
Definition push_descriptor (i : interning) (key : option jsstring) (v : descriptor) : interning :=
  let position := length (table i) in
  {| table := table i ++ [v];
     index := match key with
              | None => index i
              | Some k => jmap_set (index i) k (default [] (jmap_get (index i) k) ++ [position])
              end;
     objects := objects i |}.

Definition intern (i : interning) (value : Z) : interning * nat :=
  match jmap_get (objects i) value with
  | Some existing => (i, existing)
  | None =>
    let v := heap value in
    let key := stringify v in
    let positions := match key with None => None | Some k => jmap_get (index i) k end in
    let (i1, position) := match find_position positions (table i) v with
                          | Some position => (i, position)
                          | None => (push_descriptor i key v, length (table i))
                          end in
    ({| table := table i1; index := index i1; objects := jmap_set (objects i1) value position |}, position)
  end.

(** A mutation as it is sent: a descriptor is in place or a position. *)
Record wire_mutation := {
  w_source : option descriptor; w_sourceRef : option nat;
  w_connection : option descriptor; w_connectionRef : option nat;
  w_scope : option descriptor; w_scopeRef : option nat;
  w_route : option route_payload; w_statistics : option jsstring; w_rest : X
}.

Record batch_refs := { sources : list descriptor; connections : list descriptor; scopes : list descriptor }.

(** The lines for one of the three descriptors. *)
Definition encode_descriptor (i : interning) (value : option Z) : interning * option descriptor * option nat :=
  match value with
  | Some a =>
    if bool_decide (id (heap a) = []) then (i, Some (heap a), None)
    else let (i1, position) := intern i a in (i1, None, Some position)
  | None => (i, None, None)
  end.

Definition encoder : Type := interning * interning * interning.

Definition encode_mutation (e : encoder) (m : mutation) : encoder * wire_mutation :=
  let '(i1, i2, i3) := e in
  let '(i1, s, sr) := encode_descriptor i1 (source m) in
  let '(i2, c, cr) := encode_descriptor i2 (connection m) in
  let '(i3, o, or) := encode_descriptor i3 (scope m) in
  ((i1, i2, i3), {| w_source := s; w_sourceRef := sr; w_connection := c; w_connectionRef := cr; w_scope := o; w_scopeRef := or;
                    w_route := route m; w_statistics := statistics m; w_rest := rest m |}).

Fixpoint encode_mutations (e : encoder) (ms : list mutation) : encoder * list wire_mutation :=
  match ms with
  | [] => (e, [])
  | m :: tl =>
    let (e1, w) := encode_mutation e m in
    let (e2, ws) := encode_mutations e1 tl in
    (e2, w :: ws)
  end.

Definition encodeBatchMutations (ms : list mutation) : list wire_mutation * batch_refs :=
  let '(i1, i2, i3, ws) := encode_mutations (no_interning, no_interning, no_interning) ms in
  (ws, {| sources := table i1; connections := table i2; scopes := table i3 |}).

(** * Decoding *)

(** A mutation with the content of its descriptors. *)
Record plain_mutation := {
  p_source : option descriptor; p_connection : option descriptor; p_scope : option descriptor;
  p_route : option route_payload; p_statistics : option jsstring; p_rest : X
}.

Definition plain (m : mutation) : plain_mutation :=
  {| p_source := heap <$> source m; p_connection := heap <$> connection m; p_scope := heap <$> scope m;
     p_route := route m; p_statistics := statistics m; p_rest := rest m |}.

Definition decode_descriptor (refs : list descriptor) (v : option descriptor) (ref : option nat) : option descriptor :=
  match ref with Some n => refs !! n | None => v end.

Definition decode_mutation (refs : batch_refs) (w : wire_mutation) : plain_mutation :=
  {| p_source := decode_descriptor (sources refs) (w_source w) (w_sourceRef w);
     p_connection := decode_descriptor (connections refs) (w_connection w) (w_connectionRef w);
     p_scope := decode_descriptor (scopes refs) (w_scope w) (w_scopeRef w);
     p_route := w_route w; p_statistics := w_statistics w; p_rest := w_rest w |}.

Definition decodeBatchMutations (b : list wire_mutation * batch_refs) : list plain_mutation := map (decode_mutation (snd b)) (fst b).

(** * Round trip *)

Definition interning_ok (i : interning) : Prop := forall a n, jmap_get (objects i) a = Some n -> table i !! n = Some (heap a).

(** A table only grows. *)
Definition extends (i i' : interning) : Prop := table i `prefix_of` table i'.

Lemma intern_ok i a i1 n : interning_ok i -> intern i a = (i1, n) -> interning_ok i1 /\ extends i i1 /\ table i1 !! n = Some (heap a).
Proof.
  intros Hi. unfold intern. destruct (jmap_get (objects i) a) as [n0|] eqn:Ea; [intros [= <- <-]; split; [done|]; split; [by exists []; rewrite app_nil_r | by apply Hi]|].
  destruct (find_position _ (table i) (heap a)) as [n0|] eqn:Ef; intros [= <- <-].
  - assert (table i !! n0 = Some (heap a)) as Hn.
    { unfold find_position in Ef. destruct (match stringify (heap a) with None => None | Some k => jmap_get (index i) k end); [|done].
      apply find_some in Ef as [_ Hf]. by apply bool_decide_eq_true in Hf. }
    split; [|split; [by exists []; rewrite app_nil_r | done]].
    intros b m. cbn [objects table]. rewrite jmap_get_set. case_decide; [intros [= <-]; by subst | apply Hi].
  - assert ((table i ++ [heap a]) !! length (table i) = Some (heap a)) as Hn by (by rewrite lookup_app_r, Nat.sub_diag by lia).
    split; [|split; [by eexists | done]].
    intros b m. cbn [objects table push_descriptor]. rewrite jmap_get_set. case_decide; [intros [= <-]; by subst|].
    intros Hb%Hi. by apply lookup_app_l_Some.
Qed.

Lemma encode_descriptor_ok i v i1 d r : interning_ok i -> encode_descriptor i v = (i1, d, r) ->
  interning_ok i1 /\ extends i i1 /\ forall refs, table i1 `prefix_of` refs -> decode_descriptor refs d r = heap <$> v.
Proof.
  intros Hi. unfold encode_descriptor. destruct v as [a|]; [|intros [= <- <- <-]; split; [done|]; split; [by exists []; rewrite app_nil_r | done]].
  case_bool_decide; [intros [= <- <- <-]; split; [done|]; split; [by exists []; rewrite app_nil_r | done]|].
  destruct (intern i a) as [i2 n] eqn:En. intros [= <- <- <-]. destruct (intern_ok _ _ _ _ Hi En) as (H1 & H2 & H3). split; [done|]. split; [done|].
  intros refs [tl ->]. cbn. by apply lookup_app_l_Some.
Qed.

Definition encoder_ok (e : encoder) : Prop := let '(i1, i2, i3) := e in interning_ok i1 /\ interning_ok i2 /\ interning_ok i3.

Definition tables_in (e : encoder) (refs : batch_refs) : Prop :=
  let '(i1, i2, i3) := e in table i1 `prefix_of` sources refs /\ table i2 `prefix_of` connections refs /\ table i3 `prefix_of` scopes refs.

Definition refs_of (e : encoder) : batch_refs := let '(i1, i2, i3) := e in {| sources := table i1; connections := table i2; scopes := table i3 |}.

Lemma encode_mutation_ok e m e1 w : encoder_ok e -> encode_mutation e m = (e1, w) ->
  encoder_ok e1 /\ forall refs, tables_in e1 refs -> tables_in e refs /\ decode_mutation refs w = plain m.
Proof.
  destruct e as [[i1 i2] i3]. intros (H1 & H2 & H3). unfold encode_mutation.
  destruct (encode_descriptor i1 (source m)) as [[j1 s] sr] eqn:E1. destruct (encode_descriptor i2 (connection m)) as [[j2 c] cr] eqn:E2.
  destruct (encode_descriptor i3 (scope m)) as [[j3 o] or] eqn:E3. intros [= <- <-].
  destruct (encode_descriptor_ok _ _ _ _ _ H1 E1) as (K1 & X1 & D1). destruct (encode_descriptor_ok _ _ _ _ _ H2 E2) as (K2 & X2 & D2).
  destruct (encode_descriptor_ok _ _ _ _ _ H3 E3) as (K3 & X3 & D3). split; [done|]. intros refs (T1 & T2 & T3).
  split; [split; [by etrans|]; split; by etrans|]. unfold decode_mutation, plain. cbn. by rewrite D1, D2, D3.
Qed.

Lemma encode_mutations_ok ms : forall e e1 ws, encoder_ok e -> encode_mutations e ms = (e1, ws) ->
  encoder_ok e1 /\ forall refs, tables_in e1 refs -> tables_in e refs /\ map (decode_mutation refs) ws = map plain ms.
Proof.
  induction ms as [|m ms IH]; intros e e1 ws He; cbn [encode_mutations]; [intros [= <- <-]; by split|].
  destruct (encode_mutation e m) as [e2 w] eqn:Em. destruct (encode_mutations e2 ms) as [e3 ws'] eqn:Es. intros [= <- <-].
  destruct (encode_mutation_ok _ _ _ _ He Em) as (O2 & D2). destruct (IH _ _ _ O2 Es) as (O3 & D3). split; [done|].
  intros refs T3. destruct (D3 refs T3) as [T2 E3]. destruct (D2 refs T2) as [T1 E2]. split; [done|]. cbn [map]. by rewrite E2, E3.
Qed.

Lemma new_encoder_ok : encoder_ok (no_interning, no_interning, no_interning).
Proof. by repeat split. Qed.

Lemma batch_decodes ms : decodeBatchMutations (encodeBatchMutations ms) = map plain ms.
Proof.
  unfold encodeBatchMutations. destruct (encode_mutations (no_interning, no_interning, no_interning) ms) as [e ws] eqn:E.
  destruct (encode_mutations_ok ms _ _ _ new_encoder_ok E) as [_ Hd]. destruct (Hd (refs_of e)) as [_ He]; [by destruct e as [[i1 i2] i3]|].
  destruct e as [[i1 i2] i3]. exact He.
Qed.

(** C39: the worker gets from a batch exactly the mutations that were put into it, in their order and with the content of
    every descriptor, whichever of them share objects, have equal content or cannot be turned into text. *)
Theorem bmp_batch_round_trip ms : decodeBatchMutations (encodeBatchMutations ms) = map plain ms.
Proof. apply batch_decodes. Qed.
End Batch.
