(* ===== verification/BmpPersistence.v ===== *)
(** The writer's end of the BMP database: worker/bmp/bmpPersistenceClient.js.

    Mutations wait in a queue, and at most one batch of them is with the worker thread.  A batch that
    the worker refuses is sent again under the same id; after [batchRetryLimit] repetitions the client
    fails for good and keeps what was not committed.  [drain] and [fence] wait for commits, and a watermark
    on the buffered bytes pauses the sources of mutations.

    A client reacts to events: calls, messages of the worker, its error and exit, and two timers.  What an event
    settles of the client's own promises runs at its end ([jobs], the microtasks).  A promise of a caller is a
    number.  Answers carry no data, callbacks of the owner neither throw nor call the client back, and the
    descriptors of a mutation do not change while it waits.  The streaming of route assurance rows is left out. *)

From stdpp Require Import base list numbers strings option.
From Stdlib Require Import ZArith Lia.
From S2P Require Import Prelude Actions JsText JsMap BmpBatch.

Local Open Scope Z_scope.
Local Open Scope js_scope.

(** * Options *)

(** Options as they are given, with [None] for what is not an integer. *)
Record raw_options := {
  raw_batchSize : option Z; raw_batchBytes : option Z; raw_flushMs : option Z; raw_highWatermarkBytes : option Z;
  raw_lowWatermarkBytes : option Z; raw_batchRetryLimit : option Z; raw_batchRetryDelayMs : option Z; raw_readOnly : bool
}.

Record client_options := {
  batchSize : Z; batchBytes : Z; flushMs : Z; highWatermarkBytes : Z; lowWatermarkBytes : Z;
  batchRetryLimit : Z; batchRetryDelayMs : Z; readOnly : bool
}.

Definition DEFAULT_BATCH_SIZE : Z := 5000.
Definition DEFAULT_BATCH_BYTES : Z := 16 * 1024 * 1024.
Definition DEFAULT_FLUSH_MS : Z := 20.
Definition DEFAULT_HIGH_WATERMARK_BYTES : Z := 64 * 1024 * 1024.
Definition DEFAULT_LOW_WATERMARK_BYTES : Z := 32 * 1024 * 1024.
Definition DEFAULT_BATCH_RETRY_LIMIT : Z := 3.
Definition DEFAULT_BATCH_RETRY_DELAY_MS : Z := 25.

Definition positiveInteger (value : option Z) (fallback : Z) : Z :=
  match value with Some n => if 0 <? n then n else fallback | None => fallback end.

Definition make_options (r : raw_options) : client_options :=
  let high := positiveInteger (raw_highWatermarkBytes r) DEFAULT_HIGH_WATERMARK_BYTES in {|
    batchSize := positiveInteger (raw_batchSize r) DEFAULT_BATCH_SIZE;
    batchBytes := positiveInteger (raw_batchBytes r) DEFAULT_BATCH_BYTES;
    flushMs := positiveInteger (raw_flushMs r) DEFAULT_FLUSH_MS;
    highWatermarkBytes := high;
    lowWatermarkBytes := Z.min (positiveInteger (raw_lowWatermarkBytes r) DEFAULT_LOW_WATERMARK_BYTES) high;
    batchRetryLimit := positiveInteger (raw_batchRetryLimit r) DEFAULT_BATCH_RETRY_LIMIT;
    batchRetryDelayMs := positiveInteger (raw_batchRetryDelayMs r) DEFAULT_BATCH_RETRY_DELAY_MS;
    readOnly := raw_readOnly r
  |}.

(** * Data *)

Inductive client_error :=
| NotRunning | NotAlive | IsClosing | CannotClone | ReadOnlyClient | NotAccepting | ClientClosed | ExitedBeforeClose
| WorkerError (code : Z) | WorkerExited (code : Z) | ExitedDuringClose (code : Z) | RequestFailed (code : jsstring).

Inductive outcome := Fulfilled | Rejected (e : client_error).

(** The two timers. *)
Inductive client_timer := FlushTimer | RetryTimer.

Section Client.
Context {X : Type} `{EqDecision X} (stringify : descriptor (X := X) -> option jsstring) (heap : Z -> descriptor (X := X)).
(** The process id, whether [postMessage] can copy a request, the options. *)
Context (pid : N) (raw : raw_options).
Let o : client_options := make_options raw.

Record batch := {
  batchId : jsstring; createdAtMs : Z; mutations : list (wire_mutation (X := X)) * batch_refs (X := X); includeDeltas : bool
}.

(** Requests; [Query] stands for those that the client only passes on. *)
Inductive request := Open | ApplyBatch (b : batch) | PurgeSource (source : jsstring) | PurgeStaleRoutes (query : X) | Checkpoint | CloseStore | Query (op : jsstring).

Context (posted : request -> bool) (includeCommittedDeltas : batch -> bool).

(** Where [closeInternal] waits. *)
Inductive close_stage := Drained | Checkpointed | StoreClosed.

(** What is done when a promise is settled: a caller's promise follows it, the handlers of
    [sendInFlightBatch] for the batch of this number, a purge behind its fence, the rest of [closeInternal]. *)
Inductive continuation :=
| Caller (p : nat)
| BatchAnswer (n : Z)
| AfterFence (p : nat) (r : request)
| Closing (stage : close_stage).

Record entry := { e_mutation : mutation (X := X); e_bytes : Z; e_sequence : Z }.

Record in_flight := { entries : list entry; f_bytes : Z; f_batch : batch; f_number : Z; attempts : Z }.

Record client := {
  worker : bool;
  workerAlive : bool;
  callbacks : jmap jsstring continuation;
  queue : list entry;
  queueHead : nat;
  queueBytes : Z;
  inFlightBytes : Z;
  inFlight : option in_flight;
  flushTimer : bool;
  retryTimer : bool;
  batchSequence : Z;
  mutationSequence : Z;
  committedMutationSequence : Z;
  requestSequence : Z;
  paused : bool;
  closing : bool;
  failure : option client_error;
  closePromise : option nat;
  idleWaiters : list continuation;
  fenceWaiters : list (Z * continuation);
  clock : N;
  issued : nat;
  suppressErrors : bool;
  jobs : list (continuation * outcome)
}.

#[export] Instance rebuild_client : Rebuild client := fun s => {|
  worker := worker s; workerAlive := workerAlive s; callbacks := callbacks s; queue := queue s; queueHead := queueHead s;
  queueBytes := queueBytes s; inFlightBytes := inFlightBytes s; inFlight := inFlight s; flushTimer := flushTimer s;
  retryTimer := retryTimer s; batchSequence := batchSequence s; mutationSequence := mutationSequence s;
  committedMutationSequence := committedMutationSequence s; requestSequence := requestSequence s; paused := paused s;
  closing := closing s; failure := failure s; closePromise := closePromise s; idleWaiters := idleWaiters s;
  fenceWaiters := fenceWaiters s; clock := clock s; issued := issued s; suppressErrors := suppressErrors s; jobs := jobs s |}.

Definition new_client : client := {|
  worker := false; workerAlive := false; callbacks := []; queue := []; queueHead := 0; queueBytes := 0; inFlightBytes := 0;
  inFlight := None; flushTimer := false; retryTimer := false; batchSequence := 0; mutationSequence := 0;
  committedMutationSequence := 0; requestSequence := 0; paused := false; closing := false; failure := None; closePromise := None;
  idleWaiters := []; fenceWaiters := []; clock := 0%N; issued := 0; suppressErrors := false; jobs := [] |}.

Inductive client_effect :=
| Spawn
| Post (id : jsstring) (r : request)
| StartTimer (t : client_timer) (ms : Z)
| ClearTimer (t : client_timer)
| Resolve (p : nat)
| Reject (p : nat) (e : client_error)
| Throws (e : client_error)
| OnPause (bytes : Z)
| OnResume (bytes : Z)
| OnError (e : client_error)
| OnCommittedBatch (b : batch)
| Terminate (p : nat) (result : outcome).

Definition act : Type := action_of client client_effect.

(** * Requests *)

(** [resolve] and [reject] of a promise. *)
Definition settle (k : continuation) (v : outcome) : act :=
  match k with
  | Caller p => emit (match v with Fulfilled => Resolve p | Rejected e => Reject p e end)
  | _ => assign (fun s => s <| jobs := jobs s ++ [(k, v)] |>)
  end.

Definition request_id (now : N) (n : Z) : jsstring :=
  js "bmp-store-" ++ dec_digits (Z.of_N pid) ++ js "-" ++ dec_digits (Z.of_N now) ++ js "-" ++ dec_digits n.

Definition makeRequestId (s : client) : jsstring := request_id (clock s) (requestSequence s).

Definition sendRequest (r : request) (allowDuringClosing : bool) (k : continuation) : act := this s =>
  if negb (worker s) then settle k (Rejected NotRunning)
  else if negb (workerAlive s) then settle k (Rejected (default NotAlive (failure s)))
  else if closing s && negb allowDuringClosing then settle k (Rejected IsClosing)
  else match failure s with
  | Some e => settle k (Rejected e)
  | None =>
    assign (fun s => s <| requestSequence := requestSequence s + 1 |>) ;;;
    this s =>
    let messageId := makeRequestId s in
    assign (fun s => s <| callbacks := jmap_set (callbacks s) messageId k |>) ;;;
    if posted r then emit (Post messageId r)
    else assign (fun s => s <| callbacks := jmap_delete (callbacks s) messageId |>) ;;; settle k (Rejected CannotClone)
  end.

Definition handleMessage (messageId : jsstring) (v : outcome) : act := this s =>
  match jmap_get (callbacks s) messageId with
  | None => skip
  | Some k => assign (fun s => s <| callbacks := jmap_delete (callbacks s) messageId |>) ;;; settle k v
  end.

Definition rejectCallbacks (e : client_error) : act := this s =>
  each (jmap_values (callbacks s)) (fun k => settle k (Rejected e)) ;;; assign (fun s => s <| callbacks := [] |>).

Definition rejectIdleWaiters (e : client_error) : act := this s =>
  assign (fun s => s <| idleWaiters := [] |>) ;;; each (idleWaiters s) (fun k => settle k (Rejected e)).

Definition rejectFenceWaiters (e : client_error) : act := this s =>
  assign (fun s => s <| fenceWaiters := [] |>) ;;; each (fenceWaiters s) (fun w => settle (snd w) (Rejected e)).

Definition handleWorkerFailure (e : client_error) : act := this s =>
  match failure s with
  | Some _ => skip
  | None =>
    assign (fun s => s <| failure := Some e |>) ;;;
    rejectCallbacks e ;;; rejectIdleWaiters e ;;; rejectFenceWaiters e ;;; emit (OnError e)
  end.

(** * The queue *)

Definition live (s : client) : list entry := drop (queueHead s) (queue s).
Definition getQueueLength (s : client) : Z := blen (queue s) - Z.of_nat (queueHead s).
Definition bufferedBytes (s : client) : Z := queueBytes s + inFlightBytes s.

Definition updateBackpressure : act := this s =>
  if negb (paused s) && (highWatermarkBytes o <=? bufferedBytes s) then
    assign (fun s => s <| paused := true |>) ;;; emit (OnPause (bufferedBytes s))
  else if paused s && negb (bool_decide (is_Some (failure s))) && (bufferedBytes s <=? lowWatermarkBytes o) then
    assign (fun s => s <| paused := false |>) ;;; emit (OnResume (bufferedBytes s))
  else skip.

Definition scheduleFlush (delay : Z) : act := this s =>
  if flushTimer s || bool_decide (is_Some (inFlight s)) || bool_decide (is_Some (failure s)) then skip
  else assign (fun s => s <| flushTimer := true |>) ;;; emit (StartTimer FlushTimer delay).

Definition enqueue (m : mutation (X := X)) : act := this s =>
  if readOnly o then emit (Throws ReadOnlyClient)
  else if negb (worker s) || closing s then emit (Throws NotAccepting)
  else match failure s with
  | Some e => emit (Throws e)
  | None =>
    let bytes := estimateMutationBytes heap m in
    assign (fun s => s <| mutationSequence := mutationSequence s + 1 |>) ;;;
    assign (fun s => s <| queue := queue s ++ [{| e_mutation := m; e_bytes := bytes; e_sequence := mutationSequence s |}] |>
                       <| queueBytes := queueBytes s + bytes |>) ;;;
    updateBackpressure ;;;
    this s =>
    if (batchSize o <=? getQueueLength s) || (batchBytes o <=? queueBytes s) then scheduleFlush 0 else scheduleFlush (flushMs o)
  end.

(** The loop of [takeBatch]: what it takes from the front. *)
Fixpoint take_loop (remaining : list entry) (count bytes : Z) : list entry * Z :=
  match remaining with
  | [] => ([], bytes)
  | next :: tl =>
    if count <? batchSize o then
      if (0 <? count) && (batchBytes o <? bytes + e_bytes next) then ([], bytes)
      else let (es, b) := take_loop tl (count + 1) (bytes + e_bytes next) in (next :: es, b)
    else ([], bytes)
  end.

Definition compact_queue (s : client) : client :=
  if (10000 <? Z.of_nat (queueHead s)) && (blen (queue s) <=? Z.of_nat (queueHead s) * 2)
  then s <| queue := drop (queueHead s) (queue s) |> <| queueHead := 0%nat |> else s.

Definition takeBatch (k : list entry -> Z -> act) : act := this s =>
  let (es, bytes) := take_loop (live s) 0 0 in
  assign (fun s => s <| queueHead := (queueHead s + length es)%nat |> <| queueBytes := queueBytes s - bytes |>) ;;;
  assign compact_queue ;;;
  k es bytes.

Definition batch_id (now : N) (n : Z) : jsstring := js "bmp-" ++ dec_digits (Z.of_N pid) ++ js "-" ++ dec_digits (Z.of_N now) ++ js "-" ++ dec_digits n.

Definition makeBatch (es : list entry) (k : batch -> act) : act :=
  assign (fun s => s <| batchSequence := batchSequence s + 1 |>) ;;;
  this s =>
  let b := {| batchId := batch_id (clock s) (batchSequence s); createdAtMs := Z.of_N (clock s);
              mutations := encodeBatchMutations stringify heap (map e_mutation es); includeDeltas := false |} in
  k {| batchId := batchId b; createdAtMs := createdAtMs b; mutations := mutations b; includeDeltas := includeCommittedDeltas b |}.

Definition sendInFlightBatch : act := this s =>
  match inFlight s, failure s with
  | Some f, None =>
    assign (fun s => s <| inFlight := Some {| entries := entries f; f_bytes := f_bytes f; f_batch := f_batch f; f_number := f_number f;
                                              attempts := attempts f + 1 |} |>) ;;;
    sendRequest (ApplyBatch (f_batch f)) true (BatchAnswer (f_number f))
  | _, _ => skip
  end.

Definition resolveIdleWaitersIfReady : act := this s =>
  if bool_decide (is_Some (inFlight s)) || (0 <? getQueueLength s) then skip
  else assign (fun s => s <| idleWaiters := [] |>) ;;; each (idleWaiters s) (fun k => settle k Fulfilled).

Definition flushNextBatch : act := this s =>
  if bool_decide (is_Some (inFlight s)) || (getQueueLength s =? 0) || bool_decide (is_Some (failure s)) then resolveIdleWaitersIfReady
  else
    takeBatch (fun es bytes =>
    makeBatch es (fun b =>
      assign (fun s => s <| inFlightBytes := bytes |>
                         <| inFlight := Some {| entries := es; f_bytes := bytes; f_batch := b; f_number := batchSequence s; attempts := 0 |} |>) ;;;
      updateBackpressure ;;;
      sendInFlightBatch)).

Definition resolveFenceWaiters : act := this s =>
  let reached := fun w => fst w <=? committedMutationSequence s in
  each (List.filter reached (fenceWaiters s)) (fun w => settle (snd w) Fulfilled) ;;;
  assign (fun s => s <| fenceWaiters := List.filter (fun w => negb (reached w)) (fenceWaiters s) |>).

(** ** The answer to a batch *)

(** [this.inFlight !== pending] *)
Definition is_in_flight (s : client) (n : Z) : option in_flight :=
  match inFlight s with Some f => if f_number f =? n then Some f else None | None => None end.

Definition batch_then (n : Z) : act := this s =>
  match is_in_flight s n with
  | None => skip
  | Some f =>
    assign (fun s => match list.last (entries f) with
                     | Some lastEntry => s <| committedMutationSequence := Z.max (committedMutationSequence s) (e_sequence lastEntry) |>
                     | None => s
                     end) ;;;
    assign (fun s => s <| inFlight := None |> <| inFlightBytes := 0 |>) ;;;
    updateBackpressure ;;;
    (this s => if 0 <? getQueueLength s then scheduleFlush 0 else skip) ;;;
    resolveIdleWaitersIfReady ;;;
    resolveFenceWaiters ;;;
    emit (OnCommittedBatch (f_batch f))
  end.

Definition batch_catch (n : Z) (e : client_error) : act := this s =>
  match is_in_flight s n with
  | None => skip
  | Some f =>
    if (attempts f <=? batchRetryLimit o) && worker s && negb (bool_decide (is_Some (failure s))) then
      assign (fun s => s <| retryTimer := true |>) ;;;
      emit (StartTimer RetryTimer (batchRetryDelayMs o * 2 ^ (attempts f - 1)))
    else
      assign (fun s => s <| inFlight := None |> <| inFlightBytes := 0 |>
                         <| queue := entries f ++ drop (queueHead s) (queue s) |> <| queueHead := 0%nat |>
                         <| queueBytes := queueBytes s + f_bytes f |>) ;;;
      handleWorkerFailure e ;;;
      updateBackpressure
  end.
(** ** Waiting for commits *)

(** [clearTimeout(this.flushTimer)] *)
Definition clearFlushTimer : act := this s =>
  if flushTimer s then emit (ClearTimer FlushTimer) ;;; assign (fun s => s <| flushTimer := false |>) else skip.

Definition clearRetryTimer : act := this s =>
  if retryTimer s then emit (ClearTimer RetryTimer) ;;; assign (fun s => s <| retryTimer := false |>) else skip.

Definition drain (k : continuation) : act := this s =>
  match failure s with
  | Some e => settle k (Rejected e)
  | None =>
    if negb (bool_decide (is_Some (inFlight s))) && (getQueueLength s =? 0) then settle k Fulfilled
    else clearFlushTimer ;;; flushNextBatch ;;; assign (fun s => s <| idleWaiters := idleWaiters s ++ [k] |>)
  end.

Definition fence (k : continuation) : act := this s =>
  if readOnly o then settle k Fulfilled
  else match failure s with
  | Some e => settle k (Rejected e)
  | None =>
    let target := mutationSequence s in
    if target <=? committedMutationSequence s then settle k Fulfilled
    else clearFlushTimer ;;; flushNextBatch ;;; assign (fun s => s <| fenceWaiters := fenceWaiters s ++ [(target, k)] |>)
  end.

(** ** Closing *)

(** The [finally] block of [closeInternal] and the end of its promise, which follows the end of the thread. *)
Definition close_finally (closeError : option client_error) : act :=
  clearFlushTimer ;;; clearRetryTimer ;;;
  assign (fun s => s <| worker := false |> <| workerAlive := false |>) ;;;
  let pendingError := default ClientClosed closeError in
  rejectCallbacks pendingError ;;; rejectIdleWaiters pendingError ;;; rejectFenceWaiters pendingError ;;;
  this s =>
  match closePromise s with
  | None => skip
  | Some p =>
    emit (Terminate p (match closeError with Some e => if suppressErrors s then Fulfilled else Rejected e | None => Fulfilled end))
  end.

Definition closeInternal : act := this s =>
  if negb (worker s) then match closePromise s with Some p => emit (Resolve p) | None => skip end
  else
    assign (fun s => s <| closing := true |>) ;;;
    if bool_decide (is_Some (failure s)) || negb (workerAlive s) then close_finally (Some (default ExitedBeforeClose (failure s)))
    else if negb (readOnly o) then drain (Closing Drained)
    else sendRequest CloseStore true (Closing StoreClosed).

(** [closeInternal] goes on behind an [await]. *)
Definition close_resumes (stage : close_stage) (v : outcome) : act :=
  match v, stage with
  | Rejected e, _ => close_finally (Some e)
  | Fulfilled, Drained => sendRequest Checkpoint true (Closing Checkpointed)
  | Fulfilled, Checkpointed => sendRequest CloseStore true (Closing StoreClosed)
  | Fulfilled, StoreClosed => close_finally None
  end.

(** * Events *)

Definition do_job (j : continuation * outcome) : act :=
  match j with
  | (Caller _, _) => skip
  | (BatchAnswer n, Fulfilled) => batch_then n
  | (BatchAnswer n, Rejected e) => batch_catch n e
  | (AfterFence p r, Fulfilled) => sendRequest r false (Caller p)
  | (AfterFence p r, Rejected e) => emit (Reject p e)
  | (Closing stage, v) => close_resumes stage v
  end.

(** The microtasks at the end of an event.  A promise gives rise to at most as many jobs as its weight says, so that
    the sum of the weights of what waits is enough fuel. *)
Definition continuation_weight (k : continuation) : nat :=
  match k with Caller _ => 1 | BatchAnswer _ => 1 | AfterFence _ _ => 2 | Closing Drained => 3 | Closing Checkpointed => 2 | Closing StoreClosed => 1 end.

Definition total_weight (l : list continuation) : nat := list_sum (map continuation_weight l).

Definition weight (s : client) : nat :=
  total_weight (map fst (jobs s)) + total_weight (jmap_values (callbacks s)) + total_weight (idleWaiters s) + total_weight (map snd (fenceWaiters s)).

Fixpoint run_jobs (fuel : nat) : act := this s =>
  match jobs s, fuel with
  | j :: tl, S f => assign (fun s => s <| jobs := tl |>) ;;; do_job j ;;; run_jobs f
  | _, _ => skip
  end.

Definition microtasks : act := this s => run_jobs (weight s).

Inductive client_event :=
| CallOpen
| CallEnqueue (m : mutation (X := X))
| CallQuery (op : jsstring)
| CallDrain
| CallFence
| CallPurgeSource (source : jsstring)
| CallPurgeStaleRoutes (query : X) (fenced : bool)
| CallClose (suppress : bool)
| TimerFires (t : client_timer)
| MessageArrives (messageId : jsstring) (v : outcome)
| WorkerFails (code : Z)
| WorkerExits (code : Z).

(** A promise of a caller. *)
Definition promised (k : nat -> act) : act := this s =>
  assign (fun s => s <| issued := S (issued s) |>) ;;; k (issued s).

Definition on_event (e : client_event) : act :=
  match e with
  | CallOpen => promised (fun p => this s =>
      if worker s then sendRequest (Query (js "get-status")) false (Caller p)
      else emit Spawn ;;; assign (fun s => s <| worker := true |> <| workerAlive := true |>) ;;; sendRequest Open false (Caller p))
  | CallEnqueue m => enqueue m
  | CallQuery op => promised (fun p => sendRequest (Query op) false (Caller p))
  | CallDrain => promised (fun p => drain (Caller p))
  | CallFence => promised (fun p => fence (Caller p))
  | CallPurgeSource source => promised (fun p =>
      if readOnly o then emit (Reject p ReadOnlyClient) else fence (AfterFence p (PurgeSource source)))
  | CallPurgeStaleRoutes query fenced => promised (fun p =>
      if negb (readOnly o) && fenced then fence (AfterFence p (PurgeStaleRoutes query))
      else sendRequest (PurgeStaleRoutes query) false (Caller p))
  | CallClose suppress => this s =>
    match closePromise s with
    | Some p => skip
    | None => promised (fun p => assign (fun s => s <| closePromise := Some p |> <| suppressErrors := suppress |>) ;;; closeInternal)
    end
  | TimerFires FlushTimer => this s => if flushTimer s then assign (fun s => s <| flushTimer := false |>) ;;; flushNextBatch else skip
  | TimerFires RetryTimer => this s => if retryTimer s then assign (fun s => s <| retryTimer := false |>) ;;; sendInFlightBatch else skip
  | MessageArrives messageId v => handleMessage messageId v
  | WorkerFails code => assign (fun s => s <| workerAlive := false |>) ;;; handleWorkerFailure (WorkerError code)
  | WorkerExits code =>
    assign (fun s => s <| workerAlive := false |>) ;;; this s =>
    if negb (closing s) then handleWorkerFailure (WorkerExited code)
    else
      let e := default (ExitedDuringClose code) (failure s) in
      rejectCallbacks e ;;; rejectIdleWaiters e ;;; rejectFenceWaiters e
  end.

(** An event at a time, with its microtasks. *)
Definition client_step (now : N) (e : client_event) : act :=
  assign (fun s => s <| clock := now |>) ;;; on_event e ;;; microtasks.

(** * Lemmas on promises *)

Lemma id_inj prefix a b m n : 0 <= m -> 0 <= n ->
  prefix ++ dec_digits (Z.of_N pid) ++ js "-" ++ dec_digits (Z.of_N a) ++ js "-" ++ dec_digits m =
  prefix ++ dec_digits (Z.of_N pid) ++ js "-" ++ dec_digits (Z.of_N b) ++ js "-" ++ dec_digits n -> m = n.
Proof.
  intros Hm Hn He. apply app_inv_head in He. apply app_inv_head in He. apply app_inv_head in He.
  change (js "-") with [45] in He. apply (f_equal (split_on 45)) in He. cbn [app] in He.
  rewrite !split_on_cons in He by (apply dec_digits_lacks; [lia | done]). rewrite !split_on_lacks in He by (by apply dec_digits_lacks).
  injection He as _ He. by apply dec_digits_inj.
Qed.

Lemma request_id_inj a b m n : 0 <= m -> 0 <= n -> request_id a m = request_id b n -> m = n.
Proof. intros Hm Hn. unfold request_id. by apply id_inj. Qed.

Lemma batch_id_inj a b m n : 0 <= m -> 0 <= n -> batch_id a m = batch_id b n -> m = n.
Proof. intros Hm Hn. unfold batch_id. by apply id_inj. Qed.

Definition jobs_of (v : outcome) (k : continuation) : list (continuation * outcome) := match k with Caller _ => [] | _ => [(k, v)] end.

Definition push_jobs (l : list (continuation * outcome)) (s : client) : client := s <| jobs := jobs s ++ l |>.

Lemma push_nil s : push_jobs [] s = s.
Proof. unfold push_jobs. destruct s. cbn. by rewrite app_nil_r. Qed.

Lemma settle_state k v s : fst (settle k v s) = push_jobs (jobs_of v k) s.
Proof. unfold settle. destruct k; try done. cbn [jobs_of]. by rewrite push_nil. Qed.

Lemma fst_seq (a b : act) s : fst ((a ;;; b) s) = fst (b (fst (a s))).
Proof. unfold seq_action. destruct (a s) as [s1 o1]. cbn [fst]. by destruct (b s1). Qed.

Lemma fst_assign (f : client -> client) s : fst (assign (E := client_effect) f s) = f s.
Proof. done. Qed.

Lemma fst_emit e s : fst (emit (S := client) (E := client_effect) e s) = s.
Proof. done. Qed.

Lemma settle_all {A} (f : A -> continuation) v l s : fst (each l (fun a => settle (f a) v) s) = push_jobs (concat (map (fun a => jobs_of v (f a)) l)) s.
Proof.
  revert s. induction l as [|a l IH]; intros s; cbn [each map concat]; [by rewrite push_nil|].
  rewrite fst_seq, settle_state, IH. unfold push_jobs. destruct s. cbn. by rewrite app_assoc.
Qed.

Definition jobs_for (v : outcome) (l : list continuation) : list (continuation * outcome) := concat (map (jobs_of v) l).

Lemma rejectCallbacks_state e s : fst (rejectCallbacks e s) = push_jobs (jobs_for (Rejected e) (jmap_values (callbacks s))) (s <| callbacks := [] |>).
Proof. unfold rejectCallbacks, get_this. rewrite fst_seq, (settle_all (fun k => k)). done. Qed.

Lemma rejectIdleWaiters_state e s : fst (rejectIdleWaiters e s) = push_jobs (jobs_for (Rejected e) (idleWaiters s)) (s <| idleWaiters := [] |>).
Proof. unfold rejectIdleWaiters, get_this. rewrite fst_seq, fst_assign, (settle_all (fun k => k)). done. Qed.

Lemma rejectFenceWaiters_state e s : fst (rejectFenceWaiters e s) = push_jobs (jobs_for (Rejected e) (map snd (fenceWaiters s))) (s <| fenceWaiters := [] |>).
Proof. unfold rejectFenceWaiters, get_this. rewrite fst_seq, fst_assign, (settle_all snd). unfold jobs_for. by rewrite map_map. Qed.

(** All waiting promises are rejected. *)
Definition rejected_all (e : client_error) (s : client) : client :=
  push_jobs (jobs_for (Rejected e) (jmap_values (callbacks s) ++ idleWaiters s ++ map snd (fenceWaiters s)))
    (s <| callbacks := [] |> <| idleWaiters := [] |> <| fenceWaiters := [] |>).

Lemma jobs_for_app v l1 l2 : jobs_for v (l1 ++ l2) = jobs_for v l1 ++ jobs_for v l2.
Proof. unfold jobs_for. by rewrite map_app, concat_app. Qed.

Lemma reject_all_state e s : fst ((rejectCallbacks e ;;; rejectIdleWaiters e ;;; rejectFenceWaiters e) s) = rejected_all e s.
Proof.
  rewrite !fst_seq, rejectCallbacks_state, rejectIdleWaiters_state, rejectFenceWaiters_state. unfold rejected_all. rewrite !jobs_for_app. destruct s.
  lazy -[jobs_for jmap_values map app]. by rewrite !app_assoc.
Qed.

Lemma handleWorkerFailure_state e s :
  fst (handleWorkerFailure e s) = match failure s with Some _ => s | None => rejected_all e (s <| failure := Some e |>) end.
Proof.
  unfold handleWorkerFailure, get_this. destruct (failure s); [done|]. rewrite fst_seq, fst_assign.
  set (q := s <| failure := Some e |>). rewrite <- (reject_all_state e q). rewrite !fst_seq. done.
Qed.

(** * States of simple parts *)

Lemma updateBackpressure_state s : exists p, fst (updateBackpressure s) = s <| paused := p |>.
Proof.
  unfold updateBackpressure, get_this. case_if; [by exists true|]. case_if; [by exists false|]. exists (paused s). by destruct s.
Qed.

Lemma scheduleFlush_state d s : fst (scheduleFlush d s) =
  s <| flushTimer := flushTimer s || negb (bool_decide (is_Some (inFlight s))) && negb (bool_decide (is_Some (failure s))) |>.
Proof.
  unfold scheduleFlush, get_this. destruct (flushTimer s) eqn:E1, (bool_decide (is_Some (inFlight s))), (bool_decide (is_Some (failure s))); cbn [orb andb negb]; try done; by destruct s; cbn in E1; subst.
Qed.

Lemma clearFlushTimer_state s : fst (clearFlushTimer s) = s <| flushTimer := false |>.
Proof. unfold clearFlushTimer, get_this. destruct (flushTimer s) eqn:E; [done|]. destruct s. cbn in E. by subst. Qed.

Lemma clearRetryTimer_state s : fst (clearRetryTimer s) = s <| retryTimer := false |>.
Proof. unfold clearRetryTimer, get_this. destruct (retryTimer s) eqn:E; [done|]. destruct s. cbn in E. by subst. Qed.

Definition all_idle_resolved (s : client) : client := push_jobs (jobs_for Fulfilled (idleWaiters s)) (s <| idleWaiters := [] |>).

Lemma resolveIdle_state s : (queueHead s <= length (queue s))%nat ->
  fst (resolveIdleWaitersIfReady s) = if bool_decide (inFlight s = None) && bool_decide (live s = []) then all_idle_resolved s else s.
Proof.
  intros Hh. unfold resolveIdleWaitersIfReady, get_this. assert (getQueueLength s = blen (live s)) as -> by (unfold getQueueLength, live, blen; rewrite length_drop; lia).
  destruct (inFlight s) as [f|]; [by rewrite bool_decide_eq_true_2, bool_decide_eq_false_2|].
  rewrite bool_decide_eq_false_2, bool_decide_eq_true_2 by (done || by intros []). cbn [orb andb]. destruct (live s) as [|e l]; [|by decide_test (0 <? blen (e :: l)) true].
  rewrite bool_decide_eq_true_2 by done. change (0 <? blen []) with false. cbv beta iota. rewrite fst_seq, fst_assign, (settle_all (fun k => k)). done.
Qed.

Definition reached (s : client) (w : Z * continuation) : bool := fst w <=? committedMutationSequence s.

Definition fences_resolved (s : client) : client :=
  push_jobs (jobs_for Fulfilled (map snd (List.filter (reached s) (fenceWaiters s))))
    (s <| fenceWaiters := List.filter (fun w => negb (reached s w)) (fenceWaiters s) |>).

Lemma resolveFence_state s : fst (resolveFenceWaiters s) = fences_resolved s.
Proof.
  unfold resolveFenceWaiters, get_this. rewrite fst_seq, (settle_all snd), fst_assign. unfold fences_resolved, jobs_for, reached. rewrite map_map. by destruct s.
Qed.

(** ** Requests *)

(** Message ids are those of requests that were made. *)
Definition calls_ok (s : client) : Prop :=
  jmap_ok (callbacks s) /\ 0 <= requestSequence s /\
  forall id, id ∈ jmap_keys (callbacks s) -> exists now n, id = request_id now n /\ 0 <= n <= requestSequence s.

Lemma next_id_fresh s : calls_ok s -> jmap_get (callbacks s) (request_id (clock s) (requestSequence s + 1)) = None.
Proof.
  intros (_ & Hn & Hk). apply jmap_get_None. intros Hin. destruct (Hk _ Hin) as (now & n & He & Hb). apply request_id_inj in He; lia.
Qed.

(** The state of a client that sent a request. *)
Definition requested (k : continuation) (s : client) : client :=
  s <| requestSequence := requestSequence s + 1 |>
    <| callbacks := callbacks s ++ [(request_id (clock s) (requestSequence s + 1), k)] |>.

Lemma requested_calls k s : calls_ok s -> calls_ok (requested k s).
Proof.
  intros Hc. pose proof (next_id_fresh s Hc) as Hf. destruct Hc as (Ho & Hn & Hk). split; [|split].
  - change (jmap_ok (callbacks s ++ [(request_id (clock s) (requestSequence s + 1), k)])). rewrite <- (jmap_set_fresh _ _ k Hf). by apply jmap_ok_set.
  - change (0 <= requestSequence s + 1). lia.
  - intros id. change (callbacks (requested k s)) with (callbacks s ++ [(request_id (clock s) (requestSequence s + 1), k)]).
    change (requestSequence (requested k s)) with (requestSequence s + 1). unfold jmap_keys. rewrite map_app, list.elem_of_app. cbn [map fst]. rewrite list_elem_of_singleton. intros [Hin| ->].
    + destruct (Hk id Hin) as (now & n & -> & Hb). exists now, n. split; [done | lia].
    + exists (clock s), (requestSequence s + 1). split; [done | lia].
Qed.

Lemma sendRequest_cases r a k s : calls_ok s ->
  fst (sendRequest r a k s) = requested k s \/
  exists e n, requestSequence s <= n /\ fst (sendRequest r a k s) = push_jobs (jobs_of (Rejected e) k) (s <| requestSequence := n |>).
Proof.
  intros Hc.
  unfold sendRequest, get_this. case_if; [right; eexists _, (requestSequence s); split; [lia|]; rewrite settle_state; by destruct s|].
  case_if; [right; eexists _, (requestSequence s); split; [lia|]; rewrite settle_state; by destruct s|].
  case_if; [right; eexists _, (requestSequence s); split; [lia|]; rewrite settle_state; by destruct s|].
  destruct (failure s) as [e|]; [right; exists e, (requestSequence s); split; [lia|]; rewrite settle_state; by destruct s|].
  rewrite fst_seq, fst_assign, fst_seq, fst_assign. unfold makeRequestId. cbn [clock requestSequence].
  change (jmap_set (callbacks (s <| requestSequence := requestSequence s + 1 |>))) with (jmap_set (callbacks s)).
  pose proof (next_id_fresh s Hc) as Hf.
  change (clock (s <| requestSequence := requestSequence s + 1 |>)) with (clock s). change (requestSequence (s <| requestSequence := requestSequence s + 1 |>)) with (requestSequence s + 1).
  rewrite (jmap_set_fresh _ _ k Hf). destruct (posted r); [by left|right]. exists CannotClone, (requestSequence s + 1). split; [lia|].
  rewrite fst_seq, fst_assign, settle_state. f_equal.
  change (callbacks (s <| requestSequence := requestSequence s + 1 |> <| callbacks := callbacks s ++ [(request_id (clock s) (requestSequence s + 1), k)] |>))
    with (callbacks s ++ [(request_id (clock s) (requestSequence s + 1), k)]).
  rewrite jmap_delete_fresh by done. by destruct s.
Qed.

Lemma sendRequest_sent r a k s : calls_ok s -> worker s = true -> workerAlive s = true -> (closing s = true -> a = true) -> failure s = None -> posted r = true ->
  sendRequest r a k s = (requested k s, [Post (request_id (clock s) (requestSequence s + 1)) r]).
Proof.
  intros Hc Hw Ha Hcl Hf Hp. unfold sendRequest, get_this. rewrite Hw, Ha, Hf. cbn [negb]. assert (closing s && negb a = false) as -> by (destruct (closing s); [by rewrite Hcl | done]).
  unfold seq_action, assign, emit, makeRequestId. rewrite Hp.
  change (clock (s <| requestSequence := requestSequence s + 1 |>)) with (clock s). change (requestSequence (s <| requestSequence := requestSequence s + 1 |>)) with (requestSequence s + 1).
  change (jmap_set (callbacks (s <| requestSequence := requestSequence s + 1 |>))) with (jmap_set (callbacks s)).
  rewrite (jmap_set_fresh _ _ k (next_id_fresh s Hc)). done.
Qed.

(** * The invariant of a client *)

Definition total (es : list entry) : Z := fold_right (fun e n => e_bytes e + n) 0 es.

Lemma total_app a b : total (a ++ b) = total a + total b.
Proof. induction a as [|e a IH]; [done|]. cbn [app total fold_right] in *. fold (total (a ++ b)) (total a). rewrite IH. lia. Qed.

(** Mutations that are not committed yet: those of the batch and those of the queue. *)
Definition flying (s : client) : list entry := match inFlight s with Some f => entries f | None => [] end.
Definition pendings (s : client) : list entry := flying s ++ live s.

Definition sized (e : entry) : Prop := e_bytes e = estimateMutationBytes heap (e_mutation e).

Definition flight_ok (s : client) : Prop :=
  match inFlight s with
  | None => True
  | Some f => entries f <> [] /\ f_bytes f = total (entries f) /\ 0 < f_number f <= batchSequence s /\
              (exists now, batchId (f_batch f) = batch_id now (f_number f)) /\
              mutations (f_batch f) = encodeBatchMutations stringify heap (map e_mutation (entries f))
  end.

(** [hist] are the mutations that [enqueue] accepted. *)
Definition order_ok (hist : list (mutation (X := X))) (s : client) : Prop :=
  (queueHead s <= length (queue s))%nat /\
  map e_mutation (pendings s) = drop (Z.to_nat (committedMutationSequence s)) hist /\
  map e_sequence (pendings s) = seqZ (committedMutationSequence s + 1) (blen (pendings s)) /\
  mutationSequence s = blen hist /\ committedMutationSequence s + blen (pendings s) = mutationSequence s /\ 0 <= committedMutationSequence s /\
  Forall sized (pendings s) /\ queueBytes s = total (live s) /\ inFlightBytes s = total (flying s) /\
  0 <= batchSequence s /\ flight_ok s.

Definition ans (k : continuation) : list Z := match k with BatchAnswer n => [n] | _ => [] end.
Definition answers_in (l : list continuation) : list Z := concat (map ans l).
Definition answers (s : client) : list Z := answers_in (map fst (jobs s)) ++ answers_in (jmap_values (callbacks s)).

(** The batch in flight is with the worker or waits for its repetition, unless the client is at its end. *)
Definition tokens_ok (s : client) : Prop :=
  match inFlight s with
  | None => answers s = [] /\ retryTimer s = false
  | Some f => (answers s = [f_number f] /\ retryTimer s = false) \/ (answers s = [] /\ retryTimer s = true) \/
              (answers s = [] /\ retryTimer s = false /\ (failure s <> None \/ worker s = false))
  end.

Definition no_batch (s : client) : Prop := answers_in (idleWaiters s) = [] /\ answers_in (map snd (fenceWaiters s)) = [].

Definition wake_ok (s : client) : Prop :=
  failure s = None -> worker s = true -> inFlight s = None -> live s <> [] -> flushTimer s = true.

Definition waiters_ok (s : client) : Prop :=
  (failure s <> None -> idleWaiters s = [] /\ fenceWaiters s = []) /\
  (failure s = None -> (idleWaiters s <> [] -> pendings s <> []) /\ forall w, w ∈ fenceWaiters s -> committedMutationSequence s < fst w <= mutationSequence s).

Definition core (hist : list (mutation (X := X))) (s : client) : Prop :=
  order_ok hist s /\ calls_ok s /\ no_batch s /\ waiters_ok s.

Definition inv (hist : list (mutation (X := X))) (s : client) : Prop := core hist s /\ tokens_ok s /\ wake_ok s.

Lemma answers_in_app a b : answers_in (a ++ b) = answers_in a ++ answers_in b.
Proof. unfold answers_in. by rewrite map_app, concat_app. Qed.

Lemma answers_in_jobs v ks : answers_in (map fst (jobs_for v ks)) = answers_in ks.
Proof.
  induction ks as [|k ks IH]; [done|]. change (jobs_for v (k :: ks)) with (jobs_of v k ++ jobs_for v ks). rewrite map_app, answers_in_app, IH. by destruct k.
Qed.

Lemma answers_push v ks s : answers (push_jobs (jobs_for v ks) s) = answers_in (map fst (jobs s)) ++ answers_in ks ++ answers_in (jmap_values (callbacks s)).
Proof.
  unfold answers. change (jobs (push_jobs (jobs_for v ks) s)) with (jobs s ++ jobs_for v ks). change (callbacks (push_jobs (jobs_for v ks) s)) with (callbacks s).
  by rewrite map_app, answers_in_app, answers_in_jobs, <- app_assoc.
Qed.

Lemma answers_push_quiet v ks s : answers_in ks = [] -> answers (push_jobs (jobs_for v ks) s) = answers s.
Proof. intros Hk. rewrite answers_push, Hk. done. Qed.

Lemma answers_requested k s : answers (requested k s) = answers s ++ ans k.
Proof.
  unfold answers. change (jobs (requested k s)) with (jobs s). change (callbacks (requested k s)) with (callbacks s ++ [(request_id (clock s) (requestSequence s + 1), k)]).
  unfold jmap_values. rewrite map_app, answers_in_app, app_assoc. f_equal. unfold answers_in. cbn [map snd concat]. apply app_nil_r.
Qed.

Lemma answers_rejected e s : no_batch s -> answers (rejected_all e s) = answers s.
Proof.
  intros [Hi Hf]. unfold rejected_all. rewrite answers_push. rewrite !answers_in_app, Hi, Hf, !app_nil_r. done.
Qed.

(** Promises that are settled do not matter. *)
Lemma inv_push hist v ks s : answers_in ks = [] -> inv hist s -> inv hist (push_jobs (jobs_for v ks) s).
Proof.
  intros Hk (Hc & Ht & Hw). split; [exact Hc|]. split; [|exact Hw]. pose proof (answers_push_quiet v ks s Hk) as Ha.
  unfold tokens_ok in *. change (inFlight (push_jobs (jobs_for v ks) s)) with (inFlight s). rewrite Ha. exact Ht.
Qed.

Lemma jobs_of_for v k : jobs_of v k = jobs_for v [k].
Proof. unfold jobs_for. cbn [map concat]. by rewrite app_nil_r. Qed.

Lemma inv_settle hist k v s : ans k = [] -> inv hist s -> inv hist (fst (settle k v s)).
Proof. intros Hk. rewrite settle_state, jobs_of_for. apply inv_push. unfold answers_in. cbn [map concat]. by rewrite Hk. Qed.

Lemma inv_sequence hist n s : requestSequence s <= n -> inv hist s -> inv hist (s <| requestSequence := n |>).
Proof.
  intros Hn ((Ho & (Hk & Hz & Hi) & Hb & Hw) & Ht & Hk'). split; [|by split]. split; [exact Ho|]. split; [|by split]. split; [exact Hk|]. split; [change (0 <= n); lia|].
  intros id Hid. destruct (Hi id Hid) as (now & m & -> & Hm). exists now, m. split; [done|]. change (0 <= m <= n). lia.
Qed.

Lemma inv_request hist r a k s : ans k = [] -> inv hist s -> inv hist (fst (sendRequest r a k s)).
Proof.
  intros Hk Hi. destruct (sendRequest_cases r a k s) as [->|(e & n & Hn & ->)]; [by apply Hi| |].
  - destruct Hi as ((Ho & Hc & Hb & Hw) & Ht & Hwk). split; [|split; [|exact Hwk]].
    + split; [exact Ho|]. split; [by apply requested_calls|]. by split.
    + pose proof (answers_requested k s) as Ha. rewrite Hk, app_nil_r in Ha. unfold tokens_ok in *.
      change (inFlight (requested k s)) with (inFlight s). rewrite Ha. exact Ht.
  - rewrite jobs_of_for. apply inv_push; [unfold answers_in; cbn [map concat]; by rewrite Hk|]. by apply inv_sequence.
Qed.

Lemma inv_rejected hist e s : order_ok hist s -> calls_ok s -> no_batch s -> tokens_ok s -> wake_ok s -> inv hist (rejected_all e s).
Proof.
  intros Ho (Hk & Hz & Hids) Hb Ht Hf. pose proof (answers_rejected e s Hb) as Ha. split; [|split].
  - split; [exact Ho|]. split; [|split; [done|]].
    + split; [apply jmap_ok_nil|]. split; [exact Hz|]. by intros id ?%elem_of_nil.
    + split; [done|]. intros _. split; [done|]. by intros w ?%elem_of_nil.
  - unfold tokens_ok in *. change (inFlight (rejected_all e s)) with (inFlight s). rewrite Ha. exact Ht.
  - exact Hf.
Qed.

Lemma tokens_failed s e : tokens_ok s -> tokens_ok (s <| failure := Some e |>).
Proof.
  unfold tokens_ok. change (inFlight (s <| failure := Some e |>)) with (inFlight s). destruct (inFlight s); [|done].
  intros [H|[H|(H1 & H2 & _)]]; [by left | by right; left | right; right]. split; [exact H1|]. split; [exact H2 | by left].
Qed.

Lemma inv_failure hist e s : core hist s -> tokens_ok s -> (failure s <> None -> wake_ok s) -> inv hist (fst (handleWorkerFailure e s)).
Proof.
  intros Hc Ht Hw. rewrite handleWorkerFailure_state. destruct (failure s) as [x|] eqn:Ef; [split; [done|]; split; [done | by apply Hw]|].
  destruct Hc as (Ho & Hk & Hb & _). apply inv_rejected; [exact Ho | exact Hk | exact Hb | by apply tokens_failed | by intros Hx].
Qed.

(** ** Sending the batch *)

Definition next_attempt (f : in_flight) : in_flight :=
  {| entries := entries f; f_bytes := f_bytes f; f_batch := f_batch f; f_number := f_number f; attempts := attempts f + 1 |}.

Lemma core_attempt hist s f : inFlight s = Some f -> core hist s -> core hist (s <| inFlight := Some (next_attempt f) |>).
Proof.
  intros Hf (Ho & Hc & Hb & Hw). set (s' := s <| inFlight := Some (next_attempt f) |>).
  assert (pendings s' = pendings s) as Hp by (unfold pendings, flying; rewrite Hf; done).
  split; [|split; [exact Hc|]; split; [exact Hb|]].
  - unfold order_ok, flight_ok, flying in *. rewrite Hp. rewrite Hf in Ho. exact Ho.
  - unfold waiters_ok in *. rewrite Hp. exact Hw.
Qed.

Lemma core_push hist v ks s : core hist s -> core hist (push_jobs (jobs_for v ks) s).
Proof. intros H. exact H. Qed.

Lemma core_requested hist k s : core hist s -> core hist (requested k s).
Proof. intros (Ho & Hc & Hb & Hw). split; [exact Ho|]. split; [by apply requested_calls|]. by split. Qed.

Lemma core_sequence hist n s : requestSequence s <= n -> core hist s -> core hist (s <| requestSequence := n |>).
Proof.
  intros Hn (Ho & (Hk & Hz & Hi) & Hb & Hw). split; [exact Ho|]. split; [|by split]. split; [exact Hk|]. split; [change (0 <= n); lia|].
  intros id Hid. destruct (Hi id Hid) as (now & m & -> & Hm). exists now, m. split; [done|]. change (0 <= m <= n). lia.
Qed.

Lemma inv_send hist s : core hist s -> answers s = [] -> retryTimer s = false -> wake_ok s -> inv hist (fst (sendInFlightBatch s)).
Proof.
  intros Hc Ha Hr Hw. unfold sendInFlightBatch, get_this. destruct (inFlight s) as [f|] eqn:Hf.
  2:{ split; [done|]. split; [|done]. change (tokens_ok s). unfold tokens_ok. by rewrite Hf. }
  destruct (failure s) as [e|] eqn:He.
  { split; [done|]. split; [|done]. change (tokens_ok s). unfold tokens_ok. rewrite Hf. right. right. split; [done|]. split; [done|]. left. congruence. }
  rewrite fst_seq, fst_assign. change {| entries := entries f; f_bytes := f_bytes f; f_batch := f_batch f; f_number := f_number f; attempts := attempts f + 1 |} with (next_attempt f).
  set (s1 := s <| inFlight := Some (next_attempt f) |>). assert (core hist s1) as Hc1 by (by apply core_attempt).
  assert (answers s1 = []) as Ha1 by exact Ha. apply app_eq_nil in Ha1 as Ha2. destruct Ha2 as [Hj Hcb].
  destruct (sendRequest_cases (ApplyBatch (f_batch f)) true (BatchAnswer (f_number f)) s1) as [->|(e & n & Hn & ->)]; [apply Hc1 | |].
  - split; [by apply core_requested|]. split; [|by intros _ _ Hx].
    unfold tokens_ok. change (inFlight (requested (BatchAnswer (f_number f)) s1)) with (Some (next_attempt f)). left. split; [by rewrite answers_requested, Ha1 | exact Hr].
  - rewrite jobs_of_for. split; [apply core_push; by apply core_sequence|]. split; [|by intros _ _ Hx].
    unfold tokens_ok. left. split; [|exact Hr]. rewrite answers_push. change (answers_in (map fst (jobs s1)) ++ [f_number f] ++ answers_in (jmap_values (callbacks s1)) = [f_number f]).
    by rewrite Hj, Hcb.
Qed.

(** ** Taking a batch *)

Lemma take_loop_spec q : forall c b es b', take_loop q c b = (es, b') ->
  exists tl, q = es ++ tl /\ b' = b + total es /\ (c = 0 -> q <> [] -> es <> []).
Proof.
  assert (0 < batchSize o) as Hsize.
  { unfold o, make_options. cbn [batchSize]. unfold positiveInteger, DEFAULT_BATCH_SIZE. destruct (raw_batchSize raw); [|done]. case_if; bool_hyps; lia. }
  induction q as [|e q IH]; intros c b es b'; cbn [take_loop].
  { intros [= <- <-]. exists []. split; [done|]. cbn. split; [lia | done]. }
  case_if; bool_hyps.
  2:{ intros [= <- <-]. exists (e :: q). split; [done|]. cbn. split; [lia|]. intros ->. lia. }
  destruct ((0 <? c) && (batchBytes o <? b + e_bytes e)) eqn:Hx.
  { intros [= <- <-]. exists (e :: q). split; [done|]. cbn. split; [lia|]. intros ->. done. }
  destruct (take_loop q (c + 1) (b + e_bytes e)) as [es1 b1] eqn:Et. intros [= <- <-]. destruct (IH _ _ _ _ Et) as (tl & -> & -> & _).
  exists tl. split; [done|]. cbn [total fold_right]. fold (total es1). split; [lia | done].
Qed.

(** The bounds of a batch: at most [batchSize] mutations, and at most [batchBytes] bytes unless it is a single one. *)
Lemma take_loop_bounds q : forall c b es b', 0 <= c <= batchSize o -> (c <= 1 \/ b <= batchBytes o) -> take_loop q c b = (es, b') ->
  c + blen es <= batchSize o /\ (c + blen es <= 1 \/ b' <= batchBytes o).
Proof.
  induction q as [|e q IH]; intros c b es b' Hc Hb; cbn [take_loop]; [intros [= <- <-]; change (blen (@nil entry)) with 0; lia|].
  case_if; bool_hyps; [|intros [= <- <-]; change (blen (@nil entry)) with 0; lia].
  destruct ((0 <? c) && (batchBytes o <? b + e_bytes e)) eqn:Hx; [intros [= <- <-]; change (blen (@nil entry)) with 0; lia|].
  destruct (take_loop q (c + 1) (b + e_bytes e)) as [es1 b1] eqn:Et. intros [= <- <-]. apply andb_false_iff in Hx.
  destruct (IH (c + 1) (b + e_bytes e) es1 b1) as [H1 H2]; [lia | destruct Hx as [Hx|Hx]; [left | right]; bool_hyps; lia | done |].
  unfold blen in *. cbn [length]. lia.
Qed.

Lemma compact_live s : live (compact_queue s) = live s.
Proof. unfold compact_queue. by case_if. Qed.

Lemma compact_head s : (queueHead s <= length (queue s))%nat -> (queueHead (compact_queue s) <= length (queue (compact_queue s)))%nat.
Proof. unfold compact_queue. case_if; [|done]. intros _. cbn. lia. Qed.

(** [compact_queue] changes nothing but the representation of the queue. *)
Lemma compact_frame s : exists q h, compact_queue s = s <| queue := q |> <| queueHead := h |>.
Proof. unfold compact_queue. case_if; [by eexists _, _|]. exists (queue s), (queueHead s). by destruct s. Qed.

Lemma live_length s : (queueHead s <= length (queue s))%nat -> getQueueLength s = blen (live s).
Proof. intros Hh. unfold getQueueLength, live, blen. rewrite length_drop. lia. Qed.

(** A batch of the first mutations of the queue. *)
Definition batch_of (now : N) (n : Z) (es : list entry) : batch :=
  let b := {| batchId := batch_id now n; createdAtMs := Z.of_N now; mutations := encodeBatchMutations stringify heap (map e_mutation es); includeDeltas := false |} in
  {| batchId := batchId b; createdAtMs := createdAtMs b; mutations := mutations b; includeDeltas := includeCommittedDeltas b |}.

Definition new_flight (s : client) (es : list entry) (bytes : Z) : in_flight :=
  {| entries := es; f_bytes := bytes; f_batch := batch_of (clock s) (batchSequence s + 1) es; f_number := batchSequence s + 1; attempts := 0 |}.

Definition launched (s : client) (es : list entry) (bytes : Z) : client :=
  let t := compact_queue (s <| queueHead := (queueHead s + length es)%nat |> <| queueBytes := queueBytes s - bytes |>) in
  t <| batchSequence := batchSequence s + 1 |> <| inFlightBytes := bytes |> <| inFlight := Some (new_flight s es bytes) |>.

(** What [flushNextBatch] does when it takes a batch. *)
Definition takes (s : client) : Prop := inFlight s = None /\ live s <> [] /\ failure s = None.

Lemma flush_idle s : (queueHead s <= length (queue s))%nat -> ~ takes s -> fst (flushNextBatch s) = fst (resolveIdleWaitersIfReady s).
Proof.
  intros Hh Hn. unfold flushNextBatch, get_this at 1. rewrite (live_length s Hh).
  assert (bool_decide (is_Some (inFlight s)) || (blen (live s) =? 0) || bool_decide (is_Some (failure s)) = true) as ->; [|done].
  destruct (inFlight s) eqn:Ei; [by rewrite bool_decide_eq_true_2 by (by eexists)|]. rewrite (bool_decide_eq_false_2 (is_Some None)) by (by intros []).
  destruct (failure s) eqn:Ef; [rewrite (bool_decide_eq_true_2 (is_Some (Some _))) by (by eexists); by rewrite !orb_true_r|].
  rewrite (bool_decide_eq_false_2 (is_Some None)) by (by intros []). rewrite orb_false_r. apply Z.eqb_eq. destruct (live s) as [|e l] eqn:El; [done|].
  exfalso. apply Hn. unfold takes. by rewrite Ei, El, Ef.
Qed.

Lemma flush_takes s : (queueHead s <= length (queue s))%nat -> takes s ->
  exists es tl p, live s = es ++ tl /\ es <> [] /\ take_loop (live s) 0 0 = (es, total es) /\
    fst (flushNextBatch s) = fst (sendInFlightBatch ((launched s es (total es)) <| paused := p |>)).
Proof.
  intros Hh (Hi & Hl & Hf). unfold flushNextBatch, get_this at 1. rewrite (live_length s Hh), Hi, Hf.
  rewrite !(bool_decide_eq_false_2 (is_Some None)) by (by intros []).
  assert ((blen (live s) =? 0) = false) as ->. { apply Z.eqb_neq. destruct (live s); [done|]. unfold blen. cbn [length]. lia. }
  cbn [orb]. unfold takeBatch, get_this at 1. destruct (take_loop (live s) 0 0) as [es b'] eqn:Et.
  destruct (take_loop_spec _ _ _ _ _ Et) as (tl & Hq & -> & Hne). specialize (Hne eq_refl Hl). rewrite Z.add_0_l in *.
  rewrite fst_seq, fst_assign, fst_seq, fst_assign. unfold makeBatch. rewrite fst_seq, fst_assign. unfold get_this at 1. rewrite fst_seq, fst_assign, fst_seq.
  match goal with |- context [updateBackpressure ?x] => destruct (updateBackpressure_state x) as [p ->] end.
  exists es, tl, p. split; [done|]. split; [done|]. split; [done|]. f_equal. f_equal. f_equal.
  set (t := compact_queue _). destruct (compact_frame (s <| queueHead := (queueHead s + length es)%nat |> <| queueBytes := queueBytes s - total es |>)) as (q & h & E).
  unfold launched, new_flight. fold t in E |- *. rewrite E. reflexivity.
Qed.

Lemma order_live hist s : order_ok hist s -> (queueHead s <= length (queue s))%nat.
Proof. by intros (H & _). Qed.

Lemma launched_pendings s es tl bytes : inFlight s = None -> live s = es ++ tl -> pendings (launched s es bytes) = pendings s /\ live (launched s es bytes) = tl.
Proof.
  intros Hi Hl. assert (live (launched s es bytes) = tl) as Ht.
  { change (live (launched s es bytes)) with (live (compact_queue (s <| queueHead := (queueHead s + length es)%nat |> <| queueBytes := queueBytes s - bytes |>))).
    rewrite compact_live. change (drop (queueHead s + length es) (queue s) = tl). rewrite <- drop_drop. change (drop (length es) (live s) = tl). rewrite Hl. by rewrite drop_app_length. }
  split; [|done]. unfold pendings. rewrite Ht. unfold flying. rewrite Hi. cbn [app]. by rewrite Hl.
Qed.

Lemma launched_fields s es bytes :
  committedMutationSequence (launched s es bytes) = committedMutationSequence s /\ mutationSequence (launched s es bytes) = mutationSequence s /\
  queueBytes (launched s es bytes) = queueBytes s - bytes /\ callbacks (launched s es bytes) = callbacks s /\
  requestSequence (launched s es bytes) = requestSequence s /\ jobs (launched s es bytes) = jobs s /\ idleWaiters (launched s es bytes) = idleWaiters s /\
  fenceWaiters (launched s es bytes) = fenceWaiters s /\ failure (launched s es bytes) = failure s /\ worker (launched s es bytes) = worker s /\
  retryTimer (launched s es bytes) = retryTimer s.
Proof.
  unfold launched. destruct (compact_frame (s <| queueHead := (queueHead s + length es)%nat |> <| queueBytes := queueBytes s - bytes |>)) as (q & h & ->). done.
Qed.

Lemma core_launched hist s es tl : inFlight s = None -> live s = es ++ tl -> es <> [] -> core hist s -> core hist (launched s es (total es)).
Proof.
  intros Hi Hl Hne (Ho & Hc & Hb & Hw). destruct (launched_pendings s es tl (total es) Hi Hl) as [Hp Ht].
  destruct (launched_fields s es (total es)) as (F1 & F2 & F3 & F4 & F5 & F6 & F7 & F8 & F9 & F10 & F11).
  destruct Ho as (H1 & H2 & H3 & H4 & H5 & H6 & H7 & H8 & H9 & H10 & H11). split; [|split; [|split]].
  - unfold order_ok. rewrite Hp, Ht, F1, F2, F3. split.
    { apply compact_head. change (queueHead s + length es <= length (queue s))%nat. apply (f_equal length) in Hl. unfold live in Hl.
      rewrite length_drop, length_app in Hl. lia. }
    do 6 (split; [done|]). split; [rewrite H8, Hl, total_app; lia|]. split; [done|].
    split; [change (0 <= batchSequence s + 1); lia|].
    unfold flight_ok. change (inFlight (launched s es (total es))) with (Some (new_flight s es (total es))). split; [done|]. split; [done|].
    split; [change (0 < batchSequence s + 1 <= batchSequence s + 1); lia|]. split; [by exists (clock s) | done].
  - unfold calls_ok. rewrite F4, F5. exact Hc.
  - unfold no_batch. rewrite F7, F8. exact Hb.
  - unfold waiters_ok. rewrite Hp, F1, F2, F7, F8, F9. exact Hw.
Qed.

Lemma no_batch_idle s : no_batch s -> answers_in (idleWaiters s) = [].
Proof. by intros []. Qed.

Lemma inv_flush hist s : core hist s -> tokens_ok s -> inv hist (fst (flushNextBatch s)).
Proof.
  intros Hc Ht. pose proof Hc as (Ho & Hk & Hb & Hw). pose proof (order_live _ _ Ho) as Hh.
  assert (takes s \/ ~ takes s) as [Htk|Hn].
  { unfold takes. destruct (inFlight s), (live s), (failure s); (left; by repeat split) || (right; by intros (? & ? & ?)). }
  - destruct (flush_takes s Hh Htk) as (es & tl & p & Hl & Hne & _ & ->). destruct Htk as (Hi & _ & Hf).
    set (s1 := launched s es (total es)). assert (core hist s1) as Hc1 by (by eapply core_launched).
    destruct (launched_fields s es (total es)) as (F1 & F2 & F3 & F4 & F5 & F6 & F7 & F8 & F9 & F10 & F11).
    unfold tokens_ok in Ht. rewrite Hi in Ht. destruct Ht as [Ha Hr].
    apply inv_send; [exact Hc1 | | | by intros _ _ Hx].
    + unfold answers. change (jobs (s1 <| paused := p |>)) with (jobs s1). change (callbacks (s1 <| paused := p |>)) with (callbacks s1). unfold s1. rewrite F4, F6. exact Ha.
    + change (retryTimer s1 = false). unfold s1. by rewrite F11.
  - rewrite flush_idle by done. rewrite resolveIdle_state by done.
    assert (wake_ok s) as Hwk. { intros Hf Hwr Hi Hl. exfalso. by apply Hn. }
    case_bool_decide; [case_bool_decide|]; cbn [andb]; try (by split).
    assert (inv hist s) as Hinv by done.
    unfold all_idle_resolved. apply inv_push; [by apply no_batch_idle|]. split; [|by split].
    split; [exact Ho|]. split; [exact Hk|]. split; [by destruct Hb|]. destruct Hw as [W1 W2]. split; [intros Hf; by destruct (W1 Hf)|].
    intros Hf. destruct (W2 Hf) as [_ W]. split; [done | exact W].
Qed.

(** ** A batch was committed *)

Lemma split_sequences c (es tl : list entry) : map e_sequence (es ++ tl) = seqZ (c + 1) (blen (es ++ tl)) ->
  map e_sequence es = seqZ (c + 1) (blen es) /\ map e_sequence tl = seqZ (c + blen es + 1) (blen tl).
Proof.
  rewrite map_app, blen_app, seqZ_app by (pose proof (blen_nonneg es); pose proof (blen_nonneg tl); lia). intros H.
  replace (c + blen es + 1) with (c + 1 + blen es) by lia.
  apply app_inj_1 in H as [H1 H2]; [done|]. rewrite length_map, length_seqZ. unfold blen. lia.
Qed.

Lemma last_sequence c (es : list entry) : map e_sequence es = seqZ (c + 1) (blen es) -> es <> [] ->
  exists e, list.last es = Some e /\ e_sequence e = c + blen es.
Proof.
  intros H Hne. destruct (exists_last Hne) as (es' & e & ->). exists e. split; [by rewrite last_snoc|].
  apply (f_equal list.last) in H. rewrite map_app in H. cbn [map] in H. rewrite last_snoc in H.
  rewrite blen_app in H |- *. change (blen [e]) with 1 in H |- *. rewrite seqZ_app in H by (pose proof (blen_nonneg es'); lia).
  change (seqZ (c + 1 + blen es') 1) with [c + 1 + blen es'] in H. rewrite last_snoc in H. injection H as ->. lia.
Qed.

Definition committed_state (f : in_flight) (s : client) : client :=
  s <| committedMutationSequence := committedMutationSequence s + blen (entries f) |> <| inFlight := None |> <| inFlightBytes := 0 |>.

Lemma core_committed hist f s : core hist s -> inFlight s = Some f ->
  order_ok hist (committed_state f s) /\
  match list.last (entries f) with
  | Some lastEntry => s <| committedMutationSequence := Z.max (committedMutationSequence s) (e_sequence lastEntry) |>
  | None => s
  end <| inFlight := None |> <| inFlightBytes := 0 |> = committed_state f s.
Proof.
  intros (Ho & _) Hf. destruct Ho as (H1 & H2 & H3 & H4 & H5 & H6 & H7 & H8 & H9 & H10 & H11).
  unfold pendings, flying in *. rewrite Hf in *. unfold flight_ok in H11. rewrite Hf in H11. destruct H11 as (Hne & _).
  destruct (split_sequences _ _ _ H3) as [S1 S2]. destruct (last_sequence _ _ S1 Hne) as (e & -> & He). pose proof (blen_nonneg (entries f)) as Hb.
  split.
  2:{ rewrite He. unfold committed_state. rewrite Z.max_r by lia. done. }
  split; [exact H1|]. change (pendings (committed_state f s)) with (live s). change (committedMutationSequence (committed_state f s)) with (committedMutationSequence s + blen (entries f)).
  rewrite map_app in H2. rewrite blen_app in H5. apply Forall_app in H7 as [_ H7].
  split.
  { rewrite Z2Nat.inj_add, Nat.add_comm, <- drop_drop by lia. rewrite drop_drop, Nat.add_comm, <- drop_drop, <- H2. unfold blen. rewrite Nat2Z.id.
    rewrite drop_app_ge by (by rewrite length_map). rewrite length_map, Nat.sub_diag. done. }
  split; [exact S2|]. split; [exact H4|]. split; [change (mutationSequence (committed_state f s)) with (mutationSequence s); lia|]. split; [lia|].
  split; [exact H7|]. split; [exact H8|]. split; [done|]. by split.
Qed.

(** What is left to do behind a commit. *)
Definition flush_scheduled (s : client) : client :=
  if bool_decide (live s = []) then s else s <| flushTimer := flushTimer s || negb (bool_decide (is_Some (failure s))) |>.

Definition after_commit (s : client) (p : bool) : client :=
  let t := flush_scheduled (s <| paused := p |>) in
  fences_resolved (if bool_decide (live t = []) then all_idle_resolved t else t).

Lemma batch_then_state hist n f s : core hist s -> inFlight s = Some f -> f_number f = n ->
  exists p, fst (batch_then n s) = after_commit (committed_state f s) p.
Proof.
  intros Hc Hf <-. unfold batch_then, get_this at 1. unfold is_in_flight. rewrite Hf, Z.eqb_refl. destruct (core_committed hist f s Hc Hf) as [Ho He].
  rewrite fst_seq, fst_assign, fst_seq, fst_assign, He. set (t := committed_state f s) in *. rewrite fst_seq. destruct (updateBackpressure_state t) as [p ->]. exists p.
  set (t1 := t <| paused := p |>). pose proof (order_live _ _ Ho) as Hh. assert (inFlight t1 = None) as Hi by done.
  rewrite fst_seq. assert (fst ((this s => if 0 <? getQueueLength s then scheduleFlush 0 else skip) t1) =
    flush_scheduled t1) as ->.
  { unfold get_this, flush_scheduled. rewrite (live_length t1 Hh). destruct (live t1) as [|e l]; [by rewrite bool_decide_eq_true_2|].
    rewrite bool_decide_eq_false_2 by done. decide_test (0 <? blen (e :: l)) true. rewrite scheduleFlush_state, Hi. by rewrite bool_decide_eq_false_2 by (by intros []). }
  rewrite fst_seq, fst_seq, fst_emit, resolveFence_state. unfold after_commit. fold t1.
  set (t2 := flush_scheduled t1).
  assert (queueHead t2 = queueHead t1 /\ queue t2 = queue t1 /\ inFlight t2 = None) as (Q1 & Q2 & Q3) by (unfold t2, flush_scheduled; by case_bool_decide).
  rewrite resolveIdle_state by (by rewrite Q1, Q2). by rewrite Q3, (bool_decide_eq_true_2 (None = None)).
Qed.

Lemma answers_filter (f : Z * continuation -> bool) l : answers_in (map snd l) = [] -> answers_in (map snd (List.filter f l)) = [].
Proof.
  induction l as [|w l IH]; [done|]. cbn [map List.filter]. change (snd w :: map snd l) with ([snd w] ++ map snd l). rewrite answers_in_app.
  intros [H1 H2]%app_eq_nil. destruct (f w); [|by apply IH]. change (map snd (w :: List.filter f l)) with ([snd w] ++ map snd (List.filter f l)). by rewrite answers_in_app, H1, IH.
Qed.

(** The last step: fences that are reached. *)
Lemma inv_fences hist s : order_ok hist s -> calls_ok s -> no_batch s -> tokens_ok s -> wake_ok s ->
  (failure s <> None -> idleWaiters s = [] /\ fenceWaiters s = []) ->
  (failure s = None -> (idleWaiters s <> [] -> pendings s <> []) /\ forall w, w ∈ fenceWaiters s -> fst w <= mutationSequence s) ->
  inv hist (fences_resolved s).
Proof.
  intros Ho Hk Hb Ht Hwk W1 W2. unfold fences_resolved. apply inv_push; [apply answers_filter, Hb|].
  split; [|by split]. split; [exact Ho|]. split; [exact Hk|]. split; [split; [apply Hb | apply answers_filter, Hb]|]. split.
  - intros Hf. destruct (W1 Hf) as [Hi Hfe]. split; [exact Hi|]. change (List.filter (fun w => negb (reached s w)) (fenceWaiters s) = []). by rewrite Hfe.
  - intros Hf. destruct (W2 Hf) as [Hi Hfe]. split; [exact Hi|]. intros w Hw. change (w ∈ List.filter (fun w => negb (reached s w)) (fenceWaiters s)) in Hw.
    apply list_elem_of_In, filter_In in Hw as [Hin Hr]. apply list_elem_of_In, Hfe in Hin. unfold reached in Hr. bool_hyps.
    change (committedMutationSequence s < fst w <= mutationSequence s). lia.
Qed.

Lemma flush_scheduled_ok hist t : order_ok hist t -> calls_ok t -> no_batch t -> answers t = [] -> retryTimer t = false -> inFlight t = None ->
  let t1 := flush_scheduled t in
  order_ok hist t1 /\ calls_ok t1 /\ no_batch t1 /\ answers t1 = [] /\ retryTimer t1 = false /\ inFlight t1 = None /\ wake_ok t1 /\
  idleWaiters t1 = idleWaiters t /\ fenceWaiters t1 = fenceWaiters t /\ failure t1 = failure t /\ worker t1 = worker t /\ mutationSequence t1 = mutationSequence t.
Proof.
  intros Ho Hk Hb Ha Hr Hi. cbv zeta. unfold flush_scheduled. case_bool_decide as Hl; (do 6 (split; [done|])); (split; [|done]).
  - by intros _ _ _ Hx.
  - intros Hf' _ _ _. change (flushTimer t || negb (bool_decide (is_Some (failure t))) = true). change (failure t = None) in Hf'. rewrite Hf'.
    rewrite bool_decide_eq_false_2 by (by intros []). by rewrite orb_true_r.
Qed.

(** The facts about waiting promises, while they are settled. *)
Definition waiters_bound (s : client) : Prop :=
  (failure s <> None -> idleWaiters s = [] /\ fenceWaiters s = []) /\
  (failure s = None -> forall w, w ∈ fenceWaiters s -> fst w <= mutationSequence s).

Lemma inv_after_commit hist s p : order_ok hist s -> calls_ok s -> no_batch s -> answers s = [] -> retryTimer s = false -> inFlight s = None -> waiters_bound s ->
  inv hist (after_commit s p).
Proof.
  intros Ho Hk Hb Ha Hr Hi Hw. unfold after_commit. set (u := s <| paused := p |>).
  assert (order_ok hist u /\ calls_ok u /\ no_batch u /\ answers u = [] /\ retryTimer u = false /\ inFlight u = None /\ waiters_bound u) as H by done.
  clearbody u. clear Ho Hk Hb Ha Hr Hi Hw. destruct H as (Ho & Hk & Hb & Ha & Hr & Hi & Hw1 & Hw2).
  destruct (flush_scheduled_ok hist u) as (I1 & I2 & I3 & I4 & I5 & I6 & I7 & I9 & I10 & I11 & I12 & I13); [done..|].
  rewrite <- I9, <- I10, <- I11 in Hw1. rewrite <- I10, <- I11, <- I13 in Hw2. clear I9 I10 I11 I12 I13 Ho Hk Hb Ha Hr Hi.
  generalize dependent (flush_scheduled u). clear u. intros t Hw1 Hw2 I1 I2 I3 I4 I5 I6 I7.
  assert (pendings t = live t) as Hp by (unfold pendings, flying; by rewrite I6). case_bool_decide as Hl.
  - assert (answers (all_idle_resolved t) = []) as Ha2 by (etrans; [apply answers_push_quiet; by apply no_batch_idle | exact I4]).
    apply inv_fences; [exact I1 | exact I2 | split; [done | apply I3] | | exact I7 | |].
    + unfold tokens_ok. change (inFlight (all_idle_resolved t)) with (inFlight t). rewrite I6. split; [exact Ha2 | exact I5].
    + intros F. destruct (Hw1 F) as [_ H]. split; [done | exact H].
    + intros F1. split; [done | exact (Hw2 F1)].
  - apply inv_fences; try done; [unfold tokens_ok; by rewrite I6|]. intros F1. split; [by rewrite Hp | exact (Hw2 F1)].
Qed.

Lemma inv_then hist n f s : core hist s -> inFlight s = Some f -> f_number f = n -> answers s = [] -> retryTimer s = false -> inv hist (fst (batch_then n s)).
Proof.
  intros Hc Hf Hn Ha Hr. destruct (batch_then_state hist n f s Hc Hf Hn) as [p ->]. destruct (core_committed hist f s Hc Hf) as [Ho _].
  destruct Hc as (_ & Hk & Hb & Hw1 & Hw2). apply inv_after_commit; [exact Ho | exact Hk | exact Hb | exact Ha | exact Hr | done |].
  split; [exact Hw1|]. intros F1 w Hin. destruct (Hw2 F1) as [_ H]. change (fst w <= mutationSequence s). by destruct (H w Hin).
Qed.

(** ** A batch was refused *)

Definition requeued (f : in_flight) (s : client) : client :=
  s <| inFlight := None |> <| inFlightBytes := 0 |> <| queue := entries f ++ drop (queueHead s) (queue s) |> <| queueHead := 0%nat |>
    <| queueBytes := queueBytes s + f_bytes f |>.

Lemma requeued_ok hist f s : core hist s -> inFlight s = Some f -> answers s = [] -> retryTimer s = false ->
  core hist (requeued f s) /\ tokens_ok (requeued f s).
Proof.
  intros (Ho & Hk & Hb & Hw) Hf Ha Hr. destruct Ho as (H1 & H2 & H3 & H4 & H5 & H6 & H7 & H8 & H9 & H10 & H11).
  assert (pendings (requeued f s) = pendings s) as Hp by (unfold pendings, flying; rewrite Hf; done).
  unfold flight_ok in H11. rewrite Hf in H11. destruct H11 as (_ & Hfb & _). split.
  - split; [|split; [exact Hk|]; split; [exact Hb|]; unfold waiters_ok; rewrite Hp; exact Hw].
    unfold order_ok. rewrite Hp. split; [change (0 <= length (queue (requeued f s)))%nat; lia|].
    split; [exact H2|]. split; [exact H3|]. split; [exact H4|]. split; [exact H5|]. split; [exact H6|]. split; [exact H7|].
    split; [change (queueBytes s + f_bytes f = total (entries f ++ live s)); rewrite total_app; lia|]. split; [done|]. split; [exact H10 | done].
  - unfold tokens_ok. change (inFlight (requeued f s)) with (@None in_flight). split; [exact Ha | exact Hr].
Qed.

Lemma inv_paused hist p s : inv hist s -> inv hist (s <| paused := p |>).
Proof. intros H. exact H. Qed.

Lemma inv_catch hist n e f s : core hist s -> inFlight s = Some f -> f_number f = n -> answers s = [] -> retryTimer s = false -> inv hist (fst (batch_catch n e s)).
Proof.
  intros Hc Hf <- Ha Hr. unfold batch_catch, get_this. unfold is_in_flight. rewrite Hf, Z.eqb_refl.
  destruct ((attempts f <=? batchRetryLimit o) && worker s && negb (bool_decide (is_Some (failure s)))) eqn:Hretry.
  - rewrite fst_seq, fst_emit, fst_assign. split; [exact Hc|]. split; [|intros _ _ Hx; change (inFlight s = None) in Hx; congruence].
    unfold tokens_ok. change (inFlight (s <| retryTimer := true |>)) with (inFlight s). rewrite Hf. right. left. split; [exact Ha | done].
  - rewrite fst_seq, fst_assign, fst_seq. fold (requeued f s). destruct (requeued_ok hist f s Hc Hf Ha Hr) as [Hct Htt].
    assert (failure (requeued f s) <> None -> wake_ok (requeued f s)) as Hwk by (by intros H1 H2).
    generalize dependent (requeued f s). intros t Hct Htt Hwk. destruct (updateBackpressure_state (fst (handleWorkerFailure e t))) as [p ->].
    apply inv_paused. by apply inv_failure.
Qed.
(** ** The end of a client *)

Definition closed (s : client) : client := s <| flushTimer := false |> <| retryTimer := false |> <| worker := false |> <| workerAlive := false |>.

Lemma close_finally_state e s : fst (close_finally e s) = rejected_all (default ClientClosed e) (closed s).
Proof.
  unfold close_finally. rewrite fst_seq, clearFlushTimer_state, fst_seq, clearRetryTimer_state, fst_seq, fst_assign. fold (closed s).
  match goal with |- fst (?f _) = rejected_all ?err _ => assert (forall x, fst (f x) = rejected_all err x) as Hx end; [|by rewrite Hx].
  intros x. rewrite <- reject_all_state, !fst_seq. unfold get_this. by destruct (closePromise _).
Qed.

Lemma close_finally_inv hist e s : inv hist s -> inv hist (fst (close_finally e s)).
Proof.
  intros ((Ho & Hk & Hb & Hw) & Ht & Hwk). rewrite close_finally_state. apply inv_rejected; [exact Ho | exact Hk | exact Hb | | by intros _ Hx].
  unfold tokens_ok in *. change (inFlight (closed s)) with (inFlight s). change (answers (closed s)) with (answers s). destruct (inFlight s); [|by destruct Ht].
  destruct Ht as [[H _]|[[H _]|(H & _)]]; [by left|..]; right; right; (split; [exact H|]; split; [done | by right]).
Qed.

Lemma close_resumes_inv hist stage v s : inv hist s -> inv hist (fst (close_resumes stage v s)).
Proof. intros Hi. destruct v; [destruct stage|]; cbn [close_resumes]; (by apply inv_request) || by apply close_finally_inv. Qed.

(** ** The microtasks *)

Lemma inv_pop hist s k v tl : ans k = [] -> inv hist s -> jobs s = (k, v) :: tl -> inv hist (s <| jobs := tl |>).
Proof.
  intros Hk (Hc & Ht & Hw) Hj. split; [exact Hc|]. split; [|exact Hw].
  assert (answers (s <| jobs := tl |>) = answers s) as Ha.
  { unfold answers. rewrite Hj. change (jobs (s <| jobs := tl |>)) with tl. change (callbacks (s <| jobs := tl |>)) with (callbacks s).
    change (map fst ((k, v) :: tl)) with ([k] ++ map fst tl). rewrite answers_in_app. unfold answers_in at 3. cbn [map concat]. by rewrite Hk. }
  unfold tokens_ok in *. change (inFlight (s <| jobs := tl |>)) with (inFlight s). change (retryTimer (s <| jobs := tl |>)) with (retryTimer s).
  rewrite Ha. exact Ht.
Qed.

(** The answer that is handled is that of the batch in flight. *)
Lemma batch_answered s n v tl : tokens_ok s -> jobs s = (BatchAnswer n, v) :: tl ->
  exists f, inFlight s = Some f /\ f_number f = n /\ answers (s <| jobs := tl |>) = [] /\ retryTimer s = false.
Proof.
  intros Ht Hj. assert (answers s = n :: answers (s <| jobs := tl |>)) as Ha by (unfold answers; rewrite Hj; done).
  unfold tokens_ok in Ht. rewrite Ha in Ht. destruct (inFlight s) as [f|]; [|by destruct Ht].
  destruct Ht as [[[= Hn H] Hr]|[[H _]|[H _]]]; try done. by exists f.
Qed.

Lemma inv_job hist s j tl : inv hist s -> jobs s = j :: tl -> inv hist (fst (do_job j (s <| jobs := tl |>))).
Proof.
  intros Hi Hj. destruct j as [k v]. pose proof (fun Hk => inv_pop hist s k v tl Hk Hi Hj) as Hp.
  destruct k as [p|n|p r|stage]; cbn [do_job].
  - by apply Hp.
  - destruct Hi as (Hc & Ht & _). destruct (batch_answered s n v tl Ht Hj) as (f & Hf & Hn & Ha & Hr).
    destruct v; [by apply (inv_then hist n f) | by apply (inv_catch hist n e f)].
  - destruct v; [apply inv_request; [done | by apply Hp] | by apply Hp].
  - apply close_resumes_inv. by apply Hp.
Qed.

Lemma inv_jobs hist fuel : forall s, inv hist s -> inv hist (fst (run_jobs fuel s)).
Proof.
  induction fuel as [|n IH]; intros s Hi; cbn [run_jobs]; unfold get_this; destruct (jobs s) as [|j tl] eqn:Hj; try exact Hi.
  rewrite fst_seq, fst_assign, fst_seq. apply IH. by apply inv_job.
Qed.
(** ** The microtasks end *)

(** [t] has at most [n] more to settle than [s]. *)
Definition weighs (s t : client) (n : nat) : Prop := (weight t <= weight s + n)%nat.

Lemma weighs_trans s t u a b : weighs s t a -> weighs t u b -> weighs s u (a + b).
Proof. unfold weighs. lia. Qed.

Lemma weighs_same s t : jobs t = jobs s -> callbacks t = callbacks s -> idleWaiters t = idleWaiters s -> fenceWaiters t = fenceWaiters s -> weighs s t 0.
Proof. intros H1 H2 H3 H4. unfold weighs, weight. rewrite H1, H2, H3, H4. lia. Qed.

Lemma total_weight_app a b : total_weight (a ++ b) = (total_weight a + total_weight b)%nat.
Proof. unfold total_weight. rewrite map_app. apply list_sum_app. Qed.

Lemma total_weight_cons k l : total_weight (k :: l) = (continuation_weight k + total_weight l)%nat.
Proof. done. Qed.

Lemma total_weight_jobs v ks : (total_weight (map fst (jobs_for v ks)) <= total_weight ks)%nat.
Proof.
  induction ks as [|k ks IH]; [done|]. change (jobs_for v (k :: ks)) with (jobs_of v k ++ jobs_for v ks).
  rewrite map_app, total_weight_app, total_weight_cons. destruct k; cbn [jobs_of map fst]; rewrite ?total_weight_cons; change (total_weight []) with 0%nat; lia.
Qed.

Lemma weighs_push v ks s : weighs s (push_jobs (jobs_for v ks) s) (total_weight ks).
Proof.
  unfold weighs, weight. change (jobs (push_jobs (jobs_for v ks) s)) with (jobs s ++ jobs_for v ks).
  change (callbacks (push_jobs (jobs_for v ks) s)) with (callbacks s). change (idleWaiters (push_jobs (jobs_for v ks) s)) with (idleWaiters s).
  change (fenceWaiters (push_jobs (jobs_for v ks) s)) with (fenceWaiters s). rewrite map_app, total_weight_app. pose proof (total_weight_jobs v ks). lia.
Qed.

(** Waiting promises that are settled keep their weight. *)
Lemma weighs_moved v ks s t : jobs t = jobs s ->
  (total_weight ks + total_weight (jmap_values (callbacks t)) + total_weight (idleWaiters t) + total_weight (map snd (fenceWaiters t)) <=
   total_weight (jmap_values (callbacks s)) + total_weight (idleWaiters s) + total_weight (map snd (fenceWaiters s)))%nat ->
  weighs s (push_jobs (jobs_for v ks) t) 0.
Proof.
  intros Hj Hw. pose proof (weighs_push v ks t) as W. unfold weighs, weight in *. rewrite Hj in W. lia.
Qed.

Lemma weighs_rejected e s : weighs s (rejected_all e s) 0.
Proof.
  unfold rejected_all. apply weighs_moved; [done|]. rewrite !total_weight_app.
  set (t := _ <| fenceWaiters := _ |>). change (callbacks t) with (@nil (jsstring * continuation)). change (idleWaiters t) with (@nil continuation).
  change (fenceWaiters t) with (@nil (Z * continuation)). change (total_weight (jmap_values [])) with 0%nat. change (total_weight []) with 0%nat.
  change (total_weight (map snd [])) with 0%nat. lia.
Qed.

Lemma weighs_failure e s : weighs s (fst (handleWorkerFailure e s)) 0.
Proof.
  rewrite handleWorkerFailure_state. destruct (failure s); [by apply weighs_same|].
  apply (weighs_trans s (s <| failure := Some e |>) _ 0 0); [by apply weighs_same | apply weighs_rejected].
Qed.

Lemma weighs_idle s : weighs s (all_idle_resolved s) 0.
Proof.
  unfold all_idle_resolved. apply weighs_moved; [done|]. set (t := s <| idleWaiters := [] |>). change (idleWaiters t) with (@nil continuation).
  change (callbacks t) with (callbacks s). change (fenceWaiters t) with (fenceWaiters s). change (total_weight []) with 0%nat. lia.
Qed.

Lemma weighs_fences s : weighs s (fences_resolved s) 0.
Proof.
  unfold fences_resolved. apply weighs_moved; [done|]. change (callbacks (s <| fenceWaiters := List.filter (fun w => negb (reached s w)) (fenceWaiters s) |>)) with (callbacks s).
  change (idleWaiters (s <| fenceWaiters := List.filter (fun w => negb (reached s w)) (fenceWaiters s) |>)) with (idleWaiters s).
  change (fenceWaiters (s <| fenceWaiters := List.filter (fun w => negb (reached s w)) (fenceWaiters s) |>)) with (List.filter (fun w => negb (reached s w)) (fenceWaiters s)).
  enough (total_weight (map snd (List.filter (reached s) (fenceWaiters s))) + total_weight (map snd (List.filter (fun w => negb (reached s w)) (fenceWaiters s))) =
    total_weight (map snd (fenceWaiters s)))%nat by lia.
  induction (fenceWaiters s) as [|w l IH]; [done|]. cbn [List.filter]. destruct (reached s w); cbn [negb map];
rewrite !total_weight_cons; lia.
Qed.

Lemma weighs_commit s p : weighs s (after_commit s p) 0.
Proof.
  unfold after_commit. set (t := flush_scheduled (s <| paused := p |>)).
  assert (weighs s t 0) as H1 by (unfold t, flush_scheduled; case_bool_decide; by apply weighs_same). clearbody t.
  apply (weighs_trans s t _ 0 0 H1). case_bool_decide; [|apply weighs_fences]. apply (weighs_trans t (all_idle_resolved t) _ 0 0); [apply weighs_idle | apply weighs_fences].
Qed.

Lemma weighs_request r a k s : calls_ok s -> weighs s (fst (sendRequest r a k s)) (continuation_weight k).
Proof.
  intros Hc. destruct (sendRequest_cases r a k s Hc) as [->|(e & n & _ & ->)].
  - unfold weighs, weight. change (jobs (requested k s)) with (jobs s). change (idleWaiters (requested k s)) with (idleWaiters s). change (fenceWaiters (requested k s)) with (fenceWaiters s).
    change (callbacks (requested k s)) with (callbacks s ++ [(request_id (clock s) (requestSequence s + 1), k)]). unfold jmap_values. rewrite map_app, total_weight_app.
    cbn [map snd]. unfold total_weight at 3. cbn [map list_sum fold_right]. lia.
  - rewrite jobs_of_for. replace (continuation_weight k) with (total_weight [k]) by (unfold total_weight; cbn; lia).
    apply (weighs_trans s (s <| requestSequence := n |>) _ 0); [by apply weighs_same | apply weighs_push].
Qed.

Lemma weighs_resumed stage v s : calls_ok s -> (S (weight (fst (close_resumes stage v s))) <= weight s + continuation_weight (Closing stage))%nat.
Proof.
  intros Hc. assert (forall e, weighs s (fst (close_finally e s)) 0) as Hf.
  { intros e. rewrite close_finally_state. apply (weighs_trans s (closed s) _ 0 0); [by apply weighs_same | apply weighs_rejected]. }
  destruct v as [|e]; [destruct stage|]; cbn [close_resumes].
  - pose proof (weighs_request Checkpoint true (Closing Checkpointed) s Hc) as H. unfold weighs in H. cbn [continuation_weight] in *. lia.
  - pose proof (weighs_request CloseStore true (Closing StoreClosed) s Hc) as H. unfold weighs in H. cbn [continuation_weight] in *. lia.
  - pose proof (Hf None) as H. unfold weighs in H. cbn [continuation_weight]. lia.
  - pose proof (Hf (Some e)) as H. unfold weighs in H. destruct stage; cbn [continuation_weight]; lia.
Qed.

Lemma weighs_catch hist n e f s : core hist s -> inFlight s = Some f -> f_number f = n -> weighs s (fst (batch_catch n e s)) 0.
Proof.
  intros Hc Hf <-. unfold batch_catch, get_this. unfold is_in_flight. rewrite Hf, Z.eqb_refl. case_if; [by apply weighs_same|].
  rewrite fst_seq, fst_assign, fst_seq. fold (requeued f s). destruct (updateBackpressure_state (fst (handleWorkerFailure e (requeued f s)))) as [p ->].
  apply (weighs_trans s (requeued f s) _ 0 0); [by apply weighs_same|]. apply (weighs_trans _ (fst (handleWorkerFailure e (requeued f s))) _ 0 0); [apply weighs_failure|].
  generalize (fst (handleWorkerFailure e (requeued f s))). intros t. by apply weighs_same.
Qed.

Lemma job_weighs hist s j tl : inv hist s -> jobs s = j :: tl -> (S (weight (fst (do_job j (s <| jobs := tl |>)))) <= weight s)%nat.
Proof.
  intros Hi Hj. set (t := s <| jobs := tl |>). assert (weight s = continuation_weight (fst j) + weight t)%nat as Hw.
  { unfold weight. rewrite Hj. change (jobs t) with tl. change (callbacks t) with (callbacks s). change (idleWaiters t) with (idleWaiters s).
    change (fenceWaiters t) with (fenceWaiters s). cbn [map]. rewrite total_weight_cons. lia. }
  assert (core hist t) as Hc by apply Hi. destruct j as [k v]. cbn [fst] in Hw. destruct k as [p|n|p r|stage]; cbn [do_job].
  - change (fst (skip t)) with t. cbn [continuation_weight] in Hw. lia.
  - destruct Hi as (_ & Ht & _). destruct (batch_answered s n v tl Ht Hj) as (f & Hf & Hn & _). cbn [continuation_weight] in Hw. destruct v as [|e].
    + destruct (batch_then_state hist n f t Hc Hf Hn) as [p ->].
      assert (weighs t (after_commit (committed_state f t) p) 0) as H; [|unfold weighs in H; lia].
      apply (weighs_trans t (committed_state f t) _ 0 0); [by apply weighs_same | apply weighs_commit].
    + pose proof (weighs_catch hist n e f t Hc Hf Hn) as H. unfold weighs in H. lia.
  - cbn [continuation_weight] in Hw. destruct v as [|e]; [|rewrite fst_emit; lia].
    pose proof (weighs_request r false (Caller p) t (proj1 (proj2 Hc))) as H. unfold weighs in H. cbn [continuation_weight] in H. lia.
  - pose proof (weighs_resumed stage v t (proj1 (proj2 Hc))) as H. lia.
Qed.

Lemma jobs_end hist fuel : forall s, inv hist s -> (weight s <= fuel)%nat -> jobs (fst (run_jobs fuel s)) = [].
Proof.
  induction fuel as [|n IH]; intros s Hi Hw; cbn [run_jobs]; unfold get_this; destruct (jobs s) as [|j tl] eqn:Hj; try done.
  - pose proof (Nat.le_trans _ _ _ (job_weighs hist s j tl Hi Hj) Hw) as Hx. by apply Nat.nle_succ_0 in Hx.
  - rewrite fst_seq, fst_assign, fst_seq. apply IH; [by apply inv_job|]. exact (le_S_n _ _ (Nat.le_trans _ _ _ (job_weighs hist s j tl Hi Hj) Hw)).
Qed.

(** ** Calls *)

(** What a call leaves as it is. *)
Definition same_marks (s t : client) : Prop :=
  pendings t = pendings s /\ failure t = failure s /\ mutationSequence t = mutationSequence s /\ committedMutationSequence t = committedMutationSequence s.

Lemma same_marks_trans s t u : same_marks s t -> same_marks t u -> same_marks s u.
Proof. intros (H1 & H2 & H3 & H4) (J1 & J2 & J3 & J4). unfold same_marks. by rewrite J1, J2, J3, J4. Qed.

Lemma request_marks r a k s : calls_ok s -> same_marks s (fst (sendRequest r a k s)).
Proof. intros Hc. by destruct (sendRequest_cases r a k s Hc) as [->|(e & n & _ & ->)]. Qed.

Lemma send_marks s : calls_ok s -> same_marks s (fst (sendInFlightBatch s)).
Proof.
  intros Hc. unfold sendInFlightBatch, get_this. destruct (inFlight s) as [f|] eqn:Hf; [|done]. destruct (failure s) eqn:He; [done|].
  rewrite fst_seq, fst_assign. eapply same_marks_trans; [|by apply request_marks].
  unfold same_marks, pendings, flying. by rewrite Hf.
Qed.

Lemma send_paused_marks s t p : calls_ok t -> same_marks s t -> same_marks s (fst (sendInFlightBatch (t <| paused := p |>))).
Proof. intros Hc Hm. apply (same_marks_trans s (t <| paused := p |>)); [exact Hm | by apply send_marks]. Qed.

Lemma flush_marks hist s : core hist s -> same_marks s (fst (flushNextBatch s)).
Proof.
  intros Hc. pose proof Hc as (Ho & Hk & Hb & Hw). pose proof (order_live _ _ Ho) as Hh.
  assert (takes s \/ ~ takes s) as [Htk|Hn].
  { unfold takes. destruct (inFlight s), (live s), (failure s); (left; by repeat split) || (right; by intros (? & ? & ?)). }
  - destruct (flush_takes s Hh Htk) as (es & tl & p & Hl & Hne & _ & ->). destruct Htk as (Hi & _ & Hf).
    destruct (launched_fields s es (total es)) as (F1 & F2 & F3 & F4 & F5 & F6 & F7 & F8 & F9 & F10 & F11).
    assert (core hist (launched s es (total es))) as Hc1 by (by eapply core_launched).
    apply send_paused_marks; [exact (proj1 (proj2 Hc1))|]. destruct (launched_pendings s es tl (total es) Hi Hl) as [Hp _].
    unfold same_marks. by rewrite Hp, F1, F2, F9.
  - rewrite flush_idle, resolveIdle_state by done. by case_if.
Qed.

Lemma no_pendings hist s : order_ok hist s -> pendings s = [] -> inFlight s = None /\ live s = [].
Proof.
  intros (_ & _ & _ & _ & _ & _ & _ & _ & _ & _ & Hf) [H1 H2]%app_eq_nil. split; [|done]. unfold flying, flight_ok in *.
  destruct (inFlight s) as [f|]; [|done]. by destruct Hf.
Qed.

Lemma flush_waits hist s : inv hist s ->
  exists t, fst (flushNextBatch (fst (clearFlushTimer s))) = t /\ inv hist t /\ same_marks s t.
Proof.
  intros (Hc & Ht & _). rewrite clearFlushTimer_state. eexists. split; [done|]. split; [by apply inv_flush|].
  apply (same_marks_trans s (s <| flushTimer := false |>)); [done | by apply (flush_marks hist)].
Qed.

Lemma inv_drain hist k s : ans k = [] -> inv hist s -> inv hist (fst (drain k s)).
Proof.
  intros Hk Hi. unfold drain, get_this. destruct (failure s) as [e|] eqn:Hf; [by apply inv_settle|].
  rewrite (live_length s (order_live hist s (proj1 (proj1 Hi)))).
  destruct (negb (bool_decide (is_Some (inFlight s))) && (blen (live s) =? 0)) eqn:Hx; [by apply inv_settle|].
  assert (pendings s <> []) as Hp.
  { intros Hp. destruct (no_pendings hist s (proj1 (proj1 Hi)) Hp) as [H1 H2]. by rewrite H1, H2 in Hx. }
  rewrite fst_seq, fst_seq, fst_assign. destruct (flush_waits hist s Hi) as (t & -> & Ht & M1 & M2 & _). rewrite <- M1 in Hp. rewrite <- M2 in Hf.
  destruct Ht as ((Ho & Hk2 & [Hb1 Hb2] & [Hw1 Hw2]) & Ht2 & Hwk).
  split; [|by split]. split; [exact Ho|]. split; [exact Hk2|]. split.
  - split; [|exact Hb2]. change (answers_in (idleWaiters t ++ [k]) = []). rewrite answers_in_app, Hb1. unfold answers_in. cbn [map concat]. by rewrite Hk.
  - split; [by intros F|]. intros F. split; [by intros _|]. by apply Hw2.
Qed.

Lemma inv_fence hist k s : ans k = [] -> inv hist s -> inv hist (fst (fence k s)).
Proof.
  intros Hk Hi. unfold fence, get_this. case_if; [by apply inv_settle|]. destruct (failure s) as [e|] eqn:Hf; [by apply inv_settle|].
  destruct (mutationSequence s <=? committedMutationSequence s) eqn:Hx; [by apply inv_settle|]. apply Z.leb_gt in Hx.
  rewrite fst_seq, fst_seq, fst_assign. destruct (flush_waits hist s Hi) as (t & -> & Ht & _ & M2 & M3 & M4). rewrite <- M2 in Hf. rewrite <- M3, <- M4 in Hx. rewrite <- M3.
  destruct Ht as ((Ho & Hk2 & [Hb1 Hb2] & [Hw1 Hw2]) & Ht2 & Hwk).
  split; [|by split]. split; [exact Ho|]. split; [exact Hk2|]. split.
  - split; [exact Hb1|]. change (answers_in (map snd (fenceWaiters t ++ [(mutationSequence t, k)])) = []). rewrite map_app, answers_in_app, Hb2. unfold answers_in. cbn [map snd concat]. by rewrite Hk.
  - split; [by intros F|]. intros F. split; [by apply Hw2|]. intros w Hw. change (w ∈ fenceWaiters t ++ [(mutationSequence t, k)]) in Hw.
    apply list.elem_of_app in Hw as [Hw|Hw]; [by apply Hw2|]. apply list_elem_of_singleton in Hw as ->. cbn [fst]. split; [exact Hx | reflexivity].
Qed.

Lemma core_enqueued hist m s : core hist s ->
  core (hist ++ [m]) (s <| mutationSequence := mutationSequence s + 1 |>
    <| queue := queue s ++ [{| e_mutation := m; e_bytes := estimateMutationBytes heap m; e_sequence := mutationSequence s + 1 |}] |>
    <| queueBytes := queueBytes s + estimateMutationBytes heap m |>).
Proof.
  intros (Ho & Hk & Hb & [Hw1 Hw2]). set (e := {| e_mutation := m; e_bytes := _; e_sequence := _ |}). set (t := _ <| queueBytes := _ |>).
  destruct Ho as (H1 & H2 & H3 & H4 & H5 & H6 & H7 & H8 & H9 & H10 & H11).
  assert (live t = live s ++ [e]) as Hl by (change (drop (queueHead s) (queue s ++ [e]) = live s ++ [e]); by rewrite drop_app_le).
  assert (pendings t = pendings s ++ [e]) as Hp by (unfold pendings; rewrite Hl; change (flying t) with (flying s); by rewrite app_assoc).
  pose proof (blen_nonneg (pendings s)). split; [|split; [exact Hk|]; split; [exact Hb|]].
  - unfold order_ok. rewrite Hp, Hl, !map_app, !blen_app. change (blen [e]) with 1. change (blen [m]) with 1.
    change (committedMutationSequence t) with (committedMutationSequence s). change (mutationSequence t) with (mutationSequence s + 1).
    split. { change (queueHead s <= length (queue s ++ [e]))%nat. rewrite length_app. lia. }
    split. { rewrite H2, drop_app_le; [done|]. unfold blen in *. lia. }
    split. { rewrite H3, seqZ_app by lia. f_equal. cbn [map e e_sequence]. change (seqZ (committedMutationSequence s + 1 + blen (pendings s)) 1)
        with [committedMutationSequence s + 1 + blen (pendings s)]. f_equal. lia. }
    split; [lia|]. split; [lia|]. split; [exact H6|]. split; [apply Forall_app; split; [exact H7 | by constructor]|].
    split. { rewrite total_app. change (queueBytes s + e_bytes e = total (live s) + (e_bytes e + 0)). lia. }
    split; [exact H9|]. split; [exact H10 | exact H11].
  - split; [exact Hw1|]. intros F. destruct (Hw2 F) as [_ W]. rewrite Hp. split; [intros _; by destruct (pendings s)|].
    intros w Hw. change (fenceWaiters t) with (fenceWaiters s) in Hw. specialize (W w Hw).
    change (committedMutationSequence s < fst w <= mutationSequence s + 1). lia.
Qed.

Lemma scheduled_inv hist d s : core hist s -> tokens_ok s -> inv hist (fst (scheduleFlush d s)).
Proof.
  intros Hc Ht. rewrite scheduleFlush_state. split; [exact Hc|]. split; [exact Ht|]. intros Hf _ Hi _.
  change (flushTimer s || negb (bool_decide (is_Some (inFlight s))) && negb (bool_decide (is_Some (failure s))) = true).
  change (failure s = None) in Hf. change (inFlight s = None) in Hi. rewrite Hf, Hi, !bool_decide_eq_false_2 by (by intros []). by rewrite orb_true_r.
Qed.

(** The mutations that an event adds. *)
Definition accepts (s : client) (e : client_event) : list (mutation (X := X)) :=
  match e with
  | CallEnqueue m => if readOnly o || negb (worker s) || closing s || bool_decide (is_Some (failure s)) then [] else [m]
  | _ => []
  end.

Lemma inv_enqueue hist m s : inv hist s -> inv (hist ++ accepts s (CallEnqueue m)) (fst (enqueue m s)).
Proof.
  intros Hi. unfold enqueue, get_this at 1. cbn [accepts]. destruct (readOnly o); [by rewrite app_nil_r|]. destruct (worker s); [|by rewrite app_nil_r].
  destruct (closing s); [by rewrite app_nil_r|]. cbn [negb orb]. destruct (failure s) as [e|]; [by rewrite bool_decide_eq_true_2, app_nil_r by done|].
  rewrite bool_decide_eq_false_2 by (by intros []). rewrite fst_seq, fst_assign, fst_seq, fst_assign, fst_seq.
  destruct Hi as (Hc & Ht & _). pose proof (core_enqueued hist m s Hc) as Hc2. cbv beta.
  set (t := _ <| queueBytes := _ |>) in Hc2. match goal with |- context [updateBackpressure ?x] => change x with t end.
  assert (tokens_ok t) as Ht2 by exact Ht. clearbody t. destruct (updateBackpressure_state t) as [p ->].
  assert (core (hist ++ [m]) (t <| paused := p |>) /\ tokens_ok (t <| paused := p |>)) as Hu by done.
  generalize dependent (t <| paused := p |>). intros u [Hc3 Ht3]. unfold get_this. case_if; by apply scheduled_inv.
Qed.

(** [open] is not called while mutations of an ended client are kept. *)
Definition admissible (s : client) (e : client_event) : Prop := e = CallOpen -> worker s = true \/ pendings s = [].

Lemma inv_opened hist s : pendings s = [] -> inv hist s -> inv hist (s <| worker := true |> <| workerAlive := true |>).
Proof.
  intros Hp (Hc & Ht & _). destruct (no_pendings hist s (proj1 Hc) Hp) as [Hf Hl]. split; [exact Hc|]. split; [|by intros _ _ _ Hx].
  unfold tokens_ok in *. change (inFlight (s <| worker := true |> <| workerAlive := true |>)) with (inFlight s). rewrite Hf in *. exact Ht.
Qed.

Lemma inv_failure_of hist e s : inv hist s -> inv hist (fst (handleWorkerFailure e s)).
Proof. intros (Hc & Ht & Hw). by apply inv_failure. Qed.

Lemma inv_close hist s : inv hist s -> inv hist (fst (closeInternal s)).
Proof.
  intros Hi. unfold closeInternal, get_this. case_if; [by destruct (closePromise s)|]. rewrite fst_seq, fst_assign.
  assert (inv hist (s <| closing := true |>)) as Ht by exact Hi. generalize dependent (s <| closing := true |>). intros t Ht.
  case_if; [by apply close_finally_inv|]. case_if; [by apply inv_drain | by apply inv_request].
Qed.

Lemma inv_timer hist t s : inv hist s -> inv hist (fst (on_event (TimerFires t) s)).
Proof.
  intros Hi. destruct Hi as (Hc & Ht & Hw). destruct t; cbn [on_event]; unfold get_this.
  - destruct (flushTimer s); [|by split]. rewrite fst_seq, fst_assign. by apply inv_flush.
  - destruct (retryTimer s) eqn:Hx; [|by split]. rewrite fst_seq, fst_assign. unfold tokens_ok in Ht. rewrite Hx in Ht. destruct (inFlight s) eqn:Hf; [|by destruct Ht]. destruct Ht as [[_ ?]|[[Ha _]|(_ & ? & _)]]; try done.
    apply inv_send; [exact Hc | exact Ha | done|]. intros _ _ Hi. change (inFlight s = None) in Hi. congruence.
Qed.

Lemma tokens_perm s t : inFlight t = inFlight s -> retryTimer t = retryTimer s -> failure t = failure s -> worker t = worker s ->
  answers t ≡ₚ answers s -> tokens_ok s -> tokens_ok t.
Proof.
  intros H1 H2 H3 H4 Hp. unfold tokens_ok. rewrite H1, H2, H3, H4. destruct (inFlight s).
  - intros [[H Hr]|[[H Hr]|(H & Hr)]]; rewrite H in Hp; [apply Permutation_singleton_r in Hp; by left | apply Permutation_nil_r in Hp; by right; left |].
    apply Permutation_nil_r in Hp. by right; right.
  - intros [H Hr]. rewrite H in Hp. by apply Permutation_nil_r in Hp.
Qed.

Lemma answers_in_perm a b : a ≡ₚ b -> answers_in a ≡ₚ answers_in b.
Proof.
  induction 1 as [|x a b _ IH|x y a|a b c _ IH1 _ IH2]; [done|..].
  - change (ans x ++ answers_in a ≡ₚ ans x ++ answers_in b). by rewrite IH.
  - change (ans y ++ ans x ++ answers_in a ≡ₚ ans x ++ ans y ++ answers_in a). apply Permutation_app_swap_app.
  - by etrans.
Qed.

Lemma inv_message hist id v s : inv hist s -> inv hist (fst (handleMessage id v s)).
Proof.
  intros Hi. unfold handleMessage, get_this. destruct (jmap_get (callbacks s) id) as [k|] eqn:Hg; [|exact Hi]. rewrite fst_seq, fst_assign, settle_state, jobs_of_for.
  destruct Hi as ((Ho & (Hk & Hz & Hids) & Hb & Hw) & Ht & Hwk). split; [|split; [|exact Hwk]].
  - split; [exact Ho|]. split; [|by split]. split; [by apply (jmap_ok_delete (callbacks s))|]. split; [exact Hz|].
    intros x Hx. apply Hids. by apply (jmap_keys_delete (callbacks s) id).
  - apply (tokens_perm s); [done..| |exact Ht]. rewrite answers_push. change (jobs (s <| callbacks := jmap_delete (callbacks s) id |>)) with (jobs s).
    change (callbacks (s <| callbacks := jmap_delete (callbacks s) id |>)) with (jmap_delete (callbacks s) id). unfold answers. apply Permutation_app_head.
    rewrite <- answers_in_app. apply answers_in_perm. unfold jmap_values. rewrite (jmap_delete_perm _ _ _ Hg) at 2. done.
Qed.

Lemma inv_event hist e s : admissible s e -> inv hist s -> inv (hist ++ accepts s e) (fst (on_event e s)).
Proof.
  intros Ha Hi. assert (forall n, inv hist (s <| issued := n |>)) as Hn by (intros n; exact Hi).
  destruct e as [|m|op| | |source|query fenced|suppress|t|id v|code|code]; try (by apply inv_enqueue); cbn [accepts]; rewrite app_nil_r; cbn [on_event];
    unfold promised, get_this; try (by apply inv_timer || by apply inv_message); rewrite ?fst_seq, ?fst_assign.
  - change (worker (s <| issued := S (issued s) |>)) with (worker s). destruct (worker s) eqn:Hw; [by apply inv_request|].
    destruct (Ha eq_refl) as [?|Hp]; [congruence|]. rewrite fst_seq, fst_emit, fst_seq, fst_assign. apply inv_request; [done|].
    apply inv_opened; [exact Hp | apply Hn].
  - by apply inv_request.
  - by apply inv_drain.
  - by apply inv_fence.
  - case_if; [apply Hn | by apply inv_fence].
  - case_if; [by apply inv_fence | by apply inv_request].
  - destruct (closePromise s); [exact Hi|]. rewrite fst_seq, fst_assign, fst_seq, fst_assign. apply inv_close. exact Hi.
  - apply inv_failure_of. exact Hi.
  - case_if; [apply inv_failure_of; exact Hi|]. rewrite reject_all_state. destruct Hi as ((Ho & Hk & Hb & _) & Ht & Hwk).
    apply inv_rejected; [exact Ho | exact Hk | exact Hb | exact Ht | exact Hwk].
Qed.

(** ** A client at work *)

Lemma inv_timed hist now e s : admissible s e -> inv hist s -> inv (hist ++ accepts s e) (fst (on_event e (s <| clock := now |>))).
Proof.
  intros Ha Hi. assert (accepts s e = accepts (s <| clock := now |>) e) as -> by (by destruct e). apply inv_event; [exact Ha | exact Hi].
Qed.

Lemma client_inv_step hist now e s : admissible s e -> inv hist s -> inv (hist ++ accepts s e) (fst (client_step now e s)).
Proof.
  intros Ha Hi. unfold client_step. rewrite fst_seq, fst_assign, fst_seq. unfold microtasks, get_this. apply inv_jobs. by apply inv_timed.
Qed.

Lemma step_jobs hist now e s : admissible s e -> inv hist s -> jobs (fst (client_step now e s)) = [].
Proof.
  intros Ha Hi. unfold client_step. rewrite fst_seq, fst_assign, fst_seq. unfold microtasks, get_this.
  eapply jobs_end; [|done]. by apply (inv_timed hist).
Qed.

Lemma inv_new : inv [] new_client.
Proof.
  split; [|split; [done|by intros _ _ _ Hx]]. split; [|split; [|split; [done|]]].
  - unfold order_ok, flight_ok. cbn. repeat split; try done; try constructor; lia.
  - split; [apply jmap_ok_nil|]. split; [done|]. by intros id ?%elem_of_nil.
  - split; [done|]. intros _. split; [done|]. by intros w ?%elem_of_nil.
Qed.

(** A client after some events: the mutations it accepted, its state, and what it did. *)
Inductive runs : list (mutation (X := X)) -> client -> list client_effect -> Prop :=
| runs_new : runs [] new_client []
| runs_step hist s out now e : runs hist s out -> admissible s e ->
    runs (hist ++ accepts s e) (fst (client_step now e s)) (out ++ snd (client_step now e s)).

Lemma runs_inv hist s out : runs hist s out -> inv hist s /\ jobs s = [].
Proof.
  induction 1 as [|hist s out now e _ [Hi _] Ha]; [by split; [apply inv_new|]|].
  split; [by apply client_inv_step | by eapply step_jobs].
Qed.
(** ** What was committed *)

(** The batches that were reported as committed. *)
Definition commits (out : list client_effect) : list batch := concat (map (fun e => match e with OnCommittedBatch b => [b] | _ => [] end) out).

(** The mutations that the worker found in these batches. *)
Definition committed_mutations (out : list client_effect) : list (plain_mutation (X := X)) :=
  concat (map (fun b => decodeBatchMutations (mutations b)) (commits out)).

Definition no_commit (e : client_effect) : Prop := match e with OnCommittedBatch _ => False | _ => True end.

(** An action that commits nothing. *)
Definition calm (a : act) : Prop := forall c, keeps (fun s => committedMutationSequence s = c) no_commit a.

Lemma commits_app a b : commits (a ++ b) = commits a ++ commits b.
Proof. unfold commits. by rewrite map_app, concat_app. Qed.

Lemma committed_app a b : committed_mutations (a ++ b) = committed_mutations a ++ committed_mutations b.
Proof. unfold committed_mutations. by rewrite commits_app, map_app, concat_app. Qed.

Lemma no_commits out : Forall no_commit out -> commits out = [].
Proof. induction 1 as [|e out He _ IH]; [done|]. change (e :: out) with ([e] ++ out). rewrite commits_app, IH. by destruct e. Qed.

Lemma calm_state a s : calm a -> committedMutationSequence (fst (a s)) = committedMutationSequence s /\ commits (snd (a s)) = [].
Proof. intros Ha. destruct (Ha _ s eq_refl) as [H1 H2]. split; [exact H1 | by apply no_commits]. Qed.

Lemma calm_seq (a b : act) : calm a -> calm b -> calm (a ;;; b).
Proof. intros Ha Hb c. by apply keeps_seq. Qed.

Lemma calm_skip : calm skip.
Proof. intros c. apply keeps_skip. Qed.

Lemma calm_emit e : no_commit e -> calm (emit e).
Proof. intros He c. by apply keeps_emit. Qed.

Lemma calm_assign f : (forall s, committedMutationSequence (f s) = committedMutationSequence s) -> calm (assign f).
Proof. intros Hf c. apply keeps_assign. intros s <-. apply Hf. Qed.

Lemma calm_this (k : client -> act) : (forall s, calm (k s)) -> calm (get_this k).
Proof. intros Hk c s Hs. by apply (Hk s c s). Qed.

Lemma calm_each {A} (l : list A) k : (forall x, calm (k x)) -> calm (each l k).
Proof. intros Hk c. apply keeps_each. intros x. apply Hk. Qed.

Lemma calm_settle k v : calm (settle k v).
Proof. unfold settle. destruct k; (apply calm_assign; done) || (apply calm_emit; by destruct v). Qed.
Create HintDb calm discriminated.
#[local] Hint Constants Opaque : calm.
#[local] Hint Resolve calm_settle : calm.

Ltac calm_step :=
  lazymatch goal with
  | |- calm (seq_action _ _) => apply calm_seq
  | |- calm (get_this _) => apply calm_this; intros ?
  | |- calm (each _ _) => apply calm_each; intros ?
  | |- calm skip => apply calm_skip
  | |- calm (emit _) => apply calm_emit; exact I
  | |- calm (assign _) => apply calm_assign; intros ?; reflexivity
  | |- calm (match ?x with _ => _ end) => destruct x
  | |- calm (let x := ?v in @?b x) => change (calm (b v)); cbv beta
  | |- calm _ => solve [auto 2 with calm nocore]
  end.

Ltac calm := repeat calm_step.

Lemma calm_rejections e : calm (rejectCallbacks e) /\ calm (rejectIdleWaiters e) /\ calm (rejectFenceWaiters e).
Proof. split; [|split]; [unfold rejectCallbacks | unfold rejectIdleWaiters | unfold rejectFenceWaiters]; calm. Qed.

Lemma calm_callbacks e : calm (rejectCallbacks e).
Proof. apply calm_rejections. Qed.
Lemma calm_idle e : calm (rejectIdleWaiters e).
Proof. apply calm_rejections. Qed.
Lemma calm_fences e : calm (rejectFenceWaiters e).
Proof. apply calm_rejections. Qed.
#[local] Hint Resolve calm_callbacks calm_idle calm_fences : calm.

Lemma calm_failure e : calm (handleWorkerFailure e).
Proof. unfold handleWorkerFailure. calm. Qed.

Lemma calm_request r a k : calm (sendRequest r a k).
Proof. unfold sendRequest. calm. Qed.

Lemma calm_message id v : calm (handleMessage id v).
Proof. unfold handleMessage. calm. Qed.

Lemma calm_pressure : calm updateBackpressure.
Proof. unfold updateBackpressure. calm. Qed.

Lemma calm_schedule d : calm (scheduleFlush d).
Proof. unfold scheduleFlush. calm. Qed.

Lemma calm_idle_ready : calm resolveIdleWaitersIfReady.
Proof. unfold resolveIdleWaitersIfReady. calm. Qed.

Lemma calm_fence_ready : calm resolveFenceWaiters.
Proof. unfold resolveFenceWaiters. calm. Qed.

Lemma calm_clear : calm clearFlushTimer /\ calm clearRetryTimer.
Proof. split; [unfold clearFlushTimer | unfold clearRetryTimer]; calm. Qed.

Lemma calm_clear_flush : calm clearFlushTimer.
Proof. apply calm_clear. Qed.
Lemma calm_clear_retry : calm clearRetryTimer.
Proof. apply calm_clear. Qed.
#[local] Hint Resolve calm_failure calm_request calm_message calm_pressure calm_schedule calm_idle_ready calm_fence_ready calm_clear_flush calm_clear_retry : calm.

Lemma calm_send : calm sendInFlightBatch.
Proof. unfold sendInFlightBatch. calm. Qed.
#[local] Hint Resolve calm_send : calm.

Lemma compact_committed s : committedMutationSequence (compact_queue s) = committedMutationSequence s.
Proof. unfold compact_queue. by case_if. Qed.

Lemma calm_flush : calm flushNextBatch.
Proof.
  unfold flushNextBatch, takeBatch, makeBatch. calm. apply calm_assign. intros ?. apply compact_committed.
Qed.
#[local] Hint Resolve calm_flush : calm.

Lemma calm_drain k : calm (drain k).
Proof. unfold drain. calm. Qed.

Lemma calm_fence k : calm (fence k).
Proof. unfold fence. calm. Qed.
#[local] Hint Resolve calm_drain calm_fence : calm.

Lemma calm_finally e : calm (close_finally e).
Proof. unfold close_finally. calm. Qed.
#[local] Hint Resolve calm_finally : calm.

Lemma calm_resumes stage v : calm (close_resumes stage v).
Proof. unfold close_resumes. calm. Qed.

Lemma calm_catch n e : calm (batch_catch n e).
Proof. unfold batch_catch. calm. Qed.
#[local] Hint Resolve calm_resumes calm_catch : calm.

Lemma calm_event e : calm (on_event e).
Proof. destruct e; cbn [on_event]; unfold promised, enqueue, closeInternal; calm. Qed.
(** What was committed is the beginning of what was accepted. *)
Definition done_ok (hist : list (mutation (X := X))) (s : client) (out : list client_effect) : Prop :=
  committed_mutations out = map (plain heap) (take (Z.to_nat (committedMutationSequence s)) hist).

Lemma done_calm hist (a : act) s out : calm a -> done_ok hist s out -> done_ok hist (fst (a s)) (out ++ snd (a s)).
Proof.
  intros Ha Hd. destruct (calm_state a s Ha) as [Hc Ho]. unfold done_ok. rewrite committed_app, Hc. unfold committed_mutations at 2. rewrite Ho.
  cbn [map concat]. by rewrite app_nil_r.
Qed.

Lemma snd_seq (a b : act) s : snd ((a ;;; b) s) = snd (a s) ++ snd (b (fst (a s))).
Proof. unfold seq_action. destruct (a s) as [s1 o1]. cbn [fst snd]. by destruct (b s1). Qed.

Lemma commits_behind (a b : act) s : calm a -> commits (snd ((a ;;; b) s)) = commits (snd (b (fst (a s)))).
Proof. intros Ha. rewrite snd_seq, commits_app. by rewrite (proj2 (calm_state a s Ha)). Qed.

Lemma then_commits n f s : inFlight s = Some f -> f_number f = n -> commits (snd (batch_then n s)) = [f_batch f].
Proof.
  intros Hf <-. unfold batch_then, get_this at 1. unfold is_in_flight. rewrite Hf, Z.eqb_refl. rewrite snd_seq, commits_app. cbn [snd assign].
  change (commits [] ++ ?x) with x. do 5 (rewrite commits_behind by calm). done.
Qed.

Lemma commit_mark s p : committedMutationSequence (after_commit s p) = committedMutationSequence s.
Proof.
  unfold after_commit. set (t := flush_scheduled (s <| paused := p |>)).
  assert (committedMutationSequence t = committedMutationSequence s) as <- by (unfold t, flush_scheduled; by case_bool_decide). clearbody t. by case_bool_decide.
Qed.

Lemma done_job hist s j tl out : inv hist s -> jobs s = j :: tl -> done_ok hist s out ->
  done_ok hist (fst (do_job j (s <| jobs := tl |>))) (out ++ snd (do_job j (s <| jobs := tl |>))).
Proof.
  intros Hi Hj Hd. set (t := s <| jobs := tl |>). assert (done_ok hist t out) as Hdt by exact Hd. assert (core hist t) as Hc by apply Hi.
  destruct j as [[p|n|p r|stage] v]; cbn [do_job]; try (apply done_calm; [|exact Hdt]; destruct v; calm; fail).
  destruct v as [|e]; [|apply done_calm; [calm | exact Hdt]].
  destruct (batch_answered s n Fulfilled tl (proj1 (proj2 Hi)) Hj) as (f & Hf & Hn & _). destruct (batch_then_state hist n f t Hc Hf Hn) as [p ->].
  unfold done_ok in *. rewrite commit_mark, committed_app, Hdt. unfold committed_mutations. rewrite (then_commits n f t Hf Hn).
  change (committedMutationSequence (committed_state f t)) with (committedMutationSequence t + blen (entries f)).
  destruct Hc as ((H1 & H2 & H3 & H4 & H5 & H6 & H7 & H8 & H9 & H10 & H11) & _). unfold flight_ok in H11. unfold pendings, flying in H2.
  change (inFlight s = Some f) with (inFlight t = Some f) in Hf. rewrite Hf in H2, H11. destruct H11 as (_ & _ & _ & _ & Hm).
  cbn [map concat]. rewrite app_nil_r, Hm, batch_decodes. rewrite Z2Nat.inj_add by (done || apply blen_nonneg). unfold blen at 1. rewrite Nat2Z.id.
  rewrite <- take_take_drop, map_app, <- H2, map_app. by rewrite take_app_length' by (by rewrite length_map).
Qed.

Lemma done_jobs hist fuel : forall s out, inv hist s -> done_ok hist s out -> done_ok hist (fst (run_jobs fuel s)) (out ++ snd (run_jobs fuel s)).
Proof.
  induction fuel as [|n IH]; intros s out Hi Hd; cbn [run_jobs]; unfold get_this; destruct (jobs s) as [|j tl] eqn:Hj; try (by rewrite app_nil_r).
  rewrite fst_seq, snd_seq. cbn [assign fst snd app]. rewrite fst_seq, snd_seq, app_assoc. apply IH; [by apply inv_job|]. by apply done_job.
Qed.

Lemma done_accepted hist l s out : committedMutationSequence s <= blen hist -> done_ok hist s out -> done_ok (hist ++ l) s out.
Proof. intros Hc. unfold done_ok. unfold blen in Hc. by rewrite take_app_le by lia. Qed.

Lemma committed_bound hist s : order_ok hist s -> committedMutationSequence s <= blen hist.
Proof. intros (_ & _ & _ & H4 & H5 & _). pose proof (blen_nonneg (pendings s)). lia. Qed.

Lemma runs_done hist s out : runs hist s out -> done_ok hist s out.
Proof.
  induction 1 as [|hist s out now e Hr IH Ha]; [done|]. destruct (runs_inv hist s out Hr) as [Hi _].
  unfold client_step. rewrite fst_seq, snd_seq. cbn [assign fst snd app]. rewrite fst_seq, snd_seq, app_assoc. unfold microtasks, get_this at 1 2.
  apply done_jobs; [by apply inv_timed|]. apply done_calm; [apply calm_event|]. apply done_accepted; [|exact IH]. apply (committed_bound hist s), Hi.
Qed.

Lemma answers_in_elem n (m : jmap jsstring continuation) : n ∈ answers_in (jmap_values m) -> exists id, (id, BatchAnswer n) ∈ m.
Proof.
  induction m as [|[id k] m IH]; [by intros ?%elem_of_nil|]. change (answers_in (jmap_values ((id, k) :: m))) with (ans k ++ answers_in (jmap_values m)).
  rewrite list.elem_of_app. intros [Hn|Hn]; [|destruct (IH Hn) as [x Hx]; exists x; by right].
  exists id. destruct k as [| | |]; cbn [ans] in Hn; try (by apply elem_of_nil in Hn). apply list_elem_of_singleton in Hn as ->. by left.
Qed.

(** C17: the mutations that a client accepted are those that the worker has committed, batch by batch, followed by those that
    wait: none is lost, doubled or moved, whatever the worker answers, and whether or not the client fails or is closed. *)
Theorem bmp_mutations_in_order hist s out : runs hist s out ->
  map (plain heap) hist = committed_mutations out ++ map (fun e => plain heap (e_mutation e)) (pendings s).
Proof.
  intros Hr. destruct (runs_inv hist s out Hr) as [((Ho & _) & _) _]. rewrite (runs_done hist s out Hr). destruct Ho as (_ & H2 & _).
  rewrite <- (map_map e_mutation (plain heap)), H2, <- map_app. by rewrite take_drop.
Qed.

(** A client that works is never stuck: while a mutation waits, a timer runs, or the worker has the batch and owes the answer. *)
Theorem bmp_commit_under_way hist s out : runs hist s out -> pendings s <> [] -> failure s = None -> worker s = true ->
  flushTimer s = true \/ retryTimer s = true \/
  exists f id, inFlight s = Some f /\ jmap_get (callbacks s) id = Some (BatchAnswer (f_number f)).
Proof.
  intros Hr Hp Hf Hw. destruct (runs_inv hist s out Hr) as [((Ho & (Hk & _) & _) & Ht & Hwk) Hj]. unfold tokens_ok in Ht.
  destruct (inFlight s) as [f|] eqn:Hi.
  - destruct Ht as [[Ha _]|[[_ H]|(_ & _ & [H|H])]]; [|by right; left | done | congruence]. right; right. unfold answers in Ha. rewrite Hj in Ha.
    destruct (answers_in_elem (f_number f) (callbacks s)) as (id & Hin); [cbn in Ha; by rewrite Ha; left|].
    exists f, id. split; [done|]. by apply jmap_get_elem.
  - left. apply Hwk; [done..|]. unfold pendings, flying in Hp. by rewrite Hi in Hp.
Qed.
(** * Backpressure *)

(** Sources are paused from the high to the low watermark; a client that failed lets none go on. *)
Definition pressure_ok (s : client) : Prop :=
  (paused s = false -> bufferedBytes s < highWatermarkBytes o \/ bufferedBytes s <= lowWatermarkBytes o) /\
  (paused s = true -> failure s = None -> lowWatermarkBytes o <= bufferedBytes s).

(** Behind a fence waits a caller or a purge. *)
Definition fenced (k : continuation) : Prop := match k with Caller _ | AfterFence _ _ => True | _ => False end.

Definition steady_ok (s : client) : Prop := pressure_ok s /\ Forall fenced (map snd (fenceWaiters s)).

Definition steady (a : act) : Prop := keeps steady_ok (fun _ => True) a.

(** An action that ends steady wherever it begins. *)
Definition settles (a : act) : Prop := forall s, Forall fenced (map snd (fenceWaiters s)) -> steady_ok (fst (a s)).

Lemma watermarks : 0 < lowWatermarkBytes o <= highWatermarkBytes o.
Proof.
  unfold o, make_options. cbn [lowWatermarkBytes highWatermarkBytes].
  assert (forall v d, 0 < d -> 0 < positiveInteger v d) as H by (intros [n|] d Hd; cbn [positiveInteger]; [case_if; bool_hyps; lia | done]).
  pose proof (H (raw_highWatermarkBytes raw) DEFAULT_HIGH_WATERMARK_BYTES ltac:(done)). pose proof (H (raw_lowWatermarkBytes raw) DEFAULT_LOW_WATERMARK_BYTES ltac:(done)). lia.
Qed.

Lemma update_settles : settles updateBackpressure.
Proof.
  intros s Hf. pose proof watermarks as Hw. unfold updateBackpressure, get_this.
  destruct (negb (paused s) && (highWatermarkBytes o <=? bufferedBytes s)) eqn:H1; bool_hyps.
  { rewrite fst_seq, fst_emit, fst_assign. split; [|exact Hf]. split; [done|]. intros _ _. change (lowWatermarkBytes o <= bufferedBytes s). lia. }
  destruct (paused s && negb (bool_decide (is_Some (failure s))) && (bufferedBytes s <=? lowWatermarkBytes o)) eqn:H2; bool_hyps.
  { rewrite fst_seq, fst_emit, fst_assign. split; [|exact Hf]. split; [|done]. intros _. right. change (bufferedBytes s <= lowWatermarkBytes o). lia. }
  split; [|exact Hf]. change (fst (skip s)) with s. split.
  - intros Hp. rewrite Hp in H1. cbn [negb andb] in H1. bool_hyps. by left; lia.
  - intros Hp Hx. rewrite Hp, Hx in H2. rewrite bool_decide_eq_false_2 in H2 by (by intros []). cbn [negb andb] in H2. bool_hyps. lia.
Qed.

Lemma settles_steady a : settles a -> steady a.
Proof. intros Ha s [_ Hf]. split; [by apply Ha | by apply Forall_true]. Qed.

Lemma settles_seq (a b : act) : keeps (fun s => Forall fenced (map snd (fenceWaiters s))) (fun _ => True) a -> settles b -> settles (a ;;; b).
Proof. intros Ha Hb s Hf. rewrite fst_seq. apply Hb. by apply Ha. Qed.

Lemma settles_before (a b : act) : settles a -> steady b -> settles (a ;;; b).
Proof. intros Ha Hb s Hf. rewrite fst_seq. by apply Hb, Ha. Qed.

Lemma settles_this (k : client -> act) : (forall s, settles (k s)) -> settles (get_this k).
Proof. intros Hk s. apply (Hk s s). Qed.

Lemma steady_seq (a b : act) : steady a -> steady b -> steady (a ;;; b).
Proof. intros Ha Hb. by apply keeps_seq. Qed.

Lemma steady_skip : steady skip.
Proof. apply keeps_skip. Qed.

Lemma steady_emit e : steady (emit e).
Proof. by apply keeps_emit. Qed.

Lemma steady_assign f : (forall s, steady_ok s -> steady_ok (f s)) -> steady (assign f).
Proof. apply keeps_assign. Qed.

Lemma steady_this (k : client -> act) : (forall s, steady (k s)) -> steady (get_this k).
Proof. intros Hk s Hs. by apply (Hk s s). Qed.

Lemma steady_each {A} (l : list A) k : (forall x, steady (k x)) -> steady (each l k).
Proof. apply keeps_each. Qed.

Lemma steady_settle k v : steady (settle k v).
Proof. unfold settle. destruct k; (apply steady_assign; done) || apply steady_emit. Qed.

Create HintDb steady discriminated.
#[local] Hint Constants Opaque : steady.
#[local] Hint Resolve steady_settle : steady.

Ltac steady_step :=
  lazymatch goal with
  | |- steady (seq_action _ _) => apply steady_seq
  | |- steady (get_this _) => apply steady_this; intros ?
  | |- steady (each _ _) => apply steady_each; intros ?
  | |- steady skip => apply steady_skip
  | |- steady (emit _) => apply steady_emit
  | |- steady (assign _) => apply steady_assign; intros ?; exact (fun H => H)
  | |- steady (match ?x with _ => _ end) => destruct x
  | |- steady (let x := ?v in @?b x) => change (steady (b v)); cbv beta
  | |- steady _ => solve [auto 2 with steady nocore]
  end.

Ltac steady := repeat steady_step.

Lemma steady_update : steady updateBackpressure.
Proof. apply settles_steady, update_settles. Qed.

Lemma steady_callbacks e : steady (rejectCallbacks e).
Proof. unfold rejectCallbacks. steady. Qed.

Lemma steady_idle e : steady (rejectIdleWaiters e).
Proof. unfold rejectIdleWaiters. steady. Qed.

Lemma steady_fences e : steady (rejectFenceWaiters e).
Proof. unfold rejectFenceWaiters. steady. apply steady_assign. intros t [H _]. split; [exact H | constructor]. Qed.
#[local] Hint Resolve steady_update steady_callbacks steady_idle steady_fences : steady.

Lemma steady_failure e : steady (handleWorkerFailure e).
Proof.
  unfold handleWorkerFailure. steady. apply steady_assign. intros t [[H1 H2] H3]. split; [|exact H3]. split; [exact H1 | by intros _ Hx].
Qed.

Lemma steady_request r a k : steady (sendRequest r a k).
Proof. unfold sendRequest. steady. Qed.

Lemma steady_message id v : steady (handleMessage id v).
Proof. unfold handleMessage. steady. Qed.

Lemma steady_schedule d : steady (scheduleFlush d).
Proof. unfold scheduleFlush. steady. Qed.

Lemma steady_idle_ready : steady resolveIdleWaitersIfReady.
Proof. unfold resolveIdleWaitersIfReady. steady. Qed.

Lemma fenced_filter (f : Z * continuation -> bool) l : Forall fenced (map snd l) -> Forall fenced (map snd (List.filter f l)).
Proof.
  induction l as [|w l IH]; [done|]. cbn [map List.filter]. intros [H1 H2]%list.Forall_cons. destruct (f w); [|by apply IH]. constructor; [exact H1 | by apply IH].
Qed.

Lemma steady_fence_ready : steady resolveFenceWaiters.
Proof.
  unfold resolveFenceWaiters. steady. apply steady_assign. intros t [H1 H2]. split; [exact H1 | by apply (fenced_filter _ (fenceWaiters t))].
Qed.

Lemma steady_clear_flush : steady clearFlushTimer.
Proof. unfold clearFlushTimer. steady. Qed.

Lemma steady_clear_retry : steady clearRetryTimer.
Proof. unfold clearRetryTimer. steady. Qed.
#[local] Hint Resolve steady_failure steady_request steady_message steady_schedule steady_idle_ready steady_fence_ready steady_clear_flush steady_clear_retry : steady.

Lemma steady_send : steady sendInFlightBatch.
Proof. unfold sendInFlightBatch. steady. Qed.
#[local] Hint Resolve steady_send : steady.

(** Fences are left as they are. *)
Lemma fenced_assign f : (forall s, fenceWaiters (f s) = fenceWaiters s) -> keeps (fun s => Forall fenced (map snd (fenceWaiters s))) (fun _ : client_effect => True) (assign f).
Proof. intros Hf. apply keeps_assign. intros s. by rewrite Hf. Qed.

Ltac settles :=
  repeat first
    [ apply settles_this; intros ?
    | apply settles_seq; [apply fenced_assign; intros ?; reflexivity|]
    | apply settles_before; [apply update_settles|]
    | apply update_settles ].

Lemma compact_fences s : fenceWaiters (compact_queue s) = fenceWaiters s.
Proof. unfold compact_queue. by case_if. Qed.

Lemma steady_flush : steady flushNextBatch.
Proof.
  unfold flushNextBatch. apply steady_this. intros s. case_if; [steady|]. unfold takeBatch, makeBatch. apply settles_steady, settles_this. intros t.
  destruct (take_loop (live t) 0 0) as [es bytes]. settles. apply settles_seq; [apply fenced_assign, compact_fences|]. settles. apply steady_send.
Qed.
#[local] Hint Resolve steady_flush : steady.

Lemma steady_drain k : steady (drain k).
Proof. unfold drain. steady. Qed.

Lemma steady_fence k : fenced k -> steady (fence k).
Proof.
  intros Hk. unfold fence. steady. apply steady_assign. intros t [H1 H2]. split; [exact H1|].
  match goal with |- Forall fenced (map snd ?x) => change x with (fenceWaiters t ++ [(mutationSequence s, k)]) end. rewrite map_app. apply Forall_app. split; [exact H2|].
  by constructor.
Qed.
#[local] Hint Resolve steady_drain : steady.

Lemma steady_finally e : steady (close_finally e).
Proof. unfold close_finally. steady. Qed.
#[local] Hint Resolve steady_finally : steady.

Lemma steady_resumes stage v : steady (close_resumes stage v).
Proof. unfold close_resumes. steady. Qed.

Lemma steady_then n : steady (batch_then n).
Proof.
  unfold batch_then. apply steady_this. intros s. destruct (is_in_flight s n) as [f|]; [|steady].
  apply settles_steady. apply settles_seq; [apply fenced_assign; intros t; by destruct (list.last (entries f))|]. settles. steady.
Qed.

Lemma steady_catch n e : steady (batch_catch n e).
Proof.
  unfold batch_catch. apply steady_this. intros s. destruct (is_in_flight s n) as [f|]; [|steady]. case_if; [steady|].
  apply settles_steady. settles. apply settles_seq; [|apply update_settles].
  intros t Ht. split; [|by apply Forall_true]. rewrite handleWorkerFailure_state. destruct (failure t); [exact Ht | constructor].
Qed.
#[local] Hint Resolve steady_resumes steady_then steady_catch : steady.

Lemma steady_enqueue m : steady (enqueue m).
Proof.
  unfold enqueue. apply steady_this. intros s. destruct (readOnly o); [steady|]. case_if; [steady|]. destruct (failure s); [steady|].
  cbv zeta. apply settles_steady. settles. steady.
Qed.

Lemma steady_close : steady closeInternal.
Proof. unfold closeInternal. steady. Qed.
#[local] Hint Resolve steady_enqueue steady_close : steady.

Lemma steady_event e : steady (on_event e).
Proof.
  destruct e; cbn [on_event]; unfold promised; steady; by apply steady_fence.
Qed.

Lemma steady_jobs fuel : steady (run_jobs fuel).
Proof.
  induction fuel as [|n IH]; cbn [run_jobs]; apply steady_this; intros s; destruct (jobs s) as [|j tl]; try apply steady_skip.
  apply steady_seq; [steady|]. apply steady_seq; [|exact IH]. destruct j as [[] v]; cbn [do_job]; steady.
Qed.

Lemma steady_step_ok now e s : steady_ok s -> steady_ok (fst (client_step now e s)).
Proof.
  assert (steady (client_step now e)) as H; [|by apply H]. unfold client_step, microtasks. apply steady_seq; [steady|].
  apply steady_seq; [apply steady_event|]. apply steady_this. intros t. apply steady_jobs.
Qed.

Lemma runs_steady hist s out : runs hist s out -> steady_ok s.
Proof.
  induction 1 as [|hist s out now e _ IH _]; [|by apply steady_step_ok].
  pose proof watermarks. split; [|constructor]. split; [|done]. intros _. left. change (0 < highWatermarkBytes o). lia.
Qed.

Lemma total_sized es : Forall sized es -> total es = fold_right Z.add 0 (map (fun e => estimateMutationBytes heap (e_mutation e)) es).
Proof. induction 1 as [|e l He _ IH]; [done|]. cbn [total fold_right map]. fold (total l). unfold sized in He. by rewrite IH, He. Qed.

(** C38: the bytes that count are those of the mutations that are not committed.  Sources that are not paused leave them below
    the high watermark; sources of a client that works are paused only while they are not below the low one, so never for good
    once everything is committed. *)
Theorem bmp_backpressure hist s out : runs hist s out ->
  bufferedBytes s = fold_right Z.add 0 (map (fun e => estimateMutationBytes heap (e_mutation e)) (pendings s)) /\
  (paused s = false -> bufferedBytes s < highWatermarkBytes o \/ bufferedBytes s <= lowWatermarkBytes o) /\
  (paused s = true -> failure s = None -> lowWatermarkBytes o <= bufferedBytes s /\ pendings s <> []).
Proof.
  intros Hr. destruct (runs_inv hist s out Hr) as [((Ho & _) & _) _]. destruct (runs_steady hist s out Hr) as [[H1 H2] _].
  destruct Ho as (_ & _ & _ & _ & _ & _ & Hz & Hq & Hf & _). assert (bufferedBytes s = total (pendings s)) as Hb.
  { unfold bufferedBytes, pendings. rewrite Hq, Hf, total_app. lia. }
  split; [|split; [exact H1|]].
  - rewrite Hb. by apply total_sized.
  - intros Hp Hx. specialize (H2 Hp Hx). split; [exact H2|]. intros Hn. rewrite Hb, Hn in H2. pose proof watermarks. change (total []) with 0 in H2. lia.
Qed.
(** * Every mutation can be committed *)

Definition works (s : client) : Prop := failure s = None /\ worker s = true /\ workerAlive s = true.

(** The state of the callers and of the worker's answers. *)
Lemma microtasks_none s : jobs s = [] -> fst (microtasks s) = s.
Proof. intros Hj. unfold microtasks, get_this. destruct (weight s); cbn [run_jobs]; unfold get_this; by rewrite Hj. Qed.

Lemma send_out s f : calls_ok s -> works s -> inFlight s = Some f -> posted (ApplyBatch (f_batch f)) = true ->
  fst (sendInFlightBatch s) = requested (BatchAnswer (f_number f)) (s <| inFlight := Some (next_attempt f) |>).
Proof.
  intros Hc (Hf & Hw & Ha) Hi Hp. unfold sendInFlightBatch, get_this. rewrite Hi, Hf, fst_seq, fst_assign.
  change {| entries := entries f; f_bytes := f_bytes f; f_batch := f_batch f; f_number := f_number f; attempts := attempts f + 1 |} with (next_attempt f).
  set (t := s <| inFlight := Some (next_attempt f) |>).
  assert (calls_ok t /\ worker t = true /\ workerAlive t = true /\ failure t = None) as (C1 & C2 & C3 & C4) by done. clearbody t.
  by rewrite (sendRequest_sent (ApplyBatch (f_batch f)) true (BatchAnswer (f_number f)) t C1 C2 C3 (fun _ => eq_refl) C4 Hp).
Qed.

(** The batch is with the worker. *)
Definition sent (s : client) : Prop := works s /\ retryTimer s = false /\ is_Some (inFlight s).

Lemma sent_after s f : calls_ok s -> works s -> inFlight s = Some f -> posted (ApplyBatch (f_batch f)) = true -> jobs s = [] -> retryTimer s = false ->
  exists t, fst (microtasks (fst (sendInFlightBatch s))) = t /\ sent t /\ pendings t = pendings s.
Proof.
  intros Hc Hw Hi Hp Hj Hr. rewrite (send_out s f) by done. set (t := requested _ _). assert (jobs t = []) as Ht by exact Hj.
  rewrite microtasks_none by done. exists t. split; [done|]. split; [split; [exact Hw | split; [exact Hr | by eexists]]|].
  unfold pendings, flying. by rewrite Hi.
Qed.

Lemma launched_works s es : works s -> forall p, works ((launched s es (total es)) <| paused := p |>).
Proof.
  intros Hw p. unfold launched. destruct (compact_frame (s <| queueHead := (queueHead s + length es)%nat |> <| queueBytes := queueBytes s - total es |>)) as (q & h & ->). exact Hw.
Qed.

Lemma flush_step hist now s : (forall b, posted (ApplyBatch b) = true) -> inv hist s -> jobs s = [] -> works s -> flushTimer s = true -> inFlight s = None -> live s <> [] ->
  exists t, fst (client_step now (TimerFires FlushTimer) s) = t /\ sent t /\ pendings t = pendings s.
Proof.
  intros Hposts Hi Hj Hw Hft Hif Hl. unfold client_step. rewrite fst_seq, fst_assign, fst_seq. cbn [on_event]. unfold get_this at 1.
  change (flushTimer (s <| clock := now |>)) with (flushTimer s). rewrite Hft, fst_seq, fst_assign. set (u := s <| clock := now |> <| flushTimer := false |>).
  assert (core hist u /\ works u /\ jobs u = [] /\ inFlight u = None /\ live u <> [] /\ pendings u = pendings s) as (Uc & Uw & Uj & Ui & Ul & <-) by (split; [apply Hi | done]).
  assert (retryTimer u = false) as Ur. { destruct Hi as (_ & Ht & _). unfold tokens_ok in Ht. rewrite Hif in Ht. apply Ht. } clearbody u.
  destruct (flush_takes u (order_live _ _ (proj1 Uc)) (conj Ui (conj Ul (proj1 Uw)))) as (es & tl & p & Hq & Hne & _ & ->).
  destruct (launched_fields u es (total es)) as (F1 & F2 & F3 & F4 & F5 & F6 & F7 & F8 & F9 & F10 & F11).
  pose proof (core_launched hist u es tl Ui Hq Hne Uc) as Hcl. pose proof (launched_works u es Uw p) as Hwl.
  destruct (launched_pendings u es tl (total es) Ui Hq) as [Hpl _]. assert (inFlight (launched u es (total es)) = Some (new_flight u es (total es))) as Hfl by done.
  rewrite <- Hpl. rewrite <- F6 in Uj. rewrite <- F11 in Ur. clear F1 F2 F3 F4 F5 F6 F7 F8 F9 F10 F11 Hpl. generalize dependent (launched u es (total es)). intros L Uj Ur Hcl Hwl Hfl.
  destruct (sent_after (L <| paused := p |>) (new_flight u es (total es))) as (t & E1 & E2 & E3);
    [exact (proj1 (proj2 Hcl)) | exact Hwl | exact Hfl | apply Hposts | exact Uj | exact Ur |].
  exists t. split; [exact E1|]. split; [exact E2 | exact E3].
Qed.

Lemma retry_step hist now s : (forall b, posted (ApplyBatch b) = true) -> inv hist s -> jobs s = [] -> works s -> retryTimer s = true ->
  exists t, fst (client_step now (TimerFires RetryTimer) s) = t /\ sent t /\ pendings t = pendings s.
Proof.
  intros Hposts Hi Hj Hw Hrt. destruct Hi as (Hc & Ht & _). destruct (inFlight s) as [f|] eqn:Hf; [|unfold tokens_ok in Ht; rewrite Hf in Ht; destruct Ht; congruence].
  unfold client_step. rewrite fst_seq, fst_assign, fst_seq. cbn [on_event]. unfold get_this at 1.
  change (retryTimer (s <| clock := now |>)) with (retryTimer s). rewrite Hrt, fst_seq, fst_assign.
  destruct (sent_after (s <| clock := now |> <| retryTimer := false |>) f) as (t & E1 & E2 & E3);
    [exact (proj1 (proj2 Hc)) | exact Hw | exact Hf | apply Hposts | exact Hj | done |].
  exists t. split; [exact E1|]. split; [exact E2 | exact E3].
Qed.
(** Without a batch in flight, the microtasks commit nothing more. *)
Lemma job_keeps hist s j tl : inv hist s -> inFlight s = None -> jobs s = j :: tl ->
  let t := fst (do_job j (s <| jobs := tl |>)) in inFlight t = None /\ pendings t = pendings s.
Proof.
  intros Hi Hf Hj. cbv zeta. set (u := s <| jobs := tl |>). assert (calls_ok u) as Hc by exact (proj1 (proj2 (proj1 Hi))).
  assert (forall r a k, inFlight (fst (sendRequest r a k u)) = None /\ pendings (fst (sendRequest r a k u)) = pendings s) as Hr.
  { intros r a k. destruct (sendRequest_cases r a k u Hc) as [->|(e & n & _ & ->)]; (split; [exact Hf | done]). }
  destruct j as [[p|n|p r|stage] v]; cbn [do_job].
  - split; [exact Hf | done].
  - destruct (batch_answered s n v tl (proj1 (proj2 Hi)) Hj) as (f & Hx & _). congruence.
  - destruct v; [apply Hr | split; [exact Hf | done]].
  - destruct v as [|e]; [destruct stage|]; cbn [close_resumes]; try apply Hr; rewrite close_finally_state; (split; [exact Hf | done]).
Qed.

Lemma jobs_keep hist fuel : forall s, inv hist s -> inFlight s = None -> pendings (fst (run_jobs fuel s)) = pendings s.
Proof.
  induction fuel as [|n IH]; intros s Hi Hf; cbn [run_jobs]; unfold get_this; destruct (jobs s) as [|j tl] eqn:Hj; try done.
  rewrite fst_seq, fst_assign, fst_seq. destruct (job_keeps hist s j tl Hi Hf Hj) as [H1 H2]. rewrite IH by (done || by apply inv_job). exact H2.
Qed.

(** Purges behind a fence leave the client at work. *)
Lemma jobs_work hist fuel : forall s, inv hist s -> Forall (fun j => fenced (fst j)) (jobs s) -> works s -> works (fst (run_jobs fuel s)).
Proof.
  induction fuel as [|n IH]; intros s Hi Hj Hw; cbn [run_jobs]; unfold get_this; destruct (jobs s) as [|j tl] eqn:Ej; try done.
  rewrite fst_seq, fst_assign, fst_seq. apply list.Forall_cons in Hj as [H1 H2].
  assert (calls_ok (s <| jobs := tl |>)) as Hc by exact (proj1 (proj2 (proj1 Hi))). pose proof (inv_job hist s j tl Hi Ej) as Hi2.
  assert (Forall (fun j => fenced (fst j)) (jobs (fst (do_job j (s <| jobs := tl |>)))) /\ works (fst (do_job j (s <| jobs := tl |>)))) as [H3 H4]; [|by apply IH].
  destruct j as [[p|m|p r|stage] v]; cbn [do_job]; try done. destruct v; [|done].
  destruct (sendRequest_cases r false (Caller p) (s <| jobs := tl |>) Hc) as [->|(e & m & _ & ->)]; [done|]. cbn [jobs_of]. rewrite push_nil. done.
Qed.

Lemma fenced_jobs ks v : Forall fenced ks -> Forall (fun j => fenced (fst j)) (jobs_for v ks).
Proof. induction 1 as [|k ks Hk _ IH]; [constructor|]. change (jobs_for v (k :: ks)) with (jobs_of v k ++ jobs_for v ks). apply Forall_app. split; [|exact IH]. destruct k; by repeat constructor. Qed.

(** What a commit leaves while mutations wait. *)
Lemma commit_leaves s p : inFlight s = None -> jobs s = [] -> Forall fenced (map snd (fenceWaiters s)) ->
  inFlight (after_commit s p) = None /\ pendings (after_commit s p) = live s /\
  (live s <> [] -> Forall (fun j => fenced (fst j)) (jobs (after_commit s p)) /\ (works s -> works (after_commit s p))).
Proof.
  intros Hi Hj Hf. unfold after_commit. set (t := flush_scheduled (s <| paused := p |>)).
  assert (inFlight t = None /\ jobs t = [] /\ fenceWaiters t = fenceWaiters s /\ live t = live s /\ (works s -> works t)) as (T1 & T2 & T3 & T4 & T5).
  { unfold t, flush_scheduled. by case_bool_decide. }
  clearbody t. rewrite <- T4. rewrite <- T3 in Hf. split; [by case_bool_decide|]. split.
  { assert (pendings t = live t) as <- by (unfold pendings, flying; by rewrite T1). by case_bool_decide. }
  intros Hl. rewrite bool_decide_eq_false_2 by done. split; [|exact T5].
  match goal with |- Forall _ ?x => change x with (jobs t ++ jobs_for Fulfilled (map snd (List.filter (reached t) (fenceWaiters t)))) end.
  rewrite T2. apply fenced_jobs. by apply fenced_filter.
Qed.

(** The answer to the batch runs. *)
Lemma answered_jobs hist f s : inv hist s -> jobs s = [(BatchAnswer (f_number f), Fulfilled)] -> inFlight s = Some f -> works s ->
  Forall fenced (map snd (fenceWaiters s)) ->
  pendings (fst (microtasks s)) = live s /\ (live s <> [] -> works (fst (microtasks s))).
Proof.
  intros Hi Hj Hf Hw Hfe. unfold microtasks, get_this. destruct (weight s) as [|m] eqn:Ew.
  { exfalso. unfold weight in Ew. rewrite Hj in Ew. cbn in Ew. lia. }
  cbn [run_jobs]. unfold get_this. rewrite Hj, fst_seq, fst_assign, fst_seq. cbn [do_job].
  set (u := s <| jobs := [] |>). match goal with |- context [batch_then _ ?x] => change x with u end.
  assert (inv hist (fst (batch_then (f_number f) u))) as Hv by exact (inv_job hist s _ _ Hi Hj).
  assert (core hist u /\ inFlight u = Some f /\ jobs u = [] /\ live u = live s /\ fenceWaiters u = fenceWaiters s /\ works u) as (U1 & U2 & U3 & <- & U5 & U6) by (split; [apply Hi | done]).
  clearbody u. rewrite <- U5 in Hfe. destruct (batch_then_state hist (f_number f) f u U1 U2 eq_refl) as [p Hp]. rewrite Hp in Hv |- *.
  destruct (commit_leaves (committed_state f u) p eq_refl U3 Hfe) as (C1 & C2 & C3).
  change (live (committed_state f u)) with (live u) in *. split; [by rewrite (jobs_keep hist)|].
  intros Hl. destruct (C3 Hl) as [C4 C5]. apply (jobs_work hist); [exact Hv | exact C4 | apply C5; exact U6].
Qed.

Lemma answer_step hist now id f s : inv hist s -> jobs s = [] -> works s -> Forall fenced (map snd (fenceWaiters s)) ->
  inFlight s = Some f -> jmap_get (callbacks s) id = Some (BatchAnswer (f_number f)) ->
  exists t, fst (client_step now (MessageArrives id Fulfilled) s) = t /\ pendings t = live s /\ (live s <> [] -> works t).
Proof.
  intros Hi Hj Hw Hfe Hf Hg. unfold client_step. rewrite fst_seq, fst_assign, fst_seq. cbn [on_event]. set (s0 := s <| clock := now |>).
  pose proof (inv_message hist id Fulfilled s0 Hi) as Hu. set (u := fst (handleMessage id Fulfilled s0)) in *.
  assert (u = push_jobs [(BatchAnswer (f_number f), Fulfilled)] (s0 <| callbacks := jmap_delete (callbacks s) id |>)) as Eu.
  { unfold u, handleMessage, get_this. change (callbacks s0) with (callbacks s). by rewrite Hg, fst_seq, settle_state. }
  assert (jobs u = jobs s ++ [(BatchAnswer (f_number f), Fulfilled)] /\ inFlight u = inFlight s /\ live u = live s /\ fenceWaiters u = fenceWaiters s /\
    failure u = failure s /\ worker u = worker s /\ workerAlive u = workerAlive s) as (U1 & U2 & <- & U4 & U5 & U6 & U7) by (by rewrite Eu).
  clearbody u. clear Eu. eexists. split; [done|]. apply (answered_jobs hist f); [exact Hu | by rewrite U1, Hj | by rewrite U2 | | by rewrite U4].
  unfold works. by rewrite U5, U6, U7.
Qed.

(** Events one behind the other. *)
Fixpoint run_events (es : list (N * client_event)) : act :=
  match es with
  | [] => skip
  | (now, e) :: tl => client_step now e ;;; run_events tl
  end.

(** A timer fires, or the worker answers that it did what it was asked for. *)
Definition expected (e : N * client_event) : Prop :=
  match snd e with TimerFires _ => True | MessageArrives _ Fulfilled => True | _ => False end.

Lemma expected_step hist now e s : expected (now, e) -> inv hist s /\ jobs s = [] /\ steady_ok s ->
  inv hist (fst (client_step now e s)) /\ jobs (fst (client_step now e s)) = [] /\ steady_ok (fst (client_step now e s)).
Proof.
  intros He (Hi & Hj & Hs). assert (admissible s e) as Ha by (by destruct e). assert (accepts s e = []) as Hn by (by destruct e).
  pose proof (client_inv_step hist now e s Ha Hi) as H. rewrite Hn, app_nil_r in H. split; [exact H|]. split; [by eapply step_jobs|]. by apply steady_step_ok.
Qed.

Lemma run_events_cons e es s t : fst (client_step (fst e) (snd e) s) = t -> fst (run_events (e :: es) s) = fst (run_events es t).
Proof. intros <-. destruct e as [now e]. cbn [run_events fst snd]. by rewrite fst_seq. Qed.

Lemma run_events_app a b s : fst (run_events (a ++ b) s) = fst (run_events b (fst (run_events a s))).
Proof. revert s. induction a as [|[now e] a IH]; intros s; [done|]. cbn [app run_events]. by rewrite !fst_seq, IH. Qed.

(** A batch that waits gets to the worker. *)
Lemma gets_sent hist s : (forall b, posted (ApplyBatch b) = true) -> inv hist s -> jobs s = [] -> works s -> pendings s <> [] ->
  sent s \/ exists e t, expected e /\ fst (client_step (fst e) (snd e) s) = t /\ sent t /\ pendings t = pendings s.
Proof.
  intros Hposts Hi Hj Hw Hp. destruct (inFlight s) as [f|] eqn:Hf.
  - destruct (retryTimer s) eqn:Hr; [right | left; split; [exact Hw | split; [exact Hr | by eexists]]].
    destruct (retry_step hist 0%N s Hposts Hi Hj Hw Hr) as (t & Ht). by exists (0%N, TimerFires RetryTimer), t.
  - right. unfold pendings, flying in Hp. rewrite Hf in Hp. destruct (flush_step hist 0%N s) as (t & Ht); try done; [|by exists (0%N, TimerFires FlushTimer), t].
    apply Hi; [apply Hw | apply Hw | done | exact Hp].
Qed.
(** A client between two events. *)
Definition rests (hist : list (mutation (X := X))) (s : client) : Prop := inv hist s /\ jobs s = [] /\ steady_ok s.

Lemma rests_step hist e s : expected e -> rests hist s -> rests hist (fst (client_step (fst e) (snd e) s)).
Proof. destruct e as [now e]. apply expected_step. Qed.

(** The answer that the worker owes. *)
Lemma owed hist s : rests hist s -> sent s -> exists f id, inFlight s = Some f /\ jmap_get (callbacks s) id = Some (BatchAnswer (f_number f)).
Proof.
  intros (((_ & (Hk & _) & _) & Ht & _) & Hj & _) ((Hf & Hw & _) & Hr & [f Hi]). unfold tokens_ok in Ht. rewrite Hi in Ht.
  destruct Ht as [[Ha _]|[[_ H]|(_ & _ & [H|H])]]; [|congruence..]. unfold answers in Ha. rewrite Hj in Ha.
  destruct (answers_in_elem (f_number f) (callbacks s)) as (id & Hin); [cbn in Ha; rewrite Ha; by left|].
  exists f, id. split; [done|]. by apply jmap_get_elem.
Qed.

Lemma batch_commits hist s : rests hist s -> sent s ->
  exists e t, expected e /\ fst (client_step (fst e) (snd e) s) = t /\ (length (pendings t) < length (pendings s))%nat /\ (pendings t <> [] -> works t).
Proof.
  intros Hs Hsent. destruct (owed hist s Hs Hsent) as (f & id & Hf & Hg). destruct Hs as (Hi & Hj & [_ Hfe]).
  destruct (answer_step hist 0%N id f s Hi Hj (proj1 Hsent) Hfe Hf Hg) as (t & Ht & Hp & Hw). exists (0%N, MessageArrives id Fulfilled), t.
  split; [done|]. split; [exact Ht|]. rewrite Hp. split; [|exact Hw]. unfold pendings, flying. rewrite Hf, length_app.
  destruct Hi as (((_ & _ & _ & _ & _ & _ & _ & _ & _ & _ & H) & _) & _). unfold flight_ok in H. rewrite Hf in H. destruct H as [H _]. destruct (entries f); [done|]. cbn [length]. lia.
Qed.

Lemma commits_all hist : (forall b, posted (ApplyBatch b) = true) -> forall n s, (length (pendings s) <= n)%nat -> rests hist s -> works s ->
  exists es, Forall expected es /\ pendings (fst (run_events es s)) = [] /\ rests hist (fst (run_events es s)).
Proof.
  intros Hposts. induction n as [|n IH]; intros s Hn Hs Hw.
  { exists []. split; [constructor|]. split; [|exact Hs]. change (pendings s = []). destruct (pendings s); [done | cbn in Hn; lia]. }
  destruct (decide (pendings s = [])) as [Hp|Hp]; [exists []; by split; [constructor|]|].
  assert (exists es t, Forall expected es /\ fst (run_events es s) = t /\ sent t /\ pendings t = pendings s /\ rests hist t) as (es1 & t & He1 & Ht & Hsent & Hpt & Hrt).
  { destruct (gets_sent hist s Hposts (proj1 Hs) (proj1 (proj2 Hs)) Hw Hp) as [Hx|(e & t & He & Ht & Hx & Hpt)]; [by exists [], s|].
    exists [e], t. split; [by constructor|]. rewrite (run_events_cons e [] s t Ht). split; [done|]. split; [done|]. split; [done|]. rewrite <- Ht. by apply rests_step. }
  destruct (batch_commits hist t Hrt Hsent) as (e & u & He & Hu & Hlt & Hwu). assert (rests hist u) as Hru by (rewrite <- Hu; by apply rests_step).
  destruct (decide (pendings u = [])) as [Hpu|Hpu].
  - exists (es1 ++ [e]). split; [apply Forall_app; split; [done | by constructor]|]. rewrite run_events_app, Ht, (run_events_cons e [] t u Hu). done.
  - rewrite Hpt in Hlt. destruct (IH u) as (es2 & H1 & H2); [lia | done | by apply Hwu|]. exists (es1 ++ e :: es2). split; [apply Forall_app; split; [done | by constructor]|].
    rewrite run_events_app, Ht, (run_events_cons e es2 t u Hu). exact H2.
Qed.

(** C26: a client that works, and whose batches can be posted, can always finish: the timers and the answers that are due commit every
    mutation it accepted, and with that every [drain] and every [fence] that waits is settled. *)
Theorem bmp_all_can_commit hist s out : (forall b, posted (ApplyBatch b) = true) ->
  runs hist s out -> failure s = None -> worker s = true -> workerAlive s = true ->
  exists es, Forall expected es /\
    let t := fst (run_events es s) in
    pendings t = [] /\ committedMutationSequence t = blen hist /\ idleWaiters t = [] /\ fenceWaiters t = [].
Proof.
  intros Hposts Hr Hf Hw Ha. destruct (runs_inv hist s out Hr) as [Hi Hj].
  destruct (commits_all hist Hposts (length (pendings s)) s) as (es & He & Hp & Ht); [done | split; [exact Hi | split; [exact Hj | by eapply runs_steady]] | done |].
  exists es. split; [done|]. cbv zeta. generalize dependent (fst (run_events es s)). intros t Hp (((Ho & _ & _ & [W1 W2]) & _) & _).
  destruct Ho as (_ & _ & _ & H4 & H5 & _). rewrite Hp in H5. change (blen []) with 0 in H5. split; [done|]. split; [lia|].
  destruct (failure t) as [x|] eqn:Ex; [by apply W1|]. destruct (W2 eq_refl) as [V1 V2]. split.
  - destruct (idleWaiters t); [done|]. by destruct (V1 ltac:(done)).
  - destruct (fenceWaiters t) as [|w l]; [done|]. specialize (V2 w ltac:(by left)). lia.
Qed.
End Client.

(** * Examples *)

Module Examples.
Definition heap (a : Z) : descriptor (X := Z) :=
  {| id := js "source"; keyJson := Some (js "{}"); identityJson := None; sysName := Some (js "router"); sysDesc := None; metadata := true; others := a |}.
Definition stringify (d : descriptor (X := Z)) : option jsstring := Some (dec_digits (others d)).
Definition defaults : raw_options := {|
  raw_batchSize := Some 2; raw_batchBytes := None; raw_flushMs := None; raw_highWatermarkBytes := Some 2000; raw_lowWatermarkBytes := Some 1000;
  raw_batchRetryLimit := None; raw_batchRetryDelayMs := None; raw_readOnly := false |}.
Definition announce (n : Z) : mutation (X := Z) :=
  {| source := Some 1; connection := None; scope := Some 2; route := None; statistics := None; rest := n |}.

Abbreviation step := (client_step stringify heap 7 defaults (fun _ => true) (fun _ => true)).
Abbreviation run := (run_events stringify heap 7 defaults (fun _ => true) (fun _ => true)).
Abbreviation runs := (runs stringify heap 7 defaults (fun _ => true) (fun _ => true)).

Definition request (n : Z) : jsstring := request_id 7 1%N n.

(** Three mutations; the first batch has two of them, is refused once and committed when it is sent again. *)
Definition session : list (N * client_event (X := Z)) :=
  map (fun e => (1%N, e)) [CallOpen; MessageArrives (request 1) Fulfilled; CallEnqueue (announce 10); CallEnqueue (announce 11); CallEnqueue (announce 12); CallFence;
    MessageArrives (request 2) (Rejected (RequestFailed (js "BUSY"))); TimerFires RetryTimer; MessageArrives (request 3) Fulfilled].

Example session_commits : let '(s, out) := run session new_client in
  map (fun p => p.(p_rest)) (committed_mutations out) = [10; 11] /\ map (fun e => rest (e_mutation e)) (pendings s) = [12] /\ flushTimer s = true /\ paused s = false.
Proof. vm_compute. by repeat split. Qed.

(** A client that was opened and has one mutation to commit. *)
Definition s1 := fst (step 1%N CallOpen new_client).
Definition s2 := fst (step 1%N (MessageArrives (request 1) Fulfilled) s1).
Definition s3 := fst (step 1%N (CallEnqueue (announce 10)) s2).
Definition out3 := (([] ++ snd (step 1%N CallOpen new_client)) ++ snd (step 1%N (MessageArrives (request 1) Fulfilled) s1)) ++ snd (step 1%N (CallEnqueue (announce 10)) s2).

Lemma runs3 : runs [announce 10] s3 out3.
Proof.
  unfold out3. assert (runs [] s1 ([] ++ snd (step 1%N CallOpen new_client))) as R1.
  { apply (runs_step _ _ _ _ _ _ [] new_client [] 1%N CallOpen); [apply runs_new | by right]. }
  assert (runs [] s2 (([] ++ snd (step 1%N CallOpen new_client)) ++ snd (step 1%N (MessageArrives (request 1) Fulfilled) s1))) as R2.
  { by apply (runs_step _ _ _ _ _ _ [] s1 _ 1%N (MessageArrives (request 1) Fulfilled)). }
  assert (accepts defaults s2 (CallEnqueue (announce 10)) = [announce 10]) as Ha by (vm_compute; reflexivity).
  pose proof (runs_step _ _ _ _ _ _ [] s2 _ 1%N (CallEnqueue (announce 10)) R2) as R3. rewrite Ha in R3. by apply R3.
Qed.

Lemma bmp_mutations_in_order_witness :
  map (plain heap) [announce 10] = committed_mutations out3 ++ map (fun e => plain heap (e_mutation e)) (pendings s3).
Proof. apply (bmp_mutations_in_order stringify heap 7 defaults (fun _ => true) (fun _ => true) _ _ _ runs3). Defined.

Lemma bmp_commit_under_way_witness : flushTimer s3 = true \/ retryTimer s3 = true \/
  exists f id, inFlight s3 = Some f /\ jmap_get (callbacks s3) id = Some (BatchAnswer (f_number f)).
Proof. apply (bmp_commit_under_way stringify heap 7 defaults (fun _ => true) (fun _ => true) _ _ _ runs3); [by vm_compute | by vm_compute | by vm_compute]. Defined.

Lemma bmp_backpressure_witness : bufferedBytes s3 = 842 /\
  (paused s3 = false -> bufferedBytes s3 < 2000 \/ bufferedBytes s3 <= 1000) /\ (paused s3 = true -> failure s3 = None -> 1000 <= bufferedBytes s3 /\ pendings s3 <> []).
Proof. apply (bmp_backpressure stringify heap 7 defaults (fun _ => true) (fun _ => true) _ _ _ runs3). Defined.

Lemma bmp_all_can_commit_witness : exists es, Forall expected es /\
  let t := fst (run es s3) in pendings t = [] /\ committedMutationSequence t = 1 /\ idleWaiters t = [] /\ fenceWaiters t = [].
Proof. apply (bmp_all_can_commit stringify heap 7 defaults (fun _ => true) (fun _ => true) _ _ _ (fun _ => eq_refl) runs3); by vm_compute. Defined.

(** Close, while the worker ends with the batch: the mutation is kept, and a later [drain] waits with nothing to wake it. *)
Example drain_after_lost_close :
  let s := fst (run (map (fun e => (1%N, e)) [CallClose false; WorkerExits 1; CallDrain]) s3) in
  map (fun e => rest (e_mutation e)) (pendings s) = [10] /\ idleWaiters s = [Caller 2] /\ failure s = None /\
  flushTimer s = false /\ retryTimer s = false /\ callbacks s = [] /\ worker s = false.
Proof. vm_compute. by repeat split. Qed.

(** [open] after [close] starts a thread that it then refuses to talk to, and that a second [close] does not end. *)
Example open_after_close :
  let '(s, out) := run (map (fun e => (1%N, e)) [CallClose false; MessageArrives (request 2) Fulfilled; MessageArrives (request 3) Fulfilled; CallOpen; CallClose false]) s2 in
  worker s = true /\ out = [Post (request 2) Checkpoint; Post (request 3) CloseStore; Terminate 1 Fulfilled; Spawn; Reject 2 IsClosing].
Proof. vm_compute. by repeat split. Qed.
End Examples.
